(* ===== verification/_CoqProject ===== *)
-Q . S2P
Prelude.v
Errors.v
Apdu.v
Connector.v
Iso7816.v
Crypto.v
Scp03.v
CtapHid.v
YubiHsm.v
Storage.v
Mechanisms.v
AttributeTypes.v
KeyMetadata.v
SlotState.v
SessionApi.v
LoginSelectors.v
CryptApi.v
Digests.v
CipherModes.v
Ciphers.v
CipherStreams.v
CipherSafety.v
CipherTypes.v
SignatureModes.v
HsmCapabilities.v
HsmCommands.v
PivTables.v
OathOtp.v
Oath.v
OathSafety.v
Signatures.v
SignatureStreams.v
SignatureRoundtrip.v
SignatureSafety.v
Attributes.v
MechanismTables.v
KeyMechanisms.v
Templates.v
ObjectImport.v
MechanismSafety.v
KeyTemplates.v
SecretDerivation.v
ObjectApi.v
KeyApi.v
KeyWrap.v
KeySafety.v
WrapRoundtrip.v
ObjectSafety.v
DerSafety.v
ImportSafety.v
ConnectorService.v
ConnectorSafety.v
