(* ===== verification/Prelude.v ===== *)
(** * A verification library of pkcs11rs

    pkcs11rs is a PKCS #11 module for YubiKeys (over CCID cards, CTAPHID and a
    software store) and YubiHSM 2 devices. This library translates its core into
    executable definitions and proves the properties that make it correct.
    Definitions keep the names of the source; a method [T::f] is [T_f] where
    [f] alone would clash.

    ** The program and the files

    An application calls the C functions with a session handle. The module finds
    the slot of the session, takes the slot's lock and runs the call on the
    slot's state and its backend; the backend talks to a device through a
    transport.

    - [Prelude] (this file): results of fallible code ([outcome]: [Ok], [Err] or
      [Panic]), the state and error monad [SM] with [let!], byte lists, integer
      helpers at their width, and the lemmas and tactics the other files share.
    - [Errors] ([src/src/error.rs], [src/src/pkcs11.rs]): return values.
    - Transports. [Apdu] (the APDU codec of [src/src/scp03.rs]), [Connector]
      (the trait of [src/src/connector.rs]), [Iso7816] ([src/src/iso7816.rs]:
      command chaining, response chaining, ATR), [CtapHid]
      ([src/src/ctap_hid.rs]).
    - Secure channels. [Crypto] ([src/src/secure_channel_crypto.rs]), [Scp03]
      ([src/src/scp03.rs]), [YubiHsm] ([src/src/yubihsm.rs] and its command
      codes). Both files also hold the device half, so that a session is proved
      against a peer and not against itself.
    - [Storage] ([src/src/storage.rs]): content-addressed stores, with a file
      system that fails, that other processes use and that may stop at any call.
    - Data. [Mechanisms] ([src/src/mechanism.rs], [src/src/object.rs]:
      mechanism numbers, key material, operation records), [AttributeTypes]
      (attribute numbers), [KeyMetadata] ([src/src/key_metadata.rs]: the records
      kept beside stored keys and their CBOR form), [HsmCapabilities] (the device
      capabilities of [src/src/lib.rs]), [PivTables] (slots and data objects of
      [src/src/piv.rs]).
    - The module. [SlotState]
      ([src/src/context.rs], [src/src/backed_object.rs]: sessions, handles,
      objects and login of one slot), [SessionApi] ([src/src/api/session.rs],
      the search of [src/src/api/object.rs], the session registry of
      [src/src/context.rs]), [LoginSelectors] ([src/src/pkcs11_uri.rs] and the
      user names of logins).
    - Cryptographic calls ([src/src/api/crypt/]). [CryptApi] (output buffers,
      mechanism arguments), [Digests] ([digest.rs]), [CipherModes] and [Ciphers]
      ([encrypt.rs], with the modes and RSA operations of
      [src/src/software_key_ops.rs] and [src/src/backend/crypto.rs]);
      [CipherStreams], [CipherSafety] and [CipherTypes] hold their theorems.
      [SignatureModes] and [Signatures] ([sign.rs], [verify.rs],
      [hash_ml_dsa.rs], [signature_hash.rs]), with their theorems in
      [SignatureStreams], [SignatureRoundtrip] and [SignatureSafety].
    - [OathOtp] and [Oath] ([src/src/oath.rs], [src/src/backend/oath.rs]): the
      OATH application and its slot, with the theorems in [OathSafety].
    - Objects. [Attributes] (the attributes of [src/src/object.rs] and how each
      is computed), [Templates] (attribute arrays, policy templates, the
      template of a new object, changes), [ObjectImport] and [ObjectApi]
      ([src/src/api/object.rs]); theorems in [ObjectSafety], [DerSafety] and
      [ImportSafety].
    - Mechanisms of slots and keys. [MechanismTables] (the tables of
      [src/src/mechanism.rs] and of the backends, combined as
      [src/src/backend/traits.rs] does), [KeyMechanisms]
      ([src/src/key_mechanisms.rs] and the backends' narrowing); theorems in
      [MechanismSafety].
    - Keys. [HsmCommands] ([src/src/yubihsm/commands/]: what a YubiHSM is asked
      and how its replies are read), [KeyTemplates] (the objects that the calls
      of [src/src/api/key.rs] build), [SecretDerivation]
      ([src/src/software_key_ops/composition.rs] and the key derivation
      functions), [KeyApi] ([src/src/api/key.rs], [src/src/api/kem.rs]) and
      [KeyWrap] ([src/src/api/wrap.rs]); theorems in [KeySafety] and
      [WrapRoundtrip].
    - [ConnectorService] ([src/crates/pkcs11rs-connector]: the service that shares
      YubiHSM devices over HTTP, with its registry, discovery task, transports,
      handlers, admission and bus queue); theorems in [ConnectorSafety].

    ** State and operations

    A slot's code is a computation on [SlotContext B P]: the backend's state
    [slot], the [SlotState] of [context.rs] and the handle counters shared by
    all slots. The module ([SessionApi]) is the registry, the slots and the
    counters; [api_step] is the transition relation of the calls on it. A
    cryptographic call runs on a slot context paired with the caller's
    [Output]: whether the pointer is null, the length it holds and the bytes
    written. An attribute of the application's template is a [CK_ATTRIBUTE]: its
    type, the length field and the memory behind its pointer, as bytes and, for
    attribute arrays, as attributes; a read returns the template as it leaves it.
    A pointer argument is [None] or the memory behind it. Integers are
    [Z], with the checks and the wrap-around of the source written out.

    ** What the theorems show

    - Sessions and login: the registry names exactly the open sessions; a
      security officer and a read-only session never coexist; the login that is
      recorded is the login that succeeded; closing the last session, or logging
      out, leaves no login, no private object and no operation behind.
    - Objects: handles stay valid and unique under every slot operation, stable
      under reconciliation with the token; a search returns exactly the visible
      matches, and a removal does not disturb one in progress. What a hidden key
      is does not show in any answer of [C_GetAttributeValue]; no change or copy
      weakens an object's protection; no buffer is written beyond its length; a
      data object shows its template and an imported key is the key given;
      policy templates survive the trip through memory and bind; public-key
      encodings decode to the key; the decoder of key records accepts exactly
      the canonical encodings of well-formed records.
    - Mechanisms: a slot lists each mechanism once and by a name it knows,
      software support only adds, and a key advertises signing with a mechanism
      exactly when [C_SignInit] accepts it.
    - Cryptographic operations: any division into parts gives the single-part
      result (digests, and AES and padded AES streams); an operation is well
      formed after every call; it ends with the call that delivers its result or
      fails, and a result that did not fit is delivered by the retry; nothing is
      released by a failed call, and no private key is used after logout; RSA
      decryption undoes encryption; a signature made by the module verifies in
      it, and a MAC verifies exactly when it is the one computed.
    - Keys: a key that is not extractable leaves by no wrapping call, whatever
      the mechanism and the buffer; a derived key is never less protected than
      what it was derived from, and a part of a key is the bits asked for; a
      generated key has the length, the type and the protection of its template;
      what a software key wrapped, the matching key unwraps; the device reads
      from each session-object command the request that was meant.
    - OATH: no code without the login the device asks for, one command per
      generated code so that a counter advances once, and the parser accepts
      exactly the responses it should.
    - Secure channels: host and device stay synchronised over any sequence of
      commands, no IV repeats, a response is accepted only with its MAC, a
      handshake succeeds only with a peer that proved the keys, an error closes
      the YubiHSM session, and every accepted command fits the message size.
    - Transports: a command is executed exactly once whatever form it is sent
      in, the CTAPHID transport recovers a lost channel once and otherwise
      disconnects, its reads end, and the APDU codec round-trips.
    - Connector service: however its tasks interleave, the registry names each
      device once, a request reaches only the device it names and only a device
      the configuration serves, it is transmitted at most once, the limits on
      connections and handshakes hold, and bus turns are exclusive and in order.
    - Storage: at any crash the store holds only complete objects, [put] that
      returns has stored, it terminates, and the memory provider implements a
      map.
    - Selectors: the URI parser accepts exactly RFC 7512 selectors it knows and
      reads back what the module generates, packed PINs round-trip, and the
      choice of a channel respects the policy.

    ** Bounds and fuel

    [chunks] recurses with the length of the slice as fuel
    ([chunks_fuel_enough]: more changes nothing). [to_bytes_be] takes
    [log2 n + 1] steps, more than the bytes of [n]. GET RESPONSE is bounded by
    the code's own limit of segments. The ATR loops take the length of the ATR,
    and each turn consumes a byte. The reads of [CtapHid] take the ticks to
    their deadline ([read_initial_enough], [read_continuations_enough]).
    [Storage]'s search for a free temporary name takes one more step than there
    are entries, and [local_put_terminates] shows that this suffices.
    [KeyMetadata]'s decoder and [Templates]'s reader recurse on the source's own
    limit of nesting (a deeper template is an error there too), and the lossy
    UTF-8 decoder of [Oath] takes the length of its input, each step consuming
    at least a byte.

    ** Parameters

    Code outside the repository is a class, with its documented behaviour as a
    second class of laws where a theorem needs it: [SoftwareKeyCore],
    [SymmetricCore], [HashCore], [RsaCore], [SignatureCore], [OathCrypto],
    [KeyCore], [KeyImport], [KeyDerivationCore] and [KeyGenerator] (cryptographic
    crates and the random numbers), [Certificates] (X.509),
    [Sha3], [MiniCbor] and [CborMaps], [HidReportIo] (HID devices), [UsbHost] (USB devices). Parts of the repository that are
    not modelled enter the same way: [Connector] (the transports' drivers),
    [Slot] and [CryptBackend] (the backends), [StaticKeys] (protected keys),
    [BackedObjects], [PublicKeyProjection] and [PreviewSignRecords] (the CBOR
    form of objects), [LazyCells], [ObjectBackend] and [ObjectStores] (what the
    object calls ask of a backend), [KeyBackend], [KeyStores], [PreviewSignKeys],
    [HsmKeyEncodings] and [Pkcs8] (what the key calls ask), [OathConnector], [Environment] (discovery,
    the attribute values a search compares, device locks). Each has a toy
    instance on which the witnesses run.

    ** Not modelled

    - Allocation failure ([try_reserve]) and poisoned mutexes.
    - The imports of a created object into PIV, OpenPGP and FIDO storage, and the
      message-based calls of version 3 of the standard.
    - The backends beyond their mechanism tables, the PIV and OpenPGP
      applications, SCP11, the CTAP client, and the sessions that one slot opens
      on another: they send through the modelled transports and channels, and
      enter as the classes above.
    - X.509, PKCS #8 and the CBOR form of stored objects, which external crates
      encode.
    - The connector service's HTTP server, its I2C wire exchange and its command
      line, device discovery, configuration, drivers, platform
      credentials, pinentry, logging and the interface tables: input and output,
      operating-system services or static tables. *)
From stdpp Require Export base list gmap strings.
From stdpp Require Export numbers.
From Stdlib Require Export ZArith Lia.

#[export] Set Default Goal Selector "!".

Declare Scope rust_scope.
Delimit Scope rust_scope with rust.
Open Scope Z_scope.
Open Scope rust_scope.

(** ** Results of fallible code

    [outcome E A] is the result of running a Rust function whose declared
    type is [Result<A, E>]: it returns [Ok], it returns [Err], or it panics
    (slice index out of range, arithmetic overflow, [unwrap] on [None]). *)
Inductive outcome (E A : Type) : Type :=
| Ok (a : A)
| Err (e : E)
| Panic.
Arguments Ok {E A} a.
Arguments Err {E A} e.
Arguments Panic {E A}.

(** [let a = c?; k]: an error returns from the enclosing function. *)
Definition obind {E A B} (c : outcome E A) (f : A → outcome E B) : outcome E B :=
  match c with
  | Ok a => f a
  | Err e => Err e
  | Panic => Panic
  end.
Notation "'let?' x := c 'in' k" := (obind c (λ x, k))
  (at level 10, x name, c at level 200, k at level 200,
   format "'[v' 'let?'  x  :=  c  'in' '/' k ']'") : rust_scope.
Notation "'let?' ' p := c 'in' k" := (obind c (λ z, match z with p => k end))
  (at level 10, p pattern, c at level 200, k at level 200) : rust_scope.

(** [r.map(f)] *)
Definition omap_ok {E A B} (f : A → B) (c : outcome E A) : outcome E B :=
  match c with
  | Ok a => Ok (f a)
  | Err e => Err e
  | Panic => Panic
  end.

(** [r.map_err(f)] *)
Definition map_err {E F A} (f : E → F) (c : outcome E A) : outcome F A :=
  match c with
  | Ok a => Ok a
  | Err e => Err (f e)
  | Panic => Panic
  end.

(** [o.ok_or(e)] *)
Definition ok_or {E A} (e : E) (o : option A) : outcome E A :=
  match o with
  | Some a => Ok a
  | None => Err e
  end.

(** [r.is_ok()]; a panic is not a value, so it is not [Ok]. *)
Definition is_ok {E A} (c : outcome E A) : bool :=
  match c with Ok _ => true | _ => false end.

Definition is_panic {E A} (c : outcome E A) : bool :=
  match c with Panic => true | _ => false end.

(** ** Stateful code

    [SM S E A] is code that mutates a state [S] (through [&mut self] or
    interior mutability) and returns a [Result]. An error leaves whatever the
    code had already written, as in Rust. *)
Definition SM (S E A : Type) : Type := S → outcome E A * S.

Definition sm_ret {S E A} (a : A) : SM S E A := λ s, (Ok a, s).
Definition sbind {S E A B} (c : SM S E A) (f : A → SM S E B) : SM S E B := λ s,
  match c s with
  | (Ok a, s') => f a s'
  | (Err e, s') => (Err e, s')
  | (Panic, s') => (Panic, s')
  end.
Notation "'let!' x := c 'in' k" := (sbind c (λ x, k))
  (at level 10, x name, c at level 200, k at level 200,
   format "'[v' 'let!'  x  :=  c  'in' '/' k ']'") : rust_scope.
Notation "'let!' ' p := c 'in' k" := (sbind c (λ z, match z with p => k end))
  (at level 10, p pattern, c at level 200, k at level 200) : rust_scope.
Notation "c ';!' k" := (sbind c (λ _, k))
  (at level 100, k at level 200, right associativity) : rust_scope.

Definition sm_get {S E} : SM S E S := λ s, (Ok s, s).
Definition sm_gets {S E A} (f : S → A) : SM S E A := λ s, (Ok (f s), s).
Definition sm_modify {S E} (f : S → S) : SM S E unit := λ s, (Ok tt, f s).
Definition sm_lift {S E A} (c : outcome E A) : SM S E A := λ s, (c, s).
Definition sm_err {S E A} (e : E) : SM S E A := λ s, (Err e, s).
Definition sm_map_err {S E F A} (f : E → F) (c : SM S E A) : SM S F A :=
  λ s, let '(r, s') := c s in (map_err f r, s').

(** [let _ = c;]: the result of [c] is dropped, its effect is kept. *)
Definition sm_ignore {S E A} (c : SM S E A) : SM S E unit :=
  λ s, match c s with
       | (Panic, s') => (Panic, s')
       | (_, s') => (Ok tt, s')
       end.

(** [if b { return Err(e) }] *)
Definition guard_err {S E} (b : bool) (e : E) : SM S E unit :=
  λ s, (if b then Err e else Ok tt, s).

(** Code on one component of a state. *)
Definition sm_fst {S T E A} (c : SM S E A) : SM (S * T) E A :=
  λ s, let '(r, s') := c s.1 in (r, (s', s.2)).
Definition sm_snd {S T E A} (c : SM T E A) : SM (S * T) E A :=
  λ s, let '(r, s') := c s.2 in (r, (s.1, s')).

(** The same guard in code without state. *)
Definition bail {E} (b : bool) (e : E) : outcome E unit :=
  if b then Err e else Ok tt.

(** ** Machine integers and byte strings

    Integers are [Z]; the width of a Rust integer shows up as an explicit
    wrap-around or range check. [usize] lengths are [len]. *)
Definition len {A} (l : list A) : Z := Z.of_nat (length l).
Definition ztake {A} (n : Z) (l : list A) : list A := take (Z.to_nat n) l.
Definition zdrop {A} (n : Z) (l : list A) : list A := drop (Z.to_nat n) l.
(** [l[a..b]] *)
Definition slice {A} (a b : Z) (l : list A) : list A := ztake (b - a) (zdrop a l).
(** [l[i]] for an index the surrounding code has checked. *)
Definition at_ (l : list Z) (i : Z) : Z := nth (Z.to_nat i) l 0.

Definition as_u8 (n : Z) : Z := n mod 2 ^ 8.
Definition as_u16 (n : Z) : Z := n mod 2 ^ 16.
Definition U64_MAX : Z := 2 ^ 64 - 1.
Definition U128_MAX : Z := 2 ^ 128 - 1.

Definition is_byte (b : Z) : bool := (0 <=? b) && (b <? 256).
Definition bytes_ok (l : list Z) : bool := forallb is_byte l.

Definition be16 (n : Z) : list Z := [n / 256; n mod 256].
Definition of_be16 (hi lo : Z) : Z := hi * 256 + lo.
Definition be32 (n : Z) : list Z :=
  [n / 2 ^ 24; n / 2 ^ 16 mod 256; n / 2 ^ 8 mod 256; n mod 256].
Definition of_be32 (b : list Z) : Z :=
  ((at_ b 0 * 256 + at_ b 1) * 256 + at_ b 2) * 256 + at_ b 3.
(** [n.to_be_bytes()] for an integer of [w] bytes. *)
Fixpoint be_bytes (w : nat) (n : Z) : list Z :=
  match w with
  | O => []
  | S w' => be_bytes w' (n / 256) ++ [n mod 256]
  end.

(** [usize::div_ceil] *)
Definition div_ceil (a b : Z) : Z := (a + b - 1) / b.

(** [flags & mask != 0] *)
Definition has_flag (flags mask : Z) : bool := negb (Z.land flags mask =? 0).

(** ** [slice::chunks] *)
Fixpoint chunks_fuel {A} (fuel n : nat) (l : list A) : list (list A) :=
  match fuel, l with
  | S f, _ :: _ => take n l :: chunks_fuel f n (drop n l)
  | _, _ => []
  end.
Definition chunks {A} (n : nat) (l : list A) : list (list A) :=
  chunks_fuel (length l) n l.

(** ** Generic lemmas *)

Create HintDb rust.
Create Rewrite HintDb rust_len.

Section lists.
Context {A : Type}.
Implicit Types l k : list A.

Lemma len_nonneg l : 0 ≤ len l.
Proof. unfold len. lia. Qed.

Lemma len_nil : len (@nil A) = 0.
Proof. done. Qed.

Lemma len_cons x l : len (x :: l) = 1 + len l.
Proof. unfold len. simpl. lia. Qed.

Lemma len_app l k : len (l ++ k) = len l + len k.
Proof. unfold len. rewrite length_app. lia. Qed.

Lemma len_zero_iff l : len l = 0 ↔ l = [].
Proof. unfold len. destruct l; simpl; split; intros; try done; lia. Qed.

Lemma len_ztake n l : 0 ≤ n → len (ztake n l) = Z.min n (len l).
Proof. unfold len, ztake. rewrite length_take. lia. Qed.

Lemma len_zdrop n l : 0 ≤ n → len (zdrop n l) = Z.max 0 (len l - n).
Proof. unfold len, zdrop. rewrite length_drop. lia. Qed.

Lemma len_replicate n (x : A) : len (replicate n x) = Z.of_nat n.
Proof. unfold len. by rewrite length_replicate. Qed.

Lemma ztake_zdrop n l : ztake n l ++ zdrop n l = l.
Proof. apply take_drop. Qed.

Lemma ztake_app_len l k : ztake (len l) (l ++ k) = l.
Proof. unfold ztake, len. rewrite Nat2Z.id. apply take_app_length. Qed.

Lemma zdrop_app_len l k : zdrop (len l) (l ++ k) = k.
Proof. unfold zdrop, len. rewrite Nat2Z.id. apply drop_app_length. Qed.

Lemma ztake_ge n l : len l ≤ n → ztake n l = l.
Proof. unfold ztake, len. intros. apply take_ge. lia. Qed.

Lemma zdrop_ge n l : len l ≤ n → zdrop n l = [].
Proof. unfold zdrop, len. intros. apply drop_ge. lia. Qed.

Lemma zdrop_0 l : zdrop 0 l = l.
Proof. done. Qed.

Lemma chunks_fuel_concat fuel n l :
  (0 < n)%nat → (length l ≤ fuel)%nat → concat (chunks_fuel fuel n l) = l.
Proof.
  intros Hn. revert l. induction fuel as [|f IH]; intros [|x l] Hl; try done.
  { simpl in Hl. lia. }
  cbn [chunks_fuel concat]. rewrite IH; [apply take_drop|].
  rewrite length_drop. simpl in *. lia.
Qed.

Lemma chunks_concat n l : (0 < n)%nat → concat (chunks n l) = l.
Proof. intros. by apply chunks_fuel_concat. Qed.

Lemma chunks_fuel_bound fuel n l :
  (0 < n)%nat → Forall (λ c, 0 < length c ≤ n)%nat (chunks_fuel fuel n l).
Proof.
  intros Hn. revert l. induction fuel as [|f IH]; intros [|x l]; cbn [chunks_fuel]; try constructor; auto.
  rewrite length_take. simpl. lia.
Qed.

Lemma chunks_bound n l :
  (0 < n)%nat → Forall (λ c, 0 < length c ≤ n)%nat (chunks n l).
Proof. apply chunks_fuel_bound. Qed.

Lemma chunks_nil n : chunks n (@nil A) = [].
Proof. done. Qed.

Lemma chunks_nonempty n l : l ≠ [] → chunks n l ≠ [].
Proof. by destruct l. Qed.

(** The fuel of [chunks] only has to reach the length of the slice. *)
Lemma chunks_fuel_enough fuel fuel' n l :
  (0 < n)%nat → (length l ≤ fuel)%nat → (length l ≤ fuel')%nat →
  chunks_fuel fuel n l = chunks_fuel fuel' n l.
Proof.
  intros Hn. revert fuel' l.
  induction fuel as [|f IH]; intros [|f'] [|x l] H H'; try done; try (simpl in *; lia).
  cbn [chunks_fuel]. f_equal.
  apply IH; rewrite length_drop; simpl in *; lia.
Qed.

Lemma chunks_cons n l :
  (0 < n)%nat → l ≠ [] → chunks n l = take n l :: chunks n (drop n l).
Proof.
  intros Hn Hl. unfold chunks. destruct l as [|x l]; [done|].
  cbn [chunks_fuel length]. f_equal.
  apply chunks_fuel_enough; rewrite ?length_drop; simpl; lia.
Qed.

Lemma chunks_small n l :
  l ≠ [] → (length l ≤ n)%nat → chunks n l = [l].
Proof.
  intros Hl Hn. rewrite chunks_cons; [|destruct l; simpl in *; [done|lia]|done].
  rewrite take_ge, drop_ge by lia. done.
Qed.

Lemma length_chunks n l :
  (0 < n)%nat → Z.of_nat (length (chunks n l)) = div_ceil (len l) (Z.of_nat n).
Proof.
  intros Hn. unfold div_ceil.
  remember (length l) as m eqn:Hm. revert l Hm.
  induction m as [m IH] using (well_founded_induction lt_wf). intros l ->.
  destruct l as [|x l'].
  { rewrite chunks_nil, len_nil. simpl. symmetry. apply Z.div_small. lia. }
  rewrite chunks_cons by done. set (l := x :: l') in *.
  cbn [length]. rewrite Nat2Z.inj_succ.
  rewrite (IH (length (drop n l))); [|rewrite length_drop; simpl; lia|done].
  unfold len. rewrite length_drop.
  assert (0 < length l)%nat by (simpl; lia).
  destruct (decide (length l ≤ n)%nat).
  - replace (length l - n)%nat with 0%nat by lia.
    rewrite (Z.div_small (Z.of_nat 0 + Z.of_nat n - 1)) by lia.
    apply (Z.div_unique _ _ _ (Z.of_nat (length l) - 1)); lia.
  - replace (Z.of_nat (length l) + Z.of_nat n - 1)
      with (Z.of_nat (length l - n) + Z.of_nat n - 1 + 1 * Z.of_nat n) by lia.
    rewrite Z.div_add by lia. lia.
Qed.

Lemma last_chunk_cons n l :
  (0 < n)%nat → (n < length l)%nat → drop n l ≠ [].
Proof.
  intros Hn Hl E. apply (f_equal length) in E. rewrite length_drop in E.
  simpl in E. lia.
Qed.
End lists.

(** Rewriting with lengths: [len] of every constructor the code uses. *)
#[export] Hint Rewrite @len_nil @len_cons @len_app @len_replicate : rust_len.
Ltac simp_len := autorewrite with rust_len in *.
Ltac simp_length := rewrite ?length_app; cbn [length]; rewrite ?length_app; cbn [length].

(** *** Indexing *)

Section indexing.
Lemma at_app_r (l k : list Z) i :
  0 ≤ i → at_ (l ++ k) (len l + i) = at_ k i.
Proof.
  intros Hi. unfold at_, len. rewrite app_nth2 by lia.
  f_equal. lia.
Qed.

Lemma at_app_exact (l k : list Z) : at_ (l ++ k) (len l) = at_ k 0.
Proof. rewrite <- (Z.add_0_r (len l)). by apply at_app_r. Qed.

Lemma slice_cons1 (x : Z) (l k : list Z) : slice 1 (1 + len l) (x :: l ++ k) = l.
Proof.
  unfold slice, zdrop. change (Z.to_nat 1) with 1%nat. cbn [drop].
  replace (1 + len l - 1) with (len l) by lia. apply ztake_app_len.
Qed.

Lemma slice_cons3 (x y z : Z) (l k : list Z) :
  slice 3 (3 + len l) (x :: y :: z :: l ++ k) = l.
Proof.
  unfold slice, zdrop. change (Z.to_nat 3) with 3%nat. cbn [drop].
  replace (3 + len l - 3) with (len l) by lia. apply ztake_app_len.
Qed.

Lemma at_cons1 (x : Z) (l : list Z) i : 0 ≤ i → at_ (x :: l) (1 + i) = at_ l i.
Proof.
  intros Hi. unfold at_. replace (Z.to_nat (1 + i)) with (S (Z.to_nat i)) by lia. done.
Qed.

Lemma at_0 (x : Z) l : at_ (x :: l) 0 = x.
Proof. done. Qed.
Lemma slice_middle (a b c : list Z) : slice (len a) (len a + len b) (a ++ b ++ c) = b.
Proof.
  unfold slice. rewrite zdrop_app_len. replace (len a + len b - len a) with (len b) by lia.
  apply ztake_app_len.
Qed.
End indexing.

(** *** Big-endian fields *)

Lemma of_be16_be16 n : of_be16 (n / 256) (n mod 256) = n.
Proof. unfold of_be16. rewrite Z.mul_comm. symmetry. apply Z.div_mod. lia. Qed.

Lemma be16_bytes_ok n : 0 ≤ n < 65536 → bytes_ok (be16 n) = true.
Proof.
  intros H. unfold bytes_ok, be16, is_byte. cbn [forallb].
  pose proof (Z.mod_pos_bound n 256). pose proof (Z.div_lt_upper_bound n 256 256).
  pose proof (Z.div_pos n 256). lia.
Qed.

Lemma len_be16 n : len (be16 n) = 2.
Proof. done. Qed.

Lemma of_be32_be32 n rest : 0 ≤ n < 2 ^ 32 → of_be32 (be32 n ++ rest) = n.
Proof.
  intros H. unfold of_be32, be32, at_. cbn [app].
  change (Z.to_nat 0) with 0%nat. change (Z.to_nat 1) with 1%nat.
  change (Z.to_nat 2) with 2%nat. change (Z.to_nat 3) with 3%nat. cbn [nth].
  assert (n / 2 ^ 24 = n / 256 / 256 / 256) as -> by (by rewrite !Z.div_div).
  assert (n / 2 ^ 16 = n / 256 / 256) as -> by (by rewrite !Z.div_div).
  change (n / 2 ^ 8) with (n / 256).
  pose proof (Z.div_mod (n / 256 / 256) 256).
  pose proof (Z.div_mod (n / 256) 256).
  pose proof (Z.div_mod n 256). lia.
Qed.

Lemma length_be_bytes w n : length (be_bytes w n) = w.
Proof.
  revert n. induction w as [|w IH]; intros n; cbn [be_bytes]; [done|].
  rewrite length_app, IH. simpl. lia.
Qed.

Lemma be_bytes_inj w n m :
  0 ≤ n < 256 ^ Z.of_nat w → 0 ≤ m < 256 ^ Z.of_nat w →
  be_bytes w n = be_bytes w m → n = m.
Proof.
  revert n m. induction w as [|w IH]; intros n m Hn Hm.
  { simpl in *. lia. }
  rewrite Nat2Z.inj_succ, Z.pow_succ_r in Hn, Hm by lia.
  cbn [be_bytes]. intros E. apply app_inj_tail in E as [E1 E2].
  apply IH in E1.
  - rewrite (Z.div_mod n 256), (Z.div_mod m 256) by lia. lia.
  - split; [apply Z.div_pos; lia|apply Z.div_lt_upper_bound; lia].
  - split; [apply Z.div_pos; lia|apply Z.div_lt_upper_bound; lia].
Qed.

(** *** Bit masks *)

(** Clearing or testing bits of a byte is decided by looking at all 256
    values: a statement about a byte holds if it evaluates to [true] on each. *)
Lemma byte_forall (P : Z → bool) :
  forallb P (seqZ 0 256) = true → ∀ b, 0 ≤ b < 256 → P b = true.
Proof.
  intros H b Hb. rewrite forallb_forall in H. apply H.
  apply list_elem_of_In, elem_of_seqZ. lia.
Qed.

Lemma land_le a b : 0 ≤ a → Z.land a b ≤ a.
Proof.
  intros Ha. apply Z.ldiff_le; [done|].
  apply Z.bits_inj'. intros i Hi.
  rewrite Z.ldiff_spec, Z.land_spec, Z.bits_0. by destruct (Z.testbit a i), (Z.testbit b i).
Qed.

(** ** Monadic reasoning *)

Lemma bind_Ok {E A B} (c : outcome E A) (f : A → outcome E B) b :
  obind c f = Ok b ↔ ∃ a, c = Ok a ∧ f a = Ok b.
Proof.
  destruct c as [a|e|]; simpl; split; try naive_solver.
Qed.

Lemma sm_bind_Ok {S E A B} (c : SM S E A) (f : A → SM S E B) s b s' :
  sbind c f s = (Ok b, s') ↔ ∃ a s1, c s = (Ok a, s1) ∧ f a s1 = (Ok b, s').
Proof.
  unfold sbind. destruct (c s) as [[a|e|] s1]; split; naive_solver.
Qed.
Lemma guard_Ok {S E} b (e : E) (s : S) u s' : guard_err b e s = (Ok u, s') → b = false ∧ s' = s.
Proof. unfold guard_err. destruct b; intros [=]; by subst. Qed.
Lemma lift_Ok {S E A} (c : outcome E A) (s : S) a s' : sm_lift c s = (Ok a, s') → c = Ok a ∧ s' = s.
Proof. unfold sm_lift. intros [=]; by subst. Qed.

Lemma sm_bind_unfold {S E A B} (c : SM S E A) (f : A → SM S E B) s :
  sbind c f s = match c s with
               | (Ok a, s') => f a s'
               | (Err e, s') => (Err e, s')
               | (Panic, s') => (Panic, s')
               end.
Proof. done. Qed.

(** A run is determined by its result and its final state. *)
Lemma run_result {S E A} (c : SM S E A) s r : (c s).1 = r → c s = (r, (c s).2).
Proof. intros <-. apply surjective_pairing. Qed.

(** Invariants of stateful code: a Hoare-style predicate closed under bind. *)
Definition preserves {S E A} (I : S → Prop) (c : SM S E A) : Prop :=
  ∀ s, I s → I (c s).2.

Section preserves.
Context {S E : Type} (I : S → Prop).

Lemma preserves_ret {A} (a : A) : preserves I (sm_ret a : SM S E A).
Proof. by intros s Hs. Qed.

Lemma preserves_err {A} (e : E) : preserves I (sm_err e : SM S E A).
Proof. by intros s Hs. Qed.

Lemma preserves_lift {A} (c : outcome E A) : preserves I (sm_lift c).
Proof. by intros s Hs. Qed.

Lemma preserves_guard b (e : E) : preserves I (guard_err b e).
Proof. by intros s Hs. Qed.

Lemma preserves_gets {A} (f : S → A) : preserves I (sm_gets f : SM S E A).
Proof. by intros s Hs. Qed.

Lemma preserves_modify (f : S → S) :
  (∀ s, I s → I (f s)) → preserves I (sm_modify f : SM S E unit).
Proof. intros Hf s Hs. by apply Hf. Qed.

Lemma preserves_bind {A B} (c : SM S E A) (f : A → SM S E B) :
  preserves I c → (∀ a, preserves I (f a)) → preserves I (sbind c f).
Proof.
  intros Hc Hf s Hs. rewrite sm_bind_unfold. specialize (Hc s Hs).
  destruct (c s) as [[a|e|] s1]; simpl in *; [by apply Hf|done|done].
Qed.

Lemma preserves_ignore {A} (c : SM S E A) :
  preserves I c → preserves I (sm_ignore c : SM S E unit).
Proof.
  intros Hc s Hs. specialize (Hc s Hs). unfold sm_ignore.
  by destruct (c s) as [[a|e|] s1].
Qed.

Lemma preserves_map_err {F A} (f : E → F) (c : SM S E A) :
  preserves I c → preserves I (sm_map_err f c).
Proof.
  intros Hc s Hs. specialize (Hc s Hs). unfold sm_map_err.
  by destruct (c s).
Qed.
End preserves.

#[export] Hint Resolve preserves_ret preserves_err preserves_lift preserves_guard
  preserves_gets preserves_bind preserves_ignore preserves_map_err : rust.

(** Relations between runs: from related states, the same result and related
    states. *)
Definition respects {S E A} (R : S → S → Prop) (c : SM S E A) : Prop :=
  ∀ x y, R x y → (c x).1 = (c y).1 ∧ R (c x).2 (c y).2.

Section respects.
Context {S E : Type} (R : S → S → Prop).

Lemma respects_ret {A} (a : A) : respects R (sm_ret a : SM S E A).
Proof. by intros x y Hxy. Qed.
Lemma respects_err {A} (e : E) : respects R (sm_err e : SM S E A).
Proof. by intros x y Hxy. Qed.
Lemma respects_lift {A} (c : outcome E A) : respects R (sm_lift c).
Proof. by intros x y Hxy. Qed.
Lemma respects_guard b (e : E) : respects R (guard_err b e).
Proof. by intros x y Hxy. Qed.

Lemma respects_bind {A B} (c : SM S E A) (f : A → SM S E B) :
  respects R c → (∀ a, respects R (f a)) → respects R (sbind c f).
Proof.
  intros Hc Hf x y Hxy. rewrite !sm_bind_unfold. destruct (Hc x y Hxy) as [Hr Hs].
  destruct (c x) as [[a|e|] x1], (c y) as [r y1]; cbn in Hr, Hs; subst r; [by apply Hf|done|done].
Qed.

Lemma respects_map_err {F A} (f : F → E) (c : SM S F A) : respects R c → respects R (sm_map_err f c).
Proof.
  intros Hc x y Hxy. destruct (Hc x y Hxy) as [Hr Hs]. unfold sm_map_err.
  destruct (c x), (c y); cbn in *. by subst.
Qed.
End respects.

Create HintDb respects.
#[export] Hint Resolve respects_ret respects_err respects_lift respects_guard respects_map_err : respects.

(** Binds, conditionals and leaves. *)
Ltac respect :=
  repeat match goal with
  | |- respects _ (sbind _ _) => apply respects_bind; [|intros ?]
  | |- respects _ (if ?b then _ else _) => destruct b
  | |- respects _ (match ?o with _ => _ end) => destruct o
  | |- respects _ (let '(_, _) := ?p in _) => destruct p
  | |- respects _ _ => solve [auto with respects]
  end.

(** ** Tactics *)

(** Split the conditionals and matches in a hypothesis or in the goal. *)
Ltac case_if :=
  match goal with
  | |- context [if ?b then _ else _] => destruct b eqn:?
  | H : context [if ?b then _ else _] |- _ => destruct b eqn:?
  end.

(** Turn boolean tests into propositions [lia] understands. *)
Ltac bool_to_prop :=
  repeat match goal with
  | H : (_ && _)%bool = true |- _ => apply andb_true_iff in H as [? ?]
  | H : (_ || _)%bool = false |- _ => apply orb_false_iff in H as [? ?]
  | H : negb _ = true |- _ => apply negb_true_iff in H
  | H : negb _ = false |- _ => apply negb_false_iff in H
  | H : (_ =? _) = true |- _ => apply Z.eqb_eq in H
  | H : (_ =? _) = false |- _ => apply Z.eqb_neq in H
  | H : (_ <=? _) = true |- _ => apply Z.leb_le in H
  | H : (_ <=? _) = false |- _ => apply Z.leb_gt in H
  | H : (_ <? _) = true |- _ => apply Z.ltb_lt in H
  | H : (_ <? _) = false |- _ => apply Z.ltb_ge in H
  | H : bool_decide _ = true |- _ => apply bool_decide_eq_true in H
  | H : bool_decide _ = false |- _ => apply bool_decide_eq_false in H
  end.

(** Evaluate a boolean test from what is known of its arguments. *)
Ltac test_true t := replace t with true by (symmetry; lia).
Ltac test_false t := replace t with false by (symmetry; lia).

(** Invert a successful run of monadic code: one hypothesis per step. *)
Ltac sm_inv H :=
  repeat match type of H with
  | sbind _ _ _ = (Ok _, _) =>
      let a := fresh "a" in let s := fresh "s" in let E := fresh "E" in
      apply sm_bind_Ok in H as (a & s & E & H)
  end.
(** One step: a guard, lifted code and a returned value say what they were. *)
Ltac sm_leaf H :=
  lazymatch type of H with
  | guard_err _ _ _ = (Ok _, _) => apply guard_Ok in H as [H ->]
  | sm_lift _ _ = (Ok _, _) => apply lift_Ok in H as [H ->]
  | sm_ret _ _ = (Ok _, _) => apply lift_Ok in H as [H ->]; injection H as ?
  | _ => idtac
  end.
(** Invert a successful run down to its steps. *)
Ltac sm_steps H :=
  repeat match type of H with
  | sbind _ _ _ = (Ok _, _) =>
      let a := fresh "a" in let s := fresh "s" in let E := fresh "E" in
      apply sm_bind_Ok in H as (a & s & E & H); sm_leaf E
  | (let '(_, _) := ?p in _) _ = (Ok _, _) => destruct p
  end; sm_leaf H.
Ltac o_inv H :=
  repeat match type of H with
  | obind _ _ = Ok _ =>
      let a := fresh "a" in let E := fresh "E" in apply bind_Ok in H as (a & E & H)
  end.
