(* ===== verification/Errors.v ===== *)
(** * Errors: return values and error translation

    Models [src/src/pkcs11.rs] (the generated PKCS #11 constants the modelled
    code compares against) and [src/src/error.rs] (the crate's [Error], its
    conversion to [CK_RV] and the translation of login failures). *)
From S2P Require Import Prelude.

(** ** Return values *)
Definition CKR_OK : Z := 0.
Definition CKR_CANCEL : Z := 1.
Definition CKR_HOST_MEMORY : Z := 2.
Definition CKR_SLOT_ID_INVALID : Z := 3.
Definition CKR_GENERAL_ERROR : Z := 5.
Definition CKR_FUNCTION_FAILED : Z := 6.
Definition CKR_ARGUMENTS_BAD : Z := 7.
Definition CKR_NO_EVENT : Z := 8.
Definition CKR_NEED_TO_CREATE_THREADS : Z := 9.
Definition CKR_CANT_LOCK : Z := 10.
Definition CKR_ATTRIBUTE_READ_ONLY : Z := 16.
Definition CKR_ATTRIBUTE_SENSITIVE : Z := 17.
Definition CKR_ATTRIBUTE_TYPE_INVALID : Z := 18.
Definition CKR_ATTRIBUTE_VALUE_INVALID : Z := 19.
Definition CKR_ACTION_PROHIBITED : Z := 27.
Definition CKR_DATA_INVALID : Z := 32.
Definition CKR_DATA_LEN_RANGE : Z := 33.
Definition CKR_DEVICE_ERROR : Z := 48.
Definition CKR_DEVICE_MEMORY : Z := 49.
Definition CKR_DEVICE_REMOVED : Z := 50.
Definition CKR_ENCRYPTED_DATA_INVALID : Z := 64.
Definition CKR_ENCRYPTED_DATA_LEN_RANGE : Z := 65.
Definition CKR_AEAD_DECRYPT_FAILED : Z := 66.
Definition CKR_FUNCTION_CANCELED : Z := 80.
Definition CKR_FUNCTION_NOT_PARALLEL : Z := 81.
Definition CKR_FUNCTION_NOT_SUPPORTED : Z := 84.
Definition CKR_KEY_HANDLE_INVALID : Z := 96.
Definition CKR_KEY_SIZE_RANGE : Z := 98.
Definition CKR_KEY_TYPE_INCONSISTENT : Z := 99.
Definition CKR_KEY_NOT_NEEDED : Z := 100.
Definition CKR_KEY_CHANGED : Z := 101.
Definition CKR_KEY_NEEDED : Z := 102.
Definition CKR_KEY_INDIGESTIBLE : Z := 103.
Definition CKR_KEY_FUNCTION_NOT_PERMITTED : Z := 104.
Definition CKR_KEY_NOT_WRAPPABLE : Z := 105.
Definition CKR_KEY_UNEXTRACTABLE : Z := 106.
Definition CKR_MECHANISM_INVALID : Z := 112.
Definition CKR_MECHANISM_PARAM_INVALID : Z := 113.
Definition CKR_OBJECT_HANDLE_INVALID : Z := 130.
Definition CKR_OPERATION_ACTIVE : Z := 144.
Definition CKR_OPERATION_NOT_INITIALIZED : Z := 145.
Definition CKR_PIN_INCORRECT : Z := 160.
Definition CKR_PIN_INVALID : Z := 161.
Definition CKR_PIN_LEN_RANGE : Z := 162.
Definition CKR_PIN_EXPIRED : Z := 163.
Definition CKR_PIN_LOCKED : Z := 164.
Definition CKR_SESSION_CLOSED : Z := 176.
Definition CKR_SESSION_COUNT : Z := 177.
Definition CKR_SESSION_HANDLE_INVALID : Z := 179.
Definition CKR_SESSION_PARALLEL_NOT_SUPPORTED : Z := 180.
Definition CKR_SESSION_READ_ONLY : Z := 181.
Definition CKR_SESSION_EXISTS : Z := 182.
Definition CKR_SESSION_READ_ONLY_EXISTS : Z := 183.
Definition CKR_SESSION_READ_WRITE_SO_EXISTS : Z := 184.
Definition CKR_SIGNATURE_INVALID : Z := 192.
Definition CKR_SIGNATURE_LEN_RANGE : Z := 193.
Definition CKR_TEMPLATE_INCOMPLETE : Z := 208.
Definition CKR_TEMPLATE_INCONSISTENT : Z := 209.
Definition CKR_TOKEN_NOT_PRESENT : Z := 224.
Definition CKR_TOKEN_NOT_RECOGNIZED : Z := 225.
Definition CKR_TOKEN_WRITE_PROTECTED : Z := 226.
Definition CKR_UNWRAPPING_KEY_HANDLE_INVALID : Z := 240.
Definition CKR_UNWRAPPING_KEY_SIZE_RANGE : Z := 241.
Definition CKR_UNWRAPPING_KEY_TYPE_INCONSISTENT : Z := 242.
Definition CKR_USER_ALREADY_LOGGED_IN : Z := 256.
Definition CKR_USER_NOT_LOGGED_IN : Z := 257.
Definition CKR_USER_PIN_NOT_INITIALIZED : Z := 258.
Definition CKR_USER_TYPE_INVALID : Z := 259.
Definition CKR_USER_ANOTHER_ALREADY_LOGGED_IN : Z := 260.
Definition CKR_USER_TOO_MANY_TYPES : Z := 261.
Definition CKR_WRAPPED_KEY_INVALID : Z := 272.
Definition CKR_WRAPPED_KEY_LEN_RANGE : Z := 274.
Definition CKR_WRAPPING_KEY_HANDLE_INVALID : Z := 275.
Definition CKR_WRAPPING_KEY_SIZE_RANGE : Z := 276.
Definition CKR_WRAPPING_KEY_TYPE_INCONSISTENT : Z := 277.
Definition CKR_RANDOM_SEED_NOT_SUPPORTED : Z := 288.
Definition CKR_RANDOM_NO_RNG : Z := 289.
Definition CKR_DOMAIN_PARAMS_INVALID : Z := 304.
Definition CKR_CURVE_NOT_SUPPORTED : Z := 320.
Definition CKR_BUFFER_TOO_SMALL : Z := 336.
Definition CKR_SAVED_STATE_INVALID : Z := 352.
Definition CKR_INFORMATION_SENSITIVE : Z := 368.
Definition CKR_STATE_UNSAVEABLE : Z := 384.
Definition CKR_CRYPTOKI_NOT_INITIALIZED : Z := 400.
Definition CKR_CRYPTOKI_ALREADY_INITIALIZED : Z := 401.
Definition CKR_MUTEX_BAD : Z := 416.
Definition CKR_MUTEX_NOT_LOCKED : Z := 417.
Definition CKR_NEW_PIN_MODE : Z := 432.
Definition CKR_NEXT_OTP : Z := 433.
Definition CKR_EXCEEDED_MAX_ITERATIONS : Z := 437.
Definition CKR_FIPS_SELF_TEST_FAILED : Z := 438.
Definition CKR_LIBRARY_LOAD_FAILED : Z := 439.
Definition CKR_PIN_TOO_WEAK : Z := 440.
Definition CKR_PUBLIC_KEY_INVALID : Z := 441.
Definition CKR_FUNCTION_REJECTED : Z := 512.
Definition CKR_TOKEN_RESOURCE_EXCEEDED : Z := 513.
Definition CKR_OPERATION_CANCEL_FAILED : Z := 514.
Definition CKR_KEY_EXHAUSTED : Z := 515.
Definition CKR_PENDING : Z := 516.
Definition CKR_SESSION_ASYNC_NOT_SUPPORTED : Z := 517.
Definition CKR_SEED_RANDOM_REQUIRED : Z := 518.
Definition CKR_OPERATION_NOT_VALIDATED : Z := 519.
Definition CKR_TOKEN_NOT_INITIALIZED : Z := 520.
Definition CKR_PARAMETER_SET_NOT_SUPPORTED : Z := 521.
Definition CKR_VENDOR_DEFINED : Z := 2147483648.

(** ** User types and session states *)
Definition CKU_SO : Z := 0.
Definition CKU_USER : Z := 1.
Definition CKU_CONTEXT_SPECIFIC : Z := 2.
Definition CKS_RO_PUBLIC_SESSION : Z := 0.
Definition CKS_RO_USER_FUNCTIONS : Z := 1.
Definition CKS_RW_PUBLIC_SESSION : Z := 2.
Definition CKS_RW_USER_FUNCTIONS : Z := 3.
Definition CKS_RW_SO_FUNCTIONS : Z := 4.

(** ** Slot, session and operation flags *)
Definition CKF_TOKEN_PRESENT : Z := 1.
Definition CKF_REMOVABLE_DEVICE : Z := 2.
Definition CKF_HW_SLOT : Z := 4.
Definition CKF_RW_SESSION : Z := 2.
Definition CKF_SERIAL_SESSION : Z := 4.
Definition CKF_ASYNC_SESSION : Z := 8.
Definition CKF_HW : Z := 1.
Definition CKF_FIND_OBJECTS : Z := 64.
Definition CKF_ENCRYPT : Z := 256.
Definition CKF_DECRYPT : Z := 512.
Definition CKF_DIGEST : Z := 1024.
Definition CKF_SIGN : Z := 2048.
Definition CKF_VERIFY : Z := 8192.

(** ** Object classes *)
Definition CKO_DATA : Z := 0.
Definition CKO_CERTIFICATE : Z := 1.
Definition CKO_PUBLIC_KEY : Z := 2.
Definition CKO_PRIVATE_KEY : Z := 3.
Definition CKO_SECRET_KEY : Z := 4.
Definition CKO_HW_FEATURE : Z := 5.
Definition CKO_DOMAIN_PARAMETERS : Z := 6.
Definition CKO_MECHANISM : Z := 7.
Definition CKO_OTP_KEY : Z := 8.
Definition CKO_PROFILE : Z := 9.
Definition CKO_VALIDATION : Z := 10.
Definition CKO_TRUST : Z := 11.
Definition CKO_VENDOR_DEFINED : Z := 2147483648.

(** ** The crate error type

    Errors of external crates carry a payload the code only logs; it is kept
    as an opaque number. *)
Inductive LocalHardwareError : Type :=
| LH_Usb (e : Z)
| LH_Transfer (e : Z)
| LH_DeviceFailure
| LH_DeviceRemoved
| LH_InvalidMessageLength (actual : Z) (expected : option Z)
| LH_SendBufferTooLarge (actual maximum : Z) (firmware_version : Z * Z)
| LH_ReceiveBufferTooLarge
| LH_ReceiveMessageTooLarge (actual maximum : Z)
| LH_IncompleteWrite (actual expected : Z)
| LH_MissingBulkOutEndpoint.

Inductive Error : Type :=
| Generic (rv : Z)
| Hid (e : Z)
| LocalHardware (e : LocalHardwareError)
| Pcsc (e : Z)
| Http (e : Z)
| Io (e : Z).

(** [CKR_X.into()] *)
Notation "'#' c" := (Generic c) (at level 1, format "# c") : rust_scope.


Inductive LoginStage : Type :=
| CredentialLookup | CardCertificate | SecureChannel | Authentication.
#[export] Instance LoginStage_eq_dec : EqDecision LoginStage.
Proof. solve_decision. Defined.

(** [impl From<Error> for CK_RV] *)
Definition to_ck_rv (error : Error) : Z :=
  match error with
  | Generic rv => rv
  | Hid _ => CKR_DEVICE_ERROR
  | LocalHardware LH_DeviceRemoved => CKR_DEVICE_REMOVED
  | LocalHardware (LH_SendBufferTooLarge _ _ _) => CKR_DATA_LEN_RANGE
  | LocalHardware (LH_InvalidMessageLength _ _) => CKR_DATA_LEN_RANGE
  | LocalHardware LH_ReceiveBufferTooLarge => CKR_DEVICE_MEMORY
  | LocalHardware _ => CKR_DEVICE_ERROR
  | Pcsc _ => CKR_DEVICE_ERROR
  | Http _ => CKR_DEVICE_REMOVED
  | Io _ => CKR_FUNCTION_FAILED
  end.

(** [ffi_boundary]: a caught panic is reported as [CKR_FUNCTION_FAILED].
    [map]: the [CK_RV] an entry point returns. *)
Definition map_rv {A} (r : outcome Error A) : Z :=
  match r with
  | Ok _ => CKR_OK
  | Err e => to_ck_rv e
  | Panic => CKR_FUNCTION_FAILED
  end.

Definition internal_key_failures : list Z :=
  [CKR_KEY_HANDLE_INVALID; CKR_OBJECT_HANDLE_INVALID; CKR_KEY_TYPE_INCONSISTENT;
   CKR_KEY_FUNCTION_NOT_PERMITTED; CKR_PUBLIC_KEY_INVALID; CKR_TEMPLATE_INCOMPLETE;
   CKR_TEMPLATE_INCONSISTENT; CKR_MECHANISM_INVALID; CKR_MECHANISM_PARAM_INVALID].

Definition prerequisite_failures : list Z :=
  [CKR_ARGUMENTS_BAD; CKR_PIN_INCORRECT; CKR_PIN_LOCKED;
   CKR_USER_PIN_NOT_INITIALIZED; CKR_USER_NOT_LOGGED_IN; CKR_FUNCTION_NOT_SUPPORTED].

Definition contains (rv : Z) (codes : list Z) : bool := existsb (Z.eqb rv) codes.

Definition login_failure (error : Error) (stage : LoginStage) : Error :=
  let original := to_ck_rv error in
  let internal_key_failure := contains original internal_key_failures in
  let prerequisite_failure :=
    negb (bool_decide (stage = Authentication)) && contains original prerequisite_failures in
  Generic
    (if (original =? CKR_SIGNATURE_INVALID) || (original =? CKR_SIGNATURE_LEN_RANGE)
     then CKR_DEVICE_ERROR
     else if internal_key_failure || prerequisite_failure then CKR_FUNCTION_FAILED
     else original).

Lemma contains_In rv codes : contains rv codes = true ↔ In rv codes.
Proof.
  unfold contains. rewrite existsb_exists. split.
  - intros (x & Hx & E). apply Z.eqb_eq in E. by subst.
  - intros H. exists rv. by rewrite Z.eqb_refl.
Qed.

(** The translation is idempotent and never turns a failure into success. *)
Lemma login_failure_idempotent error stage :
  login_failure (login_failure error stage) stage = login_failure error stage.
Proof.
  unfold login_failure at 2 3. set (rv := to_ck_rv error).
  destruct ((rv =? CKR_SIGNATURE_INVALID) || (rv =? CKR_SIGNATURE_LEN_RANGE)) eqn:E1;
    [by destruct stage|].
  destruct (contains rv internal_key_failures || _) eqn:E2; [by destruct stage|].
  unfold login_failure. cbn [to_ck_rv]. by rewrite E1, E2.
Qed.

Lemma login_failure_not_ok error stage :
  to_ck_rv error ≠ CKR_OK → to_ck_rv (login_failure error stage) ≠ CKR_OK.
Proof. intros H. unfold login_failure. cbn [to_ck_rv]. repeat case_if; done. Qed.
