(* ===== verification/Apdu.v ===== *)
(** * Apdu: ISO 7816-4 command and response APDU codecs

    Models [CommandApdu] and [ResponseApdu] of [src/src/scp03.rs]: the wire
    form of every message the CCID applets exchange, in the short and the
    extended length encodings. *)
From S2P Require Import Prelude Errors.

Definition MAX_SHORT_DATA_LENGTH : Z := 255.
Definition MAX_EXTENDED_DATA_LENGTH : Z := 65535.
Definition MAX_SHORT_EXPECTED_LENGTH : Z := 256.
Definition MAX_EXTENDED_EXPECTED_LENGTH : Z := 65536.
Definition RESPONSE_OK : Z := 0x9000.

Record CommandApdu : Type := mkCommandApdu {
  cla : Z;
  ins : Z;
  p1 : Z;
  p2 : Z;
  data : list Z;
  le : option Z;
  extended : bool;
}.

Record ResponseApdu : Type := mkResponseApdu {
  rdata : list Z;
  status : Z;
}.

(** [self.le.is_some_and(p)] *)
Definition le_is_some_and (c : CommandApdu) (p : Z → bool) : bool :=
  match le c with Some n => p n | None => false end.

Definition CommandApdu_decode (encoded : list Z) : outcome Error CommandApdu :=
  match encoded with
  | cla :: ins :: p1 :: p2 :: body =>
      let mk := mkCommandApdu cla ins p1 p2 in
      if len body =? 0 then Ok (mk [] None false)
      else if len body =? 1 then
        Ok (mk [] (Some (if at_ body 0 =? 0 then 256 else at_ body 0)) false)
      else if negb (at_ body 0 =? 0) then
        let data_len := at_ body 0 in
        if len body =? data_len + 1 then Ok (mk (zdrop 1 body) None false)
        else if len body =? data_len + 2 then
          Ok (mk (slice 1 (1 + data_len) body)
                 (Some (if at_ body (1 + data_len) =? 0 then 256
                        else at_ body (1 + data_len))) false)
        else Err #CKR_ARGUMENTS_BAD
      else if len body =? 3 then
        let le := of_be16 (at_ body 1) (at_ body 2) in
        Ok (mk [] (Some (if le =? 0 then 65536 else le)) true)
      else if len body <? 3 then Err #CKR_ARGUMENTS_BAD
      else
        let data_len := of_be16 (at_ body 1) (at_ body 2) in
        if len body =? data_len + 3 then Ok (mk (zdrop 3 body) None true)
        else if len body =? data_len + 5 then
          let le_offset := 3 + data_len in
          let le := of_be16 (at_ body le_offset) (at_ body (le_offset + 1)) in
          Ok (mk (slice 3 le_offset body) (Some (if le =? 0 then 65536 else le)) true)
        else Err #CKR_ARGUMENTS_BAD
  | _ => Err #CKR_ARGUMENTS_BAD
  end.

Definition uses_extended_length (c : CommandApdu) (data_len : Z) : outcome Error bool :=
  if (MAX_EXTENDED_DATA_LENGTH <? data_len)
     || le_is_some_and c (λ le, (le =? 0) || (MAX_EXTENDED_EXPECTED_LENGTH <? le))
  then Err #CKR_DATA_LEN_RANGE
  else Ok (extended c || (MAX_SHORT_DATA_LENGTH <? data_len)
           || le_is_some_and c (λ le, MAX_SHORT_EXPECTED_LENGTH <? le)).

Definition encode_header_and_data (c : CommandApdu) (encoded_data_len : Z)
  : outcome Error (list Z) :=
  if (encoded_data_len <? len (data c)) || (MAX_EXTENDED_DATA_LENGTH <? encoded_data_len)
  then Err #CKR_DATA_LEN_RANGE
  else
    let? ext := uses_extended_length c encoded_data_len in
    let header := [cla c; ins c; p1 c; p2 c] in
    Ok (if encoded_data_len =? 0 then header
        else if ext then header ++ [0] ++ be16 (as_u16 encoded_data_len) ++ data c
        else header ++ [as_u8 encoded_data_len] ++ data c).

Definition CommandApdu_encode (c : CommandApdu) : outcome Error (list Z) :=
  let? ext := uses_extended_length c (len (data c)) in
  let? encoded := encode_header_and_data c (len (data c)) in
  Ok (match le c with
      | None => encoded
      | Some le =>
          if ext then
            let encoded_le := if le =? MAX_EXTENDED_EXPECTED_LENGTH then 0 else as_u16 le in
            encoded ++ (if len (data c) =? 0 then [0] else []) ++ be16 encoded_le
          else
            encoded ++ [if le =? MAX_SHORT_EXPECTED_LENGTH then 0 else as_u8 le]
      end).

Definition ResponseApdu_encode (r : ResponseApdu) : list Z :=
  rdata r ++ be16 (status r).

Definition ResponseApdu_parse (encoded : list Z) : outcome Error ResponseApdu :=
  if len encoded <? 2 then Err #CKR_DEVICE_ERROR
  else
    let data_len := len encoded - 2 in
    Ok {| rdata := ztake data_len encoded;
          status := of_be16 (at_ encoded data_len) (at_ encoded (data_len + 1)) |}.

Definition require_success (r : ResponseApdu) : outcome Error ResponseApdu :=
  if status r =? RESPONSE_OK then Ok r else Err #CKR_DEVICE_ERROR.

(** ** Properties *)

(** What the Rust types guarantee of a command: header and data are [u8]s and
    [le] is a [u32]. *)
Definition command_typed (c : CommandApdu) : bool :=
  forallb is_byte [cla c; ins c; p1 c; p2 c] && bytes_ok (data c)
  && match le c with Some n => (0 <=? n) && (n <? 2 ^ 32) | None => true end.

(** The range of commands [encode] accepts. *)
Definition command_encodable (c : CommandApdu) : bool :=
  (len (data c) <=? 65535)
  && match le c with Some n => (1 <=? n) && (n <=? 65536) | None => true end.

(** Whether the extended form is visible on the wire: a command without data
    and without [le] is its four header bytes in either form. *)
Definition wire_extended (c : CommandApdu) : bool :=
  (extended c || (255 <? len (data c)) || le_is_some_and c (λ n, 256 <? n))
  && (negb (len (data c) =? 0) || bool_decide (is_Some (le c))).

(** What a receiver sees of a command. *)
Definition wire_view (c : CommandApdu) : CommandApdu :=
  mkCommandApdu (cla c) (ins c) (p1 c) (p2 c) (data c) (le c) (wire_extended c).

(** The bytes of an encodable command, as one expression. *)
Definition wire_bytes (c : CommandApdu) : list Z :=
  let n := len (data c) in
  let ext := extended c || (255 <? n) || le_is_some_and c (λ m, 256 <? m) in
  [cla c; ins c; p1 c; p2 c]
  ++ (if n =? 0 then [] else if ext then 0 :: be16 n else [n])
  ++ data c
  ++ match le c with
     | None => []
     | Some m => if ext then (if n =? 0 then [0] else []) ++ be16 (m mod 65536)
                 else [m mod 256]
     end.

Lemma encode_wire c :
  command_encodable c = true → CommandApdu_encode c = Ok (wire_bytes c).
Proof.
  unfold CommandApdu_encode, encode_header_and_data, uses_extended_length,
    command_encodable, wire_bytes, le_is_some_and, MAX_EXTENDED_DATA_LENGTH,
    MAX_SHORT_DATA_LENGTH, MAX_EXTENDED_EXPECTED_LENGTH, MAX_SHORT_EXPECTED_LENGTH.
  intros H. pose proof (len_nonneg (data c)) as Hn. set (n := len (data c)) in *.
  assert (n ≤ 65535) by (bool_to_prop; lia).
  assert (n = 0 → data c = []) as Hdata by (intros; by apply len_zero_iff).
  assert (as_u16 n = n) as -> by (apply Z.mod_small; lia).
  test_false (65535 <? n). test_false (n <? n).
  destruct (le c) as [m|]; cbn [orb obind].
  - assert (1 ≤ m ≤ 65536) by (bool_to_prop; lia).
    test_false ((m =? 0) || (65536 <? m)). cbn [obind].
    assert ((if m =? 65536 then 0 else as_u16 m) = m mod 65536) as ->.
    { unfold as_u16. case_if; bool_to_prop; subst; done. }
    destruct (extended c || (255 <? n) || (256 <? m)) eqn:Eext; f_equal.
    + destruct (n =? 0) eqn:E; bool_to_prop; [rewrite Hdata by lia|]; by rewrite <- ?app_assoc.
    + bool_to_prop. assert (as_u8 n = n) as -> by (apply Z.mod_small; lia).
      assert ((if m =? 256 then 0 else as_u8 m) = m mod 256) as ->.
      { unfold as_u8. case_if; bool_to_prop; subst; done. }
      destruct (n =? 0) eqn:E; bool_to_prop; [rewrite Hdata by lia|]; by rewrite <- ?app_assoc.
  - rewrite !app_nil_r, !orb_false_r. f_equal.
    destruct (n =? 0) eqn:E; bool_to_prop; [by rewrite Hdata|].
    case_if; [by rewrite <- ?app_assoc|]. bool_to_prop.
    by assert (as_u8 n = n) as -> by (apply Z.mod_small; lia).
Qed.

(** Outside that range [encode] reports [CKR_DATA_LEN_RANGE]. *)
Lemma encode_out_of_range c :
  command_typed c = true → command_encodable c = false →
  CommandApdu_encode c = Err #CKR_DATA_LEN_RANGE.
Proof.
  unfold CommandApdu_encode, uses_extended_length, command_typed, command_encodable,
    le_is_some_and, MAX_EXTENDED_DATA_LENGTH, MAX_EXTENDED_EXPECTED_LENGTH.
  intros Ht H. destruct (65535 <? len (data c)) eqn:E; [done|].
  destruct (le c) as [n|]; bool_to_prop; [|lia].
  by test_true ((n =? 0) || (65536 <? n)).
Qed.

(** *** The decoder on each shape of body *)
Section decode_shapes.
Context (a b c d : Z).
Abbreviation mk := (mkCommandApdu a b c d).
Abbreviation decode body := (CommandApdu_decode (a :: b :: c :: d :: body)).

Lemma le_unwrap8 m : 1 ≤ m ≤ 256 → (if m mod 256 =? 0 then 256 else m mod 256) = m.
Proof.
  intros H. destruct (decide (m = 256)) as [->|]; [done|].
  rewrite Z.mod_small by lia. by test_false (m =? 0).
Qed.

Lemma le_unwrap16 m : 1 ≤ m ≤ 65536 → (if m mod 65536 =? 0 then 65536 else m mod 65536) = m.
Proof.
  intros H. destruct (decide (m = 65536)) as [->|]; [done|].
  rewrite Z.mod_small by lia. by test_false (m =? 0).
Qed.

Lemma decode_short_le m : 1 ≤ m ≤ 256 → decode [m mod 256] = Ok (mk [] (Some m) false).
Proof.
  intros H. unfold CommandApdu_decode. change (len [m mod 256]) with 1.
  cbn [Z.eqb Pos.eqb]. by rewrite at_0, le_unwrap8.
Qed.

Lemma decode_extended_le m :
  1 ≤ m ≤ 65536 → decode (0 :: be16 (m mod 65536)) = Ok (mk [] (Some m) true).
Proof.
  intros H. unfold CommandApdu_decode.
  change (len (0 :: be16 (m mod 65536))) with 3. cbn [Z.eqb Pos.eqb].
  change (at_ (0 :: be16 (m mod 65536)) 0) with 0. cbn [Z.eqb negb].
  change (at_ (0 :: be16 (m mod 65536)) 1) with (m mod 65536 / 256).
  change (at_ (0 :: be16 (m mod 65536)) 2) with (m mod 65536 mod 256).
  by rewrite of_be16_be16, le_unwrap16.
Qed.

(** What follows the data of a short command: nothing, or one byte of Le. *)
Lemma decode_short_data l tail :
  0 < len l ≤ 255 → tail = [] ∨ (∃ m, 1 ≤ m ≤ 256 ∧ tail = [m mod 256]) →
  decode (len l :: l ++ tail) =
    Ok (mk l (match tail with [] => None
              | t :: _ => Some (if t =? 0 then 256 else t) end) false).
Proof.
  intros Hl Ht. unfold CommandApdu_decode. rewrite at_0.
  assert (len (len l :: l ++ tail) = 1 + len l + len tail) as ->
    by (rewrite len_cons, len_app; lia).
  pose proof (len_nonneg tail).
  test_false (1 + len l + len tail =? 0). test_false (1 + len l + len tail =? 1).
  test_false (len l =? 0). cbn [negb].
  destruct Ht as [->|(m & Hm & ->)].
  - rewrite len_nil, app_nil_r. by test_true (1 + len l + 0 =? len l + 1).
  - change (len [m mod 256]) with 1.
    test_false (1 + len l + 1 =? len l + 1). test_true (1 + len l + 1 =? len l + 2).
    rewrite slice_cons1, at_cons1 by lia. by rewrite at_app_exact, at_0.
Qed.

(** The same for an extended command: nothing, or two bytes of Le. *)
Lemma decode_extended_data l tail :
  0 < len l ≤ 65535 → tail = [] ∨ (∃ m, tail = be16 m) →
  decode (0 :: be16 (len l) ++ l ++ tail) =
    Ok (mk l (match tail with
              | h :: t :: _ => let m := of_be16 h t in Some (if m =? 0 then 65536 else m)
              | _ => None end) true).
Proof.
  intros Hl Ht. unfold CommandApdu_decode. cbn [be16 app].
  set (body := 0 :: len l / 256 :: len l mod 256 :: l ++ tail).
  assert (len body = 3 + len l + len tail) as ->
    by (unfold body; rewrite !len_cons, len_app; lia).
  pose proof (len_nonneg tail).
  test_false (3 + len l + len tail =? 0). test_false (3 + len l + len tail =? 1).
  test_false (3 + len l + len tail =? 3). test_false (3 + len l + len tail <? 3).
  change (at_ body 0) with 0. change (at_ body 1) with (len l / 256).
  change (at_ body 2) with (len l mod 256). rewrite of_be16_be16. cbn [Z.eqb negb].
  destruct Ht as [->|(m & ->)].
  - rewrite len_nil. test_true (3 + len l + 0 =? len l + 3). unfold body.
    by rewrite app_nil_r.
  - rewrite len_be16. test_false (3 + len l + 2 =? len l + 3).
    test_true (3 + len l + 2 =? len l + 5).
    assert (body = ([0; len l / 256; len l mod 256] ++ l) ++ be16 m) as Eb by done.
    assert (3 + len l = len ([0; len l / 256; len l mod 256] ++ l)) as En
      by (by rewrite len_app).
    assert (at_ body (3 + len l) = m / 256) as ->
      by (rewrite Eb, En; by rewrite at_app_exact).
    assert (at_ body (3 + len l + 1) = m mod 256) as ->
      by (rewrite Eb, En; by rewrite at_app_r).
    unfold body. by rewrite slice_cons3.
Qed.
End decode_shapes.

(** The round trip on the wire form; the property and the secure channel's
    proofs use it. *)
Lemma decode_wire_bytes c :
  command_encodable c = true → CommandApdu_decode (wire_bytes c) = Ok (wire_view c).
Proof.
  intros H. unfold wire_bytes, wire_view, wire_extended, command_encodable in *.
  pose proof (len_nonneg (data c)) as Hn.
  set (ext := extended c || (255 <? len (data c)) || le_is_some_and c (λ m, 256 <? m)).
  assert (len (data c) ≤ 65535) by (bool_to_prop; lia).
  destruct (len (data c) =? 0) eqn:En; bool_to_prop.
  - apply len_zero_iff in En. rewrite En. unfold le_is_some_and in ext.
    destruct (le c) as [m|]; cbn [app negb orb]; [|by rewrite andb_false_r].
    rewrite (bool_decide_true (is_Some (Some m))), andb_true_r by eauto.
    destruct ext eqn:Eext; [by apply decode_extended_le; lia|].
    unfold ext in Eext. bool_to_prop. apply decode_short_le. lia.
  - cbn [app negb orb]. rewrite andb_true_r. unfold le_is_some_and in ext.
    destruct ext eqn:Eext.
    + rewrite <- app_comm_cons, decode_extended_data; [|lia|destruct (le c); [right; by eexists|by left]].
      destruct (le c) as [m|]; [|done]. cbn [app be16].
      rewrite of_be16_be16, le_unwrap16; [done|lia].
    + unfold ext in Eext. bool_to_prop.
      rewrite <- app_comm_cons. cbn [app].
      rewrite decode_short_data; [|lia|destruct (le c) as [m|]; [right; exists m|by left]].
      * destruct (le c) as [m|]; [|done]. bool_to_prop. rewrite le_unwrap8; [done|lia].
      * bool_to_prop. split; [lia|done].
Qed.

(** *** The encoder on what the decoder produced *)
Section encode_shapes.
Context (a b c d : Z).
Abbreviation mk := (mkCommandApdu a b c d).
Abbreviation header := ([a; b; c; d]).

Lemma bytes_ok_cons x l : bytes_ok (x :: l) = true ↔ 0 ≤ x < 256 ∧ bytes_ok l = true.
Proof. unfold bytes_ok, is_byte. cbn [forallb]. rewrite !andb_true_iff, Z.leb_le, Z.ltb_lt. tauto. Qed.

Lemma bytes_ok_app l k : bytes_ok (l ++ k) = true ↔ bytes_ok l = true ∧ bytes_ok k = true.
Proof. unfold bytes_ok. by rewrite forallb_app, andb_true_iff. Qed.

Lemma le_wrap8 x : 0 ≤ x < 256 → (if x =? 0 then 256 else x) mod 256 = x.
Proof. intros. case_if; bool_to_prop; subst; [done|]. by apply Z.mod_small. Qed.

Lemma le_wrap16 x : 0 ≤ x < 65536 → (if x =? 0 then 65536 else x) mod 65536 = x.
Proof. intros. case_if; bool_to_prop; subst; [done|]. by apply Z.mod_small. Qed.

Lemma be16_of_be16 x y : 0 ≤ x < 256 → 0 ≤ y < 256 → be16 (of_be16 x y) = [x; y].
Proof.
  intros. unfold be16, of_be16. do 2 f_equal.
  - rewrite Z.div_add_l by lia. rewrite Z.div_small; lia.
  - rewrite Z.add_comm, Z_mod_plus_full. by rewrite Z.mod_small by lia.
Qed.

Lemma encode_short l m :
  len l ≤ 255 → match m with Some x => 0 ≤ x < 256 | None => True end →
  CommandApdu_encode (mk l ((λ x, if x =? 0 then 256 else x) <$> m) false) =
    Ok (header ++ (if len l =? 0 then [] else [len l]) ++ l
               ++ match m with Some x => [x] | None => [] end).
Proof.
  intros Hl Hm. rewrite encode_wire.
  - unfold wire_bytes, le_is_some_and. destruct m as [x|]; cbn [fmap option_fmap option_map le extended data].
    + assert ((255 <? len l) || (256 <? (if x =? 0 then 256 else x)) = false) as E.
      { test_false (255 <? len l). destruct (x =? 0); lia. }
      cbn [orb]. rewrite E. by rewrite le_wrap8.
    + cbn [orb]. by test_false (255 <? len l).
  - unfold command_encodable. destruct m as [x|]; simpl; [destruct (x =? 0) eqn:?|]; lia.
Qed.

Lemma encode_extended l m :
  len l ≤ 65535 → match m with Some x => 0 ≤ x < 65536 | None => True end →
  CommandApdu_encode (mk l ((λ x, if x =? 0 then 65536 else x) <$> m) true) =
    Ok (header ++ (if len l =? 0 then [] else 0 :: be16 (len l)) ++ l
               ++ match m with
                  | Some x => (if len l =? 0 then [0] else []) ++ be16 x
                  | None => [] end).
Proof.
  intros Hl Hm. rewrite encode_wire.
  - unfold wire_bytes. destruct m as [x|]; cbn [fmap option_fmap option_map le extended data orb]; [|done].
    by rewrite le_wrap16.
  - unfold command_encodable. destruct m as [x|]; simpl; [destruct (x =? 0) eqn:?|]; lia.
Qed.
End encode_shapes.

(** A body cut at the data length it announces. *)
Lemma body_split (x : Z) (rest : list Z) n k :
  0 ≤ n → len (x :: rest) = n + 1 + k → 0 ≤ k →
  ∃ l tail, rest = l ++ tail ∧ len l = n ∧ len tail = k ∧
    slice 1 (1 + n) (x :: rest) = l.
Proof.
  intros Hn Hl Hk. rewrite len_cons in Hl.
  exists (ztake n rest), (zdrop n rest).
  rewrite ztake_zdrop, len_ztake, len_zdrop by done.
  repeat split; try lia. unfold slice. unfold zdrop at 1.
  change (Z.to_nat 1) with 1%nat. cbn [drop]. f_equal. lia.
Qed.

Lemma len_1_inv (l : list Z) : len l = 1 → ∃ x, l = [x].
Proof. unfold len. destruct l as [|x [|y l]]; simpl; try lia. eauto. Qed.

Lemma len_2_inv (l : list Z) : len l = 2 → ∃ x y, l = [x; y].
Proof. unfold len. destruct l as [|x [|y [|z l]]]; simpl; try lia. eauto. Qed.

(** The one non-canonical form the decoder accepts: an extended command whose
    data length is zero, followed by Le. *)
Definition zero_lc_form (bytes : list Z) : Prop :=
  ∃ a b c d h l, bytes = [a; b; c; d; 0; 0; 0; h; l].

Lemma decode_canonical_short a b c d x rest cmd :
  0 < x < 256 → rest ≠ [] → bytes_ok rest = true →
  CommandApdu_decode (a :: b :: c :: d :: x :: rest) = Ok cmd →
  CommandApdu_encode cmd = Ok (a :: b :: c :: d :: x :: rest).
Proof.
  intros Hx Hne Hr. unfold CommandApdu_decode. rewrite at_0, len_cons.
  assert (0 < len rest) by (pose proof (len_nonneg rest); rewrite <- len_zero_iff in Hne; lia).
  test_false (1 + len rest =? 0). test_false (1 + len rest =? 1).
  test_false (x =? 0). cbn [negb].
  destruct (1 + len rest =? x + 1) eqn:E1; bool_to_prop.
  { intros [= <-]. change (zdrop 1 (x :: rest)) with rest.
    etrans; [apply (encode_short a b c d rest None); [lia|done]|].
    test_false (len rest =? 0). rewrite app_nil_r.
    by replace (len rest) with x by lia. }
  destruct (1 + len rest =? x + 2) eqn:E2; bool_to_prop; [|done].
  destruct (body_split x rest x 1) as (l & tail & -> & Hl & Ht & ->); [lia|rewrite len_cons; lia|lia|].
  apply len_1_inv in Ht as [y ->]. rewrite at_cons1 by lia.
  apply bytes_ok_app in Hr as [_ Hy]. apply bytes_ok_cons in Hy as [Hy _].
  replace (at_ (l ++ [y]) x) with y by (rewrite <- Hl; by rewrite at_app_exact).
  intros [= <-].
  etrans; [apply (encode_short a b c d l (Some y)); lia|].
  test_false (len l =? 0). by rewrite Hl.
Qed.

Lemma decode_canonical_extended a b c d rest cmd :
  rest ≠ [] → bytes_ok rest = true →
  CommandApdu_decode (a :: b :: c :: d :: 0 :: rest) = Ok cmd →
  CommandApdu_encode cmd = Ok (a :: b :: c :: d :: 0 :: rest) ∨
  zero_lc_form (a :: b :: c :: d :: 0 :: rest).
Proof.
  intros Hne Hr. unfold CommandApdu_decode. rewrite at_0, len_cons.
  assert (0 < len rest) by (pose proof (len_nonneg rest); rewrite <- len_zero_iff in Hne; lia).
  test_false (1 + len rest =? 0). test_false (1 + len rest =? 1). cbn [Z.eqb negb].
  destruct rest as [|h [|l rest]]; try done.
  apply bytes_ok_cons in Hr as [Hh Hr]. apply bytes_ok_cons in Hr as [Hl Hr].
  change (at_ (0 :: h :: l :: rest) 1) with h. change (at_ (0 :: h :: l :: rest) 2) with l.
  assert (0 ≤ of_be16 h l < 65536) as Hn by (unfold of_be16; lia).
  rewrite !len_cons. pose proof (len_nonneg rest).
  destruct (1 + (1 + (1 + len rest)) =? 3) eqn:E3; bool_to_prop.
  { assert (rest = []) as -> by (apply len_zero_iff; lia). intros [= <-]. left.
    etrans; [apply (encode_extended a b c d [] (Some (of_be16 h l))); [done|lia]|].
    by rewrite be16_of_be16. }
  test_false (1 + (1 + (1 + len rest)) <? 3).
  destruct (1 + (1 + (1 + len rest)) =? of_be16 h l + 3) eqn:E4; bool_to_prop.
  { intros [= <-]. left. change (zdrop 3 (0 :: h :: l :: rest)) with rest.
    etrans; [apply (encode_extended a b c d rest None); [lia|done]|].
    test_false (len rest =? 0). replace (len rest) with (of_be16 h l) by lia.
    by rewrite be16_of_be16, app_nil_r. }
  destruct (1 + (1 + (1 + len rest)) =? of_be16 h l + 5) eqn:E5; bool_to_prop; [|done].
  destruct (body_split l rest (of_be16 h l) 2) as (dat & tail & -> & Hd & Ht & _);
    [lia|rewrite len_cons; lia|lia|].
  apply len_2_inv in Ht as (y & z & ->).
  apply bytes_ok_app in Hr as [_ Hy]. apply bytes_ok_cons in Hy as [Hy Hz].
  apply bytes_ok_cons in Hz as [Hz _]. rewrite <- Hd.
  rewrite slice_cons3.
  change (0 :: h :: l :: dat ++ [y; z]) with (([0; h; l] ++ dat) ++ [y; z]).
  replace (3 + len dat) with (len ([0; h; l] ++ dat)) by (by rewrite len_app).
  rewrite at_app_exact, at_app_r by lia. intros [= <-].
  change (at_ [y; z] 0) with y. change (at_ [y; z] 1) with z.
  assert (0 ≤ of_be16 y z < 65536) by (unfold of_be16; lia).
  destruct (len dat =? 0) eqn:E0; bool_to_prop.
  - right. apply len_zero_iff in E0 as ->. rewrite len_nil in Hd.
    exists a, b, c, d, y, z. unfold of_be16 in Hd. by assert (h = 0 ∧ l = 0) as [-> ->] by lia.
  - left. etrans; [apply (encode_extended a b c d dat (Some (of_be16 y z))); lia|].
    test_false (len dat =? 0). rewrite Hd, !be16_of_be16 by done. done.
Qed.

Lemma decode_canonical bytes cmd :
  bytes_ok bytes = true → CommandApdu_decode bytes = Ok cmd →
  CommandApdu_encode cmd = Ok bytes ∨ zero_lc_form bytes.
Proof.
  destruct bytes as [|a [|b [|c [|d body]]]]; try done.
  rewrite !bytes_ok_cons. intros (_ & _ & _ & _ & Hb).
  destruct body as [|x [|y rest]].
  - intros [= <-]. left. by apply (encode_short _ _ _ _ [] None).
  - apply bytes_ok_cons in Hb as [Hx _]. intros [= <-]. left.
    by apply (encode_short a b c d [] (Some x)).
  - apply bytes_ok_cons in Hb as [Hx Hr].
    destruct (decide (x = 0)) as [->|].
    + by apply decode_canonical_extended.
    + intros. left. apply decode_canonical_short; [lia|done..].
Qed.

Lemma parse_encode_response r :
  0 ≤ status r < 65536 → ResponseApdu_parse (ResponseApdu_encode r) = Ok r.
Proof.
  intros H. unfold ResponseApdu_parse, ResponseApdu_encode. destruct r as [d s].
  cbn [rdata status] in *. rewrite len_app, len_be16. pose proof (len_nonneg d).
  test_false (len d + 2 <? 2). replace (len d + 2 - 2) with (len d) by lia.
  rewrite ztake_app_len, at_app_exact, at_app_r by lia.
  change (at_ (be16 s) 0) with (s / 256). change (at_ (be16 s) 1) with (s mod 256).
  by rewrite of_be16_be16.
Qed.

(** ** Properties of the codec *)

(** C35: Encoding is total on the Rust type: a command whose data fits the
    extended length field and whose Le is absent or in 1..=65536 encodes, every
    other command is refused with [CKR_DATA_LEN_RANGE]; and the receiver's
    decoder applied to the encoding returns the command, with [extended] as it
    shows on the wire. *)
Theorem apdu_roundtrip c :
  command_typed c = true →
  if command_encodable c
  then ∃ bytes, CommandApdu_encode c = Ok bytes ∧ CommandApdu_decode bytes = Ok (wire_view c)
  else CommandApdu_encode c = Err #CKR_DATA_LEN_RANGE.
Proof.
  intros Ht. destruct (command_encodable c) eqn:E.
  - exists (wire_bytes c). eauto using encode_wire, decode_wire_bytes.
  - by apply encode_out_of_range.
Qed.

Definition sample_command : CommandApdu :=
  mkCommandApdu 0 0xda 1 2 (replicate 300 0x5a) (Some 65536) false.

Lemma apdu_roundtrip_witness :
  if command_encodable sample_command
  then ∃ bytes, CommandApdu_encode sample_command = Ok bytes ∧
    CommandApdu_decode bytes = Ok (wire_view sample_command)
  else CommandApdu_encode sample_command = Err #CKR_DATA_LEN_RANGE.
Proof. apply (apdu_roundtrip sample_command). vm_compute. reflexivity. Defined.

(** The decoder accepts only what the encoder produces, apart from one
    redundant form: if bytes decode to a command, encoding the command gives the
    same bytes back, unless the bytes are an extended command that spells out a
    zero data length before its Le. *)
Theorem apdu_decode_canonical bytes c :
  bytes_ok bytes = true → CommandApdu_decode bytes = Ok c →
  CommandApdu_encode c = Ok bytes ∨ zero_lc_form bytes.
Proof. apply decode_canonical. Qed.

Lemma apdu_decode_canonical_witness :
  CommandApdu_encode (mkCommandApdu 0 0xa4 4 0 [0xa0; 0; 0; 1; 0x51] (Some 256) false)
    = Ok [0; 0xa4; 4; 0; 5; 0xa0; 0; 0; 1; 0x51; 0] ∨
  zero_lc_form [0; 0xa4; 4; 0; 5; 0xa0; 0; 0; 1; 0x51; 0].
Proof. apply apdu_decode_canonical; vm_compute; reflexivity. Defined.
