(* ===== verification/Connector.v ===== *)
(** * Connector: the transport interface and the raw APDU exchange

    [Connector] is the part of the [Connector] trait of [src/src/connector.rs]
    the protocol layers use: one exchange of bytes with the device, and what the
    device says about itself. The device behind it is a state [D] that every
    exchange may change. Implementations (PC/SC, CryptoTokenKit, USB, HTTP, an
    embedded virtual device) are instances; the theorems of the protocol layers
    hold for all of them, or for the reference devices their files define. *)
From S2P Require Import Prelude Errors Apdu.

Record ApduCapabilities : Type := mkApduCapabilities {
  command_chaining : bool;
  extended_length : bool;
}.

Definition SHORT_ONLY : ApduCapabilities := mkApduCapabilities true false.
Definition EXTENDED : ApduCapabilities := mkApduCapabilities true true.

Class Connector (D : Type) : Type := {
  (** [Connector::send] and [Connector::send_owned] *)
  send : list Z → SM D Error (list Z);
  (** [Connector::apdu_capabilities] *)
  apdu_capabilities : D → ApduCapabilities;
  (** [Connector::major], [Connector::minor] *)
  firmware : D → Z * Z;
}.

Section exchange.
Context `{Connector D}.

(** [scp03::transmit]: one command APDU, one response APDU. *)
Definition raw_transmit (command : CommandApdu) : SM D Error ResponseApdu :=
  let! encoded := sm_lift (CommandApdu_encode command) in
  let! answer := send encoded in
  sm_lift (ResponseApdu_parse answer).

(** [scp03::select_application] *)
Definition select_application (aid : list Z) : SM D Error unit :=
  guard_err (negb ((5 <=? len aid) && (len aid <=? 16))) #CKR_ARGUMENTS_BAD ;!
  let select := mkCommandApdu 0x00 0xa4 0x04 0x00 aid (Some 256) false in
  let! response := raw_transmit select in
  let! _ := sm_lift (require_success response) in
  sm_ret tt.
End exchange.

(** What an exchange does when the device answers a well-formed response. *)
Lemma raw_transmit_ok `{Connector D} c dev bytes answer dev' :
  CommandApdu_encode c = Ok bytes →
  send bytes dev = (Ok (ResponseApdu_encode answer), dev') →
  0 ≤ status answer < 65536 →
  raw_transmit c dev = (Ok answer, dev').
Proof.
  intros Hc Hs Ha. unfold raw_transmit, sbind, sm_lift. rewrite Hc, Hs.
  by rewrite parse_encode_response.
Qed.

(** A command that does not encode is never sent. *)
Lemma raw_transmit_unsent `{Connector D} c dev e :
  CommandApdu_encode c = Err e → raw_transmit c dev = (Err e, dev).
Proof. intros Hc. unfold raw_transmit, sbind, sm_lift. by rewrite Hc. Qed.
