(* ===== verification/Iso7816.v ===== *)
(** * Iso7816: command chaining, response chaining, ATR capabilities

    Models [src/src/iso7816.rs]. [transmit_command] chooses the short, the
    extended or the chained form of a command; [collect_response_chain] fetches
    the rest of a long response; [atr_apdu_capabilities] reads what the card
    supports out of its answer to reset.

    The loop over GET RESPONSE runs at most [MAX_RESPONSE_SEGMENTS] times by the
    code's own check, so it is a structural recursion on the segments left and
    needs no other bound. The two ATR loops advance by at least one byte per
    turn, so the length of the ATR is enough fuel ([atr_interface_spec],
    [historical_scan_spec] need one unit per group or object). *)
From S2P Require Import Prelude Errors Apdu Connector.

Definition COMMAND_CHAINING_CLA : Z := 0x10.
Definition GET_RESPONSE : Z := 0xc0.
Definition MAX_SHORT_RESPONSE_LENGTH : Z := 256.
Definition MAX_RESPONSE_LENGTH : Z := 65536.
Definition MAX_RESPONSE_SEGMENTS : nat := 256.

Section transmit.
Context `{Connector D}.

(** The chunk loop of [transmit_command]: every segment but the last carries
    the chaining bit and must be acknowledged with an empty 9000. *)
Fixpoint transmit_segments (command : CommandApdu) (segments : list (list Z))
  : SM D Error ResponseApdu :=
  match segments with
  | [] => sm_err #CKR_DEVICE_ERROR
  | [chunk] =>
      raw_transmit (mkCommandApdu (cla command) (ins command) (p1 command) (p2 command)
                      chunk (le command) false)
  | chunk :: rest =>
      let! response :=
        raw_transmit (mkCommandApdu (Z.lor (cla command) COMMAND_CHAINING_CLA)
                        (ins command) (p1 command) (p2 command) chunk None false) in
      guard_err (negb (status response =? 0x9000) || negb (len (rdata response) =? 0))
        #CKR_DEVICE_ERROR ;!
      transmit_segments command rest
  end.

Definition transmit_command (command : CommandApdu) (capabilities : ApduCapabilities)
  : SM D Error ResponseApdu :=
  let long_le := le_is_some_and command (λ n, MAX_SHORT_RESPONSE_LENGTH <? n) in
  let needs_extended := (MAX_SHORT_DATA_LENGTH <? len (data command)) || long_le in
  if negb needs_extended || extended_length capabilities then
    raw_transmit (mkCommandApdu (cla command) (ins command) (p1 command) (p2 command)
                    (data command) (le command)
                    (needs_extended && extended_length capabilities))
  else
    guard_err long_le #CKR_DATA_LEN_RANGE ;!
    guard_err (negb (command_chaining capabilities) || (len (data command) =? 0)
               || has_flag (cla command) COMMAND_CHAINING_CLA) #CKR_ARGUMENTS_BAD ;!
    transmit_segments command (chunks 255 (data command)).

Definition append_response_data (output dat : list Z) : outcome Error (list Z) :=
  if len output + len dat <=? MAX_RESPONSE_LENGTH then Ok (output ++ dat)
  else Err #CKR_DEVICE_ERROR.

(** [status & 0xff00 == 0x6100] *)
Definition more_data (response : ResponseApdu) : bool :=
  Z.land (status response) 0xff00 =? 0x6100.

Definition get_response_command (instruction available : Z) : CommandApdu :=
  mkCommandApdu 0 instruction 0 0 []
    (Some (if available =? 0 then MAX_SHORT_RESPONSE_LENGTH else available)) false.

(** [remaining] is [MAX_RESPONSE_SEGMENTS - segments]; at zero the next
    segment trips [segments > MAX_RESPONSE_SEGMENTS]. [first] is
    [segments == 0]. *)
Fixpoint collect_loop (remaining : nat) (instruction : Z) (first : bool)
    (acc : list Z) (response : ResponseApdu) : SM D Error ResponseApdu :=
  if more_data response then
    match remaining with
    | O => sm_err #CKR_DEVICE_ERROR
    | S remaining' =>
        guard_err (negb first && (len (rdata response) =? 0)) #CKR_DEVICE_ERROR ;!
        let! acc' := sm_lift (append_response_data acc (rdata response)) in
        let! next := raw_transmit
                       (get_response_command instruction (Z.land (status response) 0xff)) in
        collect_loop remaining' instruction false acc' next
    end
  else
    let! acc' := sm_lift (append_response_data acc (rdata response)) in
    sm_ret (mkResponseApdu acc' (status response)).

Definition collect_response_chain_with_instruction (response : ResponseApdu)
    (instruction : Z) : SM D Error ResponseApdu :=
  collect_loop MAX_RESPONSE_SEGMENTS instruction true [] response.

Definition collect_response_chain (response : ResponseApdu) : SM D Error ResponseApdu :=
  collect_response_chain_with_instruction response GET_RESPONSE.

(** A 6Cxx answer names the exact Le: the command is sent once more with it. *)
Definition transmit_with_capabilities (command : CommandApdu)
    (capabilities : ApduCapabilities) : SM D Error ResponseApdu :=
  let! response := transmit_command command capabilities in
  let! response :=
    if Z.land (status response) 0xff00 =? 0x6c00 then
      let length := as_u8 (status response) in
      transmit_command
        (mkCommandApdu (cla command) (ins command) (p1 command) (p2 command) (data command)
           (Some (if length =? 0 then MAX_SHORT_RESPONSE_LENGTH else length))
           (extended command)) capabilities
    else sm_ret response in
  collect_response_chain response.

Definition transmit (command : CommandApdu) : SM D Error ResponseApdu :=
  let! capabilities := sm_gets apdu_capabilities in
  transmit_with_capabilities command capabilities.

Definition transmit_short (command : CommandApdu) : SM D Error ResponseApdu :=
  transmit_with_capabilities command SHORT_ONLY.

Definition transmit_oath (command : CommandApdu) : SM D Error ResponseApdu :=
  let! response := raw_transmit command in
  collect_response_chain_with_instruction response 0xa5.
End transmit.

(** ** A reference card

    The card at the other end, as ISO 7816-4 describes it: it reassembles a
    command chain, executes the whole command once, hands out a long response in
    blocks through GET RESPONSE, and, if it insists on an exact Le, answers 6Cxx
    without executing. The application on the card is a state [A] and a handler
    of whole commands. *)
Record CardProfile (A : Type) : Type := mkCardProfile {
  card_handler : A → CommandApdu → ResponseApdu * A;
  card_caps : ApduCapabilities;
  card_firmware : Z * Z;
  (** bytes of response data per block *)
  card_block : Z;
  (** answers 6Cxx when Le is not the exact length *)
  card_exact_le : bool;
}.

Record Card (A : Type) : Type := mkCard {
  (** instruction, parameters and data of the command chain received so far *)
  card_chain : option (Z * Z * Z * list Z);
  (** response data not yet fetched, and the final status *)
  card_pending : option (list Z * Z);
  (** the state of the application *)
  card_app : A;
}.

Arguments mkCardProfile {A} _ _ _ _ _.
Arguments card_handler {A} _ _ _.
Arguments card_caps {A} _.
Arguments card_firmware {A} _.
Arguments card_block {A} _.
Arguments card_exact_le {A} _.
Arguments mkCard {A} _ _ _.
Arguments card_chain {A} _.
Arguments card_pending {A} _.
Arguments card_app {A} _.

Definition more_status (remaining : Z) : Z := 0x6100 + Z.min remaining 256 mod 256.

Definition deliver (limit : Z) (dat : list Z) (st : Z)
  : ResponseApdu * option (list Z * Z) :=
  if len dat <=? limit then (mkResponseApdu dat st, None)
  else (mkResponseApdu (ztake limit dat) (more_status (len dat - limit)),
        Some (zdrop limit dat, st)).

Definition chain_data {A} (card : Card A) (c : CommandApdu) : option (list Z) :=
  match card_chain card with
  | None => Some []
  | Some (i, a, b, d) =>
      if (i =? ins c) && (a =? p1 c) && (b =? p2 c) then Some d else None
  end.

Definition refuse {A} (st : Z) (card : Card A) : ResponseApdu * Card A :=
  (mkResponseApdu [] st, mkCard None None (card_app card)).

(** When the card gives a 6Cxx answer: only to a short command. *)
Definition wrong_le {A} (profile : CardProfile A) (c : CommandApdu) (r : ResponseApdu) : bool :=
  card_exact_le profile && negb (extended c) && (0 <? len (rdata r)) && (len (rdata r) <=? 256)
  && le_is_some_and c (λ n, negb (n =? len (rdata r))).

(** The reassembled command as the application sees it; Le is the transport's. *)
Definition request (c : CommandApdu) (dat : list Z) : CommandApdu :=
  mkCommandApdu (cla c) (ins c) (p1 c) (p2 c) dat None (extended c).

Definition card_execute {A} (profile : CardProfile A) (c : CommandApdu) (dat : list Z)
    (card : Card A) : ResponseApdu * Card A :=
  let '(r, app) := card_handler profile (card_app card) (request c dat) in
  if wrong_le profile c r then refuse (0x6c00 + len (rdata r) mod 256) card
  else
    let '(answer, pending) := deliver (card_block profile) (rdata r) (status r) in
    (answer, mkCard None pending app).

Definition card_answer {A} (profile : CardProfile A) (c : CommandApdu) (card : Card A)
  : ResponseApdu * Card A :=
  if extended c && negb (extended_length (card_caps profile)) then refuse 0x6700 card
  else
    match card_pending card, (ins c =? GET_RESPONSE) && (cla c =? 0), le c with
    | Some (dat, st), true, Some n =>
        let '(answer, pending) := deliver (Z.min n (card_block profile)) dat st in
        (answer, mkCard None pending (card_app card))
    | _, _, _ =>
        match chain_data card c with
        | None => refuse 0x6985 card
        | Some before =>
            if has_flag (cla c) COMMAND_CHAINING_CLA then
              if command_chaining (card_caps profile) then
                (mkResponseApdu [] 0x9000,
                 mkCard (Some (ins c, p1 c, p2 c, before ++ data c)) None (card_app card))
              else refuse 0x6884 card
            else card_execute profile c (before ++ data c) card
        end
    end.

Definition card_connector {A} (profile : CardProfile A) : Connector (Card A) := {|
  send bytes card :=
    match CommandApdu_decode bytes with
    | Ok c =>
        let '(r, card') := card_answer profile c card in (Ok (ResponseApdu_encode r), card')
    | _ => let '(r, card') := refuse 0x6700 card in (Ok (ResponseApdu_encode r), card')
    end;
  apdu_capabilities _ := card_caps profile;
  firmware _ := card_firmware profile;
|}.

(** A response the handler may give: it fits what a host accepts, and its final
    status does not itself announce more data or a wrong Le. *)
Definition response_final (r : ResponseApdu) : bool :=
  (0 <=? status r) && (status r <? 65536)
  && negb (Z.land (status r) 0xff00 =? 0x6100) && negb (Z.land (status r) 0xff00 =? 0x6c00).
Definition response_fits {A} (profile : CardProfile A) (r : ResponseApdu) : bool :=
  (len (rdata r) <=? MAX_RESPONSE_LENGTH)
  && (len (rdata r) <=? 257 * card_block profile).

Definition profile_ok {A} (profile : CardProfile A) : bool :=
  (1 <=? card_block profile) && (card_block profile <=? 256).

(** Commands the host can deliver to a card with these capabilities. *)
Definition transmittable (capabilities : ApduCapabilities) (c : CommandApdu) : bool :=
  negb (has_flag (cla c) COMMAND_CHAINING_CLA) && negb (ins c =? GET_RESPONSE)
  && match le c with
     | Some n => (1 <=? n) && (n <=? if extended_length capabilities then 65536 else 256)
     | None => true
     end
  && ((len (data c) <=? 255)
      || if extended_length capabilities then len (data c) <=? 65535
         else command_chaining capabilities).

(** The form in which [transmit_command] sends a command. *)
Definition needs_extended_form (c : CommandApdu) : bool :=
  (MAX_SHORT_DATA_LENGTH <? len (data c))
  || le_is_some_and c (λ n, MAX_SHORT_RESPONSE_LENGTH <? n).
Definition as_sent (capabilities : ApduCapabilities) (c : CommandApdu) : CommandApdu :=
  mkCommandApdu (cla c) (ins c) (p1 c) (p2 c) (data c) (le c)
    (needs_extended_form c && extended_length capabilities).

Section card_lemmas.
Context {A : Type} (profile : CardProfile A) (Hprofile : profile_ok profile = true).
#[local] Instance the_card : Connector (Card A) := card_connector profile.

(** One exchange with the card is the card's answer to the command. *)
Lemma card_raw_transmit c card :
  command_encodable c = true →
  0 ≤ status (card_answer profile (wire_view c) card).1 < 65536 →
  raw_transmit c card =
    (Ok (card_answer profile (wire_view c) card).1, (card_answer profile (wire_view c) card).2).
Proof using Type.
  intros Hc Hs. eapply raw_transmit_ok; [by apply encode_wire| |done].
  cbn [send the_card card_connector]. rewrite decode_wire_bytes by done.
  by destruct (card_answer profile (wire_view c) card).
Qed.

Lemma more_status_facts n :
  0 < n → 0 ≤ more_status n < 65536 ∧ Z.land (more_status n) 0xff00 = 0x6100 ∧
    Z.land (more_status n) 0xff = Z.min n 256 mod 256.
Proof using Type.
  intros Hn. unfold more_status. set (k := Z.min n 256 mod 256).
  assert (0 ≤ k < 256) as Hk by (apply Z.mod_pos_bound; lia).
  pose proof (byte_forall (λ b, (0x6100 + b <? 65536) && (Z.land (0x6100 + b) 0xff00 =? 0x6100)
     && (Z.land (0x6100 + b) 0xff =? b)) eq_refl k Hk) as H.
  simpl in H. bool_to_prop. lia.
Qed.

Lemma deliver_status limit dat st :
  0 ≤ st < 65536 → 0 ≤ status (deliver limit dat st).1 < 65536.
Proof using Type.
  intros Hst. unfold deliver. case_if; [done|]. bool_to_prop.
  apply more_status_facts. lia.
Qed.

(** GET RESPONSE with the announced length yields the next block. *)
Lemma card_get_response rest st ex :
  0 < len rest → 0 ≤ st < 65536 →
  raw_transmit (get_response_command GET_RESPONSE (Z.min (len rest) 256 mod 256))
    (mkCard None (Some (rest, st)) ex)
  = (Ok (deliver (card_block profile) rest st).1,
     mkCard None (deliver (card_block profile) rest st).2 ex).
Proof using Hprofile.
  intros Hrest Hst. unfold profile_ok in Hprofile.
  set (g := get_response_command _ _). set (b := card_block profile) in *.
  set (n := Z.min (len rest) 256).
  assert (le g = Some n) as Hle.
  { cbn [g le get_response_command]. f_equal. apply le_unwrap8. lia. }
  assert (card_answer profile (wire_view g) (mkCard None (Some (rest, st)) ex)
          = ((deliver b rest st).1, mkCard None (deliver b rest st).2 ex)) as Hans.
  { unfold card_answer, wire_view, wire_extended, le_is_some_and.
    cbn [le extended ins cla card_pending]. rewrite Hle. test_false (256 <? n). cbn.
    replace (deliver (Z.min n (card_block profile)) rest st) with (deliver b rest st)
      by (unfold deliver; fold b; destruct (decide (len rest ≤ b));
          [test_true (len rest <=? b); test_true (len rest <=? Z.min n b)
          |replace (Z.min n b) with b by lia]; done).
    by destruct (deliver b rest st). }
  rewrite card_raw_transmit; rewrite ?Hans; [done| |by apply deliver_status].
  unfold command_encodable. rewrite Hle. change (len (data g)) with 0. lia.
Qed.

(** Fetching the blocks of a response in order reassembles it. *)
Lemma collect_deliver remaining first acc dat st ex :
  0 ≤ st < 65536 → Z.land st 0xff00 ≠ 0x6100 →
  len acc + len dat ≤ MAX_RESPONSE_LENGTH →
  len dat ≤ card_block profile * (Z.of_nat remaining + 1) →
  collect_loop remaining GET_RESPONSE first acc (deliver (card_block profile) dat st).1
    (mkCard None (deliver (card_block profile) dat st).2 ex)
  = (Ok (mkResponseApdu (acc ++ dat) st), mkCard None None ex).
Proof using Hprofile.
  pose proof Hprofile as Hb. unfold profile_ok in Hb. intros Hst Hmore.
  revert first acc dat. induction remaining as [|k IH]; intros first acc dat Hacc Hlen;
    pose proof (len_nonneg dat);
    assert (deliver (card_block profile) dat st
            = if len dat <=? card_block profile then (mkResponseApdu dat st, None)
              else (mkResponseApdu (ztake (card_block profile) dat)
                      (more_status (len dat - card_block profile)),
                    Some (zdrop (card_block profile) dat, st))) as -> by done;
    set (b := card_block profile) in *;
    (destruct (len dat <=? b) eqn:E; cbn [fst snd collect_loop];
     unfold more_data; cbn [status rdata];
     [test_false (Z.land st 65280 =? 24832);
      unfold append_response_data, sbind, sm_lift, sm_ret;
      by test_true (len acc + len dat <=? MAX_RESPONSE_LENGTH)|]); bool_to_prop; [lia|].
  destruct (more_status_facts (len dat - b)) as (Hs & -> & ->); [lia|].
  cbn [Z.eqb Pos.eqb]. rewrite len_ztake by lia.
  rewrite andb_comm. test_false (Z.min b (len dat) =? 0). cbn [andb].
  unfold append_response_data. rewrite len_ztake by lia.
  test_true (len acc + Z.min b (len dat) <=? MAX_RESPONSE_LENGTH).
  set (rest := zdrop b dat).
  assert (len rest = len dat - b) as Hrest by (unfold rest; rewrite len_zdrop; lia).
  unfold sbind, guard_err, sm_lift. cbn beta iota.
  rewrite <- Hrest, card_get_response by (done || lia).
  rewrite IH by (rewrite ?len_app, ?len_ztake; lia).
  unfold rest. by rewrite <- app_assoc, ztake_zdrop.
Qed.

Lemma chaining_bit_set a : has_flag (Z.lor a COMMAND_CHAINING_CLA) COMMAND_CHAINING_CLA = true.
Proof using Type.
  unfold has_flag, COMMAND_CHAINING_CLA. apply negb_true_iff, Z.eqb_neq. intros E.
  apply (f_equal (λ z, Z.testbit z 4)) in E.
  rewrite Z.land_spec, Z.lor_spec in E. simpl in E. by rewrite orb_true_r in E.
Qed.

Lemma wire_extended_short c :
  extended c = false → len (data c) ≤ 255 → (∀ n, le c = Some n → n ≤ 256) →
  wire_extended c = false.
Proof using Type.
  intros He Hd Hle. unfold wire_extended, le_is_some_and. rewrite He.
  test_false (255 <? len (data c)). cbn [orb].
  destruct (le c) as [n|]; [specialize (Hle n eq_refl); test_false (256 <? n)|]; done.
Qed.

Lemma short_encodable c :
  len (data c) ≤ 255 → (∀ n, le c = Some n → 1 ≤ n ≤ 65536) → command_encodable c = true.
Proof using Type.
  intros Hd Hle. unfold command_encodable.
  destruct (le c) as [n|]; [specialize (Hle n eq_refl)|]; lia.
Qed.

Definition segment (c : CommandApdu) (chunk : list Z) : CommandApdu :=
  mkCommandApdu (cla c) (ins c) (p1 c) (p2 c) chunk (le c) false.

(** A command APDU with data of its own completes the chain it ends. *)
Lemma card_answer_execute c before card :
  ins c ≠ GET_RESPONSE → has_flag (cla c) COMMAND_CHAINING_CLA = false →
  extended c && negb (extended_length (card_caps profile)) = false →
  chain_data card c = Some before →
  card_answer profile c card = card_execute profile c (before ++ data c) card.
Proof using Type.
  intros Hins Hcla Hext Hchain. unfold card_answer. rewrite Hext, Hchain, Hcla.
  replace (ins c =? GET_RESPONSE) with false by (symmetry; by apply Z.eqb_neq).
  by destruct (card_pending card) as [[]|].
Qed.

Lemma card_execute_status c dat card :
  0 ≤ status (card_handler profile (card_app card) (request c dat)).1 < 65536 →
  0 ≤ status (card_execute profile c dat card).1 < 65536.
Proof using Type.
  intros Hs. unfold card_execute.
  destruct (card_handler profile (card_app card) (request c dat)) as [r app]. cbn [fst] in Hs.
  destruct (wrong_le profile c r).
  - cbn [refuse fst status]. pose proof (Z.mod_pos_bound (len (rdata r)) 256). lia.
  - pose proof (deliver_status (card_block profile) (rdata r) (status r) Hs).
    by destruct (deliver _ _ _).
Qed.

(** Executing looks at the header, Le and the form only. *)
Lemma card_execute_same c c' dat card :
  cla c' = cla c → ins c' = ins c → p1 c' = p1 c → p2 c' = p2 c → le c' = le c →
  extended c' = extended c → card_execute profile c' dat card = card_execute profile c dat card.
Proof using Type.
  unfold card_execute, request, wrong_le, le_is_some_and.
  by intros -> -> -> -> -> ->.
Qed.

(** The segments of a chain arrive as one command. *)
Lemma transmit_segments_execute c segments before card :
  ins c ≠ GET_RESPONSE → has_flag (cla c) COMMAND_CHAINING_CLA = false →
  (∀ n, le c = Some n → 1 ≤ n ≤ 256) →
  command_chaining (card_caps profile) = true →
  segments ≠ [] → Forall (λ s, 0 < length s ≤ 255)%nat segments →
  chain_data card c = Some before →
  0 ≤ status (card_handler profile (card_app card)
                (request (segment c []) (before ++ concat segments))).1 < 65536 →
  transmit_segments c segments card =
    (Ok (card_execute profile (segment c []) (before ++ concat segments) card).1,
     (card_execute profile (segment c []) (before ++ concat segments) card).2).
Proof using Type.
  intros Hins Hcla Hle Hcc. revert before card.
  induction segments as [|s segments IH]; intros before card Hne Hall Hchain Hst; [done|].
  apply Forall_cons_1 in Hall as [Hs Hall]. destruct segments as [|s' segments].
  - cbn [transmit_segments]. fold (segment c s). simpl concat in *. rewrite app_nil_r in *.
    assert (card_answer profile (wire_view (segment c s)) card
            = card_execute profile (segment c []) (before ++ s) card) as Hans.
    { assert (wire_extended (segment c s) = false) as Hw.
      { apply wire_extended_short; [done|unfold len; simpl; lia|].
        intros n Hn. apply (Hle n) in Hn. lia. }
      rewrite (card_answer_execute _ before); [|done..| |done];
        [by apply card_execute_same|cbn [wire_view extended]; by rewrite Hw]. }
    rewrite card_raw_transmit; rewrite ?Hans; [done| |by apply card_execute_status].
    apply short_encodable; [unfold len; simpl; lia|]. intros n Hn. apply (Hle n) in Hn. lia.
  - remember (s' :: segments) as rest eqn:Hrest.
    assert (transmit_segments c (s :: rest) card =
      (let! response := raw_transmit (mkCommandApdu (Z.lor (cla c) COMMAND_CHAINING_CLA)
          (ins c) (p1 c) (p2 c) s None false) in
       guard_err (negb (status response =? 0x9000) || negb (len (rdata response) =? 0))
         #CKR_DEVICE_ERROR ;! transmit_segments c rest) card) as -> by (by rewrite Hrest).
    set (first := mkCommandApdu _ _ _ _ s None false).
    assert (card_answer profile (wire_view first) card =
      (mkResponseApdu [] 0x9000,
       mkCard (Some (ins c, p1 c, p2 c, before ++ s)) None (card_app card))) as Hans.
    { unfold card_answer. replace (extended (wire_view first)) with false
        by (symmetry; apply wire_extended_short; [done|unfold len; simpl; lia|done]).
      change (chain_data card (wire_view first)) with (chain_data card c).
      cbn [andb wire_view ins cla le first]. rewrite Hchain, chaining_bit_set, Hcc.
      by destruct (card_pending card) as [[? ?]|]; try case_match. }
    unfold sbind. rewrite card_raw_transmit; rewrite ?Hans; cbn [fst snd status rdata];
      [|apply short_encodable; [unfold len; simpl; lia|done]|done].
    change (concat (s :: rest)) with (s ++ concat rest) in *. rewrite app_assoc in *.
    unfold guard_err. cbn -[transmit_segments concat app]. rewrite (IH (before ++ s)); [done| |done| |done].
    + by rewrite Hrest.
    + unfold chain_data. cbn. by rewrite !Z.eqb_refl.
Qed.

(** Whatever form [transmit_command] chooses, the card executes the command. *)
Lemma transmit_command_execute c card :
  let sent := as_sent (card_caps profile) c in
  transmittable (card_caps profile) c = true → card_chain card = None →
  0 ≤ status (card_handler profile (card_app card) (request sent (data c))).1 < 65536 →
  transmit_command c (card_caps profile) card =
    (Ok (card_execute profile sent (data c) card).1, (card_execute profile sent (data c) card).2).
Proof using Type.
  intros sent. unfold transmittable, transmit_command. intros Ht Hchain Hst. bool_to_prop.
  fold (needs_extended_form c). assert (chain_data card c = Some []) as Hcd.
  { unfold chain_data. by rewrite Hchain. }
  destruct (negb (needs_extended_form c) || extended_length (card_caps profile)) eqn:Eone.
  - fold (as_sent (card_caps profile) c). fold sent.
    assert (wire_extended sent = extended sent) as Hw.
    { unfold wire_extended. cbn [extended data le sent as_sent]. unfold needs_extended_form in *.
      unfold le_is_some_and, MAX_SHORT_DATA_LENGTH, MAX_SHORT_RESPONSE_LENGTH in *.
      cbn [le sent as_sent] in *. pose proof (len_nonneg (data c)).
      destruct (255 <? len (data c)) eqn:E1, (le c) as [n|],
        (extended_length (card_caps profile)); cbn in *; bool_to_prop; try done; try lia;
        try (destruct (256 <? n); cbn in *; rewrite ?orb_true_r; done || lia);
        by test_false (len (data c) =? 0). }
    assert (card_answer profile (wire_view sent) card = card_execute profile sent (data c) card)
      as Hans.
    { rewrite (card_answer_execute _ []); [apply card_execute_same; done|done..| |done].
      cbn [wire_view extended]. rewrite Hw. cbn. by destruct (needs_extended_form c),
        (extended_length (card_caps profile)). }
    rewrite card_raw_transmit; rewrite ?Hans; [done| |by apply card_execute_status].
    unfold command_encodable, sent. cbn [as_sent data le]. unfold needs_extended_form in *.
    destruct (extended_length (card_caps profile)), (le c) as [n|];
      unfold MAX_SHORT_DATA_LENGTH in *; bool_to_prop; lia.
  - apply orb_false_iff in Eone as [Eone Ex]. rewrite Ex in *. bool_to_prop.
    assert (request sent (data c) = request (segment c []) (data c)) as Hreq.
    { unfold request, sent, as_sent. cbn. by rewrite Ex, andb_false_r. }
    assert (card_execute profile sent (data c) card
            = card_execute profile (segment c []) (data c) card) as ->.
    { apply card_execute_same; try done. cbn. by rewrite Ex, andb_false_r. }
    rewrite Hreq in Hst. unfold needs_extended_form in *.
    assert (le_is_some_and c (λ n, MAX_SHORT_RESPONSE_LENGTH <? n) = false) as Hl.
    { unfold le_is_some_and, MAX_SHORT_RESPONSE_LENGTH. destruct (le c); lia. }
    rewrite Hl in *. rewrite orb_false_r in Eone. unfold MAX_SHORT_DATA_LENGTH in *. bool_to_prop.
    assert (command_chaining (card_caps profile) = true) as Hcc.
    { destruct (command_chaining _); [done|]. lia. }
    unfold sbind, guard_err. rewrite Hcc. cbn [negb orb].
    test_false (len (data c) =? 0). rewrite H. cbn [orb].
    rewrite (transmit_segments_execute _ _ []); try done;
      cbn [app]; rewrite ?chunks_concat by lia; try done.
    + intros n Hn. rewrite Hn in *. bool_to_prop. done.
    + apply chunks_nonempty. intros E. rewrite E, len_nil in *. lia.
    + apply chunks_bound. lia.
Qed.

Lemma deliver_not_6c limit dat st :
  Z.land st 0xff00 ≠ 0x6c00 → (Z.land (status (deliver limit dat st).1) 0xff00 =? 0x6c00) = false.
Proof using Type.
  intros H. unfold deliver. case_if; cbn [fst status]; [lia|]. bool_to_prop.
  destruct (more_status_facts (len dat - limit)) as (_ & -> & _); [lia|done].
Qed.

Lemma wrong_le_status n :
  Z.land (0x6c00 + n mod 256) 0xff00 = 0x6c00 ∧ as_u8 (0x6c00 + n mod 256) = n mod 256.
Proof using Type.
  pose proof (Z.mod_pos_bound n 256 ltac:(lia)) as Hk.
  pose proof (byte_forall (λ b, (Z.land (0x6c00 + b) 0xff00 =? 0x6c00)
     && (as_u8 (0x6c00 + b) =? b)) eq_refl _ Hk) as H.
  cbv beta in H. bool_to_prop. done.
Qed.

(** Executing with an acceptable Le and fetching the rest gives the response. *)
Lemma execute_and_collect c dat card :
  let r := (card_handler profile (card_app card) (request c dat)).1 in
  response_final r = true → response_fits profile r = true → wrong_le profile c r = false →
  (Z.land (status (card_execute profile c dat card).1) 0xff00 =? 0x6c00) = false ∧
  collect_response_chain (card_execute profile c dat card).1
    (card_execute profile c dat card).2
  = (Ok r, mkCard None None (card_handler profile (card_app card) (request c dat)).2).
Proof using Hprofile.
  unfold card_execute. destruct (card_handler _ _ _) as [r app]. cbn [fst snd].
  intros Hfin Hfits ->. unfold response_final, response_fits in *. bool_to_prop.
  rewrite (surjective_pairing (deliver _ _ _)). cbn [fst snd]. split.
  - by apply deliver_not_6c.
  - unfold collect_response_chain, collect_response_chain_with_instruction.
    rewrite collect_deliver; [by destruct r|lia|done|done|].
    change (Z.of_nat MAX_RESPONSE_SEGMENTS + 1) with 257. lia.
Qed.

(** The retried command after 6Cxx. *)
Definition with_le (c : CommandApdu) (n : Z) : CommandApdu :=
  mkCommandApdu (cla c) (ins c) (p1 c) (p2 c) (data c) (Some n) (extended c).

Lemma as_sent_with_le caps c n :
  n ≤ 256 → extended (as_sent caps c) = false → extended (as_sent caps (with_le c n)) = false.
Proof using Type.
  unfold as_sent, needs_extended_form, le_is_some_and, MAX_SHORT_RESPONSE_LENGTH.
  cbn [extended data le with_le]. intros Hn. test_false (256 <? n). rewrite orb_false_r.
  destruct (MAX_SHORT_DATA_LENGTH <? len (data c)); done.
Qed.

Lemma transmit_card c card :
  let '(r, app) := card_handler profile (card_app card)
                     (request (as_sent (card_caps profile) c) (data c)) in
  transmittable (card_caps profile) c = true →
  response_final r = true → response_fits profile r = true → card_chain card = None →
  transmit c card = (Ok r, mkCard None None app).
Proof using Hprofile.
  set (sent := as_sent (card_caps profile) c).
  destruct (card_handler _ _ _) as [r app] eqn:Eh. intros Ht Hfin Hfits Hchain.
  assert (0 ≤ status r < 65536) as Hst by (unfold response_final in Hfin; lia).
  unfold transmit, transmit_with_capabilities, sbind, sm_gets, sm_ret.
  change (apdu_capabilities card) with (card_caps profile).
  rewrite transmit_command_execute by (done || (fold sent; by rewrite Eh)). fold sent.
  pose proof (execute_and_collect sent (data c) card) as Hx. rewrite Eh in Hx. cbn [fst snd] in Hx.
  destruct (wrong_le profile sent r) eqn:Ew.
  - assert (card_execute profile sent (data c) card = refuse (0x6c00 + len (rdata r) mod 256) card)
      as -> by (unfold card_execute; by rewrite Eh, Ew).
    clear Hx. cbn [fst snd refuse status].
    destruct (wrong_le_status (len (rdata r))) as [-> ->]. cbn [Z.eqb Pos.eqb].
    unfold wrong_le in Ew. bool_to_prop.
    unfold MAX_SHORT_RESPONSE_LENGTH. rewrite le_unwrap8 by lia.
    fold (with_le c (len (rdata r))). set (c' := with_le c (len (rdata r))).
    set (card' := mkCard None None (card_app card)).
    assert (request (as_sent (card_caps profile) c') (data c') = request sent (data c)) as Hreq.
    { unfold request. change (data c') with (data c).
      unfold c'. rewrite as_sent_with_le by done. fold sent. by rewrite H3. }
    rewrite transmit_command_execute; [| |done|by rewrite Hreq; cbn [card' card_app]; rewrite Eh].
    + pose proof (execute_and_collect (as_sent (card_caps profile) c') (data c') card') as [_ Hc];
        rewrite ?Hreq in *; cbn [card' card_app] in *; rewrite Eh in *; cbn [fst snd] in *; try done.
      unfold wrong_le, le_is_some_and. cbn [le c' as_sent with_le].
      rewrite Z.eqb_refl. apply andb_false_r.
    + unfold transmittable in *. cbn [cla ins le data c' with_le]. bool_to_prop.
      repeat (apply andb_true_iff; split); try done; try lia; try by apply negb_true_iff.
      destruct (extended_length (card_caps profile)); lia.
  - destruct (Hx Hfin Hfits eq_refl) as [-> Hc]. apply Hc.
Qed.
End card_lemmas.

(** ** Capabilities in the answer to reset *)

(** The three optional interface bytes TA, TB and TC. *)
Definition interface_bytes (flags : Z) : Z :=
  (if has_flag flags 1 then 1 else 0) + (if has_flag flags 2 then 1 else 0)
  + (if has_flag flags 4 then 1 else 0).

(** The [loop] of [atr_historical_bytes]: the offset of the historical bytes. *)
Fixpoint atr_interface (fuel : nat) (atr : list Z) (flags offset : Z) : option Z :=
  match fuel with
  | O => None
  | S fuel' =>
      let offset := offset + interface_bytes flags in
      if has_flag flags 8 then
        td ← atr !! Z.to_nat offset;
        atr_interface fuel' atr (Z.shiftr td 4) (offset + 1)
      else Some offset
  end.

Definition atr_historical_bytes (atr : list Z) : option (list Z) :=
  t0 ← atr !! 1%nat;
  let historical_length := Z.land t0 0x0f in
  offset ← atr_interface (S (length atr)) atr (Z.shiftr t0 4) 2;
  if offset + historical_length <=? len atr
  then Some (slice offset (offset + historical_length) atr) else None.

(** The [while] loop of [atr_apdu_capabilities] over the COMPACT-TLV objects. *)
Fixpoint historical_scan (fuel : nat) (historical : list Z) (offset : Z)
  : option ApduCapabilities :=
  match fuel with
  | O => None
  | S fuel' =>
      if offset <? len historical then
        let descriptor := at_ historical offset in
        let tag := Z.shiftr descriptor 4 in
        let length := Z.land descriptor 0x0f in
        let finish := offset + (1 + length) in
        if len historical <? finish then None
        else if (tag =? 7) && (length =? 3) then
          let flags := at_ historical (offset + 3) in
          Some (mkApduCapabilities (has_flag flags 0x80) (has_flag flags 0x40))
        else historical_scan fuel' historical finish
      else None
  end.

Definition atr_apdu_capabilities (atr : list Z) : option ApduCapabilities :=
  historical ← atr_historical_bytes atr;
  historical_scan (S (length historical)) historical 1.

Example yubikey_atr :
  atr_apdu_capabilities
    [0x3b; 0xfd; 0x13; 0x00; 0x00; 0x81; 0x31; 0xfe; 0x15; 0x80; 0x73; 0xc0; 0x21; 0xc0;
     0x57; 0x59; 0x75; 0x62; 0x69; 0x4b; 0x65; 0x79; 0x40] = Some EXTENDED.
Proof. vm_compute. reflexivity. Qed.

(** ** Properties *)

Section bounds.
Context `{Connector D}.

(** The connector with a count of its exchanges. *)
#[local] Instance counted : Connector (D * Z) := {
  send bytes s := let '(r, d) := send bytes s.1 in (r, (d, s.2 + 1));
  apdu_capabilities s := apdu_capabilities s.1;
  firmware s := firmware s.1;
}.

Lemma counted_raw_transmit c s : (raw_transmit c s).2.2 ≤ s.2 + 1.
Proof using Type.
  unfold raw_transmit, sbind, sm_lift. destruct (CommandApdu_encode c); simpl; try lia.
  destruct (send a s.1) as [[]]; simpl; lia.
Qed.

Lemma append_response_bound out dat out' :
  append_response_data out dat = Ok out' → len out' ≤ MAX_RESPONSE_LENGTH.
Proof using Type.
  unfold append_response_data. case_if; [|done]. intros [= <-]. rewrite len_app. lia.
Qed.

Lemma collect_loop_bound remaining instruction first acc response s :
  let '(result, s') := collect_loop remaining instruction first acc response s in
  s'.2 ≤ s.2 + Z.of_nat remaining ∧
  match result with
  | Ok r => len (rdata r) ≤ MAX_RESPONSE_LENGTH ∧ more_data r = false
  | _ => True
  end.
Proof using Type.
  revert first acc response s. induction remaining as [|k IH]; intros first acc response s;
    cbn [collect_loop]; destruct (more_data response) eqn:Em.
  - simpl. split; [lia|done].
  - unfold sbind, sm_lift, sm_ret. destruct (append_response_data acc _) eqn:Ea; simpl; auto with lia.
    split; [lia|]. split; [by eapply append_response_bound|done].
  - unfold sbind, sm_lift, sm_ret, guard_err.
    destruct (negb first && _); simpl; [auto with lia|].
    destruct (append_response_data acc _) eqn:Ea; simpl; auto with lia.
    pose proof (counted_raw_transmit (get_response_command instruction (Z.land (status response) 255)) s).
    destruct (raw_transmit _ s) as [[next|e|] s1]; simpl in *; [|auto with lia..].
    specialize (IH false a next s1). destruct (collect_loop k _ _ _ _ s1) as [result s2].
    destruct IH as [IH1 IH2]. split; [lia|]. destruct result; auto.
  - unfold sbind, sm_lift, sm_ret. destruct (append_response_data acc _) eqn:Ea; simpl; auto with lia.
    split; [lia|]. split; [by eapply append_response_bound|done].
Qed.
End bounds.

(** *** The answer to reset as ISO 7816-3 lays it out *)

(** One group of interface bytes. *)
Record InterfaceGroup : Type := mkInterfaceGroup {
  ta : option Z;
  tb : option Z;
  tc : option Z;
}.

Definition opt_byte (o : option Z) : list Z := match o with Some b => [b] | None => [] end.
Definition opt_flag (o : option Z) (mask : Z) : Z := match o with Some _ => mask | None => 0 end.
Definition group_bytes (g : InterfaceGroup) : list Z :=
  opt_byte (ta g) ++ opt_byte (tb g) ++ opt_byte (tc g).

(** The presence nibble of a group: its bytes, and TD when more groups follow. *)
Definition presence (g : InterfaceGroup) (rest : list (Z * InterfaceGroup)) : Z :=
  opt_flag (ta g) 1 + opt_flag (tb g) 2 + opt_flag (tc g) 4
  + match rest with [] => 0 | _ => 8 end.

(** The interface bytes; every further group comes after a TD byte with its
    protocol number. *)
Fixpoint render_interface (g : InterfaceGroup) (rest : list (Z * InterfaceGroup)) : list Z :=
  group_bytes g ++
  match rest with
  | [] => []
  | (protocol, g') :: rest' =>
      (16 * presence g' rest' + protocol) :: render_interface g' rest'
  end.

(** Historical bytes: a category indicator and COMPACT-TLV objects. *)
Definition render_object (o : Z * list Z) : list Z := (16 * o.1 + len o.2) :: o.2.
Definition render_historical (category : Z) (objects : list (Z * list Z)) : list Z :=
  category :: concat (map render_object objects).

Definition render_atr (ts : Z) (g : InterfaceGroup) (rest : list (Z * InterfaceGroup))
    (historical check : list Z) : list Z :=
  ts :: (16 * presence g rest + len historical) :: render_interface g rest ++ historical ++ check.

(** The capabilities in the first card-capabilities object (tag 7) that has all
    three software function tables. *)
Fixpoint object_capabilities (objects : list (Z * list Z)) : option ApduCapabilities :=
  match objects with
  | [] => None
  | (tag, value) :: rest =>
      if (tag =? 7) && (len value =? 3) then
        Some (mkApduCapabilities (has_flag (at_ value 2) 0x80) (has_flag (at_ value 2) 0x40))
      else object_capabilities rest
  end.

Definition object_ok (o : Z * list Z) : Prop := 0 ≤ o.1 < 16 ∧ len o.2 < 16.

Section atr.
Lemma nibbles a b : 0 ≤ b < 16 → Z.shiftr (16 * a + b) 4 = a ∧ Z.land (16 * a + b) 0x0f = b.
Proof.
  intros Hb. rewrite Z.shiftr_div_pow2 by lia. change 0x0f with (Z.ones 4).
  rewrite Z.land_ones by lia. change (2 ^ 4) with 16.
  rewrite (Z.mul_comm 16), Z.div_add_l, Z.div_small by lia.
  rewrite (Z.add_comm (a * 16)), Z.mod_add, Z.mod_small by lia. lia.
Qed.

Lemma presence_facts g rest :
  interface_bytes (presence g rest) = len (group_bytes g) ∧
  has_flag (presence g rest) 8 = negb (bool_decide (rest = [])).
Proof. by destruct g as [[] [] []], rest. Qed.

Lemma lookup_at_prefix (before : list Z) x l :
  (before ++ x :: l) !! Z.to_nat (len before) = Some x.
Proof. unfold len. rewrite Nat2Z.id. by apply list_lookup_middle. Qed.

Lemma atr_interface_spec fuel before g rest tail :
  (length rest < fuel)%nat → Forall (λ p, 0 ≤ p.1 < 16) rest →
  atr_interface fuel (before ++ render_interface g rest ++ tail) (presence g rest) (len before)
  = Some (len before + len (render_interface g rest)).
Proof.
  revert before g rest. induction fuel as [|f IH]; intros before g rest Hf Hall; [lia|].
  cbn [atr_interface]. destruct (presence_facts g rest) as [-> ->].
  destruct rest as [|[protocol g'] rest]; cbn [bool_decide negb render_interface].
  { by rewrite app_nil_r. }
  apply Forall_cons_1 in Hall as [Hp Hall].
  rewrite bool_decide_false by done. cbn [negb].
  replace (len before + len (group_bytes g)) with (len (before ++ group_bytes g))
    by apply len_app.
  rewrite <- app_assoc, app_assoc, <- app_comm_cons. rewrite lookup_at_prefix. cbn [mbind option_bind].
  destruct (nibbles (presence g' rest) protocol) as [-> _]; [done|].
  replace (len (before ++ group_bytes g) + 1)
    with (len ((before ++ group_bytes g) ++ [16 * presence g' rest + protocol]))
    by (rewrite (len_app _ [_]); done).
  rewrite (cons_middle _ (before ++ _)), (app_assoc _ [_]).
  rewrite IH by (simpl in *; done || lia). f_equal. rewrite !len_app, !len_cons. simp_len. lia.
Qed.

(** Every group after the first, and every object, takes at least a byte. *)
Lemma render_interface_groups g rest : (length rest ≤ length (render_interface g rest))%nat.
Proof.
  revert g. induction rest as [|[protocol g'] rest IH]; intros g; cbn [render_interface]; [simpl; lia|].
  rewrite length_app. simpl. specialize (IH g'). lia.
Qed.

Lemma render_objects_length objects :
  (length objects ≤ length (concat (map render_object objects)))%nat.
Proof. induction objects as [|o objects IH]; simpl; rewrite ?length_app; lia. Qed.

Lemma historical_scan_spec fuel before objects :
  (length objects < fuel)%nat → Forall object_ok objects →
  historical_scan fuel (before ++ concat (map render_object objects)) (len before)
  = object_capabilities objects.
Proof.
  revert before objects. induction fuel as [|f IH]; intros before objects Hf Hall; [lia|].
  cbn [historical_scan]. rewrite len_app.
  destruct objects as [|[tag value] objects]; cbn [map concat object_capabilities].
  { rewrite len_nil. by test_false (len before <? len before + 0). }
  apply Forall_cons_1 in Hall as [[Htag Hvalue] Hall]. cbn [fst snd] in *.
  pose proof (len_nonneg value). set (tail := concat (map render_object objects)).
  pose proof (len_nonneg tail).
  unfold render_object. cbn [fst snd]. rewrite <- app_comm_cons, len_cons, len_app.
  test_true (len before <? len before + (1 + (len value + len tail))).
  rewrite at_app_exact, at_0. destruct (nibbles tag (len value)) as [-> ->]; [done|].
  test_false (len before + (1 + (len value + len tail)) <? len before + (1 + len value)).
  destruct ((tag =? 7) && (len value =? 3)) eqn:E.
  - bool_to_prop. rewrite at_app_r by lia. change 3 with (1 + 2). rewrite at_cons1 by lia.
    by destruct value as [|x [|y [|z []]]]; simpl in *; try (unfold len in *; simpl in *; lia).
  - replace (len before + (1 + len value)) with (len (before ++ (16 * tag + len value) :: value))
      by (rewrite len_app, len_cons; lia).
    rewrite app_comm_cons, app_assoc. apply IH; [simpl in *; lia|done].
Qed.
End atr.

(** C34: Against a card that follows ISO 7816-4, [transmit] delivers any command
    the card's capabilities admit, in one piece, as an extended APDU or as a
    chain, retries a wrong Le, fetches the whole response, and returns exactly
    what the card's application answered; the card has executed the reassembled
    command exactly once, and no chain and no pending response is left behind. *)
Theorem transmit_executes_once {A} (profile : CardProfile A) c card :
  let '(r, app) := card_handler profile (card_app card)
                     (request (as_sent (card_caps profile) c) (data c)) in
  profile_ok profile = true → transmittable (card_caps profile) c = true →
  response_final r = true → response_fits profile r = true → card_chain card = None →
  @transmit (Card A) (card_connector profile) c card = (Ok r, mkCard None None app).
Proof.
  pose proof (λ Hp, transmit_card profile Hp c card) as H.
  destruct (card_handler _ _ _). intros Hp. by apply H.
Qed.

(** An application that logs its commands and answers their data twice. *)
Definition echo_profile : CardProfile (list CommandApdu) :=
  mkCardProfile (λ log c, (mkResponseApdu (data c ++ data c) 0x9000, log ++ [c]))
    SHORT_ONLY (5, 7) 256 true.

Lemma transmit_executes_once_witness :
  @transmit _ (card_connector echo_profile)
    (mkCommandApdu 0 0xda 1 2 (replicate 600 7) (Some 256) false) (mkCard None None [])
  = (Ok (mkResponseApdu (replicate 600 7 ++ replicate 600 7) 0x9000),
     mkCard None None [mkCommandApdu 0 0xda 1 2 (replicate 600 7) None false]).
Proof.
  apply (transmit_executes_once echo_profile
    (mkCommandApdu 0 0xda 1 2 (replicate 600 7) (Some 256) false) (mkCard None None []));
    vm_compute; reflexivity.
Defined.

(** Whatever the device answers, collecting a response makes at most 256 GET
    RESPONSE exchanges, and a response it returns has at most 65536 bytes of data
    and a final status. *)
Theorem response_chain_bounded {D} (connector : Connector D) response instruction d n :
  let '(result, (_, n')) :=
    @collect_response_chain_with_instruction (D * Z) (@counted D connector)
      response instruction (d, n) in
  n' ≤ n + 256 ∧
  match result with
  | Ok r => len (rdata r) ≤ MAX_RESPONSE_LENGTH ∧ more_data r = false
  | _ => True
  end.
Proof.
  pose proof (@collect_loop_bound D connector MAX_RESPONSE_SEGMENTS instruction true [] response (d, n)) as H.
  unfold collect_response_chain_with_instruction. by destruct (collect_loop _ _ _ _ _ _) as [? []].
Qed.

(** From an answer to reset built as ISO 7816-3 says (any interface byte
    groups, COMPACT-TLV historical bytes, any check byte),
    [atr_apdu_capabilities] reads the chaining and extended-length bits of the
    first complete card-capabilities object, and nothing else. *)
Theorem atr_capabilities_spec ts g rest category objects check :
  Forall (λ p, 0 ≤ p.1 < 16) rest → Forall object_ok objects →
  len (render_historical category objects) < 16 →
  atr_apdu_capabilities (render_atr ts g rest (render_historical category objects) check)
  = object_capabilities objects.
Proof.
  intros Hrest Hobjects Hlen. unfold atr_apdu_capabilities, atr_historical_bytes, render_atr.
  set (hist := render_historical category objects) in *. pose proof (len_nonneg hist).
  cbn [lookup list_lookup mbind option_bind].
  destruct (nibbles (presence g rest) (len hist)) as [-> ->]; [lia|].
  set (head := [ts; 16 * presence g rest + len hist]).
  change (ts :: 16 * presence g rest + len hist :: render_interface g rest ++ hist ++ check)
    with (head ++ render_interface g rest ++ hist ++ check).
  change 2 with (len head) at 1.
  rewrite atr_interface_spec; [|pose proof (render_interface_groups g rest); simp_length; lia|done].
  rewrite !app_assoc, <- (app_assoc _ hist check), <- (len_app head). cbn [mbind option_bind].
  rewrite slice_middle. case_if; bool_to_prop; [|simp_len; pose proof (len_nonneg check); lia].
  unfold hist, render_historical. change (category :: ?l) with ([category] ++ l).
  apply (historical_scan_spec _ [category]); [|done].
  pose proof (render_objects_length objects). simp_length. lia.
Qed.

Lemma atr_capabilities_spec_witness :
  atr_apdu_capabilities
    (render_atr 0x3b (mkInterfaceGroup (Some 0x13) (Some 0) (Some 0))
       [(1, mkInterfaceGroup None None None); (1, mkInterfaceGroup (Some 0xfe) (Some 0x15) None)]
       (render_historical 0x80 [(7, [0xc0; 0x21; 0xc0]); (5, [0x59; 0x75; 0x62])]) [0x40])
  = Some EXTENDED.
Proof.
  apply atr_capabilities_spec; [| |vm_compute; reflexivity];
    repeat constructor; simpl; vm_compute; congruence.
Defined.
