(* ===== verification/Crypto.v ===== *)
(** * Crypto: the symmetric primitives of the secure channels

    Models [src/src/secure_channel_crypto.rs]. The primitives themselves come
    from the [software-key-core] crate, which is not part of the repository:
    they are the class [SoftwareKeyCore], and what the channels rely on is the
    class [SoftwareKeyCoreLaws] (AES accepts keys of 16, 24 or 32 bytes and whole
    blocks, CBC decryption undoes encryption, padding fills a block and can be
    removed). [toy_core] is an instance the witnesses run on; it satisfies the
    laws and is not meant to be secure. *)
From S2P Require Import Prelude Errors Apdu.

Definition AES_BLOCK_SIZE : Z := 16.

Inductive SoftwareSymmetricError : Type :=
| InvalidKeyLength | InvalidIvLength | InvalidSymmetricDataLength | AuthenticationFailed.

Inductive SecureChannelCryptoError : Type :=
| InvalidDataLength | KeyDerivationFailed | InvalidPadding | OutputTooLong
| Symmetric (e : SoftwareSymmetricError).

Inductive Direction : Type := Encrypt | Decrypt.

Class SoftwareKeyCore : Type := {
  shared_aes_cmac : list Z → list Z → outcome SoftwareSymmetricError (list Z);
  encrypt_aes_block : list Z → list Z → outcome SoftwareSymmetricError (list Z);
  encrypt_aes_ecb : list Z → list Z → outcome SoftwareSymmetricError (list Z);
  decrypt_aes_ecb : list Z → list Z → outcome SoftwareSymmetricError (list Z);
  encrypt_aes_cbc : list Z → list Z → list Z → outcome SoftwareSymmetricError (list Z);
  decrypt_aes_cbc : list Z → list Z → list Z → outcome SoftwareSymmetricError (list Z);
  shared_pad_iso7816 : list Z → list Z;
  shared_unpad_iso7816 : list Z → outcome SecureChannelCryptoError (list Z);
  shared_scp03_kdf : list Z → Z → list Z → Z → outcome SecureChannelCryptoError (list Z);
}.

Definition map_symmetric_error (error : SoftwareSymmetricError) : Error :=
  match error with
  | InvalidKeyLength | InvalidIvLength => #CKR_ARGUMENTS_BAD
  | InvalidSymmetricDataLength => #CKR_DATA_LEN_RANGE
  | AuthenticationFailed => #CKR_ENCRYPTED_DATA_INVALID
  end.

Definition map_secure_channel_error (error : SecureChannelCryptoError) : Error :=
  match error with
  | InvalidDataLength | KeyDerivationFailed => #CKR_ARGUMENTS_BAD
  | InvalidPadding => #CKR_ENCRYPTED_DATA_INVALID
  | OutputTooLong => #CKR_DATA_LEN_RANGE
  | Symmetric error => map_symmetric_error error
  end.

Section primitives.
Context `{SoftwareKeyCore}.

Definition aes_cmac (key dat : list Z) : outcome Error (list Z) :=
  map_err map_symmetric_error (shared_aes_cmac key dat).

Definition aes_encrypt_block (key block : list Z) : outcome Error (list Z) :=
  map_err map_symmetric_error (encrypt_aes_block key block).

Definition aes_ecb (key dat : list Z) (direction : Direction) : outcome Error (list Z) :=
  map_err map_symmetric_error
    match direction with
    | Encrypt => encrypt_aes_ecb key dat
    | Decrypt => decrypt_aes_ecb key dat
    end.

Definition aes_cbc (key iv dat : list Z) (direction : Direction) : outcome Error (list Z) :=
  map_err map_symmetric_error
    match direction with
    | Encrypt => encrypt_aes_cbc key iv dat
    | Decrypt => decrypt_aes_cbc key iv dat
    end.

Definition pad_iso7816 (dat : list Z) : list Z := shared_pad_iso7816 dat.

Definition unpad_iso7816 (dat : list Z) : outcome Error (list Z) :=
  map_err map_secure_channel_error (shared_unpad_iso7816 dat).

Definition scp03_kdf (key : list Z) (constant : Z) (context : list Z) (output_bits : Z)
  : outcome Error (list Z) :=
  map_err map_secure_channel_error (shared_scp03_kdf key constant context output_bits).
End primitives.

(** [matches!(key.len(), 16 | 24 | 32)] *)
Definition valid_aes_key (key : list Z) : bool :=
  (len key =? 16) || (len key =? 24) || (len key =? 32).

Class SoftwareKeyCoreLaws `{SoftwareKeyCore} : Prop := {
  cmac_valid key dat : valid_aes_key key = true →
    ∃ mac, shared_aes_cmac key dat = Ok mac ∧ len mac = 16;
  block_valid key block : valid_aes_key key = true → len block = 16 →
    ∃ out, encrypt_aes_block key block = Ok out ∧ len out = 16;
  cbc_inverse key iv dat : valid_aes_key key = true → len iv = 16 → len dat mod 16 = 0 →
    ∃ out, encrypt_aes_cbc key iv dat = Ok out ∧ len out = len dat ∧
      decrypt_aes_cbc key iv out = Ok dat;
  pad_blocks dat : len (shared_pad_iso7816 dat) mod 16 = 0 ∧
    len dat < len (shared_pad_iso7816 dat) ≤ len dat + 16;
  unpad_pad dat : shared_unpad_iso7816 (shared_pad_iso7816 dat) = Ok dat;
}.

(** ** An instance of the laws *)

Definition toy_key_check {A} (key : list Z) (r : outcome SoftwareSymmetricError A) :=
  if valid_aes_key key then r else Err InvalidKeyLength.

Definition toy_pad (dat : list Z) : list Z :=
  dat ++ 0x80 :: replicate (Z.to_nat (15 - len dat mod 16)) 0.

Fixpoint strip_zeros (l : list Z) : list Z :=
  match l with
  | 0 :: rest => strip_zeros rest
  | _ => l
  end.

Definition toy_unpad (dat : list Z) : outcome SecureChannelCryptoError (list Z) :=
  match strip_zeros (reverse dat) with
  | 0x80 :: rest => Ok (reverse rest)
  | _ => Err InvalidPadding
  end.

Definition toy_cbc (key iv dat : list Z) : outcome SoftwareSymmetricError (list Z) :=
  toy_key_check key
    (if negb (len iv =? 16) then Err InvalidIvLength
     else if negb (len dat mod 16 =? 0) then Err InvalidSymmetricDataLength
     else Ok (reverse dat)).

Definition toy_hash (l : list Z) : Z := foldl (λ h b, (h * 257 + b + 1) mod 2 ^ 128) 7 l.

#[export] Instance toy_core : SoftwareKeyCore := {
  shared_aes_cmac key dat := toy_key_check key (Ok (be_bytes 16 (toy_hash (key ++ dat))));
  encrypt_aes_block key block :=
    toy_key_check key (Ok (be_bytes 16 (toy_hash (key ++ block))));
  encrypt_aes_ecb key dat := toy_key_check key (Ok (reverse dat));
  decrypt_aes_ecb key dat := toy_key_check key (Ok (reverse dat));
  encrypt_aes_cbc := toy_cbc;
  decrypt_aes_cbc := toy_cbc;
  shared_pad_iso7816 := toy_pad;
  shared_unpad_iso7816 := toy_unpad;
  shared_scp03_kdf key constant context bits :=
    Ok (be_bytes (Z.to_nat (bits / 8)) (toy_hash (constant :: key ++ context)));
}.

Lemma strip_zeros_replicate n l : strip_zeros (replicate n 0 ++ l) = strip_zeros l.
Proof. by induction n. Qed.

#[export] Instance toy_core_laws : SoftwareKeyCoreLaws.
Proof.
  split; cbn -[be_bytes Z.modulo]; unfold toy_key_check.
  - intros key dat ->. eexists. split; [done|]. unfold len. by rewrite length_be_bytes.
  - intros key block -> _. eexists. split; [done|]. unfold len. by rewrite length_be_bytes.
  - intros key iv dat Hk Hiv Hd. unfold toy_cbc, toy_key_check. rewrite Hk, Hiv, Hd. cbn.
    exists (reverse dat). unfold len in *. rewrite length_reverse, Hd. cbn.
    by rewrite reverse_involutive.
  - intros dat. unfold toy_pad. rewrite len_app, len_cons, len_replicate.
    pose proof (Z.mod_pos_bound (len dat) 16). split; [|lia].
    rewrite Z2Nat.id by lia. apply Z.mod_divide; [lia|]. exists (len dat / 16 + 1).
    pose proof (Z.div_mod (len dat) 16). lia.
  - intros dat. unfold toy_unpad, toy_pad. rewrite reverse_app, reverse_cons, reverse_replicate.
    rewrite <- app_assoc, strip_zeros_replicate.
    change ([0x80] ++ reverse dat) with (0x80 :: reverse dat). cbn [strip_zeros].
    by rewrite reverse_involutive.
Qed.
