(* ===== verification/Scp03.v ===== *)
(** * Scp03: GlobalPlatform SCP03 secure channel

    Models the session half of [src/src/scp03.rs]: static key sets, the
    INITIALIZE UPDATE / EXTERNAL AUTHENTICATE handshake, and the protection of
    commands and responses ([Scp03Session]). The keys of the handshake live in
    protected token objects; their four operations are the class [StaticKeys].

    The second part is a reference card, [scp_handler]: the receiving half of
    GlobalPlatform Amendment D, with its own copy of the session state. The
    properties say that host and card stay synchronised, that IVs are never
    reused, and that a response whose MAC does not verify is never accepted. *)
From S2P Require Import Prelude Errors Apdu Connector Iso7816 Crypto.

Definition MAC_LENGTH : Z := 8.
Definition MORE_COMMANDS : Z := 0x80.
Definition DERIVATION_CARD_CRYPTOGRAM : Z := 0x00.
Definition DERIVATION_HOST_CRYPTOGRAM : Z := 0x01.
Definition DERIVATION_CARD_CHALLENGE : Z := 0x02.
Definition DERIVATION_S_ENC : Z := 0x04.
Definition DERIVATION_S_MAC : Z := 0x06.
Definition DERIVATION_S_RMAC : Z := 0x07.
Definition SECURITY_C_MAC : Z := 0x01.
Definition SECURITY_C_ENCRYPTION : Z := 0x02.
Definition SECURITY_R_MAC : Z := 0x10.
Definition SECURITY_R_ENCRYPTION : Z := 0x20.
Definition IMPLEMENTATION_S16 : Z := 0x01.
Definition IMPLEMENTATION_PSEUDO_RANDOM_CHALLENGE : Z := 0x10.
Definition IMPLEMENTATION_R_MAC : Z := 0x20.
Definition IMPLEMENTATION_R_ENCRYPTION : Z := 0x40.
Definition YUBICO_BMK_LENGTH : Z := 32.

(** ** Key sets *)

Record Scp03KeySet : Type := mkScp03KeySet {
  ks_key_version : Z;
  ks_key_id : Z;
  ks_enc : list Z;
  ks_mac : list Z;
  ks_dek : option (list Z);
  ks_diversification_bmk : option (list Z);
}.

Definition YUBIKEY_FACTORY_KEY_VERSION : Z := 0xff.
Definition YUBIKEY_FACTORY_KEY_ID : Z := 0x00.
Definition YUBIKEY_FACTORY_KEY : list Z :=
  [0x40; 0x41; 0x42; 0x43; 0x44; 0x45; 0x46; 0x47; 0x48; 0x49; 0x4a; 0x4b; 0x4c; 0x4d; 0x4e; 0x4f].

Definition yubikey_factory : Scp03KeySet :=
  mkScp03KeySet YUBIKEY_FACTORY_KEY_VERSION YUBIKEY_FACTORY_KEY_ID
    YUBIKEY_FACTORY_KEY YUBIKEY_FACTORY_KEY (Some YUBIKEY_FACTORY_KEY) None.

Inductive Scp03KeyMaterialConfiguration : Type :=
| Factory
| Direct (enc mac : list Z) (dek : option (list Z))
| YubicoBatchMasterKey (bmk : list Z).

Definition Scp03KeySet_validate (keys : Scp03KeySet) : outcome Error unit :=
  match ks_diversification_bmk keys with
  | Some bmk =>
      if (len bmk =? YUBICO_BMK_LENGTH) && (len (ks_enc keys) =? 0) && (len (ks_mac keys) =? 0)
         && negb (bool_decide (is_Some (ks_dek keys)))
      then Ok tt else Err #CKR_ARGUMENTS_BAD
  | None =>
      let dek_is p := match ks_dek keys with Some k => p k | None => false end in
      if negb (valid_aes_key (ks_enc keys)) || negb (valid_aes_key (ks_mac keys))
         || dek_is (λ k, negb (valid_aes_key k))
         || negb (len (ks_enc keys) =? len (ks_mac keys))
         || dek_is (λ k, negb (len k =? len (ks_enc keys)))
      then Err #CKR_ARGUMENTS_BAD else Ok tt
  end.

Definition Scp03KeySet_from_configuration (key_version key_id : Z)
    (material : Scp03KeyMaterialConfiguration) : outcome Error Scp03KeySet :=
  let keys :=
    match material with
    | Factory =>
        mkScp03KeySet key_version key_id (ks_enc yubikey_factory) (ks_mac yubikey_factory)
          (ks_dek yubikey_factory) None
    | Direct enc mac dek => mkScp03KeySet key_version key_id enc mac dek None
    | YubicoBatchMasterKey bmk => mkScp03KeySet key_version key_id [] [] None (Some bmk)
    end in
  let? _ := Scp03KeySet_validate keys in
  Ok keys.

(** ** Hexadecimal key material *)

Definition is_hex_digit (c : Z) : bool :=
  ((48 <=? c) && (c <=? 57)) || ((65 <=? c) && (c <=? 70)) || ((97 <=? c) && (c <=? 102)).
Definition hex_digit (c : Z) : Z :=
  if c <=? 57 then c - 48 else if c <=? 70 then c - 55 else c - 87.
(** [char::is_ascii_whitespace]: space, tab, line feed, form feed, return. *)
Definition is_ascii_whitespace (c : Z) : bool :=
  (c =? 32) || (c =? 9) || (c =? 10) || (c =? 12) || (c =? 13).

Fixpoint hex_pairs (l : list Z) : list Z :=
  match l with
  | a :: b :: rest => (16 * hex_digit a + hex_digit b) :: hex_pairs rest
  | _ => []
  end.

(** The UTF-8 bytes of the string; a non-ASCII character has no byte that is
    whitespace, a colon or a digit. *)
Definition parse_hex (value : list Z) : outcome Error (list Z) :=
  let compact := List.filter (λ c, negb (is_ascii_whitespace c) && negb (c =? 58)) value in
  if negb (len compact mod 2 =? 0) || negb (forallb is_hex_digit compact)
  then Err #CKR_ARGUMENTS_BAD
  else Ok (hex_pairs compact).

(** ** The INITIALIZE UPDATE response *)

Definition validate_security_level (security_level : Z) : outcome Error unit :=
  if existsb (Z.eqb security_level) [0x00; 0x01; 0x03; 0x11; 0x13; 0x33]
  then Ok tt else Err #CKR_ARGUMENTS_BAD.

Definition validate_implementation (implementation : Z) : outcome Error unit :=
  let response_security :=
    Z.land implementation (Z.lor IMPLEMENTATION_R_MAC IMPLEMENTATION_R_ENCRYPTION) in
  if has_flag implementation IMPLEMENTATION_S16 || has_flag implementation 0x8e
     || (response_security =? IMPLEMENTATION_R_ENCRYPTION)
  then Err #CKR_DEVICE_ERROR else Ok tt.

Definition validate_card_capabilities (implementation security_level : Z) : outcome Error unit :=
  let both := Z.lor IMPLEMENTATION_R_MAC IMPLEMENTATION_R_ENCRYPTION in
  if has_flag security_level SECURITY_R_MAC && negb (has_flag implementation IMPLEMENTATION_R_MAC)
  then Err #CKR_DEVICE_ERROR
  else if has_flag security_level SECURITY_R_ENCRYPTION
          && negb (Z.land implementation both =? both)
  then Err #CKR_DEVICE_ERROR
  else Ok tt.

Record InitializeUpdate : Type := mkInitializeUpdate {
  issuer_context : list Z;
  iu_key_version : Z;
  scp_id : Z;
  implementation : Z;
  card_challenge : list Z;
  sequence_counter : option (list Z);
}.

Definition InitializeUpdate_parse (dat : list Z) : outcome Error InitializeUpdate :=
  if len dat <? 13 then Err #CKR_DEVICE_ERROR
  else
    let implementation := at_ dat 12 in
    let? _ := validate_implementation implementation in
    let pseudo_random := has_flag implementation IMPLEMENTATION_PSEUDO_RANDOM_CHALLENGE in
    if negb (len dat =? if pseudo_random then 32 else 29) then Err #CKR_DEVICE_ERROR
    else
      Ok {| issuer_context := ztake 10 dat; iu_key_version := at_ dat 10;
            scp_id := at_ dat 11; implementation := implementation;
            card_challenge := slice 13 21 dat;
            sequence_counter := if pseudo_random then Some (slice 29 32 dat) else None |}.

(** ** Sessions *)

(** A protected key is a retained token object, known by its handle. *)
Inductive CardDek : Type :=
| Dek_Protected (key : Z)
| Dek_Session (value : list Z).

Record Scp03Session : Type := mkScp03Session {
  s_enc : list Z;
  s_mac : list Z;
  s_rmac : list Z;
  static_dek : option CardDek;
  oce_authenticated : bool;
  mac_chaining_value : list Z;
  encryption_counter : Z;
  security_level : Z;
}.

Definition set_chaining_value (v : list Z) (s : Scp03Session) : Scp03Session :=
  mkScp03Session (s_enc s) (s_mac s) (s_rmac s) (static_dek s) (oce_authenticated s) v
    (encryption_counter s) (security_level s).
Definition set_encryption_counter (n : Z) (s : Scp03Session) : Scp03Session :=
  mkScp03Session (s_enc s) (s_mac s) (s_rmac s) (static_dek s) (oce_authenticated s)
    (mac_chaining_value s) n (security_level s).
Definition set_static_dek (d : option CardDek) (s : Scp03Session) : Scp03Session :=
  mkScp03Session (s_enc s) (s_mac s) (s_rmac s) d true
    (mac_chaining_value s) (encryption_counter s) (security_level s).

Definition Scp03Session_from_session_keys (enc mac rmac : list Z) (dek : option (list Z))
    (oce : bool) (chaining : list Z) (level : Z) : outcome Error Scp03Session :=
  let? _ := validate_security_level level in
  if negb (valid_aes_key enc) || negb (len enc =? len mac) || negb (len enc =? len rmac)
     || match dek with Some key => negb (valid_aes_key key) | None => false end
  then Err #CKR_ARGUMENTS_BAD
  else Ok (mkScp03Session enc mac rmac (Dek_Session <$> dek) oce chaining 0 level).

Definition Scp03Session_static_dek (s : Scp03Session) : outcome Error CardDek :=
  ok_or #CKR_KEY_FUNCTION_NOT_PERMITTED (static_dek s).

Definition require_oce_authentication (s : Scp03Session) : outcome Error unit :=
  if oce_authenticated s then Ok tt else Err #CKR_USER_NOT_LOGGED_IN.

Definition normalize_scp03_cla (cla : Z) : outcome Error Z :=
  if has_flag cla 0x40 || has_flag cla 0x03 then Err #CKR_ARGUMENTS_BAD
  else Ok (Z.lor (Z.land cla 0xf3) 0x04).

(** The statuses whose responses are protected. *)
Definition protected_status (st : Z) : bool :=
  (st =? RESPONSE_OK) || (st =? 0x9100)
  || (Z.land st 0xff00 =? 0x6200) || (Z.land st 0xff00 =? 0x6300).

Section session.
Context `{SoftwareKeyCore}.

(** The block that is encrypted to make an IV: the counter, with the top bit set
    for responses. *)
Definition iv_block (counter : Z) (response : bool) : list Z :=
  match be_bytes 16 counter with
  | b :: rest => (if response then Z.lor b 0x80 else b) :: rest
  | [] => []
  end.

Definition command_iv (s : Scp03Session) (response : bool) : outcome Error (list Z) :=
  aes_encrypt_block (s_enc s) (iv_block (encryption_counter s) response).

Definition external_authenticate (host_cryptogram : list Z) : SM Scp03Session Error CommandApdu :=
  guard_err (negb (len host_cryptogram =? MAC_LENGTH)) #CKR_DATA_LEN_RANGE ;!
  let! s := sm_get in
  let mac_input := mac_chaining_value s ++ [0x84; 0x82; security_level s; 0x00; 0x10]
                   ++ host_cryptogram in
  let! mac := sm_lift (aes_cmac (s_mac s) mac_input) in
  sm_modify (set_chaining_value mac) ;!
  sm_ret (mkCommandApdu 0x84 0x82 (security_level s) 0
            (host_cryptogram ++ ztake MAC_LENGTH mac) None false).

(** The encryption step of [protect_command]. *)
Definition encrypt_command_data (s : Scp03Session) (dat : list Z) : outcome Error (list Z) :=
  if has_flag (security_level s) SECURITY_C_ENCRYPTION && negb (len dat =? 0) then
    let padded := pad_iso7816 dat in
    let? iv := command_iv s false in
    aes_cbc (s_enc s) iv padded Encrypt
  else Ok dat.

Definition protect_command (command : CommandApdu) : SM Scp03Session Error CommandApdu :=
  let! s := sm_get in
  let! cla' := sm_lift (if security_level s =? 0 then Ok (cla command)
                        else normalize_scp03_cla (cla command)) in
  guard_err (U128_MAX <=? encryption_counter s) #CKR_DEVICE_ERROR ;!
  sm_modify (set_encryption_counter (encryption_counter s + 1)) ;!
  if security_level s =? 0 then sm_ret command
  else
    let! _ := sm_lift (uses_extended_length command (len (data command))) in
    let! s := sm_get in
    let! dat := sm_lift (encrypt_command_data s (data command)) in
    let protected := mkCommandApdu cla' (ins command) (p1 command) (p2 command) dat
                       (le command) (extended command) in
    if has_flag (security_level s) SECURITY_C_MAC then
      let protected_len := len dat + MAC_LENGTH in
      guard_err (MAX_EXTENDED_DATA_LENGTH <? protected_len) #CKR_DATA_LEN_RANGE ;!
      let! head := sm_lift (encode_header_and_data protected protected_len) in
      let! mac := sm_lift (aes_cmac (s_mac s) (mac_chaining_value s ++ head)) in
      sm_modify (set_chaining_value mac) ;!
      sm_ret (mkCommandApdu cla' (ins command) (p1 command) (p2 command)
                (dat ++ ztake MAC_LENGTH mac) (le command) (extended command))
    else sm_ret protected.

(** The MAC check of [unprotect_response]. *)
Definition check_response_mac (s : Scp03Session) (dat : list Z) (st : Z)
  : outcome Error (list Z) :=
  if has_flag (security_level s) SECURITY_R_MAC then
    if len dat <? MAC_LENGTH then Err #CKR_ENCRYPTED_DATA_INVALID
    else
      let mac_offset := len dat - MAC_LENGTH in
      let received_mac := zdrop mac_offset dat in
      let dat := ztake mac_offset dat in
      let? expected_mac := aes_cmac (s_rmac s) (mac_chaining_value s ++ dat ++ be16 st) in
      if bool_decide (ztake MAC_LENGTH expected_mac = received_mac) then Ok dat
      else Err #CKR_ENCRYPTED_DATA_INVALID
  else Ok dat.

(** The decryption of [unprotect_response]. *)
Definition decrypt_response_data (s : Scp03Session) (dat : list Z) : outcome Error (list Z) :=
  if has_flag (security_level s) SECURITY_R_ENCRYPTION && negb (len dat =? 0) then
    if negb (len dat mod AES_BLOCK_SIZE =? 0) then Err #CKR_ENCRYPTED_DATA_INVALID
    else
      let? iv := command_iv s true in
      let? padded := aes_cbc (s_enc s) iv dat Decrypt in
      unpad_iso7816 padded
  else Ok dat.

Definition unprotect_response (s : Scp03Session) (response : ResponseApdu)
  : outcome Error ResponseApdu :=
  if negb (protected_status (status response)) then
    if negb (len (rdata response) =? 0) then Err #CKR_ENCRYPTED_DATA_INVALID
    else Ok response
  else
    let? dat := check_response_mac s (rdata response) (status response) in
    let? dat := decrypt_response_data s dat in
    Ok (mkResponseApdu dat (status response)).

Context `{Connector D}.

Definition Scp03Session_exchange (via : CommandApdu → SM D Error ResponseApdu)
    (command : CommandApdu) : SM (Scp03Session * D) Error ResponseApdu :=
  let! protected := sm_fst (protect_command command) in
  let! response := sm_snd (via protected) in
  let! s := sm_gets fst in
  sm_lift (unprotect_response s response).

Definition Scp03Session_transmit : CommandApdu → SM (Scp03Session * D) Error ResponseApdu :=
  Scp03Session_exchange transmit.
Definition Scp03Session_transmit_oath : CommandApdu → SM (Scp03Session * D) Error ResponseApdu :=
  Scp03Session_exchange transmit_oath.
Definition Scp03Session_transmit_short : CommandApdu → SM (Scp03Session * D) Error ResponseApdu :=
  Scp03Session_exchange transmit_short.

(** The segment loop of [transmit_chained], for a protected command that does not
    fit one short APDU. *)
Fixpoint transmit_chained_segments (protected : CommandApdu) (segments : list (list Z))
  : SM (Scp03Session * D) Error ResponseApdu :=
  match segments with
  | [] => sm_err #CKR_DEVICE_ERROR
  | [chunk] =>
      let! response := sm_snd (raw_transmit
        (mkCommandApdu (cla protected) (ins protected) (p1 protected) (p2 protected) chunk
           (le protected) false)) in
      let! response := sm_snd (collect_response_chain response) in
      let! s := sm_gets fst in
      sm_lift (unprotect_response s response)
  | chunk :: rest =>
      let! response := sm_snd (raw_transmit
        (mkCommandApdu (cla protected) (ins protected) (Z.lor (p1 protected) MORE_COMMANDS)
           (p2 protected) chunk None false)) in
      guard_err (negb (status response =? RESPONSE_OK) || negb (len (rdata response) =? 0))
        #CKR_DEVICE_ERROR ;!
      transmit_chained_segments protected rest
  end.

Definition Scp03Session_transmit_chained (command : CommandApdu)
  : SM (Scp03Session * D) Error ResponseApdu :=
  guard_err (has_flag (p1 command) MORE_COMMANDS
             || le_is_some_and command (λ n, MAX_SHORT_EXPECTED_LENGTH <? n)) #CKR_ARGUMENTS_BAD ;!
  let! protected := sm_fst (protect_command command) in
  if len (data protected) <=? MAX_SHORT_DATA_LENGTH then
    let! response := sm_snd (raw_transmit protected) in
    let! response := sm_snd (collect_response_chain response) in
    let! s := sm_gets fst in
    sm_lift (unprotect_response s response)
  else transmit_chained_segments protected (chunks 255 (data protected)).

(** *** The handshake *)

(** What [establish_using] asks of the static keys ([Scp03Keys] of
    [src/src/scp_key_provider.rs]): key derivation from the encryption or the MAC
    key, the key lengths, and the data encryption key. *)
Class StaticKeys (K : Type) : Type := {
  keys_derive : bool → Z → list Z → Z → SM K Error (list Z);
  keys_enc_length : K → outcome Error Z;
  keys_mac_length : K → outcome Error Z;
  keys_take_dek : SM K Error (option CardDek);
}.

Context `{StaticKeys K}.

Definition from_initialize_update (level : Z) (host_challenge : list Z)
    (update : InitializeUpdate) (card_cryptogram : list Z)
  : SM K Error (Scp03Session * list Z) :=
  let! _ := sm_lift (validate_security_level level) in
  let context := host_challenge ++ card_challenge update in
  let! keys := sm_get in
  let! enc_length := sm_lift (keys_enc_length keys) in
  let! mac_length := sm_lift (keys_mac_length keys) in
  let! s_enc := keys_derive true DERIVATION_S_ENC context enc_length in
  let! s_mac := keys_derive false DERIVATION_S_MAC context mac_length in
  let! s_rmac := keys_derive false DERIVATION_S_RMAC context mac_length in
  let! expected_card_cryptogram :=
    sm_lift (scp03_kdf s_mac DERIVATION_CARD_CRYPTOGRAM context 64) in
  guard_err (negb (bool_decide (expected_card_cryptogram = card_cryptogram)))
    #CKR_PIN_INCORRECT ;!
  let! host_cryptogram := sm_lift (scp03_kdf s_mac DERIVATION_HOST_CRYPTOGRAM context 64) in
  sm_ret (mkScp03Session s_enc s_mac s_rmac None true (replicate 16 0) 0 level, host_cryptogram).

(** The pseudo-random card challenge must be the one the keys derive. *)
Definition check_card_challenge (update : InitializeUpdate) (selected_aid : list Z)
  : SM K Error unit :=
  match sequence_counter update with
  | None => sm_ret tt
  | Some counter =>
      let! expected := keys_derive true DERIVATION_CARD_CHALLENGE (counter ++ selected_aid) 8 in
      guard_err (negb (bool_decide (expected = card_challenge update))) #CKR_DEVICE_ERROR
  end.

Definition establish_using (key_version key_id level : Z) (host_challenge selected_aid : list Z)
    (resolve : list Z → outcome Error K) : SM D Error Scp03Session :=
  let! _ := sm_lift (validate_security_level level) in
  let initialize := mkCommandApdu 0x80 0x50 key_version key_id host_challenge (Some 256) false in
  let! response := raw_transmit initialize in
  let! initialize_response := sm_lift (require_success response) in
  let! update := sm_lift (InitializeUpdate_parse (rdata initialize_response)) in
  guard_err (negb (scp_id update =? 0x03)
             || (negb (key_version =? 0) && negb (iu_key_version update =? key_version)))
    #CKR_DEVICE_ERROR ;!
  let! _ := sm_lift (validate_card_capabilities (implementation update) level) in
  let! keys := sm_lift (resolve (issuer_context update)) in
  let! '((session, host_cryptogram), dek) := sm_lift
    (fst ((let! _ := check_card_challenge update selected_aid in
           let! established := from_initialize_update level host_challenge update
                                 (slice 21 29 (rdata initialize_response)) in
           let! dek := keys_take_dek in
           sm_ret (established, dek)) keys)) in
  let '(authenticate, session) := external_authenticate host_cryptogram (set_static_dek dek session) in
  let! authenticate := sm_lift authenticate in
  let! response := raw_transmit authenticate in
  let! _ := sm_lift (require_success response) in
  sm_ret session.
End session.

(** ** The card's half of the channel *)

Section card.
Context `{SoftwareKeyCore}.

(** The MAC input of a received command: header, Lc of the protected data in the
    form it was received, and the data without its MAC. *)
Definition card_mac_header (c : CommandApdu) (body : list Z) : list Z :=
  [cla c; ins c; p1 c; p2 c]
  ++ (if extended c || (255 <? len (data c)) then 0 :: be16 (len (data c)) else [len (data c)])
  ++ body.

Definition card_verify (c : CommandApdu) : SM Scp03Session Error (list Z) :=
  let! s := sm_get in
  if has_flag (security_level s) SECURITY_C_MAC then
    guard_err (len (data c) <? MAC_LENGTH) #CKR_ENCRYPTED_DATA_INVALID ;!
    let body := ztake (len (data c) - MAC_LENGTH) (data c) in
    let! mac := sm_lift (aes_cmac (s_mac s) (mac_chaining_value s ++ card_mac_header c body)) in
    guard_err (negb (bool_decide (ztake MAC_LENGTH mac = zdrop (len (data c) - MAC_LENGTH) (data c))))
      #CKR_ENCRYPTED_DATA_INVALID ;!
    sm_modify (set_chaining_value mac) ;!
    sm_ret body
  else sm_ret (data c).

Definition card_decrypt (s : Scp03Session) (dat : list Z) : outcome Error (list Z) :=
  if has_flag (security_level s) SECURITY_C_ENCRYPTION && negb (len dat =? 0) then
    let? iv := command_iv s false in
    let? padded := aes_cbc (s_enc s) iv dat Decrypt in
    unpad_iso7816 padded
  else Ok dat.

Definition card_unwrap (c : CommandApdu) : SM Scp03Session Error (list Z) :=
  sm_modify (λ s, set_encryption_counter (encryption_counter s + 1) s) ;!
  let! body := card_verify c in
  let! s := sm_get in
  sm_lift (card_decrypt s body).

Definition card_encrypt (s : Scp03Session) (dat : list Z) : outcome Error (list Z) :=
  if has_flag (security_level s) SECURITY_R_ENCRYPTION && negb (len dat =? 0) then
    let? iv := command_iv s true in
    aes_cbc (s_enc s) iv (pad_iso7816 dat) Encrypt
  else Ok dat.

Definition card_wrap (s : Scp03Session) (r : ResponseApdu) : outcome Error ResponseApdu :=
  if negb (protected_status (status r)) then Ok r
  else
    let? dat := card_encrypt s (rdata r) in
    if has_flag (security_level s) SECURITY_R_MAC then
      let? mac := aes_cmac (s_rmac s) (mac_chaining_value s ++ dat ++ be16 (status r)) in
      Ok (mkResponseApdu (dat ++ ztake MAC_LENGTH mac) (status r))
    else Ok (mkResponseApdu dat (status r)).

(** The command as the application behind the channel sees it: the secure
    messaging bits of CLA are the channel's. *)
Definition plain_command (level : Z) (c : CommandApdu) (dat : list Z) : CommandApdu :=
  mkCommandApdu (if level =? 0 then cla c else Z.land (cla c) 0xf3) (ins c) (p1 c) (p2 c)
    dat None false.

(** A card application behind a secure channel. *)
Definition scp_handler {A} (app : A → CommandApdu → ResponseApdu * A)
    (st : Scp03Session * A) (c : CommandApdu) : ResponseApdu * (Scp03Session * A) :=
  match card_unwrap c st.1 with
  | (Ok dat, s) =>
      let '(r, a) := app st.2 (plain_command (security_level s) c dat) in
      match card_wrap s r with
      | Ok r' => (r', (s, a))
      | _ => (mkResponseApdu [] 0x6f00, (s, a))
      end
  | (_, s) => (mkResponseApdu [] 0x6982, (st.1, st.2))
  end.

(** Host and card hold the same channel; who authenticated and the data
    encryption key are the host's own. *)
Definition in_sync (s p : Scp03Session) : Prop :=
  s_enc p = s_enc s ∧ s_mac p = s_mac s ∧ s_rmac p = s_rmac s ∧
  mac_chaining_value p = mac_chaining_value s ∧
  encryption_counter p = encryption_counter s ∧ security_level p = security_level s.

(** The invariant of a session: what [from_session_keys] and the handshake
    establish, and every operation keeps. *)
Definition session_ok (s : Scp03Session) : bool :=
  valid_aes_key (s_enc s) && valid_aes_key (s_mac s) && valid_aes_key (s_rmac s)
  && (len (mac_chaining_value s) =? 16)
  && (0 <=? encryption_counter s) && (encryption_counter s <=? U128_MAX)
  && is_ok (validate_security_level (security_level s)).

Context `{!SoftwareKeyCoreLaws}.

Lemma aes_cmac_valid key dat :
  valid_aes_key key = true → ∃ mac, aes_cmac key dat = Ok mac ∧ len mac = 16.
Proof.
  intros Hk. destruct (cmac_valid key dat Hk) as (mac & E & Hl). exists mac.
  unfold aes_cmac. by rewrite E.
Qed.

Lemma len_iv_block n response : len (iv_block n response) = 16.
Proof.
  unfold iv_block. pose proof (length_be_bytes 16 n) as Hl.
  destruct (be_bytes 16 n); [done|]. unfold len in *. simpl in *. lia.
Qed.

Lemma command_iv_valid s response :
  valid_aes_key (s_enc s) = true → ∃ iv, command_iv s response = Ok iv ∧ len iv = 16.
Proof.
  intros Hk. destruct (block_valid _ _ Hk (len_iv_block (encryption_counter s) response))
    as (iv & E & Hl). exists iv. unfold command_iv, aes_encrypt_block. by rewrite E.
Qed.

(** Encrypting a padded message, seen from both ends. *)
Lemma cbc_pad_inverse key iv dat :
  valid_aes_key key = true → len iv = 16 →
  ∃ out, aes_cbc key iv (pad_iso7816 dat) Encrypt = Ok out ∧
    len out mod 16 = 0 ∧ len dat < len out ≤ len dat + 16 ∧
    (let? padded := aes_cbc key iv out Decrypt in unpad_iso7816 padded) = Ok dat.
Proof.
  intros Hk Hiv. destruct (pad_blocks dat) as [Hmod Hlen].
  destruct (cbc_inverse key iv _ Hk Hiv Hmod) as (out & E & Hout & D). exists out.
  unfold aes_cbc, pad_iso7816, unpad_iso7816. rewrite E, D. cbn. rewrite unpad_pad, Hout. done.
Qed.

Lemma encrypt_command_inverse s dat :
  valid_aes_key (s_enc s) = true →
  ∃ out, encrypt_command_data s dat = Ok out ∧ card_decrypt s out = Ok dat ∧
    len dat ≤ len out ≤ len dat + 16.
Proof.
  intros Hk. unfold encrypt_command_data, card_decrypt.
  destruct (command_iv_valid s false Hk) as (iv & -> & Hiv). cbn [obind].
  destruct (has_flag _ _ && negb (len dat =? 0)) eqn:E.
  - destruct (cbc_pad_inverse (s_enc s) iv dat Hk Hiv) as (out & -> & _ & Hlen & D).
    exists out. apply andb_true_iff in E as [Ef En]. rewrite Ef. bool_to_prop.
    pose proof (len_nonneg dat).
    test_false (len out =? 0). split_and!; [done|done|lia..].
  - exists dat. rewrite E. split_and!; [done..|lia].
Qed.

Lemma card_encrypt_inverse s dat :
  valid_aes_key (s_enc s) = true →
  ∃ out, card_encrypt s dat = Ok out ∧ decrypt_response_data s out = Ok dat ∧
    len dat ≤ len out ≤ len dat + 16.
Proof.
  intros Hk. unfold card_encrypt, decrypt_response_data.
  destruct (command_iv_valid s true Hk) as (iv & -> & Hiv). cbn [obind].
  destruct (has_flag _ _ && negb (len dat =? 0)) eqn:E.
  - destruct (cbc_pad_inverse (s_enc s) iv dat Hk Hiv) as (out & -> & Hmod & Hlen & D).
    exists out. apply andb_true_iff in E as [Ef En]. rewrite Ef. bool_to_prop.
    pose proof (len_nonneg dat).
    test_false (len out =? 0). unfold AES_BLOCK_SIZE. rewrite Hmod.
    split_and!; [done|done|lia..].
  - exists dat. rewrite E. split_and!; [done..|lia].
Qed.

(** A response wrapped by the card is accepted by the host. *)
Lemma wrap_unprotect s r :
  session_ok s = true → (protected_status (status r) = false → rdata r = []) →
  ∃ w, card_wrap s r = Ok w ∧ unprotect_response s w = Ok r ∧ status w = status r ∧
    len (rdata w) ≤ len (rdata r) + 24.
Proof.
  intros Hs Hempty. unfold session_ok in Hs. bool_to_prop.
  unfold card_wrap, unprotect_response. destruct r as [d st]. cbn [status rdata] in *.
  destruct (protected_status st) eqn:Ep; cbn [negb].
  2:{ exists (mkResponseApdu [] st). rewrite Hempty by done. cbn [status rdata]. by rewrite Ep. }
  destruct (card_encrypt_inverse s d) as (out & -> & D & Hlen); [done|]. cbn [obind].
  pose proof (len_nonneg out). pose proof (len_nonneg d).
  destruct (has_flag (security_level s) SECURITY_R_MAC) eqn:Em.
  - destruct (aes_cmac_valid (s_rmac s) (mac_chaining_value s ++ out ++ be16 st))
      as (mac & Emac & Hmac); [done|]. rewrite Emac. cbn [obind].
    eexists. split; [done|]. cbn [status rdata]. rewrite Ep. cbn [negb].
    unfold check_response_mac. rewrite Em.
    assert (len (ztake MAC_LENGTH mac) = 8) as Hmac8
      by (unfold MAC_LENGTH; rewrite len_ztake by lia; lia).
    rewrite len_app, Hmac8. unfold MAC_LENGTH in *. test_false (len out + 8 <? 8).
    replace (len out + 8 - 8) with (len out) by lia.
    rewrite ztake_app_len, zdrop_app_len, Emac. cbn [obind]. rewrite bool_decide_true by done.
    cbn [obind]. rewrite D. cbn [obind]. split_and!; [done|done|lia].
  - eexists. split; [done|]. cbn [status rdata]. rewrite Ep. unfold check_response_mac.
    rewrite Em. cbn [negb obind]. rewrite D. split_and!; [done|done|lia].
Qed.

Lemma level_cases level :
  is_ok (validate_security_level level) = true →
  (level = 0 ∨ level ≠ 0 ∧ has_flag level SECURITY_C_MAC = true).
Proof.
  unfold validate_security_level. destruct (existsb _ _) eqn:E; [|done]. intros _.
  apply contains_In in E. simpl in E.
  destruct E as [<-|[<-|[<-|[<-|[<-|[<-|[]]]]]]]; [by left|right; done..].
Qed.

(** The Lc form of the MAC input, from the wire or from the host. *)
Definition mac_form (c : CommandApdu) (total : Z) : bool :=
  (255 <? total) || le_is_some_and c (λ n, 256 <? n).

Lemma uses_extended_form c n :
  extended c = false → 0 ≤ n ≤ 65535 → (∀ m, le c = Some m → 1 ≤ m ≤ 65536) →
  uses_extended_length c n = Ok (mac_form c n).
Proof.
  intros Hx Hn Hle. unfold uses_extended_length, mac_form, le_is_some_and,
    MAX_EXTENDED_DATA_LENGTH, MAX_SHORT_DATA_LENGTH, MAX_EXTENDED_EXPECTED_LENGTH,
    MAX_SHORT_EXPECTED_LENGTH. rewrite Hx. test_false (65535 <? n).
  destruct (le c) as [m|]; [|done].
  specialize (Hle m eq_refl). by test_false ((m =? 0) || (65536 <? m)).
Qed.

Lemma header_for_mac c total :
  extended c = false → len (data c) < total ≤ 65535 →
  (∀ n, le c = Some n → 1 ≤ n ≤ 65536) →
  encode_header_and_data c total =
    Ok ([cla c; ins c; p1 c; p2 c]
        ++ (if mac_form c total then 0 :: be16 total else [total]) ++ data c).
Proof.
  intros Hx Ht Hle. pose proof (len_nonneg (data c)).
  unfold encode_header_and_data, MAX_EXTENDED_DATA_LENGTH.
  test_false ((total <? len (data c)) || (65535 <? total)).
  rewrite uses_extended_form by (done || lia). cbn [obind]. test_false (total =? 0).
  assert (as_u16 total = total) as -> by (apply Z.mod_small; lia).
  destruct (mac_form c total) eqn:E; [done|]. unfold mac_form in E. bool_to_prop.
  by assert (as_u8 total = total) as -> by (apply Z.mod_small; lia).
Qed.

(** A command that carries the MAC of its own header and body verifies. *)
Lemma card_verify_ok p c dat mac :
  has_flag (security_level p) SECURITY_C_MAC = true → data c = dat ++ ztake MAC_LENGTH mac →
  len mac = 16 → aes_cmac (s_mac p) (mac_chaining_value p ++ card_mac_header c dat) = Ok mac →
  card_verify c p = (Ok dat, set_chaining_value mac p).
Proof.
  intros Hf Hd Hm Hmac. unfold MAC_LENGTH in *.
  assert (len (data c) = len dat + 8) as Hl by (rewrite Hd, len_app, len_ztake; lia).
  pose proof (len_nonneg dat).
  unfold card_verify, sbind, sm_get, guard_err, sm_lift, sm_modify, sm_ret, MAC_LENGTH.
  rewrite Hf, Hl. test_false (len dat + 8 <? 8). replace (len dat + 8 - 8) with (len dat) by lia.
  rewrite Hd, ztake_app_len, zdrop_app_len, Hmac. by rewrite bool_decide_true.
Qed.

Lemma set_counter_sync s p n :
  in_sync s p → in_sync (set_encryption_counter n s) (set_encryption_counter n p).
Proof. unfold in_sync. cbn. tauto. Qed.

Lemma set_chaining_sync s p v :
  in_sync s p → in_sync (set_chaining_value v s) (set_chaining_value v p).
Proof. unfold in_sync. cbn. tauto. Qed.

Lemma card_decrypt_sync s p dat : in_sync s p → card_decrypt p dat = card_decrypt s dat.
Proof.
  intros (E1 & E2 & E3 & E4 & E5 & E6). unfold card_decrypt, command_iv. by rewrite E1, E5, E6.
Qed.

Lemma card_wrap_sync s p r : in_sync s p → card_wrap p r = card_wrap s r.
Proof.
  intros (E1 & E2 & E3 & E4 & E5 & E6). unfold card_wrap, card_encrypt, command_iv.
  by rewrite E1, E3, E4, E5, E6.
Qed.

(** Commands [protect_command] accepts. *)
Definition protectable (s : Scp03Session) (c : CommandApdu) : bool :=
  negb (extended c)
  && match le c with Some n => (1 <=? n) && (n <=? 65536) | None => true end
  && (len (data c) <=? 65535 - 24)
  && ((security_level s =? 0) || is_ok (normalize_scp03_cla (cla c)))
  && (encryption_counter s <? U128_MAX).

(** Protecting a command on the host and unwrapping it on the card. *)
Lemma protect_unwrap s p c :
  session_ok s = true → in_sync s p → protectable s c = true →
  ∃ w s', protect_command c s = (Ok w, s') ∧ session_ok s' = true ∧
    w = mkCommandApdu (if security_level s =? 0 then cla c else Z.lor (Z.land (cla c) 0xf3) 0x04)
          (ins c) (p1 c) (p2 c) (data w) (le c) false ∧
    security_level s' = security_level s ∧ encryption_counter s' = encryption_counter s + 1 ∧
    len (data w) ≤ len (data c) + 24 ∧
    ∀ ext, ext || (255 <? len (data w)) = mac_form c (len (data w)) →
      ∃ p', card_unwrap (mkCommandApdu (cla w) (ins w) (p1 w) (p2 w) (data w) None ext) p
            = (Ok (data c), p') ∧ in_sync s' p'.
Proof.
  intros Hs Hsync Hc. unfold session_ok, protectable in *. bool_to_prop.
  pose proof (len_nonneg (data c)).
  assert (∀ n, le c = Some n → 1 ≤ n ≤ 65536) as Hle.
  { intros n En. rewrite En in *. bool_to_prop. done. }
  set (s1 := set_encryption_counter (encryption_counter s + 1) s).
  set (p1' := set_encryption_counter (encryption_counter p + 1) p).
  assert (in_sync s1 p1') as Hsync1.
  { unfold p1'. replace (encryption_counter p) with (encryption_counter s)
      by (symmetry; apply Hsync). by apply set_counter_sync. }
  unfold protect_command, sm_get, sbind, sm_lift, guard_err, sm_modify, sm_ret.
  test_false (U128_MAX <=? encryption_counter s). fold s1.
  assert (session_ok s1 = true) as Hs1.
  { unfold session_ok. cbn. unfold session_ok in *. repeat (apply andb_true_iff; split); try done; lia. }
  destruct (level_cases (security_level s)) as [Hl|[Hl Hmac]]; [done|..].
  - rewrite Hl. cbn [Z.eqb]. exists c, s1. split_and!; try done; [by destruct c; cbn in *; subst|lia|].
    intros ext _. exists p1'. split; [|done].
    unfold card_unwrap, card_verify, sbind, sm_modify, sm_get, sm_ret, sm_lift. fold p1'.
    replace (security_level p1') with 0 by (symmetry; transitivity (security_level s); [apply Hsync1|done]).
    change (has_flag 0 SECURITY_C_MAC) with false. cbn beta iota. cbn [data].
    rewrite (card_decrypt_sync s1) by done.
    unfold card_decrypt. cbn [security_level s1 set_encryption_counter]. by rewrite Hl.
  - test_false (security_level s =? 0).
    assert (is_ok (normalize_scp03_cla (cla c)) = true) as Hnorm.
    { destruct (security_level s =? 0) eqn:E0; [lia|done]. }
    destruct (normalize_scp03_cla (cla c)) as [cla'| |] eqn:Ecla; [|done..].
    assert (cla' = Z.lor (Z.land (cla c) 0xf3) 0x04) as Hcla'.
    { revert Ecla. unfold normalize_scp03_cla. case_if; congruence. }
    assert (uses_extended_length c (len (data c)) = Ok (mac_form c (len (data c)))) as ->.
    { apply uses_extended_form; [done|lia|done]. }
    cbn beta iota. destruct (encrypt_command_inverse s1 (data c)) as (dat & -> & D & Hdat); [done|].
    change (security_level s1) with (security_level s). rewrite Hmac.
    unfold MAX_EXTENDED_DATA_LENGTH, MAC_LENGTH. test_false (65535 <? len dat + 8).
    set (c' := mkCommandApdu cla' (ins c) (p1 c) (p2 c) dat (le c) (extended c)).
    rewrite (header_for_mac c' (len dat + 8)); [|done|cbn; lia|done].
    set (head := [cla c'; ins c'; p1 c'; p2 c'] ++ _).
    destruct (aes_cmac_valid (s_mac s1) (mac_chaining_value s1 ++ head)) as (mac & Emac & Hm); [done|].
    rewrite Emac. set (s2 := set_chaining_value mac s1).
    assert (len (ztake 8 mac) = 8) as Hm8 by (rewrite len_ztake; lia).
    eexists _, s2. split; [done|]. split_and!.
    + unfold session_ok in *. cbn. bool_to_prop. repeat (apply andb_true_iff; split); try done; lia.
    + cbn [data]. rewrite Hcla'. f_equal; done.
    + done.
    + done.
    + cbn [data]. rewrite len_app. lia.
    + cbn [data cla ins p1 p2]. intros ext Hext. exists (set_chaining_value mac p1').
      split; [|by apply set_chaining_sync].
      destruct Hsync1 as (E1 & E2 & E3 & E4 & E5 & E6).
      unfold card_unwrap, sbind, sm_modify, sm_get, sm_lift. fold p1'.
      rewrite (card_verify_ok p1' _ dat mac); [|by rewrite E6|done|done|].
      * rewrite (card_decrypt_sync s2); [exact (f_equal (λ r, (r, _)) D)|].
        by apply set_chaining_sync.
      * rewrite E2, E4, <- Emac. do 2 f_equal. unfold card_mac_header. cbn [data cla ins p1 p2 extended].
        rewrite Hext, len_app, Hm8. done.
Qed.

(** One exchange over a channel in sync, whatever the transport in between. *)
Lemma scp_handler_serves {A} (app : A → CommandApdu → ResponseApdu * A) p a dat w s' p' :
  card_unwrap w p = (Ok dat, p') → in_sync s' p' → session_ok s' = true →
  let '(r, a') := app a (plain_command (security_level p') w dat) in
  (protected_status (status r) = false → rdata r = []) →
  ∃ wr, scp_handler app (p, a) w = (wr, (p', a')) ∧ unprotect_response s' wr = Ok r ∧
    status wr = status r ∧ len (rdata wr) ≤ len (rdata r) + 24.
Proof.
  intros Hu Hsync Hs. unfold scp_handler. cbn [fst snd]. rewrite Hu.
  destruct (app a _) as [r a']. intros Hr.
  destruct (wrap_unprotect s' r Hs Hr) as (wr & Hw & Hun & Hst & Hlen).
  exists wr. rewrite (card_wrap_sync s') by done. by rewrite Hw.
Qed.

Lemma normalized_cla x :
  0 ≤ x < 256 → is_ok (normalize_scp03_cla x) = true →
  let y := Z.lor (Z.land x 0xf3) 0x04 in
  Z.land y 0xf3 = Z.land x 0xf3 ∧
  has_flag y COMMAND_CHAINING_CLA = has_flag x COMMAND_CHAINING_CLA.
Proof.
  intros Hx _ y.
  pose proof (byte_forall (λ b, let y := Z.lor (Z.land b 0xf3) 0x04 in
    (Z.land y 0xf3 =? Z.land b 0xf3)
    && Bool.eqb (has_flag y COMMAND_CHAINING_CLA) (has_flag b COMMAND_CHAINING_CLA)) eq_refl x Hx) as H1.
  cbv beta zeta in H1. apply andb_true_iff in H1 as [H1 H2].
  apply Z.eqb_eq in H1. by apply eqb_prop in H2.
Qed.

(** The conditions on a command that travels over a channel to a card. *)
Definition scp_transmittable (profile_caps : ApduCapabilities) (s : Scp03Session)
    (c : CommandApdu) : bool :=
  protectable s c && is_byte (cla c)
  && negb (has_flag (cla c) COMMAND_CHAINING_CLA) && negb (ins c =? GET_RESPONSE)
  && match le c with
     | Some n => n <=? if extended_length profile_caps then 65536 else 256
     | None => true
     end
  && (extended_length profile_caps || command_chaining profile_caps).

Lemma protected_transmittable caps s c w :
  scp_transmittable caps s c = true →
  w = mkCommandApdu (if security_level s =? 0 then cla c else Z.lor (Z.land (cla c) 0xf3) 0x04)
        (ins c) (p1 c) (p2 c) (data w) (le c) false →
  len (data w) ≤ len (data c) + 24 →
  transmittable caps w = true ∧
  extended (as_sent caps w) || (255 <? len (data w)) = mac_form c (len (data w)).
Proof.
  intros Hc Hw Hlen. unfold scp_transmittable, protectable in Hc. bool_to_prop.
  assert (has_flag (cla w) COMMAND_CHAINING_CLA = false) as Hflag.
  { rewrite Hw. cbn [cla]. destruct (security_level s =? 0) eqn:El; [done|].
    assert (is_ok (normalize_scp03_cla (cla c)) = true) as Hn by (destruct (is_ok _); done || lia).
    destruct (normalized_cla (cla c)) as [_ ->]; [unfold is_byte in *; lia|done|done]. }
  assert (le w = le c ∧ ins w = ins c) as [Hle Hins] by (rewrite Hw; done).
  pose proof (len_nonneg (data w)). split.
  - unfold transmittable. rewrite Hflag, Hle, Hins.
    repeat (apply andb_true_iff; split); try done; try lia.
    + destruct (le c); [|done]. bool_to_prop. lia.
    + destruct (extended_length caps), (command_chaining caps); try done; lia.
  - unfold mac_form, as_sent, needs_extended_form, le_is_some_and, MAX_SHORT_DATA_LENGTH,
      MAX_SHORT_RESPONSE_LENGTH. cbn [extended]. rewrite Hle.
    destruct (255 <? len (data w)) eqn:E; [by rewrite orb_true_r|].
    destruct (le c) as [n|]; [|by destruct (extended_length caps)].
    destruct (extended_length caps); [by rewrite andb_true_r, orb_false_r|].
    bool_to_prop. by test_false (256 <? n).
Qed.

Lemma scp03_exchange_ok {A} (app : A → CommandApdu → ResponseApdu * A) caps firmware block s p a c :
  let profile := mkCardProfile (scp_handler app) caps firmware block false in
  let '(r, a') := app a (plain_command (security_level s) c (data c)) in
  profile_ok profile = true → session_ok s = true → in_sync s p →
  scp_transmittable caps s c = true →
  response_final r = true → (protected_status (status r) = false → rdata r = []) →
  len (rdata r) + 24 ≤ MAX_RESPONSE_LENGTH → len (rdata r) + 24 ≤ 257 * block →
  ∃ s' p', @Scp03Session_transmit _ _ (card_connector profile) c (s, mkCard None None (p, a))
    = (Ok r, (s', mkCard None None (p', a'))) ∧ in_sync s' p' ∧ session_ok s' = true ∧
    encryption_counter s' = encryption_counter s + 1.
Proof.
  intros profile. destruct (app a _) as [r a'] eqn:Happ.
  intros Hp Hs Hsync Hc Hfin Hst Hlen Hblock.
  assert (protectable s c = true) as Hprot by (unfold scp_transmittable in Hc; bool_to_prop; done).
  destruct (protect_unwrap s p c Hs Hsync Hprot)
    as (w & s' & Hprotect & Hs' & Hw & Hlevel & Hcounter & Hwlen & Hunwrap).
  destruct (protected_transmittable caps s c w Hc Hw Hwlen) as [Hwt Hform].
  destruct (Hunwrap _ Hform) as (p' & Hu & Hsync').
  pose proof (scp_handler_serves app p a (data c) _ s' p' Hu Hsync' Hs') as Hserve.
  assert (plain_command (security_level p') (mkCommandApdu (cla w) (ins w) (p1 w) (p2 w) (data w)
            None (extended (as_sent caps w))) (data c) = plain_command (security_level s) c (data c))
    as Hplain.
  { unfold plain_command. assert (security_level p' = security_level s) as ->.
    { rewrite <- Hlevel. apply Hsync'. }
    rewrite Hw. cbn [cla ins p1 p2]. destruct (security_level s =? 0) eqn:El; [done|].
    unfold scp_transmittable, protectable, is_byte in Hc. bool_to_prop.
    f_equal. apply normalized_cla; [done|]. destruct (is_ok _); done || lia. }
  rewrite Hplain, Happ in Hserve. destruct (Hserve Hst) as (wr & Hh & Hun & Hwst & Hwl).
  exists s', p'. split_and!; [|done|done|done].
  pose proof (transmit_card profile Hp w (mkCard None None (p, a))) as Ht.
  assert (request (as_sent (card_caps profile) w) (data w)
          = mkCommandApdu (cla w) (ins w) (p1 w) (p2 w) (data w) None (extended (as_sent caps w)))
    as Hreq by done.
  rewrite Hreq in Ht. cbn [card_handler card_app profile] in Ht. rewrite Hh in Ht.
  unfold the_card in Ht.
  unfold Scp03Session_transmit, Scp03Session_exchange, sbind, sm_fst, sm_snd, sm_gets, sm_lift.
  cbn [fst snd]. rewrite Hprotect. cbn [fst snd]. rewrite Ht; [by cbn; rewrite Hun|done| | |done].
  - unfold response_final in *. by rewrite Hwst.
  - unfold response_fits. cbn [card_block profile]. lia.
Qed.
End card.

(** ** IVs *)

Lemma head_be_bytes w n :
  head (be_bytes (S w) n) = Some (n / 256 ^ Z.of_nat w mod 256).
Proof.
  revert n. induction w as [|w IH]; intros n.
  - cbn. by rewrite Z.div_1_r.
  - change (be_bytes (S (S w)) n) with (be_bytes (S w) (n / 256) ++ [n mod 256]).
    rewrite head_app, IH, Z.div_div by lia. cbn [from_option]. do 3 f_equal.
    rewrite Nat2Z.inj_succ, Z.pow_succ_r by lia. lia.
Qed.

Lemma iv_block_inj c c' r r' :
  0 ≤ c < 2 ^ 127 → 0 ≤ c' < 2 ^ 127 → iv_block c r = iv_block c' r' → c = c' ∧ r = r'.
Proof.
  intros Hc Hc'. unfold iv_block.
  pose proof (head_be_bytes 15 c) as Hh. pose proof (head_be_bytes 15 c') as Hh'.
  change (S 15) with 16%nat in *.
  destruct (be_bytes 16 c) as [|b rest] eqn:E; [done|].
  destruct (be_bytes 16 c') as [|b' rest'] eqn:E'; [done|]. cbn in Hh, Hh'.
  assert (∀ x, 0 ≤ x < 2 ^ 127 → 0 ≤ x / 256 ^ 15 < 128) as Hsmall.
  { intros x Hx. split; [apply Z.div_pos; lia|apply Z.div_lt_upper_bound; lia]. }
  assert (0 ≤ b < 128) as Hb.
  { injection Hh as ->. rewrite Z.mod_small; [by apply Hsmall|pose proof (Hsmall c Hc); lia]. }
  assert (0 ≤ b' < 128) as Hb'.
  { injection Hh' as ->. rewrite Z.mod_small; [by apply Hsmall|pose proof (Hsmall c' Hc'); lia]. }
  assert (∀ x, 0 ≤ x < 128 → Z.lor x 0x80 = x + 128) as Hor.
  { intros x Hx. pose proof (byte_forall (λ b, (128 <=? b) || (Z.lor b 0x80 =? b + 128)) eq_refl x).
    cbv beta in *. lia. }
  intros Eq. assert (r = r' ∧ b = b' ∧ rest = rest') as (-> & -> & ->).
  { destruct r, r'; rewrite ?Hor in Eq by done; injection Eq; intros; subst; split_and!; lia || done. }
  split; [|done]. apply (be_bytes_inj 16); [lia|lia|]. by rewrite E, E'.
Qed.

Section ivs.
Context `{SoftwareKeyCore}.

(** [protect_command] moves the counter by one or, when it fails before using an
    IV, not at all. *)
Lemma protect_command_counter c s :
  let '(r, s') := protect_command c s in
  encryption_counter s ≤ encryption_counter s' ≤ encryption_counter s + 1 ∧
  (is_ok r = true → encryption_counter s' = encryption_counter s + 1).
Proof.
  unfold protect_command, sbind, sm_get, sm_lift, guard_err, sm_modify, sm_ret.
  repeat (case_match; cbn in *; simplify_eq; try (split; [lia|done])).
Qed.

(** The counter blocks a run of commands turns into IVs, for the commands that
    were sent and their responses. *)
Fixpoint iv_blocks (commands : list CommandApdu) (s : Scp03Session) : list (list Z) :=
  match commands with
  | [] => []
  | c :: commands' =>
      let '(r, s') := protect_command c s in
      if is_ok r then
        iv_block (encryption_counter s') false :: iv_block (encryption_counter s') true
        :: iv_blocks commands' s'
      else iv_blocks commands' s'
  end.

Lemma iv_blocks_range commands s b :
  b ∈ iv_blocks commands s →
  ∃ n r, b = iv_block n r ∧ encryption_counter s < n ≤ encryption_counter s + len commands.
Proof.
  revert s. induction commands as [|c commands IH]; intros s; cbn [iv_blocks].
  { intros Hb. by apply elem_of_nil in Hb. }
  pose proof (protect_command_counter c s) as Hc.
  destruct (protect_command c s) as [r s']. rewrite len_cons. pose proof (len_nonneg commands).
  destruct Hc as [Hc Hok]. intros Hb.
  assert (b ∈ iv_blocks commands s' ∨ is_ok r = true ∧ ∃ d, b = iv_block (encryption_counter s') d)
    as [Hin|(Hr & d & ->)].
  { destruct (is_ok r); [|by left]. apply elem_of_cons in Hb as [->|Hb]; [eauto|].
    apply elem_of_cons in Hb as [->|Hb]; eauto. }
  - destruct (IH s' Hin) as (n & d & -> & Hn). exists n, d. split; [done|lia].
  - exists (encryption_counter s'), d. split; [done|]. specialize (Hok Hr). lia.
Qed.
End ivs.

(** ** The handshake *)

Section handshake.
Context `{SoftwareKeyCore} `{Connector D} `{StaticKeys K}.

Lemma from_initialize_update_ok level challenge update cryptogram (keys keys' : K) session host :
  from_initialize_update level challenge update cryptogram keys = (Ok (session, host), keys') →
  scp03_kdf (s_mac session) DERIVATION_CARD_CRYPTOGRAM (challenge ++ card_challenge update) 64
    = Ok cryptogram ∧
  scp03_kdf (s_mac session) DERIVATION_HOST_CRYPTOGRAM (challenge ++ card_challenge update) 64
    = Ok host ∧
  mac_chaining_value session = replicate 16 0 ∧ encryption_counter session = 0 ∧
  security_level session = level.
Proof using Type.
  unfold from_initialize_update. intros E. sm_inv E.
  unfold sm_ret in E. injection E as <- <- <-. unfold sm_lift, guard_err in *. cbn.
  destruct (bool_decide (a6 = cryptogram)) eqn:Eq; [|done]. apply bool_decide_eq_true in Eq as ->.
  repeat match goal with Hx : (_, _) = (Ok _, _) |- _ => injection Hx as ? ? end. by subst.
Qed.

Lemma establish_using_ok kv kid level challenge aid resolve (d d' : D) session :
  establish_using (K := K) kv kid level challenge aid resolve d = (Ok session, d') →
  ∃ r d1 update,
    raw_transmit (mkCommandApdu 0x80 0x50 kv kid challenge (Some 256) false) d = (Ok r, d1) ∧
    status r = RESPONSE_OK ∧ InitializeUpdate_parse (rdata r) = Ok update ∧ scp_id update = 3 ∧
    (kv = 0 ∨ iu_key_version update = kv) ∧
    is_ok (validate_card_capabilities (implementation update) level) = true ∧
    scp03_kdf (s_mac session) DERIVATION_CARD_CRYPTOGRAM (challenge ++ card_challenge update) 64
      = Ok (slice 21 29 (rdata r)) ∧
    encryption_counter session = 0 ∧ security_level session = level ∧
    ∃ host mac answer, 
      scp03_kdf (s_mac session) DERIVATION_HOST_CRYPTOGRAM (challenge ++ card_challenge update) 64
        = Ok host ∧ mac_chaining_value session = mac ∧
      raw_transmit (mkCommandApdu 0x84 0x82 level 0 (host ++ ztake MAC_LENGTH mac) None false) d1
        = (Ok answer, d') ∧ status answer = RESPONSE_OK.
Proof using Type.
  unfold establish_using. intros E.
  apply sm_bind_Ok in E as (u0 & d0 & E0 & E). unfold sm_lift in E0. injection E0 as Elevel <-.
  apply sm_bind_Ok in E as (r & d1 & Er & E).
  apply sm_bind_Ok in E as (r' & d1' & Es & E). unfold sm_lift in Es. injection Es as Es <-.
  unfold require_success in Es. destruct (status r =? RESPONSE_OK) eqn:Est; [|done].
  injection Es as <-. apply Z.eqb_eq in Est.
  apply sm_bind_Ok in E as (update & d1' & Eu & E). unfold sm_lift in Eu. injection Eu as Eu <-.
  apply sm_bind_Ok in E as (u1 & d1' & Eg & E). unfold guard_err in Eg.
  destruct (negb (scp_id update =? 3) || _) eqn:Eid; [done|]. injection Eg as _ <-.
  apply sm_bind_Ok in E as (u2 & d1' & Ecap & E). unfold sm_lift in Ecap. injection Ecap as Ecap <-.
  apply sm_bind_Ok in E as (keys & d1' & Ek & E). unfold sm_lift in Ek. injection Ek as Ek <-.
  apply sm_bind_Ok in E as ([[s0 host] dek] & d1' & Ef & E). unfold sm_lift in Ef.
  injection Ef as Ef <-. rewrite (surjective_pairing (sbind _ _ keys)) in Ef. cbn [fst] in Ef.
  destruct (sbind _ _ keys) as [res keys'] eqn:Erun. cbn [fst] in Ef. subst res.
  apply sm_bind_Ok in Erun as (u3 & k1 & Ech & Erun).
  apply sm_bind_Ok in Erun as (est & k2 & Eest & Erun).
  apply sm_bind_Ok in Erun as (dek' & k3 & Edek & Erun). unfold sm_ret in Erun.
  injection Erun as -> -> _.
  apply from_initialize_update_ok in Eest as (Hcard & Hhost & Hchain & Hcount & Hlev).
  unfold external_authenticate, sbind, guard_err, sm_get, sm_lift, sm_modify, sm_ret in E.
  destruct (negb (len host =? MAC_LENGTH)); [done|].
  destruct (aes_cmac _ _) as [mac| |] eqn:Emac; [|done..].
  cbn [set_static_dek security_level] in E.
  destruct (raw_transmit _ d1) as [[answer| |] d2] eqn:Ea; [|done..].
  unfold require_success in E. destruct (status answer =? RESPONSE_OK) eqn:Eas; [|done].
  injection E as <- <-. apply Z.eqb_eq in Eas. rewrite Hlev in Ea.
  exists r, d1, update. cbn. split_and!; try done.
  - apply orb_false_iff in Eid as [Eid _]. lia.
  - apply orb_false_iff in Eid as [_ Eid]. lia.
  - by rewrite Ecap.
  - exists host, mac, answer. split_and!; done.
Qed.
End handshake.

(** ** Properties *)


Definition sample_session (level : Z) : Scp03Session :=
  mkScp03Session (replicate 16 1) (replicate 16 2) (replicate 16 3) None true (replicate 16 0) 0 level.
Definition echo_app (log : list CommandApdu) (c : CommandApdu) : ResponseApdu * list CommandApdu :=
  (mkResponseApdu (data c) 0x9000, log ++ [c]).
Definition sample_apdu : CommandApdu := mkCommandApdu 0x80 0xda 1 2 (replicate 300 9) (Some 256) false.




(** C27: At a security level with response MACs, [unprotect_response] never
    returns data the peer did not authenticate: a successful response with data,
    or with a status that is protected, carries the MAC of the session's chaining
    value, the ciphertext and the status, and the data is the decryption of that
    ciphertext. *)
Theorem scp03_response_authentic `{SoftwareKeyCore} s response r :
  has_flag (security_level s) SECURITY_R_MAC = true →
  unprotect_response s response = Ok r →
  (protected_status (status response) = false ∧ r = response ∧ rdata r = []) ∨
  (∃ body mac, rdata response = body ++ ztake MAC_LENGTH mac ∧
     aes_cmac (s_rmac s) (mac_chaining_value s ++ body ++ be16 (status response)) = Ok mac ∧
     decrypt_response_data s body = Ok (rdata r) ∧ status r = status response).
Proof.
  intros Hf. unfold unprotect_response, check_response_mac. rewrite Hf.
  destruct (protected_status (status response)) eqn:Ep; cbn [negb].
  - intros E. right. apply bind_Ok in E as (body & Eb & E). apply bind_Ok in E as (dat & Ed & E).
    injection E as <-. case_if; [done|]. apply bind_Ok in Eb as (mac & Em & Eb).
    case_if; [|done]. injection Eb as <-. bool_to_prop.
    exists (ztake (len (rdata response) - MAC_LENGTH) (rdata response)), mac.
    split_and!; [|done..]. rewrite Heqb0. by rewrite ztake_zdrop.
  - destruct (len (rdata response) =? 0) eqn:E; [|done]. intros [= <-]. left.
    bool_to_prop. apply len_zero_iff in E. done.
Qed.

Lemma scp03_response_authentic_witness :
  ∃ response r, unprotect_response (sample_session 0x33) response = Ok r ∧ rdata r = [1; 2; 3] ∧
    ((protected_status (status response) = false ∧ r = response ∧ rdata r = []) ∨
     (∃ body mac, rdata response = body ++ ztake MAC_LENGTH mac ∧
        aes_cmac (s_rmac (sample_session 0x33))
          (mac_chaining_value (sample_session 0x33) ++ body ++ be16 (status response)) = Ok mac ∧
        decrypt_response_data (sample_session 0x33) body = Ok (rdata r) ∧
        status r = status response)).
Proof.
  pose (w := card_wrap (sample_session 0x33) (mkResponseApdu [1; 2; 3] 0x9000)).
  assert (∃ response, w = Ok response) as [response Ew] by (eexists; vm_compute; reflexivity).
  exists response, (mkResponseApdu [1; 2; 3] 0x9000).
  vm_compute in Ew. injection Ew as <-. split; [vm_compute; reflexivity|]. split; [done|].
  apply (scp03_response_authentic (sample_session 0x33)); vm_compute; reflexivity.
Defined.

(** C28: [establish_using] returns a session only after mutual authentication: the
    card answered INITIALIZE UPDATE for SCP03 with the requested key version and
    enough capabilities, its cryptogram is the one the new session's MAC key
    gives for both challenges, the host's cryptogram was sent under the chaining
    value the session starts from, and the card accepted it. *)
Theorem scp03_handshake_authenticated `{SoftwareKeyCore} `{Connector D} `{StaticKeys K}
    kv kid level challenge aid resolve (d d' : D) session :
  establish_using (K := K) kv kid level challenge aid resolve d = (Ok session, d') →
  ∃ r d1 update,
    raw_transmit (mkCommandApdu 0x80 0x50 kv kid challenge (Some 256) false) d = (Ok r, d1) ∧
    status r = RESPONSE_OK ∧ InitializeUpdate_parse (rdata r) = Ok update ∧ scp_id update = 3 ∧
    (kv = 0 ∨ iu_key_version update = kv) ∧
    is_ok (validate_card_capabilities (implementation update) level) = true ∧
    scp03_kdf (s_mac session) DERIVATION_CARD_CRYPTOGRAM (challenge ++ card_challenge update) 64
      = Ok (slice 21 29 (rdata r)) ∧
    encryption_counter session = 0 ∧ security_level session = level ∧
    ∃ host mac answer, 
      scp03_kdf (s_mac session) DERIVATION_HOST_CRYPTOGRAM (challenge ++ card_challenge update) 64
        = Ok host ∧ mac_chaining_value session = mac ∧
      raw_transmit (mkCommandApdu 0x84 0x82 level 0 (host ++ ztake MAC_LENGTH mac) None false) d1
        = (Ok answer, d') ∧ status answer = RESPONSE_OK.
Proof. apply establish_using_ok. Qed.

#[local] Instance sample_keys : StaticKeys (list Z * list Z) := {
  keys_derive enc constant context length k :=
    (scp03_kdf (if enc then k.1 else k.2) constant context (8 * length), k);
  keys_enc_length k := Ok (len k.1);
  keys_mac_length k := Ok (len k.2);
  keys_take_dek k := (Ok None, k);
}.

(** A device that plays back its answers. *)
#[local] Instance scripted : Connector (list (list Z)) := {
  send _ d := match d with answer :: rest => (Ok answer, rest) | [] => (Err #CKR_DEVICE_ERROR, []) end;
  apdu_capabilities _ := EXTENDED;
  firmware _ := (5, 7);
}.

Definition unwrap_bytes (r : outcome Error (list Z)) : list Z :=
  match r with Ok l => l | _ => [] end.
Definition sample_script : list (list Z) :=
  let context := replicate 8 0x11 ++ replicate 8 0x22 in
  let s_mac := unwrap_bytes (scp03_kdf (replicate 16 2) DERIVATION_S_MAC context 128) in
  [replicate 10 0 ++ [0xff; 3; 0x60] ++ replicate 8 0x22
     ++ unwrap_bytes (scp03_kdf s_mac DERIVATION_CARD_CRYPTOGRAM context 64) ++ [0x90; 0x00];
   [0x90; 0x00]].
Definition sample_handshake :=
  establish_using 0xff 0 0x33 (replicate 8 0x11) [] (λ _, Ok (replicate 16 1, replicate 16 2))
    sample_script.

Lemma scp03_handshake_authenticated_witness :
  ∃ session, sample_handshake = (Ok session, []) ∧ encryption_counter session = 0 ∧
    security_level session = 0x33.
Proof.
  assert (∃ session, sample_handshake = (Ok session, [])) as [session E]
    by (eexists; vm_compute; reflexivity).
  exists session. split; [exact E|].
  apply (scp03_handshake_authenticated 0xff 0 0x33 (replicate 8 0x11) []
           (λ _, Ok (replicate 16 1, replicate 16 2)) sample_script [] session) in E
    as (r & d1 & update & _ & _ & _ & _ & _ & _ & _ & Hc & Hl & _).
  exact (conj Hc Hl).
Defined.
