(* ===== verification/CtapHid.v ===== *)
(** * CtapHid: the CTAPHID transport

    Models [src/src/ctap_hid.rs]: fragmentation of a message into 64-byte HID
    reports, reassembly with sequence checks, keepalives and foreign channels,
    channel initialisation, and [CtapHidTransport] with its one recovery from a
    lost channel.

    The HID device is the class [HidReportIo]; its clock stands for
    [Instant::now]. [read_message] loops until a deadline, so the model's loops
    carry as fuel the ticks left; [HidReportIoLaws] says that a read takes at
    least one tick, and [read_initial_enough] and [read_continuations_enough]
    show that more fuel never changes the result. *)
From S2P Require Import Prelude Errors.

Definition HID_REPORT_SIZE : Z := 64.
Definition INITIAL_DATA_SIZE : Z := HID_REPORT_SIZE - 7.
Definition CONTINUATION_DATA_SIZE : Z := HID_REPORT_SIZE - 5.
Definition MAX_CONTINUATIONS : Z := 128.
Definition MAX_MESSAGE_SIZE : Z :=
  INITIAL_DATA_SIZE + MAX_CONTINUATIONS * CONTINUATION_DATA_SIZE.
Definition BROADCAST_CHANNEL : Z := 0xffffffff.
(** In milliseconds, the tick of the model's clock. *)
Definition TRANSACTION_TIMEOUT : Z := 60000.
Definition CTAPHID_INIT : Z := 0x06.
Definition CTAPHID_CBOR : Z := 0x10.
Definition CTAPHID_KEEPALIVE : Z := 0x3b.
Definition CTAPHID_ERROR : Z := 0x3f.
Definition CAPABILITY_CBOR : Z := 0x04.
Definition ERR_INVALID_CHANNEL : Z := 0x0b.
Definition KEEPALIVE_PROCESSING : Z := 0x01.
Definition KEEPALIVE_UP_NEEDED : Z := 0x02.

(** A packet is the 64 bytes of a HID report. *)
Class HidReportIo (HIO : Type) : Type := {
  write_packet : list Z → SM HIO Error unit;
  read_packet : Z → SM HIO Error (list Z);
  clock : HIO → Z;
}.

Class HidReportIoLaws (HIO : Type) `{HidReportIo HIO} : Prop := {
  read_packet_size timeout io p io' :
    read_packet timeout io = (Ok p, io') → len p = HID_REPORT_SIZE;
  read_packet_ticks timeout io : clock io < clock (read_packet timeout io).2;
}.

Record CtapHidInit : Type := mkCtapHidInit {
  channel : Z;
  protocol_version : Z;
  firmware_version : Z * Z * Z;
  capabilities : Z;
}.

Definition supports_cbor (init : CtapHidInit) : bool :=
  has_flag (capabilities init) CAPABILITY_CBOR.

Inductive ExchangeError : Type :=
| InvalidChannel
| Other (e : Error).

Definition into_error (e : ExchangeError) : Error :=
  match e with
  | InvalidChannel => #CKR_DEVICE_ERROR
  | Other error => error
  end.

(** [[0u8; 64]] with a prefix written over it. *)
Definition report (prefix : list Z) : list Z :=
  prefix ++ replicate (Z.to_nat (HID_REPORT_SIZE - len prefix)) 0.

(** The [for] loop of [packetize]; the sequence number is a [u8] below 0x80. *)
Fixpoint continuation_packets (ch : Z) (sequence : Z) (parts : list (list Z))
  : outcome Error (list (list Z)) :=
  match parts with
  | [] => Ok []
  | chunk :: rest =>
      if (255 <? sequence) || has_flag sequence 0x80 then Err #CKR_ARGUMENTS_BAD
      else
        let? packets := continuation_packets ch (sequence + 1) rest in
        Ok (report (be32 ch ++ [sequence] ++ chunk) :: packets)
  end.

Definition packetize (ch command : Z) (payload : list Z) : outcome Error (list (list Z)) :=
  if has_flag command 0x80 || (MAX_MESSAGE_SIZE <? len payload) then Err #CKR_ARGUMENTS_BAD
  else if 65535 <? len payload then Err #CKR_ARGUMENTS_BAD
  else
    let initial_length := Z.min (len payload) INITIAL_DATA_SIZE in
    let initial := report (be32 ch ++ [Z.lor command 0x80] ++ be16 (len payload)
                           ++ ztake initial_length payload) in
    let? packets := continuation_packets ch 0 (chunks 59 (zdrop initial_length payload)) in
    Ok (initial :: packets).

Section io.
Context `{HidReportIo HIO}.

Fixpoint write_packets (packets : list (list Z)) : SM HIO Error unit :=
  match packets with
  | [] => sm_ret tt
  | p :: rest => write_packet p ;! write_packets rest
  end.

Definition write_message (ch command : Z) (payload : list Z) : SM HIO Error unit :=
  let! packets := sm_lift (packetize ch command payload) in
  write_packets packets.

Definition read_packet_until (deadline : Z) : SM HIO Error (list Z) :=
  let! io := sm_get in
  if deadline <? clock io then sm_err #CKR_DEVICE_ERROR
  else read_packet (deadline - clock io).

(** Out of ticks: the next [read_packet_until] would fail this way. *)
Definition deadline_passed {A} : SM HIO ExchangeError A := sm_err (Other #CKR_DEVICE_ERROR).

(** The [while response.len() < length] loop of [read_message]. *)
Fixpoint read_continuations (ticks : nat) (deadline ch length : Z)
    (response : list Z) (sequence : Z) : SM HIO ExchangeError (list Z) :=
  if len response <? length then
    match ticks with
    | O => deadline_passed
    | S ticks' =>
        let! continuation := sm_map_err Other (read_packet_until deadline) in
        if negb (of_be32 continuation =? ch) then
          read_continuations ticks' deadline ch length response sequence
        else if negb (at_ continuation 4 =? sequence) then sm_err (Other #CKR_DEVICE_ERROR)
        else
          let remaining := length - len response in
          let chunk_length := Z.min remaining CONTINUATION_DATA_SIZE in
          let response := response ++ slice 5 (5 + chunk_length) continuation in
          if 255 <=? sequence then sm_err (Other #CKR_DEVICE_ERROR)
          else read_continuations ticks' deadline ch length response (sequence + 1)
    end
  else sm_ret response.

(** The [loop] of [read_message]. *)
Fixpoint read_initial (ticks : nat) (deadline ch expected_command : Z)
  : SM HIO ExchangeError (list Z) :=
  match ticks with
  | O => deadline_passed
  | S ticks' =>
      let! packet := sm_map_err Other (read_packet_until deadline) in
      if negb (of_be32 packet =? ch) then read_initial ticks' deadline ch expected_command
      else if negb (has_flag (at_ packet 4) 0x80) then sm_err (Other #CKR_DEVICE_ERROR)
      else
        let command := Z.land (at_ packet 4) 0x7f in
        let length := of_be16 (at_ packet 5) (at_ packet 6) in
        if MAX_MESSAGE_SIZE <? length then sm_err (Other #CKR_DEVICE_ERROR)
        else if command =? CTAPHID_KEEPALIVE then
          if negb (length =? 1)
             || negb ((at_ packet 7 =? KEEPALIVE_PROCESSING) || (at_ packet 7 =? KEEPALIVE_UP_NEEDED))
          then sm_err (Other #CKR_DEVICE_ERROR)
          else read_initial ticks' deadline ch expected_command
        else if command =? CTAPHID_ERROR then
          if (length =? 1) && (at_ packet 7 =? ERR_INVALID_CHANNEL) then sm_err InvalidChannel
          else sm_err (Other #CKR_DEVICE_ERROR)
        else if negb (command =? expected_command) then sm_err (Other #CKR_DEVICE_ERROR)
        else
          let initial_length := Z.min length INITIAL_DATA_SIZE in
          read_continuations ticks' deadline ch length (slice 7 (7 + initial_length) packet) 0
  end.

Definition ticks_until (deadline : Z) (io : HIO) : nat := Z.to_nat (deadline - clock io + 1).

Definition read_message (ch expected_command timeout : Z) : SM HIO ExchangeError (list Z) :=
  λ io, let deadline := clock io + timeout in
        read_initial (ticks_until deadline io) deadline ch expected_command io.

Definition exchange (ch command : Z) (payload : list Z) (timeout : Z)
  : SM HIO ExchangeError (list Z) :=
  sm_map_err Other (write_message ch command payload) ;!
  read_message ch command timeout.

Definition initialize_channel (nonce : list Z) : SM HIO Error CtapHidInit :=
  let! response :=
    sm_map_err into_error (exchange BROADCAST_CHANNEL CTAPHID_INIT nonce TRANSACTION_TIMEOUT) in
  guard_err ((len response <? 17) || negb (bool_decide (ztake 8 response = nonce)))
    #CKR_DEVICE_ERROR ;!
  let ch := of_be32 (slice 8 12 response) in
  guard_err ((ch =? 0) || (ch =? BROADCAST_CHANNEL)) #CKR_DEVICE_ERROR ;!
  sm_ret (mkCtapHidInit ch (at_ response 12)
            (at_ response 13, at_ response 14, at_ response 15) (at_ response 16)).

(** ** The transport *)

(** [CtapHidTransport]'s state: [io] and [init] are dropped together with the
    device when an exchange fails. *)
Record CtapHidState : Type := mkCtapHidState {
  hid_io : option HIO;
  hid_init : option CtapHidInit;
}.

Definition disconnected : CtapHidState := mkCtapHidState None None.

Definition connect_with_nonce (io : HIO) (nonce : list Z) : outcome Error (CtapHidState * CtapHidInit) :=
  match initialize_channel nonce io with
  | (Ok init, io') =>
      if negb (supports_cbor init) then Err #CKR_DEVICE_ERROR
      else Ok (mkCtapHidState (Some io') (Some init), init)
  | (Err e, _) => Err e
  | (Panic, _) => Panic
  end.

Definition reconnect_with_nonce (io : HIO) (nonce : list Z) : SM CtapHidState Error CtapHidInit :=
  let! '(state, init) := sm_lift (connect_with_nonce io nonce) in
  sm_modify (λ _, state) ;!
  sm_ret init.

Definition disconnect : SM CtapHidState Error unit := sm_modify (λ _, disconnected).

Definition is_connected (state : CtapHidState) : bool :=
  bool_decide (is_Some (hid_io state)) && bool_decide (is_Some (hid_init state)).

(** Run code on the open device, if there is one. *)
Definition with_io {E A} (missing : E) (c : HIO → CtapHidInit → outcome E A * HIO)
  : SM CtapHidState E A := λ state,
  match hid_init state, hid_io state with
  | Some init, Some io =>
      let '(r, io') := c io init in (r, mkCtapHidState (Some io') (Some init))
  | _, _ => (Err missing, state)
  end.

Definition CtapHidTransport_command (command : Z) (payload : list Z)
  : SM CtapHidState Error (list Z) :=
  with_io #CKR_DEVICE_REMOVED (λ io init,
    sm_map_err into_error (exchange (channel init) command payload TRANSACTION_TIMEOUT) io).

Definition transact_once (request : list Z) : SM CtapHidState ExchangeError (list Z) :=
  with_io (Other #CKR_DEVICE_REMOVED) (λ io init,
    exchange (channel init) CTAPHID_CBOR request TRANSACTION_TIMEOUT io).

(** [nonce] is what [getrandom::fill] gives. *)
Definition reinitialize (nonce : outcome Error (list Z)) : SM CtapHidState Error unit := λ state,
  match hid_io state with
  | None => (Err #CKR_DEVICE_REMOVED, state)
  | Some io =>
      match nonce with
      | Ok nonce =>
          let '(r, io') := initialize_channel nonce io in
          match r with
          | Ok init =>
              if negb (supports_cbor init)
              then (Err #CKR_DEVICE_ERROR, mkCtapHidState (Some io') (hid_init state))
              else (Ok tt, mkCtapHidState (Some io') (Some init))
          | Err e => (Err e, mkCtapHidState (Some io') (hid_init state))
          | Panic => (Panic, mkCtapHidState (Some io') (hid_init state))
          end
      | _ => (Err #CKR_DEVICE_ERROR, state)
      end
  end.

Definition CtapHidTransport_transact (nonce : outcome Error (list Z)) (request : list Z)
  : SM CtapHidState Error (list Z) := λ state,
  if (len request =? 0) || (MAX_MESSAGE_SIZE <? len request) then (Err #CKR_ARGUMENTS_BAD, state)
  else
    match transact_once request state with
    | (Ok response, state') => (Ok response, state')
    | (Err InvalidChannel, state') =>
        match reinitialize nonce state' with
        | (Ok _, state'') =>
            match transact_once request state'' with
            | (Ok response, state3) => (Ok response, state3)
            | (Err error, _) => (Err (into_error error), disconnected)
            | (Panic, state3) => (Panic, state3)
            end
        | (Err error, _) => (Err error, disconnected)
        | (Panic, state'') => (Panic, state'')
        end
    | (Err (Other error), _) => (Err error, disconnected)
    | (Panic, state') => (Panic, state')
    end.
End io.

(** ** Fragmentation *)

(** The continuation packets of a message, without the sequence check. *)
Fixpoint continuation_reports (ch sequence : Z) (parts : list (list Z)) : list (list Z) :=
  match parts with
  | [] => []
  | chunk :: rest =>
      report (be32 ch ++ [sequence] ++ chunk) :: continuation_reports ch (sequence + 1) rest
  end.

Definition initial_report (ch command : Z) (payload : list Z) : list Z :=
  report (be32 ch ++ [Z.lor command 0x80] ++ be16 (len payload)
          ++ ztake (Z.min (len payload) INITIAL_DATA_SIZE) payload).

Definition message_reports (ch command : Z) (payload : list Z) : list (list Z) :=
  initial_report ch command payload
  :: continuation_reports ch 0 (chunks 59 (zdrop (Z.min (len payload) INITIAL_DATA_SIZE) payload)).

Lemma sequence_below_128 n : 0 ≤ n < 128 → (255 <? n) || has_flag n 0x80 = false.
Proof.
  intros Hn. pose proof (byte_forall (λ b, (128 <=? b) || negb (has_flag b 0x80)) eq_refl n) as H.
  cbv beta in H. destruct (has_flag n 128); lia.
Qed.

Lemma continuation_packets_ok ch sequence parts :
  0 ≤ sequence → sequence + len parts ≤ 128 →
  continuation_packets ch sequence parts = Ok (continuation_reports ch sequence parts).
Proof.
  revert sequence. induction parts as [|chunk parts IH]; intros sequence H0 Hlen; [done|].
  cbn [continuation_packets continuation_reports]. rewrite len_cons in Hlen.
  pose proof (len_nonneg parts).
  rewrite sequence_below_128 by lia. by rewrite IH by lia.
Qed.

(** The parts of a message that follow the initial packet, and how many. *)
Lemma continuation_count (payload : list Z) :
  len payload ≤ MAX_MESSAGE_SIZE →
  len (chunks 59 (zdrop (Z.min (len payload) INITIAL_DATA_SIZE) payload)) ≤ MAX_CONTINUATIONS.
Proof.
  unfold MAX_MESSAGE_SIZE, INITIAL_DATA_SIZE, MAX_CONTINUATIONS, CONTINUATION_DATA_SIZE,
    HID_REPORT_SIZE. intros Hl. pose proof (len_nonneg payload).
  unfold len at 1. rewrite length_chunks by lia. rewrite len_zdrop by lia.
  unfold div_ceil. apply Z.lt_succ_r, Z.div_lt_upper_bound; lia.
Qed.

Lemma packetize_ok ch command payload :
  has_flag command 0x80 = false → len payload ≤ MAX_MESSAGE_SIZE →
  packetize ch command payload = Ok (message_reports ch command payload).
Proof.
  intros Hc Hl. pose proof (continuation_count payload Hl) as Hn.
  unfold packetize. rewrite Hc. cbn [orb]. test_false (MAX_MESSAGE_SIZE <? len payload).
  change MAX_MESSAGE_SIZE with 7609 in Hl. test_false (65535 <? len payload).
  change MAX_CONTINUATIONS with 128 in Hn. by rewrite continuation_packets_ok by lia.
Qed.

Section reports.

Lemma len_be32 n : len (be32 n) = 4.
Proof. done. Qed.

Lemma report_channel ch rest : 0 ≤ ch < 2 ^ 32 → of_be32 (report (be32 ch ++ rest)) = ch.
Proof. intros Hc. unfold report. rewrite <- app_assoc. by apply of_be32_be32. Qed.

Lemma report_size prefix : len prefix ≤ 64 → len (report prefix) = 64.
Proof.
  intros Hl. unfold report, HID_REPORT_SIZE. rewrite len_app, len_replicate.
  pose proof (len_nonneg prefix). lia.
Qed.

Lemma report_at ch x rest : at_ (report (be32 ch ++ x :: rest)) 4 = x.
Proof. done. Qed.

Lemma continuation_slice ch sequence chunk :
  slice 5 (5 + len chunk) (report (be32 ch ++ [sequence] ++ chunk)) = chunk.
Proof.
  unfold report. rewrite !app_assoc. rewrite <- app_assoc.
  change 5 with (len (be32 ch ++ [sequence])). 
  unfold slice. rewrite zdrop_app_len.
  replace (len (be32 ch ++ [sequence]) + len chunk - len (be32 ch ++ [sequence])) with (len chunk) by lia.
  apply ztake_app_len.
Qed.

Lemma initial_channel ch command payload :
  0 ≤ ch < 2 ^ 32 → of_be32 (initial_report ch command payload) = ch.
Proof. apply report_channel. Qed.

Lemma initial_fields ch command payload :
  let p := initial_report ch command payload in
  at_ p 4 = Z.lor command 0x80 ∧ of_be16 (at_ p 5) (at_ p 6) = len payload ∧
  slice 7 (7 + Z.min (len payload) INITIAL_DATA_SIZE) p
    = ztake (Z.min (len payload) INITIAL_DATA_SIZE) payload.
Proof.
  intros p. split; [done|]. split; [apply of_be16_be16|].
  unfold p, initial_report, report. set (k := Z.min (len payload) INITIAL_DATA_SIZE).
  rewrite !app_assoc. rewrite <- app_assoc.
  set (head := (be32 ch ++ [Z.lor command 128]) ++ be16 (len payload)).
  change 7 with (len head). unfold slice. rewrite zdrop_app_len.
  pose proof (len_nonneg payload).
  assert (len (ztake k payload) = k) as Hk.
  { rewrite len_ztake; unfold k, INITIAL_DATA_SIZE, HID_REPORT_SIZE; lia. }
  replace (len head + k - len head) with (len (ztake k payload)) by lia.
  apply ztake_app_len.
Qed.
End reports.

(** ** A reference authenticator

    The device end of the protocol. It reassembles messages, answers INIT with a
    fresh channel, executes CBOR requests on its channel, and reports an invalid
    channel otherwise. [chatter] is the freedom the protocol leaves it between
    packets: keepalives before a response and packets of other channels. *)
Record HidDevice : Type := mkHidDevice {
  dev_channel : Z;
  (** the channel INIT hands out *)
  dev_next : Z;
  (** channel, command, length, data and sequence of a message being received *)
  dev_rx : option (Z * Z * Z * list Z * Z);
  dev_tx : list (list Z);
  dev_clock : Z;
  (** the requests executed *)
  dev_executed : list (list Z);
}.

Definition is_keepalive (ch : Z) (p : list Z) : bool :=
  (len p =? HID_REPORT_SIZE) && (of_be32 p =? ch) && has_flag (at_ p 4) 0x80
  && (Z.land (at_ p 4) 0x7f =? CTAPHID_KEEPALIVE) && (of_be16 (at_ p 5) (at_ p 6) =? 1)
  && ((at_ p 7 =? KEEPALIVE_PROCESSING) || (at_ p 7 =? KEEPALIVE_UP_NEEDED)).

(** [noisy ch start packets stream]: [stream] is [packets] with packets of other
    channels before any of them and, at the start of the message, keepalives. *)
Inductive noisy (ch : Z) : bool → list (list Z) → list (list Z) → Prop :=
| noisy_done : noisy ch false [] []
| noisy_foreign start q p ps stream :
    of_be32 q ≠ ch → len q = HID_REPORT_SIZE →
    noisy ch start (p :: ps) stream → noisy ch start (p :: ps) (q :: stream)
| noisy_keepalive q p ps stream :
    is_keepalive ch q = true →
    noisy ch true (p :: ps) stream → noisy ch true (p :: ps) (q :: stream)
| noisy_packet start p ps stream :
    noisy ch false ps stream → noisy ch start (p :: ps) (p :: stream).

Section device.
Context (handler : list Z → list Z) (chatter : Z → list (list Z) → list (list Z)).

Definition emit (ch command : Z) (payload : list Z) (dev : HidDevice) : HidDevice :=
  mkHidDevice (dev_channel dev) (dev_next dev) (dev_rx dev)
    (dev_tx dev ++ match packetize ch command payload with Ok ps => chatter ch ps | _ => [] end)
    (dev_clock dev) (dev_executed dev).

Definition set_rx rx (dev : HidDevice) : HidDevice :=
  mkHidDevice (dev_channel dev) (dev_next dev) rx (dev_tx dev) (dev_clock dev) (dev_executed dev).

Definition process (ch command : Z) (payload : list Z) (dev : HidDevice) : HidDevice :=
  if (ch =? BROADCAST_CHANNEL) && (command =? CTAPHID_INIT) then
    emit ch command (payload ++ be32 (dev_next dev) ++ [2; 5; 2; 4; CAPABILITY_CBOR])
      (mkHidDevice (dev_next dev) (dev_next dev) (dev_rx dev) (dev_tx dev) (dev_clock dev)
         (dev_executed dev))
  else if (ch =? dev_channel dev) && (command =? CTAPHID_CBOR) then
    emit ch command (handler payload)
      (mkHidDevice (dev_channel dev) (dev_next dev) (dev_rx dev) (dev_tx dev) (dev_clock dev)
         (dev_executed dev ++ [payload]))
  else emit ch CTAPHID_ERROR [ERR_INVALID_CHANNEL] dev.

Definition progress (ch command length : Z) (dat : list Z) (sequence : Z) (dev : HidDevice)
  : HidDevice :=
  if len dat <? length then set_rx (Some (ch, command, length, dat, sequence)) dev
  else process ch command dat (set_rx None dev).

Definition dev_write (p : list Z) (dev : HidDevice) : HidDevice :=
  let ch := of_be32 p in
  let b := at_ p 4 in
  if has_flag b 0x80 then
    let length := of_be16 (at_ p 5) (at_ p 6) in
    progress ch (Z.land b 0x7f) length (slice 7 (7 + Z.min length INITIAL_DATA_SIZE) p) 0 dev
  else
    match dev_rx dev with
    | Some (ch', command, length, dat, sequence) =>
        if (ch =? ch') && (b =? sequence) then
          let chunk := slice 5 (5 + Z.min (length - len dat) CONTINUATION_DATA_SIZE) p in
          progress ch command length (dat ++ chunk) (sequence + 1) dev
        else set_rx None dev
    | None => dev
    end.

#[local] Instance device_io : HidReportIo HidDevice := {
  write_packet p dev := (Ok tt, dev_write p dev);
  read_packet _ dev :=
    let tick tx := mkHidDevice (dev_channel dev) (dev_next dev) (dev_rx dev) tx
                     (dev_clock dev + 1) (dev_executed dev) in
    match dev_tx dev with
    | p :: rest => (Ok (report (take 64 p)), tick rest)
    | [] => (Err #CKR_DEVICE_ERROR, tick [])
    end;
  clock := dev_clock;
}.

(** The device keeps the laws of the interface. *)
#[local] Instance device_io_laws : HidReportIoLaws HidDevice.
Proof.
  split.
  - intros timeout dev p dev'. cbn. destruct (dev_tx dev) as [|q rest]; [done|].
    intros [= <- <-]. apply report_size. unfold len. rewrite length_take. lia.
  - intros timeout dev. cbn. destruct (dev_tx dev); cbn; lia.
Qed.

Definition after_reads (n : Z) (tx : list (list Z)) (dev : HidDevice) : HidDevice :=
  mkHidDevice (dev_channel dev) (dev_next dev) (dev_rx dev) tx (dev_clock dev + n)
    (dev_executed dev).

Lemma read_packet_until_dev deadline dev p tx :
  len p = HID_REPORT_SIZE → dev_clock dev ≤ deadline → dev_tx dev = p :: tx →
  read_packet_until deadline dev = (Ok p, after_reads 1 tx dev).
Proof.
  intros Hp Hd Htx. unfold read_packet_until, sbind, sm_get. cbn [clock device_io read_packet].
  test_false (deadline <? dev_clock dev). rewrite Htx. unfold after_reads. do 2 f_equal.
  unfold len, HID_REPORT_SIZE in Hp. rewrite take_ge by lia. unfold report, HID_REPORT_SIZE.
  unfold len. rewrite Hp. by rewrite app_nil_r.
Qed.

Lemma after_reads_twice n m tx tx' dev :
  after_reads m tx' (after_reads n tx dev) = after_reads (n + m) tx' dev.
Proof. unfold after_reads. cbn. f_equal. lia. Qed.

Lemma chunk_lengths (payload : list Z) :
  payload ≠ [] →
  len (take 59 payload) = Z.min (len payload) CONTINUATION_DATA_SIZE ∧
  len (drop 59 payload) = len payload - len (take 59 payload).
Proof.
  intros _. unfold len, CONTINUATION_DATA_SIZE, HID_REPORT_SIZE.
  rewrite length_take, length_drop. lia.
Qed.

Lemma read_continuations_noisy ticks deadline ch sequence payload response stream tail dev :
  0 ≤ ch < 2 ^ 32 → 0 ≤ sequence →
  sequence + len (chunks 59 payload) ≤ 128 →
  noisy ch false (continuation_reports ch sequence (chunks 59 payload)) stream →
  (length stream ≤ ticks)%nat → dev_clock dev + len stream ≤ deadline + 1 →
  dev_tx dev = stream ++ tail →
  read_continuations ticks deadline ch (len response + len payload) response sequence dev
  = (Ok (response ++ payload), after_reads (len stream) tail dev).
Proof.
  intros Hch. remember (continuation_reports ch sequence (chunks 59 payload)) as packets eqn:Hpk.
  remember false as start eqn:Hstart.
  intros Hseq Hcount Hnoisy. revert sequence payload response ticks dev Hseq Hcount Hpk.
  induction Hnoisy as [|start q p ps stream Hq Hql Hn IH|q p ps stream Hk Hn IH|start p ps stream Hn IH];
    intros sequence payload response ticks dev Hseq Hcount Hpk Hticks Hclock Htx; subst; try done.
  - assert (payload = []) as ->.
    { destruct payload as [|x l]; [done|]. by rewrite chunks_cons in Hpk by (lia || done). }
    unfold after_reads. rewrite len_nil in *. destruct ticks; cbn [read_continuations];
      rewrite !Z.add_0_r; test_false (len response <? len response); rewrite app_nil_r;
      unfold sm_ret; destruct dev; cbn in *; by subst.
  - rewrite len_cons in *. simpl in Hticks. destruct ticks as [|ticks]; [lia|].
    assert (0 < len payload).
    { destruct payload as [|x l]; [done|]. rewrite len_cons. pose proof (len_nonneg l). lia. }
    pose proof (len_nonneg stream).
    cbn [read_continuations]. test_true (len response <? len response + len payload).
    unfold sbind, sm_map_err. rewrite (read_packet_until_dev _ _ q (stream ++ tail)) by (done || lia).
    cbn [map_err]. test_false (of_be32 q =? ch). cbn [negb].
    rewrite IH; try done; [by rewrite after_reads_twice|lia|cbn; lia].
  - rewrite len_cons in *. simpl in Hticks. destruct ticks as [|ticks]; [lia|].
    destruct (decide (payload = [])) as [->|Hne]; [done|].
    destruct (chunk_lengths payload Hne) as [Htake Hdrop]. pose proof (len_nonneg stream).
    assert (0 < len payload).
    { pose proof (len_nonneg payload). rewrite <- len_zero_iff in Hne. lia. }
    rewrite chunks_cons in Hpk, Hcount by (lia || done). rewrite len_cons in Hcount.
    pose proof (len_nonneg (chunks 59 (drop 59 payload))).
    cbn [continuation_reports] in Hpk. injection Hpk as -> ->.
    set (chunk := take 59 payload) in *.
    assert (len (report (be32 ch ++ [sequence] ++ chunk)) = 64) as Hsize.
    { apply report_size. rewrite !len_app, len_be32.
      unfold CONTINUATION_DATA_SIZE, HID_REPORT_SIZE in *. change (len [sequence]) with 1. lia. }
    cbn [read_continuations]. test_true (len response <? len response + len payload).
    unfold sbind, sm_map_err. rewrite (read_packet_until_dev _ _ _ (stream ++ tail) Hsize) by (done || lia).
    cbn [map_err]. rewrite report_channel, Z.eqb_refl by done. cbn [negb app].
    rewrite report_at, Z.eqb_refl. cbn [negb].
    replace (len response + len payload - len response) with (len payload) by lia.
    rewrite <- Htake. change (be32 ch ++ sequence :: chunk) with (be32 ch ++ [sequence] ++ chunk).
    rewrite continuation_slice. test_false (255 <=? sequence).
    replace (len response + len payload) with (len (response ++ chunk) + len (drop 59 payload))
      by (rewrite len_app; lia).
    rewrite (IH eq_refl (sequence + 1) (drop 59 payload)); try done; [|lia|lia|lia|cbn; lia].
    rewrite after_reads_twice. unfold chunk. by rewrite <- app_assoc, take_drop.
Qed.

(** Keepalives and packets of other channels are skipped. *)
Lemma read_initial_skips ch p ps stream :
  noisy ch true (p :: ps) stream →
  ∃ pre stream', stream = pre ++ p :: stream' ∧ noisy ch false ps stream' ∧
    ∀ k deadline expected tail dev,
      dev_clock dev + len pre ≤ deadline → dev_tx dev = pre ++ p :: stream' ++ tail →
      read_initial (length pre + k) deadline ch expected dev
      = read_initial k deadline ch expected (after_reads (len pre) (p :: stream' ++ tail) dev).
Proof.
  remember true as start eqn:Hstart. remember (p :: ps) as packets eqn:Hpk.
  intros Hn. revert p ps Hpk.
  induction Hn as [|start q p' ps' stream Hq Hql Hn IH|q p' ps' stream Hk Hn IH|start p' ps' stream Hn IH];
    intros p ps Hpk; simplify_eq.
  - destruct (IH eq_refl p ps eq_refl) as (pre & stream' & -> & Hn' & Hread).
    exists (q :: pre), stream'. split_and!; [done..|].
    intros k deadline expected tail dev Hc Htx. rewrite len_cons in Hc. pose proof (len_nonneg pre).
    cbn [length Nat.add read_initial]. unfold sbind, sm_map_err.
    rewrite (read_packet_until_dev _ _ q (pre ++ p :: stream' ++ tail)) by (done || lia).
    cbn [map_err]. test_false (of_be32 q =? ch). cbn [negb].
    rewrite (Hread k deadline expected tail) by (done || cbn; lia).
    by rewrite after_reads_twice, len_cons.
  - destruct (IH eq_refl p ps eq_refl) as (pre & stream' & -> & Hn' & Hread).
    exists (q :: pre), stream'. split_and!; [done..|].
    intros k deadline expected tail dev Hc Htx. rewrite len_cons in Hc. pose proof (len_nonneg pre).
    unfold is_keepalive in Hk. apply andb_true_iff in Hk as [Hk Kbyte].
    apply andb_true_iff in Hk as [Hk Klen]. apply andb_true_iff in Hk as [Hk Kcmd].
    apply andb_true_iff in Hk as [Hk Kflag]. apply andb_true_iff in Hk as [Hk Kch].
    apply Z.eqb_eq in Hk, Klen. cbn [length Nat.add read_initial]. unfold sbind, sm_map_err.
    rewrite (read_packet_until_dev _ _ q (pre ++ p :: stream' ++ tail)) by (done || lia).
    cbn [map_err]. rewrite Kch, Kflag, Kcmd, Klen. cbn [negb].
    change (MAX_MESSAGE_SIZE <? 1) with false. rewrite Kbyte. cbn [Z.eqb Pos.eqb negb orb].
    rewrite (Hread k deadline expected tail) by (done || cbn; lia).
    by rewrite after_reads_twice, len_cons.
  - exists [], stream. split_and!; [done..|]. intros k deadline expected tail dev Hc Htx.
    cbn [length Nat.add app] in *. f_equal. unfold after_reads. rewrite len_nil, Z.add_0_r.
    destruct dev; cbn in *; by subst.
Qed.

Lemma command_byte command :
  0 ≤ command < 128 →
  has_flag command 0x80 = false ∧ has_flag (Z.lor command 0x80) 0x80 = true ∧
  Z.land (Z.lor command 0x80) 0x7f = command.
Proof.
  intros Hc.
  pose proof (byte_forall (λ b, (128 <=? b) || (negb (has_flag b 0x80) && has_flag (Z.lor b 0x80) 0x80
    && (Z.land (Z.lor b 0x80) 0x7f =? b))) eq_refl command) as H. cbv beta in H.
  replace (128 <=? command) with false in H by lia.
  cbn [orb] in H. specialize (H ltac:(lia)). bool_to_prop. done.
Qed.

Lemma initial_report_size ch command payload : len (initial_report ch command payload) = 64.
Proof.
  apply report_size. rewrite !len_app, len_be32, len_be16, len_ztake;
    unfold INITIAL_DATA_SIZE, HID_REPORT_SIZE; pose proof (len_nonneg payload); [|lia].
  change (len [Z.lor command 128]) with 1. lia.
Qed.

(** A message of the awaited command is returned whole. *)
Lemma read_initial_message ticks deadline ch command payload stream tail dev :
  0 ≤ ch < 2 ^ 32 → 0 ≤ command < 128 → command ≠ CTAPHID_KEEPALIVE → command ≠ CTAPHID_ERROR →
  len payload ≤ MAX_MESSAGE_SIZE → noisy ch true (message_reports ch command payload) stream →
  (length stream ≤ ticks)%nat → dev_clock dev + len stream ≤ deadline + 1 →
  dev_tx dev = stream ++ tail →
  read_initial ticks deadline ch command dev = (Ok payload, after_reads (len stream) tail dev).
Proof.
  intros Hch Hcmd Hka Herr Hlen Hn Ht Hc Htx.
  destruct (read_initial_skips _ _ _ _ Hn) as (pre & stream' & -> & Hn' & Hread).
  rewrite len_app, len_cons in Hc. pose proof (len_nonneg stream'). pose proof (len_nonneg pre).
  rewrite length_app in Ht. cbn [length] in Ht.
  replace ticks with (length pre + S (ticks - length pre - 1))%nat by lia.
  rewrite (Hread _ _ _ tail); [|lia|by rewrite Htx, <- app_assoc].
  set (dev1 := after_reads _ _ dev). cbn [read_initial]. unfold sbind, sm_map_err.
  rewrite (read_packet_until_dev _ dev1 (initial_report ch command payload) (stream' ++ tail));
    [|by apply initial_report_size|cbn; lia|done].
  cbn [map_err]. rewrite initial_channel, Z.eqb_refl by done. cbn [negb].
  destruct (initial_fields ch command payload) as (-> & -> & ->).
  destruct (command_byte command Hcmd) as (_ & -> & ->). cbn [negb].
  test_false (MAX_MESSAGE_SIZE <? len payload). test_false (command =? CTAPHID_KEEPALIVE).
  test_false (command =? CTAPHID_ERROR). rewrite Z.eqb_refl. cbn [negb].
  set (k := Z.min (len payload) INITIAL_DATA_SIZE) in *.
  assert (len payload = len (ztake k payload) + len (zdrop k payload)) as Hsplit.
  { rewrite <- len_app. by rewrite ztake_zdrop. }
  rewrite Hsplit at 1. pose proof (continuation_count payload Hlen) as Hcount.
  change MAX_CONTINUATIONS with 128 in Hcount.
  rewrite (read_continuations_noisy _ _ _ _ _ _ stream' tail); try done; [|lia..|cbn; lia].
  rewrite !after_reads_twice, ztake_zdrop. unfold dev1.
  by rewrite !after_reads_twice, len_app, len_cons, Z.add_assoc.
Qed.

(** An invalid-channel error is reported as such. *)
Lemma read_initial_invalid ticks deadline ch command stream tail dev :
  0 ≤ ch < 2 ^ 32 →
  noisy ch true (message_reports ch CTAPHID_ERROR [ERR_INVALID_CHANNEL]) stream →
  (length stream ≤ ticks)%nat → dev_clock dev + len stream ≤ deadline + 1 →
  dev_tx dev = stream ++ tail →
  read_initial ticks deadline ch command dev
  = (Err InvalidChannel, after_reads (len stream) tail dev).
Proof.
  intros Hch Hn Ht Hc Htx.
  destruct (read_initial_skips _ _ _ _ Hn) as (pre & stream' & -> & Hn' & Hread).
  assert (stream' = []) as -> by (by inversion Hn').
  rewrite len_app, len_cons, len_nil in *. pose proof (len_nonneg pre).
  rewrite length_app in Ht. cbn [length] in Ht.
  replace ticks with (length pre + S (ticks - length pre - 1))%nat by lia.
  rewrite (Hread _ _ _ tail); [|lia|by rewrite Htx, <- app_assoc].
  set (dev1 := after_reads _ _ dev). cbn [read_initial]. unfold sbind, sm_map_err.
  rewrite (read_packet_until_dev _ dev1 (initial_report ch CTAPHID_ERROR [ERR_INVALID_CHANNEL]) tail); [|by apply initial_report_size|cbn; lia|done].
  cbn [map_err]. rewrite initial_channel, Z.eqb_refl by done.
  unfold dev1. by rewrite after_reads_twice.
Qed.

(** *** Writing *)

Lemma write_continuations ch command sequence payload received dev :
  0 ≤ ch < 2 ^ 32 → 0 ≤ sequence → sequence + len (chunks 59 payload) ≤ 128 → payload ≠ [] →
  dev_rx dev = Some (ch, command, len received + len payload, received, sequence) →
  write_packets (continuation_reports ch sequence (chunks 59 payload)) dev
  = (Ok tt, process ch command (received ++ payload) (set_rx None dev)).
Proof.
  intros Hch. remember (length payload) as n eqn:Hn. revert sequence payload received dev Hn.
  induction n as [n IH] using (well_founded_induction lt_wf).
  intros sequence payload received dev -> Hseq Hcount Hne Hrx.
  destruct (chunk_lengths payload Hne) as [Htake Hdrop].
  rewrite chunks_cons in * by (lia || done). rewrite len_cons in Hcount.
  pose proof (len_nonneg (chunks 59 (drop 59 payload))).
  assert (0 < len payload) as Hpos.
  { pose proof (len_nonneg payload). rewrite <- len_zero_iff in Hne. lia. }
  set (chunk := take 59 payload) in *. cbn [continuation_reports write_packets].
  unfold sbind. cbn [write_packet device_io].
  assert (dev_write (report (be32 ch ++ [sequence] ++ chunk)) dev
          = progress ch command (len received + len payload) (received ++ chunk) (sequence + 1) dev)
    as ->.
  { unfold dev_write. rewrite report_channel by done. cbn [app]. rewrite report_at.
    pose proof (sequence_below_128 sequence ltac:(lia)) as Hs. apply orb_false_iff in Hs as [_ ->].
    rewrite Hrx, !Z.eqb_refl. cbn [andb].
    replace (len received + len payload - len received) with (len payload) by lia.
    rewrite <- Htake. change (be32 ch ++ sequence :: chunk) with (be32 ch ++ [sequence] ++ chunk).
    by rewrite continuation_slice. }
  unfold progress. rewrite len_app.
  destruct (decide (drop 59 payload = [])) as [Hd|Hd].
  - assert (chunk = payload) as ->.
    { unfold chunk. rewrite <- (take_drop 59 payload) at 2. by rewrite Hd, app_nil_r. }
    rewrite Hd. test_false (len received + len payload <? len received + len payload). done.
  - assert (0 < len (drop 59 payload)).
    { pose proof (len_nonneg (drop 59 payload)). rewrite <- len_zero_iff in Hd. lia. }
    test_true (len received + len chunk <? len received + len payload).
    assert (length (drop 59 payload) < length payload)%nat as Hlt
      by (rewrite length_drop; unfold len in Hpos; lia).
    rewrite (IH (length (drop 59 payload)) Hlt _ _ (received ++ chunk));
      [|done|lia|lia|done|].
    + rewrite <- app_assoc. unfold chunk. by rewrite take_drop.
    + cbn. rewrite len_app.
      by replace (len received + len chunk + len (drop 59 payload)) with (len received + len payload) by lia.
Qed.

(** The device processes a written message once it is complete. *)
Lemma write_message_dev ch command payload dev :
  0 ≤ ch < 2 ^ 32 → 0 ≤ command < 128 → len payload ≤ MAX_MESSAGE_SIZE →
  write_message ch command payload dev = (Ok tt, process ch command payload (set_rx None dev)).
Proof.
  intros Hch Hcmd Hlen. unfold write_message, sbind, sm_lift.
  destruct (command_byte command Hcmd) as (Hf & Hf' & Hland).
  rewrite packetize_ok by done. unfold message_reports. set (k := Z.min _ _) in *.
  cbn [write_packets]. unfold sbind. cbn [write_packet device_io].
  assert (dev_write (initial_report ch command payload) dev
          = progress ch command (len payload) (ztake k payload) 0 dev) as ->.
  { unfold dev_write. rewrite initial_channel by done.
    destruct (initial_fields ch command payload) as (-> & -> & ->). by rewrite Hf', Hland. }
  unfold progress. pose proof (len_nonneg payload).
  assert (len payload = len (ztake k payload) + len (zdrop k payload)) as Hsplit.
  { rewrite <- len_app. by rewrite ztake_zdrop. }
  destruct (decide (zdrop k payload = [])) as [Hd|Hd].
  - assert (ztake k payload = payload) as ->.
    { rewrite <- (ztake_zdrop k payload) at 2. by rewrite Hd, app_nil_r. }
    rewrite Hd. test_false (len payload <? len payload). done.
  - pose proof (len_nonneg (zdrop k payload)). pose proof Hd as Hd'. rewrite <- len_zero_iff in Hd'.
    test_true (len (ztake k payload) <? len payload).
    pose proof (continuation_count payload Hlen) as Hcount. fold k in Hcount.
    change MAX_CONTINUATIONS with 128 in Hcount.
    rewrite (write_continuations ch command 0 (zdrop k payload) (ztake k payload));
      [by rewrite ztake_zdrop|done|lia|lia|done|by rewrite Hsplit at 1].
Qed.

(** *** Exchanges *)

(** The device chats as the protocol allows and answers in time. *)
Definition chatter_ok : Prop :=
  ∀ ch command payload, 0 ≤ ch < 2 ^ 32 → len payload ≤ MAX_MESSAGE_SIZE →
    let packets := message_reports ch command payload in
    noisy ch true packets (chatter ch packets) ∧ len (chatter ch packets) ≤ TRANSACTION_TIMEOUT.

Definition idle (dev : HidDevice) : Prop := dev_rx dev = None ∧ dev_tx dev = [].

Definition with_channel (ch : Z) (executed : list (list Z)) (dev : HidDevice) : HidDevice :=
  mkHidDevice ch (dev_next dev) None [] (dev_clock dev) executed.

Context (Hchatter : chatter_ok).

(** What the host reads after the device emitted one message. *)
Lemma read_emitted ch command answer_command payload dev :
  idle dev → 0 ≤ ch < 2 ^ 32 → 0 ≤ answer_command < 128 → len payload ≤ MAX_MESSAGE_SIZE →
  (answer_command = command ∧ command ≠ CTAPHID_KEEPALIVE ∧ command ≠ CTAPHID_ERROR ∨
   answer_command = CTAPHID_ERROR ∧ payload = [ERR_INVALID_CHANNEL]) →
  ∃ t, read_message ch command TRANSACTION_TIMEOUT (emit ch answer_command payload dev)
    = (if answer_command =? CTAPHID_ERROR then Err InvalidChannel else Ok payload,
       after_reads t [] dev).
Proof.
  intros [Hrx Htx] Hch Hac Hlen Hcase. destruct (Hchatter ch answer_command payload Hch Hlen) as [Hn Ht].
  destruct (command_byte answer_command Hac) as (Hf & _ & _).
  unfold read_message. set (dev1 := emit ch answer_command payload dev).
  assert (dev_tx dev1 = chatter ch (message_reports ch answer_command payload)) as Htx1.
  { unfold dev1, emit. cbn. by rewrite packetize_ok, Htx by done. }
  set (stream := chatter ch _) in *. exists (len stream).
  cbn [clock device_io]. set (deadline := dev_clock dev1 + TRANSACTION_TIMEOUT).
  assert (length stream ≤ ticks_until deadline dev1)%nat as Hticks.
  { unfold ticks_until. cbn [clock device_io]. unfold deadline, len in *. lia. }
  assert (dev_clock dev1 + len stream ≤ deadline + 1) as Hclock by (unfold deadline; lia).
  destruct Hcase as [(-> & Hka & Herr)|(-> & ->)].
  - test_false (command =? CTAPHID_ERROR).
    rewrite (read_initial_message _ _ _ _ payload stream []); try done. by rewrite app_nil_r.
  - rewrite Z.eqb_refl. rewrite (read_initial_invalid _ _ _ _ stream []); try done.
    by rewrite app_nil_r.
Qed.

Lemma exchange_dev ch command payload dev :
  0 ≤ ch < 2 ^ 32 → 0 ≤ command < 128 → len payload ≤ MAX_MESSAGE_SIZE → idle dev →
  exchange ch command payload TRANSACTION_TIMEOUT dev
  = read_message ch command TRANSACTION_TIMEOUT (process ch command payload dev).
Proof using Type.
  intros Hch Hcmd Hlen [Hrx Htx]. unfold exchange, sbind, sm_map_err.
  rewrite write_message_dev by done. cbn [map_err].
  replace (set_rx None dev) with dev; [done|]. destruct dev. cbn in *. by subst.
Qed.

(** A request on the device's channel is executed. *)
Lemma exchange_cbor request dev :
  0 ≤ dev_channel dev < BROADCAST_CHANNEL → len request ≤ MAX_MESSAGE_SIZE → idle dev →
  len (handler request) ≤ MAX_MESSAGE_SIZE →
  ∃ t, exchange (dev_channel dev) CTAPHID_CBOR request TRANSACTION_TIMEOUT dev
    = (Ok (handler request),
       after_reads t [] (with_channel (dev_channel dev) (dev_executed dev ++ [request]) dev)).
Proof.
  intros Hch Hlen [Hrx Htx] Hh. rewrite exchange_dev by (done || (unfold BROADCAST_CHANNEL in *; lia)).
  unfold process. test_false (dev_channel dev =? BROADCAST_CHANNEL). cbn [andb].
  rewrite !Z.eqb_refl. cbn [andb].
  destruct (read_emitted (dev_channel dev) CTAPHID_CBOR CTAPHID_CBOR (handler request)
    (with_channel (dev_channel dev) (dev_executed dev ++ [request]) dev)) as [t Ht];
    [done|unfold BROADCAST_CHANNEL in *; lia|done|done|by left|].
  exists t. rewrite Hrx, Htx. apply Ht.
Qed.

(** A request on a channel the device does not know is refused, not executed. *)
Lemma exchange_lost ch request dev :
  0 ≤ ch < BROADCAST_CHANNEL → ch ≠ dev_channel dev → len request ≤ MAX_MESSAGE_SIZE → idle dev →
  ∃ t, exchange ch CTAPHID_CBOR request TRANSACTION_TIMEOUT dev
    = (Err InvalidChannel, after_reads t [] dev).
Proof.
  intros Hch Hne Hlen Hidle. rewrite exchange_dev by (done || (unfold BROADCAST_CHANNEL in *; lia)).
  unfold process. test_false (ch =? BROADCAST_CHANNEL). test_false (ch =? dev_channel dev).
  cbn [andb]. apply (read_emitted ch CTAPHID_CBOR CTAPHID_ERROR); try done;
    [unfold BROADCAST_CHANNEL in *; lia|by right].
Qed.

Definition new_init (ch : Z) : CtapHidInit := mkCtapHidInit ch 2 (5, 2, 4) CAPABILITY_CBOR.

Lemma init_response_fields nonce ch :
  len nonce = 8 → 0 ≤ ch < 2 ^ 32 →
  let response := nonce ++ be32 ch ++ [2; 5; 2; 4; CAPABILITY_CBOR] in
  len response = 17 ∧ ztake 8 response = nonce ∧ of_be32 (slice 8 12 response) = ch ∧
  at_ response 12 = 2 ∧ at_ response 13 = 5 ∧ at_ response 14 = 2 ∧ at_ response 15 = 4 ∧
  at_ response 16 = CAPABILITY_CBOR.
Proof using Type.
  intros Hn Hch response. unfold response. split_and!; [by rewrite !len_app, Hn| | |..].
  - rewrite <- Hn. apply ztake_app_len.
  - change 12 with (8 + len (be32 ch)). rewrite <- Hn, slice_middle.
    rewrite <- (app_nil_r (be32 ch)). by apply of_be32_be32.
  - change 12 with (8 + 4). rewrite <- Hn. by rewrite at_app_r by lia.
  - change 13 with (8 + 5). rewrite <- Hn. by rewrite at_app_r by lia.
  - change 14 with (8 + 6). rewrite <- Hn. by rewrite at_app_r by lia.
  - change 15 with (8 + 7). rewrite <- Hn. by rewrite at_app_r by lia.
  - change 16 with (8 + 8). rewrite <- Hn. rewrite at_app_r by lia. by rewrite Hn.
Qed.

Lemma initialize_channel_dev nonce dev :
  len nonce = 8 → 0 < dev_next dev < BROADCAST_CHANNEL → idle dev →
  ∃ t, initialize_channel nonce dev
    = (Ok (new_init (dev_next dev)),
       after_reads t [] (with_channel (dev_next dev) (dev_executed dev) dev)).
Proof.
  intros Hn Hnext [Hrx Htx]. unfold initialize_channel, sbind, sm_map_err.
  rewrite exchange_dev by (done || (rewrite Hn; done)).
  unfold process. rewrite !Z.eqb_refl. cbn [andb].
  assert (0 ≤ dev_next dev < 2 ^ 32) as Hch by (unfold BROADCAST_CHANNEL in *; lia).
  destruct (init_response_fields nonce (dev_next dev) Hn Hch)
    as (Hlen & Htake & Hslice & H12 & H13 & H14 & H15 & H16).
  set (response := nonce ++ _) in *.
  destruct (read_emitted BROADCAST_CHANNEL CTAPHID_INIT CTAPHID_INIT response
    (with_channel (dev_next dev) (dev_executed dev) dev)) as [t Ht];
    [done|done|done|by rewrite Hlen|by left|].
  exists t. unfold with_channel in Ht |- *. rewrite Hrx, Htx, Ht.
  change (CTAPHID_INIT =? CTAPHID_ERROR) with false. cbn [map_err]. unfold guard_err, sm_ret.
  rewrite Hlen, Htake, Hslice, H12, H13, H14, H15, H16.
  rewrite bool_decide_true by done. cbn [Z.ltb Z.compare Pos.compare Pos.compare_cont negb orb].
  test_false (dev_next dev =? 0). by test_false (dev_next dev =? BROADCAST_CHANNEL).
Qed.

(** One CBOR transaction, with or without a lost channel. *)
Lemma transact_dev nonce request init dev :
  len nonce = 8 → 0 < len request ≤ MAX_MESSAGE_SIZE → len (handler request) ≤ MAX_MESSAGE_SIZE →
  idle dev → 0 < dev_next dev < BROADCAST_CHANNEL → 0 ≤ dev_channel dev < BROADCAST_CHANNEL →
  0 ≤ channel init < BROADCAST_CHANNEL →
  ∃ init' dev', CtapHidTransport_transact (Ok nonce) request (mkCtapHidState (Some dev) (Some init))
      = (Ok (handler request), mkCtapHidState (Some dev') (Some init')) ∧
    dev_executed dev' = dev_executed dev ++ [request] ∧ idle dev' ∧
    channel init' = dev_channel dev' ∧ (channel init = dev_channel dev → init' = init).
Proof.
  intros Hn Hreq Hh Hidle Hnext Hdch Hich. unfold CtapHidTransport_transact.
  test_false ((len request =? 0) || (MAX_MESSAGE_SIZE <? len request)).
  unfold transact_once, with_io. cbn [hid_init hid_io].
  destruct (decide (channel init = dev_channel dev)) as [E|E].
  - rewrite E. destruct (exchange_cbor request dev) as [t ->]; [done|lia|done..|].
    eexists init, _. split; [done|]. cbn. split_and!; done.
  - destruct (exchange_lost (channel init) request dev) as [t ->]; [done|done|lia|done|].
    set (dev1 := after_reads t [] dev).
    unfold reinitialize. cbn [hid_io].
    destruct (initialize_channel_dev nonce dev1) as [t' ->]; [done|done|by destruct Hidle|].
    change (supports_cbor (new_init (dev_next dev1))) with true. cbn [negb hid_init hid_io].
    set (dev2 := after_reads t' [] _).
    change (channel (new_init (dev_next dev1))) with (dev_channel dev2).
    destruct (exchange_cbor request dev2) as [t'' ->]; [cbn; lia|lia|done|done|].
    eexists _, _. split; [done|]. cbn. split_and!; done.
Qed.
End device.

(** ** The read loops stop at the deadline *)

Section termination.
Context `{HidReportIoLaws HIO}.

Lemma read_packet_until_ticks deadline (io : HIO) :
  match read_packet_until deadline io with
  | (Ok p, io') => len p = 64 ∧ clock io ≤ deadline ∧ clock io < clock io'
  | _ => True
  end.
Proof.
  unfold read_packet_until, sbind, sm_get, sm_err.
  destruct (deadline <? clock io) eqn:E; [done|]. bool_to_prop.
  pose proof (read_packet_size (deadline - clock io) io) as Hs.
  pose proof (read_packet_ticks (deadline - clock io) io) as Ht.
  destruct (read_packet _ io) as [[p| |] io']; try done. split_and!; [by eapply Hs|done|done].
Qed.

Lemma read_packet_until_late deadline (io : HIO) :
  deadline < clock io → read_packet_until deadline io = (Err #CKR_DEVICE_ERROR, io).
Proof. intros Hd. unfold read_packet_until, sbind, sm_get. by test_true (deadline <? clock io). Qed.

(** With the ticks until the deadline as fuel the loop is the unbounded loop:
    any larger fuel gives the same result. *)
Lemma read_continuations_enough fuel fuel' deadline ch length response sequence (io : HIO) :
  (ticks_until deadline io ≤ fuel ≤ fuel')%nat →
  read_continuations fuel deadline ch length response sequence io
  = read_continuations fuel' deadline ch length response sequence io.
Proof.
  unfold ticks_until. revert fuel' response sequence io.
  induction fuel as [|fuel IH]; intros [|fuel'] response sequence io Hf; try done; try lia.
  - cbn [read_continuations]. destruct (len response <? length); [|done].
    unfold sbind, sm_map_err. rewrite read_packet_until_late by lia. done.
  - cbn [read_continuations]. destruct (len response <? length); [|done].
    unfold sbind, sm_map_err. pose proof (read_packet_until_ticks deadline io) as Ht.
    destruct (read_packet_until deadline io) as [[p| |] io']; cbn [map_err]; try done.
    destruct Ht as (_ & Hd & Ht).
    repeat (case_match; try done); apply IH; lia.
Qed.

Lemma read_initial_enough fuel fuel' deadline ch command (io : HIO) :
  (ticks_until deadline io ≤ fuel ≤ fuel')%nat →
  read_initial fuel deadline ch command io = read_initial fuel' deadline ch command io.
Proof.
  unfold ticks_until. revert fuel' io.
  induction fuel as [|fuel IH]; intros [|fuel'] io Hf; try done; try lia.
  - cbn [read_initial]. unfold sbind, sm_map_err. by rewrite read_packet_until_late by lia.
  - cbn [read_initial]. unfold sbind, sm_map_err.
    pose proof (read_packet_until_ticks deadline io) as Ht.
    destruct (read_packet_until deadline io) as [[p| |] io']; cbn [map_err]; try done.
    destruct Ht as (_ & Hd & Ht).
    repeat (case_match; try done); try (apply IH; lia).
    apply read_continuations_enough. unfold ticks_until. lia.
Qed.

Lemma read_continuations_length ticks deadline ch length response sequence (io io' : HIO) r :
  len response ≤ length →
  read_continuations ticks deadline ch length response sequence io = (Ok r, io') → len r = length.
Proof.
  revert response sequence io. induction ticks as [|ticks IH]; intros response sequence io Hl;
    cbn [read_continuations]; destruct (len response <? length) eqn:E; bool_to_prop; try done.
  1,3: unfold sm_ret; intros [= <- _]; lia.
  unfold sbind, sm_map_err. pose proof (read_packet_until_ticks deadline io) as Ht.
  destruct (read_packet_until deadline io) as [[p| |] io1]; cbn [map_err]; try done.
  destruct Ht as (Hp & _ & _). repeat (case_match; try done); [by apply IH|]. apply IH.
  rewrite len_app. unfold slice, CONTINUATION_DATA_SIZE, HID_REPORT_SIZE.
  rewrite len_ztake by lia. lia.
Qed.

Lemma read_initial_length ticks deadline ch command (io io' : HIO) r :
  read_initial ticks deadline ch command io = (Ok r, io') → len r ≤ MAX_MESSAGE_SIZE.
Proof.
  revert io. induction ticks as [|ticks IH]; intros io; [done|]. cbn [read_initial].
  unfold sbind, sm_map_err. pose proof (read_packet_until_ticks deadline io) as Ht.
  destruct (read_packet_until deadline io) as [[p| |] io1]; cbn [map_err]; try done.
  destruct Ht as (Hp & _ & _). repeat (case_match; try done); try apply IH.
  intros Hr. bool_to_prop. set (n := of_be16 _ _) in *.
  assert (len r = n ∨ n < 0) as [->|?]; [|done|].
  - destruct (decide (0 ≤ n)); [left|right; lia].
    eapply read_continuations_length; [|exact Hr].
    unfold slice, INITIAL_DATA_SIZE, HID_REPORT_SIZE. rewrite len_ztake by lia. lia.
  - revert Hr. destruct ticks; cbn [read_continuations];
      (case_if; [pose proof (len_nonneg (slice 7 (7 + Z.min n INITIAL_DATA_SIZE) p)); lia|]);
      unfold sm_ret; intros [= <- _];
      unfold slice, ztake, len; rewrite length_take;
      unfold INITIAL_DATA_SIZE, HID_REPORT_SIZE; change MAX_MESSAGE_SIZE with 7609; lia.
Qed.
End termination.

(** ** Properties *)

(** C32: A CBOR transaction over CTAPHID returns what the authenticator answers,
    for every request and response up to the protocol maximum, through any
    keepalives and packets of other channels. If the device has forgotten the
    channel, the transport opens a new one and repeats the request, once: in
    every case the authenticator executes the request exactly once and the
    transport ends up connected on the device's channel. *)
Theorem hid_transact_executes_once handler chatter nonce request init dev :
  chatter_ok chatter → len nonce = 8 → 0 < len request ≤ MAX_MESSAGE_SIZE →
  len (handler request) ≤ MAX_MESSAGE_SIZE →
  idle dev → 0 < dev_next dev < BROADCAST_CHANNEL → 0 ≤ dev_channel dev < BROADCAST_CHANNEL →
  0 ≤ channel init < BROADCAST_CHANNEL →
  ∃ init' dev',
    @CtapHidTransport_transact _ (device_io handler chatter) (Ok nonce) request
      (mkCtapHidState (Some dev) (Some init))
      = (Ok (handler request), mkCtapHidState (Some dev') (Some init')) ∧
    dev_executed dev' = dev_executed dev ++ [request] ∧ idle dev' ∧
    channel init' = dev_channel dev' ∧ (channel init = dev_channel dev → init' = init).
Proof. intros Hchatter. by apply transact_dev. Qed.

(** A device that sends two keepalives before every response. *)
Definition keepalive_report (ch : Z) : list Z :=
  initial_report ch CTAPHID_KEEPALIVE [KEEPALIVE_PROCESSING].
Definition sample_chatter (ch : Z) (packets : list (list Z)) : list (list Z) :=
  keepalive_report ch :: keepalive_report ch :: packets.

Lemma noisy_packets ch start p ps : noisy ch start (p :: ps) (p :: ps).
Proof.
  apply noisy_packet. induction ps; [apply noisy_done|by apply noisy_packet].
Qed.

Lemma length_continuation_reports ch sequence parts :
  len (continuation_reports ch sequence parts) = len parts.
Proof.
  revert sequence. induction parts as [|c parts IH]; intros sequence; [done|].
  cbn [continuation_reports]. by rewrite !len_cons, IH.
Qed.

Lemma sample_chatter_ok : chatter_ok sample_chatter.
Proof.
  intros ch command payload Hch Hlen packets. split.
  - unfold sample_chatter, packets, message_reports.
    assert (is_keepalive ch (keepalive_report ch) = true) as Hk.
    { unfold is_keepalive, keepalive_report. rewrite initial_channel, initial_report_size by done.
      by rewrite !Z.eqb_refl. }
    do 2 (apply noisy_keepalive; [done|]). apply noisy_packets.
  - unfold sample_chatter, packets, message_reports.
    rewrite !len_cons, length_continuation_reports.
    pose proof (continuation_count payload Hlen) as Hc. change MAX_CONTINUATIONS with 128 in Hc.
    unfold TRANSACTION_TIMEOUT. lia.
Qed.

Definition sample_device : HidDevice := mkHidDevice 5 7 None [] 0 [].

Lemma hid_transact_executes_once_witness :
  ∃ init' dev',
    @CtapHidTransport_transact _ (device_io (λ r, r ++ r) sample_chatter)
      (Ok (replicate 8 0x33)) (replicate 100 0x44)
      (mkCtapHidState (Some sample_device) (Some (new_init 6)))
      = (Ok (replicate 100 0x44 ++ replicate 100 0x44), mkCtapHidState (Some dev') (Some init')) ∧
    dev_executed dev' = [replicate 100 0x44] ∧ idle dev' ∧ channel init' = dev_channel dev' ∧
    (6 = 5 → init' = new_init 6).
Proof.
  apply (hid_transact_executes_once (λ r, r ++ r) sample_chatter (replicate 8 0x33)
           (replicate 100 0x44) (new_init 6) sample_device sample_chatter_ok).
  - reflexivity.
  - split; vm_compute; congruence.
  - vm_compute. congruence.
  - split; reflexivity.
  - split; vm_compute; congruence.
  - split; vm_compute; congruence.
  - split; vm_compute; congruence.
Defined.

(** [packetize] on every input: a message within the protocol maximum
    becomes the initial packet and at most 128 continuations, each 64 bytes long;
    anything larger, or a command with the top bit set, is refused. *)
Theorem packetize_bounds ch command payload :
  match packetize ch command payload with
  | Ok packets => has_flag command 0x80 = false ∧ len payload ≤ MAX_MESSAGE_SIZE ∧
      packets = message_reports ch command payload ∧ len packets ≤ 129 ∧
      len packets = 1 + div_ceil (Z.max 0 (len payload - 57)) 59
  | Err e => e = #CKR_ARGUMENTS_BAD ∧
      (has_flag command 0x80 = true ∨ MAX_MESSAGE_SIZE < len payload)
  | Panic => False
  end.
Proof.
  destruct (has_flag command 0x80) eqn:Hf.
  { unfold packetize. rewrite Hf. cbn. by split; [|left]. }
  destruct (decide (len payload ≤ MAX_MESSAGE_SIZE)) as [Hl|Hl].
  - rewrite packetize_ok by done. pose proof (continuation_count payload Hl) as Hc.
    pose proof (len_nonneg payload). unfold message_reports in *.
    rewrite len_cons, length_continuation_reports. split_and!; [done..|unfold MAX_CONTINUATIONS in Hc; lia|].
    unfold len at 1. rewrite length_chunks by lia. rewrite len_zdrop;
      unfold INITIAL_DATA_SIZE, HID_REPORT_SIZE; [|lia]. do 2 f_equal. lia.
  - unfold packetize. rewrite Hf. cbn [orb]. test_true (MAX_MESSAGE_SIZE <? len payload).
    split; [done|right; lia].
Qed.

(** C33: [read_message] terminates on every device whose clock moves: the ticks
    to the deadline bound its iterations (more fuel changes nothing), and a
    message it returns is never longer than the protocol maximum. *)
Theorem read_message_terminates `{HidReportIoLaws HIO} ch command timeout (io : HIO) fuel :
  (ticks_until (clock io + timeout) io ≤ fuel)%nat →
  read_initial fuel (clock io + timeout) ch command io = read_message ch command timeout io ∧
  ∀ r io', read_message ch command timeout io = (Ok r, io') → len r ≤ MAX_MESSAGE_SIZE.
Proof.
  intros Hf. split.
  - symmetry. apply read_initial_enough. lia.
  - intros r io'. apply read_initial_length.
Qed.

Lemma read_message_terminates_witness :
  @read_initial _ (device_io (λ r, r) sample_chatter) 501 500 5 CTAPHID_CBOR sample_device
  = @read_message _ (device_io (λ r, r) sample_chatter) 5 CTAPHID_CBOR 500 sample_device.
Proof.
  apply (@read_message_terminates _ (device_io (λ r, r) sample_chatter)
           (device_io_laws (λ r, r) sample_chatter) 5 CTAPHID_CBOR 500 sample_device 501).
  vm_compute. lia.
Defined.

(** The transport fails closed: whenever a transaction does not return a
    response, either the request itself was refused before anything was sent, or
    the device handle and the channel are dropped, so that no later transaction
    can run on a channel of unknown state. *)
Theorem hid_failure_disconnects `{HidReportIo HIO} nonce request (state : CtapHidState) e state' :
  CtapHidTransport_transact (HIO := HIO) nonce request state = (Err e, state') →
  (state' = state ∧ e = #CKR_ARGUMENTS_BAD ∧ (len request = 0 ∨ MAX_MESSAGE_SIZE < len request)) ∨
  (state' = disconnected ∧ is_connected state' = false).
Proof.
  unfold CtapHidTransport_transact.
  destruct ((len request =? 0) || (MAX_MESSAGE_SIZE <? len request)) eqn:E.
  { intros [= <- <-]. left. split_and!; try done. lia. }
  intros Hr. right. assert (state' = disconnected) as ->; [|done].
  repeat case_match; by simplify_eq.
Qed.

Lemma hid_failure_disconnects_witness :
  let state := mkCtapHidState (Some sample_device) (Some (new_init 6)) in
  let result := @CtapHidTransport_transact _ (device_io (λ r, r) sample_chatter)
                  (Err #CKR_DEVICE_ERROR) [1] state in
  result = (Err #CKR_DEVICE_ERROR, disconnected) ∧
  ((disconnected (HIO := HidDevice) = state ∧ #CKR_DEVICE_ERROR = #CKR_ARGUMENTS_BAD ∧
    (len [1] = 0 ∨ MAX_MESSAGE_SIZE < len [1])) ∨
   (disconnected (HIO := HidDevice) = disconnected ∧
    is_connected (disconnected (HIO := HidDevice)) = false)).
Proof.
  intros state result. assert (result = (Err #CKR_DEVICE_ERROR, disconnected)) as E
    by (vm_compute; reflexivity).
  split; [exact E|].
  apply (@hid_failure_disconnects _ (device_io (λ r, r) sample_chatter) (Err #CKR_DEVICE_ERROR)
           [1] state #CKR_DEVICE_ERROR disconnected). exact E.
Defined.
