(* ===== verification/YubiHsm.v ===== *)
(** * YubiHsm: the YubiHSM 2 command protocol and its secure session

    Models [src/src/yubihsm.rs], the command codes of
    [src/src/yubihsm/commands/protocol.rs] and the working keys of
    [src/src/yubihsm/key_provider.rs]: frames, device errors, plain commands, and
    [SecureSession], which encrypts and authenticates every command and fails
    closed. [peer_request] and [peer_exchange] are the device half that the
    repository keeps beside it; [hsm_connector] makes a device of them. *)
From S2P Require Import Prelude Errors Connector Crypto.

Inductive CommandCode : Type :=
  | Echo | CreateSession | AuthenticateSession | SessionMessage | GetDeviceInfo
  | ResetDevice | GetDevicePublicKey | SessionObject | DeriveEcdhKdf | SignMlDsa
  | EncapsulateMlKem | DecapsulateMlKem | EncapsulateHybridKem | DecapsulateHybridKem
  | CloseSession | GetStorageInfo | PutOpaque | GetOpaque | PutAuthenticationKey
  | PutAsymmetricKey | GenerateAsymmetricKey | SignPkcs1 | ListObjects | DecryptPkcs1
  | ExportWrapped | ImportWrapped | PutWrapKey | GetLogEntries | GetObjectInfo | SetOption
  | GetOption | GetPseudoRandom | PutHmacKey | SignHmac | GetPublicKey | SignPss
  | SignEcdsa | DeriveEcdh | DeleteObject | DecryptOaep | GenerateHmacKey | GenerateWrapKey
  | VerifyHmac | SignSshCertificate | PutTemplate | GetTemplate | DecryptOtp
  | CreateOtpAead | RandomizeOtpAead | RewrapOtpAead | SignAttestationCertificate
  | PutOtpAeadKey | GenerateOtpAeadKey | SetLogIndex | WrapData | UnwrapData | SignEddsa
  | BlinkDevice | ChangeAuthenticationKey | PutSymmetricKey | GenerateSymmetricKey
  | DecryptEcb | EncryptEcb | DecryptCbc | EncryptCbc | PutPublicWrapKey | GetRsaWrappedKey
  | PutRsaWrappedKey | ExportRsaWrapped | ImportRsaWrapped.

#[export] Instance CommandCode_eq_dec : EqDecision CommandCode.
Proof. solve_decision. Defined.

(** [command as u8] *)
Definition command_code (c : CommandCode) : Z :=
  match c with
  | Echo => 0x01
  | CreateSession => 0x03
  | AuthenticateSession => 0x04
  | SessionMessage => 0x05
  | GetDeviceInfo => 0x06
  | ResetDevice => 0x08
  | GetDevicePublicKey => 0x0a
  | SessionObject => 0x0b
  | DeriveEcdhKdf => 0x0c
  | SignMlDsa => 0x0d
  | EncapsulateMlKem => 0x0e
  | DecapsulateMlKem => 0x0f
  | EncapsulateHybridKem => 0x10
  | DecapsulateHybridKem => 0x11
  | CloseSession => 0x40
  | GetStorageInfo => 0x41
  | PutOpaque => 0x42
  | GetOpaque => 0x43
  | PutAuthenticationKey => 0x44
  | PutAsymmetricKey => 0x45
  | GenerateAsymmetricKey => 0x46
  | SignPkcs1 => 0x47
  | ListObjects => 0x48
  | DecryptPkcs1 => 0x49
  | ExportWrapped => 0x4a
  | ImportWrapped => 0x4b
  | PutWrapKey => 0x4c
  | GetLogEntries => 0x4d
  | GetObjectInfo => 0x4e
  | SetOption => 0x4f
  | GetOption => 0x50
  | GetPseudoRandom => 0x51
  | PutHmacKey => 0x52
  | SignHmac => 0x53
  | GetPublicKey => 0x54
  | SignPss => 0x55
  | SignEcdsa => 0x56
  | DeriveEcdh => 0x57
  | DeleteObject => 0x58
  | DecryptOaep => 0x59
  | GenerateHmacKey => 0x5a
  | GenerateWrapKey => 0x5b
  | VerifyHmac => 0x5c
  | SignSshCertificate => 0x5d
  | PutTemplate => 0x5e
  | GetTemplate => 0x5f
  | DecryptOtp => 0x60
  | CreateOtpAead => 0x61
  | RandomizeOtpAead => 0x62
  | RewrapOtpAead => 0x63
  | SignAttestationCertificate => 0x64
  | PutOtpAeadKey => 0x65
  | GenerateOtpAeadKey => 0x66
  | SetLogIndex => 0x67
  | WrapData => 0x68
  | UnwrapData => 0x69
  | SignEddsa => 0x6a
  | BlinkDevice => 0x6b
  | ChangeAuthenticationKey => 0x6c
  | PutSymmetricKey => 0x6d
  | GenerateSymmetricKey => 0x6e
  | DecryptEcb => 0x6f
  | EncryptEcb => 0x70
  | DecryptCbc => 0x71
  | EncryptCbc => 0x72
  | PutPublicWrapKey => 0x73
  | GetRsaWrappedKey => 0x74
  | PutRsaWrappedKey => 0x75
  | ExportRsaWrapped => 0x76
  | ImportRsaWrapped => 0x77
  end.

Definition ALL_COMMAND_CODES : list CommandCode :=
  [Echo; CreateSession; AuthenticateSession; SessionMessage; GetDeviceInfo; ResetDevice;
  GetDevicePublicKey; SessionObject; DeriveEcdhKdf; SignMlDsa; EncapsulateMlKem;
  DecapsulateMlKem; EncapsulateHybridKem; DecapsulateHybridKem; CloseSession;
  GetStorageInfo; PutOpaque; GetOpaque; PutAuthenticationKey; PutAsymmetricKey;
  GenerateAsymmetricKey; SignPkcs1; ListObjects; DecryptPkcs1; ExportWrapped;
  ImportWrapped; PutWrapKey; GetLogEntries; GetObjectInfo; SetOption; GetOption;
  GetPseudoRandom; PutHmacKey; SignHmac; GetPublicKey; SignPss; SignEcdsa; DeriveEcdh;
  DeleteObject; DecryptOaep; GenerateHmacKey; GenerateWrapKey; VerifyHmac;
  SignSshCertificate; PutTemplate; GetTemplate; DecryptOtp; CreateOtpAead;
  RandomizeOtpAead; RewrapOtpAead; SignAttestationCertificate; PutOtpAeadKey;
  GenerateOtpAeadKey; SetLogIndex; WrapData; UnwrapData; SignEddsa; BlinkDevice;
  ChangeAuthenticationKey; PutSymmetricKey; GenerateSymmetricKey; DecryptEcb; EncryptEcb;
  DecryptCbc; EncryptCbc; PutPublicWrapKey; GetRsaWrappedKey; PutRsaWrappedKey;
  ExportRsaWrapped; ImportRsaWrapped].

(** [TryFrom<u8> for CommandCode] *)
Definition CommandCode_try_from (value : Z) : outcome Error CommandCode :=
  ok_or #CKR_DATA_INVALID (List.find (λ c, command_code c =? value) ALL_COMMAND_CODES).

Definition is_bare (c : CommandCode) : bool :=
  match c with Echo | GetDeviceInfo | GetDevicePublicKey => true | _ => false end.

Definition is_session_protocol (c : CommandCode) : bool :=
  match c with CreateSession | AuthenticateSession | SessionMessage => true | _ => false end.

Record Command : Type := mkCommand {
  cmd_code : CommandCode;
  cmd_data : list Z;
}.

Definition MAX_COMMAND_DATA_LENGTH : Z := 8192 - 3.

Definition Command_from_vec (code : CommandCode) (dat : list Z) : outcome Error Command :=
  if MAX_COMMAND_DATA_LENGTH <? len dat then Err #CKR_DATA_LEN_RANGE
  else Ok (mkCommand code dat).
Definition Command_empty (code : CommandCode) : Command := mkCommand code [].
Definition close_session_command : Command := Command_empty CloseSession.

Definition COMMAND_CREATE_SESSION : Z := command_code CreateSession.
Definition COMMAND_AUTHENTICATE_SESSION : Z := command_code AuthenticateSession.
Definition COMMAND_SESSION_MESSAGE : Z := command_code SessionMessage.
Definition COMMAND_ERROR : Z := 0x7f.
Definition RESPONSE_BIT : Z := 0x80.
Definition HSM_MAC_LENGTH : Z := 8.
Definition CHALLENGE_LENGTH : Z := 8.
Definition PRE_2_4_MESSAGE_SIZE : Z := 2048.
Definition HSM_MAX_MESSAGE_SIZE : Z := 8192.

(** ** Frames *)

Record Frame : Type := mkFrame {
  frame_command : Z;
  frame_data : list Z;
}.

Definition Frame_new (command : Z) (dat : list Z) : outcome Error Frame :=
  if 65535 <? len dat then Err #CKR_DATA_LEN_RANGE else Ok (mkFrame command dat).

Definition Frame_encode (f : Frame) : list Z :=
  [frame_command f] ++ be16 (as_u16 (len (frame_data f))) ++ frame_data f.

Definition Frame_parse (encoded : list Z) : outcome Error Frame :=
  if len encoded <? 3 then Err #CKR_DEVICE_ERROR
  else
    let length := of_be16 (at_ encoded 1) (at_ encoded 2) in
    if negb (len encoded =? 3 + length) then Err #CKR_DEVICE_ERROR
    else Frame_new (at_ encoded 0) (zdrop 3 encoded).

Definition map_device_error (error : option Z) : Error :=
  match error with
  | None => #CKR_DEVICE_ERROR
  | Some e =>
      if e =? 0x03 then #CKR_SESSION_CLOSED
      else if e =? 0x05 then #CKR_SESSION_COUNT
      else if (e =? 0x07) || (e =? 0x0a) then #CKR_DEVICE_MEMORY
      else if e =? 0x08 then #CKR_DATA_LEN_RANGE
      else if (e =? 0x09) || (e =? 0x0e) || (e =? 0x10) || (e =? 0x12) then #CKR_FUNCTION_REJECTED
      else if (e =? 0x0b) || (e =? 0x0c) then #CKR_OBJECT_HANDLE_INVALID
      else if e =? 0x11 then #CKR_ATTRIBUTE_VALUE_INVALID
      else if e =? 0xff then #CKR_FUNCTION_FAILED
      else #CKR_DEVICE_ERROR
  end.

Definition require_response (f : Frame) (request : Z) : outcome Error (list Z) :=
  if frame_command f =? COMMAND_ERROR then Err (map_device_error (head (frame_data f)))
  else if negb (frame_command f =? Z.lor request RESPONSE_BIT) then Err #CKR_DEVICE_ERROR
  else Ok (frame_data f).

Definition is_wrong_length_error (error : Error) : bool :=
  match error with Generic rv => rv =? CKR_DATA_LEN_RANGE | _ => false end.

Definition map_authentication_error (error : Error) : Error :=
  match error with
  | Generic rv => if rv =? CKR_OBJECT_HANDLE_INVALID then #CKR_PIN_INCORRECT else error
  | _ => error
  end.

Definition secure_message_length (data_length : Z) : Z :=
  let inner_length := 3 + data_length in
  let encrypted_length := div_ceil (inner_length + 1) AES_BLOCK_SIZE * AES_BLOCK_SIZE in
  3 + 1 + encrypted_length + HSM_MAC_LENGTH.

Definition maximum_command_size (major minor : Z) : Z :=
  if (major <? 2) || ((major =? 2) && (minor <? 4)) then PRE_2_4_MESSAGE_SIZE
  else HSM_MAX_MESSAGE_SIZE.

(** The counter is incremented from its last byte. *)
Fixpoint increment_le (bytes : list Z) : list Z :=
  match bytes with
  | [] => []
  | b :: rest =>
      let b := (b + 1) mod 256 in
      if negb (b =? 0) then b :: rest else b :: increment_le rest
  end.
Definition increment_counter (counter : list Z) : list Z := reverse (increment_le (reverse counter)).

(** ** Working keys *)

Record LocalKeys : Type := mkLocalKeys {
  lk_enc : list Z;
  lk_mac : list Z;
  lk_rmac : list Z;
}.

(** [SessionKeys::material]; cleared keys are [None]. *)
Definition SessionKeys : Type := option LocalKeys.

Definition copy_key (value : list Z) : outcome Error (list Z) :=
  if negb (len value =? 16) then Err #CKR_KEY_SIZE_RANGE else Ok value.

Definition SessionKeys_import (enc mac rmac : list Z) : outcome Error SessionKeys :=
  let? enc := copy_key enc in
  let? mac := copy_key mac in
  let? rmac := copy_key rmac in
  Ok (Some (mkLocalKeys enc mac rmac)).

Definition material (keys : SessionKeys) : outcome Error LocalKeys :=
  ok_or #CKR_KEY_HANDLE_INVALID keys.

Section keys.
Context `{SoftwareKeyCore}.

Definition keys_iv (keys : SessionKeys) (counter : list Z) : outcome Error (list Z) :=
  let? m := material keys in aes_encrypt_block (lk_enc m) counter.

Definition keys_cbc (keys : SessionKeys) (iv input : list Z) (encrypt : bool)
  : outcome Error (list Z) :=
  let? m := material keys in aes_cbc (lk_enc m) iv input (if encrypt then Encrypt else Decrypt).

Definition command_mac (keys : SessionKeys) (input : list Z) : outcome Error (list Z) :=
  let? m := material keys in aes_cmac (lk_mac m) input.

Definition verify_response_mac (keys : SessionKeys) (input signature : list Z)
  : outcome Error unit :=
  if negb (len signature =? 8) then Err #CKR_SIGNATURE_LEN_RANGE
  else
    let? m := material keys in
    let? expected := aes_cmac (lk_rmac m) input in
    if bool_decide (ztake 8 expected = signature) then Ok tt else Err #CKR_SIGNATURE_INVALID.

Definition peer_response_mac (keys : SessionKeys) (input : list Z) : outcome Error (list Z) :=
  let? m := material keys in aes_cmac (lk_rmac m) input.

Definition cryptogram (keys : SessionKeys) (constant : Z) (context : list Z)
  : outcome Error (list Z) :=
  let input := replicate 11 0 ++ [constant; 0; 0; 64; 1] ++ context in
  let? mac := command_mac keys input in
  Ok (ztake 8 mac).
End keys.

(** ** Sessions *)

Record SecureSession : Type := mkSecureSession {
  sid : Z;
  keys : SessionKeys;
  counter : list Z;
  chaining_value : list Z;
  valid : bool;
  asymmetric : bool;
}.

Definition set_valid (v : bool) (s : SecureSession) : SecureSession :=
  mkSecureSession (sid s) (keys s) (counter s) (chaining_value s) v (asymmetric s).
Definition set_chain (c : list Z) (s : SecureSession) : SecureSession :=
  mkSecureSession (sid s) (keys s) (counter s) c (valid s) (asymmetric s).
Definition advance_counter (s : SecureSession) : SecureSession :=
  mkSecureSession (sid s) (keys s) (increment_counter (counter s)) (chaining_value s) (valid s)
    (asymmetric s).
Definition clear_keys (s : SecureSession) : SecureSession :=
  mkSecureSession (sid s) None (counter s) (chaining_value s) (valid s) (asymmetric s).

Record SymmetricHandshake : Type := mkSymmetricHandshake {
  sh_sid : Z;
  sh_context : list Z;
  sh_card_cryptogram : list Z;
}.

Record AsymmetricHandshake : Type := mkAsymmetricHandshake {
  ah_sid : Z;
  ah_context : list Z;
  ah_receipt : list Z;
}.

Definition P256_PUBLIC_KEY_LENGTH : Z := 65.
Definition ASYMMETRIC_RECEIPT_LENGTH : Z := 16.
Definition EC_P256_AUTHENTICATION_ALGORITHM : Z := 49.

Section hsm.
Context `{SoftwareKeyCore} `{Connector D}.

Definition send_plain (command : Command) : SM D Error (list Z) :=
  guard_err (negb (is_bare (cmd_code command))) #CKR_DEVICE_ERROR ;!
  let! version := sm_gets firmware in
  guard_err (maximum_command_size version.1 version.2 <? 3 + len (cmd_data command))
    #CKR_DATA_LEN_RANGE ;!
  let code := command_code (cmd_code command) in
  let! request := sm_lift (Frame_new code (cmd_data command)) in
  let! answer := send (Frame_encode request) in
  let! frame := sm_lift (Frame_parse answer) in
  sm_lift (require_response frame code).

Definition send_plain_protocol (command : Z) (dat : list Z) : SM D Error (list Z) :=
  let! request := sm_lift (Frame_new command dat) in
  let! answer := send (Frame_encode request) in
  let! frame := sm_lift (Frame_parse answer) in
  sm_lift (require_response frame command).

(** The check on the answer in [send_authenticated]; [encoded] is the whole
    response and [frame] its parse. *)
Definition check_authenticated (s : SecureSession) (command : Z) (require_response_mac : bool)
    (encoded : list Z) (frame : Frame) : outcome Error Frame :=
  if negb require_response_mac && (frame_command frame =? Z.lor command RESPONSE_BIT) then Ok frame
  else if len (frame_data frame) <? HSM_MAC_LENGTH then
    if (frame_command frame =? COMMAND_ERROR) && (len (frame_data frame) =? 1) then
      if (command =? COMMAND_AUTHENTICATE_SESSION) && bool_decide (frame_data frame = [0x04])
      then Err #CKR_PIN_INCORRECT
      else Err (map_device_error (head (frame_data frame)))
    else Err #CKR_DEVICE_ERROR
  else
    let payload_length := len (frame_data frame) - HSM_MAC_LENGTH in
    let authenticated_response :=
      ztake 1 encoded ++ be16 (as_u16 (len (frame_data frame))) ++ slice 3 (3 + payload_length) encoded in
    let? _ := map_err (λ _, #CKR_DEVICE_ERROR)
                (verify_response_mac (keys s) (chaining_value s ++ authenticated_response)
                   (zdrop payload_length (frame_data frame))) in
    Frame_new (frame_command frame) (ztake payload_length (frame_data frame)).

Definition send_authenticated (command : Z) (dat : list Z) (require_response_mac : bool)
  : SM (SecureSession * D) Error Frame :=
  guard_err (65535 <? len dat + HSM_MAC_LENGTH) #CKR_DATA_LEN_RANGE ;!
  let request := [command] ++ be16 (as_u16 (len dat + HSM_MAC_LENGTH)) ++ dat in
  let! s := sm_gets fst in
  let! mac := sm_lift (command_mac (keys s) (chaining_value s ++ request)) in
  sm_fst (sm_modify (set_chain mac)) ;!
  let! encoded_response := sm_snd (send (request ++ ztake HSM_MAC_LENGTH mac)) in
  let! frame := sm_lift (Frame_parse encoded_response) in
  let! s := sm_gets fst in
  sm_lift (check_authenticated s command require_response_mac encoded_response frame).

Definition validate_command (version : Z * Z) (command : Command) : outcome Error unit :=
  let code := cmd_code command in
  if is_session_protocol code
     || match code with GetDeviceInfo | GetDevicePublicKey => true | _ => false end
  then Err #CKR_DATA_INVALID
  else if maximum_command_size version.1 version.2 <? secure_message_length (len (cmd_data command))
  then Err #CKR_DATA_LEN_RANGE
  else
    match code with
    | GetPseudoRandom =>
        match cmd_data command with
        | [hi; lo] =>
            if HSM_MAX_MESSAGE_SIZE <? secure_message_length (of_be16 hi lo)
            then Err #CKR_DATA_LEN_RANGE else Ok tt
        | _ => Err #CKR_DATA_INVALID
        end
    | _ => Ok tt
    end.

Definition send_command_inner (command : Command) : SM (SecureSession * D) Error (list Z) :=
  sm_fst (sm_modify (set_valid false)) ;!
  let code := command_code (cmd_code command) in
  let! inner := sm_lift (Frame_new code (cmd_data command)) in
  let! s := sm_gets fst in
  let! iv := sm_lift (keys_iv (keys s) (counter s)) in
  let! ciphertext := sm_lift (keys_cbc (keys s) iv (pad_iso7816 (Frame_encode inner)) true) in
  let outer_data := [sid s] ++ ciphertext in
  let! outer := send_authenticated COMMAND_SESSION_MESSAGE outer_data true in
  let! encrypted := sm_lift (require_response outer COMMAND_SESSION_MESSAGE) in
  guard_err ((len encrypted <? 1 + AES_BLOCK_SIZE) || negb (at_ encrypted 0 =? sid s)
             || negb ((len encrypted - 1) mod AES_BLOCK_SIZE =? 0)) #CKR_DEVICE_ERROR ;!
  let! clear := sm_lift (keys_cbc (keys s) iv (zdrop 1 encrypted) false) in
  let! clear := sm_lift (unpad_iso7816 clear) in
  let! response := sm_lift (Frame_parse clear) in
  sm_fst (sm_modify advance_counter) ;!
  sm_fst (sm_modify (set_valid true)) ;!
  let result := require_response response code in
  sm_fst (sm_modify (set_valid (negb (bool_decide (cmd_code command = CloseSession) && is_ok result)))) ;!
  sm_lift result.

Definition send_command (command : Command) : SM (SecureSession * D) Error (list Z) := λ st,
  if negb (valid st.1) then (Err #CKR_SESSION_CLOSED, st)
  else
    match validate_command (firmware st.2) command with
    | Err e => (Err e, st)
    | Panic => (Panic, st)
    | Ok _ =>
        let '(result, (s, d)) := send_command_inner command st in
        (result, (if negb (valid s) then clear_keys s else s, d))
    end.

(** *** Handshakes *)

Definition begin_symmetric (authkey_id : Z) (host_challenge : list Z) : SM D Error SymmetricHandshake :=
  let create_data := be16 authkey_id ++ host_challenge in
  let! response := sm_map_err map_authentication_error
                     (send_plain_protocol COMMAND_CREATE_SESSION create_data) in
  guard_err (negb (len response =? 1 + CHALLENGE_LENGTH + HSM_MAC_LENGTH)) #CKR_DEVICE_ERROR ;!
  sm_ret (mkSymmetricHandshake (at_ response 0)
            (host_challenge ++ slice 1 (1 + CHALLENGE_LENGTH) response)
            (zdrop (1 + CHALLENGE_LENGTH) response)).

Definition new_session (session_id : Z) (k : SessionKeys) (c chain : list Z) (asym : bool)
  : SecureSession := mkSecureSession session_id k c chain true asym.

Definition complete_symmetric (handshake : SymmetricHandshake) (k : SessionKeys)
    (expected_card : option (list Z)) : SM D Error SecureSession := λ d,
  match cryptogram k 0x01 (sh_context handshake) with
  | Err e => (Err e, d)
  | Panic => (Panic, d)
  | Ok host =>
      let session := new_session (sh_sid handshake) k (replicate 16 0) (replicate 16 0) false in
      let authenticate_data := [sh_sid handshake] ++ host in
      match send_authenticated COMMAND_AUTHENTICATE_SESSION authenticate_data false (session, d) with
      | (Err e, (_, d)) => (Err (map_authentication_error e), d)
      | (Panic, (_, d)) => (Panic, d)
      | (Ok response, (session, d)) =>
          let session := advance_counter session in
          let authentication_result :=
            map_err map_authentication_error
              (let? dat := require_response response COMMAND_AUTHENTICATE_SESSION in
               if len dat =? 0 then Ok tt else Err #CKR_DEVICE_ERROR) in
          let mismatch :=
            match expected_card with
            | Some expected => negb (bool_decide (expected = sh_card_cryptogram handshake))
            | None => false
            end in
          match authentication_result with
          | Err error =>
              let '(_, (_, d)) := send_command close_session_command (session, d) in (Err error, d)
          | Panic => (Panic, d)
          | Ok _ =>
              if mismatch then
                let '(_, (_, d)) := send_command close_session_command (session, d) in
                (Err #CKR_ENCRYPTED_DATA_INVALID, d)
              else (Ok session, d)
          end
      end
  end.

Definition complete_symmetric_with_session_keys (handshake : SymmetricHandshake)
    (s_enc s_mac s_rmac : list Z) : SM D Error SecureSession :=
  let! k := sm_lift (SessionKeys_import s_enc s_mac s_rmac) in
  let! expected_card := sm_lift (cryptogram k 0x00 (sh_context handshake)) in
  complete_symmetric handshake k (Some expected_card).

Definition finish_failed_symmetric_handshake (handshake : SymmetricHandshake) (d : D) : D :=
  let zero_key := replicate 16 0 in
  match complete_symmetric_with_session_keys handshake zero_key zero_key zero_key d with
  | (Ok session, d) => (send_command close_session_command (session, d)).2.2
  | (_, d) => d
  end.

(** [derive] is [SessionKeys::derive] on the credential's protected keys. *)
Definition complete_symmetric_with_static_keys (derive : list Z → outcome Error SessionKeys)
    (handshake : SymmetricHandshake) : SM D Error SecureSession :=
  let! k := sm_lift (derive (sh_context handshake)) in
  let! expected_card := sm_lift (cryptogram k 0x00 (sh_context handshake)) in
  complete_symmetric handshake k (Some expected_card).

(** [challenge] is what [getrandom::fill] gives. *)
Definition authenticate_symmetric_with_static_keys (challenge : option (list Z)) (authkey_id : Z)
    (derive : list Z → outcome Error SessionKeys) : SM D Error SecureSession :=
  let! challenge := sm_lift (ok_or #CKR_RANDOM_NO_RNG challenge) in
  let! handshake := begin_symmetric authkey_id challenge in
  complete_symmetric_with_static_keys derive handshake.

Definition authenticate_symmetric_detect_format (challenge : option (list Z)) (authkey_id : Z)
    (derive : list Z → outcome Error SessionKeys) : SM D Error (option SecureSession) := λ d,
  match ok_or #CKR_RANDOM_NO_RNG challenge with
  | Err e => (Err e, d)
  | Panic => (Panic, d)
  | Ok challenge =>
      match begin_symmetric authkey_id challenge d with
      | (Ok handshake, d) =>
          let '(r, d) := complete_symmetric_with_static_keys derive handshake d in
          (omap_ok Some r, d)
      | (Err error, d) =>
          if is_wrong_length_error error then (Ok None, d) else (Err error, d)
      | (Panic, d) => (Panic, d)
      end
  end.

(** [p256_valid] is [SoftwarePublicKey::validate] for an uncompressed point. *)
Definition parse_p256_public_key (p256_valid : list Z → bool) (encoded : list Z)
  : outcome Error unit :=
  if negb (len encoded =? P256_PUBLIC_KEY_LENGTH) || negb (at_ encoded 0 =? 0x04)
  then Err #CKR_DEVICE_ERROR
  else if p256_valid encoded then Ok tt else Err #CKR_DEVICE_ERROR.

Definition begin_asymmetric (p256_valid : list Z → bool) (authkey_id : Z)
    (host_ephemeral_public : list Z) : SM D Error AsymmetricHandshake :=
  let! _ := sm_lift (parse_p256_public_key p256_valid host_ephemeral_public) in
  let create_data := be16 authkey_id ++ host_ephemeral_public in
  let! response := sm_map_err map_authentication_error
                     (send_plain_protocol COMMAND_CREATE_SESSION create_data) in
  guard_err (negb (len response =? 1 + P256_PUBLIC_KEY_LENGTH + ASYMMETRIC_RECEIPT_LENGTH))
    #CKR_DEVICE_ERROR ;!
  sm_ret (mkAsymmetricHandshake (at_ response 0)
            (host_ephemeral_public ++ slice 1 (1 + P256_PUBLIC_KEY_LENGTH) response)
            (zdrop (1 + P256_PUBLIC_KEY_LENGTH) response)).

Definition complete_asymmetric (handshake : AsymmetricHandshake) (k : SessionKeys) : SecureSession :=
  new_session (ah_sid handshake) k (increment_counter (replicate 16 0)) (ah_receipt handshake) true.

Definition complete_asymmetric_with_session_keys (handshake : AsymmetricHandshake)
    (s_enc s_mac s_rmac : list Z) : outcome Error SecureSession :=
  let? k := SessionKeys_import s_enc s_mac s_rmac in
  Ok (complete_asymmetric handshake k).

Definition send_invalid_close (session_id : Z) (c chain : list Z) (d : D) : D :=
  match SessionKeys_import (replicate 16 0) (replicate 16 0) (replicate 16 0) with
  | Ok k => (send_command close_session_command (new_session session_id k c chain false, d)).2.2
  | _ => d
  end.

Definition close_failed_asymmetric_handshake (handshake : AsymmetricHandshake) (d : D) : D :=
  send_invalid_close (ah_sid handshake) (increment_counter (replicate 16 0)) (ah_receipt handshake) d.

Definition device_public_key_bytes : SM D Error (list Z) :=
  let! encoded := send_plain (Command_empty GetDevicePublicKey) in
  guard_err (negb (len encoded =? P256_PUBLIC_KEY_LENGTH)
             || negb (at_ encoded 0 =? EC_P256_AUTHENTICATION_ALGORITHM)) #CKR_DEVICE_ERROR ;!
  sm_ret (0x04 :: zdrop 1 encoded).
End hsm.

(** ** The device half *)

Section peer.
Context `{SoftwareKeyCore}.

Definition peer_request (encoded : list Z) (command : Z) : SM SecureSession Error (list Z) := λ s,
  if negb (valid s) then (Err #CKR_SESSION_CLOSED, s)
  else
    match Frame_parse encoded with
    | Err e => (Err e, s)
    | Panic => (Panic, s)
    | Ok frame =>
        if negb (frame_command frame =? command) || (len (frame_data frame) <? HSM_MAC_LENGTH)
        then (Err #CKR_DEVICE_ERROR, set_valid false s)
        else
          let payload_length := len (frame_data frame) - HSM_MAC_LENGTH in
          match command_mac (keys s) (chaining_value s ++ ztake (3 + payload_length) encoded) with
          | Err e => (Err e, s)
          | Panic => (Panic, s)
          | Ok mac =>
              if bool_decide (ztake HSM_MAC_LENGTH mac = zdrop payload_length (frame_data frame))
              then (Ok (ztake payload_length (frame_data frame)), set_chain mac s)
              else (Err #CKR_ENCRYPTED_DATA_INVALID, set_valid false s)
          end
    end.

(** The handler closure may have state of its own. *)
Definition peer_exchange {A} (handler : Z → list Z → SM A Error (Z * list Z)) (encoded : list Z)
  : SM (SecureSession * A) Error (list Z) :=
  let! payload := sm_fst (peer_request encoded COMMAND_SESSION_MESSAGE) in
  let! s := sm_gets fst in
  (if (len payload <? 1 + AES_BLOCK_SIZE) || negb (at_ payload 0 =? sid s)
      || negb ((len payload - 1) mod AES_BLOCK_SIZE =? 0)
   then sm_fst (sm_modify (set_valid false)) ;! sm_err #CKR_DEVICE_ERROR
   else sm_ret tt) ;!
  let! iv := sm_lift (keys_iv (keys s) (counter s)) in
  let! clear := sm_lift (keys_cbc (keys s) iv (zdrop 1 payload) false) in
  let! clear := sm_lift (unpad_iso7816 clear) in
  let! request := sm_lift (Frame_parse clear) in
  let closes_session := frame_command request =? command_code CloseSession in
  let! '(response_command, response_data) :=
    sm_snd (handler (frame_command request) (frame_data request)) in
  let! clear_response := sm_lift (Frame_new response_command response_data) in
  let! ciphertext := sm_lift (keys_cbc (keys s) iv (pad_iso7816 (Frame_encode clear_response)) true) in
  let response_data := [sid s] ++ ciphertext in
  let response := [Z.lor COMMAND_SESSION_MESSAGE RESPONSE_BIT]
                  ++ be16 (as_u16 (len response_data + HSM_MAC_LENGTH)) ++ response_data in
  let! response_mac := sm_lift (peer_response_mac (keys s) (chaining_value s ++ response)) in
  sm_fst (sm_modify advance_counter) ;!
  sm_fst (sm_modify (λ s, if closes_session then set_valid false s else s)) ;!
  sm_ret (response ++ ztake HSM_MAC_LENGTH response_mac).

(** A device behind a connector: what the peer refuses is answered with an error
    frame. *)
Definition hsm_connector {A} (handler : Z → list Z → SM A Error (Z * list Z)) (version : Z * Z)
  : Connector (SecureSession * A) := {|
  send bytes st :=
    match peer_exchange handler bytes st with
    | (Ok answer, st') => (Ok answer, st')
    | (_, st') => (Ok (Frame_encode (mkFrame COMMAND_ERROR [0x04])), st')
    end;
  apdu_capabilities _ := EXTENDED;
  firmware _ := version;
|}.

(** The same session at both ends, with usable keys. *)
Definition same_session (s p : SecureSession) : Prop :=
  sid p = sid s ∧ keys p = keys s ∧ counter p = counter s ∧ chaining_value p = chaining_value s.

Definition keys_ok (k : SessionKeys) : bool :=
  match k with
  | Some m => (len (lk_enc m) =? 16) && (len (lk_mac m) =? 16) && (len (lk_rmac m) =? 16)
  | None => false
  end.

Definition secure_session_ok (s : SecureSession) : bool :=
  keys_ok (keys s) && (len (counter s) =? 16) && (len (chaining_value s) =? 16).
End peer.

(** ** Frames *)

Lemma Frame_parse_bytes c d :
  len d ≤ 65535 → Frame_parse ([c] ++ be16 (len d) ++ d) = Ok (mkFrame c d).
Proof.
  intros Hd. unfold Frame_parse. rewrite !len_app, len_be16. change (len [c]) with 1.
  pose proof (len_nonneg d). test_false (1 + (2 + len d) <? 3).
  change (at_ ([c] ++ be16 (len d) ++ d) 1) with (len d / 256).
  change (at_ ([c] ++ be16 (len d) ++ d) 2) with (len d mod 256).
  rewrite of_be16_be16. test_true (1 + (2 + len d) =? 3 + len d). cbn [negb].
  change (at_ ([c] ++ be16 (len d) ++ d) 0) with c.
  change (zdrop 3 ([c] ++ be16 (len d) ++ d)) with d.
  unfold Frame_new. by test_false (65535 <? len d).
Qed.

Lemma Frame_encode_bytes f :
  len (frame_data f) ≤ 65535 →
  Frame_encode f = [frame_command f] ++ be16 (len (frame_data f)) ++ frame_data f.
Proof.
  intros Hl. unfold Frame_encode, as_u16. pose proof (len_nonneg (frame_data f)).
  by rewrite Z.mod_small by lia.
Qed.

Lemma Frame_parse_encode f : len (frame_data f) ≤ 65535 → Frame_parse (Frame_encode f) = Ok f.
Proof.
  intros Hl. rewrite Frame_encode_bytes by done. rewrite Frame_parse_bytes by done. by destruct f.
Qed.

Lemma len_Frame_encode f : len (Frame_encode f) = 3 + len (frame_data f).
Proof. unfold Frame_encode. rewrite !len_app, len_be16. change (len [frame_command f]) with 1. lia. Qed.

(** ** The counter *)

Lemma reverse_snoc {A} (l : list A) x : reverse (l ++ [x]) = x :: reverse l.
Proof. by rewrite reverse_app. Qed.

Lemma increment_be_bytes w n :
  0 ≤ n < 256 ^ Z.of_nat w →
  increment_counter (be_bytes w n) = be_bytes w ((n + 1) mod 256 ^ Z.of_nat w).
Proof.
  unfold increment_counter. revert n. induction w as [|w IH]; intros n Hn; [done|].
  rewrite Nat2Z.inj_succ, Z.pow_succ_r in * by lia. set (m := 256 ^ Z.of_nat w) in *.
  assert (0 < m) by (apply Z.pow_pos_nonneg; lia).
  cbn [be_bytes]. rewrite reverse_snoc. cbn [increment_le].
  assert ((n mod 256 + 1) mod 256 = (n + 1) mod 256) as E1 by (by rewrite Z.add_mod_idemp_l by lia).
  rewrite E1.
  assert (((n + 1) mod (256 * m)) mod 256 = (n + 1) mod 256) as E2.
  { rewrite Z.rem_mul_r by lia. rewrite (Z.mul_comm 256 (_ mod _)), Z.mod_add by lia.
    by rewrite Z.mod_mod by lia. }
  assert (((n + 1) mod (256 * m)) / 256 = ((n + 1) / 256) mod m) as E3.
  { rewrite Z.rem_mul_r by lia. rewrite (Z.mul_comm 256 (_ mod _)), Z.div_add by lia.
    rewrite (Z.div_small ((n + 1) mod 256)); [lia|apply Z.mod_pos_bound; lia]. }
  rewrite E2, E3.
  assert (0 ≤ n / 256 < m) as Hq by (split; [apply Z.div_pos; lia|apply Z.div_lt_upper_bound; lia]).
  pose proof (Z.div_mod n 256 ltac:(lia)). pose proof (Z.mod_pos_bound n 256 ltac:(lia)).
  destruct ((n + 1) mod 256 =? 0) eqn:E; cbn [negb]; bool_to_prop; rewrite reverse_cons.
  - rewrite IH by done.
    assert ((n + 1) / 256 = n / 256 + 1) as ->; [|done].
    pose proof (Z.div_mod (n + 1) 256 ltac:(lia)). lia.
  - rewrite reverse_involutive.
    assert ((n + 1) / 256 = n / 256) as ->; [|by rewrite (Z.mod_small (n / 256) m) by lia].
    assert (n mod 256 ≠ 255).
    { intros E255. rewrite E255 in E1. change ((255 + 1) mod 256) with 0 in E1. lia. }
    symmetry. apply (Z.div_unique _ _ _ (n mod 256 + 1)); lia.
Qed.

Lemma length_increment_le l : length (increment_le l) = length l.
Proof. induction l as [|b l IH]; [done|]. cbn [increment_le]. case_if; cbn; by rewrite ?IH. Qed.

Lemma len_increment_counter c : len (increment_counter c) = len c.
Proof.
  unfold increment_counter, len. by rewrite length_reverse, length_increment_le, length_reverse.
Qed.

(** ** Working keys under the laws *)

Section key_lemmas.
Context `{SoftwareKeyCoreLaws}.

Lemma keys_ok_inv k :
  keys_ok k = true → ∃ m, k = Some m ∧ valid_aes_key (lk_enc m) = true ∧
    valid_aes_key (lk_mac m) = true ∧ valid_aes_key (lk_rmac m) = true.
Proof.
  destruct k as [m|]; [|done]. unfold keys_ok, valid_aes_key. intros Hk. exists m.
  bool_to_prop. split_and!; [done|..]; lia.
Qed.

Lemma keys_iv_ok k c :
  keys_ok k = true → len c = 16 → ∃ iv, keys_iv k c = Ok iv ∧ len iv = 16.
Proof.
  intros Hk Hc. apply keys_ok_inv in Hk as (m & -> & He & _).
  destruct (block_valid _ _ He Hc) as (iv & E & Hl). exists iv.
  unfold keys_iv, aes_encrypt_block. cbn. by rewrite E.
Qed.

Lemma command_mac_ok k input :
  keys_ok k = true → ∃ mac, command_mac k input = Ok mac ∧ len mac = 16.
Proof.
  intros Hk. apply keys_ok_inv in Hk as (m & -> & _ & Hm & _).
  destruct (cmac_valid _ input Hm) as (mac & E & Hl). exists mac.
  unfold command_mac, aes_cmac. cbn. by rewrite E.
Qed.

Lemma response_mac_ok k input :
  keys_ok k = true → ∃ mac, peer_response_mac k input = Ok mac ∧ len mac = 16 ∧
    verify_response_mac k input (ztake 8 mac) = Ok tt.
Proof.
  intros Hk. apply keys_ok_inv in Hk as (m & -> & _ & _ & Hr).
  destruct (cmac_valid _ input Hr) as (mac & E & Hl). exists mac.
  unfold peer_response_mac, verify_response_mac, aes_cmac. cbn. rewrite E. cbn.
  rewrite len_ztake by lia. rewrite Hl. cbn. by rewrite bool_decide_true.
Qed.

Lemma keys_cbc_inverse k iv dat :
  keys_ok k = true → len iv = 16 →
  ∃ out, keys_cbc k iv (pad_iso7816 dat) true = Ok out ∧
    len out = div_ceil (len dat + 1) 16 * 16 ∧ len dat < len out ≤ len dat + 16 ∧
    (let? clear := keys_cbc k iv out false in unpad_iso7816 clear) = Ok dat.
Proof.
  intros Hk Hiv. apply keys_ok_inv in Hk as (m & -> & He & _).
  destruct (pad_blocks dat) as [Hmod Hlen].
  destruct (cbc_inverse (lk_enc m) iv _ He Hiv Hmod) as (out & E & Hout & Hdec). exists out.
  unfold keys_cbc, material, ok_or, aes_cbc, pad_iso7816, unpad_iso7816. cbn [obind].
  rewrite E, Hdec. cbn. rewrite unpad_pad, Hout. split_and!; [done| |lia..|done].
  set (n := len (shared_pad_iso7816 dat)) in *. unfold div_ceil.
  apply Z.mod_divide in Hmod as [q Hq]; [|lia]. rewrite Hq. f_equal.
  apply (Z.div_unique _ _ _ (len dat - 16 * (q - 1))); lia.
Qed.
End key_lemmas.

(** ** One command, seen from both ends *)

Section exchange.
Context `{SoftwareKeyCoreLaws}.

(** An authenticated message: header with the length of data and MAC, data. *)
Definition message_prefix (c : Z) (dat : list Z) : list Z :=
  [c] ++ be16 (len dat + HSM_MAC_LENGTH) ++ dat.

Lemma len_message_prefix c dat : len (message_prefix c dat) = 3 + len dat.
Proof. unfold message_prefix. rewrite !len_app, len_be16. change (len [c]) with 1. lia. Qed.

Lemma parse_message c dat mac :
  len dat + 8 ≤ 65535 → len mac = 16 →
  Frame_parse (message_prefix c dat ++ ztake 8 mac) = Ok (mkFrame c (dat ++ ztake 8 mac)).
Proof.
  intros Hd Hm. unfold message_prefix, HSM_MAC_LENGTH. rewrite <- !app_assoc.
  replace (len dat + 8) with (len (dat ++ ztake 8 mac)) by (rewrite len_app, len_ztake; lia).
  apply Frame_parse_bytes. rewrite len_app, len_ztake; lia.
Qed.

Lemma peer_request_ok p c dat mac :
  valid p = true → len dat + 8 ≤ 65535 → len mac = 16 →
  command_mac (keys p) (chaining_value p ++ message_prefix c dat) = Ok mac →
  peer_request (message_prefix c dat ++ ztake 8 mac) c p = (Ok dat, set_chain mac p).
Proof.
  intros Hv Hd Hm Hmac. unfold peer_request. rewrite Hv, parse_message by done.
  cbn [negb frame_command frame_data]. rewrite Z.eqb_refl. cbn [negb orb].
  pose proof (len_nonneg dat). unfold HSM_MAC_LENGTH.
  assert (len (dat ++ ztake 8 mac) = len dat + 8) as -> by (rewrite len_app, len_ztake; lia).
  test_false (len dat + 8 <? 8). replace (len dat + 8 - 8) with (len dat) by lia.
  rewrite <- (len_message_prefix c dat), ztake_app_len, Hmac.
  rewrite ztake_app_len, zdrop_app_len. by rewrite bool_decide_true.
Qed.

(** The host's check of an authenticated answer. *)
Lemma check_authenticated_ok s command c body mac :
  len body + 8 ≤ 65535 → len mac = 16 →
  verify_response_mac (keys s) (chaining_value s ++ message_prefix c body) (ztake 8 mac) = Ok tt →
  check_authenticated s command true (message_prefix c body ++ ztake 8 mac)
    (mkFrame c (body ++ ztake 8 mac)) = Ok (mkFrame c body).
Proof.
  intros Hb Hm Hv. unfold check_authenticated. cbn [negb andb frame_data frame_command].
  pose proof (len_nonneg body).
  assert (len (body ++ ztake 8 mac) = len body + 8) as -> by (rewrite len_app, len_ztake; lia).
  unfold HSM_MAC_LENGTH. test_false (len body + 8 <? 8).
  replace (len body + 8 - 8) with (len body) by lia.
  assert (ztake 1 (message_prefix c body ++ ztake 8 mac)
          ++ be16 (as_u16 (len body + 8))
          ++ slice 3 (3 + len body) (message_prefix c body ++ ztake 8 mac)
          = message_prefix c body) as ->.
  { unfold message_prefix at 3. unfold as_u16, HSM_MAC_LENGTH. rewrite Z.mod_small by lia.
    do 2 f_equal. change 3 with (len ([c] ++ be16 (len body + HSM_MAC_LENGTH))).
    unfold message_prefix. rewrite app_assoc, <- app_assoc. by rewrite slice_middle. }
  rewrite zdrop_app_len, ztake_app_len, Hv. cbn [map_err obind]. unfold Frame_new.
  by test_false (65535 <? len body).
Qed.

Lemma div_ceil_mult n : (div_ceil n 16 * 16) mod 16 = 0.
Proof. apply Z.mod_mul. lia. Qed.

(** What the device does with an encrypted command, and what it sends back. *)
Lemma peer_exchange_ok {A} (handler : Z → list Z → SM A Error (Z * list Z)) p a a' ct mac iv code dat rc rd :
  valid p = true → secure_session_ok p = true → len mac = 16 →
  1 + len ct + 8 ≤ 65535 → len ct mod 16 = 0 → 16 ≤ len ct →
  command_mac (keys p) (chaining_value p ++ message_prefix COMMAND_SESSION_MESSAGE ([sid p] ++ ct))
    = Ok mac →
  keys_iv (keys p) (counter p) = Ok iv → len iv = 16 → len dat ≤ 65535 →
  (let? clear := keys_cbc (keys p) iv ct false in unpad_iso7816 clear)
    = Ok (Frame_encode (mkFrame code dat)) →
  handler code dat a = (Ok (rc, rd), a') → len rd ≤ 65000 →
  let back rct := message_prefix (Z.lor COMMAND_SESSION_MESSAGE RESPONSE_BIT) ([sid p] ++ rct) in
  let p1 := advance_counter (set_chain mac p) in
  ∃ rct rmac,
    peer_exchange handler (message_prefix COMMAND_SESSION_MESSAGE ([sid p] ++ ct) ++ ztake 8 mac) (p, a)
      = (Ok (back rct ++ ztake 8 rmac),
         (if code =? command_code CloseSession then set_valid false p1 else p1, a')) ∧
    len rmac = 16 ∧ verify_response_mac (keys p) (mac ++ back rct) (ztake 8 rmac) = Ok tt ∧
    len rct mod 16 = 0 ∧ 16 ≤ len rct ≤ 65035 ∧
    (let? clear := keys_cbc (keys p) iv rct false in unpad_iso7816 clear)
      = Ok (Frame_encode (mkFrame rc rd)).
Proof.
  intros Hv Hp Hm Hct Hctm Hct16 Hmac Hiv Hivl Hdat Hclear Hh Hrd back p1.
  unfold secure_session_ok in Hp. bool_to_prop.
  pose proof (len_nonneg rd). pose proof (len_nonneg ct).
  assert (len ([sid p] ++ ct) = 1 + len ct) as Hpl by (rewrite len_app; done).
  destruct (keys_cbc_inverse (keys p) iv (Frame_encode (mkFrame rc rd)))
    as (rct & Henc & Hrlen & Hrbound & Hdec); [done|done|].
  rewrite len_Frame_encode in Hrbound. cbn [frame_data] in Hrbound.
  assert (len rct mod 16 = 0) as Hrmod by (rewrite Hrlen; apply div_ceil_mult).
  destruct (response_mac_ok (keys p) (mac ++ back rct)) as (rmac & Ermac & Hrm & Hverify); [done|].
  exists rct, rmac.
  assert (16 ≤ len rct) by (apply Z.mod_divide in Hrmod as [q Hq]; lia).
  split_and!; try done; [|lia].
  unfold peer_exchange, sbind at 1, sm_fst at 1. cbn [fst snd].
  rewrite peer_request_ok by (done || lia).
  unfold sbind, sm_gets, sm_lift, sm_fst, sm_snd, sm_modify, sm_ret, sm_err. cbn [fst snd].
  change (sid (set_chain mac p)) with (sid p). change (keys (set_chain mac p)) with (keys p).
  change (counter (set_chain mac p)) with (counter p).
  change (chaining_value (set_chain mac p)) with mac.
  change (at_ ([sid p] ++ ct) 0) with (sid p). rewrite Hpl, Z.eqb_refl.
  unfold AES_BLOCK_SIZE. test_false (1 + len ct <? 1 + 16).
  replace (1 + len ct - 1) with (len ct) by lia. rewrite Hctm. cbn [orb negb Z.eqb].
  rewrite Hiv. change (zdrop 1 ([sid p] ++ ct)) with ct.
  destruct (keys_cbc (keys p) iv ct false) as [clear| |]; [|done..]. cbn [obind] in Hclear.
  rewrite Hclear, Frame_parse_encode by done. cbn [fst snd frame_command frame_data].
  rewrite Hh. unfold Frame_new. test_false (65535 <? len rd). rewrite Henc.
  assert (len ([sid p] ++ rct) = 1 + len rct) as -> by (rewrite len_app; done).
  unfold HSM_MAC_LENGTH, as_u16. rewrite (Z.mod_small (1 + len rct + 8)) by lia.
  assert ([Z.lor COMMAND_SESSION_MESSAGE RESPONSE_BIT] ++ be16 (1 + len rct + 8) ++ [sid p] ++ rct
          = back rct) as ->.
  { unfold back, message_prefix, HSM_MAC_LENGTH. by rewrite (len_app [sid p]). }
  rewrite Ermac. cbn [fst snd]. by destruct (code =? command_code CloseSession).
Qed.

Lemma send_authenticated_ok `{Connector D} command dat mac answer body rmac s (d d' : D) :
  len dat + 8 ≤ 65535 → len mac = 16 → len body + 8 ≤ 65535 → len rmac = 16 →
  command_mac (keys s) (chaining_value s ++ message_prefix command dat) = Ok mac →
  send (message_prefix command dat ++ ztake 8 mac) d
    = (Ok (message_prefix answer body ++ ztake 8 rmac), d') →
  verify_response_mac (keys s) (mac ++ message_prefix answer body) (ztake 8 rmac) = Ok tt →
  send_authenticated command dat true (s, d) = (Ok (mkFrame answer body), (set_chain mac s, d')).
Proof.
  intros Hd Hm Hb Hrm Hmac Hsend Hv. pose proof (len_nonneg dat).
  unfold send_authenticated, HSM_MAC_LENGTH. unfold as_u16. rewrite Z.mod_small by lia.
  change ([command] ++ be16 (len dat + 8) ++ dat) with (message_prefix command dat).
  unfold sbind, guard_err, sm_gets, sm_lift, sm_fst, sm_snd, sm_modify. cbn [fst snd].
  test_false (65535 <? len dat + 8). rewrite Hmac. cbn [fst snd]. rewrite Hsend. cbn [fst snd].
  rewrite parse_message by done. by rewrite check_authenticated_ok.
Qed.

Lemma same_session_ok s p : same_session s p → secure_session_ok p = secure_session_ok s.
Proof. intros (_ & E1 & E2 & E3). unfold secure_session_ok. by rewrite E1, E2, E3. Qed.

(** The session after one exchange, at either end. *)
Definition after_exchange (mac : list Z) (s : SecureSession) : SecureSession :=
  advance_counter (set_chain mac s).

Lemma after_exchange_ok mac s :
  len mac = 16 → secure_session_ok s = true → secure_session_ok (after_exchange mac s) = true.
Proof.
  unfold secure_session_ok. cbn [after_exchange advance_counter set_chain keys counter chaining_value].
  rewrite len_increment_counter. intros -> Hs. bool_to_prop.
  repeat (apply andb_true_iff; split); try done; lia.
Qed.

Lemma validate_command_length version command :
  validate_command version command = Ok tt →
  secure_message_length (len (cmd_data command)) ≤ maximum_command_size version.1 version.2 ∧
  is_session_protocol (cmd_code command) = false.
Proof.
  unfold validate_command. destruct (is_session_protocol (cmd_code command)); cbn [orb]; [done|].
  intros Hv. split; [|done].
  destruct (match cmd_code command with GetDeviceInfo | GetDevicePublicKey => true | _ => false end);
    [done|]. case_if; [done|]. by bool_to_prop.
Qed.

Lemma maximum_command_size_bound major minor : maximum_command_size major minor ≤ 8192.
Proof. unfold maximum_command_size. case_if; done. Qed.

(** The bytes a command puts on the wire. *)
Lemma outer_length data_length :
  0 ≤ data_length → div_ceil (3 + data_length + 1) 16 * 16 = secure_message_length data_length - 12.
Proof. intros Hd. unfold secure_message_length, AES_BLOCK_SIZE, HSM_MAC_LENGTH. lia. Qed.

Lemma command_exchange {A} (handler : Z → list Z → SM A Error (Z * list Z)) version s p a a'
    command rc rd :
  secure_session_ok s = true → same_session s p → valid s = true → valid p = true →
  validate_command version command = Ok tt →
  handler (command_code (cmd_code command)) (cmd_data command) a = (Ok (rc, rd), a') →
  len rd ≤ 65000 →
  let result := require_response (mkFrame rc rd) (command_code (cmd_code command)) in
  let closes := bool_decide (cmd_code command = CloseSession) in
  ∃ mac, len mac = 16 ∧
    @send_command _ _ (hsm_connector handler version) command (s, (p, a))
    = (result,
       (if closes && is_ok result then clear_keys (set_valid false (after_exchange mac s))
        else after_exchange mac s,
        (if closes then set_valid false (after_exchange mac p) else after_exchange mac p, a'))).
Proof.
  intros Hs Hsync Hvs Hvp Hval Hh Hrd result closes. pose proof Hsync as (Esid & Ek & Ec & Ech).
  pose proof (validate_command_length _ _ Hval) as [Hlen _].
  pose proof (maximum_command_size_bound version.1 version.2).
  pose proof (len_nonneg (cmd_data command)) as Hd0.
  pose proof (same_session_ok s p Hsync) as Hpok. rewrite Hs in Hpok.
  pose proof Hs as Hs'. unfold secure_session_ok in Hs'. bool_to_prop.
  set (code := command_code (cmd_code command)) in *.
  assert (len (cmd_data command) ≤ 8192) as Hd.
  { unfold secure_message_length, AES_BLOCK_SIZE, HSM_MAC_LENGTH, div_ceil in Hlen.
    pose proof (Z.div_mod (3 + len (cmd_data command) + 1 + 16 - 1) 16 ltac:(lia)).
    pose proof (Z.mod_pos_bound (3 + len (cmd_data command) + 1 + 16 - 1) 16 ltac:(lia)). lia. }
  destruct (keys_iv_ok (keys s) (counter s)) as (iv & Hiv & Hivl); [done|done|].
  destruct (keys_cbc_inverse (keys s) iv (Frame_encode (mkFrame code (cmd_data command))))
    as (ct & Henc & Hctl & Hctb & Hdec); [done|done|].
  rewrite len_Frame_encode in Hctb, Hctl. cbn [frame_data] in Hctb, Hctl.
  assert (len ct mod 16 = 0) as Hctm by (rewrite Hctl; apply div_ceil_mult).
  assert (16 ≤ len ct) as Hct16 by (apply Z.mod_divide in Hctm as [q Hq]; lia).
  destruct (command_mac_ok (keys s)
    (chaining_value s ++ message_prefix COMMAND_SESSION_MESSAGE ([sid s] ++ ct))) as (mac & Hmac & Hm);
    [done|].
  exists mac. split; [done|].
  destruct (peer_exchange_ok handler p a a' ct mac iv code (cmd_data command) rc rd)
    as (rct & rmac & Hpeer & Hrm & Hverify & Hrmod & Hrb & Hrdec);
    rewrite ?Ek, ?Ec, ?Ech, ?Esid; try done; [lia|lia|].
  rewrite Ek, Esid in *.
  unfold send_command. cbn [fst snd]. rewrite Hvs. cbn [negb].
  change (@firmware _ (hsm_connector handler version) (p, a)) with version. rewrite Hval.
  unfold send_command_inner. fold code.
  assert (len ([sid s] ++ ct) = 1 + len ct) as Hol by (rewrite len_app; done).
  assert (len ([sid s] ++ rct) = 1 + len rct) as Hrl by (rewrite len_app; done).
  set (p' := if code =? command_code CloseSession then _ else _) in Hpeer.
  assert (@send_authenticated _ _ (hsm_connector handler version) COMMAND_SESSION_MESSAGE
            ([sid s] ++ ct) true (set_valid false s, (p, a))
    = (Ok (mkFrame (Z.lor COMMAND_SESSION_MESSAGE RESPONSE_BIT) ([sid s] ++ rct)),
       (set_chain mac (set_valid false s), (p', a')))) as Hsend.
  { apply (send_authenticated_ok (H1 := hsm_connector handler version) _ _ mac _ _ rmac);
      rewrite ?Hol, ?Hrl; try done; try lia. cbn [send hsm_connector]. by rewrite Hpeer. }
  unfold sbind, sm_gets, sm_lift, sm_fst, sm_modify, guard_err. cbn [fst snd].
  change (keys (set_valid false s)) with (keys s).
  change (counter (set_valid false s)) with (counter s).
  change (sid (set_valid false s)) with (sid s).
  unfold Frame_new at 1. test_false (65535 <? len (cmd_data command)).
  rewrite Hiv, Henc, Hsend.
  change (require_response (mkFrame (Z.lor COMMAND_SESSION_MESSAGE RESPONSE_BIT) ([sid s] ++ rct))
            COMMAND_SESSION_MESSAGE) with (Ok (E := Error) ([sid s] ++ rct)).
  cbn iota beta. rewrite Hrl. change (at_ ([sid s] ++ rct) 0) with (sid s). rewrite Z.eqb_refl.
  change (zdrop 1 ([sid s] ++ rct)) with rct.
  unfold AES_BLOCK_SIZE. test_false (1 + len rct <? 1 + 16).
  replace (1 + len rct - 1) with (len rct) by lia. rewrite Hrmod. cbn [orb negb Z.eqb].
  destruct (keys_cbc (keys s) iv rct false) as [clear| |]; [|done..]. cbn [obind] in Hrdec.
  rewrite Hrdec, Frame_parse_encode by (cbn; lia). cbn [fst snd]. fold result closes.
  assert ((code =? command_code CloseSession) = closes) as Hclose.
  { unfold code, closes. destruct (cmd_code command); done. }
  unfold p'. rewrite Hclose.
  destruct closes, (is_ok result); cbn [andb negb valid set_valid]; try done;
    unfold after_exchange, advance_counter, set_chain, set_valid; cbn; rewrite ?Hvs; done.
Qed.
End exchange.

(** ** Any device *)

(** An answer accepted with a required MAC carries it. *)
Lemma check_authenticated_inv `{SoftwareKeyCore} s command encoded frame f :
  check_authenticated s command true encoded frame = Ok f →
  ∃ body tag, frame_data frame = body ++ tag ∧ len tag = 8 ∧ f = mkFrame (frame_command frame) body ∧
    verify_response_mac (keys s)
      (chaining_value s ++ ztake 1 encoded ++ be16 (as_u16 (len (frame_data frame)))
       ++ slice 3 (3 + len body) encoded) tag = Ok tt.
Proof.
  unfold check_authenticated. cbn [negb andb]. intros E.
  destruct (len (frame_data frame) <? HSM_MAC_LENGTH) eqn:El; [by repeat case_match|].
  bool_to_prop. unfold HSM_MAC_LENGTH in *. set (n := len (frame_data frame) - 8) in *.
  apply bind_Ok in E as ([] & Ev & E). unfold Frame_new in E. case_if; [done|]. injection E as <-.
  exists (ztake n (frame_data frame)), (zdrop n (frame_data frame)).
  assert (len (ztake n (frame_data frame)) = n) as -> by (rewrite len_ztake; lia).
  split_and!; [by rewrite ztake_zdrop|rewrite len_zdrop; lia|done|].
  by destruct (verify_response_mac _ _ _) as [[]| |].
Qed.

(** [send_authenticated] keeps the key material, the counter and validity. *)
Lemma send_authenticated_frame `{SoftwareKeyCore} `{Connector D} command dat b s (d : D) :
  let '(r, (s', _)) := send_authenticated command dat b (s, d) in
  sid s' = sid s ∧ keys s' = keys s ∧ counter s' = counter s ∧ valid s' = valid s.
Proof.
  unfold send_authenticated, sbind, guard_err, sm_gets, sm_lift, sm_fst, sm_snd, sm_modify.
  cbn [fst snd]. repeat (case_match; cbn in *; simplify_eq; try done).
Qed.

(** How [send_command_inner] can leave a session valid. *)
Lemma send_command_inner_valid `{SoftwareKeyCore} `{Connector D} command s (d : D) r s' d' :
  send_command_inner command (s, d) = (r, (s', d')) → valid s' = true →
  keys s' = keys s ∧ counter s' = increment_counter (counter s) ∧ sid s' = sid s ∧
  ∃ iv ciphertext s1 d1 outer,
    keys_iv (keys s) (counter s) = Ok iv ∧
    keys_cbc (keys s) iv (pad_iso7816 (Frame_encode
      (mkFrame (command_code (cmd_code command)) (cmd_data command)))) true = Ok ciphertext ∧
    send_authenticated COMMAND_SESSION_MESSAGE ([sid s] ++ ciphertext) true (set_valid false s, d)
      = (Ok outer, (s1, d1)) ∧ chaining_value s' = chaining_value s1 ∧
    (cmd_code command = CloseSession → is_ok r = false).
Proof.
  unfold send_command_inner. intros Hrun Hvalid.
  unfold sbind at 1 in Hrun. unfold sm_fst at 1, sm_modify at 1 in Hrun. cbn [fst snd] in Hrun.
  unfold sbind at 1, sm_lift at 1 in Hrun. unfold Frame_new in Hrun.
  destruct (65535 <? len (cmd_data command)); [by simplify_eq|].
  unfold sbind at 1, sm_gets at 1 in Hrun. cbn [fst snd] in Hrun.
  unfold sbind at 1, sm_lift at 1 in Hrun. cbn [keys counter set_valid] in Hrun.
  destruct (keys_iv (keys s) (counter s)) as [iv| |] eqn:Eiv; [|by simplify_eq..].
  unfold sbind at 1, sm_lift at 1 in Hrun.
  destruct (keys_cbc (keys s) iv _ true) as [ciphertext| |] eqn:Ect; [|by simplify_eq..].
  cbn [sid set_valid] in Hrun. unfold sbind at 1 in Hrun.
  pose proof (send_authenticated_frame COMMAND_SESSION_MESSAGE ([sid s] ++ ciphertext) true
                (set_valid false s) d) as Hframe.
  destruct (send_authenticated _ _ true (set_valid false s, d)) as [[outer| |] [s1 d1]] eqn:Esend;
    destruct Hframe as (Hsid & Hkeys & Hcounter & Hv1); cbn in Hsid, Hkeys, Hcounter, Hv1;
    [|simplify_eq; congruence..].
  unfold sbind, sm_lift, guard_err, sm_fst, sm_modify in Hrun. cbn [fst snd] in Hrun.
  destruct (require_response outer COMMAND_SESSION_MESSAGE) as [encrypted| |];
    [|simplify_eq; congruence..].
  case_match; [|simplify_eq; congruence..].
  destruct (keys_cbc (keys s) iv (zdrop 1 encrypted) false) as [clear| |]; [|simplify_eq; congruence..].
  destruct (unpad_iso7816 clear) as [plain| |]; [|simplify_eq; congruence..].
  destruct (Frame_parse plain) as [response| |]; [|simplify_eq; congruence..].
  injection Hrun as <- <- <-. cbn in *. rewrite Hkeys, Hcounter, Hsid.
  split_and!; try done. exists iv, ciphertext, s1, d1, outer. split_and!; try done.
  intros Hclose. rewrite bool_decide_true in Hvalid by done. by apply negb_true_iff in Hvalid.
Qed.

Lemma send_command_closed `{SoftwareKeyCore} `{Connector D} command s (d : D) :
  valid s = false → send_command command (s, d) = (Err #CKR_SESSION_CLOSED, (s, d)).
Proof. intros Hv. unfold send_command. cbn. by rewrite Hv. Qed.

(** The connector with a record of the requests sent through it. *)
Definition recorded `{Connector D} : Connector (D * list (list Z)) := {|
  send bytes st := let '(r, d) := send bytes st.1 in (r, (d, st.2 ++ [bytes]));
  apdu_capabilities st := apdu_capabilities st.1;
  firmware st := firmware st.1;
|}.

Lemma send_authenticated_recorded `{SoftwareKeyCore} `{Connector D} command dat b s (d : D) log :
  let '(_, (_, (_, log'))) := @send_authenticated _ _ recorded command dat b (s, (d, log)) in
  log' = log ∨ ∃ mac, command_mac (keys s) (chaining_value s ++ [command]
      ++ be16 (as_u16 (len dat + HSM_MAC_LENGTH)) ++ dat) = Ok mac ∧
    log' = log ++ [([command] ++ be16 (as_u16 (len dat + HSM_MAC_LENGTH)) ++ dat)
                   ++ ztake HSM_MAC_LENGTH mac].
Proof.
  unfold send_authenticated, sbind, guard_err, sm_gets, sm_lift, sm_fst, sm_snd, sm_modify.
  cbn [fst snd]. case_if; [by left|]. destruct (command_mac _ _) as [mac| |]; [|by left..].
  cbn [send recorded fst snd]. destruct (send _ d) as [[answer| |] d']; cbn [fst snd];
    try (right; exists mac; done).
  destruct (Frame_parse answer); right; by exists mac.
Qed.

Lemma send_command_recorded `{SoftwareKeyCoreLaws} `{Connector D} command s (d : D) log :
  secure_session_ok s = true →
  let '(_, (_, (_, log'))) := @send_command _ _ recorded command (s, (d, log)) in
  log' = log ∨ ∃ request, log' = log ++ [request] ∧
    len request = secure_message_length (len (cmd_data command)) ∧
    len request ≤ maximum_command_size (firmware d).1 (firmware d).2.
Proof.
  intros Hs. unfold secure_session_ok in Hs. bool_to_prop.
  unfold send_command. cbn [fst snd]. destruct (valid s); cbn [negb]; [|by left].
  change (@firmware _ recorded (d, log)) with (firmware d).
  destruct (validate_command (firmware d) command) as [[]| |] eqn:Ev; [|by left..].
  apply validate_command_length in Ev as [Hlen _].
  unfold send_command_inner, sbind, sm_gets, sm_lift, sm_fst, sm_modify. cbn [fst snd].
  unfold Frame_new at 1. destruct (65535 <? len (cmd_data command)); [by left|].
  cbn [keys counter set_valid sid].
  destruct (keys_iv_ok (keys s) (counter s)) as (iv & -> & Hiv); [done|done|].
  destruct (keys_cbc_inverse (keys s) iv (Frame_encode (mkFrame (command_code (cmd_code command))
     (cmd_data command)))) as (ct & -> & Hct & _ & _); [done|done|].
  pose proof (send_authenticated_recorded COMMAND_SESSION_MESSAGE ([sid s] ++ ct) true
    (set_valid false s) d log) as Hsend.
  destruct (send_authenticated _ _ _ _) as [r [s1 [d1 log1]]].
  match goal with |- match ?m with _ => _ end => assert (m.2.2.2 = log1) as Hlog end.
  { unfold guard_err. repeat (case_match; cbn in *; simplify_eq; try done). }
  match goal with |- match ?m with _ => _ end => destruct m as [r' [s' [d' log']]] end.
  cbn in Hlog. subst log'.
  destruct Hsend as [->|(mac & Hmac & ->)]; [by left|]. right.
  assert (len mac = 16) as Hm16.
  { destruct (command_mac_ok (keys s) (chaining_value s ++ [COMMAND_SESSION_MESSAGE]
      ++ be16 (as_u16 (len ([sid s] ++ ct) + HSM_MAC_LENGTH)) ++ [sid s] ++ ct))
      as (mac' & Em & Hm'); [done|]. cbn [keys set_valid chaining_value] in Hmac. congruence. }
  eexists. split; [done|].
  rewrite len_Frame_encode in Hct. cbn [frame_data] in Hct.
  pose proof (len_nonneg (cmd_data command)). rewrite outer_length in Hct by done.
  rewrite !len_app, len_be16, len_ztake, Hct, Hm16 by (unfold HSM_MAC_LENGTH; lia).
  change (len [COMMAND_SESSION_MESSAGE]) with 1. change (len [sid s]) with 1.
  unfold HSM_MAC_LENGTH. lia.
Qed.

(** The handshake, on any device. *)
Lemma complete_symmetric_ok `{SoftwareKeyCore} `{Connector D} handshake k expected (d d' : D) session :
  complete_symmetric handshake k expected d = (Ok session, d') →
  (∀ e, expected = Some e → e = sh_card_cryptogram handshake) ∧
  keys session = k ∧ sid session = sh_sid handshake ∧ valid session = true ∧
  counter session = increment_counter (replicate 16 0) ∧
  ∃ host frame, cryptogram k 0x01 (sh_context handshake) = Ok host ∧
    send_authenticated COMMAND_AUTHENTICATE_SESSION ([sh_sid handshake] ++ host) false
      (new_session (sh_sid handshake) k (replicate 16 0) (replicate 16 0) false, d)
      = (Ok frame, (new_session (sh_sid handshake) k (replicate 16 0) (chaining_value session) false, d')) ∧
    frame = mkFrame (Z.lor COMMAND_AUTHENTICATE_SESSION RESPONSE_BIT) [].
Proof.
  unfold complete_symmetric. destruct (cryptogram k 1 (sh_context handshake)) as [host| |] eqn:Eh;
    [|done..].
  set (start := new_session _ _ _ _ _). intros E.
  pose proof (send_authenticated_frame COMMAND_AUTHENTICATE_SESSION ([sh_sid handshake] ++ host)
                false start d) as Hframe.
  assert (asymmetric (send_authenticated COMMAND_AUTHENTICATE_SESSION ([sh_sid handshake] ++ host)
            false (start, d)).2.1 = false) as Hasym.
  { unfold send_authenticated, sbind, guard_err, sm_gets, sm_lift, sm_fst, sm_snd, sm_modify.
    cbn [fst snd]. repeat (case_match; cbn in *; simplify_eq; try done). }
  destruct (send_authenticated _ _ false (start, d)) as [[frame| |] [s1 d1]] eqn:Es; [|done..].
  destruct Hframe as (Hsid & Hkeys & Hcounter & Hv). cbn [fst snd] in Hasym.
  destruct (require_response frame COMMAND_AUTHENTICATE_SESSION) as [dat| |] eqn:Er; cbn in E;
    [|by repeat case_match|done].
  destruct (len dat =? 0) eqn:El; cbn in E; [|by repeat case_match].
  set (mismatch := match expected with Some e => _ | None => false end) in E.
  destruct mismatch eqn:Em; [by repeat case_match|]. injection E as <- <-.
  cbn. rewrite Hcounter, Hsid, Hkeys, Hv. split_and!; try done.
  - intros e ->. unfold mismatch in Em. apply negb_false_iff, bool_decide_eq_true in Em. done.
  - exists host, frame. split_and!; [done| |].
    + do 3 f_equal. destruct s1. cbn in *. by subst.
    + unfold require_response in Er. case_if; [done|]. case_if; [done|]. injection Er as <-.
      bool_to_prop. apply len_zero_iff in El. destruct frame; cbn in *. by subst.
Qed.

(** ** Properties *)

(** C29: Over a session both ends share, every command that [validate_command]
    admits is executed by the device exactly once and its result, a response or a
    device error, is what [send_command] returns; the two ends then share the
    session again, with the next counter. Closing ends it at both ends, and the
    host's keys are gone. *)
Theorem hsm_session_end_to_end `{SoftwareKeyCoreLaws} {A}
    (handler : Z → list Z → SM A Error (Z * list Z)) version s p a a' command rc rd :
  secure_session_ok s = true → same_session s p → valid s = true → valid p = true →
  validate_command version command = Ok tt →
  handler (command_code (cmd_code command)) (cmd_data command) a = (Ok (rc, rd), a') →
  len rd ≤ 65000 →
  ∃ s' p', @send_command _ _ (hsm_connector handler version) command (s, (p, a))
      = (require_response (mkFrame rc rd) (command_code (cmd_code command)), (s', (p', a'))) ∧
    counter s' = increment_counter (counter s) ∧
    if bool_decide (cmd_code command = CloseSession) then
      valid p' = false ∧
      (is_ok (require_response (mkFrame rc rd) (command_code (cmd_code command))) = true →
       valid s' = false ∧ keys s' = None)
    else same_session s' p' ∧ valid s' = true ∧ valid p' = true ∧ secure_session_ok s' = true.
Proof.
  intros Hs Hsync Hvs Hvp Hval Hh Hrd.
  destruct (command_exchange handler version s p a a' command rc rd Hs Hsync Hvs Hvp Hval Hh Hrd)
    as (mac & Hm & ->). eexists _, _. split; [done|].
  destruct Hsync as (E1 & E2 & E3 & E4).
  case_bool_decide; cbn [andb].
  - split; [by destruct (is_ok _)|]. split; [done|]. intros ->. done.
  - split; [done|]. split_and!; [|done|done|by apply after_exchange_ok].
    unfold same_session. cbn. by rewrite E1, E2, E3.
Qed.

Definition hsm_sample_session : SecureSession :=
  new_session 3 (Some (mkLocalKeys (replicate 16 1) (replicate 16 2) (replicate 16 3)))
    (replicate 16 0) (replicate 16 7) false.
Definition hsm_sample_handler (code : Z) (dat : list Z) : SM (list Z) Error (Z * list Z) :=
  λ log, (Ok (Z.lor code RESPONSE_BIT, dat ++ dat), log ++ [code]).

Lemma hsm_session_end_to_end_witness :
  ∃ s' p', @send_command _ _ (hsm_connector hsm_sample_handler (2, 4))
      (mkCommand Echo [1; 2; 3]) (hsm_sample_session, (hsm_sample_session, []))
      = (Ok [1; 2; 3; 1; 2; 3], (s', (p', [1]))) ∧
    counter s' = increment_counter (replicate 16 0) ∧
    same_session s' p' ∧ valid s' = true ∧ valid p' = true ∧ secure_session_ok s' = true.
Proof.
  apply (hsm_session_end_to_end hsm_sample_handler (2, 4) hsm_sample_session hsm_sample_session []
           [1] (mkCommand Echo [1; 2; 3]) 0x81 [1; 2; 3; 1; 2; 3]);
    vm_compute; repeat split; congruence.
Defined.



(** The length check of [validate_command] is exact: whatever the device,
    [send_command] puts at most one message on the wire, that message has exactly
    [secure_message_length] bytes, and it fits the largest message the device's
    firmware accepts. *)
Theorem hsm_message_fits `{SoftwareKeyCoreLaws} `{Connector D} command s (d : D) log :
  secure_session_ok s = true →
  let '(_, (_, (_, log'))) := @send_command _ _ recorded command (s, (d, log)) in
  log' = log ∨ ∃ request, log' = log ++ [request] ∧
    len request = secure_message_length (len (cmd_data command)) ∧
    len request ≤ maximum_command_size (firmware d).1 (firmware d).2.
Proof. apply send_command_recorded. Qed.

Lemma hsm_message_fits_witness :
  let '(_, (_, (_, log'))) :=
    @send_command _ _ (@recorded _ (hsm_connector hsm_sample_handler (2, 3)))
      (mkCommand PutOpaque (replicate 2016 0)) (hsm_sample_session, ((hsm_sample_session, []), [])) in
  log' = [] ∨ ∃ request, log' = [request] ∧ len request = secure_message_length (len (replicate 2016 0))
    ∧ len request ≤ 2048.
Proof.
  apply (@hsm_message_fits _ _ _ (hsm_connector hsm_sample_handler (2, 3))
           (mkCommand PutOpaque (replicate 2016 0)) hsm_sample_session (hsm_sample_session, []) []).
  vm_compute. reflexivity.
Defined.


(** A device that accepts any host cryptogram. *)
Definition accepting : Connector unit := {|
  send _ d := (Ok (Frame_encode (mkFrame 0x84 [])), d);
  apdu_capabilities _ := EXTENDED;
  firmware _ := (2, 4);
|}.


(** The command counter that makes every IV unique is a 128-bit big-endian
    integer: [increment_counter] adds one to it, wrapping only after 2^128
    commands. *)
Theorem increment_counter_spec n :
  0 ≤ n < 2 ^ 128 → increment_counter (be_bytes 16 n) = be_bytes 16 ((n + 1) mod 2 ^ 128).
Proof. apply (increment_be_bytes 16). Qed.

Lemma increment_counter_spec_witness :
  increment_counter (be_bytes 16 0xffff) = be_bytes 16 ((0xffff + 1) mod 2 ^ 128).
Proof. apply increment_counter_spec. lia. Defined.

(** Command bytes and command codes correspond: a byte is accepted exactly
    when it is the code of a command, and that command is returned. *)
Theorem command_code_bijection v c :
  CommandCode_try_from v = Ok c ↔ command_code c = v.
Proof.
  unfold CommandCode_try_from. split.
  - destruct (List.find _ ALL_COMMAND_CODES) as [c'|] eqn:E; [|done]. intros [= <-].
    apply find_some in E as [_ E]. by apply Z.eqb_eq.
  - intros <-. by destruct c.
Qed.
