(* ===== verification/Storage.v ===== *)
(** * Storage: content-addressed object stores

    Models [src/src/storage.rs]: content references and their file names, the
    [StorageProvider] trait and its three implementations (unavailable, memory,
    local directory), and from [src/src/backed_object.rs] the translation of
    storage failures.

    SHA3-256 and the CBOR reader and writer are external crates: they are the
    classes [Sha3] and [MiniCbor]. Strings are the lists of their UTF-8 bytes.
    The local provider runs against a model of the [objects] directory
    ([Directory]) in which every file-system call may fail, a write may stop
    half way, and other processes may publish or delete objects between any two
    calls; the directory images between all calls are recorded, so that a claim
    about every one of them is a claim about a crash at any point. *)
From stdpp Require Import sorting pretty.
From S2P Require Import Prelude Errors.

(** ** Strings as UTF-8 bytes *)

Fixpoint str (s : string) : list Z :=
  match s with
  | EmptyString => []
  | String c rest => Z.of_N (Ascii.N_of_ascii c) :: str rest
  end.

Definition starts_with (prefix l : list Z) : bool := bool_decide (ztake (len prefix) l = prefix).

(** [s.strip_suffix(suffix)] *)
Definition strip_suffix (suffix l : list Z) : option (list Z) :=
  let n := len l - len suffix in
  if (0 <=? n) && bool_decide (zdrop n l = suffix) then Some (ztake n l) else None.

Definition ends_with (suffix l : list Z) : bool :=
  match strip_suffix suffix l with Some _ => true | None => false end.

(** [s.rsplit_once(c)]: split at the last occurrence. *)
Fixpoint rsplit_once (c : Z) (l : list Z) : option (list Z * list Z) :=
  match l with
  | [] => None
  | x :: rest =>
      match rsplit_once c rest with
      | Some (a, b) => Some (x :: a, b)
      | None => if x =? c then Some ([], rest) else None
      end
  end.

Definition continuation (b : Z) : bool := (0x80 <=? b) && (b <=? 0xbf).
Definition between (lo b hi : Z) : bool := (lo <=? b) && (b <=? hi).

(** Well-formed UTF-8, the check of [OsString::into_string]. *)
Fixpoint utf8_valid (l : list Z) : bool :=
  match l with
  | [] => true
  | b0 :: r0 =>
      if between 0 b0 0x7f then utf8_valid r0 else
      match r0 with
      | [] => false
      | b1 :: r1 =>
          if between 0xc2 b0 0xdf && continuation b1 then utf8_valid r1 else
          match r1 with
          | [] => false
          | b2 :: r2 =>
              if ((b0 =? 0xe0) && between 0xa0 b1 0xbf
                  || (b0 =? 0xed) && between 0x80 b1 0x9f
                  || (between 0xe1 b0 0xec || between 0xee b0 0xef) && continuation b1)
                 && continuation b2
              then utf8_valid r2 else
              match r2 with
              | [] => false
              | b3 :: r3 =>
                  ((b0 =? 0xf0) && between 0x90 b1 0xbf
                   || between 0xf1 b0 0xf3 && continuation b1
                   || (b0 =? 0xf4) && between 0x80 b1 0x8f)
                  && continuation b2 && continuation b3 && utf8_valid r3
              end
          end
      end
  end.

(** ** Constants *)

Definition SHA3_256_NAME : list Z := str "sha3-256".
Definition SHA3_256_LENGTH : Z := 32.
Definition TEMPORARY_FILE_PREFIX : list Z := str ".pkcs11rs-".
Definition TEMPORARY_FILE_SUFFIX : list Z := str ".tmp".

(** ** Failures *)

Inductive IoErrorKind : Type := NotFound | AlreadyExists | OtherIo.

Inductive StorageError : Type :=
| Unavailable
| StorageIo (error : IoErrorKind)
| InvalidReference
| Integrity
| InvalidCbor
| Conflict
| Provider (message : list Z)
| UnsupportedHashAlgorithm (name : list Z).

Definition storage_error (error : StorageError) : Error :=
  match error with
  | Unavailable => #CKR_TOKEN_WRITE_PROTECTED
  | InvalidReference | InvalidCbor | UnsupportedHashAlgorithm _ => #CKR_DATA_INVALID
  | StorageIo _ | Integrity | Conflict | Provider _ => #CKR_DEVICE_ERROR
  end.

(** ** Lower-case hexadecimal *)

Definition HEX : list Z := str "0123456789abcdef".

Definition encode_lower_hex (bytes : list Z) : list Z :=
  flat_map (λ byte, [at_ HEX (Z.shiftr byte 4); at_ HEX (Z.land byte 0x0f)]) bytes.

Definition lower_hex_value (value : Z) : outcome StorageError Z :=
  if between 48 value 57 then Ok (value - 48)
  else if between 97 value 102 then Ok (value - 97 + 10)
  else Err InvalidReference.

Fixpoint decode_hex_pairs (encoded : list Z) : outcome StorageError (list Z) :=
  match encoded with
  | h :: l :: rest =>
      let? high := lower_hex_value h in
      let? low := lower_hex_value l in
      let? rest := decode_hex_pairs rest in
      Ok (Z.lor (Z.shiftl high 4) low :: rest)
  | _ => Ok []
  end.

Definition decode_lower_hex (encoded : list Z) : outcome StorageError (list Z) :=
  if negb (len encoded mod 2 =? 0) then Err InvalidReference else decode_hex_pairs encoded.

(** ** External crates *)

(** [software_key_core::digest::HashAlgorithm::Sha3_256] *)
Class Sha3 : Type := {
  sha3_256 : list Z → list Z;
}.
Class Sha3Laws `{Sha3} : Prop := {
  sha3_length object : len (sha3_256 object) = 32;
  sha3_bytes object : bytes_ok (sha3_256 object) = true;
}.

(** [minicbor]: the reader calls return the value and the remaining bytes. *)
Class MiniCbor : Type := {
  cbor_skip : list Z → option (list Z);
  enc_array : Z → list Z;
  enc_str : list Z → list Z;
  enc_bytes : list Z → list Z;
  dec_array : list Z → option (option Z * list Z);
  dec_str : list Z → option (list Z * list Z);
  dec_bytes : list Z → option (list Z * list Z);
}.
Class MiniCborLaws `{MiniCbor} : Prop := {
  dec_enc_array n rest : 0 ≤ n < 24 → dec_array (enc_array n ++ rest) = Some (Some n, rest);
  dec_enc_str s rest : utf8_valid s = true → len s < 2 ^ 32 → dec_str (enc_str s ++ rest) = Some (s, rest);
  dec_enc_bytes b rest : len b < 2 ^ 32 → dec_bytes (enc_bytes b ++ rest) = Some (b, rest);
}.

(** ** Content references *)

Inductive ContentHashAlgorithm : Type := Sha3_256.
#[export] Instance ContentHashAlgorithm_eq_dec : EqDecision ContentHashAlgorithm.
Proof. solve_decision. Defined.

Definition algorithm_name (a : ContentHashAlgorithm) : list Z :=
  match a with Sha3_256 => SHA3_256_NAME end.

Definition digest_length (a : ContentHashAlgorithm) : Z :=
  match a with Sha3_256 => SHA3_256_LENGTH end.

Definition algorithm_digest `{Sha3} (a : ContentHashAlgorithm) (object : list Z) : list Z :=
  match a with Sha3_256 => sha3_256 object end.

Definition from_name (name : list Z) : outcome StorageError ContentHashAlgorithm :=
  if bool_decide (name = SHA3_256_NAME) then Ok Sha3_256
  else Err (UnsupportedHashAlgorithm name).

Record ContentReference : Type := mkReference {
  algorithm : ContentHashAlgorithm;
  digest : list Z;
}.
#[export] Instance ContentReference_eq_dec : EqDecision ContentReference.
Proof. solve_decision. Defined.
#[export] Instance ContentReference_countable : Countable ContentReference.
Proof.
  refine (inj_countable' digest (mkReference Sha3_256) _). by intros [[] d].
Defined.

(** The derived [Ord]: algorithm first, then the digest lexicographically. *)
Fixpoint lex_le (a b : list Z) : bool :=
  match a, b with
  | [], _ => true
  | _ :: _, [] => false
  | x :: a', y :: b' => (x <? y) || (x =? y) && lex_le a' b'
  end.
Definition reference_le (a b : ContentReference) : Prop := lex_le (digest a) (digest b) = true.
#[export] Instance reference_le_dec : RelDecision reference_le.
Proof. intros a b. unfold reference_le. apply _. Defined.

Definition for_object `{Sha3} (object : list Z) : ContentReference :=
  mkReference Sha3_256 (algorithm_digest Sha3_256 object).

Definition reference_new (a : ContentHashAlgorithm) (d : list Z)
    : outcome StorageError ContentReference :=
  if negb (len d =? digest_length a) then Err InvalidReference else Ok (mkReference a d).

Definition reference_to_cbor `{MiniCbor} (r : ContentReference) : list Z :=
  enc_array 2 ++ enc_str (algorithm_name (algorithm r)) ++ enc_bytes (digest r).

Definition reference_from_cbor `{MiniCbor} (encoded : list Z)
    : outcome StorageError ContentReference :=
  let? '(count, rest) := ok_or InvalidReference (dec_array encoded) in
  let? _ := bail (negb (bool_decide (count = Some 2))) InvalidReference in
  let? '(name, rest) := ok_or InvalidReference (dec_str rest) in
  let? a := from_name name in
  let? '(d, rest) := ok_or InvalidReference (dec_bytes rest) in
  let? _ := bail (negb (bool_decide (rest = []))) InvalidReference in
  let? reference := reference_new a d in
  let? _ := bail (negb (bool_decide (reference_to_cbor reference = encoded))) InvalidReference in
  Ok reference.

Definition filename (r : ContentReference) : list Z :=
  algorithm_name (algorithm r) ++ str "-" ++ encode_lower_hex (digest r) ++ str ".cbor".

Definition from_filename (name : list Z) : outcome StorageError ContentReference :=
  let? stem := ok_or InvalidReference (strip_suffix (str ".cbor") name) in
  let? '(a, d) := ok_or InvalidReference (rsplit_once 45 stem) in
  let? a := from_name a in
  let? d := decode_lower_hex d in
  reference_new a d.

Definition matches_object `{Sha3} (r : ContentReference) (object : list Z) : bool :=
  bool_decide (algorithm_digest (algorithm r) object = digest r).

Definition validate_cbor_object `{MiniCbor} (object : list Z) : outcome StorageError unit :=
  match cbor_skip object with
  | Some [] => Ok tt
  | _ => Err InvalidCbor
  end.

(** A reference whose digest is a byte string of the algorithm's length; the
    ones [new], [for_object] and [from_filename] construct. *)
Definition reference_ok (r : ContentReference) : bool :=
  (len (digest r) =? digest_length (algorithm r)) && bytes_ok (digest r).

(** ** File names *)

Lemma is_byte_spec b : is_byte b = true ↔ 0 ≤ b < 256.
Proof. unfold is_byte. lia. Qed.

Definition hex_pair_ok (b : Z) : bool :=
  match decode_hex_pairs [at_ HEX (Z.shiftr b 4); at_ HEX (Z.land b 0x0f)] with
  | Ok [b'] => b' =? b
  | _ => false
  end.

Lemma hex_pair_decodes b : 0 ≤ b < 256 → hex_pair_ok b = true.
Proof. apply (byte_forall hex_pair_ok). vm_compute. reflexivity. Qed.

Lemma decode_hex_pairs_cons h l rest :
  decode_hex_pairs (h :: l :: rest) =
    let? b := decode_hex_pairs [h; l] in
    let? rest := decode_hex_pairs rest in
    Ok (b ++ rest).
Proof.
  cbn [decode_hex_pairs].
  destruct (lower_hex_value h) as [x| |]; [|done|done].
  destruct (lower_hex_value l) as [y| |]; [|done|done]. cbn [obind].
  by destruct (decode_hex_pairs rest).
Qed.

Lemma decode_encode_pairs d :
  bytes_ok d = true → decode_hex_pairs (encode_lower_hex d) = Ok d.
Proof.
  induction d as [|b d IH]; [done|]. cbn [bytes_ok forallb]. intros H. bool_to_prop.
  unfold encode_lower_hex. cbn [flat_map app]. rewrite decode_hex_pairs_cons.
  pose proof (hex_pair_decodes b) as Hb. unfold hex_pair_ok in Hb.
  destruct (decode_hex_pairs [at_ HEX (Z.shiftr b 4); _]) as [[|b' [|]]| |];
    try (discriminate Hb; by apply is_byte_spec).
  cbn [obind]. fold (encode_lower_hex d). rewrite IH by done. cbn [obind app].
  assert (b' = b) as -> by (apply Z.eqb_eq, Hb; by apply is_byte_spec). done.
Qed.

Lemma len_encode_lower_hex d : len (encode_lower_hex d) = 2 * len d.
Proof.
  induction d as [|b d IH]; [done|]. unfold encode_lower_hex in *. cbn [flat_map app].
  rewrite !len_cons, IH. lia.
Qed.

Lemma decode_encode_lower_hex d :
  bytes_ok d = true → decode_lower_hex (encode_lower_hex d) = Ok d.
Proof.
  intros Hd. unfold decode_lower_hex. rewrite len_encode_lower_hex.
  rewrite Z.mul_comm, Z_mod_mult. by apply decode_encode_pairs.
Qed.

Lemma lower_hex_value_inv c v :
  lower_hex_value c = Ok v → 0 ≤ v < 16 ∧ at_ HEX v = c.
Proof.
  unfold lower_hex_value, between. intros H.
  destruct ((48 <=? c) && (c <=? 57)) eqn:E1.
  - simplify_eq. bool_to_prop. split; [lia|].
    assert (∃ k, c = 48 + k ∧ 0 ≤ k < 10) as (k & -> & Hk) by (exists (c - 48); lia).
    replace (48 + k - 48) with k by lia.
    pose proof (byte_forall (λ k, (10 <=? k) || (at_ HEX k =? 48 + k)) eq_refl k). lia.
  - destruct ((97 <=? c) && (c <=? 102)) eqn:E2; simplify_eq. bool_to_prop. split; [lia|].
    assert (∃ k, c = 97 + k ∧ 0 ≤ k < 6) as (k & -> & Hk) by (exists (c - 97); lia).
    replace (97 + k - 97 + 10) with (k + 10) by lia.
    pose proof (byte_forall (λ k, (6 <=? k) || (at_ HEX (k + 10) =? 97 + k)) eq_refl k). lia.
Qed.

Lemma byte_nibbles h l :
  0 ≤ h < 16 → 0 ≤ l < 16 →
  let b := Z.lor (Z.shiftl h 4) l in Z.shiftr b 4 = h ∧ Z.land b 0x0f = l ∧ is_byte b = true.
Proof.
  intros Hh Hl.
  pose proof (byte_forall (λ k, let h := k / 16 in let l := k mod 16 in
    let b := Z.lor (Z.shiftl h 4) l in
    (Z.shiftr b 4 =? h) && (Z.land b 0x0f =? l) && is_byte b) eq_refl (h * 16 + l)) as H.
  cbv beta zeta in H.
  assert ((h * 16 + l) / 16 = h) as E1 by (symmetry; apply (Z.div_unique _ _ _ l); lia).
  assert ((h * 16 + l) mod 16 = l) as E2 by (symmetry; apply (Z.mod_unique _ _ h); lia).
  rewrite E1, E2 in H. specialize (H ltac:(lia)). bool_to_prop. done.
Qed.

Lemma decode_hex_pairs_inv n encoded d :
  (length encoded ≤ n)%nat → len encoded mod 2 = 0 →
  decode_hex_pairs encoded = Ok d → encode_lower_hex d = encoded ∧ bytes_ok d = true.
Proof.
  revert encoded d. induction n as [|n IH]; intros [|h [|l rest]] d Hn He; simpl in Hn; try lia;
    try (by vm_compute in He); try (intros Hd; cbn in Hd; simplify_eq; done).
  intros H. cbn [decode_hex_pairs] in H. o_inv H. simplify_eq.
  rewrite !len_cons in He.
  replace (1 + (1 + len rest)) with (len rest + 1 * 2) in He by lia.
  rewrite Z_mod_plus_full in He.
  destruct (IH rest _ ltac:(lia) He E1) as [IH1 IH2].
  apply lower_hex_value_inv in E as [Ha <-], E0 as [Ha0 <-].
  destruct (byte_nibbles a a0 Ha Ha0) as (N1 & N2 & N3).
  unfold encode_lower_hex in *. cbn [flat_map app bytes_ok forallb].
  rewrite N1, N2, N3, IH1. done.
Qed.

Lemma strip_suffix_app suffix l : strip_suffix suffix (l ++ suffix) = Some l.
Proof.
  unfold strip_suffix. rewrite len_app. replace (len l + len suffix - len suffix) with (len l) by lia.
  pose proof (len_nonneg l). rewrite zdrop_app_len, ztake_app_len, bool_decide_true by done.
  by test_true (0 <=? len l).
Qed.

Lemma strip_suffix_inv suffix l stem : strip_suffix suffix l = Some stem → l = stem ++ suffix.
Proof.
  unfold strip_suffix. intros H. case_if; [|done]. simplify_eq. bool_to_prop.
  rewrite <- (ztake_zdrop (len l - len suffix) l) at 1. by f_equal.
Qed.

Lemma rsplit_once_absent c l : c ∉ l → rsplit_once c l = None.
Proof.
  induction l as [|x l IH]; [done|]. rewrite not_elem_of_cons. intros [Hx Hl]. cbn [rsplit_once].
  rewrite IH by done. by test_false (x =? c).
Qed.

Lemma rsplit_once_app c a b : c ∉ b → rsplit_once c (a ++ c :: b) = Some (a, b).
Proof.
  intros Hb. induction a as [|x a IH]; cbn [app rsplit_once].
  - by rewrite rsplit_once_absent, Z.eqb_refl.
  - by rewrite IH.
Qed.

Lemma rsplit_once_inv c l a b : rsplit_once c l = Some (a, b) → l = a ++ c :: b.
Proof.
  revert a. induction l as [|x l IH]; intros a; cbn [rsplit_once]; [done|].
  destruct (rsplit_once c l) as [[a' b']|]; intros H; simplify_eq.
  - cbn. f_equal. by apply IH.
  - case_if; simplify_eq. bool_to_prop. by subst.
Qed.

Lemma hex_no_dash d : bytes_ok d = true → 45 ∉ encode_lower_hex d.
Proof.
  induction d as [|b d IH]; [set_solver|]. cbn [bytes_ok forallb]. intros H. bool_to_prop.
  unfold encode_lower_hex in *. cbn [flat_map app]. rewrite !not_elem_of_cons.
  pose proof (byte_forall (λ b, negb (at_ HEX (Z.shiftr b 4) =? 45)
    && negb (at_ HEX (Z.land b 0x0f) =? 45)) eq_refl b) as Hb.
  specialize (Hb ltac:(by apply is_byte_spec)). cbv beta in Hb. bool_to_prop. split_and!; [lia|lia|auto].
Qed.

Lemma from_filename_filename r : reference_ok r = true → from_filename (filename r) = Ok r.
Proof.
  intros H. unfold reference_ok in H. bool_to_prop. destruct r as [a d]. cbn [algorithm digest] in *.
  unfold from_filename, filename. cbn [algorithm digest].
  rewrite !app_assoc, strip_suffix_app. cbn [ok_or obind]. rewrite <- app_assoc.
  change (str "-" ++ encode_lower_hex d) with (45 :: encode_lower_hex d).
  rewrite rsplit_once_app by by apply hex_no_dash. cbn [ok_or obind].
  destruct a. unfold from_name. rewrite bool_decide_true by done. cbn [obind].
  rewrite decode_encode_lower_hex by done. cbn [obind]. unfold reference_new.
  by rewrite H, Z.eqb_refl.
Qed.

Lemma from_filename_inv name r :
  from_filename name = Ok r → filename r = name ∧ reference_ok r = true.
Proof.
  unfold from_filename. intros H. apply bind_Ok in H as (stem & E & H).
  apply bind_Ok in H as ([a d] & E1 & H). o_inv H.
  destruct (strip_suffix _ name) as [stem'|] eqn:E4; [|done]. simpl in E. simplify_eq.
  destruct (rsplit_once 45 stem) as [[a' d']|] eqn:E5; [|done]. simpl in E1. simplify_eq.
  apply strip_suffix_inv in E4. apply rsplit_once_inv in E5. subst.
  unfold from_name in E0. case_bool_decide; simplify_eq.
  unfold decode_lower_hex in E2. destruct (negb _) eqn:E6; [done|]. bool_to_prop.
  apply (decode_hex_pairs_inv (length d)) in E2 as [<- Hd]; [|lia|done].
  unfold reference_new in H. destruct (negb _) eqn:E7; simplify_eq. bool_to_prop.
  unfold filename, reference_ok. cbn [algorithm digest]. rewrite Hd, E7, Z.eqb_refl.
  by rewrite <- !app_assoc.
Qed.

(** The file name of a content reference identifies it: parsing the name of
    a reference gives the reference back, and a name that parses to a reference
    is exactly the name of that reference, so no two names (upper-case digits,
    other algorithms, extra dashes) stand for one object. *)
Theorem filename_bijection (name : list Z) (r : ContentReference) :
  from_filename name = Ok r ↔ name = filename r ∧ reference_ok r = true.
Proof.
  split.
  - intros H. by apply from_filename_inv in H as [<- H].
  - intros [-> H]. by apply from_filename_filename.
Qed.

(** The CBOR form of a reference: decoding undoes encoding, and only the
    encoding itself is accepted. *)
Lemma reference_cbor_roundtrip `{MiniCborLaws} r :
  len (digest r) = digest_length (algorithm r) → reference_from_cbor (reference_to_cbor r) = Ok r.
Proof.
  intros Hr. destruct r as [[] d]. cbn [digest algorithm digest_length] in Hr.
  unfold reference_from_cbor, reference_to_cbor at 1. cbn [algorithm digest algorithm_name].
  rewrite dec_enc_array by lia. cbn [ok_or obind]. rewrite bool_decide_true by done. cbn [negb bail obind].
  rewrite dec_enc_str by done. cbn [ok_or obind].
  unfold from_name. rewrite bool_decide_true by done. cbn [obind].
  rewrite <- (app_nil_r (enc_bytes d)), dec_enc_bytes by (rewrite Hr; done). cbn [ok_or obind].
  rewrite bool_decide_true by done. cbn [negb bail obind].
  unfold reference_new. cbn [digest_length]. rewrite Hr, Z.eqb_refl. cbn [negb obind].
  rewrite bool_decide_true; [done|].
  unfold reference_to_cbor. cbn [algorithm digest algorithm_name]. by rewrite ?app_nil_r.
Qed.

Lemma reference_from_cbor_canonical `{MiniCbor} encoded r :
  reference_from_cbor encoded = Ok r → reference_to_cbor r = encoded.
Proof.
  unfold reference_from_cbor. intros E.
  apply bind_Ok in E as ([count rest] & _ & E). apply bind_Ok in E as (? & _ & E).
  apply bind_Ok in E as ([name rest'] & _ & E). apply bind_Ok in E as (? & _ & E).
  apply bind_Ok in E as ([d rest''] & _ & E). o_inv E.
  simplify_eq. unfold bail in *. repeat case_bool_decide; done.
Qed.

(** ** The provider trait *)

(** Implementations use interior mutability: a call may change the provider. *)
Class StorageProvider (P : Type) : Type := {
  supports_mutation : P → bool;
  provider_list : SM P StorageError (list ContentReference);
  provider_get : ContentReference → SM P StorageError (option (list Z));
  provider_put : list Z → SM P StorageError ContentReference;
  provider_delete : ContentReference → SM P StorageError bool;
}.

Inductive UnavailableStorageProvider : Type := UnavailableStorageProvider_.

Instance unavailable_provider : StorageProvider UnavailableStorageProvider := {|
  supports_mutation _ := false;
  provider_list := sm_err Unavailable;
  provider_get _ := sm_err Unavailable;
  provider_put _ := sm_err Unavailable;
  provider_delete _ := sm_err Unavailable;
|}.

(** [Vec::sort] and [Vec::dedup]; the keys of a [BTreeMap] come in this order. *)
Definition sort_references : list ContentReference → list ContentReference :=
  merge_sort reference_le.
Fixpoint dedup (l : list ContentReference) : list ContentReference :=
  match l with
  | x :: (y :: _) as rest => if bool_decide (x = y) then dedup rest else x :: dedup rest
  | _ => l
  end.

(** *** Memory

    The [RefCell] borrows end inside each method, so [try_borrow] succeeds. *)
Section memory.
Context `{Sha3, MiniCbor}.

Definition MemoryStorageProvider : Type := gmap ContentReference (list Z).

Definition memory_new : MemoryStorageProvider := ∅.

Definition memory_list : SM MemoryStorageProvider StorageError (list ContentReference) :=
  λ objects, (Ok (sort_references (map_to_list objects).*1), objects).

Definition memory_get (reference : ContentReference)
    : SM MemoryStorageProvider StorageError (option (list Z)) := λ objects,
  match objects !! reference with
  | Some object => (if negb (matches_object reference object) then Err Integrity else Ok (Some object), objects)
  | None => (Ok None, objects)
  end.

Definition memory_put (object : list Z)
    : SM MemoryStorageProvider StorageError ContentReference :=
  let! _ := sm_lift (validate_cbor_object object) in
  let reference := for_object object in
  λ objects,
    match objects !! reference with
    | Some existing =>
        (if bool_decide (existing = object) then Ok reference else Err Conflict, objects)
    | None => (Ok reference, <[reference := object]> objects)
    end.

Definition memory_delete (reference : ContentReference)
    : SM MemoryStorageProvider StorageError bool := λ objects,
  (Ok (bool_decide (is_Some (objects !! reference))), delete reference objects).

#[export] Instance memory_provider : StorageProvider MemoryStorageProvider := {|
  supports_mutation _ := true;
  provider_list := memory_list;
  provider_get := memory_get;
  provider_put := memory_put;
  provider_delete := memory_delete;
|}.
End memory.

(** *** The objects directory *)

Inductive Entry : Type :=
| RegularFile (content : list Z)
| OtherEntry.
#[export] Instance Entry_eq_dec : EqDecision Entry.
Proof. solve_decision. Defined.

Abbreviation Image := (gmap (list Z) Entry).

(** What another process using the same store does between two calls. *)
Inductive Other : Type :=
| OtherPublish (object : list Z)
| OtherDelete (reference : ContentReference).

(** The surroundings of one file-system call: what other processes did before
    it, and whether it fails (a write that fails has written some bytes). *)
Record Tick : Type := {
  others : list Other;
  fault : option Z;
}.

(** The directory, the calls to come, the images seen so far, the process
    identifier and the provider's counter of temporary files. *)
Record Directory : Type := mkDirectory {
  entries : Image;
  ticks : list Tick;
  images : list Image;
  process_id : Z;
  next_temporary_file : Z;
}.

Section local.
Context `{Sha3, MiniCbor}.

Definition other_step (image : Image) (o : Other) : Image :=
  match o with
  | OtherPublish object =>
      match validate_cbor_object object, image !! filename (for_object object) with
      | Ok _, None => <[filename (for_object object) := RegularFile object]> image
      | _, _ => image
      end
  | OtherDelete reference => delete (filename reference) image
  end.

Definition set_entries (image : Image) (d : Directory) : Directory :=
  mkDirectory image (ticks d) (entries d :: images d) (process_id d) (next_temporary_file d).

Definition next_tick (d : Directory) : option Z * Directory :=
  match ticks d with
  | [] => (None, d)
  | t :: ts =>
      (fault t, mkDirectory (foldl other_step (entries d) (others t)) ts
                  (entries d :: images d) (process_id d) (next_temporary_file d))
  end.

Definition syscall {A : Type} (partial : Z → Image → Image)
    (call : Image → outcome IoErrorKind A * Image) : SM Directory IoErrorKind A := λ d,
  let '(failed, d) := next_tick d in
  match failed with
  | Some n => (Err OtherIo, set_entries (partial n (entries d)) d)
  | None => let '(r, image) := call (entries d) in (r, set_entries image d)
  end.

(** A call that fails without effect. *)
Definition atomic {A : Type} (call : Image → outcome IoErrorKind A * Image) : SM Directory IoErrorKind A :=
  syscall (λ _ image, image) call.

Definition fs_read (path : list Z) : SM Directory IoErrorKind (list Z) :=
  atomic (λ image,
    (match image !! path with
     | Some (RegularFile content) => Ok content
     | Some OtherEntry => Err OtherIo
     | None => Err NotFound
     end, image)).

Definition fs_create_new (path : list Z) : SM Directory IoErrorKind unit :=
  atomic (λ image,
    match image !! path with
    | Some _ => (Err AlreadyExists, image)
    | None => (Ok tt, <[path := RegularFile []]> image)
    end).

(** The bytes reach the file the handle was opened on. *)
Definition write_content (path content : list Z) (image : Image) : Image :=
  alter (λ _, RegularFile content) path image.
Definition fs_write_all (path object : list Z) : SM Directory IoErrorKind unit :=
  syscall (λ n, write_content path (ztake n object))
    (λ image, (Ok tt, write_content path object image)).

Definition fs_sync : SM Directory IoErrorKind unit := atomic (λ image, (Ok tt, image)).

Definition fs_hard_link (source destination : list Z) : SM Directory IoErrorKind unit :=
  atomic (λ image,
    match image !! source, image !! destination with
    | None, _ => (Err NotFound, image)
    | Some _, Some _ => (Err AlreadyExists, image)
    | Some file, None => (Ok tt, <[destination := file]> image)
    end).

Definition fs_remove_file (path : list Z) : SM Directory IoErrorKind unit :=
  atomic (λ image,
    match image !! path with
    | Some (RegularFile _) => (Ok tt, delete path image)
    | Some OtherEntry => (Err OtherIo, image)
    | None => (Err NotFound, image)
    end).

(** [Path::exists]: a failing query counts as absent. *)
Definition fs_exists {E} (path : list Z) : SM Directory E bool := λ d,
  match atomic (λ image, (Ok (bool_decide (is_Some (image !! path))), image)) d with
  | (Ok b, d') => (Ok b, d')
  | (_, d') => (Ok false, d')
  end.

Definition fs_read_dir : SM Directory IoErrorKind (list (list Z * Entry)) :=
  atomic (λ image, (Ok (map_to_list image), image)).

(** [?] on an [io::Result] in code that returns [StorageError]. *)
Definition io {A} (c : SM Directory IoErrorKind A) : SM Directory StorageError A :=
  sm_map_err StorageIo c.

(** [match io_result { Ok, Err(kind), ... }] *)
Definition sm_match {S E F A B} (c : SM S E A) (ok : A → SM S F B) (err : E → SM S F B) : SM S F B := λ s,
  match c s with
  | (Ok a, s') => ok a s'
  | (Err e, s') => err e s'
  | (Panic, s') => (Panic, s')
  end.
End local.

(** *** The local provider *)

Fixpoint decimal_digits (fuel : nat) (n : Z) : list Z :=
  match fuel with
  | O => []
  | S f => (if n <? 10 then [] else decimal_digits f (n / 10)) ++ [48 + n mod 10]
  end.
(** [format!("{n}")] for a [u64]: at most twenty digits. *)
Definition decimal (n : Z) : list Z := decimal_digits 20 n.

Section local_provider.
Context `{Sha3, MiniCbor}.

Definition read_verified (reference : ContentReference)
    : SM Directory StorageError (option (list Z)) :=
  sm_match (fs_read (filename reference))
    (λ object,
      let! _ := sm_lift (validate_cbor_object object) in
      if negb (matches_object reference object) then sm_err Integrity
      else sm_ret (Some object))
    (λ error, match error with
              | NotFound => sm_ret None
              | _ => sm_err (StorageIo error)
              end).

Definition temporary_name (process id : Z) : list Z :=
  TEMPORARY_FILE_PREFIX ++ decimal process ++ str "-" ++ decimal id ++ TEMPORARY_FILE_SUFFIX.

(** [next_temporary_file.fetch_add(1)] *)
Definition fetch_add {E} : SM Directory E Z := λ d,
  (Ok (next_temporary_file d),
   mkDirectory (entries d) (ticks d) (images d) (process_id d)
     ((next_temporary_file d + 1) mod 2 ^ 64)).

Fixpoint temporary_file (fuel : nat) : SM Directory StorageError (list Z) :=
  match fuel with
  | O => λ d, (Panic, d)
  | S f =>
      let! id := fetch_add in
      let! pid := sm_gets process_id in
      let path := temporary_name pid id in
      sm_match (fs_create_new path)
        (λ _, sm_ret path)
        (λ error, match error with
                  | AlreadyExists => temporary_file f
                  | _ => sm_err (StorageIo error)
                  end)
  end.

Definition sync_directory : SM Directory StorageError unit :=
  let! _ := io fs_sync in
  io fs_sync.

(** The closure of [put] that writes, links and removes the temporary file. *)
Definition publish_object (reference : ContentReference) (object temporary : list Z)
    : SM Directory StorageError unit :=
  let! _ := io (fs_write_all temporary object) in
  let! _ := io fs_sync in
  let! _ := sm_match (fs_hard_link temporary (filename reference))
    (λ _, sm_ret tt)
    (λ error, match error with
              | AlreadyExists =>
                  let! existing := read_verified reference in
                  let! existing := sm_lift (ok_or Conflict existing) in
                  if negb (bool_decide (existing = object)) then sm_err Conflict else sm_ret tt
              | _ => sm_err (StorageIo error)
              end) in
  let! _ := io (fs_remove_file temporary) in
  sync_directory.

(** [let publish = c; cleanup; publish?;] *)
Definition sm_finally {S E A B} (c : SM S E A) (cleanup : SM S E B) : SM S E A := λ s,
  match c s with
  | (Panic, s') => (Panic, s')
  | (r, s') => match cleanup s' with
               | (Ok _, s'') => (r, s'')
               | (Err e, s'') => (Err e, s'')
               | (Panic, s'') => (Panic, s'')
               end
  end.

Definition local_put (fuel : nat) (object : list Z) : SM Directory StorageError ContentReference :=
  let! _ := sm_lift (validate_cbor_object object) in
  let reference := for_object object in
  let! existing := read_verified reference in
  match existing with
  | Some existing =>
      if bool_decide (existing = object) then sm_ret reference else sm_err Conflict
  | None =>
      let! temporary := temporary_file fuel in
      let! _ := sm_finally (publish_object reference object temporary)
        (let! remaining := fs_exists temporary in
         if (remaining : bool) then sm_ignore (io (fs_remove_file temporary)) else sm_ret tt) in
      sm_ret reference
  end.

Definition local_get (reference : ContentReference) : SM Directory StorageError (option (list Z)) :=
  read_verified reference.

Definition local_delete (reference : ContentReference) : SM Directory StorageError bool :=
  sm_match (fs_remove_file (filename reference))
    (λ _, let! _ := sync_directory in sm_ret true)
    (λ error, match error with
              | NotFound => sm_ret false
              | _ => sm_err (StorageIo error)
              end).

Definition is_temporary (name : list Z) : bool :=
  starts_with TEMPORARY_FILE_PREFIX name && ends_with TEMPORARY_FILE_SUFFIX name.

(** The body of the loop of [list]: [entry?] and [file_type()?] may fail. *)
Fixpoint list_entries (found : list (list Z * Entry))
    : SM Directory StorageError (list ContentReference) :=
  match found with
  | [] => sm_ret []
  | (name, entry) :: rest =>
      let! _ := io fs_sync in
      let! _ := io fs_sync in
      match entry with
      | OtherEntry => list_entries rest
      | RegularFile _ =>
          let! _ := guard_err (negb (utf8_valid name)) InvalidReference in
          if is_temporary name then list_entries rest
          else if negb (ends_with (str ".cbor") name) then list_entries rest
          else
            let! reference := sm_lift (from_filename name) in
            let! verified := read_verified reference in
            let! _ := sm_lift (ok_or Integrity verified) in
            let! references := list_entries rest in
            sm_ret (reference :: references)
      end
  end.

Definition local_list : SM Directory StorageError (list ContentReference) :=
  let! found := io fs_read_dir in
  let! references := list_entries found in
  sm_ret (dedup (sort_references references)).

(** The loop that looks for a free temporary name is run with more steps than
    the directory has entries. *)
Definition put_fuel (d : Directory) : nat := S (size (entries d)).

#[export] Instance local_provider : StorageProvider Directory := {|
  supports_mutation _ := true;
  provider_list := local_list;
  provider_get := local_get;
  provider_put object d := local_put (put_fuel d) object d;
  provider_delete := local_delete;
|}.
End local_provider.

(** ** Memory provider: a finite map of verified objects *)

(** Every stored object is well-formed CBOR and sits under its own digest. *)
Definition memory_ok `{Sha3, MiniCbor} (m : MemoryStorageProvider) : Prop :=
  map_Forall (λ r object, r = for_object object ∧ validate_cbor_object object = Ok tt) m.

#[export] Instance lex_le_total : Total reference_le.
Proof.
  intros [? a] [? b]. unfold reference_le. cbn [digest]. revert b.
  induction a as [|x a IH]; intros [|y b]; cbn [lex_le]; auto.
  destruct (IH b) as [E|E]; destruct (Z.lt_total x y) as [|[->|]];
    first [left; rewrite ?E; lia | right; rewrite ?E; lia].
Qed.

Lemma lex_le_trans a b c : lex_le a b = true → lex_le b c = true → lex_le a c = true.
Proof.
  revert b c. induction a as [|x a IH]; intros [|y b] [|z c]; cbn [lex_le]; try done.
  intros H1 H2. pose proof (IH b c).
  destruct (x <? y) eqn:?, (y <? z) eqn:?; cbn [orb] in *; bool_to_prop; try lia.
  subst. rewrite Z.eqb_refl. rewrite H; auto. lia.
Qed.

#[export] Instance reference_le_trans : Transitive reference_le.
Proof. intros a b c. apply lex_le_trans. Qed.

Lemma lex_le_antisym a b : lex_le a b = true → lex_le b a = true → a = b.
Proof.
  revert b. induction a as [|x a IH]; intros [|y b]; cbn [lex_le]; try done.
  intros H1 H2. destruct (x <? y) eqn:?, (y <? x) eqn:?; cbn [orb] in *; bool_to_prop; try lia.
  subst. f_equal. auto.
Qed.

Section memory_spec.
Context `{Sha3Laws, MiniCbor}.

Lemma matches_for_object object : matches_object (for_object object) object = true.
Proof. unfold matches_object, for_object. by rewrite bool_decide_true. Qed.

Lemma matches_object_inv r object : matches_object r object = true → r = for_object object.
Proof.
  unfold matches_object. intros E. bool_to_prop. destruct r as [[] d]. cbn in *.
  unfold for_object. cbn. by subst.
Qed.

(** The memory provider is a verified content store. From a store whose
    objects sit under their digests: [put] accepts exactly well-formed CBOR,
    returns the digest of the object, stores it (or reports a conflict when a
    different object has the same digest) and leaves every other object alone;
    [get] returns exactly what is stored; [delete] removes one object and says
    whether it was there; [list] returns every reference once, in order; and
    each operation keeps the store verified. *)
Theorem memory_provider_spec (m : MemoryStorageProvider) :
  memory_ok m →
  (∀ object, ∃ res m', memory_put object m = (res, m') ∧ memory_ok m' ∧
     (∀ r, r ≠ for_object object → m' !! r = m !! r) ∧
     match res with
     | Ok r => r = for_object object ∧ validate_cbor_object object = Ok tt ∧ m' !! r = Some object
     | Err InvalidCbor => validate_cbor_object object ≠ Ok tt ∧ m' = m
     | Err Conflict => m' = m ∧ ∃ old, old ≠ object ∧ m !! for_object object = Some old
     | _ => False
     end) ∧
  (∀ r, memory_get r m = (Ok (m !! r), m)) ∧
  (∀ r, memory_delete r m = (Ok (bool_decide (is_Some (m !! r))), delete r m) ∧
        memory_ok (delete r m)) ∧
  (∃ refs, memory_list m = (Ok refs, m) ∧ NoDup refs ∧ StronglySorted reference_le refs ∧
     ∀ r, r ∈ refs ↔ is_Some (m !! r)).
Proof.
  unfold MemoryStorageProvider in *. intros Hm. split_and!.
  - intros object. unfold memory_put, MemoryStorageProvider. rewrite sm_bind_unfold. unfold sm_lift.
    destruct (validate_cbor_object object) as [[]|e|] eqn:Ev;
      [|unfold validate_cbor_object in Ev; repeat case_match; simplify_eq;
        eexists _, _; split_and!; done..].
    destruct (m !! for_object object) as [old|] eqn:El.
    + eexists _, _. split_and!; [done|done|done|]. case_bool_decide; naive_solver.
    + eexists _, _. split_and!; [done| |by intros; rewrite lookup_insert_ne|].
      * by apply map_Forall_insert_2.
      * split_and!; [done|done|]. apply lookup_insert_eq.
  - intros r. unfold memory_get, MemoryStorageProvider. destruct (m !! r) as [object|] eqn:El; [|done].
    apply Hm in El as [-> _]. by rewrite matches_for_object.
  - intros r. split; [done|]. by apply map_Forall_delete.
  - eexists. split_and!; [done| | |].
    + unfold sort_references. rewrite merge_sort_Permutation. apply NoDup_fst_map_to_list.
    + apply StronglySorted_merge_sort; apply _.
    + intros r. unfold sort_references. rewrite merge_sort_Permutation, list_elem_of_fmap.
      split.
      * intros ([r' object] & -> & E). apply elem_of_map_to_list in E. by eexists.
      * intros [object E]. exists (r, object). split; [done|]. by apply elem_of_map_to_list.
Qed.
End memory_spec.

(** ** Local provider: crash safety

    [triple P c Q X]: from a state in [P], [c] either returns [a] in a state in
    [Q a], or fails (or panics) in a state in [X]. *)
Definition triple {S E A} (P : S → Prop) (c : SM S E A) (Q : A → S → Prop) (X : S → Prop) : Prop :=
  ∀ s, P s → match c s with (Ok a, s') => Q a s' | (_, s') => X s' end.

Section triples.
Context {S : Type}.
Implicit Types P X : S → Prop.

Lemma triple_ret {E A} P (a : A) (Q : A → S → Prop) X :
  (∀ s, P s → Q a s) → triple P (sm_ret a : SM S E A) Q X.
Proof. intros HQ s Hs. by apply HQ. Qed.

Lemma triple_err {E A} P (e : E) (Q : A → S → Prop) X :
  (∀ s, P s → X s) → triple P (sm_err e) Q X.
Proof. intros HX s Hs. by apply HX. Qed.

Lemma triple_lift {E A} P (c : outcome E A) (Q : A → S → Prop) X :
  (∀ a s, c = Ok a → P s → Q a s) → (∀ s, P s → X s) → triple P (sm_lift c) Q X.
Proof. intros HQ HX s Hs. unfold sm_lift. destruct c; auto. Qed.

Lemma triple_bind {E A B} P (c : SM S E A) (R : A → S → Prop) (f : A → SM S E B) Q X :
  triple P c R X → (∀ a, triple (R a) (f a) Q X) → triple P (sbind c f) Q X.
Proof.
  intros Hc Hf s Hs. rewrite sm_bind_unfold. specialize (Hc s Hs).
  destruct (c s) as [[a|e|] s']; auto. by apply Hf.
Qed.

Lemma triple_match {E F A B} P (c : SM S E A) (R : A → S → Prop) Y
    (ok : A → SM S F B) (err : E → SM S F B) Q X :
  triple P c R Y → (∀ a, triple (R a) (ok a) Q X) → (∀ e, triple Y (err e) Q X) →
  (∀ s, Y s → X s) → triple P (sm_match c ok err) Q X.
Proof.
  intros Hc Ho He HX s Hs. unfold sm_match. specialize (Hc s Hs).
  destruct (c s) as [[a|e|] s']; [by apply Ho|by apply He|auto].
Qed.

Lemma triple_map_err {E F A} P (f : E → F) (c : SM S E A) Q X :
  triple P c Q X → triple P (sm_map_err f c) Q X.
Proof.
  intros Hc s Hs. specialize (Hc s Hs). unfold sm_map_err. by destruct (c s) as [[]].
Qed.

Lemma triple_conseq {E A} P P' (c : SM S E A) (Q Q' : A → S → Prop) X X' :
  triple P' c Q' X' → (∀ s, P s → P' s) → (∀ a s, Q' a s → Q a s) → (∀ s, X' s → X s) →
  triple P c Q X.
Proof.
  intros Hc HP HQ HX s Hs. specialize (Hc s (HP s Hs)). destruct (c s) as [[]]; auto.
Qed.

Lemma triple_ignore {E A} P (c : SM S E A) X :
  triple P c (λ _, X) X → triple P (sm_ignore c : SM S E unit) (λ _, X) X.
Proof.
  intros Hc s Hs. specialize (Hc s Hs). unfold sm_ignore. by destruct (c s) as [[]].
Qed.

(** The clean-up runs after success and after failure. *)
Lemma triple_finally {E A B} P (c : SM S E A) (cleanup : SM S E B) (Q : A → S → Prop) X :
  triple P c Q X → (∀ a, triple (Q a) cleanup (λ _, Q a) X) → triple X cleanup (λ _, X) X →
  triple P (sm_finally c cleanup) Q X.
Proof.
  intros Hc Ho He s Hs. specialize (Hc s Hs). unfold sm_finally.
  destruct (c s) as [[a|e|] s']; [|specialize (He s' Hc)|done].
  - specialize (Ho a s' Hc). by destruct (cleanup s') as [[]].
  - by destruct (cleanup s') as [[]].
Qed.
End triples.

Section local_spec.
Context `{Sha3Laws, MiniCbor}.

(** A file under an object name holds exactly the object of that name. *)
Definition image_good (image : Image) : Prop :=
  ∀ r c, reference_ok r = true → image !! filename r = Some (RegularFile c) →
    r = for_object c ∧ validate_cbor_object c = Ok tt.

(** So does every image the directory went through. *)
Definition directory_good (d : Directory) : Prop :=
  image_good (entries d) ∧ Forall image_good (images d).

Lemma filename_inj r r' :
  reference_ok r = true → reference_ok r' = true → filename r = filename r' → r = r'.
Proof.
  intros Hr Hr' E. apply from_filename_filename in Hr, Hr'. rewrite E in Hr. congruence.
Qed.

Lemma for_object_ok object : reference_ok (for_object object) = true.
Proof.
  unfold reference_ok, for_object. cbn [digest algorithm algorithm_digest digest_length].
  by rewrite sha3_length, sha3_bytes.
Qed.

Lemma filename_not_temporary r pid id : filename r ≠ temporary_name pid id.
Proof.
  unfold filename, temporary_name. destruct r as [[] d]. cbn [algorithm algorithm_name].
  unfold SHA3_256_NAME, TEMPORARY_FILE_PREFIX. cbn [str app]. intros E.
  apply (f_equal head) in E. by vm_compute in E.
Qed.

Lemma image_good_insert image object :
  image_good image → validate_cbor_object object = Ok tt →
  image_good (<[filename (for_object object) := RegularFile object]> image).
Proof.
  intros Hi Hv r c Hr E. apply lookup_insert_Some in E as [[E1 E2]|[_ E]]; [|by apply Hi].
  simplify_eq. apply filename_inj in E1; [by subst|apply for_object_ok|done].
Qed.

Lemma image_good_delete image path : image_good image → image_good (delete path image).
Proof. intros Hi r c Hr E. apply lookup_delete_Some in E as [_ E]. by apply Hi. Qed.

Lemma image_good_other image o : image_good image → image_good (other_step image o).
Proof.
  intros Hi. destruct o as [object|r]; cbn [other_step]; [|by apply image_good_delete].
  destruct (validate_cbor_object object) as [[]| |] eqn:Hv; [|done|done].
  destruct (image !! _); [done|]. by apply image_good_insert.
Qed.

Lemma image_good_temporary image image' pid id :
  image_good image → (∀ name, name ≠ temporary_name pid id → image' !! name = image !! name) →
  image_good image'.
Proof.
  intros Hi Hf r c Hr E. rewrite Hf in E by apply filename_not_temporary. by apply Hi.
Qed.

Lemma others_temporary image os pid id :
  foldl other_step image os !! temporary_name pid id = image !! temporary_name pid id.
Proof.
  revert image. induction os as [|o os IH]; intros image; [done|]. cbn [foldl]. rewrite IH.
  destruct o as [object|r]; cbn [other_step].
  - destruct (validate_cbor_object object); [|done|done]. destruct (image !! filename _); [done|].
    apply lookup_insert_ne, filename_not_temporary.
  - apply lookup_delete_ne, filename_not_temporary.
Qed.

(** The object being stored, and whether other processes leave it in place. *)
Context (object : list Z) (Hvalid : validate_cbor_object object = Ok tt) (kept : Prop).

Definition keeps_object (t : Tick) : Prop :=
  Forall (λ o, match o with
               | OtherDelete r => filename r ≠ filename (for_object object)
               | OtherPublish _ => True
               end) (others t).

Definition base (d : Directory) : Prop :=
  directory_good d ∧ (kept → Forall keeps_object (ticks d)).
Definition stored (d : Directory) : Prop :=
  entries d !! filename (for_object object) = Some (RegularFile object).
Definition base_stored (d : Directory) : Prop := base d ∧ (kept → stored d).
(** The temporary file exists, and holds [content]. *)
Definition base_temporary (pid id : Z) (content : list Z) (d : Directory) : Prop :=
  base d ∧ entries d !! temporary_name pid id = Some (RegularFile content).

Lemma image_good_others image os : image_good image → image_good (foldl other_step image os).
Proof.
  revert image. induction os as [|o os IH]; intros image Hi; [done|].
  cbn [foldl]. by apply IH, image_good_other.
Qed.

Lemma base_next d : base d → base (next_tick d).2.
Proof.
  intros [[Hg Hi] Hk]. unfold next_tick. destruct (ticks d) as [|t ts] eqn:E; [by rewrite <- E in Hk|].
  split; [split|]; cbn [entries images ticks snd].
  - by apply image_good_others.
  - by constructor.
  - intros K. specialize (Hk K). by inversion Hk.
Qed.

Lemma stored_others image os :
  image !! filename (for_object object) = Some (RegularFile object) →
  keeps_object {| others := os; fault := None |} →
  foldl other_step image os !! filename (for_object object) = Some (RegularFile object).
Proof.
  unfold keeps_object. cbn [others]. intros Hs Hk. revert image Hs.
  induction Hk as [|o os Ho Hk IH]; intros image Hs; [done|]. cbn [foldl]. apply IH.
  destruct o as [object'|r]; cbn [other_step].
  - destruct (validate_cbor_object object'); [|done|done].
    destruct (image !! filename (for_object object')) eqn:E; [done|].
    rewrite lookup_insert_ne; [done|]. congruence.
  - by rewrite lookup_delete_ne.
Qed.

Lemma base_stored_next d : base_stored d → base_stored (next_tick d).2.
Proof.
  intros [Hb Hs]. split; [by apply base_next|]. intros K. specialize (Hs K).
  destruct Hb as [_ Hk]. specialize (Hk K). unfold next_tick, stored in *.
  destruct (ticks d) as [|t ts]; [done|]. cbn [entries snd]. inversion Hk; subst.
  by apply stored_others.
Qed.

Lemma base_temporary_next pid id content d :
  base_temporary pid id content d → base_temporary pid id content (next_tick d).2.
Proof.
  intros [Hb Ht]. split; [by apply base_next|]. unfold next_tick.
  destruct (ticks d) as [|t ts]; [done|]. cbn [entries snd]. by rewrite others_temporary.
Qed.

(** An invariant kept by other processes is kept by a call whose effect keeps it. *)
Lemma triple_syscall {A : Type} (P : Directory → Prop) (partial : Z → Image → Image)
    (call : Image → outcome IoErrorKind A * Image) (Q : A → Directory → Prop) (X : Directory → Prop) :
  (∀ d, P d → P (next_tick d).2) →
  (∀ d n, P d → X (set_entries (partial n (entries d)) d)) →
  (∀ d, P d → let '(r, image) := call (entries d) in
     match r with Ok a => Q a (set_entries image d) | _ => X (set_entries image d) end) →
  triple P (syscall partial call) Q X.
Proof.
  intros Hn Hp Hc s Hs. unfold syscall. specialize (Hn s Hs).
  destruct (next_tick s) as [[n|] d]; cbn [snd] in Hn; [by apply Hp|].
  specialize (Hc d Hn). destruct (call (entries d)) as [[] image]; done.
Qed.

Lemma base_set d image : base d → image_good image → base (set_entries image d).
Proof.
  intros [[Hg Hi] Hk] Hnew. split; [split|]; cbn [entries images ticks set_entries]; auto.
Qed.

Lemma base_same d : base d → base (set_entries (entries d) d).
Proof. intros Hb. apply base_set; [done|]. apply Hb. Qed.

(** A call without effect keeps each of the three invariants. *)
Lemma triple_query {A : Type} (P : Directory → Prop) (call : Image → outcome IoErrorKind A)
    (Q : A → Directory → Prop) :
  (∀ d, P d → P (next_tick d).2) → (∀ d, P d → P (set_entries (entries d) d)) →
  (∀ d a, P d → call (entries d) = Ok a → Q a (set_entries (entries d) d)) →
  triple P (atomic (λ image, (call image, image))) Q P.
Proof.
  intros Hn Hs HQ. apply triple_syscall; [done|auto|].
  intros d Hd. destruct (call (entries d)) eqn:E; auto.
Qed.

Lemma base_stored_same d : base_stored d → base_stored (set_entries (entries d) d).
Proof. intros [Hb Hs]. split; [by apply base_same|done]. Qed.

Lemma base_temporary_same pid id content d :
  base_temporary pid id content d → base_temporary pid id content (set_entries (entries d) d).
Proof. intros [Hb Ht]. split; [by apply base_same|done]. Qed.
End local_spec.

#[export] Hint Resolve base_next base_stored_next base_temporary_next base_same base_stored_same
  base_temporary_same : rust.

Section local_triples.
Context `{Sha3Laws, MiniCbor}.
Context (object : list Z) (Hvalid : validate_cbor_object object = Ok tt) (kept : Prop).
Abbreviation base := (base object kept).
Abbreviation base_stored := (base_stored object kept).
Abbreviation base_temporary := (base_temporary object kept).

(** [P] is kept by other processes and by calls without effect. *)
Definition stable (P : Directory → Prop) : Prop :=
  (∀ d, P d → P (next_tick d).2) ∧ (∀ d, P d → P (set_entries (entries d) d)).

Lemma base_is_stable : stable base.
Proof. split; auto with rust. Qed.
Lemma base_stored_is_stable : stable base_stored.
Proof. split; auto with rust. Qed.

Lemma fs_sync_triple P : stable P → triple P fs_sync (λ _, P) P.
Proof. intros [Hn Hs]. apply (triple_query P (λ _, Ok tt)); auto. Qed.

Lemma sync_directory_triple P : stable P → triple P sync_directory (λ _, P) P.
Proof.
  intros Hp. eapply triple_bind; [by apply triple_map_err, fs_sync_triple|].
  intros []. by apply triple_map_err, fs_sync_triple.
Qed.

(** What [read_verified] returns was in the directory when it was read. *)
Lemma read_verified_triple P r : stable P →
  triple P (read_verified r)
    (λ found d, P d ∧ ∀ c, found = Some c → entries d !! filename r = Some (RegularFile c)) P.
Proof.
  intros [Hn Hs]. eapply triple_match.
  - apply (triple_query P (λ image, match image !! filename r with
      | Some (RegularFile content) => Ok content
      | Some OtherEntry => Err OtherIo
      | None => Err NotFound
      end) (λ c d, P d ∧ entries d !! filename r = Some (RegularFile c))); [done|done|].
    intros d c Hd E. split; [by apply Hs|].
    cbn [entries set_entries]. by destruct (entries d !! _) as [[]|]; simplify_eq.
  - intros c. eapply triple_bind; [apply triple_lift; [|naive_solver]; by intros ? ? _ HP; exact HP|].
    intros []. destruct (negb _); [apply triple_err; naive_solver|]. apply triple_ret. naive_solver.
  - intros []; [|apply triple_err; done..]. by apply triple_ret.
  - done.
Qed.

Lemma fetch_add_triple : triple base (fetch_add (E := StorageError)) (λ _, base) base.
Proof. by intros d Hd. Qed.

Lemma fs_create_new_triple pid id :
  triple base (fs_create_new (temporary_name pid id)) (λ _, base_temporary pid id []) base.
Proof.
  apply triple_syscall; [auto with rust..|].
  intros d Hd. destruct (entries d !! temporary_name pid id) eqn:E; [auto with rust|].
  split; [|by cbn; rewrite lookup_insert_eq]. apply base_set; [done|].
  eapply (image_good_temporary (entries d)); [apply Hd|]. intros name Hne. by rewrite lookup_insert_ne.
Qed.

Lemma temporary_file_triple fuel :
  triple base (temporary_file fuel)
    (λ path d, ∃ pid id, path = temporary_name pid id ∧ base_temporary pid id [] d) base.
Proof.
  induction fuel as [|f IH]; [by intros d Hd|]. cbn [temporary_file].
  eapply triple_bind; [apply fetch_add_triple|]. intros id.
  eapply (triple_bind _ _ (λ _, base)); [by intros d Hd|]. intros pid.
  eapply triple_match; [apply fs_create_new_triple| | |done].
  - intros []. apply triple_ret. eauto.
  - intros []; [by apply triple_err|exact IH|by apply triple_err].
Qed.

Lemma write_content_good image pid id content :
  image_good image → image_good (write_content (temporary_name pid id) content image).
Proof.
  intros Hi. eapply image_good_temporary; [done|]. intros name Hne.
  unfold write_content. by rewrite lookup_alter_ne.
Qed.

Lemma fs_write_all_triple pid id :
  triple (base_temporary pid id []) (fs_write_all (temporary_name pid id) object)
    (λ _, base_temporary pid id object) base.
Proof.
  apply triple_syscall; [auto with rust|..].
  - intros d n [Hb Ht]. apply base_set; [done|]. apply write_content_good, Hb.
  - intros d [Hb Ht]. split; [apply base_set; [done|]; apply write_content_good, Hb|].
    cbn [entries set_entries]. unfold write_content. by rewrite lookup_alter_eq, Ht.
Qed.

Lemma fs_hard_link_triple pid id :
  triple (base_temporary pid id object)
    (fs_hard_link (temporary_name pid id) (filename (for_object object)))
    (λ _, base_stored) base.
Proof.
  apply triple_syscall; [auto with rust|intros d n [Hb _]; auto with rust|].
  intros d [Hb Ht]. rewrite Ht.
  destruct (entries d !! filename _) eqn:E; [auto with rust|]. split.
  - apply base_set; [done|]. apply image_good_insert; [apply Hb|done].
  - intros _. unfold stored. cbn. by rewrite lookup_insert_eq.
Qed.

Lemma fs_remove_triple P pid id : stable P →
  (∀ d, P d → P (set_entries (delete (temporary_name pid id) (entries d)) d)) →
  triple P (fs_remove_file (temporary_name pid id)) (λ _, P) P.
Proof.
  intros [Hn Hs] Hd. apply triple_syscall; [auto..|]. intros d HP.
  destruct (entries d !! _) as [[]|]; auto.
Qed.

Lemma base_remove pid id d :
  base d → base (set_entries (delete (temporary_name pid id) (entries d)) d).
Proof. intros Hb. apply base_set; [done|]. apply image_good_delete, Hb. Qed.

Lemma base_stored_remove pid id d :
  base_stored d → base_stored (set_entries (delete (temporary_name pid id) (entries d)) d).
Proof.
  intros [Hb Hs]. split; [by apply base_remove|]. intros K. unfold stored. cbn [entries set_entries].
  rewrite lookup_delete_ne; [by apply Hs|]. apply not_eq_sym, filename_not_temporary.
Qed.

Lemma publish_object_triple pid id :
  triple (base_temporary pid id [])
    (publish_object (for_object object) object (temporary_name pid id)) (λ _, base_stored) base.
Proof.
  assert (∀ d, base_stored d → base d) as Hweak by by intros d [].
  eapply triple_bind; [apply triple_map_err, fs_write_all_triple|]. intros [].
  eapply triple_bind.
  { apply triple_map_err. eapply triple_conseq;
      [apply (fs_sync_triple (base_temporary pid id object)); split; auto with rust|done..|].
    by intros d []. }
  intros []. eapply (triple_bind _ _ (λ _, base_stored)).
  { eapply triple_match; [apply fs_hard_link_triple|..|done].
    - intros []. by apply triple_ret.
    - intros []; [by apply triple_err| |by apply triple_err].
      eapply triple_bind; [apply read_verified_triple, base_is_stable|]. intros [existing|].
      + eapply (triple_bind _ _ (λ c d, base d ∧ entries d !! filename (for_object object) = Some (RegularFile c))).
        { apply triple_lift; [|by intros d []]. cbn [ok_or]. naive_solver. }
        intros c. case_bool_decide; [|by apply triple_err; intros d []].
        apply triple_ret. intros d [Hb Hd]. subst. by split.
      + eapply (triple_bind _ _ (λ _ _, False)); [apply triple_lift; [done|by intros d []]|].
        by intros c s Hs. }
  intros []. eapply triple_bind.
  { apply triple_map_err. eapply (triple_conseq _ base_stored _ _ _ _ base_stored); [|done| |exact Hweak].
    - apply fs_remove_triple; [apply base_stored_is_stable|]. intros d Hd. by apply base_stored_remove.
    - intros ? ? Hq. exact Hq. }
  intros []. eapply triple_conseq; [apply sync_directory_triple, base_stored_is_stable|done..|exact Hweak].
Qed.

Lemma cleanup_triple P pid id : stable P →
  (∀ d, P d → P (set_entries (delete (temporary_name pid id) (entries d)) d)) →
  triple P (let! remaining := fs_exists (temporary_name pid id) in
            if (remaining : bool) then sm_ignore (io (fs_remove_file (temporary_name pid id)))
            else sm_ret tt) (λ _, P) P.
Proof.
  intros Hp Hd. eapply (triple_bind _ _ (λ _, P)).
  - assert (triple P (atomic (λ image, (Ok (bool_decide (is_Some (image !! temporary_name pid id))), image)))
      (λ _, P) P) as Hq.
    { apply (triple_query P (λ image, Ok (bool_decide (is_Some (image !! temporary_name pid id)))));
        [apply Hp..|]. intros d a HP _. by apply Hp. }
    intros s Hs. specialize (Hq s Hs). unfold fs_exists. by destruct (atomic _ s) as [[]].
  - intros []; [|by apply triple_ret]. apply triple_ignore, triple_map_err. by apply fs_remove_triple.
Qed.

Lemma local_put_triple fuel :
  triple base (local_put fuel object)
    (λ r d, r = for_object object ∧ base_stored d) base.
Proof.
  assert (∀ d, base_stored d → base d) as Hweak by by intros d [].
  eapply (triple_bind _ _ (λ _, base)); [by apply triple_lift|]. intros [].
  eapply triple_bind; [apply read_verified_triple, base_is_stable|]. intros [existing|].
  { case_bool_decide; [|by apply triple_err; intros d []].
    apply triple_ret. intros d [Hb He]. subst. split; [done|]. split; [done|]. intros _. by apply He. }
  eapply triple_bind.
  { eapply triple_conseq; [apply temporary_file_triple|by intros d []|by intros ? ? Hq; exact Hq|done]. }
  intros temporary s (pid & id & -> & Ht). revert s Ht.
  change (triple (base_temporary pid id [])
    (let! _ := sm_finally (publish_object (for_object object) object (temporary_name pid id))
        (let! remaining := fs_exists (temporary_name pid id) in
         if (remaining : bool) then sm_ignore (io (fs_remove_file (temporary_name pid id)))
         else sm_ret tt) in
      sm_ret (for_object object)) (λ r d, r = for_object object ∧ base_stored d) base).
  eapply (triple_bind _ _ (λ _, base_stored)); [|by intros ?; apply triple_ret].
  apply triple_finally; [apply publish_object_triple|intros _|].
  - eapply triple_conseq; [apply cleanup_triple; [apply base_stored_is_stable|]|done..|exact Hweak].
    intros d Hd. by apply base_stored_remove.
  - apply cleanup_triple; [apply base_is_stable|]. intros d Hd. by apply base_remove.
Qed.
End local_triples.

(** ** Local provider: termination *)

Lemma decimal_digits_nonempty fuel n : decimal_digits (S fuel) n ≠ [].
Proof. cbn [decimal_digits]. by destruct (if n <? 10 then _ else _). Qed.

Lemma decimal_digits_inj fuel n m :
  0 ≤ n < 10 ^ Z.of_nat fuel → 0 ≤ m < 10 ^ Z.of_nat fuel →
  decimal_digits fuel n = decimal_digits fuel m → n = m.
Proof.
  revert n m. induction fuel as [|f IH]; intros n m Hn Hm; [simpl in *; lia|].
  rewrite Nat2Z.inj_succ, Z.pow_succ_r in Hn, Hm by lia.
  cbn [decimal_digits]. intros E. apply app_inj_tail in E as [E1 E2].
  pose proof (Z.div_mod n 10 ltac:(lia)). pose proof (Z.div_mod m 10 ltac:(lia)).
  pose proof (Z.mod_pos_bound n 10 ltac:(lia)). pose proof (Z.mod_pos_bound m 10 ltac:(lia)).
  assert (∀ k, 10 ≤ k < 10 * 10 ^ Z.of_nat f → [] ≠ decimal_digits f (k / 10)) as Hne.
  { intros k Hk. destruct f; [simpl in Hk; lia|]. apply not_eq_sym, decimal_digits_nonempty. }
  destruct (n <? 10) eqn:En, (m <? 10) eqn:Em; bool_to_prop; try lia.
  - exfalso. apply (Hne m); [lia|done].
  - exfalso. apply (Hne n); [lia|done].
  - apply IH in E1; lia.
Qed.

Lemma temporary_name_inj pid id id' :
  0 ≤ id < 2 ^ 64 → 0 ≤ id' < 2 ^ 64 → temporary_name pid id = temporary_name pid id' → id = id'.
Proof.
  intros Hi Hi' E. unfold temporary_name in E.
  apply app_inv_head, app_inv_head, app_inv_head, app_inv_tail in E.
  apply (decimal_digits_inj 20) in E; lia.
Qed.

Section local_total.
Context `{Sha3Laws, MiniCbor}.

(** The temporary files, the process and its counter are as before. *)
Definition same_temporaries (d d' : Directory) : Prop :=
  process_id d' = process_id d ∧ next_temporary_file d' = next_temporary_file d ∧
  ∀ pid id, entries d' !! temporary_name pid id = entries d !! temporary_name pid id.

Lemma next_tick_temporaries d : same_temporaries d (next_tick d).2.
Proof.
  unfold next_tick. destruct (ticks d) as [|t ts]; [done|].
  split_and!; [done..|]. intros pid id. cbn [entries snd]. by rewrite others_temporary.
Qed.

Lemma read_verified_temporaries r d : same_temporaries d (read_verified r d).2.
Proof.
  pose proof (next_tick_temporaries d) as Hd.
  unfold read_verified, sm_match, fs_read, atomic, syscall.
  destruct (next_tick d) as [[n|] d']; [done|]. cbn [snd] in Hd.
  destruct (entries d' !! filename r) as [[c|]|]; try done.
  rewrite sm_bind_unfold. unfold sm_lift. destruct (validate_cbor_object c); [|done|done].
  by destruct (negb _).
Qed.

(** The search only runs out of steps when every name it tried was taken. *)
Lemma temporary_file_panic fuel d :
  0 ≤ next_temporary_file d < 2 ^ 64 → (temporary_file fuel d).1 = Panic →
  ∀ i, 0 ≤ i < Z.of_nat fuel →
    is_Some (entries d !! temporary_name (process_id d) ((next_temporary_file d + i) mod 2 ^ 64)).
Proof.
  revert d. induction fuel as [|f IH]; intros d Hnext Hp i Hi; [lia|].
  cbn [temporary_file] in Hp. rewrite !sm_bind_unfold in Hp. cbn [fetch_add sm_gets] in Hp.
  set (d1 := mkDirectory _ _ _ _ _) in Hp. rewrite sm_bind_unfold in Hp. cbn [sm_gets] in Hp.
  unfold sm_match, fs_create_new, atomic, syscall in Hp.
  pose proof (next_tick_temporaries d1) as (Tp & Tn & Te).
  destruct (next_tick d1) as [[n|] d2]; [done|]. cbn [snd] in Tp, Tn, Te.
  change (entries d1) with (entries d) in Te. change (process_id d1) with (process_id d) in Tp, Hp.
  change (next_temporary_file d1) with ((next_temporary_file d + 1) mod 2 ^ 64) in Tn.
  destruct (entries d2 !! _) as [file|] eqn:El; [|done].
  rewrite Te in El. destruct (decide (i = 0)) as [->|].
  { rewrite Z.add_0_r, Z.mod_small by done. by eexists. }
  assert (next_temporary_file (set_entries (entries d2) d2)
    = (next_temporary_file d + 1) mod 2 ^ 64) as Hn' by exact Tn.
  specialize (IH _ ltac:(rewrite Hn'; by apply Z.mod_pos_bound) Hp (i - 1) ltac:(lia)).
  rewrite Hn' in IH. cbn [entries set_entries process_id] in IH. rewrite Te, Tp in IH.
  rewrite Z.add_mod_idemp_l in IH by lia.
  by replace (next_temporary_file d + 1 + (i - 1)) with (next_temporary_file d + i) in IH by lia.
Qed.

Lemma temporary_names_bound image pid next fuel :
  Z.of_nat fuel ≤ 2 ^ 64 →
  (∀ i, 0 ≤ i < Z.of_nat fuel → is_Some ((image : Image) !! temporary_name pid ((next + i) mod 2 ^ 64))) →
  (fuel ≤ size image)%nat.
Proof.
  intros Hf Hall. set (names := (λ i, temporary_name pid ((next + i) mod 2 ^ 64)) <$> seqZ 0 (Z.of_nat fuel)).
  assert (NoDup names) as Hnd.
  { apply NoDup_fmap_2_strong; [|apply NoDup_seqZ].
    intros x y Hx%elem_of_seqZ Hy%elem_of_seqZ E.
    apply temporary_name_inj in E; [|by apply Z.mod_pos_bound..].
    assert ((x - y) mod 2 ^ 64 = 0) as Hz.
    { replace (x - y) with (next + x - (next + y)) by lia. by rewrite Zminus_mod, E, Z.sub_diag. }
    apply Z.mod_divide in Hz as [k Hk]; [|lia]. nia. }
  rewrite <- size_dom. transitivity (size (list_to_set names : gset (list Z))).
  - rewrite size_list_to_set by done. unfold names. rewrite length_fmap, length_seqZ. lia.
  - apply subseteq_size. intros name Hname%elem_of_list_to_set.
    apply list_elem_of_fmap in Hname as (i & -> & Hi%elem_of_seqZ). apply elem_of_dom, Hall. lia.
Qed.

(** Code that returns. *)
Definition returns {S E A} (c : SM S E A) : Prop := ∀ s, (c s).1 ≠ Panic.

Lemma returns_bind {S E A B} (c : SM S E A) (f : A → SM S E B) :
  returns c → (∀ a, returns (f a)) → returns (sbind c f).
Proof.
  intros Hc Hf s. rewrite sm_bind_unfold. specialize (Hc s).
  destruct (c s) as [[a|e|] s']; [by apply Hf|done|done].
Qed.
Lemma returns_match {S E F A B} (c : SM S E A) (ok : A → SM S F B) (err : E → SM S F B) :
  returns c → (∀ a, returns (ok a)) → (∀ e, returns (err e)) → returns (sm_match c ok err).
Proof.
  intros Hc Ho He s. unfold sm_match. specialize (Hc s).
  destruct (c s) as [[a|e|] s']; [by apply Ho|by apply He|done].
Qed.
Lemma returns_map_err {S E F A} (f : E → F) (c : SM S E A) : returns c → returns (sm_map_err f c).
Proof. intros Hc s. specialize (Hc s). unfold sm_map_err. by destruct (c s) as [[]]. Qed.
Lemma returns_ignore {S E A} (c : SM S E A) : returns c → returns (sm_ignore c : SM S E unit).
Proof. intros Hc s. specialize (Hc s). unfold sm_ignore. by destruct (c s) as [[]]. Qed.
Lemma returns_finally {S E A B} (c : SM S E A) (k : SM S E B) :
  returns c → returns k → returns (sm_finally c k).
Proof.
  intros Hc Hk s. specialize (Hc s). unfold sm_finally.
  destruct (c s) as [[a|e|] s']; specialize (Hk s'); by destruct (k s') as [[]].
Qed.
Lemma returns_syscall {A : Type} (partial : Z → Image → Image)
    (call : Image → outcome IoErrorKind A * Image) :
  (∀ image, (call image).1 ≠ Panic) → returns (syscall partial call).
Proof.
  intros Hc s. unfold syscall. destruct (next_tick s) as [[n|] d]; [done|].
  specialize (Hc (entries d)). by destruct (call (entries d)) as [[]].
Qed.
End local_total.
#[export] Hint Resolve returns_bind returns_match returns_map_err returns_ignore returns_finally
  returns_syscall : rust.

Section local_theorems.
Context `{Sha3Laws, MiniCbor}.

Lemma validate_returns object : validate_cbor_object object ≠ Panic.
Proof. unfold validate_cbor_object. by repeat case_match. Qed.

Lemma returns_read_verified r : returns (read_verified r).
Proof.
  apply returns_match.
  - apply returns_syscall. intros image. by repeat case_match.
  - intros object. apply returns_bind; [intros s; apply validate_returns|].
    intros []. by destruct (negb _).
  - by intros [].
Qed.

Lemma returns_fs_sync : returns fs_sync.
Proof. by apply returns_syscall. Qed.
Lemma returns_sync_directory : returns sync_directory.
Proof. apply returns_bind; [|intros []]; apply returns_map_err, returns_fs_sync. Qed.
Lemma returns_fs_remove_file path : returns (fs_remove_file path).
Proof. apply returns_syscall. intros image. by repeat case_match. Qed.

Lemma returns_publish_object r object temporary : returns (publish_object r object temporary).
Proof.
  apply returns_bind; [by apply returns_map_err, returns_syscall|intros []].
  apply returns_bind; [apply returns_map_err, returns_fs_sync|intros []].
  apply returns_bind; [|intros []; apply returns_bind;
    [apply returns_map_err, returns_fs_remove_file|intros []; apply returns_sync_directory]].
  apply returns_match; [|done|].
  - apply returns_syscall. intros image. by repeat case_match.
  - intros []; [done| |done]. apply returns_bind; [apply returns_read_verified|].
    intros existing. apply returns_bind; [by destruct existing|]. intros c. by destruct (negb _).
Qed.

Lemma returns_cleanup temporary :
  returns (let! remaining := fs_exists temporary in
           if (remaining : bool) then sm_ignore (io (fs_remove_file temporary))
           else sm_ret tt : SM Directory StorageError unit).
Proof.
  apply returns_bind.
  - intros s. unfold fs_exists. by destruct (atomic _ s) as [[]].
  - intros []; [|done]. apply returns_ignore, returns_map_err, returns_fs_remove_file.
Qed.

(** Storing an object terminates, whatever fails and whatever other
    processes do: the search for a free temporary name tries at most one name
    more than the directory has entries. *)
Theorem local_put_terminates (object : list Z) (d : Directory) :
  0 ≤ next_temporary_file d < 2 ^ 64 → Z.of_nat (size (entries d)) < 2 ^ 64 →
  (provider_put object d).1 ≠ Panic.
Proof.
  intros Hnext Hsize Hp. cbn [provider_put local_provider] in Hp.
  unfold local_put in Hp. rewrite sm_bind_unfold in Hp. unfold sm_lift in Hp.
  pose proof (validate_returns object). destruct (validate_cbor_object object); [|done|done].
  rewrite sm_bind_unfold in Hp. pose proof (returns_read_verified (for_object object) d) as Hr.
  pose proof (read_verified_temporaries (for_object object) d) as (Tp & Tn & Te).
  destruct (read_verified _ d) as [[[existing|]|e|] d1]; cbn [fst snd] in *; [|..|done|done].
  { by destruct (bool_decide _). }
  rewrite sm_bind_unfold in Hp.
  pose proof (temporary_file_panic (put_fuel d) d1) as Hpanic.
  destruct (temporary_file (put_fuel d) d1) as [[temporary|e|] d2]; [|done|].
  - revert Hp. apply returns_bind; [|done].
    apply returns_finally; [apply returns_publish_object|apply returns_cleanup].
  - rewrite Tn in Hpanic. specialize (Hpanic Hnext eq_refl).
    assert (put_fuel d ≤ size (entries d))%nat; [|unfold put_fuel in *; lia].
    apply (temporary_names_bound _ (process_id d1) (next_temporary_file d)).
    + unfold put_fuel. lia.
    + intros i Hi. rewrite <- Te. by apply Hpanic.
Qed.

Lemma list_entries_good found : triple directory_good (list_entries found) (λ _, directory_good) directory_good.
Proof.
  assert (stable directory_good) as Hs.
  { split; intros d Hd.
    - apply (base_next [] False). by split.
    - destruct Hd. split; [done|]. by constructor. }
  induction found as [|[name entry] rest IH]; [by apply triple_ret|]. cbn [list_entries].
  eapply triple_bind; [by apply triple_map_err, fs_sync_triple|]. intros [].
  eapply triple_bind; [by apply triple_map_err, fs_sync_triple|]. intros [].
  destruct entry as [c|]; [|exact IH].
  eapply (triple_bind _ _ (λ _, directory_good)); [by intros s Hd; unfold guard_err; case_match|]. intros [].
  destruct (is_temporary name); [exact IH|]. destruct (negb _); [exact IH|].
  eapply (triple_bind _ _ (λ _, directory_good)); [by apply triple_lift|]. intros r.
  eapply triple_bind; [by apply read_verified_triple|]. intros found.
  eapply (triple_bind _ _ (λ _, directory_good)); [by apply triple_lift; [intros ? ? _ []|intros ? []]|].
  intros _. eapply triple_bind; [exact IH|]. intros refs. by apply triple_ret.
Qed.

(** C36: The objects directory is crash safe. If every file under an object name
    holds exactly the well-formed object with that digest, then so does every
    image of the directory during and after [put], [get], [delete] and [list]:
    wherever a call fails, a write stops half way or the process dies, and
    whatever objects other processes publish or delete in between, no partial,
    corrupt or misnamed object ever becomes visible. *)
Theorem local_store_crash_safe (d : Directory) (fuel : nat) (object : list Z) (r : ContentReference) :
  directory_good d →
  directory_good (local_put fuel object d).2 ∧ directory_good (local_get r d).2 ∧
  directory_good (local_delete r d).2 ∧ directory_good (local_list d).2.
Proof.
  intros Hd. assert (stable directory_good) as Hs.
  { split; intros d' Hd'; [apply (base_next [] False); by split|].
    destruct Hd'. split; [done|]. by constructor. }
  assert (∀ E A (c : SM Directory E A),
    triple directory_good c (λ _, directory_good) directory_good → directory_good (c d).2) as Hc.
  { intros E A c Ht. specialize (Ht d Hd). by destruct (c d) as [[]]. }
  split_and!; apply Hc.
  - destruct (validate_cbor_object object) as [[]|e|] eqn:Hv.
    + eapply triple_conseq; [apply (local_put_triple object Hv False)|by split|by intros ? ? (_ & [] & _)|by intros ? []].
    + intros s Hg. unfold local_put. rewrite sm_bind_unfold. unfold sm_lift. by rewrite Hv.
    + by apply validate_returns in Hv.
  - eapply triple_conseq; [by apply read_verified_triple|done|by intros ? ? []|done].
  - eapply (triple_match _ _ (λ _, directory_good)); [| |intros []; by first [apply triple_ret|apply triple_err]|done].
    + apply triple_syscall; [apply Hs|intros; by apply Hs|]. intros d' Hd'.
      destruct (entries d' !! filename r) as [[]|]; [|by apply Hs..].
      destruct Hd' as [Hg Hi]. split; [by apply image_good_delete|]. by constructor.
    + intros []. eapply triple_bind; [by apply sync_directory_triple|]. intros []. by apply triple_ret.
  - eapply (triple_bind _ _ (λ _, directory_good)).
    + apply triple_map_err. apply (triple_query _ (λ image, Ok (map_to_list image)));
        [apply Hs..|]. intros d' a Hd' _. by apply Hs.
    + intros found. eapply triple_bind; [apply list_entries_good|]. intros refs. by apply triple_ret.
Qed.

(** When [put] reports success the object is in the store, whatever calls
    failed on the way: the reference it returns is the object's digest, and
    unless another process deletes the object meanwhile, the directory holds the
    object's exact bytes under that reference when [put] returns. *)
Theorem local_put_ok_stored (d d' : Directory) (fuel : nat) (object : list Z) (r : ContentReference) :
  directory_good d → Forall (keeps_object object) (ticks d) →
  local_put fuel object d = (Ok r, d') →
  r = for_object object ∧ validate_cbor_object object = Ok tt ∧
  entries d' !! filename r = Some (RegularFile object).
Proof.
  intros Hd Hk E. destruct (validate_cbor_object object) as [[]|e|] eqn:Hv.
  - pose proof (local_put_triple object Hv True fuel d) as Ht. rewrite E in Ht.
    destruct Ht as (-> & _ & Hs); [by split|]. split_and!; [done..|]. by apply Hs.
  - unfold local_put in E. rewrite sm_bind_unfold in E. unfold sm_lift in E. by rewrite Hv in E.
  - by apply validate_returns in Hv.
Qed.

(** Reading is verified: whatever the directory contains, an object that
    [get] returns is well-formed CBOR and has the digest that was asked for. *)
Theorem local_get_verified (d d' : Directory) (r : ContentReference) (object : list Z) :
  local_get r d = (Ok (Some object), d') →
  r = for_object object ∧ validate_cbor_object object = Ok tt.
Proof.
  unfold local_get, read_verified, sm_match. intros E.
  destruct (fs_read (filename r) d) as [[c|e|] d1]; [|by destruct e|done].
  rewrite sm_bind_unfold in E. unfold sm_lift in E.
  destruct (validate_cbor_object c) as [[]| |] eqn:Hv; [|done|done].
  destruct (negb (matches_object r c)) eqn:Hm; [done|]. unfold sm_ret in E. simplify_eq. bool_to_prop.
  split; [by apply matches_object_inv|done].
Qed.
End local_theorems.

(** ** A concrete digest and reader for the witnesses *)

Definition toy_sha3 (object : list Z) : list Z := replicate 31 0 ++ [foldr Z.add 0 object mod 256].
Definition toy_dec (tag : Z) (l : list Z) : option (list Z * list Z) :=
  match l with
  | t :: a :: b :: c :: e :: rest =>
      let n := of_be32 [a; b; c; e] in
      if (t =? tag) && (n <=? len rest) then Some (ztake n rest, zdrop n rest) else None
  | _ => None
  end.
#[local] Instance toy_sha3_core : Sha3 := {| sha3_256 := toy_sha3 |}.
#[local] Instance toy_cbor : MiniCbor := {|
  cbor_skip l := snd <$> toy_dec 2 l;
  enc_array n := [0x80 + n];
  enc_str s := 3 :: be32 (len s) ++ s;
  enc_bytes s := 2 :: be32 (len s) ++ s;
  dec_array l := match l with n :: rest => Some (Some (n - 0x80), rest) | [] => None end;
  dec_str := toy_dec 3;
  dec_bytes := toy_dec 2;
|}.

#[local] Instance toy_sha3_laws : Sha3Laws.
Proof.
  split; intros object; unfold sha3_256; cbn [toy_sha3_core]; unfold toy_sha3; [done|].
  unfold bytes_ok. rewrite forallb_app. apply andb_true_iff. split; [done|].
  pose proof (Z.mod_pos_bound (foldr Z.add 0 object) 256). cbn [forallb]. unfold is_byte. lia.
Qed.

Lemma toy_dec_enc tag s rest :
  len s < 2 ^ 32 → toy_dec tag (tag :: (be32 (len s) ++ s) ++ rest) = Some (s, rest).
Proof.
  intros Hs. pose proof (of_be32_be32 (len s) [] ltac:(pose proof (len_nonneg s); lia)) as E.
  unfold be32 in *. cbn [app] in *. cbn [toy_dec]. rewrite E, len_app, Z.eqb_refl.
  pose proof (len_nonneg rest). test_true (len s <=? len s + len rest). cbn [andb].
  by rewrite ztake_app_len, zdrop_app_len.
Qed.
#[local] Instance toy_cbor_laws : MiniCborLaws.
Proof.
  split; intros.
  - cbn. repeat f_equal. lia.
  - by apply toy_dec_enc.
  - by apply toy_dec_enc.
Qed.

(** A directory with one object, one stale temporary file, one sub-directory, a
    write that fails after one byte and another process that publishes. *)
Definition toy_object : list Z := 2 :: be32 1 ++ [7].
Definition toy_object2 : list Z := 2 :: be32 1 ++ [9].
Definition toy_image : Image :=
  <[filename (for_object toy_object) := RegularFile toy_object]>
  (<[temporary_name 5 1 := RegularFile [1]]> (<[str "lost+found" := OtherEntry]> ∅)).
Definition quiet_tick : Tick := {| others := []; fault := None |}.
Definition toy_directory (ts : list Tick) : Directory := mkDirectory toy_image ts [] 5 1.

Lemma toy_image_good : image_good toy_image.
Proof.
  apply image_good_insert; [|done]. intros r c Hr E.
  apply lookup_insert_Some in E as [[E _]|[_ E]]; [by destruct (filename_not_temporary r 5 1)|].
  by apply lookup_insert_Some in E as [[_ E]|[_ E]].
Qed.

Lemma memory_provider_spec_witness :
  memory_get (for_object toy_object) {[for_object toy_object := toy_object]}
    = (Ok (Some toy_object), {[for_object toy_object := toy_object]}).
Proof.
  refine (eq_trans (proj1 (proj2 (memory_provider_spec _ _)) _) _).
  - by apply map_Forall_singleton.
  - vm_compute. reflexivity.
Defined.

Lemma local_store_crash_safe_witness :
  directory_good
    (local_put 5 toy_object2 (toy_directory
       [quiet_tick; quiet_tick; {| others := [OtherPublish toy_object2]; fault := None |};
        {| others := []; fault := Some 1 |}])).2.
Proof.
  refine (proj1 (local_store_crash_safe _ 5 toy_object2 (for_object toy_object) _)).
  split; [apply toy_image_good|constructor].
Defined.

(** The stale temporary name is skipped and another process publishes first. *)
Definition toy_ticks : list Tick :=
  [quiet_tick; quiet_tick; quiet_tick; {| others := [OtherPublish toy_object2]; fault := None |}].
Lemma local_put_ok_stored_witness :
  let run := local_put 5 toy_object2 (toy_directory toy_ticks) in
  entries run.2 !! filename (for_object toy_object2) = Some (RegularFile toy_object2).
Proof.
  cbv zeta. refine (proj2 (proj2 (local_put_ok_stored (toy_directory toy_ticks)
    (local_put 5 toy_object2 (toy_directory toy_ticks)).2 5 toy_object2
    (for_object toy_object2) _ _ _))).
  - split; [apply toy_image_good|constructor].
  - do 3 (apply List.Forall_cons; [apply List.Forall_nil|]).
    apply List.Forall_cons; [|apply List.Forall_nil].
    apply List.Forall_cons; [exact Logic.I|apply List.Forall_nil].
  - apply run_result. vm_compute. reflexivity.
Defined.

Lemma local_put_terminates_witness :
  (provider_put toy_object2 (toy_directory [])).1 ≠ Panic.
Proof.
  apply local_put_terminates.
  - cbn [next_temporary_file toy_directory]. lia.
  - vm_compute. reflexivity.
Defined.

Lemma local_get_verified_witness :
  for_object toy_object = for_object toy_object ∧ validate_cbor_object toy_object = Ok tt.
Proof.
  apply (local_get_verified (toy_directory []) (local_get (for_object toy_object) (toy_directory [])).2).
  apply run_result. vm_compute. reflexivity.
Defined.
