(* ===== verification/Mechanisms.v ===== *)
(** * Mechanisms: mechanism numbers, key material and active operations

    Models the mechanism tables of [src/src/mechanism.rs] and their
    classification in [src/src/backend/crypto.rs] and
    [src/src/key_mechanisms.rs], the key material of an object and the records of
    an active operation ([src/src/object.rs], [src/src/api/crypt/digest.rs]).
    [SlotState] keeps these records in a session; [Digests] and [Ciphers] model
    the functions that work on them.

    Key types of external crates appear only through the accessors the code
    calls; a hash context of [software-key-core] is an opaque value. *)
From S2P Require Import Prelude Errors.

(** ** Numbers *)

Definition CKM_SHA_1 : Z := 544.
Definition CKM_SHA224 : Z := 597.
Definition CKM_SHA256 : Z := 592.
Definition CKM_SHA384 : Z := 608.
Definition CKM_SHA512 : Z := 624.
Definition CKM_SHA3_224 : Z := 693.
Definition CKM_SHA3_256 : Z := 688.
Definition CKM_SHA3_384 : Z := 704.
Definition CKM_SHA3_512 : Z := 720.

Definition CKM_SHA1_RSA_PKCS : Z := 6.
Definition CKM_SHA224_RSA_PKCS : Z := 70.
Definition CKM_SHA256_RSA_PKCS : Z := 64.
Definition CKM_SHA384_RSA_PKCS : Z := 65.
Definition CKM_SHA512_RSA_PKCS : Z := 66.
Definition CKM_SHA3_224_RSA_PKCS : Z := 102.
Definition CKM_SHA3_256_RSA_PKCS : Z := 96.
Definition CKM_SHA3_384_RSA_PKCS : Z := 97.
Definition CKM_SHA3_512_RSA_PKCS : Z := 98.

Definition CKM_SHA1_RSA_PKCS_PSS : Z := 14.
Definition CKM_SHA224_RSA_PKCS_PSS : Z := 71.
Definition CKM_SHA256_RSA_PKCS_PSS : Z := 67.
Definition CKM_SHA384_RSA_PKCS_PSS : Z := 68.
Definition CKM_SHA512_RSA_PKCS_PSS : Z := 69.
Definition CKM_SHA3_224_RSA_PKCS_PSS : Z := 103.
Definition CKM_SHA3_256_RSA_PKCS_PSS : Z := 99.
Definition CKM_SHA3_384_RSA_PKCS_PSS : Z := 100.
Definition CKM_SHA3_512_RSA_PKCS_PSS : Z := 101.

Definition CKM_ECDSA : Z := 4161.
Definition CKM_ECDSA_SHA1 : Z := 4162.
Definition CKM_ECDSA_SHA224 : Z := 4163.
Definition CKM_ECDSA_SHA256 : Z := 4164.
Definition CKM_ECDSA_SHA384 : Z := 4165.
Definition CKM_ECDSA_SHA512 : Z := 4166.
Definition CKM_ECDSA_SHA3_224 : Z := 4167.
Definition CKM_ECDSA_SHA3_256 : Z := 4168.
Definition CKM_ECDSA_SHA3_384 : Z := 4169.
Definition CKM_ECDSA_SHA3_512 : Z := 4170.

Definition CKM_EDDSA : Z := 4183.
Definition CKM_ML_DSA : Z := 29.
Definition CKM_HASH_ML_DSA : Z := 31.
Definition CKM_HASH_ML_DSA_SHA224 : Z := 35.
Definition CKM_HASH_ML_DSA_SHA256 : Z := 36.
Definition CKM_HASH_ML_DSA_SHA384 : Z := 37.
Definition CKM_HASH_ML_DSA_SHA512 : Z := 38.
Definition CKM_HASH_ML_DSA_SHA3_224 : Z := 39.
Definition CKM_HASH_ML_DSA_SHA3_256 : Z := 40.
Definition CKM_HASH_ML_DSA_SHA3_384 : Z := 41.
Definition CKM_HASH_ML_DSA_SHA3_512 : Z := 42.
Definition CKM_HASH_ML_DSA_SHAKE128 : Z := 43.
Definition CKM_HASH_ML_DSA_SHAKE256 : Z := 44.

Definition CKM_SHA_1_HMAC : Z := 545.
Definition CKM_SHA_1_HMAC_GENERAL : Z := 546.
Definition CKM_SHA224_HMAC : Z := 598.
Definition CKM_SHA224_HMAC_GENERAL : Z := 599.
Definition CKM_SHA256_HMAC : Z := 593.
Definition CKM_SHA256_HMAC_GENERAL : Z := 594.
Definition CKM_SHA384_HMAC : Z := 609.
Definition CKM_SHA384_HMAC_GENERAL : Z := 610.
Definition CKM_SHA512_HMAC : Z := 625.
Definition CKM_SHA512_HMAC_GENERAL : Z := 626.

Definition CKM_AES_CMAC : Z := 4234.
Definition CKM_AES_CMAC_GENERAL : Z := 4235.
Definition CKM_AES_GMAC : Z := 4238.

Definition CKM_RSA_PKCS : Z := 1.
Definition CKM_RSA_X_509 : Z := 3.
Definition CKM_RSA_PKCS_OAEP : Z := 9.
Definition CKM_RSA_PKCS_PSS : Z := 13.
Definition CKM_AES_ECB : Z := 4225.
Definition CKM_AES_CBC : Z := 4226.
Definition CKM_AES_CBC_PAD : Z := 4229.
Definition CKM_AES_CTR : Z := 4230.
Definition CKM_AES_CCM : Z := 4232.
Definition CKM_AES_GCM : Z := 4231.
Definition CKM_AES_KEY_WRAP : Z := 8457.
Definition CKM_AES_KEY_WRAP_KWP : Z := 8459.
Definition CKM_DES3_ECB : Z := 306.
Definition CKM_DES3_CBC : Z := 307.
Definition CKM_DES3_CBC_PAD : Z := 310.

Definition CKK_RSA : Z := 0.
Definition CKK_EC : Z := 3.
Definition CKK_EC_EDWARDS : Z := 64.
Definition CKK_ML_DSA : Z := 74.
Definition CKK_AES : Z := 31.
Definition CKK_DES3 : Z := 21.
Definition CKK_GENERIC_SECRET : Z := 16.
Definition CKK_SHA_1_HMAC : Z := 40.
Definition CKK_SHA224_HMAC : Z := 46.
Definition CKK_SHA256_HMAC : Z := 43.
Definition CKK_SHA384_HMAC : Z := 44.
Definition CKK_SHA512_HMAC : Z := 45.
Definition CKM_VENDOR_DEFINED : Z := 0x80000000.
Definition YUBICO_BASE_VENDOR : Z := 0x59554200.
Definition YUBIHSM_WRAP_KEY : Z := 0x04.
Definition YUBIHSM_PUBLIC_KEY : Z := 0x83.
Definition CKM_YUBICO_AES_CCM_WRAP : Z :=
  Z.lor (Z.lor CKM_VENDOR_DEFINED YUBICO_BASE_VENDOR) YUBIHSM_WRAP_KEY.
Definition CKM_PKCS11RS_PREVIEW_SIGN : Z := Z.lor CKM_VENDOR_DEFINED 0x50530003.
Definition CKM_PKCS11RS_FIDO_ASSERTION : Z := Z.lor CKM_VENDOR_DEFINED 0x50530005.
Definition CKM_HOTP : Z := 657.
Definition CKM_PKCS11RS_TOTP : Z := Z.lor CKM_VENDOR_DEFINED 0x50530007.
Definition CKM_PKCS11RS_HOTP : Z := Z.lor CKM_VENDOR_DEFINED 0x50530008.
Definition CKK_VENDOR_DEFINED : Z := 0x80000000.
Definition CKK_HOTP : Z := 35.
Definition CKK_PKCS11RS_TOTP : Z := Z.lor CKK_VENDOR_DEFINED 0x50530002.
Definition CKK_PKCS11RS_HOTP : Z := Z.lor CKK_VENDOR_DEFINED 0x50530003.
Definition CKK_EC_MONTGOMERY : Z := 65.
Definition CKK_ML_KEM : Z := 73.
Definition CKK_PKCS11RS_MLKEM768_P256 : Z := Z.lor CKK_VENDOR_DEFINED 0x50530010.
Definition CKK_PKCS11RS_MLKEM768_X25519 : Z := Z.lor CKK_VENDOR_DEFINED 0x50530011.
Definition CKK_PKCS11RS_MLKEM1024_P384 : Z := Z.lor CKK_VENDOR_DEFINED 0x50530012.

Definition YUBIHSM_ALGO_RSA_2048 : Z := 9.
Definition YUBIHSM_ALGO_RSA_3072 : Z := 10.
Definition YUBIHSM_ALGO_RSA_4096 : Z := 11.
Definition YUBIHSM_ALGO_AES128_CCM_WRAP : Z := 29.
Definition YUBIHSM_ALGO_AES192_CCM_WRAP : Z := 41.
Definition YUBIHSM_ALGO_AES256_CCM_WRAP : Z := 42.
Definition CKK_YUBICO_AES128_CCM_WRAP : Z :=
  Z.lor (Z.lor CKM_VENDOR_DEFINED YUBICO_BASE_VENDOR) YUBIHSM_ALGO_AES128_CCM_WRAP.
Definition CKK_YUBICO_AES192_CCM_WRAP : Z :=
  Z.lor (Z.lor CKM_VENDOR_DEFINED YUBICO_BASE_VENDOR) YUBIHSM_ALGO_AES192_CCM_WRAP.
Definition CKK_YUBICO_AES256_CCM_WRAP : Z :=
  Z.lor (Z.lor CKM_VENDOR_DEFINED YUBICO_BASE_VENDOR) YUBIHSM_ALGO_AES256_CCM_WRAP.

(** ** Tables *)

Record MechanismDetails : Type := mkDetails {
  type_ : Z;
  min_key_size : Z;
  max_key_size : Z;
  details_flags : Z;
}.

(** [list.contains(&m)] *)
Definition one_of (ms : list Z) (m : Z) : bool := existsb (Z.eqb m) ms.

Definition HASH_ML_DSA_MECHANISMS : list Z :=
  [CKM_HASH_ML_DSA_SHA224; CKM_HASH_ML_DSA_SHA256; CKM_HASH_ML_DSA_SHA384; CKM_HASH_ML_DSA_SHA512;
   CKM_HASH_ML_DSA_SHA3_224; CKM_HASH_ML_DSA_SHA3_256; CKM_HASH_ML_DSA_SHA3_384;
   CKM_HASH_ML_DSA_SHA3_512; CKM_HASH_ML_DSA_SHAKE128; CKM_HASH_ML_DSA_SHAKE256].
Definition HASHED_RSA_PKCS_MECHANISMS : list Z :=
  [CKM_SHA1_RSA_PKCS; CKM_SHA224_RSA_PKCS; CKM_SHA256_RSA_PKCS; CKM_SHA384_RSA_PKCS;
   CKM_SHA512_RSA_PKCS; CKM_SHA3_224_RSA_PKCS; CKM_SHA3_256_RSA_PKCS; CKM_SHA3_384_RSA_PKCS;
   CKM_SHA3_512_RSA_PKCS].
Definition HASHED_RSA_PSS_MECHANISMS : list Z :=
  [CKM_SHA1_RSA_PKCS_PSS; CKM_SHA224_RSA_PKCS_PSS; CKM_SHA256_RSA_PKCS_PSS; CKM_SHA384_RSA_PKCS_PSS;
   CKM_SHA512_RSA_PKCS_PSS; CKM_SHA3_224_RSA_PKCS_PSS; CKM_SHA3_256_RSA_PKCS_PSS;
   CKM_SHA3_384_RSA_PKCS_PSS; CKM_SHA3_512_RSA_PKCS_PSS].
Definition HASHED_ECDSA_MECHANISMS : list Z :=
  [CKM_ECDSA_SHA1; CKM_ECDSA_SHA224; CKM_ECDSA_SHA256; CKM_ECDSA_SHA384; CKM_ECDSA_SHA512;
   CKM_ECDSA_SHA3_224; CKM_ECDSA_SHA3_256; CKM_ECDSA_SHA3_384; CKM_ECDSA_SHA3_512].
Definition SOFTWARE_DIGEST_MECHANISMS : list MechanismDetails :=
  (λ m, mkDetails m 0 0 CKF_DIGEST) <$>
  [CKM_SHA_1; CKM_SHA224; CKM_SHA256; CKM_SHA384; CKM_SHA512; CKM_SHA3_224; CKM_SHA3_256;
   CKM_SHA3_384; CKM_SHA3_512].

Definition is_ml_dsa_mechanism (m : Z) : bool :=
  (m =? CKM_ML_DSA) || (m =? CKM_HASH_ML_DSA) || one_of HASH_ML_DSA_MECHANISMS m.
Definition piv_is_pss_mechanism (m : Z) : bool :=
  (m =? CKM_RSA_PKCS_PSS) || one_of HASHED_RSA_PSS_MECHANISMS m.
Definition piv_is_hashed_rsa_pkcs (m : Z) : bool := one_of HASHED_RSA_PKCS_MECHANISMS m.
Definition piv_is_hashed_ecdsa (m : Z) : bool := one_of HASHED_ECDSA_MECHANISMS m.

Definition mechanism_details (mechanisms : list MechanismDetails) (m : Z)
    : outcome Error MechanismDetails :=
  ok_or #CKR_MECHANISM_INVALID (List.find (λ d, type_ d =? m) mechanisms).

(** ** Digests *)

(** [software_key_core::digest::HashAlgorithm] *)
Inductive MessageDigest : Type :=
| HashSha1 | HashSha224 | HashSha256 | HashSha384 | HashSha512 | HashSha3_224 | HashSha3_256 | HashSha3_384 | HashSha3_512.
#[export] Instance MessageDigest_eq_dec : EqDecision MessageDigest.
Proof. solve_decision. Defined.

Definition digest_for_hash_mechanism (m : Z) : outcome Error MessageDigest :=
  if m =? CKM_SHA_1 then Ok HashSha1
  else if m =? CKM_SHA224 then Ok HashSha224
  else if m =? CKM_SHA256 then Ok HashSha256
  else if m =? CKM_SHA384 then Ok HashSha384
  else if m =? CKM_SHA512 then Ok HashSha512
  else if m =? CKM_SHA3_224 then Ok HashSha3_224
  else if m =? CKM_SHA3_256 then Ok HashSha3_256
  else if m =? CKM_SHA3_384 then Ok HashSha3_384
  else if m =? CKM_SHA3_512 then Ok HashSha3_512
  else Err #CKR_MECHANISM_PARAM_INVALID.

Definition piv_hash_mechanism (m : Z) : option MessageDigest :=
  if one_of [CKM_SHA1_RSA_PKCS; CKM_SHA1_RSA_PKCS_PSS; CKM_ECDSA_SHA1] m then Some HashSha1
  else if one_of [CKM_SHA224_RSA_PKCS; CKM_SHA224_RSA_PKCS_PSS; CKM_ECDSA_SHA224] m then Some HashSha224
  else if one_of [CKM_SHA256_RSA_PKCS; CKM_SHA256_RSA_PKCS_PSS; CKM_ECDSA_SHA256] m then Some HashSha256
  else if one_of [CKM_SHA384_RSA_PKCS; CKM_SHA384_RSA_PKCS_PSS; CKM_ECDSA_SHA384] m then Some HashSha384
  else if one_of [CKM_SHA512_RSA_PKCS; CKM_SHA512_RSA_PKCS_PSS; CKM_ECDSA_SHA512] m then Some HashSha512
  else if one_of [CKM_SHA3_224_RSA_PKCS; CKM_SHA3_224_RSA_PKCS_PSS; CKM_ECDSA_SHA3_224] m then Some HashSha3_224
  else if one_of [CKM_SHA3_256_RSA_PKCS; CKM_SHA3_256_RSA_PKCS_PSS; CKM_ECDSA_SHA3_256] m then Some HashSha3_256
  else if one_of [CKM_SHA3_384_RSA_PKCS; CKM_SHA3_384_RSA_PKCS_PSS; CKM_ECDSA_SHA3_384] m then Some HashSha3_384
  else if one_of [CKM_SHA3_512_RSA_PKCS; CKM_SHA3_512_RSA_PKCS_PSS; CKM_ECDSA_SHA3_512] m then Some HashSha3_512
  else None.

Definition pss_hash_mechanism (m : Z) : outcome Error Z :=
  if m =? CKM_SHA1_RSA_PKCS_PSS then Ok CKM_SHA_1
  else if m =? CKM_SHA224_RSA_PKCS_PSS then Ok CKM_SHA224
  else if m =? CKM_SHA256_RSA_PKCS_PSS then Ok CKM_SHA256
  else if m =? CKM_SHA384_RSA_PKCS_PSS then Ok CKM_SHA384
  else if m =? CKM_SHA512_RSA_PKCS_PSS then Ok CKM_SHA512
  else if m =? CKM_SHA3_224_RSA_PKCS_PSS then Ok CKM_SHA3_224
  else if m =? CKM_SHA3_256_RSA_PKCS_PSS then Ok CKM_SHA3_256
  else if m =? CKM_SHA3_384_RSA_PKCS_PSS then Ok CKM_SHA3_384
  else if m =? CKM_SHA3_512_RSA_PKCS_PSS then Ok CKM_SHA3_512
  else Err #CKR_MECHANISM_PARAM_INVALID.

Definition hmac_key_type_and_length (m : Z) : option (Z * Z) :=
  if one_of [CKM_SHA_1_HMAC; CKM_SHA_1_HMAC_GENERAL] m then Some (CKK_SHA_1_HMAC, 20)
  else if one_of [CKM_SHA224_HMAC; CKM_SHA224_HMAC_GENERAL] m then Some (CKK_SHA224_HMAC, 28)
  else if one_of [CKM_SHA256_HMAC; CKM_SHA256_HMAC_GENERAL] m then Some (CKK_SHA256_HMAC, 32)
  else if one_of [CKM_SHA384_HMAC; CKM_SHA384_HMAC_GENERAL] m then Some (CKK_SHA384_HMAC, 48)
  else if one_of [CKM_SHA512_HMAC; CKM_SHA512_HMAC_GENERAL] m then Some (CKK_SHA512_HMAC, 64)
  else None.

Definition is_yubihsm_rsa (algorithm : Z) : bool :=
  one_of [YUBIHSM_ALGO_RSA_2048; YUBIHSM_ALGO_RSA_3072; YUBIHSM_ALGO_RSA_4096] algorithm.
Definition is_yubihsm_ccm_wrap (algorithm : Z) : bool :=
  one_of [YUBIHSM_ALGO_AES128_CCM_WRAP; YUBIHSM_ALGO_AES192_CCM_WRAP; YUBIHSM_ALGO_AES256_CCM_WRAP] algorithm.

(** ** Key material *)

(** The accessors [n()], [e()], [d()] and [size()] of the RSA crate's keys. *)
Record RsaPublicKey : Type := mkRsaPublic { rsa_n : Z; rsa_e : Z; rsa_size : Z }.
Record RsaPrivateKey : Type := mkRsaPrivate { rsa_private_n : Z; rsa_d : Z; rsa_private_size : Z }.
#[export] Instance RsaPublicKey_eq_dec : EqDecision RsaPublicKey.
Proof. solve_decision. Defined.
#[export] Instance RsaPrivateKey_eq_dec : EqDecision RsaPrivateKey.
Proof. solve_decision. Defined.

(** [software_key_core::hybrid_kem::HybridKemConstruction] *)
Inductive HybridKemConstruction : Type := MlKem768P256 | MlKem768X25519 | MlKem1024P384.
#[export] Instance HybridKemConstruction_eq_dec : EqDecision HybridKemConstruction.
Proof. solve_decision. Defined.

Inductive PublicKeyMaterial : Type :=
| RsaPublic (key : RsaPublicKey)
| EcPublic (parameters public_key : list Z)
| MlDsaPublic (parameter_set : Z) (public_key : list Z)
| MlKemPublic (parameter_set : Z) (public_key : list Z)
| HybridKemPublic (construction : HybridKemConstruction) (public_key : list Z).
#[export] Instance PublicKeyMaterial_eq_dec : EqDecision PublicKeyMaterial.
Proof. solve_decision. Defined.

(** [EcCurve], [EdwardsCurve] and [MlDsaParameterSet] of [software-key-core]. *)
Inductive EcCurve : Type :=
| P224 | P256 | P384 | P521 | Secp256k1 | BrainpoolP256 | BrainpoolP384 | BrainpoolP512.
Inductive EdwardsCurve : Type := CurveEd25519 | CurveEd448.
Inductive MlDsaParameterSet : Type := SetMlDsa44 | SetMlDsa65 | SetMlDsa87.
#[export] Instance EcCurve_eq_dec : EqDecision EcCurve.
Proof. solve_decision. Defined.
#[export] Instance EdwardsCurve_eq_dec : EqDecision EdwardsCurve.
Proof. solve_decision. Defined.
#[export] Instance MlDsaParameterSet_eq_dec : EqDecision MlDsaParameterSet.
Proof. solve_decision. Defined.

(** [SoftwarePrivateKey]: a signing key by its [key_kind()], or a key of another
    use; the values of keys other than RSA are opaque to the modelled code. *)
Inductive SoftwarePrivateKeyMaterial : Type :=
| SigningRsa (key : RsaPrivateKey)
| SigningEdwards (curve : EdwardsCurve) (key : list Z)
| SigningMlDsa (parameter_set : MlDsaParameterSet) (key : list Z)
| SigningEc (curve : EcCurve) (key : list Z)
| Montgomery (key : list Z)
| MlKem (key : list Z)
| HybridKem (construction : HybridKemConstruction) (key : list Z).
#[export] Instance SoftwarePrivateKeyMaterial_eq_dec : EqDecision SoftwarePrivateKeyMaterial.
Proof. solve_decision. Defined.

Inductive PivAlgorithm : Type :=
| Rsa1024 | Rsa2048 | Rsa3072 | Rsa4096 | EccP256 | EccP384 | Ed25519 | X25519 | MlDsa44 | MlDsa65
| MlDsa87 | MlKem512 | MlKem768 | MlKem1024 | HybridMlKem768P256 | HybridMlKem768X25519
| HybridMlKem1024P384.
#[export] Instance PivAlgorithm_eq_dec : EqDecision PivAlgorithm.
Proof. solve_decision. Defined.

Definition rsa_input_length (a : PivAlgorithm) : option Z :=
  match a with
  | Rsa1024 => Some 128
  | Rsa2048 => Some 256
  | Rsa3072 => Some 384
  | Rsa4096 => Some 512
  | _ => None
  end.

(** [openpgp::Curve] *)
Inductive OpenPgpCurve : Type :=
| PgpP256 | PgpP384 | PgpP521 | PgpBrainpoolP256 | PgpBrainpoolP384 | PgpBrainpoolP512 | PgpSecp256k1
| PgpCurveEd25519 | PgpCurveX25519.
#[export] Instance OpenPgpCurve_eq_dec : EqDecision OpenPgpCurve.
Proof. solve_decision. Defined.

Inductive OpenPgpAlgorithm : Type :=
| PgpRsa (bits : Z)
| PgpEcdsa (curve : OpenPgpCurve)
| PgpEcdh (curve : OpenPgpCurve)
| PgpEd25519.
#[export] Instance OpenPgpAlgorithm_eq_dec : EqDecision OpenPgpAlgorithm.
Proof. solve_decision. Defined.

(** [oath::Credential] *)
Record Credential : Type := mkCredential {
  cred_name : list Z;
  cred_totp : bool;
  cred_hash : Z;
  cred_extended : bool;
  cred_period : Z;
  cred_digits : option Z;
  cred_touch : option bool;
}.
#[export] Instance Credential_eq_dec : EqDecision Credential.
Proof. solve_decision. Defined.

(** A [PreviewSignRegistration]: its relying party, and the rest as one value. *)
Record PreviewSignRegistration : Type := mkRegistration { registration_rp_id : list Z; registration_rest : list Z }.
#[export] Instance PreviewSignRegistration_eq_dec : EqDecision PreviewSignRegistration.
Proof. solve_decision. Defined.

(** What a YubiHSM reports of an object beside its identity; [value_cell] names
    the shared cell in which its value is kept once it was read. *)
Record YubiHsmInfo : Type := mkHsmInfo {
  hsm_length : Z;
  hsm_domains : Z;
  capabilities : list Z;
  delegated_capabilities : list Z;
  value_cell : Z;
}.
#[export] Instance YubiHsmInfo_eq_dec : EqDecision YubiHsmInfo.
Proof. solve_decision. Defined.

(** [KeyMaterial]. A [PreviewSignDerivedKeyRecord] is its arguments and the rest
    as one value. A shared cell ([Rc<RefCell<..>>]) is its name: the cells are part
    of the backend's state, and so are the connector and the session that the
    attestation variants hold. A platform credential is a reference. *)
Inductive KeyMaterial : Type :=
| NoMaterial
| Profile (profile_id : Z)
| Data (instance application object_id value : list Z)
| Certificate (instance value : list Z)
| Public (key : PublicKeyMaterial)
| SoftwarePrivate (key : SoftwarePrivateKeyMaterial)
| PlatformPrivate (credential : Z)
| PivPrivate (slot : Z) (algorithm : PivAlgorithm) (pin_policy touch_policy : Z)
| OpenPgpPrivate (key_ref : Z) (algorithm : OpenPgpAlgorithm) (pin_policy touch_policy : Z)
| PivCertificate (algorithm : PivAlgorithm) (value : list Z) (attestation : bool)
| PivData (object_id : Z) (value : list Z)
| PivAttestation (slot : Z) (algorithm : PivAlgorithm) (cache : Z)
| OpenPgpCertificate (value : list Z)
| OpenPgpData (tag : Z) (cache : Z)
| IssuerSecurityDomainData (value application object_id : list Z)
| IssuerSecurityDomainCertificate (value : list Z)
| FidoCredential (rp_id_hash response_cbor : list Z)
| FidoResidentPrivate (credential_id : list Z)
| PreviewSignRegistered (registration : PreviewSignRegistration) (owns_credential : bool)
| PreviewSignDerived (registration : PreviewSignRegistration) (additional_args_cbor : option (list Z))
    (derived_rest : list Z)
| OathCredential (credential : Credential)
| HsmAuthCredential (algorithm retries : Z) (touch_required : bool)
| YubiHsm (id object_type algorithm : Z) (public_key : list Z) (info : YubiHsmInfo)
| YubiHsmSessionObject (handle length : Z)
| YubiHsmAttestation (id algorithm : Z) (cache : Z)
| SoftwareSecret (value : list Z)
| Secret (value : list Z).
#[export] Instance KeyMaterial_eq_dec : EqDecision KeyMaterial.
Proof. solve_decision. Defined.

(** ** Active operations *)

Record GcmParameters : Type := mkGcm { gcm_iv : list Z; gcm_aad : list Z; tag_bits : Z }.
Record CtrParameters : Type := mkCtr { counter_bits : Z; counter_block : list Z }.
Record CcmParameters : Type := mkCcm {
  ccm_data_len : Z;
  ccm_nonce : list Z;
  ccm_aad : list Z;
  mac_len : Z;
}.

Record CryptOperation : Type := mkCrypt {
  crypt_key : KeyMaterial;
  crypt_public_key : option PublicKeyMaterial;
  crypt_slot_id : Z;
  crypt_requires_login : bool;
  crypt_extended : bool;
  crypt_mechanism : Z;
  iv : option (list Z);
  des3_iv : option (list Z);
  ctr : option CtrParameters;
  ccm : option CcmParameters;
  gcm : option GcmParameters;
  key_wrap_iv : option (list Z);
  oaep : option (Z * Z * list Z);
  crypt_pin_policy : option Z;
  crypt_buffer : list Z;
  crypt_multipart : bool;
  crypt_result : option (list Z);
}.

(** A [HashContext] or [MlDsaPrehashContext]: the state of an incremental hash. *)
Definition HashContext : Type := list Z.

Record MlDsaSignatureParameters : Type := mkMlDsaParameters {
  prehash : option Z;
  hedge_variant : Z;
  ml_dsa_context : list Z;
}.

Inductive SignatureHashContext : Type :=
| DigestContext (hash : HashContext)
| MlDsaContext (hash : HashContext).

Record SignatureOperation : Type := mkSignature {
  sign_multipart : bool;
  prehash_state : option SignatureHashContext;
  sign_key : KeyMaterial;
  sign_public_key : option PublicKeyMaterial;
  sign_slot_id : Z;
  sign_requires_login : bool;
  context_specific_extended : bool;
  context_specific_rp_id : option (list Z);
  oath_time : option Z;
  fido_authorization : option Z;
  sign_mechanism : Z;
  mac_length : option Z;
  gmac : option GcmParameters;
  pss : option (Z * Z * Z);
  ml_dsa : option MlDsaSignatureParameters;
  piv_pin_policy : option Z;
  sign_buffer : list Z;
  sign_result : option (list Z);
}.

Record DigestOperation : Type := mkDigest {
  digest_mechanism : Z;
  digest_algorithm : MessageDigest;
  digest_state : HashContext;
  digest_multipart : bool;
}.

Definition set_fido_authorization (a : option Z) (o : SignatureOperation) : SignatureOperation :=
  mkSignature (sign_multipart o) (prehash_state o) (sign_key o) (sign_public_key o) (sign_slot_id o)
    (sign_requires_login o) (context_specific_extended o) (context_specific_rp_id o) (oath_time o) a
    (sign_mechanism o) (mac_length o) (gmac o) (pss o) (ml_dsa o) (piv_pin_policy o) (sign_buffer o)
    (sign_result o).
