(* ===== verification/AttributeTypes.v ===== *)
(** * AttributeTypes: the numbers of PKCS #11 attributes

    The constants of [src/src/pkcs11.rs] and the vendor attributes of
    [src/src/lib.rs] that templates, objects and metadata records use. *)
From S2P Require Import Prelude Errors Mechanisms.

Definition CKA_CLASS : Z := 0.
Definition CKA_TOKEN : Z := 1.
Definition CKA_PRIVATE : Z := 2.
Definition CKA_LABEL : Z := 3.
Definition CKA_UNIQUE_ID : Z := 4.
Definition CKA_APPLICATION : Z := 16.
Definition CKA_VALUE : Z := 17.
Definition CKA_OBJECT_ID : Z := 18.
Definition CKA_CERTIFICATE_TYPE : Z := 128.
Definition CKA_ISSUER : Z := 129.
Definition CKA_SERIAL_NUMBER : Z := 130.
Definition CKA_ATTR_TYPES : Z := 133.
Definition CKA_TRUSTED : Z := 134.
Definition CKA_CERTIFICATE_CATEGORY : Z := 135.
Definition CKA_JAVA_MIDP_SECURITY_DOMAIN : Z := 136.
Definition CKA_URL : Z := 137.
Definition CKA_HASH_OF_SUBJECT_PUBLIC_KEY : Z := 138.
Definition CKA_HASH_OF_ISSUER_PUBLIC_KEY : Z := 139.
Definition CKA_NAME_HASH_ALGORITHM : Z := 140.
Definition CKA_CHECK_VALUE : Z := 144.
Definition CKA_KEY_TYPE : Z := 256.
Definition CKA_SUBJECT : Z := 257.
Definition CKA_ID : Z := 258.
Definition CKA_SENSITIVE : Z := 259.
Definition CKA_ENCRYPT : Z := 260.
Definition CKA_DECRYPT : Z := 261.
Definition CKA_WRAP : Z := 262.
Definition CKA_UNWRAP : Z := 263.
Definition CKA_SIGN : Z := 264.
Definition CKA_SIGN_RECOVER : Z := 265.
Definition CKA_VERIFY : Z := 266.
Definition CKA_VERIFY_RECOVER : Z := 267.
Definition CKA_DERIVE : Z := 268.
Definition CKA_START_DATE : Z := 272.
Definition CKA_END_DATE : Z := 273.
Definition CKA_MODULUS : Z := 288.
Definition CKA_MODULUS_BITS : Z := 289.
Definition CKA_PUBLIC_EXPONENT : Z := 290.
Definition CKA_PRIVATE_EXPONENT : Z := 291.
Definition CKA_PRIME_1 : Z := 292.
Definition CKA_PRIME_2 : Z := 293.
Definition CKA_EXPONENT_1 : Z := 294.
Definition CKA_EXPONENT_2 : Z := 295.
Definition CKA_COEFFICIENT : Z := 296.
Definition CKA_PUBLIC_KEY_INFO : Z := 297.
Definition CKA_VALUE_LEN : Z := 353.
Definition CKA_EXTRACTABLE : Z := 354.
Definition CKA_LOCAL : Z := 355.
Definition CKA_NEVER_EXTRACTABLE : Z := 356.
Definition CKA_ALWAYS_SENSITIVE : Z := 357.
Definition CKA_KEY_GEN_MECHANISM : Z := 358.
Definition CKA_MODIFIABLE : Z := 368.
Definition CKA_COPYABLE : Z := 369.
Definition CKA_DESTROYABLE : Z := 370.
Definition CKA_EC_PARAMS : Z := 384.
Definition CKA_EC_POINT : Z := 385.
Definition CKA_ALWAYS_AUTHENTICATE : Z := 514.
Definition CKA_WRAP_WITH_TRUSTED : Z := 528.
Definition CKA_WRAP_TEMPLATE : Z := 1073742353.
Definition CKA_UNWRAP_TEMPLATE : Z := 1073742354.
Definition CKA_DERIVE_TEMPLATE : Z := 1073742355.
Definition CKA_OTP_FORMAT : Z := 544.
Definition CKA_OTP_LENGTH : Z := 545.
Definition CKA_OTP_TIME_INTERVAL : Z := 546.
Definition CKA_OTP_USER_FRIENDLY_MODE : Z := 547.
Definition CKA_OTP_CHALLENGE_REQUIREMENT : Z := 548.
Definition CKA_OTP_TIME_REQUIREMENT : Z := 549.
Definition CKA_OTP_COUNTER_REQUIREMENT : Z := 550.
Definition CKA_OTP_PIN_REQUIREMENT : Z := 551.
Definition CKA_OTP_COUNTER : Z := 558.
Definition CKA_ALLOWED_MECHANISMS : Z := 1073743360.
Definition CKA_PROFILE_ID : Z := 1537.
Definition CKA_PARAMETER_SET : Z := 1565.
Definition CKA_OBJECT_VALIDATION_FLAGS : Z := 1566.
Definition CKA_ENCAPSULATE : Z := 1587.
Definition CKA_DECAPSULATE : Z := 1588.
Definition CKA_PUBLIC_CRC64_VALUE : Z := 1590.
Definition CKA_SEED : Z := 1591.
Definition CKA_VENDOR_DEFINED : Z := 2147483648.

(** ** Vendor attributes *)

Definition CKA_YUBICO_HSMAUTH_RETRIES : Z := Z.lor CKA_VENDOR_DEFINED 0x5902.
Definition CKA_YUBICO_HSMAUTH_TOUCH_REQUIRED : Z := Z.lor CKA_VENDOR_DEFINED 0x5903.
Definition CKA_YUBICO_TOUCH_POLICY : Z := CKA_VENDOR_DEFINED + YUBICO_BASE_VENDOR + 1.
Definition CKA_YUBICO_PIN_POLICY : Z := CKA_VENDOR_DEFINED + YUBICO_BASE_VENDOR + 2.
Definition CKA_PKCS11RS_PIV_OBJECT_TAG : Z := Z.lor CKA_VENDOR_DEFINED 0x5056.
Definition CKA_PKCS11RS_OATH_HASH : Z := Z.lor CKA_VENDOR_DEFINED 0x50530007.
Definition CKA_PKCS11RS_OATH_TOUCH_REQUIRED : Z := Z.lor CKA_VENDOR_DEFINED 0x50530008.
Definition CKA_PKCS11RS_PREVIEW_SIGN_REGISTRATION : Z := Z.lor CKA_VENDOR_DEFINED 0x50530001.
Definition CKA_PKCS11RS_PREVIEW_SIGN_DERIVED_KEY : Z := Z.lor CKA_VENDOR_DEFINED 0x50530002.
Definition CKA_PKCS11RS_FIDO_RP_ID : Z := Z.lor CKA_VENDOR_DEFINED 0x50530003.
Definition CKA_PKCS11RS_URI : Z := Z.lor CKA_VENDOR_DEFINED 0x50530004.

(** ** Values *)

(** [CK_UNAVAILABLE_INFORMATION as CK_ULONG] *)
Definition CK_UNAVAILABLE_INFORMATION : Z := U64_MAX.
Definition CKC_X_509 : Z := 0.
Definition CK_CERTIFICATE_CATEGORY_UNSPECIFIED : Z := 0.
Definition CK_SECURITY_DOMAIN_UNSPECIFIED : Z := 0.
Definition CKP_ML_KEM_512 : Z := 1.
Definition CKP_ML_KEM_768 : Z := 2.
Definition CKP_ML_KEM_1024 : Z := 3.
