(* ===== verification/KeyMetadata.v ===== *)
(** * KeyMetadata: attributes of a key and the canonical record of a backed key

    Models [src/src/key_metadata.rs]: the attribute map of a key with its
    insertion and validation, and the CBOR record that a backend stores beside
    a key. A [BTreeMap] is an association list in the order of its keys; the
    CBOR crate is the class [CborMaps] over [Storage]'s [MiniCbor], with the
    behaviour it documents as [CborMapsLaws]. A decoder is the list of the
    bytes that are left. *)
From Stdlib Require Import Sorting.Sorted.
From S2P Require Import Prelude Errors Storage Mechanisms AttributeTypes.

(** ** The CBOR crate *)

(** [minicbor::data::Type]: the types the code distinguishes. *)
Inductive CborType : Type :=
| TypeBool | TypeU8 | TypeU16 | TypeU32 | TypeU64 | TypeBytes | TypeString | TypeArray | TypeMap | TypeOther.

(** [Encoder::u8] writes what [Encoder::u64] writes for the same number. *)
Class CborMaps : Type := {
  cbor_base :: MiniCbor;
  enc_map : Z → list Z;
  enc_u64 : Z → list Z;
  enc_bool : bool → list Z;
  dec_map : list Z → option (option Z * list Z);
  dec_u64 : list Z → option (Z * list Z);
  dec_bool : list Z → option (bool * list Z);
  dec_datatype : list Z → option CborType;
}.

Definition is_uint_type (t : CborType) : bool :=
  match t with TypeU8 | TypeU16 | TypeU32 | TypeU64 => true | _ => false end.

(** A decoder reads back what an encoder wrote, with its type, and only returns
    numbers of 64 bits and well-formed strings. *)
Class CborMapsLaws `{CborMaps} : Prop := {
  dec_enc_map n rest : 0 ≤ n ≤ U64_MAX → dec_map (enc_map n ++ rest) = Some (Some n, rest);
  dec_enc_u64 n rest : 0 ≤ n ≤ U64_MAX → dec_u64 (enc_u64 n ++ rest) = Some (n, rest);
  dec_enc_bool b rest : dec_bool (enc_bool b ++ rest) = Some (b, rest);
  dec_enc_array64 n rest : 0 ≤ n ≤ U64_MAX → dec_array (enc_array n ++ rest) = Some (Some n, rest);
  dec_enc_str64 s rest :
    utf8_valid s = true → len s ≤ U64_MAX → dec_str (enc_str s ++ rest) = Some (s, rest);
  dec_enc_bytes64 b rest : len b ≤ U64_MAX → dec_bytes (enc_bytes b ++ rest) = Some (b, rest);
  datatype_map n rest : 0 ≤ n ≤ U64_MAX → dec_datatype (enc_map n ++ rest) = Some TypeMap;
  datatype_u64 n rest :
    0 ≤ n ≤ U64_MAX → ∃ t, dec_datatype (enc_u64 n ++ rest) = Some t ∧ is_uint_type t = true;
  datatype_bool b rest : dec_datatype (enc_bool b ++ rest) = Some TypeBool;
  datatype_array n rest : 0 ≤ n ≤ U64_MAX → dec_datatype (enc_array n ++ rest) = Some TypeArray;
  datatype_str s rest : len s ≤ U64_MAX → dec_datatype (enc_str s ++ rest) = Some TypeString;
  datatype_bytes b rest : len b ≤ U64_MAX → dec_datatype (enc_bytes b ++ rest) = Some TypeBytes;
  dec_u64_range l n rest : dec_u64 l = Some (n, rest) → 0 ≤ n ≤ U64_MAX;
  dec_map_range l n rest : dec_map l = Some (Some n, rest) → 0 ≤ n ≤ U64_MAX;
  dec_array_range l n rest : dec_array l = Some (Some n, rest) → 0 ≤ n ≤ U64_MAX;
  dec_str_valid l s rest : dec_str l = Some (s, rest) → utf8_valid s = true ∧ len s ≤ U64_MAX;
  dec_bytes_length l b rest : dec_bytes l = Some (b, rest) → len b ≤ U64_MAX;
}.

(** ** Data *)

Definition BACKED_KEY_SCHEMA : list Z := str "pkcs11rs.backed-key".
Definition BACKED_KEY_SCHEMA_VERSION : Z := 1.
Definition MAX_PROVIDER_LENGTH : Z := 128.
Definition MAX_PROVIDER_DATA_LENGTH : Z := 16 * 1024 * 1024.
Definition MAX_ASPECTS : Z := 3.
Definition MAX_ATTRIBUTES : Z := 256.
Definition MAX_TEMPLATE_DEPTH : Z := 4.

Inductive KeyMetadataError : Type :=
| Malformed (reason : string)
| UnsupportedSchemaVersion (version : Z)
| UnsupportedClass (class : Z)
| UnsupportedAttribute (attribute : Z)
| InvalidAttributeType (attribute : Z).

Record KeyBacking : Type := mkBacking { provider : list Z; data_cbor : list Z }.

(** A [KeyAttributes] is the list of its entries in the order of the map. *)
Inductive KeyAttributeValue : Type :=
| ValueBoolean (value : bool)
| ValueUnsigned (value : Z)
| ValueBytes (value : list Z)
| ValueText (value : list Z)
| ValueMechanisms (mechanisms : list Z)
| ValueTemplate (attributes : list (Z * KeyAttributeValue)).
Abbreviation KeyAttributes := (list (Z * KeyAttributeValue)).

Record BackedKeyMetadata : Type := mkMetadata {
  backing : KeyBacking;
  aspects : list (Z * KeyAttributes);
}.

Inductive AttributeKind : Type :=
| KindBoolean | KindUnsigned | KindBytes | KindText | KindMechanisms | KindTemplate.
#[export] Instance AttributeKind_eq_dec : EqDecision AttributeKind.
Proof. solve_decision. Defined.

(** Induction on a value through the templates nested in it. *)
Definition KeyAttributeValue_nested_ind (P : KeyAttributeValue → Prop)
    (Hb : ∀ b, P (ValueBoolean b)) (Hu : ∀ n, P (ValueUnsigned n)) (Hy : ∀ b, P (ValueBytes b))
    (Ht : ∀ s, P (ValueText s)) (Hm : ∀ ms, P (ValueMechanisms ms))
    (Hn : ∀ l, Forall (λ entry, P (snd entry)) l → P (ValueTemplate l)) : ∀ v, P v :=
  fix go v :=
    match v with
    | ValueBoolean b => Hb b
    | ValueUnsigned n => Hu n
    | ValueBytes b => Hy b
    | ValueText s => Ht s
    | ValueMechanisms ms => Hm ms
    | ValueTemplate l =>
        Hn l ((fix entries l : Forall (λ entry, P (snd entry)) l :=
                 match l with
                 | [] => Forall_nil_2 _
                 | entry :: rest => Forall_cons_2 _ entry rest (go (snd entry)) (entries rest)
                 end) l)
    end.

#[export] Instance KeyAttributeValue_eq_dec : EqDecision KeyAttributeValue.
Proof.
  unfold EqDecision, Decision.
  fix IH 1. intros [b|n|b|s|ms|l] [b'|n'|b'|s'|ms'|l'];
    try (right; discriminate).
  - destruct (decide (b = b')); [left; by f_equal|right; congruence].
  - destruct (decide (n = n')); [left; by f_equal|right; congruence].
  - destruct (decide (b = b')); [left; by f_equal|right; congruence].
  - destruct (decide (s = s')); [left; by f_equal|right; congruence].
  - destruct (decide (ms = ms')); [left; by f_equal|right; congruence].
  - assert (∀ l l' : KeyAttributes, {l = l'} + {l ≠ l'}) as IHl.
    { clear l l'. fix IHl 1. intros [|[a v] l] [|[a' v'] l']; try (right; discriminate); [by left|].
      destruct (decide (a = a')) as [->|]; [|right; congruence].
      destruct (IH v v') as [->|]; [|right; congruence].
      destruct (IHl l l') as [->|]; [by left|right; congruence]. }
    destruct (IHl l l') as [->|]; [by left|right; congruence].
Defined.

(** ** Ordered maps *)

Section map.
Context {V : Type}.

(** [BTreeMap::get], [BTreeMap::insert] and [BTreeMap::remove]. *)
Fixpoint map_get (k : Z) (m : list (Z * V)) : option V :=
  match m with
  | [] => None
  | (k', v) :: rest => if k =? k' then Some v else map_get k rest
  end.

Fixpoint map_insert (k : Z) (v : V) (m : list (Z * V)) : list (Z * V) :=
  match m with
  | [] => [(k, v)]
  | (k', v') :: rest =>
      if k <? k' then (k, v) :: m
      else if k =? k' then (k, v) :: rest
      else (k', v') :: map_insert k v rest
  end.

Definition map_remove (k : Z) (m : list (Z * V)) : list (Z * V) :=
  List.filter (λ entry, negb (fst entry =? k)) m.

Definition contains_key (k : Z) (m : list (Z * V)) : bool :=
  existsb (λ entry, fst entry =? k) m.
End map.

(** ** Kinds and validation *)

Definition attribute_kind (a : Z) : outcome KeyMetadataError AttributeKind :=
  if one_of [CKA_TOKEN; CKA_PRIVATE; CKA_MODIFIABLE; CKA_COPYABLE; CKA_DESTROYABLE; CKA_DERIVE;
             CKA_LOCAL; CKA_ENCRYPT; CKA_VERIFY; CKA_VERIFY_RECOVER; CKA_WRAP; CKA_ENCAPSULATE;
             CKA_TRUSTED; CKA_SENSITIVE; CKA_DECRYPT; CKA_SIGN; CKA_SIGN_RECOVER; CKA_UNWRAP;
             CKA_DECAPSULATE; CKA_EXTRACTABLE; CKA_ALWAYS_SENSITIVE; CKA_NEVER_EXTRACTABLE;
             CKA_WRAP_WITH_TRUSTED; CKA_ALWAYS_AUTHENTICATE] a then Ok KindBoolean
  else if one_of [CKA_CLASS; CKA_KEY_TYPE; CKA_KEY_GEN_MECHANISM; CKA_OBJECT_VALIDATION_FLAGS;
                  CKA_MODULUS_BITS; CKA_VALUE_LEN] a then Ok KindUnsigned
  else if one_of [CKA_LABEL; CKA_UNIQUE_ID] a then Ok KindText
  else if a =? CKA_ALLOWED_MECHANISMS then Ok KindMechanisms
  else if one_of [CKA_WRAP_TEMPLATE; CKA_UNWRAP_TEMPLATE; CKA_DERIVE_TEMPLATE] a then Ok KindTemplate
  else if one_of [CKA_ID; CKA_START_DATE; CKA_END_DATE; CKA_SUBJECT; CKA_PUBLIC_KEY_INFO;
                  CKA_PUBLIC_CRC64_VALUE; CKA_CHECK_VALUE; CKA_MODULUS; CKA_PUBLIC_EXPONENT;
                  CKA_PRIVATE_EXPONENT; CKA_PRIME_1; CKA_PRIME_2; CKA_EXPONENT_1; CKA_EXPONENT_2;
                  CKA_COEFFICIENT; CKA_EC_PARAMS; CKA_EC_POINT; CKA_VALUE] a then Ok KindBytes
  else if CKA_VENDOR_DEFINED <=? a then Ok KindBytes
  else Err (UnsupportedAttribute a).

Definition value_kind (v : KeyAttributeValue) : AttributeKind :=
  match v with
  | ValueBoolean _ => KindBoolean
  | ValueUnsigned _ => KindUnsigned
  | ValueBytes _ => KindBytes
  | ValueText _ => KindText
  | ValueMechanisms _ => KindMechanisms
  | ValueTemplate _ => KindTemplate
  end.

(** No [windows(2)] pair with [pair[0] >= pair[1]]. *)
Fixpoint increasing (l : list Z) : bool :=
  match l with
  | a :: (b :: _) as rest => (a <? b) && increasing rest
  | _ => true
  end.

Definition validate_attribute_type (a : Z) (v : KeyAttributeValue) : outcome KeyMetadataError unit :=
  let? expected := attribute_kind a in
  let? _ := bail (negb (bool_decide (expected = value_kind v))) (InvalidAttributeType a) in
  match v with
  | ValueMechanisms ms =>
      bail ((MAX_ATTRIBUTES <? len ms) || negb (increasing ms))
        (Malformed "mechanism list is not sorted and unique")
  | _ => Ok tt
  end.

(** [for (a, v) in entries { f(a, v)? }] *)
Fixpoint validate_entries (f : Z → KeyAttributeValue → outcome KeyMetadataError unit)
    (l : KeyAttributes) : outcome KeyMetadataError unit :=
  match l with
  | [] => Ok tt
  | (a, v) :: rest => let? _ := f a v in validate_entries f rest
  end.

Definition too_many_attributes {V} (l : list V) : outcome KeyMetadataError unit :=
  bail (MAX_ATTRIBUTES <? len l) (Malformed "too many key attributes").

Fixpoint validate_template_attribute (a : Z) (v : KeyAttributeValue) : outcome KeyMetadataError unit :=
  let? _ := validate_attribute_type a v in
  match v with
  | ValueTemplate l =>
      let? _ := too_many_attributes l in
      (fix entries l :=
         match l with
         | [] => Ok tt
         | (a, v) :: rest => let? _ := validate_template_attribute a v in entries rest
         end) l
  | _ => Ok tt
  end.

Definition validate_template_attributes (l : KeyAttributes) : outcome KeyMetadataError unit :=
  let? _ := too_many_attributes l in
  validate_entries validate_template_attribute l.

Definition validate_attribute (a : Z) (v : KeyAttributeValue) : outcome KeyMetadataError unit :=
  let? _ := bail ((a =? CKA_CLASS) || (a =? CKA_TOKEN))
              (Malformed "structural attribute present in key aspect") in
  let? _ := validate_attribute_type a v in
  match v with
  | ValueTemplate l => validate_template_attributes l
  | _ => Ok tt
  end.

Definition validate_attributes (l : KeyAttributes) : outcome KeyMetadataError unit :=
  let? _ := too_many_attributes l in
  validate_entries validate_attribute l.

Definition validate_object_class (class : Z) : outcome KeyMetadataError unit :=
  bail (negb (one_of [CKO_DATA; CKO_CERTIFICATE; CKO_PUBLIC_KEY; CKO_PRIVATE_KEY; CKO_SECRET_KEY] class))
    (UnsupportedClass class).

(** ** Changing a map *)

Definition insert_checked (check : Z → KeyAttributeValue → outcome KeyMetadataError unit)
    (a : Z) (v : KeyAttributeValue) (l : KeyAttributes)
    : outcome KeyMetadataError (option KeyAttributeValue * KeyAttributes) :=
  let? _ := bail ((MAX_ATTRIBUTES <=? len l) && negb (contains_key a l)) (Malformed "too many key attributes") in
  let? _ := check a v in
  Ok (map_get a l, map_insert a v l).

Definition attributes_insert := insert_checked validate_attribute.
Definition insert_template := insert_checked validate_template_attribute.

Definition insert_aspect (class : Z) (l : KeyAttributes) (r : BackedKeyMetadata)
    : outcome KeyMetadataError (option KeyAttributes * BackedKeyMetadata) :=
  let? _ := validate_object_class class in
  let? _ := bail ((MAX_ASPECTS <=? len (aspects r)) && negb (contains_key class (aspects r)))
              (Malformed "too many key aspects") in
  let? _ := validate_attributes l in
  Ok (map_get class (aspects r), mkMetadata (backing r) (map_insert class l (aspects r))).

Definition BackedKeyMetadata_new (b : KeyBacking) : BackedKeyMetadata := mkMetadata b [].
Definition aspect (class : Z) (r : BackedKeyMetadata) : option KeyAttributes := map_get class (aspects r).

(** ** The CBOR record *)

Section codec.
Context `{CborMaps}.
Abbreviation E := KeyMetadataError.
Abbreviation D := (SM (list Z) KeyMetadataError).

(** A failing read of the decoder is [Malformed("invalid CBOR")]. *)
Definition read {A} (f : list Z → option (A * list Z)) : D A := λ l,
  match f l with
  | Some (a, rest) => (Ok a, rest)
  | None => (Err (Malformed "invalid CBOR"), l)
  end.

Definition validate_single_cbor_item (encoded : list Z) : outcome E unit :=
  let? _ := bail (bool_decide (encoded = [])) (Malformed "empty backing provider data") in
  match cbor_skip encoded with
  | None => Err (Malformed "invalid backing provider CBOR")
  | Some rest => bail (negb (bool_decide (rest = []))) (Malformed "trailing backing provider data")
  end.

(** [is_ascii_lowercase], [is_ascii_digit] or one of the three signs. *)
Definition provider_byte (b : Z) : bool :=
  between 97 b 122 || between 48 b 57 || one_of [46; 45; 95] b.

Definition KeyBacking_new (p data : list Z) : outcome E KeyBacking :=
  let? _ := bail (bool_decide (p = []) || (MAX_PROVIDER_LENGTH <? len p) || negb (forallb provider_byte p))
              (Malformed "invalid backing provider identifier") in
  let? _ := bail (MAX_PROVIDER_DATA_LENGTH <? len data) (Malformed "backing provider data is too large") in
  let? _ := validate_single_cbor_item data in
  Ok (mkBacking p data).

Fixpoint encode_attribute_value (v : KeyAttributeValue) : outcome E (list Z) :=
  match v with
  | ValueBoolean b => Ok (enc_bool b)
  | ValueUnsigned n => Ok (enc_u64 n)
  | ValueBytes b => Ok (enc_bytes b)
  | ValueText s => Ok (enc_str s)
  | ValueMechanisms ms => Ok (enc_array (len ms) ++ concat (enc_u64 <$> ms))
  | ValueTemplate l =>
      let? _ := validate_template_attributes l in
      let? body :=
        (fix entries l :=
           match l with
           | [] => Ok []
           | (a, v) :: rest =>
               let? encoded := encode_attribute_value v in
               let? body := entries rest in
               Ok (enc_u64 a ++ encoded ++ body)
           end) l in
      Ok (enc_map (len l) ++ body)
  end.

Fixpoint encode_entries (l : KeyAttributes) : outcome E (list Z) :=
  match l with
  | [] => Ok []
  | (a, v) :: rest =>
      let? encoded := encode_attribute_value v in
      let? body := encode_entries rest in
      Ok (enc_u64 a ++ encoded ++ body)
  end.

Definition encode_attributes (template : bool) (l : KeyAttributes) : outcome E (list Z) :=
  let? _ := (if template then validate_template_attributes l else validate_attributes l) in
  let? body := encode_entries l in
  Ok (enc_map (len l) ++ body).

Definition template_to_cbor (l : KeyAttributes) : outcome E (list Z) := encode_attributes true l.

(** On a platform with 64-bit pointers [usize] holds every count. *)
Definition definite_map (reason : string) : D Z :=
  let! count := read dec_map in
  sm_lift (ok_or (Malformed reason) count).

Fixpoint read_mechanisms (n : nat) : D (list Z) :=
  match n with
  | O => sm_ret []
  | S n =>
      let! m := read dec_u64 in
      let! rest := read_mechanisms n in
      sm_ret (m :: rest)
  end.

Definition decode_attribute_value (nested : D KeyAttributes) : D KeyAttributeValue := λ l,
  match dec_datatype l with
  | None => (Err (Malformed "invalid CBOR"), l)
  | Some TypeBool => (let! b := read dec_bool in sm_ret (ValueBoolean b)) l
  | Some TypeU8 | Some TypeU16 | Some TypeU32 | Some TypeU64 =>
      (let! n := read dec_u64 in sm_ret (ValueUnsigned n)) l
  | Some TypeBytes => (let! b := read dec_bytes in sm_ret (ValueBytes b)) l
  | Some TypeString => (let! s := read dec_str in sm_ret (ValueText s)) l
  | Some TypeArray =>
      (let! count := read dec_array in
       let! count := sm_lift (ok_or (Malformed "mechanism list is not a definite array") count) in
       let! _ := guard_err (MAX_ATTRIBUTES <? count) (Malformed "too many mechanisms") in
       let! ms := read_mechanisms (Z.to_nat count) in
       sm_ret (ValueMechanisms ms)) l
  | Some TypeMap => (let! attributes := nested in sm_ret (ValueTemplate attributes)) l
  | Some TypeOther => (Err (Malformed "unsupported key attribute CBOR value"), l)
  end.

(** The loop of [decode_attributes]: the map read so far, and [n] entries to come. *)
Fixpoint decode_entries (nested : D KeyAttributes) (top : bool) (n : nat) (acc : KeyAttributes)
    : D KeyAttributes :=
  match n with
  | O => sm_ret acc
  | S n =>
      let! a := read dec_u64 in
      let! v := decode_attribute_value nested in
      let! '(previous, acc) := sm_lift (if top then attributes_insert a v acc else insert_template a v acc) in
      let! _ := guard_err (bool_decide (previous ≠ None)) (Malformed "duplicate key attribute") in
      decode_entries nested top n acc
  end.

(** [levels] is [MAX_TEMPLATE_DEPTH + 1 - depth]: none left is the code's
    depth check, so the recursion needs no other bound. *)
Fixpoint decode_levels (levels : nat) (top : bool) : D KeyAttributes :=
  match levels with
  | O => sm_err (Malformed "attribute template nesting is too deep")
  | S levels =>
      let! count := definite_map "key attributes are not a definite map" in
      let! _ := guard_err (MAX_ATTRIBUTES <? count) (Malformed "too many key attributes") in
      decode_entries (decode_levels levels false) top (Z.to_nat count) []
  end.
Definition decode_attributes (depth : Z) : D KeyAttributes :=
  decode_levels (Z.to_nat (MAX_TEMPLATE_DEPTH + 1 - depth)) (depth =? 0).

Definition template_from_cbor (encoded : list Z) : outcome E KeyAttributes :=
  match decode_attributes 1 encoded with
  | (Ok attributes, rest) =>
      let bad := Err (Malformed "attribute template is not canonically encoded") in
      if bool_decide (rest ≠ []) then bad
      else
        let? canonical := template_to_cbor attributes in
        if bool_decide (canonical = encoded) then Ok attributes else bad
  | (Err e, _) => Err e
  | (Panic, _) => Panic
  end.

Fixpoint encode_aspects (l : list (Z * KeyAttributes)) : outcome E (list Z) :=
  match l with
  | [] => Ok []
  | (class, attributes) :: rest =>
      let? encoded := encode_attributes false attributes in
      let? body := encode_aspects rest in
      Ok (enc_u64 class ++ encoded ++ body)
  end.

Definition to_cbor (r : BackedKeyMetadata) : outcome E (list Z) :=
  let? _ := bail (bool_decide (aspects r = [])) (Malformed "backed key has no PKCS #11 aspects") in
  let? body := encode_aspects (aspects r) in
  Ok (enc_map 5
      ++ enc_u64 1 ++ enc_str BACKED_KEY_SCHEMA
      ++ enc_u64 2 ++ enc_u64 BACKED_KEY_SCHEMA_VERSION
      ++ enc_u64 3 ++ enc_str (provider (backing r))
      ++ enc_u64 4 ++ enc_bytes (data_cbor (backing r))
      ++ enc_u64 5 ++ enc_map (len (aspects r)) ++ body).

Fixpoint decode_aspect_entries (n : nat) (acc : list (Z * KeyAttributes)) : D (list (Z * KeyAttributes)) :=
  match n with
  | O => sm_ret acc
  | S n =>
      let! class := read dec_u64 in
      let! _ := sm_lift (validate_object_class class) in
      let! attributes := decode_attributes 0 in
      let! _ := guard_err (contains_key class acc) (Malformed "duplicate key aspect") in
      decode_aspect_entries n (map_insert class attributes acc)
  end.

Definition decode_aspects : D (list (Z * KeyAttributes)) :=
  let! count := definite_map "key aspects are not a definite map" in
  let! _ := guard_err (MAX_ASPECTS <? count) (Malformed "too many key aspects") in
  decode_aspect_entries (Z.to_nat count) [].

(** The local variables of [from_cbor]. *)
Record Fields : Type := mkFields {
  f_schema : option (list Z);
  f_version : option Z;
  f_provider : option (list Z);
  f_data : option (list Z);
  f_aspects : option (list (Z * KeyAttributes));
}.

Definition decode_field (f : Fields) : D Fields :=
  let! key := read dec_u64 in
  if key =? 1 then
    let! _ := guard_err (bool_decide (f_schema f ≠ None)) (Malformed "duplicate schema identifier") in
    let! s := read dec_str in
    sm_ret (mkFields (Some s) (f_version f) (f_provider f) (f_data f) (f_aspects f))
  else if key =? 2 then
    let! _ := guard_err (bool_decide (f_version f ≠ None)) (Malformed "duplicate schema version") in
    let! n := read dec_u64 in
    sm_ret (mkFields (f_schema f) (Some n) (f_provider f) (f_data f) (f_aspects f))
  else if key =? 3 then
    let! _ := guard_err (bool_decide (f_provider f ≠ None)) (Malformed "duplicate backing provider") in
    let! s := read dec_str in
    sm_ret (mkFields (f_schema f) (f_version f) (Some s) (f_data f) (f_aspects f))
  else if key =? 4 then
    let! _ := guard_err (bool_decide (f_data f ≠ None)) (Malformed "duplicate backing data") in
    let! b := read dec_bytes in
    let! _ := guard_err (MAX_PROVIDER_DATA_LENGTH <? len b) (Malformed "backing provider data is too large") in
    sm_ret (mkFields (f_schema f) (f_version f) (f_provider f) (Some b) (f_aspects f))
  else if key =? 5 then
    let! _ := guard_err (bool_decide (f_aspects f ≠ None)) (Malformed "duplicate key aspects") in
    let! a := decode_aspects in
    sm_ret (mkFields (f_schema f) (f_version f) (f_provider f) (f_data f) (Some a))
  else sm_err (Malformed "unknown backed-key field").

Fixpoint decode_fields (n : nat) (f : Fields) : D Fields :=
  match n with
  | O => sm_ret f
  | S n => let! f := decode_field f in decode_fields n f
  end.

(** The record of the fields, before the comparison with its encoding. *)
Definition assemble (f : Fields) : outcome E BackedKeyMetadata :=
  let? _ := bail (negb (bool_decide (f_schema f = Some BACKED_KEY_SCHEMA)))
              (Malformed "invalid schema identifier") in
  let? version := ok_or (Malformed "missing schema version") (f_version f) in
  let? _ := bail (negb (version =? BACKED_KEY_SCHEMA_VERSION)) (UnsupportedSchemaVersion version) in
  let? p := ok_or (Malformed "missing backing provider") (f_provider f) in
  let? data := ok_or (Malformed "missing backing data") (f_data f) in
  let? b := KeyBacking_new p data in
  let? a := ok_or (Malformed "missing key aspects") (f_aspects f) in
  let? _ := bail (bool_decide (a = [])) (Malformed "backed key has no PKCS #11 aspects") in
  Ok (mkMetadata b a).

Definition from_cbor (encoded : list Z) : outcome E BackedKeyMetadata :=
  match (let! count := definite_map "backed key is not a definite map" in
         decode_fields (Z.to_nat count) (mkFields None None None None None)) encoded with
  | (Ok f, rest) =>
      let? _ := bail (bool_decide (rest ≠ [])) (Malformed "trailing backed-key data") in
      let? r := assemble f in
      let? canonical := to_cbor r in
      if bool_decide (canonical = encoded) then Ok r
      else Err (Malformed "backed key is not canonically encoded")
  | (Err e, _) => Err e
  | (Panic, _) => Panic
  end.
End codec.

(** ** Ordered maps *)

Section map_lemmas.
Context {V : Type}.
Implicit Types m : list (Z * V).

Abbreviation sorted m := (StronglySorted Z.lt m.*1).

Lemma map_insert_keys k v m : ∀ k', k' ∈ (map_insert k v m).*1 ↔ k' = k ∨ k' ∈ m.*1.
Proof.
  intros k'. induction m as [|[a b] m IH]; cbn [map_insert fmap list_fmap]; [set_solver|].
  destruct (k <? a); [set_solver|]. destruct (k =? a) eqn:Ek; cbn [fmap list_fmap fst]; bool_to_prop; set_solver.
Qed.

Lemma map_insert_sorted k v m : sorted m → sorted (map_insert k v m).
Proof.
  induction m as [|[a b] m IH]; cbn [map_insert fmap list_fmap fst].
  { intros _. by repeat constructor. }
  intros [Hm Ha]%StronglySorted_inv.
  destruct (k <? a) eqn:E1; [|destruct (k =? a) eqn:E2]; cbn [fmap list_fmap fst]; bool_to_prop.
  - constructor; [by constructor|]. constructor; [done|]. eapply Forall_impl; [|exact Ha]. cbn. lia.
  - subst. by constructor.
  - constructor; [by apply IH|]. apply List.Forall_forall. intros k' Hk'. apply list_elem_of_In in Hk'.
    apply map_insert_keys in Hk' as [-> | Hk']; [lia|]. rewrite List.Forall_forall in Ha. by apply Ha, list_elem_of_In.
Qed.

(** Inserting past the last key appends. *)
Lemma map_insert_last k v m : Forall (λ a, a < k) m.*1 →
  map_insert k v m = m ++ [(k, v)] ∧ map_get k m = None ∧ contains_key k m = false.
Proof.
  induction m as [|[a b] m IH]; cbn [map_insert map_get contains_key existsb fst fmap list_fmap app]; [done|].
  intros [Ha Hm]%Forall_cons_1. destruct (IH Hm) as (E1 & E2 & E3).
  test_false (k <? a). test_false (k =? a). test_false (a =? k). unfold contains_key in E3.
  by rewrite E1, E2, E3.
Qed.

Lemma map_get_contains k m : map_get k m = None → contains_key k m = false.
Proof.
  induction m as [|[a b] m IH]; cbn [map_get contains_key existsb fst]; [done|].
  destruct (k =? a) eqn:E; [done|]. intros Hm. bool_to_prop. test_false (a =? k). by apply IH.
Qed.

Lemma map_insert_length k v m : len (map_insert k v m) ≤ 1 + len m.
Proof.
  induction m as [|[a b] m IH]; cbn [map_insert]; [done|].
  destruct (k <? a); [|destruct (k =? a)]; simp_len; lia.
Qed.

Lemma map_insert_present k v m : contains_key k m = true → sorted m → len (map_insert k v m) = len m.
Proof.
  induction m as [|[a b] m IH]; cbn [map_insert contains_key existsb fst fmap list_fmap]; [done|].
  intros Hk [Hm Ha]%StronglySorted_inv.
  destruct (k <? a) eqn:E1; [|destruct (k =? a) eqn:E2]; bool_to_prop; simp_len; [|done|].
  - exfalso. apply orb_true_iff in Hk as [Hk|Hk]; [lia|].
    apply existsb_exists in Hk as ([a' b'] & Hin & Hk). cbn in Hk. bool_to_prop. subst.
    rewrite List.Forall_forall in Ha. specialize (Ha k). enough (a < k) by lia. apply Ha.
    apply in_map_iff. by exists (k, b').
  - f_equal. apply IH; [|done]. apply orb_true_iff in Hk as [Hk|Hk]; [lia|done].
Qed.

Lemma map_insert_Forall (P : Z * V → Prop) k v m : P (k, v) → Forall P m → Forall P (map_insert k v m).
Proof.
  intros Hkv. induction m as [|[a b] m IH]; cbn [map_insert]; [by repeat constructor|].
  intros [Ha Hm]%Forall_cons_1. destruct (k <? a); [|destruct (k =? a)]; auto using Forall_cons_2.
Qed.

Lemma map_get_insert k v m : map_get k (map_insert k v m) = Some v.
Proof.
  induction m as [|[a b] m IH]; cbn [map_insert map_get]; [by rewrite Z.eqb_refl|].
  destruct (k <? a); [|destruct (k =? a) eqn:E]; cbn [map_get]; rewrite ?Z.eqb_refl; [done|done|].
  by rewrite E.
Qed.

Lemma map_get_insert_ne k k' v m : k ≠ k' → map_get k (map_insert k' v m) = map_get k m.
Proof.
  intros Hk. induction m as [|[a b] m IH]; cbn [map_insert map_get]; [by test_false (k =? k')|].
  destruct (k' <? a); [|destruct (k' =? a) eqn:E]; cbn [map_get].
  - by test_false (k =? k').
  - bool_to_prop. subst. by test_false (k =? a).
  - by rewrite IH.
Qed.
End map_lemmas.

(** ** Well-formed maps and records *)

Definition in_u64 (n : Z) : Prop := 0 ≤ n ≤ U64_MAX.

Definition check_attribute (top : bool) : Z → KeyAttributeValue → outcome KeyMetadataError unit :=
  if top then validate_attribute else validate_template_attribute.

(** The values a Rust value of its type can hold. *)
Definition scalar_ok (v : KeyAttributeValue) : Prop :=
  match v with
  | ValueBoolean _ | ValueTemplate _ => True
  | ValueUnsigned n => in_u64 n
  | ValueBytes b => len b ≤ U64_MAX
  | ValueText s => utf8_valid s = true ∧ len s ≤ U64_MAX
  | ValueMechanisms ms => Forall in_u64 ms
  end.

(** A map whose entries passed their check, with [levels] levels of maps. *)
Fixpoint attributes_ok (levels : nat) (top : bool) (l : KeyAttributes) : Prop :=
  match levels with
  | O => False
  | S levels =>
      StronglySorted Z.lt l.*1 ∧ len l ≤ MAX_ATTRIBUTES ∧
      Forall (λ entry, in_u64 entry.1 ∧ check_attribute top entry.1 entry.2 = Ok tt ∧ scalar_ok entry.2 ∧
                       ∀ nested, entry.2 = ValueTemplate nested → attributes_ok levels false nested) l
  end.

Definition TOP_LEVELS : nat := Z.to_nat (MAX_TEMPLATE_DEPTH + 1).

Definition metadata_ok `{CborMaps} (r : BackedKeyMetadata) : Prop :=
  KeyBacking_new (provider (backing r)) (data_cbor (backing r)) = Ok (backing r) ∧
  aspects r ≠ [] ∧ len (aspects r) ≤ MAX_ASPECTS ∧ StronglySorted Z.lt (aspects r).*1 ∧
  Forall (λ entry, validate_object_class entry.1 = Ok tt ∧ attributes_ok TOP_LEVELS true entry.2) (aspects r).

(** Insertion keeps a map well-formed. *)
Lemma insert_checked_ok levels top a v l r :
  insert_checked (check_attribute top) a v l = Ok r →
  attributes_ok (S levels) top l → in_u64 a → scalar_ok v →
  (∀ nested, v = ValueTemplate nested → attributes_ok levels false nested) →
  attributes_ok (S levels) top r.2 ∧ r.1 = map_get a l.
Proof.
  intros E (Hs & Hl & Hf) Ha Hv Hn. unfold insert_checked in E. o_inv E. injection E as <-. cbn [fst snd].
  split; [|done]. split; [by apply map_insert_sorted|]. split.
  - unfold bail in E0. destruct (_ && _) eqn:Hc in E0; [done|].
    destruct (contains_key a l) eqn:Hk; [by rewrite map_insert_present|].
    rewrite andb_true_r in Hc. bool_to_prop. pose proof (map_insert_length a v l). lia.
  - apply map_insert_Forall; [|done]. destruct a1. done.
Qed.

Lemma validate_entries_Ok f l :
  validate_entries f l = Ok tt ↔ Forall (λ entry, f entry.1 entry.2 = Ok tt) l.
Proof.
  induction l as [|[a v] l IH]; cbn [validate_entries]; [split; [constructor|done]|].
  rewrite bind_Ok, list.Forall_cons, <- IH. split.
  - intros ([] & ? & ?). done.
  - intros [? ?]. by exists tt.
Qed.

Lemma attributes_ok_checked levels top l :
  attributes_ok levels top l →
  (if top then validate_attributes l else validate_template_attributes l) = Ok tt.
Proof.
  destruct levels as [|levels]; [done|]. intros (_ & Hl & Hf).
  assert (too_many_attributes l = Ok tt) as Ht.
  { unfold too_many_attributes, bail. by test_false (MAX_ATTRIBUTES <? len l). }
  unfold validate_attributes, validate_template_attributes. destruct top; rewrite Ht; cbn [obind];
    apply validate_entries_Ok; (eapply Forall_impl; [|exact Hf]); by intros ? (_ & ? & _).
Qed.

(** ** The codec *)

Section codec_lemmas.
Context `{CborMaps, !CborMapsLaws}.

Lemma read_Some {A} (f : list Z → option (A * list Z)) l a rest :
  f l = Some (a, rest) → read f l = (Ok a, rest).
Proof. intros E. unfold read. by rewrite E. Qed.

Lemma read_Ok {A} (f : list Z → option (A * list Z)) l a rest :
  read f l = (Ok a, rest) → f l = Some (a, rest).
Proof. unfold read. destruct (f l) as [[b r]|]; naive_solver. Qed.

Lemma encode_template l : encode_attribute_value (ValueTemplate l) = encode_attributes true l.
Proof. done. Qed.

Lemma read_mechanisms_enc ms rest : Forall in_u64 ms →
  read_mechanisms (length ms) (concat (enc_u64 <$> ms) ++ rest) = (Ok ms, rest).
Proof.
  induction ms as [|m ms IH]; [done|]. intros [Hm Hms]%Forall_cons_1.
  cbn [length read_mechanisms fmap list_fmap concat]. rewrite <- app_assoc, sm_bind_unfold.
  rewrite (read_Some _ _ m (concat (enc_u64 <$> ms) ++ rest)) by (by apply dec_enc_u64).
  rewrite sm_bind_unfold. by rewrite IH.
Qed.

(** A value with the maps nested in it reads back. *)
Lemma decode_value_enc levels v rest :
  scalar_ok v →
  (∀ ms, v = ValueMechanisms ms → len ms ≤ MAX_ATTRIBUTES) →
  (∀ nested, v = ValueTemplate nested → ∀ rest, ∃ e,
     encode_attributes true nested = Ok e ∧ len nested ≤ MAX_ATTRIBUTES ∧
     decode_levels levels false (e ++ rest) = (Ok nested, rest) ∧
     dec_datatype (e ++ rest) = Some TypeMap) →
  ∃ e, encode_attribute_value v = Ok e ∧
       decode_attribute_value (decode_levels levels false) (e ++ rest) = (Ok v, rest).
Proof.
  intros Hv Hms Hn. unfold decode_attribute_value. destruct v as [b|n|b|s|ms|l]; cbn [scalar_ok] in Hv.
  - exists (enc_bool b). split; [done|]. rewrite datatype_bool, sm_bind_unfold.
    by rewrite (read_Some _ _ b rest) by apply dec_enc_bool.
  - exists (enc_u64 n). split; [done|]. destruct (datatype_u64 n rest Hv) as (t & -> & Ht).
    destruct t; try done; rewrite sm_bind_unfold, (read_Some _ _ n rest) by (by apply dec_enc_u64); done.
  - exists (enc_bytes b). split; [done|]. rewrite datatype_bytes, sm_bind_unfold by done.
    by rewrite (read_Some _ _ b rest) by (by apply dec_enc_bytes64).
  - exists (enc_str s). split; [done|]. destruct Hv. rewrite datatype_str, sm_bind_unfold by done.
    by rewrite (read_Some _ _ s rest) by (by apply dec_enc_str64).
  - specialize (Hms _ eq_refl). pose proof (len_nonneg ms).
    assert (0 ≤ len ms ≤ U64_MAX) as Hl by (unfold U64_MAX, MAX_ATTRIBUTES in *; lia).
    exists (enc_array (len ms) ++ concat (enc_u64 <$> ms)). split; [done|].
    rewrite <- app_assoc, datatype_array, sm_bind_unfold by done.
    rewrite (read_Some _ _ (Some (len ms)) (concat (enc_u64 <$> ms) ++ rest)) by (by apply dec_enc_array64).
    rewrite sm_bind_unfold. cbn [ok_or sm_lift]. rewrite sm_bind_unfold. unfold guard_err.
    test_false (MAX_ATTRIBUTES <? len ms). rewrite sm_bind_unfold. unfold len. rewrite Nat2Z.id.
    by rewrite read_mechanisms_enc.
  - destruct (Hn _ eq_refl rest) as (e & He & Hl & Hd & Ht). exists e.
    rewrite encode_template. split; [done|]. rewrite Ht, sm_bind_unfold, Hd. done.
Qed.

Lemma mechanisms_bounded top a ms :
  check_attribute top a (ValueMechanisms ms) = Ok tt → len ms ≤ MAX_ATTRIBUTES.
Proof.
  intros Hc. assert (validate_attribute_type a (ValueMechanisms ms) = Ok tt) as Ht.
  { destruct top; cbn [check_attribute validate_template_attribute] in Hc.
    - unfold validate_attribute in Hc. o_inv Hc. by destruct a1.
    - o_inv Hc. by destruct a0. }
  unfold validate_attribute_type in Ht. o_inv Ht. unfold bail in Ht.
  destruct (_ || _) eqn:Eb in Ht; [done|]. bool_to_prop. lia.
Qed.

(** The keys before an entry of an ordered map are smaller. *)
Lemma sorted_before {V} (acc l : list (Z * V)) a v :
  StronglySorted Z.lt (acc ++ (a, v) :: l).*1 → Forall (λ k, k < a) acc.*1.
Proof.
  rewrite fmap_app. cbn [fmap list_fmap fst]. induction (acc.*1) as [|k ks IH]; [constructor|]. cbn [app].
  intros [Hs Hk]%StronglySorted_inv. constructor; [|by apply IH].
  apply Forall_app in Hk as [_ Hk]. by apply Forall_cons_1 in Hk as [? _].
Qed.

(** The maps of [levels] levels read back what was written for them. *)
Definition levels_read_back (levels : nat) : Prop := ∀ top l rest,
  attributes_ok levels top l →
  ∃ e, encode_attributes (negb top) l = Ok e ∧ decode_levels levels top (e ++ rest) = (Ok l, rest) ∧
       dec_datatype (e ++ rest) = Some TypeMap.

(** The entries of a map read back after those already read. *)
Lemma decode_entries_enc levels top l acc rest :
  levels_read_back levels → attributes_ok (S levels) top (acc ++ l) →
  ∃ e, encode_entries l = Ok e ∧
       decode_entries (decode_levels levels false) top (length l) acc (e ++ rest) = (Ok (acc ++ l), rest).
Proof.
  intros IH. revert acc rest. induction l as [|[a v] l IHl]; intros acc rest Hok.
  { exists []. by rewrite app_nil_r. }
  pose proof Hok as (Hs & Hl & Hf).
  apply Forall_app in Hf as [_ [(Ha & Hcv & Hv & Hn) _]%Forall_cons_1]. cbn [fst snd] in *.
  destruct (map_insert_last a v acc (sorted_before _ _ _ _ Hs)) as (Ei & Eg & Ek).
  assert ((acc ++ [(a, v)]) ++ l = acc ++ (a, v) :: l) as Eacc by (by rewrite <- app_assoc).
  destruct (IHl (acc ++ [(a, v)]) rest) as (body & Eb & Ed); [by rewrite Eacc|].
  destruct (decode_value_enc levels v (body ++ rest) Hv) as (e & Ee & Edv).
  { intros ms ->. by eapply mechanisms_bounded. }
  { intros nested -> rest'. destruct (IH false nested rest' (Hn _ eq_refl)) as (e & ? & ? & ?).
    exists e. repeat split; try done. specialize (Hn _ eq_refl). destruct levels; [done|]. by destruct Hn as (_ & ? & _). }
  exists (enc_u64 a ++ e ++ body). split; [cbn [encode_entries]; by rewrite Ee, Eb|].
  cbn [length decode_entries]. rewrite <- !app_assoc, sm_bind_unfold.
  rewrite (read_Some _ _ a (e ++ body ++ rest)) by (by apply dec_enc_u64).
  rewrite sm_bind_unfold, Edv, sm_bind_unfold.
  assert ((if top then attributes_insert a v acc else insert_template a v acc)
          = Ok (None, acc ++ [(a, v)])) as ->.
  { replace (if top then _ else _) with (insert_checked (check_attribute top) a v acc) by (by destruct top).
    unfold insert_checked. rewrite Ek, Hcv, Ei, Eg. unfold bail.
    rewrite len_app, len_cons in Hl. pose proof (len_nonneg l).
    test_false ((MAX_ATTRIBUTES <=? len acc) && negb false). done. }
  cbn [sm_lift]. rewrite sm_bind_unfold. cbn [guard_err].
  rewrite bool_decide_eq_false_2 by naive_solver. by rewrite Ed, Eacc.
Qed.

(** Well-formed maps read back what was written, at every depth. *)
Lemma decode_levels_enc levels : levels_read_back levels.
Proof.
  induction levels as [|levels IH]; intros top l rest Hok; [done|].
  pose proof (attributes_ok_checked _ _ _ Hok) as Hc.
  destruct (decode_entries_enc levels top l [] rest IH Hok) as (e & Ee & Ed).
  destruct Hok as (Hs & Hl & Hf). pose proof (len_nonneg l).
  assert (0 ≤ len l ≤ U64_MAX) as Hr by (unfold U64_MAX, MAX_ATTRIBUTES in *; lia).
  exists (enc_map (len l) ++ e). split; [|split].
  - unfold encode_attributes. destruct top; cbn [negb]; rewrite Hc; cbn [obind]; by rewrite Ee.
  - cbn [decode_levels]. unfold definite_map. rewrite <- app_assoc, !sm_bind_unfold.
    rewrite (read_Some _ _ (Some (len l)) (e ++ rest)) by (by apply dec_enc_map).
    cbn [ok_or sm_lift]. rewrite sm_bind_unfold. cbn [guard_err].
    test_false (MAX_ATTRIBUTES <? len l). unfold len. rewrite Nat2Z.id. by rewrite Ed.
  - rewrite <- app_assoc. by apply datatype_map.
Qed.

(** *** What is read is well-formed *)

Lemma read_mechanisms_Ok n l ms rest : read_mechanisms n l = (Ok ms, rest) → Forall in_u64 ms.
Proof.
  revert l ms rest. induction n as [|n IH]; intros l ms rest E; cbn [read_mechanisms] in E.
  { by injection E as <- <-. }
  sm_inv E. injection E as <- <-. apply read_Ok, dec_u64_range in E0. constructor; [done|]. by eapply IH.
Qed.

Lemma decode_value_ok levels l v rest :
  (∀ l nested rest, decode_levels levels false l = (Ok nested, rest) → attributes_ok levels false nested) →
  decode_attribute_value (decode_levels levels false) l = (Ok v, rest) →
  scalar_ok v ∧ ∀ nested, v = ValueTemplate nested → attributes_ok levels false nested.
Proof.
  intros IH E. unfold decode_attribute_value in E. destruct (dec_datatype l) as [[]|]; try done;
    sm_inv E; injection E as <- <-; (split; [cbn [scalar_ok]|naive_solver]); try done.
  - by eapply dec_u64_range, read_Ok.
  - by eapply dec_u64_range, read_Ok.
  - by eapply dec_u64_range, read_Ok.
  - by eapply dec_u64_range, read_Ok.
  - by eapply dec_bytes_length, read_Ok.
  - by eapply dec_str_valid, read_Ok.
  - by eapply read_mechanisms_Ok.
Qed.

Lemma decode_entries_ok levels top n acc l r rest :
  (∀ l nested rest, decode_levels levels false l = (Ok nested, rest) → attributes_ok levels false nested) →
  attributes_ok (S levels) top acc →
  decode_entries (decode_levels levels false) top n acc l = (Ok r, rest) → attributes_ok (S levels) top r.
Proof.
  intros IH. revert acc l. induction n as [|n IHn]; intros acc l Hacc E; cbn [decode_entries] in E.
  { by injection E as <- <-. }
  apply sm_bind_Ok in E as (a & l1 & Ea & E). apply sm_bind_Ok in E as (v & l2 & Ev & E).
  apply sm_bind_Ok in E as ([previous acc'] & l3 & Ei & E). apply sm_bind_Ok in E as (? & l4 & _ & E).
  destruct (decode_value_ok _ _ _ _ IH Ev) as [Hv Hn].
  eapply IHn; [|exact E]. injection Ei as Ei _.
  replace (if top then _ else _) with (insert_checked (check_attribute top) a v acc) in Ei by (by destruct top).
  eapply insert_checked_ok in Ei as [Hok _]; [exact Hok|done| |done|done].
  by eapply dec_u64_range, read_Ok.
Qed.

Lemma decode_levels_ok levels top l r rest :
  decode_levels levels top l = (Ok r, rest) → attributes_ok levels top r.
Proof.
  revert top l r rest. induction levels as [|levels IH]; intros top l r rest E; [done|].
  cbn [decode_levels] in E. sm_inv E. eapply (decode_entries_ok levels top _ []); [eauto| |exact E].
  split_and!; [constructor|done|constructor].
Qed.

(** ** Records *)

Lemma provider_utf8 p : forallb provider_byte p = true → utf8_valid p = true.
Proof.
  induction p as [|b p IH]; [done|]. cbn [forallb utf8_valid]. intros [Hb Hp]%andb_true_iff.
  assert (between 0 b 0x7f = true) as ->; [|by apply IH].
  unfold provider_byte, between, one_of in *. cbn [existsb] in Hb. lia.
Qed.

Lemma KeyBacking_new_Ok p d b : KeyBacking_new p d = Ok b →
  b = mkBacking p d ∧ utf8_valid p = true ∧ len p ≤ MAX_PROVIDER_LENGTH ∧ len d ≤ MAX_PROVIDER_DATA_LENGTH.
Proof.
  unfold KeyBacking_new. intros E. o_inv E. injection E as <-. unfold bail in *.
  destruct (_ || _) eqn:E3 in E0; [done|]. destruct (MAX_PROVIDER_DATA_LENGTH <? len d) eqn:E4; [done|].
  bool_to_prop. split; [done|]. split; [by apply provider_utf8|lia].
Qed.

Lemma object_class_range class : validate_object_class class = Ok tt → in_u64 class.
Proof.
  unfold validate_object_class, bail. destruct (negb _) eqn:E; [done|]. bool_to_prop. intros _.
  unfold one_of in E. cbn [existsb] in E. unfold in_u64, U64_MAX,
    CKO_DATA, CKO_CERTIFICATE, CKO_PUBLIC_KEY, CKO_PRIVATE_KEY, CKO_SECRET_KEY in *. lia.
Qed.

Definition aspect_ok (entry : Z * KeyAttributes) : Prop :=
  validate_object_class entry.1 = Ok tt ∧ attributes_ok TOP_LEVELS true entry.2.

Lemma decode_aspect_entries_enc l acc rest :
  StronglySorted Z.lt (acc ++ l).*1 → Forall aspect_ok l →
  ∃ e, encode_aspects l = Ok e ∧ decode_aspect_entries (length l) acc (e ++ rest) = (Ok (acc ++ l), rest).
Proof.
  revert acc. induction l as [|[class l] ls IH]; intros acc Hs Hf.
  { exists []. by rewrite app_nil_r. }
  apply Forall_cons_1 in Hf as [[Hc Ha] Hf]. cbn [fst snd] in *.
  destruct (map_insert_last class l acc (sorted_before _ _ _ _ Hs)) as (Ei & _ & Ek).
  assert ((acc ++ [(class, l)]) ++ ls = acc ++ (class, l) :: ls) as Eacc by (by rewrite <- app_assoc).
  destruct (IH (acc ++ [(class, l)])) as (body & Eb & Ed); [by rewrite Eacc|done|].
  destruct (decode_levels_enc TOP_LEVELS true l (body ++ rest) Ha) as (e & Ee & Edl & _).
  exists (enc_u64 class ++ e ++ body). cbn [negb] in Ee. split; [cbn [encode_aspects]; by rewrite Ee, Eb|].
  cbn [length decode_aspect_entries]. rewrite <- !app_assoc, sm_bind_unfold.
  rewrite (read_Some _ _ class (e ++ body ++ rest)) by (by apply dec_enc_u64, object_class_range).
  rewrite sm_bind_unfold. unfold sm_lift. rewrite Hc, sm_bind_unfold.
  change (decode_attributes 0) with (decode_levels TOP_LEVELS true). rewrite Edl, sm_bind_unfold. cbn [guard_err].
  by rewrite Ek, Ei, Ed, Eacc.
Qed.

Lemma decode_aspect_entries_ok n acc l r rest :
  decode_aspect_entries n acc l = (Ok r, rest) →
  StronglySorted Z.lt acc.*1 → Forall aspect_ok acc →
  StronglySorted Z.lt r.*1 ∧ Forall aspect_ok r ∧ len r ≤ len acc + Z.of_nat n.
Proof.
  revert acc l. induction n as [|n IH]; intros acc l E Hs Hf; cbn [decode_aspect_entries] in E.
  { injection E as <- <-. split_and!; [done|done|lia]. }
  sm_inv E. injection E1 as E1 _. destruct a0. apply IH in E as (? & ? & Hl).
  - split_and!; [done|done|]. pose proof (map_insert_length a a1 acc). lia.
  - by apply map_insert_sorted.
  - apply map_insert_Forall; [|done]. split; [done|]. cbn [snd]. by eapply decode_levels_ok.
Qed.

(** One field at a time. *)
Lemma read_u64_enc n l : 0 ≤ n ≤ 5 → read dec_u64 (enc_u64 n ++ l) = (Ok n, l).
Proof. intros. apply read_Some, dec_enc_u64. unfold U64_MAX. lia. Qed.

Ltac field_step :=
  unfold decode_field; rewrite sm_bind_unfold, read_u64_enc by lia; cbn [Z.eqb Pos.eqb];
  rewrite sm_bind_unfold; cbn [guard_err f_schema f_version f_provider f_data f_aspects];
  rewrite bool_decide_eq_false_2 by naive_solver; rewrite sm_bind_unfold.

Lemma decode_field_schema v p d a s l : utf8_valid s = true → len s ≤ U64_MAX →
  decode_field (mkFields None v p d a) (enc_u64 1 ++ enc_str s ++ l) = (Ok (mkFields (Some s) v p d a), l).
Proof. intros. field_step. by rewrite (read_Some _ _ s l) by (by apply dec_enc_str64). Qed.

Lemma decode_field_version s p d a n l : 0 ≤ n ≤ 5 →
  decode_field (mkFields s None p d a) (enc_u64 2 ++ enc_u64 n ++ l) = (Ok (mkFields s (Some n) p d a), l).
Proof. intros. field_step. by rewrite read_u64_enc. Qed.

Lemma decode_field_provider s v d a p l : utf8_valid p = true → len p ≤ U64_MAX →
  decode_field (mkFields s v None d a) (enc_u64 3 ++ enc_str p ++ l) = (Ok (mkFields s v (Some p) d a), l).
Proof. intros. field_step. by rewrite (read_Some _ _ p l) by (by apply dec_enc_str64). Qed.

Lemma decode_field_data s v p a d l : len d ≤ MAX_PROVIDER_DATA_LENGTH →
  decode_field (mkFields s v p None a) (enc_u64 4 ++ enc_bytes d ++ l) = (Ok (mkFields s v p (Some d) a), l).
Proof.
  intros. field_step. rewrite (read_Some _ _ d l)
    by (apply dec_enc_bytes64; unfold U64_MAX, MAX_PROVIDER_DATA_LENGTH in *; lia).
  rewrite sm_bind_unfold. cbn [guard_err]. by test_false (MAX_PROVIDER_DATA_LENGTH <? len d).
Qed.

Lemma decode_field_aspects s v p d aspects body l : len aspects ≤ MAX_ASPECTS →
  decode_aspect_entries (length aspects) [] (body ++ l) = (Ok aspects, l) →
  decode_field (mkFields s v p d None) (enc_u64 5 ++ enc_map (len aspects) ++ body ++ l)
  = (Ok (mkFields s v p d (Some aspects)), l).
Proof.
  intros Hl Ed. field_step. pose proof (len_nonneg aspects).
  assert (decode_aspects (enc_map (len aspects) ++ body ++ l) = (Ok aspects, l)) as ->; [|done].
  unfold decode_aspects, definite_map. rewrite !sm_bind_unfold.
  rewrite (read_Some _ _ (Some (len aspects)) (body ++ l))
    by (apply dec_enc_map; unfold U64_MAX, MAX_ASPECTS in *; lia).
  cbn [ok_or sm_lift]. rewrite sm_bind_unfold. cbn [guard_err].
  test_false (MAX_ASPECTS <? len aspects). unfold len. by rewrite Nat2Z.id.
Qed.

(** The five fields of a record, read in the order they are written. *)
Lemma decode_fields_enc r body :
  metadata_ok r → decode_aspect_entries (length (aspects r)) [] (body ++ []) = (Ok (aspects r), []) →
  decode_fields 5 (mkFields None None None None None)
    (enc_u64 1 ++ enc_str BACKED_KEY_SCHEMA
     ++ enc_u64 2 ++ enc_u64 BACKED_KEY_SCHEMA_VERSION
     ++ enc_u64 3 ++ enc_str (provider (backing r))
     ++ enc_u64 4 ++ enc_bytes (data_cbor (backing r))
     ++ enc_u64 5 ++ enc_map (len (aspects r)) ++ body ++ [])
  = (Ok (mkFields (Some BACKED_KEY_SCHEMA) (Some BACKED_KEY_SCHEMA_VERSION) (Some (provider (backing r)))
           (Some (data_cbor (backing r))) (Some (aspects r))), []).
Proof.
  intros (Hb & _ & Hl & _) Ed. apply KeyBacking_new_Ok in Hb as (_ & Hu & Hp & Hd). cbn [decode_fields].
  rewrite sm_bind_unfold, decode_field_schema by done.
  rewrite sm_bind_unfold, decode_field_version by done.
  rewrite sm_bind_unfold, decode_field_provider by (unfold U64_MAX, MAX_PROVIDER_LENGTH in *; done || lia).
  rewrite sm_bind_unfold, decode_field_data by done.
  by rewrite sm_bind_unfold, decode_field_aspects.
Qed.

(** A well-formed record has an encoding, and it reads back. *)
Lemma metadata_enc r : metadata_ok r → ∃ e, to_cbor r = Ok e ∧ from_cbor e = Ok r.
Proof.
  intros Hok. pose proof Hok as (Hb & Hne & Hl & Hs & Hf).
  destruct (decode_aspect_entries_enc (aspects r) [] [] Hs Hf) as (body & Eb & Ed).
  pose proof (decode_fields_enc r body Hok Ed) as Er. rewrite app_nil_r in Er.
  assert (to_cbor r = Ok (enc_map 5
      ++ enc_u64 1 ++ enc_str BACKED_KEY_SCHEMA
      ++ enc_u64 2 ++ enc_u64 BACKED_KEY_SCHEMA_VERSION
      ++ enc_u64 3 ++ enc_str (provider (backing r))
      ++ enc_u64 4 ++ enc_bytes (data_cbor (backing r))
      ++ enc_u64 5 ++ enc_map (len (aspects r)) ++ body)) as Et.
  { unfold to_cbor. rewrite bool_decide_eq_false_2 by done. cbn [bail obind]. by rewrite Eb. }
  eexists. split; [exact Et|]. unfold from_cbor, definite_map. rewrite !sm_bind_unfold.
  rewrite (read_Some _ _ (Some 5) _) by (apply dec_enc_map; unfold U64_MAX; lia).
  cbn [ok_or sm_lift]. change (Z.to_nat 5) with 5%nat. rewrite Er.
  rewrite bool_decide_eq_false_2 by naive_solver. cbn [bail obind]. unfold assemble.
  cbn [f_schema f_version f_provider f_data f_aspects].
  rewrite bool_decide_eq_true_2 by done. cbn [negb bail obind ok_or].
  rewrite Z.eqb_refl. cbn [negb bail obind]. rewrite Hb. cbn [obind].
  rewrite bool_decide_eq_false_2 by done. cbn [bail obind].
  destruct r as [b a]. cbn [backing aspects] in *. rewrite Et. cbn [obind]. by rewrite bool_decide_eq_true_2.
Qed.

(** A field that is read is the field that was absent before. *)
Lemma decode_field_aspects_ok f l f' rest :
  decode_field f l = (Ok f', rest) →
  (∀ a, f_aspects f = Some a → StronglySorted Z.lt a.*1 ∧ Forall aspect_ok a ∧ len a ≤ MAX_ASPECTS) →
  ∀ a, f_aspects f' = Some a → StronglySorted Z.lt a.*1 ∧ Forall aspect_ok a ∧ len a ≤ MAX_ASPECTS.
Proof.
  intros E Hf. unfold decode_field in E. apply sm_bind_Ok in E as (key & l1 & _ & E).
  repeat case_if; sm_inv E; try discriminate E; injection E as <- <-; cbn [f_aspects]; try done.
  intros b [= ->]. unfold decode_aspects in E1. sm_inv E1.
  match goal with D : decode_aspect_entries _ _ _ = _ |- _ => apply decode_aspect_entries_ok in D as (? & ? & Hl) end;
    [|constructor|constructor].
  split_and!; [done|done|]. rewrite len_nil in Hl.
  match goal with G : guard_err (MAX_ASPECTS <? ?c) _ _ = _ |- _ =>
    unfold guard_err in G; destruct (MAX_ASPECTS <? c) eqn:Hc; [done|] end.
  bool_to_prop. unfold MAX_ASPECTS in *. lia.
Qed.

Lemma decode_fields_ok n f l f' rest :
  decode_fields n f l = (Ok f', rest) →
  (∀ a, f_aspects f = Some a → StronglySorted Z.lt a.*1 ∧ Forall aspect_ok a ∧ len a ≤ MAX_ASPECTS) →
  ∀ a, f_aspects f' = Some a → StronglySorted Z.lt a.*1 ∧ Forall aspect_ok a ∧ len a ≤ MAX_ASPECTS.
Proof.
  revert f l. induction n as [|n IH]; intros f l E Hf; cbn [decode_fields] in E; [by injection E as <- <-|].
  apply sm_bind_Ok in E as (f1 & l1 & E1 & E). eapply IH; [exact E|]. by eapply decode_field_aspects_ok.
Qed.

(** A record that is accepted is well-formed and has the bytes as its encoding. *)
Lemma from_cbor_Ok e r : from_cbor e = Ok r → metadata_ok r ∧ to_cbor r = Ok e.
Proof.
  unfold from_cbor. destruct (sbind _ _ e) as [[f|?|] rest] eqn:E; [|done|done].
  intros Er. o_inv Er. destruct (bool_decide (a1 = e)) eqn:Ee; [|done]. injection Er as ->.
  apply bool_decide_eq_true in Ee as ->. split; [|done].
  apply sm_bind_Ok in E as (count & l1 & _ & E).
  unfold assemble in E1. o_inv E1. injection E1 as <-.
  match goal with K : KeyBacking_new _ _ = Ok _ |- _ => pose proof K as Hb; apply KeyBacking_new_Ok in K as (-> & _) end.
  destruct (f_aspects f) as [asp|] eqn:Ea; [|done].
  assert (StronglySorted Z.lt asp.*1 ∧ Forall aspect_ok asp ∧ len asp ≤ MAX_ASPECTS) as (Hs & Hf & Hl).
  { eapply decode_fields_ok; [exact E| |exact Ea]. naive_solver. }
  match goal with K : ok_or _ (Some asp) = Ok _ |- _ => injection K as <- end.
  split_and!; cbn [backing aspects provider data_cbor]; try done.
  match goal with K : bail (bool_decide (asp = [])) _ = _ |- _ =>
    unfold bail in K; destruct (bool_decide (asp = [])) eqn:Hn; [done|] end.
  by apply bool_decide_eq_false in Hn.
Qed.

(** C16: The decoder of backed-key records accepts exactly the canonical encodings
    of well-formed records. Every well-formed record has one, and two records
    never share one. *)
Theorem metadata_canonical r e :
  (from_cbor e = Ok r ↔ metadata_ok r ∧ to_cbor r = Ok e) ∧
  (metadata_ok r → ∃ e, to_cbor r = Ok e).
Proof.
  split; [split|].
  - apply from_cbor_Ok.
  - intros [Hok Et]. destruct (metadata_enc r Hok) as (e' & Et' & Ef).
    by assert (e' = e) as -> by congruence.
  - intros Hok. destruct (metadata_enc r Hok) as (e' & Et & _). eauto.
Qed.
End codec_lemmas.

(** ** A concrete codec

    Heads of nine bytes: the major type and a 64-bit number. *)

Definition toy_head (t n : Z) : list Z := t :: be_bytes 8 n.
Definition toy_number (l : list Z) : Z := foldl (λ n b, n * 256 + b) 0 l.
Definition toy_dec_head (t : Z) (l : list Z) : option (Z * list Z) :=
  match l with
  | t' :: l => if (t' =? t) && (8 <=? len l) && bytes_ok (ztake 8 l)
               then Some (toy_number (ztake 8 l), zdrop 8 l) else None
  | [] => None
  end.
Definition toy_dec_bytes (t : Z) (l : list Z) : option (list Z * list Z) :=
  match toy_dec_head t l with
  | Some (n, l) => if n <=? len l then Some (ztake n l, zdrop n l) else None
  | None => None
  end.
Definition toy_some {A} (o : option (A * list Z)) : option (option A * list Z) :=
  match o with Some (a, l) => Some (Some a, l) | None => None end.

#[local] Instance toy_base : MiniCbor := {|
  cbor_skip l := snd <$> toy_dec_bytes 2 l;
  enc_array := toy_head 4;
  enc_str s := toy_head 3 (len s) ++ s;
  enc_bytes s := toy_head 2 (len s) ++ s;
  dec_array l := toy_some (toy_dec_head 4 l);
  dec_str l := match toy_dec_bytes 3 l with
               | Some (s, rest) => if utf8_valid s then Some (s, rest) else None
               | None => None
               end;
  dec_bytes := toy_dec_bytes 2;
|}.

#[local] Instance toy_maps : CborMaps := {|
  cbor_base := toy_base;
  enc_map := toy_head 5;
  enc_u64 := toy_head 0;
  enc_bool b := [if b then 21 else 20];
  dec_map l := toy_some (toy_dec_head 5 l);
  dec_u64 := toy_dec_head 0;
  dec_bool l := match l with b :: rest => if (b =? 21) || (b =? 20) then Some (b =? 21, rest) else None | [] => None end;
  dec_datatype l :=
    match l with
    | [] => None
    | t :: _ => Some (if t =? 0 then TypeU64 else if t =? 2 then TypeBytes else if t =? 3 then TypeString
                      else if t =? 4 then TypeArray else if t =? 5 then TypeMap
                      else if (t =? 20) || (t =? 21) then TypeBool else TypeOther)
    end;
|}.

Lemma toy_number_app l b : toy_number (l ++ [b]) = toy_number l * 256 + b.
Proof. unfold toy_number. by rewrite foldl_app. Qed.

Lemma toy_number_be w n : 0 ≤ n < 256 ^ Z.of_nat w → toy_number (be_bytes w n) = n.
Proof.
  revert n. induction w as [|w IH]; intros n Hn; [cbn in *; lia|].
  rewrite Nat2Z.inj_succ, Z.pow_succ_r in Hn by lia. cbn [be_bytes]. rewrite toy_number_app, IH.
  - pose proof (Z.div_mod n 256). lia.
  - split; [apply Z.div_pos; lia|apply Z.div_lt_upper_bound; lia].
Qed.

Lemma be_bytes_ok w n : bytes_ok (be_bytes w n) = true.
Proof.
  revert n. induction w as [|w IH]; intros n; cbn [be_bytes]; [done|].
  unfold bytes_ok in *. rewrite forallb_app, IH. cbn [forallb andb]. unfold is_byte.
  pose proof (Z.mod_pos_bound n 256). lia.
Qed.

Lemma toy_number_bound l : bytes_ok l = true → 0 ≤ toy_number l < 256 ^ len l.
Proof.
  induction l as [|b l IH] using rev_ind; [done|]. unfold bytes_ok in *. rewrite forallb_app, len_app.
  intros [Hl Hb]%andb_true_iff. cbn [forallb] in Hb. unfold is_byte in Hb. rewrite toy_number_app.
  specialize (IH Hl). rewrite Z.pow_add_r by (try apply len_nonneg; done). change (256 ^ len [b]) with 256. lia.
Qed.

Lemma toy_dec_enc_head t n rest : 0 ≤ n ≤ U64_MAX → toy_dec_head t (toy_head t n ++ rest) = Some (n, rest).
Proof.
  intros Hn. unfold toy_dec_head, toy_head. cbn [app]. rewrite Z.eqb_refl.
  assert (len (be_bytes 8 n) = 8) as E8 by (unfold len; by rewrite length_be_bytes).
  pose proof (ztake_app_len (be_bytes 8 n) rest) as Et. pose proof (zdrop_app_len (be_bytes 8 n) rest) as Ed.
  rewrite E8 in Et, Ed. rewrite Et, Ed, be_bytes_ok, len_app, E8.
  pose proof (len_nonneg rest). test_true (8 <=? 8 + len rest). cbn [andb].
  rewrite toy_number_be by (unfold U64_MAX in Hn; cbn; lia). done.
Qed.

Lemma toy_dec_enc_bytes t b rest : len b ≤ U64_MAX → toy_dec_bytes t (toy_head t (len b) ++ b ++ rest) = Some (b, rest).
Proof.
  intros Hb. unfold toy_dec_bytes. rewrite toy_dec_enc_head by (pose proof (len_nonneg b); lia).
  rewrite len_app. pose proof (len_nonneg rest). test_true (len b <=? len b + len rest).
  by rewrite ztake_app_len, zdrop_app_len.
Qed.

Lemma toy_head_range t l n rest : toy_dec_head t l = Some (n, rest) → 0 ≤ n ≤ U64_MAX.
Proof.
  destruct l as [|t' l]; cbn [toy_dec_head]; [done|]. destruct (_ && _) eqn:E; [|done]. intros [= <- <-].
  bool_to_prop. pose proof (toy_number_bound (ztake 8 l)) as Hb. rewrite len_ztake in Hb by done.
  replace (Z.min 8 (len l)) with 8 in Hb by lia. unfold U64_MAX. change (256 ^ 8) with (2 ^ 64) in Hb.
  specialize (Hb ltac:(done)). lia.
Qed.

Lemma toy_bytes_range t l b rest : toy_dec_bytes t l = Some (b, rest) → len b ≤ U64_MAX.
Proof.
  unfold toy_dec_bytes. destruct (toy_dec_head t l) as [[n l']|] eqn:E; [|done]. apply toy_head_range in E.
  destruct (n <=? len l'); [|done]. intros [= <- <-]. rewrite len_ztake by lia. lia.
Qed.

#[local] Instance toy_maps_laws : CborMapsLaws.
Proof.
  split; cbn [cbor_base enc_map enc_u64 enc_bool dec_map dec_u64 dec_bool dec_datatype enc_array enc_str
              enc_bytes dec_array dec_str dec_bytes toy_maps toy_base].
  - intros n rest Hn. by rewrite toy_dec_enc_head.
  - intros n rest Hn. by rewrite toy_dec_enc_head.
  - by intros [] rest.
  - intros n rest Hn. by rewrite toy_dec_enc_head.
  - intros s rest Hu Hs. rewrite <- app_assoc, toy_dec_enc_bytes by done. by rewrite Hu.
  - intros b rest Hb. by rewrite <- app_assoc, toy_dec_enc_bytes.
  - done.
  - intros n rest Hn. by exists TypeU64.
  - by intros [] rest.
  - done.
  - done.
  - done.
  - apply toy_head_range.
  - intros l n rest. unfold toy_some. destruct (toy_dec_head 5 l) as [[? ?]|] eqn:E; [|done]. intros [= <- <-]. by eapply toy_head_range.
  - intros l n rest. unfold toy_some. destruct (toy_dec_head 4 l) as [[? ?]|] eqn:E; [|done]. intros [= <- <-]. by eapply toy_head_range.
  - intros l s rest. destruct (toy_dec_bytes 3 l) as [[t ?]|] eqn:E; [|done]. destruct (utf8_valid t) eqn:Eu; [|done].
    intros [= <- <-]. split; [done|]. by eapply toy_bytes_range.
  - apply toy_bytes_range.
Qed.

(** A private key that may be unwrapped only as an AES key that stays sensitive. *)
Definition toy_record : BackedKeyMetadata :=
  mkMetadata (mkBacking (str "piv") (toy_head 2 1 ++ [0x9a]))
    [(CKO_PRIVATE_KEY,
      [(CKA_LABEL, ValueText (str "key")); (CKA_ID, ValueBytes [1]);
       (CKA_UNWRAP_TEMPLATE, ValueTemplate [(CKA_KEY_TYPE, ValueUnsigned CKK_AES); (CKA_SENSITIVE, ValueBoolean true)]);
       (CKA_ALLOWED_MECHANISMS, ValueMechanisms [CKM_RSA_PKCS; CKM_RSA_PKCS_OAEP])])].

Lemma metadata_canonical_witness :
  metadata_ok toy_record ∧ is_ok (to_cbor toy_record) = true ∧
  (let? e := to_cbor toy_record in from_cbor e) = Ok toy_record.
Proof.
  assert (metadata_ok toy_record) as Hok.
  { split_and!; try done.
    - repeat constructor.
    - repeat (apply Forall_cons_2 || apply Forall_nil_2 || split_and! || intros nested [= <-] || done
              || (repeat constructor; fail) || constructor); unfold in_u64, U64_MAX; vm_compute; done. }
  split; [done|]. split; [by vm_compute|].
  destruct (proj2 (metadata_canonical toy_record []) Hok) as (e & He).
  rewrite He. cbn [obind]. apply (metadata_canonical toy_record e). done.
Defined.
