(* ===== verification/SlotState.v ===== *)
(** * SlotState: sessions, object handles and login state of one slot

    Models the [SlotState], [SessionContext] and [HandleCounters] of
    [src/src/context.rs] and, from [src/src/backed_object.rs], the code that
    puts objects into a storage provider and lists them again.

    The backend of a slot is an implementation of the [Slot] trait
    ([src/src/backend/traits.rs]): it is the class [Slot], and what a theorem
    relies on is the class [SlotLaws]. The encoding of an object as CBOR is the
    class [BackedObjects]. The handle counters are shared by all slots of the
    module; a slot's code runs on a [SlotContext] that carries them. *)
From stdpp Require Import sorting.
From S2P Require Import Prelude Errors Storage Mechanisms KeyMetadata.

(** ** Data *)

Inductive LoginRole : Type := User | So.
#[export] Instance LoginRole_eq_dec : EqDecision LoginRole.
Proof. solve_decision. Defined.

Record KeyPolicyTemplates : Type := mkPolicies {
  policy_wrap : option KeyAttributes;
  policy_unwrap : option KeyAttributes;
  policy_derive : option KeyAttributes;
}.
#[export] Instance KeyPolicyTemplates_eq_dec : EqDecision KeyPolicyTemplates.
Proof. solve_decision. Defined.
Definition KeyPolicyTemplates_default : KeyPolicyTemplates := mkPolicies None None None.

(** The fields of an object that only its attributes show. *)
Record ObjectAttributes : Type := mkAttributes {
  obj_label : list Z;
  obj_id : list Z;
  derive : bool;
  wrap : bool;
  unwrap : bool;
  encapsulate : bool;
  decapsulate : bool;
  sensitive : bool;
  extractable : bool;
  always_sensitive : bool;
  never_extractable : bool;
  local : bool;
  key_gen_mechanism : option Z;
  wrap_with_trusted : bool;
  policy_templates : KeyPolicyTemplates;
}.
#[export] Instance ObjectAttributes_eq_dec : EqDecision ObjectAttributes.
Proof. solve_decision. Defined.

(** An object, with the fields above as [attributes]. *)
Record TokenObject : Type := mkObject {
  obj_slot_id : option Z;
  unique_id : list Z;
  class : Z;
  key_type : Z;
  token : bool;
  private : bool;
  encrypt : bool;
  decrypt : bool;
  sign : bool;
  verify : bool;
  allowed_mechanisms : option (list Z);
  creator_session : option Z;
  public_key : option PublicKeyMaterial;
  rp_id : option (list Z);
  material : KeyMaterial;
  attributes : ObjectAttributes;
}.
#[export] Instance TokenObject_eq_dec : EqDecision TokenObject.
Proof. solve_decision. Defined.

(** The device handle of a [KeyMaterial::YubiHsmSessionObject]. *)
Definition session_object (o : TokenObject) : option Z :=
  match material o with
  | YubiHsmSessionObject handle _ => Some handle
  | _ => None
  end.

Definition set_unique_id (id : list Z) (o : TokenObject) : TokenObject :=
  mkObject (obj_slot_id o) id (class o) (key_type o) (token o) (private o) (encrypt o) (decrypt o)
    (sign o) (verify o) (allowed_mechanisms o) (creator_session o) (public_key o) (rp_id o) (material o)
    (attributes o).

Definition set_creator (session_handle slot_id : Z) (o : TokenObject) : TokenObject :=
  mkObject (Some slot_id) (unique_id o) (class o) (key_type o) (token o) (private o) (encrypt o)
    (decrypt o) (sign o) (verify o) (allowed_mechanisms o)
    (if negb (token o) then Some session_handle else None) (public_key o) (rp_id o) (material o) (attributes o).

Definition is_visible_to (logged_in : bool) (o : TokenObject) : bool :=
  negb (private o) || logged_in.

Record TokenObjectLocator : Type := mkLocator { locator_id : list Z }.
#[export] Instance TokenObjectLocator_eq_dec : EqDecision TokenObjectLocator.
Proof. solve_decision. Defined.

Record FindOperation : Type := mkFind { objects : list Z; next : Z }.

(** The [slotID()] and [flags()] of a backend session. *)
Record BackendSession : Type := mkBackendSession { slotID : Z; flags : Z }.

Record SessionContext : Type := mkSession {
  backend : BackendSession;
  storage : MemoryStorageProvider;
  find_operation : option FindOperation;
  digest_operation : option DigestOperation;
  encrypt_operation : option CryptOperation;
  decrypt_operation : option CryptOperation;
  sign_operation : option SignatureOperation;
  verify_operation : option SignatureOperation;
}.

Record HandleCounters : Type := mkCounters { next_object : Z; next_session : Z }.

Record SlotState (P : Type) : Type := mkState {
  slot_id : Z;
  token_storage : P;
  sessions : gmap Z SessionContext;
  login_role : option LoginRole;
  memory_objects : gmap Z TokenObject;
  token_object_handles : gmap Z TokenObjectLocator;
  backed_token_objects : gmap (list Z) TokenObject;
  backed_object_references : gmap (list Z) ContentReference;
  backed_object_handles : gmap Z ContentReference;
}.
Arguments mkState {P}.
Arguments slot_id {P}.
Arguments token_storage {P}.
Arguments sessions {P}.
Arguments login_role {P}.
Arguments memory_objects {P}.
Arguments token_object_handles {P}.
Arguments backed_token_objects {P}.
Arguments backed_object_references {P}.
Arguments backed_object_handles {P}.

Record SlotContext (B P : Type) : Type := mkContext {
  slot : B;
  state : SlotState P;
  handles : HandleCounters;
}.
Arguments mkContext {B P}.
Arguments slot {B P}.
Arguments state {B P}.
Arguments handles {B P}.

(** ** Sessions *)

Definition SessionContext_new (b : BackendSession) : SessionContext :=
  mkSession b memory_new None None None None None None.

Definition clear_operations (s : SessionContext) : SessionContext :=
  mkSession (backend s) (storage s) None None None None None None.

Definition cancel_operations (fl : Z) (s : SessionContext) : SessionContext :=
  let cancel {A} (flag : Z) (o : option A) : option A := if has_flag fl flag then None else o in
  mkSession (backend s) (storage s)
    (cancel CKF_FIND_OBJECTS (find_operation s)) (cancel CKF_DIGEST (digest_operation s))
    (cancel CKF_ENCRYPT (encrypt_operation s)) (cancel CKF_DECRYPT (decrypt_operation s))
    (cancel CKF_SIGN (sign_operation s)) (cancel CKF_VERIFY (verify_operation s)).

Definition set_find (op : option FindOperation) (s : SessionContext) : SessionContext :=
  mkSession (backend s) (storage s) op (digest_operation s) (encrypt_operation s)
    (decrypt_operation s) (sign_operation s) (verify_operation s).
Definition set_session_storage (m : MemoryStorageProvider) (s : SessionContext) : SessionContext :=
  mkSession (backend s) m (find_operation s) (digest_operation s) (encrypt_operation s)
    (decrypt_operation s) (sign_operation s) (verify_operation s).

Definition crypt_operation (encrypting : bool) (s : SessionContext) : option CryptOperation :=
  if encrypting then encrypt_operation s else decrypt_operation s.

Definition set_crypt_operation (encrypting : bool) (op : option CryptOperation) (s : SessionContext)
    : SessionContext :=
  mkSession (backend s) (storage s) (find_operation s) (digest_operation s)
    (if encrypting then op else encrypt_operation s)
    (if encrypting then decrypt_operation s else op) (sign_operation s) (verify_operation s).

Definition set_sign_operation (op : option SignatureOperation) (s : SessionContext) : SessionContext :=
  mkSession (backend s) (storage s) (find_operation s) (digest_operation s) (encrypt_operation s)
    (decrypt_operation s) op (verify_operation s).

Definition take_crypt_operation (encrypting : bool) (s : SessionContext)
    : option CryptOperation * SessionContext :=
  (crypt_operation encrypting s, set_crypt_operation encrypting None s).

(** ** Handles *)

(** [CK_ULONG::MAX] on the platforms where [CK_ULONG] has 64 bits. *)
Definition CK_ULONG_MAX : Z := U64_MAX.

Definition counters_new : HandleCounters := mkCounters 1 1.

Definition allocate_handle (counter : Z) : outcome Error Z * Z :=
  if (counter =? 0) || (CK_ULONG_MAX <? counter) then (Err #CKR_HOST_MEMORY, counter)
  else (Ok counter, (counter + 1) mod 2 ^ 64).

(** ** Interfaces *)

(** The part of the [Slot] trait the slot state and the session API call.
    Observers take [&self] and do no I/O; the rest may change the backend. *)
Class Slot (B : Type) : Type := {
  is_present : B → bool;
  slot_flags : B → Z;
  login_is_active : B → bool;
  backend_session_is_active : B → bool;
  supports_login_user : B → bool;
  login_user_uses_token_objects : B → list Z → bool;
  refresh_token_objects_before_find : B → bool;
  refresh_token_objects_after_login : B → bool;
  refresh_token_objects_after_logout : B → bool;
  native_storage_objects_are_backend_managed : B → bool;
  has_native_storage : B → bool;
  native_storage :: StorageProvider B;
  clear_lost_login : B → B;
  clear_session : B → B;
  invalidate_token_objects : B → B;
  set_public_certificate_storage_enabled : bool → B → B;
  profile_objects : B → Z → list TokenObject;
  slot_open_session : Z → Z → B → BackendSession * B;
  refresh : SM B Error unit;
  token_objects : Z → SM B Error (list TokenObject);
  token_object : Z → list Z → SM B Error (option TokenObject);
  session_objects : Z → SM B Error (list TokenObject);
  slot_init_token : list Z → list Z → SM B Error unit;
  init_user_pin : list Z → SM B Error unit;
  slot_set_pin : list Z → list Z → SM B Error unit;
  set_so_pin : list Z → list Z → SM B Error unit;
  slot_login : option (list Z) → SM B Error unit;
  login_so : option (list Z) → SM B Error unit;
  slot_login_user : Z → list Z → option (list Z) → list TokenObject → SM B Error unit;
  login_context_specific : list Z → bool → option (list Z) → SM B Error (option Z);
  logout_role : LoginRole → SM B Error unit;
  set_login_role : option LoginRole → SM B Error unit;
  session_get_info : BackendSession → SM B Error unit;
  delete_session_object : BackendSession → Z → SM B Error (list Z);
  has_ccid_login_connector : B → bool;
  secure_channel_required : B → bool;
  prepare_secure_channel_login : SM B Error unit;
  finish_secure_channel_login : bool → B → B;
  clear_secure_channel : B → B;
}.

(** A backend session reports the slot and the flags it was opened with; the
    command that deletes a device's session object returns. *)
Class SlotLaws (B : Type) `{Slot B} : Prop := {
  open_session_spec id fl b : (slot_open_session id fl b).1 = mkBackendSession id fl;
  delete_session_object_returns s h b : (delete_session_object s h b).1 ≠ Panic;
}.

(** The CBOR form of an object: its bytes and the dependencies stored with it;
    decoding may read dependencies back from the provider. *)
Class BackedObjects : Type := {
  encode_backed_object : TokenObject → outcome Error (list Z * list (list Z));
  decode_backed_object : ∀ P, StorageProvider P → Z → bool → ContentReference → list Z →
    SM P Error (option TokenObject);
}.

(** ** Backed objects *)

Section backed_objects.
Context {P : Type} `{StorageProvider P, BackedObjects}.

Fixpoint put_all (dependencies : list (list Z)) : SM P Error unit :=
  match dependencies with
  | [] => sm_ret tt
  | d :: rest => let! _ := sm_map_err storage_error (provider_put d) in put_all rest
  end.

Definition put_backed_object (object : TokenObject) : SM P Error ContentReference :=
  let! mutation := sm_gets supports_mutation in
  let! _ := guard_err (negb mutation) #CKR_TOKEN_WRITE_PROTECTED in
  let! '(encoded, dependencies) := sm_lift (encode_backed_object object) in
  let! _ := put_all dependencies in
  sm_map_err storage_error (provider_put encoded).

Fixpoint load_objects (id : Z) (tok : bool) (references : list ContentReference)
    : SM P Error (list (ContentReference * TokenObject)) :=
  match references with
  | [] => sm_ret []
  | reference :: rest =>
      let! found := sm_map_err storage_error (provider_get reference) in
      let! encoded := sm_lift (ok_or #CKR_DEVICE_ERROR found) in
      let! decoded := decode_backed_object P _ id tok reference encoded in
      let! loaded := load_objects id tok rest in
      sm_ret (match decoded with Some o => (reference, o) :: loaded | None => loaded end)
  end.

Definition stored_objects (id : Z) (tok : bool) : SM P Error (list (ContentReference * TokenObject)) :=
  sm_match provider_list
    (λ references, load_objects id tok references)
    (λ error, match error with
              | Unavailable => sm_ret []
              | _ => sm_err (storage_error error)
              end).
End backed_objects.

Definition backed_object_unique_id (reference : ContentReference) : list Z :=
  str "pkcs11rs stored " ++ encode_lower_hex (digest reference).

(** ** Field updates *)

Section setters.
Context {P : Type}.
Implicit Type s : SlotState P.

Definition set_sessions (m : gmap Z SessionContext) s : SlotState P :=
  mkState (slot_id s) (token_storage s) m (login_role s) (memory_objects s)
    (token_object_handles s) (backed_token_objects s) (backed_object_references s)
    (backed_object_handles s).
Definition set_token_storage (p : P) s : SlotState P :=
  mkState (slot_id s) p (sessions s) (login_role s) (memory_objects s)
    (token_object_handles s) (backed_token_objects s) (backed_object_references s)
    (backed_object_handles s).
Definition set_role (r : option LoginRole) s : SlotState P :=
  mkState (slot_id s) (token_storage s) (sessions s) r (memory_objects s)
    (token_object_handles s) (backed_token_objects s) (backed_object_references s)
    (backed_object_handles s).
Definition set_memory (m : gmap Z TokenObject) s : SlotState P :=
  mkState (slot_id s) (token_storage s) (sessions s) (login_role s) m
    (token_object_handles s) (backed_token_objects s) (backed_object_references s)
    (backed_object_handles s).
Definition set_locators (m : gmap Z TokenObjectLocator) s : SlotState P :=
  mkState (slot_id s) (token_storage s) (sessions s) (login_role s) (memory_objects s)
    m (backed_token_objects s) (backed_object_references s) (backed_object_handles s).
Definition set_backed (t : gmap (list Z) TokenObject) (r : gmap (list Z) ContentReference)
    (h : gmap Z ContentReference) s : SlotState P :=
  mkState (slot_id s) (token_storage s) (sessions s) (login_role s) (memory_objects s)
    (token_object_handles s) t r h.
End setters.

(** ** Operations *)

Section slot_state.
Context {B P : Type} `{Slot B} `{StorageProvider P} `{Sha3, MiniCbor} `{BackedObjects}.
Abbreviation Ctx := (SlotContext B P).
Abbreviation M := (SM Ctx Error).

(** Code on the backend, and updates of the state. *)
Definition on_slot {A} (c : SM B Error A) : M A := λ x,
  let '(r, b) := c (slot x) in (r, mkContext b (state x) (handles x)).
Definition modify_slot (f : B → B) : M unit := λ x,
  (Ok tt, mkContext (f (slot x)) (state x) (handles x)).
Definition modify_state (f : SlotState P → SlotState P) : M unit := λ x,
  (Ok tt, mkContext (slot x) (f (state x)) (handles x)).
Definition gets {A} (f : SlotState P → A) : M A := λ x, (Ok (f (state x)), x).
Definition asks {A} (f : B → A) : M A := λ x, (Ok (f (slot x)), x).

(** [token_storage_provider]: the backend's own store if it has one. *)
Definition with_token_storage {A} (f : ∀ Q, StorageProvider Q → SM Q Error A) : M A := λ x,
  if has_native_storage (slot x) then on_slot (f B native_storage) x
  else
    let '(r, p) := f P _ (token_storage (state x)) in
    (r, mkContext (slot x) (set_token_storage p (state x)) (handles x)).

Definition allocate_object : M Z := λ x,
  let '(r, counter) := allocate_handle (next_object (handles x)) in
  (r, mkContext (slot x) (state x) (mkCounters counter (next_session (handles x)))).

Definition allocate_session : M Z := λ x,
  let '(r, counter) := allocate_handle (next_session (handles x)) in
  (r, mkContext (slot x) (state x) (mkCounters (next_object (handles x)) counter)).

Definition stored_token_objects : M (list (ContentReference * TokenObject)) :=
  let! managed := asks native_storage_objects_are_backend_managed in
  if (managed : bool) then sm_ret []
  else
    let! id := gets slot_id in
    with_token_storage (λ Q _, stored_objects id true).

Definition record_backed_objects (objs : list (ContentReference * TokenObject))
    (s : SlotState P) : SlotState P :=
  let references := foldl (λ m '(r, o), <[unique_id o := r]> m) (∅ : gmap (list Z) ContentReference) objs in
  let backed := foldl (λ m '(_, o), <[unique_id o := o]> m) (∅ : gmap (list Z) TokenObject) objs in
  set_backed backed references
    (omap (λ l, references !! locator_id l) (token_object_handles s) ∪ backed_object_handles s) s.

Definition require_slot_id (id : Z) : M unit :=
  let! own := gets slot_id in
  guard_err (negb (id =? own)) #CKR_SLOT_ID_INVALID.

Definition get_session_context (session_handle : Z) : M SessionContext :=
  let! found := gets (λ s, sessions s !! session_handle) in
  let! session := sm_lift (ok_or #CKR_SESSION_HANDLE_INVALID found) in
  let! own := gets slot_id in
  let! _ := guard_err (negb (slotID (backend session) =? own)) #CKR_SESSION_HANDLE_INVALID in
  sm_ret session.

(** [get_session_context_mut] followed by an update of the session. *)
Definition update_session (session_handle : Z) (f : SessionContext → SessionContext) : M unit :=
  let! session := get_session_context session_handle in
  modify_state (λ s, set_sessions (<[session_handle := f session]> (sessions s)) s).

(** Code on the storage of a session. *)
Definition with_session_storage {A} (session_handle : Z) (c : SM MemoryStorageProvider Error A) : M A :=
  let! session := get_session_context session_handle in
  let '(r, m) := c (storage session) in
  let! _ := modify_state (λ s,
    set_sessions (<[session_handle := set_session_storage m session]> (sessions s)) s) in
  sm_lift r.

(** [SlotState::login_role] *)
Definition slot_login_role (id : Z) : M (option LoginRole) := λ x,
  (Ok (if (id =? slot_id (state x)) && login_is_active (slot x)
       then login_role (state x) else None), x).

Definition is_slot_logged_in (id : Z) : M bool :=
  let! role := slot_login_role id in
  sm_ret (bool_decide (is_Some role)).

Definition is_slot_user_logged_in (id : Z) : M bool :=
  let! role := slot_login_role id in
  sm_ret (bool_decide (role = Some User)).

Definition get_session (session_handle : Z) : M BackendSession :=
  let! found := gets (λ s, sessions s !! session_handle) in
  let! own := gets slot_id in
  match found with
  | Some session =>
      if slotID (backend session) =? own then sm_ret (backend session)
      else sm_err #CKR_SESSION_HANDLE_INVALID
  | None => sm_err #CKR_SESSION_HANDLE_INVALID
  end.

Definition session_details (session_handle : Z) : M (Z * Z * bool) :=
  let! session := get_session session_handle in
  let! role := slot_login_role (slotID session) in
  sm_ret (slotID session, flags session, bool_decide (role = Some User)).

Definition get_slot (id : Z) : M unit := require_slot_id id.

Definition get_present_slot (id : Z) : M unit :=
  let! _ := get_slot id in
  let! present := asks is_present in
  guard_err (negb present) #CKR_TOKEN_NOT_PRESENT.

Definition set_login_role_state (role : option LoginRole) : M unit := modify_state (set_role role).

(** [retain(|_, object| object.token || !object.private)] *)
Definition retain_public (m : gmap Z TokenObject) : gmap Z TokenObject :=
  filter (λ '(_, o), (token o || negb (private o)) = true) m.

Definition clear_login_state (id : Z) : M unit := λ x,
  if negb (id =? slot_id (state x)) then (Ok tt, x)
  else
    (Ok tt, mkContext (slot x)
       (set_memory (retain_public (memory_objects (state x)))
          (set_sessions (clear_operations <$> sessions (state x)) (set_role None (state x))))
       (handles x)).

Definition reconcile_login_state (id : Z) : M unit :=
  let! recorded := gets login_role in
  let! active := is_slot_logged_in id in
  if bool_decide (is_Some recorded) && negb active then
    let! _ := modify_slot clear_lost_login in
    clear_login_state id
  else sm_ret tt.

Definition insert_object (object : TokenObject) : M Z :=
  let! handle := allocate_object in
  let object := if bool_decide (unique_id object = []) then set_unique_id (decimal handle) object
                else object in
  let! _ := modify_state (λ s, set_memory (<[handle := object]> (memory_objects s)) s) in
  sm_ret handle.

Definition resolve_object (handle : Z) : M (option TokenObject) :=
  let! s := gets id in
  match memory_objects s !! handle with
  | Some object => sm_ret (Some object)
  | None =>
      match token_object_handles s !! handle with
      | None => sm_ret None
      | Some locator =>
          match backed_token_objects s !! locator_id locator with
          | Some object => sm_ret (Some object)
          | None => on_slot (token_object (slot_id s) (locator_id locator))
          end
      end
  end.

Definition is_native_token_object_handle (handle : Z) (s : SlotState P) : bool :=
  bool_decide (is_Some (token_object_handles s !! handle))
  && negb (bool_decide (is_Some (backed_object_handles s !! handle))).

(** The order of a [HashMap]'s entries is not specified; [map_to_list] is one. *)
Definition resolved_objects : M (list (Z * TokenObject)) :=
  let! s := gets id in
  let! native := on_slot (token_objects (slot_id s)) in
  let native := foldl (λ m o, if token o then <[unique_id o := o]> m else m)
                  (∅ : gmap (list Z) TokenObject) native in
  let all := backed_token_objects s ∪ native in
  sm_ret (map_to_list (memory_objects s)
          ++ omap (λ '(handle, l), pair handle <$> all !! locator_id l)
               (map_to_list (token_object_handles s))).

(** The find cursor of a session when a handle disappears. *)
Definition drop_from_find (handle : Z) (op : FindOperation) : FindOperation :=
  let already_returned := Z.min (next op) (len (objects op)) in
  let removed_before_cursor :=
    len (List.filter (λ candidate, candidate =? handle) (slice 0 already_returned (objects op))) in
  mkFind (List.filter (λ candidate, negb (candidate =? handle)) (objects op))
    (next op - removed_before_cursor).

Definition remove_object_handle (handle : Z) (s : SlotState P) : SlotState P :=
  let references :=
    match memory_objects s !! handle with
    | Some object => if negb (token object) then delete (unique_id object) (backed_object_references s)
                     else backed_object_references s
    | None => backed_object_references s
    end in
  mkState (slot_id s) (token_storage s)
    ((λ session, set_find (drop_from_find handle <$> find_operation session) session) <$> sessions s)
    (login_role s) (delete handle (memory_objects s)) (delete handle (token_object_handles s))
    (backed_token_objects s) references (delete handle (backed_object_handles s)).
End slot_state.

(** ** Reconciliation of token objects and handles *)

(** [String]'s order: bytewise lexicographic. *)
Definition id_le (a b : list Z) : Prop := lex_le a b = true.
#[export] Instance id_le_dec : RelDecision id_le.
Proof. intros a b. unfold id_le. apply _. Defined.

(** [objects_by_id]: fails on an empty or repeated unique identifier. *)
Fixpoint index_objects (objs : list TokenObject) (acc : gmap (list Z) TokenObject)
    : option (gmap (list Z) TokenObject) :=
  match objs with
  | [] => Some acc
  | o :: rest =>
      if negb (token o) then index_objects rest acc
      else if bool_decide (unique_id o = []) || bool_decide (is_Some (acc !! unique_id o)) then None
      else index_objects rest (<[unique_id o := o]> acc)
  end.

Section reconcile.
Context {B P : Type} `{Slot B} `{StorageProvider P} `{Sha3, MiniCbor} `{BackedObjects}.
Abbreviation Ctx := (SlotContext B P).
Abbreviation M := (SM Ctx Error).

Fixpoint check_rebindings (by_id : gmap (list Z) TokenObject) (rebindings : list (Z * list Z)) : M unit :=
  match rebindings with
  | [] => sm_ret tt
  | (handle, id) :: rest =>
      let! locators := gets token_object_handles in
      let! _ := guard_err (negb (bool_decide (is_Some (locators !! handle)))) #CKR_OBJECT_HANDLE_INVALID in
      let! _ := guard_err (negb (bool_decide (is_Some (by_id !! id)))) #CKR_DEVICE_ERROR in
      check_rebindings by_id rest
  end.

(** Handles whose locator satisfies a test. *)
Definition handles_where (test : Z → list Z → bool) (s : SlotState P) : list Z :=
  (List.filter (λ '(handle, l), test handle (locator_id l)) (map_to_list (token_object_handles s))).*1.

Definition remove_handles (hs : list Z) : M unit :=
  modify_state (λ s, foldl (λ s h, remove_object_handle h s) s hs).

Fixpoint apply_rebindings (rebindings : list (Z * list Z)) : M unit :=
  match rebindings with
  | [] => sm_ret tt
  | (handle, id) :: rest =>
      let! locators := gets token_object_handles in
      let! _ := sm_lift (ok_or #CKR_OBJECT_HANDLE_INVALID (locators !! handle)) in
      let! _ := modify_state (λ s, set_locators (<[handle := mkLocator id]> (token_object_handles s)) s) in
      apply_rebindings rest
  end.

Fixpoint add_handles (ids : list (list Z)) : M unit :=
  match ids with
  | [] => sm_ret tt
  | id :: rest =>
      let! handle := allocate_object in
      let! _ := modify_state (λ s, set_locators (<[handle := mkLocator id]> (token_object_handles s)) s) in
      add_handles rest
  end.

(** The identifiers that have no handle yet, sorted. *)
Definition new_unique_ids (by_id : gmap (list Z) TokenObject) (s : SlotState P) : list (list Z) :=
  let existing : list (list Z) := (λ '(_, l), locator_id l) <$> map_to_list (token_object_handles s) in
  merge_sort id_le
    (List.filter (λ id, negb (bool_decide (id ∈ existing))) (map_to_list by_id).*1).

Definition reconcile_slot_token_objects_with_rebindings (id : Z) (objs : list TokenObject)
    (rebindings : list (Z * list Z)) : M unit :=
  let! _ := require_slot_id id in
  let! by_id := sm_lift (ok_or #CKR_DEVICE_ERROR (index_objects objs ∅)) in
  let rebound_handles := rebindings.*1 in
  let rebound_ids := rebindings.*2 in
  let! _ := check_rebindings by_id rebindings in
  let! conflicts := gets (handles_where (λ h i,
    bool_decide (i ∈ rebound_ids) && negb (bool_decide (h ∈ rebound_handles)))) in
  let! _ := remove_handles conflicts in
  let! _ := apply_rebindings rebindings in
  let! removed := gets (handles_where (λ _ i, negb (bool_decide (is_Some (by_id !! i))))) in
  let! _ := remove_handles removed in
  let! ids := gets (new_unique_ids by_id) in
  add_handles ids.

Definition reconcile_slot_token_objects (id : Z) (objs : list TokenObject) : M unit :=
  reconcile_slot_token_objects_with_rebindings id objs [].

Definition refresh_slot_token_objects_with_rebindings (id : Z) (rebindings : list (Z * list Z)) : M unit :=
  let! _ := require_slot_id id in
  let! objs := on_slot (token_objects id) in
  let! stored := stored_token_objects in
  let! _ := modify_state (record_backed_objects stored) in
  reconcile_slot_token_objects_with_rebindings id (objs ++ stored.*2) rebindings.

Definition refresh_slot_token_objects (id : Z) : M unit :=
  refresh_slot_token_objects_with_rebindings id [].

(** [SlotContext::new_with_storage], on the shared handle counters. *)
Definition new_with_storage (id : Z) (b : B) (objs : list TokenObject) (counters : HandleCounters)
    (p : P) : outcome Error unit * Ctx :=
  let b := set_public_certificate_storage_enabled (supports_mutation p) b in
  let x := mkContext b (mkState id p ∅ None ∅ ∅ ∅ ∅ ∅) counters in
  let objs := if existsb (λ o, class o =? CKO_PROFILE) objs
              then List.filter (λ o, negb (class o =? CKO_PROFILE)) objs ++ profile_objects b id
              else objs in
  (let! stored := stored_token_objects in
   let! _ := modify_state (record_backed_objects stored) in
   reconcile_slot_token_objects id (objs ++ stored.*2)) x.

(** ** Backed objects of a slot *)

(** [iter().find_map] over the locators. *)
Definition handle_of (id : list Z) (s : SlotState P) : option Z :=
  head (handles_where (λ _ i, bool_decide (i = id)) s).

Definition insert_backed_handle (handle : Z) (reference : ContentReference) (s : SlotState P) : SlotState P :=
  set_backed (backed_token_objects s) (backed_object_references s)
    (<[handle := reference]> (backed_object_handles s)) s.
Definition insert_reference (id : list Z) (reference : ContentReference) (s : SlotState P) : SlotState P :=
  set_backed (backed_token_objects s) (<[id := reference]> (backed_object_references s))
    (backed_object_handles s) s.
Definition remove_reference (id : list Z) (s : SlotState P) : SlotState P :=
  set_backed (backed_token_objects s) (delete id (backed_object_references s))
    (backed_object_handles s) s.

Definition store_backed_object (session_handle : Z) (object : TokenObject) : M Z :=
  let! reference :=
    if token object then with_token_storage (λ Q _, put_backed_object object)
    else with_session_storage session_handle (put_backed_object object) in
  let! own := gets slot_id in
  if token object then
    let id := backed_object_unique_id reference in
    let! _ := modify_state (insert_reference id reference) in
    let! _ := refresh_slot_token_objects own in
    let! found := gets (handle_of id) in
    let! handle := sm_lift (ok_or #CKR_DEVICE_ERROR found) in
    let! _ := modify_state (insert_backed_handle handle reference) in
    sm_ret handle
  else
    let! handle := insert_object (set_creator session_handle own object) in
    let! _ := modify_state (insert_backed_handle handle reference) in
    sm_ret handle.

Definition backed_reference_is_shared (handle : Z) (reference : ContentReference)
    (object : TokenObject) (s : SlotState P) : bool :=
  existsb (λ '(candidate, candidate_reference),
    if (candidate =? handle) || negb (bool_decide (candidate_reference = reference)) then false
    else if token object then bool_decide (is_Some (token_object_handles s !! candidate))
    else match memory_objects s !! candidate with
         | Some c => negb (token c) && bool_decide (creator_session c = creator_session object)
         | None => false
         end) (map_to_list (backed_object_handles s)).

(** The reference of a handle, or of its object's identifier. *)
Definition reference_of (handle : Z) (object : TokenObject) (s : SlotState P) : option ContentReference :=
  match backed_object_handles s !! handle with
  | Some reference => Some reference
  | None => backed_object_references s !! unique_id object
  end.

(** Delete from the token's store, or from the creating session's. *)
Definition delete_backed (in_token : bool) (object : TokenObject) (reference : ContentReference) : M bool :=
  if in_token then with_token_storage (λ Q _, sm_map_err storage_error (provider_delete reference))
  else
    let! creator := sm_lift (ok_or #CKR_DEVICE_ERROR (creator_session object)) in
    with_session_storage creator (sm_map_err storage_error (provider_delete reference)).

Definition destroy_backed_object (handle : Z) (object : TokenObject) : M bool :=
  let! found := gets (reference_of handle object) in
  match found with
  | None => sm_ret false
  | Some reference =>
      let! shared := gets (backed_reference_is_shared handle reference object) in
      let! deleted := if (shared : bool) then sm_ret true
                      else delete_backed (token object) object reference in
      let! _ := guard_err (negb deleted) #CKR_DEVICE_ERROR in
      let! _ := modify_state (λ s, set_backed (backed_token_objects s)
        (if token object then delete (unique_id object) (backed_object_references s)
         else backed_object_references s)
        (delete handle (backed_object_handles s)) s) in
      let! _ := if token object then let! own := gets slot_id in refresh_slot_token_objects own
                else modify_state (remove_object_handle handle) in
      sm_ret true
  end.

Definition replace_backed_object (handle : Z) (previous replacement : TokenObject) : M bool :=
  let! found := gets (reference_of handle previous) in
  match found with
  | None => sm_ret false
  | Some previous_reference =>
      let! reference :=
        if token replacement then with_token_storage (λ Q _, put_backed_object replacement)
        else
          let! creator := sm_lift (ok_or #CKR_DEVICE_ERROR (creator_session previous)) in
          with_session_storage creator (put_backed_object replacement) in
      let! shared := gets (backed_reference_is_shared handle previous_reference previous) in
      let! _ :=
        if negb (bool_decide (reference = previous_reference)) && negb shared then
          let! deleted := delete_backed (token replacement) previous previous_reference in
          guard_err (negb deleted) #CKR_DEVICE_ERROR
        else sm_ret tt in
      let new_id := if token replacement then backed_object_unique_id reference
                    else unique_id previous in
      let! _ := if token replacement
                then modify_state (λ s, insert_reference new_id reference
                                          (remove_reference (unique_id previous) s))
                else sm_ret tt in
      let! _ := modify_state (insert_backed_handle handle reference) in
      let! own := gets slot_id in
      let! _ :=
        if token replacement then
          let! objs := on_slot (token_objects own) in
          let! stored := stored_token_objects in
          let! _ := modify_state (record_backed_objects stored) in
          reconcile_slot_token_objects_with_rebindings own (objs ++ stored.*2) [(handle, new_id)]
        else
          let! creator := sm_lift (ok_or #CKR_DEVICE_ERROR (creator_session previous)) in
          modify_state (λ s, set_memory
            (<[handle := set_creator creator own (set_unique_id new_id replacement)]> (memory_objects s)) s) in
      sm_ret true
  end.

(** ** Token initialisation, session objects and logout *)

Definition SlotState_init_token (so_pin label : list Z) : M unit :=
  let! open := gets sessions in
  let! _ := guard_err (negb (bool_decide (open = ∅))) #CKR_SESSION_EXISTS in
  let! _ := on_slot (slot_init_token so_pin label) in
  let! _ := set_login_role_state None in
  let! own := gets slot_id in
  refresh_slot_token_objects own.

(** Some session object already carries this identifier. *)
Definition session_object_known (object : TokenObject) (s : SlotState P) : bool :=
  negb (bool_decide (unique_id object = []))
  && existsb (λ '(_, o), negb (token o) && bool_decide (unique_id o = unique_id object))
       (map_to_list (memory_objects s)).

Fixpoint insert_each (id session_handle : Z) (objs : list TokenObject) : M unit :=
  match objs with
  | [] => sm_ret tt
  | object :: rest =>
      let! known := gets (session_object_known object) in
      if (known : bool) then insert_each id session_handle rest
      else
        let! _ := insert_object (set_creator session_handle id object) in
        insert_each id session_handle rest
  end.

Definition insert_session_objects (id session_handle : Z) : M unit :=
  let! _ := require_slot_id id in
  let! objs := on_slot (session_objects id) in
  insert_each id session_handle (List.filter (λ o, negb (token o)) objs).

Definition logout_slot (id : Z) : M unit :=
  let! active := slot_login_role id in
  let! role := sm_lift (ok_or #CKR_USER_NOT_LOGGED_IN active) in
  let! _ := get_slot id in
  let! _ := on_slot (logout_role role) in
  let! _ := get_slot id in
  let! _ := on_slot (set_login_role None) in
  let! _ := clear_login_state id in
  let! _ := get_slot id in
  let! again := asks refresh_token_objects_after_logout in
  if (again : bool) then refresh_slot_token_objects id else sm_ret tt.
End reconcile.

(** ** The handle invariant *)

(** A handle the counter [n] has given out; [0] is the exhausted counter. *)
Definition handle_below (n h : Z) : Prop := 0 < h ≤ CK_ULONG_MAX ∧ (n = 0 ∨ h < n).

Definition live (mem : gmap Z TokenObject) (loc : gmap Z TokenObjectLocator) (h : Z) : Prop :=
  is_Some (mem !! h) ∨ is_Some (loc !! h).

(** Object and session handles were given out by the counters, session objects
    and token objects have different handles, and every handle a find operation
    has still to return names an object. *)
Record wf_parts (n ns : Z) (mem : gmap Z TokenObject) (loc : gmap Z TokenObjectLocator)
    (sess : gmap Z SessionContext) : Prop := {
  wf_counter : 0 ≤ n ≤ CK_ULONG_MAX;
  wf_session_counter : 0 ≤ ns ≤ CK_ULONG_MAX;
  wf_below : ∀ h, live mem loc h → handle_below n h;
  wf_sessions : ∀ k, is_Some (sess !! k) → handle_below ns k;
  wf_disjoint : ∀ h, is_Some (mem !! h) → loc !! h = None;
  wf_find : ∀ k s op, sess !! k = Some s → find_operation s = Some op →
    0 ≤ next op ≤ len (objects op) ∧ ∀ h, h ∈ objects op → live mem loc h;
}.

(** No two handles name the same token object. *)
Definition locators_inj (loc : gmap Z TokenObjectLocator) : Prop :=
  ∀ h h' l, loc !! h = Some l → loc !! h' = Some l → h = h'.

Definition ctx_wf0 {B P} (x : SlotContext B P) : Prop :=
  wf_parts (next_object (handles x)) (next_session (handles x)) (memory_objects (state x))
    (token_object_handles (state x)) (sessions (state x)).
Definition ctx_wf {B P} (x : SlotContext B P) : Prop :=
  ctx_wf0 x ∧ locators_inj (token_object_handles (state x)).

(** *** Handle allocation *)

Lemma allocate_handle_Ok n h n' :
  0 ≤ n ≤ CK_ULONG_MAX → allocate_handle n = (Ok h, n') →
  h = n ∧ 0 < h ≤ CK_ULONG_MAX ∧ 0 ≤ n' ≤ CK_ULONG_MAX ∧ handle_below n' h ∧
  ∀ k, handle_below n k → handle_below n' k ∧ k ≠ h.
Proof.
  unfold allocate_handle, handle_below, CK_ULONG_MAX, U64_MAX. intros Hn E.
  destruct ((n =? 0) || _) eqn:Eb; simplify_eq. bool_to_prop.
  destruct (decide (h = 2 ^ 64 - 1)) as [->|].
  - replace ((2 ^ 64 - 1 + 1) mod 2 ^ 64) with 0 by done. split_and!; lia.
  - rewrite Z.mod_small by lia. split_and!; lia.
Qed.

Lemma allocate_handle_Err n r n' :
  allocate_handle n = (r, n') → (∀ h, r ≠ Ok h) → n' = n.
Proof. unfold allocate_handle. destruct (_ || _); naive_solver. Qed.

(** *** Find cursors *)

Lemma filter_negb_take_drop {A} (f : A → bool) (l : list A) n :
  List.filter f (take n l) = take (length (List.filter f (take n l))) (List.filter f l) ∧
  List.filter f (drop n l) = drop (length (List.filter f (take n l))) (List.filter f l).
Proof.
  rewrite <- (take_drop n l) at 3 6. rewrite List.filter_app.
  by rewrite take_app_length, drop_app_length.
Qed.

Lemma length_filter_negb {A} (f : A → bool) (l : list A) :
  length (List.filter (λ a, negb (f a)) l) = (length l - length (List.filter f l))%nat ∧
  (length (List.filter f l) ≤ length l)%nat.
Proof.
  induction l as [|a l [IH1 IH2]]; [done|]. simpl. destruct (f a); simpl; lia.
Qed.

(** What is left to return, and what was returned. *)
Definition pending (op : FindOperation) : list Z := zdrop (next op) (objects op).
Definition returned (op : FindOperation) : list Z := ztake (next op) (objects op).

Lemma drop_from_find_spec h op :
  0 ≤ next op ≤ len (objects op) →
  0 ≤ next (drop_from_find h op) ≤ len (objects (drop_from_find h op)) ∧
  pending (drop_from_find h op) = List.filter (λ c, negb (c =? h)) (pending op) ∧
  returned (drop_from_find h op) = List.filter (λ c, negb (c =? h)) (returned op).
Proof.
  intros Hn. unfold drop_from_find, pending, returned. cbn [next objects].
  set (n := next op) in *. set (l := objects op) in *.
  unfold slice, zdrop, ztake, len in *. rewrite Z.min_l by lia. rewrite Z.sub_0_r, drop_0.
  destruct (length_filter_negb (λ c, c =? h) (take (Z.to_nat n) l)) as [L1 L2].
  destruct (filter_negb_take_drop (λ c, negb (c =? h)) l (Z.to_nat n)) as [F1 F2].
  rewrite length_take, Nat.min_l in L1, L2 by lia.
  assert (Z.to_nat (n - Z.of_nat (length (List.filter (λ c, c =? h) (take (Z.to_nat n) l))))
    = length (List.filter (λ c, negb (c =? h)) (take (Z.to_nat n) l))) as Hnat by lia.
  rewrite Hnat. split_and!; [lia| |exact (eq_sym F2)|exact (eq_sym F1)].
  apply (f_equal length) in F1. rewrite length_take in F1. lia.
Qed.

(** *** Code that touches neither handles, objects nor sessions *)

Section wf.
Context {B P : Type} `{Slot B} `{StorageProvider P} `{Sha3, MiniCbor} `{BackedObjects}.
Abbreviation Ctx := (SlotContext B P).
Abbreviation M := (SM Ctx Error).

Definition same_core (x y : Ctx) : Prop :=
  handles y = handles x ∧ slot_id (state y) = slot_id (state x) ∧
  sessions (state y) = sessions (state x) ∧ memory_objects (state y) = memory_objects (state x) ∧
  token_object_handles (state y) = token_object_handles (state x).

Definition keeps_core {A} (c : M A) : Prop := ∀ x, same_core x (c x).2.

Lemma same_core_wf x y : same_core x y → ctx_wf x → ctx_wf y.
Proof. unfold ctx_wf, ctx_wf0. by intros (-> & _ & -> & -> & ->). Qed.

Lemma keeps_preserves {A} (c : M A) : keeps_core c → preserves ctx_wf c.
Proof. intros Hc x Hx. by eapply same_core_wf. Qed.

Lemma same_core_trans x y z : same_core x y → same_core y z → same_core x z.
Proof. unfold same_core. intuition congruence. Qed.

Lemma keeps_bind {A A'} (c : M A) (f : A → M A') :
  keeps_core c → (∀ a, keeps_core (f a)) → keeps_core (sbind c f).
Proof.
  intros Hc Hf x. rewrite sm_bind_unfold. specialize (Hc x).
  destruct (c x) as [[a|e|] y]; [|done|done]. eapply same_core_trans; [done|]. apply Hf.
Qed.

Lemma keeps_on_slot {A} (c : SM B Error A) : keeps_core (on_slot c).
Proof. intros x. unfold on_slot. by destruct (c (slot x)). Qed.
Lemma keeps_with_token_storage {A} (f : ∀ Q, StorageProvider Q → SM Q Error A) :
  keeps_core (with_token_storage f).
Proof.
  intros x. unfold with_token_storage. destruct (has_native_storage _); [apply keeps_on_slot|].
  by destruct (f P _ _).
Qed.
Lemma keeps_modify_slot f : keeps_core (modify_slot f).
Proof. done. Qed.
Lemma keeps_gets {A} (f : SlotState P → A) : keeps_core (gets f).
Proof. done. Qed.
Lemma keeps_asks {A} (f : B → A) : keeps_core (asks f).
Proof. done. Qed.
Lemma keeps_ret {A} (a : A) : keeps_core (sm_ret a).
Proof. done. Qed.
Lemma keeps_err {A} e : keeps_core (sm_err e : M A).
Proof. done. Qed.
Lemma keeps_guard b e : keeps_core (guard_err b e).
Proof. done. Qed.
Lemma keeps_lift {A} (c : outcome Error A) : keeps_core (sm_lift c).
Proof. done. Qed.
Lemma keeps_role r : keeps_core (set_login_role_state r).
Proof. done. Qed.
Lemma keeps_login_role id : keeps_core (slot_login_role id).
Proof. done. Qed.
Lemma keeps_backed f : (∀ s, ∃ t r h, f s = set_backed t r h s) → keeps_core (modify_state f).
Proof. intros Hf x. unfold modify_state. cbn. by destruct (Hf (state x)) as (t & r & h & ->). Qed.
End wf.

Create HintDb core_keep.
#[export] Hint Resolve keeps_bind keeps_on_slot keeps_with_token_storage keeps_modify_slot
  keeps_gets keeps_asks keeps_ret keeps_err keeps_guard keeps_lift keeps_role keeps_login_role : core_keep.

(** Structural proof that code keeps the core: binds, conditionals, leaves. *)
Ltac keep_core :=
  repeat match goal with
  | |- keeps_core (sbind _ _) => apply keeps_bind; [|intros ?]
  | |- keeps_core (if ?b then _ else _) => destruct b
  | |- keeps_core (match ?o with _ => _ end) => destruct o
  | |- keeps_core (let '(_, _) := ?p in _) => destruct p
  | |- keeps_core _ => solve [auto with core_keep]
  end.

Section wf_keep.
Context {B P : Type} `{Slot B} `{StorageProvider P} `{Sha3, MiniCbor} `{BackedObjects}.
Abbreviation Ctx := (SlotContext B P).
Abbreviation M := (SM Ctx Error).

Lemma keeps_stored_token_objects : keeps_core (stored_token_objects : M _).
Proof. unfold stored_token_objects. keep_core. Qed.
Lemma keeps_require_slot_id id : keeps_core (require_slot_id id : M _).
Proof. unfold require_slot_id. keep_core. Qed.
Lemma keeps_get_session_context h : keeps_core (get_session_context h : M _).
Proof. unfold get_session_context. keep_core. Qed.
Lemma keeps_get_session h : keeps_core (get_session h : M _).
Proof. unfold get_session. keep_core. Qed.
Lemma keeps_is_slot_logged_in id : keeps_core (is_slot_logged_in id : M _).
Proof. unfold is_slot_logged_in. keep_core. Qed.
Lemma keeps_is_slot_user_logged_in id : keeps_core (is_slot_user_logged_in id : M _).
Proof. unfold is_slot_user_logged_in. keep_core. Qed.
Lemma keeps_record objs : keeps_core (modify_state (record_backed_objects objs) : M _).
Proof. apply keeps_backed. intros s. by eexists _, _, _. Qed.
Lemma keeps_insert_backed_handle h r : keeps_core (modify_state (insert_backed_handle h r) : M _).
Proof. apply keeps_backed. intros s. by eexists _, _, _. Qed.
Lemma keeps_insert_reference i r : keeps_core (modify_state (insert_reference i r) : M _).
Proof. apply keeps_backed. intros s. by eexists _, _, _. Qed.
End wf_keep.

#[export] Hint Resolve keeps_stored_token_objects keeps_require_slot_id keeps_get_session_context
  keeps_get_session keeps_is_slot_logged_in keeps_is_slot_user_logged_in keeps_record
  keeps_insert_backed_handle keeps_insert_reference : core_keep.

Section wf_keep2.
Context {B P : Type} `{Slot B} `{StorageProvider P} `{Sha3, MiniCbor} `{BackedObjects}.
Abbreviation Ctx := (SlotContext B P).
Abbreviation M := (SM Ctx Error).

Lemma keeps_session_details h : keeps_core (session_details h : M _).
Proof. unfold session_details. keep_core. Qed.
Lemma keeps_get_slot id : keeps_core (get_slot id : M _).
Proof. unfold get_slot. keep_core. Qed.
Lemma keeps_get_present_slot id : keeps_core (get_present_slot id : M _).
Proof. unfold get_present_slot, get_slot. keep_core. Qed.
Lemma keeps_resolve_object h : keeps_core (resolve_object h : M _).
Proof. unfold resolve_object. keep_core. Qed.
Lemma keeps_resolved_objects : keeps_core (resolved_objects : M _).
Proof. unfold resolved_objects. keep_core. Qed.
End wf_keep2.
#[export] Hint Resolve keeps_session_details keeps_get_slot keeps_get_present_slot
  keeps_resolve_object keeps_resolved_objects : core_keep.

(** *** Changes to sessions, objects and handles *)

Section parts.
Context (n ns : Z) (mem : gmap Z TokenObject) (loc : gmap Z TokenObjectLocator)
  (sess : gmap Z SessionContext) (Hwf : wf_parts n ns mem loc sess).

(** Sessions that lose their find operation or keep it, and closed sessions. *)
Lemma wf_parts_sessions sess' :
  (∀ k s', sess' !! k = Some s' →
     ∃ s, sess !! k = Some s ∧ (find_operation s' = None ∨ find_operation s' = find_operation s)) →
  wf_parts n ns mem loc sess'.
Proof.
  intros Hs. destruct Hwf as [W1 W2 W3 W4 W5 W6]. split; auto.
  - intros k [s' E]. destruct (Hs _ _ E) as (s & E' & _). eauto.
  - intros k s' op E Eo. destruct (Hs _ _ E) as (s & E' & [Hn|Hn]); [congruence|].
    rewrite Hn in Eo. by eapply W6.
Qed.

(** Objects may only disappear when no find operation can return them. *)
Lemma wf_parts_forget mem' :
  (∀ h, is_Some (mem' !! h) → is_Some (mem !! h)) → (∀ k s, sess !! k = Some s → find_operation s = None) →
  wf_parts n ns mem' loc sess.
Proof.
  intros Hm Hs. destruct Hwf as [W1 W2 W3 W4 W5 W6]. split; auto.
  - intros h [Hl|Hl]; apply W3; [left|right]; auto.
  - intros k s op E Eo. rewrite (Hs _ _ E) in Eo. done.
Qed.

Lemma wf_parts_insert h n' object :
  allocate_handle n = (Ok h, n') → wf_parts n' ns (<[h := object]> mem) loc sess.
Proof.
  intros E. destruct Hwf as [W1 W2 W3 W4 W5 W6].
  apply allocate_handle_Ok in E as (-> & Hh & Hn' & Hb & Hk); [|done].
  assert (∀ k, live (<[n := object]> mem) loc k ↔ k = n ∨ live mem loc k) as Hlive.
  { intros k. unfold live. destruct (decide (k = n)) as [->|Hne].
    - rewrite lookup_insert_eq. split; [tauto|]. intros _. left. by eexists.
    - rewrite lookup_insert_ne by done. tauto. }
  split; auto.
  - intros k [->|Hl]%Hlive; [done|]. by apply Hk, W3.
  - intros k Hm. destruct (decide (k = n)) as [->|Hne].
    + destruct (loc !! n) eqn:El; [|done].
      assert (handle_below n n) as Hbad by (apply W3; right; by eexists).
      unfold handle_below in Hbad. lia.
    + rewrite lookup_insert_ne in Hm by done. by apply W5.
  - intros k s op Es Eo. destruct (W6 _ _ _ Es Eo) as [Hr Hf]. split; [done|].
    intros c Hc. apply Hlive. right. by apply Hf.
Qed.

Lemma wf_parts_replace h object :
  is_Some (mem !! h) → wf_parts n ns (<[h := object]> mem) loc sess.
Proof.
  intros Hm. destruct Hwf as [W1 W2 W3 W4 W5 W6].
  assert (∀ k, is_Some (<[h := object]> mem !! k) ↔ is_Some (mem !! k)) as Hk.
  { intros k. destruct (decide (k = h)) as [->|Hne]; [|by rewrite lookup_insert_ne].
    rewrite lookup_insert_eq. split; [done|]. by eexists. }
  assert (∀ k, live (<[h := object]> mem) loc k ↔ live mem loc k) as Hl by (intros k; unfold live; by rewrite Hk).
  split; auto.
  - intros k Hlk. by apply W3, Hl.
  - intros k Hlk. by apply W5, Hk.
  - intros k s op Es Eo. destruct (W6 _ _ _ Es Eo) as [Hr Hf]. split; [done|].
    intros c Hc. by apply Hl, Hf.
Qed.

Lemma wf_parts_locator h n' l :
  allocate_handle n = (Ok h, n') → wf_parts n' ns mem (<[h := l]> loc) sess.
Proof.
  intros E. destruct Hwf as [W1 W2 W3 W4 W5 W6].
  apply allocate_handle_Ok in E as (-> & Hh & Hn' & Hb & Hk); [|done].
  assert (∀ k, live mem (<[n := l]> loc) k ↔ k = n ∨ live mem loc k) as Hlive.
  { intros k. unfold live. destruct (decide (k = n)) as [->|Hne].
    - rewrite lookup_insert_eq. split; [tauto|]. intros _. right. by eexists.
    - rewrite lookup_insert_ne by done. tauto. }
  split; auto.
  - intros k [->|Hl]%Hlive; [done|]. by apply Hk, W3.
  - intros k Hm. assert (handle_below n k) as Hbk by (apply W3; by left).
    rewrite lookup_insert_ne; [by apply W5|]. intros ->. unfold handle_below in Hbk. lia.
  - intros k s op Es Eo. destruct (W6 _ _ _ Es Eo) as [Hr Hf]. split; [done|].
    intros c Hc. apply Hlive. right. by apply Hf.
Qed.

Lemma wf_parts_rebind h l : is_Some (loc !! h) → wf_parts n ns mem (<[h := l]> loc) sess.
Proof.
  intros Hm. destruct Hwf as [W1 W2 W3 W4 W5 W6].
  assert (∀ k, is_Some (<[h := l]> loc !! k) ↔ is_Some (loc !! k)) as Hk.
  { intros k. destruct (decide (k = h)) as [->|Hne]; [|by rewrite lookup_insert_ne].
    rewrite lookup_insert_eq. split; [done|]. by eexists. }
  assert (∀ k, live mem (<[h := l]> loc) k ↔ live mem loc k) as Hl by (intros k; unfold live; by rewrite Hk).
  split; auto.
  - intros k Hlk. by apply W3, Hl.
  - intros k Hlk. apply eq_None_not_Some. rewrite Hk. apply eq_None_not_Some. by apply W5.
  - intros k s op Es Eo. destruct (W6 _ _ _ Es Eo) as [Hr Hf]. split; [done|].
    intros c Hc. by apply Hl, Hf.
Qed.

Lemma wf_parts_remove h :
  wf_parts n ns (delete h mem) (delete h loc)
    ((λ s, set_find (drop_from_find h <$> find_operation s) s) <$> sess).
Proof.
  destruct Hwf as [W1 W2 W3 W4 W5 W6].
  assert (∀ k, live (delete h mem) (delete h loc) k ↔ k ≠ h ∧ live mem loc k) as Hlive.
  { intros k. unfold live. destruct (decide (k = h)) as [->|Hne].
    - rewrite !lookup_delete_eq. split; [by intros [[]|[]]|by intros []].
    - rewrite !lookup_delete_ne by done. tauto. }
  split; auto.
  - intros k [_ Hl]%Hlive. by apply W3.
  - intros k. rewrite lookup_fmap. intros [s Es]. apply fmap_Some in Es as (s0 & E0 & _). eauto.
  - intros k [o Ho]. apply lookup_delete_Some in Ho as [Hne Ho].
    rewrite lookup_delete_ne by done. apply W5. by eexists.
  - intros k s op Es Eo. rewrite lookup_fmap in Es. apply fmap_Some in Es as (s0 & E0 & ->).
    cbn [find_operation set_find] in Eo. apply fmap_Some in Eo as (op0 & Eo & ->).
    destruct (W6 _ _ _ E0 Eo) as [Hr Hf]. split; [by apply drop_from_find_spec|].
    intros c Hc. cbn [objects drop_from_find] in Hc. apply list_elem_of_In, filter_In in Hc as [Hc Hne].
    apply Hlive. bool_to_prop. split; [done|]. by apply Hf, list_elem_of_In.
Qed.
End parts.

Section wf_ops.
Context {B P : Type} `{Slot B} `{StorageProvider P} `{Sha3, MiniCbor} `{BackedObjects}.
Abbreviation Ctx := (SlotContext B P).
Abbreviation M := (SM Ctx Error).

Lemma preserves_insert_object o : preserves ctx_wf (insert_object o : M _).
Proof.
  intros x [Hx Hi]. unfold insert_object, allocate_object. rewrite sm_bind_unfold.
  destruct (allocate_handle _) as [[h|e|] n'] eqn:E.
  - split; [|done]. apply wf_parts_insert with (next_object (handles x)); done.
  - apply allocate_handle_Err in E as ->; [|done]. by split.
  - apply allocate_handle_Err in E as ->; [|done]. by split.
Qed.

(** An update that clears the find operation or leaves it alone. *)
Definition keeps_find (f : SessionContext → SessionContext) : Prop :=
  ∀ s, find_operation (f s) = None ∨ find_operation (f s) = find_operation s.

Lemma wf_insert_session (x : Ctx) k s s' :
  ctx_wf x → sessions (state x) !! k = Some s →
  (find_operation s' = None ∨ find_operation s' = find_operation s) →
  ctx_wf (mkContext (slot x) (set_sessions (<[k := s']> (sessions (state x))) (state x)) (handles x)).
Proof.
  intros [Hx Hi] Hs Hf. split; [|done]. eapply wf_parts_sessions; [exact Hx|]. cbn [state sessions set_sessions].
  intros j t E. destruct (decide (j = k)) as [->|Hne].
  - rewrite lookup_insert_eq in E. simplify_eq. eauto.
  - rewrite lookup_insert_ne in E by done. eauto.
Qed.

Lemma get_session_context_Ok k (x y : Ctx) s :
  get_session_context k x = (Ok s, y) → y = x ∧ sessions (state x) !! k = Some s ∧
    slotID (backend s) = slot_id (state x).
Proof.
  unfold get_session_context. intros E. sm_inv E. unfold gets, sm_lift, guard_err, sm_ret in *.
  simplify_eq. destruct (sessions _ !! k); [|done]. simpl in *. simplify_eq.
  destruct (negb _) eqn:Eq; simplify_eq. bool_to_prop. done.
Qed.

Lemma preserves_update_session k f : keeps_find f → preserves ctx_wf (update_session k f : M _).
Proof.
  intros Hf x Hx. unfold update_session. rewrite sm_bind_unfold.
  pose proof (keeps_get_session_context k x) as Hk.
  destruct (get_session_context k x) as [[s|e|] y] eqn:E; [|by eapply same_core_wf..].
  apply get_session_context_Ok in E as (-> & Es & _). by eapply wf_insert_session.
Qed.

Lemma preserves_with_session_storage {A} k (c : SM MemoryStorageProvider Error A) :
  preserves ctx_wf (with_session_storage k c : M _).
Proof.
  intros x Hx. unfold with_session_storage. rewrite sm_bind_unfold.
  pose proof (keeps_get_session_context k x) as Hk.
  destruct (get_session_context k x) as [[s|e|] y] eqn:E; [|by eapply same_core_wf..].
  apply get_session_context_Ok in E as (-> & Es & _). destruct (c (storage s)) as [r m].
  rewrite sm_bind_unfold. cbn [modify_state sm_lift snd]. eapply wf_insert_session; [done..|]. by right.
Qed.

Lemma preserves_clear_login_state id : preserves ctx_wf (clear_login_state id : M _).
Proof.
  intros x [Hx Hi]. unfold clear_login_state. destruct (negb _); [by split|]. split; [|done].
  eapply wf_parts_forget.
  - eapply wf_parts_sessions; [exact Hx|]. cbn [snd state sessions set_sessions set_memory].
    intros k s E. rewrite lookup_fmap in E. apply fmap_Some in E as (s0 & E0 & ->).
    exists s0. split; [done|]. by left.
  - cbn [snd state memory_objects set_memory]. intros h [o Ho].
    apply map_lookup_filter_Some in Ho as [Ho _]. by eexists.
  - cbn [snd state sessions set_sessions set_memory]. intros k s E.
    rewrite lookup_fmap in E. by apply fmap_Some in E as (s0 & E0 & ->).
Qed.

Lemma preserves_reconcile_login_state id : preserves ctx_wf (reconcile_login_state id : M _).
Proof.
  unfold reconcile_login_state. apply preserves_bind; [by apply keeps_preserves|]. intros role.
  apply preserves_bind; [apply keeps_preserves; auto with core_keep|]. intros act.
  destruct (_ && _); [|by apply preserves_ret].
  apply preserves_bind; [by apply keeps_preserves|]. intros _. apply preserves_clear_login_state.
Qed.

Lemma wf_remove_object_handle (x : Ctx) h :
  ctx_wf0 x → ctx_wf0 (mkContext (slot x) (remove_object_handle h (state x)) (handles x)).
Proof. intros Hx. by apply wf_parts_remove. Qed.

(** Removing handles removes exactly their locators. *)
Lemma remove_handles_spec hs (x : Ctx) :
  ctx_wf0 x →
  let y := (remove_handles hs x).2 in
  remove_handles hs x = (Ok tt, y) ∧ ctx_wf0 y ∧ handles y = handles x ∧
  slot_id (state y) = slot_id (state x) ∧ slot y = slot x ∧
  ∀ h, token_object_handles (state y) !! h
       = if bool_decide (h ∈ hs) then None else token_object_handles (state x) !! h.
Proof.
  unfold remove_handles, modify_state. cbn [snd]. intros Hx. split; [done|].
  destruct x as [b s c]. cbn [slot state handles] in *. revert s Hx.
  induction hs as [|k hs IH]; intros s Hx; cbn [foldl].
  { split_and!; [done..|]. intros h. by rewrite bool_decide_false by set_solver. }
  destruct (IH (remove_object_handle k s)) as (W & E1 & E2 & E3 & E4).
  { by apply (wf_remove_object_handle (mkContext b s c)). }
  split_and!; [done..|]. intros h. rewrite E4. cbn [token_object_handles remove_object_handle].
  destruct (decide (h = k)) as [->|Hne].
  - rewrite lookup_delete_eq, (bool_decide_true (k ∈ k :: hs)) by set_solver. by case_bool_decide.
  - rewrite lookup_delete_ne by done. rewrite (bool_decide_ext (h ∈ hs) (h ∈ k :: hs)); [done|]. set_solver.
Qed.

Lemma elem_of_handles_where test (s : SlotState P) h :
  h ∈ handles_where test s ↔
  ∃ l, token_object_handles s !! h = Some l ∧ test h (locator_id l) = true.
Proof.
  unfold handles_where. rewrite list_elem_of_fmap. split.
  - intros ([h' l] & -> & E). apply list_elem_of_In, filter_In in E as [E Ht].
    apply list_elem_of_In, elem_of_map_to_list in E. eauto.
  - intros (l & El & Ht). exists (h, l). split; [done|].
    apply list_elem_of_In, filter_In. split; [|done].
    by apply list_elem_of_In, elem_of_map_to_list.
Qed.
End wf_ops.

(** *** Reconciliation *)

(** The indexed identifiers are those of the token objects. *)
Definition has_token_object (objs : list TokenObject) (i : list Z) : Prop :=
  Exists (λ o, token o = true ∧ unique_id o = i) objs.

Lemma index_objects_spec objs acc by_id :
  index_objects objs acc = Some by_id →
  (∀ i, is_Some (by_id !! i) ↔ is_Some (acc !! i) ∨ has_token_object objs i) ∧
  (acc !! [] = None → by_id !! [] = None).
Proof.
  revert acc. unfold has_token_object.
  induction objs as [|o objs IH]; intros acc; cbn [index_objects].
  { intros E. simplify_eq. split; [|done]. intros i. rewrite Exists_nil. tauto. }
  destruct (token o) eqn:Et; cbn [negb].
  - destruct (bool_decide (unique_id o = [])) eqn:Ee; [done|]. cbn [orb]. bool_to_prop.
    destruct (bool_decide (is_Some _)) eqn:En; [done|]. bool_to_prop. intros E.
    destruct (IH _ E) as [I1 I2]. split.
    + intros i. rewrite I1, Exists_cons. destruct (decide (unique_id o = i)) as [<-|Hne].
      * rewrite lookup_insert_eq. split; [tauto|]. intros _. left. by eexists.
      * rewrite lookup_insert_ne by done. tauto.
    + intros Hn. apply I2. by rewrite lookup_insert_ne.
  - intros E. destruct (IH _ E) as [I1 I2]. split; [|done].
    intros i. rewrite I1, Exists_cons, Et. intuition done.
Qed.

Lemma NoDup_cons_inv {A} (a : A) l : NoDup (a :: l) → a ∉ l ∧ NoDup l.
Proof. intros Hnd. by inversion Hnd. Qed.

Section reconcile_spec.
Context {B P : Type} `{Slot B} `{StorageProvider P} `{Sha3, MiniCbor} `{BackedObjects}.
Abbreviation Ctx := (SlotContext B P).
Abbreviation M := (SM Ctx Error).

Lemma check_rebindings_spec by_id rebindings (x y : Ctx) r :
  check_rebindings by_id rebindings x = (r, y) →
  y = x ∧ (r = Ok tt → ∀ h i, (h, i) ∈ rebindings →
             is_Some (token_object_handles (state x) !! h) ∧ is_Some (by_id !! i)).
Proof.
  induction rebindings as [|[h i] rest IH]; cbn [check_rebindings].
  { intros E. unfold sm_ret in E. simplify_eq. split; [done|]. set_solver. }
  rewrite !sm_bind_unfold. unfold gets, guard_err. case_bool_decide as Hb1; cbn [negb].
  - rewrite sm_bind_unfold. case_bool_decide as Hb2; cbn [negb].
    + intros E. destruct (IH E) as [-> Hr]. split; [done|]. intros Er h' i' Hin.
      apply elem_of_cons in Hin as [Hin|Hin]; [by simplify_eq|by apply Hr].
    + intros E. unfold sbind in E. simplify_eq. split; [done|discriminate].
  - intros E. unfold sbind in E. simplify_eq. split; [done|discriminate].
Qed.

Lemma apply_rebindings_spec rebindings (x : Ctx) :
  ctx_wf0 x → NoDup rebindings.*1 →
  (∀ h i, (h, i) ∈ rebindings → is_Some (token_object_handles (state x) !! h)) →
  let y := (apply_rebindings rebindings x).2 in
  apply_rebindings rebindings x = (Ok tt, y) ∧ ctx_wf0 y ∧ handles y = handles x ∧ slot y = slot x ∧
  slot_id (state y) = slot_id (state x) ∧
  (∀ h i, (h, i) ∈ rebindings → token_object_handles (state y) !! h = Some (mkLocator i)) ∧
  (∀ h, h ∉ rebindings.*1 → token_object_handles (state y) !! h = token_object_handles (state x) !! h).
Proof.
  revert x. induction rebindings as [|[k j] rest IH]; intros x Hx Hnd Hall.
  { split_and!; try done. set_solver. }
  rewrite fmap_cons in Hnd. apply NoDup_cons_inv in Hnd as [Hk Hnd]. cbn [fst] in Hk.
  destruct (Hall k j) as [l El]; [set_solver|].
  set (x1 := mkContext (slot x) (set_locators (<[k := mkLocator j]> (token_object_handles (state x)))
    (state x)) (handles x)).
  assert (apply_rebindings ((k, j) :: rest) x = apply_rebindings rest x1) as ->.
  { cbn [apply_rebindings]. unfold sbind, gets, sm_lift, modify_state. by rewrite El. }
  assert (token_object_handles (state x1) = <[k := mkLocator j]> (token_object_handles (state x))) as E1 by done.
  destruct (IH x1) as (I1 & I2 & I3 & I4 & I5 & I6 & I7).
  { apply wf_parts_rebind; [exact Hx|]. by eexists. }
  { done. }
  { intros h i Hin. rewrite E1. destruct (decide (h = k)) as [->|Hne].
    - rewrite lookup_insert_eq. by eexists.
    - rewrite lookup_insert_ne by done. apply (Hall h i). by right. }
  split_and!; [done..| |].
  - intros h i Hin. apply elem_of_cons in Hin as [Hin|Hin]; [|by apply I6].
    simplify_eq. rewrite I7, E1 by done. by rewrite lookup_insert_eq.
  - intros h Hh. rewrite fmap_cons, not_elem_of_cons in Hh. destruct Hh as [Hne Hh].
    rewrite I7, E1 by done. by rewrite lookup_insert_ne.
Qed.

Lemma add_handles_spec ids (x y : Ctx) r :
  ctx_wf x → NoDup ids →
  (∀ i h, i ∈ ids → token_object_handles (state x) !! h ≠ Some (mkLocator i)) →
  add_handles ids x = (r, y) →
  ctx_wf y ∧ slot_id (state y) = slot_id (state x) ∧
  (∀ h l, token_object_handles (state x) !! h = Some l → token_object_handles (state y) !! h = Some l) ∧
  (∀ h l, token_object_handles (state y) !! h = Some l →
     token_object_handles (state x) !! h = Some l ∨
     locator_id l ∈ ids ∧ ¬ handle_below (next_object (handles x)) h) ∧
  (r = Ok tt → ∀ i, i ∈ ids → ∃ h, token_object_handles (state y) !! h = Some (mkLocator i)).
Proof.
  revert x. induction ids as [|i ids IH]; intros x [Hx Hi] Hnd Hnew; cbn [add_handles].
  { intros E. unfold sm_ret in E. simplify_eq. split; [by split|]. split_and!; [done|done|by left|].
    intros _ i Hin. by apply elem_of_nil in Hin. }
  apply NoDup_cons_inv in Hnd as [Hi' Hnd]. rewrite sm_bind_unfold. unfold allocate_object.
  destruct (allocate_handle _) as [[k|e|] n'] eqn:Ea;
    [|apply allocate_handle_Err in Ea as ->; [|done]; intros E; simplify_eq;
      (split; [by split|]); (split; [done|]); (split; [done|]); (split; [by left|discriminate])..].
  rewrite sm_bind_unfold. unfold modify_state.
  set (x1 := mkContext (slot x) (set_locators (<[k := mkLocator i]> (token_object_handles (state x)))
    (state x)) (mkCounters n' (next_session (handles x)))). intros E. change (add_handles ids x1 = (r, y)) in E.
  pose proof (wf_parts_locator _ _ _ _ _ Hx k n' (mkLocator i) Ea) as Hwf1.
  pose proof Ea as (Ek & _ & _ & _ & Hfresh)%allocate_handle_Ok; [|apply Hx].
  assert (∀ h, token_object_handles (state x) !! h = None ∨ h ≠ k) as Hk.
  { intros h. destruct (token_object_handles (state x) !! h) eqn:El; [right|by left].
    apply Hfresh. apply Hx. right. by eexists. }
  assert (token_object_handles (state x1) = <[k := mkLocator i]> (token_object_handles (state x))) as E1 by done.
  destruct (IH x1) as (I1 & I2 & I3 & I4 & I5); [split; [exact Hwf1|]|done| |done|].
  { rewrite E1. intros h h' l. rewrite !lookup_insert_Some. intros [[? ?]|[? ?]] [[? ?]|[? ?]]; subst; auto.
    - exfalso. by eapply (Hnew i); [left|].
    - exfalso. by eapply (Hnew i); [left|].
    - by eapply Hi. }
  { intros j h Hj. rewrite E1. rewrite lookup_insert_Some. intros [[_ ?]|[_ Hj']].
    - simplify_eq. done.
    - by eapply (Hnew j); [right|]. }
  split_and!; [done|done|..].
  - intros h l El. apply I3. rewrite E1, lookup_insert_ne; [done|]. destruct (Hk h); congruence.
  - intros h l El. apply I4 in El as [El|[Hin Hb]].
    + rewrite E1, lookup_insert_Some in El. destruct El as [[<- <-]|[_ El]]; [right|by left].
      split; [by left|]. subst k. unfold handle_below. lia.
    + right. split; [by right|]. intros Hb'. apply Hb, Hfresh, Hb'.
  - intros Er j Hj. apply elem_of_cons in Hj as [->|Hj]; [|by apply I5].
    exists k. apply I3. by rewrite E1, lookup_insert_eq.
Qed.
End reconcile_spec.

Section reconcile_theorems.
Context {B P : Type} `{Slot B} `{StorageProvider P} `{Sha3, MiniCbor} `{BackedObjects}.
Abbreviation Ctx := (SlotContext B P).
Abbreviation M := (SM Ctx Error).
Abbreviation loc := (λ x : Ctx, token_object_handles (state x)).

(** The locators between rebinding and adding: rebound handles carry their new
    identifier, other handles keep theirs unless it was rebound or is gone. *)
Definition rebound (rebindings : list (Z * list Z)) (by_id : gmap (list Z) TokenObject)
    (before after : gmap Z TokenObjectLocator) : Prop :=
  (∀ h i, (h, i) ∈ rebindings → after !! h = Some (mkLocator i)) ∧
  (∀ h, h ∉ rebindings.*1 → after !! h =
     match before !! h with
     | Some l => if bool_decide (locator_id l ∈ rebindings.*2) then None
                 else if bool_decide (is_Some (by_id !! locator_id l)) then Some l else None
     | None => None
     end).

Lemma rebound_inj rebindings by_id before after :
  NoDup rebindings.*2 → locators_inj before → rebound rebindings by_id before after →
  locators_inj after.
Proof.
  intros Hnd Hinj [R1 R2] h h' l E E'.
  assert (∀ h l, after !! h = Some l →
    (h, locator_id l) ∈ rebindings ∨ before !! h = Some l ∧ locator_id l ∉ rebindings.*2) as Hcase.
  { intros k m Em. destruct (decide (k ∈ rebindings.*1)) as [Hk|Hk].
    - apply list_elem_of_fmap in Hk as ([k' i] & -> & Hin). pose proof Hin as Hin'. apply R1 in Hin'.
      cbn [fst] in *. rewrite Em in Hin'. simplify_eq. by left.
    - rewrite R2 in Em by done. destruct (before !! k) eqn:Eb; [|done].
      case_bool_decide; [done|]. case_bool_decide; simplify_eq. by right. }
  destruct (Hcase _ _ E) as [Hr|[Hb Hn]], (Hcase _ _ E') as [Hr'|[Hb' Hn']].
  - apply list_elem_of_lookup in Hr as [j Hj], Hr' as [j' Hj'].
    assert (j = j') as <-; [|congruence].
    eapply (NoDup_lookup rebindings.*2); [done| |]; rewrite list_lookup_fmap, ?Hj, ?Hj'; done.
  - exfalso. apply Hn'. apply list_elem_of_fmap. by exists (h, locator_id l).
  - exfalso. apply Hn. apply list_elem_of_fmap. by exists (h', locator_id l).
  - by eapply Hinj.
Qed.

(** Up to the addition of new handles. *)
Lemma reconcile_rebound rebindings by_id (x : Ctx) :
  ctx_wf x → NoDup rebindings.*1 → NoDup rebindings.*2 →
  (∀ h i, (h, i) ∈ rebindings → is_Some (loc x !! h) ∧ is_Some (by_id !! i)) →
  ∃ x1, ctx_wf x1 ∧ handles x1 = handles x ∧ slot_id (state x1) = slot_id (state x) ∧
    rebound rebindings by_id (loc x) (loc x1) ∧
    ∀ (k : M unit),
    (let! conflicts := gets (handles_where (λ h i,
       bool_decide (i ∈ rebindings.*2) && negb (bool_decide (h ∈ rebindings.*1)))) in
     let! _ := remove_handles conflicts in
     let! _ := apply_rebindings rebindings in
     let! removed := gets (handles_where (λ _ i, negb (bool_decide (is_Some (by_id !! i))))) in
     let! _ := remove_handles removed in
     k) x = k x1.
Proof.
  intros [Hx Hi] Hnd1 Hnd2 Hall.
  set (conflicts := handles_where (λ h i,
    bool_decide (i ∈ rebindings.*2) && negb (bool_decide (h ∈ rebindings.*1))) (state x)).
  destruct (remove_handles_spec conflicts x Hx) as (A1 & A2 & A3 & A4 & A5 & A6).
  set (xa := (remove_handles conflicts x).2) in *.
  destruct (apply_rebindings_spec rebindings xa A2 Hnd1) as (B1 & B2 & B3 & B4 & B5 & B6 & B7).
  { intros h i Hin. rewrite A6. rewrite bool_decide_false; [by apply (Hall h i)|].
    intros (l & _ & Ht)%elem_of_handles_where. bool_to_prop.
    match goal with Hn : h ∉ _ |- _ => apply Hn end. apply list_elem_of_fmap. by exists (h, i). }
  set (xb := (apply_rebindings rebindings xa).2) in *.
  set (removed := handles_where (λ _ i, negb (bool_decide (is_Some (by_id !! i)))) (state xb)).
  destruct (remove_handles_spec removed xb B2) as (C1 & C2 & C3 & C4 & C5 & C6).
  set (xc := (remove_handles removed xb).2) in *.
  assert (rebound rebindings by_id (loc x) (loc xc)) as Hreb.
  { split.
    - intros h i Hin. rewrite C6, (B6 h i) by done. rewrite bool_decide_false; [done|].
      intros (l & El & Ht)%elem_of_handles_where. rewrite (B6 h i) in El by done. simplify_eq.
      cbn [locator_id] in Ht. rewrite bool_decide_true in Ht by (by apply (Hall h i)). done.
    - intros h Hh. rewrite C6, B7, A6 by done. unfold removed, conflicts.
      destruct (loc x !! h) as [l|] eqn:El; cbv beta in El;
        [|by repeat case_bool_decide].
      assert (h ∈ conflicts ↔ locator_id l ∈ rebindings.*2) as Hc.
      { unfold conflicts. rewrite elem_of_handles_where. split.
        - intros (l' & El' & Ht). rewrite El in El'. simplify_eq. bool_to_prop. done.
        - intros Hin. exists l. split; [done|]. rewrite bool_decide_true by done.
          by rewrite bool_decide_false. }
      fold conflicts. rewrite (bool_decide_ext _ _ Hc).
      destruct (bool_decide (locator_id l ∈ rebindings.*2)) eqn:Eb; [by repeat case_match|].
      assert (loc xb !! h = Some l) as Exb.
      { cbv beta. rewrite B7, A6, (bool_decide_ext _ _ Hc), Eb by done. done. }
      assert (h ∈ removed ↔ ¬ is_Some (by_id !! locator_id l)) as Hr.
      { unfold removed. rewrite elem_of_handles_where. split.
        - intros (l' & El' & Ht). cbv beta in Exb. rewrite Exb in El'. simplify_eq. by bool_to_prop.
        - intros Hn. exists l. split; [exact Exb|]. by rewrite bool_decide_false. }
      fold removed. rewrite (bool_decide_ext _ _ Hr). by repeat case_bool_decide. }
  exists xc. split_and!; [split; [done|]|congruence..|done|].
  - by eapply rebound_inj.
  - intros k. rewrite sm_bind_unfold. unfold gets. fold conflicts.
    rewrite sm_bind_unfold, A1, sm_bind_unfold, B1, sm_bind_unfold. fold removed.
    by rewrite sm_bind_unfold, C1.
Qed.

#[local] Instance located_dec (m : gmap Z TokenObjectLocator) l : Decision (∃ h, m !! h = Some l).
Proof.
  destruct (decide (l ∈ (map_to_list m).*2)) as [Hin|Hin]; [left|right].
  - apply list_elem_of_fmap in Hin as ([h l'] & -> & Hin). exists h. by apply elem_of_map_to_list.
  - intros [h Hh]. apply Hin, list_elem_of_fmap. exists (h, l). split; [done|].
    by apply elem_of_map_to_list.
Defined.

Lemma elem_of_new_unique_ids by_id (s : SlotState P) i :
  i ∈ new_unique_ids by_id s ↔
  is_Some (by_id !! i) ∧ ∀ h, token_object_handles s !! h ≠ Some (mkLocator i).
Proof.
  unfold new_unique_ids. rewrite merge_sort_Permutation, list_elem_of_In, filter_In, <- list_elem_of_In.
  rewrite negb_true_iff, bool_decide_eq_false, !list_elem_of_fmap. split.
  - intros [([i' o] & -> & Hin) Hn]. apply elem_of_map_to_list in Hin. split; [by eexists|].
    intros h E. apply Hn. exists (h, mkLocator i'). split; [done|]. by apply elem_of_map_to_list.
  - intros [[o Ho] Hn]. split; [exists (i, o); split; [done|]; by apply elem_of_map_to_list|].
    intros ([h [i']] & E & Hin). apply elem_of_map_to_list in Hin. cbn in E. subst. by eapply Hn.
Qed.

Lemma NoDup_new_unique_ids by_id (s : SlotState P) : NoDup (new_unique_ids by_id s).
Proof.
  unfold new_unique_ids. rewrite merge_sort_Permutation. apply NoDup_ListNoDup, List.NoDup_filter.
  apply NoDup_ListNoDup, NoDup_fst_map_to_list.
Qed.

(** The effect of reconciliation on the handles of a slot. *)
Definition reconciled (objs : list TokenObject) (rebindings : list (Z * list Z)) (x y : Ctx) : Prop :=
  (∀ i, (∃ h, loc y !! h = Some (mkLocator i)) ↔ has_token_object objs i) ∧
  (∀ h i, (h, i) ∈ rebindings → loc y !! h = Some (mkLocator i)) ∧
  (∀ h i, loc x !! h = Some (mkLocator i) → h ∉ rebindings.*1 → i ∉ rebindings.*2 →
     has_token_object objs i → loc y !! h = Some (mkLocator i)) ∧
  (∀ h i, loc y !! h = Some (mkLocator i) → loc x !! h = None →
     ¬ handle_below (next_object (handles x)) h).

Lemma reconcile_spec id objs rebindings (x y : Ctx) r :
  ctx_wf x → NoDup rebindings.*1 → NoDup rebindings.*2 →
  reconcile_slot_token_objects_with_rebindings id objs rebindings x = (r, y) →
  ctx_wf y ∧ slot_id (state y) = slot_id (state x) ∧ (r = Ok tt → reconciled objs rebindings x y).
Proof.
  intros Hx Hn1 Hn2. unfold reconcile_slot_token_objects_with_rebindings.
  unfold require_slot_id. rewrite !sm_bind_unfold. unfold gets at 1, guard_err.
  destruct (negb (id =? _)); [intros E; simplify_eq; (split; [exact Hx|]); (split; [done|discriminate])|].
  rewrite sm_bind_unfold. unfold sm_lift.
  destruct (index_objects objs ∅) as [by_id|] eqn:Eidx; cbn [ok_or];
    [|intros E; simplify_eq; (split; [exact Hx|]); (split; [done|discriminate])].
  rewrite sm_bind_unfold.
  destruct (check_rebindings by_id rebindings x) as [rc xc] eqn:Ec.
  apply check_rebindings_spec in Ec as [-> Hc].
  destruct rc as [[]|e|]; [|intros E; simplify_eq; (split; [exact Hx|]); (split; [done|discriminate])..].
  destruct (reconcile_rebound rebindings by_id x Hx Hn1 Hn2 (Hc eq_refl))
    as (x1 & W1 & E1 & E2 & [R1 R2] & ->).
  rewrite sm_bind_unfold. unfold gets. intros E.
  eapply add_handles_spec in E as (A1 & A2 & A3 & A4 & A5);
    [|done|apply NoDup_new_unique_ids|by intros i h [_ Hne]%elem_of_new_unique_ids].
  split; [done|]. split; [congruence|]. intros ->. specialize (A5 eq_refl).
  destruct (index_objects_spec _ _ _ Eidx) as [Hidx _].
  assert (∀ i, is_Some (by_id !! i) ↔ has_token_object objs i) as Hid.
  { intros i. rewrite Hidx, lookup_empty. split; [|by right]. by intros [[? ?]|?]. }
  assert (∀ h i, loc x1 !! h = Some (mkLocator i) → is_Some (by_id !! i)) as Hx1.
  { intros h i El. destruct (decide (h ∈ rebindings.*1)) as [Hin|Hin].
    - apply list_elem_of_fmap in Hin as ([h' j] & -> & Hin). cbn [fst] in *.
      rewrite (R1 h' j Hin) in El. simplify_eq. by apply (Hc eq_refl h' i).
    - rewrite R2 in El by done. destruct (loc x !! h) as [l|]; [|done].
      do 2 (case_bool_decide; [try done|try done]). simplify_eq. done. }
  split_and!.
  - intros i. rewrite <- Hid. split.
    + intros [h El]. apply A4 in El as [El|[Hin _]]; [by eapply Hx1|].
      by apply elem_of_new_unique_ids in Hin as [? _].
    + intros Hi. destruct (decide (i ∈ new_unique_ids by_id (state x1))) as [Hin|Hin]; [by apply A5|].
      apply dec_stable. intros Hne. apply Hin, elem_of_new_unique_ids. split; [done|].
      intros h El. apply Hne. exists h. by apply A3.
  - intros h i Hin. by apply A3, R1.
  - intros h i El Hh Hi Ho. apply A3. rewrite R2 by done. rewrite El. cbn [locator_id].
    by rewrite bool_decide_false, bool_decide_true by (done || by apply Hid).
  - intros h i El En Hb. apply A4 in El as [El|[_ Hnb]].
    + destruct (decide (h ∈ rebindings.*1)) as [Hin|Hin].
      * apply list_elem_of_fmap in Hin as ([h' j] & -> & Hin). cbn [fst] in *.
        apply (Hc eq_refl) in Hin as [[? Hs] _]. congruence.
      * rewrite R2, En in El by done. done.
    + rewrite E1 in Hnb. done.
Qed.
End reconcile_theorems.

(** *** Every operation keeps the handle invariant *)

Section preservation.
Context {B P : Type} `{Slot B} `{StorageProvider P} `{Sha3, MiniCbor} `{BackedObjects}.
Abbreviation Ctx := (SlotContext B P).
Abbreviation M := (SM Ctx Error).

Lemma preserves_reconcile id objs rebindings :
  NoDup rebindings.*1 → NoDup rebindings.*2 →
  preserves ctx_wf (reconcile_slot_token_objects_with_rebindings id objs rebindings : M _).
Proof.
  intros Hn1 Hn2 x Hx.
  destruct (reconcile_slot_token_objects_with_rebindings id objs rebindings x) as [r y] eqn:E.
  by eapply reconcile_spec in E as (Hy & _).
Qed.

Lemma preserves_refresh_with id rebindings :
  NoDup rebindings.*1 → NoDup rebindings.*2 →
  preserves ctx_wf (refresh_slot_token_objects_with_rebindings id rebindings : M _).
Proof.
  intros Hn1 Hn2. unfold refresh_slot_token_objects_with_rebindings.
  do 4 (apply preserves_bind; [apply keeps_preserves; auto with core_keep|intros ?]).
  by apply preserves_reconcile.
Qed.

Lemma preserves_refresh id : preserves ctx_wf (refresh_slot_token_objects id : M _).
Proof. apply preserves_refresh_with; constructor. Qed.

Lemma preserves_remove_handle h : preserves ctx_wf (modify_state (remove_object_handle h) : M _).
Proof.
  intros x [Hx Hi]. split; [by apply wf_remove_object_handle|].
  intros k k' l. cbn [modify_state snd state token_object_handles remove_object_handle].
  rewrite !lookup_delete_Some. intros [_ E] [_ E']. by eapply Hi.
Qed.

Lemma preserves_store_backed_object k o : preserves ctx_wf (store_backed_object k o : M _).
Proof.
  unfold store_backed_object. apply preserves_bind.
  { destruct (token o); [apply keeps_preserves; auto with core_keep|apply preserves_with_session_storage]. }
  intros reference. apply preserves_bind; [by apply keeps_preserves|]. intros own.
  destruct (token o).
  - apply preserves_bind; [apply keeps_preserves; auto with core_keep|intros _].
    apply preserves_bind; [apply preserves_refresh|intros _].
    repeat (apply preserves_bind; [apply keeps_preserves; auto with core_keep|intros ?]).
    by apply keeps_preserves.
  - apply preserves_bind; [apply preserves_insert_object|intros h].
    apply preserves_bind; [apply keeps_preserves; auto with core_keep|intros _]. by apply keeps_preserves.
Qed.

Lemma preserves_delete_backed b o r : preserves ctx_wf (delete_backed b o r : M _).
Proof.
  unfold delete_backed. destruct b; [apply keeps_preserves; auto with core_keep|].
  apply preserves_bind; [by apply keeps_preserves|intros c]. apply preserves_with_session_storage.
Qed.

Lemma preserves_destroy_backed_object h o : preserves ctx_wf (destroy_backed_object h o : M _).
Proof.
  unfold destroy_backed_object. apply preserves_bind; [by apply keeps_preserves|intros [reference|]];
    [|by apply keeps_preserves].
  apply preserves_bind; [by apply keeps_preserves|intros shared].
  apply preserves_bind.
  { destruct shared; [by apply keeps_preserves|apply preserves_delete_backed]. }
  intros deleted. apply preserves_bind; [by apply keeps_preserves|intros _].
  apply preserves_bind; [apply keeps_preserves, keeps_backed; intros s; by eexists _, _, _|intros _].
  apply preserves_bind; [|intros _; by apply keeps_preserves].
  destruct (token o); [|apply preserves_remove_handle].
  apply preserves_bind; [by apply keeps_preserves|intros own]. apply preserves_refresh.
Qed.

Lemma preserves_insert_each id k objs : preserves ctx_wf (insert_each id k objs : M _).
Proof.
  induction objs as [|o objs IH]; [by apply keeps_preserves|]. cbn [insert_each].
  apply preserves_bind; [by apply keeps_preserves|intros []]; [exact IH|].
  apply preserves_bind; [apply preserves_insert_object|intros _; exact IH].
Qed.

Lemma preserves_insert_session_objects id k : preserves ctx_wf (insert_session_objects id k : M _).
Proof.
  unfold insert_session_objects. apply preserves_bind; [apply keeps_preserves; auto with core_keep|intros _].
  apply preserves_bind; [apply keeps_preserves; auto with core_keep|intros objs].
  apply preserves_insert_each.
Qed.

Lemma preserves_init_token pin label : preserves ctx_wf (SlotState_init_token pin label : M _).
Proof.
  unfold SlotState_init_token.
  do 5 (apply preserves_bind; [apply keeps_preserves; auto with core_keep|intros ?]).
  apply preserves_refresh.
Qed.

Lemma preserves_logout_slot id : preserves ctx_wf (logout_slot id : M _).
Proof.
  unfold logout_slot.
  do 6 (apply preserves_bind; [apply keeps_preserves; auto with core_keep|intros ?]).
  apply preserves_bind; [apply preserves_clear_login_state|intros ?].
  do 2 (apply preserves_bind; [apply keeps_preserves; auto with core_keep|intros ?]).
  destruct a7; [apply preserves_refresh|by apply keeps_preserves].
Qed.

Lemma with_session_storage_memory {A} k (c : SM MemoryStorageProvider Error A) (x : Ctx) :
  memory_objects (state (with_session_storage k c x).2) = memory_objects (state x).
Proof.
  unfold with_session_storage. rewrite sm_bind_unfold.
  pose proof (keeps_get_session_context k x) as (_ & _ & _ & Hm & _).
  destruct (get_session_context k x) as [[s|e|] y]; [|done|done].
  destruct (c (storage s)) as [r m]. exact Hm.
Qed.

(** Replacing a session object under its handle, or a token object by rebinding
    its handle. *)
Lemma preserves_replace_token h previous replacement :
  token replacement = true → preserves ctx_wf (replace_backed_object h previous replacement : M _).
Proof.
  intros Ht. unfold replace_backed_object. rewrite Ht.
  apply preserves_bind; [by apply keeps_preserves|intros [reference|]]; [|by apply keeps_preserves].
  apply preserves_bind; [apply keeps_preserves; auto with core_keep|intros new].
  apply preserves_bind; [by apply keeps_preserves|intros shared].
  apply preserves_bind.
  { destruct (_ && _); [|by apply keeps_preserves].
    apply preserves_bind; [apply preserves_delete_backed|intros ?; by apply keeps_preserves]. }
  intros _. apply preserves_bind.
  { apply keeps_preserves, keeps_backed. intros s. by eexists _, _, _. }
  intros _. apply preserves_bind; [apply keeps_preserves; auto with core_keep|intros _].
  apply preserves_bind; [by apply keeps_preserves|intros own].
  apply preserves_bind; [|intros _; by apply keeps_preserves].
  do 3 (apply preserves_bind; [apply keeps_preserves; auto with core_keep|intros ?]).
  apply preserves_reconcile; apply NoDup_singleton.
Qed.

Lemma preserves_replace_session h previous replacement :
  token replacement = false →
  preserves (λ x, ctx_wf x ∧ is_Some (memory_objects (state x) !! h))
    (replace_backed_object h previous replacement : M _).
Proof.
  intros Ht. set (I x := ctx_wf x ∧ is_Some (memory_objects (state x) !! h)).
  assert (∀ A (c : M A), keeps_core c → preserves I c) as Hk.
  { intros A c Hc x [Hx Hm]. split; [by apply keeps_preserves|].
    specialize (Hc x) as (_ & _ & _ & -> & _). done. }
  assert (∀ A k (c : SM MemoryStorageProvider Error A), preserves I (with_session_storage k c)) as Hs.
  { intros A k c x [Hx Hm]. split; [by apply preserves_with_session_storage|].
    by rewrite with_session_storage_memory. }
  unfold replace_backed_object. rewrite Ht.
  apply preserves_bind; [by apply Hk|intros [reference|]]; [|by apply Hk].
  apply preserves_bind; [apply preserves_bind; [by apply Hk|intros ?; apply Hs]|intros new].
  apply preserves_bind; [by apply Hk|intros shared].
  apply preserves_bind.
  { destruct (_ && _); [|by apply Hk]. apply preserves_bind; [|intros ?; by apply Hk].
    unfold delete_backed. apply preserves_bind; [by apply Hk|intros ?; apply Hs]. }
  intros _. apply preserves_bind; [by apply Hk|intros _].
  apply preserves_bind; [apply Hk; auto with core_keep|intros _].
  apply preserves_bind; [by apply Hk|intros own].
  apply preserves_bind; [|intros _; by apply Hk].
  apply preserves_bind; [by apply Hk|intros creator].
  intros x [[Hx Hi] Hm]. split; [split; [|done]|].
  - by apply wf_parts_replace.
  - cbn [modify_state snd state memory_objects set_memory]. rewrite lookup_insert_eq. by eexists.
Qed.

(** C4: The handle invariant. If every object and session handle of a slot was
    given out by the shared counters, session objects and token objects use
    different handles, no two handles name one token object, and every handle a
    find operation has still to return names an existing object, then all of
    this still holds after storing, destroying or replacing backed objects,
    importing session objects, inserting an object, removing a handle, refreshing
    the token's objects, initialising the token, losing the login or logging out,
    whether the operation succeeds or fails half way. *)
Theorem slot_operations_keep_handles_valid (x : Ctx) (id k h : Z) (o previous replacement : TokenObject)
    (pin label : list Z) :
  ctx_wf x →
  (token replacement = false → is_Some (memory_objects (state x) !! h)) →
  ctx_wf (insert_object o x).2 ∧
  ctx_wf (store_backed_object k o x).2 ∧
  ctx_wf (destroy_backed_object h o x).2 ∧
  ctx_wf (replace_backed_object h previous replacement x).2 ∧
  ctx_wf (insert_session_objects id k x).2 ∧
  ctx_wf (modify_state (remove_object_handle h) x).2 ∧
  ctx_wf (refresh_slot_token_objects id x).2 ∧
  ctx_wf (SlotState_init_token pin label x).2 ∧
  ctx_wf (reconcile_login_state id x).2 ∧
  ctx_wf (logout_slot id x).2.
Proof.
  intros Hx Hh. split; [by apply preserves_insert_object|].
  split; [by apply preserves_store_backed_object|].
  split; [by apply preserves_destroy_backed_object|].
  split; [destruct (token replacement) eqn:Et;
    [by apply preserves_replace_token|by apply preserves_replace_session; auto]|].
  split; [by apply preserves_insert_session_objects|].
  split; [by apply preserves_remove_handle|].
  split; [by apply preserves_refresh|].
  split; [by apply preserves_init_token|].
  split; [by apply preserves_reconcile_login_state|by apply preserves_logout_slot].
Qed.

(** C5: Object handles are stable. Reconciling the handles of a slot with the
    objects its token holds now (none of them rebound twice) gives every token
    object exactly one handle, keeps the handle of every object that is still
    there, moves a rebound handle to its new object, and gives a new object a
    handle that was never used before. *)
Theorem reconcile_handles_stable (x y : Ctx) (id : Z) (objs : list TokenObject)
    (rebindings : list (Z * list Z)) :
  ctx_wf x → NoDup rebindings.*1 → NoDup rebindings.*2 →
  reconcile_slot_token_objects_with_rebindings id objs rebindings x = (Ok tt, y) →
  ctx_wf y ∧ reconciled objs rebindings x y.
Proof. intros Hx Hn1 Hn2 E. apply reconcile_spec in E as (Hy & _ & Hr); auto. Qed.
End preservation.

(** ** Find cursors and handle counters *)

(** A find operation neither skips nor repeats an object when another object
    is destroyed in the middle: in every session, the handles still to be
    returned are the old ones without the removed handle, so are the ones
    already returned, and the cursor stays inside the list. *)
Theorem remove_keeps_find_position {P} (s : SlotState P) (h k : Z) (session : SessionContext)
    (op : FindOperation) :
  sessions s !! k = Some session → find_operation session = Some op →
  0 ≤ next op ≤ len (objects op) →
  ∃ session' op',
    sessions (remove_object_handle h s) !! k = Some session' ∧ find_operation session' = Some op' ∧
    0 ≤ next op' ≤ len (objects op') ∧
    pending op' = List.filter (λ c, negb (c =? h)) (pending op) ∧
    returned op' = List.filter (λ c, negb (c =? h)) (returned op).
Proof.
  intros Es Eo Hr. eexists _, (drop_from_find h op). split_and!; try by apply drop_from_find_spec.
  - cbn [sessions remove_object_handle]. rewrite lookup_fmap, Es. done.
  - cbn [find_operation set_find]. by rewrite Eo.
Qed.

(** [k] allocations in a row. *)
Fixpoint allocate_run (k : nat) (counter : Z) : list (outcome Error Z) :=
  match k with
  | O => []
  | S k' => let '(r, counter') := allocate_handle counter in r :: allocate_run k' counter'
  end.

(** Handles are never reused: allocations return consecutive numbers from the
    counter up to the largest [CK_ULONG], each once, and when they are used up
    every further allocation fails with [CKR_HOST_MEMORY] instead of wrapping
    around to a handle in use. *)
Theorem handles_never_reused (k : nat) (n : Z) (i : nat) :
  0 < n ≤ CK_ULONG_MAX → (i < k)%nat →
  allocate_run k n !! i =
    Some (if n + Z.of_nat i <=? CK_ULONG_MAX then Ok (n + Z.of_nat i) else Err #CKR_HOST_MEMORY).
Proof.
  unfold CK_ULONG_MAX, U64_MAX.
  assert (∀ k i, (i < k)%nat → allocate_run k 0 !! i = Some (Err #CKR_HOST_MEMORY)) as Hdone.
  { intros k'. induction k' as [|k' IH]; intros [|j] Hj; try lia; [done|]. apply IH. lia. }
  revert n i. induction k as [|k IH]; intros n i Hn Hi; [lia|]. cbn [allocate_run].
  unfold allocate_handle, CK_ULONG_MAX, U64_MAX.
  test_false (n =? 0). test_false (2 ^ 64 - 1 <? n). cbn [orb].
  destruct i as [|i].
  - cbn [lookup list_lookup]. rewrite Z.add_0_r. by test_true (n <=? 2 ^ 64 - 1).
  - change ((Ok n :: allocate_run k ((n + 1) mod 2 ^ 64)) !! S i)
      with (allocate_run k ((n + 1) mod 2 ^ 64) !! i).
    destruct (decide (n = 2 ^ 64 - 1)) as [->|Hne].
    + replace ((2 ^ 64 - 1 + 1) mod 2 ^ 64) with 0 by done. rewrite Hdone by lia.
      rewrite (proj2 (Z.leb_gt _ _)); [done|]. lia.
    + rewrite Z.mod_small by lia. rewrite IH by lia.
      by replace (n + 1 + Z.of_nat i) with (n + Z.of_nat (S i)) by lia.
Qed.

(** ** Invariants of a refresh

    A property that does not depend on the backend, the stores, the backed
    objects and the object counter, and that survives removing handles and
    changing locators, survives a refresh. *)
Section refresh_invariant.
Context {B P : Type} `{Slot B} `{StorageProvider P} `{Sha3, MiniCbor} `{BackedObjects}.
Abbreviation Ctx := (SlotContext B P).
Abbreviation M := (SM Ctx Error).
Context (J : Ctx → Prop).
Hypothesis J_slot : ∀ x b, J x → J (mkContext b (state x) (handles x)).
Hypothesis J_storage : ∀ x p, J x → J (mkContext (slot x) (set_token_storage p (state x)) (handles x)).
Hypothesis J_backed : ∀ x t r h, J x → J (mkContext (slot x) (set_backed t r h (state x)) (handles x)).
Hypothesis J_remove : ∀ x h, J x → J (mkContext (slot x) (remove_object_handle h (state x)) (handles x)).
Hypothesis J_locators : ∀ x l, J x → J (mkContext (slot x) (set_locators l (state x)) (handles x)).
Hypothesis J_counter : ∀ x n, J x → J (mkContext (slot x) (state x) (mkCounters n (next_session (handles x)))).

Lemma J_on_slot {A} (c : SM B Error A) : preserves J (on_slot c).
Proof. intros x Hx. unfold on_slot. destruct (c (slot x)). by apply J_slot. Qed.

Lemma J_with_token_storage {A} (f : ∀ Q, StorageProvider Q → SM Q Error A) :
  preserves J (with_token_storage f : M A).
Proof.
  intros x Hx. unfold with_token_storage. destruct (has_native_storage _); [by apply J_on_slot|].
  destruct (f P _ _). by apply J_storage.
Qed.

Lemma J_remove_handles hs : preserves J (remove_handles hs : M unit).
Proof.
  intros x Hx. unfold remove_handles, modify_state. cbn [snd]. destruct x as [b s c].
  cbn [slot state handles]. revert s Hx. induction hs as [|h hs IH]; intros s Hx; [done|]. cbn [foldl].
  apply IH. by apply (J_remove (mkContext b s c)).
Qed.

Lemma J_check rebindings by_id : preserves J (check_rebindings by_id rebindings : M unit).
Proof.
  intros x Hx. destruct (check_rebindings by_id rebindings x) as [r y] eqn:E.
  by apply check_rebindings_spec in E as [-> _].
Qed.

Lemma J_rebind rebindings : preserves J (apply_rebindings rebindings : M unit).
Proof.
  induction rebindings as [|[h i] rest IH]; [by intros x Hx|]. cbn [apply_rebindings].
  apply preserves_bind; [by intros x Hx|intros ?]. apply preserves_bind; [apply preserves_lift|intros ?].
  apply preserves_bind; [intros x Hx; by apply J_locators|intros ?; exact IH].
Qed.

Lemma J_add ids : preserves J (add_handles ids : M unit).
Proof.
  induction ids as [|i rest IH]; [by intros x Hx|]. cbn [add_handles].
  apply preserves_bind.
  { intros x Hx. unfold allocate_object. destruct (allocate_handle _). by apply J_counter. }
  intros h. apply preserves_bind; [intros x Hx; by apply J_locators|intros ?; exact IH].
Qed.

Lemma refresh_invariant id : preserves J (refresh_slot_token_objects id : M unit).
Proof.
  assert (∀ A (f : SlotState P → A), preserves J (gets f : M A)) as Hg by by intros A f x Hx.
  assert (preserves J (require_slot_id id : M unit)) as Hreq.
  { apply preserves_bind; [apply Hg|intros ?; apply preserves_guard]. }
  unfold refresh_slot_token_objects, refresh_slot_token_objects_with_rebindings.
  apply preserves_bind; [exact Hreq|intros _].
  apply preserves_bind; [apply J_on_slot|intros objs].
  apply preserves_bind.
  { unfold stored_token_objects. apply preserves_bind; [by intros x Hx|intros []]; [by intros x Hx|].
    apply preserves_bind; [apply Hg|intros own]. apply J_with_token_storage. }
  intros stored. apply preserves_bind; [intros x Hx; by apply J_backed|].
  intros _. unfold reconcile_slot_token_objects_with_rebindings.
  apply preserves_bind; [exact Hreq|intros _].
  apply preserves_bind; [apply preserves_lift|intros by_id].
  apply preserves_bind; [apply J_check|intros _].
  apply preserves_bind; [apply Hg|intros conflicts].
  apply preserves_bind; [apply J_remove_handles|intros _].
  apply preserves_bind; [apply J_rebind|intros _].
  apply preserves_bind; [apply Hg|intros removed].
  apply preserves_bind; [apply J_remove_handles|intros _].
  apply preserves_bind; [apply Hg|intros ids]. apply J_add.
Qed.
End refresh_invariant.

(** ** Logout *)

Section logout.
Context {B P : Type} `{Slot B} `{StorageProvider P} `{Sha3, MiniCbor} `{BackedObjects}.
Abbreviation Ctx := (SlotContext B P).
Abbreviation M := (SM Ctx Error).

(** Nobody is logged in, no session has an operation in progress, and the
    objects in memory are among [mem]. *)
Definition logged_out (mem : gmap Z TokenObject) (x : Ctx) : Prop :=
  login_role (state x) = None ∧ memory_objects (state x) ⊆ mem ∧
  ∀ k s, sessions (state x) !! k = Some s → s = clear_operations s.

Lemma logged_out_remove mem (x : Ctx) h :
  logged_out mem x → logged_out mem (mkContext (slot x) (remove_object_handle h (state x)) (handles x)).
Proof.
  intros (L1 & L2 & L3). split_and!; [done| |].
  - cbn [state memory_objects remove_object_handle]. etrans; [apply delete_subseteq|done].
  - cbn [state sessions remove_object_handle]. intros k s E. rewrite lookup_fmap in E.
    apply fmap_Some in E as (s0 & E0 & ->). apply L3 in E0. by rewrite E0.
Qed.

Lemma logged_out_refresh mem id : preserves (logged_out mem) (refresh_slot_token_objects id : M unit).
Proof. apply refresh_invariant; [done..|apply logged_out_remove|done|done]. Qed.

Lemma clear_login_state_logged_out id (x : Ctx) :
  id = slot_id (state x) →
  logged_out (retain_public (memory_objects (state x))) (clear_login_state id x).2.
Proof.
  intros ->. unfold clear_login_state. rewrite Z.eqb_refl. cbn [negb snd]. split_and!; [done..|].
  cbn [state sessions set_memory set_sessions]. intros k s E. rewrite lookup_fmap in E.
  by apply fmap_Some in E as (s0 & _ & ->).
Qed.

(** C6: Logging out leaves nothing behind. Once the backend has accepted the
    logout (whether the refresh of the token's objects that follows succeeds or
    fails), no role is recorded, no session has an operation in progress, and no
    private session object remains in memory; the public objects that remain are
    unchanged. *)
Theorem logout_clears_private_state (x y : Ctx) (id : Z) (role : LoginRole) (b1 b2 : B)
    (r : outcome Error unit) :
  slot_login_role id x = (Ok (Some role), x) → id = slot_id (state x) →
  logout_role role (slot x) = (Ok tt, b1) → set_login_role None b1 = (Ok tt, b2) →
  logout_slot id x = (r, y) →
  login_role (state y) = None ∧
  (∀ k s, sessions (state y) !! k = Some s → s = clear_operations s) ∧
  (∀ h o, memory_objects (state y) !! h = Some o →
     memory_objects (state x) !! h = Some o ∧ (token o = true ∨ private o = false)).
Proof.
  intros Er Hid E1 E2 E.
  set (x2 := mkContext b2 (state x) (handles x)).
  assert (logout_slot id x = (let! _ := clear_login_state id in let! _ := get_slot id in
    let! again := asks refresh_token_objects_after_logout in
    if (again : bool) then refresh_slot_token_objects id else sm_ret tt) x2) as Eq.
  { unfold logout_slot. rewrite sm_bind_unfold, Er, sm_bind_unfold. cbn [ok_or sm_lift].
    unfold get_slot, require_slot_id. rewrite Hid.
    rewrite !sm_bind_unfold. unfold gets, guard_err. rewrite Z.eqb_refl. cbn [negb].
    rewrite sm_bind_unfold. unfold on_slot at 1. rewrite E1, sm_bind_unfold.
    rewrite sm_bind_unfold. cbn [state]. rewrite Z.eqb_refl. cbn [negb].
    rewrite sm_bind_unfold. unfold on_slot at 1. cbn [slot state handles]. by rewrite E2. }
  rewrite Eq in E. clear Eq.
  assert (logged_out (retain_public (memory_objects (state x))) y) as (L1 & L2 & L3).
  { rewrite sm_bind_unfold in E.
    pose proof (clear_login_state_logged_out id x2 Hid) as Hc.
    destruct (clear_login_state id x2) as [[u|e|] x3] eqn:Ec; cbn [snd] in Hc;
      [|by simplify_eq|by simplify_eq].
    change y with (r, y).2. rewrite <- E.
    apply (preserves_bind (logged_out _)); [|intros _|exact Hc].
    { unfold get_slot. apply preserves_bind; [by intros z Hz|intros ?; apply preserves_guard]. }
    apply preserves_bind; [by intros z Hz|intros []]; [apply logged_out_refresh|by intros z Hz]. }
  split_and!; [done..|]. intros h o Eo. eapply lookup_weaken in Eo; [|exact L2].
  apply map_lookup_filter_Some in Eo as [Eo Hp]. split; [done|].
  destruct (token o); [by left|right]. cbn [orb] in Hp. by destruct (private o).
Qed.
End logout.

(** ** A concrete backend for the witnesses *)

(** A token with a list of objects and a login flag. *)
Record ToyBackend : Type := mkToy {
  toy_objects : list TokenObject;
  toy_active : bool;
  toy_role : option LoginRole;
}.

#[export] Instance toy_no_storage : StorageProvider ToyBackend := {|
  supports_mutation _ := false;
  provider_list := sm_err Unavailable;
  provider_get _ := sm_err Unavailable;
  provider_put _ := sm_err Unavailable;
  provider_delete _ := sm_err Unavailable;
|}.

#[export] Instance toy_slot : Slot ToyBackend := {|
  is_present _ := true;
  slot_flags _ := CKF_TOKEN_PRESENT;
  login_is_active := toy_active;
  backend_session_is_active := toy_active;
  supports_login_user _ := false;
  login_user_uses_token_objects _ _ := false;
  refresh_token_objects_before_find _ := false;
  refresh_token_objects_after_login _ := true;
  refresh_token_objects_after_logout _ := true;
  native_storage_objects_are_backend_managed _ := false;
  has_native_storage _ := false;
  native_storage := toy_no_storage;
  clear_lost_login b := mkToy (toy_objects b) false None;
  clear_session b := mkToy (toy_objects b) false None;
  invalidate_token_objects b := b;
  set_public_certificate_storage_enabled _ b := b;
  profile_objects _ _ := [];
  slot_open_session id fl b := (mkBackendSession id fl, b);
  refresh := sm_ret tt;
  token_objects _ := sm_gets toy_objects;
  token_object _ id := sm_gets (λ b, List.find (λ o, bool_decide (unique_id o = id)) (toy_objects b));
  session_objects _ := sm_ret [];
  slot_init_token _ _ := sm_modify (λ b, mkToy [] false None);
  init_user_pin _ := sm_ret tt;
  slot_set_pin _ _ := sm_ret tt;
  set_so_pin _ _ := sm_ret tt;
  slot_login pin := if bool_decide (pin = Some [49]) then sm_modify (λ b, mkToy (toy_objects b) true None)
                    else sm_err #CKR_PIN_INCORRECT;
  login_so pin := if bool_decide (pin = Some [48]) then sm_modify (λ b, mkToy (toy_objects b) true None)
                  else sm_err #CKR_PIN_INCORRECT;
  slot_login_user _ _ _ _ := sm_err #CKR_FUNCTION_NOT_SUPPORTED;
  login_context_specific _ _ _ := sm_ret None;
  logout_role _ := sm_modify (λ b, mkToy (toy_objects b) false (toy_role b));
  set_login_role r := sm_modify (λ b, mkToy (toy_objects b) (toy_active b) r);
  session_get_info _ := sm_ret tt;
  delete_session_object _ _ := sm_ret [];
  has_ccid_login_connector _ := false;
  secure_channel_required _ := false;
  prepare_secure_channel_login := sm_ret tt;
  finish_secure_channel_login _ b := b;
  clear_secure_channel b := b;
|}.

#[export] Instance toy_slot_laws : SlotLaws ToyBackend.
Proof. done. Qed.

#[local] Existing Instance toy_sha3_core.
#[local] Existing Instance toy_cbor.

Definition toy_attributes (name : Z) : ObjectAttributes :=
  mkAttributes [name] [] false false false false false false false false false false None false
    KeyPolicyTemplates_default.

(** Every object is stored as one byte string holding its label. *)
#[export] Instance toy_backed : BackedObjects := {|
  encode_backed_object o := Ok (2 :: be32 1 ++ obj_label (attributes o), []);
  decode_backed_object _ _ id tok reference encoded :=
    sm_ret (Some (mkObject (Some id) (backed_object_unique_id reference) CKO_DATA 0 tok false false
                    false false false None None None None NoMaterial (toy_attributes (at_ encoded 5))));
|}.

Definition toy_token_object (name : Z) : TokenObject :=
  mkObject (Some 0) [name] CKO_PUBLIC_KEY 0 true false false false false false None None None None NoMaterial (toy_attributes name).
Definition toy_session_object (priv : bool) (name : Z) : TokenObject :=
  mkObject (Some 0) [] CKO_SECRET_KEY 0 false priv false false false false None (Some 1) None None NoMaterial (toy_attributes name).

(** A slot with memory storage, logged in, with one open session. *)
Definition toy_start : SlotContext ToyBackend MemoryStorageProvider :=
  mkContext (mkToy [toy_token_object 65; toy_token_object 66] true (Some User))
    (mkState 0 memory_new {[1 := SessionContext_new (mkBackendSession 0 6)]} (Some User) ∅ ∅ ∅ ∅ ∅)
    (mkCounters 1 2).

Lemma toy_start_wf : ctx_wf toy_start.
Proof.
  split; [split|].
  - done.
  - done.
  - intros h [[o Ho]|[l Hl]]; done.
  - intros k [s Hs]. cbn [state sessions toy_start] in Hs.
    apply lookup_singleton_Some in Hs as [<- _]. split; [done|]. by right.
  - intros h [o Ho]. done.
  - intros k s op Hs Ho. cbn [state sessions toy_start] in Hs.
    by apply lookup_singleton_Some in Hs as [_ <-].
  - intros h h' l Hl. done.
Qed.

(** After a refresh and after a private session object was created. *)
Definition toy_refreshed := (refresh_slot_token_objects 0 toy_start).2.
Definition toy_ctx := (insert_object (toy_session_object true 7) toy_refreshed).2.

Lemma toy_ctx_wf : ctx_wf toy_ctx.
Proof. apply preserves_insert_object, preserves_refresh, toy_start_wf. Qed.

Lemma slot_operations_keep_handles_valid_witness :
  ctx_wf (store_backed_object 1 (toy_token_object 67) toy_ctx).2 ∧
  (store_backed_object 1 (toy_token_object 67) toy_ctx).1 = Ok 4.
Proof.
  split.
  - refine (proj1 (proj2 (slot_operations_keep_handles_valid toy_ctx 0 1 3 (toy_token_object 67)
      (toy_token_object 67) (toy_token_object 67) [] [] toy_ctx_wf _))).
    intros E. discriminate E.
  - vm_compute. reflexivity.
Defined.

Lemma reconcile_handles_stable_witness :
  ∃ y, reconciled [toy_token_object 66; toy_token_object 67] [] toy_ctx y.
Proof.
  eexists. refine (proj2 (reconcile_handles_stable toy_ctx
    (reconcile_slot_token_objects_with_rebindings 0 [toy_token_object 66; toy_token_object 67] [] toy_ctx).2
    0 _ [] toy_ctx_wf _ _ _)); [constructor|constructor|].
  apply run_result. vm_compute. reflexivity.
Defined.

Definition toy_find : FindOperation := mkFind [1; 2; 4] 2.
Definition toy_find_session : SessionContext :=
  set_find (Some toy_find) (SessionContext_new (mkBackendSession 0 6)).
Definition toy_find_state : SlotState MemoryStorageProvider :=
  set_sessions {[1 := toy_find_session]} (state toy_start).

Lemma remove_keeps_find_position_witness :
  ∃ op', pending op' = [4] ∧ returned op' = [1].
Proof.
  destruct (remove_keeps_find_position toy_find_state 2 1 toy_find_session toy_find
    ltac:(vm_compute; reflexivity) eq_refl ltac:(done)) as (s & op' & _ & _ & _ & Hp & Hr).
  exists op'. split; [exact Hp|exact Hr].
Defined.

Lemma handles_never_reused_witness :
  allocate_run 3 (CK_ULONG_MAX - 1) !! 2%nat = Some (Err #CKR_HOST_MEMORY).
Proof. refine (handles_never_reused 3 (CK_ULONG_MAX - 1) 2 _ _); [done|lia]. Defined.

Lemma logout_clears_private_state_witness :
  login_role (state (logout_slot 0 toy_ctx).2) = None.
Proof.
  refine (proj1 (logout_clears_private_state toy_ctx (logout_slot 0 toy_ctx).2 0 User
    (mkToy (toy_objects (slot toy_ctx)) false (toy_role (slot toy_ctx)))
    (mkToy (toy_objects (slot toy_ctx)) false None) (Ok tt) _ _ _ _ _)).
  - vm_compute. reflexivity.
  - vm_compute. reflexivity.
  - vm_compute. reflexivity.
  - vm_compute. reflexivity.
  - apply run_result. vm_compute. reflexivity.
Defined.
