(* ===== verification/SessionApi.v ===== *)
(** * SessionApi: sessions, login and object search

    Models [src/src/api/session.rs], the search functions of
    [src/src/api/object.rs], the session registry of [src/src/context.rs]
    ([SlotContextRegistry]) and the functions of [src/src/lib.rs] that select
    the slot a call runs on.

    The module is the registry plus the slots and the shared handle counters.
    Every call holds the slot's mutex while it runs, so calls on one slot are a
    sequence. Device discovery, the operation lock of a device and the value of
    an object attribute are the class [Environment]. A pointer argument is the
    memory it points to, [None] when it is null. *)
From stdpp Require Import sorting.
From S2P Require Import Prelude Errors Mechanisms Storage SlotState.

(** ** The module *)

Record Module (B P : Type) : Type := mkModule {
  slots : gmap Z (B * SlotState P);
  session_slots : gmap Z Z;
  discovered : bool;
  counters : HandleCounters;
}.
Arguments mkModule {B P}.
Arguments slots {B P}.
Arguments session_slots {B P}.
Arguments discovered {B P}.
Arguments counters {B P}.

Class Environment (B P : Type) : Type := {
  discover : SM (Module B P) Error bool;
  slot_is_visible : B → bool;
  lock_operation : B → outcome Error unit;
  object_attribute_value : SlotContext B P → Z → Z → TokenObject → Z → outcome Error (option (list Z));
}.

(** ** Pointer arguments *)

(** [isize::MAX] of a platform with 64-bit pointers. *)
Definition ISIZE_MAX : Z := 2 ^ 63 - 1.
Definition valid_raw_slice_length (n : Z) : bool := n <=? ISIZE_MAX.

(** A byte pointer is always aligned; the memory behind it holds [n] bytes. *)
Definition from_raw_parts (ptr : option (list Z)) (n : Z) : outcome Error (list Z) :=
  if n =? 0 then Ok []
  else match ptr with
       | None => Err #CKR_ARGUMENTS_BAD
       | Some memory =>
           if negb (valid_raw_slice_length n) then Err #CKR_ARGUMENTS_BAD else Ok (ztake n memory)
       end.

Definition with_pin {S A} (pin : option (list Z)) (pin_len : Z) (use_pin : list Z → SM S Error A)
    : SM S Error A :=
  let! pin := sm_lift (from_raw_parts pin pin_len) in
  let! _ := guard_err (negb (utf8_valid pin)) #CKR_PIN_INVALID in
  use_pin pin.

Definition with_optional_pin {S A} (pin : option (list Z)) (pin_len : Z)
    (use_pin : option (list Z) → SM S Error A) : SM S Error A :=
  match pin with
  | None =>
      let! _ := guard_err (negb (pin_len =? 0)) #CKR_ARGUMENTS_BAD in
      use_pin None
  | Some _ => with_pin pin pin_len (λ pin, use_pin (Some pin))
  end.

(** ** Session states *)

Definition session_state (fl : Z) (role : option LoginRole) : Z :=
  match has_flag fl CKF_RW_SESSION, role with
  | _, Some So => CKS_RW_SO_FUNCTIONS
  | false, Some User => CKS_RO_USER_FUNCTIONS
  | true, Some User => CKS_RW_USER_FUNCTIONS
  | false, None => CKS_RO_PUBLIC_SESSION
  | true, None => CKS_RW_PUBLIC_SESSION
  end.

Record SessionInfo : Type := mkInfo {
  info_slot : Z; info_state : Z; info_flags : Z; info_device_error : Z;
}.

(** ** Code that runs on one slot *)

Section slot_code.
Context {B P : Type} `{Slot B} `{StorageProvider P} `{Sha3, MiniCbor} `{BackedObjects}
  `{Environment B P}.
Abbreviation Ctx := (SlotContext B P).
Abbreviation M := (SM Ctx Error).

Definition session_cancel_in (k fl : Z) : M unit := update_session k (cancel_operations fl).

Definition init_pin_in (k : Z) (pin : option (list Z)) (pin_len : Z) : M unit :=
  let! '(id, fl, _) := session_details k in
  let! _ := guard_err (negb (has_flag fl CKF_RW_SESSION)) #CKR_SESSION_READ_ONLY in
  let! _ := reconcile_login_state id in
  let! role := slot_login_role id in
  let! _ := guard_err (negb (bool_decide (role = Some So))) #CKR_USER_NOT_LOGGED_IN in
  with_pin pin pin_len (λ pin,
    let! _ := get_slot id in
    on_slot (init_user_pin pin)).

Definition set_pin_in (k : Z) (old_pin : option (list Z)) (old_len : Z)
    (new_pin : option (list Z)) (new_len : Z) : M unit :=
  let! '(id, fl, _) := session_details k in
  let! _ := guard_err (negb (has_flag fl CKF_RW_SESSION)) #CKR_SESSION_READ_ONLY in
  with_pin old_pin old_len (λ old_pin,
    with_pin new_pin new_len (λ new_pin,
      let! _ := reconcile_login_state id in
      let! role := slot_login_role id in
      let! _ :=
        match role with
        | None =>
            let! _ := get_slot id in
            let! connector := asks has_ccid_login_connector in
            let! required := asks secure_channel_required in
            guard_err (connector && required) #CKR_USER_NOT_LOGGED_IN
        | Some _ => sm_ret tt
        end in
      let! _ := get_slot id in
      match role with
      | Some So => on_slot (set_so_pin old_pin new_pin)
      | _ => on_slot (slot_set_pin old_pin new_pin)
      end)).

(** [open_session_inner], the part under the slot's lock: the checks, then the
    new session. *)
Definition open_session_checks (id fl : Z) (with_refresh : bool) : M unit :=
  let! _ := guard_err (negb (has_flag fl CKF_SERIAL_SESSION)) #CKR_SESSION_PARALLEL_NOT_SUPPORTED in
  let! _ := guard_err (has_flag fl CKF_ASYNC_SESSION) #CKR_SESSION_ASYNC_NOT_SUPPORTED in
  let! _ := reconcile_login_state id in
  let! role := slot_login_role id in
  let! _ := guard_err (negb (has_flag fl CKF_RW_SESSION) && bool_decide (role = Some So))
              #CKR_SESSION_READ_WRITE_SO_EXISTS in
  let! _ := if with_refresh then sm_ignore (on_slot refresh) else sm_ret tt in
  let! token_flags := asks slot_flags in
  guard_err (negb (has_flag token_flags CKF_TOKEN_PRESENT)) #CKR_TOKEN_NOT_PRESENT.

Definition backend_open_session (id fl : Z) : M BackendSession := λ x,
  let '(session, b) := slot_open_session id fl (slot x) in
  (Ok session, mkContext b (state x) (handles x)).

Definition open_session_in (id fl : Z) (with_refresh : bool) : M Z :=
  let! _ := open_session_checks id fl with_refresh in
  let! handle := allocate_session in
  let! session := backend_open_session id fl in
  let! _ := modify_state (λ s, set_sessions (<[handle := SessionContext_new session]> (sessions s)) s) in
  sm_ret handle.

(** Log out; on failure forget the login and the backend session, and remember
    the error. *)
Definition logout_or_clear (id : Z) : M (option Error) := λ x,
  match logout_slot id x with
  | (Ok _, x') => (Ok None, x')
  | (Err e, x') =>
      (let! _ := clear_login_state id in
       let! _ := modify_slot clear_session in
       sm_ret (Some e)) x'
  | (Panic, x') => (Panic, x')
  end.

(** Remove the objects of a closed session, those of the device as well. *)
Fixpoint remove_creator_objects (session : BackendSession) (hs : list Z) : M unit :=
  match hs with
  | [] => sm_ret tt
  | h :: rest =>
      let! found := gets (λ s, memory_objects s !! h) in
      let! _ :=
        match found with
        | Some o =>
            match session_object o with
            | Some device_handle => sm_ignore (on_slot (delete_session_object session device_handle))
            | None => sm_ret tt
            end
        | None => sm_ret tt
        end in
      let! _ := modify_state (remove_object_handle h) in
      remove_creator_objects session rest
  end.

Definition created_by (k : Z) (s : SlotState P) : list Z :=
  (List.filter (λ '(_, o), bool_decide (creator_session o = Some k))
     (map_to_list (memory_objects s))).*1.

(** [close_session], the part under the slot's lock, first the logout that goes
    with the last session, returning the error of a failed logout. *)
Definition close_session_logout (k : Z) : M (option Error) :=
  let! found := gets (λ s, sessions s !! k) in
  let! session := sm_lift (ok_or #CKR_SESSION_HANDLE_INVALID found) in
  let id := slotID (backend session) in
  let! is_last := gets (λ s, negb (existsb (λ '(h, t),
    negb (h =? k) && (slotID (backend t) =? id)) (map_to_list (sessions s)))) in
  let! _ := reconcile_login_state id in
  let! active := is_slot_logged_in id in
  let! logout_error := if is_last && active then logout_or_clear id else sm_ret None in
  let! connector := asks has_ccid_login_connector in
  let! _ := if is_last && connector then modify_slot clear_secure_channel else sm_ret tt in
  sm_ret logout_error.

(** [Ok] means that the session was removed. *)
Definition close_session_in (k : Z) : M (option Error) :=
  let! logout_error := close_session_logout k in
  let! again := gets (λ s, sessions s !! k) in
  let! session := sm_lift (ok_or #CKR_SESSION_HANDLE_INVALID again) in
  let! _ := modify_state (λ s, set_sessions (delete k (sessions s)) s) in
  let! hs := gets (created_by k) in
  let! _ := remove_creator_objects (backend session) hs in
  sm_ret logout_error.

(** [creator_session.map(|owner| !closed.contains(&owner)).unwrap_or(true)] *)
Definition owner_remains (closed : list Z) (o : TokenObject) : bool :=
  match creator_session o with
  | Some owner => negb (existsb (Z.eqb owner) closed)
  | None => true
  end.

(** [C_CloseAllSessions] under the slot's lock: the closed sessions and the error
    of a failed logout. *)
Definition close_all_logout (id : Z) : M (option Error) :=
  let! _ := reconcile_login_state id in
  let! active := is_slot_logged_in id in
  let! logout_error := if (active : bool) then logout_or_clear id else sm_ret None in
  let! connector := asks has_ccid_login_connector in
  let! _ := if (connector : bool) then modify_slot clear_secure_channel else sm_ret tt in
  sm_ret logout_error.

(** The sessions whose backend belongs to the slot. *)
Definition sessions_of (id : Z) (s : SlotState P) : list Z :=
  (List.filter (λ '(_, t), slotID (backend t) =? id) (map_to_list (sessions s))).*1.

Definition close_all_in (id : Z) : M (list Z * option Error) :=
  let! closed := gets (sessions_of id) in
  let! logout_error := close_all_logout id in
  let! _ := modify_state (λ s,
    set_memory (filter (λ '(_, o), owner_remains closed o = true) (memory_objects s))
      (set_sessions (filter (λ '(_, t), slotID (backend t) ≠ id) (sessions s)) s)) in
  sm_ret (closed, logout_error).

Definition get_session_info_in (k : Z) : M SessionInfo :=
  let! session := get_session k in
  let id := slotID session in
  let! _ := reconcile_login_state id in
  let! logged_in := is_slot_logged_in id in
  let! live_session := if (logged_in : bool) then sm_ret true
                       else (let! _ := get_slot id in asks backend_session_is_active) in
  let! _ :=
    if (live_session : bool) then
      let! session := get_session k in
      λ x, match on_slot (session_get_info session) x with
           | (Err e, x') => (let! _ := reconcile_login_state id in sm_err e) x'
           | r => r
           end
    else sm_ret tt in
  let! _ := reconcile_login_state id in
  let! role := slot_login_role id in
  sm_ret (mkInfo id (session_state (flags session) role) (flags session) 0).

(** *** Login *)

(** [login_role] of the API, for a role and a way to authenticate. *)
(** A login whose object refresh failed is taken back. *)
Definition abandon_login (id : Z) (role : LoginRole) (e : Error) : M unit :=
  let! _ := get_slot id in
  let! _ := sm_ignore (on_slot (logout_role role)) in
  let! _ := get_slot id in
  let! _ := sm_ignore (on_slot (set_login_role None)) in
  let! _ := clear_login_state id in
  sm_err e.

Definition refresh_after_login (id : Z) (role : LoginRole) : M unit :=
  let! _ := get_slot id in
  let! again := asks refresh_token_objects_after_login in
  if negb again then sm_ret tt
  else λ x,
    match refresh_slot_token_objects id x with
    | (Err e, x') => abandon_login id role e x'
    | r => r
    end.

Definition api_login_role (id : Z) (role : LoginRole) (authenticate : SM B Error unit) : M unit :=
  let! _ := reconcile_login_state id in
  let! active := slot_login_role id in
  match active with
  | Some active_role =>
      sm_err (if bool_decide (active_role = role) then #CKR_USER_ALREADY_LOGGED_IN
              else #CKR_USER_ANOTHER_ALREADY_LOGGED_IN)
  | None =>
      let! read_only := gets (λ s, existsb (λ '(_, t),
        (slotID (backend t) =? id) && negb (has_flag (flags (backend t)) CKF_RW_SESSION))
        (map_to_list (sessions s))) in
      let! _ := guard_err (bool_decide (role = So) && read_only) #CKR_SESSION_READ_ONLY_EXISTS in
      let! _ := get_slot id in
      let! _ := on_slot authenticate in
      let! _ := get_slot id in
      λ x,
        match on_slot (set_login_role (Some role)) x with
        | (Err e, x') =>
            (let! _ := get_slot id in
             let! _ := sm_ignore (on_slot (logout_role role)) in
             sm_err e) x'
        | (Panic, x') => (Panic, x')
        | (Ok _, x') =>
            (let! _ := set_login_role_state (Some role) in refresh_after_login id role) x'
        end
  end.

(** The secure channel is prepared before and settled after authentication. *)
Definition authenticate (role : LoginRole) (pin : option (list Z)) : SM B Error unit := λ b,
  if has_ccid_login_connector b then
    (let! _ := prepare_secure_channel_login in
     λ b, let '(r, b) := (match role with User => slot_login pin | So => login_so pin end) b in
          (r, finish_secure_channel_login (is_ok r) b)) b
  else (match role with User => slot_login pin | So => login_so pin end) b.

(** The operation a context-specific login authorises: a signature or a
    decryption, not both. *)
Definition context_operation (session : SessionContext) : outcome Error (Z * bool * option (list Z) * bool) :=
  match sign_operation session, decrypt_operation session with
  | Some _, Some _ => Err #CKR_OPERATION_ACTIVE
  | Some op, None => Ok (sign_slot_id op, context_specific_extended op, context_specific_rp_id op, true)
  | None, Some op => Ok (crypt_slot_id op, crypt_extended op, None, false)
  | None, None => Err #CKR_OPERATION_NOT_INITIALIZED
  end.

Definition login_context_in (k : Z) (pin : list Z) : M unit :=
  let! session := get_session_context k in
  let! '(id, extended, rp_id, sign) := sm_lift (context_operation session) in
  let! _ := reconcile_login_state id in
  let! user := is_slot_user_logged_in id in
  let! _ := guard_err (negb user) #CKR_USER_NOT_LOGGED_IN in
  let! _ := get_slot id in
  let! authorization := on_slot (login_context_specific pin extended rp_id) in
  match authorization with
  | None => sm_ret tt
  | Some authorization =>
      let! _ := guard_err (negb sign) #CKR_FUNCTION_FAILED in
      let! session := get_session_context k in
      let! op := sm_lift (ok_or #CKR_OPERATION_NOT_INITIALIZED (sign_operation session)) in
      let! _ := guard_err (negb (bool_decide (context_specific_rp_id op = rp_id)))
                  #CKR_OPERATION_NOT_INITIALIZED in
      update_session k (set_sign_operation (Some (set_fido_authorization (Some authorization) op)))
  end.

Definition login_in (k user_type : Z) (pin : option (list Z)) (pin_len : Z) : M unit :=
  let! session := get_session k in
  let id := slotID session in
  if user_type =? CKU_CONTEXT_SPECIFIC then with_pin pin pin_len (login_context_in k)
  else
    let! role := sm_lift (if user_type =? CKU_USER then Ok User
                          else if user_type =? CKU_SO then Ok So
                          else Err #CKR_USER_TYPE_INVALID) in
    with_optional_pin pin pin_len (λ pin, api_login_role id role (authenticate role pin)).

Definition login_user_in (k user_type : Z) (pin : option (list Z)) (pin_len : Z)
    (username : option (list Z)) (username_len : Z) : M unit :=
  let! session := get_session k in
  let id := slotID session in
  let! _ := guard_err (negb (user_type =? CKU_USER)) #CKR_USER_TYPE_INVALID in
  let! _ := get_slot id in
  let! supported := asks supports_login_user in
  let! _ := guard_err (negb supported) #CKR_FUNCTION_NOT_SUPPORTED in
  let! username := sm_lift (from_raw_parts username username_len) in
  let! _ := guard_err (negb (utf8_valid username)) #CKR_ARGUMENTS_BAD in
  let! _ := get_slot id in
  let! uses := asks (λ b, login_user_uses_token_objects b username) in
  let! objs :=
    if (uses : bool) then
      let! found := resolved_objects in
      sm_ret (List.filter (λ o, token o && negb (private o)) found.*2)
    else sm_ret [] in
  with_optional_pin pin pin_len (λ pin,
    api_login_role id User (slot_login_user id username pin objs)).

Definition logout_in (k : Z) : M unit :=
  let! session := get_session k in
  let id := slotID session in
  let! _ := reconcile_login_state id in
  let! active := is_slot_logged_in id in
  if negb active then
    let! _ := get_slot id in
    let! connector := asks has_ccid_login_connector in
    let! _ := if (connector : bool) then modify_slot clear_secure_channel else sm_ret tt in
    sm_err #CKR_USER_NOT_LOGGED_IN
  else logout_slot id.

(** *** Object search *)

Fixpoint template_matches (x : Ctx) (k handle : Z) (object : TokenObject)
    (templ : list (Z * list Z)) : outcome Error bool :=
  match templ with
  | [] => Ok true
  | (attribute, expected) :: rest =>
      let? value := object_attribute_value x k handle object attribute in
      if negb (bool_decide (value = Some expected)) then Ok false
      else template_matches x k handle object rest
  end.

Fixpoint matching_handles (x : Ctx) (k : Z) (logged_in : bool) (templ : list (Z * list Z))
    (objs : list (Z * TokenObject)) : outcome Error (list Z) :=
  match objs with
  | [] => Ok []
  | (handle, object) :: rest =>
      if negb (is_visible_to logged_in object) then matching_handles x k logged_in templ rest
      else
        let? m := template_matches x k handle object templ in
        let? found := matching_handles x k logged_in templ rest in
        Ok (if (m : bool) then handle :: found else found)
  end.

Definition find_objects_init_in (k : Z) (templ : list (Z * list Z)) : M unit :=
  let! '(id, _, logged_in) := session_details k in
  let! session := get_session_context k in
  let! _ := guard_err (bool_decide (is_Some (find_operation session))) #CKR_OPERATION_ACTIVE in
  let! _ := get_slot id in
  let! before := asks refresh_token_objects_before_find in
  let! _ :=
    if (before : bool) then
      let! _ := get_slot id in
      let! _ := on_slot refresh in
      refresh_slot_token_objects id
    else sm_ret tt in
  let! _ := insert_session_objects id k in
  let! objs := resolved_objects in
  let! found := (λ x, (matching_handles x k logged_in templ objs, x)) : M (list Z) in
  update_session k (set_find (Some (mkFind (merge_sort Z.le found) 0))).

(** The handles written to the caller's array. [&objects[next..]] panics when
    the cursor is past the end. *)
Definition find_objects_in (k max_object_count : Z) : M (list Z) :=
  let! session := get_session_context k in
  let! op := sm_lift (ok_or #CKR_OPERATION_NOT_INITIALIZED (find_operation session)) in
  if len (objects op) <? next op then (λ x, (Panic, x))
  else
    let remaining := zdrop (next op) (objects op) in
    let count := Z.min (len remaining) max_object_count in
    let! _ := update_session k (set_find (Some (mkFind (objects op) (next op + count)))) in
    sm_ret (ztake count remaining).

Definition find_objects_final_in (k : Z) : M unit :=
  let! session := get_session_context k in
  let! _ := update_session k (set_find None) in
  sm_lift (match find_operation session with
           | Some _ => Ok tt
           | None => Err #CKR_OPERATION_NOT_INITIALIZED
           end).

Definition refresh_token_objects_in (id : Z) : M unit :=
  let! _ := get_present_slot id in
  let! _ := on_slot refresh in
  let! _ := get_slot id in
  let! _ := modify_slot invalidate_token_objects in
  refresh_slot_token_objects id.
End slot_code.

(** ** The registry and the entry points *)

Section registry.
Context {B P : Type} `{Slot B} `{StorageProvider P} `{Sha3, MiniCbor} `{BackedObjects}
  `{Environment B P}.
Abbreviation Mod := (Module B P).
Abbreviation M := (SM (SlotContext B P) Error).
Abbreviation MM := (SM Mod Error).

Definition begin_discovery (m : Mod) : bool * Mod :=
  if discovered m then (false, m)
  else (true, mkModule (slots m) (session_slots m) true (counters m)).

(** [ModuleContext::init]: discovery runs once. *)
Definition module_init : MM bool := λ m,
  let '(fresh, m) := begin_discovery m in
  if fresh then discover m else (Ok false, m).

Definition set_session_slots (s : gmap Z Z) (m : Mod) : Mod :=
  mkModule (slots m) s (discovered m) (counters m).

Definition register_session (k id : Z) : MM unit := λ m,
  if negb (bool_decide (is_Some (slots m !! id))) then (Err #CKR_SESSION_HANDLE_INVALID, m)
  else match session_slots m !! k with
       | None => (Ok tt, set_session_slots (<[k := id]> (session_slots m)) m)
       | Some _ => (Err #CKR_SESSION_HANDLE_INVALID, m)
       end.

Definition unregister_session (k : Z) (m : Mod) : Mod :=
  set_session_slots (delete k (session_slots m)) m.

Definition session_slot (k : Z) (m : Mod) : option Z := session_slots m !! k.

(** The largest slot identifier plus one, unless that overflows. *)
Definition next_slot_id (m : Mod) : option Z :=
  match (map_to_list (slots m)).*1 with
  | [] => Some 0
  | id :: ids =>
      let largest := foldl Z.max id ids in
      if largest =? CK_ULONG_MAX then None else Some (largest + 1)
  end.

(** Run code on a slot: the slot and the shared counters go in and out. *)
Definition run_on_slot {A} (id : Z) (missing : Z) (f : M A) : MM A := λ m,
  match slots m !! id with
  | None => (Err #missing, m)
  | Some (b, s) =>
      match lock_operation b with
      | Ok _ =>
          let '(r, x) := f (mkContext b s (counters m)) in
          (r, mkModule (<[id := (slot x, state x)]> (slots m)) (session_slots m) (discovered m) (handles x))
      | Err e => (Err e, m)
      | Panic => (Panic, m)
      end
  end.

Definition slot_visible (id : Z) : MM unit := λ m,
  match slots m !! id with
  | Some (b, _) => (if slot_is_visible b then Ok tt else Err #CKR_SLOT_ID_INVALID, m)
  | None => (Err #CKR_SLOT_ID_INVALID, m)
  end.

Definition with_slot_context_mut {A} (id : Z) (f : M A) : MM A :=
  let! _ := module_init in
  let! _ := slot_visible id in
  run_on_slot id CKR_SLOT_ID_INVALID f.

Definition with_session_context_mut {A} (k : Z) (f : M A) : MM A :=
  let! found := sm_gets (session_slot k) in
  let! id := sm_lift (ok_or #CKR_SESSION_HANDLE_INVALID found) in
  run_on_slot id CKR_SESSION_HANDLE_INVALID f.

Definition open_session_inner (id fl : Z) (with_refresh : bool) : MM Z :=
  let! handle := with_slot_context_mut id (open_session_in id fl with_refresh) in
  λ m, match register_session handle id m with
       | (Ok _, m') => (Ok handle, m')
       | (Err e, m') =>
           (let! _ := sm_ignore (with_slot_context_mut id
              (modify_state (λ s, set_sessions (delete handle (sessions s)) s))) in
            sm_err e) m'
       | (Panic, m') => (Panic, m')
       end.

Definition open_session (id fl : Z) : MM Z := open_session_inner id fl true.
Definition open_prepared_session (id fl : Z) : MM Z := open_session_inner id fl false.

(** The session leaves the registry when it was removed from the slot, also when
    the logout of the last session failed. *)
Definition close_session (k : Z) : MM unit :=
  let! logout_error := with_session_context_mut k (close_session_in k) in
  let! _ := sm_modify (unregister_session k) in
  match logout_error with
  | Some e => sm_err e
  | None => sm_ret tt
  end.

Definition close_all_sessions (id : Z) : MM unit :=
  let! '(closed, logout_error) := with_slot_context_mut id (close_all_in id) in
  let! _ := sm_modify (λ m, foldl (λ m k, unregister_session k m) m closed) in
  match logout_error with
  | Some e => sm_err e
  | None => sm_ret tt
  end.

Definition session_cancel (k fl : Z) : MM unit := with_session_context_mut k (session_cancel_in k fl).

Definition init_token (id : Z) (pin : option (list Z)) (pin_len : Z) (label : option (list Z)) : MM unit :=
  let! label := sm_lift (from_raw_parts label 32) in
  let! _ := guard_err (negb (utf8_valid label)) #CKR_ARGUMENTS_BAD in
  with_pin pin pin_len (λ pin, with_slot_context_mut id (SlotState_init_token pin label)).

Definition init_pin (k : Z) (pin : option (list Z)) (pin_len : Z) : MM unit :=
  with_session_context_mut k (init_pin_in k pin pin_len).

Definition set_pin (k : Z) (old : option (list Z)) (old_len : Z) (new : option (list Z)) (new_len : Z)
    : MM unit :=
  with_session_context_mut k (set_pin_in k old old_len new new_len).

Definition get_session_info (k : Z) : MM SessionInfo := with_session_context_mut k (get_session_info_in k).

Definition login (k user_type : Z) (pin : option (list Z)) (pin_len : Z) : MM unit :=
  with_session_context_mut k (login_in k user_type pin pin_len).

(** [C_Login]: failures are translated. *)
Definition C_Login (k user_type : Z) (pin : option (list Z)) (pin_len : Z) : MM unit :=
  sm_map_err (λ e, login_failure e Authentication) (login k user_type pin pin_len).

Definition login_user (k user_type : Z) (pin : option (list Z)) (pin_len : Z)
    (username : option (list Z)) (username_len : Z) : MM unit :=
  with_session_context_mut k (login_user_in k user_type pin pin_len username username_len).

Definition logout (k : Z) : MM unit := with_session_context_mut k (logout_in k).

Definition find_objects_init (k : Z) (templ : list (Z * list Z)) : MM unit :=
  with_session_context_mut k (find_objects_init_in k templ).

Definition find_objects (k max_object_count : Z) : MM (list Z) :=
  with_session_context_mut k (find_objects_in k max_object_count).

Definition find_objects_final (k : Z) : MM unit :=
  with_session_context_mut k (find_objects_final_in k).

Definition refresh_token_objects (id : Z) : MM unit :=
  with_slot_context_mut id (refresh_token_objects_in id).
End registry.

(** ** What slot code leaves alone

    Apart from opening and closing sessions and logging in, slot code opens and
    closes no session, keeps each session's backend, and can only end a login. *)
Section frames.
Context {B P : Type} `{Slot B} `{StorageProvider P} `{Sha3, MiniCbor} `{BackedObjects}
  `{Environment B P}.
Abbreviation Ctx := (SlotContext B P).
Abbreviation M := (SM Ctx Error).

Definition framed (x y : Ctx) : Prop :=
  next_session (handles y) = next_session (handles x) ∧
  slot_id (state y) = slot_id (state x) ∧
  (∀ k, backend <$> sessions (state y) !! k = backend <$> sessions (state x) !! k) ∧
  (login_role (state y) = login_role (state x) ∨ login_role (state y) = None).

Definition frames {A} (c : M A) : Prop := ∀ x, framed x (c x).2.

#[export] Instance framed_refl : Reflexive framed.
Proof. intros x. split_and!; auto. Qed.
#[export] Instance framed_trans : Transitive framed.
Proof.
  intros x y z (A1 & A2 & A3 & A4) (B1 & B2 & B3 & B4). split_and!; [congruence..| |].
  - intros k. by rewrite B3, A3.
  - destruct B4 as [->|B4]; auto.
Qed.

Lemma frames_bind {A A'} (c : M A) (f : A → M A') : frames c → (∀ a, frames (f a)) → frames (sbind c f).
Proof.
  intros Hc Hf x. rewrite sm_bind_unfold. specialize (Hc x).
  destruct (c x) as [[a|e|] y]; [|done|done]. etrans; [done|]. apply Hf.
Qed.
Lemma frames_ret {A} (a : A) : frames (sm_ret a).
Proof. by intros x. Qed.
Lemma frames_err {A} e : frames (sm_err e : M A).
Proof. by intros x. Qed.
Lemma frames_lift {A} (c : outcome Error A) : frames (sm_lift c).
Proof. by intros x. Qed.
Lemma frames_guard b e : frames (guard_err b e).
Proof. by intros x. Qed.
Lemma frames_gets {A} (f : SlotState P → A) : frames (gets f).
Proof. by intros x. Qed.
Lemma frames_asks {A} (f : B → A) : frames (asks f).
Proof. by intros x. Qed.
Lemma frames_slot_login_role id : frames (slot_login_role id).
Proof. by intros x. Qed.
Lemma frames_ignore {A} (c : M A) : frames c → frames (sm_ignore c : M unit).
Proof. intros Hc x. specialize (Hc x). unfold sm_ignore. by destruct (c x) as [[]]. Qed.
Lemma frames_on_slot {A} (c : SM B Error A) : frames (on_slot c).
Proof. intros x. unfold on_slot. destruct (c (slot x)). split_and!; auto. Qed.
Lemma frames_modify_slot f : frames (modify_slot f).
Proof. intros x. split_and!; auto. Qed.
Lemma frames_with_token_storage {A} (f : ∀ Q, StorageProvider Q → SM Q Error A) :
  frames (with_token_storage f).
Proof.
  intros x. unfold with_token_storage. destruct (has_native_storage _); [apply frames_on_slot|].
  destruct (f P _ _). split_and!; auto.
Qed.
Lemma frames_allocate_object : frames allocate_object.
Proof. intros x. unfold allocate_object. destruct (allocate_handle _). split_and!; auto. Qed.

(** Updates that keep the sessions' backends and do not log in. *)
Lemma frames_modify_state f :
  (∀ s, slot_id (f s) = slot_id s ∧ (∀ k, backend <$> sessions (f s) !! k = backend <$> sessions s !! k) ∧
        (login_role (f s) = login_role s ∨ login_role (f s) = None)) →
  frames (modify_state f).
Proof. intros Hf x. destruct (Hf (state x)) as (F1 & F2 & F3). by split_and!. Qed.

Lemma frames_get_session_context k : frames (get_session_context k).
Proof. intros x. pose proof (keeps_get_session_context k x) as (K1 & K2 & K3 & _).
  unfold framed. rewrite K1, K2, K3. split_and!; auto. left.
  unfold get_session_context. rewrite sm_bind_unfold. cbn [gets].
  by destruct (sessions (state x) !! k) as [s|]; [|done]; cbn; destruct (slotID (backend s) =? _).
Qed.

Lemma framed_insert_session (x : Ctx) k s s' :
  sessions (state x) !! k = Some s → backend s' = backend s →
  framed x (mkContext (slot x) (set_sessions (<[k := s']> (sessions (state x))) (state x)) (handles x)).
Proof.
  intros Es Eb. split_and!; auto. cbn [state sessions set_sessions]. intros j.
  destruct (decide (j = k)) as [->|Hne]; [|by rewrite lookup_insert_ne].
  by rewrite lookup_insert_eq, Es; cbn; rewrite Eb.
Qed.

Lemma frames_update_session k f : (∀ s, backend (f s) = backend s) → frames (update_session k f).
Proof.
  intros Hf x. unfold update_session. rewrite sm_bind_unfold.
  pose proof (frames_get_session_context k x) as Hx.
  destruct (get_session_context k x) as [[s|e|] y] eqn:E; [|done|done].
  apply get_session_context_Ok in E as (-> & Es & _). by eapply framed_insert_session.
Qed.

Lemma frames_with_session_storage {A} k (c : SM MemoryStorageProvider Error A) :
  frames (with_session_storage k c).
Proof.
  intros x. unfold with_session_storage. rewrite sm_bind_unfold.
  pose proof (frames_get_session_context k x) as Hx.
  destruct (get_session_context k x) as [[s|e|] y] eqn:E; [|done|done].
  apply get_session_context_Ok in E as (-> & Es & _). destruct (c (storage s)) as [r m].
  rewrite sm_bind_unfold. cbn [modify_state sm_lift snd]. by eapply framed_insert_session.
Qed.

Lemma frames_clear_login_state id : frames (clear_login_state id).
Proof.
  intros x. unfold clear_login_state. destruct (negb _); [done|]. split_and!; auto.
  cbn [snd state sessions set_sessions set_memory]. intros k. rewrite lookup_fmap.
  by destruct (sessions (state x) !! k).
Qed.

Lemma remove_object_handle_frame h (s : SlotState P) :
  slot_id (remove_object_handle h s) = slot_id s ∧
  (∀ k, backend <$> sessions (remove_object_handle h s) !! k = backend <$> sessions s !! k) ∧
  login_role (remove_object_handle h s) = login_role s.
Proof.
  split_and!; [done| |done]. intros k. cbn [sessions remove_object_handle]. rewrite lookup_fmap.
  by destruct (sessions s !! k).
Qed.

Lemma frames_remove_handle h : frames (modify_state (remove_object_handle h)).
Proof.
  apply frames_modify_state. intros s. destruct (remove_object_handle_frame h s) as (F1 & F2 & F3).
  split_and!; auto.
Qed.

Lemma frames_remove_handles hs : frames (remove_handles hs).
Proof.
  apply frames_modify_state. induction hs as [|h hs IH]; intros s; cbn [foldl]; [split_and!; auto|].
  destruct (IH (remove_object_handle h s)) as (I1 & I2 & I3).
  destruct (remove_object_handle_frame h s) as (F1 & F2 & F3). split_and!; [congruence| |].
  - intros k. by rewrite I2, F2.
  - rewrite F3 in I3. done.
Qed.
End frames.

Create HintDb framing.
#[export] Hint Resolve frames_ret frames_err frames_lift frames_guard frames_gets frames_asks
  frames_slot_login_role frames_on_slot frames_modify_slot frames_with_token_storage
  frames_allocate_object frames_get_session_context frames_with_session_storage
  frames_clear_login_state frames_remove_handle frames_remove_handles : framing.

(** Structural framing proofs. *)
Ltac frame :=
  repeat match goal with
  | |- frames (sbind _ _) => apply frames_bind; [|intros ?]
  | |- frames (sm_ignore _) => apply frames_ignore
  | |- frames (if ?b then _ else _) => destruct b
  | |- frames (match ?o with _ => _ end) => destruct o
  | |- frames (let _ := _ in _) => cbv zeta
  | |- frames (modify_state _) =>
      first [solve [auto with framing] | apply frames_modify_state; intros ?; split_and!; by auto]
  | |- frames (update_session _ _) => apply frames_update_session; by intros []
  | |- frames _ => solve [auto with framing]
  end.

Section frames_slot.
Context {B P : Type} `{Slot B} `{StorageProvider P} `{Sha3, MiniCbor} `{BackedObjects}
  `{Environment B P}.
Abbreviation Ctx := (SlotContext B P).
Abbreviation M := (SM Ctx Error).

Lemma frames_check_rebindings by_id rebindings : frames (check_rebindings by_id rebindings : M _).
Proof. induction rebindings as [|[h i] rest IH]; cbn [check_rebindings]; frame; exact IH. Qed.
Lemma frames_apply_rebindings rebindings : frames (apply_rebindings rebindings : M _).
Proof. induction rebindings as [|[h i] rest IH]; cbn [apply_rebindings]; frame; exact IH. Qed.
Lemma frames_add_handles ids : frames (add_handles ids : M _).
Proof. induction ids as [|i rest IH]; cbn [add_handles]; frame; exact IH. Qed.

Lemma frames_reconcile id objs rebindings :
  frames (reconcile_slot_token_objects_with_rebindings id objs rebindings : M _).
Proof.
  unfold reconcile_slot_token_objects_with_rebindings, require_slot_id. frame;
    [apply frames_check_rebindings|apply frames_apply_rebindings|apply frames_add_handles].
Qed.

Lemma frames_refresh id : frames (refresh_slot_token_objects id : M _).
Proof.
  unfold refresh_slot_token_objects, refresh_slot_token_objects_with_rebindings, require_slot_id,
    stored_token_objects. frame; apply frames_reconcile.
Qed.

Lemma frames_reconcile_login_state id : frames (reconcile_login_state id : M _).
Proof. unfold reconcile_login_state, is_slot_logged_in. frame. Qed.

Lemma frames_insert_each id k objs : frames (insert_each id k objs : M _).
Proof. induction objs as [|o rest IH]; cbn [insert_each]; unfold insert_object; frame; exact IH. Qed.

Lemma frames_insert_session_objects id k : frames (insert_session_objects id k : M _).
Proof. unfold insert_session_objects, require_slot_id. frame. apply frames_insert_each. Qed.

Lemma frames_logout_slot id : frames (logout_slot id : M _).
Proof. unfold logout_slot, get_slot, require_slot_id. frame; apply frames_refresh. Qed.

Lemma frames_get_session k : frames (get_session k : M _).
Proof. unfold get_session. frame. Qed.
Lemma frames_session_details k : frames (session_details k : M _).
Proof. unfold session_details, get_session. frame. Qed.
Lemma frames_is_slot_logged_in id : frames (is_slot_logged_in id : M _).
Proof. unfold is_slot_logged_in. frame. Qed.
Lemma frames_is_slot_user_logged_in id : frames (is_slot_user_logged_in id : M _).
Proof. unfold is_slot_user_logged_in. frame. Qed.
Lemma frames_get_slot id : frames (get_slot id : M _).
Proof. unfold get_slot, require_slot_id. frame. Qed.
Lemma frames_resolved_objects : frames (resolved_objects : M _).
Proof. unfold resolved_objects. frame. Qed.
End frames_slot.

#[export] Hint Resolve frames_refresh frames_reconcile_login_state frames_insert_session_objects
  frames_logout_slot frames_get_session frames_session_details frames_is_slot_logged_in
  frames_is_slot_user_logged_in frames_get_slot frames_resolved_objects : framing.

Section frames_api.
Context {B P : Type} `{Slot B} `{StorageProvider P} `{Sha3, MiniCbor} `{BackedObjects}
  `{Environment B P}.
Abbreviation Ctx := (SlotContext B P).
Abbreviation M := (SM Ctx Error).

Lemma frames_with_pin {A} pin n (f : list Z → M A) : (∀ p, frames (f p)) → frames (with_pin pin n f).
Proof. intros Hf. unfold with_pin. frame; apply Hf. Qed.

Lemma frames_session_cancel k fl : frames (session_cancel_in k fl : M _).
Proof. unfold session_cancel_in. frame. Qed.

Lemma frames_init_pin k pin n : frames (init_pin_in k pin n : M _).
Proof. unfold init_pin_in. frame. apply frames_with_pin. intros p. frame. Qed.

Lemma frames_set_pin k old n new n' : frames (set_pin_in k old n new n' : M _).
Proof. unfold set_pin_in. frame. do 2 (apply frames_with_pin; intros ?). frame. Qed.

Lemma frames_logout_or_clear id : frames (logout_or_clear id : M _).
Proof.
  intros x. unfold logout_or_clear. pose proof (frames_logout_slot id x) as Hl.
  destruct (logout_slot id x) as [[u|e|] y]; [done| |done]. etrans; [exact Hl|].
  assert (frames (let! _ := clear_login_state id in let! _ := modify_slot clear_session in
    sm_ret (Some e) : M (option Error))) as Hc by frame.
  apply Hc.
Qed.

Lemma frames_remove_creator_objects s hs : frames (remove_creator_objects s hs : M _).
Proof. induction hs as [|h rest IH]; cbn [remove_creator_objects]; frame; exact IH. Qed.

Lemma frames_get_session_info k : frames (get_session_info_in k : M _).
Proof.
  unfold get_session_info_in. frame. intros x.
  pose proof (frames_on_slot (session_get_info a2) x) as Hs.
  destruct (on_slot (session_get_info a2) x) as [[u|e|] y]; [done| |done]. etrans; [exact Hs|].
  apply (frames_bind (reconcile_login_state (slotID a)) (λ _, sm_err e)); [|intros ?]; auto with framing.
Qed.

Lemma frames_login_context k pin : frames (login_context_in k pin : M _).
Proof. unfold login_context_in. frame. Qed.

Lemma frames_logout k : frames (logout_in k : M _).
Proof. unfold logout_in. frame. Qed.

Lemma frames_find_objects_init k templ : frames (find_objects_init_in k templ : M _).
Proof. unfold find_objects_init_in. frame. by intros x. Qed.

Lemma frames_find_objects k n : frames (find_objects_in k n : M _).
Proof. unfold find_objects_in. frame. by intros x. Qed.

Lemma frames_find_objects_final k : frames (find_objects_final_in k : M _).
Proof. unfold find_objects_final_in. frame. Qed.

Lemma frames_refresh_token_objects id : frames (refresh_token_objects_in id : M _).
Proof. unfold refresh_token_objects_in, get_present_slot. frame. Qed.

Lemma frames_init_token pin label : frames (SlotState_init_token pin label : M _).
Proof. unfold SlotState_init_token, set_login_role_state. frame. Qed.
End frames_api.

(** ** Login and open sessions *)

Section login_open.
Context {B P : Type} `{Slot B} `{!SlotLaws B} `{StorageProvider P} `{Sha3, MiniCbor} `{BackedObjects}
  `{Environment B P}.
Abbreviation Ctx := (SlotContext B P).
Abbreviation M := (SM Ctx Error).

(** Every session of the slot is read/write. *)
Definition all_read_write (s : SlotState P) : Prop :=
  ∀ k t, sessions s !! k = Some t → slotID (backend t) = slot_id s →
    has_flag (flags (backend t)) CKF_RW_SESSION = true.

(** Sessions as before; the security officer is only logged in when he was
    before, or when every session is read/write. *)
Definition login_framed (x y : Ctx) : Prop :=
  next_session (handles y) = next_session (handles x) ∧
  slot_id (state y) = slot_id (state x) ∧
  (∀ k, backend <$> sessions (state y) !! k = backend <$> sessions (state x) !! k) ∧
  (login_role (state y) = Some So → login_role (state x) = Some So ∨ all_read_write (state x)).

Lemma framed_login x y : framed x y → login_framed x y.
Proof.
  intros (F1 & F2 & F3 & F4). split_and!; [done..|]. intros E. left.
  destruct F4 as [<-|F4]; [done|congruence].
Qed.

Lemma all_read_write_same (s s' : SlotState P) :
  slot_id s' = slot_id s → (∀ k, backend <$> sessions s' !! k = backend <$> sessions s !! k) →
  all_read_write s' → all_read_write s.
Proof.
  intros Hid Hs Ha k t Et Eid. specialize (Hs k). rewrite Et in Hs.
  apply fmap_Some in Hs as (t' & Et' & Eb). rewrite Eb in *. eapply Ha; [done|congruence].
Qed.

Lemma login_framed_trans x y z : login_framed x y → login_framed y z → login_framed x z.
Proof.
  intros (A1 & A2 & A3 & A4) (B1 & B2 & B3 & B4). split_and!; [congruence..| |].
  - intros k. by rewrite B3, A3.
  - intros E. apply B4 in E as [E|E]; [by apply A4|]. right. by eapply all_read_write_same.
Qed.

Definition login_frames {A} (c : M A) : Prop := ∀ x, login_framed x (c x).2.

Lemma login_frames_bind {A A'} (c : M A) (f : A → M A') :
  frames c → (∀ a, login_frames (f a)) → login_frames (sbind c f).
Proof.
  intros Hc Hf x. rewrite sm_bind_unfold. specialize (Hc x). apply framed_login in Hc.
  destruct (c x) as [[a|e|] y]; [|done|done]. eapply login_framed_trans; [done|]. apply Hf.
Qed.

Lemma frames_login {A} (c : M A) : frames c → login_frames c.
Proof. intros Hc x. by apply framed_login. Qed.

Lemma get_slot_Ok id (x y : Ctx) u : get_slot id x = (Ok u, y) → y = x ∧ id = slot_id (state x).
Proof.
  unfold get_slot, require_slot_id. rewrite sm_bind_unfold. unfold gets, guard_err.
  destruct (negb _) eqn:E; intros Eq; simplify_eq. bool_to_prop. done.
Qed.

(** The part of a login that follows a successful authentication. *)
Lemma login_frames_record role (k : M unit) (x : Ctx) :
  login_frames k → (role = So → all_read_write (state x)) →
  login_framed x ((let! _ := set_login_role_state (Some role) in k) x).2.
Proof.
  intros Hk Hr. rewrite sm_bind_unfold. cbn [set_login_role_state modify_state].
  eapply login_framed_trans; [|apply Hk]. split_and!; [done..|].
  cbn [state login_role set_role]. intros E. right. apply Hr. congruence.
Qed.

Lemma frames_refresh_after_login id role : frames (refresh_after_login id role : M unit).
Proof.
  unfold refresh_after_login. apply frames_bind; [auto with framing|intros _].
  apply frames_bind; [auto with framing|intros again].
  destruct again; [|by apply frames_ret]. cbn [negb]. intros y.
  pose proof (frames_refresh id y) as Hy.
  destruct (refresh_slot_token_objects id y) as [[u4|e|] y']; cbn [snd] in Hy; [exact Hy| |exact Hy].
  etrans; [exact Hy|].
  assert (frames (abandon_login id role e : M unit)) as Hc by (unfold abandon_login; frame).
  apply Hc.
Qed.

Lemma login_frames_api_login_role id role auth : login_frames (api_login_role id role auth : M _).
Proof.
  unfold api_login_role. apply login_frames_bind; [auto with framing|intros _].
  apply login_frames_bind; [auto with framing|intros [active|]]; [by apply frames_login, frames_err|].
  intros x. rewrite sm_bind_unfold. cbn [gets].
  set (read_only := existsb _ _). rewrite sm_bind_unfold. unfold guard_err.
  destruct (bool_decide (role = So) && read_only) eqn:Ero; [by apply framed_login|].
  rewrite sm_bind_unfold. destruct (get_slot id x) as [[u|e|] x1] eqn:Eg;
    [|pose proof (frames_get_slot id x) as Hg; rewrite Eg in Hg; by apply framed_login..].
  apply get_slot_Ok in Eg as [-> Hid].
  assert (role = So → all_read_write (state x)) as Hrw.
  { intros ->. rewrite bool_decide_true in Ero by done. cbn [andb] in Ero. intros k t Et Eid. destruct (has_flag _ _) eqn:Ef; [done|].
    assert (read_only = true) as Hro; [|congruence]. apply existsb_exists. exists (k, t).
    split; [by apply list_elem_of_In, elem_of_map_to_list|].
    rewrite Ef, Eid, Hid, Z.eqb_refl. done. }
  rewrite sm_bind_unfold. pose proof (frames_on_slot auth x) as Ha.
  assert (state (on_slot auth x).2 = state x) as Hst by (unfold on_slot; by destruct (auth (slot x))).
  destruct (on_slot auth x) as [[u'|e|] x2]; [|by apply framed_login..]. cbn [snd] in Ha, Hst.
  eapply login_framed_trans; [by apply framed_login|]. clear Ha.
  rewrite sm_bind_unfold. destruct (get_slot id x2) as [[u''|e|] x3] eqn:Eg2;
    [|pose proof (frames_get_slot id x2) as Hg; rewrite Eg2 in Hg; by apply framed_login..].
  apply get_slot_Ok in Eg2 as [-> _].
  pose proof (frames_on_slot (set_login_role (Some role)) x2) as Hs.
  assert (state (on_slot (set_login_role (Some role)) x2).2 = state x2) as Hst2
    by (unfold on_slot; by destruct (set_login_role (Some role) (slot x2))).
  destruct (on_slot (set_login_role (Some role)) x2) as [[u3|e|] x4]; cbn [snd] in Hs, Hst2;
    [| |by apply framed_login].
  - eapply login_framed_trans; [by apply framed_login|]. apply login_frames_record.
    + apply frames_login, frames_refresh_after_login.
    + intros Er. rewrite Hst2, Hst. by apply Hrw.
  - eapply login_framed_trans; [by apply framed_login|].
    assert (login_frames (let! _ := get_slot id in let! _ := sm_ignore (on_slot (logout_role role)) in
      sm_err e : M unit)) as Hc by (apply frames_login; frame).
    apply Hc.
Qed.

Lemma login_frames_with_pin {A} pin n (f : list Z → M A) :
  (∀ p, login_frames (f p)) → login_frames (with_pin pin n f).
Proof.
  intros Hf. unfold with_pin. apply login_frames_bind; [auto with framing|intros p].
  apply login_frames_bind; [auto with framing|intros _]. apply Hf.
Qed.
Lemma login_frames_with_optional_pin {A} pin n (f : option (list Z) → M A) :
  (∀ p, login_frames (f p)) → login_frames (with_optional_pin pin n f).
Proof.
  intros Hf. unfold with_optional_pin. destruct pin; [by apply login_frames_with_pin|].
  apply login_frames_bind; [auto with framing|intros _]. apply Hf.
Qed.

Lemma login_frames_login k user pin n : login_frames (login_in k user pin n : M _).
Proof.
  unfold login_in. apply login_frames_bind; [auto with framing|intros session]. cbv zeta.
  destruct (user =? CKU_CONTEXT_SPECIFIC).
  { apply login_frames_with_pin. intros p. apply frames_login, frames_login_context. }
  apply login_frames_bind; [auto with framing|intros role].
  apply login_frames_with_optional_pin. intros p. apply login_frames_api_login_role.
Qed.

Lemma login_frames_login_user k user pin n name n' : login_frames (login_user_in k user pin n name n' : M _).
Proof.
  unfold login_user_in. apply login_frames_bind; [auto with framing|intros session]. cbv zeta.
  do 8 (apply login_frames_bind; [auto with framing|intros ?]).
  apply login_frames_bind; [frame|intros objs].
  apply login_frames_with_optional_pin. intros p. apply login_frames_api_login_role.
Qed.
End login_open.

(** ** The session invariant of the module *)

Section module_invariant.
Context {B P : Type} `{Slot B} `{!SlotLaws B} `{StorageProvider P} `{Sha3, MiniCbor} `{BackedObjects}
  `{Environment B P}.
Abbreviation Mod := (Module B P).
Abbreviation Ctx := (SlotContext B P).
Abbreviation M := (SM Ctx Error).
Abbreviation MM := (SM Mod Error).

(** The sessions of a slot belong to it and are registered for it; while the
    security officer is logged in they are all read/write. *)
Definition slot_ok (reg : gmap Z Z) (id : Z) (s : SlotState P) : Prop :=
  slot_id s = id ∧
  (∀ k t, sessions s !! k = Some t → slotID (backend t) = id ∧ reg !! k = Some id) ∧
  (login_role s = Some So → all_read_write s).

Record module_inv (m : Mod) : Prop := {
  inv_discovered : discovered m = true;
  inv_counter : 0 ≤ next_session (counters m) ≤ CK_ULONG_MAX;
  inv_slots : ∀ id b s, slots m !! id = Some (b, s) → slot_ok (session_slots m) id s;
  inv_registry : ∀ k id, session_slots m !! k = Some id →
    handle_below (next_session (counters m)) k ∧
    ∃ b s, slots m !! id = Some (b, s) ∧ is_Some (sessions s !! k);
}.

Lemma slot_ok_login_framed reg id (x y : Ctx) :
  login_framed x y → slot_ok reg id (state x) → slot_ok reg id (state y).
Proof.
  intros (F1 & F2 & F3 & F4) (S1 & S2 & S3). split_and!; [congruence| |].
  - intros k t Et. specialize (F3 k). rewrite Et in F3. symmetry in F3.
    apply fmap_Some in F3 as (t' & Et' & Eb). rewrite Eb. eauto.
  - intros Er. apply (all_read_write_same (state y) (state x)); [done|intros k; by rewrite F3|].
    destruct (F4 Er) as [Es|Ha]; auto.
Qed.

(** Writing a slot back keeps the invariant when the slot is as it should be. *)
Lemma inv_write_back m id b s (x : Ctx) :
  module_inv m → slots m !! id = Some (b, s) →
  next_session (handles x) = next_session (counters m) →
  slot_ok (session_slots m) id (state x) → (∀ k, is_Some (sessions (state x) !! k) ↔ is_Some (sessions s !! k)) →
  module_inv (mkModule (<[id := (slot x, state x)]> (slots m)) (session_slots m) (discovered m) (handles x)).
Proof.
  intros [I1 I2 I3 I4] Es En Hok Hk. split; cbn [discovered counters slots session_slots].
  - done.
  - by rewrite En.
  - intros id' b' s' E. apply lookup_insert_Some in E as [[<- E]|[_ E]]; [by simplify_eq|eauto].
  - intros k id' E. rewrite En. destruct (I4 _ _ E) as (Hb & b' & s' & E' & Hs). split; [done|].
    destruct (decide (id' = id)) as [->|Hne].
    + rewrite lookup_insert_eq. eexists _, _. split; [done|]. rewrite Hk. congruence.
    + rewrite lookup_insert_ne by done. eauto.
Qed.

Lemma backend_is_Some (x y : Ctx) k :
  backend <$> sessions (state y) !! k = backend <$> sessions (state x) !! k →
  is_Some (sessions (state y) !! k) ↔ is_Some (sessions (state x) !! k).
Proof.
  destruct (sessions (state y) !! k), (sessions (state x) !! k); intros E; try done;
    split; by intros [].
Qed.

Lemma inv_run_on_slot {A} id missing (f : M A) :
  login_frames f → preserves module_inv (run_on_slot id missing f).
Proof.
  intros Hf m Hm. unfold run_on_slot. destruct (slots m !! id) as [[b s]|] eqn:Es; [|done].
  destruct (lock_operation b); [|done|done].
  pose proof (Hf (mkContext b s (counters m))) as Hx.
  destruct (f (mkContext b s (counters m))) as [r x]. cbn [snd] in *.
  apply (inv_write_back m id b s); [done|done|apply Hx|..].
  - eapply slot_ok_login_framed; [exact Hx|]. by eapply inv_slots.
  - intros k. destruct Hx as (_ & _ & Hk & _). apply (backend_is_Some (mkContext b s (counters m)) x k), Hk.
Qed.

Lemma module_init_discovered m : discovered m = true → module_init m = (Ok false, m).
Proof. intros E. unfold module_init, begin_discovery. by rewrite E. Qed.

Lemma inv_module_init : preserves module_inv (module_init : MM bool).
Proof. intros m Hm. rewrite module_init_discovered; [done|]. apply Hm. Qed.

Lemma inv_slot_visible id : preserves module_inv (slot_visible id : MM unit).
Proof. intros m Hm. unfold slot_visible. by destruct (slots m !! id) as [[b s]|]. Qed.

Lemma inv_with_slot {A} id (f : M A) :
  login_frames f → preserves module_inv (with_slot_context_mut id f).
Proof.
  intros Hf. apply preserves_bind; [apply inv_module_init|intros _].
  apply preserves_bind; [apply inv_slot_visible|intros _]. by apply inv_run_on_slot.
Qed.

Lemma inv_with_session {A} k (f : M A) :
  login_frames f → preserves module_inv (with_session_context_mut k f).
Proof.
  intros Hf. apply preserves_bind; [by intros m Hm|intros found].
  apply preserves_bind; [by intros m Hm|intros id]. by apply inv_run_on_slot.
Qed.

(** After reconciliation a recorded login is an active one. *)
Lemma reconcile_login_state_active id (x y : Ctx) u :
  reconcile_login_state id x = (Ok u, y) → id = slot_id (state x) →
  slot_id (state y) = id ∧ (is_Some (login_role (state y)) → login_is_active (slot y) = true).
Proof.
  intros E ->. unfold reconcile_login_state, is_slot_logged_in, slot_login_role in E.
  rewrite !sm_bind_unfold in E. unfold gets in E. rewrite !sm_bind_unfold in E.
  unfold sm_ret in E. rewrite Z.eqb_refl in E. cbn [andb] in E.
  destruct (login_is_active (slot x)) eqn:Ea.
  - rewrite andb_negb_r in E. simplify_eq. done.
  - destruct (bool_decide (is_Some (login_role (state x)))) eqn:Er; cbn in E.
    + unfold sbind, modify_slot, clear_login_state in E. cbn [state slot] in E.
      rewrite Z.eqb_refl in E. cbn [negb] in E. simplify_eq. split; [done|]. cbn. by intros [].
    + simplify_eq. bool_to_prop. done.
Qed.

Lemma frames_open_session_checks id fl wr : frames (open_session_checks id fl wr : M _).
Proof. unfold open_session_checks. frame. Qed.

Lemma open_session_checks_Ok id fl wr (x y : Ctx) u :
  open_session_checks id fl wr x = (Ok u, y) → id = slot_id (state x) →
  login_role (state y) = Some So → has_flag fl CKF_RW_SESSION = true.
Proof.
  unfold open_session_checks, guard_err. rewrite sm_bind_unfold. cbv beta.
  destruct (negb (has_flag fl CKF_SERIAL_SESSION)); [done|]. rewrite sm_bind_unfold. cbv beta.
  destruct (has_flag fl CKF_ASYNC_SESSION); [done|]. rewrite sm_bind_unfold.
  destruct (reconcile_login_state id x) as [[u1|e|] x1] eqn:E1; [|done|done]. intros E Hid Er.
  apply reconcile_login_state_active in E1 as [Hi Ha]; [|done].
  rewrite sm_bind_unfold in E. unfold slot_login_role in E. rewrite Hi, Z.eqb_refl in E. cbn [andb] in E.
  rewrite sm_bind_unfold in E. destruct (negb _ && _) eqn:Eg; [done|]. rewrite sm_bind_unfold in E.
  assert (state ((if wr then sm_ignore (on_slot refresh) else sm_ret tt : M unit) x1).2 = state x1) as Hst.
  { destruct wr; [|done]. unfold sm_ignore, on_slot. by destruct (refresh (slot x1)) as [[]]. }
  destruct ((if wr then sm_ignore (on_slot refresh) else sm_ret tt : M unit) x1) as [[u2|e|] x2]; [|done|done].
  cbn [snd] in Hst. rewrite sm_bind_unfold in E. unfold asks in E. cbv beta iota in E.
  destruct (negb (has_flag (slot_flags (slot x2)) CKF_TOKEN_PRESENT)); [discriminate E|]. simplify_eq.
  rewrite Hst in Er. rewrite Ha, Er in Eg by (rewrite Er; by eexists).
  rewrite bool_decide_true in Eg by done. by destruct (has_flag fl CKF_RW_SESSION).
Qed.

Lemma open_session_in_spec id fl wr (x y : Ctx) r :
  open_session_in id fl wr x = (r, y) → id = slot_id (state x) →
  (framed x y ∧ ∀ h, r ≠ Ok h) ∨
  ∃ x1 h, r = Ok h ∧ framed x x1 ∧
    allocate_handle (next_session (handles x)) = (Ok h, next_session (handles y)) ∧
    (login_role (state x1) = Some So → has_flag fl CKF_RW_SESSION = true) ∧
    state y = set_sessions (<[h := SessionContext_new (mkBackendSession id fl)]> (sessions (state x1)))
                (state x1).
Proof.
  intros E Hid. unfold open_session_in in E. rewrite sm_bind_unfold in E.
  pose proof (frames_open_session_checks id fl wr x) as Hf.
  destruct (open_session_checks id fl wr x) as [[u|e|] x1] eqn:Ec; cbn [snd] in Hf;
    [|left; simplify_eq; done..].
  pose proof (open_session_checks_Ok id fl wr x x1 u Ec Hid) as Hrw.
  rewrite sm_bind_unfold in E. unfold allocate_session in E.
  assert (next_session (handles x1) = next_session (handles x)) as Hn by apply Hf. rewrite Hn in E.
  destruct (allocate_handle (next_session (handles x))) as [[h|e|] n'] eqn:Ea.
  - right. unfold backend_open_session in E. rewrite !sm_bind_unfold in E. cbn [slot] in E.
    pose proof (open_session_spec id fl (slot x1)) as Ho.
    destruct (slot_open_session id fl (slot x1)) as [session b]. cbn [fst] in Ho. subst session.
    unfold sbind, modify_state, sm_ret in E. simplify_eq. exists x1, h. split_and!; try done.
  - left. simplify_eq. apply allocate_handle_Err in Ea as ->; [|done]. split; [|done].
    etrans; [exact Hf|]. rewrite <- Hn. split_and!; auto.
  - left. simplify_eq. apply allocate_handle_Err in Ea as ->; [|done]. split; [|done].
    etrans; [exact Hf|]. rewrite <- Hn. split_and!; auto.
Qed.

(** The slot with one more session, and the registry with one more entry. *)
Lemma inv_add_session m id b s (x1 : Ctx) h n b' fl no :
  module_inv m → slots m !! id = Some (b, s) → framed (mkContext b s (counters m)) x1 →
  allocate_handle (next_session (counters m)) = (Ok h, n) →
  (login_role (state x1) = Some So → has_flag fl CKF_RW_SESSION = true) →
  module_inv (mkModule
    (<[id := (b', set_sessions (<[h := SessionContext_new (mkBackendSession id fl)]> (sessions (state x1)))
                    (state x1))]> (slots m))
    (<[h := id]> (session_slots m)) (discovered m) (mkCounters no n)).
Proof.
  intros [I1 I2 I3 I4] Es Hf Ea Hrw.
  destruct (I3 _ _ _ Es) as (S1 & S2 & S3).
  assert (slot_ok (session_slots m) id (state x1)) as (T1 & T2 & T3).
  { eapply slot_ok_login_framed; [by apply framed_login|]. by split_and!. }
  destruct Hf as (_ & _ & Fk & _).
  apply allocate_handle_Ok in Ea as (-> & Hh & Hn & Hb & Hmono); [|done].
  assert (session_slots m !! next_session (counters m) = None) as Hfresh.
  { destruct (session_slots m !! _) eqn:E; [|done]. apply I4 in E as [Hbad _].
    apply Hmono in Hbad as [_ Hbad]. done. }
  set (h := next_session (counters m)) in *.
  split; cbn [discovered counters slots session_slots next_session]; [done|done|..].
  - intros id' b0 s0 E. apply lookup_insert_Some in E as [[<- E]|[Hne E]].
    + simplify_eq. split_and!; [done| |].
      * cbn [sessions set_sessions]. intros k t Et.
        apply lookup_insert_Some in Et as [[<- <-]|[Hk Et]].
        -- split; [done|]. apply lookup_insert_eq.
        -- rewrite lookup_insert_ne by done. eauto.
      * cbn [login_role set_sessions]. intros Er k t Et Eid.
        cbn [sessions set_sessions] in Et. apply lookup_insert_Some in Et as [[<- <-]|[Hk Et]].
        -- by apply Hrw.
        -- by eapply (T3 Er).
    + destruct (I3 _ _ _ E) as (U1 & U2 & U3). split_and!; [done| |done].
      intros k t Et. destruct (U2 _ _ Et) as [V1 V2]. split; [done|].
      rewrite lookup_insert_ne; [done|]. intros <-. congruence.
  - intros k id' E. apply lookup_insert_Some in E as [[<- <-]|[Hne E]].
    + split; [done|]. rewrite lookup_insert_eq. eexists _, _. split; [done|].
      cbn [sessions set_sessions]. rewrite lookup_insert_eq. by eexists.
    + destruct (I4 _ _ E) as (V1 & b0 & s0 & V2 & V3). split; [by apply Hmono|].
      destruct (decide (id' = id)) as [->|Hne'].
      * rewrite lookup_insert_eq. eexists _, _. split; [done|]. cbn [sessions set_sessions].
        rewrite lookup_insert_ne by done.
        apply (backend_is_Some (mkContext b s (counters m)) x1 k); [apply Fk|].
        cbn [state]. congruence.
      * rewrite lookup_insert_ne by done. eauto.
Qed.

Lemma inv_open_session id fl wr : preserves module_inv (open_session_inner id fl wr : MM Z).
Proof.
  intros m Hm. unfold open_session_inner, with_slot_context_mut. rewrite !sm_bind_unfold.
  rewrite module_init_discovered by apply Hm. rewrite sm_bind_unfold.
  pose proof (inv_slot_visible id m Hm) as Hv. unfold slot_visible in *.
  destruct (slots m !! id) as [[b s]|] eqn:Es; [|done].
  destruct (slot_is_visible b); [|done]. unfold run_on_slot. rewrite Es.
  destruct (lock_operation b); [|done|done].
  destruct (open_session_in id fl wr (mkContext b s (counters m))) as [r x] eqn:Eo.
  assert (id = slot_id s) as Hid by (symmetry; by apply (inv_slots m Hm id b s)).
  apply open_session_in_spec in Eo as [[Hf Hr]|(x1 & h & -> & Hf & Ea & Hrw & Hst)]; [| |done].
  - assert (module_inv (mkModule (<[id := (slot x, state x)]> (slots m)) (session_slots m) (discovered m) (handles x))).
    { apply (inv_write_back m id b s); [done|done|apply Hf|..].
      - eapply slot_ok_login_framed; [by apply framed_login|]. by eapply inv_slots.
      - intros k. destruct Hf as (_ & _ & Hk & _). apply (backend_is_Some (mkContext b s (counters m)) x k), Hk. }
    destruct r as [h|e|]; [by destruct (Hr h)|done|done].
  - unfold register_session. cbn [slots session_slots]. rewrite lookup_insert_eq, bool_decide_true by done.
    cbn [negb]. cbn [handles] in Ea.
    pose proof (inv_add_session m id b s x1 h _ (slot x) fl (next_object (handles x)) Hm Es Hf Ea Hrw) as Hinv.
    pose proof Ea as (_ & _ & _ & _ & Hmono)%allocate_handle_Ok; [|apply Hm].
    destruct (session_slots m !! h) eqn:Er.
    { apply (inv_registry m Hm) in Er as [Hbad _]. apply Hmono in Hbad as [_ Hbad]. done. }
    cbn [snd set_session_slots slots session_slots discovered counters].
    rewrite Hst. destruct (handles x). exact Hinv.
Qed.

(** As [framed], with the sessions [ks] closed. *)
Definition closes (ks : list Z) (x y : Ctx) : Prop :=
  next_session (handles y) = next_session (handles x) ∧
  slot_id (state y) = slot_id (state x) ∧
  (∀ k, backend <$> sessions (state y) !! k =
        if bool_decide (k ∈ ks) then None else backend <$> sessions (state x) !! k) ∧
  (login_role (state y) = login_role (state x) ∨ login_role (state y) = None).

Lemma closes_after ks x y z : framed x y → closes ks y z → closes ks x z.
Proof.
  intros (A1 & A2 & A3 & A4) (B1 & B2 & B3 & B4). split_and!; [congruence..| |].
  - intros k. by rewrite B3, A3.
  - destruct B4 as [->|B4]; auto.
Qed.
Lemma closes_before ks x y z : closes ks x y → framed y z → closes ks x z.
Proof.
  intros (A1 & A2 & A3 & A4) (B1 & B2 & B3 & B4). split_and!; [congruence..| |].
  - intros k. by rewrite B3, A3.
  - destruct B4 as [->|B4]; auto.
Qed.

Lemma inv_remove_sessions m id b s ks (y : Ctx) reg :
  module_inv m → slots m !! id = Some (b, s) → closes ks (mkContext b s (counters m)) y →
  (∀ k, k ∈ ks → is_Some (sessions s !! k)) →
  (∀ k, reg !! k = if bool_decide (k ∈ ks) then None else session_slots m !! k) →
  module_inv (mkModule (<[id := (slot y, state y)]> (slots m)) reg (discovered m) (handles y)).
Proof.
  intros [I1 I2 I3 I4] Es (C1 & C2 & C3 & C4) Hks Hreg. cbn [handles state] in *.
  destruct (I3 _ _ _ Es) as (S1 & S2 & S3).
  split; cbn [discovered counters slots session_slots]; [done|by rewrite C1|..].
  - intros id' b0 s0 E. apply lookup_insert_Some in E as [[<- E]|[Hne E]].
    + simplify_eq. split_and!; [congruence| |].
      * intros k t Et. specialize (C3 k). rewrite Et in C3. rewrite Hreg.
        case_bool_decide; [done|]. symmetry in C3. apply fmap_Some in C3 as (t' & Et' & Eb).
        rewrite Eb. eauto.
      * intros Er k t Et Eid. specialize (C3 k). rewrite Et in C3. case_bool_decide; [done|].
        symmetry in C3. apply fmap_Some in C3 as (t' & Et' & Eb). rewrite Eb in *.
        destruct C4 as [C4|C4]; [|congruence]. eapply S3; [congruence|done|congruence].
    + destruct (I3 _ _ _ E) as (U1 & U2 & U3). split_and!; [done| |done].
      intros k t Et. destruct (U2 _ _ Et) as [V1 V2]. split; [done|]. rewrite Hreg.
      case_bool_decide as Hin; [|done]. destruct (Hks k Hin) as [t' Et']. apply S2 in Et' as [_ Ek].
      congruence.
  - intros k id' E. rewrite Hreg in E. case_bool_decide as Hin; [done|].
    destruct (I4 _ _ E) as (V1 & b0 & s0 & V2 & V3). rewrite C1. split; [done|].
    destruct (decide (id' = id)) as [->|Hne'].
    + rewrite lookup_insert_eq. eexists _, _. split; [done|]. specialize (C3 k).
      rewrite bool_decide_false in C3 by done. simplify_eq. destruct V3 as [t Et]. rewrite Et in C3.
      apply fmap_Some in C3 as (t' & Et' & _). by eexists.
    + rewrite lookup_insert_ne by done. eauto.
Qed.

Lemma frames_close_session_logout k : frames (close_session_logout k : M _).
Proof. unfold close_session_logout. frame. apply frames_logout_or_clear. Qed.

Lemma remove_creator_objects_Ok s hs (x : Ctx) : (remove_creator_objects s hs x).1 = Ok tt.
Proof.
  revert x. induction hs as [|h hs IH]; intros x; [done|]. cbn [remove_creator_objects].
  rewrite sm_bind_unfold. unfold gets. rewrite sm_bind_unfold.
  destruct (memory_objects (state x) !! h) as [o|]; [|apply IH].
  destruct (session_object o) as [device_handle|]; [|apply IH].
  unfold sm_ignore, on_slot. pose proof (delete_session_object_returns s device_handle (slot x)) as Hr.
  destruct (delete_session_object s device_handle (slot x)) as [[a|e|] b]; [apply IH|apply IH|done].
Qed.

Lemma close_session_in_spec k (x y : Ctx) r :
  close_session_in k x = (r, y) →
  match r with
  | Ok _ => is_Some (sessions (state x) !! k) ∧ closes [k] x y
  | _ => framed x y
  end.
Proof.
  unfold close_session_in. rewrite sm_bind_unfold. intros E.
  pose proof (frames_close_session_logout k x) as F.
  destruct (close_session_logout k x) as [[le|e|] x4]; cbn [snd] in F; [|by simplify_eq..].
  rewrite sm_bind_unfold in E. unfold gets at 1, sm_lift in E. rewrite sm_bind_unfold in E.
  destruct (sessions (state x4) !! k) as [session|] eqn:Ek; cbn [ok_or] in E; [|by simplify_eq].
  rewrite !sm_bind_unfold in E. cbn [modify_state] in E. rewrite sm_bind_unfold in E. unfold gets in E.
  set (x5 := mkContext (slot x4) (set_sessions (delete k (sessions (state x4))) (state x4)) (handles x4)) in E.
  assert (closes [k] x x5) as C5.
  { eapply closes_after; [exact F|]. split_and!; [done|done| |by left].
    intros j. cbn [x5 state sessions set_sessions]. destruct (decide (j = k)) as [->|Hne].
    - rewrite lookup_delete_eq, bool_decide_true by set_solver. done.
    - rewrite lookup_delete_ne, bool_decide_false by set_solver. done. }
  pose proof (frames_remove_creator_objects (backend session) (created_by k (state x5)) x5) as F5.
  pose proof (remove_creator_objects_Ok (backend session) (created_by k (state x5)) x5) as R5.
  rewrite sm_bind_unfold in E.
  destruct (remove_creator_objects _ _ x5) as [r6 x6]. cbn [fst snd] in *. subst r6.
  unfold sm_ret in E. simplify_eq. split; [|by eapply closes_before].
  destruct F as (_ & _ & F & _). apply (backend_is_Some x x4 k); [apply F|]. by eexists.
Qed.

Lemma elem_of_sessions_of id (s : SlotState P) k :
  k ∈ sessions_of id s ↔ ∃ t, sessions s !! k = Some t ∧ slotID (backend t) = id.
Proof.
  unfold sessions_of. rewrite list_elem_of_fmap. split.
  - intros ([k' t] & -> & E). apply list_elem_of_In, filter_In in E as [E Hid]. bool_to_prop.
    apply list_elem_of_In, elem_of_map_to_list in E. eauto.
  - intros (t & Et & Hid). exists (k, t). split; [done|]. apply list_elem_of_In, filter_In.
    split; [by apply list_elem_of_In, elem_of_map_to_list|]. by apply Z.eqb_eq.
Qed.

Lemma frames_close_all_logout id : frames (close_all_logout id : M _).
Proof. unfold close_all_logout. frame. apply frames_logout_or_clear. Qed.

Lemma close_all_in_spec id (x y : Ctx) r :
  close_all_in id x = (r, y) →
  match r with
  | Ok (closed, _) => closed = sessions_of id (state x) ∧ closes closed x y
  | _ => framed x y
  end.
Proof.
  unfold close_all_in. rewrite sm_bind_unfold. unfold gets. rewrite sm_bind_unfold. intros E.
  pose proof (frames_close_all_logout id x) as F.
  destruct (close_all_logout id x) as [[le|e|] x1]; cbn [snd] in F; [|by simplify_eq..].
  rewrite sm_bind_unfold in E. unfold modify_state, sm_ret in E. simplify_eq. split; [done|].
  eapply closes_after; [exact F|]. split_and!; [done|done| |by left].
  cbn [state sessions set_sessions set_memory]. intros k.
  destruct F as (_ & _ & F & _). specialize (F k).
  rewrite map_lookup_filter. destruct (sessions (state x1) !! k) as [t|] eqn:Et; cbn [mbind option_bind].
  - symmetry in F. apply fmap_Some in F as (t' & Et' & Eb).
    destruct (decide (slotID (backend t) = id)) as [Hid|Hid].
    + rewrite option_guard_False by tauto.
      rewrite bool_decide_true; [done|]. apply elem_of_sessions_of. exists t'. by rewrite <- Eb.
    + rewrite option_guard_True by done. rewrite bool_decide_false; [done|].
      intros (t2 & Et2 & Hid2)%elem_of_sessions_of. congruence.
  - by case_bool_decide.
Qed.

Lemma inv_framed_write m id b s (x : Ctx) :
  module_inv m → slots m !! id = Some (b, s) → framed (mkContext b s (counters m)) x →
  module_inv (mkModule (<[id := (slot x, state x)]> (slots m)) (session_slots m) (discovered m) (handles x)).
Proof.
  intros Hm Es Hf. apply (inv_write_back m id b s); [done|done|apply Hf|..].
  - eapply slot_ok_login_framed; [by apply framed_login|]. by eapply inv_slots.
  - intros k. destruct Hf as (_ & _ & Hk & _). apply (backend_is_Some (mkContext b s (counters m)) x k), Hk.
Qed.

Lemma inv_close_session k : preserves module_inv (close_session k : MM unit).
Proof.
  intros m Hm. unfold close_session, with_session_context_mut. rewrite !sm_bind_unfold.
  unfold sm_gets, session_slot. destruct (session_slots m !! k) as [id|] eqn:Ek; [|done].
  cbn [ok_or sm_lift]. rewrite sm_bind_unfold. cbn [sm_lift]. unfold run_on_slot.
  destruct (slots m !! id) as [[b s]|] eqn:Es; [|done]. destruct (lock_operation b); [|done|done].
  destruct (close_session_in k (mkContext b s (counters m))) as [r x] eqn:Ec.
  apply close_session_in_spec in Ec. destruct r as [le|e|]; [|by eapply inv_framed_write..].
  destruct Ec as [Hk Hc]. unfold sbind, sm_modify, unregister_session, set_session_slots.
  assert (module_inv (mkModule (<[id := (slot x, state x)]> (slots m)) (delete k (session_slots m))
    (discovered m) (handles x))) as Hinv.
  { eapply inv_remove_sessions; [done|done|exact Hc| |].
    - intros j Hj. by apply list_elem_of_singleton in Hj as ->.
    - intros j. destruct (decide (j = k)) as [->|Hne].
      + rewrite lookup_delete_eq, bool_decide_true by set_solver. done.
      + rewrite lookup_delete_ne, bool_decide_false by set_solver. done. }
  by destruct le.
Qed.

Lemma unregister_all_spec ks (m : Mod) :
  let m' := foldl (λ m k, unregister_session k m) m ks in
  slots m' = slots m ∧ discovered m' = discovered m ∧ counters m' = counters m ∧
  ∀ k, session_slots m' !! k = if bool_decide (k ∈ ks) then None else session_slots m !! k.
Proof.
  revert m. induction ks as [|j ks IH]; intros m; cbn [foldl].
  { split_and!; [done..|]. intros k. by rewrite bool_decide_false by set_solver. }
  destruct (IH (unregister_session j m)) as (-> & -> & -> & E). split_and!; [done..|].
  intros k. rewrite E. cbn [session_slots unregister_session set_session_slots].
  destruct (decide (k = j)) as [->|Hne].
  - rewrite lookup_delete_eq, (bool_decide_true (j ∈ j :: ks)) by set_solver. by case_bool_decide.
  - rewrite lookup_delete_ne by done. rewrite (bool_decide_ext (k ∈ ks) (k ∈ j :: ks)); [done|]. set_solver.
Qed.

Lemma inv_close_all_sessions id : preserves module_inv (close_all_sessions id : MM unit).
Proof.
  intros m Hm. unfold close_all_sessions, with_slot_context_mut. rewrite !sm_bind_unfold.
  rewrite module_init_discovered by apply Hm. rewrite sm_bind_unfold.
  unfold slot_visible. destruct (slots m !! id) as [[b s]|] eqn:Es; [|done].
  destruct (slot_is_visible b); [|done]. unfold run_on_slot. rewrite Es.
  destruct (lock_operation b); [|done|done].
  destruct (close_all_in id (mkContext b s (counters m))) as [r x] eqn:Ec.
  apply close_all_in_spec in Ec. destruct r as [[closed le]|e|]; [|by eapply inv_framed_write..].
  destruct Ec as [-> Hc]. unfold sbind, sm_modify.
  set (m1 := mkModule _ _ _ _). destruct (unregister_all_spec (sessions_of id s) m1) as (U1 & U2 & U3 & U4).
  set (m2 := foldl _ m1 _) in *.
  assert (module_inv m2) as Hinv; [|by destruct le].
  destruct m2 as [sl2 ss2 d2 c2]. cbn in U1, U2, U3, U4. subst sl2 d2 c2.
  eapply inv_remove_sessions; [done|done|exact Hc| |exact U4].
  intros k (t & Et & _)%elem_of_sessions_of. by eexists.
Qed.
End module_invariant.

(** ** Reachable modules *)

Section reachability.
Context {B P : Type} `{Slot B} `{!SlotLaws B} `{StorageProvider P} `{Sha3, MiniCbor} `{BackedObjects}
  `{Environment B P}.
Abbreviation Mod := (Module B P).
Abbreviation Ctx := (SlotContext B P).
Abbreviation M := (SM Ctx Error).

(** One call of the library, whatever it returns. *)
Inductive api_step (m : Mod) : Mod → Prop :=
| step_open id fl : api_step m (open_session id fl m).2
| step_open_prepared id fl : api_step m (open_prepared_session id fl m).2
| step_close k : api_step m (close_session k m).2
| step_close_all id : api_step m (close_all_sessions id m).2
| step_cancel k fl : api_step m (session_cancel k fl m).2
| step_init_token id pin n label : api_step m (init_token id pin n label m).2
| step_init_pin k pin n : api_step m (init_pin k pin n m).2
| step_set_pin k old n new n' : api_step m (set_pin k old n new n' m).2
| step_session_info k : api_step m (get_session_info k m).2
| step_login k user pin n : api_step m (C_Login k user pin n m).2
| step_login_user k user pin n name n' : api_step m (login_user k user pin n name n' m).2
| step_logout k : api_step m (logout k m).2
| step_find_init k templ : api_step m (find_objects_init k templ m).2
| step_find k n : api_step m (find_objects k n m).2
| step_find_final k : api_step m (find_objects_final k m).2
| step_refresh id : api_step m (refresh_token_objects id m).2.

(** Discovery has run; no session is open and nobody is logged in. *)
Definition initial (m : Mod) : Prop :=
  discovered m = true ∧ 0 ≤ next_session (counters m) ≤ CK_ULONG_MAX ∧ session_slots m = ∅ ∧
  ∀ id b s, slots m !! id = Some (b, s) → slot_id s = id ∧ sessions s = ∅ ∧ login_role s = None.

Lemma initial_inv m : initial m → module_inv m.
Proof.
  intros (I1 & I2 & I3 & I4). split; [done|done| |].
  - intros id b s Es. apply I4 in Es as (E1 & E2 & E3). unfold slot_ok. rewrite E2, E3.
    split_and!; [done| |done]. intros k t Et. by rewrite lookup_empty in Et.
  - intros k id Ek. by rewrite I3, lookup_empty in Ek.
Qed.

Lemma inv_map_err {A} (f : Error → Error) (c : SM Mod Error A) :
  preserves module_inv c → preserves module_inv (sm_map_err f c).
Proof. apply preserves_map_err. Qed.

Lemma inv_step m m' : api_step m m' → module_inv m → module_inv m'.
Proof.
  intros [] Hm.
  - by apply inv_open_session.
  - by apply inv_open_session.
  - by apply inv_close_session.
  - by apply inv_close_all_sessions.
  - apply inv_with_session; [|done]. apply frames_login, frames_session_cancel.
  - unfold init_token. apply preserves_bind; [by intros ? ?|intros lab|done].
    apply preserves_bind; [by intros ? ?|intros _]. unfold with_pin.
    apply preserves_bind; [by intros ? ?|intros p]. apply preserves_bind; [by intros ? ?|intros _].
    apply inv_with_slot, frames_login, frames_init_token.
  - apply inv_with_session; [|done]. apply frames_login, frames_init_pin.
  - apply inv_with_session; [|done]. apply frames_login, frames_set_pin.
  - apply inv_with_session; [|done]. apply frames_login, frames_get_session_info.
  - unfold C_Login. apply inv_map_err; [|done]. apply inv_with_session, login_frames_login.
  - apply inv_with_session; [|done]. apply login_frames_login_user.
  - apply inv_with_session; [|done]. apply frames_login, frames_logout.
  - apply inv_with_session; [|done]. apply frames_login, frames_find_objects_init.
  - apply inv_with_session; [|done]. apply frames_login, frames_find_objects.
  - apply inv_with_session; [|done]. apply frames_login, frames_find_objects_final.
  - apply inv_with_slot; [|done]. apply frames_login, frames_refresh_token_objects.
Qed.

Lemma inv_reachable m0 m : initial m0 → rtc api_step m0 m → module_inv m.
Proof.
  intros Hi Hr. apply initial_inv in Hi. induction Hr as [|x y z Hxy _ IH]; [done|].
  apply IH. by eapply inv_step.
Qed.

(** C2: The session registry is exact. In every module reached by any sequence of
    calls, a session handle is registered for a slot exactly when that slot has a
    session under this handle, and that session's backend belongs to that slot;
    so a handle never selects a session of another slot, and closed sessions are
    forgotten even when the logout that goes with the last one failed. *)
Theorem session_registry_exact (m0 m : Mod) (k id : Z) :
  initial m0 → rtc api_step m0 m →
  session_slots m !! k = Some id ↔
  ∃ b s t, slots m !! id = Some (b, s) ∧ sessions s !! k = Some t ∧ slotID (backend t) = id.
Proof.
  intros Hi Hr. destruct (inv_reachable m0 m Hi Hr) as [_ _ I3 I4]. split.
  - intros Ek. destruct (I4 _ _ Ek) as (_ & b & s & Es & [t Et]).
    destruct (I3 _ _ _ Es) as (_ & S2 & _). exists b, s, t. split_and!; [done..|]. by eapply S2.
  - intros (b & s & t & Es & Et & _). destruct (I3 _ _ _ Es) as (_ & S2 & _). by eapply S2.
Qed.

(** C1: Read-only sessions and the security officer exclude each other: in every
    module reached by any sequence of calls, while the security officer is
    recorded as logged in to a slot, every session of that slot is read/write. *)
Theorem so_excludes_read_only_sessions (m0 m : Mod) (id k : Z) (b : B) (s : SlotState P)
    (t : SessionContext) :
  initial m0 → rtc api_step m0 m → slots m !! id = Some (b, s) → login_role s = Some So →
  sessions s !! k = Some t → has_flag (flags (backend t)) CKF_RW_SESSION = true.
Proof.
  intros Hi Hr Es Er Et. destruct (inv_reachable m0 m Hi Hr) as [_ _ I3 _].
  destruct (I3 _ _ _ Es) as (S1 & S2 & S3). eapply S3; [done|done|].
  destruct (S2 _ _ Et) as [-> _]. congruence.
Qed.
End reachability.

(** ** Closing the last session *)

Section close_last.
Context {B P : Type} `{Slot B} `{!SlotLaws B} `{StorageProvider P} `{Sha3, MiniCbor} `{BackedObjects}
  `{Environment B P}.
Abbreviation Mod := (Module B P).
Abbreviation Ctx := (SlotContext B P).
Abbreviation M := (SM Ctx Error).

Lemma clear_login_state_role id (x : Ctx) :
  id = slot_id (state x) → login_role (state (clear_login_state id x).2) = None.
Proof. intros ->. unfold clear_login_state. by rewrite Z.eqb_refl. Qed.

Lemma framed_no_role (x y : Ctx) : framed x y → login_role (state x) = None → login_role (state y) = None.
Proof. intros (_ & _ & _ & [->|E]); done. Qed.

Lemma logout_slot_role id (x y : Ctx) u :
  logout_slot id x = (Ok u, y) → login_role (state y) = None.
Proof.
  unfold logout_slot. intros E.
  apply sm_bind_Ok in E as (active & y1 & _ & E). apply sm_bind_Ok in E as (role & y2 & _ & E).
  apply sm_bind_Ok in E as (? & y3 & _ & E). apply sm_bind_Ok in E as (? & y4 & _ & E).
  apply sm_bind_Ok in E as (? & y5 & E5 & E). apply sm_bind_Ok in E as (? & y6 & E6 & E).
  apply get_slot_Ok in E5 as [-> Hid].
  assert (id = slot_id (state y6)) as Hid6.
  { unfold on_slot in E6. destruct (set_login_role None (slot y4)). by simplify_eq. }
  apply sm_bind_Ok in E as (? & y7 & E7 & E).
  pose proof (clear_login_state_role id y6 Hid6) as Hr. rewrite E7 in Hr. cbn [snd] in Hr.
  assert (frames (let! _ := get_slot id in let! again := asks refresh_token_objects_after_logout in
    if (again : bool) then refresh_slot_token_objects id else sm_ret tt : M unit)) as Hf by frame.
  specialize (Hf y7). rewrite E in Hf. by eapply framed_no_role.
Qed.

Lemma logout_or_clear_role id (x y : Ctx) le :
  id = slot_id (state x) → logout_or_clear id x = (Ok le, y) → login_role (state y) = None.
Proof.
  unfold logout_or_clear. intros Hid E. pose proof (frames_logout_slot id x) as F.
  destruct (logout_slot id x) as [[u|e|] x1] eqn:El; cbn [snd] in F; [| |done].
  - simplify_eq. by eapply logout_slot_role.
  - rewrite sm_bind_unfold in E. destruct F as (_ & F & _).
    pose proof (clear_login_state_role id x1) as Hr. unfold clear_login_state in *.
    destruct (negb (id =? slot_id (state x1))) eqn:En; [bool_to_prop; congruence|].
    unfold sbind, modify_slot, sm_ret in E. by simplify_eq.
Qed.

(** When no other session of the slot remains, nobody stays logged in. *)
Lemma close_session_logout_role k (x y : Ctx) le s :
  close_session_logout k x = (Ok le, y) → sessions (state x) !! k = Some s →
  slotID (backend s) = slot_id (state x) → (∀ j, is_Some (sessions (state x) !! j) → j = k) →
  login_role (state y) = None.
Proof.
  unfold close_session_logout. intros E Es Hid Hlast.
  rewrite sm_bind_unfold in E. unfold gets, sm_lift in E. rewrite Es in E. cbn [ok_or] in E.
  rewrite !sm_bind_unfold in E. rewrite Hid in E.
  assert (existsb (λ '(h, t), negb (h =? k) && (slotID (backend t) =? slot_id (state x)))
    (map_to_list (sessions (state x))) = false) as Hex.
  { apply not_true_iff_false. intros Hex. apply existsb_exists in Hex as ([h t] & Hin & Ht).
    apply list_elem_of_In, elem_of_map_to_list in Hin. bool_to_prop.
    rewrite (Hlast h) in * by by eexists. done. }
  rewrite Hex in E. cbn [negb andb] in E. cbv beta iota in E. rewrite ?sm_bind_unfold in E.
  destruct (reconcile_login_state (slot_id (state x)) x) as [[u|e|] x1] eqn:Er; [|done|done].
  apply reconcile_login_state_active in Er as [Hid1 Hact]; [|done].
  rewrite sm_bind_unfold in E. unfold is_slot_logged_in in E. rewrite sm_bind_unfold in E.
  unfold slot_login_role, sm_ret in E. rewrite Hid1, Z.eqb_refl in E. cbn [andb] in E.
  rewrite sm_bind_unfold in E.
  assert (∀ x2, login_role (state x2) = None →
    (let! connector := asks has_ccid_login_connector in
     let! _ := if (connector : bool) then modify_slot clear_secure_channel else sm_ret tt in
     sm_ret le : M (option Error)) x2 = (Ok le, y) → login_role (state y) = None) as Hrest.
  { intros x2 Hr2 E2. assert (frames (let! connector := asks has_ccid_login_connector in
     let! _ := if (connector : bool) then modify_slot clear_secure_channel else sm_ret tt in
     sm_ret le : M (option Error))) as Hf by frame.
    specialize (Hf x2). rewrite E2 in Hf. by eapply framed_no_role. }
  destruct (login_role (state x1)) as [role|] eqn:Erole.
  - rewrite Hact in E by by eexists. rewrite bool_decide_true in E by by eexists.
    destruct (logout_or_clear (slot_id (state x)) x1) as [[le'|e|] x2] eqn:El; [|done|done].
    apply (Hrest x2); [eapply logout_or_clear_role; [|exact El]; by symmetry|].
    unfold sbind, asks, modify_slot, sm_ret in *. by destruct (has_ccid_login_connector (slot x2)); simplify_eq.
  - rewrite bool_decide_false in E by (destruct (login_is_active (slot x1)); by intros []).
    apply (Hrest x1); [done|].
    unfold sbind, asks, modify_slot, sm_ret in *. by destruct (has_ccid_login_connector (slot x1)); simplify_eq.
Qed.

Lemma remove_creator_objects_memory s hs (x : Ctx) h :
  memory_objects (state (remove_creator_objects s hs x).2) !! h =
  if bool_decide (h ∈ hs) then None else memory_objects (state x) !! h.
Proof.
  revert x. induction hs as [|j hs IH]; intros x; cbn [remove_creator_objects].
  { by rewrite bool_decide_false by set_solver. }
  rewrite sm_bind_unfold. unfold gets. rewrite sm_bind_unfold.
  set (c := match memory_objects (state x) !! j with Some o => _ | None => _ end).
  assert ((c x).1 = Ok tt ∧ state (c x).2 = state x) as [Hc1 Hc2].
  { unfold c. destruct (memory_objects (state x) !! j) as [o|]; [|done].
    destruct (session_object o) as [d|]; [|done]. unfold sm_ignore, on_slot.
    pose proof (delete_session_object_returns s d (slot x)).
    by destruct (delete_session_object s d (slot x)) as [[]]. }
  destruct (c x) as [r x1]. cbn [fst snd] in *. subst r.
  rewrite sm_bind_unfold. cbn [modify_state]. rewrite IH. cbn [state memory_objects remove_object_handle].
  rewrite Hc2. destruct (decide (h = j)) as [->|Hne].
  - rewrite lookup_delete_eq, (bool_decide_true (j ∈ j :: hs)) by set_solver. by case_bool_decide.
  - rewrite lookup_delete_ne by done. rewrite (bool_decide_ext (h ∈ hs) (h ∈ j :: hs)); [done|]. set_solver.
Qed.

Lemma elem_of_created_by k (s : SlotState P) h :
  h ∈ created_by k s ↔ ∃ o, memory_objects s !! h = Some o ∧ creator_session o = Some k.
Proof.
  unfold created_by. rewrite list_elem_of_fmap. split.
  - intros ([h' o] & -> & E). apply list_elem_of_In, filter_In in E as [E Hc]. bool_to_prop.
    apply list_elem_of_In, elem_of_map_to_list in E. eauto.
  - intros (o & Eo & Hc). exists (h, o). split; [done|]. apply list_elem_of_In, filter_In.
    split; [by apply list_elem_of_In, elem_of_map_to_list|]. by rewrite bool_decide_true.
Qed.

Lemma close_session_in_Ok k (x y : Ctx) le :
  close_session_in k x = (Ok le, y) →
  (∀ h o, memory_objects (state y) !! h = Some o → creator_session o ≠ Some k) ∧
  ∃ x1, close_session_logout k x = (Ok le, x1) ∧ framed x x1 ∧
    (login_role (state x1) = None → login_role (state y) = None).
Proof.
  unfold close_session_in. rewrite sm_bind_unfold. intros E.
  pose proof (frames_close_session_logout k x) as F.
  destruct (close_session_logout k x) as [[le'|e|] x1]; cbn [snd] in F; [|done|done].
  rewrite sm_bind_unfold in E. unfold gets at 1, sm_lift in E. rewrite sm_bind_unfold in E.
  destruct (sessions (state x1) !! k) as [session|] eqn:Ek; cbn [ok_or] in E; [|done].
  rewrite !sm_bind_unfold in E. cbn [modify_state] in E. rewrite sm_bind_unfold in E. unfold gets in E.
  set (x2 := mkContext (slot x1) (set_sessions (delete k (sessions (state x1))) (state x1)) (handles x1)) in E.
  pose proof (remove_creator_objects_memory (backend session) (created_by k (state x2)) x2) as Hm.
  pose proof (remove_creator_objects_Ok (backend session) (created_by k (state x2)) x2) as R.
  pose proof (frames_remove_creator_objects (backend session) (created_by k (state x2)) x2) as F2.
  rewrite sm_bind_unfold in E.
  destruct (remove_creator_objects _ _ x2) as [r3 x3]. cbn [fst snd] in *. subst r3.
  unfold sm_ret in E. simplify_eq. split.
  - intros h o Eo Hc. rewrite Hm in Eo. case_bool_decide as Hin; [done|].
    apply Hin, elem_of_created_by. eauto.
  - exists x1. split_and!; [done..|]. intros Hr. by eapply framed_no_role.
Qed.

Lemma reconcile_login_state_Ok id (x : Ctx) : (reconcile_login_state id x).1 = Ok tt.
Proof.
  unfold reconcile_login_state, is_slot_logged_in, slot_login_role, gets, sm_ret, modify_slot,
    clear_login_state, sbind. by repeat case_if.
Qed.

Lemma logout_or_clear_no_Err id (x : Ctx) e : (logout_or_clear id x).1 ≠ Err e.
Proof.
  unfold logout_or_clear. destruct (logout_slot id x) as [[u|e'|] y]; [done| |done].
  unfold clear_login_state, modify_slot, sm_ret, sbind. by case_if.
Qed.

(** A session that exists is closed unless the backend panics. *)
Lemma close_session_in_no_Err k (x : Ctx) e :
  is_Some (sessions (state x) !! k) → (close_session_in k x).1 ≠ Err e.
Proof.
  intros [s Es]. unfold close_session_in. rewrite sm_bind_unfold.
  assert (∀ e, (close_session_logout k x).1 ≠ Err e) as Hl.
  { intros e'. unfold close_session_logout. rewrite sm_bind_unfold. unfold gets, sm_lift. rewrite Es.
    cbn [ok_or]. rewrite !sm_bind_unfold. pose proof (reconcile_login_state_Ok (slotID (backend s)) x) as Hr.
    cbv beta iota. rewrite ?sm_bind_unfold.
    destruct (reconcile_login_state (slotID (backend s)) x) as [r x1]. cbn [fst] in Hr. subst r.
    unfold is_slot_logged_in, slot_login_role, sm_ret, asks. rewrite !sm_bind_unfold.
    match goal with |- context [if ?c then logout_or_clear ?i else _] => destruct c;
      [pose proof (logout_or_clear_no_Err i x1) as Hn; destruct (logout_or_clear i x1) as [[le|e1|] x2];
         [|by destruct (Hn e1)|done]|] end.
    all: unfold sbind, modify_slot; by case_if. }
  pose proof (frames_close_session_logout k x) as (_ & _ & F & _).
  destruct (close_session_logout k x) as [[le|e'|] x1]; cbn [fst snd] in *; [|by destruct (Hl e')|done].
  rewrite sm_bind_unfold. unfold gets at 1, sm_lift. rewrite sm_bind_unfold.
  destruct (sessions (state x1) !! k) as [session|] eqn:Ek; cbn [ok_or].
  - rewrite !sm_bind_unfold. cbn [modify_state]. rewrite sm_bind_unfold. unfold gets.
    rewrite sm_bind_unfold. set (x2 := mkContext (slot x1) _ _).
    pose proof (remove_creator_objects_Ok (backend session) (created_by k (state x2)) x2) as R.
    destruct (remove_creator_objects _ _ x2) as [r3 x3]. cbn [fst] in R. by subst.
  - specialize (F k). by rewrite Ek, Es in F.
Qed.

(** C3: Closing the last session of a slot ends the login. Whatever the backend
    answers to the logout, when the call returns the slot has no session and no
    recorded role, the handle is no longer registered, and no object created by
    the session is left, also when the call reports the backend's logout error. *)
Theorem close_last_session_ends_login (m m' : Mod) (k id : Z) (b : B) (s : SlotState P)
    (r : outcome Error unit) :
  module_inv m → session_slots m !! k = Some id → slots m !! id = Some (b, s) →
  (∀ j, is_Some (sessions s !! j) → j = k) → lock_operation b = Ok tt →
  close_session k m = (r, m') → r ≠ Panic →
  session_slots m' !! k = None ∧
  ∃ b' s', slots m' !! id = Some (b', s') ∧ sessions s' = ∅ ∧ login_role s' = None ∧
    (∀ h o, memory_objects s' !! h = Some o → creator_session o ≠ Some k).
Proof.
  intros Hm Ek Es Hlast Hl E Hr.
  destruct (inv_registry m Hm _ _ Ek) as (_ & b0 & s0 & Es0 & [t Et]). simplify_eq.
  destruct (inv_slots m Hm _ _ _ Es) as (S1 & S2 & _).
  unfold close_session, with_session_context_mut in E. rewrite !sm_bind_unfold in E.
  unfold sm_gets, session_slot in E. rewrite Ek in E. cbn [ok_or sm_lift] in E.
  rewrite sm_bind_unfold in E. cbn [sm_lift] in E. unfold run_on_slot in E. rewrite Es, Hl in E.
  destruct (close_session_in k (mkContext b s (counters m))) as [rc x] eqn:Ec.
  pose proof Ec as Hspec. apply close_session_in_spec in Hspec.
  destruct rc as [le|e|]; [| |simplify_eq; done].
  - destruct Hspec as [_ (_ & _ & Hk & _)].
    apply close_session_in_Ok in Ec as [Hobj (x1 & El & _ & Hrole)].
    assert (m' = mkModule (<[id := (slot x, state x)]> (slots m)) (delete k (session_slots m))
      (discovered m) (handles x)) as ->.
    { unfold sbind, sm_modify, unregister_session, set_session_slots in E. cbn in E.
      destruct le; unfold sm_err, sm_ret in E; by simplify_eq. }
    cbn [slots session_slots]. split; [by rewrite lookup_delete_eq|].
    exists (slot x), (state x). rewrite lookup_insert_eq. split_and!; [done| | |done].
    + apply map_eq. intros j. rewrite lookup_empty. specialize (Hk j). cbn [state] in Hk.
      destruct (sessions (state x) !! j) eqn:Ej; [|done]. case_bool_decide as Hin; [done|].
      symmetry in Hk. apply fmap_Some in Hk as (t' & Et' & _).
      exfalso. apply Hin. rewrite (Hlast j) by by eexists. set_solver.
    + apply Hrole. eapply close_session_logout_role; [exact El|exact Et| |exact Hlast].
      cbn [state]. destruct (S2 _ _ Et) as [-> _]. done.
  - exfalso. eapply (close_session_in_no_Err k (mkContext b s (counters m)) e); [by eexists|].
    by rewrite Ec.
Qed.
End close_last.

(** ** Login outcomes *)

Section login_outcome.
Context {B P : Type} `{Slot B} `{!SlotLaws B} `{StorageProvider P} `{Sha3, MiniCbor} `{BackedObjects}
  `{Environment B P}.
Abbreviation Ctx := (SlotContext B P).
Abbreviation M := (SM Ctx Error).

Lemma refresh_keeps_role role id :
  preserves (λ x, login_role (state x) = role) (refresh_slot_token_objects id : M unit).
Proof. by apply refresh_invariant. Qed.

Lemma reconcile_login_state_cases id (x y : Ctx) u :
  reconcile_login_state id x = (Ok u, y) → id = slot_id (state x) →
  (y = x ∧ (is_Some (login_role (state x)) → login_is_active (slot x) = true)) ∨
  (login_role (state y) = None ∧ slot_id (state y) = slot_id (state x) ∧ login_is_active (slot x) = false).
Proof.
  intros E ->. unfold reconcile_login_state, is_slot_logged_in, slot_login_role in E.
  rewrite !sm_bind_unfold in E. unfold gets in E. rewrite !sm_bind_unfold in E.
  unfold sm_ret in E. rewrite Z.eqb_refl in E. cbn [andb] in E.
  destruct (login_is_active (slot x)) eqn:Ea.
  - rewrite andb_negb_r in E. simplify_eq. by left.
  - destruct (bool_decide (is_Some (login_role (state x)))) eqn:Er; cbn in E.
    + right. unfold sbind, modify_slot, clear_login_state in E. cbn [state slot] in E.
      rewrite Z.eqb_refl in E. cbn [negb] in E. by simplify_eq.
    + left. simplify_eq. bool_to_prop. done.
Qed.

Lemma get_slot_own (x : Ctx) : get_slot (slot_id (state x)) x = (Ok tt, x).
Proof. unfold get_slot, require_slot_id, gets, guard_err, sbind. by rewrite Z.eqb_refl. Qed.

Lemma on_slot_state {A} (c : SM B Error A) (x : Ctx) : state (on_slot c x).2 = state x.
Proof. unfold on_slot. by destruct (c (slot x)). Qed.

(** The roll-back of a login leaves nobody logged in. *)
Lemma login_rollback id role e (x : Ctx) :
  id = slot_id (state x) →
  let '(r, y) := (abandon_login id role e : M unit) x in
  r = Panic ∨ r = Err e ∧ login_role (state y) = None.
Proof.
  intros ->. unfold abandon_login. rewrite sm_bind_unfold, get_slot_own, sm_bind_unfold. unfold sm_ignore at 1.
  pose proof (on_slot_state (logout_role role) x) as S1.
  destruct (on_slot (logout_role role) x) as [r1 x1]. cbn [snd] in S1.
  assert (let '(r, y) := (let! _ := get_slot (slot_id (state x)) in
    let! _ := sm_ignore (on_slot (set_login_role None)) in
    let! _ := clear_login_state (slot_id (state x)) in sm_err e : M unit) x1 in
    r = Panic ∨ r = Err e ∧ login_role (state y) = None) as Hrest.
  { rewrite <- S1, sm_bind_unfold, get_slot_own, sm_bind_unfold. unfold sm_ignore.
    pose proof (on_slot_state (set_login_role None) x1) as S2.
    destruct (on_slot (set_login_role None) x1) as [r2 x2]. cbn [snd] in S2.
    destruct r2; [| |by left]; rewrite sm_bind_unfold; unfold clear_login_state;
      rewrite S2, Z.eqb_refl; by right. }
  destruct r1; [exact Hrest|exact Hrest|by left].
Qed.

(** Once the role is recorded, the rest of the login keeps it or takes it back. *)
Lemma refresh_after_login_role id role (x : Ctx) :
  id = slot_id (state x) → login_role (state x) = Some role →
  let '(r, y) := (refresh_after_login id role : M unit) x in
  r = Panic ∨ (r = Ok tt ∧ login_role (state y) = Some role) ∨
  (∃ e, r = Err e ∧ login_role (state y) = None).
Proof.
  intros -> Hx. unfold refresh_after_login. rewrite sm_bind_unfold, get_slot_own, sm_bind_unfold.
  unfold asks. destruct (negb _); [by right; left|].
  pose proof (refresh_keeps_role (Some role) (slot_id (state x)) x Hx) as Hk.
  pose proof (frames_refresh (slot_id (state x)) x) as (_ & F & _).
  destruct (refresh_slot_token_objects (slot_id (state x)) x) as [[[]|e|] x5]; cbn [snd] in Hk, F;
    [by right; left| |by left].
  pose proof (login_rollback (slot_id (state x)) role e x5 ltac:(done)) as Hb.
  destruct (abandon_login _ _ _ x5) as [r y]. destruct Hb as [->|[-> Hn]]; eauto.
Qed.

(** A login is recorded exactly when it succeeds. If a role is recorded and
    the backend still holds it, the call fails (already logged in, or another
    role is), and nothing changes. Otherwise success records exactly the
    requested role, and every failure (a read-only session in the way of the
    security officer, wrong credentials, a backend or refresh error) leaves
    nobody recorded as logged in. *)
Theorem login_recorded_iff_success (id : Z) (role : LoginRole) (auth : SM B Error unit) (x y : Ctx)
    (r : outcome Error unit) :
  id = slot_id (state x) → api_login_role id role auth x = (r, y) → r ≠ Panic →
  (∃ active, login_role (state x) = Some active ∧ login_is_active (slot x) = true ∧ y = x ∧
     r = Err (if bool_decide (active = role) then #CKR_USER_ALREADY_LOGGED_IN
              else #CKR_USER_ANOTHER_ALREADY_LOGGED_IN)) ∨
  (r = Ok tt ∧ login_role (state y) = Some role) ∨
  (∃ e, r = Err e ∧ login_role (state y) = None).
Proof.
  intros Hid E Hr. unfold api_login_role in E. rewrite sm_bind_unfold in E.
  pose proof (reconcile_login_state_Ok id x) as Hok.
  destruct (reconcile_login_state id x) as [r0 x1] eqn:Er. cbn [fst] in Hok. subst r0.
  rewrite sm_bind_unfold in E.
  assert (id = slot_id (state x1)) as Hid1.
  { pose proof (frames_reconcile_login_state id x) as (_ & F & _). rewrite Er in F. cbn [snd] in F. congruence. }
  unfold slot_login_role in E. rewrite Hid1, Z.eqb_refl in E. cbn [andb] in E. rewrite <- Hid1 in E.
  apply reconcile_login_state_cases in Er; [|done].
  destruct (if login_is_active (slot x1) then login_role (state x1) else None) as [active|] eqn:Ea.
  { left. destruct (login_is_active (slot x1)) eqn:El; [|done].
    destruct Er as [[-> _]|(Hn & _)]; [|congruence]. exists active. unfold sm_err in E. by simplify_eq. }
  right.
  assert (login_role (state x1) = None) as Hnone.
  { destruct Er as [[-> Hact]|(Hn & _)]; [|done].
    destruct (login_role (state x)) eqn:Elr; [|done]. rewrite Hact in Ea by by eexists. done. }
  clear Er Ea. rewrite sm_bind_unfold in E. unfold gets in E. cbv beta iota in E.
  rewrite sm_bind_unfold in E. unfold guard_err in E. cbv beta in E.
  match type of E with context [if ?c then Err _ else Ok tt] => destruct c end;
    [right; simplify_eq; eauto|].
  rewrite sm_bind_unfold, Hid1, get_slot_own in E. rewrite sm_bind_unfold in E.
  pose proof (on_slot_state auth x1) as S1. destruct (on_slot auth x1) as [ra x2]. cbn [snd] in S1.
  destruct ra as [u|e|]; [|right; simplify_eq; exists e; split; congruence|by simplify_eq].
  rewrite <- S1, sm_bind_unfold, get_slot_own in E.
  pose proof (on_slot_state (set_login_role (Some role)) x2) as S2.
  destruct (on_slot (set_login_role (Some role)) x2) as [rs x3]. cbn [snd] in S2.
  destruct rs as [u'|e|]; [| |by simplify_eq].
  - rewrite sm_bind_unfold in E. unfold set_login_role_state, modify_state in E.
    set (x4 := mkContext (slot x3) (set_role (Some role) (state x3)) (handles x3)) in E.
    assert (slot_id (state x2) = slot_id (state x4)) as Hid4 by (cbn; congruence).
    pose proof (refresh_after_login_role _ role x4 Hid4 eq_refl) as Hb. rewrite E in Hb.
    destruct Hb as [->|Hb]; [done|exact Hb].
  - right. assert (slot_id (state x2) = slot_id (state x3)) as Hid3 by congruence.
    rewrite Hid3, sm_bind_unfold, get_slot_own, sm_bind_unfold in E. unfold sm_ignore in E.
    pose proof (on_slot_state (logout_role role) x3) as S3.
    destruct (on_slot (logout_role role) x3) as [rl x6]. cbn [snd] in S3.
    destruct rl; [| |by simplify_eq]; unfold sm_err in E; simplify_eq; exists e; split; congruence.
Qed.
End login_outcome.

(** ** Object search *)

Section search.
Context {B P : Type} `{Slot B} `{!SlotLaws B} `{StorageProvider P} `{Sha3, MiniCbor} `{BackedObjects}
  `{Environment B P}.
Abbreviation Ctx := (SlotContext B P).
Abbreviation M := (SM Ctx Error).

(** Consecutive [C_FindObjects] calls with the given array sizes. *)
Fixpoint find_run (k : Z) (sizes : list Z) (x : Ctx) : outcome Error (list (list Z)) :=
  match sizes with
  | [] => Ok []
  | n :: rest =>
      match find_objects_in k n x with
      | (Ok found, y) => let? more := find_run k rest y in Ok (found :: more)
      | (Err e, _) => Err e
      | (Panic, _) => Panic
      end
  end.

Lemma find_objects_in_step k n (x : Ctx) s op :
  sessions (state x) !! k = Some s → slotID (backend s) = slot_id (state x) →
  find_operation s = Some op → 0 ≤ next op ≤ len (objects op) → 0 ≤ n →
  ∃ y s', find_objects_in k n x = (Ok (ztake n (pending op)), y) ∧
    sessions (state y) !! k = Some s' ∧ slotID (backend s') = slot_id (state y) ∧
    find_operation s' = Some (mkFind (objects op) (next op + Z.min (len (pending op)) n)).
Proof.
  intros Es Hid Ho Hr Hn. unfold find_objects_in. rewrite sm_bind_unfold.
  assert (get_session_context k x = (Ok s, x)) as Hg.
  { unfold get_session_context, gets, guard_err, sm_lift, sm_ret, sbind. rewrite Es. cbn [ok_or].
    by rewrite Hid, Z.eqb_refl. }
  rewrite Hg, sm_bind_unfold. unfold sm_lift. rewrite Ho. cbn [ok_or].
  test_false (len (objects op) <? next op). rewrite sm_bind_unfold. unfold update_session.
  rewrite sm_bind_unfold, Hg. unfold modify_state, sm_ret. fold (pending op).
  assert (ztake (Z.min (len (pending op)) n) (pending op) = ztake n (pending op)) as Hcount.
  { destruct (decide (n ≤ len (pending op))); [by rewrite Z.min_r by lia|].
    rewrite Z.min_l by lia. by rewrite !ztake_ge by lia. }
  eexists _, (set_find (Some (mkFind (objects op) (next op + Z.min (len (pending op)) n))) s).
  split_and!.
  - by rewrite Hcount.
  - cbn [state sessions set_sessions]. apply lookup_insert_eq.
  - done.
  - done.
Qed.

Lemma pending_advance op n :
  0 ≤ next op ≤ len (objects op) → 0 ≤ n →
  let op' := mkFind (objects op) (next op + Z.min (len (pending op)) n) in
  0 ≤ next op' ≤ len (objects op') ∧ pending op' = zdrop n (pending op).
Proof.
  intros Hr Hn. unfold pending. cbn [next objects]. rewrite len_zdrop by lia.
  split; [lia|]. unfold zdrop, len in *. rewrite drop_drop.
  destruct (decide (n ≤ Z.of_nat (length (objects op)) - next op)).
  - f_equal. lia.
  - rewrite !drop_ge by lia. done.
Qed.

(** Searching returns every match once. Whatever array sizes the application
    passes, the [C_FindObjects] calls of one search do not fail and return, put
    together, a prefix of the search result in order, of exactly the requested
    total size or the whole result; so nothing is skipped or repeated at the
    boundaries between calls. *)
Theorem find_objects_enumerates (k : Z) (sizes : list Z) (x : Ctx) (s : SessionContext) (op : FindOperation) :
  sessions (state x) !! k = Some s → slotID (backend s) = slot_id (state x) →
  find_operation s = Some op → 0 ≤ next op ≤ len (objects op) → Forall (Z.le 0) sizes →
  ∃ found, find_run k sizes x = Ok found ∧
    concat found = ztake (foldr Z.add 0 sizes) (pending op).
Proof.
  revert x s op. induction sizes as [|n sizes IH]; intros x s op Es Hid Ho Hr Hs.
  { exists []. by split. }
  inversion Hs as [|? ? Hn Hs']; subst. cbn [find_run foldr].
  destruct (find_objects_in_step k n x s op Es Hid Ho Hr Hn) as (y & s' & -> & Es' & Hid' & Ho').
  destruct (pending_advance op n Hr Hn) as [Hr' Hp].
  destruct (IH y s' _ Es' Hid' Ho' Hr' Hs') as (found & -> & Ef). eexists. split; [done|].
  cbn [concat]. rewrite Ef, Hp.
  assert (0 ≤ foldr Z.add 0 sizes) as Hsum by (clear -Hs'; induction Hs'; simpl; lia).
  unfold ztake, zdrop. rewrite Z2Nat.inj_add by lia. apply take_take_drop.
Qed.

Lemma matching_handles_spec x k logged_in templ objs found h :
  matching_handles x k logged_in templ objs = Ok found →
  h ∈ found ↔ ∃ o, (h, o) ∈ objs ∧ is_visible_to logged_in o = true ∧
    template_matches x k h o templ = Ok true.
Proof.
  revert found. induction objs as [|[h' o'] objs IH]; intros found E; cbn [matching_handles] in E.
  { simplify_eq. split; [by intros ?%elem_of_nil|]. intros (o & Hin & _). by apply elem_of_nil in Hin. }
  destruct (is_visible_to logged_in o') eqn:Ev; cbn [negb] in E.
  - apply bind_Ok in E as (m & Em & E). apply bind_Ok in E as (rest & Er & E). simplify_eq.
    specialize (IH rest Er). destruct m.
    + rewrite elem_of_cons, IH. split.
      * intros [->|(o & Hin & Ho)]; [exists o'|exists o]; (split; [|done]); [by left|by right].
      * intros (o & [Hin|Hin]%elem_of_cons & Ho); [left; by simplify_eq|right; eauto].
    + rewrite IH. split.
      * intros (o & Hin & Ho). exists o. split; [by right|done].
      * intros (o & [Hin|Hin]%elem_of_cons & Hv & Ho); [simplify_eq; congruence|eauto].
  - rewrite (IH found E). split.
    + intros (o & Hin & Ho). exists o. split; [by right|done].
    + intros (o & [Hin|Hin]%elem_of_cons & Hv & Ho); [simplify_eq; congruence|eauto].
Qed.

Lemma update_session_Ok k f (x y : Ctx) u :
  update_session k f x = (Ok u, y) →
  ∃ s, sessions (state x) !! k = Some s ∧ slotID (backend s) = slot_id (state x) ∧
    sessions (state y) !! k = Some (f s) ∧ slot_id (state y) = slot_id (state x) ∧
    memory_objects (state y) = memory_objects (state x) ∧
    token_object_handles (state y) = token_object_handles (state x).
Proof.
  unfold update_session. rewrite sm_bind_unfold. intros E.
  destruct (get_session_context k x) as [[s|e|] x1] eqn:Eg; [|done|done].
  apply get_session_context_Ok in Eg as (-> & Es & Hid). unfold modify_state in E. simplify_eq.
  exists s. split_and!; try done. apply lookup_insert_eq.
Qed.

(** A search finds exactly the visible objects that match. When
    [C_FindObjectsInit] succeeds, the session's new search starts at the first of
    the handles in ascending order, and the handles are exactly those of the
    slot's objects that match the template and are public, or any that match
    when the user is logged in; without a user login no private object is found. *)
Theorem find_objects_init_exact (k : Z) (templ : list (Z * list Z)) (x y : Ctx) :
  find_objects_init_in k templ x = (Ok tt, y) →
  ∃ x0 x1 objs s op id fl logged_in,
    session_details k x = (Ok (id, fl, logged_in), x) ∧
    resolved_objects x0 = (Ok objs, x1) ∧
    sessions (state y) !! k = Some s ∧ find_operation s = Some op ∧ next op = 0 ∧
    StronglySorted Z.le (objects op) ∧
    ∀ h, h ∈ objects op ↔
      ∃ o, (h, o) ∈ objs ∧ (private o = false ∨ logged_in = true) ∧
        template_matches x1 k h o templ = Ok true.
Proof.
  unfold find_objects_init_in. intros E.
  apply sm_bind_Ok in E as ([[id fl] logged_in] & y1 & E1 & E).
  assert (y1 = x) as ->.
  { unfold session_details, get_session, gets, slot_login_role, sm_ret, sm_err, sbind in E1.
    destruct (sessions (state x) !! k); [|done]. by destruct (_ =? _); simplify_eq. }
  apply sm_bind_Ok in E as (session & y2 & _ & E). apply sm_bind_Ok in E as (? & y3 & _ & E).
  apply sm_bind_Ok in E as (? & y4 & _ & E). apply sm_bind_Ok in E as (before & y5 & _ & E).
  apply sm_bind_Ok in E as (? & y6 & _ & E). apply sm_bind_Ok in E as (? & y7 & _ & E).
  apply sm_bind_Ok in E as (objs & y8 & E8 & E). apply sm_bind_Ok in E as (found & y9 & E9 & E).
  simplify_eq. apply update_session_Ok in E as (s & _ & _ & Es & _).
  eexists y7, y9, objs, _, _, id, fl, logged_in. split_and!; [done|done|exact Es|done|done| |].
  - cbn [objects]. apply StronglySorted_merge_sort; apply _.
  - intros h. cbn [objects]. rewrite merge_sort_Permutation.
    rewrite matching_handles_spec by eassumption. unfold is_visible_to.
    split; intros (o & Hin & Hv & Ht); exists o; (split; [done|]); (split; [|done]).
    + destruct (private o), logged_in; cbn in Hv; auto.
    + destruct Hv as [->| ->]; [done|]. apply orb_true_r.
Qed.
End search.

(** ** Concrete runs *)

#[local] Existing Instance toy_sha3_core.
#[local] Existing Instance toy_cbor.

#[local] Instance toy_environment : Environment ToyBackend MemoryStorageProvider := {|
  discover := sm_ret true;
  slot_is_visible _ := true;
  lock_operation _ := Ok tt;
  object_attribute_value _ _ _ o attribute := Ok (if attribute =? 0 then Some [class o] else None);
|}.

Definition toy_module : Module ToyBackend MemoryStorageProvider :=
  mkModule {[0 := (mkToy [toy_token_object 65; toy_token_object 66] false None,
                   mkState 0 memory_new ∅ None ∅ ∅ ∅ ∅ ∅)]} ∅ true counters_new.

Lemma toy_module_initial : initial toy_module.
Proof.
  split_and!; [done|done|done|done|]. intros id b s E. cbn [slots toy_module] in E.
  by apply lookup_singleton_Some in E as [<- ?]; simplify_eq.
Qed.

(** A read/write session is opened, and the security officer logs in. *)
Definition toy_opened := (open_session 0 6 toy_module).2.
Definition toy_so := (C_Login 1 CKU_SO (Some [48]) 1 toy_opened).2.

Lemma toy_opened_reachable : rtc api_step toy_module toy_opened.
Proof. eapply rtc_once, step_open. Qed.
Lemma toy_so_reachable : rtc api_step toy_module toy_so.
Proof. eapply rtc_r; [apply toy_opened_reachable|]. apply step_login. Qed.

Lemma session_registry_exact_witness :
  ∃ b s t, slots toy_opened !! 0 = Some (b, s) ∧ sessions s !! 1 = Some t ∧ slotID (backend t) = 0.
Proof.
  refine (proj1 (session_registry_exact toy_module toy_opened 1 0 toy_module_initial toy_opened_reachable) _).
  vm_compute. reflexivity.
Defined.

Lemma so_excludes_read_only_sessions_witness :
  ∃ b s t, slots toy_so !! 0 = Some (b, s) ∧ login_role s = Some So ∧ sessions s !! 1 = Some t ∧
    has_flag (flags (backend t)) CKF_RW_SESSION = true.
Proof.
  destruct (slots toy_so !! 0) as [[b s]|] eqn:Es; [|vm_compute in Es; discriminate Es].
  assert (login_role s = Some So) as Er by (vm_compute in Es; by simplify_eq).
  destruct (sessions s !! 1) as [t|] eqn:Et; [|vm_compute in Es; simplify_eq; vm_compute in Et; discriminate Et].
  exists b, s, t. split; [done|]. split; [done|]. split; [done|].
  exact (so_excludes_read_only_sessions toy_module toy_so 0 1 b s t toy_module_initial
    toy_so_reachable Es Er Et).
Defined.

Lemma close_last_session_ends_login_witness :
  session_slots (close_session 1 toy_so).2 !! 1 = None.
Proof.
  destruct (slots toy_so !! 0) as [[b s]|] eqn:Es; [|vm_compute in Es; discriminate Es].
  refine (proj1 (close_last_session_ends_login toy_so (close_session 1 toy_so).2 1 0 b s (Ok tt) _ _ Es _ _ _ _)).
  - exact (inv_reachable toy_module toy_so toy_module_initial toy_so_reachable).
  - vm_compute. reflexivity.
  - intros j Hj. assert (sessions s = {[1 := SessionContext_new (mkBackendSession 0 6)]}) as Hs.
    { vm_compute in Es. by simplify_eq. }
    rewrite Hs in Hj. destruct Hj as [t Ht]. by apply lookup_singleton_Some in Ht as [<- _].
  - reflexivity.
  - apply run_result. vm_compute. reflexivity.
  - discriminate.
Defined.

Definition toy_logged_out : SlotContext ToyBackend MemoryStorageProvider :=
  mkContext (mkToy [toy_token_object 65] false None) (set_role None (state toy_start)) (handles toy_start).

Lemma login_recorded_iff_success_witness :
  let run := api_login_role 0 User (authenticate User (Some [49])) toy_logged_out in
  run.1 = Ok tt ∧ login_role (state run.2) = Some User.
Proof.
  destruct (login_recorded_iff_success 0 User (authenticate User (Some [49])) toy_logged_out
    (api_login_role 0 User (authenticate User (Some [49])) toy_logged_out).2 (Ok tt))
    as [(active & Ha & _)|[[_ Hr]|(e & He & _)]].
  - reflexivity.
  - apply run_result. vm_compute. reflexivity.
  - discriminate.
  - discriminate Ha.
  - split; [vm_compute; reflexivity|exact Hr].
  - discriminate He.
Defined.

Lemma find_objects_enumerates_witness :
  ∃ found, find_run 1 [1; 5] (mkContext (slot toy_start) toy_find_state (handles toy_start)) = Ok found ∧
    concat found = [4].
Proof.
  refine (find_objects_enumerates 1 [1; 5] (mkContext (slot toy_start) toy_find_state (handles toy_start))
    toy_find_session toy_find _ _ _ _ _).
  - vm_compute. reflexivity.
  - reflexivity.
  - reflexivity.
  - vm_compute. split; discriminate.
  - constructor; [lia|]. constructor; [lia|]. constructor.
Defined.

Lemma find_objects_init_exact_witness :
  ∃ s op, sessions (state (find_objects_init_in 1 [] toy_ctx).2) !! 1 = Some s ∧
    find_operation s = Some op ∧ next op = 0.
Proof.
  destruct (find_objects_init_exact 1 [] toy_ctx (find_objects_init_in 1 [] toy_ctx).2)
    as (x0 & x1 & objs & s & op & id & fl & logged_in & _ & _ & Hs & Ho & Hn & _).
  - apply run_result. vm_compute. reflexivity.
  - exists s, op. split_and!; [exact Hs|exact Ho|exact Hn].
Defined.
