(* ===== verification/LoginSelectors.v ===== *)
(** * LoginSelectors: which credential a login names

    Models [src/src/pkcs11_uri.rs] (RFC 7512 selectors, their parser and the
    URIs the module generates), the user name and packed-PIN syntax of YubiHSM
    logins ([src/src/backend/yubihsm.rs]), the choice of a card's secure channel
    ([src/src/ccid_auth.rs], [selection]) and the names of secure channels
    ([src/src/backend/ccid.rs]).

    Strings are the lists of their UTF-8 bytes, as in [Storage]: every separator
    is ASCII, so splitting bytes and splitting characters agree. *)
From S2P Require Import Prelude Errors Storage.

(** ** [str] and [slice] methods *)

(** [s.split_once(c)]: split at the first occurrence. *)
Fixpoint split_once (c : Z) (l : list Z) : option (list Z * list Z) :=
  match l with
  | [] => None
  | x :: rest =>
      if x =? c then Some ([], rest)
      else match split_once c rest with
           | Some (a, b) => Some (x :: a, b)
           | None => None
           end
  end.

(** [s.split(c)]: never empty. *)
Fixpoint split (c : Z) (l : list Z) : list (list Z) :=
  match l with
  | [] => [[]]
  | x :: rest =>
      if x =? c then [] :: split c rest
      else match split c rest with
           | piece :: more => (x :: piece) :: more
           | [] => [[x]]
           end
  end.

Definition contains_byte (c : Z) (l : list Z) : bool := existsb (Z.eqb c) l.

Definition ascii_lowercase (b : Z) : Z := if between 65 b 90 then b + 32 else b.
Definition to_ascii_lowercase (l : list Z) : list Z := map ascii_lowercase l.
Definition eq_ignore_ascii_case (a b : list Z) : bool :=
  bool_decide (to_ascii_lowercase a = to_ascii_lowercase b).

(** [s.split_at(i)]: a position inside a character panics. *)
Definition is_char_boundary (l : list Z) (i : Z) : bool :=
  (i =? 0) || (i =? len l) || (i <? len l) && negb (continuation (at_ l i)).
Definition split_at {E} (l : list Z) (i : Z) : outcome E (list Z * list Z) :=
  if is_char_boundary l i then Ok (ztake i l, zdrop i l) else Panic.

(** [slice.iter().position(|b| b == c)] *)
Fixpoint position (c : Z) (l : list Z) : option Z :=
  match l with
  | [] => None
  | x :: rest => if x =? c then Some 0 else option_map (Z.add 1) (position c rest)
  end.

(** [haystack.contains(needle)] for strings. *)
Fixpoint contains_str (needle l : list Z) : bool :=
  starts_with needle l || match l with [] => false | _ :: rest => contains_str needle rest end.

(** [char::is_control], on the bytes of a valid string: the ASCII controls, and
    U+0080 to U+009F, which are C2 80 to C2 9F. *)
Fixpoint has_control (l : list Z) : bool :=
  match l with
  | [] => false
  | b :: rest =>
      (b <? 0x20) || (b =? 0x7f)
      || (b =? 0xc2) && match rest with b1 :: _ => between 0x80 b1 0x9f | [] => false end
      || has_control rest
  end.

(** ** Numbers in text *)

Definition hex (value : Z) : option Z :=
  if between 48 value 57 then Some (value - 48)
  else if between 97 value 102 then Some (value - 97 + 10)
  else if between 65 value 70 then Some (value - 65 + 10)
  else None.

(** [u16::from_str_radix(value, 16)]: an optional plus sign, then at least one
    digit; too large a number is an error. *)
Fixpoint radix16_digits (acc : Z) (l : list Z) : option Z :=
  match l with
  | [] => Some acc
  | b :: rest =>
      match hex b with
      | Some d => if 65535 <? acc * 16 + d then None else radix16_digits (acc * 16 + d) rest
      | None => None
      end
  end.
Definition u16_from_str_radix16 (l : list Z) : option Z :=
  match l with
  | [] => None
  | [b] => if (b =? 43) || (b =? 45) then None else radix16_digits 0 [b]
  | b :: rest => if b =? 43 then radix16_digits 0 rest else radix16_digits 0 l
  end.

(** [format!("{n:04x}")] of a [u16]. *)
Definition format_04x (n : Z) : list Z :=
  [at_ HEX (n / 4096); at_ HEX (n / 256 mod 16); at_ HEX (n / 16 mod 16); at_ HEX (n mod 16)].

Definition UPPER_HEX : list Z := str "0123456789ABCDEF".
(** [format!("{byte:02X}")] *)
Definition format_02X (b : Z) : list Z := [at_ UPPER_HEX (b / 16); at_ UPPER_HEX (b mod 16)].

(** ** Secure-channel protocols *)

Inductive SecureChannelProtocol : Type := Scp03 | Scp11a | Scp11b | Scp11c.
#[export] Instance SecureChannelProtocol_eq_dec : EqDecision SecureChannelProtocol.
Proof. solve_decision. Defined.

Definition SecureChannelProtocol_name (p : SecureChannelProtocol) : list Z :=
  match p with
  | Scp03 => str "scp03"
  | Scp11a => str "scp11a"
  | Scp11b => str "scp11b"
  | Scp11c => str "scp11c"
  end.

Definition parse_secure_channel (value : list Z) : outcome Error SecureChannelProtocol :=
  let value := to_ascii_lowercase value in
  if bool_decide (value = str "scp03") then Ok Scp03
  else if bool_decide (value = str "scp11a") then Ok Scp11a
  else if bool_decide (value = str "scp11b") then Ok Scp11b
  else if bool_decide (value = str "scp11c") then Ok Scp11c
  else Err #CKR_ARGUMENTS_BAD.

(** ** URI selectors *)

Definition AUTHKEY_QUERY : list Z := str "pkcs11rs-authkey".
Definition DIRECT_QUERY : list Z := str "pkcs11rs-direct".

Record ClientAuthUri : Type := mkUri {
  token : option (list Z);
  manufacturer : option (list Z);
  serial : option (list Z);
  model : option (list Z);
  uri_object : option (list Z);
  uri_id : option (list Z);
  class : option Z;
  authkey_id : option Z;
  direct : option (list Z);
  scp : option SecureChannelProtocol;
}.
Definition default_uri : ClientAuthUri := mkUri None None None None None None None None None None.

Definition parse_authkey_id (value : list Z) : outcome Error Z :=
  if negb (len value =? 4) then Err #CKR_PIN_INCORRECT
  else if utf8_valid value then ok_or #CKR_PIN_INCORRECT (u16_from_str_radix16 value)
  else Err #CKR_PIN_INCORRECT.

Definition parse_object_type (value : list Z) : outcome Error Z :=
  if bool_decide (value = str "data") then Ok CKO_DATA
  else if bool_decide (value = str "cert") then Ok CKO_CERTIFICATE
  else if bool_decide (value = str "public") then Ok CKO_PUBLIC_KEY
  else if bool_decide (value = str "private") then Ok CKO_PRIVATE_KEY
  else if bool_decide (value = str "secret-key") then Ok CKO_SECRET_KEY
  else Err #CKR_PIN_INCORRECT.

Definition format_object_type (c : Z) : option (list Z) :=
  if c =? CKO_DATA then Some (str "data")
  else if c =? CKO_CERTIFICATE then Some (str "cert")
  else if c =? CKO_PUBLIC_KEY then Some (str "public")
  else if c =? CKO_PRIVATE_KEY then Some (str "private")
  else if c =? CKO_SECRET_KEY then Some (str "secret-key")
  else None.

Fixpoint percent_decode (value : list Z) : outcome Error (list Z) :=
  match value with
  | [] => Ok []
  | b :: rest =>
      if negb (b =? 37) then
        let? decoded := percent_decode rest in
        Ok (b :: decoded)
      else
        match rest with
        | h :: l :: rest' =>
            let? high := ok_or #CKR_PIN_INCORRECT (hex h) in
            let? low := ok_or #CKR_PIN_INCORRECT (hex l) in
            let? decoded := percent_decode rest' in
            Ok (Z.lor (Z.shiftl high 4) low :: decoded)
        | _ => Err #CKR_PIN_INCORRECT
        end
  end.

Definition is_ascii_alphanumeric (b : Z) : bool :=
  between 48 b 57 || between 65 b 90 || between 97 b 122.
Definition unreserved (b : Z) : bool :=
  is_ascii_alphanumeric b || (b =? 45) || (b =? 46) || (b =? 95) || (b =? 126).
Definition percent_encode (value : list Z) : list Z :=
  flat_map (λ byte, if unreserved byte then [byte] else 37 :: format_02X byte) value.

(** [if destination.replace(decoded).is_some() { return Err(..) }] *)
Definition replace_once (old : option (list Z)) (updated : ClientAuthUri) : outcome Error ClientAuthUri :=
  match old with
  | Some _ => Err #CKR_PIN_INCORRECT
  | None => Ok updated
  end.

(** The [match name] of the loop over the path. *)
Definition store_path_attribute (result : ClientAuthUri) (name decoded : list Z)
    : outcome Error ClientAuthUri :=
  let '(mkUri tk ma se mo ob i cl au di sc) := result in
  if bool_decide (name = str "token") then
    replace_once tk (mkUri (Some decoded) ma se mo ob i cl au di sc)
  else if bool_decide (name = str "manufacturer") then
    replace_once ma (mkUri tk (Some decoded) se mo ob i cl au di sc)
  else if bool_decide (name = str "serial") then
    replace_once se (mkUri tk ma (Some decoded) mo ob i cl au di sc)
  else if bool_decide (name = str "model") then
    replace_once mo (mkUri tk ma se (Some decoded) ob i cl au di sc)
  else if bool_decide (name = str "object") then
    replace_once ob (mkUri tk ma se mo (Some decoded) i cl au di sc)
  else if bool_decide (name = str "id") then
    replace_once i (mkUri tk ma se mo ob (Some decoded) cl au di sc)
  else if bool_decide (name = str "type") then
    match cl with
    | Some _ => Err #CKR_PIN_INCORRECT
    | None =>
        let? type := parse_object_type decoded in
        Ok (mkUri tk ma se mo ob i (Some type) au di sc)
    end
  else Err #CKR_PIN_INCORRECT.

(** The body of the loop over the path. *)
Definition parse_path_component (result : ClientAuthUri) (component : list Z)
    : outcome Error ClientAuthUri :=
  let? '(name, value) := ok_or #CKR_PIN_INCORRECT (split_once 61 component) in
  let? decoded := percent_decode value in
  store_path_attribute result name decoded.

(** The [match name] of the loop over the query. *)
Definition store_query_attribute (result : ClientAuthUri) (name value : list Z)
    : outcome Error ClientAuthUri :=
  let '(mkUri tk ma se mo ob i cl au di sc) := result in
  if bool_decide (name = str "pkcs11rs-scp") then
    match sc with
    | Some _ => Err #CKR_ARGUMENTS_BAD
    | None =>
        let? protocol := parse_secure_channel value in
        Ok (mkUri tk ma se mo ob i cl au di (Some protocol))
    end
  else if bool_decide (name = AUTHKEY_QUERY) then
    match au with
    | Some _ => Err #CKR_PIN_INCORRECT
    | None =>
        let? decoded := percent_decode value in
        let? k := parse_authkey_id decoded in
        Ok (mkUri tk ma se mo ob i cl (Some k) di sc)
    end
  else if bool_decide (name = DIRECT_QUERY) then
    match di with
    | Some _ => Err #CKR_PIN_INCORRECT
    | None =>
        let? decoded := percent_decode value in
        if utf8_valid decoded then Ok (mkUri tk ma se mo ob i cl au (Some decoded) sc)
        else Err #CKR_PIN_INCORRECT
    end
  else if bool_decide (name = str "pin-value") || bool_decide (name = str "pin-source") then
    Err #CKR_ARGUMENTS_BAD
  else if bool_decide (name = str "module-name") || bool_decide (name = str "module-path") then
    Ok result
  else if contains_byte 45 name then Ok result
  else Err #CKR_PIN_INCORRECT.

(** The body of the loop over the query. *)
Definition parse_query_component (result : ClientAuthUri) (component : list Z)
    : outcome Error ClientAuthUri :=
  let? '(name, value) := ok_or #CKR_PIN_INCORRECT (split_once 61 component) in
  store_query_attribute result name value.

Fixpoint parse_components (body : ClientAuthUri → list Z → outcome Error ClientAuthUri)
    (result : ClientAuthUri) (components : list (list Z)) : outcome Error ClientAuthUri :=
  match components with
  | [] => Ok result
  | component :: more =>
      let? result := body result component in
      parse_components body result more
  end.

(** [s.split(c).filter(|component| !component.is_empty())] *)
Definition components (c : Z) (l : list Z) : list (list Z) :=
  filter (λ component, component ≠ []) (split c l).

Definition is_some {A} (o : option A) : bool := match o with Some _ => true | None => false end.

(** A direct credential needs its target and excludes every object selector. *)
Definition direct_conflict (u : ClientAuthUri) : bool :=
  is_some (direct u)
  && (negb (is_some (authkey_id u)) || is_some (token u) || is_some (manufacturer u)
      || is_some (serial u) || is_some (model u) || is_some (uri_object u)
      || is_some (uri_id u) || is_some (class u)).

Definition parse_attributes (path query : list Z) : outcome Error ClientAuthUri :=
  let? result := parse_components parse_path_component default_uri (components 59 path) in
  let? result := parse_components parse_query_component result (components 38 query) in
  if direct_conflict result then Err #CKR_ARGUMENTS_BAD else Ok result.

Definition ClientAuthUri_parse (value : list Z) : outcome Error ClientAuthUri :=
  let? _ := bail (negb (utf8_valid value)) #CKR_PIN_INCORRECT in
  let? '(scheme, rest) := split_at value (Z.min (len value) 7) in
  let? _ := bail (negb (eq_ignore_ascii_case scheme (str "pkcs11:"))) #CKR_PIN_INCORRECT in
  let? _ := bail (contains_byte 35 rest) #CKR_PIN_INCORRECT in
  let '(path, query) := default (rest, []) (split_once 63 rest) in
  parse_attributes path query.

Definition matches_text (expected : option (list Z)) (actual : list Z) : bool :=
  match expected with None => true | Some expected => bool_decide (expected = actual) end.

Definition matches_slot_fields (u : ClientAuthUri) (tk ma se mo : list Z) : bool :=
  matches_text (token u) tk && matches_text (manufacturer u) ma
  && matches_text (serial u) se && matches_text (model u) mo.

Definition object_label (u : ClientAuthUri) : outcome Error (option (list Z)) :=
  match uri_object u with
  | None => Ok None
  | Some value => if utf8_valid value then Ok (Some value) else Err #CKR_PIN_INCORRECT
  end.

Definition is_wildcard_target (u : ClientAuthUri) : bool := negb (is_some (authkey_id u)).

(** ** Generated URIs *)

Definition slot_uri_prefix (label serial : list Z) : list Z :=
  str "pkcs11:token=" ++ percent_encode label ++
  (if negb (bool_decide (serial = [])) && negb (contains_str serial label)
   then str ";serial=" ++ percent_encode serial else []).

Definition object_uri_from_prefix (prefix : list Z) (c : Z) (object id : list Z) : list Z :=
  prefix ++ str ";object=" ++ percent_encode object ++
  (if bool_decide (id = []) then [] else str ";id=" ++ percent_encode id) ++
  match format_object_type c with Some type_ => str ";type=" ++ type_ | None => [] end.

Definition authentication_uri (source : list Z) (authkey_id : Z) : list Z :=
  source ++ str "?" ++ AUTHKEY_QUERY ++ str "=" ++ format_04x authkey_id.

Definition direct_authentication_uri (label : list Z) (authkey_id : Z) : list Z :=
  str "pkcs11:?" ++ DIRECT_QUERY ++ str "=" ++ percent_encode label ++ str "&" ++ AUTHKEY_QUERY
  ++ str "=" ++ format_04x authkey_id.

(** ** YubiHSM user names and packed PINs *)

Record HsmAuthLogin : Type := mkHsmAuthLogin {
  login_label : list Z;
  login_source : option (list Z);
  login_authkey_id : Z;
}.

Record HsmAuthWildcardLogin : Type := mkHsmAuthWildcardLogin {
  wildcard_label : option (list Z);
  wildcard_source : option (list Z);
}.

Inductive YubiHsmLoginUsername : Type :=
| Direct (authkey_id : Z)
| HsmAuth (login : HsmAuthLogin)
| UniversalWildcard
| HsmAuthWildcard (login : HsmAuthWildcardLogin).

Definition parse_yubihsm_authkey_id (value : list Z) : outcome Error Z :=
  if negb (len value =? 4) then Err #CKR_PIN_INCORRECT
  else if utf8_valid value then ok_or #CKR_PIN_INCORRECT (u16_from_str_radix16 value)
  else Err #CKR_PIN_INCORRECT.

Definition parse_hsmauth_selector_part (value : list Z) (maximum_length : Z) : outcome Error (list Z) :=
  let? _ := bail ((len value =? 0) || (maximum_length <? len value)) #CKR_PIN_INCORRECT in
  let? _ := bail (negb (utf8_valid value)) #CKR_PIN_INCORRECT in
  let? _ := bail (has_control value || contains_byte 64 value || contains_byte 58 value)
    #CKR_PIN_INCORRECT in
  Ok value.

(** The label before the first [@] and the source after it. *)
Definition split_selector (selector : list Z) : list Z * option (list Z) :=
  match position 64 selector with
  | Some p => (ztake p selector, Some (zdrop (p + 1) selector))
  | None => (selector, None)
  end.

(** [o.map(f).transpose()] *)
Definition transpose {A B} (f : A → outcome Error B) (o : option A) : outcome Error (option B) :=
  match o with
  | None => Ok None
  | Some a => let? b := f a in Ok (Some b)
  end.

Definition parse_hsmauth_username (username : list Z) : outcome Error HsmAuthLogin :=
  let? _ := bail ((len username <? 6) || negb (at_ username 0 =? 58)) #CKR_PIN_INCORRECT in
  let? k := parse_yubihsm_authkey_id (slice 1 5 username) in
  let '(label, source) := split_selector (zdrop 5 username) in
  let? label := parse_hsmauth_selector_part label 128 in
  let? source := transpose (λ s, parse_hsmauth_selector_part s 128) source in
  Ok (mkHsmAuthLogin label source k).

Definition parse_packed_yubihsm_login_username (username : list Z) : outcome Error YubiHsmLoginUsername :=
  if bool_decide (username = str ":*") then Ok UniversalWildcard
  else if starts_with (str ":*") username then
    let '(label, source) := split_selector (zdrop 2 username) in
    let? label := transpose (λ l, parse_hsmauth_selector_part l 128)
      (if bool_decide (label = []) then None else Some label) in
    let? source := transpose (λ s, parse_hsmauth_selector_part s 128) source in
    Ok (HsmAuthWildcard (mkHsmAuthWildcardLogin label source))
  else
    match username with
    | 58 :: _ => omap_ok HsmAuth (parse_hsmauth_username username)
    | _ => omap_ok Direct (parse_yubihsm_authkey_id username)
    end.

Definition parse_yubihsm_login_username (username : list Z) : outcome Error ClientAuthUri :=
  if (7 <=? len username) && eq_ignore_ascii_case (ztake 7 username) (str "pkcs11:")
  then ClientAuthUri_parse username
  else Err #CKR_ARGUMENTS_BAD.

Definition packed_client_auth_uri (login : YubiHsmLoginUsername) : outcome Error ClientAuthUri :=
  match login with
  | Direct k => Ok (mkUri None None None None None None None (Some k) (Some (str "direct")) None)
  | HsmAuth login =>
      Ok (mkUri None None (login_source login) None (Some (login_label login)) None None
        (Some (login_authkey_id login)) None None)
  | UniversalWildcard => Ok default_uri
  | HsmAuthWildcard login =>
      Ok (mkUri None None (wildcard_source login) None (wildcard_label login) None None None None None)
  end.

Definition expand_packed_yubihsm_login (username : list Z) : outcome Error ClientAuthUri :=
  let? login := parse_packed_yubihsm_login_username username in
  packed_client_auth_uri login.

Definition reject_packed_login_wildcard (username : list Z) : outcome Error unit :=
  let? login := parse_packed_yubihsm_login_username username in
  match login with
  | UniversalWildcard | HsmAuthWildcard _ => Err #CKR_ARGUMENTS_BAD
  | _ => Ok tt
  end.

(** A user name of the given length, then the password. *)
Definition split_login_at (pin : list Z) (username_length : Z)
    : outcome Error (list Z * option (list Z)) :=
  let? _ := bail (len pin <? username_length) #CKR_PIN_INCORRECT in
  let password_offset := username_length + (if bool_decide (head pin = Some 58) then 1 else 0) in
  let username := ztake username_length pin in
  let? _ := reject_packed_login_wildcard username in
  if len pin <? password_offset then Err #CKR_PIN_INCORRECT
  else Ok (username, Some (zdrop password_offset pin)).

Definition split_yubihsm_login (pin : list Z) : outcome Error (list Z * option (list Z)) :=
  if (len pin =? 4) && negb (bool_decide (head pin = Some 58)) then Ok (pin, None)
  else if bool_decide (head pin = Some 58) then
    match (if len pin <? 5 then None else position 58 (zdrop 5 pin)) with
    | Some p => split_login_at pin (p + 5)
    | None =>
        let? _ := reject_packed_login_wildcard pin in
        Ok (pin, None)
    end
  else split_login_at pin 4.

(** ** The secure channel of a card login *)

Definition selection (username : list Z) (configured : option SecureChannelProtocol)
    : outcome Error (ClientAuthUri * SecureChannelProtocol) :=
  let? selector := ClientAuthUri_parse username in
  let? _ := bail (is_some (direct selector) || is_some (authkey_id selector)) #CKR_ARGUMENTS_BAD in
  let requested := scp selector in
  let? _ := bail (bool_decide (requested = Some Scp11c)) #CKR_ARGUMENTS_BAD in
  let? _ := bail (is_some configured && is_some requested && negb (bool_decide (configured = requested)))
    #CKR_ARGUMENTS_BAD in
  let protocol :=
    match configured, requested with
    | Some p, _ => p
    | None, Some p => p
    | None, None => if bool_decide (class selector = Some CKO_SECRET_KEY) then Scp03 else Scp11a
    end in
  let? _ := bail (bool_decide (protocol = Scp11b)) #CKR_ARGUMENTS_BAD in
  let symmetric := bool_decide (protocol = Scp03) in
  let expected := if symmetric then CKO_SECRET_KEY else CKO_PRIVATE_KEY in
  let? _ := bail (match class selector with Some c => negb (c =? expected) | None => false end)
    #CKR_ARGUMENTS_BAD in
  Ok (selector, protocol).

(** ** Splitting and joining *)

Definition absent (c : Z) (l : list Z) : Prop := contains_byte c l = false.

Fixpoint join (c : Z) (pieces : list (list Z)) : list Z :=
  match pieces with
  | [] => []
  | [piece] => piece
  | piece :: more => piece ++ c :: join c more
  end.

Lemma absent_cons c x l : absent c (x :: l) ↔ x ≠ c ∧ absent c l.
Proof. unfold absent, contains_byte. cbn. rewrite orb_false_iff, Z.eqb_neq. naive_solver. Qed.

Lemma absent_app c k l : absent c (k ++ l) ↔ absent c k ∧ absent c l.
Proof. unfold absent, contains_byte. by rewrite existsb_app, orb_false_iff. Qed.

Lemma split_once_app c a b : absent c a → split_once c (a ++ c :: b) = Some (a, b).
Proof.
  induction a as [|x a IH]; intros Ha; cbn.
  { by rewrite Z.eqb_refl. }
  apply absent_cons in Ha as [Hx Ha]. apply Z.eqb_neq in Hx. by rewrite Hx, IH.
Qed.

Lemma split_once_absent c l : absent c l → split_once c l = None.
Proof.
  induction l as [|x l IH]; intros Hl; [done|]. cbn.
  apply absent_cons in Hl as [Hx Hl]. apply Z.eqb_neq in Hx. by rewrite Hx, IH.
Qed.

Lemma split_once_inv c l a b : split_once c l = Some (a, b) → l = a ++ c :: b ∧ absent c a.
Proof.
  revert a b. induction l as [|x l IH]; intros a b E; [done|]. cbn in E.
  destruct (Z.eqb_spec x c) as [->|Hx]; [by simplify_eq|].
  destruct (split_once c l) as [[a' b']|]; [|done]. simplify_eq.
  destruct (IH _ _ eq_refl) as [-> Ha]. by rewrite absent_cons.
Qed.

Lemma split_once_None c l : split_once c l = None → absent c l.
Proof.
  induction l as [|x l IH]; intros E; [done|]. cbn in E.
  destruct (Z.eqb_spec x c) as [->|Hx]; [done|].
  destruct (split_once c l) as [[a b]|]; [done|]. rewrite absent_cons. auto.
Qed.

Lemma split_absent c l : absent c l → split c l = [l].
Proof.
  induction l as [|x l IH]; intros Hl; [done|]. apply absent_cons in Hl as [Hx Hl]. cbn.
  apply Z.eqb_neq in Hx. by rewrite Hx, IH.
Qed.

Lemma split_app c a l : absent c a → split c (a ++ c :: l) = a :: split c l.
Proof.
  induction a as [|x a IH]; intros Ha; cbn.
  { by rewrite Z.eqb_refl. }
  apply absent_cons in Ha as [Hx Ha]. apply Z.eqb_neq in Hx. by rewrite Hx, IH.
Qed.

Lemma split_join c pieces : Forall (absent c) pieces → pieces ≠ [] → split c (join c pieces) = pieces.
Proof.
  induction pieces as [|p [|q more] IH]; intros Hp Hne; [done| |]; inversion_clear Hp.
  - by apply split_absent.
  - cbn [join]. rewrite split_app by done. f_equal. by apply IH.
Qed.

Lemma components_join c pieces :
  Forall (absent c) pieces → Forall (.≠ []) pieces → components c (join c pieces) = pieces.
Proof.
  intros Hc Hn. unfold components. destruct pieces as [|p more]; [done|].
  rewrite split_join by done. clear Hc. induction Hn; [done|]. by rewrite filter_cons_True, IHHn.
Qed.

(** ** Percent encoding *)

Definition is_ascii (b : Z) : bool := between 0 b 127.
(** The bytes [percent_encode] writes. *)
Definition encoded_byte (b : Z) : bool := unreserved b || (b =? 37).

Lemma percent_byte b :
  is_byte b = true →
  forallb encoded_byte (if unreserved b then [b] else 37 :: format_02X b) = true ∧
  (unreserved b = true → b ≠ 37) ∧
  hex (at_ UPPER_HEX (b / 16)) = Some (b / 16) ∧ hex (at_ UPPER_HEX (b mod 16)) = Some (b mod 16) ∧
  Z.lor (Z.shiftl (b / 16) 4) (b mod 16) = b.
Proof.
  intros Hb.
  pose proof (byte_forall (λ b, forallb encoded_byte (if unreserved b then [b] else 37 :: format_02X b)
    && (negb (unreserved b) || negb (b =? 37))
    && bool_decide (hex (at_ UPPER_HEX (b / 16)) = Some (b / 16))
    && bool_decide (hex (at_ UPPER_HEX (b mod 16)) = Some (b mod 16))
    && (Z.lor (Z.shiftl (b / 16) 4) (b mod 16) =? b)) ltac:(by vm_compute) b ltac:(by apply is_byte_spec)) as H.
  cbv beta in H. rewrite !andb_true_iff, !bool_decide_eq_true, Z.eqb_eq in H.
  destruct H as [[[[H1 H2] H3] H4] H5]. split_and!; try done.
  intros Hu ->. by rewrite Hu in H2.
Qed.

Lemma percent_decode_encode v : bytes_ok v = true → percent_decode (percent_encode v) = Ok v.
Proof.
  induction v as [|b v IH]; intros Hv; [done|]. cbn in Hv. apply andb_true_iff in Hv as [Hb Hv].
  destruct (percent_byte b Hb) as (_ & Hne & H1 & H2 & H3). cbn [percent_encode flat_map].
  destruct (unreserved b) eqn:Eu; cbn [app percent_decode].
  - pose proof (proj2 (Z.eqb_neq b 37) (Hne eq_refl)) as ->. cbn [negb].
    change (flat_map _ v) with (percent_encode v). by rewrite IH.
  - unfold format_02X. cbn [app]. rewrite H1, H2. cbn [Z.eqb negb Pos.eqb ok_or obind].
    change (flat_map _ v) with (percent_encode v). rewrite IH by done. cbn [obind]. by rewrite H3.
Qed.

Lemma percent_encode_bytes v : bytes_ok v = true → forallb encoded_byte (percent_encode v) = true.
Proof.
  induction v as [|b v IH]; intros Hv; [done|]. cbn in Hv. apply andb_true_iff in Hv as [Hb Hv].
  destruct (percent_byte b Hb) as (H & _). cbn [percent_encode flat_map].
  change (flat_map _ v) with (percent_encode v). rewrite forallb_app, H. auto.
Qed.

Lemma encoded_absent c l : forallb encoded_byte l = true → encoded_byte c = false → absent c l.
Proof.
  intros Hl Hc. unfold absent, contains_byte. destruct (existsb _ _) eqn:E; [|done].
  apply existsb_exists in E as (x & Hx & <-%Z.eqb_eq).
  rewrite forallb_forall in Hl. by rewrite Hl in Hc.
Qed.

(** ** The scheme *)

Lemma utf8_valid_ascii l rest :
  forallb is_ascii l = true → utf8_valid (l ++ rest) = utf8_valid rest.
Proof.
  induction l as [|b l IH]; [done|]. cbn [forallb app utf8_valid]. intros [Hb Hl]%andb_true_iff.
  unfold is_ascii in Hb. rewrite Hb. auto.
Qed.

(** A valid string does not begin inside a character. *)
Lemma utf8_valid_head b l : utf8_valid (b :: l) = true → continuation b = false.
Proof.
  intros H. destruct (continuation b) eqn:Ec; [|done].
  unfold continuation in Ec. apply andb_true_iff in Ec as [E1%Z.leb_le E2%Z.leb_le].
  exfalso. revert H. cbn [utf8_valid]. unfold between.
  destruct (Z.leb_spec b 0x7f); [lia|]. rewrite andb_false_r.
  destruct (Z.leb_spec 0xc2 b); [lia|]. cbn [andb].
  destruct (Z.eqb_spec b 0xe0); [lia|]. destruct (Z.eqb_spec b 0xed); [lia|].
  destruct (Z.leb_spec 0xe1 b); [lia|]. destruct (Z.leb_spec 0xee b); [lia|].
  destruct (Z.eqb_spec b 0xf0); [lia|]. destruct (Z.eqb_spec b 0xf4); [lia|].
  destruct (Z.leb_spec 0xf1 b); [lia|]. cbn. by destruct l as [|? [|? [|? ?]]].
Qed.

Lemma ascii_lowercase_ascii b : is_ascii (ascii_lowercase b) = true → is_ascii b = true.
Proof. unfold is_ascii, ascii_lowercase, between. destruct ((65 <=? b) && (b <=? 90)) eqn:E; lia. Qed.

Lemma scheme_ascii scheme :
  eq_ignore_ascii_case scheme (str "pkcs11:") = true → forallb is_ascii scheme = true ∧ len scheme = 7.
Proof.
  unfold eq_ignore_ascii_case. rewrite bool_decide_eq_true. intros E. split.
  - apply forallb_forall. intros b Hb. apply ascii_lowercase_ascii.
    apply (in_map ascii_lowercase) in Hb. change (map ascii_lowercase scheme) with (to_ascii_lowercase scheme) in Hb.
    rewrite E in Hb. revert b Hb. cbn. intros b [<-|[<-|[<-|[<-|[<-|[<-|[<-|[]]]]]]]]; done.
  - apply (f_equal len) in E. unfold to_ascii_lowercase in E. unfold len in *. by rewrite !length_map in E.
Qed.

(** A known scheme in front of valid text is a character boundary. *)
Lemma scheme_boundary scheme rest :
  len scheme = 7 → utf8_valid rest = true → is_char_boundary (scheme ++ rest) 7 = true.
Proof.
  intros Hs Hr. unfold is_char_boundary. destruct rest as [|b rest].
  { by rewrite app_nil_r, Hs. }
  rewrite <- Hs at 4. rewrite at_app_exact. change (at_ (b :: rest) 0) with b.
  apply utf8_valid_head in Hr. rewrite Hr, len_app, len_cons. pose proof (len_nonneg rest). cbn. lia.
Qed.

Lemma parse_scheme scheme rest :
  eq_ignore_ascii_case scheme (str "pkcs11:") = true →
  utf8_valid rest = true → absent 35 rest →
  ClientAuthUri_parse (scheme ++ rest) =
    let '(path, query) := default (rest, []) (split_once 63 rest) in parse_attributes path query.
Proof.
  intros Hs Hr Hh. destruct (scheme_ascii _ Hs) as [Ha Hl]. unfold ClientAuthUri_parse.
  rewrite utf8_valid_ascii, Hr by done. cbn [negb bail obind].
  rewrite len_app, Hl. pose proof (len_nonneg rest).
  replace (Z.min (7 + len rest) 7) with 7 by lia. unfold split_at. rewrite scheme_boundary by done.
  cbn [obind]. rewrite <- Hl, ztake_app_len, zdrop_app_len, Hs. cbn [negb bail obind].
  unfold absent in Hh. by rewrite Hh.
Qed.

(** ** Panics *)

Lemma bind_no_panic {E A B} (c : outcome E A) (f : A → outcome E B) :
  c ≠ Panic → (∀ a, f a ≠ Panic) → obind c f ≠ Panic.
Proof. intros Hc Hf. destruct c; cbn; auto. Qed.

Lemma ok_or_no_panic {E A} (e : E) (o : option A) : ok_or e o ≠ Panic.
Proof. by destruct o. Qed.

Lemma bail_no_panic {E} b (e : E) : bail b e ≠ Panic.
Proof. by destruct b. Qed.

Create HintDb panics.
#[export] Hint Resolve bind_no_panic ok_or_no_panic bail_no_panic : panics.

(** Case analysis down to the results, calls being covered by the database. *)
Ltac no_panic :=
  repeat first
    [ discriminate | solve [auto with panics] | apply bind_no_panic; [|intros ?]
    | match goal with |- (match ?x with _ => _ end) ≠ _ => destruct x end ].

Lemma percent_decode_no_panic v : percent_decode v ≠ Panic.
Proof.
  remember (length v) as n eqn:Hn. assert (length v ≤ n)%nat as Hv by lia. clear Hn.
  revert v Hv. induction n as [|n IH]; intros [|b v] Hv; cbn in Hv; try done; [lia|].
  cbn [percent_decode]. destruct (negb (b =? 37)).
  - apply bind_no_panic; [|done]. apply IH. lia.
  - destruct v as [|h [|l v]]; try done. cbn in Hv.
    do 2 (apply bind_no_panic; [auto with panics|intros ?]).
    apply bind_no_panic; [|done]. apply IH. lia.
Qed.
#[export] Hint Resolve percent_decode_no_panic : panics.

Lemma parse_object_type_no_panic v : parse_object_type v ≠ Panic.
Proof. unfold parse_object_type. no_panic. Qed.
Lemma parse_secure_channel_no_panic v : parse_secure_channel v ≠ Panic.
Proof. unfold parse_secure_channel. cbv zeta. no_panic. Qed.
Lemma parse_authkey_id_no_panic v : parse_authkey_id v ≠ Panic.
Proof. unfold parse_authkey_id. no_panic. Qed.
#[export] Hint Resolve parse_object_type_no_panic parse_secure_channel_no_panic
  parse_authkey_id_no_panic : panics.

Lemma replace_once_no_panic old u : replace_once old u ≠ Panic.
Proof. by destruct old. Qed.
#[export] Hint Resolve replace_once_no_panic : panics.

Lemma parse_path_component_no_panic r c : parse_path_component r c ≠ Panic.
Proof. unfold parse_path_component, store_path_attribute. no_panic. Qed.
Lemma parse_query_component_no_panic r c : parse_query_component r c ≠ Panic.
Proof. unfold parse_query_component, store_query_attribute. no_panic. Qed.
#[export] Hint Resolve parse_path_component_no_panic parse_query_component_no_panic : panics.

Lemma parse_components_no_panic body r cs :
  (∀ r c, body r c ≠ Panic) → parse_components body r cs ≠ Panic.
Proof. intros Hb. revert r. induction cs as [|c cs IH]; intros r; cbn; [done|]. by apply bind_no_panic. Qed.

Lemma parse_attributes_no_panic path query : parse_attributes path query ≠ Panic.
Proof.
  unfold parse_attributes. apply bind_no_panic; [auto using parse_components_no_panic with panics|intros r].
  apply bind_no_panic; [auto using parse_components_no_panic with panics|intros r']. no_panic.
Qed.
#[export] Hint Resolve parse_attributes_no_panic : panics.

Lemma parse_panic v :
  ClientAuthUri_parse v = Panic ↔
  utf8_valid v = true ∧ 7 < len v ∧ continuation (at_ v 7) = true.
Proof.
  unfold ClientAuthUri_parse. destruct (utf8_valid v) eqn:Eu; cbn [negb bail obind];
    [|split; [done|by intros [? _]]].
  unfold split_at, is_char_boundary. pose proof (len_nonneg v).
  destruct (Z.ltb_spec 7 (len v)) as [Hl|Hl].
  - replace (Z.min (len v) 7) with 7 by lia. destruct (Z.eqb_spec 7 (len v)); [lia|].
    destruct (Z.ltb_spec 7 (len v)); [|lia]. cbn [Z.eqb orb andb].
    destruct (continuation (at_ v 7)) eqn:Ec; cbn [negb obind]; [naive_solver|].
    split; [|naive_solver]. intros E. exfalso. revert E. no_panic.
  - replace (Z.min (len v) 7) with (len v) by lia. rewrite Z.eqb_refl, orb_true_r. cbn [orb obind].
    split; [|lia]. intros E. exfalso. revert E. no_panic.
Qed.

(** ** What an accepted selector means

    The path attributes of a selector as a map from attribute names to decoded
    values, and a query attribute that may be given at most once. *)
Definition path_field (name : list Z) (u : ClientAuthUri) : option (list Z) :=
  if bool_decide (name = str "token") then token u
  else if bool_decide (name = str "manufacturer") then manufacturer u
  else if bool_decide (name = str "serial") then serial u
  else if bool_decide (name = str "model") then model u
  else if bool_decide (name = str "object") then uri_object u
  else if bool_decide (name = str "id") then uri_id u
  else if bool_decide (name = str "type") then class u ≫= format_object_type
  else None.

Definition query_part (u : ClientAuthUri) := (authkey_id u, direct u, scp u).

Definition raw_attribute (component : list Z) (a : list Z * list Z) : Prop :=
  component = a.1 ++ 61 :: a.2 ∧ absent 61 a.1.
Definition decoded_attribute (component : list Z) (a : list Z * list Z) : Prop :=
  ∃ value, raw_attribute component (a.1, value) ∧ percent_decode value = Ok a.2.

Definition values (name : list Z) (attrs : list (list Z * list Z)) : list (list Z) :=
  (filter (λ a, a.1 = name) attrs).*2.

Definition extends {A} (old new : option A) (read : list Z → outcome Error A) (vs : list (list Z)) : Prop :=
  match vs with
  | [] => new = old
  | [v] => old = None ∧ ∃ a, read v = Ok a ∧ new = Some a
  | _ => False
  end.
(** The field is what its only occurrence says; no occurrence, no field. *)
Definition given {A} (field : option A) (read : list Z → outcome Error A) (vs : list (list Z)) : Prop :=
  extends None field read vs.

Definition read_authkey (value : list Z) : outcome Error Z :=
  let? decoded := percent_decode value in parse_authkey_id decoded.
Definition read_direct (value : list Z) : outcome Error (list Z) :=
  let? decoded := percent_decode value in
  if utf8_valid decoded then Ok decoded else Err #CKR_PIN_INCORRECT.

Lemma parse_object_type_inv v k : parse_object_type v = Ok k → format_object_type k = Some v.
Proof. unfold parse_object_type. intros E. repeat case_bool_decide; simplify_eq; done. Qed.

Lemma store_path_attribute_inv r n v r' :
  store_path_attribute r n v = Ok r' →
  path_field n r = None ∧
  (∀ m, path_field m r' = if bool_decide (m = n) then Some v else path_field m r) ∧
  query_part r' = query_part r.
Proof.
  destruct r as [tk ma se mo ob i cl au di sc]. unfold store_path_attribute, replace_once, query_part.
  intros E. repeat (case_bool_decide; [subst n|]); try done.
  all: match type of E with match ?o with _ => _ end = _ => destruct o; [done|] end.
  all: try (destruct (parse_object_type v) as [k|e|] eqn:Ek; [|done..]; apply parse_object_type_inv in Ek).
  all: cbn [obind] in E; simplify_eq; split_and!; [reflexivity| |reflexivity]; intros m.
  all: unfold path_field; cbn [token manufacturer serial model uri_object uri_id class].
  all: repeat (case_bool_decide; try subst m; try done).
Qed.

Lemma component_attribute c n v :
  ok_or (#CKR_PIN_INCORRECT) (split_once 61 c) = Ok (n, v) → raw_attribute c (n, v).
Proof. destruct (split_once 61 c) as [[n' v']|] eqn:Es; intros; simplify_eq/=. by apply split_once_inv. Qed.

Lemma parse_path_exact cs r u :
  parse_components parse_path_component r cs = Ok u →
  ∃ attrs, Forall2 decoded_attribute cs attrs ∧ NoDup attrs.*1 ∧
    (∀ n, n ∈ attrs.*1 → path_field n r = None) ∧
    (∀ n, path_field n u = (list_to_map attrs : gmap _ _) !! n ∪ path_field n r) ∧
    query_part u = query_part r.
Proof.
  revert r. induction cs as [|c cs IH]; intros r E; cbn [parse_components] in E.
  { simplify_eq. exists []. split_and!; [done|apply NoDup_nil_2|by intros ? ?%elem_of_nil| |done].
    intros n. cbn. by rewrite lookup_empty, (left_id_L None _). }
  destruct (parse_path_component r c) as [r1|e|] eqn:E1; [|done..]. cbn [obind] in E.
  destruct (IH _ E) as (attrs & Ha & Hnd & Hfresh & Hf & Hq). unfold parse_path_component in E1.
  destruct (ok_or _ (split_once 61 c)) as [[n v]|e|] eqn:Ec; [|done..]. cbn [obind] in E1.
  destruct (percent_decode v) as [d|e|] eqn:Ed; [|done..]. cbn [obind] in E1.
  apply store_path_attribute_inv in E1 as (Hn & Hr1 & Hq1).
  exists ((n, d) :: attrs). cbn [fmap list_fmap fst]. split_and!.
  - constructor; [|done]. exists v. split; [by apply component_attribute|done].
  - constructor; [|done]. intros Hin. specialize (Hfresh _ Hin). by rewrite Hr1, bool_decide_true in Hfresh.
  - intros m Hm. apply elem_of_cons in Hm as [->|Hm]; [done|].
    specialize (Hfresh _ Hm). rewrite Hr1 in Hfresh. by case_bool_decide.
  - intros m. rewrite Hf, Hr1. cbn [list_to_map foldr uncurry fst snd]. case_bool_decide as Hm.
    + subst m. rewrite lookup_insert_eq.
      assert ((list_to_map attrs : gmap (list Z) (list Z)) !! n = None) as ->; [|by rewrite Hn].
      apply not_elem_of_list_to_map_1. intros Hin. specialize (Hfresh _ Hin).
      rewrite Hr1, bool_decide_true in Hfresh by done. done.
    + by rewrite lookup_insert_ne.
  - congruence.
Qed.

Lemma extends_some {A} (a : A) new read vs : extends (Some a) new read vs → vs = [] ∧ new = Some a.
Proof. destruct vs as [|v [|? ?]]; cbn; naive_solver. Qed.

Lemma extends_skip {A} (old new : option A) read n m v attrs :
  extends old new read (values m attrs) → n ≠ m → extends old new read (values m ((n, v) :: attrs)).
Proof. intros. unfold values. by rewrite filter_cons_False. Qed.

Lemma extends_take {A} (new : option A) read n v a attrs :
  extends (Some a) new read (values n attrs) → read v = Ok a →
  extends None new read (values n ((n, v) :: attrs)).
Proof.
  intros [Hv ->]%extends_some Hr. unfold values in *. rewrite filter_cons_True by done.
  cbn [fmap list_fmap snd]. change (snd <$> filter _ attrs) with (filter (λ a, a.1 = n) attrs).*2.
  rewrite Hv. cbn. eauto.
Qed.

(** The three query fields of [u] come from those of [r] and the attributes. *)
Definition query_extends (r u : ClientAuthUri) (attrs : list (list Z * list Z)) : Prop :=
  extends (scp r) (scp u) parse_secure_channel (values (str "pkcs11rs-scp") attrs) ∧
  extends (authkey_id r) (authkey_id u) read_authkey (values AUTHKEY_QUERY attrs) ∧
  extends (direct r) (direct u) read_direct (values DIRECT_QUERY attrs).

Lemma store_query_attribute_inv r n v r1 u attrs :
  store_query_attribute r n v = Ok r1 → query_extends r1 u attrs →
  (∀ m, path_field m r1 = path_field m r) ∧ n ≠ str "pin-value" ∧ n ≠ str "pin-source" ∧
  query_extends r u ((n, v) :: attrs).
Proof.
  destruct r as [tk ma se mo ob i cl au di sc]. unfold store_query_attribute, query_extends.
  cbn [scp authkey_id direct]. intros E (Hs & Ha & Hd).
  repeat (case_bool_decide; [subst n|]); cbn [orb] in E; try done.
  - destruct sc; [done|]. destruct (parse_secure_channel v) as [p|e|] eqn:Ep; [|done..].
    cbn [obind] in E. simplify_eq. cbn [scp authkey_id direct] in *.
    split_and!; first [done|by apply extends_skip|by eapply extends_take].
  - destruct au; [done|]. destruct (percent_decode v) as [d|e'|] eqn:Ed; cbn [obind] in *; [|done..].
    destruct (parse_authkey_id d) as [k|e|] eqn:Ek; [|done..]. cbn [obind] in E.
    simplify_eq. cbn [scp authkey_id direct] in *.
    assert (read_authkey v = Ok k) by (unfold read_authkey; by rewrite Ed).
    split_and!; first [done|by apply extends_skip|by eapply extends_take].
  - destruct di; [done|]. destruct (percent_decode v) as [d|e'|] eqn:Ed; cbn [obind] in *; [|done..].
    destruct (utf8_valid d) eqn:Eu; [|done]. simplify_eq. cbn [scp authkey_id direct] in *.
    assert (read_direct v = Ok d) by (unfold read_direct; rewrite Ed; cbn [obind]; by rewrite Eu).
    split_and!; first [done|by apply extends_skip|by eapply extends_take].
  - simplify_eq. split_and!; first [done|by apply extends_skip].
  - simplify_eq. split_and!; first [done|by apply extends_skip].
  - destruct (contains_byte 45 n); [|done]. simplify_eq. split_and!; first [done|by apply extends_skip].
Qed.

Lemma parse_query_exact cs r u :
  parse_components parse_query_component r cs = Ok u →
  ∃ attrs, Forall2 raw_attribute cs attrs ∧
    str "pin-value" ∉ attrs.*1 ∧ str "pin-source" ∉ attrs.*1 ∧
    query_extends r u attrs ∧ (∀ n, path_field n u = path_field n r).
Proof.
  revert r. induction cs as [|c cs IH]; intros r E; cbn [parse_components] in E.
  { simplify_eq. exists []. split_and!; [done|by intros ?%elem_of_nil..| |done]. done. }
  destruct (parse_query_component r c) as [r1|e|] eqn:E1; [|done..]. cbn [obind] in E.
  destruct (IH _ E) as (attrs & Ha & Hv & Hs & Hq & Hf). unfold parse_query_component in E1.
  destruct (ok_or _ (split_once 61 c)) as [[n v]|e|] eqn:Ec; [|done..]. cbn [obind] in E1.
  destruct (store_query_attribute_inv _ _ _ _ u attrs E1 Hq) as (Hp & Hn1 & Hn2 & Hq').
  exists ((n, v) :: attrs). cbn [fmap list_fmap fst]. rewrite !not_elem_of_cons. split_and!; try done.
  - constructor; [by apply component_attribute|done].
  - intros m. by rewrite Hf, Hp.
Qed.

Lemma direct_conflict_false u :
  direct_conflict u = false → is_Some (direct u) →
  is_Some (authkey_id u) ∧ ∀ n, path_field n u = None.
Proof.
  destruct u as [tk ma se mo ob i cl au di sc]. unfold direct_conflict.
  cbn [token manufacturer serial model uri_object uri_id class authkey_id direct scp].
  intros E [x ->]. cbn [is_some andb] in E.
  destruct au, tk, ma, se, mo, ob, i, cl; try done. split; [by eexists|]. intros n.
  unfold path_field. cbn. repeat case_bool_decide; done.
Qed.

(** Every accepted selector means exactly what it says. The text is valid
    UTF-8 after a [pkcs11:] scheme, without a fragment; no path attribute is
    given twice, and the selector's path fields are exactly the decoded path
    attributes, so an unknown attribute is never dropped and the selector is
    never broader than its text. Each of the three module-specific query
    attributes is given at most once and read as documented, no PIN attribute is
    accepted, and a direct credential names its target and no object. *)
Theorem uri_parse_exact (v : list Z) (u : ClientAuthUri) :
  ClientAuthUri_parse v = Ok u →
  ∃ scheme path query attrs qattrs,
    utf8_valid v = true ∧ v = scheme ++ path ++ query ∧
    to_ascii_lowercase scheme = str "pkcs11:" ∧ absent 35 (path ++ query) ∧ absent 63 path ∧
    (query = [] ∨ head query = Some 63) ∧
    Forall2 decoded_attribute (components 59 path) attrs ∧ NoDup attrs.*1 ∧
    (∀ name, path_field name u = (list_to_map attrs : gmap _ _) !! name) ∧
    Forall2 raw_attribute (components 38 (tail query)) qattrs ∧
    str "pin-value" ∉ qattrs.*1 ∧ str "pin-source" ∉ qattrs.*1 ∧
    given (scp u) parse_secure_channel (values (str "pkcs11rs-scp") qattrs) ∧
    given (authkey_id u) read_authkey (values AUTHKEY_QUERY qattrs) ∧
    given (direct u) read_direct (values DIRECT_QUERY qattrs) ∧
    (is_Some (direct u) → is_Some (authkey_id u) ∧ ∀ name, path_field name u = None).
Proof.
  intros E. unfold ClientAuthUri_parse in E. destruct (utf8_valid v) eqn:Eu; [|done].
  cbn [negb bail obind] in E. unfold split_at in E. destruct (is_char_boundary _ _); [|done].
  cbn [obind] in E. set (n := Z.min (len v) 7) in E.
  destruct (eq_ignore_ascii_case (ztake n v) (str "pkcs11:")) eqn:Es; [|done]. cbn [negb bail obind] in E.
  destruct (contains_byte 35 (zdrop n v)) eqn:Eh; [done|]. cbn [bail obind] in E.
  assert (∃ path query, zdrop n v = path ++ query ∧ absent 63 path ∧ (query = [] ∨ head query = Some 63) ∧
    parse_attributes path (tail query) = Ok u) as (path & query & Ez & Hp & Hq & Ea).
  { destruct (split_once 63 (zdrop n v)) as [[path query]|] eqn:Eq; cbn [default from_option] in E.
    - apply split_once_inv in Eq as [-> Hp]. exists path, (63 :: query). eauto.
    - apply split_once_None in Eq. exists (zdrop n v), []. rewrite app_nil_r. eauto. }
  unfold parse_attributes in Ea.
  destruct (parse_components parse_path_component _ _) as [r1|e|] eqn:E1; [|done..]. cbn [obind] in Ea.
  destruct (parse_components parse_query_component _ _) as [r2|e|] eqn:E2; [|done..]. cbn [obind] in Ea.
  destruct (direct_conflict r2) eqn:Ed; [done|]. simplify_eq.
  apply parse_path_exact in E1 as (attrs & Ha & Hnd & _ & Hf & Hqp).
  apply parse_query_exact in E2 as (qattrs & Hqa & Hv & Hsrc & (Q1 & Q2 & Q3) & Hf2).
  injection Hqp as H1 H2 H3. rewrite H1 in Q2. rewrite H2 in Q3. rewrite H3 in Q1.
  exists (ztake n v), path, query, attrs, qattrs. split_and!; try done.
  - by rewrite <- Ez, ztake_zdrop.
  - unfold eq_ignore_ascii_case in Es. by rewrite bool_decide_eq_true in Es.
  - unfold absent. by rewrite <- Ez.
  - intros name. rewrite Hf2, Hf.
    assert (path_field name default_uri = None) as -> by (unfold path_field; repeat case_bool_decide; done).
    by rewrite (right_id_L None _).
  - by apply direct_conflict_false.
Qed.

(** ** Generated text *)

Definition attribute (a : list Z * list Z) : list Z := a.1 ++ 61 :: percent_encode a.2.
Definition name_ok (name : list Z) : bool := forallb unreserved name.
Definition attribute_ok (a : list Z * list Z) : Prop := name_ok a.1 = true ∧ bytes_ok a.2 = true.

Lemma percent_encode_unreserved v : forallb unreserved v = true → percent_encode v = v.
Proof.
  induction v as [|b v IH]; [done|]. cbn [forallb]. intros [Hb Hv]%andb_true_iff.
  cbn [percent_encode flat_map]. change (flat_map _ v) with (percent_encode v). by rewrite Hb, IH.
Qed.

Lemma unreserved_encoded v : forallb unreserved v = true → forallb encoded_byte v = true.
Proof.
  rewrite !forallb_forall. intros H x Hx. unfold encoded_byte. by rewrite H.
Qed.

(** The bytes of an attribute: encoded bytes and the equals sign. *)
Lemma attribute_absent c a : attribute_ok a → encoded_byte c = false → c ≠ 61 → absent c (attribute a).
Proof.
  intros [Hn Hv] Hc Hne. unfold attribute. rewrite absent_app, absent_cons. split_and!; [|done|].
  - by apply encoded_absent; [apply unreserved_encoded|].
  - by apply encoded_absent; [apply percent_encode_bytes|].
Qed.

Lemma attribute_nonempty a : attribute a ≠ [].
Proof. unfold attribute. by destruct a.1. Qed.

Lemma encoded_ascii l : forallb encoded_byte l = true → forallb is_ascii l = true.
Proof.
  rewrite !forallb_forall. intros H x Hx. specialize (H x Hx).
  unfold encoded_byte, unreserved, is_ascii_alphanumeric, is_ascii, between in *. lia.
Qed.

Lemma attribute_ascii a : attribute_ok a → forallb is_ascii (attribute a) = true.
Proof.
  intros [Hn Hv]. unfold attribute. rewrite forallb_app. cbn [forallb].
  rewrite !encoded_ascii; [done|by apply percent_encode_bytes|by apply unreserved_encoded].
Qed.

Lemma join_forall (P : Z → bool) c pieces :
  P c = true → Forall (λ p, forallb P p = true) pieces → forallb P (join c pieces) = true.
Proof.
  intros Hc H. induction H as [|p pieces Hp H IH]; [done|]. cbn [join]. destruct pieces; [done|].
  rewrite forallb_app. cbn [forallb]. by rewrite Hp, Hc, IH.
Qed.

Definition not_byte (c b : Z) : bool := negb (c =? b).

Lemma absent_forallb c l : absent c l ↔ forallb (not_byte c) l = true.
Proof.
  unfold absent, contains_byte, not_byte. induction l as [|b l IH]; [done|]. cbn.
  rewrite orb_false_iff, andb_true_iff, negb_true_iff. by rewrite IH.
Qed.

(** Joined attributes split back into the attributes. *)
Lemma components_attributes c attrs :
  Forall attribute_ok attrs → encoded_byte c = false → c ≠ 61 →
  components c (join c (map attribute attrs)) = map attribute attrs.
Proof.
  intros Ha Hc Hne. apply components_join; apply Forall_map; eapply Forall_impl; try exact Ha.
  - intros a ?. by apply attribute_absent.
  - intros a _. apply attribute_nonempty.
Qed.

Lemma joined_absent c sep attrs :
  Forall attribute_ok attrs → encoded_byte c = false → c ≠ 61 → c ≠ sep →
  absent c (join sep (map attribute attrs)).
Proof.
  intros Ha Hc Hne Hsep. apply absent_forallb, join_forall.
  - unfold not_byte. lia.
  - apply Forall_map. eapply Forall_impl; [|exact Ha]. intros a ?. by apply absent_forallb, attribute_absent.
Qed.

Lemma joined_ascii sep attrs :
  Forall attribute_ok attrs → is_ascii sep = true →
  forallb is_ascii (join sep (map attribute attrs)) = true.
Proof.
  intros Ha Hs. apply join_forall; [done|]. apply Forall_map. eapply Forall_impl; [|exact Ha].
  intros a ?. by apply attribute_ascii.
Qed.

(** The loops over generated attributes store the decoded values. *)
Fixpoint store_all (store : ClientAuthUri → list Z → list Z → outcome Error ClientAuthUri)
    (r : ClientAuthUri) (attrs : list (list Z * list Z)) : outcome Error ClientAuthUri :=
  match attrs with
  | [] => Ok r
  | (n, v) :: more => let? r := store r n v in store_all store r more
  end.

Lemma split_attribute a : attribute_ok a → split_once 61 (attribute a) = Some (a.1, percent_encode a.2).
Proof.
  intros [Hn Hv]. unfold attribute. apply split_once_app.
  by apply encoded_absent; [apply unreserved_encoded|].
Qed.

Lemma parse_path_attributes r attrs :
  Forall attribute_ok attrs →
  parse_components parse_path_component r (map attribute attrs) = store_all store_path_attribute r attrs.
Proof.
  intros Ha. revert r. induction Ha as [|[n v] attrs Hn Ha IH]; intros r; [done|].
  cbn [map parse_components store_all]. unfold parse_path_component. rewrite split_attribute by done.
  cbn [ok_or obind fst snd]. rewrite percent_decode_encode by apply Hn. cbn [obind].
  destruct (store_path_attribute r n v); cbn [obind]; auto.
Qed.

Lemma parse_query_attributes r attrs :
  Forall attribute_ok attrs →
  parse_components parse_query_component r (map attribute attrs) =
    store_all (λ r n v, store_query_attribute r n (percent_encode v)) r attrs.
Proof.
  intros Ha. revert r. induction Ha as [|[n v] attrs Hn Ha IH]; intros r; [done|].
  cbn [map parse_components store_all]. unfold parse_query_component. rewrite split_attribute by done.
  cbn [ok_or obind fst snd]. destruct (store_query_attribute r n _); cbn [obind]; auto.
Qed.

(** A URI written from attributes is read back attribute by attribute. *)
Definition uri_text (path query : list (list Z * list Z)) : list Z :=
  str "pkcs11:" ++ join 59 (map attribute path) ++
  match query with [] => [] | _ => 63 :: join 38 (map attribute query) end.

Lemma parse_uri_text path query :
  Forall attribute_ok path → Forall attribute_ok query →
  ClientAuthUri_parse (uri_text path query) =
    let? r := store_all store_path_attribute default_uri path in
    let? r := store_all (λ r n v, store_query_attribute r n (percent_encode v)) r query in
    if direct_conflict r then Err #CKR_ARGUMENTS_BAD else Ok r.
Proof.
  intros Hp Hq. unfold uri_text. rewrite parse_scheme; [|done| |].
  - destruct query as [|q query].
    + rewrite app_nil_r, split_once_absent by by apply joined_absent. cbn [default from_option].
      unfold parse_attributes. by rewrite components_attributes, parse_path_attributes by done.
    + rewrite split_once_app by by apply joined_absent. cbn [from_option]. unfold id, parse_attributes.
      rewrite !components_attributes, parse_path_attributes by done.
      destruct (store_all _ _ path); [|done..]. cbn [obind]. by rewrite parse_query_attributes.
  - rewrite utf8_valid_ascii by by apply joined_ascii. destruct query as [|q query]; [done|].
    rewrite <- (app_nil_r (63 :: _)). rewrite utf8_valid_ascii; [done|].
    change (forallb is_ascii (63 :: ?l)) with (forallb is_ascii l). by apply joined_ascii.
  - apply absent_app. split; [by apply joined_absent|]. destruct query as [|q query]; [done|].
    apply absent_cons. split; [done|]. by apply joined_absent.
Qed.

(** ** Generated URIs *)

Lemma hex_HEX d : 0 ≤ d < 16 → hex (at_ HEX d) = Some d ∧ unreserved (at_ HEX d) = true ∧ at_ HEX d ≠ 43
  ∧ at_ HEX d ≠ 45 ∧ is_ascii (at_ HEX d) = true.
Proof.
  intros Hd.
  pose proof (byte_forall (λ d, (16 <=? d) || bool_decide (hex (at_ HEX d) = Some d)
    && unreserved (at_ HEX d) && negb (at_ HEX d =? 43) && negb (at_ HEX d =? 45) && is_ascii (at_ HEX d))
    ltac:(by vm_compute) d ltac:(lia)) as H.
  cbv beta in H. apply orb_true_iff in H as [H|H]; [lia|].
  rewrite !andb_true_iff, bool_decide_eq_true, !negb_true_iff, !Z.eqb_neq in H. naive_solver.
Qed.

Lemma format_04x_digits k :
  0 ≤ k < 65536 → forallb unreserved (format_04x k) = true ∧ parse_authkey_id (format_04x k) = Ok k.
Proof.
  intros Hk. unfold format_04x.
  assert (0 ≤ k / 4096 < 16) as D3 by (split; [apply Z.div_pos|apply Z.div_lt_upper_bound]; lia).
  pose proof (Z.mod_pos_bound (k / 256) 16 ltac:(lia)) as D2.
  pose proof (Z.mod_pos_bound (k / 16) 16 ltac:(lia)) as D1.
  pose proof (Z.mod_pos_bound k 16 ltac:(lia)) as D0.
  assert (((k / 4096 * 16 + k / 256 mod 16) * 16 + k / 16 mod 16) * 16 + k mod 16 = k) as Hsum.
  { pose proof (Z.div_mod k 16 ltac:(lia)). pose proof (Z.div_mod (k / 16) 16 ltac:(lia)) as H1.
    pose proof (Z.div_mod (k / 256) 16 ltac:(lia)) as H2. rewrite Z.div_div in H1, H2 by lia.
    change (16 * 16) with 256 in H1. change (256 * 16) with 4096 in H2. lia. }
  destruct (hex_HEX _ D3) as (A3 & B3 & P3 & _ & U3), (hex_HEX _ D2) as (A2 & B2 & _ & _ & U2),
    (hex_HEX _ D1) as (A1 & B1 & _ & _ & U1), (hex_HEX _ D0) as (A0 & B0 & _ & _ & U0).
  split; [cbn [forallb]; by rewrite B3, B2, B1, B0|].
  unfold parse_authkey_id. change (len [_; _; _; _] =? 4) with true. cbn [negb].
  rewrite <- (app_nil_r [_; _; _; _]), utf8_valid_ascii, app_nil_r by (cbn [forallb]; by rewrite U3, U2, U1, U0).
  cbn [utf8_valid u16_from_str_radix16]. apply Z.eqb_neq in P3. rewrite P3. cbn [radix16_digits].
  rewrite A3, A2, A1, A0, Z.mul_0_l, Z.add_0_l, Hsum.
  destruct (Z.ltb_spec 65535 (k / 4096)); [lia|].
  destruct (Z.ltb_spec 65535 (k / 4096 * 16 + k / 256 mod 16)); [lia|].
  destruct (Z.ltb_spec 65535 ((k / 4096 * 16 + k / 256 mod 16) * 16 + k / 16 mod 16)); [lia|].
  destruct (Z.ltb_spec 65535 k); [lia|]. done.
Qed.

Lemma unreserved_bytes l : forallb unreserved l = true → bytes_ok l = true.
Proof.
  unfold bytes_ok. rewrite !forallb_forall. intros H x Hx. specialize (H x Hx).
  unfold unreserved, is_ascii_alphanumeric, between, is_byte in *. lia.
Qed.

Definition names_serial (label serial : list Z) : bool :=
  negb (bool_decide (serial = [])) && negb (contains_str serial label).

(** The attributes of an object's URI, in the order they are written. *)
Definition object_attributes (label serial : list Z) (c : Z) (object id : list Z) : list (list Z * list Z) :=
  [(str "token", label)] ++
  (if names_serial label serial then [(str "serial", serial)] else []) ++
  [(str "object", object)] ++
  (if bool_decide (id = []) then [] else [(str "id", id)]) ++
  match format_object_type c with Some type_ => [(str "type", type_)] | None => [] end.

Lemma format_object_type_unreserved c t :
  format_object_type c = Some t → forallb unreserved t = true ∧ parse_object_type t = Ok c.
Proof.
  unfold format_object_type. intros E.
  repeat match type of E with (if ?c =? ?d then _ else _) = _ => destruct (Z.eqb_spec c d); [subst|] end.
  all: simplify_eq; done.
Qed.

Lemma object_attributes_ok label serial c object id :
  bytes_ok label = true → bytes_ok serial = true → bytes_ok object = true → bytes_ok id = true →
  Forall attribute_ok (object_attributes label serial c object id).
Proof.
  intros. unfold object_attributes. destruct (names_serial _ _); case_bool_decide;
    destruct (format_object_type c) as [t|] eqn:Et; cbn [app];
    repeat constructor; try done;
    by apply format_object_type_unreserved in Et as [Ht%unreserved_bytes _].
Qed.

Lemma object_uri_text label serial c object id :
  object_uri_from_prefix (slot_uri_prefix label serial) c object id =
  uri_text (object_attributes label serial c object id) [].
Proof.
  unfold object_uri_from_prefix, slot_uri_prefix, uri_text, object_attributes.
  change (negb _ && negb _) with (names_serial label serial).
  destruct (names_serial label serial), (bool_decide (id = [])),
    (format_object_type c) as [t|] eqn:Et; cbn [app map join]; unfold attribute; cbn [fst snd].
  all: try (apply format_object_type_unreserved in Et as [Ht _];
    rewrite (percent_encode_unreserved t) by done).
  all: rewrite ?app_nil_r; cbn [str app]; rewrite <- ?app_assoc; cbn [app]; rewrite <- ?app_assoc; done.
Qed.

Lemma authentication_uri_text path k :
  0 ≤ k < 65536 →
  authentication_uri (uri_text path []) k = uri_text path [(AUTHKEY_QUERY, format_04x k)].
Proof.
  intros Hk. unfold authentication_uri, uri_text. cbn [map join]. unfold attribute. cbn [fst snd].
  rewrite (percent_encode_unreserved (format_04x k)) by by apply format_04x_digits.
  by rewrite app_nil_r, <- !app_assoc.
Qed.

Lemma direct_uri_text label k :
  0 ≤ k < 65536 →
  direct_authentication_uri label k = uri_text [] [(DIRECT_QUERY, label); (AUTHKEY_QUERY, format_04x k)].
Proof.
  intros Hk. unfold direct_authentication_uri, uri_text. cbn [map join]. unfold attribute. cbn [fst snd].
  rewrite (percent_encode_unreserved (format_04x k)) by by apply format_04x_digits.
  cbn [app]. by rewrite <- !app_assoc.
Qed.

(** What a generated URI selects. *)
Definition object_selector (label serial : list Z) (c : Z) (object id : list Z) (k : option Z) : ClientAuthUri :=
  mkUri (Some label) None (if names_serial label serial then Some serial else None) None (Some object)
    (if bool_decide (id = []) then None else Some id)
    (if is_some (format_object_type c) then Some c else None) k None None.

Lemma store_object_attributes label serial c object id :
  store_all store_path_attribute default_uri (object_attributes label serial c object id) =
  Ok (object_selector label serial c object id None).
Proof.
  unfold object_attributes, object_selector.
  destruct (names_serial label serial), (bool_decide (id = [])), (format_object_type c) as [t|] eqn:Et;
    cbn [app store_all is_some]; try reflexivity.
  all: apply format_object_type_unreserved in Et as [_ Ht].
  all: unfold default_uri, store_path_attribute; cbn [obind replace_once].
  all: repeat (first [rewrite bool_decide_true by done | rewrite bool_decide_false by done]; cbn [obind replace_once]).
  all: by rewrite Ht.
Qed.

Lemma store_authkey r k :
  0 ≤ k < 65536 → authkey_id r = None →
  store_query_attribute r AUTHKEY_QUERY (percent_encode (format_04x k)) =
  Ok (let '(mkUri tk ma se mo ob i cl _ di sc) := r in mkUri tk ma se mo ob i cl (Some k) di sc).
Proof.
  intros Hk Hr. destruct (format_04x_digits k Hk) as [Hu Hp].
  destruct r as [tk ma se mo ob i cl au di sc]. cbn in Hr. subst au. unfold store_query_attribute.
  rewrite bool_decide_false, bool_decide_true by done.
  rewrite percent_decode_encode by by apply unreserved_bytes. cbn [obind]. by rewrite Hp.
Qed.

(** The URIs the module prints for its objects and credentials are read
    back as the selectors they were printed from: token label, serial number
    unless the label shows it, object label, identifier, class and target key.
    This holds for arbitrary bytes, also those that separate attributes. *)
Theorem uri_generated_roundtrip (label serial object id : list Z) (c k : Z) :
  bytes_ok label = true → bytes_ok serial = true → bytes_ok object = true → bytes_ok id = true →
  0 ≤ k < 65536 →
  let uri := object_uri_from_prefix (slot_uri_prefix label serial) c object id in
  ClientAuthUri_parse uri = Ok (object_selector label serial c object id None) ∧
  ClientAuthUri_parse (authentication_uri uri k) = Ok (object_selector label serial c object id (Some k)) ∧
  (utf8_valid label = true →
   ClientAuthUri_parse (direct_authentication_uri label k) =
   Ok (mkUri None None None None None None None (Some k) (Some label) None)).
Proof.
  intros Hl Hs Ho Hi Hk uri. subst uri. rewrite object_uri_text.
  pose proof (object_attributes_ok label serial c object id Hl Hs Ho Hi) as Ha.
  destruct (format_04x_digits k Hk) as [Hu%unreserved_bytes Hp].
  assert (attribute_ok (AUTHKEY_QUERY, format_04x k)) as Hak by done. split_and!.
  - rewrite parse_uri_text by (done || by constructor). by rewrite store_object_attributes.
  - rewrite authentication_uri_text, parse_uri_text by (done || by repeat constructor).
    rewrite store_object_attributes. cbn [obind store_all]. by rewrite store_authkey.
  - intros Hv. rewrite direct_uri_text, parse_uri_text by (done || by repeat constructor).
    cbn [store_all obind].
    assert (store_query_attribute default_uri DIRECT_QUERY (percent_encode label) =
      Ok (mkUri None None None None None None None None (Some label) None)) as ->.
    { unfold store_query_attribute, default_uri. rewrite !bool_decide_false, bool_decide_true by done.
      rewrite percent_decode_encode by done. cbn [obind]. by rewrite Hv. }
    cbn [obind]. by rewrite store_authkey.
Qed.

(** C40: Parsing a selector panics exactly when byte 7 of a longer valid string
    lies inside a character ([str::split_at] is called before the scheme is
    known), and so does the choice of a card's secure channel; a YubiHSM user
    name is checked for the scheme first and never panics. *)
Theorem uri_parse_panics (v : list Z) (configured : option SecureChannelProtocol) :
  (ClientAuthUri_parse v = Panic ↔ utf8_valid v = true ∧ 7 < len v ∧ continuation (at_ v 7) = true) ∧
  (selection v configured = Panic ↔ ClientAuthUri_parse v = Panic) ∧
  parse_yubihsm_login_username v ≠ Panic.
Proof.
  split_and!; [apply parse_panic| |].
  - unfold selection. destruct (ClientAuthUri_parse v) as [u|e|]; cbn [obind]; [|done..].
    split; [|done]. intros E. exfalso. revert E. cbv zeta. no_panic.
  - unfold parse_yubihsm_login_username. destruct (7 <=? len v) eqn:El; cbn [andb]; [|done].
    destruct (eq_ignore_ascii_case _ _) eqn:Es; [|done]. rewrite parse_panic. intros (Hu & Hl & Hc).
    destruct (scheme_ascii _ Es) as [Ha Hn].
    rewrite <- (ztake_zdrop 7 v), utf8_valid_ascii in Hu by done.
    assert (at_ v 7 = at_ (zdrop 7 v) 0) as Hat.
    { pose proof (at_app_exact (ztake 7 v) (zdrop 7 v)) as Hx. by rewrite ztake_zdrop, Hn in Hx. }
    rewrite Hat in Hc. destruct (zdrop 7 v) as [|b rest] eqn:Ez.
    + apply (f_equal len) in Ez. pose proof (len_zdrop 7 v ltac:(lia)). change (len []) with 0 in Ez. lia.
    + apply utf8_valid_head in Hu. change (at_ (b :: rest) 0) with b in Hc. congruence.
Qed.

(** ** Packed logins *)

Lemma position_app c a b : absent c a → position c (a ++ c :: b) = Some (len a).
Proof.
  induction a as [|x a IH]; intros Ha; cbn [app position].
  { by rewrite Z.eqb_refl. }
  apply absent_cons in Ha as [Hx%Z.eqb_neq Ha]. by rewrite Hx, IH, len_cons.
Qed.

Lemma position_absent c a : absent c a → position c a = None.
Proof.
  induction a as [|x a IH]; intros Ha; [done|]. cbn [position].
  apply absent_cons in Ha as [Hx%Z.eqb_neq Ha]. by rewrite Hx, IH.
Qed.

(** A label or source that can be written in a user name. *)
Definition selector_part_ok (s : list Z) : Prop := parse_hsmauth_selector_part s 128 = Ok s.

Lemma selector_part_chars s : selector_part_ok s → s ≠ [] ∧ absent 64 s ∧ absent 58 s.
Proof.
  unfold selector_part_ok, parse_hsmauth_selector_part, absent. intros E.
  destruct ((len s =? 0) || _) eqn:E1; [done|]. cbn [bail obind] in E.
  destruct (negb (utf8_valid s)); [done|]. cbn [bail obind] in E.
  destruct (has_control s || contains_byte 64 s || contains_byte 58 s) eqn:E2; [done|].
  apply orb_false_iff in E1 as [E1 _]. rewrite !orb_false_iff in E2. split_and!; [|naive_solver..].
  intros ->. done.
Qed.

Definition source_text (source : option (list Z)) : list Z :=
  match source with Some s => 64 :: s | None => [] end.
(** [:kkkklabel@source] *)
Definition packed_username (k : Z) (label : list Z) (source : option (list Z)) : list Z :=
  58 :: format_04x k ++ label ++ source_text source.

Lemma split_selector_text label source :
  absent 64 label → split_selector (label ++ source_text source) = (label, source).
Proof.
  intros Hl. unfold split_selector. destruct source as [s|]; cbn [source_text].
  - rewrite position_app by done. rewrite ztake_app_len. f_equal. f_equal.
    unfold zdrop, len. rewrite Z2Nat.inj_add, Nat2Z.id by lia. rewrite drop_app_add. done.
  - rewrite app_nil_r. by rewrite position_absent.
Qed.

Lemma parse_yubihsm_authkey_digits k : 0 ≤ k < 65536 → parse_yubihsm_authkey_id (format_04x k) = Ok k.
Proof. intros Hk. apply (format_04x_digits k Hk). Qed.

(** A hexadecimal digit is neither a wildcard nor a separator. *)
Lemma HEX_not_special d : 0 ≤ d < 16 → at_ HEX d ≠ 42 ∧ at_ HEX d ≠ 58.
Proof.
  intros Hd. pose proof (byte_forall (λ d, (16 <=? d) || negb (at_ HEX d =? 42) && negb (at_ HEX d =? 58))
    ltac:(by vm_compute) d ltac:(lia)) as H. cbv beta in H. lia.
Qed.

Lemma first_digit_range k : 0 ≤ k < 65536 → 0 ≤ k / 4096 < 16.
Proof. intros Hk. split; [apply Z.div_pos|apply Z.div_lt_upper_bound]; lia. Qed.

Lemma parse_packed_username k label source :
  0 ≤ k < 65536 → selector_part_ok label → (∀ s, source = Some s → selector_part_ok s) →
  parse_packed_yubihsm_login_username (packed_username k label source) =
  Ok (HsmAuth (mkHsmAuthLogin label source k)).
Proof.
  intros Hk Hl Hs. destruct (HEX_not_special _ (first_digit_range k Hk)) as [Hn _].
  destruct (selector_part_chars label Hl) as (Hne & Hat & _). unfold parse_packed_yubihsm_login_username.
  rewrite bool_decide_false by (intros E; exact (Hn (f_equal (λ l, at_ l 1) E))).
  assert (starts_with (str ":*") (packed_username k label source) = false) as ->.
  { unfold starts_with. apply bool_decide_eq_false. intros E. exact (Hn (f_equal (λ l, at_ l 1) E)). }
  unfold packed_username at 1. unfold parse_hsmauth_username.
  assert ((len (packed_username k label source) <? 6) || negb (at_ (packed_username k label source) 0 =? 58) = false) as ->.
  { unfold packed_username, format_04x. cbn [app]. change (at_ (58 :: _) 0 =? 58) with true. rewrite orb_false_r.
    apply Z.ltb_ge. rewrite !len_cons, len_app. pose proof (len_nonneg (source_text source)).
    destruct label; [done|]. rewrite len_cons. pose proof (len_nonneg label). lia. }
  cbn [bail obind].
  change (slice 1 5 (packed_username k label source)) with (format_04x k).
  change (zdrop 5 (packed_username k label source)) with (label ++ source_text source).
  rewrite parse_yubihsm_authkey_digits by done. cbn [obind]. rewrite split_selector_text by done.
  unfold selector_part_ok in *. rewrite Hl. cbn [obind]. destruct source as [s|]; cbn [transpose]; [|done].
  by rewrite (Hs s).
Qed.

Lemma colon_match {A} (a b : A) d l : d ≠ 58 → match d :: l with 58 :: _ => a | _ => b end = b.
Proof. intros Hd. destruct d as [|p|p]; try done. do 6 (destruct p as [p|p|]; try done). Qed.

Lemma parse_direct_username k :
  0 ≤ k < 65536 → parse_packed_yubihsm_login_username (format_04x k) = Ok (Direct k).
Proof.
  intros Hk. destruct (HEX_not_special _ (first_digit_range k Hk)) as [_ Hc].
  unfold parse_packed_yubihsm_login_username.
  rewrite bool_decide_false by (intros E; exact (Hc (f_equal (λ l, at_ l 0) E))).
  assert (starts_with (str ":*") (format_04x k) = false) as ->.
  { unfold starts_with. apply bool_decide_eq_false. intros E. exact (Hc (f_equal (λ l, at_ l 0) E)). }
  etrans; [exact (colon_match _ _ _ (tail (format_04x k)) Hc)|]. by rewrite parse_yubihsm_authkey_digits.
Qed.

Lemma split_login_text u (separated : bool) password :
  bool_decide (head u = Some 58) = separated → u ≠ [] → reject_packed_login_wildcard u = Ok tt →
  split_login_at (u ++ (if separated then [58] else []) ++ password) (len u) = Ok (u, Some password).
Proof.
  intros Hh Hne Hr. set (sep := if separated then [58] else []).
  assert (head (u ++ sep ++ password) = head u) as Hhead by by destruct u.
  assert (len u + (if separated then 1 else 0) = len (u ++ sep)) as Hlen.
  { rewrite len_app. by destruct separated. }
  unfold split_login_at. rewrite Hhead, Hh, Hlen, ztake_app_len, Hr, !len_app.
  pose proof (len_nonneg sep). pose proof (len_nonneg password).
  destruct (Z.ltb_spec (len u + (len sep + len password)) (len u)); [lia|]. cbn [bail obind].
  destruct (Z.ltb_spec (len u + (len sep + len password)) (len u + len sep)); [lia|].
  by rewrite <- len_app, app_assoc, zdrop_app_len.
Qed.

(** A packed login is taken apart into the user name and password it was put
    together from, for every password, also one that contains colons; a user name
    without a password is recognised as such; and the user name selects the
    credential it names. *)
Theorem packed_login_roundtrip (k : Z) (label : list Z) (source : option (list Z)) (password : list Z) :
  0 ≤ k < 65536 → selector_part_ok label → (∀ s, source = Some s → selector_part_ok s) →
  split_yubihsm_login (packed_username k label source ++ 58 :: password) =
    Ok (packed_username k label source, Some password) ∧
  split_yubihsm_login (packed_username k label source) = Ok (packed_username k label source, None) ∧
  expand_packed_yubihsm_login (packed_username k label source) =
    Ok (mkUri None None source None (Some label) None None (Some k) None None) ∧
  (password ≠ [] → split_yubihsm_login (format_04x k ++ password) = Ok (format_04x k, Some password)) ∧
  split_yubihsm_login (format_04x k) = Ok (format_04x k, None) ∧
  expand_packed_yubihsm_login (format_04x k) =
    Ok (mkUri None None None None None None None (Some k) (Some (str "direct")) None).
Proof.
  intros Hk Hl Hs. pose proof (parse_packed_username k label source Hk Hl Hs) as Hp.
  pose proof (parse_direct_username k Hk) as Hd.
  destruct (HEX_not_special _ (first_digit_range k Hk)) as [_ Hc].
  assert (bool_decide (head (format_04x k) = Some 58) = false) as Hh.
  { apply bool_decide_eq_false. unfold format_04x. cbn [head]. congruence. }
  assert (absent 58 (label ++ source_text source)) as Ha.
  { apply absent_app. split; [by apply selector_part_chars|]. destruct source as [s|]; [|done].
    apply absent_cons. split; [done|]. by apply selector_part_chars, Hs. }
  assert (reject_packed_login_wildcard (packed_username k label source) = Ok tt) as Hr.
  { unfold reject_packed_login_wildcard. by rewrite Hp. }
  assert (len (packed_username k label source) = 5 + len (label ++ source_text source)) as Hlen.
  { unfold packed_username, format_04x. cbn [app]. rewrite !len_cons. lia. }
  pose proof (len_nonneg (label ++ source_text source)) as Hpos.
  split_and!.
  - unfold split_yubihsm_login. change (head _) with (Some 58) at 1. rewrite len_app, Hlen, andb_false_r.
    rewrite bool_decide_true by done. rewrite len_cons. pose proof (len_nonneg password).
    destruct (Z.ltb_spec (5 + len (label ++ source_text source) + (1 + len password)) 5); [lia|].
    change (zdrop 5 _) with ((label ++ source_text source) ++ 58 :: password).
    rewrite position_app, (Z.add_comm _ 5), <- Hlen by done.
    exact (split_login_text (packed_username k label source) true password eq_refl ltac:(done) Hr).
  - unfold split_yubihsm_login. change (head _) with (Some 58) at 1. rewrite andb_false_r.
    rewrite bool_decide_true, Hlen by done. destruct (Z.ltb_spec (5 + len (label ++ source_text source)) 5); [lia|].
    change (zdrop 5 _) with (label ++ source_text source). by rewrite position_absent, Hr.
  - unfold expand_packed_yubihsm_login. by rewrite Hp.
  - intros Hne. unfold split_yubihsm_login. change (head (format_04x k ++ password)) with (head (format_04x k)).
    rewrite len_app, Hh. change (len (format_04x k)) with 4. destruct password as [|b password]; [done|].
    rewrite len_cons. pose proof (len_nonneg password). destruct (Z.eqb_spec (4 + (1 + len password)) 4); [lia|].
    cbn [andb]. refine (split_login_text _ false _ Hh _ _); [done|]. unfold reject_packed_login_wildcard. by rewrite Hd.
  - unfold split_yubihsm_login. by rewrite Hh.
  - unfold expand_packed_yubihsm_login. by rewrite Hd.
Qed.

(** The secure channel of a card login follows the configuration. A
    configured protocol is never replaced, a protocol named in the selector is
    never ignored, SCP11c is used only when configured and SCP11b never; a class
    in the selector is the class of the protocol's keys; and the selector names no
    YubiHSM credential. *)
Theorem selection_respects_policy (v : list Z) (configured : option SecureChannelProtocol)
    (u : ClientAuthUri) (p : SecureChannelProtocol) :
  selection v configured = Ok (u, p) →
  ClientAuthUri_parse v = Ok u ∧
  (∀ c, configured = Some c → p = c) ∧ (∀ q, scp u = Some q → p = q) ∧
  p ≠ Scp11b ∧ (p = Scp11c → configured = Some Scp11c) ∧
  (∀ c, class u = Some c → c = if bool_decide (p = Scp03) then CKO_SECRET_KEY else CKO_PRIVATE_KEY) ∧
  direct u = None ∧ authkey_id u = None.
Proof.
  unfold selection. destruct (ClientAuthUri_parse v) as [u'|e|]; [|done..]. cbn [obind]. intros E.
  destruct (is_some (direct u') || is_some (authkey_id u')) eqn:E1; [done|]. cbn [bail obind] in E.
  case_bool_decide as E2; [done|]. cbn [bail obind] in E.
  destruct (is_some configured && _ && _) eqn:E3; [done|]. cbn [bail obind] in E.
  case_bool_decide as E4; [done|]. cbn [bail obind] in E.
  destruct (match class u' with Some c => _ | None => _ end) eqn:E5; [done|]. cbn [bail obind] in E.
  simplify_eq. apply orb_false_iff in E1 as [Ed Ea].
  split_and!; try done; try (by destruct (direct u), (authkey_id u)).
  - intros c ->. done.
  - intros q Hq. rewrite Hq in *. destruct configured as [c|]; [|done]. cbn [is_some andb] in E3.
    apply negb_false_iff, bool_decide_eq_true in E3. congruence.
  - destruct configured as [c|]; [congruence|]. destruct (scp u); [congruence|]. by case_bool_decide.
  - intros c Hc. rewrite Hc in *. apply negb_false_iff, Z.eqb_eq in E5. done.
Qed.

(** ** Concrete selectors *)

Definition sample_uri : list Z :=
  str "pkcs11:token=PIV%20%2337070618;object=Authentication;id=%9A;type=private?pkcs11rs-authkey=00a5".

Lemma uri_parse_exact_witness :
  ∃ u, ClientAuthUri_parse sample_uri = Ok u ∧ path_field (str "token") u = Some (str "PIV #37070618") ∧
  ∃ attrs qattrs, NoDup (attrs : list (list Z * list Z)).*1 ∧
    (∀ name, path_field name u = (list_to_map attrs : gmap _ _) !! name) ∧
    given (authkey_id u) read_authkey (values AUTHKEY_QUERY qattrs).
Proof.
  exists (mkUri (Some (str "PIV #37070618")) None None None (Some (str "Authentication")) (Some [154]) (Some 3)
    (Some 165) None None).
  assert (ClientAuthUri_parse sample_uri = Ok (mkUri (Some (str "PIV #37070618")) None None None
    (Some (str "Authentication")) (Some [154]) (Some 3) (Some 165) None None)) as E by (vm_compute; reflexivity).
  split; [exact E|]. split; [reflexivity|].
  destruct (uri_parse_exact sample_uri _ E)
    as (scheme & path & query & attrs & qattrs & _ & _ & _ & _ & _ & _ & _ & H1 & H2 & _ & _ & _ & _ & H3 & _).
  exists attrs, qattrs. split; [exact H1|]. split; [exact H2|exact H3].
Defined.

Lemma uri_generated_roundtrip_witness :
  ClientAuthUri_parse (object_uri_from_prefix (slot_uri_prefix (str "Software Token") (str "7")) CKO_PRIVATE_KEY
    (str "a;b=c?d") [0; 127; 128; 255]) =
  Ok (object_selector (str "Software Token") (str "7") CKO_PRIVATE_KEY (str "a;b=c?d") [0; 127; 128; 255] None).
Proof.
  exact (proj1 (uri_generated_roundtrip (str "Software Token") (str "7") (str "a;b=c?d") [0; 127; 128; 255]
    CKO_PRIVATE_KEY 165 eq_refl eq_refl eq_refl eq_refl ltac:(lia))).
Defined.

(** A user name that begins like the scheme and continues with a two-byte letter. *)
Lemma uri_parse_panics_witness :
  selection (str "pkcs11" ++ [0xc3; 0xa9]) None = Panic.
Proof.
  apply (proj1 (proj2 (uri_parse_panics (str "pkcs11" ++ [0xc3; 0xa9]) None))).
  vm_compute. reflexivity.
Defined.

Lemma packed_login_roundtrip_witness :
  split_yubihsm_login (str ":00a5client@7:pass:word") = Ok (str ":00a5client@7", Some (str "pass:word")).
Proof.
  refine (proj1 (packed_login_roundtrip 165 (str "client") (Some (str "7")) (str "pass:word") _ _ _)).
  - lia.
  - vm_compute. reflexivity.
  - intros s E. injection E as <-. vm_compute. reflexivity.
Defined.

Lemma selection_respects_policy_witness :
  ∃ u, selection (str "pkcs11:type=secret-key") None = Ok (u, Scp03) ∧ direct u = None.
Proof.
  exists (mkUri None None None None None None (Some CKO_SECRET_KEY) None None None).
  assert (selection (str "pkcs11:type=secret-key") None =
    Ok (mkUri None None None None None None (Some CKO_SECRET_KEY) None None None, Scp03)) as E
    by (vm_compute; reflexivity).
  split; [exact E|].
  exact (proj1 (proj2 (proj2 (proj2 (proj2 (proj2 (proj2 (selection_respects_policy _ _ _ _ E)))))))).
Defined.
