(* ===== verification/CryptApi.v ===== *)
(** * CryptApi: what the cryptographic entry points share

    The output buffer of a call, the mechanism argument and the checks on it
    ([require_slot_mechanism] and [require_key_mechanism] of
    [src/src/mechanism.rs]), and the laws of reading and updating one open
    session. [Digests] and [Ciphers] build on it.

    An entry point runs on the slot's context and on the caller's output
    buffer, so its state is a pair; what it wrote stays written when it returns
    an error. The backend calls that the cryptographic code adds to [Slot] are
    the class [CryptBackend]. *)
From S2P Require Import Prelude Errors Mechanisms Storage YubiHsm SlotState SessionApi.

(** ** Arguments *)

(** A pair of an output pointer and a pointer to its capacity. [out_data] is
    what was written through the pointer, starting with nothing. *)
Record Output : Type := mkOutput {
  out_null : bool;
  out_len : option Z;
  out_data : list Z;
}.
#[export] Instance Output_eq_dec : EqDecision Output.
Proof. solve_decision. Defined.

Definition set_out_len (n : Z) (o : Output) : Output := mkOutput (out_null o) (Some n) (out_data o).
Definition write_out (bytes : list Z) (o : Output) : Output := mkOutput (out_null o) (out_len o) bytes.

Record CK_GCM_PARAMS : Type := mkGcmParams {
  gcm_pIv : option (list Z); gcm_ulIvLen : Z; gcm_pAAD : option (list Z); gcm_ulAADLen : Z; gcm_ulTagBits : Z;
}.
Record CK_AES_CTR_PARAMS : Type := mkCtrParams { ulCounterBits : Z; cb : list Z }.
Record CK_CCM_PARAMS : Type := mkCcmParams {
  ulDataLen : Z; ccm_pNonce : option (list Z); ccm_ulNonceLen : Z; ccm_pAAD : option (list Z);
  ccm_ulAADLen : Z; ccm_ulMACLen : Z;
}.
Record CK_RSA_PKCS_OAEP_PARAMS : Type := mkOaepParams {
  hashAlg : Z; oaep_mgf : Z; source : Z; pSourceData : option (list Z); ulSourceDataLen : Z;
}.

Record CK_RSA_PKCS_PSS_PARAMS : Type := mkPssParams { pss_hashAlg : Z; pss_mgf : Z; sLen : Z }.
Record CK_SIGN_ADDITIONAL_CONTEXT : Type := mkSignContext {
  hedgeVariant : Z; pContext : option (list Z); ulContextLen : Z;
}.
(** [CK_HASH_SIGN_ADDITIONAL_CONTEXT]: the same and the hash. *)
Record CK_HASH_SIGN_ADDITIONAL_CONTEXT : Type := mkHashSignContext {
  hash_context : CK_SIGN_ADDITIONAL_CONTEXT; hash_mechanism_of : Z;
}.
Record CK_OTP_PARAM : Type := mkOtpParam { otp_type : Z; otp_pValue : option (list Z); otp_ulValueLen : Z }.
Record CK_OTP_PARAMS : Type := mkOtpParams { otp_pParams : option (list CK_OTP_PARAM); ulCount : Z }.

(** *** Parameters of the key mechanisms *)

Record CK_PKCS5_PBKD2_PARAMS2 : Type := mkPbkd2Params {
  saltSource : Z; pSaltSourceData : option (list Z); ulSaltSourceDataLen : Z; iterations : Z; prf : Z;
  pPrfData : option (list Z); ulPrfDataLen : Z; pPassword : option (list Z); ulPasswordLen : Z;
}.
(** [CK_ECDH1_DERIVE_PARAMS], and the same with a prefix. *)
Record CK_ECDH1_DERIVE_PARAMS : Type := mkEcdhParams {
  ecdh_kdf_type : Z; pSharedData : option (list Z); ulSharedDataLen : Z; pPublicData : option (list Z); ulPublicDataLen : Z;
}.
Record CK_PKCS11RS_PREFIXED_ECDH_DERIVE_PARAMS : Type := mkPrefixedParams {
  prefixed_base : CK_ECDH1_DERIVE_PARAMS; pPrefixData : option (list Z); ulPrefixDataLen : Z;
}.
Record CK_HKDF_PARAMS : Type := mkHkdfParams {
  bExtract : Z; bExpand : Z; prfHashMechanism : Z; ulSaltType : Z; pSalt : option (list Z); ulSaltLen : Z; hSaltKey : Z;
  pInfo : option (list Z); ulInfoLen : Z;
}.
Record CK_KEY_DERIVATION_STRING_DATA : Type := mkStringData { string_pData : option (list Z); string_ulLen : Z }.
Record CK_SP800_108_COUNTER_FORMAT : Type := mkCounterFormat { counter_bLittleEndian : Z; counter_ulWidthInBits : Z }.
Record CK_SP800_108_DKM_LENGTH_FORMAT : Type := mkDkmFormat {
  dkmLengthMethod : Z; dkm_bLittleEndian : Z; dkm_ulWidthInBits : Z;
}.
(** The memory behind the [pValue] of a [CK_PRF_DATA_PARAM]. *)
Record PrfMemory : Type := mkPrfMemory {
  prf_bytes : list Z; prf_counter : CK_SP800_108_COUNTER_FORMAT; prf_length : CK_SP800_108_DKM_LENGTH_FORMAT;
}.
Record CK_PRF_DATA_PARAM : Type := mkPrfData { prf_type : Z; prf_pValue : option PrfMemory; prf_ulValueLen : Z }.
Record CK_SP800_108_KDF_PARAMS : Type := mkKdfParams {
  prfType : Z; ulNumberOfDataParams : Z; pDataParams : option (list CK_PRF_DATA_PARAM); ulAdditionalDerivedKeys : Z;
  additional_keys_null : bool;
}.
Record CK_RSA_AES_KEY_WRAP_PARAMS : Type := mkRsaAesParams {
  ulAESKeyBits : Z; pOAEPParams : option CK_RSA_PKCS_OAEP_PARAMS;
}.
Record KeyParameterMemory : Type := mkKeyMemory {
  as_pbkdf2 : CK_PKCS5_PBKD2_PARAMS2;
  as_ecdh : CK_ECDH1_DERIVE_PARAMS;
  as_prefixed_ecdh : CK_PKCS11RS_PREFIXED_ECDH_DERIVE_PARAMS;
  as_hkdf : CK_HKDF_PARAMS;
  as_string_data : CK_KEY_DERIVATION_STRING_DATA;
  as_kdf : CK_SP800_108_KDF_PARAMS;
  as_rsa_aes : CK_RSA_AES_KEY_WRAP_PARAMS;
}.
Definition empty_ecdh : CK_ECDH1_DERIVE_PARAMS := mkEcdhParams 0 None 0 None 0.
Definition empty_key_memory : KeyParameterMemory :=
  mkKeyMemory (mkPbkd2Params 0 None 0 0 0 None 0 None 0) empty_ecdh (mkPrefixedParams empty_ecdh None 0)
    (mkHkdfParams 0 0 0 0 None 0 0 None 0) (mkStringData None 0) (mkKdfParams 0 0 None 0 true) (mkRsaAesParams 0 None).

(** Sizes of the C structures with 64-bit pointers and [CK_ULONG]. *)
Definition SIZE_OF_PBKD2_PARAMS2 : Z := 72.
Definition SIZE_OF_ECDH1_DERIVE_PARAMS : Z := 40.
Definition SIZE_OF_PREFIXED_ECDH_DERIVE_PARAMS : Z := 56.
Definition SIZE_OF_HKDF_PARAMS : Z := 64.
Definition SIZE_OF_STRING_DATA : Z := 16.
Definition SIZE_OF_COUNTER_FORMAT : Z := 16.
Definition SIZE_OF_DKM_LENGTH_FORMAT : Z := 24.
Definition SIZE_OF_PRF_DATA_PARAM : Z := 24.
Definition SIZE_OF_KDF_PARAMS : Z := 40.
Definition SIZE_OF_RSA_AES_PARAMS : Z := 16.
Definition SIZE_OF_CCM_WRAP_PARAMS : Z := 8.
Definition SIZE_OF_GCM_PARAMS : Z := 48.
Definition SIZE_OF_CTR_PARAMS : Z := 24.
Definition SIZE_OF_CCM_PARAMS : Z := 48.
Definition SIZE_OF_OAEP_PARAMS : Z := 40.
Definition SIZE_OF_PSS_PARAMS : Z := 24.
Definition SIZE_OF_SIGN_CONTEXT : Z := 24.
Definition SIZE_OF_HASH_SIGN_CONTEXT : Z := 32.
Definition SIZE_OF_ULONG : Z := 8.
Definition SIZE_OF_OTP_PARAM : Z := 24.
Definition SIZE_OF_OTP_PARAMS : Z := 16.
Definition SIZE_OF_OTP_SIGNATURE_INFO : Z := 16.

(** The memory behind [pParameter], read as the structure a mechanism takes. *)
Record ParameterMemory : Type := mkMemory {
  as_bytes : list Z;
  as_gcm : CK_GCM_PARAMS;
  as_ctr : CK_AES_CTR_PARAMS;
  as_ccm : CK_CCM_PARAMS;
  as_oaep : CK_RSA_PKCS_OAEP_PARAMS;
  as_ulong : Z;
  as_pss : CK_RSA_PKCS_PSS_PARAMS;
  as_sign_context : CK_SIGN_ADDITIONAL_CONTEXT;
  as_hash_context : CK_HASH_SIGN_ADDITIONAL_CONTEXT;
  as_otp : CK_OTP_PARAMS;
  as_key : KeyParameterMemory;
}.

Record CK_MECHANISM : Type := mkMechanism {
  mechanism : Z;
  pParameter : option ParameterMemory;
  ulParameterLen : Z;
}.

(** Memory that holds nothing but bytes: a mechanism that takes bytes, or none. *)
Definition byte_memory (bytes : list Z) : ParameterMemory :=
  mkMemory bytes (mkGcmParams None 0 None 0 0) (mkCtrParams 0 (replicate 16 0)) (mkCcmParams 0 None 0 None 0 0)
    (mkOaepParams 0 0 0 None 0) 0 (mkPssParams 0 0 0) (mkSignContext 0 None 0)
    (mkHashSignContext (mkSignContext 0 None 0) 0) (mkOtpParams None 0) empty_key_memory.

Definition is_null {A} (pointer : option A) : bool := bool_decide (pointer = None).

(** [!mechanism.pParameter.is_null() || mechanism.ulParameterLen != 0] *)
Definition has_parameter (m : CK_MECHANISM) : bool :=
  match pParameter m with Some _ => true | None => false end || negb (ulParameterLen m =? 0).

(** ** The backend *)

Class CryptBackend (B : Type) : Type := {
  mechanisms : B → list MechanismDetails;
  backend_mechanisms : B → list MechanismDetails;
  yubihsm_command : BackendSession → Command → SM B Error (list Z);
  piv_decipher : BackendSession → Z → PivAlgorithm → list Z → Z → SM B Error (list Z);
  openpgp_decipher : BackendSession → list Z → bool → SM B Error (list Z);
  piv_sign : BackendSession → Z → PivAlgorithm → list Z → Z → option MlDsaSignatureParameters →
    SM B Error (list Z);
  openpgp_sign : BackendSession → Z → list Z → Z → SM B Error (list Z);
  fido_get_assertion : Z → list Z → list Z → list Z → SM B Error (list Z);
  fido_preview_sign : Z → PreviewSignRegistration → list Z → list Z → SM B Error (list Z);
  oath_calculate : Credential → option Z → SM B Error (list Z);
}.

(** ** Checks and calls *)

Definition allows_mechanism (m : Z) (o : TokenObject) : bool :=
  match allowed_mechanisms o with
  | None => true
  | Some allowed => one_of allowed m
  end.

Definition require_key_mechanism (o : TokenObject) (m : Z) : outcome Error unit :=
  bail (negb (allows_mechanism m o)) #CKR_MECHANISM_INVALID.

Section crypt_api.
Context {B P : Type} `{Slot B} `{StorageProvider P} `{Sha3, MiniCbor} `{BackedObjects}
  `{Environment B P} `{CryptBackend B}.
Abbreviation Ctx := (SlotContext B P).
Abbreviation M := (SM Ctx Error).
Abbreviation IO := (SM (Ctx * Output) Error).

Definition require_slot_mechanism (id m operation : Z) : M MechanismDetails :=
  let! _ := get_slot id in
  let! table := asks mechanisms in
  let! details := sm_lift (mechanism_details table m) in
  let! _ := guard_err (Z.land (details_flags details) operation =? 0) #CKR_MECHANISM_INVALID in
  sm_ret details.

(** [ctx._get_session(session_handle)?.1.f(…)] *)
Definition on_session {A} (k : Z) (f : BackendSession → SM B Error A) : M A :=
  let! session := get_session k in
  on_slot (f session).

(** The output of a call. *)
Definition output_null : IO bool := sm_gets (λ s, out_null s.2).
Definition output_capacity : IO Z :=
  let! found := sm_gets (λ s, out_len s.2) in
  sm_lift (ok_or #CKR_ARGUMENTS_BAD found).
Definition report_length (n : Z) : IO unit := sm_modify (λ s, (s.1, set_out_len n s.2)).
Definition copy_out (bytes : list Z) : IO unit := sm_modify (λ s, (s.1, write_out bytes s.2)).

(** [with_session_context_mut], for code that also writes to the caller. *)
Definition with_session_output {A} (k : Z) (f : IO A) : SM (Module B P * Output) Error A := λ s,
  match with_session_context_mut k
          (λ x, let '(r, (x', o)) := f (x, s.2) in (Ok (r, o), x')) s.1 with
  | (Ok (r, o), m) => (r, (m, o))
  | (Err e, m) => (Err e, (m, s.2))
  | (Panic, m) => (Panic, (m, s.2))
  end.

(** ** One open session *)

Definition open_in (x : Ctx) (k : Z) (s : SessionContext) : Prop :=
  sessions (state x) !! k = Some s ∧ slotID (backend s) = slot_id (state x).

Definition put_session (k : Z) (s : SessionContext) (x : Ctx) : Ctx :=
  mkContext (slot x) (set_sessions (<[k := s]> (sessions (state x))) (state x)) (handles x).

Lemma get_session_context_open x k s : open_in x k s → get_session_context k x = (Ok s, x).
Proof.
  intros [Hs Hb]. unfold get_session_context. rewrite !sm_bind_unfold. cbn. rewrite Hs. cbn.
  unfold gets, guard_err. cbn. by rewrite Hb, Z.eqb_refl.
Qed.

Lemma get_session_open x k s : open_in x k s → get_session k x = (Ok (backend s), x).
Proof.
  intros [Hs Hb]. unfold get_session. rewrite !sm_bind_unfold. cbn. rewrite Hs. cbn.
  by rewrite Hb, Z.eqb_refl.
Qed.

Lemma update_session_open x k s f : open_in x k s → update_session k f x = (Ok tt, put_session k (f s) x).
Proof.
  intros Ho. unfold update_session. rewrite sm_bind_unfold, (get_session_context_open _ _ _ Ho).
  done.
Qed.

Lemma put_session_open x k s s' :
  open_in x k s → backend s' = backend s → open_in (put_session k s' x) k s'.
Proof. intros [Hs Hb] E. split; [apply lookup_insert_eq|]. by rewrite E. Qed.

Lemma put_session_twice x k s s' : put_session k s' (put_session k s x) = put_session k s' x.
Proof. unfold put_session, set_sessions. cbn. by rewrite insert_insert_eq. Qed.

Lemma put_session_same x k s : open_in x k s → put_session k s x = x.
Proof.
  intros [Hs _]. unfold put_session, set_sessions. rewrite insert_id by done. by destruct x as [? [] ?].
Qed.

(** A session that is not open answers every call the same way. *)
Lemma get_session_context_fails x k :
  (∀ s, ¬ open_in x k s) → get_session_context k x = (Err #CKR_SESSION_HANDLE_INVALID, x).
Proof.
  intros Hn. unfold get_session_context. rewrite !sm_bind_unfold. cbn.
  destruct (sessions (state x) !! k) as [s|] eqn:E; [|done]. cbn. unfold gets, guard_err. cbn.
  destruct (slotID (backend s) =? slot_id (state x)) eqn:Eb; [|done].
  exfalso. apply (Hn s). split; [done|lia].
Qed.
End crypt_api.
