(* ===== verification/Digests.v ===== *)
(** * Digests: the digest entry points

    Models [src/src/api/crypt/digest.rs]: [C_DigestInit], [C_Digest],
    [C_DigestUpdate], [C_DigestKey] and [C_DigestFinal] on the digest operation
    of a session. The incremental hash of [software-key-core] is the class
    [HashCore]; its law says that a context fed in parts holds the hash of the
    concatenation. *)
From S2P Require Import Prelude Errors Mechanisms Storage YubiHsm SlotState SessionApi CryptApi.

(** [HashAlgorithm::size], [HashContext::new], [update] and [finalize]. *)
Class HashCore : Type := {
  hash_size : MessageDigest → Z;
  hash_new : MessageDigest → HashContext;
  hash_update : HashContext → list Z → HashContext;
  hash_finalize : HashContext → list Z;
  hash : MessageDigest → list Z → list Z;
}.
Class HashCoreLaws `{HashCore} : Prop := {
  hash_incremental a parts :
    hash_finalize (foldl hash_update (hash_new a) parts) = hash a (concat parts);
  hash_length a data : len (hash a data) = hash_size a;
}.

Definition set_digest (op : option DigestOperation) (s : SessionContext) : SessionContext :=
  mkSession (backend s) (storage s) (find_operation s) op (encrypt_operation s) (decrypt_operation s)
    (sign_operation s) (verify_operation s).

Definition software_digest (m : Z) : outcome Error MessageDigest :=
  let? _ := bail (negb (existsb (λ d, type_ d =? m) SOFTWARE_DIGEST_MECHANISMS)) #CKR_MECHANISM_INVALID in
  digest_for_hash_mechanism m.

Section digests.
Context `{HashCore}.

Definition update_digest (part : list Z) (op : DigestOperation) : DigestOperation :=
  mkDigest (digest_mechanism op) (digest_algorithm op) (hash_update (digest_state op) part) true.

Section on_slot.
Context {B P : Type} `{Slot B} `{StorageProvider P} `{Sha3, MiniCbor} `{BackedObjects}
  `{Environment B P} `{CryptBackend B}.
Abbreviation Ctx := (SlotContext B P).
Abbreviation M := (SM Ctx Error).
Abbreviation IO := (SM (Ctx * Output) Error).

(** A null mechanism cancels the operation. *)
Definition digest_init_in (k : Z) (m : option CK_MECHANISM) : M unit :=
  let! '(id, _, _) := session_details k in
  match m with
  | None =>
      let! session := get_session_context k in
      let! _ := update_session k (set_digest None) in
      sm_lift (match digest_operation session with
               | Some _ => Ok tt
               | None => Err #CKR_OPERATION_NOT_INITIALIZED
               end)
  | Some m =>
      let! session := get_session_context k in
      let! _ := guard_err (bool_decide (is_Some (digest_operation session))) #CKR_OPERATION_ACTIVE in
      let! _ := require_slot_mechanism id (mechanism m) CKF_DIGEST in
      let! _ := guard_err (has_parameter m) #CKR_MECHANISM_PARAM_INVALID in
      let! algorithm := sm_lift (software_digest (mechanism m)) in
      update_session k (set_digest (Some (mkDigest (mechanism m) algorithm (hash_new algorithm) false)))
  end.

(** The session's operation is taken only when the digest can be delivered. *)
Definition copy_digest (k : Z) (data : list Z) : IO unit :=
  let! session := sm_fst (get_session_context k) in
  let! capacity := output_capacity in
  let! op := sm_lift (ok_or #CKR_OPERATION_NOT_INITIALIZED (digest_operation session)) in
  let required := hash_size (digest_algorithm op) in
  let! null := output_null in
  if (null : bool) then report_length required
  else if capacity <? required then
    let! _ := report_length required in
    sm_err #CKR_BUFFER_TOO_SMALL
  else
    let! _ := sm_fst (update_session k (set_digest None)) in
    let value := hash_finalize (hash_update (digest_state op) data) in
    let! _ := copy_out value in
    report_length required.

Definition cancel_digest (k : Z) : M unit := update_session k (set_digest None).

Definition digest_in (k : Z) (data : option (list Z)) (data_len : Z) : IO unit :=
  let! session := sm_fst (get_session_context k) in
  let! op := sm_lift (ok_or #CKR_OPERATION_NOT_INITIALIZED (digest_operation session)) in
  if digest_multipart op then
    let! _ := sm_fst (cancel_digest k) in
    sm_err #CKR_OPERATION_ACTIVE
  else
    match from_raw_parts data data_len with
    | Ok data => copy_digest k data
    | Err e => let! _ := sm_fst (cancel_digest k) in sm_err e
    | Panic => sm_lift Panic
    end.

Definition digest_update_in (k : Z) (part : option (list Z)) (part_len : Z) : M unit :=
  match from_raw_parts part part_len with
  | Ok part =>
      let! session := get_session_context k in
      let! op := sm_lift (ok_or #CKR_OPERATION_NOT_INITIALIZED (digest_operation session)) in
      update_session k (set_digest (Some (update_digest part op)))
  | Err e => let! _ := cancel_digest k in sm_err e
  | Panic => sm_lift Panic
  end.

Definition digest_key_in (k key : Z) : M unit :=
  let! '(_, _, logged_in) := session_details k in
  let! session := get_session_context k in
  let! op := sm_lift (ok_or #CKR_OPERATION_NOT_INITIALIZED (digest_operation session)) in
  let! found := resolve_object key in
  let! object := sm_lift (ok_or #CKR_KEY_HANDLE_INVALID found) in
  let! _ := guard_err (negb (is_visible_to logged_in object)) #CKR_KEY_HANDLE_INVALID in
  let! _ := sm_lift (require_key_mechanism object (digest_mechanism op)) in
  let! _ := guard_err (negb (class object =? CKO_SECRET_KEY)) #CKR_KEY_INDIGESTIBLE in
  let! value := sm_lift (match material object with
                         | Secret value | SoftwareSecret value => Ok value
                         | _ => Err #CKR_KEY_INDIGESTIBLE
                         end) in
  let! session := get_session_context k in
  let! op := sm_lift (ok_or #CKR_OPERATION_NOT_INITIALIZED (digest_operation session)) in
  update_session k (set_digest (Some (update_digest value op))).

(** ** Entry points *)

Definition C_DigestInit (k : Z) (m : option CK_MECHANISM) : SM (Module B P) Error unit :=
  with_session_context_mut k (digest_init_in k m).

(** Without a length pointer the operation is cancelled, whatever the session. *)
Definition require_length_pointer (k : Z) (c : SM (Module B P * Output) Error unit)
    : SM (Module B P * Output) Error unit := λ s,
  match out_len s.2 with
  | None => (let! _ := sm_fst (sm_ignore (with_session_context_mut k (cancel_digest k))) in
             sm_err #CKR_ARGUMENTS_BAD) s
  | Some _ => c s
  end.

Definition C_Digest (k : Z) (data : option (list Z)) (data_len : Z) : SM (Module B P * Output) Error unit :=
  require_length_pointer k (with_session_output k (digest_in k data data_len)).
Definition C_DigestUpdate (k : Z) (part : option (list Z)) (part_len : Z) : SM (Module B P) Error unit :=
  with_session_context_mut k (digest_update_in k part part_len).
Definition C_DigestKey (k key : Z) : SM (Module B P) Error unit :=
  with_session_context_mut k (digest_key_in k key).
Definition C_DigestFinal (k : Z) : SM (Module B P * Output) Error unit :=
  require_length_pointer k (with_session_output k (copy_digest k [])).

(** ** Multi-part digests *)

(** A call between [C_DigestInit] and the call that delivers the digest: an
    update, or a [C_DigestFinal] that asks for the length or has too little
    room. *)
Inductive DigestCall : Type :=
| UpdateCall (part : list Z)
| ProbeCall (null : bool) (capacity : Z).

Definition run_call (k : Z) (c : DigestCall) : M unit :=
  match c with
  | UpdateCall part => digest_update_in k (Some part) (len part)
  | ProbeCall null capacity => λ x,
      let '(_, (x', _)) := copy_digest k [] (x, mkOutput null (Some capacity) []) in (Ok tt, x')
  end.

Fixpoint run_calls (k : Z) (cs : list DigestCall) : M unit :=
  match cs with
  | [] => sm_ret tt
  | c :: rest => let! _ := run_call k c in run_calls k rest
  end.

Definition call_part (c : DigestCall) : list Z :=
  match c with UpdateCall part => part | ProbeCall _ _ => [] end.

(** A probe cannot take the digest. *)
Definition only_probes (a : MessageDigest) (c : DigestCall) : Prop :=
  match c with
  | UpdateCall _ => True
  | ProbeCall null capacity => null = true ∨ capacity < hash_size a
  end.

Lemma from_raw_parts_all data : len data ≤ ISIZE_MAX → from_raw_parts (Some data) (len data) = Ok data.
Proof.
  intros Hl. unfold from_raw_parts, valid_raw_slice_length. destruct (Z.eqb_spec (len data) 0) as [E|E].
  - apply len_zero_iff in E. by subst.
  - destruct (Z.leb_spec (len data) ISIZE_MAX); [|lia]. cbn. by rewrite ztake_ge by lia.
Qed.

(** What one call does to the operation. *)
Definition after_call (c : DigestCall) (op : DigestOperation) : DigestOperation :=
  match c with
  | UpdateCall part => update_digest part op
  | ProbeCall _ _ => op
  end.

Lemma copy_digest_run x k s op o cap data :
  open_in x k s → digest_operation s = Some op → out_len o = Some cap →
  copy_digest k data (x, o) =
    (let required := hash_size (digest_algorithm op) in
     if out_null o then (Ok tt, (x, set_out_len required o))
     else if cap <? required then (Err #CKR_BUFFER_TOO_SMALL, (x, set_out_len required o))
     else (Ok tt, (put_session k (set_digest None s) x,
             set_out_len required (write_out (hash_finalize (hash_update (digest_state op) data)) o)))).
Proof.
  intros Ho Hd Hc. unfold copy_digest, sm_fst, output_capacity, output_null, report_length, copy_out.
  rewrite sm_bind_unfold. cbn [fst snd]. rewrite (get_session_context_open _ _ _ Ho).
  rewrite !sm_bind_unfold. cbn. rewrite Hc. cbn. rewrite Hd. cbn. unfold sm_gets. cbn.
  destruct (out_null o); [done|]. destruct (cap <? _); [done|].
  rewrite !sm_bind_unfold. cbn. by rewrite (update_session_open _ _ _ _ Ho).
Qed.

Lemma run_call_open x k s op c :
  open_in x k s → digest_operation s = Some op → only_probes (digest_algorithm op) c →
  len (call_part c) ≤ ISIZE_MAX →
  ∃ s', run_call k c x = (Ok tt, put_session k s' x) ∧ s' = set_digest (Some (after_call c op)) s.
Proof.
  intros Ho Hd Hp Hl. destruct c as [part|null cap]; eexists; (split; [|done]); cbn in *.
  - unfold digest_update_in. rewrite from_raw_parts_all by done. rewrite sm_bind_unfold.
    rewrite (get_session_context_open _ _ _ Ho), sm_bind_unfold, Hd. cbn.
    by rewrite (update_session_open _ _ _ _ Ho).
  - erewrite (copy_digest_run _ _ _ _ (mkOutput _ (Some _) _) _ _ Ho Hd eq_refl). cbn.
    rewrite <- Hd. replace (set_digest (digest_operation s) s) with s by by destruct s.
    rewrite (put_session_same x k s) by done.
    destruct Hp as [->|Hp]; [done|]. destruct null; [done|].
    destruct (Z.ltb_spec cap (hash_size (digest_algorithm op))); [done|lia].
Qed.

Lemma run_calls_open x k s op cs :
  open_in x k s → digest_operation s = Some op → Forall (only_probes (digest_algorithm op)) cs →
  Forall (λ c, len (call_part c) ≤ ISIZE_MAX) cs →
  run_calls k cs x = (Ok tt, put_session k (set_digest (Some (foldl (λ op c, after_call c op) op cs)) s) x).
Proof.
  revert x s op. induction cs as [|c cs IH]; intros x s op Ho Hd Hp Hl; cbn [run_calls foldl].
  { rewrite <- Hd. replace (set_digest (digest_operation s) s) with s by by destruct s.
    by rewrite put_session_same. }
  apply Forall_cons_1 in Hp as [Hp Hps]. apply Forall_cons_1 in Hl as [Hl Hls].
  destruct (run_call_open x k s op c Ho Hd Hp Hl) as (s' & Hr & ->).
  rewrite sm_bind_unfold, Hr. rewrite (IH _ (set_digest (Some (after_call c op)) s) (after_call c op)).
  - by rewrite put_session_twice.
  - by apply (put_session_open x k s).
  - done.
  - by destruct c.
  - done.
Qed.

(** The hash context after the calls. *)
Lemma after_calls_state op cs :
  digest_state (foldl (λ op c, after_call c op) op cs)
  = foldl hash_update (digest_state op) (concat ((λ c, match c with UpdateCall p => [p] | _ => [] end) <$> cs))
  ∧ digest_algorithm (foldl (λ op c, after_call c op) op cs) = digest_algorithm op.
Proof.
  revert op. induction cs as [|[part|null cap] cs IH]; intros op; cbn; [done| |].
  - by destruct (IH (update_digest part op)) as [-> ->].
  - apply IH.
Qed.

Lemma concat_parts cs :
  concat (concat ((λ c, match c with UpdateCall p => [p] | _ => [] end) <$> cs)) = concat (call_part <$> cs).
Proof. induction cs as [|[part|null cap] cs IH]; cbn; [done| |]; by rewrite IH. Qed.

Lemma call_parts_bound cs : len (concat (call_part <$> cs)) ≤ ISIZE_MAX →
  Forall (λ c, len (call_part c) ≤ ISIZE_MAX) cs.
Proof.
  induction cs as [|c cs IH]; intros Hl; constructor; cbn in Hl; simp_len;
    pose proof (len_nonneg (concat (call_part <$> cs))); pose proof (len_nonneg (call_part c)).
  - lia.
  - apply IH. lia.
Qed.

(** feeding data in any parts, with length queries and too-small buffers in
    between, and then finishing gives exactly what one [C_Digest] call on the
    concatenated data gives: the same bytes, the same reported length and the
    same state, with the operation gone. *)
Theorem digest_multipart_equals_single `{!HashCoreLaws} x k s m a cs cap :
  open_in x k s → digest_operation s = Some (mkDigest m a (hash_new a) false) →
  Forall (only_probes a) cs → len (concat (call_part <$> cs)) ≤ ISIZE_MAX → hash_size a ≤ cap →
  let data := concat (call_part <$> cs) in
  let done := (Ok tt, (put_session k (set_digest None s) x,
                       mkOutput false (Some (hash_size a)) (hash a data))) in
  (let! _ := sm_fst (run_calls k cs) in copy_digest k []) (x, mkOutput false (Some cap) []) = done ∧
  digest_in k (Some data) (len data) (x, mkOutput false (Some cap) []) = done.
Proof.
  intros Ho Hd Hp Hl Hc data. cbn zeta. split.
  - rewrite sm_bind_unfold. unfold sm_fst. cbn [fst snd].
    rewrite (run_calls_open x k s _ cs Ho Hd) by (try apply call_parts_bound; done).
    destruct (after_calls_state (mkDigest m a (hash_new a) false) cs) as [Hs Ha].
    erewrite copy_digest_run; [|by eapply put_session_open|done|done]. cbn zeta. rewrite Ha. cbn.
    destruct (Z.ltb_spec cap (hash_size a)); [lia|]. rewrite put_session_twice, Hs. cbn.
    replace (hash_update _ _) with
      (foldl hash_update (hash_new a)
         (concat ((λ c, match c with UpdateCall p => [p] | _ => [] end) <$> cs) ++ [[]]))
      by (by rewrite foldl_app).
    by rewrite hash_incremental, concat_app, concat_parts, app_nil_r.
  - unfold digest_in. rewrite sm_bind_unfold. unfold sm_fst. cbn [fst snd].
    rewrite (get_session_context_open _ _ _ Ho), sm_bind_unfold, Hd. cbn [ok_or sm_lift digest_multipart].
    rewrite from_raw_parts_all by done.
    erewrite (copy_digest_run _ _ _ _ (mkOutput _ (Some _) _) _ _ Ho Hd eq_refl). cbn.
    destruct (Z.ltb_spec cap (hash_size a)); [lia|].
    pose proof (hash_incremental a [data]) as E. cbn in E. by rewrite E, app_nil_r.
Qed.
End on_slot.
End digests.

(** ** Witnesses *)

(** A checksum: the sum of the bytes and their number. *)
Definition toy_checksum (data : list Z) : list Z := [foldr Z.add 0 data mod 256; len data mod 256].
#[export] Instance toy_hash : HashCore := {|
  hash_size _ := 2;
  hash_new _ := [];
  hash_update c part := c ++ part;
  hash_finalize := toy_checksum;
  hash _ := toy_checksum;
|}.
Lemma toy_hash_fold c parts : foldl (λ c part : list Z, c ++ part) c parts = c ++ concat parts.
Proof.
  revert c. induction parts as [|p ps IH]; intros c; cbn; [by rewrite app_nil_r|].
  by rewrite IH, app_assoc.
Qed.
#[export] Instance toy_hash_laws : HashCoreLaws.
Proof. split; [|done]. intros a parts. cbn. f_equal. apply toy_hash_fold. Qed.

#[export] Instance toy_crypt : CryptBackend ToyBackend := {|
  mechanisms _ := SOFTWARE_DIGEST_MECHANISMS ++
    [mkDetails CKM_AES_CBC_PAD 16 32 (Z.lor CKF_ENCRYPT CKF_DECRYPT);
     mkDetails CKM_SHA256_HMAC 1 64 (Z.lor CKF_SIGN CKF_VERIFY);
     mkDetails CKM_EDDSA 255 448 (Z.lor CKF_SIGN CKF_VERIFY)];
  yubihsm_command _ _ := sm_ret [];
  piv_decipher _ _ _ _ _ := sm_ret [];
  backend_mechanisms _ := [];
  openpgp_decipher _ _ _ := sm_ret [];
  piv_sign _ _ _ _ _ _ := sm_ret [];
  openpgp_sign _ _ _ _ := sm_ret [];
  fido_get_assertion _ _ _ _ := sm_ret [];
  fido_preview_sign _ _ _ _ := sm_ret [];
  oath_calculate _ _ := sm_ret [49; 50; 51; 52; 53; 54];
|}.

Definition toy_digesting : SlotContext ToyBackend MemoryStorageProvider :=
  (digest_init_in 1 (Some (mkMechanism CKM_SHA256 None 0)) toy_start).2.

Lemma digest_multipart_witness :
  let final := (let! _ := sm_fst (run_calls 1
                  [UpdateCall [1; 2]; ProbeCall true 0; UpdateCall []; ProbeCall false 1; UpdateCall [3]]) in
                copy_digest 1 []) (toy_digesting, mkOutput false (Some 8) []) in
  final.1 = Ok tt ∧ final.2.2 = mkOutput false (Some 2) [6; 3].
Proof.
  destruct (digest_multipart_equals_single toy_digesting 1
    (set_digest (Some (mkDigest CKM_SHA256 HashSha256 [] false)) (SessionContext_new (mkBackendSession 0 6)))
    CKM_SHA256 HashSha256
    [UpdateCall [1; 2]; ProbeCall true 0; UpdateCall []; ProbeCall false 1; UpdateCall [3]] 8) as [E _].
  - by split; vm_compute.
  - done.
  - repeat constructor; cbn; lia.
  - vm_compute. done.
  - cbn. lia.
  - cbn zeta. by rewrite E.
Defined.
