(* ===== verification/CipherModes.v ===== *)
(** * CipherModes: parameters, block modes and RSA operations

    The code of [src/src/api/crypt/encrypt.rs] and [shared.rs] that does not
    touch a session: the parsers of mechanism parameters, the software block
    modes with their error codes, the length of an output, and from
    [src/src/software_key_ops.rs] and [src/src/backend/crypto.rs] the CBC loop
    and the RSA operations.

    The ciphers of [software-key-core] and the [rsa] crate are the classes
    [SymmetricCore] and [RsaCore]. A mode that calls back into a block cipher
    takes the callback, so it also runs on a cipher inside a device. *)
From Stdlib Require Import Zpow_facts.
From S2P Require Import Prelude Errors Mechanisms Storage YubiHsm SlotState SessionApi CryptApi Digests.

(** ** External ciphers *)

Inductive SoftwareSymmetricError : Type :=
| InvalidKeyLength | InvalidDataLength | OtherSymmetricError.

Inductive GcmError (E : Type) : Type :=
| GcmInvalidIvLength | GcmInvalidTagLength | GcmInputTooLong | GcmCiphertextTooShort
| GcmInvalidBlockOutput | GcmAuthenticationFailed | GcmBlockOperation (e : E).
Inductive BlockCipherModeError (E : Type) : Type :=
| ModeInvalidBlockSize | ModeInvalidCounterBits | ModeInvalidIvLength | ModeInvalidDataLength
| ModeInputTooLong | ModeInvalidBlockOutput | ModeBlockOperation (e : E).
Inductive CcmError (E : Type) : Type :=
| CcmInvalidNonceLength | CcmInvalidTagLength | CcmInvalidDataLength | CcmInputTooLong
| CcmInvalidBlockOutput | CcmAuthenticationFailed | CcmBlockOperation (e : E).
Inductive KeyWrapError (E : Type) : Type :=
| WrapInvalidInitialValue | WrapInvalidDataLength | WrapInputTooLong | WrapInvalidBlockOutput
| WrapAuthenticationFailed | WrapBlockOperation (e : E).
Inductive CcmOperation : Type := EncryptBlocks | CbcMac.
Inductive RsaConstructionError : Type :=
| RsaInputTooLong | RsaInvalidDigestLength | RsaInvalidKey | RsaInvalidSignature | RsaInputOutOfRange
| RsaRandomnessUnavailable | RsaOperationFailed.
Arguments GcmInvalidIvLength {E}.
Arguments GcmInvalidTagLength {E}.
Arguments GcmInputTooLong {E}.
Arguments GcmCiphertextTooShort {E}.
Arguments GcmInvalidBlockOutput {E}.
Arguments GcmAuthenticationFailed {E}.
Arguments GcmBlockOperation {E} e.
Arguments ModeInvalidBlockSize {E}.
Arguments ModeInvalidCounterBits {E}.
Arguments ModeInvalidIvLength {E}.
Arguments ModeInvalidDataLength {E}.
Arguments ModeInputTooLong {E}.
Arguments ModeInvalidBlockOutput {E}.
Arguments ModeBlockOperation {E} e.
Arguments CcmInvalidNonceLength {E}.
Arguments CcmInvalidTagLength {E}.
Arguments CcmInvalidDataLength {E}.
Arguments CcmInputTooLong {E}.
Arguments CcmInvalidBlockOutput {E}.
Arguments CcmAuthenticationFailed {E}.
Arguments CcmBlockOperation {E} e.
Arguments WrapInvalidInitialValue {E}.
Arguments WrapInvalidDataLength {E}.
Arguments WrapInputTooLong {E}.
Arguments WrapInvalidBlockOutput {E}.
Arguments WrapAuthenticationFailed {E}.
Arguments WrapBlockOperation {E} e.

(** [software_key_core::software_symmetric]. The flag says whether to encrypt. *)
Class SymmetricCore : Type := {
  aes_ecb : bool → list Z → list Z → outcome SoftwareSymmetricError (list Z);
  tdes_ecb : bool → list Z → list Z → outcome SoftwareSymmetricError (list Z);
  tdes_cbc : bool → list Z → list Z → list Z → outcome SoftwareSymmetricError (list Z);
  apply_pkcs7_padding : list Z → Z → outcome unit (list Z);
  remove_pkcs7_padding : list Z → Z → outcome unit (list Z);
  gcm_with : ∀ S E, list Z → list Z → Z → list Z → bool → (list Z → SM S E (list Z)) →
    SM S (GcmError E) (list Z);
  ctr_with : ∀ S E, Z → list Z → list Z → (list Z → SM S E (list Z)) →
    SM S (BlockCipherModeError E) (list Z);
  ccm_with : ∀ S E, Z → list Z → list Z → Z → list Z → bool → (CcmOperation → list Z → SM S E (list Z)) →
    SM S (CcmError E) (list Z);
  key_wrap_with : ∀ S E, list Z → bool → list Z → (list Z → bool → SM S E (list Z)) →
    SM S (KeyWrapError E) (list Z);
  key_wrap_with_padding_with : ∀ S E, list Z → bool → list Z → (list Z → bool → SM S E (list Z)) →
    SM S (KeyWrapError E) (list Z);
}.

(** [rsa_signing] of [software-key-core] and [RsaPublicKey::new]. Padding draws
    random bytes from the environment [B]. *)
Class RsaCore (B : Type) : Type := {
  rsa_public_new : Z → Z → option RsaPublicKey;
  rsa_pkcs1v15_pad : list Z → Z → SM B RsaConstructionError (list Z);
  rsa_oaep_pad_digest : list Z → Z → list Z → MessageDigest → SM B RsaConstructionError (list Z);
  rsa_pkcs1v15_unpad : list Z → outcome unit (list Z);
  rsa_oaep_unpad_digest : list Z → list Z → MessageDigest → outcome unit (list Z);
}.

(** ** Mechanism parameters *)

Definition U32_MAX : Z := 2 ^ 32 - 1.

Definition parse_gcm_parameters (m : CK_MECHANISM) : outcome Error GcmParameters :=
  match pParameter m with
  | None => Err #CKR_MECHANISM_PARAM_INVALID
  | Some memory =>
      if negb (ulParameterLen m =? SIZE_OF_GCM_PARAMS) then Err #CKR_MECHANISM_PARAM_INVALID
      else
        let p := as_gcm memory in
        if (gcm_ulIvLen p =? 0) || (U32_MAX <? gcm_ulIvLen p) || (U32_MAX <? gcm_ulAADLen p)
           || (128 <? gcm_ulTagBits p) || is_null (gcm_pIv p)
           || (negb (gcm_ulAADLen p =? 0) && is_null (gcm_pAAD p))
        then Err #CKR_MECHANISM_PARAM_INVALID
        else
          let? iv := from_raw_parts (gcm_pIv p) (gcm_ulIvLen p) in
          let? aad := from_raw_parts (gcm_pAAD p) (gcm_ulAADLen p) in
          Ok (mkGcm iv aad (gcm_ulTagBits p))
  end.

Definition parse_ctr_parameters (m : CK_MECHANISM) : outcome Error CtrParameters :=
  match pParameter m with
  | None => Err #CKR_MECHANISM_PARAM_INVALID
  | Some memory =>
      if negb (ulParameterLen m =? SIZE_OF_CTR_PARAMS) then Err #CKR_MECHANISM_PARAM_INVALID
      else
        let p := as_ctr memory in
        if negb ((1 <=? ulCounterBits p) && (ulCounterBits p <=? 128)) then Err #CKR_MECHANISM_PARAM_INVALID
        else Ok (mkCtr (ulCounterBits p) (cb p))
  end.

Definition parse_ccm_parameters (m : CK_MECHANISM) : outcome Error CcmParameters :=
  match pParameter m with
  | None => Err #CKR_MECHANISM_PARAM_INVALID
  | Some memory =>
      if negb (ulParameterLen m =? SIZE_OF_CCM_PARAMS) then Err #CKR_MECHANISM_PARAM_INVALID
      else
        let p := as_ccm memory in
        if negb ((7 <=? ccm_ulNonceLen p) && (ccm_ulNonceLen p <=? 13))
           || negb (one_of [4; 6; 8; 10; 12; 14; 16] (ccm_ulMACLen p))
           || (U32_MAX <? ccm_ulAADLen p) || is_null (ccm_pNonce p)
           || (negb (ccm_ulAADLen p =? 0) && is_null (ccm_pAAD p))
        then Err #CKR_MECHANISM_PARAM_INVALID
        else
          let length_bytes := 15 - ccm_ulNonceLen p in
          if (length_bytes <? 8) && (Z.shiftl 1 (length_bytes * 8) <=? ulDataLen p)
          then Err #CKR_MECHANISM_PARAM_INVALID
          else
            let? nonce := from_raw_parts (ccm_pNonce p) (ccm_ulNonceLen p) in
            let? aad := from_raw_parts (ccm_pAAD p) (ccm_ulAADLen p) in
            Ok (mkCcm (ulDataLen p) nonce aad (ccm_ulMACLen p))
  end.

Definition parse_key_wrap_iv (m : CK_MECHANISM) (default : list Z) : outcome Error (list Z) :=
  match pParameter m with
  | None => if ulParameterLen m =? 0 then Ok default else Err #CKR_MECHANISM_PARAM_INVALID
  | Some memory =>
      if negb (ulParameterLen m =? len default) then Err #CKR_MECHANISM_PARAM_INVALID
      else from_raw_parts (Some (as_bytes memory)) (len default)
  end.

(** The initialisation vector of a CBC mechanism with blocks of [n] bytes. *)
Definition parse_cbc_iv (m : CK_MECHANISM) (n : Z) : outcome Error (list Z) :=
  match pParameter m with
  | None => Err #CKR_MECHANISM_PARAM_INVALID
  | Some memory =>
      if negb (ulParameterLen m =? n) then Err #CKR_MECHANISM_PARAM_INVALID
      else from_raw_parts (Some (as_bytes memory)) n
  end.

Definition CKG_MGF1_SHA1 : Z := 1.
Definition CKG_MGF1_SHA256 : Z := 2.
Definition CKG_MGF1_SHA384 : Z := 3.
Definition CKG_MGF1_SHA512 : Z := 4.
Definition CKG_MGF1_SHA224 : Z := 5.
Definition CKG_MGF1_SHA3_224 : Z := 6.
Definition CKG_MGF1_SHA3_256 : Z := 7.
Definition CKG_MGF1_SHA3_384 : Z := 8.
Definition CKG_MGF1_SHA3_512 : Z := 9.
Definition CKZ_DATA_SPECIFIED : Z := 1.

Definition parse_mgf (mgf : Z) : outcome Error Z :=
  if mgf =? CKG_MGF1_SHA1 then Ok 32
  else if mgf =? CKG_MGF1_SHA256 then Ok 33
  else if mgf =? CKG_MGF1_SHA384 then Ok 34
  else if mgf =? CKG_MGF1_SHA512 then Ok 35
  else if mgf =? CKG_MGF1_SHA224 then Ok 36
  else if mgf =? CKG_MGF1_SHA3_224 then Ok 37
  else if mgf =? CKG_MGF1_SHA3_256 then Ok 38
  else if mgf =? CKG_MGF1_SHA3_384 then Ok 39
  else if mgf =? CKG_MGF1_SHA3_512 then Ok 40
  else Err #CKR_MECHANISM_PARAM_INVALID.

Definition parse_rsa_oaep_parameters `{HashCore} (m : CK_MECHANISM) : outcome Error (Z * Z * list Z) :=
  match pParameter m with
  | None => Err #CKR_MECHANISM_PARAM_INVALID
  | Some memory =>
      if negb (ulParameterLen m =? SIZE_OF_OAEP_PARAMS) then Err #CKR_MECHANISM_PARAM_INVALID
      else
        let p := as_oaep memory in
        if negb (source p =? CKZ_DATA_SPECIFIED) then Err #CKR_MECHANISM_PARAM_INVALID
        else
          let? digest := map_err (λ _, #CKR_MECHANISM_PARAM_INVALID) (digest_for_hash_mechanism (hashAlg p)) in
          let? mgf := parse_mgf (oaep_mgf p) in
          let? label := map_err (λ _, #CKR_MECHANISM_PARAM_INVALID)
                          (from_raw_parts (pSourceData p) (ulSourceDataLen p)) in
          Ok (mgf, hashAlg p, hash digest label)
  end.

(** ** Software block modes *)

Definition AES_BLOCK_LENGTH : Z := 16.
Definition TDES_BLOCK_LENGTH : Z := 8.
Definition AES_KEY_WRAP_SEMIBLOCK_LENGTH : Z := 8.
Definition YUBIHSM_ECB_CHUNK_LENGTH : Z := 2016.
Definition YUBIHSM_CBC_CHUNK_LENGTH : Z := 2000.
Definition YUBIHSM_CCM_WRAP_OVERHEAD : Z := 1 + 13 + 16.

Definition is_multiple_of (value divisor : Z) : bool := negb (divisor =? 0) && (value mod divisor =? 0).

(** [a.iter().zip(b).map(|(x, y)| x ^ y)] *)
Definition xor_bytes (a b : list Z) : list Z := zip_with Z.lxor a b.

(** An input of the wrong length, by direction. *)
Definition length_error (encrypting : bool) : Error :=
  if encrypting then #CKR_DATA_LEN_RANGE else #CKR_ENCRYPTED_DATA_LEN_RANGE.

(** [output[output.len() - n..]]: panics when the slice is shorter. *)
Definition tail {E} (n : Z) (l : list Z) : outcome E (list Z) :=
  if len l <? n then Panic else Ok (zdrop (len l - n) l).

Section modes.
Context `{SymmetricCore}.

Definition software_crypt_ecb_blocks (key blocks : list Z) (encrypting : bool) : outcome Error (list Z) :=
  map_err (λ e, match e with
                | InvalidKeyLength => #CKR_KEY_SIZE_RANGE
                | InvalidDataLength => #CKR_DATA_LEN_RANGE
                | OtherSymmetricError => #CKR_FUNCTION_FAILED
                end) (aes_ecb encrypting key blocks).

(** The loop of [software_aes_cbc]; [previous.copy_from_slice] panics on a block
    of another length. *)
Fixpoint cbc_blocks (key : list Z) (encrypting : bool) (previous : list Z) (blocks : list (list Z))
    : outcome Error (list Z) :=
  match blocks with
  | [] => Ok []
  | block :: rest =>
      if encrypting then
        let? encrypted := software_crypt_ecb_blocks key (xor_bytes block previous) true in
        if negb (len encrypted =? AES_BLOCK_LENGTH) then Panic
        else
          let? output := cbc_blocks key encrypting encrypted rest in
          Ok (encrypted ++ output)
      else
        let? decrypted := software_crypt_ecb_blocks key block false in
        let? output := cbc_blocks key encrypting block rest in
        Ok (xor_bytes decrypted previous ++ output)
  end.

Definition software_aes_cbc (key iv input : list Z) (encrypting : bool) : outcome Error (list Z) :=
  if negb (is_multiple_of (len input) AES_BLOCK_LENGTH) then Err (length_error encrypting)
  else cbc_blocks key encrypting iv (chunks (Z.to_nat AES_BLOCK_LENGTH) input).

Definition software_tdes_ecb_blocks (key blocks : list Z) (encrypting : bool) : outcome Error (list Z) :=
  map_err (λ e, match e with
                | InvalidKeyLength => #CKR_KEY_SIZE_RANGE
                | InvalidDataLength => #CKR_DATA_LEN_RANGE
                | OtherSymmetricError => #CKR_FUNCTION_FAILED
                end) (tdes_ecb encrypting key blocks).

Definition software_tdes_cbc (key iv input : list Z) (encrypting : bool) : outcome Error (list Z) :=
  map_err (λ e, match e with
                | InvalidKeyLength => #CKR_KEY_SIZE_RANGE
                | InvalidDataLength => length_error encrypting
                | OtherSymmetricError => #CKR_FUNCTION_FAILED
                end) (tdes_cbc encrypting key iv input).

(** A padded mode over an unpadded one: [software_tdes_cbc_pad] and
    [software_aes_cbc_pad] differ in the cipher and the block length. *)
Definition cbc_pad_with (cbc : list Z → bool → outcome Error (list Z)) (block_length : Z)
    (input : list Z) (encrypting : bool) : outcome Error (list Z) :=
  if encrypting then
    let? padded := map_err (λ _, #CKR_DATA_LEN_RANGE) (apply_pkcs7_padding input block_length) in
    cbc padded true
  else
    let? _ := bail (bool_decide (input = []) || negb (is_multiple_of (len input) block_length))
                #CKR_ENCRYPTED_DATA_LEN_RANGE in
    let? padded := cbc input false in
    map_err (λ _, #CKR_ENCRYPTED_DATA_INVALID) (remove_pkcs7_padding padded block_length).

Definition software_tdes_cbc_pad (key iv input : list Z) (encrypting : bool) : outcome Error (list Z) :=
  cbc_pad_with (software_tdes_cbc key iv) TDES_BLOCK_LENGTH input encrypting.
Definition software_aes_cbc_pad (key iv input : list Z) (encrypting : bool) : outcome Error (list Z) :=
  cbc_pad_with (software_aes_cbc key iv) AES_BLOCK_LENGTH input encrypting.

Definition software_cbc_mac (key blocks : list Z) : outcome Error (list Z) :=
  let? _ := bail (bool_decide (blocks = []) || negb (is_multiple_of (len blocks) AES_BLOCK_LENGTH))
              #CKR_DATA_LEN_RANGE in
  let? output := software_aes_cbc key (replicate 16 0) blocks true in
  tail AES_BLOCK_LENGTH output.

(** The modes over a block cipher that the caller supplies. *)
Section callbacks.
Context {S : Type}.

Definition aes_gcm (p : GcmParameters) (input : list Z) (encrypting : bool)
    (encrypt_blocks : list Z → SM S Error (list Z)) : SM S Error (list Z) :=
  sm_map_err (λ e, match e with
                   | GcmInvalidIvLength | GcmInvalidTagLength => #CKR_MECHANISM_PARAM_INVALID
                   | GcmInputTooLong => length_error encrypting
                   | GcmCiphertextTooShort => #CKR_ENCRYPTED_DATA_LEN_RANGE
                   | GcmInvalidBlockOutput => #CKR_DEVICE_ERROR
                   | GcmAuthenticationFailed => #CKR_ENCRYPTED_DATA_INVALID
                   | GcmBlockOperation e => e
                   end)
    (gcm_with S Error (gcm_iv p) (gcm_aad p) (tag_bits p) input encrypting encrypt_blocks).

Definition aes_ctr (p : CtrParameters) (input : list Z)
    (encrypt_blocks : list Z → SM S Error (list Z)) : SM S Error (list Z) :=
  sm_map_err (λ e, match e with
                   | ModeInvalidBlockSize | ModeInvalidCounterBits => #CKR_MECHANISM_PARAM_INVALID
                   | ModeInvalidIvLength | ModeInvalidDataLength => #CKR_MECHANISM_PARAM_INVALID
                   | ModeInputTooLong => #CKR_DATA_LEN_RANGE
                   | ModeInvalidBlockOutput => #CKR_DEVICE_ERROR
                   | ModeBlockOperation e => e
                   end)
    (ctr_with S Error (counter_bits p) (counter_block p) input encrypt_blocks).

Definition aes_ccm (p : CcmParameters) (input : list Z) (encrypting : bool)
    (crypt : CcmOperation → list Z → SM S Error (list Z)) : SM S Error (list Z) :=
  sm_map_err (λ e, match e with
                   | CcmInvalidNonceLength | CcmInvalidTagLength => #CKR_MECHANISM_PARAM_INVALID
                   | CcmInvalidDataLength | CcmInputTooLong => length_error encrypting
                   | CcmInvalidBlockOutput => #CKR_DEVICE_ERROR
                   | CcmAuthenticationFailed => #CKR_ENCRYPTED_DATA_INVALID
                   | CcmBlockOperation e => e
                   end)
    (ccm_with S Error (ccm_data_len p) (ccm_nonce p) (ccm_aad p) (mac_len p) input encrypting crypt).

Definition key_wrap_error (encrypting : bool) (e : KeyWrapError Error) : Error :=
  match e with
  | WrapInvalidInitialValue => #CKR_MECHANISM_PARAM_INVALID
  | WrapInvalidDataLength | WrapInputTooLong => length_error encrypting
  | WrapInvalidBlockOutput => #CKR_DEVICE_ERROR
  | WrapAuthenticationFailed => #CKR_ENCRYPTED_DATA_INVALID
  | WrapBlockOperation e => e
  end.

Definition aes_key_wrap_transform (input : list Z) (encrypting : bool) (initial_value : list Z)
    (crypt_block : list Z → bool → SM S Error (list Z)) : SM S Error (list Z) :=
  sm_map_err (key_wrap_error encrypting) (key_wrap_with S Error input encrypting initial_value crypt_block).

Definition aes_kwp_transform (input : list Z) (encrypting : bool) (alternative_initial_value : list Z)
    (crypt_block : list Z → bool → SM S Error (list Z)) : SM S Error (list Z) :=
  sm_map_err (key_wrap_error encrypting)
    (key_wrap_with_padding_with S Error input encrypting alternative_initial_value crypt_block).
End callbacks.
End modes.

(** ** RSA *)

(** [BigUint::from_bytes_be] *)
Definition from_bytes_be (bytes : list Z) : Z := foldl (λ n b, n * 256 + b) 0 bytes.

(** [BigUint::to_bytes_be]: no leading zero, one zero byte for zero. *)
Fixpoint to_bytes_be_fuel (fuel : nat) (n : Z) (acc : list Z) : list Z :=
  match fuel with
  | O => acc
  | S f => if n =? 0 then acc else to_bytes_be_fuel f (n / 256) (n mod 256 :: acc)
  end.
Definition to_bytes_be (n : Z) : list Z :=
  if n =? 0 then [0] else to_bytes_be_fuel (S (Z.to_nat (Z.log2 n))) n [].

(** [vec![0; size]] with the value copied to its end: panics when the value is
    longer. *)
Definition left_padded (size : Z) (encoded : list Z) : outcome Error (list Z) :=
  if size <? len encoded then Panic else Ok (replicate (Z.to_nat (size - len encoded)) 0 ++ encoded).

Definition rsa_operation (input : list Z) (exponent modulus size : Z) : outcome Error (list Z) :=
  let? _ := bail (size <? len input) #CKR_DATA_LEN_RANGE in
  let value := from_bytes_be input in
  let? _ := bail (modulus <=? value) #CKR_DATA_INVALID in
  left_padded size (to_bytes_be (Zpow_mod value exponent modulus)).

Definition rsa_public_operation (key : RsaPublicKey) (input : list Z) : outcome Error (list Z) :=
  rsa_operation input (rsa_e key) (rsa_n key) (rsa_size key).
Definition rsa_private_operation (key : RsaPrivateKey) (input : list Z) : outcome Error (list Z) :=
  rsa_operation input (rsa_d key) (rsa_private_n key) (rsa_private_size key).

(** A mechanism that names a hash, for the RSA paddings. *)
Definition shared_rsa_hash_algorithm (m : Z) : outcome Error MessageDigest :=
  if one_of [CKM_SHA_1; CKM_SHA1_RSA_PKCS; CKM_SHA1_RSA_PKCS_PSS] m then Ok HashSha1
  else if one_of [CKM_SHA224; CKM_SHA224_RSA_PKCS; CKM_SHA224_RSA_PKCS_PSS] m then Ok HashSha224
  else if one_of [CKM_SHA256; CKM_SHA256_RSA_PKCS; CKM_SHA256_RSA_PKCS_PSS] m then Ok HashSha256
  else if one_of [CKM_SHA384; CKM_SHA384_RSA_PKCS; CKM_SHA384_RSA_PKCS_PSS] m then Ok HashSha384
  else if one_of [CKM_SHA512; CKM_SHA512_RSA_PKCS; CKM_SHA512_RSA_PKCS_PSS] m then Ok HashSha512
  else if one_of [CKM_SHA3_224; CKM_SHA3_224_RSA_PKCS; CKM_SHA3_224_RSA_PKCS_PSS] m then Ok HashSha3_224
  else if one_of [CKM_SHA3_256; CKM_SHA3_256_RSA_PKCS; CKM_SHA3_256_RSA_PKCS_PSS] m then Ok HashSha3_256
  else if one_of [CKM_SHA3_384; CKM_SHA3_384_RSA_PKCS; CKM_SHA3_384_RSA_PKCS_PSS] m then Ok HashSha3_384
  else if one_of [CKM_SHA3_512; CKM_SHA3_512_RSA_PKCS; CKM_SHA3_512_RSA_PKCS_PSS] m then Ok HashSha3_512
  else Err #CKR_MECHANISM_PARAM_INVALID.

(** The message hash, the hash of the mask generation and the salt length. *)
Definition shared_rsa_pss_parameters (mgf salt_length hash_mechanism : Z)
    : outcome Error (MessageDigest * MessageDigest * Z) :=
  let? h := shared_rsa_hash_algorithm hash_mechanism in
  let? mgf_hash :=
    (if mgf =? 0 then Ok h
     else if mgf =? 32 then Ok HashSha1
     else if mgf =? 33 then Ok HashSha256
     else if mgf =? 34 then Ok HashSha384
     else if mgf =? 35 then Ok HashSha512
     else if mgf =? 36 then Ok HashSha224
     else if mgf =? 37 then Ok HashSha3_224
     else if mgf =? 38 then Ok HashSha3_256
     else if mgf =? 39 then Ok HashSha3_384
     else if mgf =? 40 then Ok HashSha3_512
     else Err #CKR_MECHANISM_PARAM_INVALID) in
  Ok (h, mgf_hash, salt_length).

Section rsa.
Context `{HashCore} {B : Type} `{RsaCore B}.

Definition construction_error (e : RsaConstructionError) : Error :=
  match e with
  | RsaRandomnessUnavailable => #CKR_RANDOM_NO_RNG
  | _ => #CKR_DATA_LEN_RANGE
  end.

Definition rsa_pkcs1_encrypt (key : RsaPublicKey) (input : list Z) : SM B Error (list Z) :=
  let! encoded := sm_map_err construction_error (rsa_pkcs1v15_pad input (rsa_size key)) in
  sm_lift (rsa_public_operation key encoded).

Definition rsa_pkcs1_v1_5_unpad (encoded : list Z) : outcome Error (list Z) :=
  map_err (λ _, #CKR_ENCRYPTED_DATA_INVALID) (rsa_pkcs1v15_unpad encoded).

Definition rsa_oaep_unpad (encoded : list Z) (mgf_code hash_mechanism : Z) (label_digest : list Z)
    : outcome Error (list Z) :=
  let? '(h, mgf_hash, _) := shared_rsa_pss_parameters mgf_code 0 hash_mechanism in
  let? _ := bail (negb (len label_digest =? hash_size h)) #CKR_ENCRYPTED_DATA_INVALID in
  map_err (λ _, #CKR_ENCRYPTED_DATA_INVALID) (rsa_oaep_unpad_digest encoded label_digest mgf_hash).

Definition rsa_oaep_pad (input : list Z) (modulus_size mgf_code hash_mechanism : Z)
    (label_digest : list Z) : SM B Error (list Z) :=
  let! '(h, mgf_hash, _) := sm_lift (shared_rsa_pss_parameters mgf_code 0 hash_mechanism) in
  let! _ := guard_err (negb (len label_digest =? hash_size h)) #CKR_DATA_LEN_RANGE in
  sm_map_err construction_error (rsa_oaep_pad_digest input modulus_size label_digest mgf_hash).

Definition rsa_public_encrypt (key : RsaPublicKey) (m : Z) (oaep : option (Z * Z * list Z))
    (input : list Z) : SM B Error (list Z) :=
  if m =? CKM_RSA_PKCS then rsa_pkcs1_encrypt key input
  else if m =? CKM_RSA_X_509 then
    let! _ := guard_err (negb (len input =? rsa_size key)) #CKR_DATA_LEN_RANGE in
    sm_lift (rsa_public_operation key input)
  else if m =? CKM_RSA_PKCS_OAEP then
    let! '(mgf, hash_mechanism, label_digest) := sm_lift (ok_or #CKR_MECHANISM_PARAM_INVALID oaep) in
    let! encoded := rsa_oaep_pad input (rsa_size key) mgf hash_mechanism label_digest in
    sm_lift (rsa_public_operation key encoded)
  else sm_err #CKR_MECHANISM_INVALID.

(** The public RSA key an object can encrypt with. *)
Definition rsa_public_key_material (key : KeyMaterial) : outcome Error (option RsaPublicKey) :=
  match key with
  | Public (RsaPublic key) => Ok (Some key)
  | YubiHsm _ object_type algorithm public_key _ =>
      if (object_type =? YUBIHSM_PUBLIC_KEY) && is_yubihsm_rsa algorithm && bool_decide (public_key ≠ [])
      then
        match rsa_public_new (from_bytes_be public_key) 65537 with
        | Some key => Ok (Some key)
        | None => Err #CKR_DATA_INVALID
        end
      else Ok None
  | _ => Ok None
  end.

(** What remains of a raw RSA decryption once the padding is removed. *)
Definition rsa_unpad (m : Z) (oaep : option (Z * Z * list Z)) (raw : list Z) : outcome Error (list Z) :=
  if m =? CKM_RSA_X_509 then Ok raw
  else if m =? CKM_RSA_PKCS then rsa_pkcs1_v1_5_unpad raw
  else if m =? CKM_RSA_PKCS_OAEP then
    let? '(mgf, hash_mechanism, label_digest) := ok_or #CKR_MECHANISM_PARAM_INVALID oaep in
    rsa_oaep_unpad raw mgf hash_mechanism label_digest
  else Err #CKR_MECHANISM_INVALID.
End rsa.

(** ** Output lengths *)

Definition USIZE_MAX : Z := U64_MAX.
(** [a.checked_add(b)], [a.checked_sub(b)] and [a.checked_mul(b)] on [usize]. *)
Definition checked_add (a b : Z) : option Z := if USIZE_MAX <? a + b then None else Some (a + b).
Definition checked_sub (a b : Z) : option Z := if a <? b then None else Some (a - b).
Definition checked_mul (a b : Z) : option Z := if USIZE_MAX <? a * b then None else Some (a * b).

Definition yubihsm_rsa_length (algorithm : Z) : outcome Error Z :=
  if algorithm =? YUBIHSM_ALGO_RSA_2048 then Ok 256
  else if algorithm =? YUBIHSM_ALGO_RSA_3072 then Ok 384
  else if algorithm =? YUBIHSM_ALGO_RSA_4096 then Ok 512
  else Err #CKR_KEY_TYPE_INCONSISTENT.

Definition ccm_wrap_length (input_len : Z) (encrypting : bool) : outcome Error Z :=
  if encrypting then
    let? _ := bail (input_len =? 0) #CKR_DATA_LEN_RANGE in
    ok_or #CKR_DATA_LEN_RANGE (checked_add input_len YUBIHSM_CCM_WRAP_OVERHEAD)
  else
    let? _ := bail (input_len <=? YUBIHSM_CCM_WRAP_OVERHEAD) #CKR_ENCRYPTED_DATA_LEN_RANGE in
    Ok (input_len - YUBIHSM_CCM_WRAP_OVERHEAD).

Definition ccm_length (op : CryptOperation) (input_len : Z) (encrypting : bool) : outcome Error Z :=
  let? p := ok_or #CKR_MECHANISM_PARAM_INVALID (ccm op) in
  let? expected_input :=
    (if encrypting then Ok (ccm_data_len p)
     else ok_or #CKR_ENCRYPTED_DATA_LEN_RANGE (checked_add (ccm_data_len p) (mac_len p))) in
  let? _ := bail (negb (input_len =? expected_input)) (length_error encrypting) in
  if encrypting then ok_or #CKR_DATA_LEN_RANGE (checked_add expected_input (mac_len p))
  else Ok (ccm_data_len p).

Definition gcm_length (op : CryptOperation) (input_len : Z) (encrypting : bool) : outcome Error Z :=
  let? p := ok_or #CKR_MECHANISM_PARAM_INVALID (gcm op) in
  let tag_length := div_ceil (tag_bits p) 8 in
  ok_or (length_error encrypting)
    (if encrypting then checked_add input_len tag_length else checked_sub input_len tag_length).

Definition cbc_pad_length (m input_len : Z) (encrypting : bool) : outcome Error Z :=
  let block_length := if m =? CKM_DES3_CBC_PAD then TDES_BLOCK_LENGTH else AES_BLOCK_LENGTH in
  if encrypting then
    ok_or #CKR_DATA_LEN_RANGE (checked_add input_len (block_length - input_len mod block_length))
  else
    let? _ := bail ((input_len =? 0) || negb (is_multiple_of input_len block_length))
                #CKR_ENCRYPTED_DATA_LEN_RANGE in
    Ok input_len.

Definition key_wrap_length (input_len : Z) (encrypting : bool) : outcome Error Z :=
  if encrypting then
    let? _ := bail ((input_len <? AES_BLOCK_LENGTH)
                    || negb (is_multiple_of input_len AES_KEY_WRAP_SEMIBLOCK_LENGTH)) #CKR_DATA_LEN_RANGE in
    ok_or #CKR_DATA_LEN_RANGE (checked_add input_len AES_KEY_WRAP_SEMIBLOCK_LENGTH)
  else
    let? _ := bail ((input_len <? AES_BLOCK_LENGTH + AES_KEY_WRAP_SEMIBLOCK_LENGTH)
                    || negb (is_multiple_of input_len AES_KEY_WRAP_SEMIBLOCK_LENGTH))
                #CKR_ENCRYPTED_DATA_LEN_RANGE in
    Ok (input_len - AES_KEY_WRAP_SEMIBLOCK_LENGTH).

Definition kwp_length (input_len : Z) (encrypting : bool) : outcome Error Z :=
  if encrypting then
    let? _ := bail ((input_len =? 0) || (U32_MAX <? input_len)) #CKR_DATA_LEN_RANGE in
    ok_or #CKR_DATA_LEN_RANGE
      (match checked_add (div_ceil input_len 8) 1 with
       | Some semiblocks => checked_mul semiblocks 8
       | None => None
       end)
  else
    let? _ := bail ((input_len <? AES_BLOCK_LENGTH) || negb (is_multiple_of input_len 8))
                #CKR_ENCRYPTED_DATA_LEN_RANGE in
    Ok (input_len - 8).

(** The length by key, for the mechanisms without a length of their own. *)
Definition key_output_length (op : CryptOperation) (input_len : Z) (encrypting : bool) : outcome Error Z :=
  match crypt_key op with
  | Public (RsaPublic key) => Ok (rsa_size key)
  | SoftwarePrivate (SigningRsa key) =>
      if encrypting then Err #CKR_KEY_TYPE_INCONSISTENT else Ok (rsa_private_size key)
  | PivPrivate _ _ _ _ | OpenPgpPrivate _ _ _ _ =>
      if encrypting then Err #CKR_KEY_TYPE_INCONSISTENT
      else match crypt_public_key op with
           | Some (RsaPublic key) => Ok (rsa_size key)
           | _ => Err #CKR_KEY_TYPE_INCONSISTENT
           end
  | YubiHsm _ _ algorithm _ _ =>
      if is_yubihsm_rsa algorithm then yubihsm_rsa_length algorithm else Ok input_len
  | SoftwareSecret _ => Ok input_len
  | _ => Err #CKR_KEY_TYPE_INCONSISTENT
  end.

Definition crypt_output_length (op : CryptOperation) (input_len : Z) (encrypting : bool) : outcome Error Z :=
  let m := crypt_mechanism op in
  if m =? CKM_YUBICO_AES_CCM_WRAP then ccm_wrap_length input_len encrypting
  else if m =? CKM_AES_CCM then ccm_length op input_len encrypting
  else if m =? CKM_AES_GCM then gcm_length op input_len encrypting
  else if (m =? CKM_AES_CBC_PAD) || (m =? CKM_DES3_CBC_PAD) then cbc_pad_length m input_len encrypting
  else if m =? CKM_AES_KEY_WRAP then key_wrap_length input_len encrypting
  else if m =? CKM_AES_KEY_WRAP_KWP then kwp_length input_len encrypting
  else key_output_length op input_len encrypting.

(** ** Commands of a YubiHSM *)

Definition prefixed_u16 (value : Z) (rest : list Z) : list Z := be16 value ++ rest.

Definition ensure_code (code : CommandCode) (allowed : list CommandCode) : outcome Error unit :=
  bail (negb (existsb (λ c, bool_decide (c = code)) allowed)) #CKR_DATA_INVALID.

Definition require_digest_length (digest : list Z) : outcome Error unit :=
  bail (negb (one_of [20; 32; 48; 64] (len digest))) #CKR_DATA_LEN_RANGE.

Definition key_data (code : CommandCode) (key_id : Z) (value : list Z) : outcome Error Command :=
  let? _ := ensure_code code [SignPkcs1; DecryptPkcs1; SignHmac; SignEcdsa; DeriveEcdh; SignEddsa;
                              WrapData; UnwrapData; DecryptEcb; EncryptEcb] in
  let? _ := bail (existsb (λ c, bool_decide (c = code)) [DecryptEcb; EncryptEcb]
                  && negb (is_multiple_of (len value) 16)) #CKR_DATA_LEN_RANGE in
  Command_from_vec code (prefixed_u16 key_id value).

Definition crypt_cbc (code : CommandCode) (key_id : Z) (iv value : list Z) : outcome Error Command :=
  let? _ := ensure_code code [DecryptCbc; EncryptCbc] in
  let? _ := bail (negb (is_multiple_of (len value) 16)) #CKR_DATA_LEN_RANGE in
  Command_from_vec code (prefixed_u16 key_id iv ++ value).

Definition decrypt_oaep (key_id mgf1_algorithm : Z) (ciphertext label_digest : list Z)
    : outcome Error Command :=
  let? _ := bail (negb (one_of [256; 384; 512] (len ciphertext))) #CKR_DATA_LEN_RANGE in
  let? _ := require_digest_length label_digest in
  Command_from_vec DecryptOaep (prefixed_u16 key_id [mgf1_algorithm] ++ ciphertext ++ label_digest).

(** ** Splitting an input at a block boundary *)

(** What the library documents about its ciphers: ECB works on each block alone
    and keeps the length, padding fills up the last block. *)
Class SymmetricCoreLaws `{SymmetricCore} : Prop := {
  aes_ecb_length e key b o : aes_ecb e key b = Ok o → len o = len b;
  aes_ecb_app e key a b :
    a ≠ [] → b ≠ [] → len a mod 16 = 0 → len b mod 16 = 0 →
    aes_ecb e key (a ++ b) = (let? x := aes_ecb e key a in let? y := aes_ecb e key b in Ok (x ++ y));
  apply_pkcs7_spec d n : 0 < n < 256 →
    apply_pkcs7_padding d n = Ok (d ++ replicate (Z.to_nat (n - len d mod n)) (n - len d mod n));
  remove_pkcs7_spec b n d : 0 < n < 256 → b ≠ [] → len b mod n = 0 →
    (remove_pkcs7_padding b n = Ok d ↔ ∃ c, 1 ≤ c ≤ n ∧ b = d ++ replicate (Z.to_nat c) c);
}.

(** The chaining value after blocks [l], starting from [previous]. *)
Definition chain_of (previous l : list Z) : list Z :=
  match l with [] => previous | _ => zdrop (len l - 16) l end.

Lemma chunks_app_nat {A} (n : nat) (a b : list A) q :
  (0 < n)%nat → length a = (q * n)%nat → chunks n (a ++ b) = chunks n a ++ chunks n b.
Proof.
  intros Hn. revert a. induction q as [|q IH]; intros a Ha.
  { destruct a; [done|simpl in Ha; lia]. }
  destruct (decide (a = [])) as [->|Hne]; [done|].
  rewrite (chunks_cons n (a ++ b)) by (try done; by destruct a).
  rewrite (chunks_cons n a) by done.
  rewrite take_app_le, drop_app_le by lia. cbn [app]. f_equal. apply IH. rewrite length_drop. lia.
Qed.

Lemma chunks_app {A} (n : Z) (a b : list A) :
  0 < n → len a mod n = 0 → chunks (Z.to_nat n) (a ++ b) = chunks (Z.to_nat n) a ++ chunks (Z.to_nat n) b.
Proof.
  intros Hn Ha. apply (chunks_app_nat _ _ _ (Z.to_nat (len a / n))); [lia|].
  pose proof (Z.div_mod (len a) n). pose proof (Z.div_pos (len a) n). pose proof (len_nonneg a).
  unfold len in *. nia.
Qed.

Lemma chain_of_cons previous e l :
  len e = 16 → (l = [] ∨ 16 ≤ len l) → chain_of previous (e ++ l) = chain_of e l.
Proof.
  intros He Hl. destruct e as [|x e]; [done|]. unfold chain_of at 1. cbn [app].
  change (x :: e ++ l) with ((x :: e) ++ l). rewrite len_app.
  destruct l as [|y l].
  { rewrite app_nil_r, len_nil, He. done. }
  destruct Hl as [?|Hl]; [done|]. cbn [chain_of].
  replace (len (x :: e) + len (y :: l) - 16) with (len (x :: e) + (len (y :: l) - 16)) by lia.
  unfold zdrop. rewrite Z2Nat.inj_add by (try apply len_nonneg; lia).
  replace (Z.to_nat (len (x :: e))) with (length (x :: e)) by (unfold len; lia).
  apply drop_app_add.
Qed.

Section splitting.
Context `{SymmetricCoreLaws}.

Lemma ecb_blocks_length key b e o : software_crypt_ecb_blocks key b e = Ok o → len o = len b.
Proof.
  unfold software_crypt_ecb_blocks. destruct (aes_ecb e key b) eqn:E; [|by destruct e0|done].
  intros [= <-]. by eapply aes_ecb_length.
Qed.

Definition whole_blocks (blocks : list (list Z)) : Prop := Forall (λ b, len b = 16) blocks.

Lemma xor_bytes_length a b : len (xor_bytes a b) = Z.min (len a) (len b).
Proof. unfold xor_bytes, len. rewrite length_zip_with. lia. Qed.

Lemma cbc_blocks_length key e previous blocks o :
  len previous = 16 → whole_blocks blocks → cbc_blocks key e previous blocks = Ok o →
  len o = 16 * Z.of_nat (length blocks).
Proof.
  intros Hp Hb. revert previous o Hp. induction Hb as [|b bs Hb Hbs IH]; intros previous o Hp; cbn.
  { by intros [= <-]. }
  destruct e.
  - intros (c & Hc & Ho)%bind_Ok. apply ecb_blocks_length in Hc.
    rewrite xor_bytes_length in Hc. unfold AES_BLOCK_LENGTH in Ho.
    destruct (Z.eqb_spec (len c) 16); [|done]. cbn in Ho.
    apply bind_Ok in Ho as (o' & Ho' & [= <-]). rewrite len_app. apply IH in Ho'; [lia|done].
  - intros (c & Hc & Ho)%bind_Ok. apply ecb_blocks_length in Hc.
    apply bind_Ok in Ho as (o' & Ho' & [= <-]). rewrite len_app, xor_bytes_length. apply IH in Ho'; lia.
Qed.

Lemma concat_whole blocks : whole_blocks blocks → len (concat blocks) = 16 * Z.of_nat (length blocks).
Proof. induction 1 as [|b bs Hb Hbs IH]; cbn [concat length]; rewrite ?len_app; [done|lia]. Qed.

Lemma whole_nil_or_block (l : list Z) n : len l = 16 * Z.of_nat n → l = [] ∨ 16 ≤ len l.
Proof. destruct n; [left; apply len_zero_iff; lia|right; lia]. Qed.

(** Encrypting more blocks continues from the last chaining value. *)
Lemma cbc_blocks_app key e previous blocks rest :
  len previous = 16 → whole_blocks blocks →
  cbc_blocks key e previous (blocks ++ rest) =
    (let? o := cbc_blocks key e previous blocks in
     let? o' := cbc_blocks key e (chain_of previous (if e then o else concat blocks)) rest in
     Ok (o ++ o')).
Proof.
  intros Hp Hb. revert previous Hp. induction Hb as [|b bs Hb Hbs IH]; intros previous Hp.
  { cbn. destruct e; cbn; by destruct (cbc_blocks _ _ previous rest). }
  cbn [app cbc_blocks concat]. destruct e.
  - destruct (software_crypt_ecb_blocks key (xor_bytes b previous) true) as [c| |] eqn:Ec; [|done|done].
    cbn [obind]. unfold AES_BLOCK_LENGTH. destruct (Z.eqb_spec (len c) 16) as [Hc|Hc]; [|done]. cbn [negb].
    rewrite IH by done. destruct (cbc_blocks key true c bs) as [o| |] eqn:Eo; [|done|done]. cbn [obind].
    rewrite chain_of_cons; [|done|].
    + destruct (cbc_blocks key true (chain_of c o) rest); [|done|done]. cbn. by rewrite app_assoc.
    + eapply whole_nil_or_block, cbc_blocks_length; done.
  - destruct (software_crypt_ecb_blocks key b false) as [c| |]; [|done|done]. cbn [obind].
    rewrite IH by done. destruct (cbc_blocks key false b bs) as [o| |]; [|done|done]. cbn [obind].
    rewrite chain_of_cons; [|done|].
    + destruct (cbc_blocks key false _ rest); [|done|done]. cbn. by rewrite app_assoc.
    + eapply whole_nil_or_block, concat_whole; done.
Qed.

Lemma is_multiple_of_spec a n : 0 < n → is_multiple_of a n = true ↔ a mod n = 0.
Proof.
  intros Hn. unfold is_multiple_of. destruct (Z.eqb_spec n 0); [lia|]. cbn. apply Z.eqb_eq.
Qed.

Lemma mod_add_multiple a b n : 0 < n → a mod n = 0 → (a + b) mod n = b mod n.
Proof. intros Hn Ha. rewrite Zplus_mod, Ha, Z.add_0_l. apply Z.mod_mod. lia. Qed.

Lemma chunks_whole (a : list Z) : len a mod 16 = 0 → whole_blocks (chunks 16 a).
Proof.
  remember (length a) as n eqn:Hn. revert a Hn. induction n as [n IH] using lt_wf_ind. intros a -> Ha.
  destruct (decide (a = [])) as [->|Hne]; [constructor|].
  assert (16 ≤ len a).
  { pose proof (len_nonneg a). assert (len a ≠ 0) by by rewrite len_zero_iff.
    pose proof (Z.div_mod (len a) 16). lia. }
  rewrite chunks_cons by (try done; lia). constructor.
  - unfold len in *. rewrite length_take. lia.
  - eapply IH; [|done|]; [rewrite length_drop; unfold len in *; lia|].
    replace (len (drop 16 a)) with (len a + (-1) * 16) by (unfold len in *; rewrite length_drop; lia).
    by rewrite Z.mod_add by lia.
Qed.

Lemma software_aes_cbc_length key v b e o :
  len v = 16 → software_aes_cbc key v b e = Ok o → len o = len b.
Proof.
  intros Hv. unfold software_aes_cbc. destruct (is_multiple_of _ _) eqn:Em; [|done]. cbn [negb].
  apply is_multiple_of_spec in Em; [|done]. intros Ho. change (Z.to_nat AES_BLOCK_LENGTH) with 16%nat in Ho.
  pose proof (chunks_whole b Em) as Hw. rewrite (cbc_blocks_length _ _ _ _ _ Hv Hw Ho).
  rewrite <- concat_whole by done. by rewrite chunks_concat by lia.
Qed.

Lemma software_aes_cbc_app key v a b e :
  len v = 16 → len a mod 16 = 0 → len b mod 16 = 0 →
  software_aes_cbc key v (a ++ b) e =
    (let? o := software_aes_cbc key v a e in
     let? o' := software_aes_cbc key (chain_of v (if e then o else a)) b e in
     Ok (o ++ o')).
Proof.
  intros Hv Ha Hb. unfold software_aes_cbc. change AES_BLOCK_LENGTH with 16.
  assert (∀ l : list Z, len l mod 16 = 0 → is_multiple_of (len l) 16 = true) as Hm
    by (intros l Hl; by apply is_multiple_of_spec).
  assert (len (a ++ b) mod 16 = 0) as Hab by (rewrite len_app, mod_add_multiple by (done || lia); done).
  rewrite !Hm by done. cbn [negb].
  rewrite (chunks_app 16 a b) by (done || lia). change (Z.to_nat 16) with 16%nat.
  rewrite cbc_blocks_app by (try apply chunks_whole; done). by rewrite chunks_concat by lia.
Qed.

(** Misaligned data fails whatever was split off in front of it. *)
Lemma software_aes_cbc_misaligned key v b e :
  len b mod 16 ≠ 0 → software_aes_cbc key v b e = Err (length_error e).
Proof.
  intros Hb. unfold software_aes_cbc. destruct (is_multiple_of _ _) eqn:Em; [|done].
  apply is_multiple_of_spec in Em; [|done]. done.
Qed.

(** *** The padded mode *)

Lemma cbc_pad_encrypt_split key v a b :
  len v = 16 → len a mod 16 = 0 →
  software_aes_cbc_pad key v (a ++ b) true =
    (let? o := software_aes_cbc key v a true in
     let? o' := software_aes_cbc_pad key (chain_of v o) b true in
     Ok (o ++ o')).
Proof.
  intros Hv Ha. unfold software_aes_cbc_pad, cbc_pad_with, AES_BLOCK_LENGTH.
  rewrite !apply_pkcs7_spec by lia. cbn [map_err obind].
  rewrite len_app, mod_add_multiple by (done || lia). set (c := 16 - len b mod 16).
  pose proof (Z.mod_pos_bound (len b) 16).
  rewrite <- app_assoc, software_aes_cbc_app; [done|done|done|].
  rewrite len_app, len_replicate. rewrite Z2Nat.id by lia. subst c.
  replace (len b + (16 - len b mod 16)) with ((1 + len b / 16) * 16).
  - apply Z.mod_mul. lia.
  - pose proof (Z.div_mod (len b) 16). lia.
Qed.

Lemma remove_pkcs7_app o o' d :
  o' ≠ [] → len o mod 16 = 0 → len o' mod 16 = 0 →
  remove_pkcs7_padding (o ++ o') 16 = Ok d ↔ ∃ d', remove_pkcs7_padding o' 16 = Ok d' ∧ d = o ++ d'.
Proof.
  intros Hne Ho Ho'.
  assert (len (o ++ o') mod 16 = 0) as Hoo by (rewrite len_app, mod_add_multiple by (done || lia); done).
  assert (o ++ o' ≠ []) as Hn by (intros E; by apply app_eq_nil in E as [_ ?]).
  rewrite remove_pkcs7_spec by (done || lia). setoid_rewrite remove_pkcs7_spec; [|lia|done|done].
  assert (16 ≤ len o').
  { pose proof (len_nonneg o'). assert (len o' ≠ 0) by by rewrite len_zero_iff.
    pose proof (Z.div_mod (len o') 16). lia. }
  split.
  - intros (c & Hc & E). exists (ztake (len d - len o) o').
    assert (len o + len o' = len d + c) as El.
    { apply (f_equal len) in E. rewrite !len_app, len_replicate in E. lia. }
    assert (d = o ++ ztake (len d - len o) o') as Hd.
    { apply (f_equal (take (length d))) in E. rewrite take_app_length in E.
      transitivity (take (length d) (o ++ o')); [done|]. rewrite take_app.
      rewrite take_ge by (unfold len in *; lia). f_equal. unfold ztake, len in *. f_equal. lia. }
    split; [|done]. exists c. split; [done|].
    rewrite Hd, <- app_assoc in E. by apply app_inv_head in E.
  - intros (d' & (c & Hc & ->) & ->). exists c. split; [done|]. by rewrite app_assoc.
Qed.

Lemma cbc_pad_decrypt_split key v a b d :
  len v = 16 → a ≠ [] → len a mod 16 = 0 → b ≠ [] →
  software_aes_cbc_pad key v (a ++ b) false = Ok d ↔
  ∃ o d', software_aes_cbc key v a false = Ok o ∧
    software_aes_cbc_pad key (chain_of v a) b false = Ok d' ∧ d = o ++ d'.
Proof.
  intros Hv Hane Ha Hb. unfold software_aes_cbc_pad, cbc_pad_with, AES_BLOCK_LENGTH.
  rewrite len_app. rewrite !bool_decide_eq_false_2 by (try done; intros E; by apply app_eq_nil in E as [_ ?]).
  cbn [orb]. assert (is_multiple_of (len a + len b) 16 = is_multiple_of (len b) 16) as ->.
  { unfold is_multiple_of. by rewrite mod_add_multiple by (done || lia). }
  destruct (is_multiple_of (len b) 16) eqn:Em; cbn [negb bail obind]; [|naive_solver].
  apply is_multiple_of_spec in Em; [|done]. rewrite software_aes_cbc_app by done. cbn [obind].
  destruct (software_aes_cbc key v a false) as [o| |] eqn:Eo; cbn [obind]; [|naive_solver..].
  destruct (software_aes_cbc key (chain_of v a) b false) as [o'| |] eqn:Eo'; cbn [obind]; [|naive_solver..].
  assert (len o = len a) as Hlo by (by eapply software_aes_cbc_length).
  assert (16 ≤ len a) as Hla.
  { pose proof (len_nonneg a). assert (len a ≠ 0) by by rewrite len_zero_iff.
    pose proof (Z.div_mod (len a) 16). lia. }
  assert (len o' = len b) as Hlo'.
  { eapply software_aes_cbc_length; [|done]. unfold chain_of. destruct a; [done|].
    rewrite len_zdrop by lia. lia. }
  assert (o' ≠ []) by (rewrite <- len_zero_iff, Hlo', len_zero_iff; done).
  assert (∀ l d, map_err (λ _ : unit, #CKR_ENCRYPTED_DATA_INVALID) (remove_pkcs7_padding l 16) = Ok d ↔
                 remove_pkcs7_padding l 16 = Ok d) as Hmap.
  { intros l d0. destruct (remove_pkcs7_padding l 16); cbn; naive_solver. }
  rewrite Hmap, remove_pkcs7_app by (done || congruence). setoid_rewrite Hmap. naive_solver.
Qed.

(** *** The three AES modes that publish blocks *)

Definition aes_block_mode (m : Z) : Prop := m = CKM_AES_ECB ∨ m = CKM_AES_CBC ∨ m = CKM_AES_CBC_PAD.

(** A run of complete blocks, a whole message, and the rest of a message: an
    empty rest of an unpadded mode needs no cipher. *)
Definition block_cipher (m : Z) (key v blocks : list Z) (e : bool) : outcome Error (list Z) :=
  if m =? CKM_AES_ECB then software_crypt_ecb_blocks key blocks e else software_aes_cbc key v blocks e.
Definition whole_cipher (m : Z) (key v data : list Z) (e : bool) : outcome Error (list Z) :=
  if m =? CKM_AES_ECB then
    if negb (is_multiple_of (len data) 16) then Err (length_error e)
    else software_crypt_ecb_blocks key data e
  else if m =? CKM_AES_CBC then software_aes_cbc key v data e
  else software_aes_cbc_pad key v data e.
Definition rest_cipher (m : Z) (key v data : list Z) (e : bool) : outcome Error (list Z) :=
  if bool_decide (data = []) && one_of [CKM_AES_ECB; CKM_AES_CBC] m then Ok []
  else whole_cipher m key v data e.
Definition next_chaining (m : Z) (v blocks o : list Z) (e : bool) : list Z :=
  if m =? CKM_AES_ECB then v else chain_of v (if e then o else blocks).

Lemma multiple_app (a b : list Z) :
  len a mod 16 = 0 → is_multiple_of (len (a ++ b)) 16 = is_multiple_of (len b) 16.
Proof. intros Ha. unfold is_multiple_of. by rewrite len_app, mod_add_multiple by (done || lia). Qed.

Lemma ecb_blocks_app key a b e :
  a ≠ [] → b ≠ [] → len a mod 16 = 0 → len b mod 16 = 0 →
  software_crypt_ecb_blocks key (a ++ b) e =
    (let? o := software_crypt_ecb_blocks key a e in
     let? o' := software_crypt_ecb_blocks key b e in Ok (o ++ o')).
Proof.
  intros. unfold software_crypt_ecb_blocks. rewrite aes_ecb_app by done.
  destruct (aes_ecb e key a); [|done|done]. cbn. by destruct (aes_ecb e key b).
Qed.

Lemma whole_ecb_split key v a b e d :
  a ≠ [] → b ≠ [] → len a mod 16 = 0 →
  whole_cipher CKM_AES_ECB key v (a ++ b) e = Ok d ↔
  ∃ o d', software_crypt_ecb_blocks key a e = Ok o ∧ whole_cipher CKM_AES_ECB key v b e = Ok d' ∧ d = o ++ d'.
Proof.
  intros Ha Hb Hm. unfold whole_cipher. rewrite Z.eqb_refl, multiple_app by done.
  destruct (is_multiple_of (len b) 16) eqn:Em; cbn [negb]; [|naive_solver].
  apply is_multiple_of_spec in Em; [|done]. rewrite ecb_blocks_app, bind_Ok by done.
  setoid_rewrite bind_Ok. naive_solver.
Qed.

Lemma whole_cbc_split key v a b e d :
  len v = 16 → len a mod 16 = 0 →
  software_aes_cbc key v (a ++ b) e = Ok d ↔
  ∃ o d', software_aes_cbc key v a e = Ok o ∧
    software_aes_cbc key (chain_of v (if e then o else a)) b e = Ok d' ∧ d = o ++ d'.
Proof.
  intros Hv Hm. destruct (decide (len b mod 16 = 0)) as [Hb|Hb].
  - rewrite software_aes_cbc_app, bind_Ok by done. setoid_rewrite bind_Ok. naive_solver.
  - rewrite (software_aes_cbc_misaligned key v (a ++ b)) by (by rewrite len_app, mod_add_multiple by (done || lia)).
    split; [done|]. intros (o & d' & _ & E & _). by rewrite software_aes_cbc_misaligned in E.
Qed.

(** Publishing the blocks [a] first and finishing with [b] is one cipher call on
    both, provided padded decryption keeps some ciphertext back. *)
Lemma rest_cipher_split m key v a b e d :
  aes_block_mode m → len v = 16 → a ≠ [] → len a mod 16 = 0 →
  (e = false → m = CKM_AES_CBC_PAD → b ≠ []) →
  rest_cipher m key v (a ++ b) e = Ok d ↔
  ∃ o d', block_cipher m key v a e = Ok o ∧
    rest_cipher m key (next_chaining m v a o e) b e = Ok d' ∧ d = o ++ d'.
Proof.
  intros Hmode Hv Ha Hm Hkeep. unfold rest_cipher.
  assert (a ++ b ≠ []) as Hab by (intros E; by apply app_eq_nil in E as [? _]).
  rewrite (bool_decide_eq_false_2 (a ++ b = [])) by done. cbn [andb].
  destruct Hmode as [Em | [Em | Em]]; subst m; unfold block_cipher, next_chaining.
  - change (one_of _ CKM_AES_ECB) with true. rewrite andb_true_r, Z.eqb_refl.
    destruct (decide (b = [])) as [->|Hb].
    + rewrite bool_decide_eq_true_2, app_nil_r by done. unfold whole_cipher. rewrite Z.eqb_refl.
      apply is_multiple_of_spec in Hm; [|done]. rewrite Hm. cbn [negb]. split.
      * intros E. exists d, []. by rewrite app_nil_r.
      * intros (o & d' & E & [= <-] & ->). by rewrite app_nil_r.
    + rewrite bool_decide_eq_false_2 by done. by apply whole_ecb_split.
  - change (one_of _ CKM_AES_CBC) with true. rewrite andb_true_r.
    change (CKM_AES_CBC =? CKM_AES_ECB) with false. cbn [negb].
    destruct (decide (b = [])) as [->|Hb].
    + rewrite bool_decide_eq_true_2, app_nil_r by done. split.
      * intros E. exists d, []. by rewrite app_nil_r.
      * intros (o & d' & E & [= <-] & ->). by rewrite app_nil_r.
    + rewrite bool_decide_eq_false_2 by done. by apply whole_cbc_split.
  - change (one_of _ CKM_AES_CBC_PAD) with false. rewrite andb_false_r. unfold whole_cipher.
    change (CKM_AES_CBC_PAD =? CKM_AES_ECB) with false. change (CKM_AES_CBC_PAD =? CKM_AES_CBC) with false.
    destruct e.
    + rewrite cbc_pad_encrypt_split by done. split.
      * intros (o & Eo & Er)%bind_Ok. apply bind_Ok in Er as (d' & Ed & [= <-]). by exists o, d'.
      * intros (o & d' & Eo & Ed & ->). rewrite Eo. cbn [obind]. by rewrite Ed.
    + apply cbc_pad_decrypt_split; auto.
Qed.

Lemma whole_cipher_length m key v data e o :
  aes_block_mode m → len v = 16 → whole_cipher m key v data e = Ok o → len o ≤ len data + 16.
Proof.
  intros Hmode Hv. destruct Hmode as [Em | [Em | Em]]; subst m; unfold whole_cipher; cbn.
  - destruct (len data mod 16 =? 0); [|done]. cbn. intros E%ecb_blocks_length. lia.
  - intros E%software_aes_cbc_length; [lia|done].
  - unfold software_aes_cbc_pad, cbc_pad_with, AES_BLOCK_LENGTH. pose proof (Z.mod_pos_bound (len data) 16).
    destruct e.
    + rewrite apply_pkcs7_spec by lia. cbn. intros E%software_aes_cbc_length; [|done].
      rewrite len_app, len_replicate in E. lia.
    + destruct (bool_decide _ || negb _) eqn:Eb; [done|]. cbn [bail obind]. apply orb_false_iff in Eb as [Eb Em].
      apply bool_decide_eq_false in Eb. apply negb_false_iff, is_multiple_of_spec in Em; [|done].
      intros (p & Ep & Er)%bind_Ok. apply software_aes_cbc_length in Ep; [|done].
      assert (remove_pkcs7_padding p 16 = Ok o) as Eo.
      { destruct (remove_pkcs7_padding p 16); [|done|done]. by injection Er as ->. }
      apply remove_pkcs7_spec in Eo as (c & Hc & ->); [|lia| |congruence].
      * rewrite len_app, len_replicate in Ep. lia.
      * rewrite <- len_zero_iff, Ep, len_zero_iff. done.
Qed.

Lemma rest_cipher_length m key v data e o :
  aes_block_mode m → len v = 16 → rest_cipher m key v data e = Ok o → len o ≤ len data + 16.
Proof.
  intros Hmode Hv. unfold rest_cipher. destruct (_ && _); [|by apply whole_cipher_length].
  intros [= <-]. pose proof (len_nonneg data). rewrite len_nil. lia.
Qed.

Lemma block_cipher_length m key v a e o :
  aes_block_mode m → len v = 16 → block_cipher m key v a e = Ok o → len o = len a.
Proof.
  intros Hmode Hv. unfold block_cipher. destruct (m =? CKM_AES_ECB); [apply ecb_blocks_length|].
  by apply software_aes_cbc_length.
Qed.

Lemma chain_of_length previous l : len previous = 16 → (l = [] ∨ 16 ≤ len l) → len (chain_of previous l) = 16.
Proof.
  intros Hp [->|Hl]; [done|]. destruct l as [|y l]; [done|]. cbn [chain_of]. rewrite len_zdrop by lia. lia.
Qed.

Lemma tail_chain_of {E} previous l : 16 ≤ len l → tail 16 l = Ok (chain_of previous l) :> outcome E (list Z).
Proof.
  intros Hl. unfold tail. destruct (Z.ltb_spec (len l) 16); [lia|]. by destruct l.
Qed.
End splitting.

(** ** RSA round trip *)

Lemma from_bytes_be_app a b : from_bytes_be (a ++ b) = from_bytes_be a * 256 ^ len b + from_bytes_be b.
Proof.
  induction b as [|x b IH] using rev_ind.
  { rewrite app_nil_r. change (from_bytes_be []) with 0. change (len []) with 0. lia. }
  unfold from_bytes_be in *. rewrite app_assoc, (foldl_snoc _ _ (a ++ b)), (foldl_snoc _ _ b), IH, len_app.
  change (len [x]) with 1. rewrite Z.pow_add_r by (try apply len_nonneg; lia). lia.
Qed.

Lemma be_bytes_value w n : 0 ≤ n < 256 ^ Z.of_nat w → from_bytes_be (be_bytes w n) = n ∧ bytes_ok (be_bytes w n) = true.
Proof.
  revert n. induction w as [|w IH]; intros n Hn; cbn [be_bytes].
  { change (256 ^ Z.of_nat 0) with 1 in Hn. split; [|done]. cbn. lia. }
  rewrite Nat2Z.inj_succ, Z.pow_succ_r in Hn by lia.
  destruct (IH (n / 256)) as [E Hb]; [split; [apply Z.div_pos; lia|apply Z.div_lt_upper_bound; lia]|].
  rewrite from_bytes_be_app. change (len [n mod 256]) with 1. change (from_bytes_be [n mod 256]) with (n mod 256).
  rewrite E, Z.pow_1_r. split; [pose proof (Z.div_mod n 256); lia|].
  unfold bytes_ok in *. rewrite forallb_app, Hb. cbn. unfold is_byte. pose proof (Z.mod_pos_bound n 256). lia.
Qed.

Lemma from_bytes_be_bound l : bytes_ok l = true → 0 ≤ from_bytes_be l < 256 ^ len l.
Proof.
  induction l as [|x l IH] using rev_ind; [done|]. unfold bytes_ok. rewrite forallb_app. intros [Hl Hx]%andb_true_iff.
  specialize (IH Hl). rewrite from_bytes_be_app, len_app. change (len [x]) with 1.
  rewrite Z.pow_add_r by (try apply len_nonneg; lia). change (from_bytes_be [x]) with x.
  cbn in Hx. unfold is_byte in Hx. rewrite Z.pow_1_r. lia.
Qed.

Lemma from_bytes_be_inj a b :
  bytes_ok a = true → bytes_ok b = true → len a = len b → from_bytes_be a = from_bytes_be b → a = b.
Proof.
  revert b. induction a as [|x a IH] using rev_ind; intros b Ha Hb Hl E.
  { symmetry in Hl. by apply len_zero_iff in Hl. }
  destruct b as [|y b _] using rev_ind; [rewrite len_app, len_cons, len_nil in Hl; pose proof (len_nonneg a); unfold len in *; simpl in Hl; lia|].
  unfold bytes_ok in *. rewrite forallb_app in Ha, Hb. apply andb_true_iff in Ha as [Ha Hx], Hb as [Hb Hy].
  rewrite !len_app in Hl. change (len [x]) with 1 in Hl. change (len [y]) with 1 in Hl.
  rewrite !from_bytes_be_app in E. change (len [x]) with 1 in E. change (len [y]) with 1 in E.
  change (from_bytes_be [x]) with x in E. change (from_bytes_be [y]) with y in E. rewrite Z.pow_1_r in E.
  cbn in Hx, Hy. unfold is_byte in Hx, Hy. assert (x = y) as -> by lia. f_equal. apply IH; [done|done|lia|lia].
Qed.

Lemma to_bytes_be_fuel_spec fuel n acc :
  0 ≤ n < 2 ^ Z.of_nat fuel → bytes_ok acc = true →
  from_bytes_be (to_bytes_be_fuel fuel n acc) = n * 256 ^ len acc + from_bytes_be acc ∧
  bytes_ok (to_bytes_be_fuel fuel n acc) = true.
Proof.
  revert n acc. induction fuel as [|fuel IH]; intros n acc Hn Ha; cbn [to_bytes_be_fuel].
  { assert (n = 0) as -> by (cbn in Hn; lia). split; [lia|done]. }
  destruct (Z.eqb_spec n 0) as [->|Hne]; [split; [lia|done]|].
  pose proof (Z.mod_pos_bound n 256). pose proof (Z.div_mod n 256).
  destruct (IH (n / 256) (n mod 256 :: acc)) as [E Eb].
  - split; [apply Z.div_pos; lia|]. rewrite Nat2Z.inj_succ, Z.pow_succ_r in Hn by lia.
    apply Z.div_lt_upper_bound; lia.
  - change (is_byte (n mod 256) && bytes_ok acc = true). rewrite Ha, andb_true_r. unfold is_byte. lia.
  - split; [|done]. rewrite E. change (n mod 256 :: acc) with ([n mod 256] ++ acc).
    rewrite from_bytes_be_app, len_app. change (len [n mod 256]) with 1.
    change (from_bytes_be [n mod 256]) with (n mod 256).
    rewrite Z.pow_add_r by (try apply len_nonneg; lia). rewrite Z.pow_1_r. nia.
Qed.

Lemma to_bytes_be_spec n : 0 ≤ n → from_bytes_be (to_bytes_be n) = n ∧ bytes_ok (to_bytes_be n) = true.
Proof.
  intros Hn. unfold to_bytes_be. destruct (Z.eqb_spec n 0) as [->|Hne]; [done|].
  destruct (to_bytes_be_fuel_spec (S (Z.to_nat (Z.log2 n))) n []) as [E Eb]; [|done|].
  - split; [done|]. rewrite Nat2Z.inj_succ, Z2Nat.id by apply Z.log2_nonneg. apply Z.log2_spec. lia.
  - split; [|done]. rewrite E. change (len []) with 0. change (from_bytes_be []) with 0. lia.
Qed.

Lemma to_bytes_be_fuel_length fuel n acc size :
  0 ≤ n < 256 ^ Z.of_nat size → len (to_bytes_be_fuel fuel n acc) ≤ Z.of_nat size + len acc.
Proof.
  revert n acc size. induction fuel as [|fuel IH]; intros n acc size Hn; cbn [to_bytes_be_fuel]; [lia|].
  destruct (Z.eqb_spec n 0) as [->|Hne]; [lia|].
  destruct size as [|size]; [cbn in Hn; lia|]. rewrite Nat2Z.inj_succ, Z.pow_succ_r in Hn by lia.
  specialize (IH (n / 256) (n mod 256 :: acc) size). rewrite len_cons in IH.
  assert (0 ≤ n / 256 < 256 ^ Z.of_nat size) as Hd.
  { split; [apply Z.div_pos; lia|]. apply Z.div_lt_upper_bound; lia. }
  specialize (IH Hd). lia.
Qed.

Lemma to_bytes_be_length n size : 1 ≤ size → 0 ≤ n < 256 ^ size → len (to_bytes_be n) ≤ size.
Proof.
  intros Hs Hn. unfold to_bytes_be. destruct (Z.eqb_spec n 0); [change (len [0]) with 1; lia|].
  etrans; [apply (to_bytes_be_fuel_length _ _ _ (Z.to_nat size))|]; rewrite Z2Nat.id by lia; [done|]. change (len []) with 0. lia.
Qed.

Lemma left_padded_spec size n :
  1 ≤ size → 0 ≤ n < 256 ^ size →
  ∃ out, left_padded size (to_bytes_be n) = Ok out ∧ len out = size ∧ bytes_ok out = true ∧ from_bytes_be out = n.
Proof.
  intros Hs Hn. pose proof (to_bytes_be_length n size Hs Hn) as Hl. unfold left_padded.
  destruct (Z.ltb_spec size (len (to_bytes_be n))); [lia|]. eexists. split; [done|].
  destruct (to_bytes_be_spec n ltac:(lia)) as [E Eb]. set (z := Z.to_nat _).
  assert (from_bytes_be (replicate z 0) = 0 ∧ bytes_ok (replicate z 0) = true) as [Ez Eo].
  { clear. induction z as [|z [IH1 IH2]]; [done|]. cbn [replicate]. split; [|done].
    change (0 :: replicate z 0) with ([0] ++ replicate z 0). rewrite from_bytes_be_app, IH1.
    change (from_bytes_be [0]) with 0. lia. }
  split_and!.
  - rewrite len_app, len_replicate. lia.
  - unfold bytes_ok. rewrite forallb_app. apply andb_true_iff. by split.
  - rewrite from_bytes_be_app, Ez, E. lia.
Qed.

Lemma rsa_operation_spec input exponent modulus size :
  1 ≤ size → 1 < modulus ≤ 256 ^ size → 0 ≤ exponent → len input ≤ size → from_bytes_be input < modulus →
  ∃ out, rsa_operation input exponent modulus size = Ok out ∧ len out = size ∧ bytes_ok out = true ∧
    from_bytes_be out = from_bytes_be input ^ exponent mod modulus.
Proof.
  intros Hs Hm He Hl Hv. unfold rsa_operation. destruct (Z.ltb_spec size (len input)); [lia|]. cbn [bail obind].
  destruct (Z.leb_spec modulus (from_bytes_be input)); [lia|]. cbn [bail obind].
  rewrite Zpow_mod_correct by lia. apply left_padded_spec; [done|].
  pose proof (Z.mod_pos_bound (from_bytes_be input ^ exponent) modulus). lia.
Qed.

(** raw RSA with a matching key pair is total and reversible: every block of
    the modulus size whose value is below the modulus is encrypted to a block of
    the same size, leading zeros kept, and the private operation gives the
    original bytes back; no step panics. *)
Theorem rsa_roundtrip (pub : RsaPublicKey) (priv : RsaPrivateKey) (input : list Z) :
  rsa_private_n priv = rsa_n pub → rsa_private_size priv = rsa_size pub →
  1 ≤ rsa_size pub → 1 < rsa_n pub ≤ 256 ^ rsa_size pub → 0 ≤ rsa_e pub → 0 ≤ rsa_d priv →
  (∀ v, 0 ≤ v < rsa_n pub → (v ^ rsa_e pub mod rsa_n pub) ^ rsa_d priv mod rsa_n pub = v) →
  bytes_ok input = true → len input = rsa_size pub → from_bytes_be input < rsa_n pub →
  ∃ c, rsa_public_operation pub input = Ok c ∧ len c = rsa_size pub ∧ bytes_ok c = true ∧
    rsa_private_operation priv c = Ok input.
Proof.
  intros En Es Hs Hn He Hd Hrsa Hb Hl Hv.
  destruct (rsa_operation_spec input (rsa_e pub) (rsa_n pub) (rsa_size pub)) as (c & Hc & Hlc & Hbc & Hvc);
    [lia..|done|].
  exists c. split_and!; [done|done|done|]. unfold rsa_private_operation. rewrite En, Es.
  pose proof (Z.mod_pos_bound (from_bytes_be input ^ rsa_e pub) (rsa_n pub)).
  destruct (rsa_operation_spec c (rsa_d priv) (rsa_n pub) (rsa_size pub)) as (p & Hp & Hlp & Hbp & Hvp); [lia..|].
  rewrite Hp. f_equal. apply from_bytes_be_inj; [done|done|congruence|].
  rewrite Hvp, Hvc. apply Hrsa. pose proof (from_bytes_be_bound input Hb). lia.
Qed.

Lemma rsa_roundtrip_witness :
  ∃ c, rsa_public_operation (mkRsaPublic 33 3 2) [0; 5] = Ok c ∧
    rsa_private_operation (mkRsaPrivate 33 7 2) c = Ok [0; 5].
Proof.
  destruct (rsa_roundtrip (mkRsaPublic 33 3 2) (mkRsaPrivate 33 7 2) [0; 5]) as (c & Hc & _ & _ & Hp);
    [done|done|cbn; lia|cbn; lia|cbn; lia|cbn; lia| |done|done|done|].
  - cbn [rsa_n rsa_e rsa_d]. intros v Hv.
    assert (forallb (λ v, (v ^ 3 mod 33) ^ 7 mod 33 =? v) (seqZ 0 33) = true) as Hall by (vm_compute; done).
    rewrite forallb_forall in Hall. apply Z.eqb_eq, Hall, list_elem_of_In, elem_of_seqZ. lia.
  - by exists c.
Defined.
