(* ===== verification/Ciphers.v ===== *)
(** * Ciphers: the encryption and decryption entry points

    Models the rest of [src/src/api/crypt/encrypt.rs]: [crypt_init], [crypt]
    (the single-part and the final call), [crypt_update] and
    [crypt_update_blocks] on the encrypt or decrypt operation of a session, for
    software keys and for the keys of a YubiHSM, a PIV and an OpenPGP card.

    Allocation does not fail in the model ([try_reserve] returns [Ok]). Reading
    back the stored form of a public key is a parameter
    ([PublicKeyProjection]). *)
From S2P Require Import Prelude Errors Mechanisms Storage YubiHsm SlotState SessionApi CryptApi Digests CipherModes.

(** [decode_public_key_material(&encode_public_key_material(object)?)?]: the key
    type and the material of the stored form. *)
Class PublicKeyProjection : Type := {
  stored_public_key_material : TokenObject → outcome Error (Z * KeyMaterial);
}.

Definition projected_public_key_material `{PublicKeyProjection} (o : TokenObject) : outcome Error KeyMaterial :=
  let? _ := bail (negb (class o =? CKO_PUBLIC_KEY)) #CKR_KEY_TYPE_INCONSISTENT in
  let? '(kind, key) := stored_public_key_material o in
  let? _ := bail (negb (kind =? key_type o)) #CKR_KEY_TYPE_INCONSISTENT in
  Ok key.

(** ** Operations *)

Definition set_crypt_buffer (buffer : list Z) (o : CryptOperation) : CryptOperation :=
  mkCrypt (crypt_key o) (crypt_public_key o) (crypt_slot_id o) (crypt_requires_login o) (crypt_extended o)
    (crypt_mechanism o) (iv o) (des3_iv o) (ctr o) (ccm o) (gcm o) (key_wrap_iv o) (oaep o)
    (crypt_pin_policy o) buffer (crypt_multipart o) (crypt_result o).
Definition set_crypt_multipart (multipart : bool) (o : CryptOperation) : CryptOperation :=
  mkCrypt (crypt_key o) (crypt_public_key o) (crypt_slot_id o) (crypt_requires_login o) (crypt_extended o)
    (crypt_mechanism o) (iv o) (des3_iv o) (ctr o) (ccm o) (gcm o) (key_wrap_iv o) (oaep o)
    (crypt_pin_policy o) (crypt_buffer o) multipart (crypt_result o).
Definition set_crypt_result (result : option (list Z)) (o : CryptOperation) : CryptOperation :=
  mkCrypt (crypt_key o) (crypt_public_key o) (crypt_slot_id o) (crypt_requires_login o) (crypt_extended o)
    (crypt_mechanism o) (iv o) (des3_iv o) (ctr o) (ccm o) (gcm o) (key_wrap_iv o) (oaep o)
    (crypt_pin_policy o) (crypt_buffer o) (crypt_multipart o) result.
(** The chaining value of the cipher in use. *)
Definition set_chaining (des3 : bool) (value : list Z) (o : CryptOperation) : CryptOperation :=
  mkCrypt (crypt_key o) (crypt_public_key o) (crypt_slot_id o) (crypt_requires_login o) (crypt_extended o)
    (crypt_mechanism o) (if des3 then iv o else Some value) (if des3 then Some value else des3_iv o)
    (ctr o) (ccm o) (gcm o) (key_wrap_iv o) (oaep o) (crypt_pin_policy o) (crypt_buffer o)
    (crypt_multipart o) (crypt_result o).

Definition rsa_mechanism (m : Z) : bool := one_of [CKM_RSA_PKCS; CKM_RSA_X_509; CKM_RSA_PKCS_OAEP] m.
(** ECB and CBC publish complete blocks during an update. *)
Definition block_mechanism (m : Z) : bool :=
  one_of [CKM_AES_ECB; CKM_AES_CBC; CKM_AES_CBC_PAD; CKM_DES3_ECB; CKM_DES3_CBC; CKM_DES3_CBC_PAD] m.
Definition des3_mechanism (m : Z) : bool := one_of [CKM_DES3_ECB; CKM_DES3_CBC; CKM_DES3_CBC_PAD] m.
Definition padded_mechanism (m : Z) : bool := one_of [CKM_AES_CBC_PAD; CKM_DES3_CBC_PAD] m.
Definition chained_mechanism (m : Z) : bool := negb (m =? CKM_AES_ECB) && negb (m =? CKM_DES3_ECB).
Definition block_length (m : Z) : Z := if des3_mechanism m then TDES_BLOCK_LENGTH else AES_BLOCK_LENGTH.

(** The parameters of a mechanism: [iv], [ctr], [ccm], [gcm], [key_wrap_iv] and
    [oaep] of the operation. *)
Definition Parameters : Type :=
  option (list Z) * option CtrParameters * option CcmParameters * option GcmParameters *
  option (list Z) * option (Z * Z * list Z).
Definition mechanism_parameters `{HashCore} (m : CK_MECHANISM)
    : outcome Error Parameters :=
  let t := mechanism m in
  if one_of [CKM_RSA_PKCS; CKM_RSA_X_509; CKM_AES_ECB; CKM_DES3_ECB; CKM_YUBICO_AES_CCM_WRAP] t then
    if has_parameter m then Err #CKR_MECHANISM_PARAM_INVALID else Ok (None, None, None, None, None, None)
  else if one_of [CKM_DES3_CBC; CKM_DES3_CBC_PAD] t then Ok (None, None, None, None, None, None)
  else if t =? CKM_AES_KEY_WRAP then
    let? wrap := parse_key_wrap_iv m (replicate 8 0xa6) in
    Ok (None, None, None, None, Some wrap, None)
  else if t =? CKM_AES_KEY_WRAP_KWP then
    let? wrap := parse_key_wrap_iv m [0xa6; 0x59; 0x59; 0xa6] in
    Ok (None, None, None, None, Some wrap, None)
  else if one_of [CKM_AES_CBC; CKM_AES_CBC_PAD] t then
    let? value := parse_cbc_iv m 16 in
    Ok (Some value, None, None, None, None, None)
  else if t =? CKM_AES_CTR then
    let? p := parse_ctr_parameters m in
    Ok (None, Some p, None, None, None, None)
  else if t =? CKM_AES_CCM then
    let? p := parse_ccm_parameters m in
    Ok (None, None, Some p, None, None, None)
  else if t =? CKM_AES_GCM then
    let? p := parse_gcm_parameters m in
    Ok (None, None, None, Some p, None, None)
  else if t =? CKM_RSA_PKCS_OAEP then
    let? p := parse_rsa_oaep_parameters m in
    Ok (None, None, None, None, None, Some p)
  else Err #CKR_MECHANISM_INVALID.

(** The initialisation vector of a triple DES mechanism. *)
Definition des3_parameter (m : CK_MECHANISM) : outcome Error (option (list Z)) :=
  if one_of [CKM_DES3_CBC; CKM_DES3_CBC_PAD] (mechanism m) then omap_ok Some (parse_cbc_iv m 8)
  else Ok None.

(** Whether the key fits the mechanism and the direction. *)
Definition valid_key {B} `{RsaCore B} (m : Z) (o : TokenObject) (operation_key : KeyMaterial)
    (encrypting : bool) : outcome Error bool :=
  if rsa_mechanism m then
    if negb (key_type o =? CKK_RSA) then Ok false
    else if encrypting then
      let? key := rsa_public_key_material operation_key in
      Ok (bool_decide (is_Some key))
    else
      Ok (match material o with
          | SoftwarePrivate (SigningRsa _) | YubiHsm _ _ _ _ _ | PivPrivate _ _ _ _ | OpenPgpPrivate _ _ _ _ => true
          | _ => false
          end)
  else if m =? CKM_YUBICO_AES_CCM_WRAP then
    Ok (one_of [CKK_YUBICO_AES128_CCM_WRAP; CKK_YUBICO_AES192_CCM_WRAP; CKK_YUBICO_AES256_CCM_WRAP] (key_type o)
        && match material o with
           | YubiHsm _ object_type algorithm _ _ =>
               (object_type =? YUBIHSM_WRAP_KEY) && is_yubihsm_ccm_wrap algorithm
           | _ => false
           end)
  else if des3_mechanism m then
    Ok ((key_type o =? CKK_DES3) && match material o with SoftwareSecret _ => true | _ => false end)
  else
    Ok ((key_type o =? CKK_AES)
        && match material o with YubiHsm _ _ _ _ _ | SoftwareSecret _ => true | _ => false end).

Section ciphers.
Context `{HashCore} `{SymmetricCore} `{PublicKeyProjection}.
Context {B P : Type} `{Slot B} `{StorageProvider P} `{Sha3, MiniCbor} `{BackedObjects}
  `{Environment B P} `{CryptBackend B} `{RsaCore B}.
Abbreviation Ctx := (SlotContext B P).
Abbreviation M := (SM Ctx Error).
Abbreviation IO := (SM (Ctx * Output) Error).

Definition end_crypt (k : Z) (encrypting : bool) : M unit :=
  update_session k (set_crypt_operation encrypting None).

(** The operation a key and a mechanism start. *)
Definition new_crypt_operation (id : Z) (m : CK_MECHANISM) (o : TokenObject) (operation_key : KeyMaterial)
    (des3 : option (list Z)) (parameters : Parameters) : CryptOperation :=
  let '(iv, ctr, ccm, gcm, wrap, oaep) := parameters in
  mkCrypt operation_key (public_key o) id (private o)
    (match material o with OpenPgpPrivate _ _ _ _ => true | _ => false end)
    (mechanism m) iv des3 ctr ccm gcm wrap oaep
    (match material o with PivPrivate _ _ pin_policy _ => Some pin_policy | _ => None end)
    [] false None.

Definition crypt_init_in (k : Z) (m : option CK_MECHANISM) (key : Z) (encrypting : bool) : M unit :=
  let! '(id, _, logged_in) := session_details k in
  let! session := get_session_context k in
  match m with
  | None =>
      let! _ := end_crypt k encrypting in
      sm_lift (match crypt_operation encrypting session with
               | Some _ => Ok tt
               | None => Err #CKR_OPERATION_NOT_INITIALIZED
               end)
  | Some m =>
      let! _ := guard_err (bool_decide (is_Some (crypt_operation encrypting session))
                           || bool_decide (is_Some (crypt_operation (negb encrypting) session)))
                  #CKR_OPERATION_ACTIVE in
      let! _ := require_slot_mechanism id (mechanism m) (if encrypting then CKF_ENCRYPT else CKF_DECRYPT) in
      let! des3 := sm_lift (des3_parameter m) in
      let! parameters := sm_lift (mechanism_parameters m) in
      let! found := resolve_object key in
      let! object := sm_lift (ok_or #CKR_KEY_HANDLE_INVALID found) in
      let! _ := guard_err (negb (is_visible_to logged_in object)) #CKR_KEY_HANDLE_INVALID in
      let! _ := sm_lift (require_key_mechanism object (mechanism m)) in
      let! _ := guard_err (private object && negb logged_in) #CKR_USER_NOT_LOGGED_IN in
      let! _ := guard_err (if encrypting then negb (encrypt object) else negb (decrypt object))
                  #CKR_KEY_FUNCTION_NOT_PERMITTED in
      let! operation_key := sm_lift (if encrypting && rsa_mechanism (mechanism m)
                                     then projected_public_key_material object
                                     else Ok (material object)) in
      let! valid := sm_lift (valid_key (mechanism m) object operation_key encrypting) in
      let! _ := guard_err (negb valid) #CKR_KEY_TYPE_INCONSISTENT in
      update_session k (set_crypt_operation encrypting
        (Some (new_crypt_operation id m object operation_key des3 parameters)))
  end.

(** *** Keys inside a YubiHSM *)

Fixpoint ecb_chunks (k key_id : Z) (encrypting : bool) (parts : list (list Z)) : M (list Z) :=
  match parts with
  | [] => sm_ret []
  | chunk :: rest =>
      let! command := sm_lift (key_data (if encrypting then EncryptEcb else DecryptEcb) key_id chunk) in
      let! response := on_session k (λ s, yubihsm_command s command) in
      let! _ := guard_err (negb (len response =? len chunk)) #CKR_DEVICE_ERROR in
      let! output := ecb_chunks k key_id encrypting rest in
      sm_ret (response ++ output)
  end.

Definition yubihsm_crypt_ecb_blocks (k key_id : Z) (blocks : list Z) (encrypting : bool) : M (list Z) :=
  let! _ := guard_err (negb (is_multiple_of (len blocks) AES_BLOCK_LENGTH)) #CKR_DATA_LEN_RANGE in
  ecb_chunks k key_id encrypting (chunks (Z.to_nat YUBIHSM_ECB_CHUNK_LENGTH) blocks).

Definition yubihsm_encrypt_ecb_blocks (k key_id : Z) (blocks : list Z) : M (list Z) :=
  yubihsm_crypt_ecb_blocks k key_id blocks true.

(** One chained command per chunk: the outputs and the chaining value after the
    last one. *)
Fixpoint cbc_chunks (k key_id : Z) (encrypting : bool) (previous : list Z) (parts : list (list Z))
    : M (list Z * list Z) :=
  match parts with
  | [] => sm_ret ([], previous)
  | chunk :: rest =>
      let! command := sm_lift (crypt_cbc (if encrypting then EncryptCbc else DecryptCbc) key_id previous chunk) in
      let! response := on_session k (λ s, yubihsm_command s command) in
      let! _ := guard_err (negb (len response =? len chunk)) #CKR_DEVICE_ERROR in
      let! chained := sm_lift (tail AES_BLOCK_LENGTH (if encrypting then response else chunk)) in
      let! '(output, last) := cbc_chunks k key_id encrypting chained rest in
      sm_ret (response ++ output, last)
  end.

Definition yubihsm_cbc_mac (k key_id : Z) (blocks : list Z) : M (list Z) :=
  let! _ := guard_err (bool_decide (blocks = []) || negb (is_multiple_of (len blocks) AES_BLOCK_LENGTH))
              #CKR_DATA_LEN_RANGE in
  let! '(_, mac) := cbc_chunks k key_id true (replicate 16 0)
                      (chunks (Z.to_nat YUBIHSM_CBC_CHUNK_LENGTH) blocks) in
  sm_ret mac.

Definition yubihsm_aes_cbc_pad (k key_id : Z) (iv input : list Z) (encrypting : bool) : M (list Z) :=
  let! prepared := sm_lift
    (if encrypting then
       let padding_length := AES_BLOCK_LENGTH - len input mod AES_BLOCK_LENGTH in
       let? padded_length := ok_or #CKR_DATA_LEN_RANGE (checked_add (len input) padding_length) in
       Ok (input ++ replicate (Z.to_nat (padded_length - len input)) padding_length)
     else
       let? _ := bail (bool_decide (input = []) || negb (is_multiple_of (len input) AES_BLOCK_LENGTH))
                   #CKR_ENCRYPTED_DATA_LEN_RANGE in
       Ok input) in
  let! command := sm_lift (crypt_cbc (if encrypting then EncryptCbc else DecryptCbc) key_id iv prepared) in
  let! output := on_session k (λ s, yubihsm_command s command) in
  let! _ := guard_err (negb (len output =? len prepared)) #CKR_DEVICE_ERROR in
  if encrypting then sm_ret output
  else sm_lift (map_err (λ _, #CKR_ENCRYPTED_DATA_INVALID) (remove_pkcs7_padding output AES_BLOCK_LENGTH)).

(** *** One transformation of a whole input *)

(** A raw decryption of a PIV card, filled up to the length of the modulus. *)
Definition piv_raw (algorithm : PivAlgorithm) (raw : list Z) : outcome Error (list Z) :=
  match rsa_input_length algorithm with
  | Some expected =>
      if expected <? len raw then Err #CKR_DEVICE_ERROR
      else Ok (replicate (Z.to_nat (expected - len raw)) 0 ++ raw)
  | None => Ok raw
  end.

Definition required_parameter {A} (p : option A) : M A := sm_lift (ok_or #CKR_MECHANISM_PARAM_INVALID p).

Definition yubihsm_transform (k : Z) (op : CryptOperation) (id : Z) (encrypting : bool) (required : Z)
    (input : list Z) : M (list Z) :=
  let m := crypt_mechanism op in
  let send (command : outcome Error Command) : M (list Z) :=
    let! command := sm_lift command in
    let! response := on_session k (λ s, yubihsm_command s command) in
    let! _ := guard_err ((m =? CKM_YUBICO_AES_CCM_WRAP) && negb (len response =? required)) #CKR_DEVICE_ERROR in
    sm_ret response in
  if m =? CKM_YUBICO_AES_CCM_WRAP then
    send (key_data (if encrypting then WrapData else UnwrapData) id input)
  else if (m =? CKM_RSA_PKCS) && negb encrypting then send (key_data DecryptPkcs1 id input)
  else if (m =? CKM_RSA_PKCS_OAEP) && negb encrypting then
    let! '(mgf, _, label_digest) := required_parameter (oaep op) in
    send (decrypt_oaep id mgf input label_digest)
  else if m =? CKM_AES_ECB then
    send (key_data (if encrypting then EncryptEcb else DecryptEcb) id input)
  else if m =? CKM_AES_CBC then
    let! iv := required_parameter (iv op) in
    send (crypt_cbc (if encrypting then EncryptCbc else DecryptCbc) id iv input)
  else if m =? CKM_AES_CBC_PAD then
    let! iv := required_parameter (iv op) in
    yubihsm_aes_cbc_pad k id iv input encrypting
  else if m =? CKM_AES_KEY_WRAP then
    let! initial := required_parameter (key_wrap_iv op) in
    aes_key_wrap_transform input encrypting initial (yubihsm_crypt_ecb_blocks k id)
  else if m =? CKM_AES_KEY_WRAP_KWP then
    let! initial := required_parameter (key_wrap_iv op) in
    aes_kwp_transform input encrypting initial (yubihsm_crypt_ecb_blocks k id)
  else if m =? CKM_AES_CTR then
    let! p := required_parameter (ctr op) in
    aes_ctr p input (yubihsm_encrypt_ecb_blocks k id)
  else if m =? CKM_AES_CCM then
    let! p := required_parameter (ccm op) in
    aes_ccm p input encrypting (λ o blocks,
      match o with
      | EncryptBlocks => yubihsm_encrypt_ecb_blocks k id blocks
      | CbcMac => yubihsm_cbc_mac k id blocks
      end)
  else if m =? CKM_AES_GCM then
    let! p := required_parameter (gcm op) in
    aes_gcm p input encrypting (yubihsm_encrypt_ecb_blocks k id)
  else sm_err #CKR_MECHANISM_INVALID.

Definition software_transform (op : CryptOperation) (key : list Z) (encrypting : bool) (input : list Z)
    : M (list Z) :=
  let m := crypt_mechanism op in
  let ecb blocks encrypting : M (list Z) := sm_lift (software_crypt_ecb_blocks key blocks encrypting) in
  if m =? CKM_DES3_ECB then
    let! _ := guard_err (negb (is_multiple_of (len input) TDES_BLOCK_LENGTH)) (length_error encrypting) in
    sm_lift (software_tdes_ecb_blocks key input encrypting)
  else if m =? CKM_DES3_CBC then
    let! iv := required_parameter (des3_iv op) in
    sm_lift (software_tdes_cbc key iv input encrypting)
  else if m =? CKM_DES3_CBC_PAD then
    let! iv := required_parameter (des3_iv op) in
    sm_lift (software_tdes_cbc_pad key iv input encrypting)
  else if m =? CKM_AES_ECB then
    let! _ := guard_err (negb (is_multiple_of (len input) AES_BLOCK_LENGTH)) (length_error encrypting) in
    ecb input encrypting
  else if m =? CKM_AES_CBC then
    let! iv := required_parameter (iv op) in
    sm_lift (software_aes_cbc key iv input encrypting)
  else if m =? CKM_AES_CBC_PAD then
    let! iv := required_parameter (iv op) in
    sm_lift (software_aes_cbc_pad key iv input encrypting)
  else if m =? CKM_AES_KEY_WRAP then
    let! initial := required_parameter (key_wrap_iv op) in
    aes_key_wrap_transform input encrypting initial ecb
  else if m =? CKM_AES_KEY_WRAP_KWP then
    let! initial := required_parameter (key_wrap_iv op) in
    aes_kwp_transform input encrypting initial ecb
  else if m =? CKM_AES_CTR then
    let! p := required_parameter (ctr op) in
    aes_ctr p input (λ blocks, ecb blocks true)
  else if m =? CKM_AES_CCM then
    let! p := required_parameter (ccm op) in
    aes_ccm p input encrypting (λ o blocks,
      match o with
      | EncryptBlocks => ecb blocks true
      | CbcMac => sm_lift (software_cbc_mac key blocks)
      end)
  else if m =? CKM_AES_GCM then
    let! p := required_parameter (gcm op) in
    aes_gcm p input encrypting (λ blocks, ecb blocks true)
  else sm_err #CKR_MECHANISM_INVALID.

(** The transformation by key. *)
Definition key_transform (k : Z) (op : CryptOperation) (encrypting : bool) (required : Z) (input : list Z)
    : M (list Z) :=
  match crypt_key op with
  | SoftwarePrivate (SigningRsa key) =>
      if encrypting then sm_err #CKR_KEY_TYPE_INCONSISTENT
      else
        let! _ := guard_err (negb (len input =? rsa_private_size key)) #CKR_ENCRYPTED_DATA_LEN_RANGE in
        let! raw := sm_lift (rsa_private_operation key input) in
        sm_lift (rsa_unpad (crypt_mechanism op) (oaep op) raw)
  | PivPrivate piv_slot algorithm _ _ =>
      if encrypting then sm_err #CKR_KEY_TYPE_INCONSISTENT
      else
        let! raw := on_session k (λ s, piv_decipher s piv_slot algorithm input
                                         (default 0 (crypt_pin_policy op))) in
        let! raw := sm_lift (piv_raw algorithm raw) in
        sm_lift (rsa_unpad (crypt_mechanism op) (oaep op) raw)
  | OpenPgpPrivate _ algorithm _ _ =>
      if encrypting then sm_err #CKR_KEY_TYPE_INCONSISTENT
      else
        let! _ := guard_err (match algorithm with PgpRsa _ => false | _ => true end)
                    #CKR_KEY_TYPE_INCONSISTENT in
        on_session k (λ s, openpgp_decipher s input (crypt_mechanism op =? CKM_RSA_X_509))
  | YubiHsm id _ _ _ _ => yubihsm_transform k op id encrypting required input
  | SoftwareSecret key => software_transform op key encrypting input
  | _ => sm_err #CKR_KEY_TYPE_INCONSISTENT
  end.

(** An empty rest of an unpadded AES mode gives no output; a public RSA key
    encrypts in software; otherwise the key decides. *)
Definition transform (k : Z) (op : CryptOperation) (encrypting finalizing : bool) (required : Z)
    (input : list Z) : M (list Z) :=
  if finalizing && bool_decide (input = [])
     && one_of [CKM_AES_ECB; CKM_AES_CBC] (crypt_mechanism op)
  then sm_ret []
  else
    let! rsa := sm_lift (if encrypting then rsa_public_key_material (crypt_key op) else Ok None) in
    match rsa with
    | Some key => on_slot (rsa_public_encrypt key (crypt_mechanism op) (oaep op) input)
    | None => key_transform k op encrypting required input
    end.

(** *** The calls *)

(** An operation with a private key ends when its user is no longer logged in. *)
Definition require_login (k : Z) (op : CryptOperation) (encrypting : bool) : M unit :=
  if crypt_requires_login op then
    let! active := is_slot_user_logged_in (crypt_slot_id op) in
    if (active : bool) then sm_ret tt
    else
      let! _ := reconcile_login_state (crypt_slot_id op) in
      let! _ := end_crypt k encrypting in
      sm_err #CKR_USER_NOT_LOGGED_IN
  else sm_ret tt.

(** A failed check ends the operation. *)
Definition or_end {A} (k : Z) (encrypting : bool) (c : outcome Error A) : M A :=
  match c with
  | Ok a => sm_ret a
  | Err e => let! _ := end_crypt k encrypting in sm_err e
  | Panic => sm_lift Panic
  end.

Definition required_length (op : CryptOperation) (input_len : Z) (encrypting : bool) : outcome Error Z :=
  match crypt_result op with
  | Some result => Ok (len result)
  | None =>
      let? total := ok_or #CKR_HOST_MEMORY (checked_add (len (crypt_buffer op)) input_len) in
      crypt_output_length op total encrypting
  end.

(** Take the operation, compute its result unless it is there already, and
    return both. An error has ended the operation. *)
Definition take_result (k : Z) (op : CryptOperation) (encrypting finalizing : bool) (required : Z)
    (input : list Z) : M (list Z * CryptOperation) :=
  let! _ := end_crypt k encrypting in
  match crypt_result op with
  | Some result => sm_ret (result, set_crypt_result None op)
  | None =>
      let! result := transform k op encrypting finalizing required (crypt_buffer op ++ input) in
      sm_ret (result, set_crypt_buffer [] op)
  end.

Definition crypt_in (k : Z) (input : option (list Z)) (input_len : Z) (encrypting finalizing : bool) : IO unit :=
  let! capacity := output_capacity in
  let! session := sm_fst (get_session_context k) in
  let! op := sm_lift (ok_or #CKR_OPERATION_NOT_INITIALIZED (crypt_operation encrypting session)) in
  if crypt_multipart op && negb finalizing then
    let! _ := sm_fst (end_crypt k encrypting) in
    sm_err #CKR_OPERATION_ACTIVE
  else
    let! _ := sm_fst (require_login k op encrypting) in
    let! input := sm_fst (or_end k encrypting (from_raw_parts input input_len)) in
    let! required := sm_fst (or_end k encrypting (required_length op (len input) encrypting)) in
    let! null := output_null in
    if (null : bool) then report_length required
    else
      let! '(result, op) := sm_fst (take_result k op encrypting finalizing required input) in
      if capacity <? len result then
        let! _ := report_length (len result) in
        let! _ := sm_fst (update_session k
                    (set_crypt_operation encrypting (Some (set_crypt_result (Some result) op)))) in
        sm_err #CKR_BUFFER_TOO_SMALL
      else
        let! _ := copy_out result in
        report_length (len result).

(** The cipher of [crypt_update_blocks] on complete blocks. *)
Definition transform_blocks (k : Z) (op : CryptOperation) (encrypting : bool) (blocks : list Z) : M (list Z) :=
  let m := crypt_mechanism op in
  match crypt_key op with
  | SoftwareSecret key =>
      if des3_mechanism m && chained_mechanism m then
        let! iv := required_parameter (des3_iv op) in
        sm_lift (software_tdes_cbc key iv blocks encrypting)
      else if des3_mechanism m then sm_lift (software_tdes_ecb_blocks key blocks encrypting)
      else if chained_mechanism m then
        let! iv := required_parameter (iv op) in
        sm_lift (software_aes_cbc key iv blocks encrypting)
      else sm_lift (software_crypt_ecb_blocks key blocks encrypting)
  | YubiHsm id _ _ _ _ =>
      if chained_mechanism m then
        let! iv := required_parameter (iv op) in
        let! '(result, _) := cbc_chunks k id encrypting iv (chunks (Z.to_nat YUBIHSM_CBC_CHUNK_LENGTH) blocks) in
        sm_ret result
      else yubihsm_crypt_ecb_blocks k id blocks encrypting
  | _ => sm_err #CKR_KEY_TYPE_INCONSISTENT
  end.

(** How many bytes an update publishes: all complete blocks, except that padded
    decryption keeps one back for the final call. *)
Definition produced_length (m : Z) (total : Z) (encrypting : bool) : Z :=
  let retained := if negb encrypting && padded_mechanism m then 1 else 0 in
  Z.max 0 (total / block_length m - retained) * block_length m.

(** Consume the input and publish the complete blocks; the operation has been
    taken out of the session. *)
Definition publish_blocks (k : Z) (op : CryptOperation) (encrypting : bool) (produced : Z) : IO CryptOperation :=
  if produced =? 0 then sm_ret op
  else
    let m := crypt_mechanism op in
    let blocks := ztake produced (crypt_buffer op) in
    let! transformed := sm_fst (transform_blocks k op encrypting blocks) in
    let! _ := guard_err (negb (len transformed =? produced)) #CKR_DEVICE_ERROR in
    let! op := sm_lift
      (if chained_mechanism m then
         let? chained := tail (block_length m) (if encrypting then transformed else blocks) in
         Ok (set_chaining (des3_mechanism m) chained op)
       else Ok op) in
    let! _ := copy_out transformed in
    sm_ret (set_crypt_buffer (zdrop produced (crypt_buffer op)) op).

Definition crypt_update_blocks (k : Z) (input : list Z) (encrypting : bool) : IO unit :=
  let! session := sm_fst (get_session_context k) in
  let! op := sm_lift (ok_or #CKR_OPERATION_NOT_INITIALIZED (crypt_operation encrypting session)) in
  let! total := sm_lift (ok_or #CKR_HOST_MEMORY (checked_add (len (crypt_buffer op)) (len input))) in
  let produced := produced_length (crypt_mechanism op) total encrypting in
  let! capacity := output_capacity in
  let! _ := report_length produced in
  let! null := output_null in
  if (null : bool) then sm_ret tt
  else
    let! _ := guard_err (capacity <? produced) #CKR_BUFFER_TOO_SMALL in
    let! _ := sm_fst (end_crypt k encrypting) in
    let op := set_crypt_buffer (crypt_buffer op ++ input) op in
    let! op := publish_blocks k op encrypting produced in
    sm_fst (update_session k (set_crypt_operation encrypting (Some (set_crypt_multipart true op)))).

Definition is_too_small (e : Error) : bool :=
  match e with Generic rv => rv =? CKR_BUFFER_TOO_SMALL | _ => false end.

(** Every error but a too small buffer ends the operation. *)
Definition unless_too_small (k : Z) (encrypting : bool) (c : IO unit) : IO unit := λ s,
  match c s with
  | (Err e, s') =>
      if is_too_small e then (Err e, s')
      else (let! _ := sm_fst (end_crypt k encrypting) in sm_err e) s'
  | r => r
  end.

Definition crypt_update_in (k : Z) (input : option (list Z)) (input_len : Z) (encrypting : bool) : IO unit :=
  let! session := sm_fst (get_session_context k) in
  let! op := sm_lift (ok_or #CKR_OPERATION_NOT_INITIALIZED (crypt_operation encrypting session)) in
  let! _ := sm_fst (require_login k op encrypting) in
  match crypt_result op with
  | Some _ =>
      let! _ := sm_fst (end_crypt k encrypting) in
      sm_err #CKR_OPERATION_NOT_INITIALIZED
  | None =>
      let! input := sm_fst (or_end k encrypting (from_raw_parts input input_len)) in
      if block_mechanism (crypt_mechanism op) then
        unless_too_small k encrypting (crypt_update_blocks k input encrypting)
      else
        let! _ := report_length 0 in
        let! null := output_null in
        if (null : bool) then sm_ret tt
        else sm_fst (update_session k (set_crypt_operation encrypting
               (Some (set_crypt_multipart true (set_crypt_buffer (crypt_buffer op ++ input) op)))))
  end.

(** ** Entry points *)

Abbreviation MO := (SM (Module B P * Output) Error).

Definition crypt_init (k : Z) (m : option CK_MECHANISM) (key : Z) (encrypting : bool) : SM (Module B P) Error unit :=
  with_session_context_mut k (crypt_init_in k m key encrypting).

Definition crypt (k : Z) (input : option (list Z)) (input_len : Z) (encrypting finalizing : bool) : MO unit := λ s,
  match out_len s.2 with
  | None => (let! _ := sm_fst (sm_ignore (with_session_context_mut k (end_crypt k encrypting))) in
             sm_err #CKR_ARGUMENTS_BAD) s
  | Some _ => with_session_output k (crypt_in k input input_len encrypting finalizing) s
  end.

Definition crypt_update (k : Z) (input : option (list Z)) (input_len : Z) (encrypting : bool) : MO unit := λ s,
  match out_len s.2 with
  | None => sm_fst (with_session_context_mut k
              (let! _ := end_crypt k encrypting in sm_err #CKR_ARGUMENTS_BAD)) s
  | Some _ => with_session_output k (crypt_update_in k input input_len encrypting) s
  end.

Definition C_EncryptInit k m key := crypt_init k m key true.
Definition C_Encrypt k data data_len := crypt k data data_len true false.
Definition C_EncryptUpdate k part part_len := crypt_update k part part_len true.
Definition C_EncryptFinal k := crypt k None 0 true true.
Definition C_DecryptInit k m key := crypt_init k m key false.
Definition C_Decrypt k data data_len := crypt k data data_len false false.
Definition C_DecryptUpdate k part part_len := crypt_update k part part_len false.
Definition C_DecryptFinal k := crypt k None 0 false true.

(** ** The session during a call *)

(** The user an operation needs is logged in. *)
Definition authorized (x : Ctx) (op : CryptOperation) : Prop :=
  crypt_requires_login op = true → is_slot_user_logged_in (crypt_slot_id op) x = (Ok true, x).

Lemma user_logged_in_put id k s (x : Ctx) :
  is_slot_user_logged_in id (put_session k s x) =
    ((is_slot_user_logged_in id x).1, put_session k s x).
Proof. done. Qed.

Lemma authorized_put k s (x : Ctx) op : authorized x op → authorized (put_session k s x) op.
Proof. intros Ha Hl. rewrite user_logged_in_put. by rewrite (Ha Hl). Qed.

Lemma require_login_authorized k op e (x : Ctx) : authorized x op → require_login k op e x = (Ok tt, x).
Proof.
  intros Ha. unfold require_login. destruct (crypt_requires_login op) eqn:El; [|done].
  rewrite sm_bind_unfold. by rewrite (Ha El).
Qed.

Lemma crypt_operation_set e op (s : SessionContext) : crypt_operation e (set_crypt_operation e op s) = op.
Proof. by destruct e. Qed.
Lemma set_crypt_twice e op op' (s : SessionContext) :
  set_crypt_operation e op (set_crypt_operation e op' s) = set_crypt_operation e op s.
Proof. by destruct e. Qed.
Lemma backend_set_crypt e op (s : SessionContext) : backend (set_crypt_operation e op s) = backend s.
Proof. by destruct e. Qed.
Lemma end_crypt_open k e (x : Ctx) s :
  open_in x k s → end_crypt k e x = (Ok tt, put_session k (set_crypt_operation e None s) x).
Proof. intros Ho. unfold end_crypt. by rewrite (update_session_open _ _ _ _ Ho). Qed.


(** Code that changes nothing but the backend. *)
Definition slot_only {A} (c : M A) : Prop :=
  ∀ x, ∃ b, (c x).2 = mkContext b (state x) (handles x).

Lemma slot_only_bind {A A'} (c : M A) (f : A → M A') :
  slot_only c → (∀ a, slot_only (f a)) → slot_only (sbind c f).
Proof.
  intros Hc Hf x. rewrite sm_bind_unfold. destruct (Hc x) as [b Hb].
  destruct (c x) as [[a|e|] y]; cbn in Hb; subst y; [|by eexists..].
  destruct (Hf a (mkContext b (state x) (handles x))) as [b' Hb']. by exists b'.
Qed.
Lemma slot_only_same {A} (c : M A) : (∀ x, (c x).2 = x) → slot_only c.
Proof. intros Hc x. rewrite Hc. exists (slot x). by destruct x. Qed.
Lemma slot_only_on_slot {A} (c : SM B Error A) : slot_only (on_slot c).
Proof. intros x. unfold on_slot. destruct (c (slot x)). by eexists. Qed.
Lemma slot_only_lift {A} (c : outcome Error A) : slot_only (sm_lift c).
Proof. by apply slot_only_same. Qed.
Lemma slot_only_ret {A} (a : A) : slot_only (sm_ret a).
Proof. by apply slot_only_same. Qed.
Lemma slot_only_err {A} er : slot_only (sm_err er : M A).
Proof. by apply slot_only_same. Qed.
Lemma slot_only_guard b er : slot_only (guard_err b er).
Proof. by apply slot_only_same. Qed.
Lemma slot_only_required {A} (p : option A) : slot_only (required_parameter p).
Proof. apply slot_only_lift. Qed.
Lemma slot_only_on_session {A} k (f : BackendSession → SM B Error A) : slot_only (on_session k f).
Proof.
  apply slot_only_bind; [|intros ?; apply slot_only_on_slot].
  intros x. exists (slot x). unfold get_session. rewrite !sm_bind_unfold. cbn.
  destruct x as [b st h]. cbn. destruct (sessions st !! k) as [s|]; [|done].
  by destruct (slotID (backend s) =? slot_id st).
Qed.
Lemma slot_only_map_err {A E} (f : E → Error) (c : SM Ctx E A) :
  (∀ x : Ctx, preserves (λ y, ∃ b, y = mkContext b (state x) (handles x)) c) → slot_only (sm_map_err f c).
Proof.
  intros Hc x. destruct (Hc x x) as [b Hb]; [exists (slot x); by destruct x|].
  exists b. unfold sm_map_err. by destruct (c x).
Qed.
Lemma slot_only_preserves {A} (c : M A) (x : Ctx) :
  slot_only c → preserves (λ y, ∃ b, y = mkContext b (state x) (handles x)) c.
Proof. intros Hc y [b ->]. destruct (Hc (mkContext b (state x) (handles x))) as [b' ->]. by exists b'. Qed.
End ciphers.

Create HintDb slot_only.
#[export] Hint Resolve slot_only_on_slot slot_only_lift slot_only_ret slot_only_err slot_only_guard
  slot_only_required slot_only_on_session : slot_only.

(** Binds, conditionals and leaves, as for [keep_core]. *)
Ltac slot_only :=
  repeat match goal with
  | |- slot_only (sbind _ _) => apply slot_only_bind; [|intros ?]
  | |- slot_only (if ?b then _ else _) => destruct b
  | |- slot_only (match ?o with _ => _ end) => destruct o
  | |- slot_only (let '(_, _) := ?p in _) => destruct p
  | |- slot_only _ => solve [auto with slot_only]
  end.

(** A mode touches the state only through the block cipher it is given. *)
Class ModesLaws `{SymmetricCore} : Prop := {
  gcm_preserves S E (I : S → Prop) iv aad t input e f :
    (∀ b, preserves I (f b)) → preserves I (gcm_with S E iv aad t input e f);
  ctr_preserves S E (I : S → Prop) n c input f :
    (∀ b, preserves I (f b)) → preserves I (ctr_with S E n c input f);
  ccm_preserves S E (I : S → Prop) n nonce aad t input e f :
    (∀ o b, preserves I (f o b)) → preserves I (ccm_with S E n nonce aad t input e f);
  key_wrap_preserves S E (I : S → Prop) input e v f :
    (∀ b e, preserves I (f b e)) → preserves I (key_wrap_with S E input e v f);
  kwp_preserves S E (I : S → Prop) input e v f :
    (∀ b e, preserves I (f b e)) → preserves I (key_wrap_with_padding_with S E input e v f);
}.

Section effects.
Context `{HashCore} `{ModesLaws} `{PublicKeyProjection}.
Context {B P : Type} `{Slot B} `{StorageProvider P} `{Sha3, MiniCbor} `{BackedObjects}
  `{Environment B P} `{CryptBackend B} `{RsaCore B}.
Abbreviation Ctx := (SlotContext B P).
Abbreviation M := (SM Ctx Error).
Abbreviation IO := (SM (Ctx * Output) Error).

Lemma slot_only_gcm p input e f : (∀ b, slot_only (f b : M _)) → slot_only (aes_gcm p input e f : M _).
Proof. intros Hf. apply slot_only_map_err. intros x. apply gcm_preserves. intros b. by apply slot_only_preserves. Qed.
Lemma slot_only_ctr p input f : (∀ b, slot_only (f b : M _)) → slot_only (aes_ctr p input f : M _).
Proof. intros Hf. apply slot_only_map_err. intros x. apply ctr_preserves. intros b. by apply slot_only_preserves. Qed.
Lemma slot_only_ccm p input e f : (∀ o b, slot_only (f o b : M _)) → slot_only (aes_ccm p input e f : M _).
Proof. intros Hf. apply slot_only_map_err. intros x. apply ccm_preserves. intros o b. by apply slot_only_preserves. Qed.
Lemma slot_only_key_wrap input e v f :
  (∀ b e, slot_only (f b e : M _)) → slot_only (aes_key_wrap_transform input e v f : M _).
Proof. intros Hf. apply slot_only_map_err. intros x. apply key_wrap_preserves. intros b e'. by apply slot_only_preserves. Qed.
Lemma slot_only_kwp input e v f :
  (∀ b e, slot_only (f b e : M _)) → slot_only (aes_kwp_transform input e v f : M _).
Proof. intros Hf. apply slot_only_map_err. intros x. apply kwp_preserves. intros b e'. by apply slot_only_preserves. Qed.

Lemma slot_only_ecb_chunks k id e parts : slot_only (ecb_chunks k id e parts : M _).
Proof. induction parts; cbn [ecb_chunks]; slot_only. Qed.
Lemma slot_only_cbc_chunks k id e v parts : slot_only (cbc_chunks k id e v parts : M _).
Proof. revert v. induction parts; intros v; cbn [cbc_chunks]; slot_only. Qed.
Lemma slot_only_yubihsm_ecb k id blocks e : slot_only (yubihsm_crypt_ecb_blocks k id blocks e : M _).
Proof. unfold yubihsm_crypt_ecb_blocks. slot_only. apply slot_only_ecb_chunks. Qed.
Lemma slot_only_yubihsm_mac k id blocks : slot_only (yubihsm_cbc_mac k id blocks : M _).
Proof. unfold yubihsm_cbc_mac. slot_only; apply slot_only_cbc_chunks. Qed.
Lemma slot_only_yubihsm_pad k id v input e : slot_only (yubihsm_aes_cbc_pad k id v input e : M _).
Proof. unfold yubihsm_aes_cbc_pad. slot_only. Qed.
#[local] Hint Resolve slot_only_yubihsm_ecb slot_only_yubihsm_mac slot_only_yubihsm_pad slot_only_gcm
  slot_only_ctr slot_only_key_wrap slot_only_kwp slot_only_cbc_chunks : slot_only.

(** Whatever the key and the mechanism, a transformation leaves the slot's
    sessions, objects and login alone. *)
Lemma slot_only_transform k op e fin required input : slot_only (transform k op e fin required input : M _).
Proof.
  unfold transform, key_transform, yubihsm_transform, software_transform, yubihsm_encrypt_ecb_blocks.
  slot_only; apply slot_only_ccm; intros [] ?; slot_only.
Qed.
Lemma slot_only_transform_blocks k op e blocks : slot_only (transform_blocks k op e blocks : M _).
Proof. unfold transform_blocks. slot_only. Qed.
End effects.

(** ** A concrete cipher

    The first byte of a sixteen-byte key masks every byte; padding is PKCS #7;
    the modes hand the whole input to the block cipher. *)

Definition toy_pad (d : list Z) (n : Z) : list Z :=
  d ++ replicate (Z.to_nat (n - len d mod n)) (n - len d mod n).
Definition toy_unpad (b : list Z) (n : Z) : outcome unit (list Z) :=
  let c := at_ b (len b - 1) in
  let d := ztake (len b - c) b in
  if (1 <=? c) && (c <=? n) && bool_decide (b = d ++ replicate (Z.to_nat c) c) then Ok d else Err tt.
Definition toy_mask (key b : list Z) : outcome SoftwareSymmetricError (list Z) :=
  if len key =? 16 then Ok ((λ x, Z.lxor x (at_ key 0)) <$> b) else Err InvalidKeyLength.

#[export] Instance toy_symmetric : SymmetricCore := {|
  aes_ecb _ := toy_mask;
  tdes_ecb _ := toy_mask;
  tdes_cbc _ key _ := toy_mask key;
  apply_pkcs7_padding d n := Ok (toy_pad d n);
  remove_pkcs7_padding := toy_unpad;
  gcm_with S E _ _ _ input _ f := sm_map_err GcmBlockOperation (f input);
  ctr_with S E _ _ input f := sm_map_err ModeBlockOperation (f input);
  ccm_with S E _ _ _ _ input _ f := sm_map_err CcmBlockOperation (f EncryptBlocks input);
  key_wrap_with S E input e _ f := sm_map_err WrapBlockOperation (f input e);
  key_wrap_with_padding_with S E input e _ f := sm_map_err WrapBlockOperation (f input e);
|}.

Lemma toy_unpad_spec b n d : 0 < n < 256 →
  toy_unpad b n = Ok d ↔ ∃ c, 1 ≤ c ≤ n ∧ b = d ++ replicate (Z.to_nat c) c.
Proof.
  intros Hn. unfold toy_unpad. split.
  - destruct (_ && _ && _) eqn:E; [|done]. intros [= <-].
    apply andb_true_iff in E as [E Eb]. apply andb_true_iff in E as [E1 E2].
    apply bool_decide_eq_true in Eb. eexists. split; [|exact Eb]. lia.
  - intros (c & Hc & ->). set (b := d ++ replicate (Z.to_nat c) c).
    assert (len b = len d + c) as Hl by (unfold b; rewrite len_app, len_replicate; lia).
    assert (at_ b (len b - 1) = c) as ->.
    { rewrite Hl. replace (len d + c - 1) with (len d + (c - 1)) by lia. unfold b.
      rewrite at_app_r by lia. unfold at_. rewrite nth_lookup, lookup_replicate_2 by lia. done. }
    replace (len b - c) with (len d) by lia. assert (ztake (len d) b = d) as -> by (unfold b; apply ztake_app_len).
    rewrite bool_decide_eq_true_2 by done.
    assert ((1 <=? c) && (c <=? n) = true) as -> by (apply andb_true_iff; lia). done.
Qed.

#[export] Instance toy_symmetric_laws : SymmetricCoreLaws.
Proof.
  split; cbn.
  - intros _ key b o. unfold toy_mask. destruct (len key =? 16); [|done]. intros [= <-].
    unfold len. by rewrite length_fmap.
  - intros _ key a b _ _ _ _. unfold toy_mask. destruct (len key =? 16); [|done]. cbn. by rewrite fmap_app.
  - done.
  - intros b n d Hn _ _. by apply toy_unpad_spec.
Qed.

#[export] Instance toy_modes_laws : ModesLaws.
Proof. split; intros; cbn; apply preserves_map_err; auto. Qed.

#[export] Instance toy_rsa : RsaCore ToyBackend := {|
  rsa_public_new n e := Some (mkRsaPublic n e e);
  rsa_pkcs1v15_pad input _ := sm_ret input;
  rsa_oaep_pad_digest input _ _ _ := sm_ret input;
  rsa_pkcs1v15_unpad := Ok;
  rsa_oaep_unpad_digest input _ _ := Ok input;
|}.
#[export] Instance toy_projection : PublicKeyProjection := {|
  stored_public_key_material o := Ok (key_type o, material o);
|}.

(** A private AES key of a session, and padded encryption with it. *)
Definition toy_key : list Z := replicate 16 85.
Definition toy_key_object : TokenObject :=
  mkObject (Some 0) [] CKO_SECRET_KEY CKK_AES false true true true false false None (Some 1) None None (SoftwareSecret toy_key) (toy_attributes 0).
Definition toy_iv : list Z := replicate 16 7.
Definition toy_encrypting : SlotContext ToyBackend MemoryStorageProvider :=
  ((let! h := insert_object toy_key_object in
   crypt_init_in 1 (Some (mkMechanism CKM_AES_CBC_PAD (Some (byte_memory toy_iv)) 16)) h true) toy_start).2.
Definition toy_operation : CryptOperation :=
  mkCrypt (SoftwareSecret toy_key) None 0 true false CKM_AES_CBC_PAD (Some toy_iv) None None None None None None
    None [] false None.
Definition toy_session : SessionContext :=
  set_crypt_operation true (Some toy_operation) (SessionContext_new (mkBackendSession 0 6)).

Lemma toy_encrypting_open : open_in toy_encrypting 1 toy_session.
Proof. by split; vm_compute. Qed.

Lemma toy_encrypting_authorized : authorized toy_encrypting toy_operation.
Proof.
  intros _. unfold is_slot_user_logged_in. rewrite sm_bind_unfold. unfold slot_login_role, sm_ret.
  cbn iota. by do 2 f_equal.
Qed.
