(* ===== verification/CipherStreams.v ===== *)
(** * CipherStreams: multi-part encryption is single-part encryption

    For a software AES key in a mode that publishes blocks during an update,
    any division of a message into parts gives the output of one call: the
    updates of [Ciphers] keep the rest of a block and the chaining value, and
    [CipherModes] shows that the cipher splits at a block boundary. *)
From S2P Require Import Prelude Errors Mechanisms Storage YubiHsm SlotState SessionApi CryptApi Digests CipherModes Ciphers.

Section ciphers.
Context `{HashCore} `{SymmetricCore} `{PublicKeyProjection}.
Context {B P : Type} `{Slot B} `{StorageProvider P} `{Sha3, MiniCbor} `{BackedObjects}
  `{Environment B P} `{CryptBackend B} `{RsaCore B}.
Abbreviation Ctx := (SlotContext B P).
Abbreviation M := (SM Ctx Error).
Abbreviation IO := (SM (Ctx * Output) Error).

(** ** Streams of blocks *)

(** One call with an output buffer of its own: what it wrote there. *)
Definition collect (capacity : Z) (c : IO unit) : M (list Z) := λ x,
  match c (x, mkOutput false (Some capacity) []) with
  | (Ok _, (x', o)) => (Ok (out_data o), x')
  | (Err e, (x', _)) => (Err e, x')
  | (Panic, (x', _)) => (Panic, x')
  end.

Fixpoint feed (k : Z) (encrypting : bool) (capacity : Z) (parts : list (list Z)) : M (list Z) :=
  match parts with
  | [] => sm_ret []
  | part :: rest =>
      let! o := collect capacity (crypt_update_in k (Some part) (len part) encrypting) in
      let! o' := feed k encrypting capacity rest in
      sm_ret (o ++ o')
  end.

(** Update with every part, then finish: the concatenated output. *)
Definition stream (k : Z) (encrypting : bool) (capacity : Z) (parts : list (list Z)) : M (list Z) :=
  let! o := feed k encrypting capacity parts in
  let! o' := collect capacity (crypt_in k None 0 encrypting true) in
  sm_ret (o ++ o').

Definition single (k : Z) (encrypting : bool) (capacity : Z) (data : list Z) : M (list Z) :=
  collect capacity (crypt_in k (Some data) (len data) encrypting false).

(** An operation on a software AES key in a mode that publishes blocks. *)
Definition aes_operation (op : CryptOperation) (m : Z) (key v : list Z) : Prop :=
  crypt_key op = SoftwareSecret key ∧ crypt_mechanism op = m ∧ crypt_result op = None ∧
  (m ≠ CKM_AES_ECB → iv op = Some v) ∧ aes_block_mode m ∧ len v = 16.

Lemma transform_blocks_aes k op e m key v blocks (x : Ctx) :
  aes_operation op m key v → transform_blocks k op e blocks x = (block_cipher m key v blocks e, x).
Proof.
  intros (Hk & Hm & _ & Hiv & Hmode & _). unfold transform_blocks, block_cipher. rewrite Hk, Hm.
  destruct Hmode as [Em | [Em | Em]]; subst m; rewrite Em in *; cbn; [done| |];
    rewrite Hiv by done; done.
Qed.

Lemma transform_aes k op e (finalizing : bool) required m key v input (x : Ctx) :
  aes_operation op m key v →
  transform k op e finalizing required input x =
    ((if finalizing then rest_cipher m key v input e else whole_cipher m key v input e), x).
Proof.
  intros (Hk & Hm & _ & Hiv & Hmode & _). unfold transform, rest_cipher, key_transform. rewrite Hk, Hm.
  replace (if e then _ else _) with (Ok (None : option RsaPublicKey) : outcome Error _) by by destruct e.
  destruct finalizing; cbn [andb].
  - destruct (bool_decide (input = []) && one_of _ m); [done|]. cbn.
    unfold software_transform, whole_cipher. rewrite Hm.
    destruct Hmode as [Em | [Em | Em]]; subst m; rewrite Em in *; cbn; rewrite ?Hiv by done; cbn; [|done..].
    unfold guard_err, sbind, AES_BLOCK_LENGTH. cbn. by destruct (len input mod 16 =? 0).
  - cbn. unfold software_transform, whole_cipher. rewrite Hm.
    destruct Hmode as [Em | [Em | Em]]; subst m; rewrite Em in *; cbn; rewrite ?Hiv by done; cbn; [|done..].
    unfold guard_err, sbind, AES_BLOCK_LENGTH. cbn. by destruct (len input mod 16 =? 0).
Qed.

(** The operation after an update published [o] from the first [p] of [D]. *)
Definition next_operation (op : CryptOperation) (m : Z) (v D o : list Z) (p : Z) (e : bool) : CryptOperation :=
  set_crypt_multipart true (set_crypt_buffer (zdrop p D)
    (if (p =? 0) || (m =? CKM_AES_ECB) then op
     else set_chaining false (chain_of v (if e then o else ztake p D)) op)).

Lemma aes_mode_facts m : aes_block_mode m →
  block_length m = 16 ∧ des3_mechanism m = false ∧ chained_mechanism m = negb (m =? CKM_AES_ECB) ∧
  block_mechanism m = true.
Proof. by intros [-> | [-> | ->]]. Qed.

Lemma produced_bounds m n e : aes_block_mode m → 0 ≤ n →
  let p := produced_length m n e in
  0 ≤ p ≤ n ∧ p mod 16 = 0 ∧ (e = false → m = CKM_AES_CBC_PAD → 0 < p → p < n).
Proof.
  intros Hmode Hn. cbn zeta. unfold produced_length.
  destruct (aes_mode_facts m Hmode) as (-> & _).
  pose proof (Z.div_mod n 16). pose proof (Z.mod_pos_bound n 16). pose proof (Z.div_pos n 16).
  set (r := if negb e && padded_mechanism m then 1 else 0). assert (0 ≤ r ≤ 1) by (unfold r; destruct (_ && _); lia).
  split_and!; [lia|lia|apply Z.mod_mul; lia|].
  intros -> ->. assert (r = 1) by done. lia.
Qed.

Lemma publish_blocks_aes (x : Ctx) k op e m key v p out `{!SymmetricCoreLaws} :
  aes_operation op m key v → 0 < p ≤ len (crypt_buffer op) → p mod 16 = 0 →
  publish_blocks k op e p (x, out) =
    match block_cipher m key v (ztake p (crypt_buffer op)) e with
    | Ok o => (Ok (set_crypt_buffer (zdrop p (crypt_buffer op))
                     (if m =? CKM_AES_ECB then op
                      else set_chaining false (chain_of v (if e then o else ztake p (crypt_buffer op))) op)),
               (x, write_out o out))
    | Err er => (Err er, (x, out))
    | Panic => (Panic, (x, out))
    end.
Proof.
  intros Ho Hp Hm. unfold publish_blocks. destruct (Z.eqb_spec p 0); [lia|].
  rewrite sm_bind_unfold. unfold sm_fst. cbn [fst snd]. rewrite (transform_blocks_aes _ _ _ _ _ _ _ _ Ho).
  destruct (block_cipher m key v _ e) as [o| |] eqn:Eb; [|done|done].
  destruct Ho as (Hk & Hmech & _ & _ & Hmode & Hv). rewrite Hmech.
  assert (len (ztake p (crypt_buffer op)) = p) as Hlp by (rewrite len_ztake; lia).
  apply block_cipher_length in Eb; [|done|done]. rewrite Hlp in Eb.
  assert (16 ≤ p) by (pose proof (Z.div_mod p 16); lia).
  rewrite sm_bind_unfold. unfold guard_err. rewrite Eb, Z.eqb_refl. cbn [negb].
  destruct (aes_mode_facts m Hmode) as (-> & -> & -> & _).
  rewrite sm_bind_unfold. destruct (m =? CKM_AES_ECB) eqn:Ee; cbn [negb]; [done|].
  rewrite (tail_chain_of v) by (destruct e; lia). done.
Qed.

Section stream.
Context `{!SymmetricCoreLaws} (k : Z) (e : bool) (m : Z) (key : list Z) (cap : Z).

(** A session whose operation, with data left over from earlier updates, is a
    software AES operation. *)
Definition streaming (x : Ctx) (s : SessionContext) (op : CryptOperation) (v : list Z) : Prop :=
  open_in x k s ∧ crypt_operation e s = Some op ∧ aes_operation op m key v ∧ authorized x op.

Lemma update_blocks_run x s op v part :
  streaming x s op v → len (crypt_buffer op ++ part) ≤ USIZE_MAX →
  let D := crypt_buffer op ++ part in
  let p := produced_length m (len D) e in
  p ≤ cap →
  let after o := (Ok tt, (put_session k (set_crypt_operation e (Some (next_operation op m v D o p e)) s) x,
                          mkOutput false (Some p) o)) in
  let failed : outcome Error unit → outcome Error unit * (Ctx * Output) := λ r,
    (r, (put_session k (set_crypt_operation e None s) x, mkOutput false (Some p) [])) in
  crypt_update_blocks k part e (x, mkOutput false (Some cap) []) =
    if p =? 0 then after []
    else match block_cipher m key v (ztake p D) e with
         | Ok o => after o
         | Err er => failed (Err er)
         | Panic => failed Panic
         end.
Proof.
  intros (Ho & Hop & Ha & _) Hl D p Hc after failed. unfold crypt_update_blocks.
  rewrite sm_bind_unfold. unfold sm_fst at 1. cbn [fst snd]. rewrite (get_session_context_open _ _ _ Ho).
  rewrite sm_bind_unfold, Hop. cbn [ok_or sm_lift]. rewrite sm_bind_unfold.
  unfold checked_add. rewrite <- len_app. destruct (Z.ltb_spec USIZE_MAX (len (crypt_buffer op ++ part))); [lia|].
  cbn [ok_or sm_lift]. pose proof Ha as (Hk & Hmech & Hres & Hiv & Hmode & Hv). rewrite Hmech.
  fold D p. unfold output_capacity, report_length, output_null, sm_gets, sm_modify, guard_err.
  rewrite !sm_bind_unfold. cbn [fst snd out_len ok_or sm_lift set_out_len out_null].
  rewrite !sm_bind_unfold. cbn [fst snd out_len out_null set_out_len out_data].
  rewrite sm_bind_unfold. destruct (Z.ltb_spec cap p); [lia|].
  rewrite sm_bind_unfold. unfold sm_fst at 1. cbn [fst snd]. rewrite (end_crypt_open _ _ _ _ Ho).
  pose proof (produced_bounds m (len D) e Hmode (len_nonneg D)) as (Hp & Hpm & _). fold p in Hp, Hpm.
  assert (open_in (put_session k (set_crypt_operation e None s) x) k (set_crypt_operation e None s)) as Ho'
    by (apply (put_session_open x k s); [done|by rewrite backend_set_crypt]).
  rewrite sm_bind_unfold. destruct (Z.eqb_spec p 0) as [Ep|Ep].
  - unfold publish_blocks. rewrite Ep. cbn [Z.eqb sm_ret]. unfold sm_fst. cbn [fst snd].
    rewrite (update_session_open _ _ _ _ Ho'). rewrite put_session_twice, set_crypt_twice.
    unfold after, next_operation. rewrite Ep. done.
  - rewrite (publish_blocks_aes _ _ (set_crypt_buffer D op) _ m key v) by (done || cbn; lia).
    cbn [crypt_buffer set_crypt_buffer]. destruct (block_cipher m key v (ztake p D) e) as [o| |]; [|done|done].
    unfold sm_fst. cbn [fst snd]. rewrite (update_session_open _ _ _ _ Ho'), put_session_twice, set_crypt_twice.
    unfold after, next_operation. destruct (Z.eqb_spec p 0); [lia|]. cbn [orb]. by destruct (m =? CKM_AES_ECB).
Qed.

(** What one update publishes, or that it fails. *)
Lemma update_step x s op v part :
  streaming x s op v → len (crypt_buffer op ++ part) ≤ ISIZE_MAX → len (crypt_buffer op ++ part) ≤ cap →
  let D := crypt_buffer op ++ part in
  let p := produced_length m (len D) e in
  let call := collect cap (crypt_update_in k (Some part) (len part) e) x in
  let after o := (Ok o, put_session k (set_crypt_operation e (Some (next_operation op m v D o p e)) s) x) in
  if p =? 0 then call = after []
  else match block_cipher m key v (ztake p D) e with
       | Ok o => call = after o
       | _ => is_ok call.1 = false
       end.
Proof.
  intros Hs Hl Hc D p call after. pose proof Hs as (Ho & Hop & Ha & Hau).
  pose proof Ha as (_ & Hmech & Hres & _ & Hmode & _).
  destruct (aes_mode_facts m Hmode) as (_ & _ & _ & Hblock).
  pose proof (produced_bounds m (len D) e Hmode (len_nonneg D)) as (Hp & _). fold p in Hp.
  pose proof (update_blocks_run x s op v part Hs) as Hrun. cbn zeta in Hrun. fold D p in Hrun.
  assert (ISIZE_MAX ≤ USIZE_MAX) by done. fold D in Hl, Hc. specialize (Hrun ltac:(lia) ltac:(lia)).
  assert (call = collect cap (unless_too_small k e (crypt_update_blocks k part e)) x) as ->.
  { unfold call, collect, crypt_update_in. rewrite sm_bind_unfold. unfold sm_fst at 1. cbn [fst snd].
    rewrite (get_session_context_open _ _ _ Ho), sm_bind_unfold, Hop. cbn [ok_or sm_lift].
    rewrite sm_bind_unfold. unfold sm_fst at 1. cbn [fst snd]. rewrite (require_login_authorized _ _ _ _ Hau), Hres.
    rewrite sm_bind_unfold. unfold sm_fst at 1. cbn [fst snd].
    rewrite from_raw_parts_all by (unfold D in Hl; rewrite len_app in Hl; pose proof (len_nonneg (crypt_buffer op)); lia).
    cbn [or_end sm_ret]. by rewrite Hmech, Hblock. }
  unfold collect, unless_too_small. rewrite Hrun. destruct (Z.eqb_spec p 0); [done|].
  destruct (block_cipher m key v (ztake p D) e) as [o|er|]; [done| |done].
  destruct (is_too_small er); [done|]. rewrite sm_bind_unfold. unfold sm_fst. cbn [fst snd].
  rewrite (end_crypt_open _ _ _ (set_crypt_operation e None s)); [done|].
  apply (put_session_open x k s); [done|by rewrite backend_set_crypt].
Qed.

(** The length check rejects only what the cipher rejects. *)
Lemma output_length_aes op v data :
  aes_operation op m key v → len data ≤ ISIZE_MAX →
  (∃ n, crypt_output_length op (len data) e = Ok n) ∨
  (∃ er, crypt_output_length op (len data) e = Err er) ∧
    is_ok (whole_cipher m key v data e) = false ∧ is_ok (rest_cipher m key v data e) = false.
Proof.
  intros (Hk & Hm & _ & _ & Hmode & _) Hl. unfold crypt_output_length, key_output_length. rewrite Hk, Hm.
  destruct Hmode as [Em | [Em | Em]]; rewrite Em; cbn; [by eauto..|].
  unfold cbc_pad_length, checked_add. pose proof (Z.mod_pos_bound (len data) 16).
  assert (ISIZE_MAX + 16 ≤ USIZE_MAX) by done. unfold rest_cipher, whole_cipher. destruct e; cbn.
  - left. change TDES_BLOCK_LENGTH with 8. change AES_BLOCK_LENGTH with 16.
    destruct (Z.ltb_spec USIZE_MAX (len data + (16 - len data mod 16))); [lia|]. by eexists.
  - rewrite andb_false_r. unfold software_aes_cbc_pad, cbc_pad_with, is_multiple_of.
    change AES_BLOCK_LENGTH with 16. change (16 =? 0) with false. cbn [negb andb].
    assert (bool_decide (data = []) = (len data =? 0)) as ->.
    { apply Bool.eq_iff_eq_true. by rewrite Z.eqb_eq, bool_decide_eq_true, len_zero_iff. }
    destruct (len data =? 0), (len data mod 16 =? 0); cbn; by eauto.
Qed.

Lemma finish_step x s op v (finalizing : bool) ptr input :
  streaming x s op v → crypt_multipart op && negb finalizing = false →
  from_raw_parts ptr (len input) = Ok input →
  let data := crypt_buffer op ++ input in
  len data ≤ ISIZE_MAX → len data + 16 ≤ cap →
  let call := collect cap (crypt_in k ptr (len input) e finalizing) x in
  match (if finalizing then rest_cipher m key v data e else whole_cipher m key v data e) with
  | Ok o => call = (Ok o, put_session k (set_crypt_operation e None s) x)
  | _ => is_ok call.1 = false
  end.
Proof.
  intros (Ho & Hop & Ha & Hau) Hmulti Hptr data Hl Hc call. pose proof Ha as (_ & Hmech & Hres & _ & Hmode & Hv).
  set (R := if finalizing then _ else _).
  assert (call = match crypt_output_length op (len data) e with
                 | Ok _ => match R with
                           | Ok o => (Ok o, put_session k (set_crypt_operation e None s) x)
                           | Err er => (Err er, put_session k (set_crypt_operation e None s) x)
                           | Panic => (Panic, put_session k (set_crypt_operation e None s) x)
                           end
                 | Err er => (Err er, put_session k (set_crypt_operation e None s) x)
                 | Panic => (Panic, x)
                 end) as ->.
  { unfold call, collect, crypt_in, output_capacity, sm_gets. rewrite !sm_bind_unfold.
    cbn [fst snd out_len ok_or sm_lift]. rewrite sm_bind_unfold. unfold sm_fst at 1. cbn [fst snd].
    rewrite (get_session_context_open _ _ _ Ho), sm_bind_unfold, Hop. cbn [ok_or sm_lift]. rewrite Hmulti.
    rewrite sm_bind_unfold. unfold sm_fst at 1. cbn [fst snd]. rewrite (require_login_authorized _ _ _ _ Hau).
    rewrite sm_bind_unfold. unfold sm_fst at 1. cbn [fst snd]. rewrite Hptr. cbn [or_end sm_ret].
    rewrite sm_bind_unfold. unfold sm_fst at 1. cbn [fst snd]. unfold required_length. rewrite Hres.
    unfold checked_add. rewrite <- len_app. fold data. assert (ISIZE_MAX ≤ USIZE_MAX) by done.
    destruct (Z.ltb_spec USIZE_MAX (len data)); [lia|]. cbn [ok_or obind].
    destruct (crypt_output_length op (len data) e) as [n|er|]; cbn [or_end sm_ret]; [| |done].
    2:{ rewrite sm_bind_unfold, (end_crypt_open _ _ _ _ Ho). done. }
    unfold output_null, sm_gets. rewrite sm_bind_unfold. cbn [fst snd out_null].
    rewrite sm_bind_unfold. unfold sm_fst at 1, take_result. cbn [fst snd]. rewrite sm_bind_unfold.
    rewrite (end_crypt_open _ _ _ _ Ho), Hres, sm_bind_unfold. rewrite (transform_aes _ _ _ _ _ m key v _ _ Ha). fold data.
    fold R. destruct R as [o|er|] eqn:ER; [|done|done].
    assert (len o ≤ len data + 16).
    { unfold R in ER. destruct finalizing; [by eapply rest_cipher_length|by eapply whole_cipher_length]. }
    cbn [sm_ret]. destruct (Z.ltb_spec cap (len o)); [lia|]. done. }
  destruct (output_length_aes op v data Ha Hl) as [[n ->]|[[er ->] [Hw Hr]]]; [by destruct R|].
  unfold R. destruct finalizing; [by destruct (rest_cipher _ _ _ _ _)|by destruct (whole_cipher _ _ _ _ _)].
Qed.

Lemma streaming_next x s op v D o p :
  streaming x s op v → 0 ≤ p ≤ len D → p mod 16 = 0 → (p ≠ 0 → len o = p) →
  streaming (put_session k (set_crypt_operation e (Some (next_operation op m v D o p e)) s) x)
    (set_crypt_operation e (Some (next_operation op m v D o p e)) s) (next_operation op m v D o p e)
    (if p =? 0 then v else next_chaining m v (ztake p D) o e).
Proof.
  intros (Ho & Hop & (Hk & Hm & Hres & Hiv & Hmode & Hv) & Hau) Hp Hpm Hlo. split_and!.
  - apply (put_session_open x k s); [done|by rewrite backend_set_crypt].
  - apply crypt_operation_set.
  - unfold next_operation, next_chaining. destruct (Z.eqb_spec p 0) as [|Ep]; cbn [orb].
    { done. }
    destruct (Z.eqb_spec m CKM_AES_ECB) as [Em|Em]; cbn.
    { split_and!; try done. }
    split_and!; try done. apply chain_of_length; [done|]. right.
    assert (16 ≤ p) by (pose proof (Z.div_mod p 16); lia).
    specialize (Hlo Ep). destruct e; [lia|]. rewrite len_ztake; lia.
  - apply authorized_put. unfold authorized, next_operation. by destruct (_ || _).
Qed.

Lemma feed_cons part parts x :
  stream k e cap (part :: parts) x =
    match collect cap (crypt_update_in k (Some part) (len part) e) x with
    | (Ok o, x') => match stream k e cap parts x' with
                    | (Ok o', y) => (Ok (o ++ o'), y)
                    | r => r
                    end
    | (Err er, x') => (Err er, x')
    | (Panic, x') => (Panic, x')
    end.
Proof.
  unfold stream. cbn [feed]. rewrite !sm_bind_unfold.
  destruct (collect cap _ x) as [[o| |] x']; [|done|done]. rewrite !sm_bind_unfold.
  destruct (feed k e cap parts x') as [[o'| |] x'']; [|done|done]. cbn [sm_ret]. rewrite !sm_bind_unfold.
  destruct (collect cap _ x'') as [[o''| |] y]; [|done|done]. cbn. by rewrite app_assoc.
Qed.

(** Feeding the rest of a stream is one cipher call on what is left. *)
Lemma stream_spec parts x s op v out y :
  streaming x s op v → let data := crypt_buffer op ++ concat parts in
  len data ≤ ISIZE_MAX → len data + 16 ≤ cap →
  stream k e cap parts x = (Ok out, y) ↔
  rest_cipher m key v data e = Ok out ∧ y = put_session k (set_crypt_operation e None s) x.
Proof.
  revert x s op v out y. induction parts as [|part parts IH]; intros x s op v out y Hs data Hl Hc.
  { unfold data in *. cbn [concat] in *. pose proof (finish_step x s op v true None [] Hs) as Hf.
    rewrite andb_false_r in Hf. specialize (Hf eq_refl eq_refl Hl Hc). cbn zeta in Hf.
    change (len []) with 0 in Hf. unfold stream. cbn [feed]. rewrite !sm_bind_unfold. cbn [sm_ret].
    rewrite sm_bind_unfold. destruct (rest_cipher m key v (crypt_buffer op ++ []) e) as [o| |].
    - rewrite Hf. cbn. split; [by intros [= <- <-]|by intros [[= ->] ->]].
    - destruct (collect cap _ x) as [[]]; [done|..]; (split; [done|by intros [? _]]).
    - destruct (collect cap _ x) as [[]]; [done|..]; (split; [done|by intros [? _]]). }
  rewrite feed_cons. set (D := crypt_buffer op ++ part).
  assert (data = D ++ concat parts) as Hdata by (unfold data, D; cbn; by rewrite app_assoc).
  rewrite Hdata, len_app in Hl, Hc. pose proof (len_nonneg (concat parts)). pose proof (len_nonneg D).
  assert (ISIZE_MAX ≤ USIZE_MAX) by done.
  pose proof (update_step x s op v part Hs ltac:(fold D; lia) ltac:(fold D; lia)) as Hu. cbn zeta in Hu. fold D in Hu.
  set (p := produced_length m (len D) e) in *. pose proof Hs as (_ & _ & (_ & _ & _ & _ & Hmode & Hv) & _).
  pose proof (produced_bounds m (len D) e Hmode ltac:(done)) as (Hp & Hpm & Hkeep). fold p in Hp, Hpm, Hkeep.
  assert (∀ o, crypt_buffer (next_operation op m v D o p e) = zdrop p D) as Hbuf.
  { intros o. unfold next_operation. by destruct (_ || _). }
  assert (∀ o out', (p ≠ 0 → len o = p) →
    let s' := set_crypt_operation e (Some (next_operation op m v D o p e)) s in
    stream k e cap parts (put_session k s' x) = (Ok out', y) ↔
    rest_cipher m key (if p =? 0 then v else next_chaining m v (ztake p D) o e) (zdrop p D ++ concat parts) e
      = Ok out' ∧ y = put_session k (set_crypt_operation e None s) x) as Hnext.
  { intros o out' Hlo s'. pose proof (streaming_next x s op v D o p Hs Hp Hpm Hlo) as Hs'. fold s' in Hs'.
    specialize (IH _ _ _ _ out' y Hs'). cbn zeta in IH. rewrite Hbuf, len_app, len_zdrop in IH by lia.
    rewrite put_session_twice in IH. unfold s' in IH at 2. rewrite set_crypt_twice in IH. apply IH; lia. }
  clearbody data. subst data. destruct (Z.eqb_spec p 0) as [Ep|Ep].
  { specialize (Hnext [] out ltac:(done)). cbn zeta in Hnext. rewrite Hu. rewrite Ep in *.
    rewrite zdrop_0 in Hnext. rewrite <- Hnext. by destruct (stream k e cap parts _) as [[]]. }
  rewrite <- (ztake_zdrop p D) at 1. rewrite <- app_assoc.
  assert (len (ztake p D) = p) as Hlp by (rewrite len_ztake; lia).
  rewrite rest_cipher_split; [|done|done| |by rewrite Hlp|].
  3:{ intros Ee Em E. apply app_eq_nil in E as [E _]. apply len_zero_iff in E.
      rewrite len_zdrop in E by lia. specialize (Hkeep Ee Em). lia. }
  2:{ rewrite <- len_zero_iff. lia. }
  destruct (block_cipher m key v (ztake p D) e) as [o| |] eqn:Eb.
  2-3: destruct (collect cap _ x) as [[]]; [done|..]; (split; [done|by intros [(? & ? & ? & _) _]]).
  rewrite Hu. apply block_cipher_length in Eb as Hlo; [|done|done]. rewrite Hlp in Hlo. split.
  - destruct (stream k e cap parts _) as [[o'| |] y'] eqn:Es; [|done|done]. intros [= <- ->].
    apply (Hnext o o' ltac:(done)) in Es as [Er Ey]. split; [|done]. by exists o, o'.
  - intros [(o1 & o' & [= <-] & Er & ->) Ey].
    assert (stream k e cap parts (put_session k
      (set_crypt_operation e (Some (next_operation op m v D o p e)) s) x) = (Ok o', y)) as ->; [|done].
    by apply (Hnext o o' ltac:(done)).
Qed.


(** C17: with a software AES key in ECB, CBC or padded CBC mode, in either
    direction, updating with the parts of a message and finishing succeeds
    exactly when one call on the whole message does, and gives the same output
    and the same state, with the operation ended. *)
Theorem stream_equals_single parts x s op v out y :
  streaming x s op v → crypt_buffer op = [] → crypt_multipart op = false →
  concat parts ≠ [] → len (concat parts) ≤ ISIZE_MAX → len (concat parts) + 16 ≤ cap →
  stream k e cap parts x = (Ok out, y) ↔ single k e cap (concat parts) x = (Ok out, y).
Proof.
  intros Hs Hb Hm Hne Hl Hc. pose proof (stream_spec parts x s op v out y Hs) as Hspec.
  rewrite Hb in Hspec. cbn [app] in Hspec. rewrite (Hspec Hl Hc).
  pose proof (finish_step x s op v false (Some (concat parts)) (concat parts) Hs) as Hf.
  rewrite Hm, Hb in Hf. specialize (Hf eq_refl (from_raw_parts_all _ Hl) Hl Hc). cbn [app] in Hf. cbn zeta in Hf.
  unfold single, rest_cipher. rewrite bool_decide_eq_false_2 by done. cbn [andb].
  destruct (whole_cipher m key v (concat parts) e) as [o| |].
  - rewrite Hf. split; [by intros [[= ->] ->]|by intros [= -> ->]].
  - destruct (collect cap _ x) as [[]]; [done|..]; (split; [by intros [? _]|done]).
  - destruct (collect cap _ x) as [[]]; [done|..]; (split; [by intros [? _]|done]).
Qed.
End stream.
End ciphers.

(** ** Witness *)

Lemma stream_equals_single_witness :
  stream 1 true 100 [[1; 2; 3]; replicate 20 9; []; [4]] toy_encrypting
    = single 1 true 100 ([1; 2; 3] ++ replicate 20 9 ++ [4]) toy_encrypting ∧
  is_ok (single 1 true 100 ([1; 2; 3] ++ replicate 20 9 ++ [4]) toy_encrypting).1 = true.
Proof.
  split; [|by vm_compute].
  destruct (single 1 true 100 ([1; 2; 3] ++ replicate 20 9 ++ [4]) toy_encrypting) as [[out|er|] y] eqn:Es.
  - apply (stream_equals_single 1 true CKM_AES_CBC_PAD toy_key 100 [[1; 2; 3]; replicate 20 9; []; [4]]
             toy_encrypting toy_session toy_operation toy_iv out y).
    + split_and!; [exact toy_encrypting_open|done|split_and!; auto; by right; right|exact toy_encrypting_authorized].
    + done.
    + done.
    + done.
    + by vm_compute.
    + by vm_compute.
    + exact Es.
  - apply (f_equal (λ p, is_ok p.1)) in Es. vm_compute in Es. discriminate Es.
  - apply (f_equal (λ p, is_ok p.1)) in Es. vm_compute in Es. discriminate Es.
Defined.
