(* ===== verification/CipherSafety.v ===== *)
(** * CipherSafety: the life of an encryption or decryption operation

    What [Ciphers] guarantees for every key and mechanism: an operation ends
    with the call that delivers its result or fails, a too small buffer keeps
    the result for a retry, nothing is written to the caller by a call that
    fails, mechanisms that authenticate release nothing before the end, and a
    private key is not used once its user is logged out. *)
From S2P Require Import Prelude Errors Mechanisms Storage YubiHsm SlotState SessionApi CryptApi Digests CipherModes Ciphers.

Section safety.
Context `{HashCore} `{ModesLaws} `{PublicKeyProjection}.
Context {B P : Type} `{Slot B} `{StorageProvider P} `{Sha3, MiniCbor} `{BackedObjects}
  `{Environment B P} `{CryptBackend B} `{RsaCore B}.
Abbreviation Ctx := (SlotContext B P).
Abbreviation M := (SM Ctx Error).
Abbreviation IO := (SM (Ctx * Output) Error).

(** The session survives a change of the backend and code that frames it. *)
Lemma open_in_framed (x y : Ctx) k s : framed x y → open_in x k s →
  ∃ s', open_in y k s' ∧ backend s' = backend s.
Proof.
  intros (_ & Hid & Hs & _) [Ho Hb]. specialize (Hs k). rewrite Ho in Hs. cbn in Hs.
  destruct (sessions (state y) !! k) as [s'|] eqn:E; [|done]. injection Hs as Hs.
  exists s'. split; [split; [done|congruence]|done].
Qed.

Definition with_slot (b : B) (x : Ctx) : Ctx := mkContext b (state x) (handles x).

Lemma open_in_with_slot b (x : Ctx) k s : open_in x k s → open_in (with_slot b x) k s.
Proof. done. Qed.

(** The session without its operation. *)
Definition ended (k : Z) (e : bool) (s : SessionContext) (x : Ctx) : Ctx :=
  put_session k (set_crypt_operation e None s) x.

Lemma ended_open k e s (x : Ctx) : open_in x k s → open_in (ended k e s x) k (set_crypt_operation e None s).
Proof. intros Ho. apply (put_session_open x k s); [done|apply backend_set_crypt]. Qed.

(** Reconciling keeps the sessions open, with their operations or without, and
    asks the token at most to forget the lost login. *)
Lemma reconcile_open id (x : Ctx) k s : open_in x k s →
  ∃ x1 s1, reconcile_login_state id x = (Ok tt, x1) ∧ open_in x1 k s1 ∧ (s1 = s ∨ s1 = clear_operations s) ∧
    (slot x1 = slot x ∨ slot x1 = clear_lost_login (slot x)).
Proof.
  intros [Es Hb]. unfold reconcile_login_state, is_slot_logged_in. rewrite !sm_bind_unfold. unfold gets.
  rewrite !sm_bind_unfold. cbn [sm_ret slot_login_role].
  destruct (_ && _); [|by exists x, s; split_and!; auto; split]. rewrite sm_bind_unfold.
  unfold modify_slot, clear_login_state. cbn [state slot]. destruct (negb _).
  - eexists _, s. split; [reflexivity|]. split; [done|]. by auto.
  - eexists _, (clear_operations s). split; [reflexivity|]. split; [|by auto].
    split; cbn; [by rewrite lookup_fmap, Es|done].
Qed.

(** A use of a private key after the logout. *)
Lemma require_login_refuses (x : Ctx) k s op e :
  open_in x k s → crypt_requires_login op = true →
  is_slot_user_logged_in (crypt_slot_id op) x = (Ok false, x) →
  ∃ y s', require_login k op e x = (Err #CKR_USER_NOT_LOGGED_IN, y) ∧ open_in y k s' ∧
    crypt_operation e s' = None ∧ (slot y = slot x ∨ slot y = clear_lost_login (slot x)).
Proof.
  intros Ho Hr Hl. unfold require_login. rewrite Hr, sm_bind_unfold, Hl. cbn beta iota.
  rewrite sm_bind_unfold. destruct (reconcile_open (crypt_slot_id op) x k s Ho) as (x1 & s1 & -> & Ho1 & _ & Hslot).
  rewrite sm_bind_unfold, (end_crypt_open _ _ _ _ Ho1). eexists _, _. split; [done|].
  split; [by apply (ended_open k e s1 x1)|]. split; [apply crypt_operation_set|done].
Qed.

(** The end of [crypt]: copy the result out, or keep it in the operation. *)
Definition deliver (k : Z) (e : bool) (s : SessionContext) (op : CryptOperation) (r : list Z) (cap : Z)
    (o : Output) (y : Ctx) : outcome Error unit * (Ctx * Output) :=
  if cap <? len r then
    (Err #CKR_BUFFER_TOO_SMALL,
     (put_session k (set_crypt_operation e (Some (set_crypt_result (Some r) op)) s) y, set_out_len (len r) o))
  else (Ok tt, (y, set_out_len (len r) (write_out r o))).

Lemma crypt_in_run (x : Ctx) k s op e fin ptr n o cap :
  open_in x k s → crypt_operation e s = Some op → out_len o = Some cap → authorized x op →
  crypt_multipart op && negb fin = false →
  crypt_in k ptr n e fin (x, o) =
    match from_raw_parts ptr n with
    | Ok input =>
        match required_length op (len input) e with
        | Ok required =>
            if out_null o then (Ok tt, (x, set_out_len required o))
            else
              match crypt_result op with
              | Some r => deliver k e s (set_crypt_result None op) r cap o (ended k e s x)
              | None =>
                  match transform k op e fin required (crypt_buffer op ++ input) (ended k e s x) with
                  | (Ok r, y) => deliver k e s (set_crypt_buffer [] op) r cap o y
                  | (Err er, y) => (Err er, (y, o))
                  | (Panic, y) => (Panic, (y, o))
                  end
              end
        | Err er => (Err er, (ended k e s x, o))
        | Panic => (Panic, (x, o))
        end
    | Err er => (Err er, (ended k e s x, o))
    | Panic => (Panic, (x, o))
    end.
Proof.
  intros Ho Hop Hlen Hau Hm. unfold crypt_in, output_capacity, sm_gets. rewrite !sm_bind_unfold.
  cbn [fst snd]. rewrite Hlen. cbn [ok_or sm_lift]. rewrite sm_bind_unfold. unfold sm_fst at 1. cbn [fst snd].
  rewrite (get_session_context_open _ _ _ Ho), sm_bind_unfold, Hop. cbn [ok_or sm_lift]. rewrite Hm.
  rewrite sm_bind_unfold. unfold sm_fst at 1. cbn [fst snd]. rewrite (require_login_authorized _ _ _ _ Hau).
  rewrite sm_bind_unfold. unfold sm_fst at 1. cbn [fst snd].
  destruct (from_raw_parts ptr n) as [input|er|]; cbn [or_end sm_ret]; [| |done].
  2:{ rewrite sm_bind_unfold, (end_crypt_open _ _ _ _ Ho). done. }
  rewrite sm_bind_unfold. unfold sm_fst at 1. cbn [fst snd].
  destruct (required_length op (len input) e) as [required|er|]; cbn [or_end sm_ret]; [| |done].
  2:{ rewrite sm_bind_unfold, (end_crypt_open _ _ _ _ Ho). done. }
  unfold output_null, sm_gets. rewrite sm_bind_unfold. cbn [fst snd]. destruct (out_null o); [done|].
  rewrite sm_bind_unfold. unfold sm_fst at 1, take_result. cbn [fst snd]. rewrite sm_bind_unfold.
  rewrite (end_crypt_open _ _ _ _ Ho). fold (ended k e s x). unfold deliver. destruct (crypt_result op) as [r|].
  - cbn [sm_ret]. destruct (cap <? len r); [|done]. rewrite !sm_bind_unfold. cbn.
    rewrite sm_bind_unfold. unfold sm_fst. cbn [fst snd].
    rewrite (update_session_open _ _ _ _ (ended_open _ _ _ _ Ho)). by rewrite set_crypt_twice.
  - rewrite sm_bind_unfold.
    destruct (slot_only_transform k op e fin required (crypt_buffer op ++ input) (ended k e s x)) as [b Hb].
    destruct (transform k op e fin required _ _) as [[r|er|] y]; [|done|done]. cbn in Hb.
    cbn [sm_ret]. destruct (cap <? len r); [|done]. rewrite !sm_bind_unfold. cbn.
    rewrite sm_bind_unfold. unfold sm_fst. cbn [fst snd].
    assert (open_in y k (set_crypt_operation e None s)) as Hy by (subst y; by apply ended_open).
    rewrite (update_session_open _ _ _ _ Hy). by rewrite set_crypt_twice.
Qed.

(** When an operation is still there after a call: the caller asked for the
    length, or its buffer was too small and the result is kept. *)
Definition still_active (op op' : CryptOperation) (r : outcome Error unit) (o o' : Output) (cap : Z) : Prop :=
  (r = Ok tt ∧ out_null o = true ∧ op' = op) ∨
  (r = Err #CKR_BUFFER_TOO_SMALL ∧ ∃ res, crypt_result op' = Some res ∧ out_len o' = Some (len res) ∧
     cap < len res ∧ out_data o' = out_data o ∧ crypt_multipart op' = crypt_multipart op).

Lemma transform_ended_open k e s op fin required input (x : Ctx) :
  open_in x k s →
  open_in (transform k op e fin required input (ended k e s x)).2 k (set_crypt_operation e None s).
Proof.
  intros Ho. destruct (slot_only_transform k op e fin required input (ended k e s x)) as [b ->].
  by apply (ended_open k e s x).
Qed.

Lemma deliver_active (y : Ctx) k s op e r cap o :
  open_in y k (set_crypt_operation e None s) →
  ∃ s', open_in (deliver k e s op r cap o y).2.1 k s' ∧
    ∀ op', crypt_operation e s' = Some op' →
      still_active op op' (deliver k e s op r cap o y).1 o (deliver k e s op r cap o y).2.2 cap.
Proof.
  intros Hy. unfold deliver. destruct (Z.ltb_spec cap (len r)).
  - eexists. split.
    + eapply put_session_open; [exact Hy|]. by rewrite !backend_set_crypt.
    + rewrite crypt_operation_set. intros op' [= <-]. right. split; [done|]. by exists r.
  - eexists. split; [exact Hy|]. by rewrite crypt_operation_set.
Qed.

(** Either the user an operation needs is there, or the call is refused. *)
Lemma authorized_or_refused (x : Ctx) op :
  authorized x op ∨ crypt_requires_login op = true ∧ is_slot_user_logged_in (crypt_slot_id op) x = (Ok false, x).
Proof.
  unfold authorized. destruct (crypt_requires_login op); [|by left].
  assert (∃ b, is_slot_user_logged_in (crypt_slot_id op) x = (Ok b, x)) as [[] E] by (by eexists); auto.
Qed.

Lemma crypt_in_refused (x : Ctx) k s op e fin ptr n o cap :
  open_in x k s → crypt_operation e s = Some op → out_len o = Some cap →
  crypt_multipart op && negb fin = false → crypt_requires_login op = true →
  is_slot_user_logged_in (crypt_slot_id op) x = (Ok false, x) →
  ∃ y s', crypt_in k ptr n e fin (x, o) = (Err #CKR_USER_NOT_LOGGED_IN, (y, o)) ∧ open_in y k s' ∧
    crypt_operation e s' = None ∧ (slot y = slot x ∨ slot y = clear_lost_login (slot x)).
Proof.
  intros Ho Hop Hlen Hm Hr Hl. destruct (require_login_refuses x k s op e Ho Hr Hl) as (y & s' & E & Hy & Hs).
  exists y, s'. split; [|done]. unfold crypt_in, output_capacity, sm_gets. rewrite !sm_bind_unfold.
  cbn [fst snd]. rewrite Hlen. cbn [ok_or sm_lift]. rewrite sm_bind_unfold. unfold sm_fst at 1. cbn [fst snd].
  rewrite (get_session_context_open _ _ _ Ho), sm_bind_unfold, Hop. cbn [ok_or sm_lift]. rewrite Hm.
  rewrite sm_bind_unfold. unfold sm_fst at 1. cbn [fst snd]. by rewrite E.
Qed.

Lemma crypt_in_multipart (x : Ctx) k s op e fin ptr n o cap :
  open_in x k s → crypt_operation e s = Some op → out_len o = Some cap →
  crypt_multipart op && negb fin = true →
  crypt_in k ptr n e fin (x, o) = (Err #CKR_OPERATION_ACTIVE, (ended k e s x, o)).
Proof.
  intros Ho Hop Hlen Hm. unfold crypt_in, output_capacity, sm_gets. rewrite !sm_bind_unfold.
  cbn [fst snd]. rewrite Hlen. cbn [ok_or sm_lift]. rewrite sm_bind_unfold. unfold sm_fst at 1. cbn [fst snd].
  rewrite (get_session_context_open _ _ _ Ho), sm_bind_unfold, Hop. cbn [ok_or sm_lift]. rewrite Hm.
  rewrite sm_bind_unfold. unfold sm_fst at 1. cbn [fst snd]. by rewrite (end_crypt_open _ _ _ _ Ho).
Qed.

Lemma from_raw_parts_returns ptr n : from_raw_parts ptr n ≠ Panic.
Proof. unfold from_raw_parts. destruct (n =? 0), ptr; try done. by destruct (negb _). Qed.

Lemma required_length_returns op n e : required_length op n e ≠ Panic.
Proof.
  unfold required_length, crypt_output_length, ccm_wrap_length, ccm_length, gcm_length, cbc_pad_length,
    key_wrap_length, kwp_length, key_output_length, yubihsm_rsa_length, ok_or, bail.
  repeat (case_match || cbn [obind] || done).
Qed.

(** after the single-part or final call of an active operation the session
    is still open, and the operation is gone unless the call only asked for the
    length (the operation is as before) or reported a too small buffer (the
    result is kept and its length reported, nothing was written). Every other
    outcome - success, any error, a lost login - ends the operation. *)
Theorem crypt_lifecycle (x : Ctx) k s op e fin ptr n o cap :
  open_in x k s → crypt_operation e s = Some op → out_len o = Some cap →
  let '(r, (y, o')) := crypt_in k ptr n e fin (x, o) in
  ∃ s', open_in y k s' ∧ ∀ op', crypt_operation e s' = Some op' → still_active op op' r o o' cap.
Proof.
  intros Ho Hop Hlen. pose proof (ended_open k e s x Ho) as Hend.
  assert (∀ op', crypt_operation e (set_crypt_operation e None s) = Some op' → False) as Hgone
    by (intros op'; by rewrite crypt_operation_set).
  destruct (crypt_multipart op && negb fin) eqn:Hm.
  { rewrite (crypt_in_multipart _ _ _ _ _ _ _ _ _ _ Ho Hop Hlen Hm). eexists. split; [done|]. naive_solver. }
  destruct (authorized_or_refused x op) as [Hau|[Hr Hl]].
  2:{ destruct (crypt_in_refused x k s op e fin ptr n o cap Ho Hop Hlen Hm Hr Hl) as (y & s' & -> & Hy & Hs & _).
      exists s'. split; [done|]. by rewrite Hs. }
  rewrite (crypt_in_run _ _ _ _ _ _ _ _ _ _ Ho Hop Hlen Hau Hm).
  destruct (from_raw_parts ptr n) as [input|er|] eqn:Ei;
    [|eexists; split; [done|]; naive_solver|by apply from_raw_parts_returns in Ei].
  destruct (required_length op (len input) e) as [req|er|] eqn:Er;
    [|eexists; split; [done|]; naive_solver|by apply required_length_returns in Er].
  destruct (out_null o) eqn:En.
  { exists s. split; [done|]. intros op' E. left. split_and!; [done|done|congruence]. }
  destruct (crypt_result op) as [res|].
  { pose proof (deliver_active (ended k e s x) k s (set_crypt_result None op) e res cap o Hend) as (s' & Hs' & Hd).
    destruct (deliver _ _ _ _ _ _ _ _) as [r [y o']]. exists s'. split; [done|]. intros op' E.
    destruct (Hd op' E) as [(_ & Hn & _)|Hk]; [congruence|]. by right. }
  pose proof (transform_ended_open k e s op fin req (crypt_buffer op ++ input) x Ho) as Ht.
  destruct (transform k op e fin req _ _) as [[res|er|] y]; cbn [snd] in Ht;
    [|eexists; split; [done|]; naive_solver..].
  pose proof (deliver_active y k s (set_crypt_buffer [] op) e res cap o Ht) as (s' & Hs' & Hd).
  destruct (deliver _ _ _ _ _ _ _ _) as [r [y' o']]. exists s'. split; [done|]. intros op' E.
  destruct (Hd op' E) as [(_ & Hn & _)|Hk]; [congruence|]. by right.
Qed.

Lemma required_length_kept op n e res : crypt_result op = Some res → required_length op n e = Ok (len res).
Proof. unfold required_length. by intros ->. Qed.


(** C18: a private key is not used once its user is no longer logged in: a
    single-part, final or update call of an operation that needs the login
    fails, writes nothing, ends the operation and asks nothing of the token but
    to forget the lost login. *)
Theorem logged_out_key_unused (x : Ctx) k s op e ptr n o cap :
  open_in x k s → crypt_operation e s = Some op → out_len o = Some cap →
  crypt_requires_login op = true → is_slot_user_logged_in (crypt_slot_id op) x = (Ok false, x) →
  ∀ call, call = crypt_update_in k ptr n e ∨ call = crypt_in k ptr n e true ∨
          call = crypt_in k ptr n e false ∧ crypt_multipart op = false →
  ∃ y s', call (x, o) = (Err #CKR_USER_NOT_LOGGED_IN, (y, o)) ∧ open_in y k s' ∧
    crypt_operation e s' = None ∧ (slot y = slot x ∨ slot y = clear_lost_login (slot x)).
Proof.
  intros Ho Hop Hlen Hr Hl call [->|[->|[-> Hm]]].
  - destruct (require_login_refuses x k s op e Ho Hr Hl) as (y & s' & E & Hy & Hs).
    exists y, s'. split; [|done]. unfold crypt_update_in. rewrite sm_bind_unfold. unfold sm_fst at 1. cbn [fst snd].
    rewrite (get_session_context_open _ _ _ Ho), sm_bind_unfold, Hop. cbn [ok_or sm_lift].
    rewrite sm_bind_unfold. unfold sm_fst at 1. cbn [fst snd]. by rewrite E.
  - eapply crypt_in_refused; try done. apply andb_false_r.
  - eapply crypt_in_refused; try done. by rewrite Hm.
Qed.

(** *** What the caller can see *)

Lemma crypt_in_released (x : Ctx) k s op e fin ptr n o cap :
  open_in x k s → crypt_operation e s = Some op → out_len o = Some cap →
  let '(r, (_, o')) := crypt_in k ptr n e fin (x, o) in r ≠ Ok tt → out_data o' = out_data o.
Proof.
  intros Ho Hop Hlen. destruct (crypt_multipart op && negb fin) eqn:Hm.
  { by rewrite (crypt_in_multipart _ _ _ _ _ _ _ _ _ _ Ho Hop Hlen Hm). }
  destruct (authorized_or_refused x op) as [Hau|[Hr Hl]].
  2:{ by destruct (crypt_in_refused x k s op e fin ptr n o cap Ho Hop Hlen Hm Hr Hl) as (y & s' & -> & _). }
  rewrite (crypt_in_run _ _ _ _ _ _ _ _ _ _ Ho Hop Hlen Hau Hm). unfold deliver.
  destruct (from_raw_parts ptr n) as [input|er|]; [|done|done].
  destruct (required_length op (len input) e) as [req|er|]; [|done|done].
  destruct (out_null o); [done|]. destruct (crypt_result op) as [res|]; [by destruct (cap <? len res)|].
  destruct (transform k op e fin req _ _) as [[res|er|] y]; [|done|done]. by destruct (cap <? len res).
Qed.

(** Publishing writes only after the cipher succeeded. *)
Lemma publish_released (x : Ctx) k s op e p o :
  open_in x k s →
  let '(r, (y, o')) := publish_blocks k op e p (x, o) in
  open_in y k s ∧ (is_ok r = false → out_data o' = out_data o).
Proof.
  intros Ho. unfold publish_blocks. destruct (p =? 0); [done|].
  rewrite sm_bind_unfold. unfold sm_fst. cbn [fst snd].
  destruct (slot_only_transform_blocks k op e (ztake p (crypt_buffer op)) x) as [b Hb].
  destruct (transform_blocks k op e _ x) as [[t|er|] y]; cbn in Hb; subst y; [|done|done].
  rewrite sm_bind_unfold. unfold guard_err. destruct (negb _); [done|].
  rewrite sm_bind_unfold. unfold sm_lift.
  destruct (if chained_mechanism _ then _ else _) as [op'|er|]; [|done|done]. done.
Qed.

Lemma update_blocks_released (x : Ctx) k s op input e o cap :
  open_in x k s → crypt_operation e s = Some op → out_len o = Some cap →
  let '(r, (y, o')) := crypt_update_blocks k input e (x, o) in
  (∃ s', open_in y k s') ∧ (is_ok r = false → out_data o' = out_data o).
Proof.
  intros Ho Hop Hlen. unfold crypt_update_blocks. rewrite sm_bind_unfold. unfold sm_fst at 1. cbn [fst snd].
  rewrite (get_session_context_open _ _ _ Ho), sm_bind_unfold, Hop. cbn [ok_or sm_lift].
  rewrite sm_bind_unfold. destruct (checked_add _ _) as [total|]; cbn [ok_or sm_lift]; [|by split; [exists s|]].
  unfold output_capacity, report_length, output_null, sm_gets, sm_modify, guard_err.
  rewrite !sm_bind_unfold. cbn [fst snd]. rewrite Hlen. cbn [ok_or sm_lift].
  rewrite !sm_bind_unfold. cbn [fst snd set_out_len out_null].
  destruct (out_null o); [by split; [exists s|]|].
  rewrite sm_bind_unfold. destruct (cap <? _); [by split; [exists s|]|].
  rewrite sm_bind_unfold. unfold sm_fst at 1. cbn [fst snd]. rewrite (end_crypt_open _ _ _ _ Ho).
  fold (ended k e s x). pose proof (ended_open k e s x Ho) as Hend. rewrite sm_bind_unfold.
  match goal with |- context [publish_blocks k ?op' e ?p (ended k e s x, ?o')] =>
    pose proof (publish_released (ended k e s x) k _ op' e p o' Hend) as Hpub;
    destruct (publish_blocks k op' e p (ended k e s x, o')) as [[op''|er|] [y o'']] end;
    destruct Hpub as [Hy Hd]; [|by split; [eexists|]..].
  unfold sm_fst. cbn [fst snd]. rewrite (update_session_open _ _ _ _ Hy). split; [|done].
  eexists. eapply put_session_open; [exact Hy|]. by rewrite !backend_set_crypt.
Qed.

(** a call that fails writes nothing to the caller's buffer, for every key,
    mechanism and direction; and an update of a mechanism other than ECB and
    CBC - the authenticated ones among them - never writes anything, so no
    plaintext leaves before the final call has checked it. *)
Theorem failed_calls_release_nothing (x : Ctx) k s op e fin ptr n o cap :
  open_in x k s → crypt_operation e s = Some op → out_len o = Some cap →
  (let '(r, (_, o')) := crypt_in k ptr n e fin (x, o) in r ≠ Ok tt → out_data o' = out_data o) ∧
  (let '(r, (_, o')) := crypt_update_in k ptr n e (x, o) in
   r ≠ Ok tt ∨ block_mechanism (crypt_mechanism op) = false → out_data o' = out_data o).
Proof.
  intros Ho Hop Hlen. split; [by eapply crypt_in_released|]. unfold crypt_update_in.
  rewrite sm_bind_unfold. unfold sm_fst at 1. cbn [fst snd].
  rewrite (get_session_context_open _ _ _ Ho), sm_bind_unfold, Hop. cbn [ok_or sm_lift].
  rewrite sm_bind_unfold. unfold sm_fst at 1. cbn [fst snd].
  destruct (authorized_or_refused x op) as [Hau|[Hr Hl]].
  2:{ by destruct (require_login_refuses x k s op e Ho Hr Hl) as (y & s' & -> & _). }
  rewrite (require_login_authorized _ _ _ _ Hau). destruct (crypt_result op).
  { rewrite sm_bind_unfold. unfold sm_fst at 1. cbn [fst snd]. by rewrite (end_crypt_open _ _ _ _ Ho). }
  rewrite sm_bind_unfold. unfold sm_fst at 1. cbn [fst snd].
  destruct (from_raw_parts ptr n) as [input|er|]; cbn [or_end sm_ret]; [| |done].
  2:{ rewrite sm_bind_unfold. by rewrite (end_crypt_open _ _ _ _ Ho). }
  destruct (block_mechanism (crypt_mechanism op)).
  - unfold unless_too_small. pose proof (update_blocks_released x k s op input e o cap Ho Hop Hlen) as Hrel.
    destruct (crypt_update_blocks k input e (x, o)) as [[[]|er|] [y o']]; destruct Hrel as [[s' Hs'] Hd].
    + by intros [?|?].
    + destruct (is_too_small er); [intros _; by apply Hd|]. rewrite sm_bind_unfold. unfold sm_fst at 1. cbn [fst snd].
      rewrite (end_crypt_open _ _ _ _ Hs'). intros _. by apply Hd.
    + intros _. by apply Hd.
  - unfold report_length, output_null, sm_modify, sm_gets. rewrite !sm_bind_unfold. cbn [fst snd set_out_len out_null].
    destruct (out_null o); [done|]. unfold sm_fst. cbn [fst snd].
    by rewrite (update_session_open _ _ _ _ Ho).
Qed.
End safety.

(** ** Witnesses *)

Definition toy_short : Output := mkOutput false (Some 5) [].

Lemma crypt_lifecycle_witness :
  ∃ s', open_in (crypt_in 1 (Some [1; 2; 3]) 3 true false (toy_encrypting, mkOutput false (Some 16) [])).2.1 1 s' ∧
    crypt_operation true s' = None.
Proof.
  pose proof (crypt_lifecycle toy_encrypting 1 toy_session toy_operation true false (Some [1; 2; 3]) 3
    (mkOutput false (Some 16) []) 16 toy_encrypting_open eq_refl eq_refl) as Hl.
  destruct (crypt_in _ _ _ _ _ _) as [r [y o']] eqn:E. destruct Hl as (s' & Ho & Ha). exists s'. split; [done|].
  assert (r = Ok tt) as -> by (apply (f_equal fst) in E; vm_compute in E; by subst).
  destruct (crypt_operation true s') as [op'|]; [|done].
  by destruct (Ha op' eq_refl) as [(_ & ? & _)|[? _]].
Defined.

(** The state after a call with too little room. *)
Definition toy_result : list Z := (λ b, Z.lxor (Z.lxor b 7) 85) <$> ([1; 2; 3] ++ replicate 13 13).
Definition toy_kept_session : SessionContext :=
  set_crypt_operation true (Some (set_crypt_result (Some toy_result) toy_operation)) toy_session.
Definition toy_kept : SlotContext ToyBackend MemoryStorageProvider := put_session 1 toy_kept_session toy_encrypting.

Lemma toy_too_small :
  crypt_in 1 (Some [1; 2; 3]) 3 true false (toy_encrypting, toy_short)
  = (Err #CKR_BUFFER_TOO_SMALL, (toy_kept, mkOutput false (Some 16) [])).
Proof. by vm_compute. Qed.


Lemma failed_calls_release_nothing_witness :
  out_data (crypt_update_in 1 None 4 true (toy_encrypting, mkOutput false (Some 16) [])).2.2 = [].
Proof.
  destruct (failed_calls_release_nothing toy_encrypting 1 toy_session toy_operation true false None 4
    (mkOutput false (Some 16) []) 16 toy_encrypting_open eq_refl eq_refl) as [_ Hu].
  destruct (crypt_update_in 1 None 4 true _) as [r [y o']] eqn:E. cbn [snd]. apply Hu. left.
  apply (f_equal fst) in E. vm_compute in E. by subst r.
Defined.

(** The same operation once the user is gone. *)
Definition toy_logged_out : SlotContext ToyBackend MemoryStorageProvider :=
  mkContext (slot toy_encrypting) (set_role None (state toy_encrypting)) (handles toy_encrypting).

Lemma logged_out_key_unused_witness :
  ∃ y, crypt_in 1 (Some [1; 2; 3]) 3 true false (toy_logged_out, mkOutput false (Some 16) [])
       = (Err #CKR_USER_NOT_LOGGED_IN, (y, mkOutput false (Some 16) [])).
Proof.
  destruct (logged_out_key_unused toy_logged_out 1 toy_session toy_operation true (Some [1; 2; 3]) 3
    (mkOutput false (Some 16) []) 16) with (call := crypt_in (P := MemoryStorageProvider) (B := ToyBackend)
      1 (Some [1; 2; 3]) 3 true false) as (y & s' & E & _).
  - by split; vm_compute.
  - done.
  - done.
  - done.
  - done.
  - right. right. by split.
  - by exists y.
Defined.
