(* ===== verification/CipherTypes.v ===== *)
(** * CipherTypes: the operations of a session are well formed

    A well-formedness invariant of the encryption and decryption operations
    that sessions hold: the mechanism has its parameters with their lengths,
    the key fits the mechanism and the direction, a stream keeps less than a
    block back (one more block when padding must be checked at the end), and a
    session never encrypts and decrypts at once. [C_EncryptInit] and
    [C_DecryptInit] establish it and every later call keeps it. *)
From S2P Require Import Prelude Errors Mechanisms Storage YubiHsm SlotState SessionApi CryptApi Digests CipherModes Ciphers CipherSafety.

(** ** Well-formed operations *)

(** The parameter a mechanism needs is there, with the size the cipher takes. *)
Definition parameters_ok (op : CryptOperation) : Prop :=
  let m := crypt_mechanism op in
  (m = CKM_AES_CBC ∨ m = CKM_AES_CBC_PAD → ∃ v, iv op = Some v ∧ len v = 16) ∧
  (m = CKM_DES3_CBC ∨ m = CKM_DES3_CBC_PAD → ∃ v, des3_iv op = Some v ∧ len v = 8) ∧
  (m = CKM_AES_CTR → ∃ p, ctr op = Some p ∧ 1 ≤ counter_bits p ≤ 128 ∧ len (counter_block p) = 16) ∧
  (m = CKM_AES_CCM → ∃ p, ccm op = Some p ∧ 7 ≤ len (ccm_nonce p) ≤ 13 ∧
     one_of [4; 6; 8; 10; 12; 14; 16] (mac_len p) = true) ∧
  (m = CKM_AES_GCM → ∃ p, gcm op = Some p ∧ 1 ≤ len (gcm_iv p) ∧ tag_bits p ≤ 128) ∧
  (m = CKM_AES_KEY_WRAP → ∃ v, key_wrap_iv op = Some v ∧ len v = 8) ∧
  (m = CKM_AES_KEY_WRAP_KWP → ∃ v, key_wrap_iv op = Some v ∧ len v = 4) ∧
  (m = CKM_RSA_PKCS_OAEP → is_Some (oaep op)).

(** The key can do what the mechanism asks in this direction. *)
Definition key_ok {B} `{RsaCore B} (e : bool) (op : CryptOperation) : Prop :=
  let m := crypt_mechanism op in
  if rsa_mechanism m then
    if e then ∃ key, rsa_public_key_material (crypt_key op) = Ok (Some key)
    else match crypt_key op with
         | SoftwarePrivate (SigningRsa _) | YubiHsm _ _ _ _ _ | PivPrivate _ _ _ _ | OpenPgpPrivate _ _ _ _ => True
         | _ => False
         end
  else if m =? CKM_YUBICO_AES_CCM_WRAP then
    match crypt_key op with
    | YubiHsm _ object_type algorithm _ _ => object_type = YUBIHSM_WRAP_KEY ∧ is_yubihsm_ccm_wrap algorithm = true
    | _ => False
    end
  else if des3_mechanism m then match crypt_key op with SoftwareSecret _ => True | _ => False end
  else match crypt_key op with YubiHsm _ _ _ _ _ | SoftwareSecret _ => True | _ => False end.

(** What a stream may keep back. *)
Definition buffer_ok (e : bool) (op : CryptOperation) : Prop :=
  let m := crypt_mechanism op in
  (block_mechanism m = true →
     len (crypt_buffer op) < block_length m * (if negb e && padded_mechanism m then 2 else 1)) ∧
  (is_Some (crypt_result op) → crypt_buffer op = []).

Lemma empty_buffer_ok e op : crypt_buffer op = [] → buffer_ok e op.
Proof.
  intros Hb. split; [|done]. rewrite Hb. intros _. change (len []) with 0. unfold block_length.
  destruct (_ && _), (des3_mechanism _); done.
Qed.

Definition operation_ok {B} `{RsaCore B} (e : bool) (op : CryptOperation) : Prop :=
  parameters_ok op ∧ key_ok e op ∧ buffer_ok e op.

(** The memory behind a mechanism's pointers is as long as it says. *)
Definition memory_ok (m : CK_MECHANISM) : Prop :=
  ∀ mem, pParameter m = Some mem →
    ulParameterLen m ≤ len (as_bytes mem) ∧ len (cb (as_ctr mem)) = 16 ∧
    (∀ p, gcm_pIv (as_gcm mem) = Some p → gcm_ulIvLen (as_gcm mem) ≤ len p) ∧
    (∀ p, ccm_pNonce (as_ccm mem) = Some p → ccm_ulNonceLen (as_ccm mem) ≤ len p) ∧
    0 ≤ gcm_ulIvLen (as_gcm mem).

Section types.
Context `{HashCore} `{ModesLaws} `{PublicKeyProjection}.
Context {B P : Type} `{Slot B} `{StorageProvider P} `{Sha3, MiniCbor} `{BackedObjects}
  `{Environment B P} `{CryptBackend B} `{RsaCore B}.
Abbreviation Ctx := (SlotContext B P).
Abbreviation M := (SM Ctx Error).
Abbreviation IO := (SM (Ctx * Output) Error).

Definition session_ok (s : SessionContext) : Prop :=
  (∀ e op, crypt_operation e s = Some op → operation_ok e op) ∧
  (crypt_operation true s = None ∨ crypt_operation false s = None).

Definition operations_ok (x : Ctx) : Prop :=
  ∀ k s, sessions (state x) !! k = Some s → session_ok s.

(** *** Updates of a session *)

Lemma operations_ok_put k s (x : Ctx) : operations_ok x → session_ok s → operations_ok (put_session k s x).
Proof. intros Hx Hs k' s' E. cbn in E. apply lookup_insert_Some in E as [[_ <-]|[_ E]]; eauto. Qed.

Lemma operations_ok_slot b (x : Ctx) : operations_ok x → operations_ok (mkContext b (state x) (handles x)).
Proof. done. Qed.

Lemma session_ok_end e s : session_ok s → session_ok (set_crypt_operation e None s).
Proof.
  intros [Ho Hx]. split.
  - intros e' op. destruct e, e'; cbn; try done; intros E; eapply Ho; done.
  - destruct e; cbn; auto.
Qed.

(** Replacing the active operation of one direction by a well-formed one. *)
Lemma session_ok_set e s op op' :
  session_ok s → crypt_operation e s = Some op → operation_ok e op' →
  session_ok (set_crypt_operation e (Some op') s).
Proof.
  intros [Ho Hx] E Hop. split.
  - intros e' o. destruct e, e'; cbn; try (by intros [= <-]); intros E'; first [exact (Ho true o E')|exact (Ho false o E')].
  - destruct e; cbn in *; destruct Hx as [Hx|Hx]; auto; congruence.
Qed.

Lemma session_ok_start e s op :
  session_ok s → crypt_operation e s = None → crypt_operation (negb e) s = None → operation_ok e op →
  session_ok (set_crypt_operation e (Some op) s).
Proof.
  intros [Ho _] E1 E2 Hop. split.
  - intros e' o. destruct e, e'; cbn; try (by intros [= <-]); intros E'; first [exact (Ho true o E')|exact (Ho false o E')].
  - destruct e; cbn in *; auto.
Qed.

(** Code that only touches sessions through [update_session]. *)
Lemma operations_ok_update k f :
  (∀ s, session_ok s → session_ok (f s)) → preserves operations_ok (update_session k f : M unit).
Proof.
  intros Hf x Hx. unfold update_session. rewrite sm_bind_unfold.
  destruct (get_session_context k x) as [[s|er|] y] eqn:E; cbn.
  - apply get_session_context_Ok in E as (-> & Es & _). apply (operations_ok_put k (f s) x Hx). eauto.
  - pose proof (keeps_get_session_context k x) as (_ & _ & Hs & _). rewrite E in Hs. cbn in Hs.
    intros k' s'. rewrite Hs. apply Hx.
  - pose proof (keeps_get_session_context k x) as (_ & _ & Hs & _). rewrite E in Hs. cbn in Hs.
    intros k' s'. rewrite Hs. apply Hx.
Qed.

Lemma operations_ok_keeps {A} (c : M A) : keeps_core c → preserves operations_ok c.
Proof. intros Hc x Hx k s. destruct (Hc x) as (_ & _ & -> & _). apply Hx. Qed.

Lemma operations_ok_end k e : preserves operations_ok (end_crypt k e : M unit).
Proof. apply operations_ok_update. intros s. apply session_ok_end. Qed.

Lemma operations_ok_reconcile id : preserves operations_ok (reconcile_login_state id : M unit).
Proof.
  intros x Hx. unfold reconcile_login_state, is_slot_logged_in. rewrite !sm_bind_unfold. cbn.
  destruct (bool_decide _ && _); [|done]. cbn. unfold clear_login_state. cbn.
  destruct (negb _); [done|]. intros k s. cbn. rewrite lookup_fmap_Some. intros (s0 & <- & _).
  split; [by intros [] ?|by left].
Qed.

Lemma operations_ok_require_login k op e : preserves operations_ok (require_login k op e : M unit).
Proof.
  unfold require_login. destruct (crypt_requires_login op); [|by intros x].
  apply preserves_bind; [apply operations_ok_keeps; auto with core_keep|]. intros []; [by intros x|].
  apply preserves_bind; [apply operations_ok_reconcile|]. intros _.
  apply preserves_bind; [apply operations_ok_end|]. by intros _ x.
Qed.

(** *** The single-part and final call *)

Lemma operation_ok_result e op r : operation_ok e op → operation_ok e (set_crypt_result (Some r) (set_crypt_buffer [] op)).
Proof.
  intros (Hp & Hk & Hb). split_and!; [done|done|]. by apply empty_buffer_ok.
Qed.
Lemma operation_ok_result_again e op r r' :
  operation_ok e op → crypt_result op = Some r → operation_ok e (set_crypt_result (Some r') (set_crypt_result None op)).
Proof.
  intros (Hp & Hk & Hb) Hr. split_and!; [done|done|]. destruct Hb as [Hb1 Hb2]. split; [done|].
  intros _. apply Hb2. by rewrite Hr.
Qed.

Lemma deliver_ok k e s op0 op r cap o (y : Ctx) :
  operations_ok y → session_ok s → crypt_operation e s = Some op0 →
  operation_ok e (set_crypt_result (Some r) op) → operations_ok (deliver k e s op r cap o y).2.1.
Proof.
  intros Hy Hs Hop0 Hop. unfold deliver. destruct (cap <? len r); [|done]. cbn.
  apply operations_ok_put; [done|]. by eapply session_ok_set.
Qed.

Lemma operations_ok_crypt_in k ptr n e fin (x : Ctx) o :
  operations_ok x → operations_ok (crypt_in k ptr n e fin (x, o)).2.1.
Proof.
  intros Hx. destruct (out_len o) as [cap|] eqn:Hlen.
  2:{ unfold crypt_in, output_capacity, sm_gets. rewrite !sm_bind_unfold. cbn. by rewrite Hlen. }
  destruct (get_session_context k x) as [[s|er|] y] eqn:E.
  2-3: unfold crypt_in, output_capacity, sm_gets; rewrite !sm_bind_unfold; cbn [fst snd]; rewrite Hlen;
    cbn [ok_or sm_lift]; rewrite sm_bind_unfold; unfold sm_fst at 1; cbn [fst snd]; rewrite E; cbn;
    pose proof (operations_ok_keeps _ (keeps_get_session_context k) x Hx) as Hy; by rewrite E in Hy.
  apply get_session_context_Ok in E as (-> & Es & Eid).
  assert (open_in x k s) as Ho by done. pose proof (Hx k s Es) as Hs.
  destruct (crypt_operation e s) as [op|] eqn:Hop.
  2:{ unfold crypt_in, output_capacity, sm_gets. rewrite !sm_bind_unfold. cbn [fst snd]. rewrite Hlen.
      cbn [ok_or sm_lift]. rewrite sm_bind_unfold. unfold sm_fst at 1. cbn [fst snd].
      rewrite (get_session_context_open _ _ _ Ho), sm_bind_unfold, Hop. done. }
  assert (operations_ok (ended k e s x)) as Hend by (apply operations_ok_put; [done|by apply session_ok_end]).
  destruct (crypt_multipart op && negb fin) eqn:Hm.
  { by rewrite (crypt_in_multipart _ _ _ _ _ _ _ _ _ _ Ho Hop Hlen Hm). }
  destruct (authorized_or_refused x op) as [Hau|[Hr Hl]].
  2:{ destruct (require_login_refuses x k s op e Ho Hr Hl) as (y & s' & E & _).
      pose proof (operations_ok_require_login k op e x Hx) as Hy. rewrite E in Hy. cbn [snd] in Hy.
      unfold crypt_in, output_capacity, sm_gets. rewrite !sm_bind_unfold. cbn [fst snd]. rewrite Hlen.
      cbn [ok_or sm_lift]. rewrite sm_bind_unfold. unfold sm_fst at 1. cbn [fst snd].
      rewrite (get_session_context_open _ _ _ Ho), sm_bind_unfold, Hop. cbn [ok_or sm_lift]. rewrite Hm.
      rewrite sm_bind_unfold. unfold sm_fst at 1. cbn [fst snd]. by rewrite E. }
  rewrite (crypt_in_run _ _ _ _ _ _ _ _ _ _ Ho Hop Hlen Hau Hm).
  destruct (from_raw_parts ptr n) as [input|er|]; [|done|done].
  destruct (required_length op (len input) e) as [req|er|]; [|done|done].
  destruct (out_null o); [done|]. pose proof (proj1 Hs e op Hop) as Hok.
  destruct (crypt_result op) as [res|] eqn:Hres.
  { eapply deliver_ok; try done. by eapply operation_ok_result_again. }
  destruct (slot_only_transform k op e fin req (crypt_buffer op ++ input) (ended k e s x)) as [b Hb].
  destruct (transform k op e fin req _ _) as [[res|er|] y]; cbn [snd] in Hb; subst y; [|done|done].
  eapply deliver_ok; try done. by apply operation_ok_result.
Qed.

(** *** Updates *)

Lemma produced_rest m n e : block_mechanism m = true → 0 ≤ n →
  0 ≤ produced_length m n e ≤ n ∧ produced_length m n e mod block_length m = 0 ∧
  n - produced_length m n e < block_length m * (if negb e && padded_mechanism m then 2 else 1).
Proof.
  intros _ Hn. unfold produced_length. assert (0 < block_length m) as Hb by (unfold block_length; by destruct (des3_mechanism m)).
  pose proof (Z.div_mod n (block_length m)). pose proof (Z.mod_pos_bound n (block_length m)).
  pose proof (Z.div_pos n (block_length m)). split_and!; [nia| | |].
  - destruct (negb e && padded_mechanism m); nia.
  - apply Z.mod_mul. lia.
  - destruct (negb e && padded_mechanism m); nia.
Qed.

Lemma parameters_ok_chaining des3 v op :
  parameters_ok op → (des3 = false → len v = 16) → (des3 = true → len v = 8) →
  parameters_ok (set_chaining des3 v op).
Proof.
  intros (H1' & H2' & Hrest) Hv16 Hv8. unfold parameters_ok. cbn. destruct des3.
  - split; [done|]. split; [|done]. intros _. exists v. auto.
  - split; [|done]. intros _. exists v. auto.
Qed.

(** A published stream keeps its parameters, its key and the rest. *)
Lemma publish_ok k op e p (x : Ctx) o :
  parameters_ok op → key_ok e op → 0 ≤ p ≤ len (crypt_buffer op) →
  match publish_blocks k op e p (x, o) with
  | (Ok op', (y, _)) => parameters_ok op' ∧ key_ok e op' ∧ crypt_mechanism op' = crypt_mechanism op ∧
      crypt_result op' = crypt_result op ∧ len (crypt_buffer op') = len (crypt_buffer op) - p ∧
      ∃ b, y = mkContext b (state x) (handles x)
  | (_, (y, _)) => ∃ b, y = mkContext b (state x) (handles x)
  end.
Proof.
  intros Hp Hk Hl. unfold publish_blocks. destruct (Z.eqb_spec p 0).
  { split_and!; try done; [lia|]. exists (slot x). by destruct x. }
  rewrite sm_bind_unfold. unfold sm_fst. cbn [fst snd].
  destruct (slot_only_transform_blocks k op e (ztake p (crypt_buffer op)) x) as [b Hb].
  destruct (transform_blocks k op e _ x) as [[t|er|] y]; cbn in Hb; subst y; [|by eexists..].
  rewrite sm_bind_unfold. unfold guard_err. destruct (Z.eqb_spec (len t) p) as [Ht|]; cbn [negb]; [|by eexists].
  rewrite sm_bind_unfold. unfold sm_lift.
  assert (len (zdrop p (crypt_buffer op)) = len (crypt_buffer op) - p) as Hrest by (rewrite len_zdrop; lia).
  destruct (chained_mechanism (crypt_mechanism op)).
  2:{ cbn. split_and!; try done. by exists b. }
  unfold tail. set (l := if e then t else ztake p (crypt_buffer op)). set (bl := block_length (crypt_mechanism op)).
  destruct (Z.ltb_spec (len l) bl); [by eexists|]. cbn [obind]. set (c := zdrop (len l - bl) l).
  assert (len c = if des3_mechanism (crypt_mechanism op) then 8 else 16) as Hc.
  { change (len c = bl). assert (0 < bl) by (unfold bl, block_length; by destruct (des3_mechanism _)).
    unfold c. rewrite len_zdrop; lia. }
  clearbody c. generalize dependent (des3_mechanism (crypt_mechanism op)). intros d Hc.
  cbn. split_and!; [|done|done|done|done|by exists b]. apply (parameters_ok_chaining _ c op Hp).
  - by intros ->.
  - by intros ->.
Qed.

Lemma operation_ok_stream e op part p :
  operation_ok e op → crypt_result op = None → ∀ op',
  parameters_ok op' → key_ok e op' → crypt_mechanism op' = crypt_mechanism op →
  crypt_result op' = None → p = produced_length (crypt_mechanism op) (len (crypt_buffer op ++ part)) e →
  len (crypt_buffer op') = len (crypt_buffer op ++ part) - p → operation_ok e (set_crypt_multipart true op').
Proof.
  intros _ Hres op' Hp Hk Hm Hr -> Hl. split_and!; [done|done|]. unfold buffer_ok. cbn. rewrite Hm, Hr, Hl. split.
  - intros Hb. apply produced_rest; [done|apply len_nonneg].
  - by intros [? ?].
Qed.

Lemma operations_ok_update_blocks k input e (x : Ctx) o s op :
  operations_ok x → open_in x k s → crypt_operation e s = Some op → crypt_result op = None →
  block_mechanism (crypt_mechanism op) = true →
  operations_ok (crypt_update_blocks k input e (x, o)).2.1.
Proof.
  intros Hx Ho Hop Hres Hblock. pose proof (Hx k s (proj1 Ho)) as Hs. pose proof (proj1 Hs e op Hop) as Hok.
  unfold crypt_update_blocks. rewrite sm_bind_unfold. unfold sm_fst at 1. cbn [fst snd].
  rewrite (get_session_context_open _ _ _ Ho), sm_bind_unfold, Hop. cbn [ok_or sm_lift].
  rewrite sm_bind_unfold. destruct (checked_add _ _) as [total|] eqn:Ht; cbn [ok_or sm_lift]; [|done].
  assert (total = len (crypt_buffer op ++ input)) as ->.
  { unfold checked_add in Ht. destruct (_ <? _); [done|]. injection Ht as <-. by rewrite len_app. }
  unfold output_capacity, report_length, output_null, sm_gets, sm_modify, guard_err.
  rewrite !sm_bind_unfold. cbn [fst snd]. destruct (out_len o) as [cap|]; cbn [ok_or sm_lift]; [|done].
  rewrite !sm_bind_unfold. cbn [fst snd set_out_len out_null].
  destruct (out_null o); [done|]. rewrite sm_bind_unfold. destruct (cap <? _); [done|].
  rewrite sm_bind_unfold. unfold sm_fst at 1. cbn [fst snd]. rewrite (end_crypt_open _ _ _ _ Ho).
  fold (ended k e s x). pose proof (ended_open k e s x Ho) as Hend. rewrite sm_bind_unfold.
  assert (operations_ok (ended k e s x)) as Hx' by (apply operations_ok_put; [done|by apply session_ok_end]).
  set (p := produced_length _ _ _). set (op1 := set_crypt_buffer _ _).
  pose proof (produced_rest (crypt_mechanism op) (len (crypt_buffer op ++ input)) e Hblock (len_nonneg _)) as (Hp & _).
  match goal with |- context [publish_blocks k op1 e p (_, ?o')] =>
    pose proof (publish_ok k op1 e p (ended k e s x) o' ltac:(apply Hok) ltac:(apply Hok) Hp) as Hpub;
    destruct (publish_blocks k op1 e p (ended k e s x, o')) as [[op2|er|] [y o'']] end;
    [|destruct Hpub as [b ->]; done..].
  destruct Hpub as (Hp2 & Hk2 & Hm2 & Hr2 & Hl2 & b & ->). unfold sm_fst. cbn [fst snd].
  assert (open_in (mkContext b (state (ended k e s x)) (handles (ended k e s x))) k (set_crypt_operation e None s)) as Hy
    by done.
  rewrite (update_session_open _ _ _ _ Hy). cbn [snd fst]. apply operations_ok_put; [done|].
  rewrite set_crypt_twice. eapply session_ok_set; [done|done|].
  eapply (operation_ok_stream e op input p Hok Hres op2); try done. by rewrite Hr2.
Qed.

Lemma operations_ok_crypt_update_in k ptr n e (x : Ctx) o :
  operations_ok x → operations_ok (crypt_update_in k ptr n e (x, o)).2.1.
Proof.
  intros Hx. unfold crypt_update_in. rewrite sm_bind_unfold. unfold sm_fst at 1. cbn [fst snd].
  destruct (get_session_context k x) as [[s|er|] y] eqn:E.
  2-3: pose proof (operations_ok_keeps _ (keeps_get_session_context k) x Hx) as Hy; by rewrite E in Hy.
  apply get_session_context_Ok in E as (-> & Es & Eid). assert (open_in x k s) as Ho by done.
  pose proof (Hx k s Es) as Hs. rewrite sm_bind_unfold.
  destruct (crypt_operation e s) as [op|] eqn:Hop; cbn [ok_or sm_lift]; [|done].
  rewrite sm_bind_unfold. unfold sm_fst at 1. cbn [fst snd].
  destruct (authorized_or_refused x op) as [Hau|[Hr Hl]].
  2:{ destruct (require_login_refuses x k s op e Ho Hr Hl) as (y & s' & E & _).
      pose proof (operations_ok_require_login k op e x Hx) as Hy. rewrite E in Hy |- *. done. }
  assert (operations_ok (ended k e s x)) as Hend by (apply operations_ok_put; [done|by apply session_ok_end]).
  rewrite (require_login_authorized _ _ _ _ Hau). destruct (crypt_result op) eqn:Hres.
  { rewrite sm_bind_unfold. unfold sm_fst at 1. cbn [fst snd]. by rewrite (end_crypt_open _ _ _ _ Ho). }
  rewrite sm_bind_unfold. unfold sm_fst at 1. cbn [fst snd].
  destruct (from_raw_parts ptr n) as [input|er|]; cbn [or_end sm_ret]; [| |done].
  2:{ rewrite sm_bind_unfold. by rewrite (end_crypt_open _ _ _ _ Ho). }
  destruct (block_mechanism (crypt_mechanism op)) eqn:Hblock.
  - unfold unless_too_small. pose proof (operations_ok_update_blocks k input e x o s op Hx Ho Hop Hres Hblock) as Hy.
    destruct (crypt_update_blocks k input e (x, o)) as [[u|er|] [y o']]; cbn in Hy; [done| |done].
    destruct (is_too_small er); [done|]. rewrite sm_bind_unfold. unfold sm_fst at 1. cbn [fst snd].
    pose proof (operations_ok_end k e y Hy) as Hy'. by destruct (end_crypt k e y) as [[]].
  - unfold report_length, output_null, sm_modify, sm_gets. rewrite !sm_bind_unfold. cbn [fst snd set_out_len out_null].
    destruct (out_null o); [done|]. unfold sm_fst. cbn [fst snd].
    rewrite (update_session_open _ _ _ _ Ho). cbn [fst snd]. apply operations_ok_put; [done|].
    eapply session_ok_set; [done|done|]. destruct (proj1 Hs e op Hop) as (Hp & Hk & _).
    split_and!; [done|done|]. split; cbn [crypt_mechanism crypt_result set_crypt_multipart set_crypt_buffer];
      [by rewrite Hblock|rewrite Hres; by intros [? ?]].
Qed.

(** *** The first call *)

Lemma parse_cbc_iv_length m n v : memory_ok m → 0 ≤ n → parse_cbc_iv m n = Ok v → len v = n.
Proof.
  unfold parse_cbc_iv, from_raw_parts. intros Hm Hn. destruct (pParameter m) as [mem|] eqn:E; [|done].
  destruct (Hm mem E) as (Hl & _). destruct (Z.eqb_spec (ulParameterLen m) n); cbn [negb]; [|done].
  destruct (Z.eqb_spec n 0); [intros [= <-]; by subst|]. destruct (negb _); [done|]. intros [= <-].
  rewrite len_ztake; lia.
Qed.

Lemma parse_key_wrap_length m d v : memory_ok m → parse_key_wrap_iv m d = Ok v → len v = len d.
Proof.
  unfold parse_key_wrap_iv, from_raw_parts. intros Hm. pose proof (len_nonneg d).
  destruct (pParameter m) as [mem|] eqn:E; [|by destruct (_ =? _); [intros [= <-]|]].
  destruct (Hm mem E) as (Hl & _). destruct (Z.eqb_spec (ulParameterLen m) (len d)); cbn [negb]; [|done].
  destruct (Z.eqb_spec (len d) 0); [by intros [= <-]|]. destruct (negb _); [done|]. intros [= <-].
  rewrite len_ztake; lia.
Qed.

Lemma from_raw_parts_length ptr n l :
  (∀ p, ptr = Some p → n ≤ len p) → 0 ≤ n → from_raw_parts ptr n = Ok l → len l = n.
Proof.
  unfold from_raw_parts. intros Hp Hn. destruct (Z.eqb_spec n 0); [intros [= <-]; by subst|].
  destruct ptr as [p|]; [|done]. destruct (negb _); [done|]. intros [= <-]. specialize (Hp p eq_refl).
  rewrite len_ztake; lia.
Qed.

Lemma parse_gcm_ok m p : memory_ok m → parse_gcm_parameters m = Ok p → 1 ≤ len (gcm_iv p) ∧ tag_bits p ≤ 128.
Proof.
  unfold parse_gcm_parameters. intros Hm. destruct (pParameter m) as [mem|] eqn:E; [|done].
  destruct (Hm mem E) as (_ & _ & Hiv & _ & Hn). destruct (negb _); [done|].
  destruct (_ || _ || _ || _ || _ || _) eqn:Eg; [done|].
  repeat (apply orb_false_iff in Eg as [Eg ?]).
  intros (v & Hv & Hr)%bind_Ok. apply bind_Ok in Hr as (a & _ & [= <-]). cbn.
  apply from_raw_parts_length in Hv; [|done|done]. lia.
Qed.

Lemma parse_ccm_ok m p : memory_ok m → parse_ccm_parameters m = Ok p →
  7 ≤ len (ccm_nonce p) ≤ 13 ∧ one_of [4; 6; 8; 10; 12; 14; 16] (mac_len p) = true.
Proof.
  unfold parse_ccm_parameters. intros Hm. destruct (pParameter m) as [mem|] eqn:E; [|done].
  destruct (Hm mem E) as (_ & _ & _ & Hnonce & _). destruct (negb (_ =? _)); [done|].
  destruct (_ || _ || _ || _ || _) eqn:Eg; [done|].
  repeat (apply orb_false_iff in Eg as [Eg ?]). apply negb_false_iff, andb_true_iff in Eg as [E7 E13].
  cbn zeta. destruct ((15 - _ <? 8) && _); [done|].
  intros (v & Hv & Hr)%bind_Ok. apply bind_Ok in Hr as (a & _ & [= <-]). cbn [ccm_nonce mac_len].
  apply from_raw_parts_length in Hv; [|done|lia]. split; [lia|]. by apply negb_false_iff.
Qed.

Lemma parse_ctr_ok m p : memory_ok m → parse_ctr_parameters m = Ok p →
  1 ≤ counter_bits p ≤ 128 ∧ len (counter_block p) = 16.
Proof.
  unfold parse_ctr_parameters. intros Hm. destruct (pParameter m) as [mem|] eqn:E; [|done].
  destruct (Hm mem E) as (_ & Hcb & _). destruct (negb (_ =? _)); [done|].
  destruct (negb (_ && _)) eqn:Eb; [done|]. apply negb_false_iff, andb_true_iff in Eb. intros [= <-]. cbn. lia.
Qed.

(** The operation that an accepted mechanism and key start. *)
Lemma new_operation_parameters_ok id m object key des3 params :
  memory_ok m → des3_parameter m = Ok des3 → mechanism_parameters m = Ok params →
  parameters_ok (new_crypt_operation id m object key des3 params).
Proof.
  intros Hm Hd Hp. destruct params as [[[[[pi pc] pm] pg] pw] po].
  unfold parameters_ok, new_crypt_operation. cbn [crypt_mechanism iv des3_iv ctr ccm gcm key_wrap_iv oaep].
  unfold des3_parameter in Hd. unfold mechanism_parameters in Hp. split_and!; intros E.
  - destruct E as [E|E]; rewrite E in Hp; cbn in Hp; apply bind_Ok in Hp as (v & Hv & [= <- <- <- <- <- <-]);
      exists v; (split; [done|]); by eapply parse_cbc_iv_length.
  - destruct E as [E|E]; rewrite E in Hd; cbn in Hd; destruct (parse_cbc_iv m 8) as [v| |] eqn:Ev; try done;
      cbn in Hd; injection Hd as <-; exists v; (split; [done|]); by eapply parse_cbc_iv_length.
  - rewrite E in Hp. cbn in Hp. apply bind_Ok in Hp as (p & Hv & [= <- <- <- <- <- <-]). exists p.
    split; [done|]. by apply parse_ctr_ok in Hv.
  - rewrite E in Hp. cbn in Hp. apply bind_Ok in Hp as (p & Hv & [= <- <- <- <- <- <-]). exists p.
    split; [done|]. by apply parse_ccm_ok in Hv.
  - rewrite E in Hp. cbn in Hp. apply bind_Ok in Hp as (p & Hv & [= <- <- <- <- <- <-]). exists p.
    split; [done|]. by apply parse_gcm_ok in Hv.
  - rewrite E in Hp. cbn in Hp. apply bind_Ok in Hp as (v & Hv & [= <- <- <- <- <- <-]). exists v.
    split; [done|]. by apply parse_key_wrap_length in Hv.
  - rewrite E in Hp. cbn in Hp. apply bind_Ok in Hp as (v & Hv & [= <- <- <- <- <- <-]). exists v.
    split; [done|]. by apply parse_key_wrap_length in Hv.
  - rewrite E in Hp. cbn in Hp. apply bind_Ok in Hp as (v & Hv & [= <- <- <- <- <- <-]). by eexists.
Qed.

Lemma new_operation_key_ok id m object key des3 params e :
  (key = if e && rsa_mechanism (mechanism m) then key else material object) →
  valid_key (mechanism m) object key e = Ok true →
  key_ok e (new_crypt_operation id m object key des3 params).
Proof.
  intros Hkey Hv. destruct params as [[[[[pi pc] pm] pg] pw] po]. unfold key_ok, new_crypt_operation.
  cbn [crypt_mechanism crypt_key]. unfold valid_key in Hv. destruct (rsa_mechanism (mechanism m)).
  - destruct (key_type object =? CKK_RSA); cbn [negb] in Hv; [|done]. destruct e.
    + apply bind_Ok in Hv as (r & Hr & [= Hb]). apply bool_decide_eq_true in Hb as [k' ->]. by exists k'.
    + cbn in Hkey. subst key. destruct (material object); try done; case_match; done.
  - rewrite andb_false_r in Hkey. subst key. destruct (mechanism m =? CKM_YUBICO_AES_CCM_WRAP).
    + injection Hv as Hv. apply andb_true_iff in Hv as [_ Hv]. destruct (material object); try done.
      apply andb_true_iff in Hv as [Ho Ha]. split; [lia|done].
    + destruct (des3_mechanism (mechanism m)); injection Hv as Hv; apply andb_true_iff in Hv as [_ Hv];
        by destruct (material object).
Qed.

Lemma keeps_require_slot_mechanism id m operation : keeps_core (require_slot_mechanism id m operation : M _).
Proof. unfold require_slot_mechanism. keep_core. Qed.
#[local] Hint Resolve keeps_require_slot_mechanism : core_keep.

(** The sessions are well formed and this one is idle. *)
Definition idle (k : Z) (s : SessionContext) (x : Ctx) : Prop :=
  operations_ok x ∧ sessions (state x) !! k = Some s.
Lemma idle_keeps {A} k s (c : M A) : keeps_core c → preserves (idle k s) c.
Proof.
  intros Hc x [Hx Es]. split; [by apply operations_ok_keeps|]. destruct (Hc x) as (_ & _ & -> & _). done.
Qed.

(** A step that only reads, before the rest starts the operation. *)
Lemma idle_then {A D} k s (c : M A) (f : A → M D) :
  keeps_core c →
  (∀ a, (∃ z, (c z).1 = Ok a) → ∀ y, idle k s y → operations_ok (f a y).2) →
  ∀ x, idle k s x → operations_ok (sbind c f x).2.
Proof.
  intros Hc Hf x Hx. rewrite sm_bind_unfold. pose proof (idle_keeps k s c Hc x Hx) as Hy.
  destruct (c x) as [[a|er|] y] eqn:E; cbn [snd] in *; [|apply Hy..]. apply Hf; [|done]. exists x. by rewrite E.
Qed.

(** Setting the operation of a session that had none. *)
Lemma start_ok k s e op (y : Ctx) :
  crypt_operation e s = None → crypt_operation (negb e) s = None → operation_ok e op → idle k s y →
  operations_ok (update_session k (set_crypt_operation e (Some op)) y).2.
Proof.
  intros H1' H2' Hop [Hy Es]. unfold update_session. rewrite sm_bind_unfold.
  pose proof (operations_ok_keeps _ (keeps_get_session_context k) y Hy) as Hk.
  destruct (get_session_context k y) as [[s'|er|] z] eqn:E; cbn [snd] in *; [|done|done].
  apply get_session_context_Ok in E as (-> & Es' & _). rewrite Es in Es'. injection Es' as <-.
  apply (operations_ok_put k _ y Hy). by apply session_ok_start; [eapply Hy|..].
Qed.

Lemma operations_ok_crypt_init k m key e (x : Ctx) :
  (∀ m', m = Some m' → memory_ok m') → operations_ok x → operations_ok (crypt_init_in k m key e x).2.
Proof.
  intros Hm. revert x. apply (preserves_bind operations_ok); [apply operations_ok_keeps; auto with core_keep|].
  intros [[id fl] logged] y Hy. rewrite sm_bind_unfold.
  pose proof (operations_ok_keeps _ (keeps_get_session_context k) y Hy) as Hk.
  destruct (get_session_context k y) as [[s|er|] z] eqn:E; cbn [snd] in *; [|done|done].
  apply get_session_context_Ok in E as (-> & Es & _). destruct m as [m|].
  2:{ apply (preserves_bind operations_ok); [apply operations_ok_end|intros _; apply preserves_lift|done]. }
  specialize (Hm m eq_refl). unfold guard_err at 1. rewrite sm_bind_unfold.
  destruct (bool_decide (is_Some (crypt_operation e s)) || _) eqn:Eb; [done|].
  apply orb_false_iff in Eb as [E1%bool_decide_eq_false%eq_None_not_Some E2%bool_decide_eq_false%eq_None_not_Some].
  cbn [sm_ret]. assert (idle k s y) as Hi by done. clear Hk Hy Es. revert y Hi.
  apply idle_then; [auto with core_keep|]. intros _ _.
  apply idle_then; [auto with core_keep|]. intros des3 [? Hdes3].
  apply idle_then; [auto with core_keep|]. intros params [? Hparams].
  apply idle_then; [auto with core_keep|]. intros found _.
  apply idle_then; [auto with core_keep|]. intros object _.
  do 4 (apply idle_then; [auto with core_keep|]; intros _ _).
  apply idle_then; [auto with core_keep|]. intros operation_key [? Hkey].
  apply idle_then; [auto with core_keep|]. intros valid [? Hvalid].
  apply idle_then; [auto with core_keep|]. intros u [? Hg].
  destruct valid; [|done]. intros y Hi. apply (start_ok k s e _ y E1 E2); [|done].
  split_and!; [by apply new_operation_parameters_ok|apply new_operation_key_ok; [|done]|].
  - cbn in Hkey. destruct (e && _); [done|]. by injection Hkey.
  - by destruct params as [[[[[? ?] ?] ?] ?] ?]; apply empty_buffer_ok.
Qed.

(** C20: well-formedness of the cryptographic operations is kept by every call
    that touches them. When each session's operations have the parameters of
    their mechanism with the right lengths, a key that fits mechanism and
    direction, less than a block (two when padding is checked) kept back, nothing
    kept back beside a computed result, and no session encrypts and decrypts at
    once, the same holds after [crypt_init] with any mechanism whose memory is as
    long as it says, after [crypt] and after [crypt_update], whatever the
    arguments and whatever the call returns. *)
Theorem crypt_calls_keep_operations_ok (x : Ctx) :
  operations_ok x →
  (∀ k m key e, (∀ m', m = Some m' → memory_ok m') → operations_ok (crypt_init_in k m key e x).2) ∧
  (∀ k ptr n e fin o, operations_ok (crypt_in k ptr n e fin (x, o)).2.1) ∧
  (∀ k ptr n e o, operations_ok (crypt_update_in k ptr n e (x, o)).2.1).
Proof.
  intros Hx. split_and!; intros.
  - by apply operations_ok_crypt_init.
  - by apply operations_ok_crypt_in.
  - by apply operations_ok_crypt_update_in.
Qed.
End types.

(** A padded encryption is started with the key of [toy_encrypting], and three
    bytes are handed over. *)
Definition toy_with_key : SlotContext ToyBackend MemoryStorageProvider := (insert_object toy_key_object toy_start).2.
Definition toy_cbc_pad : CK_MECHANISM := mkMechanism CKM_AES_CBC_PAD
  (Some (byte_memory toy_iv)) 16.

Lemma crypt_calls_keep_operations_ok_witness :
  ∃ h x, crypt_init_in 1 (Some toy_cbc_pad) h true toy_with_key = (Ok tt, x) ∧ operations_ok x ∧
    operations_ok (crypt_update_in 1 (Some [1; 2; 3]) 3 true (x, mkOutput false (Some 16) [])).2.1.
Proof.
  assert (operations_ok toy_with_key) as Hs.
  { intros k s Es. assert (sessions (state toy_with_key) = {[1 := SessionContext_new (mkBackendSession 0 6)]}) as E
      by (by vm_compute). rewrite E in Es. apply lookup_singleton_Some in Es as [_ <-].
    split; [by intros [] ?|by left]. }
  exists 1, toy_encrypting. assert (crypt_init_in 1 (Some toy_cbc_pad) 1 true toy_with_key = (Ok tt, toy_encrypting)) as E
    by (by vm_compute). split; [done|].
  assert (operations_ok toy_encrypting) as He.
  { apply (f_equal snd) in E. cbn [snd] in E. rewrite <-E.
    apply (crypt_calls_keep_operations_ok toy_with_key Hs). intros m' [= <-] mem [= <-].
    by split_and!. }
  split; [done|]. by apply (crypt_calls_keep_operations_ok toy_encrypting He).
Defined.
