(* ===== verification/SignatureModes.v ===== *)
(** * SignatureModes: parameters, lengths and primitives of signatures

    The code of [src/src/api/crypt/sign.rs], [verify.rs], [hash_ml_dsa.rs],
    [signature_hash.rs] and [shared.rs] that does not touch a session: the
    parsers of mechanism parameters, the length of a signature, the choice of
    the primitive for a software key, and the checks before a signature is
    verified.

    The primitives are those of [software-key-core] and are the class
    [SignatureCore]; [SignatureLaws] says that verification accepts what signing
    produced, and how long a signature is. Signing may draw random bytes, so it
    runs in the environment [B]. *)
From S2P Require Import Prelude Errors Mechanisms Storage YubiHsm SlotState SessionApi CryptApi Digests CipherModes Ciphers.

(** ** Primitives *)

Inductive SoftwareSigningError : Type :=
| SignAlgorithmMismatch | SignInvalidPrivateKey | SignRandomnessUnavailable | SignInvalidPublicKey
| SignInvalidSignature | SigningFailed.
Inductive MlDsaError : Type :=
| MlDsaInvalidPublicKey | MlDsaInvalidSeedLength | MlDsaInvalidExpandedPrivateKey | MlDsaInvalidPrivateKey
| MlDsaInvalidContext | MlDsaInvalidSignature | MlDsaRandomnessUnavailable | MlDsaSigningFailed.
Inductive MlDsaRandomization : Type := Deterministic | Randomized | HedgePreferred.

(** [digest::hmac], [software_symmetric], [rsa_signing], [software_signing] and
    [post_quantum] of [software-key-core]. A prehash is named by its number. *)
Class SignatureCore (B : Type) : Type := {
  hmac : MessageDigest → list Z → list Z → outcome unit (list Z);
  aes_cmac : list Z → list Z → outcome unit (list Z);
  cmac_with : ∀ S E, Z → list Z → (list Z → SM S E (list Z)) → SM S (BlockCipherModeError E) (list Z);
  digest_info : MessageDigest → list Z → outcome unit (list Z);
  pkcs1v15_encoded_payload : Z → list Z → outcome unit (list Z);
  pss_encoded_digest : Z → MessageDigest → MessageDigest → Z → list Z → SM B RsaConstructionError (list Z);
  ecdsa_signature_from_der : list Z → Z → outcome unit (list Z);
  sign_rsa_pss_digest : RsaPrivateKey → MessageDigest → MessageDigest → Z → list Z →
    SM B SoftwareSigningError (list Z);
  sign_rsa_pkcs1v15_digest : RsaPrivateKey → MessageDigest → list Z → SM B SoftwareSigningError (list Z);
  sign_rsa_pkcs1v15_payload : RsaPrivateKey → list Z → SM B SoftwareSigningError (list Z);
  sign_rsa_raw : RsaPrivateKey → list Z → SM B SoftwareSigningError (list Z);
  sign_message : EdwardsCurve → list Z → list Z → SM B SoftwareSigningError (list Z);
  sign_prehash : EcCurve → list Z → list Z → SM B SoftwareSigningError (list Z);
  ml_dsa_sign : MlDsaParameterSet → list Z → list Z → list Z → MlDsaRandomization → SM B MlDsaError (list Z);
  ml_dsa_sign_prehash : MlDsaParameterSet → list Z → list Z → list Z → Z → MlDsaRandomization →
    SM B MlDsaError (list Z);
  rsa_verify_raw : RsaPublicKey → list Z → list Z → outcome RsaConstructionError unit;
  rsa_verify_pkcs1v15_payload : RsaPublicKey → list Z → list Z → outcome RsaConstructionError unit;
  rsa_verify_pkcs1v15_digest : RsaPublicKey → MessageDigest → list Z → list Z → outcome RsaConstructionError unit;
  rsa_verify_pss_digest : RsaPublicKey → MessageDigest → MessageDigest → Z → list Z → list Z →
    outcome RsaConstructionError unit;
  verify_prehash : EcCurve → list Z → list Z → list Z → outcome SoftwareSigningError unit;
  verify_message : EdwardsCurve → list Z → list Z → list Z → outcome SoftwareSigningError unit;
  verify_ml_dsa : MlDsaParameterSet → list Z → list Z → list Z → list Z → outcome MlDsaError unit;
  verify_ml_dsa_prehash : MlDsaParameterSet → list Z → list Z → list Z → list Z → Z → outcome MlDsaError unit;
  edwards_signature_length : EdwardsCurve → Z;
  edwards_public_key_length : EdwardsCurve → Z;
  ml_dsa_signature_length : MlDsaParameterSet → Z;
  ml_dsa_public_key_length : MlDsaParameterSet → Z;
  ec_public_key : EcCurve → list Z → list Z;
  edwards_public_key : EdwardsCurve → list Z → list Z;
  ml_dsa_public_key : MlDsaParameterSet → list Z → list Z;
  rsa_public_parts : RsaPrivateKey → list Z * list Z;
  prehash_from_id : Z → option Z;
  prehash_digest_length : Z → Z;
  prehash_id : Z → Z;
  prehash_context : Z → HashContext;
  prehash_update : HashContext → list Z → HashContext;
  prehash_finalize : HashContext → list Z;
}.

(** ** Numbers and tables *)

Definition CKH_HEDGE_PREFERRED : Z := 0.
Definition CKH_HEDGE_REQUIRED : Z := 1.
Definition CKH_DETERMINISTIC_REQUIRED : Z := 2.
Definition CKP_ML_DSA_44 : Z := 1.
Definition CKP_ML_DSA_65 : Z := 2.
Definition CKP_ML_DSA_87 : Z := 3.
Definition AES_CMAC_LENGTH : Z := 16.
Definition U16_MAX : Z := 65535.

Definition YUBIHSM_ALGO_EC_P256 : Z := 12.
Definition YUBIHSM_ALGO_EC_P384 : Z := 13.
Definition YUBIHSM_ALGO_EC_P521 : Z := 14.
Definition YUBIHSM_ALGO_EC_K256 : Z := 15.
Definition YUBIHSM_ALGO_EC_BP256 : Z := 16.
Definition YUBIHSM_ALGO_EC_BP384 : Z := 17.
Definition YUBIHSM_ALGO_EC_BP512 : Z := 18.
Definition YUBIHSM_ALGO_HMAC_SHA1 : Z := 19.
Definition YUBIHSM_ALGO_HMAC_SHA256 : Z := 20.
Definition YUBIHSM_ALGO_HMAC_SHA384 : Z := 21.
Definition YUBIHSM_ALGO_HMAC_SHA512 : Z := 22.
Definition YUBIHSM_ALGO_MGF1_SHA1 : Z := 32.
Definition YUBIHSM_ALGO_MGF1_SHA256 : Z := 33.
Definition YUBIHSM_ALGO_MGF1_SHA384 : Z := 34.
Definition YUBIHSM_ALGO_MGF1_SHA512 : Z := 35.
Definition YUBIHSM_ALGO_ED25519 : Z := 46.
Definition YUBIHSM_ALGO_EC_P224 : Z := 47.
Definition YUBIHSM_ALGO_AES128 : Z := 50.
Definition YUBIHSM_ALGO_AES192 : Z := 51.
Definition YUBIHSM_ALGO_AES256 : Z := 52.
Definition YUBIHSM_ALGO_ED448 : Z := 58.
Definition YUBIHSM_ALGO_ML_DSA_44 : Z := 59.
Definition YUBIHSM_ALGO_ML_DSA_65 : Z := 60.
Definition YUBIHSM_ALGO_ML_DSA_87 : Z := 61.

Definition is_yubihsm_ec (algorithm : Z) : bool :=
  one_of [YUBIHSM_ALGO_EC_P224; YUBIHSM_ALGO_EC_P256; YUBIHSM_ALGO_EC_P384; YUBIHSM_ALGO_EC_P521;
          YUBIHSM_ALGO_EC_K256; YUBIHSM_ALGO_EC_BP256; YUBIHSM_ALGO_EC_BP384; YUBIHSM_ALGO_EC_BP512] algorithm.
Definition is_yubihsm_edwards (algorithm : Z) : bool :=
  one_of [YUBIHSM_ALGO_ED25519; YUBIHSM_ALGO_ED448] algorithm.
Definition yubihsm_ml_dsa (algorithm : Z) : option MlDsaParameterSet :=
  if algorithm =? YUBIHSM_ALGO_ML_DSA_44 then Some SetMlDsa44
  else if algorithm =? YUBIHSM_ALGO_ML_DSA_65 then Some SetMlDsa65
  else if algorithm =? YUBIHSM_ALGO_ML_DSA_87 then Some SetMlDsa87
  else None.
Definition yubihsm_ec_coordinate_length (algorithm : Z) : outcome Error Z :=
  if algorithm =? YUBIHSM_ALGO_EC_P224 then Ok 28
  else if one_of [YUBIHSM_ALGO_EC_P256; YUBIHSM_ALGO_EC_K256; YUBIHSM_ALGO_EC_BP256] algorithm then Ok 32
  else if one_of [YUBIHSM_ALGO_EC_P384; YUBIHSM_ALGO_EC_BP384] algorithm then Ok 48
  else if algorithm =? YUBIHSM_ALGO_EC_BP512 then Ok 64
  else if algorithm =? YUBIHSM_ALGO_EC_P521 then Ok 66
  else Err #CKR_KEY_TYPE_INCONSISTENT.
(** The key type, the device's algorithm and the length of an HMAC. *)
Definition yubihsm_hmac_mechanism (m : Z) : option (Z * Z * Z) :=
  if m =? CKM_SHA_1_HMAC then Some (CKK_SHA_1_HMAC, YUBIHSM_ALGO_HMAC_SHA1, 20)
  else if m =? CKM_SHA256_HMAC then Some (CKK_SHA256_HMAC, YUBIHSM_ALGO_HMAC_SHA256, 32)
  else if m =? CKM_SHA384_HMAC then Some (CKK_SHA384_HMAC, YUBIHSM_ALGO_HMAC_SHA384, 48)
  else if m =? CKM_SHA512_HMAC then Some (CKK_SHA512_HMAC, YUBIHSM_ALGO_HMAC_SHA512, 64)
  else None.
Definition is_hmac_key_type (key_type : Z) : bool :=
  one_of [CKK_SHA_1_HMAC; CKK_SHA224_HMAC; CKK_SHA256_HMAC; CKK_SHA384_HMAC; CKK_SHA512_HMAC] key_type.

Definition pgp_coordinate_length (c : OpenPgpCurve) : option Z :=
  match c with
  | PgpP256 | PgpBrainpoolP256 | PgpSecp256k1 => Some 32
  | PgpP384 | PgpBrainpoolP384 => Some 48
  | PgpP521 => Some 66
  | PgpBrainpoolP512 => Some 64
  | PgpCurveEd25519 | PgpCurveX25519 => None
  end.
Definition openpgp_ec_coordinate_length (a : OpenPgpAlgorithm) : option Z :=
  match a with
  | PgpEcdsa curve | PgpEcdh curve => pgp_coordinate_length curve
  | PgpEd25519 => Some 32
  | PgpRsa _ => None
  end.
Definition openpgp_sign_mechanism_supported (a : OpenPgpAlgorithm) (m : Z) : bool :=
  match a with
  | PgpRsa _ => one_of [CKM_RSA_PKCS; CKM_SHA256_RSA_PKCS; CKM_SHA384_RSA_PKCS; CKM_SHA512_RSA_PKCS] m
  | PgpEcdsa _ => one_of [CKM_ECDSA; CKM_ECDSA_SHA256; CKM_ECDSA_SHA384; CKM_ECDSA_SHA512] m
  | PgpEd25519 => m =? CKM_EDDSA
  | PgpEcdh _ => false
  end.
Definition piv_sign_mechanism_supported (a : PivAlgorithm) (m : Z) : bool :=
  match a with
  | Rsa1024 | Rsa2048 | Rsa3072 | Rsa4096 =>
      one_of [CKM_RSA_X_509; CKM_RSA_PKCS; CKM_RSA_PKCS_PSS; CKM_SHA1_RSA_PKCS; CKM_SHA256_RSA_PKCS;
              CKM_SHA384_RSA_PKCS; CKM_SHA512_RSA_PKCS; CKM_SHA224_RSA_PKCS; CKM_SHA3_224_RSA_PKCS;
              CKM_SHA3_256_RSA_PKCS; CKM_SHA3_384_RSA_PKCS; CKM_SHA3_512_RSA_PKCS; CKM_SHA1_RSA_PKCS_PSS;
              CKM_SHA256_RSA_PKCS_PSS; CKM_SHA384_RSA_PKCS_PSS; CKM_SHA512_RSA_PKCS_PSS;
              CKM_SHA224_RSA_PKCS_PSS; CKM_SHA3_224_RSA_PKCS_PSS; CKM_SHA3_256_RSA_PKCS_PSS;
              CKM_SHA3_384_RSA_PKCS_PSS; CKM_SHA3_512_RSA_PKCS_PSS] m
  | EccP256 | EccP384 =>
      one_of [CKM_ECDSA; CKM_ECDSA_SHA1; CKM_ECDSA_SHA224; CKM_ECDSA_SHA256; CKM_ECDSA_SHA384;
              CKM_ECDSA_SHA512; CKM_ECDSA_SHA3_224; CKM_ECDSA_SHA3_256; CKM_ECDSA_SHA3_384;
              CKM_ECDSA_SHA3_512] m
  | Ed25519 => m =? CKM_EDDSA
  | MlDsa44 | MlDsa65 | MlDsa87 => is_ml_dsa_mechanism m
  | X25519 | MlKem512 | MlKem768 | MlKem1024 | HybridMlKem768P256 | HybridMlKem768X25519
  | HybridMlKem1024P384 => false
  end.

(** ** Curves *)

(** [ec_parameters(curve)?.coordinate_length] *)
Definition coordinate_length (c : EcCurve) : Z :=
  match c with
  | P224 => 28
  | P256 | Secp256k1 | BrainpoolP256 => 32
  | P384 | BrainpoolP384 => 48
  | P521 => 66
  | BrainpoolP512 => 64
  end.
Definition ec_curve_parameters (c : EcCurve) : list Z :=
  match c with
  | P224 => [0x06; 0x05; 0x2b; 0x81; 0x04; 0x00; 0x21]
  | P256 => [0x06; 0x08; 0x2a; 0x86; 0x48; 0xce; 0x3d; 0x03; 0x01; 0x07]
  | P384 => [0x06; 0x05; 0x2b; 0x81; 0x04; 0x00; 0x22]
  | P521 => [0x06; 0x05; 0x2b; 0x81; 0x04; 0x00; 0x23]
  | Secp256k1 => [0x06; 0x05; 0x2b; 0x81; 0x04; 0x00; 0x0a]
  | BrainpoolP256 => [0x06; 0x09; 0x2b; 0x24; 0x03; 0x03; 0x02; 0x08; 0x01; 0x01; 0x07]
  | BrainpoolP384 => [0x06; 0x09; 0x2b; 0x24; 0x03; 0x03; 0x02; 0x08; 0x01; 0x01; 0x0b]
  | BrainpoolP512 => [0x06; 0x09; 0x2b; 0x24; 0x03; 0x03; 0x02; 0x08; 0x01; 0x01; 0x0d]
  end.
Definition edwards_curve_parameters (c : EdwardsCurve) : list Z :=
  match c with
  | CurveEd25519 => [0x06; 0x03; 0x2b; 0x65; 0x70]
  | CurveEd448 => [0x06; 0x03; 0x2b; 0x65; 0x71]
  end.
(** [piv_ec_parameters(Ed25519)] and [openpgp::Curve::Ed25519.oid()] *)
Definition PIV_ED25519_PARAMETERS : list Z :=
  [0x13; 0x0c; 0x65; 0x64; 0x77; 0x61; 0x72; 0x64; 0x73; 0x32; 0x35; 0x35; 0x31; 0x39].
Definition OPENPGP_ED25519_PARAMETERS : list Z :=
  [0x06; 0x08; 0x2b; 0x06; 0x01; 0x04; 0x01; 0xda; 0x47; 0x0f; 0x01].

Definition ec_curve_from_parameters (parameters : list Z) : outcome Error EcCurve :=
  ok_or #CKR_KEY_TYPE_INCONSISTENT
    (List.find (λ c, bool_decide (parameters = ec_curve_parameters c))
       [P224; P256; P384; P521; Secp256k1; BrainpoolP256; BrainpoolP384; BrainpoolP512]).
Definition edwards_curve_from_parameters (parameters : list Z) : outcome Error EdwardsCurve :=
  if bool_decide (parameters = edwards_curve_parameters CurveEd25519)
     || bool_decide (parameters = PIV_ED25519_PARAMETERS)
     || bool_decide (parameters = OPENPGP_ED25519_PARAMETERS) then Ok CurveEd25519
  else if bool_decide (parameters = edwards_curve_parameters CurveEd448) then Ok CurveEd448
  else Err #CKR_KEY_TYPE_INCONSISTENT.

(** ** Software private keys *)

Definition hybrid_kem_key_type (c : HybridKemConstruction) : Z :=
  match c with
  | MlKem768P256 => CKK_PKCS11RS_MLKEM768_P256
  | MlKem768X25519 => CKK_PKCS11RS_MLKEM768_X25519
  | MlKem1024P384 => CKK_PKCS11RS_MLKEM1024_P384
  end.
Definition software_key_type (key : SoftwarePrivateKeyMaterial) : Z :=
  match key with
  | SigningEc _ _ => CKK_EC
  | SigningEdwards _ _ => CKK_EC_EDWARDS
  | SigningRsa _ => CKK_RSA
  | SigningMlDsa _ _ => CKK_ML_DSA
  | Montgomery _ => CKK_EC_MONTGOMERY
  | MlKem _ => CKK_ML_KEM
  | HybridKem c _ => hybrid_kem_key_type c
  end.
Definition software_sign_mechanism_supported (key : SoftwarePrivateKeyMaterial) (m : Z) : bool :=
  match key with
  | SigningRsa _ => (m =? CKM_RSA_X_509) || (m =? CKM_RSA_PKCS) || piv_is_hashed_rsa_pkcs m || piv_is_pss_mechanism m
  | SigningEdwards _ _ => m =? CKM_EDDSA
  | SigningMlDsa _ _ => is_ml_dsa_mechanism m
  | SigningEc _ _ => (m =? CKM_ECDSA) || piv_is_hashed_ecdsa m
  | Montgomery _ | MlKem _ | HybridKem _ _ => false
  end.

(** ** Mechanism parameters *)

Definition sign_context_memory (c : CK_SIGN_ADDITIONAL_CONTEXT) : ParameterMemory :=
  let b := byte_memory [] in
  mkMemory (as_bytes b) (as_gcm b) (as_ctr b) (as_ccm b) (as_oaep b) (as_ulong b) (as_pss b) c
    (as_hash_context b) (as_otp b) (as_key b).

Definition ml_dsa_context_parameters (m : CK_MECHANISM) (verifying : bool)
    : outcome Error MlDsaSignatureParameters :=
  match pParameter m with
  | None =>
      if ulParameterLen m =? 0 then Ok (mkMlDsaParameters None CKH_HEDGE_PREFERRED [])
      else Err #CKR_MECHANISM_PARAM_INVALID
  | Some memory =>
      if negb (ulParameterLen m =? SIZE_OF_SIGN_CONTEXT) then Err #CKR_MECHANISM_PARAM_INVALID
      else
        let p := as_sign_context memory in
        if (negb verifying
            && negb (one_of [CKH_HEDGE_PREFERRED; CKH_HEDGE_REQUIRED; CKH_DETERMINISTIC_REQUIRED] (hedgeVariant p)))
           || (255 <? ulContextLen p) || (is_null (pContext p) && negb (ulContextLen p =? 0))
        then Err #CKR_MECHANISM_PARAM_INVALID
        else
          let? context := map_err (λ _, #CKR_MECHANISM_PARAM_INVALID)
                            (from_raw_parts (pContext p) (ulContextLen p)) in
          Ok (mkMlDsaParameters None (if verifying then CKH_HEDGE_PREFERRED else hedgeVariant p) context)
  end.

Definition set_prehash (h : option Z) (p : MlDsaSignatureParameters) : MlDsaSignatureParameters :=
  mkMlDsaParameters h (hedge_variant p) (ml_dsa_context p).

(** The general HMAC mechanisms take the length of the MAC. *)
Definition hmac_general (m : Z) : bool :=
  one_of [CKM_SHA_1_HMAC_GENERAL; CKM_SHA224_HMAC_GENERAL; CKM_SHA256_HMAC_GENERAL; CKM_SHA384_HMAC_GENERAL;
          CKM_SHA512_HMAC_GENERAL] m.

(** A [CK_ULONG] parameter that is at most [limit]. *)
Definition length_parameter (m : CK_MECHANISM) (limit : Z) : outcome Error Z :=
  if negb (ulParameterLen m =? SIZE_OF_ULONG) then Err #CKR_MECHANISM_PARAM_INVALID
  else
    match pParameter m with
    | None => Err #CKR_MECHANISM_PARAM_INVALID
    | Some memory =>
        if limit <? as_ulong memory then Err #CKR_MECHANISM_PARAM_INVALID else Ok (as_ulong memory)
    end.

Definition hmac_output_length (m : CK_MECHANISM) : outcome Error (option Z) :=
  match hmac_key_type_and_length (mechanism m) with
  | None => Ok None
  | Some (_, full_length) =>
      if hmac_general (mechanism m) then omap_ok Some (length_parameter m full_length)
      else if has_parameter m then Err #CKR_MECHANISM_PARAM_INVALID
      else Ok (Some full_length)
  end.

Definition aes_cmac_length (m : CK_MECHANISM) : outcome Error (option Z) :=
  if mechanism m =? CKM_AES_CMAC then
    if has_parameter m then Err #CKR_MECHANISM_PARAM_INVALID else Ok (Some AES_CMAC_LENGTH)
  else if mechanism m =? CKM_AES_CMAC_GENERAL then omap_ok Some (length_parameter m AES_CMAC_LENGTH)
  else Ok None.

Definition aes_gmac_parameters (m : CK_MECHANISM) : outcome Error (option GcmParameters) :=
  if negb (mechanism m =? CKM_AES_GMAC) then Ok None
  else
    let? p := parse_gcm_parameters m in
    Ok (Some (mkGcm (gcm_iv p) [] (tag_bits p))).

(** The mask generation function, the salt length and the hash of RSA-PSS. *)
Definition parse_rsa_pss_parameters (m : CK_MECHANISM) : outcome Error (Z * Z * Z) :=
  match pParameter m with
  | None => Err #CKR_MECHANISM_PARAM_INVALID
  | Some memory =>
      if negb (ulParameterLen m =? SIZE_OF_PSS_PARAMS) then Err #CKR_MECHANISM_PARAM_INVALID
      else
        let p := as_pss memory in
        let? _ := (if mechanism m =? CKM_RSA_PKCS_PSS then Ok tt
                   else
                     let? h := pss_hash_mechanism (mechanism m) in
                     bail (negb (pss_hashAlg p =? h)) #CKR_MECHANISM_PARAM_INVALID) in
        let? mgf := parse_mgf (pss_mgf p) in
        let? _ := bail (U16_MAX <? sLen p) #CKR_MECHANISM_PARAM_INVALID in
        let? _ := map_err (λ _, #CKR_MECHANISM_PARAM_INVALID)
                    (shared_rsa_pss_parameters mgf (sLen p) (pss_hashAlg p)) in
        Ok (mgf, sLen p, pss_hashAlg p)
  end.

Section primitives.
Context `{HashCore} `{SymmetricCore} {B : Type} `{RsaCore B} `{SignatureCore B}.

Definition ml_dsa_module_prehash (m : Z) : option Z :=
  let id := if m =? CKM_HASH_ML_DSA_SHA224 then Some 4
            else if m =? CKM_HASH_ML_DSA_SHA256 then Some 1
            else if m =? CKM_HASH_ML_DSA_SHA384 then Some 2
            else if m =? CKM_HASH_ML_DSA_SHA512 then Some 3
            else if m =? CKM_HASH_ML_DSA_SHA3_224 then Some 7
            else if m =? CKM_HASH_ML_DSA_SHA3_256 then Some 8
            else if m =? CKM_HASH_ML_DSA_SHA3_384 then Some 9
            else if m =? CKM_HASH_ML_DSA_SHA3_512 then Some 10
            else if m =? CKM_HASH_ML_DSA_SHAKE128 then Some 11
            else if m =? CKM_HASH_ML_DSA_SHAKE256 then Some 12
            else None in
  id ≫= prehash_from_id.

Definition hash_ml_dsa_parameters (m : CK_MECHANISM) (verifying : bool) : outcome Error MlDsaSignatureParameters :=
  match ml_dsa_module_prehash (mechanism m) with
  | Some h => omap_ok (set_prehash (Some h)) (ml_dsa_context_parameters m verifying)
  | None =>
      match pParameter m with
      | None => Err #CKR_MECHANISM_PARAM_INVALID
      | Some memory =>
          if negb (ulParameterLen m =? SIZE_OF_HASH_SIGN_CONTEXT) then Err #CKR_MECHANISM_PARAM_INVALID
          else
            let p := as_hash_context memory in
            let h := hash_mechanism_of p in
            let? id := (if h =? CKM_SHA224 then Ok 4
                        else if h =? CKM_SHA256 then Ok 1
                        else if h =? CKM_SHA384 then Ok 2
                        else if h =? CKM_SHA512 then Ok 3
                        else if h =? CKM_SHA3_224 then Ok 7
                        else if h =? CKM_SHA3_256 then Ok 8
                        else if h =? CKM_SHA3_384 then Ok 9
                        else if h =? CKM_SHA3_512 then Ok 10
                        else Err #CKR_MECHANISM_PARAM_INVALID) in
            let c := hash_context p in
            let context := mkSignContext (if verifying then CKH_HEDGE_PREFERRED else hedgeVariant c)
                             (pContext c) (ulContextLen c) in
            let pure := mkMechanism CKM_ML_DSA (Some (sign_context_memory context)) SIZE_OF_SIGN_CONTEXT in
            omap_ok (set_prehash (prehash_from_id id)) (ml_dsa_context_parameters pure verifying)
      end
  end.

Definition ml_dsa_parameters (m : CK_MECHANISM) (verifying : bool)
    : outcome Error (option MlDsaSignatureParameters) :=
  if (mechanism m =? CKM_HASH_ML_DSA) || bool_decide (is_Some (ml_dsa_module_prehash (mechanism m)))
  then omap_ok Some (hash_ml_dsa_parameters m verifying)
  else if negb (mechanism m =? CKM_ML_DSA) then Ok None
  else omap_ok Some (ml_dsa_context_parameters m verifying).

(** ** Streaming hashes *)

Definition signature_context (m : Z) : option SignatureHashContext :=
  match ml_dsa_module_prehash m with
  | Some h => Some (MlDsaContext (prehash_context h))
  | None => (λ h, DigestContext (hash_new h)) <$> piv_hash_mechanism m
  end.
Definition context_update (c : SignatureHashContext) (data : list Z) : SignatureHashContext :=
  match c with
  | DigestContext h => DigestContext (hash_update h data)
  | MlDsaContext h => MlDsaContext (prehash_update h data)
  end.
Definition context_finalize (c : SignatureHashContext) : list Z :=
  match c with
  | DigestContext h => hash_finalize h
  | MlDsaContext h => prehash_finalize h
  end.

Definition piv_digest_info (m : Z) (digest : list Z) : option (list Z) :=
  if negb (one_of HASHED_RSA_PKCS_MECHANISMS m) then None
  else
    match piv_hash_mechanism m with
    | None => None
    | Some h => match digest_info h digest with Ok info => Some info | _ => None end
    end.

(** After hashing, a composite mechanism is the plain one on the digest. *)
Definition normalize (m : Z) (digest : list Z) : outcome Error (Z * list Z) :=
  if piv_is_hashed_rsa_pkcs m then
    let? info := ok_or #CKR_MECHANISM_PARAM_INVALID (piv_digest_info m digest) in
    Ok (CKM_RSA_PKCS, info)
  else if one_of HASHED_RSA_PSS_MECHANISMS m then Ok (CKM_RSA_PKCS_PSS, digest)
  else if piv_is_hashed_ecdsa m then Ok (CKM_ECDSA, digest)
  else Ok (m, digest).

(** The mechanism and the input of the primitive, for the last part of a
    message. *)
Definition message (op : SignatureOperation) (data : list Z) : outcome Error (Z * list Z) :=
  match prehash_state op with
  | Some state => normalize (sign_mechanism op) (context_finalize (context_update state data))
  | None => Ok (sign_mechanism op, sign_buffer op ++ data)
  end.

(** ** Message authentication *)

Definition software_hmac (key : list Z) (m : Z) (data : list Z) : outcome Error (list Z) :=
  let? digest := (if one_of [CKM_SHA_1_HMAC; CKM_SHA_1_HMAC_GENERAL] m then Ok HashSha1
                  else if one_of [CKM_SHA224_HMAC; CKM_SHA224_HMAC_GENERAL] m then Ok HashSha224
                  else if one_of [CKM_SHA256_HMAC; CKM_SHA256_HMAC_GENERAL] m then Ok HashSha256
                  else if one_of [CKM_SHA384_HMAC; CKM_SHA384_HMAC_GENERAL] m then Ok HashSha384
                  else if one_of [CKM_SHA512_HMAC; CKM_SHA512_HMAC_GENERAL] m then Ok HashSha512
                  else Err #CKR_MECHANISM_INVALID) in
  map_err (λ _, #CKR_KEY_SIZE_RANGE) (hmac digest key data).

Definition software_aes_cmac (key data : list Z) : outcome Error (list Z) :=
  map_err (λ _, #CKR_KEY_SIZE_RANGE) (aes_cmac key data).

Definition cmac_error (e : BlockCipherModeError Error) : Error :=
  match e with
  | ModeBlockOperation e => e
  | _ => #CKR_DEVICE_ERROR
  end.
Definition cmac_with_encryptor {S} (data : list Z) (encrypt : list Z → SM S Error (list Z)) : SM S Error (list Z) :=
  sm_map_err cmac_error (cmac_with S Error AES_BLOCK_LENGTH data encrypt).

(** GMAC is GCM of an empty plaintext with the data as associated data. *)
Definition gmac_parameters (p : GcmParameters) (data : list Z) : GcmParameters := mkGcm (gcm_iv p) data (tag_bits p).
Definition software_aes_gmac {S} (key : list Z) (p : GcmParameters) (data : list Z) : SM S Error (list Z) :=
  aes_gcm (gmac_parameters p data) [] true (λ blocks, sm_lift (software_crypt_ecb_blocks key blocks true)).

(** ** Software signatures *)

Definition software_signature_length (key : SoftwarePrivateKeyMaterial) : outcome Error Z :=
  match key with
  | SigningRsa key => Ok (rsa_private_size key)
  | SigningEdwards curve _ => Ok (edwards_signature_length curve)
  | SigningMlDsa parameter_set _ => Ok (ml_dsa_signature_length parameter_set)
  | SigningEc curve _ => Ok (coordinate_length curve * 2)
  | Montgomery _ | MlKem _ | HybridKem _ _ => Err #CKR_KEY_TYPE_INCONSISTENT
  end.

Definition shared_signing_error (e : SoftwareSigningError) : Error :=
  match e with
  | SignAlgorithmMismatch | SignInvalidPrivateKey => #CKR_KEY_TYPE_INCONSISTENT
  | SignRandomnessUnavailable => #CKR_RANDOM_NO_RNG
  | SignInvalidPublicKey | SignInvalidSignature | SigningFailed => #CKR_FUNCTION_FAILED
  end.

Definition hash_ml_dsa_sign (parameter_set : MlDsaParameterSet) (key : list Z) (p : MlDsaSignatureParameters)
    (data : list Z) : SM B Error (list Z) :=
  let! h := sm_lift (ok_or #CKR_MECHANISM_PARAM_INVALID (prehash p)) in
  let! _ := guard_err (negb (len data =? prehash_digest_length h)) #CKR_DATA_LEN_RANGE in
  let mode := if hedge_variant p =? CKH_DETERMINISTIC_REQUIRED then Deterministic
              else if hedge_variant p =? CKH_HEDGE_REQUIRED then Randomized
              else HedgePreferred in
  sm_map_err (λ e, match e with
                   | MlDsaRandomnessUnavailable => #CKR_RANDOM_NO_RNG
                   | _ => #CKR_FUNCTION_FAILED
                   end) (ml_dsa_sign_prehash parameter_set key data (ml_dsa_context p) h mode).

Definition shared_ml_dsa_sign (parameter_set : MlDsaParameterSet) (key : list Z)
    (parameters : option MlDsaSignatureParameters) (data : list Z) : SM B Error (list Z) :=
  let! p := sm_lift (ok_or #CKR_MECHANISM_PARAM_INVALID parameters) in
  if bool_decide (is_Some (prehash p)) then hash_ml_dsa_sign parameter_set key p data
  else
    let! randomization := sm_lift
      (if hedge_variant p =? CKH_DETERMINISTIC_REQUIRED then Ok Deterministic
       else if hedge_variant p =? CKH_HEDGE_REQUIRED then Ok Randomized
       else if hedge_variant p =? CKH_HEDGE_PREFERRED then Ok HedgePreferred
       else Err #CKR_MECHANISM_PARAM_INVALID) in
    sm_map_err (λ e, match e with
                     | MlDsaRandomnessUnavailable => #CKR_RANDOM_NO_RNG
                     | MlDsaInvalidContext => #CKR_MECHANISM_PARAM_INVALID
                     | MlDsaInvalidSeedLength | MlDsaInvalidExpandedPrivateKey | MlDsaInvalidPrivateKey =>
                         #CKR_KEY_TYPE_INCONSISTENT
                     | MlDsaInvalidPublicKey | MlDsaInvalidSignature | MlDsaSigningFailed => #CKR_FUNCTION_FAILED
                     end) (ml_dsa_sign parameter_set key data (ml_dsa_context p) randomization).

(** The digest of a composite mechanism, or the data. *)
Definition digest_of (m : Z) (data : list Z) : option (list Z) := (λ h, hash h data) <$> piv_hash_mechanism m.

Definition software_sign (key : SoftwarePrivateKeyMaterial) (m : Z) (pss : option (Z * Z * Z))
    (ml_dsa : option MlDsaSignatureParameters) (data : list Z) : SM B Error (list Z) :=
  match key with
  | SigningRsa key =>
      let digest := digest_of m data in
      if piv_is_pss_mechanism m then
        let! '(mgf, salt, h) := sm_lift (ok_or #CKR_MECHANISM_PARAM_INVALID pss) in
        let! '(h, mgf_hash, salt) := sm_lift (shared_rsa_pss_parameters mgf salt h) in
        sm_map_err shared_signing_error (sign_rsa_pss_digest key h mgf_hash salt (default data digest))
      else if piv_is_hashed_rsa_pkcs m then
        let! digest := sm_lift (ok_or #CKR_MECHANISM_PARAM_INVALID digest) in
        let! h := sm_lift (shared_rsa_hash_algorithm m) in
        sm_map_err shared_signing_error (sign_rsa_pkcs1v15_digest key h digest)
      else if m =? CKM_RSA_PKCS then sm_map_err shared_signing_error (sign_rsa_pkcs1v15_payload key data)
      else if m =? CKM_RSA_X_509 then sm_map_err shared_signing_error (sign_rsa_raw key data)
      else sm_err #CKR_MECHANISM_INVALID
  | SigningEdwards curve key => sm_map_err (λ _, #CKR_FUNCTION_FAILED) (sign_message curve key data)
  | SigningEc curve key =>
      sm_map_err (λ _, #CKR_DATA_LEN_RANGE) (sign_prehash curve key (default data (digest_of m data)))
  | SigningMlDsa parameter_set key => shared_ml_dsa_sign parameter_set key ml_dsa data
  | Montgomery _ | MlKem _ | HybridKem _ _ => sm_err #CKR_KEY_TYPE_INCONSISTENT
  end.

Definition local_ml_dsa_parameter_set (parameter_set : MlDsaParameterSet) : Z :=
  match parameter_set with
  | SetMlDsa44 => CKP_ML_DSA_44
  | SetMlDsa65 => CKP_ML_DSA_65
  | SetMlDsa87 => CKP_ML_DSA_87
  end.

(** The public key of a signing key; [None] for the kinds that do not sign. *)
Definition signing_public_key (key : SoftwarePrivateKeyMaterial) : option (outcome Error PublicKeyMaterial) :=
  match key with
  | SigningEc curve key =>
      Some (match ec_public_key curve key with
            | 4 :: point => Ok (EcPublic (ec_curve_parameters curve) point)
            | _ => Err #CKR_DATA_INVALID
            end)
  | SigningEdwards curve key => Some (Ok (EcPublic (edwards_curve_parameters curve) (edwards_public_key curve key)))
  | SigningMlDsa parameter_set key =>
      Some (Ok (MlDsaPublic (local_ml_dsa_parameter_set parameter_set) (ml_dsa_public_key parameter_set key)))
  | SigningRsa key =>
      let '(modulus, exponent) := rsa_public_parts key in
      Some (omap_ok RsaPublic
        (ok_or #CKR_DATA_INVALID (rsa_public_new (from_bytes_be modulus) (from_bytes_be exponent))))
  | Montgomery _ | MlKem _ | HybridKem _ _ => None
  end.

(** ** Verification with a public key *)

Definition shared_rsa_verification_error (e : RsaConstructionError) : Error :=
  match e with
  | RsaInputTooLong | RsaInvalidDigestLength => #CKR_DATA_LEN_RANGE
  | RsaInvalidKey => #CKR_KEY_TYPE_INCONSISTENT
  | RsaInvalidSignature | RsaInputOutOfRange => #CKR_SIGNATURE_INVALID
  | RsaRandomnessUnavailable | RsaOperationFailed => #CKR_FUNCTION_FAILED
  end.

Definition verify_rsa_signature (key : RsaPublicKey) (m : Z) (pss : option (Z * Z * Z)) (data signature : list Z)
    : outcome Error unit :=
  let? _ := bail (negb (len signature =? rsa_size key)) #CKR_SIGNATURE_LEN_RANGE in
  let digest := ok_or #CKR_MECHANISM_INVALID (digest_of m data) in
  if m =? CKM_RSA_X_509 then map_err shared_rsa_verification_error (rsa_verify_raw key data signature)
  else if m =? CKM_RSA_PKCS then
    map_err shared_rsa_verification_error (rsa_verify_pkcs1v15_payload key data signature)
  else if piv_is_hashed_rsa_pkcs m then
    let? digest := digest in
    let? h := shared_rsa_hash_algorithm m in
    map_err shared_rsa_verification_error (rsa_verify_pkcs1v15_digest key h digest signature)
  else if piv_is_pss_mechanism m then
    let? '(mgf, salt, h) := ok_or #CKR_MECHANISM_PARAM_INVALID pss in
    let? '(h, mgf_hash, salt) := shared_rsa_pss_parameters mgf salt h in
    let? digest := (if m =? CKM_RSA_PKCS_PSS then
                      let? _ := bail (negb (len data =? hash_size h)) #CKR_DATA_LEN_RANGE in Ok data
                    else digest) in
    map_err shared_rsa_verification_error (rsa_verify_pss_digest key h mgf_hash salt digest signature)
  else Err #CKR_MECHANISM_INVALID.

Definition hash_ml_dsa_verify (parameter_set : MlDsaParameterSet) (key : list Z) (p : MlDsaSignatureParameters)
    (data signature : list Z) : outcome Error unit :=
  let? h := ok_or #CKR_MECHANISM_PARAM_INVALID (prehash p) in
  let? _ := bail (negb (len data =? prehash_digest_length h)) #CKR_DATA_LEN_RANGE in
  map_err (λ _, #CKR_SIGNATURE_INVALID) (verify_ml_dsa_prehash parameter_set key data (ml_dsa_context p) signature h).

Definition ml_dsa_verify (parameter_set : Z) (key : list Z) (p : MlDsaSignatureParameters)
    (data signature : list Z) : outcome Error unit :=
  let? parameter_set := (if parameter_set =? CKP_ML_DSA_44 then Ok SetMlDsa44
                         else if parameter_set =? CKP_ML_DSA_65 then Ok SetMlDsa65
                         else if parameter_set =? CKP_ML_DSA_87 then Ok SetMlDsa87
                         else Err #CKR_KEY_TYPE_INCONSISTENT) in
  let? _ := bail (negb (len signature =? ml_dsa_signature_length parameter_set)) #CKR_SIGNATURE_LEN_RANGE in
  let? _ := bail (negb (len key =? ml_dsa_public_key_length parameter_set)) #CKR_KEY_TYPE_INCONSISTENT in
  if bool_decide (is_Some (prehash p)) then hash_ml_dsa_verify parameter_set key p data signature
  else
    map_err (λ e, match e with
                  | MlDsaInvalidPublicKey | MlDsaInvalidSeedLength | MlDsaInvalidExpandedPrivateKey
                  | MlDsaInvalidPrivateKey => #CKR_KEY_TYPE_INCONSISTENT
                  | MlDsaInvalidContext => #CKR_MECHANISM_PARAM_INVALID
                  | MlDsaInvalidSignature => #CKR_SIGNATURE_INVALID
                  | MlDsaRandomnessUnavailable | MlDsaSigningFailed => #CKR_FUNCTION_FAILED
                  end) (verify_ml_dsa parameter_set key data (ml_dsa_context p) signature).

Definition shared_verification_error (e : SoftwareSigningError) : Error :=
  match e with
  | SignInvalidSignature => #CKR_SIGNATURE_INVALID
  | SignAlgorithmMismatch | SignInvalidPublicKey | SignInvalidPrivateKey => #CKR_KEY_TYPE_INCONSISTENT
  | SignRandomnessUnavailable => #CKR_RANDOM_NO_RNG
  | SigningFailed => #CKR_FUNCTION_FAILED
  end.

(** The point of an elliptic-curve key is stored without its leading [4]. *)
Definition verify_ecdsa (curve : EcCurve) (key digest signature : list Z) : outcome Error unit :=
  let? _ := bail (negb (len key =? coordinate_length curve * 2)) #CKR_KEY_TYPE_INCONSISTENT in
  let? _ := bail (negb (len signature =? coordinate_length curve * 2)) #CKR_SIGNATURE_LEN_RANGE in
  map_err shared_verification_error (verify_prehash curve (4 :: key) digest signature).

Definition verify_edwards (curve : EdwardsCurve) (key data signature : list Z) : outcome Error unit :=
  let? _ := bail (negb (len key =? edwards_public_key_length curve)
                  || negb (len signature =? edwards_signature_length curve)) #CKR_SIGNATURE_LEN_RANGE in
  map_err shared_verification_error (verify_message curve key data signature).

(** What [verify_with_mode] does with a key that is not a MAC key. *)
Definition verify_public (op : SignatureOperation) (m : Z) (data signature : list Z) : outcome Error unit :=
  let? rsa := rsa_public_key_material (sign_key op) in
  match rsa with
  | Some key => verify_rsa_signature key m (pss op) data signature
  | None =>
      match sign_key op, ml_dsa op with
      | Public (MlDsaPublic parameter_set key), Some p => ml_dsa_verify parameter_set key p data signature
      | Public (EcPublic parameters key), _ =>
          if m =? CKM_EDDSA then
            let? curve := edwards_curve_from_parameters parameters in
            verify_edwards curve key data signature
          else
            let? curve := ec_curve_from_parameters parameters in
            let? digest := (if m =? CKM_ECDSA then Ok data
                            else ok_or #CKR_MECHANISM_INVALID (digest_of m data)) in
            let? _ := bail (negb (len signature =? coordinate_length curve * 2)) #CKR_SIGNATURE_LEN_RANGE in
            verify_ecdsa curve key digest signature
      | _, _ => Err #CKR_KEY_TYPE_INCONSISTENT
      end
  end.

(** ** Commands and encodings of devices *)

Definition yubihsm_mgf1_algorithm (h : Z) : outcome Error Z :=
  if h =? CKM_SHA_1 then Ok YUBIHSM_ALGO_MGF1_SHA1
  else if h =? CKM_SHA256 then Ok YUBIHSM_ALGO_MGF1_SHA256
  else if h =? CKM_SHA384 then Ok YUBIHSM_ALGO_MGF1_SHA384
  else if h =? CKM_SHA512 then Ok YUBIHSM_ALGO_MGF1_SHA512
  else Err #CKR_MECHANISM_INVALID.

Definition sign_pss (key_id mgf1_algorithm salt_length : Z) (digest : list Z) : outcome Error Command :=
  let? _ := require_digest_length digest in
  Command_from_vec SignPss (prefixed_u16 key_id [mgf1_algorithm] ++ be16 salt_length ++ digest).

Definition sign_ml_dsa (key_id : Z) (p : MlDsaSignatureParameters) (msg : list Z) : outcome Error Command :=
  let? mode := (if hedge_variant p =? CKH_DETERMINISTIC_REQUIRED then Ok 0
                else if hedge_variant p =? CKH_HEDGE_REQUIRED then Ok 1
                else if hedge_variant p =? CKH_HEDGE_PREFERRED then Ok 2
                else Err #CKR_MECHANISM_PARAM_INVALID) in
  let? _ := bail (255 <? len (ml_dsa_context p)) #CKR_MECHANISM_PARAM_INVALID in
  let? _ := (match prehash p with
             | Some h => bail (negb (len msg =? prehash_digest_length h)) #CKR_DATA_LEN_RANGE
             | None => Ok tt
             end) in
  Command_from_vec SignMlDsa
    (be16 key_id ++ [mode; match prehash p with Some h => prehash_id h | None => 0 end; len (ml_dsa_context p)]
     ++ ml_dsa_context p ++ msg).

Definition verify_hmac (key_id : Z) (signature data : list Z) : outcome Error Command :=
  let? _ := require_digest_length signature in
  Command_from_vec VerifyHmac (prefixed_u16 key_id signature ++ data).

(** [SessionObjectCommand::VerifyCmac] *)
Definition VERIFY_CMAC : Z := 0x02.
Definition verify_session_object (handle : Z) (signature data : list Z) : outcome Error Command :=
  let? _ := bail (negb ((1 <=? len signature) && (len signature <=? 16))) #CKR_DATA_LEN_RANGE in
  Command_from_vec SessionObject ([VERIFY_CMAC] ++ be_bytes 8 handle ++ [len signature] ++ signature ++ data).

Definition yubihsm_asymmetric_signature_command (m : Z) (pss : option (Z * Z * Z)) (key_id : Z) (data : list Z)
    : outcome Error Command :=
  let digest := digest_of m data in
  if (m =? CKM_RSA_PKCS) || piv_is_hashed_rsa_pkcs m then
    let? input := (if piv_is_hashed_rsa_pkcs m then
                     let? digest := ok_or #CKR_MECHANISM_PARAM_INVALID digest in
                     ok_or #CKR_MECHANISM_PARAM_INVALID (piv_digest_info m digest)
                   else Ok data) in
    key_data SignPkcs1 key_id input
  else if piv_is_pss_mechanism m then
    let? '(mgf, salt_length, h) := ok_or #CKR_MECHANISM_PARAM_INVALID pss in
    let? mgf := (if mgf =? 0 then yubihsm_mgf1_algorithm h else Ok mgf) in
    sign_pss key_id mgf salt_length (default data digest)
  else if m =? CKM_EDDSA then key_data SignEddsa key_id data
  else key_data SignEcdsa key_id (default data digest).

Definition ecdsa_der_to_raw (signature : list Z) (n : Z) : outcome Error (list Z) :=
  map_err (λ _, #CKR_DEVICE_ERROR) (ecdsa_signature_from_der signature n).
Definition openpgp_signature (signature : list Z) (n : Z) : outcome Error (list Z) :=
  if len signature =? n * 2 then Ok signature else ecdsa_der_to_raw signature n.
Definition encode_pkcs1_v1_5_signature_input (data : list Z) (modulus_size : Z) : outcome Error (list Z) :=
  map_err (λ _, #CKR_DATA_LEN_RANGE) (pkcs1v15_encoded_payload modulus_size data).

Definition mgf_digest (mgf h : Z) : outcome Error MessageDigest :=
  if mgf =? 0 then digest_for_hash_mechanism h
  else if mgf =? 32 then Ok HashSha1
  else if mgf =? 33 then Ok HashSha256
  else if mgf =? 34 then Ok HashSha384
  else if mgf =? 35 then Ok HashSha512
  else if mgf =? 36 then Ok HashSha224
  else if mgf =? 37 then Ok HashSha3_224
  else if mgf =? 38 then Ok HashSha3_256
  else if mgf =? 39 then Ok HashSha3_384
  else if mgf =? 40 then Ok HashSha3_512
  else Err #CKR_MECHANISM_PARAM_INVALID.
Definition encode_rsa_pss (digest : list Z) (modulus_size h mgf salt_length : Z) : SM B Error (list Z) :=
  let! hash_algorithm := sm_lift (digest_for_hash_mechanism h) in
  let! mgf_hash := sm_lift (mgf_digest mgf h) in
  sm_map_err (λ e, match e with
                   | RsaRandomnessUnavailable => #CKR_RANDOM_NO_RNG
                   | RsaInvalidKey => #CKR_KEY_SIZE_RANGE
                   | _ => #CKR_DATA_LEN_RANGE
                   end) (pss_encoded_digest (modulus_size * 8) hash_algorithm mgf_hash salt_length digest).

(** ** The length of a signature *)

(** For the mechanism [m] after hashing. *)
Definition signature_length (op : SignatureOperation) (m : Z) : outcome Error Z :=
  let inconsistent := Err #CKR_KEY_TYPE_INCONSISTENT in
  let of_rsa_key := match sign_public_key op with
                    | Some (RsaPublic key) => Ok (rsa_size key)
                    | _ => inconsistent
                    end in
  match sign_key op with
  | SoftwarePrivate key => software_signature_length key
  | SoftwareSecret _ =>
      ok_or #CKR_KEY_TYPE_INCONSISTENT
        (match mac_length op with
         | Some n => Some n
         | None => snd <$> hmac_key_type_and_length m
         end)
  | PivPrivate _ algorithm _ _ =>
      match algorithm with
      | Rsa1024 | Rsa2048 | Rsa3072 | Rsa4096 => of_rsa_key
      | EccP256 => Ok 64
      | EccP384 => Ok 96
      | Ed25519 => Ok 64
      | MlDsa44 => Ok (ml_dsa_signature_length SetMlDsa44)
      | MlDsa65 => Ok (ml_dsa_signature_length SetMlDsa65)
      | MlDsa87 => Ok (ml_dsa_signature_length SetMlDsa87)
      | _ => inconsistent
      end
  | OpenPgpPrivate _ algorithm _ _ =>
      match algorithm with
      | PgpRsa _ => of_rsa_key
      | PgpEcdsa _ =>
          let? n := ok_or #CKR_KEY_TYPE_INCONSISTENT (openpgp_ec_coordinate_length algorithm) in Ok (n * 2)
      | PgpEd25519 => Ok 64
      | PgpEcdh _ => inconsistent
      end
  | YubiHsm _ _ algorithm _ _ =>
      match yubihsm_ml_dsa algorithm with
      | Some parameter_set => Ok (ml_dsa_signature_length parameter_set)
      | None =>
          if is_yubihsm_rsa algorithm then
            if algorithm =? YUBIHSM_ALGO_RSA_2048 then Ok 256
            else if algorithm =? YUBIHSM_ALGO_RSA_3072 then Ok 384
            else if algorithm =? YUBIHSM_ALGO_RSA_4096 then Ok 512
            else inconsistent
          else if is_yubihsm_ec algorithm then
            let? n := yubihsm_ec_coordinate_length algorithm in Ok (n * 2)
          else if is_yubihsm_edwards algorithm then
            if algorithm =? YUBIHSM_ALGO_ED25519 then Ok 64
            else if algorithm =? YUBIHSM_ALGO_ED448 then Ok 114
            else inconsistent
          else
            match mac_length op with
            | Some n => Ok n
            | None =>
                if algorithm =? YUBIHSM_ALGO_HMAC_SHA1 then Ok 20
                else if algorithm =? YUBIHSM_ALGO_HMAC_SHA256 then Ok 32
                else if algorithm =? YUBIHSM_ALGO_HMAC_SHA384 then Ok 48
                else if algorithm =? YUBIHSM_ALGO_HMAC_SHA512 then Ok 64
                else inconsistent
            end
      end
  | PreviewSignDerived _ _ _ => Ok 64
  | _ => inconsistent
  end.
End primitives.

(** ** What the primitives promise *)

(** Verification accepts what signing returned, public keys have the length of
    their kind, a digest fed in parts is the digest of the whole, and a mode
    touches the state only through the block cipher it is given. *)
Class SignatureLaws (B : Type) `{HashCore, SymmetricCore, RsaCore B, SignatureCore B} : Prop := {
  rsa_public_size key n e pub :
    rsa_public_parts key = (n, e) → rsa_public_new (from_bytes_be n) (from_bytes_be e) = Some pub →
    rsa_size pub = rsa_private_size key;
  rsa_pss_verifies key n e pub h g salt d (b b' : B) s :
    rsa_public_parts key = (n, e) → rsa_public_new (from_bytes_be n) (from_bytes_be e) = Some pub →
    sign_rsa_pss_digest key h g salt d b = (Ok s, b') → rsa_verify_pss_digest pub h g salt d s = Ok tt;
  rsa_payload_verifies key n e pub d (b b' : B) s :
    rsa_public_parts key = (n, e) → rsa_public_new (from_bytes_be n) (from_bytes_be e) = Some pub →
    sign_rsa_pkcs1v15_payload key d b = (Ok s, b') → rsa_verify_pkcs1v15_payload pub d s = Ok tt;
  rsa_raw_verifies key n e pub d (b b' : B) s :
    rsa_public_parts key = (n, e) → rsa_public_new (from_bytes_be n) (from_bytes_be e) = Some pub →
    sign_rsa_raw key d b = (Ok s, b') → rsa_verify_raw pub d s = Ok tt;
  ec_point_length c key : len (ec_public_key c key) = 1 + coordinate_length c * 2;
  ecdsa_verifies c key d (b b' : B) s :
    sign_prehash c key d b = (Ok s, b') → verify_prehash c (ec_public_key c key) d s = Ok tt;
  edwards_key_length c key : len (edwards_public_key c key) = edwards_public_key_length c;
  eddsa_verifies c key d (b b' : B) s :
    sign_message c key d b = (Ok s, b') → verify_message c (edwards_public_key c key) d s = Ok tt;
  ml_dsa_key_length p key : len (ml_dsa_public_key p key) = ml_dsa_public_key_length p;
  ml_dsa_verifies p key d context r (b b' : B) s :
    ml_dsa_sign p key d context r b = (Ok s, b') → verify_ml_dsa p (ml_dsa_public_key p key) d context s = Ok tt;
  ml_dsa_prehash_verifies p key d context h r (b b' : B) s :
    ml_dsa_sign_prehash p key d context h r b = (Ok s, b') →
    verify_ml_dsa_prehash p (ml_dsa_public_key p key) d context s h = Ok tt;
  prehash_incremental h parts parts' :
    concat parts = concat parts' →
    prehash_finalize (foldl prehash_update (prehash_context h) parts)
    = prehash_finalize (foldl prehash_update (prehash_context h) parts');
  gcm_respects S E (R : S → S → Prop) iv aad t input e f :
    (∀ b, respects R (f b)) → respects R (gcm_with S E iv aad t input e f);
  cmac_respects S E (R : S → S → Prop) n data f :
    (∀ b, respects R (f b)) → respects R (cmac_with S E n data f);
}.
