(* ===== verification/HsmCapabilities.v ===== *)
(** * HsmCapabilities: capabilities of YubiHSM objects and PKCS #11 usages

    Models the part of [src/src/lib.rs] that translates between the 64-bit
    capability field of a YubiHSM object and the usage attributes of a PKCS #11
    key, with the classification of the device's algorithms, and shows that the
    two translations agree. *)
From S2P Require Import Prelude Errors Storage Mechanisms SlotState CryptApi SignatureModes.

(** ** Object types and algorithms *)

Definition YUBIHSM_OPAQUE : Z := 0x01.
Definition YUBIHSM_AUTHENTICATION_KEY : Z := 0x02.
Definition YUBIHSM_ASYMMETRIC_KEY : Z := 0x03.
Definition YUBIHSM_HMAC_KEY : Z := 0x05.
Definition YUBIHSM_TEMPLATE : Z := 0x06.
Definition YUBIHSM_OTP_AEAD_KEY : Z := 0x07.
Definition YUBIHSM_SYMMETRIC_KEY : Z := 0x08.
Definition YUBIHSM_PUBLIC_WRAP_KEY : Z := 0x09.
Definition YUBIHSM_WRAP_KEY_PUBLIC : Z := 0x84.
Definition YUBIHSM_ALGO_OPAQUE_X509_CERTIFICATE : Z := 31.
Definition YUBIHSM_ALGO_X25519 : Z := 56.
Definition YUBIHSM_ALGO_X448 : Z := 57.
Definition YUBIHSM_ALGO_ML_KEM_512 : Z := 62.
Definition YUBIHSM_ALGO_ML_KEM_768 : Z := 63.
Definition YUBIHSM_ALGO_ML_KEM_1024 : Z := 64.
Definition YUBIHSM_ALGO_HYBRID_ML_KEM_768_P256 : Z := 65.
Definition YUBIHSM_ALGO_HYBRID_ML_KEM_768_X25519 : Z := 66.
Definition YUBIHSM_ALGO_HYBRID_ML_KEM_1024_P384 : Z := 67.

(** [software_key_core::post_quantum::MlKemParameterSet] *)
Inductive MlKemParameterSet : Type := SetMlKem512 | SetMlKem768 | SetMlKem1024.

Definition is_yubihsm_aes (algorithm : Z) : bool :=
  one_of [YUBIHSM_ALGO_AES128; YUBIHSM_ALGO_AES192; YUBIHSM_ALGO_AES256] algorithm.
Definition is_yubihsm_hmac (algorithm : Z) : bool :=
  one_of [YUBIHSM_ALGO_HMAC_SHA1; YUBIHSM_ALGO_HMAC_SHA256; YUBIHSM_ALGO_HMAC_SHA384;
          YUBIHSM_ALGO_HMAC_SHA512] algorithm.
Definition is_yubihsm_montgomery (algorithm : Z) : bool :=
  one_of [YUBIHSM_ALGO_X25519; YUBIHSM_ALGO_X448] algorithm.
Definition yubihsm_ml_kem (algorithm : Z) : option MlKemParameterSet :=
  if algorithm =? YUBIHSM_ALGO_ML_KEM_512 then Some SetMlKem512
  else if algorithm =? YUBIHSM_ALGO_ML_KEM_768 then Some SetMlKem768
  else if algorithm =? YUBIHSM_ALGO_ML_KEM_1024 then Some SetMlKem1024
  else None.
Definition yubihsm_hybrid_kem (algorithm : Z) : option HybridKemConstruction :=
  if algorithm =? YUBIHSM_ALGO_HYBRID_ML_KEM_768_P256 then Some MlKem768P256
  else if algorithm =? YUBIHSM_ALGO_HYBRID_ML_KEM_768_X25519 then Some MlKem768X25519
  else if algorithm =? YUBIHSM_ALGO_HYBRID_ML_KEM_1024_P384 then Some MlKem1024P384
  else None.

(** [o.is_some()] *)
Definition is_some {A} (o : option A) : bool := match o with Some _ => true | None => false end.

Definition yubihsm_ec_parameters (algorithm : Z) : option (list Z) :=
  if algorithm =? YUBIHSM_ALGO_EC_P224 then Some [0x06; 0x05; 0x2b; 0x81; 0x04; 0x00; 0x21]
  else if algorithm =? YUBIHSM_ALGO_EC_P256 then
    Some [0x06; 0x08; 0x2a; 0x86; 0x48; 0xce; 0x3d; 0x03; 0x01; 0x07]
  else if algorithm =? YUBIHSM_ALGO_EC_P384 then Some [0x06; 0x05; 0x2b; 0x81; 0x04; 0x00; 0x22]
  else if algorithm =? YUBIHSM_ALGO_EC_P521 then Some [0x06; 0x05; 0x2b; 0x81; 0x04; 0x00; 0x23]
  else if algorithm =? YUBIHSM_ALGO_EC_K256 then Some [0x06; 0x05; 0x2b; 0x81; 0x04; 0x00; 0x0a]
  else if algorithm =? YUBIHSM_ALGO_EC_BP256 then
    Some [0x06; 0x09; 0x2b; 0x24; 0x03; 0x03; 0x02; 0x08; 0x01; 0x01; 0x07]
  else if algorithm =? YUBIHSM_ALGO_EC_BP384 then
    Some [0x06; 0x09; 0x2b; 0x24; 0x03; 0x03; 0x02; 0x08; 0x01; 0x01; 0x0b]
  else if algorithm =? YUBIHSM_ALGO_EC_BP512 then
    Some [0x06; 0x09; 0x2b; 0x24; 0x03; 0x03; 0x02; 0x08; 0x01; 0x01; 0x0d]
  else if algorithm =? YUBIHSM_ALGO_ED25519 then Some [0x06; 0x03; 0x2b; 0x65; 0x70]
  else if algorithm =? YUBIHSM_ALGO_ED448 then Some [0x06; 0x03; 0x2b; 0x65; 0x71]
  else if algorithm =? YUBIHSM_ALGO_X25519 then
    Some [0x13; 0x0a; 0x63; 0x75; 0x72; 0x76; 0x65; 0x32; 0x35; 0x35; 0x31; 0x39]
  else if algorithm =? YUBIHSM_ALGO_X448 then Some [0x06; 0x03; 0x2b; 0x65; 0x6f]
  else None.

(** ** Capability fields: eight bytes, the last one holding the lowest bits *)

Definition yubihsm_capability (caps : list Z) (bit : Z) : bool :=
  has_flag (at_ caps (7 - bit / 8)) (Z.shiftl 1 (bit mod 8)).

(** [caps[i] = v] for an index in range. *)
Definition set_byte (i v : Z) (caps : list Z) : list Z := <[Z.to_nat i := v]> caps.

Definition set_yubihsm_capability (bit : Z) (enabled : bool) (caps : list Z) : list Z :=
  let mask := Z.shiftl 1 (bit mod 8) in
  let i := 7 - bit / 8 in
  set_byte i (if enabled then Z.lor (at_ caps i) mask else Z.ldiff (at_ caps i) mask) caps.

Definition yubihsm_capabilities (bits : list Z) : list Z :=
  foldl (λ caps bit,
           set_byte (7 - bit / 8) (Z.lor (at_ caps (7 - bit / 8)) (Z.shiftl 1 (bit mod 8))) caps)
    (replicate 8 0) bits.

(** ** Usages *)

Record YubiHsmPkcs11Attributes : Type := mkUsages {
  u_encapsulate : bool;
  u_decapsulate : bool;
  u_encrypt : bool;
  u_decrypt : bool;
  u_sign : bool;
  u_verify : bool;
  u_derive : bool;
  u_wrap : bool;
  u_unwrap : bool;
  u_extractable : bool;
}.

Definition yubihsm_capabilities_to_attributes (object_type algorithm : Z) (caps : list Z)
    : YubiHsmPkcs11Attributes :=
  let can := yubihsm_capability caps in
  let extractable := can 0x10 in
  let none := mkUsages false false false false false false false false false extractable in
  if object_type =? YUBIHSM_ASYMMETRIC_KEY then
    if is_yubihsm_rsa algorithm then
      mkUsages false false false (can 0x09 || can 0x0a) (can 0x05 || can 0x06) false false false false extractable
    else if is_some (yubihsm_ml_dsa algorithm) then
      mkUsages false false false false (can 0x3a) false false false false extractable
    else if is_some (yubihsm_ml_kem algorithm) then
      mkUsages false (can 0x3c) false false false false false false false extractable
    else if is_some (yubihsm_hybrid_kem algorithm) then
      mkUsages false (can 0x3e) false false false false false false false extractable
    else if is_yubihsm_edwards algorithm then
      mkUsages false false false false (can 0x08) false false false false extractable
    else if is_yubihsm_ec algorithm then
      mkUsages false false false false (can 0x07) false (can 0x0b || can 0x38) false false extractable
    else if is_yubihsm_montgomery algorithm then
      mkUsages false false false false false false (can 0x0b || can 0x38) false false extractable
    else none
  else if object_type =? YUBIHSM_PUBLIC_KEY then
    if is_yubihsm_rsa algorithm then
      mkUsages false false (can 0x09 || can 0x0a) false false (can 0x05 || can 0x06) false false false true
    else if is_some (yubihsm_ml_dsa algorithm) then
      mkUsages false false false false false true false false false true
    else if is_some (yubihsm_ml_kem algorithm) then
      mkUsages (can 0x3b) false false false false false false false false true
    else if is_some (yubihsm_hybrid_kem algorithm) then
      mkUsages (can 0x3d) false false false false false false false false true
    else if is_yubihsm_edwards algorithm then
      mkUsages false false false false false (can 0x08) false false false true
    else if is_yubihsm_ec algorithm then
      mkUsages false false false false false (can 0x07) false false false true
    else mkUsages false false false false false false false false false true
  else if (object_type =? YUBIHSM_WRAP_KEY) && (is_yubihsm_rsa algorithm || is_yubihsm_ccm_wrap algorithm) then
    let ccm := is_yubihsm_ccm_wrap algorithm in
    mkUsages false false (ccm && can 0x25) (ccm && can 0x26) false false false (can 0x0c) (can 0x0d) extractable
  else if object_type =? YUBIHSM_WRAP_KEY_PUBLIC then
    mkUsages false false false false false false false false false true
  else if object_type =? YUBIHSM_PUBLIC_WRAP_KEY then
    mkUsages false false false false false false false (is_yubihsm_rsa algorithm && can 0x0c) false true
  else if (object_type =? YUBIHSM_HMAC_KEY) && is_yubihsm_hmac algorithm then
    mkUsages false false false false (can 0x16) (can 0x17) false false false extractable
  else if (object_type =? YUBIHSM_SYMMETRIC_KEY) && is_yubihsm_aes algorithm then
    mkUsages false false (can 0x33 || can 0x35) (can 0x32 || can 0x34) (can 0x33) (can 0x33) (can 0x33)
      false false extractable
  else none.

(** [if condition { bits.extend(values) }] *)
Definition push_if (condition : bool) (bits : list Z) : list Z := if condition then bits else [].

Definition usage_bits (object_type algorithm : Z) (a : YubiHsmPkcs11Attributes) : list Z :=
  if object_type =? YUBIHSM_ASYMMETRIC_KEY then
    push_if (u_sign a)
      (if is_yubihsm_rsa algorithm then [0x05; 0x06]
       else if is_some (yubihsm_ml_dsa algorithm) then [0x3a]
       else if is_yubihsm_edwards algorithm then [0x08]
       else if is_yubihsm_ec algorithm then [0x07]
       else [])
    ++ push_if (is_some (yubihsm_ml_kem algorithm))
         (push_if (u_encapsulate a) [0x3b] ++ push_if (u_decapsulate a) [0x3c])
    ++ push_if (is_some (yubihsm_hybrid_kem algorithm))
         (push_if (u_encapsulate a) [0x3d] ++ push_if (u_decapsulate a) [0x3e])
    ++ push_if (u_decrypt a && is_yubihsm_rsa algorithm) [0x09; 0x0a]
    ++ push_if (u_derive a && (is_yubihsm_ec algorithm || is_yubihsm_montgomery algorithm)) [0x0b]
  else if (object_type =? YUBIHSM_WRAP_KEY) && (is_yubihsm_rsa algorithm || is_yubihsm_ccm_wrap algorithm) then
    push_if (u_wrap a) [0x0c] ++ push_if (u_unwrap a) [0x0d]
    ++ push_if (u_encrypt a && is_yubihsm_ccm_wrap algorithm) [0x25]
    ++ push_if (u_decrypt a && is_yubihsm_ccm_wrap algorithm) [0x26]
  else if object_type =? YUBIHSM_PUBLIC_WRAP_KEY then
    push_if (u_wrap a && is_yubihsm_rsa algorithm) [0x0c]
  else if (object_type =? YUBIHSM_HMAC_KEY) && is_yubihsm_hmac algorithm then
    push_if (u_sign a) [0x16] ++ push_if (u_verify a) [0x17]
  else if (object_type =? YUBIHSM_SYMMETRIC_KEY) && is_yubihsm_aes algorithm then
    push_if (u_encrypt a) [0x33; 0x35] ++ push_if (u_decrypt a) [0x32; 0x34]
    ++ push_if (u_sign a || u_verify a || u_derive a) [0x33]
  else [].

Definition yubihsm_attributes_to_capabilities (object_type algorithm : Z) (a : YubiHsmPkcs11Attributes)
    : list Z :=
  yubihsm_capabilities
    (usage_bits object_type algorithm a
     ++ push_if (u_extractable a
                 && negb (one_of [YUBIHSM_PUBLIC_KEY; YUBIHSM_WRAP_KEY_PUBLIC; YUBIHSM_PUBLIC_WRAP_KEY] object_type))
          [0x10]).

(** ** Capability fields *)

Lemma has_flag_bit n i : 0 ≤ i → has_flag n (Z.shiftl 1 i) = Z.testbit n i.
Proof.
  intros Hi. unfold has_flag. rewrite Z.shiftl_1_l. destruct (Z.testbit n i) eqn:E.
  - apply negb_true_iff, Z.eqb_neq. intros Hz. apply (f_equal (λ z, Z.testbit z i)) in Hz.
    rewrite Z.land_spec, Z.pow2_bits_true, E, Z.bits_0 in Hz by done. done.
  - apply negb_false_iff, Z.eqb_eq, Z.bits_inj'. intros j Hj. rewrite Z.land_spec, Z.bits_0.
    destruct (decide (i = j)) as [->|]; [by rewrite E|]. by rewrite Z.pow2_bits_false, andb_false_r.
Qed.

Lemma at_set_byte caps i j v : 0 ≤ i < len caps → 0 ≤ j →
  at_ (set_byte i v caps) j = if i =? j then v else at_ caps j.
Proof.
  intros Hi Hj. unfold at_, set_byte, len in *. rewrite !nth_lookup. destruct (i =? j) eqn:E; bool_to_prop.
  - subst. rewrite list_lookup_insert_eq by lia. done.
  - by rewrite list_lookup_insert_ne by lia.
Qed.

(** A capability is in the field exactly when its bit was set. *)
Lemma capability_of_bits bits b : Forall (λ c, 0 ≤ c < 64) bits → 0 ≤ b < 64 →
  yubihsm_capability (yubihsm_capabilities bits) b = existsb (Z.eqb b) bits.
Proof.
  intros Hbits Hb. unfold yubihsm_capabilities.
  enough (∀ caps, len caps = 8 →
    let r := foldl (λ caps bit, set_byte (7 - bit / 8) (Z.lor (at_ caps (7 - bit / 8)) (Z.shiftl 1 (bit mod 8))) caps) caps bits in
    yubihsm_capability r b = yubihsm_capability caps b || existsb (Z.eqb b) bits) as H.
  { cbn zeta in H. rewrite H by done. unfold yubihsm_capability, has_flag, at_.
    rewrite nth_lookup. destruct (_ !! _) as [v|] eqn:E; cbn [default]; [|done].
    apply lookup_replicate in E as [-> _]. by rewrite Z.land_0_l. }
  induction Hbits as [|c bits Hc Hbits IH]; intros caps Hl; cbn zeta in *; cbn [foldl existsb].
  { by rewrite orb_false_r. }
  rewrite IH by (unfold len, set_byte in *; by rewrite length_insert).
  rewrite orb_assoc. f_equal. unfold yubihsm_capability.
  pose proof (Z.mod_pos_bound b 8). pose proof (Z.mod_pos_bound c 8).
  rewrite !has_flag_bit, at_set_byte by (rewrite ?Hl; Z.to_euclidean_division_equations; lia).
  destruct (7 - c / 8 =? 7 - b / 8) eqn:Ei; bool_to_prop.
  - replace (7 - c / 8) with (7 - b / 8) by lia. rewrite Z.lor_spec, Z.shiftl_1_l. f_equal.
    destruct (b =? c) eqn:Ebc; bool_to_prop; [subst; apply Z.pow2_bits_true; lia|].
    apply Z.pow2_bits_false. Z.to_euclidean_division_equations. lia.
  - destruct (b =? c) eqn:Ebc; [bool_to_prop; subst; lia|by rewrite orb_false_r].
Qed.

(** ** The two translations *)

(** Every capability the kind of key can have. *)
Definition supported_usages (object_type algorithm : Z) : YubiHsmPkcs11Attributes :=
  yubihsm_capabilities_to_attributes object_type algorithm (replicate 8 255).

(** The usages [granted] to a key for which [a] was asked: those the kind of key
    supports. An AES key has one capability for encryption and for the three uses of
    CMAC, so asking for one grants them all. A public key has no usages of its
    own: they come from the private key's capabilities. *)
Definition granted (object_type algorithm : Z) (a : YubiHsmPkcs11Attributes) : YubiHsmPkcs11Attributes :=
  let s := supported_usages object_type algorithm in
  let aes := (object_type =? YUBIHSM_SYMMETRIC_KEY) && is_yubihsm_aes algorithm in
  let public := one_of [YUBIHSM_PUBLIC_KEY; YUBIHSM_WRAP_KEY_PUBLIC; YUBIHSM_PUBLIC_WRAP_KEY] object_type in
  let mac := u_encrypt a || u_sign a || u_verify a || u_derive a in
  mkUsages (u_encapsulate a && u_encapsulate s) (u_decapsulate a && u_decapsulate s)
    (if aes then mac else u_encrypt a && u_encrypt s) (u_decrypt a && u_decrypt s)
    (if aes then mac else u_sign a && u_sign s) (if aes then mac else u_verify a && u_verify s)
    (if aes then mac else u_derive a && u_derive s)
    (u_wrap a && u_wrap s) (u_unwrap a && u_unwrap s) (public || u_extractable a).

Lemma usage_bits_range t g a : Forall (λ c, 0 ≤ c < 64) (usage_bits t g a).
Proof.
  unfold usage_bits, push_if. repeat case_if; repeat (apply Forall_app; split);
    repeat (apply List.Forall_cons; [lia|]); apply List.Forall_nil.
Qed.

Lemma existsb_push b c l : existsb (Z.eqb b) (push_if c l) = c && existsb (Z.eqb b) l.
Proof. by destruct c. Qed.

(** What a key is created with is what it shows: the usages read from the
    capabilities that were written for a request are the usages granted. *)
Theorem capabilities_roundtrip t g a : t ≠ YUBIHSM_PUBLIC_KEY →
  yubihsm_capabilities_to_attributes t g (yubihsm_attributes_to_capabilities t g a) = granted t g a.
Proof.
  intros Ht. unfold yubihsm_attributes_to_capabilities. set (bits := _ ++ _).
  assert (∀ b, 0 ≤ b < 64 → yubihsm_capability (yubihsm_capabilities bits) b = existsb (Z.eqb b) bits) as Hc.
  { intros b Hb. apply capability_of_bits; [|done]. apply Forall_app. split; [apply usage_bits_range|].
    unfold push_if. case_if; [apply List.Forall_cons; [lia|]|]; apply List.Forall_nil. }
  unfold granted, supported_usages, yubihsm_capabilities_to_attributes. rewrite !Hc by lia.
  assert (∀ b, 0 ≤ b < 64 → yubihsm_capability (replicate 8 255) b = true) as Hs.
  { intros b Hb. assert (forallb (yubihsm_capability (replicate 8 255)) (seqZ 0 64) = true) as Ha by done.
    rewrite forallb_forall in Ha. apply Ha, list_elem_of_In, elem_of_seqZ. lia. }
  rewrite !Hs by lia. clear Hc Hs. subst bits. unfold usage_bits. test_false (t =? YUBIHSM_PUBLIC_KEY).
  destruct a as [ec dc en de si ve dr wr un ex].
  cbn [u_encapsulate u_decapsulate u_encrypt u_decrypt u_sign u_verify u_derive u_wrap u_unwrap u_extractable].
  destruct (t =? YUBIHSM_ASYMMETRIC_KEY) eqn:E1; [|destruct (t =? YUBIHSM_WRAP_KEY) eqn:E2;
    [|destruct (t =? YUBIHSM_WRAP_KEY_PUBLIC) eqn:E3; [|destruct (t =? YUBIHSM_PUBLIC_WRAP_KEY) eqn:E4;
      [|destruct (t =? YUBIHSM_HMAC_KEY) eqn:E5; [|destruct (t =? YUBIHSM_SYMMETRIC_KEY) eqn:E6]]]]];
    bool_to_prop; try subst t; unfold one_of;
    rewrite ?existsb_app, ?existsb_push; cbn [andb orb negb existsb Z.eqb Pos.eqb app YUBIHSM_ASYMMETRIC_KEY YUBIHSM_WRAP_KEY].
  all: repeat match goal with
       | |- context [if ?b then _ else _] => destruct b eqn:?
       end.
  all: cbn [u_encapsulate u_decapsulate u_encrypt u_decrypt u_sign u_verify u_derive u_wrap u_unwrap u_extractable];
    rewrite ?existsb_app, ?existsb_push;
    unfold YUBIHSM_SYMMETRIC_KEY, YUBIHSM_PUBLIC_KEY, YUBIHSM_WRAP_KEY_PUBLIC, YUBIHSM_PUBLIC_WRAP_KEY,
      YUBIHSM_HMAC_KEY in *; cbn [existsb Z.eqb Pos.eqb andb orb negb] in *;
    rewrite ?andb_false_r, ?orb_false_r, ?andb_true_r, ?orb_diag; cbn [andb orb]; try congruence.
  - by destruct (is_yubihsm_ccm_wrap g), en, de.
  - by destruct (is_yubihsm_rsa g), wr.
  - by destruct en, si, ve, dr.
  - test_false (t =? 131). test_false (t =? 132). test_false (t =? 9). by rewrite andb_true_r.
Qed.
