(* ===== verification/HsmCommands.v ===== *)
(** * HsmCommands: the YubiHSM command encoders and response parsers

    Models [src/src/yubihsm/commands]: the session-object namespace
    ([session_object.rs]), objects and their filters ([object.rs]), wrapping
    ([wrapping.rs]), device, OTP and audit commands, and the parsers of the
    replies ([response.rs]). [CipherModes] and [SignatureModes] hold the commands
    that encrypt and sign.

    [decode_session_request] and [decode_object_parameters] are the device's
    half, written from the wire layout; the theorems show that the device reads
    back what the library meant. *)
From S2P Require Import Prelude Errors Connector Crypto YubiHsm Mechanisms Storage KeyMetadata SlotState SessionApi LoginSelectors CryptApi CipherModes SignatureModes.

(** ** Integers on the wire *)

(** [u16::try_from(n).map_err(|_| e)] and [u8::try_from]. *)
Definition u16_try_from (e : Error) (n : Z) : outcome Error Z := let? _ := bail (65535 <? n) e in Ok n.
Definition u8_try_from (e : Error) (n : Z) : outcome Error Z := let? _ := bail (255 <? n) e in Ok n.

(** ** Session objects *)

Definition ALGORITHM_EC_P256 : Z := 12.
Definition SESSION_OBJECT_READABLE : Z := 1.
Definition SESSION_OBJECT_DERIVE : Z := 2.
Definition SESSION_OBJECT_VERIFY : Z := 4.

(** [SessionObjectCommand]; [VERIFY_CMAC] is in [SignatureModes]. *)
Definition SESSION_OBJECT_READ : Z := 0x01.
Definition SESSION_CONCATENATE_KEY : Z := 0x03.
Definition SESSION_CONCATENATE_DATA : Z := 0x04.
Definition SESSION_EXTRACT : Z := 0x05.
Definition SESSION_SHA256 : Z := 0x06.
Definition SESSION_COUNTER_KDF : Z := 0x07.
Definition SESSION_GENERATE_ASYMMETRIC_KEY : Z := 0x46.
Definition SESSION_DERIVE_ECDH : Z := 0x57.
Definition SESSION_DELETE_OBJECT : Z := 0x58.

Inductive SessionObjectKind : Type := KindGenericSecret | KindAes.
Inductive SessionObjectSource : Type :=
| Volatile (handle : Z) | PersistentAsymmetric (id : Z) | PersistentSymmetric (id : Z).
#[export] Instance SessionObjectKind_eq_dec : EqDecision SessionObjectKind.
Proof. solve_decision. Defined.

(** [kind as u8] *)
Definition session_kind (kind : SessionObjectKind) : Z := match kind with KindGenericSecret => 1 | KindAes => 2 end.

(** The fields of [software_key_core::counter_kdf], as the code builds them. *)
Record IntegerFormat : Type := mkIntegerFormat { width_bits : Z; little_endian : bool }.
Inductive LengthMethod : Type := LengthKey | LengthSegments.
Inductive CounterKdfField : Type :=
| FieldBytes (value : list Z) | FieldCounter (format : IntegerFormat) | FieldLength (format : IntegerFormat) (method : LengthMethod).

Definition session_header (operation flags : Z) (kind : SessionObjectKind) (length : Z) : outcome Error (list Z) :=
  let? length := u16_try_from #CKR_DATA_LEN_RANGE length in
  Ok ([operation; flags; session_kind kind] ++ be16 length).

Definition session_source (value : SessionObjectSource) : list Z :=
  match value with
  | Volatile handle => 0 :: be_bytes 8 handle
  | PersistentAsymmetric id => 1 :: be16 id
  | PersistentSymmetric id => 2 :: be16 id
  end.

Definition generate_session_p256 (flags : Z) : outcome Error Command :=
  Command_from_vec SessionObject [SESSION_GENERATE_ASYMMETRIC_KEY; flags; ALGORITHM_EC_P256].

Definition derive_session_ecdh (flags : Z) (kind : SessionObjectKind) (length : Z) (base : SessionObjectSource)
    (peer : list Z) : outcome Error Command :=
  let? peer_length := u16_try_from #CKR_DATA_LEN_RANGE (len peer) in
  let? header := session_header SESSION_DERIVE_ECDH flags kind length in
  Command_from_vec SessionObject (header ++ session_source base ++ be16 peer_length ++ peer).

Definition derive_session_append_key (flags : Z) (kind : SessionObjectKind) (length left right : Z) : outcome Error Command :=
  let? header := session_header SESSION_CONCATENATE_KEY flags kind length in
  Command_from_vec SessionObject (header ++ be_bytes 8 left ++ be_bytes 8 right).

Definition derive_session_append_data (flags : Z) (kind : SessionObjectKind) (length base : Z) (suffix : list Z)
    : outcome Error Command :=
  let? header := session_header SESSION_CONCATENATE_DATA flags kind length in
  Command_from_vec SessionObject (header ++ be_bytes 8 base ++ suffix).

Definition derive_session_extract (flags : Z) (kind : SessionObjectKind) (length base offset_bits : Z)
    : outcome Error Command :=
  let? offset := u16_try_from #CKR_MECHANISM_PARAM_INVALID offset_bits in
  let? header := session_header SESSION_EXTRACT flags kind length in
  Command_from_vec SessionObject (header ++ be_bytes 8 base ++ be16 offset).

Definition derive_session_sha256 (flags : Z) (kind : SessionObjectKind) (length base : Z) : outcome Error Command :=
  let? header := session_header SESSION_SHA256 flags kind length in
  Command_from_vec SessionObject (header ++ be_bytes 8 base).

Definition counter_field (f : CounterKdfField) : outcome Error (list Z) :=
  match f with
  | FieldBytes value =>
      let? length := u16_try_from #CKR_MECHANISM_PARAM_INVALID (len value) in
      Ok ([0] ++ be16 length ++ value)
  | FieldCounter format => Ok [1; width_bits format; Z.b2z (little_endian format)]
  | FieldLength format method =>
      Ok [2; width_bits format; Z.b2z (little_endian format);
          match method with LengthKey => 0 | LengthSegments => 1 end]
  end.
Fixpoint counter_fields (fields : list CounterKdfField) : outcome Error (list Z) :=
  match fields with
  | [] => Ok []
  | f :: rest => let? field := counter_field f in let? rest := counter_fields rest in Ok (field ++ rest)
  end.
Definition derive_session_counter (flags : Z) (kind : SessionObjectKind) (length : Z) (base : SessionObjectSource)
    (fields : list CounterKdfField) : outcome Error Command :=
  let? count := u8_try_from #CKR_MECHANISM_PARAM_INVALID (len fields) in
  let? _ := bail (count =? 0) #CKR_MECHANISM_PARAM_INVALID in
  let? header := session_header SESSION_COUNTER_KDF flags kind length in
  let? fields := counter_fields fields in
  Command_from_vec SessionObject (header ++ session_source base ++ [count] ++ fields).

Definition read_session_object (handle : Z) : Command := mkCommand SessionObject (SESSION_OBJECT_READ :: be_bytes 8 handle).
Definition delete_session_object_command (handle : Z) : Command :=
  mkCommand SessionObject (SESSION_DELETE_OBJECT :: be_bytes 8 handle).

(** ** Objects *)

Definition LABEL_LENGTH : Z := 40.
Definition CAPABILITIES_LENGTH : Z := 8.

Record ObjectParameters : Type := mkObjectParameters {
  op_id : Z; op_label : list Z; op_domains : Z; op_capabilities : list Z; op_algorithm : Z;
}.
Record DelegatedObjectParameters : Type := mkDelegated { dp_object : ObjectParameters; dp_capabilities : list Z }.

(** [v.resize(n, 0)] for a vector no longer than [n]. *)
Definition zero_padded (n : Z) (v : list Z) : list Z := v ++ replicate (Z.to_nat (n - len v)) 0.

Definition encode_object_parameters (p : ObjectParameters) : outcome Error (list Z) :=
  let? _ := bail (LABEL_LENGTH <? len (op_label p)) #CKR_DATA_LEN_RANGE in
  Ok (zero_padded (2 + LABEL_LENGTH) (be16 (op_id p) ++ op_label p) ++ be16 (op_domains p) ++ op_capabilities p
      ++ [op_algorithm p]).
Definition encode_delegated_parameters (p : DelegatedObjectParameters) : outcome Error (list Z) :=
  let? object := encode_object_parameters (dp_object p) in
  Ok (object ++ dp_capabilities p).

Inductive ObjectFilter : Type :=
| FilterId (id : Z) | FilterType (object_type : Z) | FilterDomains (domains : Z) | FilterCapabilities (capabilities : list Z)
| FilterAlgorithm (algorithm : Z) | FilterLabel (label : list Z).
Definition encode_filter (f : ObjectFilter) : outcome Error (list Z) :=
  match f with
  | FilterId id => Ok (1 :: be16 id)
  | FilterType object_type => Ok [2; object_type]
  | FilterDomains domains => Ok (3 :: be16 domains)
  | FilterCapabilities capabilities => Ok (4 :: capabilities)
  | FilterAlgorithm algorithm => Ok [5; algorithm]
  | FilterLabel label =>
      let? _ := bail (LABEL_LENGTH <? len label) #CKR_DATA_LEN_RANGE in
      Ok (6 :: zero_padded LABEL_LENGTH label)
  end.
Fixpoint encode_filters (filters : list ObjectFilter) : outcome Error (list Z) :=
  match filters with
  | [] => Ok []
  | f :: rest => let? field := encode_filter f in let? rest := encode_filters rest in Ok (field ++ rest)
  end.

Definition put_object (code : CommandCode) (p : ObjectParameters) (value : list Z) : outcome Error Command :=
  let? _ := ensure_code code [PutOpaque; PutAsymmetricKey; PutHmacKey; PutTemplate; PutSymmetricKey] in
  let? data := encode_object_parameters p in
  Command_from_vec code (data ++ value).
Definition generate_object (code : CommandCode) (p : ObjectParameters) : outcome Error Command :=
  let? _ := ensure_code code [GenerateAsymmetricKey; GenerateHmacKey; GenerateSymmetricKey] in
  let? data := encode_object_parameters p in
  Command_from_vec code data.
Definition put_delegated_object (code : CommandCode) (p : DelegatedObjectParameters) (value : list Z)
    : outcome Error Command :=
  let? _ := ensure_code code [PutAuthenticationKey; PutWrapKey; PutPublicWrapKey] in
  let? data := encode_delegated_parameters p in
  Command_from_vec code (data ++ value).
Definition get_object (code : CommandCode) (id : Z) : outcome Error Command :=
  let? _ := ensure_code code [GetOpaque; GetTemplate] in
  Command_from_vec code (be16 id).
Definition list_objects (filters : list ObjectFilter) : outcome Error Command :=
  let? data := encode_filters filters in
  Command_from_vec ListObjects data.
Definition get_object_info (id object_type : Z) : Command := mkCommand GetObjectInfo (be16 id ++ [object_type]).
Definition get_public_key (id : Z) (object_type : option Z) : Command :=
  let selector := match object_type with
                  | Some t => let t := Z.ldiff t 0x80 in if t =? 3 then [] else [t]
                  | None => []
                  end in
  mkCommand GetPublicKey (be16 id ++ selector).
Definition with_code (code : CommandCode) (c : Command) : Command := mkCommand code (cmd_data c).
Definition delete_object (id object_type : Z) : Command := with_code DeleteObject (get_object_info id object_type).

(** ** Wrapping *)

Record RsaWrapParameters : Type := mkRsaWrap {
  rw_wrapping_key_id : Z; rw_object_type : Z; rw_object_id : Z; rw_aes_algorithm : Z; rw_hash_algorithm : Z;
  rw_mgf1_algorithm : Z; rw_label_digest : list Z;
}.

Definition generate_wrap_key (p : DelegatedObjectParameters) : outcome Error Command :=
  let? data := encode_delegated_parameters p in
  Command_from_vec GenerateWrapKey data.
Definition export_wrapped (wrapping_key_id object_type object_id : Z) (format : option Z) : Command :=
  let format := match format with Some v => if v =? 0 then [] else [v] | None => [] end in
  mkCommand ExportWrapped (be16 wrapping_key_id ++ [object_type] ++ be16 object_id ++ format).
Definition import_wrapped (wrapping_key_id : Z) (wrapped : list Z) : outcome Error Command :=
  Command_from_vec ImportWrapped (prefixed_u16 wrapping_key_id wrapped).
Definition rsa_wrap (code : CommandCode) (p : RsaWrapParameters) : outcome Error Command :=
  let? _ := ensure_code code [GetRsaWrappedKey; ExportRsaWrapped] in
  let? _ := require_digest_length (rw_label_digest p) in
  Command_from_vec code
    (be16 (rw_wrapping_key_id p) ++ [rw_object_type p] ++ be16 (rw_object_id p)
     ++ [rw_aes_algorithm p; rw_hash_algorithm p; rw_mgf1_algorithm p] ++ rw_label_digest p).
Definition rsa_pkcs_wrap_key (wrapping_key_id object_type object_id : Z) : outcome Error Command :=
  Command_from_vec GetRsaWrappedKey (be16 wrapping_key_id ++ [object_type] ++ be16 object_id ++ [0; 0; 0]).
Definition put_rsa_wrapped_key (wrapping_key_id object_type : Z) (p : ObjectParameters) (hash_algorithm mgf1_algorithm : Z)
    (wrapped label_digest : list Z) : outcome Error Command :=
  let? _ := require_digest_length label_digest in
  let? parameters := encode_object_parameters p in
  Command_from_vec PutRsaWrappedKey
    (be16 wrapping_key_id ++ [object_type] ++ parameters ++ [hash_algorithm; mgf1_algorithm] ++ wrapped ++ label_digest).
Definition put_rsa_pkcs_wrapped_key (wrapping_key_id object_type : Z) (p : ObjectParameters) (wrapped : list Z)
    : outcome Error Command :=
  let? parameters := encode_object_parameters p in
  Command_from_vec PutRsaWrappedKey (be16 wrapping_key_id ++ [object_type] ++ parameters ++ [0; 0] ++ wrapped).
Definition import_rsa_wrapped (wrapping_key_id hash_algorithm mgf1_algorithm : Z) (wrapped label_digest : list Z)
    : outcome Error Command :=
  let? _ := require_digest_length label_digest in
  Command_from_vec ImportRsaWrapped (be16 wrapping_key_id ++ [hash_algorithm; mgf1_algorithm] ++ wrapped ++ label_digest).

(** ** Keys, certificates and KEMs *)

Definition encapsulate_ml_kem (key_id : Z) : Command := mkCommand EncapsulateMlKem (be16 key_id).
Definition decapsulate_ml_kem (key_id : Z) (ciphertext : list Z) : outcome Error Command :=
  Command_from_vec DecapsulateMlKem (be16 key_id ++ ciphertext).
Definition encapsulate_hybrid_kem (key_id : Z) : Command := mkCommand EncapsulateHybridKem (be16 key_id).
Definition decapsulate_hybrid_kem (key_id : Z) (ciphertext : list Z) : outcome Error Command :=
  Command_from_vec DecapsulateHybridKem (be16 key_id ++ ciphertext).
Definition derive_ecdh_kdf (key_id hash output_length : Z) (public_data prefix_data shared_data : list Z)
    : outcome Error Command :=
  let? output_length := u16_try_from #CKR_DATA_LEN_RANGE output_length in
  let? public_length := u16_try_from #CKR_DATA_LEN_RANGE (len public_data) in
  let? prefix_length := u16_try_from #CKR_DATA_LEN_RANGE (len prefix_data) in
  let? shared_length := u16_try_from #CKR_DATA_LEN_RANGE (len shared_data) in
  Command_from_vec DeriveEcdhKdf
    (be16 key_id ++ [hash] ++ be16 output_length ++ be16 public_length ++ be16 prefix_length ++ be16 shared_length
     ++ public_data ++ prefix_data ++ shared_data).
Definition sign_ssh_certificate (key_id template_id algorithm : Z) (request : list Z) : outcome Error Command :=
  Command_from_vec SignSshCertificate (be16 key_id ++ be16 template_id ++ [algorithm] ++ request).
Definition sign_attestation_certificate (key_id attestation_id : Z) : Command :=
  mkCommand SignAttestationCertificate (be16 key_id ++ be16 attestation_id).

(** ** Device, OTP and audit *)

Definition echo (data : list Z) : outcome Error Command := Command_from_vec Echo data.
Definition get_device_info (page : option Z) : Command :=
  mkCommand GetDeviceInfo (match page with Some p => [p] | None => [] end).
Definition get_device_public_key : Command := Command_empty GetDevicePublicKey.
Definition reset_device : Command := Command_empty ResetDevice.
Definition get_storage_info : Command := Command_empty GetStorageInfo.
Definition set_option (option : Z) (value : list Z) : outcome Error Command :=
  let? length := u16_try_from #CKR_DATA_LEN_RANGE (len value) in
  Command_from_vec SetOption ([option] ++ be16 length ++ value).
Definition get_option (option : Z) : Command := mkCommand GetOption [option].
Definition get_pseudo_random (length : Z) : Command := mkCommand GetPseudoRandom (be16 length).
Definition blink_device (seconds : Z) : Command := mkCommand BlinkDevice [seconds].

Definition ALGORITHM_AES128_YUBICO_OTP : Z := 37.
Definition ALGORITHM_AES128_YUBICO_AUTHENTICATION : Z := 38.
Definition ALGORITHM_AES192_YUBICO_OTP : Z := 39.
Definition ALGORITHM_AES256_YUBICO_OTP : Z := 40.
Definition ALGORITHM_EC_P256_YUBICO_AUTHENTICATION : Z := 49.

Definition change_authentication_key (id algorithm : Z) (key : list Z) : outcome Error Command :=
  let? expected :=
    if algorithm =? ALGORITHM_AES128_YUBICO_AUTHENTICATION then Ok 32
    else if algorithm =? ALGORITHM_EC_P256_YUBICO_AUTHENTICATION then Ok 64
    else Err #CKR_ATTRIBUTE_VALUE_INVALID in
  let? _ := bail (negb (len key =? expected)) #CKR_DATA_LEN_RANGE in
  Command_from_vec ChangeAuthenticationKey (prefixed_u16 id [algorithm] ++ key).

(** The fixed-length arrays are the callers'. *)
Definition decrypt_otp (key_id : Z) (aead otp : list Z) : Command := mkCommand DecryptOtp (prefixed_u16 key_id aead ++ otp).
Definition create_otp_aead (key_id : Z) (otp_key private_id : list Z) : Command :=
  mkCommand CreateOtpAead (prefixed_u16 key_id otp_key ++ private_id).
Definition randomize_otp_aead (key_id : Z) : Command := mkCommand RandomizeOtpAead (be16 key_id).
Definition rewrap_otp_aead (from to : Z) (aead : list Z) : Command := mkCommand RewrapOtpAead (be16 from ++ be16 to ++ aead).
Definition otp_aead_key (code : CommandCode) (p : ObjectParameters) (nonce_id : Z) (key : list Z) : outcome Error Command :=
  let? _ := ensure_code code [PutOtpAeadKey; GenerateOtpAeadKey] in
  let? parameters := encode_object_parameters p in
  let? expected :=
    if op_algorithm p =? ALGORITHM_AES128_YUBICO_OTP then Ok 16
    else if op_algorithm p =? ALGORITHM_AES192_YUBICO_OTP then Ok 24
    else if op_algorithm p =? ALGORITHM_AES256_YUBICO_OTP then Ok 32
    else Err #CKR_ATTRIBUTE_VALUE_INVALID in
  let? _ := bail (bool_decide (code = PutOtpAeadKey) && negb (len key =? expected)) #CKR_DATA_LEN_RANGE in
  let? _ := bail (bool_decide (code = GenerateOtpAeadKey) && negb (bool_decide (key = []))) #CKR_DATA_LEN_RANGE in
  Command_from_vec code (parameters ++ rev (be_bytes 4 nonce_id) ++ key).

Definition get_log_entries : Command := Command_empty GetLogEntries.
Definition set_log_index (index : Z) : Command := mkCommand SetLogIndex (be16 index).

(** ** Replies *)

Definition MAX_OBJECT_COUNT : Z := 256.
Definition MAX_LOG_ENTRY_COUNT : Z := 64.

(** [data.get(offset..offset + n)] and [u16::from_be_bytes]. *)
Definition read_be (n : Z) (data : list Z) (offset : Z) : outcome Error Z :=
  let? _ := bail (len data <? offset + n) #CKR_DATA_INVALID in
  Ok (from_bytes_be (slice offset (offset + n) data)).
Definition read_u16 : list Z → Z → outcome Error Z := read_be 2.
Definition read_u32 : list Z → Z → outcome Error Z := read_be 4.

Record StorageInfo : Type := mkStorageInfo {
  total_records : Z; free_records : Z; total_pages : Z; free_pages : Z; page_size : Z;
}.
Definition parse_storage_info (data : list Z) : outcome Error StorageInfo :=
  let? _ := bail (negb (len data =? 10)) #CKR_DATA_INVALID in
  let? total_records := read_u16 data 0 in
  let? free_records := read_u16 data 2 in
  let? total_pages := read_u16 data 4 in
  let? free_pages := read_u16 data 6 in
  let? page_size := read_u16 data 8 in
  Ok (mkStorageInfo total_records free_records total_pages free_pages page_size).

Record ObjectInfo : Type := mkObjectInfo {
  oi_capabilities : list Z; oi_id : Z; oi_length : Z; oi_domains : Z; oi_object_type : Z; oi_algorithm : Z;
  oi_sequence : Z; oi_origin : Z; oi_label : list Z; oi_delegated : list Z;
}.

(** [split(|byte| *byte == 0).next()] *)
Fixpoint until_zero (l : list Z) : list Z :=
  match l with
  | [] => []
  | b :: rest => if b =? 0 then [] else b :: until_zero rest
  end.
Definition parse_object_info (data : list Z) : outcome Error ObjectInfo :=
  let? _ := bail (negb (len data =? 66)) #CKR_DATA_INVALID in
  let? id := read_u16 data 8 in
  let? length := read_u16 data 10 in
  let? domains := read_u16 data 12 in
  let label := until_zero (slice 18 58 data) in
  let? _ := bail (negb (utf8_valid label)) #CKR_DATA_INVALID in
  Ok (mkObjectInfo (slice 0 8 data) id length domains (at_ data 14) (at_ data 15) (at_ data 16) (at_ data 17) label
        (slice 58 66 data)).

Record ObjectEntry : Type := mkObjectEntry { entry_id : Z; entry_type : Z; entry_sequence : Z }.

(** [iter().map(f).collect::<Result<Vec<_>, _>>()] *)
Fixpoint collect_results {A C} (f : A → outcome Error C) (l : list A) : outcome Error (list C) :=
  match l with
  | [] => Ok []
  | a :: rest => let? c := f a in let? rest := collect_results f rest in Ok (c :: rest)
  end.
Definition parse_object_list (data : list Z) : outcome Error (list ObjectEntry) :=
  let? _ := bail (negb (is_multiple_of (len data) 4) || (MAX_OBJECT_COUNT <? len data / 4)) #CKR_DATA_INVALID in
  collect_results (λ item, let? id := read_u16 item 0 in Ok (mkObjectEntry id (at_ item 2) (at_ item 3))) (chunks 4 data).

Record LogEntry : Type := mkLogEntry {
  log_number : Z; log_command : Z; log_length : Z; log_session_key : Z; log_target_key : Z; log_second_key : Z;
  log_result : Z; log_systick : Z; log_digest : list Z;
}.
Record LogEntries : Type := mkLogEntries { unlogged_boot : Z; unlogged_authentication : Z; log_entries : list LogEntry }.
Definition parse_log_entry (entry : list Z) : outcome Error LogEntry :=
  let? number := read_u16 entry 0 in
  let? length := read_u16 entry 3 in
  let? session_key := read_u16 entry 5 in
  let? target_key := read_u16 entry 7 in
  let? second_key := read_u16 entry 9 in
  let? systick := read_u32 entry 12 in
  Ok (mkLogEntry number (at_ entry 2) length session_key target_key second_key (at_ entry 11) systick (slice 16 32 entry)).
Definition parse_log_entries (data : list Z) : outcome Error LogEntries :=
  let? _ := bail ((len data <? 5) || (MAX_LOG_ENTRY_COUNT <? at_ data 4) || negb (len data - 5 =? at_ data 4 * 32))
              #CKR_DATA_INVALID in
  let? entries := collect_results parse_log_entry (chunks 32 (zdrop 5 data)) in
  let? boot := read_u16 data 0 in
  let? authentication := read_u16 data 2 in
  Ok (mkLogEntries boot authentication entries).

Definition parse_imported_object (data : list Z) : outcome Error (Z * Z) :=
  let? _ := bail (negb (len data =? 3)) #CKR_DATA_INVALID in
  let? id := read_u16 data 1 in
  Ok (at_ data 0, id).
Definition parse_public_key (data : list Z) : outcome Error (Z * list Z) :=
  match data with [] => Err #CKR_DATA_INVALID | algorithm :: key => Ok (algorithm, key) end.

Record OtpDecryption : Type := mkOtpDecryption {
  use_counter : Z; session_counter : Z; timestamp_high : Z; timestamp_low : Z;
}.
Definition parse_otp_decryption (data : list Z) : outcome Error OtpDecryption :=
  let? _ := bail (negb (len data =? 6)) #CKR_DATA_INVALID in
  Ok (mkOtpDecryption (of_be16 (at_ data 1) (at_ data 0)) (at_ data 2) (at_ data 3) (of_be16 (at_ data 5) (at_ data 4))).

Definition parse_object_id (data : list Z) : outcome Error Z :=
  let? _ := bail (negb (len data =? 2)) #CKR_DATA_INVALID in
  read_u16 data 0.
Definition require_empty (data : list Z) : outcome Error unit := bail (negb (bool_decide (data = []))) #CKR_DATA_INVALID.

(** ** The device's half *)

(** A big-endian integer of [n] bytes, and the bytes after it. *)
Definition take_be (n : Z) (l : list Z) : option (Z * list Z) :=
  if len l <? n then None else Some (from_bytes_be (ztake n l), zdrop n l).
Definition take_bytes (n : Z) (l : list Z) : option (list Z * list Z) :=
  if len l <? n then None else Some (ztake n l, zdrop n l).

(** What a client asks of a session object. *)
Inductive SessionRequest : Type :=
| ReqGenerate (flags : Z)
| ReqEcdh (flags : Z) (kind : SessionObjectKind) (length : Z) (base : SessionObjectSource) (peer : list Z)
| ReqAppendKey (flags : Z) (kind : SessionObjectKind) (length base other : Z)
| ReqAppendData (flags : Z) (kind : SessionObjectKind) (length base : Z) (suffix : list Z)
| ReqExtract (flags : Z) (kind : SessionObjectKind) (length base offset : Z)
| ReqSha256 (flags : Z) (kind : SessionObjectKind) (length base : Z)
| ReqCounter (flags : Z) (kind : SessionObjectKind) (length : Z) (base : SessionObjectSource) (fields : list CounterKdfField)
| ReqRead (handle : Z)
| ReqVerify (handle : Z) (signature data : list Z)
| ReqDelete (handle : Z).

Definition session_request_command (r : SessionRequest) : outcome Error Command :=
  match r with
  | ReqGenerate flags => generate_session_p256 flags
  | ReqEcdh flags kind length base peer => derive_session_ecdh flags kind length base peer
  | ReqAppendKey flags kind length base other => derive_session_append_key flags kind length base other
  | ReqAppendData flags kind length base suffix => derive_session_append_data flags kind length base suffix
  | ReqExtract flags kind length base offset => derive_session_extract flags kind length base offset
  | ReqSha256 flags kind length base => derive_session_sha256 flags kind length base
  | ReqCounter flags kind length base fields => derive_session_counter flags kind length base fields
  | ReqRead handle => Ok (read_session_object handle)
  | ReqVerify handle signature data => verify_session_object handle signature data
  | ReqDelete handle => Ok (delete_session_object_command handle)
  end.

Definition decode_source (l : list Z) : option (SessionObjectSource * list Z) :=
  match l with
  | 0 :: l => '(handle, l) ← take_be 8 l; Some (Volatile handle, l)
  | 1 :: l => '(id, l) ← take_be 2 l; Some (PersistentAsymmetric id, l)
  | 2 :: l => '(id, l) ← take_be 2 l; Some (PersistentSymmetric id, l)
  | _ => None
  end.
Definition decode_field (l : list Z) : option (CounterKdfField * list Z) :=
  match l with
  | 0 :: l => '(n, l) ← take_be 2 l; '(value, l) ← take_bytes n l; Some (FieldBytes value, l)
  | 1 :: width :: endian :: l => Some (FieldCounter (mkIntegerFormat width (endian =? 1)), l)
  | 2 :: width :: endian :: method :: l =>
      Some (FieldLength (mkIntegerFormat width (endian =? 1)) (if method =? 0 then LengthKey else LengthSegments), l)
  | _ => None
  end.
Fixpoint decode_fields (count : nat) (l : list Z) : option (list CounterKdfField) :=
  match count with
  | O => match l with [] => Some [] | _ => None end
  | S count => '(field, l) ← decode_field l; rest ← decode_fields count l; Some (field :: rest)
  end.

(** The kind, the length and the operands of a derivation. *)
Definition decode_derivation (operation flags kind : Z) (l : list Z) : option SessionRequest :=
  kind ← (if kind =? 1 then Some KindGenericSecret else if kind =? 2 then Some KindAes else None);
  '(length, l) ← take_be 2 l;
  if operation =? SESSION_DERIVE_ECDH then
    '(base, l) ← decode_source l;
    '(n, l) ← take_be 2 l;
    if n =? len l then Some (ReqEcdh flags kind length base l) else None
  else if operation =? SESSION_COUNTER_KDF then
    '(base, l) ← decode_source l;
    '(count, l) ← take_be 1 l;
    fields ← decode_fields (Z.to_nat count) l;
    Some (ReqCounter flags kind length base fields)
  else
    '(base, l) ← take_be 8 l;
    if operation =? SESSION_CONCATENATE_DATA then Some (ReqAppendData flags kind length base l)
    else if operation =? SESSION_CONCATENATE_KEY then
      '(other, l) ← take_be 8 l;
      match l with [] => Some (ReqAppendKey flags kind length base other) | _ => None end
    else if operation =? SESSION_EXTRACT then
      '(offset, l) ← take_be 2 l;
      match l with [] => Some (ReqExtract flags kind length base offset) | _ => None end
    else if operation =? SESSION_SHA256 then
      match l with [] => Some (ReqSha256 flags kind length base) | _ => None end
    else None.

Definition decode_session_request (data : list Z) : option SessionRequest :=
  match data with
  | operation :: l =>
      if operation =? SESSION_OBJECT_READ then
        '(handle, l) ← take_be 8 l; match l with [] => Some (ReqRead handle) | _ => None end
      else if operation =? SESSION_DELETE_OBJECT then
        '(handle, l) ← take_be 8 l; match l with [] => Some (ReqDelete handle) | _ => None end
      else if operation =? VERIFY_CMAC then
        '(handle, l) ← take_be 8 l;
        '(n, l) ← take_be 1 l;
        '(signature, l) ← take_bytes n l;
        Some (ReqVerify handle signature l)
      else if operation =? SESSION_GENERATE_ASYMMETRIC_KEY then
        match l with [flags; _] => Some (ReqGenerate flags) | _ => None end
      else match l with flags :: kind :: l => decode_derivation operation flags kind l | _ => None end
  | [] => None
  end.

(** The integers of a request have the width of their Rust types. *)
Definition handle_ok (h : Z) : Prop := 0 ≤ h < 2 ^ 64.
Definition source_ok (s : SessionObjectSource) : Prop :=
  match s with Volatile h => handle_ok h | PersistentAsymmetric id | PersistentSymmetric id => 0 ≤ id < 65536 end.
Definition request_ok (r : SessionRequest) : Prop :=
  match r with
  | ReqGenerate _ => True
  | ReqEcdh _ _ length base _ | ReqCounter _ _ length base _ => 0 ≤ length ∧ source_ok base
  | ReqAppendKey _ _ length base other => 0 ≤ length ∧ handle_ok base ∧ handle_ok other
  | ReqAppendData _ _ length base _ | ReqSha256 _ _ length base => 0 ≤ length ∧ handle_ok base
  | ReqExtract _ _ length base offset => 0 ≤ length ∧ handle_ok base ∧ 0 ≤ offset
  | ReqRead handle | ReqVerify handle _ _ | ReqDelete handle => handle_ok handle
  end.

(** *** Reading back what was written *)

Lemma be16_be_bytes n : 0 ≤ n < 65536 → be16 n = be_bytes 2 n.
Proof.
  intros Hn. unfold be16. cbn [be_bytes app]. rewrite (Z.mod_small (n / 256)); [done|].
  split; [apply Z.div_pos; lia|apply Z.div_lt_upper_bound; lia].
Qed.

Lemma take_bytes_app value rest : take_bytes (len value) (value ++ rest) = Some (value, rest).
Proof.
  unfold take_bytes. pose proof (len_nonneg rest). rewrite len_app.
  test_false (len value + len rest <? len value). by rewrite ztake_app_len, zdrop_app_len.
Qed.

Lemma take_be_bytes w n rest : 0 ≤ n < 256 ^ Z.of_nat w → take_be (Z.of_nat w) (be_bytes w n ++ rest) = Some (n, rest).
Proof.
  intros Hn. pose proof (take_bytes_app (be_bytes w n) rest) as E. unfold take_bytes, take_be in *.
  replace (len (be_bytes w n)) with (Z.of_nat w) in E by (unfold len; by rewrite length_be_bytes).
  destruct (len (be_bytes w n ++ rest) <? Z.of_nat w); [done|].
  injection E as -> ->. by rewrite (proj1 (be_bytes_value w n Hn)).
Qed.

Lemma take_handle n rest : handle_ok n → take_be 8 (be_bytes 8 n ++ rest) = Some (n, rest).
Proof. intros Hn. apply (take_be_bytes 8). exact Hn. Qed.

Lemma take_handle_last n : handle_ok n → take_be 8 (be_bytes 8 n) = Some (n, []).
Proof. intros Hn. rewrite <-(app_nil_r (be_bytes 8 n)). by apply take_handle. Qed.

Lemma take_be16 n rest : 0 ≤ n < 65536 → take_be 2 (be16 n ++ rest) = Some (n, rest).
Proof. intros Hn. rewrite be16_be_bytes by done. apply (take_be_bytes 2). exact Hn. Qed.

Lemma take_be8 n rest : take_be 1 (n :: rest) = Some (n, rest).
Proof.
  unfold take_be. rewrite len_cons. pose proof (len_nonneg rest). test_false (1 + len rest <? 1).
  change (ztake 1 (n :: rest)) with [n]. change (zdrop 1 (n :: rest)) with rest.
  by change (from_bytes_be [n]) with n.
Qed.

Lemma u16_try_from_Ok e n v : u16_try_from e n = Ok v → v = n ∧ n < 65536.
Proof. unfold u16_try_from, bail. case_if; [done|]. injection 1 as <-. lia. Qed.

Lemma command_from_vec_Ok code data c :
  Command_from_vec code data = Ok c → c = mkCommand code data ∧ len data ≤ MAX_COMMAND_DATA_LENGTH.
Proof. unfold Command_from_vec. case_if; [done|]. injection 1 as <-. bool_to_prop. done. Qed.

Lemma decode_source_spec s rest : source_ok s → decode_source (session_source s ++ rest) = Some (s, rest).
Proof.
  destruct s; intros Hs; cbn [session_source app decode_source].
  - by rewrite take_handle.
  - by rewrite take_be16.
  - by rewrite take_be16.
Qed.

Lemma decode_field_spec f bytes rest : counter_field f = Ok bytes → decode_field (bytes ++ rest) = Some (f, rest).
Proof.
  destruct f as [value|[width endian]|[width endian] method]; cbn [counter_field]; intros E.
  - o_inv E. apply u16_try_from_Ok in E0 as [-> Hn]. injection E as <-. pose proof (len_nonneg value).
    change (decode_field (0 :: be16 (len value) ++ (value ++ rest)) = Some (FieldBytes value, rest)). cbn [decode_field].
    rewrite take_be16 by lia. cbn [mbind option_bind]. by rewrite take_bytes_app.
  - injection E as <-. cbn. by destruct endian.
  - injection E as <-. cbn. by destruct endian, method.
Qed.

Lemma decode_fields_spec fields bytes :
  counter_fields fields = Ok bytes → decode_fields (length fields) bytes = Some fields.
Proof.
  revert bytes. induction fields as [|f fields IH]; intros bytes; cbn [counter_fields]; intros E.
  { by injection E as <-. }
  o_inv E. injection E as <-. cbn [decode_fields length].
  rewrite (decode_field_spec _ _ _ E0). cbn [mbind option_bind]. by rewrite (IH _ E1).
Qed.

Lemma session_header_Ok op flags kind length header :
  session_header op flags kind length = Ok header →
  header = [op; flags; session_kind kind] ++ be16 length ∧ length < 65536.
Proof. unfold session_header. intros E. o_inv E. apply u16_try_from_Ok in E0 as [-> ?]. by injection E as <-. Qed.

(** A derivation is decoded by its operation once its header is read. *)
Lemma decode_derivation_spec op flags kind length operands :
  0 ≤ length < 65536 →
  one_of [SESSION_OBJECT_READ; SESSION_DELETE_OBJECT; VERIFY_CMAC; SESSION_GENERATE_ASYMMETRIC_KEY] op = false →
  decode_session_request (([op; flags; session_kind kind] ++ be16 length) ++ operands) =
  decode_derivation op flags (session_kind kind) (be16 length ++ operands).
Proof.
  intros _ Hop. unfold one_of in Hop. cbn [existsb] in Hop. bool_to_prop. cbn [app decode_session_request].
  by test_false (op =? SESSION_OBJECT_READ); test_false (op =? SESSION_DELETE_OBJECT); test_false (op =? VERIFY_CMAC);
     test_false (op =? SESSION_GENERATE_ASYMMETRIC_KEY).
Qed.

Lemma decode_kind kind :
  (if session_kind kind =? 1 then Some KindGenericSecret else if session_kind kind =? 2 then Some KindAes else None) =
  Some kind.
Proof. by destruct kind. Qed.

Ltac derivation E H :=
  apply session_header_Ok in H as [-> H]; apply command_from_vec_Ok in E as [-> ?]; cbn [cmd_code cmd_data];
  split_and!; [done|done|];
  rewrite decode_derivation_spec by (done || lia); unfold decode_derivation; rewrite decode_kind;
  cbn [mbind option_bind]; rewrite take_be16 by lia; cbn [mbind option_bind Z.eqb Pos.eqb
    SESSION_DERIVE_ECDH SESSION_COUNTER_KDF SESSION_CONCATENATE_DATA SESSION_CONCATENATE_KEY SESSION_EXTRACT SESSION_SHA256].

(** the device reads from every session-object command exactly the request it was built from, so no two requests
    share an encoding, and no command is longer than a frame can carry. *)
Theorem session_request_decodes (r : SessionRequest) (c : Command) :
  request_ok r → session_request_command r = Ok c →
  cmd_code c = SessionObject ∧ len (cmd_data c) ≤ MAX_COMMAND_DATA_LENGTH ∧ decode_session_request (cmd_data c) = Some r.
Proof.
  destruct r as [flags|flags kind n base peer|flags kind n base other|flags kind n base suffix|flags kind n base offset
                |flags kind n base|flags kind n base fields|handle|handle signature data|handle];
    cbn [request_ok session_request_command]; intros Hr E.
  - apply command_from_vec_Ok in E as [-> ?]. done.
  - unfold derive_session_ecdh in E. o_inv E. apply u16_try_from_Ok in E0 as [-> Hp]. pose proof (len_nonneg peer).
    destruct Hr as [Hn Hb]. derivation E E1.
    rewrite decode_source_spec by done. cbn [mbind option_bind]. rewrite take_be16 by lia. cbn [mbind option_bind].
    by rewrite Z.eqb_refl.
  - unfold derive_session_append_key in E. o_inv E. destruct Hr as (Hn & Hb & Ho). derivation E E0.
    rewrite take_handle by done. cbn [mbind option_bind]. by rewrite take_handle_last.
  - unfold derive_session_append_data in E. o_inv E. destruct Hr as (Hn & Hb). derivation E E0.
    by rewrite take_handle.
  - unfold derive_session_extract in E. o_inv E. apply u16_try_from_Ok in E0 as [-> Ho]. destruct Hr as (Hn & Hb & Hp).
    derivation E E1. rewrite take_handle by done. cbn [mbind option_bind].
    rewrite <-(app_nil_r (be16 offset)), take_be16 by lia. done.
  - unfold derive_session_sha256 in E. o_inv E. destruct Hr as (Hn & Hb). derivation E E0. by rewrite take_handle_last.
  - unfold derive_session_counter in E. o_inv E. destruct Hr as (Hn & Hb).
    unfold u8_try_from, bail in E0. destruct (255 <? len fields) eqn:Hc; [done|]. injection E0 as <-.
    derivation E E2. rewrite decode_source_spec by done. cbn [mbind option_bind app]. rewrite take_be8.
    cbn [mbind option_bind]. replace (Z.to_nat (len fields)) with (length fields) by (unfold len; lia).
    by rewrite (decode_fields_spec _ _ E3).
  - injection E as <-. cbn [cmd_code cmd_data read_session_object]. split_and!; [done| |].
    { rewrite len_cons. unfold len. rewrite length_be_bytes. done. }
    cbn [decode_session_request Z.eqb Pos.eqb SESSION_OBJECT_READ]. by rewrite take_handle_last.
  - unfold verify_session_object in E. o_inv E. apply command_from_vec_Ok in E as [-> ?]. cbn [cmd_code cmd_data].
    split_and!; [done|done|].
    cbn [decode_session_request app Z.eqb Pos.eqb SESSION_OBJECT_READ SESSION_DELETE_OBJECT VERIFY_CMAC].
    rewrite take_handle by done. cbn [mbind option_bind]. rewrite take_be8. cbn [mbind option_bind].
    by rewrite take_bytes_app.
  - injection E as <-. cbn [cmd_code cmd_data delete_session_object_command]. split_and!; [done| |].
    { rewrite len_cons. unfold len. rewrite length_be_bytes. done. }
    cbn [decode_session_request Z.eqb Pos.eqb SESSION_OBJECT_READ SESSION_DELETE_OBJECT]. by rewrite take_handle_last.
Qed.

Definition sample_request : SessionRequest :=
  ReqCounter 3 KindAes 16 (PersistentSymmetric 7)
    [FieldCounter (mkIntegerFormat 8 true); FieldBytes [1; 2; 3]; FieldLength (mkIntegerFormat 16 false) LengthSegments].
Lemma session_request_decodes_witness :
  decode_session_request [7; 3; 2; 0; 16; 2; 0; 7; 3; 1; 8; 1; 0; 0; 3; 1; 2; 3; 2; 16; 0; 1] = Some sample_request.
Proof.
  apply (session_request_decodes sample_request
           (mkCommand SessionObject [7; 3; 2; 0; 16; 2; 0; 7; 3; 1; 8; 1; 0; 0; 3; 1; 2; 3; 2; 16; 0; 1])); [|done].
  cbn. lia.
Defined.

(** ** Objects on the device *)

(** The parameters at the front of a command, and the bytes after them. A label
    ends at the first zero byte. *)
Definition decode_object_parameters (l : list Z) : option (ObjectParameters * list Z) :=
  '(id, l) ← take_be 2 l;
  '(label, l) ← take_bytes LABEL_LENGTH l;
  '(domains, l) ← take_be 2 l;
  '(capabilities, l) ← take_bytes CAPABILITIES_LENGTH l;
  '(algorithm, l) ← take_be 1 l;
  Some (mkObjectParameters id (until_zero label) domains capabilities algorithm, l).

(** The device's answer to [GetObjectInfo] for an object stored with [p]. *)
Definition object_info_reply (p : ObjectParameters) (length object_type sequence origin : Z) (delegated : list Z) : list Z :=
  op_capabilities p ++ be16 (op_id p) ++ be16 length ++ be16 (op_domains p)
  ++ [object_type; op_algorithm p; sequence; origin] ++ zero_padded LABEL_LENGTH (op_label p) ++ delegated.

(** A label is text without a zero byte, and the fields have their widths. *)
Definition parameters_ok (p : ObjectParameters) : Prop :=
  0 ≤ op_id p < 65536 ∧ 0 ≤ op_domains p < 65536 ∧ len (op_capabilities p) = CAPABILITIES_LENGTH
  ∧ Forall (λ b, b ≠ 0) (op_label p) ∧ utf8_valid (op_label p) = true.

Lemma until_zero_padded label n : Forall (λ b, b ≠ 0) label → until_zero (label ++ replicate n 0) = label.
Proof.
  induction 1 as [|b label Hb Hl IH]; cbn [app until_zero]; [by destruct n|].
  test_false (b =? 0). by rewrite IH.
Qed.

Lemma len_zero_padded n v : len v ≤ n → len (zero_padded n v) = n.
Proof. intros Hv. unfold zero_padded. simp_len. lia. Qed.

Lemma encode_object_parameters_Ok p data :
  encode_object_parameters p = Ok data →
  data = be16 (op_id p) ++ zero_padded LABEL_LENGTH (op_label p) ++ be16 (op_domains p) ++ op_capabilities p
         ++ [op_algorithm p] ∧ len (op_label p) ≤ LABEL_LENGTH.
Proof.
  unfold encode_object_parameters, bail. case_if; [done|]. cbn [obind]. intros E. bool_to_prop. split; [|done].
  transitivity (zero_padded (2 + LABEL_LENGTH) (be16 (op_id p) ++ op_label p) ++ be16 (op_domains p) ++ op_capabilities p
                ++ [op_algorithm p]); [congruence|]. unfold zero_padded. rewrite len_app, len_be16, <-!app_assoc.
  by replace (2 + LABEL_LENGTH - (2 + len (op_label p))) with (LABEL_LENGTH - len (op_label p)) by lia.
Qed.

Lemma decode_object_parameters_spec p data rest :
  parameters_ok p → encode_object_parameters p = Ok data → decode_object_parameters (data ++ rest) = Some (p, rest).
Proof.
  intros (Hi & Hd & Hc & Hl & _) E. apply encode_object_parameters_Ok in E as [-> Hn].
  unfold decode_object_parameters. rewrite <-!app_assoc, take_be16 by done. cbn [mbind option_bind].
  pose proof (take_bytes_app (zero_padded LABEL_LENGTH (op_label p))
                (be16 (op_domains p) ++ op_capabilities p ++ [op_algorithm p] ++ rest)) as E.
  rewrite len_zero_padded in E by done. rewrite E. cbn [mbind option_bind]. rewrite take_be16 by done.
  cbn [mbind option_bind]. rewrite <-Hc, take_bytes_app. cbn [mbind option_bind app]. rewrite take_be8.
  cbn [mbind option_bind]. unfold zero_padded. rewrite until_zero_padded by done. by destruct p.
Qed.

(** A field between two others, at a known place. *)
Lemma slice_at (i : Z) (a b c : list Z) : len a = i → slice i (i + len b) (a ++ b ++ c) = b.
Proof. intros <-. apply slice_middle. Qed.

Lemma read_u16_at (i : Z) (a : list Z) n (c : list Z) : len a = i → 0 ≤ n < 65536 → read_u16 (a ++ be16 n ++ c) i = Ok n.
Proof.
  intros Ha Hn. unfold read_u16, read_be, bail. simp_len. rewrite len_be16. pose proof (len_nonneg c).
  test_false (len a + (2 + len c) <? i + 2). cbn [obind].
  pose proof (slice_at i a (be16 n) c Ha) as E. rewrite len_be16 in E. rewrite E.
  rewrite be16_be_bytes by done. f_equal. by apply (be_bytes_value 2).
Qed.

(** The parser on the fields of a reply, in their order. *)
Lemma parse_object_info_fields caps id n domains t alg sequence origin label delegated :
  len caps = 8 → 0 ≤ id < 65536 → 0 ≤ n < 65536 → 0 ≤ domains < 65536 → len label = 40 → len delegated = 8 →
  utf8_valid (until_zero label) = true →
  parse_object_info (caps ++ be16 id ++ be16 n ++ be16 domains ++ [t; alg; sequence; origin] ++ label ++ delegated) =
  Ok (mkObjectInfo caps id n domains t alg sequence origin (until_zero label) delegated).
Proof.
  intros Hc Hi Hn Hd Hl Hg Hu. unfold parse_object_info, bail.
  set (tail := [t; alg; sequence; origin] ++ label ++ delegated).
  assert (len tail = 52) as Ht by (unfold tail; simp_len; change (len [t; alg; sequence; origin]) with 4; lia).
  assert (len (caps ++ be16 id ++ be16 n ++ be16 domains ++ tail) = 66) as E by (simp_len; rewrite !len_be16; lia).
  rewrite E. cbn [negb Z.eqb Pos.eqb obind].
  rewrite read_u16_at by done. cbn [obind].
  rewrite (app_assoc caps), read_u16_at by (first [done|simp_len; rewrite len_be16; lia]). cbn [obind].
  rewrite (app_assoc _ (be16 n)), read_u16_at by (first [done|simp_len; rewrite !len_be16; lia]). cbn [obind].
  set (front := ((caps ++ be16 id) ++ be16 n) ++ be16 domains).
  rewrite (app_assoc _ (be16 domains)). fold front.
  assert (len front = 14) as Hf by (unfold front; simp_len; rewrite !len_be16; lia).
  assert (∀ i, 0 ≤ i → at_ (front ++ tail) (14 + i) = at_ tail i) as Hat.
  { intros i Hi'. rewrite <-Hf. apply at_app_r. done. }
  assert (front ++ tail = (front ++ [t; alg; sequence; origin]) ++ label ++ delegated) as Es
    by (unfold tail; by rewrite !app_assoc).
  assert (slice 18 58 (front ++ tail) = label) as ->.
  { pose proof (slice_at 18 (front ++ [t; alg; sequence; origin]) label delegated) as El. rewrite Es. rewrite Hl in El.
    apply El. rewrite len_app, Hf. done. }
  assert (slice 58 66 (front ++ tail) = delegated) as ->.
  { pose proof (slice_at 58 ((front ++ [t; alg; sequence; origin]) ++ label) delegated []) as El.
    rewrite Es, app_assoc. rewrite Hg, app_nil_r in El. apply El. rewrite !len_app, Hf, Hl. done. }
  assert (slice 0 8 (front ++ tail) = caps) as ->.
  { unfold front. rewrite <-!app_assoc.
    pose proof (slice_at 0 [] caps (be16 id ++ be16 n ++ be16 domains ++ tail) eq_refl) as Ec. by rewrite Hc in Ec. }
  rewrite Hu. cbn [negb obind].
  change 14 with (14 + 0). change 15 with (14 + 1). change 16 with (14 + 2). change 17 with (14 + 3).
  by rewrite !Hat by lia.
Qed.

(** a device that stores what a put command carries has the parameters and the value that the library meant, and
    the library reads from the device's description of that object the same identifier, domains, capabilities, algorithm
    and label. *)
Theorem stored_object_reads_back (code : CommandCode) (p : ObjectParameters) (value : list Z) (c : Command)
    (length object_type sequence origin : Z) (delegated : list Z) :
  parameters_ok p → 0 ≤ length < 65536 → len delegated = CAPABILITIES_LENGTH → put_object code p value = Ok c →
  cmd_code c = code ∧ decode_object_parameters (cmd_data c) = Some (p, value) ∧
  parse_object_info (object_info_reply p length object_type sequence origin delegated) =
    Ok (mkObjectInfo (op_capabilities p) (op_id p) length (op_domains p) object_type (op_algorithm p) sequence origin
          (op_label p) delegated).
Proof.
  intros Hp Hn Hg E. unfold put_object in E. o_inv E. apply command_from_vec_Ok in E as [-> _]. cbn [cmd_code cmd_data].
  split_and!; [done|by apply decode_object_parameters_spec|].
  destruct Hp as (Hi & Hd & Hc & Hl & Hu). apply encode_object_parameters_Ok in E1 as [_ Hlen].
  assert (until_zero (zero_padded LABEL_LENGTH (op_label p)) = op_label p) as El by (by apply until_zero_padded).
  unfold object_info_reply. rewrite parse_object_info_fields; rewrite ?El; try done. by apply len_zero_padded.
Qed.

Definition sample_parameters : ObjectParameters := mkObjectParameters 0x1234 [107; 101; 121] 0xffff (replicate 8 1) 12.
Lemma stored_object_reads_back_witness :
  ∃ c, put_object PutAsymmetricKey sample_parameters [9; 9] = Ok c ∧
       decode_object_parameters (cmd_data c) = Some (sample_parameters, [9; 9]).
Proof.
  eexists. split; [reflexivity|].
  apply (stored_object_reads_back PutAsymmetricKey sample_parameters [9; 9] _ 2 3 0 1 (replicate 8 0)); [|done..].
  split_and!; try done. repeat constructor; done.
Defined.

(** the device's list of objects is read entry by entry, each entry as it was written. *)
Theorem object_list_reads_back (entries : list ObjectEntry) :
  len entries ≤ MAX_OBJECT_COUNT → Forall (λ e, 0 ≤ entry_id e < 65536) entries →
  parse_object_list (concat (map (λ e, be16 (entry_id e) ++ [entry_type e; entry_sequence e]) entries)) = Ok entries.
Proof.
  intros Hn Hf. set (rows := map _ entries).
  assert (Forall (λ r, length r = 4%nat) rows) as Hr by (apply Forall_map, Forall_true; done).
  assert (len (concat rows) = 4 * len entries) as El.
  { unfold rows. clear. induction entries as [|e entries IH]; [done|]. cbn [map concat]. simp_len. rewrite IH, len_be16.
    change (len [entry_type e; entry_sequence e]) with 2. lia. }
  assert (chunks 4 (concat rows) = rows) as Ec.
  { clear -Hr. induction Hr as [|r rows Hr Hf IH]; [done|]. cbn [concat].
    rewrite chunks_cons; [|lia|by destruct r]. rewrite take_app_length', drop_app_length' by done. by rewrite IH. }
  unfold parse_object_list. rewrite El, Ec, Z.mul_comm. unfold is_multiple_of. rewrite Z.mod_mul, Z.div_mul by lia.
  unfold bail. test_false (MAX_OBJECT_COUNT <? len entries). cbn [negb Z.eqb Pos.eqb andb orb obind].
  clear -Hf. unfold rows. clear rows. induction Hf as [|e entries He Hf IH]; [done|]. cbn [map collect_results].
  pose proof (read_u16_at 0 [] (entry_id e) [entry_type e; entry_sequence e] eq_refl He) as E.
  cbn [app] in E. rewrite E. cbn [obind].
  rewrite IH. cbn [obind]. by destruct e.
Qed.

Lemma object_list_reads_back_witness :
  parse_object_list [0; 1; 3; 0; 0x12; 0x34; 5; 2] = Ok [mkObjectEntry 1 3 0; mkObjectEntry 0x1234 5 2].
Proof.
  apply (object_list_reads_back [mkObjectEntry 1 3 0; mkObjectEntry 0x1234 5 2]); [done|].
  repeat constructor; cbn; lia.
Defined.
