(* ===== verification/PivTables.v ===== *)
(** * PivTables: slots and data objects of the PIV application

    The tables of [src/src/piv.rs]: the key slots with their identifiers, the
    data objects with theirs, and the lookups by tag, by identifier and by OID. A
    slot is its number on the card. *)
From S2P Require Import Prelude Errors Storage Mechanisms.

(** ** Slots *)

Definition SLOT_AUTHENTICATION : Z := 0x9a.
Definition SLOT_SIGNATURE : Z := 0x9c.
Definition SLOT_KEY_MANAGEMENT : Z := 0x9d.
Definition SLOT_CARD_AUTHENTICATION : Z := 0x9e.
Definition SLOT_RETIRED1 : Z := 0x82.
Definition SLOT_ATTESTATION : Z := 0xf9.

Definition retired_slots : list Z := seqZ SLOT_RETIRED1 20.
Definition ALL_SLOTS : list Z :=
  [SLOT_AUTHENTICATION; SLOT_SIGNATURE; SLOT_KEY_MANAGEMENT; SLOT_CARD_AUTHENTICATION]
  ++ retired_slots ++ [SLOT_ATTESTATION].

Definition cka_id (slot : Z) : Z :=
  if slot =? SLOT_AUTHENTICATION then 1
  else if slot =? SLOT_SIGNATURE then 2
  else if slot =? SLOT_KEY_MANAGEMENT then 3
  else if slot =? SLOT_CARD_AUTHENTICATION then 4
  else if slot =? SLOT_ATTESTATION then 25
  else 5 + (slot - SLOT_RETIRED1).
Definition from_cka_id (id : Z) : option Z := List.find (λ slot, cka_id slot =? id) ALL_SLOTS.
Definition certificate_object (slot : Z) : Z :=
  if slot =? SLOT_AUTHENTICATION then 0x5fc105
  else if slot =? SLOT_SIGNATURE then 0x5fc10a
  else if slot =? SLOT_KEY_MANAGEMENT then 0x5fc10b
  else if slot =? SLOT_CARD_AUTHENTICATION then 0x5fc101
  else if slot =? SLOT_ATTESTATION then 0x5fff01
  else 0x5fc10d + (slot - SLOT_RETIRED1).

(** ** Data objects *)

Record DataObjectMapping : Type := mkMapping {
  mapping_object_id : Z;
  mapping_cka_id : Z;
  mapping_name : list Z;
  mapping_slot : option Z;
}.

Definition DATA_OBJECTS : list DataObjectMapping :=
  [mkMapping 0x5fc105 1 (str "X.509 Certificate for PIV Authentication") (Some SLOT_AUTHENTICATION);
   mkMapping 0x5fc10a 2 (str "X.509 Certificate for Digital Signature") (Some SLOT_SIGNATURE);
   mkMapping 0x5fc10b 3 (str "X.509 Certificate for Key Management") (Some SLOT_KEY_MANAGEMENT);
   mkMapping 0x5fc101 4 (str "X.509 Certificate for Card Authentication") (Some SLOT_CARD_AUTHENTICATION);
   mkMapping 0x5fc10d 5 (str "X.509 Certificate for Retired Key 1") (Some (SLOT_RETIRED1 + 0));
   mkMapping 0x5fc10e 6 (str "X.509 Certificate for Retired Key 2") (Some (SLOT_RETIRED1 + 1));
   mkMapping 0x5fc10f 7 (str "X.509 Certificate for Retired Key 3") (Some (SLOT_RETIRED1 + 2));
   mkMapping 0x5fc110 8 (str "X.509 Certificate for Retired Key 4") (Some (SLOT_RETIRED1 + 3));
   mkMapping 0x5fc111 9 (str "X.509 Certificate for Retired Key 5") (Some (SLOT_RETIRED1 + 4));
   mkMapping 0x5fc112 10 (str "X.509 Certificate for Retired Key 6") (Some (SLOT_RETIRED1 + 5));
   mkMapping 0x5fc113 11 (str "X.509 Certificate for Retired Key 7") (Some (SLOT_RETIRED1 + 6));
   mkMapping 0x5fc114 12 (str "X.509 Certificate for Retired Key 8") (Some (SLOT_RETIRED1 + 7));
   mkMapping 0x5fc115 13 (str "X.509 Certificate for Retired Key 9") (Some (SLOT_RETIRED1 + 8));
   mkMapping 0x5fc116 14 (str "X.509 Certificate for Retired Key 10") (Some (SLOT_RETIRED1 + 9));
   mkMapping 0x5fc117 15 (str "X.509 Certificate for Retired Key 11") (Some (SLOT_RETIRED1 + 10));
   mkMapping 0x5fc118 16 (str "X.509 Certificate for Retired Key 12") (Some (SLOT_RETIRED1 + 11));
   mkMapping 0x5fc119 17 (str "X.509 Certificate for Retired Key 13") (Some (SLOT_RETIRED1 + 12));
   mkMapping 0x5fc11a 18 (str "X.509 Certificate for Retired Key 14") (Some (SLOT_RETIRED1 + 13));
   mkMapping 0x5fc11b 19 (str "X.509 Certificate for Retired Key 15") (Some (SLOT_RETIRED1 + 14));
   mkMapping 0x5fc11c 20 (str "X.509 Certificate for Retired Key 16") (Some (SLOT_RETIRED1 + 15));
   mkMapping 0x5fc11d 21 (str "X.509 Certificate for Retired Key 17") (Some (SLOT_RETIRED1 + 16));
   mkMapping 0x5fc11e 22 (str "X.509 Certificate for Retired Key 18") (Some (SLOT_RETIRED1 + 17));
   mkMapping 0x5fc11f 23 (str "X.509 Certificate for Retired Key 19") (Some (SLOT_RETIRED1 + 18));
   mkMapping 0x5fc120 24 (str "X.509 Certificate for Retired Key 20") (Some (SLOT_RETIRED1 + 19));
   mkMapping 0x5fff01 25 (str "X.509 Certificate for PIV Attestation") (Some SLOT_ATTESTATION);
   mkMapping 0x5fc107 26 (str "Card Capability Container") None;
   mkMapping 0x5fc102 27 (str "Cardholder Unique Identifier") None;
   mkMapping 0x5fc103 28 (str "Cardholder Fingerprints") None;
   mkMapping 0x5fc106 29 (str "Security Object") None;
   mkMapping 0x5fc108 30 (str "Cardholder Facial Images") None;
   mkMapping 0x5fc109 31 (str "Printed Information") None;
   mkMapping 0x7e 32 (str "Discovery Object") None;
   mkMapping 0x5fc10c 33 (str "Key History Object") None;
   mkMapping 0x5fc121 34 (str "Cardholder Iris Images") None;
   mkMapping 0x7f61 35 (str "Biometric Information Templates Group Template") None;
   mkMapping 0x5fc122 36 (str "Secure Messaging Certificate Signer") None;
   mkMapping 0x5fc123 37 (str "Pairing Code Reference Data Container") None].

Definition data_object_mapping (object_id : Z) : option DataObjectMapping :=
  List.find (λ m, mapping_object_id m =? object_id) DATA_OBJECTS.
Definition data_object_mapping_by_cka_id (id : Z) : option DataObjectMapping :=
  List.find (λ m, mapping_cka_id m =? id) DATA_OBJECTS.

Definition NIST_PIV_ARC : list Z := [0x60; 0x86; 0x48; 0x01; 0x65; 0x03; 0x07].

(** The OID of a data object, from its CKA_ID. *)
Definition data_object_oid (m : DataObjectMapping) : option (list Z) :=
  let id := mapping_cka_id m in
  if id =? 1 then Some (NIST_PIV_ARC ++ [0x02; 0x01; 0x01])
  else if id =? 2 then Some (NIST_PIV_ARC ++ [0x02; 0x01; 0x00])
  else if id =? 3 then Some (NIST_PIV_ARC ++ [0x02; 0x01; 0x02])
  else if id =? 4 then Some (NIST_PIV_ARC ++ [0x02; 0x05; 0x00])
  else if between 5 id 24 then Some (NIST_PIV_ARC ++ [0x02; 0x10; id - 4])
  else if id =? 25 then Some [0x2b; 0x06; 0x01; 0x04; 0x01; 0x82; 0xc4; 0x0a; 0x03]
  else if id =? 26 then Some (NIST_PIV_ARC ++ [0x01; 0x81; 0x5b; 0x00])
  else if id =? 27 then Some (NIST_PIV_ARC ++ [0x02; 0x30; 0x00])
  else if id =? 28 then Some (NIST_PIV_ARC ++ [0x02; 0x60; 0x10])
  else if id =? 29 then Some (NIST_PIV_ARC ++ [0x02; 0x81; 0x10; 0x00])
  else if id =? 30 then Some (NIST_PIV_ARC ++ [0x02; 0x60; 0x30])
  else if id =? 31 then Some (NIST_PIV_ARC ++ [0x02; 0x30; 0x01])
  else if id =? 32 then Some (NIST_PIV_ARC ++ [0x02; 0x60; 0x50])
  else if id =? 33 then Some (NIST_PIV_ARC ++ [0x02; 0x60; 0x60])
  else if between 34 id 37 then Some (NIST_PIV_ARC ++ [0x02; 0x10; id - 13])
  else None.
Definition data_object_mapping_by_oid (oid : list Z) : option DataObjectMapping :=
  List.find (λ m, bool_decide (data_object_oid m = Some oid)) DATA_OBJECTS.

Definition data_object_allowed (object_id : Z) : bool :=
  bool_decide (data_object_mapping object_id ≠ None)
  || (between 0x5fff00 object_id 0x5fffff && negb (object_id =? 0x5fff01)).

(** ** The tables agree *)

(** Every data object is found again by its tag, its CKA_ID and its OID, and the
    certificates are the data objects of the slots. *)
Lemma piv_tables_agree :
  forallb (λ m, bool_decide (
      mapping_object_id <$> data_object_mapping (mapping_object_id m) = Some (mapping_object_id m) ∧
      mapping_object_id <$> data_object_mapping_by_cka_id (mapping_cka_id m) = Some (mapping_object_id m) ∧
      mapping_object_id <$> (data_object_oid m ≫= data_object_mapping_by_oid) = Some (mapping_object_id m)))
    DATA_OBJECTS = true ∧
  forallb (λ slot, bool_decide (
      from_cka_id (cka_id slot) = Some slot ∧
      (data_object_mapping (certificate_object slot) ≫= mapping_slot) = Some slot ∧
      mapping_cka_id <$> data_object_mapping (certificate_object slot) = Some (cka_id slot))) ALL_SLOTS = true.
Proof. split; vm_compute; reflexivity. Qed.

Lemma from_cka_id_Some id slot : from_cka_id id = Some slot → cka_id slot = id ∧ slot ∈ ALL_SLOTS.
Proof. intros [H1 H2]%find_some. split; [lia|by apply list_elem_of_In]. Qed.
