(* ===== verification/OathOtp.v ===== *)
(** * OathOtp: one-time passwords as signatures

    The part of [src/src/oath.rs] behind [C_SignInit] and [C_Sign]: the OTP
    parameters of a mechanism with their time stamps, the start of an operation
    on an OATH credential, and the call that computes a code. A code is computed
    only when it can be delivered, because a HOTP credential counts every
    computation.

    [C_Sign] writes C structures with pointers into the caller's buffer; the
    address of the buffer is an argument. *)
From S2P Require Import Prelude Errors Mechanisms Storage YubiHsm SlotState SessionApi CryptApi Digests.

Definition CK_OTP_VALUE : Z := 0.
Definition CK_OTP_PIN : Z := 1.
Definition CK_OTP_CHALLENGE : Z := 2.
Definition CK_OTP_TIME : Z := 3.
Definition CK_OTP_COUNTER : Z := 4.
Definition CK_OTP_FLAGS : Z := 5.
Definition CK_OTP_OUTPUT_FORMAT : Z := 7.
Definition CK_OTP_FORMAT_DECIMAL : Z := 0.
Definition CKF_USER_FRIENDLY_OTP : Z := 32.

(** ** Credentials *)

Definition Credential_mechanism (c : Credential) : Z :=
  if cred_totp c then CKM_PKCS11RS_TOTP else if cred_extended c then CKM_PKCS11RS_HOTP else CKM_HOTP.
Definition Credential_key_type (c : Credential) : Z :=
  if cred_totp c then CKK_PKCS11RS_TOTP else if cred_extended c then CKK_PKCS11RS_HOTP else CKK_HOTP.
Definition Credential_hash_mechanism (c : Credential) : Z :=
  if cred_hash c =? 1 then CKM_SHA_1 else if cred_hash c =? 2 then CKM_SHA256 else CKM_SHA512.

Definition oath_is_mechanism (m : Z) : bool := one_of [CKM_HOTP; CKM_PKCS11RS_TOTP; CKM_PKCS11RS_HOTP] m.

(** ** Time stamps *)

Definition is_ascii_digit (b : Z) : bool := (48 <=? b) && (b <=? 57).
Definition number (s : list Z) : Z := foldl (λ a v, a * 10 + (v - 48)) 0 s.
Definition leap (y : Z) : bool := (y mod 4 =? 0) && (negb (y mod 100 =? 0) || (y mod 400 =? 0)).
Definition month_lengths (year : Z) : list Z :=
  [31; if leap year then 29 else 28; 31; 30; 31; 30; 31; 31; 30; 31; 30; 31].
Definition sum (l : list Z) : Z := foldr Z.add 0 l.

(** [(1970..year).map(…).sum()] *)
Definition year_days (year : Z) : Z :=
  sum ((λ y, if leap y then 366 else 365) <$> seqZ 1970 (year - 1970)).

Definition parse_time (v : list Z) : outcome Error Z :=
  if negb (len v =? 14) || negb (forallb is_ascii_digit v) then Err #CKR_MECHANISM_PARAM_INVALID
  else
    let year := number (slice 0 4 v) in
    let month := number (slice 4 6 v) in
    let day := number (slice 6 8 v) in
    let h := number (slice 8 10 v) in
    let m := number (slice 10 12 v) in
    let s := number (zdrop 12 v) in
    if (year <? 1970) || negb ((1 <=? month) && (month <=? 12)) || (day =? 0)
       || (at_ (month_lengths year) (month - 1) <? day) || (23 <? h) || (59 <? m) || (59 <? s)
    then Err #CKR_MECHANISM_PARAM_INVALID
    else
      let days := year_days year + sum (ztake (month - 1) (month_lengths year)) + day - 1 in
      Ok (days * 86400 + h * 3600 + m * 60 + s).

(** ** Parameters *)

(** [CK_ULONG::from_ne_bytes] and [to_ne_bytes] on a little-endian machine. *)
Fixpoint from_ne_bytes (bytes : list Z) : Z :=
  match bytes with
  | [] => 0
  | b :: rest => b + 256 * from_ne_bytes rest
  end.
Fixpoint ne_bytes (w : nat) (n : Z) : list Z :=
  match w with
  | O => []
  | S w' => n mod 256 :: ne_bytes w' (n / 256)
  end.

(** The loop over the parameters: the types seen and the time so far. *)
Fixpoint otp_parameters (m : Z) (seen : list Z) (time : option Z) (ps : list CK_OTP_PARAM) : outcome Error (option Z) :=
  match ps with
  | [] => Ok time
  | p :: rest =>
      let t := otp_type p in
      if one_of seen t then Err #CKR_MECHANISM_PARAM_INVALID
      else
        let seen := t :: seen in
        if one_of [CK_OTP_COUNTER; CK_OTP_PIN; CK_OTP_CHALLENGE] t
           || ((t =? CK_OTP_TIME) && negb (m =? CKM_PKCS11RS_TOTP))
        then otp_parameters m seen time rest
        else
          let? _ := bail (is_null (otp_pValue p)) #CKR_MECHANISM_PARAM_INVALID in
          let? bytes := map_err (λ _, #CKR_MECHANISM_PARAM_INVALID)
                          (from_raw_parts (otp_pValue p) (otp_ulValueLen p)) in
          if (t =? CK_OTP_TIME) && (m =? CKM_PKCS11RS_TOTP) then
            let? stamp := parse_time bytes in
            otp_parameters m seen (Some stamp) rest
          else if (t =? CK_OTP_OUTPUT_FORMAT) && bool_decide (bytes = ne_bytes 8 CK_OTP_FORMAT_DECIMAL) then
            otp_parameters m seen time rest
          else if (t =? CK_OTP_FLAGS) && (len bytes =? SIZE_OF_ULONG) then
            let? _ := bail (negb (Z.ldiff (from_ne_bytes bytes) CKF_USER_FRIENDLY_OTP =? 0))
                        #CKR_MECHANISM_PARAM_INVALID in
            otp_parameters m seen time rest
          else Err #CKR_MECHANISM_PARAM_INVALID
  end.

Definition parameters (m : CK_MECHANISM) : outcome Error (option Z) :=
  match pParameter m with
  | None => if ulParameterLen m =? 0 then Ok None else Err #CKR_MECHANISM_PARAM_INVALID
  | Some memory =>
      if negb (ulParameterLen m =? SIZE_OF_OTP_PARAMS) then Err #CKR_MECHANISM_PARAM_INVALID
      else
        let p := as_otp memory in
        if (16 <? ulCount p) || (is_null (otp_pParams p) && negb (ulCount p =? 0))
        then Err #CKR_MECHANISM_PARAM_INVALID
        else otp_parameters (mechanism m) [] None (ztake (ulCount p) (default [] (otp_pParams p)))
  end.

(** ** The calls *)

Definition signature_operation (signing : bool) (s : SessionContext) : option SignatureOperation :=
  if signing then sign_operation s else verify_operation s.

Definition set_signature_operation (signing : bool) (op : option SignatureOperation) (s : SessionContext)
    : SessionContext :=
  mkSession (backend s) (storage s) (find_operation s) (digest_operation s) (encrypt_operation s)
    (decrypt_operation s) (if signing then op else sign_operation s) (if signing then verify_operation s else op).

Definition result_size (digits : Z) : Z := SIZE_OF_OTP_SIGNATURE_INFO + SIZE_OF_OTP_PARAM + digits.

(** The [CK_OTP_SIGNATURE_INFO] with its one parameter, at [output]. *)
Definition otp_result (output : Z) (code : list Z) : list Z :=
  let param := output + SIZE_OF_OTP_SIGNATURE_INFO in
  let value := param + SIZE_OF_OTP_PARAM in
  ne_bytes 8 param ++ ne_bytes 8 1 ++
  (ne_bytes 8 CK_OTP_VALUE ++ ne_bytes 8 value ++ ne_bytes 8 (len code)) ++ code.

Section otp.
Context {B P : Type} `{Slot B} `{StorageProvider P} `{Sha3, MiniCbor} `{BackedObjects}
  `{Environment B P} `{CryptBackend B}.
Abbreviation Ctx := (SlotContext B P).
Abbreviation M := (SM Ctx Error).
Abbreviation IO := (SM (Ctx * Output) Error).

Definition end_signature (k : Z) (signing : bool) : M unit :=
  update_session k (set_signature_operation signing None).

Definition oath_sign_init (k : Z) (m : CK_MECHANISM) (key : Z) : M unit :=
  let! '(id, _, logged) := session_details k in
  let! table := asks backend_mechanisms in
  let! _ := guard_err (negb (existsb (λ d, type_ d =? mechanism m) table)) #CKR_MECHANISM_INVALID in
  let! time := sm_lift (parameters m) in
  let! found := resolve_object key in
  let! object := sm_lift (ok_or #CKR_KEY_HANDLE_INVALID found) in
  let! _ := guard_err (private object && negb logged) #CKR_USER_NOT_LOGGED_IN in
  match material object with
  | OathCredential c =>
      let! _ := guard_err (negb (Credential_mechanism c =? mechanism m) || negb (sign object)
                           || negb (allows_mechanism (mechanism m) object)) #CKR_KEY_FUNCTION_NOT_PERMITTED in
      update_session k (set_signature_operation true (Some
        (mkSignature false None (material object) None id (private object) false None time None (mechanism m)
           None None None None None [] None)))
  | _ => sm_err #CKR_KEY_TYPE_INCONSISTENT
  end.

Definition oath_sign (k : Z) (op : SignatureOperation) (input : list Z) (output : Z) : IO unit :=
  if bool_decide (input ≠ []) then
    let! _ := sm_fst (end_signature k true) in
    sm_err #CKR_DATA_LEN_RANGE
  else
    match sign_key op with
    | OathCredential c =>
        let needed := result_size (match sign_result op with Some r => len r | None => 8 end) in
        let! null := output_null in
        if (null : bool) then report_length needed
        else
          let! capacity := output_capacity in
          if capacity <? needed then
            let! _ := report_length needed in
            sm_err #CKR_BUFFER_TOO_SMALL
          else
            let! code := sm_fst (λ x,
              let '(result, x) := on_slot (oath_calculate c (oath_time op)) x in
              (let! _ := end_signature k true in sm_lift result) x) in
            let! _ := copy_out (otp_result output code) in
            report_length (result_size (len code))
    | _ => sm_err #CKR_KEY_TYPE_INCONSISTENT
    end.
End otp.
