(* ===== verification/Oath.v ===== *)
(** * Oath: the OATH application of a card and its slot

    Models [src/src/oath.rs] (the tag-length-value codec of YKOATH, the commands
    SELECT, VALIDATE, SET CODE, LIST, CALCULATE, PUT and DELETE, and the objects
    made of credentials) and [src/src/backend/oath.rs] (the state of an OATH slot:
    the selected application, the login and the inventory of credentials).

    The connector with its secure channel, the clock, the random numbers, the PIN
    prompt and the two SHA-1 primitives are parameters. The import of a credential
    through a template is not modelled. *)
From stdpp Require Import gmap.
From S2P Require Import Prelude Errors Mechanisms Apdu Storage YubiHsm SlotState SessionApi LoginSelectors CryptApi OathOtp.

(** ** Tag-length-value fields *)

Definition OATH_AID : list Z := [0xa0; 0; 0; 5; 0x27; 0x21; 1].

Definition oath_tlv (tag : Z) (value output : list Z) : outcome Error (list Z) :=
  if 255 <? len value then Err #CKR_DATA_LEN_RANGE
  else Ok (output ++ [tag] ++ (if 128 <=? len value then [0x81] else []) ++ [len value] ++ value).

(** One round of the loop of [parse]: the field and the rest. *)
Definition parse_field (d : list Z) : outcome Error (Z * list Z * list Z) :=
  if len d <? 2 then Err #CKR_DEVICE_ERROR
  else
    let tag := at_ d 0 in
    let? '(length, offset) :=
      (if at_ d 1 <=? 127 then Ok (at_ d 1, 2)
       else if (at_ d 1 =? 0x81) && (3 <=? len d) then Ok (at_ d 2, 3)
       else Err #CKR_DEVICE_ERROR) in
    let stop := offset + length in
    if len d <? stop then Err #CKR_DEVICE_ERROR
    else Ok (tag, slice offset stop d, zdrop stop d).
(** Every round takes two bytes or more, so as many rounds as bytes are enough. *)
Fixpoint parse_fuel (fuel : nat) (d : list Z) : outcome Error (list (Z * list Z)) :=
  match d, fuel with
  | [], _ => Ok []
  | _, O => Panic
  | _, S f =>
      let? '(tag, value, rest) := parse_field d in
      let? fields := parse_fuel f rest in
      Ok ((tag, value) :: fields)
  end.
Definition oath_parse (d : list Z) : outcome Error (list (Z * list Z)) := parse_fuel (length d) d.

(** At most one field may have the tag. *)
Definition oath_field (values : list (Z * list Z)) (tag : Z) : outcome Error (option (list Z)) :=
  match filter (λ v, v.1 = tag) values with
  | [] => Ok None
  | [v] => Ok (Some v.2)
  | _ => Err #CKR_DEVICE_ERROR
  end.

(** ** Credentials *)

(** [s.parse::<u64>().ok()] *)
Definition U64_MAX : Z := 2 ^ 64 - 1.
Definition parse_u64 (s : list Z) : option Z :=
  let digits := match s with 43 :: rest => rest | _ => s end in
  if bool_decide (digits = []) || negb (forallb is_ascii_digit digits) || (U64_MAX <? number digits) then None
  else Some (number digits).

Definition Credential_from_name (name : list Z) (kind : Z) : outcome Error Credential :=
  if bool_decide (name = []) || (64 <? len name) || negb (one_of [0x10; 0x20] (Z.land kind 0xf0))
     || negb ((1 <=? Z.land kind 15) && (Z.land kind 15 <=? 3))
  then Err #CKR_DEVICE_ERROR
  else
    let totp := Z.land kind 0xf0 =? 0x20 in
    let period :=
      if totp then
        default 30
          (if utf8_valid name then
             match split_once 47 name with
             | Some (s, _) => parse_u64 s
             | None => None
             end
           else None)
      else 0 in
    if totp && (period =? 0) then Err #CKR_DEVICE_ERROR
    else Ok (mkCredential name totp (Z.land kind 15) (negb totp && negb (Z.land kind 15 =? 1)) period None None).

Record Info : Type := mkInfo { version : list Z; salt : list Z; challenge : option (list Z) }.

(** How many bytes of [l] make one character, or else the length of the
    ill-formed piece that [String::from_utf8_lossy] replaces; a missing byte reads
    as 0. *)
Definition utf8_piece (l : list Z) : bool * Z :=
  let b0 := at_ l 0 in let b1 := at_ l 1 in let b2 := at_ l 2 in let b3 := at_ l 3 in
  if between 0 b0 0x7f then (true, 1)
  else if between 0xc2 b0 0xdf then if continuation b1 then (true, 2) else (false, 1)
  else if between 0xe0 b0 0xef then
    if negb ((b0 =? 0xe0) && between 0xa0 b1 0xbf
             || (b0 =? 0xed) && between 0x80 b1 0x9f
             || (between 0xe1 b0 0xec || between 0xee b0 0xef) && continuation b1) then (false, 1)
    else if continuation b2 then (true, 3) else (false, 2)
  else if between 0xf0 b0 0xf4 then
    if negb ((b0 =? 0xf0) && between 0x90 b1 0xbf
             || between 0xf1 b0 0xf3 && continuation b1
             || (b0 =? 0xf4) && between 0x80 b1 0x8f) then (false, 1)
    else if negb (continuation b2) then (false, 2)
    else if continuation b3 then (true, 4) else (false, 3)
  else (false, 1).

(** [String::from_utf8_lossy]: each turn consumes a byte, so the length is
    enough fuel. *)
Fixpoint utf8_lossy_fuel (fuel : nat) (l : list Z) : list Z :=
  match fuel, l with
  | S fuel, _ :: _ =>
      let '(valid, n) := utf8_piece l in
      (if valid then ztake n l else [0xef; 0xbf; 0xbd]) ++ utf8_lossy_fuel fuel (zdrop n l)
  | _, _ => []
  end.
Definition from_utf8_lossy (l : list Z) : list Z := utf8_lossy_fuel (length l) l.

(** The object of a credential. *)
Definition oath_object (slot : Z) (c : Credential) : TokenObject :=
  mkObject (Some slot)
    ((if negb (cred_totp c) && cred_extended c then str "oath-extended" else str "oath") ++ str ":"
     ++ encode_lower_hex (cred_name c))
    CKO_OTP_KEY (Credential_key_type c) true true false false true false (Some [Credential_mechanism c]) None None None
    (OathCredential c)
    (mkAttributes (from_utf8_lossy (cred_name c)) (cred_name c) false false false false false true false
       false false false None false KeyPolicyTemplates_default).

(** ** Commands *)

Inductive CcidLoginState : Type := CcidPublic | CcidUser | CcidSo.
#[export] Instance CcidLoginState_eq_dec : EqDecision CcidLoginState.
Proof. solve_decision. Defined.

(** The connector of a card, the clock, the random numbers and the PIN prompt. *)
Class OathConnector (D : Type) : Type := {
  send_oath_apdu : CommandApdu → SM D Error ResponseApdu;
  connection_epoch : D → Z;
  connector_login_state : D → option CcidLoginState;
  set_ccid_login_state : CcidLoginState → SM D Error unit;
  establish_secure_channel : list Z → SM D Error unit;
  clear_secure_channel_for_login : D → D;
  connector_clear_channel : D → D;
  reconcile_lost_applet_login : D → D;
  fill_random : Z → SM D unit (list Z);
  unix_time : D → option Z;
  request_pin : SM D Error (list Z);
}.

(** PBKDF2 with 1000 rounds and 16 bytes of output, and HMAC, both with SHA-1. *)
Class OathCrypto : Type := {
  pbkdf2_hmac_sha1 : list Z → list Z → outcome unit (list Z);
  hmac_sha1 : list Z → list Z → outcome unit (list Z);
}.

Definition access_key `{OathCrypto} (info : Info) (password : list Z) : outcome Error (list Z) :=
  map_err (λ _, #CKR_FUNCTION_FAILED) (pbkdf2_hmac_sha1 password (salt info)).
Definition oath_mac `{OathCrypto} (key d : list Z) : outcome Error (list Z) :=
  map_err (λ _, #CKR_FUNCTION_FAILED) (hmac_sha1 key d).

Definition oath_apdu (i p q : Z) (d : list Z) : CommandApdu := mkCommandApdu 0 i p q d (Some 256) false.

(** What a status other than success means. *)
Definition oath_status (i : Z) (response : ResponseApdu) : outcome Error (list Z) :=
  let s := status response in
  if s =? 0x9000 then Ok (rdata response)
  else if s =? 0x6982 then Err #CKR_USER_NOT_LOGGED_IN
  else if (s =? 0x6a80) && ((i =? 1) || (i =? 3)) then Err #CKR_ATTRIBUTE_VALUE_INVALID
  else if (s =? 0x6a80) || (s =? 0x6a88) then Err #CKR_KEY_HANDLE_INVALID
  else if s =? 0x6985 then Err #CKR_FUNCTION_CANCELED
  else if s =? 0x6a84 then Err #CKR_DEVICE_MEMORY
  else Err #CKR_DEVICE_ERROR.

(** [format!("{:0width$}", n)] *)
Definition zero_padded (width n : Z) : list Z :=
  let digits := decimal n in replicate (Z.to_nat (width - len digits)) 48 ++ digits.

(** The big-endian number of some bytes. *)
Definition from_be (bytes : list Z) : Z := foldl (λ n b, n * 256 + b) 0 bytes.
(** The code in the answer to CALCULATE: the number of digits and a truncated hash. *)
Definition oath_code (result : list Z) : outcome Error (list Z) :=
  let digits := at_ result 0 in
  if negb (len result =? 5) || negb ((6 <=? digits) && (digits <=? 8)) then Err #CKR_DEVICE_ERROR
  else
    let n := Z.land (from_be (zdrop 1 result)) 0x7fffffff in
    Ok (zero_padded digits (n mod 10 ^ digits)).

Section oath.
Context {D : Type} `{OathConnector D} `{OathCrypto}.
Abbreviation C := (SM D Error).

Definition oath_command (i p q : Z) (d : list Z) : C (list Z) :=
  let! response := send_oath_apdu (oath_apdu i p q d) in
  sm_lift (oath_status i response).

Definition oath_select (aid : list Z) : C Info :=
  let! d := oath_command 0xa4 4 0 aid in
  let! fields := sm_lift (oath_parse d) in
  let! found := sm_lift (oath_field fields 0x79) in
  let! version := sm_lift (ok_or #CKR_DEVICE_ERROR found) in
  let! _ := guard_err (negb (len version =? 3)) #CKR_DEVICE_ERROR in
  let! found := sm_lift (oath_field fields 0x71) in
  let! salt := sm_lift (ok_or #CKR_DEVICE_ERROR found) in
  let! challenge := sm_lift (oath_field fields 0x74) in
  if bool_decide (salt = []) || match challenge with Some v => negb (len v =? 8) | None => false end then
    sm_err #CKR_DEVICE_ERROR
  else
    let! algorithm := sm_lift (oath_field fields 0x7b) in
    let! _ := guard_err (match algorithm with Some v => negb (bool_decide (v = [1])) | None => false end)
                #CKR_DEVICE_ERROR in
    sm_ret (mkInfo version salt challenge).

Definition random_challenge : C (list Z) := sm_map_err (λ _, #CKR_RANDOM_NO_RNG) (fill_random 8).

Definition oath_authenticate (info : Info) (password : list Z) : C unit :=
  match challenge info with
  | None => if bool_decide (password = []) then sm_ret tt else sm_err #CKR_PIN_INCORRECT
  | Some challenge =>
      let! key := sm_lift (access_key info password) in
      let! host := random_challenge in
      let! answer := sm_lift (oath_mac key challenge) in
      let! d := sm_lift (oath_tlv 0x75 answer []) in
      let! d := sm_lift (oath_tlv 0x74 host d) in
      let! response := send_oath_apdu (oath_apdu 0xa3 0 0 d) in
      let! _ := guard_err ((status response =? 0x6a80) || (status response =? 0x6984)) #CKR_PIN_INCORRECT in
      let! _ := guard_err (negb (status response =? 0x9000)) #CKR_DEVICE_ERROR in
      let! fields := sm_lift (oath_parse (rdata response)) in
      let! found := sm_lift (oath_field fields 0x75) in
      let! proof := sm_lift (ok_or #CKR_DEVICE_ERROR found) in
      let! expected := sm_lift (oath_mac key host) in
      guard_err (negb (bool_decide (proof = expected))) #CKR_DEVICE_ERROR
  end.

Definition oath_change_password (info : Info) (password : list Z) : C unit :=
  let! d := (if bool_decide (password = []) then sm_lift (oath_tlv 0x73 [] [])
             else
               let! key := sm_lift (access_key info password) in
               let! host := random_challenge in
               let! d := sm_lift (oath_tlv 0x73 (0x21 :: key) []) in
               let! d := sm_lift (oath_tlv 0x74 host d) in
               let! proof := sm_lift (oath_mac key host) in
               sm_lift (oath_tlv 0x75 proof d)) in
  let! _ := oath_command 3 0 0 d in
  sm_ret tt.

(** The names must be distinct. *)
Fixpoint listed (names : list (list Z)) (fields : list (Z * list Z)) : outcome Error (list Credential) :=
  match fields with
  | [] => Ok []
  | (tag, v) :: rest =>
      if negb (tag =? 0x72) || (len v <? 2) || bool_decide (zdrop 1 v ∈ names) then Err #CKR_DEVICE_ERROR
      else
        let? c := Credential_from_name (zdrop 1 v) (at_ v 0) in
        let? cs := listed (zdrop 1 v :: names) rest in
        Ok (c :: cs)
  end.
Definition oath_list : C (list Credential) :=
  let! d := oath_command 0xa1 0 0 [] in
  let! fields := sm_lift (oath_parse d) in
  sm_lift (listed [] fields).

(** The moving factor: the number of the period, or nothing for a counter. *)
Definition oath_challenge (c : Credential) (time : option Z) : C (list Z) :=
  if cred_totp c then
    let! timestamp := (match time with
                       | Some v => sm_ret v
                       | None =>
                           let! now := sm_gets unix_time in
                           sm_lift (ok_or #CKR_FUNCTION_FAILED now)
                       end) in
    if cred_period c =? 0 then sm_lift Panic else sm_ret (be_bytes 8 (timestamp / cred_period c))
  else sm_ret [].

Definition oath_calculate_command (c : Credential) (time : option Z) : C (list Z) :=
  let! challenge := oath_challenge c time in
  let! d := sm_lift (oath_tlv 0x71 (cred_name c) []) in
  let! d := sm_lift (oath_tlv 0x74 challenge d) in
  let! response := oath_command 0xa2 0 1 d in
  let! fields := sm_lift (oath_parse response) in
  let! found := sm_lift (oath_field fields 0x76) in
  let! result := sm_lift (ok_or #CKR_DEVICE_ERROR found) in
  sm_lift (oath_code result).

(** A short secret is filled with zeros to sixteen bytes. *)
Definition oath_put (c : Credential) (secret : list Z) (counter : Z) : C unit :=
  let! _ := guard_err (bool_decide (secret = []) || (64 <? len secret)) #CKR_KEY_SIZE_RANGE in
  let! digits := sm_lift (ok_or #CKR_TEMPLATE_INCOMPLETE (cred_digits c)) in
  let key := Z.lor (if cred_totp c then 0x20 else 0x10) (cred_hash c) :: digits :: secret in
  let key := key ++ replicate (Z.to_nat (16 - len key)) 0 in
  let! d := sm_lift (oath_tlv 0x71 (cred_name c) []) in
  let! d := sm_lift (oath_tlv 0x73 key d) in
  let d := d ++ (if bool_decide (cred_touch c = Some true) then [0x78; 2] else []) in
  let! d := sm_lift (if cred_totp c then Ok d else oath_tlv 0x7a (be_bytes 4 counter) d) in
  let! _ := oath_command 1 0 0 d in
  sm_ret tt.

Definition oath_delete_command (name : list Z) : C unit :=
  let! d := sm_lift (oath_tlv 0x71 name []) in
  let! _ := oath_command 2 0 0 d in
  sm_ret tt.
End oath.

(** ** The slot *)

(** [inventory] and [metadata] are keyed by the bytes of their strings. *)
Record OathSlot (D : Type) : Type := mkOathSlot {
  connector : D;
  aid : list Z;
  info : option (Z * Info);
  authenticated : option Z;
  metadata : gmap (list Z) Credential;
  inventory : gmap (list Z) TokenObject;
}.
Arguments mkOathSlot {D}.
Arguments connector {D}.
Arguments aid {D}.
Arguments info {D}.
Arguments authenticated {D}.
Arguments metadata {D}.
Arguments inventory {D}.

Section slot.
Context {D : Type} `{OathConnector D} `{OathCrypto}.
Abbreviation O := (OathSlot D).
Abbreviation S := (SM O Error).

Definition on_connector {A} (c : SM D Error A) : S A := λ s,
  let '(r, d) := c (connector s) in
  (r, mkOathSlot d (aid s) (info s) (authenticated s) (metadata s) (inventory s)).
Definition set_connector (f : D → D) (s : O) : O :=
  mkOathSlot (f (connector s)) (aid s) (info s) (authenticated s) (metadata s) (inventory s).
Definition set_info (i : option (Z * Info)) (s : O) : O :=
  mkOathSlot (connector s) (aid s) i (authenticated s) (metadata s) (inventory s).
Definition set_authenticated (a : option Z) (s : O) : O :=
  mkOathSlot (connector s) (aid s) (info s) a (metadata s) (inventory s).
Definition set_metadata (m : gmap (list Z) Credential) (s : O) : O :=
  mkOathSlot (connector s) (aid s) (info s) (authenticated s) m (inventory s).
Definition set_inventory (m : gmap (list Z) TokenObject) (s : O) : O :=
  mkOathSlot (connector s) (aid s) (info s) (authenticated s) (metadata s) m.
Definition epoch (s : O) : Z := connection_epoch (connector s).

(** [OathSlot::info]: the application is selected once per connection. *)
Definition select_again (now : Z) : S Info :=
  let! _ := sm_modify (λ s, set_inventory ∅ (set_metadata ∅ s)) in
  let! aid := sm_gets aid in
  let! i := on_connector (oath_select aid) in
  let! _ := sm_modify (set_info (Some (now, i))) in
  sm_ret i.
Definition slot_info : S Info :=
  let! now := sm_gets epoch in
  let! cached := sm_gets info in
  match cached with
  | Some (e, i) => if e =? now then sm_ret i else select_again now
  | None => select_again now
  end.

Definition reselect : S Info :=
  let! _ := sm_modify (λ s, set_connector clear_secure_channel_for_login (set_inventory ∅ (set_authenticated None s))) in
  let! aid := sm_gets aid in
  let! i := on_connector (oath_select aid) in
  let! _ := sm_modify (λ s, set_info (Some (epoch s, i)) s) in
  sm_ret i.

Definition oath_login_is_active (s : O) : bool :=
  bool_decide (authenticated s = Some (epoch s))
  && match connector_login_state (connector s) with
     | Some state => bool_decide (state = CcidUser)
     | None => true
     end.

Definition require_access : S unit :=
  let! active := sm_gets oath_login_is_active in
  guard_err (negb active) #CKR_USER_NOT_LOGGED_IN.

Definition oath_mechanisms : list MechanismDetails :=
  (λ m, mkDetails m 1 64 (Z.lor CKF_HW CKF_SIGN)) <$> [CKM_HOTP; CKM_PKCS11RS_TOTP; CKM_PKCS11RS_HOTP].

(** The objects of a credential: SHA-1 HOTP has a standard and an extended view. *)
Definition oath_views (known : gmap (list Z) Credential) (slot : Z) (c : Credential) : list TokenObject :=
  let c := match known !! cred_name c with
           | Some k =>
               if bool_decide (cred_totp k = cred_totp c) && (cred_hash k =? cred_hash c)
               then mkCredential (cred_name c) (cred_totp c) (cred_hash c) (cred_extended c) (cred_period c)
                      (cred_digits k) (cred_touch k)
               else c
           | None => c
           end in
  if negb (cred_totp c) && (cred_hash c =? 1) then
    [oath_object slot c;
     oath_object slot (mkCredential (cred_name c) (cred_totp c) (cred_hash c) true (cred_period c)
                         (cred_digits c) (cred_touch c))]
  else [oath_object slot c].

Definition backend_token_objects (slot : Z) : S (list TokenObject) :=
  let! _ := sm_modify (set_inventory ∅) in
  let! active := sm_gets oath_login_is_active in
  if negb active then sm_ret []
  else
    let! credentials := on_connector oath_list in
    let! known := sm_gets metadata in
    let objects := flat_map (oath_views known slot) credentials in
    let! _ := sm_modify (set_inventory (foldl (λ m o, <[unique_id o := o]> m) ∅ objects)) in
    sm_ret objects.

Definition backend_token_object (id : list Z) : S (option TokenObject) :=
  let! active := sm_gets oath_login_is_active in
  if negb active then sm_ret None
  else sm_gets (λ s, inventory s !! id).

Definition invalidate_inventory : O → O := set_inventory ∅.

Definition oath_login (pin : option (list Z)) : S unit :=
  let! _ := guard_err (match pin with Some p => 255 <? len p | None => false end) #CKR_PIN_LEN_RANGE in
  let! info := reselect in
  let! pin := (match pin with
               | Some pin => sm_ret pin
               | None => on_connector request_pin
               end) in
  let! aid := sm_gets aid in
  let! _ := on_connector (establish_secure_channel aid) in
  λ s,
  match on_connector (oath_authenticate info pin) s with
  | (Ok _, s) => (Ok tt, set_authenticated (Some (epoch s)) s)
  | (Err e, s) => (Err e, set_connector connector_clear_channel s)
  | (Panic, s) => (Panic, s)
  end.

Definition oath_logout : S unit :=
  sm_modify (λ s, set_info None (set_connector connector_clear_channel (set_inventory ∅ (set_authenticated None s)))).

Definition oath_set_login_role (role : option LoginRole) : S unit :=
  on_connector (set_ccid_login_state
    (match role with Some User => CcidUser | Some So => CcidSo | None => CcidPublic end)).

(** [clear_session] ignores the result of [logout], which cannot fail. *)
Definition oath_clear_session (s : O) : O := (oath_logout s).2.
Definition oath_clear_lost_login (s : O) : O :=
  set_connector reconcile_lost_applet_login (set_info None (set_inventory ∅ (set_authenticated None s))).

Definition slot_oath_calculate (c : Credential) (time : option Z) : S (list Z) :=
  let! _ := require_access in
  on_connector (oath_calculate_command c time).

(** Whether an object is a view of the credential. *)
Definition names_credential (name : list Z) (o : TokenObject) : bool :=
  match material o with
  | OathCredential c => bool_decide (cred_name c = name)
  | _ => false
  end.

Definition slot_oath_delete (name : list Z) : S unit :=
  let! _ := require_access in
  let! _ := on_connector (oath_delete_command name) in
  sm_modify (λ s,
    set_inventory (filter (λ '(_, o), names_credential name o = false) (inventory s))
      (set_metadata (delete name (metadata s)) s)).

Definition oath_set_pin (old new : list Z) : S unit :=
  let! _ := guard_err ((255 <? len old) || (255 <? len new)) #CKR_PIN_LEN_RANGE in
  let! info := reselect in
  let! aid := sm_gets aid in
  let! _ := on_connector (establish_secure_channel aid) in
  let! _ := on_connector (oath_authenticate info old) in
  let! _ := on_connector (oath_change_password info new) in
  oath_logout.

(** The calls of a session that an OATH slot leaves to the trait's defaults. *)
Definition not_supported {A} : S A := sm_err #CKR_FUNCTION_NOT_SUPPORTED.
#[export] Instance oath_crypt : CryptBackend O := {|
  mechanisms _ := oath_mechanisms;
  backend_mechanisms _ := oath_mechanisms;
  yubihsm_command _ _ := not_supported;
  piv_decipher _ _ _ _ _ := not_supported;
  openpgp_decipher _ _ _ := not_supported;
  piv_sign _ _ _ _ _ _ := not_supported;
  openpgp_sign _ _ _ _ := not_supported;
  fido_get_assertion _ _ _ _ := not_supported;
  fido_preview_sign _ _ _ _ := not_supported;
  oath_calculate := slot_oath_calculate;
|}.
End slot.
