(* ===== verification/OathSafety.v ===== *)
(** * OathSafety: the codec, the codes and the login of the OATH application

    The fields of a message are read exactly, a code always fits the room the
    caller was told to provide, no call that does not deliver a code asks the
    card for one, and nothing of an OATH slot is reached without its login. *)
From stdpp Require Import gmap.
From S2P Require Import Prelude Errors Mechanisms Apdu Storage YubiHsm SlotState SessionApi LoginSelectors CryptApi Digests OathOtp Oath.

(** ** Fields *)

(** A sequence of fields as bytes: each length in one byte, or after [0x81]. *)
Inductive encodes : list (Z * list Z) → list Z → Prop :=
| encodes_nil : encodes [] []
| encodes_short tag value fields d :
    len value ≤ 127 → encodes fields d → encodes ((tag, value) :: fields) (tag :: len value :: value ++ d)
| encodes_long tag value fields d :
    len value ≤ 255 → encodes fields d → encodes ((tag, value) :: fields) (tag :: 0x81 :: len value :: value ++ d).

Abbreviation is_byte := (λ b : Z, 0 ≤ b < 256).

Lemma slice_after (p d : list Z) n : 0 ≤ n → slice (len p) (len p + n) (p ++ d) = ztake n d.
Proof. intros. unfold slice. rewrite zdrop_app_len. f_equal. lia. Qed.
Lemma zdrop_after (p d : list Z) n : 0 ≤ n → zdrop (len p + n) (p ++ d) = zdrop n d.
Proof.
  intros. unfold zdrop, len. rewrite Z2Nat.inj_add, Nat2Z.id by lia. by rewrite drop_app_add.
Qed.

(** What follows the tag and the length. *)
Definition take_field (tag n : Z) (header d : list Z) : outcome Error (Z * list Z * list Z) :=
  if len d <? n then Err #CKR_DEVICE_ERROR else Ok (tag, ztake n d, zdrop n d).

Lemma take_field_run tag n header d : 0 ≤ n →
  (if len (header ++ d) <? len header + n then Err #CKR_DEVICE_ERROR
   else Ok (tag, slice (len header) (len header + n) (header ++ d), zdrop (len header + n) (header ++ d)))
  = take_field tag n header d.
Proof.
  intros. unfold take_field. rewrite len_app, slice_after, zdrop_after by done.
  by replace (len header + len d <? len header + n) with (len d <? n) by lia.
Qed.

(** One round of the loop, by the form of the length. *)
Lemma parse_field_run d : Forall is_byte d →
  parse_field d =
  match d with
  | tag :: l :: rest =>
      if l <=? 127 then take_field tag l [tag; l] rest
      else if l =? 0x81 then
        match rest with
        | n :: rest => take_field tag n [tag; l; n] rest
        | [] => Err #CKR_DEVICE_ERROR
        end
      else Err #CKR_DEVICE_ERROR
  | _ => Err #CKR_DEVICE_ERROR
  end.
Proof.
  intros Hd. destruct d as [|tag [|l rest]]; [done|done|]. unfold parse_field.
  rewrite !len_cons. pose proof (len_nonneg rest). destruct (Z.ltb_spec (1 + (1 + len rest)) 2); [lia|].
  inversion Hd as [|? ? _ Hd']; subst. inversion Hd' as [|? ? Hl Hd'']; subst.
  change (at_ (tag :: l :: rest) 0) with tag. change (at_ (tag :: l :: rest) 1) with l.
  destruct (l <=? 127).
  { cbn [obind]. rewrite <-(take_field_run tag l [tag; l] rest) by lia. cbn [app]. by rewrite !len_cons. }
  destruct (l =? 0x81); [|done]. destruct rest as [|n rest]; [done|].
  inversion Hd'' as [|? ? Hn _]; subst. rewrite len_cons. pose proof (len_nonneg rest).
  destruct (Z.leb_spec 3 (1 + (1 + (1 + len rest)))); [|lia].
  change (at_ (tag :: l :: n :: rest) 2) with n. cbn [andb obind].
  rewrite <-(take_field_run tag n [tag; l; n] rest) by lia. cbn [app]. by rewrite !len_cons.
Qed.

Lemma take_field_Ok tag n header d r : 0 ≤ n → take_field tag n header d = Ok r →
  ∃ value rest, r = (tag, value, rest) ∧ d = value ++ rest ∧ len value = n.
Proof.
  intros Hn. unfold take_field. destruct (Z.ltb_spec (len d) n); [done|]. intros [= <-].
  exists (ztake n d), (zdrop n d). split_and!; [done|by rewrite ztake_zdrop|]. rewrite len_ztake by done. lia.
Qed.
Lemma take_field_app tag header (value d : list Z) :
  take_field tag (len value) header (value ++ d) = Ok (tag, value, d).
Proof.
  unfold take_field. rewrite len_app. pose proof (len_nonneg d). destruct (Z.ltb_spec (len value + len d) (len value)); [lia|].
  by rewrite ztake_app_len, zdrop_app_len.
Qed.

Lemma parse_field_sound d tag value rest :
  Forall is_byte d → parse_field d = Ok (tag, value, rest) →
  (len value ≤ 127 ∧ d = tag :: len value :: value ++ rest) ∨
  (len value ≤ 255 ∧ d = tag :: 0x81 :: len value :: value ++ rest).
Proof.
  intros Hd. rewrite (parse_field_run d Hd). destruct d as [|t [|l d]]; [done|done|].
  inversion Hd as [|? ? _ Hd']; subst. inversion Hd' as [|? ? Hl Hd'']; subst.
  destruct (Z.leb_spec l 127).
  - intros (v & r & [= -> -> ->] & -> & <-)%take_field_Ok; [by left|lia].
  - destruct (Z.eqb_spec l 0x81) as [->|]; [|done]. destruct d as [|n d]; [done|].
    inversion Hd'' as [|? ? Hn _]; subst. intros (v & r & [= -> -> ->] & -> & <-)%take_field_Ok; [|lia].
    right. split; [lia|done].
Qed.

Lemma parse_fuel_sound fuel d : Forall is_byte d → (length d ≤ fuel)%nat →
  parse_fuel fuel d ≠ Panic ∧ ∀ fields, parse_fuel fuel d = Ok fields → encodes fields d.
Proof.
  revert d. induction fuel as [|fuel IH]; intros d Hd Hl; destruct d as [|b d].
  1,3: split; [done|]; intros fields [= <-]; constructor.
  { cbn in Hl. lia. }
  cbn [parse_fuel]. destruct (parse_field (b :: d)) as [[[tag value] rest]|e|] eqn:Ef; cbn [obind]; [|done|].
  2:{ exfalso. rewrite (parse_field_run _ Hd) in Ef. unfold take_field in Ef. repeat case_match; done. }
  pose proof (parse_field_sound _ _ _ _ Hd Ef) as Hs.
  assert (Forall is_byte rest ∧ (length rest ≤ fuel)%nat) as [Hr Hlr].
  { destruct Hs as [[_ Hs]|[_ Hs]]; rewrite Hs in Hd, Hl; cbn in Hl; rewrite length_app in Hl; (split; [|lia]).
    - inversion Hd as [|? ? _ Hd1]; subst. inversion Hd1 as [|? ? _ Hd2]; subst. by apply Forall_app in Hd2 as [_ ?].
    - inversion Hd as [|? ? _ Hd1]; subst. inversion Hd1 as [|? ? _ Hd2]; subst.
      inversion Hd2 as [|? ? _ Hd3]; subst. by apply Forall_app in Hd3 as [_ ?]. }
  destruct (IH rest Hr Hlr) as [Hp Hf].
  destruct (parse_fuel fuel rest) as [fs|e|]; cbn [obind]; [|done|done]. split; [done|]. intros fields [= <-].
  destruct Hs as [[Hlen ->]|[Hlen ->]]; constructor; auto.
Qed.

Lemma parse_fuel_complete fields d : encodes fields d → Forall is_byte d →
  ∀ fuel, (length d ≤ fuel)%nat → parse_fuel fuel d = Ok fields.
Proof.
  induction 1 as [|tag value fields d Hlen He IH|tag value fields d Hlen He IH]; intros Hd fuel Hf.
  - by destruct fuel.
  - destruct fuel as [|fuel]; [cbn in Hf; lia|]. cbn [parse_fuel]. rewrite (parse_field_run _ Hd).
    pose proof (len_nonneg value). destruct (Z.leb_spec (len value) 127); [|lia]. rewrite take_field_app. cbn [obind].
    rewrite IH; [done| |cbn in Hf; rewrite length_app in Hf; lia].
    inversion Hd as [|? ? _ Hd1]; subst. inversion Hd1 as [|? ? _ Hd2]; subst. by apply Forall_app in Hd2 as [_ ?].
  - destruct fuel as [|fuel]; [cbn in Hf; lia|]. cbn [parse_fuel]. rewrite (parse_field_run _ Hd).
    change (0x81 <=? 127) with false. change (0x81 =? 0x81) with true. cbn iota. rewrite take_field_app. cbn [obind].
    rewrite IH; [done| |cbn in Hf; rewrite length_app in Hf; lia].
    inversion Hd as [|? ? _ Hd1]; subst. inversion Hd1 as [|? ? _ Hd2]; subst.
    inversion Hd2 as [|? ? _ Hd3]; subst. by apply Forall_app in Hd3 as [_ ?].
Qed.

Lemma encodes_app fields fields' d d' : encodes fields d → encodes fields' d' → encodes (fields ++ fields') (d ++ d').
Proof.
  intros He He'. induction He; cbn [app]; [done|..]; rewrite <-app_assoc; by constructor.
Qed.

(** the fields of an OATH message are read exactly. [parse] returns on every
    byte string, within as many rounds as there are bytes; it returns the fields
    [fs] exactly when the bytes are the fields [fs], each with a length of one
    byte below 128 or with [0x81] and a length byte; and every message built with
    [tlv] is read back as it was built, field by field. *)
Theorem oath_parse_exact d : Forall is_byte d →
  oath_parse d ≠ Panic ∧ (∀ fields, oath_parse d = Ok fields ↔ encodes fields d) ∧
  (∀ fields tag value d', oath_parse d = Ok fields → is_byte tag → Forall is_byte value →
     oath_tlv tag value d = Ok d' → oath_parse d' = Ok (fields ++ [(tag, value)])).
Proof.
  intros Hd. destruct (parse_fuel_sound (length d) d Hd) as [Hp Hs]; [done|]. split; [done|]. split.
  { intros fields. split; [apply Hs|]. intros He. by apply (parse_fuel_complete fields d). }
  intros fields tag value d' He%Hs Ht Hv E. unfold oath_tlv in E. destruct (Z.ltb_spec 255 (len value)); [done|].
  injection E as <-. pose proof (len_nonneg value). unfold oath_parse. apply parse_fuel_complete; [|..|done].
  - apply encodes_app; [done|]. destruct (Z.leb_spec 128 (len value)).
    + pose proof (encodes_long tag value [] [] ltac:(lia) encodes_nil) as He'. by rewrite app_nil_r in He'.
    + pose proof (encodes_short tag value [] [] ltac:(lia) encodes_nil) as He'. by rewrite app_nil_r in He'.
  - apply Forall_app. split; [done|]. constructor; [done|].
    destruct (128 <=? len value); repeat (constructor; [lia|]); done.
Qed.

(** ** Codes *)

Definition is_digit (b : Z) : Prop := 48 ≤ b ≤ 57.

Lemma decimal_digits_bounds (w fuel : nat) n : 0 ≤ n < 10 ^ Z.of_nat (S w) →
  (1 ≤ length (decimal_digits (S fuel) n) ≤ S w)%nat ∧ Forall is_digit (decimal_digits (S fuel) n).
Proof.
  revert fuel n. induction w as [|w IH]; intros fuel n Hn; cbn [decimal_digits]; pose proof (Z.mod_pos_bound n 10 ltac:(lia)).
  - change (10 ^ Z.of_nat 1) with 10 in Hn. destruct (Z.ltb_spec n 10); [|lia]. cbn. split; [lia|].
    constructor; [unfold is_digit; lia|done].
  - rewrite Nat2Z.inj_succ, Z.pow_succ_r in Hn by lia.
    assert (is_digit (48 + n mod 10)) as Hd by (unfold is_digit; lia).
    destruct (Z.ltb_spec n 10); [cbn; split; [lia|by constructor]|]. destruct fuel as [|fuel].
    { cbn. split; [lia|by constructor]. }
    destruct (IH fuel (n / 10)) as [[Hl1 Hl2] Hf].
    { split; [apply Z.div_pos; lia|]. apply Z.div_lt_upper_bound; lia. }
    rewrite length_app. cbn [length]. split; [lia|]. apply Forall_app. split; [done|]. by constructor.
Qed.

Lemma zero_padded_digits width n : 0 < width → 0 ≤ n < 10 ^ width →
  len (zero_padded width n) = width ∧ Forall is_digit (zero_padded width n).
Proof.
  intros Hw Hn. unfold zero_padded, decimal. destruct (decimal_digits_bounds (Z.to_nat (width - 1)) 19 n) as [[_ Hl] Hd].
  { by replace (Z.of_nat (Datatypes.S (Z.to_nat (width - 1)))) with width by lia. }
  set (digits := decimal_digits 20 n) in *. split.
  - rewrite len_app, len_replicate. unfold len. lia.
  - apply Forall_app. split; [|done]. apply Forall_replicate. unfold is_digit. lia.
Qed.

(** A code has six to eight decimal digits. *)
Definition is_code (code : list Z) : Prop := 6 ≤ len code ≤ 8 ∧ Forall is_digit code.

Lemma oath_code_digits result code : oath_code result = Ok code → is_code code.
Proof.
  unfold oath_code. case_if; [done|]. intros [= <-].
  apply orb_false_iff in Heqb as [_ Hd]. apply negb_false_iff in Hd. bool_to_prop.
  edestruct zero_padded_digits as [Hl Hf]; [| |split; [rewrite Hl|exact Hf]]; [lia| |lia].
  apply Z.mod_pos_bound. lia.
Qed.

(** What the calls of a session rely on. *)
Class OathBackend (B : Type) `{CryptBackend B} : Prop := {
  oath_calculate_code c time (b b' : B) code : oath_calculate c time b = (Ok code, b') → is_code code;
}.

#[export] Instance oath_slot_backend {D} `{OathConnector D} `{OathCrypto} : OathBackend (OathSlot D).
Proof.
  split. intros c time b b' code E. change (slot_oath_calculate c time b = (Ok code, b')) in E.
  unfold slot_oath_calculate in E. sm_inv E.
  unfold on_connector in E. destruct (oath_calculate_command c time _) as [r d] eqn:Ec.
  injection E as -> <-. unfold oath_calculate_command in Ec. sm_inv Ec. injection Ec as Ec _. by apply oath_code_digits in Ec.
Qed.

Section delivery.
Context {B P : Type} `{Slot B} `{StorageProvider P} `{Sha3, MiniCbor} `{BackedObjects}
  `{Environment B P} `{OathBackend B}.
Abbreviation Ctx := (SlotContext B P).

Lemma len_ne_bytes w n : len (ne_bytes w n) = Z.of_nat w.
Proof. revert n. induction w as [|w IH]; intros n; [done|]. cbn [ne_bytes]. rewrite len_cons, IH. lia. Qed.
Lemma len_otp_result output code : len (otp_result output code) = result_size (len code).
Proof. unfold otp_result, result_size. rewrite !len_app, !len_ne_bytes. unfold SIZE_OF_OTP_SIGNATURE_INFO, SIZE_OF_OTP_PARAM. lia. Qed.

(** The part of [oath_sign] that delivers a code. *)
Lemma oath_sign_delivers k op c output (x : Ctx) s o cap :
  open_in x k s → sign_key op = OathCredential c → sign_result op = None → out_null o = false →
  out_len o = Some cap → result_size 8 ≤ cap →
  let '(r, b) := oath_calculate c (oath_time op) (slot x) in
  let y := put_session k (set_signature_operation true None s) (mkContext b (state x) (handles x)) in
  oath_sign k op [] output (x, o) =
    match r with
    | Ok code => (Ok tt, (y, mkOutput false (Some (result_size (len code))) (otp_result output code)))
    | Err e => (Err e, (y, o))
    | Panic => (Panic, (y, o))
    end.
Proof.
  intros Ho Hk Hr Hn Hcap Hfit. destruct (oath_calculate c (oath_time op) (slot x)) as [r b] eqn:Ec.
  unfold oath_sign. rewrite bool_decide_eq_false_2 by naive_solver. rewrite Hk, Hr, sm_bind_unfold.
  cbn [output_null sm_gets snd]. rewrite Hn. unfold output_capacity. rewrite sm_bind_unfold, sm_bind_unfold.
  unfold sm_gets. cbn [snd]. rewrite Hcap. cbn [ok_or sm_lift]. destruct (Z.ltb_spec cap (result_size 8)); [lia|].
  rewrite sm_bind_unfold. unfold sm_fst, on_slot. cbn [fst snd]. rewrite Ec. cbn iota.
  assert (open_in (mkContext b (state x) (handles x)) k s) as Hy by done.
  rewrite sm_bind_unfold. unfold end_signature. rewrite (update_session_open _ _ _ _ Hy). cbn [sm_lift].
  destruct r as [code|e|]; [|done|done]. rewrite sm_bind_unfold.
  unfold copy_out, report_length, sm_modify, write_out, set_out_len. cbn. by rewrite Hn.
Qed.

(** a one-time password fits, and costs a counter only when it is delivered.
    With an OATH credential, a signing call that gives as much room as the length
    query reports (which never asks the card) never overruns it: it asks the card
    exactly once, ends the operation, and what it writes is the structure around
    six to eight decimal digits, no longer than the room given, its length
    reported. Every other call - a length query, a too small buffer, an input - asks
    nothing of the card, so no counter is consumed. *)
Theorem oath_otp_delivery k op c output (x : Ctx) s o cap input :
  open_in x k s → sign_key op = OathCredential c → sign_result op = None → out_len o = Some cap →
  let '(r, (y, o')) := oath_sign k op input output (x, o) in
  if bool_decide (input = []) && negb (out_null o) && (result_size 8 <=? cap) then
    slot y = (oath_calculate c (oath_time op) (slot x)).2 ∧
    (∃ s', open_in y k s' ∧ sign_operation s' = None) ∧
    (r ≠ Ok tt → o' = o) ∧
    (r = Ok tt → ∃ code, is_code code ∧ out_data o' = otp_result output code ∧
       len (out_data o') ≤ cap ∧ out_len o' = Some (len (out_data o')))
  else slot y = slot x ∧ out_data o' = out_data o.
Proof.
  intros Ho Hk Hr Hcap. destruct (decide (input = [])) as [->|Hi].
  2:{ rewrite (bool_decide_eq_false_2 (input = [])) by done. cbn [andb]. unfold oath_sign.
      rewrite (bool_decide_eq_true_2 (input ≠ [])) by done. rewrite sm_bind_unfold. unfold sm_fst, end_signature. cbn [fst snd].
      by rewrite (update_session_open _ _ _ _ Ho). }
  rewrite (bool_decide_eq_true_2 ([] = [])) by done. destruct (out_null o) eqn:Hn; cbn [andb negb].
  { unfold oath_sign. rewrite (bool_decide_eq_false_2 ([] ≠ [])) by naive_solver. rewrite Hk, sm_bind_unfold.
    unfold output_null, sm_gets. cbn [snd]. by rewrite Hn. }
  destruct (Z.leb_spec (result_size 8) cap) as [Hfit|Hfit].
  - pose proof (oath_sign_delivers k op c output x s o cap Ho Hk Hr Hn Hcap Hfit) as E.
    destruct (oath_calculate c (oath_time op) (slot x)) as [r b] eqn:Ec. cbn zeta in E. rewrite E.
    assert (∃ s', open_in (put_session k (set_signature_operation true None s) (mkContext b (state x) (handles x))) k s' ∧
              sign_operation s' = None) as Hend.
    { exists (set_signature_operation true None s). split; [|done]. by apply (put_session_open (mkContext b (state x) (handles x)) k s). }
    destruct r as [code|e|]; split_and!; try done. intros _. exists code. apply oath_calculate_code in Ec as [Hl Hd].
    cbn [out_data out_len]. rewrite len_otp_result. split_and!; try done.
    unfold result_size in *. lia.
  - unfold oath_sign. rewrite (bool_decide_eq_false_2 ([] ≠ [])) by naive_solver. rewrite Hk, Hr, sm_bind_unfold.
    unfold output_null, sm_gets. cbn [snd]. rewrite Hn. unfold output_capacity. rewrite sm_bind_unfold, sm_bind_unfold.
    unfold sm_gets. cbn [snd]. rewrite Hcap. cbn [ok_or sm_lift]. by destruct (Z.ltb_spec cap (result_size 8)); [|lia].
Qed.
End delivery.

(** ** Logins *)

Section access.
Context {D : Type} `{OathConnector D} `{OathCrypto}.
Abbreviation O := (OathSlot D).
Abbreviation S := (SM O Error).

Lemma on_connector_authenticated {A} (c : SM D Error A) (s : O) :
  authenticated (on_connector c s).2 = authenticated s.
Proof. unfold on_connector. by destruct (c (connector s)). Qed.

Lemma not_authenticated_inactive (s : O) : authenticated s = None → oath_login_is_active s = false.
Proof. intros E. unfold oath_login_is_active. by rewrite E. Qed.

(** Code that keeps a slot logged out. *)
Lemma preserves_on_connector {A} (c : SM D Error A) : preserves (λ s : O, authenticated s = None) (on_connector c).
Proof. intros s Hs. by rewrite on_connector_authenticated. Qed.

Lemma reselect_logs_out (s : O) : authenticated (reselect s).2 = None.
Proof.
  unfold reselect. rewrite sm_bind_unfold. cbn [sm_modify].
  match goal with |- authenticated (?c ?t).2 = None => assert (preserves (λ s : O, authenticated s = None) c) as Hp end.
  { apply preserves_bind; [apply preserves_gets|]. intros aid. apply preserves_bind; [apply preserves_on_connector|].
    intros i. apply preserves_bind; [by apply preserves_modify|]. intros _. apply preserves_ret. }
  by apply Hp.
Qed.

Lemma oath_login_failed (pin : option (list Z)) (s s' : O) e :
  (match pin with Some p => 255 <? len p | None => false end) = false →
  oath_login pin s = (Err e, s') → authenticated s' = None.
Proof.
  intros Hpin E. unfold oath_login, guard_err in E. rewrite Hpin, sm_bind_unfold in E. cbn [sm_ret] in E.
  rewrite sm_bind_unfold in E. pose proof (reselect_logs_out s) as Hr.
  destruct (reselect s) as [[i|e'|] s1]; cbn [snd] in Hr; [|by simplify_eq|done].
  match type of E with ?c s1 = _ => assert (∀ t, authenticated t = None → (c t).1 ≠ Ok tt → authenticated (c t).2 = None) as Hp end.
  { intros t Ht. rewrite sm_bind_unfold.
    assert (authenticated ((match pin with Some p => sm_ret p | None => on_connector request_pin end : S (list Z)) t).2 = None) as H1
      by (destruct pin; [done|by rewrite on_connector_authenticated]).
    match type of H1 with authenticated (?c t).2 = None => destruct (c t) as [[p|e'|] t1] end; [|done|done].
    cbn [snd] in H1.
    rewrite sm_bind_unfold. cbn [sm_gets]. rewrite sm_bind_unfold.
    pose proof (on_connector_authenticated (establish_secure_channel (aid t1)) t1) as H2. rewrite H1 in H2.
    destruct (on_connector (establish_secure_channel (aid t1)) t1) as [[u|e'|] t2]; cbn [snd] in H2; [|done|done].
    pose proof (on_connector_authenticated (oath_authenticate i p) t2) as H3. rewrite H2 in H3.
    destruct (on_connector (oath_authenticate i p) t2) as [[u'|e'|] t3]; cbn [snd] in H3; [done|done|done]. }
  specialize (Hp s1 Hr). rewrite E in Hp. by apply Hp.
Qed.

(** A slot that forgot its login. *)
Lemma logged_out_after (s : O) :
  authenticated (oath_logout s).2 = None ∧ authenticated (oath_clear_session s) = None ∧
  authenticated (oath_clear_lost_login s) = None.
Proof. by split_and!. Qed.


(** *** Commands sent *)

(** Only LIST is sent when the objects are enumerated. *)
Lemma enumeration_sends_list (I : D → Prop) id :
  preserves I (send_oath_apdu (oath_apdu 0xa1 0 0 [])) → preserves (λ s : O, I (connector s)) (backend_token_objects id).
Proof.
  intros Hi. unfold backend_token_objects. apply preserves_bind; [by apply preserves_modify|]. intros _.
  apply preserves_bind; [apply preserves_gets|]. intros []; [|apply preserves_ret]. cbn [negb].
  apply preserves_bind.
  - intros s Hs. assert (preserves I oath_list) as Hl.
    { unfold oath_list, oath_command. auto 10 with rust. }
    specialize (Hl _ Hs). unfold on_connector. by destruct (oath_list (connector s)).
  - intros cs. apply preserves_bind; [apply preserves_gets|]. intros known.
    apply preserves_bind; [by apply preserves_modify|]. intros _. apply preserves_ret.
Qed.

(** CALCULATE is sent once, or not at all. *)
Lemma calculate_sends_once c time (d : D) :
  (oath_calculate_command c time d).2 = d ∨
  ∃ payload, (oath_calculate_command c time d).2 = (send_oath_apdu (oath_apdu 0xa2 0 1 payload) d).2.
Proof.
  unfold oath_calculate_command. rewrite sm_bind_unfold.
  assert ((oath_challenge c time d).2 = d) as Hc.
  { unfold oath_challenge. destruct (cred_totp c); [|done]. destruct time; [by rewrite sm_bind_unfold; cbn; case_if|].
    rewrite !sm_bind_unfold. unfold sm_gets. destruct (unix_time d); [|done]. cbn. by case_if. }
  destruct (oath_challenge c time d) as [[ch|e|] d1]; cbn [snd] in Hc; subst d1; [|by left|by left].
  rewrite sm_bind_unfold. destruct (oath_tlv 0x71 (cred_name c) []) as [p|e|]; cbn [sm_lift]; [|by left|by left].
  rewrite sm_bind_unfold. destruct (oath_tlv 0x74 ch p) as [q|e|]; cbn [sm_lift]; [|by left|by left].
  right. exists q. rewrite sm_bind_unfold. unfold oath_command. rewrite sm_bind_unfold.
  destruct (send_oath_apdu (oath_apdu 0xa2 0 1 q) d) as [[response|e|] d1]; [|done|done]. cbn [snd].
  destruct (oath_status 0xa2 response) as [r|e|]; cbn [sm_lift]; [|done|done].
  rewrite !sm_bind_unfold. destruct (oath_parse r) as [fs|e|]; cbn [sm_lift]; [|done|done]. rewrite sm_bind_unfold.
  destruct (oath_field fs 0x76) as [f|e|]; cbn [sm_lift]; [|done|done]. rewrite sm_bind_unfold. by destruct f.
Qed.

(** a HOTP counter is never advanced behind the caller's back. Enumerating
    the credentials sends nothing but one LIST, so whatever of the card LIST keeps,
    enumeration keeps; and calculating a code sends at most one CALCULATE, never
    repeated after an error, whatever the card answers. *)
Theorem oath_counter_spared :
  (∀ (I : D → Prop) id, preserves I (send_oath_apdu (oath_apdu 0xa1 0 0 [])) →
     preserves (λ s : O, I (connector s)) (backend_token_objects id)) ∧
  (∀ c time (s : O), connector (slot_oath_calculate c time s).2 = connector s ∨
     ∃ payload, connector (slot_oath_calculate c time s).2
                = (send_oath_apdu (oath_apdu 0xa2 0 1 payload) (connector s)).2).
Proof.
  split; [apply enumeration_sends_list|]. intros c time s. unfold slot_oath_calculate, require_access.
  rewrite !sm_bind_unfold. unfold sm_gets, guard_err. destruct (negb (oath_login_is_active s)); [by left|]. cbn [sm_ret].
  unfold on_connector. pose proof (calculate_sends_once c time (connector s)) as Hc.
  by destruct (oath_calculate_command c time (connector s)).
Qed.
End access.

(** ** Time stamps *)

(** The leap days of the years up to [y]. *)
Definition leap_days (y : Z) : Z := y / 4 - y / 100 + y / 400.

Lemma leap_days_succ y : leap_days y = leap_days (y - 1) + if leap y then 1 else 0.
Proof.
  unfold leap_days, leap.
  destruct (Z.eqb_spec (y mod 4) 0), (Z.eqb_spec (y mod 100) 0), (Z.eqb_spec (y mod 400) 0); cbn [andb orb negb];
    Z.to_euclidean_division_equations; lia.
Qed.

Lemma sum_app l k : sum (l ++ k) = sum l + sum k.
Proof.
  induction l as [|x l IH]; [done|]. change (sum ((x :: l) ++ k)) with (x + sum (l ++ k)).
  change (sum (x :: l)) with (x + sum l). lia.
Qed.

(** The days of the years from 1970 in closed form. *)
Lemma year_days_closed y : 1970 ≤ y → year_days y = 365 * (y - 1970) + leap_days (y - 1) - leap_days 1969.
Proof.
  intros Hy. replace y with (1970 + Z.of_nat (Z.to_nat (y - 1970))) by lia.
  generalize (Z.to_nat (y - 1970)) as n. clear. induction n as [|n IH]; [done|].
  unfold year_days in *. replace (1970 + Z.of_nat (Datatypes.S n) - 1970) with (Z.of_nat n + 1) by lia.
  rewrite seqZ_app by lia. rewrite fmap_app, sum_app. replace (1970 + Z.of_nat n - 1970) with (Z.of_nat n) in IH by lia.
  rewrite IH. replace (seqZ (1970 + Z.of_nat n) 1) with [1970 + Z.of_nat n] by (cbn; f_equal; lia).
  change (sum ((λ y, if leap y then 366 else 365) <$> [1970 + Z.of_nat n]))
    with ((if leap (1970 + Z.of_nat n) then 366 else 365) + 0).
  replace (1970 + Z.of_nat (Datatypes.S n) - 1) with (1970 + Z.of_nat n) by lia.
  rewrite (leap_days_succ (1970 + Z.of_nat n)). destruct (leap _); lia.
Qed.

(** The days before a month in closed form. *)
Lemma month_days_closed year month : 1 ≤ month ≤ 12 →
  sum (ztake (month - 1) (month_lengths year)) =
    (367 * month - 362) / 12 - if month <=? 2 then 0 else if leap year then 1 else 2.
Proof.
  intros Hm. assert (month = 1 ∨ month = 2 ∨ month = 3 ∨ month = 4 ∨ month = 5 ∨ month = 6 ∨ month = 7 ∨ month = 8 ∨
    month = 9 ∨ month = 10 ∨ month = 11 ∨ month = 12) as Hc by lia.
  unfold month_lengths. destruct (leap year);
    repeat (destruct Hc as [->|Hc]; [by vm_compute|]); subst month; by vm_compute.
Qed.

Lemma digits_slice a b v : forallb is_ascii_digit v = true → forallb is_ascii_digit (slice a b v) = true.
Proof.
  intros Hv. unfold slice, ztake. rewrite <-(ztake_zdrop a v), forallb_app in Hv. apply andb_true_iff in Hv as [_ Hv].
  rewrite <-(take_drop (Z.to_nat (b - a)) (zdrop a v)), forallb_app in Hv. by apply andb_true_iff in Hv as [Hv _].
Qed.
Lemma number_nonneg v : forallb is_ascii_digit v = true → 0 ≤ number v.
Proof.
  unfold number. assert (∀ a, 0 ≤ a → forallb is_ascii_digit v = true → 0 ≤ foldl (λ a v, a * 10 + (v - 48)) a v) as Hf;
    [|by apply Hf].
  induction v as [|x v IH]; intros a Ha; [done|]. cbn [forallb foldl]. intros [Hx Hv]%andb_true_iff.
  apply IH; [|done]. unfold is_ascii_digit in Hx. bool_to_prop. lia.
Qed.

(** a time stamp is the Gregorian calendar. [parse_time] accepts exactly the
    fourteen-digit stamps that name a second of a day that exists, from 1970 to
    9999, and returns the seconds since the start of 1970 by the closed formula of
    the proleptic Gregorian calendar. *)
Theorem parse_time_gregorian v t :
  let y := number (slice 0 4 v) in let mo := number (slice 4 6 v) in let d := number (slice 6 8 v) in
  let h := number (slice 8 10 v) in let mi := number (slice 10 12 v) in let s := number (zdrop 12 v) in
  parse_time v = Ok t ↔
  len v = 14 ∧ forallb is_ascii_digit v = true ∧ 1970 ≤ y ∧ 1 ≤ mo ≤ 12 ∧
  1 ≤ d ≤ at_ (month_lengths y) (mo - 1) ∧ h ≤ 23 ∧ mi ≤ 59 ∧ s ≤ 59 ∧
  t = ((365 * (y - 1970) + leap_days (y - 1) - 477
        + (367 * mo - 362) / 12 - (if mo <=? 2 then 0 else if leap y then 1 else 2) + d - 1) * 24 + h) * 3600
      + mi * 60 + s.
Proof.
  cbn zeta. set (y := number (slice 0 4 v)). set (mo := number (slice 4 6 v)). set (d := number (slice 6 8 v)).
  set (h := number (slice 8 10 v)). set (mi := number (slice 10 12 v)). set (s := number (zdrop 12 v)).
  unfold parse_time. fold y mo d h mi s. change (leap_days 1969) with 477.
  destruct (Z.eqb_spec (len v) 14) as [Hl|Hl]; cbn [negb orb]; [|naive_solver].
  destruct (forallb is_ascii_digit v) eqn:Hv; cbn [negb]; [|naive_solver].
  assert (0 ≤ d) as Hd by (apply number_nonneg; by apply digits_slice).
  destruct (_ || _) eqn:Eb.
  - split; [done|]. intros (_ & _ & Hy & Hmo & Hday & Hh & Hmi & Hs & _). exfalso. revert Eb.
    rewrite !orb_true_iff, !negb_true_iff, !andb_false_iff. lia.
  - rewrite !orb_false_iff, !negb_false_iff, !andb_true_iff in Eb.
    destruct Eb as ((((((Ey & [Em1 Em2]) & Ed) & Edm) & Eh) & Emi) & Es). bool_to_prop.
    rewrite year_days_closed, month_days_closed by lia. change (leap_days 1969) with 477.
    split; [intros [= <-]; split_and!; try done; lia|intros (_ & _ & _ & _ & _ & _ & _ & _ & ->); f_equal; lia].
Qed.

(** ** Witnesses *)

Lemma oath_parse_exact_witness :
  oath_parse [0x71; 3; 1; 2; 3; 0x74; 0x81; 1; 9] = Ok [(0x71, [1; 2; 3]); (0x74, [9])] ∧
  oath_parse [0x71; 3; 1; 2; 3; 0x74; 0x81; 1; 9; 0x75; 1; 5] = Ok [(0x71, [1; 2; 3]); (0x74, [9]); (0x75, [5])].
Proof.
  assert (Forall is_byte [0x71; 3; 1; 2; 3; 0x74; 0x81; 1; 9]) as Hb by (repeat constructor; lia).
  destruct (oath_parse_exact _ Hb) as (_ & Hp & Ht).
  assert (oath_parse [0x71; 3; 1; 2; 3; 0x74; 0x81; 1; 9] = Ok [(0x71, [1; 2; 3]); (0x74, [9])]) as E.
  { apply Hp. apply (encodes_short 0x71 [1; 2; 3]); [by vm_compute|]. apply (encodes_long 0x74 [9]); [by vm_compute|constructor]. }
  split; [done|]. apply (Ht [(0x71, [1; 2; 3]); (0x74, [9])] 0x75 [5] _ E); [lia|repeat constructor; lia|done].
Defined.

#[export] Instance toy_oath_backend : OathBackend ToyBackend.
Proof.
  split. cbn. intros c time b b' code [= <- _]. split; [by vm_compute|].
  repeat constructor; unfold is_digit; lia.
Qed.

Definition toy_credential : Credential := mkCredential [97; 98] false 1 false 0 None None.
Definition toy_otp_operation : SignatureOperation :=
  mkSignature false None (OathCredential toy_credential) None 0 true false None None None CKM_HOTP None None None None None
    [] None.
Definition toy_otp_session : SessionContext :=
  set_signature_operation true (Some toy_otp_operation) (SessionContext_new (mkBackendSession 0 6)).
Definition toy_otp : SlotContext ToyBackend MemoryStorageProvider := put_session 1 toy_otp_session toy_start.

Lemma oath_otp_delivery_witness :
  (oath_sign 1 toy_otp_operation [] 4096 (toy_otp, mkOutput false (Some 48) [])).1 = Ok tt ∧
  ∃ code, is_code code ∧
    out_data (oath_sign 1 toy_otp_operation [] 4096 (toy_otp, mkOutput false (Some 48) [])).2.2 = otp_result 4096 code.
Proof.
  assert (open_in toy_otp 1 toy_otp_session) as Ho by (by split; vm_compute).
  pose proof (oath_otp_delivery 1 toy_otp_operation toy_credential 4096 toy_otp toy_otp_session
    (mkOutput false (Some 48) []) 48 [] Ho eq_refl eq_refl eq_refl) as Hd.
  assert ((oath_sign 1 toy_otp_operation [] 4096 (toy_otp, mkOutput false (Some 48) [])).1 = Ok tt) as Er by (by vm_compute).
  destruct (oath_sign 1 toy_otp_operation [] 4096 _) as [r [y o']]. cbn [fst snd] in *. split; [done|].
  destruct Hd as (_ & _ & _ & Hd). destruct (Hd Er) as (code & Hc & E & _). by exists code.
Defined.

(** A card that knows one counter credential and records what it was sent. *)
Record ToyCard : Type := mkToyCard { toy_epoch : Z; toy_sent : list Z }.
#[export] Instance toy_card : OathConnector ToyCard := {|
  send_oath_apdu apdu c :=
    (Ok (mkResponseApdu (if ins apdu =? 0xa1 then [0x72; 3; 0x11; 97; 98] else [0x76; 5; 6; 0; 0; 3; 232]) 0x9000),
     mkToyCard (toy_epoch c) (toy_sent c ++ [ins apdu]));
  connection_epoch := toy_epoch;
  connector_login_state _ := None;
  set_ccid_login_state _ := sm_ret tt;
  establish_secure_channel _ := sm_ret tt;
  clear_secure_channel_for_login c := c;
  connector_clear_channel c := c;
  reconcile_lost_applet_login c := c;
  fill_random n := sm_ret (replicate (Z.to_nat n) 7);
  unix_time _ := Some 0;
  request_pin := sm_ret [];
|}.
#[export] Instance toy_oath_crypto : OathCrypto := {|
  pbkdf2_hmac_sha1 password salt := Ok (password ++ salt);
  hmac_sha1 key d := Ok (key ++ d);
|}.
Definition toy_oath_slot : OathSlot ToyCard := mkOathSlot (mkToyCard 1 []) OATH_AID None None ∅ ∅.


(** With a login the objects are listed, and the card has seen LIST only. *)
Lemma oath_counter_spared_witness :
  let s := set_authenticated (Some 1) toy_oath_slot in
  len (match (backend_token_objects 0 s).1 with Ok objects => objects | _ => [] end) = 2 ∧
  Forall (λ i, i ≠ 0xa2) (toy_sent (connector (backend_token_objects 0 s).2)) ∧
  (slot_oath_calculate toy_credential None s).1 = Ok (str "001000") ∧
  toy_sent (connector (slot_oath_calculate toy_credential None s).2) = [0xa2].
Proof.
  intros s. split; [by vm_compute|]. split; [|by split; vm_compute].
  apply (proj1 oath_counter_spared (λ c : ToyCard, Forall (λ i, i ≠ 0xa2) (toy_sent c))); [|by constructor].
  intros c Hc. cbn. apply Forall_app. split; [done|]. by repeat constructor.
Defined.
