(* ===== verification/Signatures.v ===== *)
(** * Signatures: the signing and verification entry points

    Models the session part of [src/src/api/crypt/sign.rs] and [verify.rs], and
    [signature_update] of [shared.rs]: [C_SignInit], [C_Sign], [C_SignUpdate],
    [C_SignFinal] and their [C_Verify] counterparts, for software keys and MAC
    keys, the keys of a YubiHSM, a PIV and an OpenPGP card, FIDO credentials and
    OATH credentials.

    A composite mechanism hashes the message as it arrives; the other mechanisms
    keep it in the operation's buffer. [C_Verify] takes the operation before it
    looks at its arguments, [C_Sign] ends it where it returns. *)
From S2P Require Import Prelude Errors Mechanisms Storage YubiHsm SlotState SessionApi CryptApi Digests CipherModes Ciphers SignatureModes OathOtp.

(** ** Operations *)

Definition set_signature_input (multipart : bool) (state : option SignatureHashContext) (buffer : list Z)
    (o : SignatureOperation) : SignatureOperation :=
  mkSignature multipart state (sign_key o) (sign_public_key o) (sign_slot_id o) (sign_requires_login o)
    (context_specific_extended o) (context_specific_rp_id o) (oath_time o) (fido_authorization o)
    (sign_mechanism o) (mac_length o) (gmac o) (pss o) (ml_dsa o) (piv_pin_policy o) buffer (sign_result o).
Definition set_signature_result (buffer : list Z) (result : option (list Z)) (o : SignatureOperation)
    : SignatureOperation :=
  mkSignature (sign_multipart o) (prehash_state o) (sign_key o) (sign_public_key o) (sign_slot_id o)
    (sign_requires_login o) (context_specific_extended o) (context_specific_rp_id o) (oath_time o)
    (fido_authorization o) (sign_mechanism o) (mac_length o) (gmac o) (pss o) (ml_dsa o) (piv_pin_policy o)
    buffer result.

(** The mechanisms without parameters that [sign_init] accepts. *)
Definition plain_sign_mechanism (m : Z) : bool :=
  (m =? CKM_RSA_PKCS) || (m =? CKM_RSA_X_509) || piv_is_hashed_rsa_pkcs m || (m =? CKM_ECDSA)
  || piv_is_hashed_ecdsa m || (m =? CKM_EDDSA) || (m =? CKM_ML_DSA) || (m =? CKM_HASH_ML_DSA)
  || one_of HASH_ML_DSA_MECHANISMS m || (m =? CKM_SHA_1_HMAC) || (m =? CKM_SHA256_HMAC)
  || (m =? CKM_SHA384_HMAC) || (m =? CKM_SHA512_HMAC) || (m =? CKM_AES_CMAC) || (m =? CKM_AES_CMAC_GENERAL)
  || (m =? CKM_AES_GMAC) || (m =? CKM_PKCS11RS_PREVIEW_SIGN) || (m =? CKM_PKCS11RS_FIDO_ASSERTION).

Definition expected_sign_key_type (m : Z) : Z :=
  match hmac_key_type_and_length m with
  | Some (key_type, _) => key_type
  | None =>
      if (m =? CKM_ECDSA) || piv_is_hashed_ecdsa m then CKK_EC
      else if m =? CKM_PKCS11RS_PREVIEW_SIGN then CKK_EC
      else if m =? CKM_PKCS11RS_FIDO_ASSERTION then 0
      else if m =? CKM_EDDSA then CKK_EC_EDWARDS
      else if is_ml_dsa_mechanism m then CKK_ML_DSA
      else if one_of [CKM_AES_CMAC; CKM_AES_CMAC_GENERAL; CKM_AES_GMAC] m then CKK_AES
      else CKK_RSA
  end.

(** Whether the class, the type and the material of a key fit the mechanism. *)
Definition sign_key_consistent (m : Z) (o : TokenObject) : bool :=
  let expected := expected_sign_key_type m in
  let is_secret := match material o with YubiHsm _ _ _ _ _ | SoftwareSecret _ => true | _ => false end in
  let secret_key_material := (is_hmac_key_type expected || (expected =? CKK_AES)) && is_secret in
  let software_generic_hmac :=
    is_hmac_key_type expected && (key_type o =? CKK_GENERIC_SECRET)
    && match material o with SoftwareSecret _ => true | _ => false end in
  (class o =? (if secret_key_material then CKO_SECRET_KEY else CKO_PRIVATE_KEY))
  && ((m =? CKM_PKCS11RS_FIDO_ASSERTION) || (key_type o =? expected) || software_generic_hmac)
  && match material o with
     | SoftwarePrivate _ | PivPrivate _ _ _ _ | OpenPgpPrivate _ _ _ _ | YubiHsm _ _ _ _ _ | SoftwareSecret _
     | PreviewSignDerived _ _ _ | FidoResidentPrivate _ => true
     | _ => false
     end.

(** Whether the key's implementation can do the mechanism; [table] is what the
    backend advertises. *)
Definition sign_mechanism_supported (m : Z) (has_aes_mac : bool) (table : list MechanismDetails) (o : TokenObject)
    : bool :=
  match material o with
  | PivPrivate _ algorithm _ _ => piv_sign_mechanism_supported algorithm m
  | OpenPgpPrivate _ algorithm _ _ => openpgp_sign_mechanism_supported algorithm m
  | PreviewSignDerived _ _ _ => m =? CKM_PKCS11RS_PREVIEW_SIGN
  | FidoResidentPrivate _ => m =? CKM_PKCS11RS_FIDO_ASSERTION
  | SoftwarePrivate key =>
      (software_key_type key =? expected_sign_key_type m) && software_sign_mechanism_supported key m
  | SoftwareSecret _ =>
      ((key_type o =? CKK_AES) && has_aes_mac)
      || match hmac_key_type_and_length m with
         | Some (t, _) => (t =? key_type o) || (key_type o =? CKK_GENERIC_SECRET)
         | None => false
         end
  | YubiHsm _ _ _ _ _ =>
      existsb (λ d, (type_ d =? m) && negb (Z.land (details_flags d) CKF_SIGN =? 0)) table
      && negb (m =? CKM_RSA_X_509)
  | _ => false
  end.

(** Whether a key can verify; [asymmetric] is its public key as stored. *)
Definition verify_key_consistent {B} `{RsaCore B} (m : Z) (aes_mac ml_dsa : bool) (o : TokenObject)
    (asymmetric : option KeyMaterial) : outcome Error bool :=
  let is_hmac := bool_decide (is_Some (hmac_key_type_and_length m)) in
  let is_ec := match asymmetric with Some (Public (EcPublic _ _)) => true | _ => false end in
  let rsa_mechanism := (m =? CKM_RSA_PKCS) || (m =? CKM_RSA_X_509) || piv_is_hashed_rsa_pkcs m || piv_is_pss_mechanism m in
  let aes_ok := negb aes_mac ||
    ((class o =? CKO_SECRET_KEY) && (key_type o =? CKK_AES)
     && match material o with
        | YubiHsm _ _ algorithm _ _ => one_of [YUBIHSM_ALGO_AES128; YUBIHSM_ALGO_AES192; YUBIHSM_ALGO_AES256] algorithm
        | SoftwareSecret _ | YubiHsmSessionObject _ _ => true
        | _ => false
        end) in
  let hmac_ok :=
    match hmac_key_type_and_length m with
    | None => true
    | Some (t, _) =>
        (class o =? CKO_SECRET_KEY)
        && match material o with
           | SoftwareSecret _ => (key_type o =? t) || (key_type o =? CKK_GENERIC_SECRET)
           | YubiHsm _ _ algorithm _ _ =>
               match yubihsm_hmac_mechanism m with Some (_, expected, _) => algorithm =? expected | None => false end
           | _ => false
           end
    end in
  if negb aes_ok || negb hmac_ok || (negb aes_mac && negb is_hmac && negb (class o =? CKO_PUBLIC_KEY)) then Ok false
  else
    let? rsa_ok := (if rsa_mechanism then
                      if negb (key_type o =? CKK_RSA) then Ok false
                      else
                        let? key := ok_or #CKR_KEY_TYPE_INCONSISTENT asymmetric in
                        let? found := rsa_public_key_material key in
                        Ok (bool_decide (is_Some found))
                    else Ok true) in
    Ok (rsa_ok
        && (negb ((m =? CKM_ECDSA) || piv_is_hashed_ecdsa m) || ((key_type o =? CKK_EC) && is_ec))
        && (negb (m =? CKM_EDDSA) || ((key_type o =? CKK_EC_EDWARDS) && is_ec))
        && (negb ml_dsa || ((key_type o =? CKK_ML_DSA)
                            && match asymmetric with Some (Public (MlDsaPublic _ _)) => true | _ => false end))).

Section signatures.
Context `{HashCore} `{SymmetricCore} `{PublicKeyProjection}.
Context {B P : Type} `{Slot B} `{StorageProvider P} `{Sha3, MiniCbor} `{BackedObjects}
  `{Environment B P} `{CryptBackend B} `{RsaCore B} `{SignatureCore B}.
Abbreviation Ctx := (SlotContext B P).
Abbreviation M := (SM Ctx Error).
Abbreviation IO := (SM (Ctx * Output) Error).

(** The MAC length, GMAC, PSS and ML-DSA parameters of a mechanism. *)
Definition SignParameters : Type :=
  option Z * option GcmParameters * option (Z * Z * Z) * option MlDsaSignatureParameters.

(** The first element says whether the mechanism is a MAC with an AES key. *)
Definition signature_parameters (m : CK_MECHANISM) (verifying : bool) : outcome Error (bool * SignParameters) :=
  let? gmac := aes_gmac_parameters m in
  let? aes_mac_length := (match gmac with
                          | Some p => Ok (Some (div_ceil (tag_bits p) 8))
                          | None => aes_cmac_length m
                          end) in
  let? hmac_length := hmac_output_length m in
  let mac := match hmac_length with Some n => Some n | None => aes_mac_length end in
  let? ml_dsa := ml_dsa_parameters m verifying in
  let? pss := (if bool_decide (is_Some mac) || bool_decide (is_Some ml_dsa) then Ok None
               else if piv_is_pss_mechanism (mechanism m) then omap_ok Some (parse_rsa_pss_parameters m)
               else
                 let? _ := bail (negb verifying && negb (plain_sign_mechanism (mechanism m)))
                             #CKR_MECHANISM_INVALID in
                 if has_parameter m then Err #CKR_MECHANISM_PARAM_INVALID else Ok None) in
  Ok (bool_decide (is_Some aes_mac_length), (mac, gmac, pss, ml_dsa)).

Definition new_signature_operation (id : Z) (m : Z) (key : KeyMaterial) (o : TokenObject) (rp : option (list Z))
    (pin_policy : option Z) (p : SignParameters) : SignatureOperation :=
  let '(mac, gmac, pss, ml_dsa) := p in
  mkSignature false (signature_context m) key (public_key o) id (private o) false rp None None m mac gmac pss
    ml_dsa pin_policy [] None.

Definition sign_init_in (k : Z) (m : option CK_MECHANISM) (key : Z) : M unit :=
  let! '(id, _, logged_in) := session_details k in
  let! session := get_session_context k in
  match m with
  | None =>
      let! _ := end_signature k true in
      sm_lift (match sign_operation session with Some _ => Ok tt | None => Err #CKR_OPERATION_NOT_INITIALIZED end)
  | Some m =>
      let! _ := guard_err (bool_decide (is_Some (sign_operation session))) #CKR_OPERATION_ACTIVE in
      if oath_is_mechanism (mechanism m) then oath_sign_init k m key
      else
        let! _ := require_slot_mechanism id (mechanism m) CKF_SIGN in
        let! '(aes_mac, p) := sm_lift (signature_parameters m false) in
        let! found := resolve_object key in
        let! object := sm_lift (ok_or #CKR_KEY_HANDLE_INVALID found) in
        let! _ := guard_err (private object && negb logged_in) #CKR_USER_NOT_LOGGED_IN in
        let! _ := guard_err (negb (is_visible_to logged_in object)) #CKR_KEY_HANDLE_INVALID in
        let! _ := sm_lift (require_key_mechanism object (mechanism m)) in
        let! _ := guard_err (negb (sign object)) #CKR_KEY_FUNCTION_NOT_PERMITTED in
        let! _ := guard_err (negb (sign_key_consistent (mechanism m) object)) #CKR_KEY_TYPE_INCONSISTENT in
        let! table := (match material object with
                       | YubiHsm _ _ _ _ _ => let! _ := get_slot id in asks backend_mechanisms
                       | _ => sm_ret []
                       end) in
        let! _ := guard_err (negb (sign_mechanism_supported (mechanism m) aes_mac table object))
                    #CKR_MECHANISM_INVALID in
        update_session k (set_signature_operation true (Some
          (new_signature_operation id (mechanism m) (material object) object
             (match material object with
              | FidoResidentPrivate _ => rp_id object
              | PreviewSignDerived registration _ _ => Some (registration_rp_id registration)
              | _ => None
              end)
             (match material object with PivPrivate _ _ pin_policy _ => Some pin_policy | _ => None end) p)))
  end.

Definition verify_mechanism (m : Z) (aes_mac ml_dsa : bool) : bool :=
  (m =? CKM_RSA_PKCS) || (m =? CKM_RSA_X_509) || piv_is_hashed_rsa_pkcs m || piv_is_pss_mechanism m
  || (m =? CKM_ECDSA) || piv_is_hashed_ecdsa m || (m =? CKM_EDDSA) || ml_dsa || aes_mac
  || bool_decide (is_Some (hmac_key_type_and_length m)).

Definition verify_init_in (k : Z) (m : option CK_MECHANISM) (key : Z) : M unit :=
  let! '(id, _, logged_in) := session_details k in
  let! session := get_session_context k in
  match m with
  | None =>
      let! _ := end_signature k false in
      sm_lift (match verify_operation session with Some _ => Ok tt | None => Err #CKR_OPERATION_NOT_INITIALIZED end)
  | Some m =>
      let! _ := guard_err (bool_decide (is_Some (verify_operation session))) #CKR_OPERATION_ACTIVE in
      let! _ := require_slot_mechanism id (mechanism m) CKF_VERIFY in
      let! '(aes_mac, p) := sm_lift (signature_parameters m true) in
      let '(_, _, _, ml_dsa) := p in
      let is_ml_dsa := bool_decide (is_Some ml_dsa) in
      let! _ := guard_err (negb (verify_mechanism (mechanism m) aes_mac is_ml_dsa)) #CKR_MECHANISM_INVALID in
      let! found := resolve_object key in
      let! object := sm_lift (ok_or #CKR_KEY_HANDLE_INVALID found) in
      let! _ := guard_err (private object && negb logged_in) #CKR_USER_NOT_LOGGED_IN in
      let! _ := guard_err (negb (is_visible_to logged_in object)) #CKR_KEY_HANDLE_INVALID in
      let! _ := sm_lift (require_key_mechanism object (mechanism m)) in
      let! _ := guard_err (negb (verify object)) #CKR_KEY_FUNCTION_NOT_PERMITTED in
      let! asymmetric := sm_lift
        (if negb aes_mac && negb (bool_decide (is_Some (hmac_key_type_and_length (mechanism m))))
         then omap_ok Some (projected_public_key_material object) else Ok None) in
      let! consistent := sm_lift (verify_key_consistent (mechanism m) aes_mac is_ml_dsa object asymmetric) in
      let! _ := guard_err (negb consistent) #CKR_KEY_TYPE_INCONSISTENT in
      update_session k (set_signature_operation false (Some
        (new_signature_operation id (mechanism m) (default (material object) asymmetric) object None None p)))
  end.

(** *** MACs inside a YubiHSM *)

Definition yubihsm_aes_cmac (k key_id : Z) (data : list Z) : M (list Z) :=
  cmac_with_encryptor data (yubihsm_encrypt_ecb_blocks k key_id).
Definition yubihsm_aes_gmac (k key_id : Z) (p : GcmParameters) (data : list Z) : M (list Z) :=
  aes_gcm (gmac_parameters p data) [] true (yubihsm_encrypt_ecb_blocks k key_id).

(** *** One signature *)

Definition secret_signature (op : SignatureOperation) (m : Z) (key : list Z) (required : Z) (data : list Z)
    : M (list Z) :=
  if bool_decide (is_Some (hmac_key_type_and_length m)) then
    let! mac := sm_lift (software_hmac key m data) in
    sm_ret (ztake required mac)
  else
    match gmac op with
    | Some p => software_aes_gmac key p data
    | None =>
        if bool_decide (is_Some (mac_length op)) then
          let! mac := sm_lift (software_aes_cmac key data) in
          sm_ret (ztake required mac)
        else sm_lift (software_hmac key m data)
    end.

(** What a PIV card is asked to sign. *)
Definition piv_signature_input (op : SignatureOperation) (m required : Z) (data : list Z) : SM B Error (list Z) :=
  let digest := digest_of m data in
  if piv_is_pss_mechanism m then
    let! '(mgf, salt_length, h) := sm_lift (ok_or #CKR_MECHANISM_PARAM_INVALID (pss op)) in
    encode_rsa_pss (default data digest) required h mgf salt_length
  else if piv_is_hashed_rsa_pkcs m then
    let! digest := sm_lift (ok_or #CKR_MECHANISM_PARAM_INVALID digest) in
    let! info := sm_lift (ok_or #CKR_MECHANISM_PARAM_INVALID (piv_digest_info m digest)) in
    sm_lift (encode_pkcs1_v1_5_signature_input info required)
  else if m =? CKM_RSA_PKCS then sm_lift (encode_pkcs1_v1_5_signature_input data required)
  else if m =? CKM_RSA_X_509 then
    let! _ := guard_err (required <? len data) #CKR_DATA_LEN_RANGE in
    sm_ret (replicate (Z.to_nat (required - len data)) 0 ++ data)
  else if piv_is_hashed_ecdsa m then sm_lift (ok_or #CKR_MECHANISM_PARAM_INVALID digest)
  else sm_ret data.

Definition openpgp_signature_input (algorithm : OpenPgpAlgorithm) (m : Z) (data : list Z) : outcome Error (list Z) :=
  let digest := digest_of m data in
  match algorithm with
  | PgpRsa _ =>
      if piv_is_hashed_rsa_pkcs m then
        let? digest := ok_or #CKR_MECHANISM_PARAM_INVALID digest in
        ok_or #CKR_MECHANISM_PARAM_INVALID (piv_digest_info m digest)
      else Ok data
  | PgpEcdsa _ => Ok (default data digest)
  | PgpEd25519 => Ok data
  | PgpEcdh _ => Err #CKR_KEY_TYPE_INCONSISTENT
  end.

Definition yubihsm_signature (k : Z) (op : SignatureOperation) (m id algorithm required : Z) (data : list Z)
    : M (list Z) :=
  if bool_decide (is_Some (hmac_key_type_and_length m)) then
    let! command := sm_lift (key_data SignHmac id data) in
    let! response := on_session k (λ s, yubihsm_command s command) in
    sm_ret (ztake required response)
  else
    match gmac op with
    | Some p => yubihsm_aes_gmac k id p data
    | None =>
        if bool_decide (is_Some (mac_length op)) then
          let! mac := yubihsm_aes_cmac k id data in
          sm_ret (ztake required mac)
        else
          let! command := sm_lift (match ml_dsa op with
                                   | Some p => sign_ml_dsa id p data
                                   | None => yubihsm_asymmetric_signature_command m (pss op) id data
                                   end) in
          let! response := on_session k (λ s, yubihsm_command s command) in
          if (m =? CKM_ECDSA) || piv_is_hashed_ecdsa m then
            let! n := sm_lift (yubihsm_ec_coordinate_length algorithm) in
            sm_lift (ecdsa_der_to_raw response n)
          else sm_ret response
    end.

Definition compute_signature (k : Z) (op : SignatureOperation) (m required : Z) (data : list Z) : M (list Z) :=
  match sign_key op with
  | SoftwarePrivate key => on_slot (software_sign key m (pss op) (ml_dsa op) data)
  | SoftwareSecret key => secret_signature op m key required data
  | PivPrivate piv_slot algorithm _ _ =>
      let! input := on_slot (piv_signature_input op m required data) in
      let! response := on_session k (λ s, piv_sign s piv_slot algorithm input (default 0 (piv_pin_policy op)) (ml_dsa op)) in
      match algorithm with
      | EccP256 => sm_lift (ecdsa_der_to_raw response 32)
      | EccP384 => sm_lift (ecdsa_der_to_raw response 48)
      | _ => sm_ret response
      end
  | OpenPgpPrivate key_ref algorithm pin_policy _ =>
      let! input := sm_lift (openpgp_signature_input algorithm m data) in
      let! response := on_session k (λ s, openpgp_sign s key_ref input pin_policy) in
      match algorithm with
      | PgpEcdsa curve =>
          let! n := sm_lift (ok_or #CKR_KEY_TYPE_INCONSISTENT (pgp_coordinate_length curve)) in
          sm_lift (openpgp_signature response n)
      | _ => sm_ret response
      end
  | YubiHsm id _ algorithm _ _ => yubihsm_signature k op m id algorithm required data
  | _ => sm_err #CKR_KEY_TYPE_INCONSISTENT
  end.

(** *** Ends of an operation *)

(** Return [e] and end the operation when the condition holds. *)
Definition end_signature_if (k : Z) (b : bool) (e : Error) : M unit :=
  if b then
    let! _ := end_signature k true in
    sm_err e
  else sm_ret tt.

(** A failed step ends the operation. *)
Definition end_signature_on_error {A} (k : Z) (c : M A) : M A := λ x,
  match c x with
  | (Err e, y) => (let! _ := end_signature k true in sm_err e) y
  | r => r
  end.

(** An operation with a private key ends when its user is no longer logged in. *)
Definition require_signature_login (k : Z) (op : SignatureOperation) (signing : bool) : M unit :=
  if sign_requires_login op then
    let! active := is_slot_user_logged_in (sign_slot_id op) in
    if (active : bool) then sm_ret tt
    else
      let! _ := reconcile_login_state (sign_slot_id op) in
      let! _ := if signing then end_signature k true else sm_ret tt in
      sm_err #CKR_USER_NOT_LOGGED_IN
  else sm_ret tt.

(** *** FIDO credentials *)

(** The authorization of a context-specific login serves one assertion. *)
Definition fido_response (k : Z) (op : SignatureOperation) (rp data : list Z) : M (list Z) :=
  let! session := get_session_context k in
  let! active := sm_lift (ok_or #CKR_USER_NOT_LOGGED_IN (sign_operation session)) in
  let! authorization := sm_lift (ok_or #CKR_USER_NOT_LOGGED_IN (fido_authorization active)) in
  let! _ := update_session k (set_signature_operation true (Some (set_fido_authorization None active))) in
  let! _ := end_signature_on_error k (get_slot (sign_slot_id op)) in
  let! additional := sm_lift (match sign_key op with
                              | PreviewSignDerived _ None _ => Err #CKR_MECHANISM_PARAM_INVALID
                              | PreviewSignDerived _ (Some args) _ => Ok args
                              | _ => Ok []
                              end) in
  let! response := end_signature_on_error k
    (match sign_key op with
     | FidoResidentPrivate credential_id => on_slot (fido_get_assertion authorization rp credential_id data)
     | PreviewSignDerived registration _ _ => on_slot (fido_preview_sign authorization registration data additional)
     | _ => sm_err #CKR_KEY_TYPE_INCONSISTENT
     end) in
  let! _ := end_signature_if k
              (match sign_key op with PreviewSignDerived _ _ _ => negb (len response =? 64) | _ => false end)
              #CKR_DEVICE_ERROR in
  let! session := get_session_context k in
  let! active := sm_lift (ok_or #CKR_OPERATION_NOT_INITIALIZED (sign_operation session)) in
  let! _ := update_session k (set_signature_operation true (Some (set_signature_result data (Some response) active))) in
  sm_ret response.

(** Deliver a signature that is already known, or report its length. *)
Definition deliver_signature (k : Z) (response : list Z) : IO unit :=
  let! null := output_null in
  if (null : bool) then report_length (len response)
  else
    let! capacity := output_capacity in
    if capacity <? len response then
      let! _ := report_length (len response) in
      sm_err #CKR_BUFFER_TOO_SMALL
    else
      let! _ := copy_out response in
      let! _ := report_length (len response) in
      sm_fst (end_signature k true).

Definition fido_sign (k : Z) (op : SignatureOperation) (data : list Z) : IO unit :=
  let! rp := sm_lift (ok_or #CKR_KEY_TYPE_INCONSISTENT (context_specific_rp_id op)) in
  let! _ := sm_fst (end_signature_if k
              (negb (len data =? 32) || (bool_decide (sign_buffer op ≠ []) && bool_decide (sign_buffer op ≠ data)))
              #CKR_DATA_LEN_RANGE) in
  let! response := (match sign_result op with
                    | Some response => sm_ret response
                    | None => sm_fst (fido_response k op rp data)
                    end) in
  deliver_signature k response.

(** *** The calls *)

(** The length checks between hashing and signing; each ends the operation. *)
Definition check_signature_input (k : Z) (op : SignatureOperation) (m required : Z) (data : list Z) : M unit :=
  let! _ := end_signature_if k
              (match ml_dsa op ≫= prehash with
               | Some h => negb (len data =? prehash_digest_length h)
               | None => false
               end) #CKR_DATA_LEN_RANGE in
  let! _ := end_signature_if k
              (match sign_key op with PreviewSignDerived _ _ _ => negb (len data =? 32) | _ => false end)
              #CKR_DATA_LEN_RANGE in
  let! _ := end_signature_if k ((m =? CKM_RSA_PKCS) && (Z.max 0 (required - 11) <? len data)) #CKR_DATA_LEN_RANGE in
  if m =? CKM_RSA_PKCS_PSS then
    match pss op with
    | None => end_signature_if k true #CKR_MECHANISM_PARAM_INVALID
    | Some (_, _, h) =>
        let! expected := sm_lift (digest_for_hash_mechanism h) in
        end_signature_if k (negb (len data =? hash_size expected)) #CKR_DATA_LEN_RANGE
    end
  else sm_ret tt.

Definition sign_in (k : Z) (signature : Z) (data : option (list Z)) (data_len : Z) (finalizing : bool) : IO unit :=
  let! session := sm_fst (get_session_context k) in
  let! op := sm_lift (ok_or #CKR_OPERATION_NOT_INITIALIZED (sign_operation session)) in
  let! _ := sm_fst (end_signature_if k (sign_multipart op && negb finalizing) #CKR_OPERATION_ACTIVE) in
  let! _ := sm_fst (require_signature_login k op true) in
  let! data := sm_fst (end_signature_on_error k (sm_lift (from_raw_parts data data_len))) in
  match sign_key op with
  | OathCredential _ => oath_sign k op data signature
  | FidoResidentPrivate _ | PreviewSignDerived _ _ _ => fido_sign k op data
  | _ =>
      let! '(m, data) := sm_lift (message op data) in
      let! required := sm_lift (signature_length op m) in
      let! _ := sm_fst (check_signature_input k op m required data) in
      let! null := output_null in
      if (null : bool) then report_length required
      else
        let! capacity := output_capacity in
        if capacity <? required then
          let! _ := report_length required in
          sm_err #CKR_BUFFER_TOO_SMALL
        else
          let! bytes := sm_fst (end_signature_on_error k (compute_signature k op m required data)) in
          let! _ := sm_fst (end_signature_if k (negb (len bytes =? required)) #CKR_DEVICE_ERROR) in
          let! _ := copy_out bytes in
          let! _ := report_length required in
          sm_fst (end_signature k true)
  end.

(** What an update does to the operation, or why it cannot. *)
Definition update_signature (part : option (list Z)) (part_len : Z) (signing : bool) (op : SignatureOperation)
    : outcome Error SignatureOperation :=
  let? part := from_raw_parts part part_len in
  let? _ := bail ((sign_mechanism op =? CKM_HASH_ML_DSA)
                  || (signing && (oath_is_mechanism (sign_mechanism op)
                                  || (sign_mechanism op =? CKM_PKCS11RS_FIDO_ASSERTION))))
              #CKR_FUNCTION_NOT_SUPPORTED in
  Ok (match prehash_state op with
      | Some state => set_signature_input true (Some (context_update state part)) (sign_buffer op) op
      | None => set_signature_input true None (sign_buffer op ++ part) op
      end).

Definition signature_update_in (k : Z) (part : option (list Z)) (part_len : Z) (signing : bool) : M unit :=
  let! session := get_session_context k in
  match signature_operation signing session with
  | None => sm_err #CKR_OPERATION_NOT_INITIALIZED
  | Some op =>
      match update_signature part part_len signing op with
      | Ok op => update_session k (set_signature_operation signing (Some op))
      | Err e => let! _ := end_signature k signing in sm_err e
      | Panic => sm_lift Panic
      end
  end.

(** The answer of a device that verifies. *)
Definition verification_answer (response : list Z) : outcome Error unit :=
  if bool_decide (response = [1]) then Ok tt
  else if bool_decide (response = [0]) then Err #CKR_SIGNATURE_INVALID
  else Err #CKR_DEVICE_ERROR.

(** [ct_eq] of the expected and the given MAC. *)
Definition compare_mac (expected signature : list Z) : outcome Error unit :=
  if bool_decide (expected = signature) then Ok tt else Err #CKR_SIGNATURE_INVALID.

Definition verify_with_hmac (k : Z) (op : SignatureOperation) (m full_length : Z) (data signature : list Z) : M unit :=
  let expected_length := default full_length (mac_length op) in
  let! _ := guard_err (negb (len signature =? expected_length)) #CKR_SIGNATURE_LEN_RANGE in
  match sign_key op with
  | SoftwareSecret key =>
      let! expected := sm_lift (software_hmac key m data) in
      sm_lift (compare_mac (ztake expected_length expected) signature)
  | YubiHsm id _ algorithm _ _ =>
      let! '(_, expected_algorithm, _) := sm_lift (ok_or #CKR_MECHANISM_INVALID (yubihsm_hmac_mechanism m)) in
      let! _ := guard_err (negb (algorithm =? expected_algorithm) || negb (expected_length =? full_length))
                  #CKR_KEY_TYPE_INCONSISTENT in
      let! command := sm_lift (verify_hmac id signature data) in
      let! response := on_session k (λ s, yubihsm_command s command) in
      sm_lift (verification_answer response)
  | _ => sm_err #CKR_KEY_TYPE_INCONSISTENT
  end.

Definition verify_with_aes (k : Z) (op : SignatureOperation) (n : Z) (data signature : list Z) : M unit :=
  let! _ := guard_err (negb (len signature =? n)) #CKR_SIGNATURE_LEN_RANGE in
  match sign_key op with
  | YubiHsm id _ _ _ _ =>
      let! expected := (match gmac op with
                        | Some p => yubihsm_aes_gmac k id p data
                        | None => yubihsm_aes_cmac k id data
                        end) in
      sm_lift (compare_mac (ztake n expected) signature)
  | SoftwareSecret key =>
      let! expected := (match gmac op with
                        | Some p => software_aes_gmac key p data
                        | None => sm_lift (software_aes_cmac key data)
                        end) in
      sm_lift (compare_mac (ztake n expected) signature)
  | YubiHsmSessionObject handle _ =>
      let! _ := guard_err (bool_decide (is_Some (gmac op))) #CKR_MECHANISM_INVALID in
      let! command := sm_lift (verify_session_object handle signature data) in
      let! response := on_session k (λ s, yubihsm_command s command) in
      sm_lift (verification_answer response)
  | _ => sm_err #CKR_KEY_TYPE_INCONSISTENT
  end.

(** Verify a signature of the whole message with the operation that was taken. *)
Definition verify_message_in (k : Z) (op : SignatureOperation) (m : Z) (data signature : list Z) : M unit :=
  match hmac_key_type_and_length m with
  | Some (_, full_length) => verify_with_hmac k op m full_length data signature
  | None =>
      match mac_length op with
      | Some n => verify_with_aes k op n data signature
      | None => sm_lift (verify_public op m data signature)
      end
  end.

Definition verify_in (k : Z) (data : option (list Z)) (data_len : Z) (signature : option (list Z))
    (signature_len : Z) (finalizing : bool) : M unit :=
  let! session := get_session_context k in
  let! op := sm_lift (ok_or #CKR_OPERATION_NOT_INITIALIZED (verify_operation session)) in
  let! _ := end_signature k false in
  let! _ := guard_err (sign_multipart op && negb finalizing) #CKR_OPERATION_ACTIVE in
  let! _ := require_signature_login k op false in
  let! data := sm_lift (from_raw_parts data data_len) in
  let! '(m, data) := sm_lift (message op data) in
  let! signature := sm_lift (from_raw_parts signature signature_len) in
  verify_message_in k op m data signature.

(** [C_SignFinal] and [C_VerifyFinal] refuse mechanisms that take no parts. *)
Definition check_final (k : Z) (signing : bool) : M unit :=
  let! session := get_session_context k in
  match signature_operation signing session with
  | Some op =>
      if (signing && oath_is_mechanism (sign_mechanism op)) || (sign_mechanism op =? CKM_HASH_ML_DSA) then
        let! _ := end_signature k signing in
        sm_err #CKR_FUNCTION_NOT_SUPPORTED
      else sm_ret tt
  | None => sm_ret tt
  end.

(** ** Entry points *)

Abbreviation MM := (SM (Module B P) Error).
Abbreviation MO := (SM (Module B P * Output) Error).

Definition C_SignInit (k : Z) (m : option CK_MECHANISM) (key : Z) : MM unit :=
  with_session_context_mut k (sign_init_in k m key).
Definition C_VerifyInit (k : Z) (m : option CK_MECHANISM) (key : Z) : MM unit :=
  with_session_context_mut k (verify_init_in k m key).

(** [sign]: without a length pointer the operation ends. *)
Definition sign_call (k signature : Z) (data : option (list Z)) (data_len : Z) (finalizing : bool) : MO unit := λ s,
  match out_len s.2 with
  | None => (let! _ := sm_fst (sm_ignore (with_session_context_mut k (sm_ignore (end_signature k true)))) in
             sm_err #CKR_ARGUMENTS_BAD) s
  | Some _ => with_session_output k (sign_in k signature data data_len finalizing) s
  end.
Definition C_Sign (k signature : Z) (data : option (list Z)) (data_len : Z) : MO unit :=
  sign_call k signature data data_len false.
Definition C_SignUpdate (k : Z) (part : option (list Z)) (part_len : Z) : MM unit :=
  with_session_context_mut k (signature_update_in k part part_len true).
Definition C_SignFinal (k signature : Z) : MO unit :=
  let! _ := sm_fst (with_session_context_mut k (check_final k true)) in
  sign_call k signature None 0 true.
Definition C_Verify (k : Z) (data : option (list Z)) (data_len : Z) (signature : option (list Z))
    (signature_len : Z) : MM unit :=
  with_session_context_mut k (verify_in k data data_len signature signature_len false).
Definition C_VerifyUpdate (k : Z) (part : option (list Z)) (part_len : Z) : MM unit :=
  with_session_context_mut k (signature_update_in k part part_len false).
Definition C_VerifyFinal (k : Z) (signature : option (list Z)) (signature_len : Z) : MM unit :=
  let! _ := with_session_context_mut k (check_final k false) in
  with_session_context_mut k (verify_in k None 0 signature signature_len true).
End signatures.
