(* ===== verification/SignatureStreams.v ===== *)
(** * SignatureStreams: multi-part signatures are single-part signatures

    For every key and mechanism that takes a message in parts, [C_SignUpdate]
    and [C_SignFinal] return what [C_Sign] returns for the whole message, and
    [C_VerifyUpdate] and [C_VerifyFinal] what [C_Verify] returns. *)
From S2P Require Import Prelude Errors Mechanisms Storage YubiHsm SlotState SessionApi CryptApi Digests CipherModes Ciphers SignatureModes OathOtp Signatures.

(** ** Sessions and operations *)

Lemma set_signature_twice b op op' s :
  set_signature_operation b op (set_signature_operation b op' s) = set_signature_operation b op s.
Proof. by destruct b. Qed.
Lemma signature_operation_set b op s : signature_operation b (set_signature_operation b op s) = op.
Proof. by destruct b. Qed.
Lemma set_signature_same b op s : signature_operation b s = op → set_signature_operation b op s = s.
Proof. destruct b, s; cbn; by intros <-. Qed.
Lemma set_signature_backend b op s : backend (set_signature_operation b op s) = backend s.
Proof. by destruct b. Qed.

(** The mechanism takes its message in parts. *)
Definition streams (signing : bool) (m : Z) : bool :=
  negb (m =? CKM_HASH_ML_DSA)
  && negb (signing && (oath_is_mechanism m || (m =? CKM_PKCS11RS_FIDO_ASSERTION))).

(** An operation as [C_SignInit] and [C_VerifyInit] leave it. *)
Definition fresh `{HashCore} {B} `{SignatureCore B} (op : SignatureOperation) : Prop :=
  sign_multipart op = false ∧ sign_buffer op = [] ∧ prehash_state op = signature_context (sign_mechanism op).

(** A slice cannot be longer. *)
Abbreviation valid_part := (λ part : list Z, len part ≤ ISIZE_MAX).

Section streams.
Context `{HashCore} `{SymmetricCore} `{PublicKeyProjection}.
Context {B P : Type} `{Slot B} `{StorageProvider P} `{Sha3, MiniCbor} `{BackedObjects}
  `{Environment B P} `{CryptBackend B} `{RsaCore B} `{SignatureCore B}.
Abbreviation Ctx := (SlotContext B P).
Abbreviation M := (SM Ctx Error).
Abbreviation IO := (SM (Ctx * Output) Error).

Lemma end_signature_open (x : Ctx) k s b :
  open_in x k s → end_signature k b x = (Ok tt, put_session k (set_signature_operation b None s) x).
Proof. intros Ho. unfold end_signature. by rewrite (update_session_open _ _ _ _ Ho). Qed.

(** The context without the operation of one session. *)
Definition signature_ended (k : Z) (b : bool) (s : SessionContext) (x : Ctx) : Ctx :=
  put_session k (set_signature_operation b None s) x.

(** *** Feeding parts *)

Definition feed_one (op : SignatureOperation) (part : list Z) : SignatureOperation :=
  match prehash_state op with
  | Some state => set_signature_input true (Some (context_update state part)) (sign_buffer op) op
  | None => set_signature_input true None (sign_buffer op ++ part) op
  end.
Definition feed (op : SignatureOperation) (parts : list (list Z)) : SignatureOperation := foldl feed_one op parts.

Lemma feed_fields op parts :
  ∃ b state buffer, feed op parts = set_signature_input b state buffer op.
Proof.
  induction parts as [|part parts IH] using rev_ind.
  - exists (sign_multipart op), (prehash_state op), (sign_buffer op). by destruct op.
  - destruct IH as (b & state & buffer & E). unfold feed in *. rewrite foldl_app, E. cbn. unfold feed_one.
    cbn. destruct state; eexists _, _, _; reflexivity.
Qed.
Lemma feed_mechanism op parts : sign_mechanism (feed op parts) = sign_mechanism op.
Proof. by destruct (feed_fields op parts) as (? & ? & ? & ->). Qed.

Fixpoint updates (k : Z) (signing : bool) (parts : list (list Z)) : M unit :=
  match parts with
  | [] => sm_ret tt
  | part :: rest => let! _ := signature_update_in k (Some part) (len part) signing in updates k signing rest
  end.

Lemma signature_update_run (x : Ctx) k s b op part :
  open_in x k s → signature_operation b s = Some op → streams b (sign_mechanism op) = true → len part ≤ ISIZE_MAX →
  signature_update_in k (Some part) (len part) b x
  = (Ok tt, put_session k (set_signature_operation b (Some (feed_one op part)) s) x).
Proof.
  intros Ho Hop Hs Hv. unfold signature_update_in.
  rewrite sm_bind_unfold, (get_session_context_open _ _ _ Ho), Hop.
  unfold update_signature. rewrite (from_raw_parts_all _ Hv). cbn [obind].
  assert ((sign_mechanism op =? CKM_HASH_ML_DSA)
          || (b && (oath_is_mechanism (sign_mechanism op) || (sign_mechanism op =? CKM_PKCS11RS_FIDO_ASSERTION)))
          = false) as ->.
  { unfold streams in Hs. apply andb_true_iff in Hs as [H1' H2'].
    apply negb_true_iff in H1', H2'. by rewrite H1', H2'. }
  cbn [bail]. fold (feed_one op part). cbn. by rewrite (update_session_open _ _ _ _ Ho).
Qed.

Lemma updates_run parts : ∀ (x : Ctx) k s b op,
  open_in x k s → signature_operation b s = Some op → streams b (sign_mechanism op) = true →
  Forall valid_part parts →
  updates k b parts x = (Ok tt, put_session k (set_signature_operation b (Some (feed op parts)) s) x).
Proof.
  induction parts as [|part parts IH]; intros x k s b op Ho Hop Hs Hv; cbn [updates].
  - cbn. by rewrite (set_signature_same _ _ _ Hop), (put_session_same _ _ _ Ho).
  - inversion Hv as [|? ? Hv1 Hvs]; subst.
    rewrite sm_bind_unfold, (signature_update_run _ _ _ _ _ _ Ho Hop Hs Hv1).
    set (s1 := set_signature_operation b (Some (feed_one op part)) s).
    assert (open_in (put_session k s1 x) k s1) as Ho1 by (apply (put_session_open _ _ _ _ Ho), set_signature_backend).
    rewrite (IH _ _ _ b (feed_one op part) Ho1).
    + unfold s1. by rewrite set_signature_twice, put_session_twice.
    + apply signature_operation_set.
    + unfold feed_one. by destruct (prehash_state op).
    + done.
Qed.

(** The mechanism and the input of the primitive are those of the whole message. *)
Lemma message_feed `{!HashCoreLaws} `{!SignatureLaws B} op parts :
  fresh op → message (feed op parts) [] = message op (concat parts).
Proof.
  intros (_ & Hb & Hp). unfold message. rewrite feed_mechanism.
  assert (∀ qs, match signature_context (sign_mechanism op) with
                | None => prehash_state (feed op qs) = None ∧ sign_buffer (feed op qs) = concat qs
                | Some c => prehash_state (feed op qs) = Some (foldl context_update c qs)
                end) as Hf.
  { induction qs as [|q qs IH] using rev_ind; cbn [feed foldl].
    - rewrite Hp. by destruct (signature_context _).
    - unfold feed in *. rewrite foldl_app. cbn [foldl]. set (o := foldl feed_one op qs) in *. unfold feed_one.
      destruct (signature_context _); [rewrite IH; cbn; by rewrite foldl_app|].
      destruct IH as [-> IH]. cbn. by rewrite IH, concat_app; cbn; rewrite app_nil_r. }
  specialize (Hf parts). rewrite Hp. destruct (signature_context (sign_mechanism op)) as [c|] eqn:Ec.
  2:{ destruct Hf as [-> ->]. by rewrite Hb, app_nil_r. }
  rewrite Hf. f_equal. unfold signature_context in Ec.
  destruct (ml_dsa_module_prehash (sign_mechanism op)) as [h|].
  - injection Ec as <-.
    assert (∀ qs d, foldl context_update (MlDsaContext d) qs = MlDsaContext (foldl prehash_update d qs)) as Hc
      by (intros qs; induction qs; intros d; cbn; auto).
    rewrite Hc. cbn. change (prehash_update (foldl prehash_update ?a parts) ?b) with (foldl prehash_update (foldl prehash_update a parts) [b]). rewrite <-foldl_app.
    apply (prehash_incremental h (parts ++ [[]]) [concat parts]). rewrite concat_app. cbn. by rewrite !app_nil_r.
  - destruct (piv_hash_mechanism (sign_mechanism op)) as [h|]; [|done]. injection Ec as <-.
    assert (∀ qs d, foldl context_update (DigestContext d) qs = DigestContext (foldl hash_update d qs)) as Hc
      by (intros qs; induction qs; intros d; cbn; auto).
    rewrite Hc. cbn. change (hash_update (foldl hash_update ?a parts) ?b) with (foldl hash_update (foldl hash_update a parts) [b]).
    rewrite <-foldl_app, hash_incremental.
    rewrite (hash_incremental h [concat parts] : hash_finalize (hash_update _ _) = _).
    rewrite concat_app. cbn. by rewrite !app_nil_r.
Qed.

(** *** Verification *)

(** The rest of [verify_in] after the operation is taken. *)
Definition verify_rest (k : Z) (op : SignatureOperation) (data : option (list Z)) (data_len : Z)
    (signature : option (list Z)) (signature_len : Z) (finalizing : bool) : M unit :=
  let! _ := guard_err (sign_multipart op && negb finalizing) #CKR_OPERATION_ACTIVE in
  let! _ := require_signature_login k op false in
  let! data := sm_lift (from_raw_parts data data_len) in
  let! '(m, data) := sm_lift (message op data) in
  let! signature := sm_lift (from_raw_parts signature signature_len) in
  verify_message_in k op m data signature.

Lemma verify_in_run (x : Ctx) k s op data n sig sn fin :
  open_in x k s → verify_operation s = Some op →
  verify_in k data n sig sn fin x = verify_rest k op data n sig sn fin (signature_ended k false s x).
Proof.
  intros Ho Hop. unfold verify_in.
  rewrite sm_bind_unfold, (get_session_context_open _ _ _ Ho), sm_bind_unfold, Hop. cbn [ok_or sm_lift].
  rewrite sm_bind_unfold, (end_signature_open _ _ _ _ Ho). done.
Qed.

(** multi-part verification is single-part verification. Whatever the key
    and the mechanism, if it takes its message in parts, then [C_VerifyUpdate]
    on any parts followed by [C_VerifyFinal] returns exactly what [C_Verify] of
    their concatenation returns, and leaves the same state: the same backend
    exchanges, and in either case no operation. *)
Theorem verify_multipart_equals_single `{!HashCoreLaws} `{!SignatureLaws B} (x : Ctx) k s op parts sig sn :
  open_in x k s → verify_operation s = Some op → fresh op → streams false (sign_mechanism op) = true →
  Forall valid_part parts → len (concat parts) ≤ ISIZE_MAX →
  (let! _ := updates k false parts in verify_in k None 0 sig sn true) x
  = verify_in k (Some (concat parts)) (len (concat parts)) sig sn false x.
Proof.
  intros Ho Hop Hf Hs Hv Hl. rewrite sm_bind_unfold, (updates_run _ _ _ _ false op Ho Hop Hs Hv).
  set (s1 := set_signature_operation false (Some (feed op parts)) s).
  assert (open_in (put_session k s1 x) k s1) as Ho1 by (by apply (put_session_open _ _ _ _ Ho)).
  rewrite (verify_in_run _ k s1 (feed op parts) _ _ _ _ _ Ho1 eq_refl), (verify_in_run _ k s op _ _ _ _ _ Ho Hop).
  replace (signature_ended k false s1 (put_session k s1 x)) with (signature_ended k false s x)
    by (unfold signature_ended; by rewrite put_session_twice).
  unfold verify_rest. rewrite (from_raw_parts_all _ Hl), andb_false_r. change (from_raw_parts None 0) with (Ok (E := Error) ([] : list Z)).
  rewrite (proj1 Hf). cbn [andb]. unfold guard_err. do 2 rewrite sm_bind_unfold at 1. cbn [sm_ret].
  unfold sm_ret. rewrite !sm_bind_unfold.
  pose proof (message_feed op parts Hf) as Hm. destruct (feed_fields op parts) as (b & st & bf & E).
  rewrite E in Hm |- *. change (require_signature_login k (set_signature_input b st bf op) false)
    with (require_signature_login k op false (B := B) (P := P)).
  destruct (require_signature_login k op false _) as [[u|er|] y]; [|done|done].
  cbn [sm_lift]. rewrite !sm_bind_unfold. cbn [sm_lift]. by rewrite Hm.
Qed.

(** *** Signing *)

(** Two contexts that differ only in the signing operation of session [k]; [s]
    is the rest of that session. *)
Inductive apart (k : Z) (s : SessionContext) : Ctx → Ctx → Prop :=
| apart_intro x op op' :
    slotID (backend s) = slot_id (state x) →
    apart k s (put_session k (set_signature_operation true op s) x)
              (put_session k (set_signature_operation true op' s) x).

Definition apart_out (k : Z) (s : SessionContext) (x y : Ctx * Output) : Prop := apart k s x.1 y.1 ∧ x.2 = y.2.

Lemma apart_open k s x y : apart k s x y →
  ∃ op op', open_in x k (set_signature_operation true op s) ∧ open_in y k (set_signature_operation true op' s).
Proof.
  intros [z op op' Hs]. exists op, op'. split; split; cbn; try done; apply lookup_insert_eq.
Qed.

Lemma respects_fst {A} k s (c : M A) : respects (apart k s) c → respects (apart_out k s) (sm_fst c).
Proof.
  intros Hc [x o] [y o'] [Hxy Ho]. cbn in Ho. subst o'. destruct (Hc x y Hxy) as [Hr Hs]. unfold sm_fst. cbn.
  destruct (c x), (c y); cbn in *. by subst.
Qed.
Lemma respects_on_slot {A} k s (c : SM B Error A) : respects (apart k s) (on_slot c : M A).
Proof.
  intros ? ? [x op op' Hs]. unfold on_slot. cbn. destruct (c (slot x)) as [r b]. split; [done|].
  exact (apart_intro k s (mkContext b (state x) (handles x)) op op' Hs).
Qed.
Lemma respects_get_session k s : respects (apart k s) (get_session k : M _).
Proof.
  intros x y Hxy. destruct (apart_open _ _ _ _ Hxy) as (op & op' & H1' & H2').
  by rewrite (get_session_open _ _ _ H1'), (get_session_open _ _ _ H2').
Qed.
Lemma respects_end k s : respects (apart k s) (end_signature k true : M unit).
Proof.
  intros x y Hxy. destruct (apart_open _ _ _ _ Hxy) as (op & op' & H1' & H2').
  rewrite (end_signature_open _ _ _ _ H1'), (end_signature_open _ _ _ _ H2'). split; [done|]. cbn [snd].
  destruct Hxy as [z ? ? Hs]. rewrite !put_session_twice, !set_signature_twice. by apply apart_intro.
Qed.
#[local] Hint Resolve respects_fst respects_on_slot respects_get_session respects_end : respects.

Lemma respects_on_session {A} k s (f : BackendSession → SM B Error A) : respects (apart k s) (on_session k f : M A).
Proof. unfold on_session. respect. Qed.
Lemma respects_end_if k s b e : respects (apart k s) (end_signature_if k b e : M unit).
Proof. unfold end_signature_if. respect. Qed.
Lemma respects_end_on_error {A} k s (c : M A) :
  respects (apart k s) c → respects (apart k s) (end_signature_on_error k c).
Proof.
  intros Hc x y Hxy. destruct (Hc x y Hxy) as [Hr Hs]. unfold end_signature_on_error.
  destruct (c x) as [[a|er|] x1], (c y) as [r y1]; cbn in Hr, Hs; subst r; [done| |done].
  assert (respects (apart k s) (let! _ := end_signature k true in sm_err er : M A)) as He by respect.
  by apply He.
Qed.
#[local] Hint Resolve respects_on_session respects_end_if respects_end_on_error : respects.

Lemma respects_null k s : respects (apart_out k s) (output_null : IO bool).
Proof. intros [x o] [y o'] [Hxy Ho]. cbn in *. by subst. Qed.
Lemma respects_capacity k s : respects (apart_out k s) (output_capacity : IO Z).
Proof.
  unfold output_capacity. apply respects_bind; [|auto with respects].
  intros [x o] [y o'] [Hxy Ho]. cbn in *. by subst.
Qed.
Lemma respects_report k s n : respects (apart_out k s) (report_length n : IO unit).
Proof. intros [x o] [y o'] [Hxy Ho]. cbn in *. by subst. Qed.
Lemma respects_copy k s d : respects (apart_out k s) (copy_out d : IO unit).
Proof. intros [x o] [y o'] [Hxy Ho]. cbn in *. by subst. Qed.
#[local] Hint Resolve respects_null respects_capacity respects_report respects_copy : respects.

Lemma respects_ecb k s id e blocks : respects (apart k s) (yubihsm_crypt_ecb_blocks k id blocks e : M _).
Proof.
  unfold yubihsm_crypt_ecb_blocks. respect.
  match goal with |- context [chunks ?n ?l] => generalize (chunks n l) end.
  intros parts. induction parts; cbn [ecb_chunks]; respect.
Qed.
#[local] Hint Resolve respects_ecb : respects.

Lemma respects_compute `{!SignatureLaws B} k s op m required data :
  respects (apart k s) (compute_signature k op m required data : M _).
Proof.
  unfold compute_signature, secret_signature, yubihsm_signature, software_aes_gmac, yubihsm_aes_gmac,
    yubihsm_aes_cmac, cmac_with_encryptor, aes_gcm, yubihsm_encrypt_ecb_blocks.
  respect; apply respects_map_err; solve [apply gcm_respects; auto with respects|apply cmac_respects; auto with respects].
Qed.
#[local] Hint Resolve respects_compute : respects.

(** The part of [sign_in] after hashing. *)
Definition sign_rest (k : Z) (op : SignatureOperation) (prepared : outcome Error (Z * list Z)) : IO unit :=
  let! '(m, data) := sm_lift prepared in
  let! required := sm_lift (signature_length op m) in
  let! _ := sm_fst (check_signature_input k op m required data) in
  let! null := output_null in
  if (null : bool) then report_length required
  else
    let! capacity := output_capacity in
    if capacity <? required then
      let! _ := report_length required in
      sm_err #CKR_BUFFER_TOO_SMALL
    else
      let! bytes := sm_fst (end_signature_on_error k (compute_signature k op m required data)) in
      let! _ := sm_fst (end_signature_if k (negb (len bytes =? required)) #CKR_DEVICE_ERROR) in
      let! _ := copy_out bytes in
      let! _ := report_length required in
      sm_fst (end_signature k true).

Lemma respects_sign_rest `{!SignatureLaws B} k s op prepared : respects (apart_out k s) (sign_rest k op prepared).
Proof.
  unfold sign_rest, check_signature_input. respect; apply respects_fst; respect.
Qed.

(** Keys that sign the message; FIDO and OATH credentials take no message. *)
Definition message_key (key : KeyMaterial) : bool :=
  match key with
  | OathCredential _ | FidoResidentPrivate _ | PreviewSignDerived _ _ _ => false
  | _ => true
  end.

(** The user of a private key is logged in. *)
Definition sign_authorized (x : Ctx) (op : SignatureOperation) : Prop :=
  sign_requires_login op = true → is_slot_user_logged_in (sign_slot_id op) x = (Ok true, x).

Lemma sign_authorized_put k s (x : Ctx) op : sign_authorized x op → sign_authorized (put_session k s x) op.
Proof.
  intros Ha Hr. rewrite user_logged_in_put. by rewrite (Ha Hr).
Qed.

Lemma require_signature_login_ok k op b (x : Ctx) :
  sign_authorized x op → require_signature_login k op b x = (Ok tt, x).
Proof.
  intros Ha. unfold require_signature_login. destruct (sign_requires_login op) eqn:Hr; [|done].
  by rewrite sm_bind_unfold, (Ha Hr).
Qed.

Lemma sign_in_run (x : Ctx) k s op addr ptr n fin o data :
  open_in x k s → sign_operation s = Some op → message_key (sign_key op) = true →
  sign_multipart op && negb fin = false → sign_authorized x op → from_raw_parts ptr n = Ok data →
  sign_in k addr ptr n fin (x, o) = sign_rest k op (message op data) (x, o).
Proof.
  intros Ho Hop Hk Hm Ha Hd. unfold sign_in. rewrite sm_bind_unfold. unfold sm_fst at 1. cbn [fst snd].
  rewrite (get_session_context_open _ _ _ Ho), sm_bind_unfold, Hop. cbn [ok_or sm_lift].
  rewrite sm_bind_unfold. unfold sm_fst at 1, end_signature_if at 1. rewrite Hm. cbn [sm_ret fst snd].
  rewrite sm_bind_unfold. unfold sm_fst at 1. cbn [fst snd]. rewrite (require_signature_login_ok _ _ _ _ Ha).
  rewrite sm_bind_unfold. unfold sm_fst at 1, end_signature_on_error at 1. rewrite Hd. cbn [sm_lift fst snd].
  by destruct (sign_key op).
Qed.

(** A context without the signing operation of session [k]. *)
Definition without_signature (k : Z) (x : Ctx) : Ctx :=
  mkContext (slot x) (set_sessions (alter (set_signature_operation true None) k (sessions (state x))) (state x))
    (handles x).

Lemma apart_without k s x y : apart k s x y → without_signature k x = without_signature k y.
Proof.
  intros [z op op' _]. unfold without_signature, put_session. cbn. unfold set_sessions. cbn.
  by rewrite !alter_insert_eq, !set_signature_twice.
Qed.

(** C22: multi-part signing is single-part signing. Whatever the key (a software
    key or MAC key, a key on a YubiHSM, a PIV or an OpenPGP card) and the
    mechanism, if it takes its message in parts, then [C_SignUpdate] on any parts
    followed by [C_SignFinal] returns what [C_Sign] of their concatenation
    returns: the same code, the same signature and length written to the caller,
    and the same state of the slot and the device, up to the operation that stays
    active when the caller only asked for the length or gave too little room. *)
Theorem sign_multipart_equals_single `{!HashCoreLaws} `{!SignatureLaws B} (x : Ctx) k s op parts addr o :
  open_in x k s → sign_operation s = Some op → fresh op → streams true (sign_mechanism op) = true →
  message_key (sign_key op) = true → sign_authorized x op →
  Forall valid_part parts → len (concat parts) ≤ ISIZE_MAX →
  let p := (let! _ := sm_fst (updates k true parts) in sign_in k addr None 0 true) (x, o) in
  let q := sign_in k addr (Some (concat parts)) (len (concat parts)) false (x, o) in
  p.1 = q.1 ∧ p.2.2 = q.2.2 ∧ without_signature k p.2.1 = without_signature k q.2.1.
Proof.
  intros Ho Hop Hf Hs Hk Ha Hv Hl p q.
  set (s1 := set_signature_operation true (Some (feed op parts)) s).
  assert (open_in (put_session k s1 x) k s1) as Ho1 by (by apply (put_session_open _ _ _ _ Ho)).
  assert (p = sign_in k addr None 0 true (put_session k s1 x, o)) as ->.
  { subst p. rewrite sm_bind_unfold. unfold sm_fst. cbn [fst snd].
    by rewrite (updates_run _ _ _ _ true op Ho Hop Hs Hv). }
  pose proof (message_feed op parts Hf) as Hm. destruct (feed_fields op parts) as (b & st & bf & E).
  assert (sign_in k addr None 0 true (put_session k s1 x, o) = sign_rest k op (message op (concat parts)) (put_session k s1 x, o)) as E1.
  { rewrite (sign_in_run _ k s1 (feed op parts) addr None 0 true o [] Ho1 eq_refl).
    - rewrite Hm. by rewrite E.
    - by rewrite E.
    - apply andb_false_r.
    - apply sign_authorized_put. intros Hr. rewrite E in Hr |- *. by apply Ha.
    - done. }
  subst q. rewrite E1, (sign_in_run _ k s op addr _ _ false o (concat parts) Ho Hop Hk); [|by rewrite (proj1 Hf)|done|by apply from_raw_parts_all].
  assert (apart_out k s (put_session k s1 x, o) (x, o)) as Hxy.
  { split; [|done]. cbn [fst]. rewrite <-(put_session_same x k s Ho) at 2.
    rewrite <-(set_signature_same true (Some op) s Hop) at 2. apply apart_intro, Ho. }
  destruct (respects_sign_rest k s op (message op (concat parts)) _ _ Hxy) as (Hr & Hc & Hout).
  split; [done|]. split; [done|]. apply (apart_without k s _ _ Hc).
Qed.
End streams.

(** ** Concrete primitives

    Every signature is the checksum of the message; a MAC is the checksum of the
    key and the message, filled with zeros. *)

Definition toy_signature {S E} (data : list Z) : SM S E (list Z) := sm_ret (toy_checksum data).
Definition toy_verify {E} (e : E) (data signature : list Z) : outcome E unit :=
  if bool_decide (signature = toy_checksum data) then Ok tt else Err e.
Definition toy_mac (n : nat) (key data : list Z) : outcome unit (list Z) :=
  Ok (toy_checksum (key ++ data) ++ replicate (n - 2) 0).

#[export] Instance toy_signatures : SignatureCore ToyBackend := {|
  hmac _ := toy_mac 32;
  aes_cmac := toy_mac 16;
  cmac_with S E _ data f := sm_map_err ModeBlockOperation (f data);
  digest_info _ := Ok;
  pkcs1v15_encoded_payload _ := Ok;
  pss_encoded_digest _ _ _ _ := toy_signature;
  ecdsa_signature_from_der signature _ := Ok signature;
  sign_rsa_pss_digest _ _ _ _ := toy_signature;
  sign_rsa_pkcs1v15_digest _ _ := toy_signature;
  sign_rsa_pkcs1v15_payload _ := toy_signature;
  sign_rsa_raw _ := toy_signature;
  sign_message _ _ := toy_signature;
  sign_prehash _ _ := toy_signature;
  ml_dsa_sign _ _ data _ _ := toy_signature data;
  ml_dsa_sign_prehash _ _ data _ _ _ := toy_signature data;
  rsa_verify_raw _ := toy_verify RsaInvalidSignature;
  rsa_verify_pkcs1v15_payload _ := toy_verify RsaInvalidSignature;
  rsa_verify_pkcs1v15_digest _ _ := toy_verify RsaInvalidSignature;
  rsa_verify_pss_digest _ _ _ _ := toy_verify RsaInvalidSignature;
  verify_prehash _ _ := toy_verify SignInvalidSignature;
  verify_message _ _ := toy_verify SignInvalidSignature;
  verify_ml_dsa _ _ data _ := toy_verify MlDsaInvalidSignature data;
  verify_ml_dsa_prehash _ _ data _ signature _ := toy_verify MlDsaInvalidSignature data signature;
  edwards_signature_length _ := 2;
  edwards_public_key_length _ := 32;
  ml_dsa_signature_length _ := 2;
  ml_dsa_public_key_length _ := 8;
  ec_public_key c _ := 4 :: replicate (Z.to_nat (coordinate_length c * 2)) 1;
  edwards_public_key _ _ := replicate 32 1;
  ml_dsa_public_key _ _ := replicate 8 1;
  rsa_public_parts key := ([rsa_private_n key], [rsa_private_size key]);
  prehash_from_id := Some;
  prehash_digest_length _ := 2;
  prehash_id h := h;
  prehash_context _ := [];
  prehash_update c part := c ++ part;
  prehash_finalize := toy_checksum;
|}.

Lemma toy_verify_signature {E} (e : E) data : toy_verify e data (toy_checksum data) = Ok tt.
Proof. unfold toy_verify. by rewrite bool_decide_eq_true_2. Qed.

#[export] Instance toy_signature_laws : SignatureLaws ToyBackend.
Proof.
  split; cbn.
  - intros key n e pub [= <- <-] [= <-]. cbn. unfold from_bytes_be. cbn. lia.
  - unfold toy_signature, sm_ret. intros. simplify_eq. apply toy_verify_signature.
  - unfold toy_signature, sm_ret. intros. simplify_eq. apply toy_verify_signature.
  - unfold toy_signature, sm_ret. intros. simplify_eq. apply toy_verify_signature.
  - by intros [] _.
  - unfold toy_signature, sm_ret. intros. simplify_eq. apply toy_verify_signature.
  - done.
  - unfold toy_signature, sm_ret. intros. simplify_eq. apply toy_verify_signature.
  - done.
  - unfold toy_signature, sm_ret. intros. simplify_eq. apply toy_verify_signature.
  - unfold toy_signature, sm_ret. intros. simplify_eq. apply toy_verify_signature.
  - intros h parts parts' E. f_equal. by rewrite !toy_hash_fold, E.
  - intros. by apply respects_map_err.
  - intros. by apply respects_map_err.
Qed.

(** A private HMAC key, and signing and verification started with it. *)
Definition toy_hmac_object : TokenObject :=
  mkObject (Some 0) [] CKO_SECRET_KEY CKK_SHA256_HMAC false true false false true true None (Some 1) None None (SoftwareSecret toy_key) (toy_attributes 0).
Definition toy_hmac : CK_MECHANISM := mkMechanism CKM_SHA256_HMAC None 0.
Definition toy_signing : SlotContext ToyBackend MemoryStorageProvider :=
  ((let! h := insert_object toy_hmac_object in
    let! _ := sign_init_in 1 (Some toy_hmac) h in
    verify_init_in 1 (Some toy_hmac) h) toy_start).2.
Definition toy_signature_operation : SignatureOperation :=
  mkSignature false None (SoftwareSecret toy_key) None 0 true false None None None CKM_SHA256_HMAC (Some 32)
    None None None None [] None.
Definition toy_signing_session : SessionContext :=
  set_signature_operation false (Some toy_signature_operation)
    (set_signature_operation true (Some toy_signature_operation) (SessionContext_new (mkBackendSession 0 6))).
Lemma toy_signing_open : open_in toy_signing 1 toy_signing_session.
Proof. by split; vm_compute. Qed.
Lemma toy_signing_authorized : sign_authorized toy_signing toy_signature_operation.
Proof.
  intros _. unfold is_slot_user_logged_in. rewrite sm_bind_unfold. unfold slot_login_role, sm_ret.
  cbn iota. by do 2 f_equal.
Qed.

Lemma verify_multipart_equals_single_witness :
  (let! _ := updates 1 false [[1; 2]; []; [3]] in
   verify_in 1 None 0 (Some ([86; 19] ++ replicate 30 0)) 32 true) toy_signing
  = verify_in 1 (Some [1; 2; 3]) 3 (Some ([86; 19] ++ replicate 30 0)) 32 false toy_signing ∧
  (verify_in 1 (Some [1; 2; 3]) 3 (Some ([86; 19] ++ replicate 30 0)) 32 false toy_signing).1 = Ok tt.
Proof.
  split; [|by vm_compute].
  apply (verify_multipart_equals_single toy_signing 1 toy_signing_session toy_signature_operation [[1; 2]; []; [3]]).
  - exact toy_signing_open.
  - done.
  - by split_and!.
  - done.
  - repeat constructor; vm_compute; discriminate.
  - by vm_compute.
Defined.

Lemma sign_multipart_equals_single_witness :
  let o := mkOutput false (Some 40) [] in
  let p := (let! _ := sm_fst (updates 1 true [[1; 2]; []; [3]]) in sign_in 1 0 None 0 true) (toy_signing, o) in
  p.1 = Ok tt ∧ p.2.2 = mkOutput false (Some 32) ([86; 19] ++ replicate 30 0).
Proof.
  intros o p. destruct (sign_multipart_equals_single toy_signing 1 toy_signing_session toy_signature_operation
                          [[1; 2]; []; [3]] 0 o) as (Hr & Ho & _).
  - exact toy_signing_open.
  - done.
  - by split_and!.
  - done.
  - done.
  - exact toy_signing_authorized.
  - repeat constructor; vm_compute; discriminate.
  - by vm_compute.
  - subst p. rewrite Hr, Ho. by split; vm_compute.
Defined.
