(* ===== verification/SignatureRoundtrip.v ===== *)
(** * SignatureRoundtrip: what one session signs, another verifies

    A signature that [C_Sign] returned for a software key is accepted by
    [C_Verify] with the same mechanism, the same message and the matching public
    key; and for a MAC key the verified MAC is the only one accepted. *)
From S2P Require Import Prelude Errors Mechanisms Storage YubiHsm SlotState SessionApi CryptApi Digests CipherModes Ciphers SignatureModes OathOtp Signatures SignatureStreams.

(** ** The mechanisms of software keys *)

(** A test that every mechanism of a list passes. *)
Lemma one_of_test (f : Z → bool) ms m : forallb f ms = true → one_of ms m = true → f m = true.
Proof.
  intros Hf (m' & Hin & ->%Z.eqb_eq)%existsb_exists. by apply (proj1 (forallb_forall f ms) Hf).
Qed.

(** The mechanisms that sign with a kind of key. *)
Definition key_mechanisms (key : SoftwarePrivateKeyMaterial) : list Z :=
  match key with
  | SigningRsa _ =>
      [CKM_RSA_X_509; CKM_RSA_PKCS; CKM_RSA_PKCS_PSS] ++ HASHED_RSA_PKCS_MECHANISMS ++ HASHED_RSA_PSS_MECHANISMS
  | SigningEdwards _ _ => [CKM_EDDSA]
  | SigningMlDsa _ _ => [CKM_ML_DSA; CKM_HASH_ML_DSA] ++ HASH_ML_DSA_MECHANISMS
  | SigningEc _ _ => CKM_ECDSA :: HASHED_ECDSA_MECHANISMS
  | Montgomery _ | MlKem _ | HybridKem _ _ => []
  end.
Lemma supported_listed key m : software_sign_mechanism_supported key m = true → one_of (key_mechanisms key) m = true.
Proof.
  unfold software_sign_mechanism_supported, key_mechanisms, is_ml_dsa_mechanism, piv_is_pss_mechanism,
    piv_is_hashed_rsa_pkcs, piv_is_hashed_ecdsa, one_of.
  destruct key; rewrite ?existsb_app; cbn [existsb];
    repeat match goal with |- context [existsb ?f ?l] => generalize (existsb f l); intros ? end;
    repeat match goal with |- context [m =? ?c] => generalize (m =? c); intros ? end; rewrite ?orb_true_iff; tauto.
Qed.

(** None of them is a MAC. *)
Lemma supported_not_mac key m : software_sign_mechanism_supported key m = true →
  (m =? CKM_AES_GMAC) = false ∧ (m =? CKM_AES_CMAC) = false ∧ (m =? CKM_AES_CMAC_GENERAL) = false ∧
  hmac_key_type_and_length m = None.
Proof.
  intros Hl%supported_listed.
  apply (one_of_test (λ m, negb (m =? CKM_AES_GMAC) && negb (m =? CKM_AES_CMAC) && negb (m =? CKM_AES_CMAC_GENERAL)
    && negb (bool_decide (is_Some (hmac_key_type_and_length m))))) in Hl; [|by destruct key; vm_compute].
  bool_to_prop. split_and!; [lia..|]. by apply eq_None_not_Some.
Qed.

(** The mechanisms of MAC keys; none of them hashes. *)
Definition mac_mechanisms : list Z :=
  [CKM_AES_GMAC; CKM_AES_CMAC; CKM_AES_CMAC_GENERAL; CKM_SHA_1_HMAC; CKM_SHA_1_HMAC_GENERAL; CKM_SHA224_HMAC;
   CKM_SHA224_HMAC_GENERAL; CKM_SHA256_HMAC; CKM_SHA256_HMAC_GENERAL; CKM_SHA384_HMAC; CKM_SHA384_HMAC_GENERAL;
   CKM_SHA512_HMAC; CKM_SHA512_HMAC_GENERAL].

Lemma hmac_is_mac m : is_Some (hmac_key_type_and_length m) → one_of mac_mechanisms m = true.
Proof.
  unfold hmac_key_type_and_length, one_of. cbn [existsb mac_mechanisms]. intros Hs.
  repeat match goal with |- context [m =? ?c] => destruct (m =? c); cbn in * end; try done.
Qed.

(** What a mechanism of a key becomes when the message is hashed. *)
Definition normal_mechanisms (key : SoftwarePrivateKeyMaterial) : list Z :=
  match key with
  | SigningRsa _ => [CKM_RSA_X_509; CKM_RSA_PKCS; CKM_RSA_PKCS_PSS]
  | SigningEdwards _ _ => [CKM_EDDSA]
  | SigningMlDsa _ _ => [CKM_ML_DSA; CKM_HASH_ML_DSA] ++ HASH_ML_DSA_MECHANISMS
  | SigningEc _ _ => [CKM_ECDSA]
  | Montgomery _ | MlKem _ | HybridKem _ _ => []
  end.

(** Either the mechanism hashes and is renamed, or it is plain already. *)
Definition becomes_normal (key : SoftwarePrivateKeyMaterial) (m : Z) : bool :=
  match piv_hash_mechanism m with
  | Some _ =>
      match key with
      | SigningRsa _ => piv_is_hashed_rsa_pkcs m || one_of HASHED_RSA_PSS_MECHANISMS m
      | SigningEc _ _ => piv_is_hashed_ecdsa m && negb (piv_is_hashed_rsa_pkcs m || one_of HASHED_RSA_PSS_MECHANISMS m)
      | _ => false
      end
  | None =>
      one_of (normal_mechanisms key) m
      && negb (piv_is_hashed_rsa_pkcs m || one_of HASHED_RSA_PSS_MECHANISMS m || piv_is_hashed_ecdsa m)
  end.
Lemma supported_normal key m : software_sign_mechanism_supported key m = true → becomes_normal key m = true.
Proof.
  intros Hl%supported_listed. apply (one_of_test (becomes_normal key)) in Hl; [done|]. by destruct key; vm_compute.
Qed.

Section roundtrip.
Context `{HashCore} `{SymmetricCore} `{PublicKeyProjection}.
Context {B P : Type} `{Slot B} `{StorageProvider P} `{Sha3, MiniCbor} `{BackedObjects}
  `{Environment B P} `{CryptBackend B} `{RsaCore B} `{SignatureCore B}.
Abbreviation Ctx := (SlotContext B P).
Abbreviation M := (SM Ctx Error).
Abbreviation IO := (SM (Ctx * Output) Error).

(** ** Started operations *)

Lemma update_session_operation b op k (x y : Ctx) s op' :
  update_session k (set_signature_operation b (Some op)) x = (Ok tt, y) →
  sessions (state y) !! k = Some s → signature_operation b s = Some op' → op' = op ∧ open_in y k s.
Proof.
  intros (t & Et & Hb & Ey & Hid & _)%update_session_Ok Es Eop. rewrite Ey in Es.
  injection Es as <-. rewrite signature_operation_set in Eop. injection Eop as <-. split; [done|].
  split; [done|]. by rewrite set_signature_backend, Hid.
Qed.

(** What [sign_init] leaves in a session. *)
Lemma sign_init_operation k mech h (x y : Ctx) s op :
  sign_init_in k (Some mech) h x = (Ok tt, y) → sessions (state y) !! k = Some s → sign_operation s = Some op →
  message_key (sign_key op) = true →
  open_in y k s ∧ ∃ id aes p obj rp policy table,
    signature_parameters mech false = Ok (aes, p) ∧
    sign_mechanism_supported (mechanism mech) aes table obj = true ∧
    op = new_signature_operation id (mechanism mech) (material obj) obj rp policy p.
Proof.
  intros E Es Eop Hk. unfold sign_init_in in E. apply sm_bind_Ok in E as ([[id fl] logged] & x0 & _ & E).
  sm_inv E. destruct (oath_is_mechanism _).
  - unfold oath_sign_init in E. apply sm_bind_Ok in E as ([[id' fl'] logged'] & x3 & _ & E). sm_inv E.
    match type of E with context [material ?o] => destruct (material o) eqn:Em end; try discriminate E. sm_inv E.
    by destruct (update_session_operation true _ k _ _ _ _ E Es Eop) as [-> _].
  - apply sm_bind_Ok in E as (d & x3 & _ & E). apply sm_bind_Ok in E as ([aes p] & x4 & Ep & E). sm_inv E.
    destruct (update_session_operation true _ k _ _ _ _ E Es Eop) as [-> Ho]. split; [done|].
    injection Ep as Ep _. eexists id, aes, p, _, _, _, _. split; [done|]. split; [|reflexivity].
    match goal with H : guard_err (negb (sign_mechanism_supported _ _ ?t ?o)) _ _ = _ |- _ =>
      destruct (sign_mechanism_supported _ _ t o) eqn:Es'; [exact Es'|discriminate H] end.
Qed.

(** What [verify_init] leaves in a session. *)
Lemma verify_init_operation k mech h (x y : Ctx) s op :
  verify_init_in k (Some mech) h x = (Ok tt, y) → sessions (state y) !! k = Some s →
  verify_operation s = Some op →
  open_in y k s ∧ ∃ id aes p key obj,
    signature_parameters mech true = Ok (aes, p) ∧ op = new_signature_operation id (mechanism mech) key obj None None p.
Proof.
  intros E Es Eop. unfold verify_init_in in E. apply sm_bind_Ok in E as ([[id fl] logged] & x0 & _ & E).
  sm_inv E. destruct a2 as [aes [[[mac gmac] pss] ml]].
  sm_inv E. destruct (update_session_operation false _ k _ _ _ _ E Es Eop) as [-> Ho]. split; [done|].
  injection E3 as E3 _. eexists id, aes, _, _, _. split; [exact E3|]. reflexivity.
Qed.

(** ** Inverting a signature *)

Lemma require_signature_login_Ok k op b (x y : Ctx) :
  require_signature_login k op b x = (Ok tt, y) → y = x ∧ sign_authorized x op.
Proof.
  unfold require_signature_login, sign_authorized. destruct (sign_requires_login op); [|by intros [= <-]].
  rewrite sm_bind_unfold. destruct (is_slot_user_logged_in _ x) as [[[]| |] z] eqn:E; cbn.
  - intros [= <-]. assert ((is_slot_user_logged_in (sign_slot_id op) x).2 = x) as Hx by done.
    rewrite E in Hx. cbn in Hx. by subst z.
  - rewrite sm_bind_unfold. destruct (reconcile_login_state _ z) as [[]]; [|done|done].
    rewrite sm_bind_unfold. destruct b; [|done]. by destruct (end_signature k true _) as [[]].
  - done.
  - done.
Qed.

Lemma sign_in_Ok (x : Ctx) k s op addr ptr n o z :
  open_in x k s → sign_operation s = Some op → message_key (sign_key op) = true →
  sign_in k addr ptr n false (x, o) = (Ok tt, z) →
  ∃ data, from_raw_parts ptr n = Ok data ∧ sign_authorized x op ∧
    sign_rest k op (message op data) (x, o) = (Ok tt, z).
Proof.
  intros Ho Hop Hk E. destruct (sign_multipart op && negb false) eqn:Hm.
  { unfold sign_in in E. rewrite sm_bind_unfold in E. unfold sm_fst at 1 in E. cbn [fst snd] in E.
    rewrite (get_session_context_open _ _ _ Ho), sm_bind_unfold, Hop in E. cbn [ok_or sm_lift] in E.
    rewrite sm_bind_unfold in E. unfold sm_fst at 1, end_signature_if at 1 in E. rewrite Hm in E.
    cbn [fst snd] in E. by rewrite sm_bind_unfold, (end_signature_open _ _ _ _ Ho) in E. }
  pose proof E as E'. unfold sign_in in E'. rewrite sm_bind_unfold in E'. unfold sm_fst at 1 in E'. cbn [fst snd] in E'.
  rewrite (get_session_context_open _ _ _ Ho), sm_bind_unfold, Hop in E'. cbn [ok_or sm_lift] in E'.
  rewrite sm_bind_unfold in E'. unfold sm_fst at 1, end_signature_if at 1 in E'. rewrite Hm in E'.
  cbn [sm_ret fst snd] in E'. rewrite sm_bind_unfold in E'. unfold sm_fst at 1 in E'. cbn [fst snd] in E'.
  destruct (require_signature_login k op true x) as [[[]|er|] x'] eqn:El; [|done|done].
  apply require_signature_login_Ok in El as [-> Ha].
  rewrite sm_bind_unfold in E'. unfold sm_fst at 1, end_signature_on_error at 1 in E'. cbn [fst snd] in E'.
  destruct (from_raw_parts ptr n) as [data|er|] eqn:Ed; cbn [sm_lift] in E'.
  - exists data. split; [done|]. split; [done|]. by rewrite <-(sign_in_run x k s op addr ptr n false o data).
  - by rewrite sm_bind_unfold, (end_signature_open _ _ _ _ Ho) in E'.
  - done.
Qed.

Lemma sm_fst_Ok {S T E A} (c : SM S E A) (x : S) (o : T) a z :
  sm_fst c (x, o) = (Ok a, z) → ∃ x', c x = (Ok a, x') ∧ z = (x', o).
Proof. unfold sm_fst. cbn. destruct (c x) as [r x']. intros [= -> <-]. by exists x'. Qed.

Lemma end_signature_on_error_Ok {A} k (c : M A) (x : Ctx) a y :
  end_signature_on_error k c x = (Ok a, y) → c x = (Ok a, y).
Proof.
  unfold end_signature_on_error. destruct (c x) as [[a'|er|] x'] eqn:E; [done| |done].
  rewrite sm_bind_unfold. by destruct (end_signature k true x') as [[]].
Qed.
Lemma end_signature_if_Ok k b e (x : Ctx) y u : end_signature_if k b e x = (Ok u, y) → b = false ∧ y = x.
Proof.
  unfold end_signature_if. destruct b; [|by intros [= _ <-]].
  rewrite sm_bind_unfold. by destruct (end_signature k true x) as [[]].
Qed.

(** A signature that was delivered has the length the key announces. *)
Lemma sign_rest_Ok (x : Ctx) k op prepared o z :
  sign_rest k op prepared (x, o) = (Ok tt, z) → out_null o = false →
  ∃ m data required bytes (y y' : Ctx), prepared = Ok (m, data) ∧ signature_length op m = Ok required ∧
    check_signature_input k op m required data x = (Ok tt, y) ∧
    compute_signature k op m required data y = (Ok bytes, y') ∧
    len bytes = required ∧ z.2 = mkOutput false (Some required) bytes.
Proof.
  intros E Hn. unfold sign_rest in E. apply sm_bind_Ok in E as ([m data] & w & Ep & E).
  injection Ep as Ep <-. apply sm_bind_Ok in E as (required & w & El & E). injection El as El <-.
  apply sm_bind_Ok in E as ([] & w & Ec & E). apply sm_fst_Ok in Ec as (x1 & Ec & ->).
  apply sm_bind_Ok in E as (null & w & En & E). injection En as En <-. cbn in En. rewrite <-En, Hn in E.
  apply sm_bind_Ok in E as (cap & w & Ecap & E).
  assert (w = (x1, o)) as -> by (unfold output_capacity in Ecap; sm_inv Ecap; unfold sm_gets in *; unfold sm_lift in *; by simplify_eq).
  destruct (cap <? required).
  { apply sm_bind_Ok in E as (? & ? & _ & E). done. }
  apply sm_bind_Ok in E as (bytes & w & Eb & E). apply sm_fst_Ok in Eb as (x2 & Eb & ->).
  apply end_signature_on_error_Ok in Eb.
  apply sm_bind_Ok in E as ([] & w & Eif & E). apply sm_fst_Ok in Eif as (x3 & Eif & ->).
  apply end_signature_if_Ok in Eif as [Hlen ->].
  apply sm_bind_Ok in E as ([] & w & Eo & E). injection Eo as <-.
  apply sm_bind_Ok in E as ([] & w & Er & E). injection Er as <-. apply sm_fst_Ok in E as (x4 & _ & ->).
  exists m, data, required, bytes, x1, x2. split_and!; try done; [lia|].
  cbn [snd]. unfold write_out, set_out_len. cbn. by rewrite Hn.
Qed.

(** Verification in one part runs the primitive once the operation is gone. *)
Lemma verify_in_message (x : Ctx) k s op ptr n data m d sig :
  open_in x k s → verify_operation s = Some op → sign_multipart op = false → sign_authorized x op →
  from_raw_parts ptr n = Ok data → message op data = Ok (m, d) → len sig ≤ ISIZE_MAX →
  verify_in k ptr n (Some sig) (len sig) false x = verify_message_in k op m d sig (signature_ended k false s x).
Proof.
  intros Ho Hop Hm Ha Hd Em Hl. rewrite (verify_in_run _ _ _ _ _ _ _ _ _ Ho Hop). unfold verify_rest.
  rewrite sm_bind_unfold, Hm. cbn [andb guard_err]. rewrite sm_bind_unfold. unfold signature_ended.
  rewrite (require_signature_login_ok k op false _ (sign_authorized_put _ _ _ _ Ha)).
  rewrite sm_bind_unfold, Hd. cbn [sm_lift]. rewrite sm_bind_unfold, Em. cbn [sm_lift].
  by rewrite sm_bind_unfold, (from_raw_parts_all _ Hl).
Qed.

(** ** Software keys *)

(** The verifying side of the parameters: the same, but for the hedging of
    ML-DSA. *)
Definition same_but_hedge (p q : option MlDsaSignatureParameters) : Prop :=
  match p, q with
  | Some p, Some q => prehash p = prehash q ∧ ml_dsa_context p = ml_dsa_context q
  | None, None => True
  | _, _ => False
  end.

Lemma ml_dsa_context_parameters_verify m p q :
  ml_dsa_context_parameters m false = Ok p → ml_dsa_context_parameters m true = Ok q →
  prehash p = prehash q ∧ ml_dsa_context p = ml_dsa_context q.
Proof.
  unfold ml_dsa_context_parameters. destruct (pParameter m) as [memory|].
  2:{ destruct (ulParameterLen m =? 0); [|done]. by intros [= <-] [= <-]. }
  destruct (negb (ulParameterLen m =? SIZE_OF_SIGN_CONTEXT)); [done|]. do 2 (case_if; [done|]).
  intros (c & Ec & [= <-])%bind_Ok (c' & Ec' & [= <-])%bind_Ok.
  rewrite Ec in Ec'. by injection Ec' as <-.
Qed.

Lemma ml_dsa_parameters_verify m p q :
  ml_dsa_parameters m false = Ok p → ml_dsa_parameters m true = Ok q → same_but_hedge p q.
Proof.
  unfold ml_dsa_parameters, hash_ml_dsa_parameters, omap_ok. intros Ep Eq. case_if; [|case_if; [by simplify_eq|]].
  - apply bind_Ok in Ep as (p' & Ep & [= <-]), Eq as (q' & Eq & [= <-]).
    destruct (ml_dsa_module_prehash (mechanism m)).
    + apply bind_Ok in Ep as (p'' & Ep & [= <-]), Eq as (q'' & Eq & [= <-]). cbn. split; [done|].
      by apply (ml_dsa_context_parameters_verify m p'' q'').
    + destruct (pParameter m) as [memory|]; [|done]. case_if; [done|].
      apply bind_Ok in Ep as (id & Eid & Ep), Eq as (id' & Eid' & Eq). rewrite Eid in Eid'. injection Eid' as <-.
      apply bind_Ok in Ep as (p'' & Ep & [= <-]), Eq as (q'' & Eq & [= <-]). cbn. split; [done|].
      unfold ml_dsa_context_parameters in Ep, Eq. cbn in Ep, Eq. case_if; [done|]. case_if; [done|].
      apply bind_Ok in Ep as (c & Ec & [= <-]), Eq as (c' & Ec' & [= <-]). rewrite Ec in Ec'. by injection Ec' as <-.
  - apply bind_Ok in Ep as (p' & Ep & [= <-]), Eq as (q' & Eq & [= <-]).
    by apply (ml_dsa_context_parameters_verify m p' q').
Qed.

Lemma signature_parameters_verify mech aes aes' mac mac' gm gm' pss pss' ml ml' :
  signature_parameters mech false = Ok (aes, (mac, gm, pss, ml)) →
  signature_parameters mech true = Ok (aes', (mac', gm', pss', ml')) →
  mac = mac' ∧ gm = gm' ∧ pss = pss' ∧ same_but_hedge ml ml'.
Proof.
  unfold signature_parameters. intros E E'. o_inv E. o_inv E'. simplify_eq.
  repeat match goal with
  | H : ?c = Ok ?a, H' : ?c = Ok ?b |- _ => rewrite H in H'; injection H' as <-
  end.
  match goal with H : ml_dsa_parameters mech false = Ok _, H' : ml_dsa_parameters mech true = Ok _ |- _ =>
    pose proof (ml_dsa_parameters_verify _ _ _ H H') as Hml end.
  split_and!; [done|done| |done].
  match goal with H : context [bool_decide (is_Some ml)] |- _ => rename H into Hs end.
  match goal with H : context [bool_decide (is_Some ml')] |- _ => rename H into Hv end.
  assert (bool_decide (is_Some ml) = bool_decide (is_Some ml')) as Eb by (by destruct ml, ml').
  rewrite Eb in Hs. case_if; [congruence|]. case_if; [congruence|].
  apply bind_Ok in Hs as (? & _ & Hs). apply bind_Ok in Hv as (? & _ & Hv). congruence.
Qed.

Lemma supported_mac_free key mech b aes mac gm pss ml :
  software_sign_mechanism_supported key (mechanism mech) = true →
  signature_parameters mech b = Ok (aes, (mac, gm, pss, ml)) → mac = None.
Proof.
  intros (Hg & Hc & Hcg & Hh)%supported_not_mac E. unfold signature_parameters, aes_gmac_parameters, aes_cmac_length,
    hmac_output_length in E. rewrite Hg, Hc, Hcg, Hh in E. cbn [negb obind] in E. o_inv E. congruence.
Qed.

Lemma prehash_is_hash_ml_dsa m : one_of HASH_ML_DSA_MECHANISMS m = false → ml_dsa_module_prehash m = None.
Proof.
  unfold one_of, ml_dsa_module_prehash. cbn [existsb HASH_ML_DSA_MECHANISMS]. intros E. bool_to_prop.
  repeat match goal with |- context [m =? ?c] => replace (m =? c) with false by lia end. done.
Qed.

(** Hashing leaves one of the plain mechanisms of the key. *)
Lemma message_mechanism key op data m d :
  software_sign_mechanism_supported key (sign_mechanism op) = true →
  prehash_state op = signature_context (sign_mechanism op) →
  message op data = Ok (m, d) → one_of (normal_mechanisms key) m = true.
Proof.
  intros Hs%supported_normal Hp E. unfold message in E. rewrite Hp in E. unfold signature_context in E.
  set (m0 := sign_mechanism op) in *. unfold becomes_normal in Hs. destruct (ml_dsa_module_prehash m0) eqn:Eml.
  - assert (one_of HASH_ML_DSA_MECHANISMS m0 = true) as Hin.
    { destruct (one_of HASH_ML_DSA_MECHANISMS m0) eqn:Eo; [done|]. by rewrite (prehash_is_hash_ml_dsa m0 Eo) in Eml. }
    apply (one_of_test (λ m, negb (bool_decide (is_Some (piv_hash_mechanism m))))) in Hin; [|by vm_compute].
    bool_to_prop. apply eq_None_not_Some in Hin. rewrite Hin in Hs. bool_to_prop. unfold normalize in E.
    repeat match goal with H : _ m0 = _ |- _ => rewrite H in E | H : one_of _ m0 = _ |- _ => rewrite H in E end.
    by simplify_eq.
  - destruct (piv_hash_mechanism m0); cbn [fmap option_fmap option_map] in E.
    + unfold normalize in E. destruct key; try done.
      * destruct (piv_is_hashed_rsa_pkcs m0); [apply bind_Ok in E as (? & _ & [= <- _]); done|].
        cbn [orb] in Hs. rewrite Hs in E. by injection E as <- _.
      * bool_to_prop. repeat match goal with H : _ m0 = _ |- _ => rewrite H in E | H : one_of _ m0 = _ |- _ => rewrite H in E end.
        by injection E as <- _.
    + injection E as <- _. by apply andb_true_iff in Hs as [Hs _].
Qed.

(** The length check of a digest that is signed with RSA-PSS. *)
Lemma check_pss_digest k op required data mgf salt h (x y : Ctx) :
  check_signature_input k op CKM_RSA_PKCS_PSS required data x = (Ok tt, y) → pss op = Some (mgf, salt, h) →
  ∃ d, digest_for_hash_mechanism h = Ok d ∧ len data = hash_size d.
Proof.
  unfold check_signature_input. intros E Hp.
  apply sm_bind_Ok in E as (? & ? & _ & E). apply sm_bind_Ok in E as (? & ? & _ & E).
  apply sm_bind_Ok in E as (? & ? & _ & E). rewrite Z.eqb_refl, Hp in E.
  apply sm_bind_Ok in E as (d & ? & [= Hd _] & E). exists d. split; [done|].
  apply end_signature_if_Ok in E as [E _]. lia.
Qed.
Lemma digest_is_shared h d : digest_for_hash_mechanism h = Ok d → shared_rsa_hash_algorithm h = Ok d.
Proof.
  unfold digest_for_hash_mechanism.
  do 9 (match goal with |- context [h =? ?c] => destruct (Z.eqb_spec h c) as [->|_] end;
        [intros [= <-]; vm_compute; reflexivity|]). done.
Qed.

Lemma sm_map_err_Ok {S F G A} (f : F → G) (c : SM S F A) s a s' :
  sm_map_err f c s = (Ok a, s') → c s = (Ok a, s').
Proof. unfold sm_map_err. destruct (c s) as [[]]; cbn; by intros [= -> ->]. Qed.

Lemma ec_curve_of_parameters c : ec_curve_from_parameters (ec_curve_parameters c) = Ok c.
Proof. by destruct c. Qed.
Lemma edwards_curve_of_parameters c : edwards_curve_from_parameters (edwards_curve_parameters c) = Ok c.
Proof. by destruct c. Qed.

Section laws.
Context `{!SignatureLaws B}.

Lemma rsa_verifies key pub op m data (b b' : B) sig :
  one_of [CKM_RSA_X_509; CKM_RSA_PKCS; CKM_RSA_PKCS_PSS] m = true →
  signing_public_key (SigningRsa key) = Some (Ok (RsaPublic pub)) →
  software_sign (SigningRsa key) m (pss op) (ml_dsa op) data b = (Ok sig, b') → len sig = rsa_private_size key →
  (m = CKM_RSA_PKCS_PSS → ∀ mgf salt h, pss op = Some (mgf, salt, h) →
    ∃ d, digest_for_hash_mechanism h = Ok d ∧ len data = hash_size d) →
  verify_rsa_signature pub m (pss op) data sig = Ok tt.
Proof.
  intros Hm Hpub Hs Hl Hd. unfold signing_public_key in Hpub. destruct (rsa_public_parts key) as [n e] eqn:Ek.
  injection Hpub as Hpub. apply bind_Ok in Hpub as (pub' & Hn & [= <-]).
  destruct (rsa_public_new _ _) as [key'|] eqn:En; [|done]. injection Hn as <-.
  unfold verify_rsa_signature. rewrite (rsa_public_size key n e key' Ek En), Hl, Z.eqb_refl. cbn [negb bail obind].
  unfold one_of in Hm. cbn [existsb] in Hm. rewrite orb_false_r, !orb_true_iff, !Z.eqb_eq in Hm.
  destruct Hm as [-> | [-> | ->]]; unfold software_sign in Hs.
  - apply sm_map_err_Ok in Hs. change (map_err shared_rsa_verification_error (rsa_verify_raw key' data sig) = Ok tt).
    by rewrite (rsa_raw_verifies key n e key' data b b' sig Ek En Hs).
  - apply sm_map_err_Ok in Hs.
    change (map_err shared_rsa_verification_error (rsa_verify_pkcs1v15_payload key' data sig) = Ok tt).
    by rewrite (rsa_payload_verifies key n e key' data b b' sig Ek En Hs).
  - specialize (Hd eq_refl). destruct (pss op) as [[[mgf salt] h]|]; [|done].
    destruct (Hd _ _ _ eq_refl) as (d & Ed & Hdl). apply digest_is_shared in Ed. clear Hd.
    change (piv_is_pss_mechanism CKM_RSA_PKCS_PSS) with true in *. cbn [ok_or] in Hs |- *.
    rewrite sm_bind_unfold in Hs. cbn [sm_lift] in Hs. rewrite sm_bind_unfold in Hs.
    change (CKM_RSA_PKCS_PSS =? CKM_RSA_X_509) with false. change (CKM_RSA_PKCS_PSS =? CKM_RSA_PKCS) with false.
    change (piv_is_hashed_rsa_pkcs CKM_RSA_PKCS_PSS) with false. cbn [obind].
    destruct (shared_rsa_pss_parameters mgf salt h) as [[[h' g] salt']| |] eqn:Ep; cbn [sm_lift] in Hs; [|done|done].
    apply sm_map_err_Ok in Hs. cbn [obind].
    assert (h' = d) as ->.
    { unfold shared_rsa_pss_parameters in Ep. rewrite Ed in Ep. cbn in Ep. o_inv Ep. congruence. }
    change (CKM_RSA_PKCS_PSS =? CKM_RSA_PKCS_PSS) with true. rewrite Hdl, Z.eqb_refl. cbn [negb bail obind].
    by rewrite (rsa_pss_verifies key n e key' d g salt' data b b' sig Ek En Hs).
Qed.

Lemma ml_dsa_verifies_signature parameter_set key p q data (b b' : B) sig :
  same_but_hedge (Some p) (Some q) →
  shared_ml_dsa_sign parameter_set key (Some p) data b = (Ok sig, b') →
  len sig = ml_dsa_signature_length parameter_set →
  ml_dsa_verify (local_ml_dsa_parameter_set parameter_set) (ml_dsa_public_key parameter_set key) q data sig = Ok tt.
Proof.
  intros [Hh Hc] Hs Hl. unfold ml_dsa_verify.
  assert ((if local_ml_dsa_parameter_set parameter_set =? CKP_ML_DSA_44 then Ok SetMlDsa44
           else if local_ml_dsa_parameter_set parameter_set =? CKP_ML_DSA_65 then Ok SetMlDsa65
           else if local_ml_dsa_parameter_set parameter_set =? CKP_ML_DSA_87 then Ok SetMlDsa87
           else Err #CKR_KEY_TYPE_INCONSISTENT) = Ok (E := Error) parameter_set) as -> by (by destruct parameter_set).
  cbn [obind]. rewrite Hl, Z.eqb_refl, ml_dsa_key_length, Z.eqb_refl. cbn [negb bail obind].
  unfold shared_ml_dsa_sign in Hs. apply sm_bind_Ok in Hs as (p' & b1 & [= -> ->] & Hs). rewrite <-Hh, <-Hc.
  destruct (prehash p') as [h|] eqn:Eh; cbn [bool_decide] in Hs |- *.
  - change (bool_decide (is_Some (Some h))) with true in *. unfold hash_ml_dsa_sign in Hs. rewrite Eh in Hs.
    apply sm_bind_Ok in Hs as (h' & b2 & [= <- <-] & Hs). apply sm_bind_Ok in Hs as (u & b2 & Hg & Hs).
    unfold guard_err in Hg. destruct (len data =? prehash_digest_length h) eqn:Ed; [|done].
    unfold hash_ml_dsa_verify. rewrite <-Hh. cbn [ok_or obind]. rewrite Ed. cbn [negb bail obind]. apply sm_map_err_Ok in Hs.
    by rewrite <-Hc, (ml_dsa_prehash_verifies parameter_set key data _ h _ _ _ sig Hs).
  - change (bool_decide (is_Some (@None Z))) with false in *.
    apply sm_bind_Ok in Hs as (r & b2 & _ & Hs). apply sm_map_err_Ok in Hs.
    by rewrite (ml_dsa_verifies parameter_set key data _ r _ _ sig Hs).
Qed.

(** Verification with the public key accepts what the key signed. *)
Lemma software_signature_verifies key pub op vop m data (b b' : B) sig :
  one_of (normal_mechanisms key) m = true → signing_public_key key = Some (Ok pub) →
  software_sign key m (pss op) (ml_dsa op) data b = (Ok sig, b') → software_signature_length key = Ok (len sig) →
  sign_key vop = Public pub → pss vop = pss op → same_but_hedge (ml_dsa op) (ml_dsa vop) →
  (m = CKM_RSA_PKCS_PSS → ∀ mgf salt h, pss op = Some (mgf, salt, h) →
    ∃ d, digest_for_hash_mechanism h = Ok d ∧ len data = hash_size d) →
  verify_public vop m data sig = Ok tt.
Proof.
  intros Hm Hpub Hs Hl Hk Hp Hml Hd. unfold verify_public. rewrite Hk.
  destruct key as [key|curve key|parameter_set key|curve key| | |]; try done.
  - cbn in Hl. injection Hl as Hl. assert (∃ k, pub = RsaPublic k) as [k ->].
    { unfold signing_public_key in Hpub. destruct (rsa_public_parts key). injection Hpub as Hpub.
      apply bind_Ok in Hpub as (k & _ & [= <-]). by exists k. }
    cbn [rsa_public_key_material obind]. rewrite Hp. by eapply rsa_verifies.
  - cbn in Hpub, Hl. injection Hpub as <-. injection Hl as Hl. cbn [rsa_public_key_material obind].
    cbn in Hm. rewrite orb_false_r in Hm. rewrite Hm, edwards_curve_of_parameters. cbn [obind]. unfold verify_edwards.
    rewrite edwards_key_length, Z.eqb_refl, <-Hl, Z.eqb_refl. cbn [negb orb bail obind].
    apply sm_map_err_Ok in Hs. by rewrite (eddsa_verifies curve key data b b' sig Hs).
  - cbn in Hpub, Hl. injection Hpub as <-. injection Hl as Hl. cbn [rsa_public_key_material obind].
    destruct (ml_dsa op) as [p|]; [|done]. destruct (ml_dsa vop) as [q|]; [|done].
    by eapply ml_dsa_verifies_signature.
  - cbn in Hpub, Hl. injection Hpub as Hpub. injection Hl as Hl. cbn in Hm. rewrite orb_false_r in Hm.
    apply Z.eqb_eq in Hm as ->. pose proof (ec_point_length curve key) as Hlen.
    destruct (ec_public_key curve key) as [|c point] eqn:Ek; [done|].
    assert (c = 4 ∧ pub = EcPublic (ec_curve_parameters curve) point) as [-> ->].
    { destruct (decide (c = 4)) as [->|Hn]; [by injection Hpub as <-|]. destruct c as [|c|c]; try done.
      by do 3 (destruct c as [c|c|]; try done). }
    rewrite len_cons in Hlen. cbn [rsa_public_key_material obind].
    change (CKM_ECDSA =? CKM_EDDSA) with false. change (CKM_ECDSA =? CKM_ECDSA) with true. cbn iota.
    rewrite ec_curve_of_parameters. cbn [obind]. rewrite <-Hl, Z.eqb_refl. cbn [negb bail obind]. unfold verify_ecdsa.
    rewrite <-Hl. replace (len point =? coordinate_length curve * 2) with true by lia. rewrite ?Z.eqb_refl. cbn [negb bail obind].
    apply sm_map_err_Ok in Hs. apply ecdsa_verifies in Hs. rewrite Ek in Hs. cbn in Hs. by rewrite Hs.
Qed.

(** C21: what was signed verifies. When [C_SignInit] and [C_Sign] with a software
    key (RSA with PKCS #1, PSS or no padding, ECDSA, EdDSA, ML-DSA, with or without
    hashing) delivered a signature, then in any session whose [C_VerifyInit] got
    the same mechanism structure and the matching public key, [C_Verify] of the same
    message accepts exactly these bytes and ends its operation. *)
Theorem sign_verify_roundtrip k mech h (x x1 x2 : Ctx) s op key pub addr data n o o2
    k' h' (y y1 : Ctx) t vop :
  sign_init_in k (Some mech) h x = (Ok tt, x1) →
  sessions (state x1) !! k = Some s → sign_operation s = Some op → sign_key op = SoftwarePrivate key →
  sign_in k addr data n false (x1, o) = (Ok tt, (x2, o2)) → out_null o = false →
  verify_init_in k' (Some mech) h' y = (Ok tt, y1) →
  sessions (state y1) !! k' = Some t → verify_operation t = Some vop → sign_key vop = Public pub →
  signing_public_key key = Some (Ok pub) → sign_authorized y1 vop → len (out_data o2) ≤ ISIZE_MAX →
  verify_in k' data n (Some (out_data o2)) (len (out_data o2)) false y1 = (Ok tt, signature_ended k' false t y1).
Proof.
  intros Ei Es Hop Hkey Esign Hnull Ev Et Hvop Hvkey Hpub Hauth Hisize.
  destruct (sign_init_operation _ _ _ _ _ _ _ Ei Es Hop) as (Ho & id & aes & p & obj & rp & policy & table & Ep & Hsup & Eop);
    [by rewrite Hkey|].
  destruct (verify_init_operation _ _ _ _ _ _ _ Ev Et Hvop) as (Hvo & id' & aes' & q & vkey & vobj & Eq & Evop).
  destruct p as [[[mac gm] ps] ml], q as [[[mac' gm'] ps'] ml'].
  destruct (signature_parameters_verify _ _ _ _ _ _ _ _ _ _ _ Ep Eq) as (<- & <- & <- & Hml).
  assert (material obj = SoftwarePrivate key) as Hmat by (rewrite Eop in Hkey; exact Hkey).
  assert (software_sign_mechanism_supported key (mechanism mech) = true) as Hs.
  { unfold sign_mechanism_supported in Hsup. rewrite Hmat in Hsup. by apply andb_true_iff in Hsup as [_ Hsup]. }
  pose proof (supported_mac_free key mech _ _ _ _ _ _ Hs Ep) as ->.
  assert (message_key (sign_key op) = true) as Hmk by (by rewrite Hkey).
  destruct (sign_in_Ok _ _ _ _ _ _ _ _ _ Ho Hop Hmk Esign) as (msg & Emsg & _ & Erest).
  apply sign_rest_Ok in Erest as (m & d & required & bytes & z & z' & Em & El & Echeck & Ecomp & Hlen & Hout); [|done].
  cbn [snd] in Hout. subst o2. cbn [out_data] in *.
  assert (one_of (normal_mechanisms key) m = true) as Hnm.
  { apply (message_mechanism key op msg m d); [by rewrite Eop|by rewrite Eop|done]. }
  unfold compute_signature, signature_length in *. rewrite Hkey in Ecomp, El. unfold on_slot in Ecomp.
  destruct (software_sign key m (pss op) (ml_dsa op) d (slot z)) as [r b'] eqn:Esig. injection Ecomp as -> <-.
  rewrite (verify_in_message _ _ _ _ _ _ msg m d _ Hvo Hvop); [|by rewrite Evop|done|done| |done].
  2:{ rewrite <-Em. by rewrite Eop, Evop. }
  unfold verify_message_in.
  assert (hmac_key_type_and_length m = None) as ->.
  { apply (one_of_test (λ m, negb (bool_decide (is_Some (hmac_key_type_and_length m))))) in Hnm.
    - bool_to_prop. by apply eq_None_not_Some.
    - by destruct key; vm_compute. }
  assert (mac_length vop = None) as -> by (by rewrite Evop).
  rewrite (software_signature_verifies key pub op vop m d (slot z) b' bytes); [done|done|done|done| |done|..].
  - by rewrite El, Hlen.
  - by rewrite Eop, Evop.
  - by rewrite Eop, Evop.
  - intros -> mgf salt hh Hpss. by eapply check_pss_digest.
Qed.

(** *** MAC keys *)

Lemma software_gmac_stateless key p data (x y : Ctx) :
  software_aes_gmac key p data y = ((software_aes_gmac key p data x).1, y).
Proof.
  assert (∀ R : Ctx → Ctx → Prop, respects R (software_aes_gmac key p data)) as Hr.
  { intros R. unfold software_aes_gmac, aes_gcm. respect; apply respects_map_err, gcm_respects; auto with respects. }
  destruct (Hr (λ _ _, True) x y I) as [-> _]. destruct (Hr (λ a b, b = y) x y eq_refl) as [_ Hy].
  destruct (software_aes_gmac key p data y) as [r y']. cbn in Hy. by subst.
Qed.

(** The MAC that a software key computes, cut to the length [n]. *)
Definition software_mac (op : SignatureOperation) (key : list Z) (n : Z) (data : list Z) : M (list Z) :=
  if bool_decide (is_Some (hmac_key_type_and_length (sign_mechanism op))) then
    let! mac := sm_lift (software_hmac key (sign_mechanism op) data) in sm_ret (ztake n mac)
  else
    let! mac := (match gmac op with
                 | Some p => software_aes_gmac key p data
                 | None => sm_lift (software_aes_cmac key data)
                 end) in sm_ret (ztake n mac).

Lemma mac_parameters mech b aes mac gm ps ml table obj key :
  signature_parameters mech b = Ok (aes, (mac, gm, ps, ml)) → material obj = SoftwareSecret key →
  sign_mechanism_supported (mechanism mech) aes table obj = true →
  one_of mac_mechanisms (mechanism mech) = true ∧ is_Some mac.
Proof.
  intros E Hmat Hs. unfold sign_mechanism_supported in Hs. rewrite Hmat in Hs. unfold signature_parameters in E.
  o_inv E. injection E as <- <- <- <- <-.
  destruct (hmac_key_type_and_length (mechanism mech)) as [[t full]|] eqn:Eh.
  - assert (∃ n, a1 = Some n) as [n ->].
    { unfold hmac_output_length in E2. rewrite Eh in E2. unfold omap_ok in E2.
      destruct (hmac_general _); [|destruct (has_parameter mech); [done|]].
      - apply bind_Ok in E2 as (n & _ & [= <-]). by exists n.
      - injection E2 as <-. by exists full. }
    split; [|by eexists]. apply hmac_is_mac. by rewrite Eh.
  - rewrite orb_false_r in Hs. apply andb_true_iff in Hs as [_ [n ->]%bool_decide_eq_true].
    unfold hmac_output_length in E2. rewrite Eh in E2. injection E2 as <-. split; [|by eexists].
    unfold aes_gmac_parameters, aes_cmac_length in *. destruct (Z.eqb_spec (mechanism mech) CKM_AES_GMAC) as [Hg|Hg]; [by rewrite Hg|].
    injection E0 as <-. destruct (Z.eqb_spec (mechanism mech) CKM_AES_CMAC) as [Hc|Hc]; [by rewrite Hc|].
    destruct (Z.eqb_spec (mechanism mech) CKM_AES_CMAC_GENERAL) as [Hcg|Hcg]; [by rewrite Hcg|done].
Qed.

Lemma mac_message op data :
  one_of mac_mechanisms (sign_mechanism op) = true → prehash_state op = signature_context (sign_mechanism op) →
  sign_buffer op = [] → message op data = Ok (sign_mechanism op, data).
Proof.
  intros Hm Hp Hb. unfold message. rewrite Hp, Hb. unfold signature_context.
  apply (one_of_test (λ m, negb (one_of HASH_ML_DSA_MECHANISMS m) && negb (bool_decide (is_Some (piv_hash_mechanism m)))))
    in Hm; [|by vm_compute].
  bool_to_prop. rewrite prehash_is_hash_ml_dsa by done. by rewrite (proj2 (eq_None_not_Some _) ltac:(eassumption)).
Qed.

Lemma secret_signature_mac op key n data (x x' : Ctx) bytes :
  mac_length op = Some n → len bytes = n →
  secret_signature op (sign_mechanism op) key n data x = (Ok bytes, x') →
  (software_mac op key n data x).1 = Ok bytes.
Proof.
  intros Hn Hl E. unfold secret_signature in E. unfold software_mac. case_if; [by rewrite E|]. rewrite Hn in E.
  change (bool_decide (is_Some (Some n))) with true in E. cbn iota in E.
  destruct (gmac op) as [p|]; [|by rewrite E]. rewrite sm_bind_unfold, E. cbn. by rewrite <-Hl, ztake_ge by lia.
Qed.

Lemma software_mac_stateless op key n data (x y : Ctx) :
  software_mac op key n data y = ((software_mac op key n data x).1, y).
Proof.
  unfold software_mac. destruct (bool_decide _).
  - rewrite !sm_bind_unfold. by destruct (sm_lift _ y) as [[]] eqn:E; unfold sm_lift in E; injection E as -> <-.
  - rewrite !sm_bind_unfold. destruct (gmac op) as [p|].
    + rewrite (software_gmac_stateless _ _ _ x y). by destruct (software_aes_gmac key p data x) as [[] ?].
    + by destruct (software_aes_cmac key data).
Qed.

Lemma verify_mac k op key n data sig (x : Ctx) :
  mac_length op = Some n → sign_key op = SoftwareSecret key →
  verify_message_in k op (sign_mechanism op) data sig x
  = (let! _ := guard_err (negb (len sig =? n)) #CKR_SIGNATURE_LEN_RANGE in
     let! mac := software_mac op key n data in
     sm_lift (compare_mac mac sig)) x.
Proof.
  intros Hn Hk. unfold verify_message_in, verify_with_hmac, verify_with_aes, software_mac. rewrite Hn, Hk.
  destruct (hmac_key_type_and_length (sign_mechanism op)) as [[t full]|].
  - change (bool_decide (is_Some (Some (t, full)))) with true. cbn [default]. rewrite !sm_bind_unfold.
    destruct (guard_err _ _ x) as [[]]; [|done|done]. rewrite !sm_bind_unfold. by destruct (software_hmac _ _ _).
  - change (bool_decide (is_Some (@None (Z * Z)))) with false. cbn [default]. rewrite !sm_bind_unfold.
    destruct (guard_err _ _ x) as [[] y]; [|done|done]. rewrite !sm_bind_unfold.
    destruct (gmac op) as [p|]; [by destruct (software_aes_gmac key p data y) as [[]]|].
    by destruct (software_aes_cmac key data).
Qed.

(** a MAC is verified exactly. When [C_SignInit] and [C_Sign] with a software
    MAC key (HMAC, CMAC or GMAC, of full or of a chosen length) delivered a MAC,
    then in any session whose [C_VerifyInit] got the same mechanism structure and
    the same key, [C_Verify] of the same message accepts those bytes and no others:
    not a prefix, not a longer string, not the MAC of another length. Either way
    the verification ends and changes nothing else. *)
Theorem mac_verified_exactly k mech h (x x1 x2 : Ctx) s op key addr data n o o2 k' h' (y y1 : Ctx) t vop sig :
  sign_init_in k (Some mech) h x = (Ok tt, x1) →
  sessions (state x1) !! k = Some s → sign_operation s = Some op → sign_key op = SoftwareSecret key →
  sign_in k addr data n false (x1, o) = (Ok tt, (x2, o2)) → out_null o = false →
  verify_init_in k' (Some mech) h' y = (Ok tt, y1) →
  sessions (state y1) !! k' = Some t → verify_operation t = Some vop → sign_key vop = SoftwareSecret key →
  sign_authorized y1 vop → len sig ≤ ISIZE_MAX →
  let run := verify_in k' data n (Some sig) (len sig) false y1 in
  (run.1 = Ok tt ↔ sig = out_data o2) ∧ run.2 = signature_ended k' false t y1.
Proof.
  intros Ei Es Hop Hkey Esign Hnull Ev Et Hvop Hvkey Hauth Hisize run.
  assert (message_key (sign_key op) = true) as Hmk by (by rewrite Hkey).
  destruct (sign_init_operation _ _ _ _ _ _ _ Ei Es Hop Hmk)
    as (Ho & id & aes & p & obj & rp & policy & table & Ep & Hsup & Eop).
  destruct (verify_init_operation _ _ _ _ _ _ _ Ev Et Hvop) as (Hvo & id' & aes' & q & vkey & vobj & Eq & Evop).
  destruct p as [[[mac gm] ps] ml], q as [[[mac' gm'] ps'] ml'].
  destruct (signature_parameters_verify _ _ _ _ _ _ _ _ _ _ _ Ep Eq) as (<- & <- & <- & Hml).
  assert (material obj = SoftwareSecret key) as Hmat by (rewrite Eop in Hkey; exact Hkey).
  destruct (mac_parameters _ _ _ _ _ _ _ _ _ _ Ep Hmat Hsup) as [Hmm [len_mac ->]].
  assert (mac_length op = Some len_mac) as Hlm by (by rewrite Eop).
  assert (mac_length vop = Some len_mac) as Hvlm by (by rewrite Evop).
  destruct (sign_in_Ok _ _ _ _ _ _ _ _ _ Ho Hop Hmk Esign) as (msg & Emsg & _ & Erest).
  apply sign_rest_Ok in Erest as (m & d & required & bytes & z & z' & Em & El & _ & Ecomp & Hlen & Hout); [|done].
  cbn [snd] in Hout. subst o2. cbn [out_data] in *.
  rewrite mac_message in Em by (by rewrite Eop). injection Em as <- <-.
  unfold compute_signature, signature_length in *. rewrite Hkey, Hlm in El. injection El as <-.
  rewrite Hkey in Ecomp. apply secret_signature_mac in Ecomp; [|done|done].
  assert (software_mac vop key len_mac msg (signature_ended k' false t y1) = (Ok bytes, signature_ended k' false t y1)) as Emac.
  { rewrite (software_mac_stateless _ _ _ _ z). f_equal. rewrite <-Ecomp. by rewrite Eop, Evop. }
  subst run. rewrite (verify_in_message _ _ _ _ _ _ msg (sign_mechanism vop) msg _ Hvo Hvop);
    [|by rewrite Evop|done|done|by rewrite mac_message by (by rewrite Evop)|done].
  rewrite (verify_mac _ _ key len_mac) by done. unfold guard_err. rewrite sm_bind_unfold.
  destruct (Z.eqb_spec (len sig) len_mac) as [Hl|Hl]; cbn [negb sm_ret].
  - rewrite sm_bind_unfold, Emac. unfold compare_mac. case_bool_decide; cbn; naive_solver.
  - cbn. split; [|done]. split; [done|]. intros ->. by destruct Hl.
Qed.
End laws.
End roundtrip.

(** ** Witnesses *)

Definition toy_eddsa : CK_MECHANISM := mkMechanism CKM_EDDSA None 0.
Definition toy_private_object : TokenObject :=
  mkObject (Some 0) [] CKO_PRIVATE_KEY CKK_EC_EDWARDS false true false false true false None (Some 1) None None
    (SoftwarePrivate (SigningEdwards CurveEd25519 toy_key)) (toy_attributes 0).
Definition toy_public_object : TokenObject :=
  mkObject (Some 0) [] CKO_PUBLIC_KEY CKK_EC_EDWARDS false false false false false true None (Some 1) None None
    (Public (EcPublic (edwards_curve_parameters CurveEd25519) (replicate 32 1))) (toy_attributes 0).
(** The private key has handle 1, the public key handle 2, the MAC key handle 3. *)
Definition toy_with_keys : SlotContext ToyBackend MemoryStorageProvider :=
  ((let! _ := insert_object toy_private_object in
    let! _ := insert_object toy_public_object in
    insert_object toy_hmac_object) toy_start).2.
Definition toy_out : Output := mkOutput false (Some 64) [].
Definition toy_after_init (m : CK_MECHANISM) (h : Z) := (sign_init_in 1 (Some m) h toy_with_keys).2.
Definition toy_after_sign (m : CK_MECHANISM) (h : Z) := sign_in 1 0 (Some [1; 2; 3]) 3 false (toy_after_init m h, toy_out).
Definition toy_verifying (m : CK_MECHANISM) (h h' : Z) :=
  (verify_init_in 1 (Some m) h' (toy_after_sign m h).2.1).2.
Definition toy_op (m : Z) (key : KeyMaterial) (login : bool) (mac : option Z) : SignatureOperation :=
  mkSignature false None key None 0 login false None None None m mac None None None None [] None.

Lemma sign_verify_roundtrip_witness :
  (toy_after_sign toy_eddsa 1).2.2 = mkOutput false (Some 2) [6; 3] ∧
  (verify_in 1 (Some [1; 2; 3]) 3 (Some [6; 3]) 2 false (toy_verifying toy_eddsa 1 2)).1 = Ok tt.
Proof.
  split; [by vm_compute|].
  erewrite (sign_verify_roundtrip 1 toy_eddsa 1 toy_with_keys (toy_after_init toy_eddsa 1) (toy_after_sign toy_eddsa 1).2.1
    (set_signature_operation true (Some (toy_op CKM_EDDSA (material toy_private_object) true None))
       (SessionContext_new (mkBackendSession 0 6)))
    (toy_op CKM_EDDSA (material toy_private_object) true None) (SigningEdwards CurveEd25519 toy_key)
    (EcPublic (edwards_curve_parameters CurveEd25519) (replicate 32 1)) 0 (Some [1; 2; 3]) 3 toy_out
    (mkOutput false (Some 2) [6; 3]) 1 2 (toy_after_sign toy_eddsa 1).2.1 (toy_verifying toy_eddsa 1 2)
    (set_signature_operation false (Some (toy_op CKM_EDDSA (material toy_public_object) false None))
       (SessionContext_new (mkBackendSession 0 6)))
    (toy_op CKM_EDDSA (material toy_public_object) false None)); try by vm_compute.
Defined.

Lemma mac_verified_exactly_witness :
  (verify_in 1 (Some [1; 2; 3]) 3 (Some ([86; 19] ++ replicate 30 0)) 32 false (toy_verifying toy_hmac 3 3)).1 = Ok tt ∧
  (verify_in 1 (Some [1; 2; 3]) 3 (Some [86; 19]) 2 false (toy_verifying toy_hmac 3 3)).1 ≠ Ok tt.
Proof.
  assert (∀ sig, len sig ≤ ISIZE_MAX →
    (verify_in 1 (Some [1; 2; 3]) 3 (Some sig) (len sig) false (toy_verifying toy_hmac 3 3)).1 = Ok tt
    ↔ sig = [86; 19] ++ replicate 30 0) as Hx.
  { intros sig Hl.
    apply (mac_verified_exactly 1 toy_hmac 3 toy_with_keys (toy_after_init toy_hmac 3) (toy_after_sign toy_hmac 3).2.1
      (set_signature_operation true (Some (toy_op CKM_SHA256_HMAC (SoftwareSecret toy_key) true (Some 32)))
         (SessionContext_new (mkBackendSession 0 6)))
      (toy_op CKM_SHA256_HMAC (SoftwareSecret toy_key) true (Some 32)) toy_key 0 (Some [1; 2; 3]) 3 toy_out
      (mkOutput false (Some 32) ([86; 19] ++ replicate 30 0)) 1 3 (toy_after_sign toy_hmac 3).2.1 (toy_verifying toy_hmac 3 3)
      (set_signature_operation false (Some (toy_op CKM_SHA256_HMAC (SoftwareSecret toy_key) true (Some 32)))
         (SessionContext_new (mkBackendSession 0 6)))
      (toy_op CKM_SHA256_HMAC (SoftwareSecret toy_key) true (Some 32)) sig); [by vm_compute..| |exact Hl].
    intros _. unfold is_slot_user_logged_in. rewrite sm_bind_unfold. unfold slot_login_role, sm_ret. cbn iota.
    by do 2 f_equal. }
  split.
  - by apply (Hx ([86; 19] ++ replicate 30 0)).
  - intros E. by apply (Hx [86; 19]) in E.
Defined.
