(* ===== verification/SignatureSafety.v ===== *)
(** * SignatureSafety: when a signature operation ends, and when a key is used

    The life of a signing and of a verification operation, what happens to them
    when the user of a private key logs out, and what reaches the caller when a
    call fails. *)
From S2P Require Import Prelude Errors Mechanisms Storage YubiHsm SlotState SessionApi CryptApi Digests CipherModes Ciphers CipherSafety SignatureModes OathOtp Signatures SignatureStreams SignatureRoundtrip.

Section safety.
Context `{HashCore} `{ModesLaws} `{PublicKeyProjection}.
Context {B P : Type} `{Slot B} `{StorageProvider P} `{Sha3, MiniCbor} `{BackedObjects}
  `{Environment B P} `{CryptBackend B} `{RsaCore B} `{SignatureCore B}.
Abbreviation Ctx := (SlotContext B P).
Abbreviation M := (SM Ctx Error).
Abbreviation IO := (SM (Ctx * Output) Error).

(** ** Logins *)

Lemma signature_ended_open k b s (x : Ctx) :
  open_in x k s → open_in (signature_ended k b s x) k (set_signature_operation b None s).
Proof. intros Ho. apply (put_session_open x k s); [done|apply set_signature_backend]. Qed.

Lemma sign_authorized_or_refused (x : Ctx) op :
  sign_authorized x op ∨ sign_requires_login op = true ∧ is_slot_user_logged_in (sign_slot_id op) x = (Ok false, x).
Proof.
  unfold sign_authorized. destruct (sign_requires_login op); [|by left].
  assert (∃ b, is_slot_user_logged_in (sign_slot_id op) x = (Ok b, x)) as [[] E] by (by eexists); auto.
Qed.

Lemma require_signature_login_refuses (x : Ctx) k s op b :
  open_in x k s → (b = false → verify_operation s = None) →
  sign_requires_login op = true → is_slot_user_logged_in (sign_slot_id op) x = (Ok false, x) →
  ∃ y s', require_signature_login k op b x = (Err #CKR_USER_NOT_LOGGED_IN, y) ∧ open_in y k s' ∧
    signature_operation b s' = None ∧ (slot y = slot x ∨ slot y = clear_lost_login (slot x)).
Proof.
  intros Ho Hv Hr Hl. unfold require_signature_login. rewrite Hr, sm_bind_unfold, Hl. cbn beta iota.
  rewrite sm_bind_unfold. destruct (reconcile_open (sign_slot_id op) x k s Ho) as (x1 & s1 & -> & Ho1 & Hs1 & Hslot).
  destruct b.
  - rewrite sm_bind_unfold, (end_signature_open _ _ _ _ Ho1). eexists _, _. split; [done|].
    split; [by apply (signature_ended_open k true s1 x1)|]. by split.
  - rewrite sm_bind_unfold. eexists _, _. split; [done|]. split; [done|]. split; [|done].
    destruct Hs1 as [-> | ->]; [by apply Hv|done].
Qed.

Lemma sign_in_refused (x : Ctx) k s op addr ptr n fin o :
  open_in x k s → sign_operation s = Some op → sign_multipart op && negb fin = false →
  sign_requires_login op = true → is_slot_user_logged_in (sign_slot_id op) x = (Ok false, x) →
  ∃ y s', sign_in k addr ptr n fin (x, o) = (Err #CKR_USER_NOT_LOGGED_IN, (y, o)) ∧ open_in y k s' ∧
    sign_operation s' = None ∧ (slot y = slot x ∨ slot y = clear_lost_login (slot x)).
Proof.
  intros Ho Hop Hm Hr Hl. destruct (require_signature_login_refuses x k s op true Ho) as (y & s' & E & Hy & Hs); try done.
  exists y, s'. split; [|done]. unfold sign_in. rewrite sm_bind_unfold. unfold sm_fst at 1. cbn [fst snd].
  rewrite (get_session_context_open _ _ _ Ho), sm_bind_unfold, Hop. cbn [ok_or sm_lift].
  rewrite sm_bind_unfold. unfold sm_fst at 1, end_signature_if at 1. rewrite Hm. cbn [sm_ret fst snd].
  rewrite sm_bind_unfold. unfold sm_fst at 1. cbn [fst snd]. by rewrite E.
Qed.

(** C23: a private key neither signs nor verifies once its user is logged out.
    Whatever the key (software, YubiHSM, PIV, OpenPGP, FIDO or OATH), a signing or
    a verification call whose operation needs the login fails with
    [CKR_USER_NOT_LOGGED_IN], writes nothing, ends the operation and asks nothing
    of the token but to forget the lost login. *)
Theorem logged_out_key_never_signs (x : Ctx) k s op fin :
  open_in x k s → sign_requires_login op = true → is_slot_user_logged_in (sign_slot_id op) x = (Ok false, x) →
  sign_multipart op && negb fin = false →
  (sign_operation s = Some op → ∀ addr ptr n o,
     ∃ y s', sign_in k addr ptr n fin (x, o) = (Err #CKR_USER_NOT_LOGGED_IN, (y, o)) ∧ open_in y k s' ∧
       sign_operation s' = None ∧ (slot y = slot x ∨ slot y = clear_lost_login (slot x))) ∧
  (verify_operation s = Some op → ∀ ptr n sig sn,
     ∃ y s', verify_in k ptr n sig sn fin x = (Err #CKR_USER_NOT_LOGGED_IN, y) ∧ open_in y k s' ∧
       verify_operation s' = None ∧ (slot y = slot x ∨ slot y = clear_lost_login (slot x))).
Proof.
  intros Ho Hr Hl Hm. split.
  - intros Hop addr ptr n o. by apply (sign_in_refused x k s op).
  - intros Hop ptr n sig sn.
    destruct (require_signature_login_refuses (signature_ended k false s x) k (set_signature_operation false None s) op false)
      as (y & s' & E & Hy & Hs); [by apply signature_ended_open|done|done| |].
    { unfold signature_ended. by rewrite user_logged_in_put, Hl. }
    exists y, s'. split; [|done]. rewrite (verify_in_run _ _ _ _ _ _ _ _ _ Ho Hop). unfold verify_rest.
    rewrite sm_bind_unfold, Hm. cbn [guard_err]. rewrite sm_bind_unfold. by rewrite E.
Qed.

(** ** The life of a signing operation *)

Context `{!SignatureLaws B}.

Lemma slot_only_cmac data f : (∀ b, slot_only (f b : M _)) → slot_only (cmac_with_encryptor data f : M _).
Proof.
  intros Hf x. unfold cmac_with_encryptor, sm_map_err.
  set (R := λ a b : Ctx, a = b ∧ state a = state x ∧ handles a = handles x).
  assert (∀ b, respects R (f b)) as HR.
  { intros b y z (-> & Hs & Hh). destruct (Hf b z) as [b' E]. split; [done|]. rewrite E. by split_and!. }
  destruct (cmac_respects Ctx Error R AES_BLOCK_LENGTH data f HR x x) as [_ (_ & Hs & Hh)]; [done|].
  destruct (cmac_with _ _ _ _ _ x) as [r y]. cbn in *. exists (slot y). rewrite <-Hs, <-Hh. by destruct y.
Qed.
#[local] Hint Resolve slot_only_cmac slot_only_gcm slot_only_yubihsm_ecb : slot_only.

Lemma slot_only_compute k op m required data : slot_only (compute_signature k op m required data : M _).
Proof.
  unfold compute_signature, secret_signature, yubihsm_signature, software_aes_gmac, yubihsm_aes_gmac,
    yubihsm_aes_cmac, yubihsm_encrypt_ecb_blocks.
  slot_only.
Qed.

(** Why a call can fail before it has looked at the output. *)
Definition unprepared (op : SignatureOperation) (data : list Z) (e : Error) : Prop :=
  message op data = Err e ∨
  ∃ m d, message op data = Ok (m, d) ∧
    (signature_length op m = Err e ∨
     m = CKM_RSA_PKCS_PSS ∧ ∃ mgf salt h, pss op = Some (mgf, salt, h) ∧ digest_for_hash_mechanism h = Err e).

(** The reasons an operation outlives a call. *)
Definition stays_active (op : SignatureOperation) (ptr : option (list Z)) (n cap : Z) (r : outcome Error unit)
    (o o' : Output) : Prop :=
  (r = Ok tt ∧ out_null o = true) ∨
  (r = Err #CKR_BUFFER_TOO_SMALL ∧ ∃ needed, cap < needed ∧ o' = set_out_len needed o) ∨
  (∃ e data, r = Err e ∧ o' = o ∧ from_raw_parts ptr n = Ok data ∧ unprepared op data e).

Lemma check_signature_input_runs (x : Ctx) k s op m required data :
  open_in x k s →
  check_signature_input k op m required data x = (Ok tt, x) ∨
  (∃ e, check_signature_input k op m required data x = (Err e, signature_ended k true s x)) ∨
  (∃ mgf salt h e, m = CKM_RSA_PKCS_PSS ∧ pss op = Some (mgf, salt, h) ∧ digest_for_hash_mechanism h = Err e ∧
     check_signature_input k op m required data x = (Err e, x)).
Proof.
  intros Ho. assert (∀ b e, end_signature_if k b e x = if b then (Err e, signature_ended k true s x) else (Ok tt, x)) as Hif.
  { intros [] e; unfold end_signature_if; [|done]. by rewrite sm_bind_unfold, (end_signature_open _ _ _ _ Ho). }
  assert (∀ h, digest_for_hash_mechanism h ≠ Panic) as Hd.
  { intros h. unfold digest_for_hash_mechanism. by repeat case_match. }
  unfold check_signature_input. do 3 (rewrite sm_bind_unfold, Hif;
    match goal with |- context [if ?b then (Err _, _) else _] => destruct b end; [right; left; by eexists|]).
  destruct (Z.eqb_spec m CKM_RSA_PKCS_PSS) as [->|_]; [|by left]. destruct (pss op) as [[[mgf salt] h]|] eqn:Ep.
  2:{ rewrite Hif. right. left. by eexists. }
  rewrite sm_bind_unfold. destruct (digest_for_hash_mechanism h) as [d|e|] eqn:Eh; cbn [sm_lift].
  - rewrite Hif. destruct (negb _); [right; left; by eexists|by left].
  - right. right. by exists mgf, salt, h, e.
  - by destruct (Hd h).
Qed.

(** From the use of the key on, the operation ends. *)
Lemma sign_delivery_life (x : Ctx) k s op ptr n cap m required d o :
  open_in x k s →
  let '(r, (y, o')) :=
    (let! bytes := sm_fst (end_signature_on_error k (compute_signature k op m required d)) in
     let! _ := sm_fst (end_signature_if k (negb (len bytes =? required)) #CKR_DEVICE_ERROR) in
     let! _ := copy_out bytes in
     let! _ := report_length required in
     sm_fst (end_signature k true)) (x, o) in
  r = Panic ∨ (∃ s', open_in y k s' ∧ ∀ op', sign_operation s' = Some op' → s' = s ∧ stays_active op ptr n cap r o o') ∧
    (r ≠ Ok tt → out_data o' = out_data o).
Proof.
  intros Ho. assert (∀ op', sign_operation (set_signature_operation true None s) = Some op' → False) as Hgone by done.
  rewrite sm_bind_unfold. unfold sm_fst at 1, end_signature_on_error. cbn [fst snd].
  destruct (slot_only_compute k op m required d x) as [b Hb].
  assert (open_in (with_slot b x) k s) as Hy by done. pose proof (signature_ended_open k true s _ Hy) as Hend.
  destruct (compute_signature k op m required d x) as [[bytes|e|] y]; cbn [snd] in Hb; subst y; [| |by left].
  - rewrite sm_bind_unfold. unfold sm_fst at 1, end_signature_if. cbn [fst snd]. destruct (negb _).
    + rewrite sm_bind_unfold. fold (with_slot b x). rewrite (end_signature_open _ _ _ true Hy). right.
      split; [|done]. eexists. split; [exact Hend|]. naive_solver.
    + cbn [sm_ret]. rewrite sm_bind_unfold. cbn [copy_out sm_modify fst snd]. rewrite sm_bind_unfold.
      cbn [sm_modify report_length fst snd]. unfold sm_fst. cbn [fst snd]. fold (with_slot b x).
      rewrite (end_signature_open _ _ _ true Hy). right. split; [|done]. eexists. split; [exact Hend|]. naive_solver.
  - rewrite sm_bind_unfold. fold (with_slot b x). rewrite (end_signature_open _ _ _ true Hy). right.
    split; [|done]. eexists. split; [exact Hend|]. naive_solver.
Qed.

Lemma sign_rest_life (x : Ctx) k s op ptr n data o cap :
  open_in x k s → sign_operation s = Some op → out_len o = Some cap → from_raw_parts ptr n = Ok data →
  let '(r, (y, o')) := sign_rest k op (message op data) (x, o) in
  r = Panic ∨ (∃ s', open_in y k s' ∧ ∀ op', sign_operation s' = Some op' → s' = s ∧ stays_active op ptr n cap r o o') ∧
    (r ≠ Ok tt → out_data o' = out_data o).
Proof.
  intros Ho Hop Hcap Hd. pose proof (signature_ended_open k true s x Ho) as Hend.
  assert (∀ op', sign_operation (set_signature_operation true None s) = Some op' → False) as Hgone by done.
  unfold sign_rest. rewrite sm_bind_unfold. destruct (message op data) as [[m d]|e|] eqn:Em; cbn [sm_lift]; [| |by left].
  2:{ right. split; [|done]. exists s. split; [done|]. intros op' _. split; [done|]. right. right.
      exists e, data. split_and!; try done. by left. }
  rewrite sm_bind_unfold. destruct (signature_length op m) as [required|e|] eqn:El; cbn [sm_lift]; [| |by left].
  2:{ right. split; [|done]. exists s. split; [done|]. intros op' _. split; [done|]. right. right.
      exists e, data. split_and!; try done. right. exists m, d. auto. }
  rewrite sm_bind_unfold. unfold sm_fst at 1. cbn [fst snd].
  destruct (check_signature_input_runs x k s op m required d Ho) as [-> | [[e ->] | (mgf & salt & h & e & Hm & Hp & Hh & ->)]].
  2:{ right. split; [|done]. eexists. split; [done|]. naive_solver. }
  2:{ right. split; [|done]. exists s. split; [done|]. intros op' _. split; [done|]. right. right.
      exists e, data. split_and!; try done. right. exists m, d. split; [done|]. right. eauto 10. }
  rewrite sm_bind_unfold. cbn. destruct (out_null o) eqn:En.
  { right. cbn. split; [|done]. exists s. split; [done|]. intros op' _. split; [done|]. by left. }
  unfold output_capacity. rewrite sm_bind_unfold, sm_bind_unfold. unfold sm_gets. cbn [snd]. rewrite Hcap. cbn [ok_or sm_lift].
  destruct (Z.ltb_spec cap required).
  { right. cbn. split; [|done]. exists s. split; [done|]. intros op' _. split; [done|]. right. left. split; [done|].
    by exists required. }
  by apply sign_delivery_life.
Qed.

(** the life of a signing operation. After [C_Sign] or [C_SignFinal] with a
    software, YubiHSM, PIV or OpenPGP key the session is still open, and the
    operation is gone unless the call only asked for the length, reported a too
    small buffer and the length it needs, or failed before the output was looked
    at (the mechanism or the length of the signature could not be established); then
    the session is as before. A call that does not succeed writes no byte of a
    signature. *)
Theorem sign_lifecycle (x : Ctx) k s op addr ptr n fin o cap :
  open_in x k s → sign_operation s = Some op → message_key (sign_key op) = true → out_len o = Some cap →
  let '(r, (y, o')) := sign_in k addr ptr n fin (x, o) in
  r = Panic ∨ (∃ s', open_in y k s' ∧ ∀ op', sign_operation s' = Some op' → s' = s ∧ stays_active op ptr n cap r o o') ∧
    (r ≠ Ok tt → out_data o' = out_data o).
Proof.
  intros Ho Hop Hk Hcap. pose proof (signature_ended_open k true s x Ho) as Hend.
  assert (∀ op', sign_operation (set_signature_operation true None s) = Some op' → False) as Hgone by done.
  destruct (sign_multipart op && negb fin) eqn:Hm.
  { unfold sign_in. rewrite sm_bind_unfold. unfold sm_fst at 1. cbn [fst snd].
    rewrite (get_session_context_open _ _ _ Ho), sm_bind_unfold, Hop. cbn [ok_or sm_lift].
    rewrite sm_bind_unfold. unfold sm_fst at 1, end_signature_if at 1. rewrite Hm. cbn [fst snd].
    rewrite sm_bind_unfold, (end_signature_open _ _ _ _ Ho). right. split; [|done]. eexists. split; [exact Hend|]. naive_solver. }
  destruct (sign_authorized_or_refused x op) as [Ha|[Hr Hl]].
  2:{ destruct (sign_in_refused x k s op addr ptr n fin o Ho Hop Hm Hr Hl) as (y & s' & -> & Hy & Hn & _). right. split; [|done]. exists s'. split; [done|]. by rewrite Hn. }
  destruct (from_raw_parts ptr n) as [data|e|] eqn:Ed.
  - rewrite (sign_in_run x k s op addr ptr n fin o data Ho Hop Hk Hm Ha Ed). by apply sign_rest_life.
  - unfold sign_in. rewrite sm_bind_unfold. unfold sm_fst at 1. cbn [fst snd].
    rewrite (get_session_context_open _ _ _ Ho), sm_bind_unfold, Hop. cbn [ok_or sm_lift].
    rewrite sm_bind_unfold. unfold sm_fst at 1, end_signature_if at 1. rewrite Hm. cbn [sm_ret fst snd].
    rewrite sm_bind_unfold. unfold sm_fst at 1. cbn [fst snd]. rewrite (require_signature_login_ok _ _ _ _ Ha).
    rewrite sm_bind_unfold. unfold sm_fst at 1, end_signature_on_error at 1. rewrite Ed. cbn [sm_lift fst snd].
    rewrite sm_bind_unfold, (end_signature_open _ _ _ _ Ho). right. split; [|done]. eexists. split; [exact Hend|]. naive_solver.
  - by apply from_raw_parts_returns in Ed.
Qed.

(** The error path that leaves an operation behind: when the length of the
    signature cannot be established, [C_Sign] fails and the operation is still
    there, with the session and the caller's output untouched. *)
Lemma unprepared_signature_stays_active (x : Ctx) k s op addr ptr n fin o data m d e :
  open_in x k s → sign_operation s = Some op → message_key (sign_key op) = true → sign_authorized x op →
  sign_multipart op && negb fin = false → from_raw_parts ptr n = Ok data →
  message op data = Ok (m, d) → signature_length op m = Err e →
  sign_in k addr ptr n fin (x, o) = (Err e, (x, o)).
Proof.
  intros Ho Hop Hk Ha Hm Hd Em El. rewrite (sign_in_run x k s op addr ptr n fin o data Ho Hop Hk Hm Ha Hd).
  unfold sign_rest. rewrite Em, sm_bind_unfold. cbn [sm_lift]. rewrite sm_bind_unfold, El. done.
Qed.
End safety.

(** ** Witnesses *)

(** Too little room for a MAC of 32 bytes. *)
Lemma sign_lifecycle_witness :
  ∃ y o', sign_in 1 0 (Some [1; 2; 3]) 3 false (toy_signing, mkOutput false (Some 31) [])
            = (Err #CKR_BUFFER_TOO_SMALL, (y, o')) ∧
    (∃ s', open_in y 1 s' ∧ ∀ op', sign_operation s' = Some op' → s' = toy_signing_session) ∧ out_data o' = [].
Proof.
  pose proof (sign_lifecycle toy_signing 1 toy_signing_session toy_signature_operation 0 (Some [1; 2; 3]) 3 false
    (mkOutput false (Some 31) []) 31 toy_signing_open eq_refl eq_refl eq_refl) as Hl.
  destruct (sign_in 1 0 (Some [1; 2; 3]) 3 false _) as [r [y o']] eqn:E.
  assert (r = Err #CKR_BUFFER_TOO_SMALL) as ->.
  { apply (f_equal fst) in E. vm_compute in E. by rewrite <-E. }
  exists y, o'. split; [done|]. destruct Hl as [?|[(s' & Hs & Hop) Hd]]; [done|]. split; [|by apply Hd].
  exists s'. split; [done|]. intros op' E'. by apply Hop in E' as [-> _].
Defined.

Definition toy_signing_out : SlotContext ToyBackend MemoryStorageProvider :=
  mkContext (slot toy_signing) (set_role None (state toy_signing)) (handles toy_signing).
Lemma logged_out_key_never_signs_witness :
  (∃ y, sign_in 1 0 (Some [1; 2; 3]) 3 false (toy_signing_out, toy_out) = (Err #CKR_USER_NOT_LOGGED_IN, (y, toy_out))) ∧
  (∃ y, verify_in 1 (Some [1; 2; 3]) 3 (Some [86; 19]) 2 false toy_signing_out = (Err #CKR_USER_NOT_LOGGED_IN, y)).
Proof.
  destruct (logged_out_key_never_signs toy_signing_out 1 toy_signing_session toy_signature_operation false) as [Hs Hv].
  - by split; vm_compute.
  - done.
  - done.
  - done.
  - split.
    + destruct (Hs eq_refl 0 (Some [1; 2; 3]) 3 toy_out) as (y & _ & E & _). by exists y.
    + destruct (Hv eq_refl (Some [1; 2; 3]) 3 (Some [86; 19]) 2) as (y & _ & E & _). by exists y.
Defined.

(** An RSA key of a PIV card whose object has no public key. *)
Definition toy_piv_operation : SignatureOperation :=
  toy_op CKM_RSA_PKCS (PivPrivate 0x9c Rsa2048 0 0) false None.
Definition toy_piv_session : SessionContext :=
  set_signature_operation true (Some toy_piv_operation) (SessionContext_new (mkBackendSession 0 6)).
Definition toy_piv : SlotContext ToyBackend MemoryStorageProvider := put_session 1 toy_piv_session toy_start.
Lemma unprepared_signature_witness :
  sign_in 1 0 (Some [1; 2; 3]) 3 false (toy_piv, toy_out) = (Err #CKR_KEY_TYPE_INCONSISTENT, (toy_piv, toy_out)) ∧
  open_in toy_piv 1 toy_piv_session ∧ sign_operation toy_piv_session = Some toy_piv_operation.
Proof.
  split; [|by split_and!; split; vm_compute].
  apply (unprepared_signature_stays_active toy_piv 1 toy_piv_session toy_piv_operation 0 (Some [1; 2; 3]) 3 false toy_out
    [1; 2; 3] CKM_RSA_PKCS [1; 2; 3]); try done.
Defined.
