(* ===== verification/Attributes.v ===== *)
(** * Attributes: what an object shows of itself

    Models the attribute code of [src/src/object.rs]: which attributes an object
    has, which of them are sensitive, their values, the encodings of public keys,
    the object's size and the changes an application may make.

    Keys of [software-key-core], the X.509 decoder and the records of
    [preview_sign.rs] are the classes [KeyCore], [Certificates] and
    [PreviewSignRecords]. The values a card is asked for only when they are read
    (attestation certificates, OpenPGP data) live in shared cells of the backend:
    the class [LazyCells]. *)
From S2P Require Import Prelude Errors Storage Mechanisms AttributeTypes KeyMetadata YubiHsm SlotState SessionApi CryptApi Digests CipherModes Ciphers SignatureModes OathOtp HsmCapabilities PivTables.

(** ** Interfaces *)

(** [MontgomeryCurve] of [software-key-core]. *)
Inductive MontgomeryCurve : Type := MontgomeryX25519 | MontgomeryX448.

(** The accessors of software keys and the encoders of [post_quantum]. *)
Class KeyCore : Type := {
  signing_private_value : SoftwarePrivateKeyMaterial → option (list Z);
  rsa_private_components : SoftwarePrivateKeyMaterial → option (list (list Z));
  ml_dsa_key_seed : MlDsaParameterSet → list Z → option (list Z);
  montgomery_curve : list Z → MontgomeryCurve;
  montgomery_public_key : list Z → list Z;
  montgomery_serialized : list Z → list Z;
  ml_kem_parameter_set : list Z → MlKemParameterSet;
  ml_kem_public_key : list Z → list Z;
  ml_kem_expanded_private_key : list Z → list Z;
  ml_kem_key_seed : list Z → option (list Z);
  hybrid_public_key : HybridKemConstruction → list Z → option (list Z);
  hybrid_key_seed : HybridKemConstruction → list Z → list Z;
  ml_kem_public_key_length : MlKemParameterSet → Z;
  hybrid_public_key_length : HybridKemConstruction → Z;
  validate_ml_dsa_public_key : MlDsaParameterSet → list Z → bool;
  shared_ml_dsa_public_key_info : MlDsaParameterSet → list Z → option (list Z);
  shared_ml_kem_public_key_info : MlKemParameterSet → list Z → option (list Z);
}.

(** [x509_cert::Certificate::from_der] and the fields of what it decodes;
    [cert_to_der] encodes the decoded certificate again. *)
Class Certificates : Type := {
  cert_valid : list Z → bool;
  cert_to_der : list Z → option (list Z);
  cert_subject : list Z → option (list Z);
  cert_issuer : list Z → option (list Z);
  cert_serial_number : list Z → option (list Z);
  parsed_public_key_info : list Z → option (list Z);
}.

Class PreviewSignRecords : Type := {
  registration_to_cbor : PreviewSignRegistration → option (list Z);
  derived_to_cbor : option (list Z) → list Z → option (list Z);
}.

Inductive LazyCache : Type := Unattempted | Missing | CachedValue (value : list Z).

(** The shared cells, and the commands whose answers they keep:
    [PivClient::attestation], the attestation command of a YubiHSM session and
    [OpenPgpClient::get_data]. [piv_certificate_usable] is the check of an
    attestation certificate against the algorithm of its key. *)
Class LazyCells (B : Type) : Type := {
  read_cell : Z → B → LazyCache;
  write_cell : Z → LazyCache → B → B;
  piv_attestation : Z → SM B Error (list Z);
  yubihsm_sign_attestation : Z → SM B Error (list Z);
  openpgp_get_data : Z → SM B Error (list Z);
  piv_certificate_usable : PivAlgorithm → list Z → bool;
}.

Definition is_unattempted (c : LazyCache) : bool := match c with Unattempted => true | _ => false end.
Definition cache_value (c : LazyCache) : option (list Z) :=
  match c with
  | CachedValue v => Some v
  | Unattempted | Missing => None
  end.

(** ** Encodings *)

Definition ulong_attribute (value : Z) : list Z := ne_bytes 8 value.
Definition bool_attribute (value : bool) : list Z := [if value then 1 else 0].

(** The bytes from the first one that is not zero, at least [n] of them. *)
Fixpoint significant (n : nat) (l : list Z) : list Z :=
  match l with
  | 0 :: rest => if decide (length rest < n)%nat then l else significant n rest
  | _ => l
  end.

Definition der_tlv (tag : Z) (value : list Z) : list Z :=
  tag
  :: (if len value <? 128 then [len value]
      else let length := significant 1 (be_bytes 8 (len value)) in Z.lor 0x80 (len length) :: length)
  ++ value.

Definition der_integer (magnitude : list Z) : list Z :=
  let magnitude := significant 0 magnitude in
  der_tlv 0x02 (match magnitude with
                | [] => [0]
                | b :: _ => if has_flag b 0x80 then 0 :: magnitude else magnitude
                end).

Definition der_octet_string (value : list Z) : option (list Z) :=
  if len value <? 128 then Some (0x04 :: len value :: value)
  else if len value <=? 255 then Some (0x04 :: 0x81 :: len value :: value)
  else None.

Definition piv_object_tag (object_id : Z) : list Z := significant 1 (be32 object_id).

(** ** Public keys *)

Definition RSA_ALGORITHM_IDENTIFIER : list Z :=
  [0x30; 0x0d; 0x06; 0x09; 0x2a; 0x86; 0x48; 0x86; 0xf7; 0x0d; 0x01; 0x01; 0x01; 0x05; 0x00].
Definition EC_PUBLIC_KEY_OID : list Z := [0x06; 0x07; 0x2a; 0x86; 0x48; 0xce; 0x3d; 0x02; 0x01].

(** A [SubjectPublicKeyInfo]: the algorithm and the key as a bit string. *)
Definition key_info (algorithm subject_public_key : list Z) : list Z :=
  der_tlv 0x30 (algorithm ++ der_tlv 0x03 (0 :: subject_public_key)).

Definition rsa_public_key_info (modulus public_exponent : list Z) : option (list Z) :=
  match modulus, public_exponent with
  | _ :: _, _ :: _ =>
      Some (key_info RSA_ALGORITHM_IDENTIFIER
              (der_tlv 0x30 (der_integer modulus ++ der_integer public_exponent)))
  | _, _ => None
  end.

Definition montgomery_curve_parameters (curve : MontgomeryCurve) : list Z :=
  match curve with
  | MontgomeryX25519 => [0x06; 0x03; 0x2b; 0x65; 0x6e]
  | MontgomeryX448 => [0x06; 0x03; 0x2b; 0x65; 0x6f]
  end.
(** [piv_ec_parameters(X25519)] *)
Definition PIV_X25519_PARAMETERS : list Z :=
  [0x13; 0x0a; 0x63; 0x75; 0x72; 0x76; 0x65; 0x32; 0x35; 0x35; 0x31; 0x39].

(** [openpgp::Curve]: the identifier as the card writes it, and as an encoded
    [CKA_EC_PARAMS]. *)
Definition curve_identifier (c : OpenPgpCurve) : list Z :=
  match c with
  | PgpP256 => [0x2a; 0x86; 0x48; 0xce; 0x3d; 0x03; 0x01; 0x07]
  | PgpP384 => [0x2b; 0x81; 0x04; 0x00; 0x22]
  | PgpP521 => [0x2b; 0x81; 0x04; 0x00; 0x23]
  | PgpBrainpoolP256 => [0x2b; 0x24; 0x03; 0x03; 0x02; 0x08; 0x01; 0x01; 0x07]
  | PgpBrainpoolP384 => [0x2b; 0x24; 0x03; 0x03; 0x02; 0x08; 0x01; 0x01; 0x0b]
  | PgpBrainpoolP512 => [0x2b; 0x24; 0x03; 0x03; 0x02; 0x08; 0x01; 0x01; 0x0d]
  | PgpSecp256k1 => [0x2b; 0x81; 0x04; 0x00; 0x0a]
  | PgpCurveEd25519 => [0x2b; 0x06; 0x01; 0x04; 0x01; 0xda; 0x47; 0x0f; 0x01]
  | PgpCurveX25519 => [0x2b; 0x06; 0x01; 0x04; 0x01; 0x97; 0x55; 0x01; 0x05; 0x01]
  end.
Definition ALL_CURVES : list OpenPgpCurve :=
  [PgpP256; PgpP384; PgpP521; PgpBrainpoolP256; PgpBrainpoolP384; PgpBrainpoolP512; PgpSecp256k1;
   PgpCurveEd25519; PgpCurveX25519].
Definition curve_from_oid (oid : list Z) : option OpenPgpCurve :=
  List.find (λ c, bool_decide (oid = curve_identifier c)) ALL_CURVES.
Definition curve_oid (c : OpenPgpCurve) : list Z :=
  match c with
  | PgpP256 => [0x06; 0x08; 0x2a; 0x86; 0x48; 0xce; 0x3d; 0x03; 0x01; 0x07]
  | PgpP384 => [0x06; 0x05; 0x2b; 0x81; 0x04; 0x00; 0x22]
  | PgpP521 => [0x06; 0x05; 0x2b; 0x81; 0x04; 0x00; 0x23]
  | PgpBrainpoolP256 => [0x06; 0x09; 0x2b; 0x24; 0x03; 0x03; 0x02; 0x08; 0x01; 0x01; 0x07]
  | PgpBrainpoolP384 => [0x06; 0x09; 0x2b; 0x24; 0x03; 0x03; 0x02; 0x08; 0x01; 0x01; 0x0b]
  | PgpBrainpoolP512 => [0x06; 0x09; 0x2b; 0x24; 0x03; 0x03; 0x02; 0x08; 0x01; 0x01; 0x0d]
  | PgpSecp256k1 => [0x06; 0x05; 0x2b; 0x81; 0x04; 0x00; 0x0a]
  | PgpCurveEd25519 => [0x06; 0x08; 0x2b; 0x06; 0x01; 0x04; 0x01; 0xda; 0x47; 0x0f; 0x01]
  | PgpCurveX25519 => [0x06; 0x09; 0x2b; 0x06; 0x01; 0x04; 0x01; 0x97; 0x55; 0x01; 0x05; 0x01]
  end.

Definition montgomery_curve_from_parameters (parameters : list Z) : outcome Error MontgomeryCurve :=
  if bool_decide (parameters = montgomery_curve_parameters MontgomeryX25519)
     || bool_decide (parameters = PIV_X25519_PARAMETERS)
     || bool_decide (parameters = curve_oid PgpCurveX25519) then Ok MontgomeryX25519
  else if bool_decide (parameters = montgomery_curve_parameters MontgomeryX448) then Ok MontgomeryX448
  else Err #CKR_KEY_TYPE_INCONSISTENT.

(** [result.ok()] *)
Definition ok {E A} (c : outcome E A) : option A := match c with Ok a => Some a | _ => None end.

Definition ec_public_key_info (key_type : Z) (parameters public_key : list Z) : option (list Z) :=
  match public_key with
  | [] => None
  | _ =>
      if key_type =? CKK_EC then
        Some (key_info (der_tlv 0x30 (EC_PUBLIC_KEY_OID ++ parameters)) (0x04 :: public_key))
      else if key_type =? CKK_EC_EDWARDS then
        c ← ok (edwards_curve_from_parameters parameters);
        Some (key_info (der_tlv 0x30 (edwards_curve_parameters c)) public_key)
      else if key_type =? CKK_EC_MONTGOMERY then
        c ← ok (montgomery_curve_from_parameters parameters);
        Some (key_info (der_tlv 0x30 (montgomery_curve_parameters c)) public_key)
      else None
  end.

Definition hybrid_suffix (c : HybridKemConstruction) : Z :=
  match c with MlKem768P256 => 1 | MlKem768X25519 => 2 | MlKem1024P384 => 3 end.

Section public_keys.
Context `{KeyCore}.

Definition ml_dsa_public_key_info (parameter_set : Z) (public_key : list Z) : option (list Z) :=
  if parameter_set =? CKP_ML_DSA_44 then shared_ml_dsa_public_key_info SetMlDsa44 public_key
  else if parameter_set =? CKP_ML_DSA_65 then shared_ml_dsa_public_key_info SetMlDsa65 public_key
  else if parameter_set =? CKP_ML_DSA_87 then shared_ml_dsa_public_key_info SetMlDsa87 public_key
  else None.
Definition ml_kem_public_key_info (parameter_set : Z) (public_key : list Z) : option (list Z) :=
  if parameter_set =? CKP_ML_KEM_512 then shared_ml_kem_public_key_info SetMlKem512 public_key
  else if parameter_set =? CKP_ML_KEM_768 then shared_ml_kem_public_key_info SetMlKem768 public_key
  else if parameter_set =? CKP_ML_KEM_1024 then shared_ml_kem_public_key_info SetMlKem1024 public_key
  else None.
Definition hybrid_kem_public_key_info (c : HybridKemConstruction) (public_key : list Z) : option (list Z) :=
  if negb (len public_key =? hybrid_public_key_length c) then None
  else Some (key_info (der_tlv 0x30 [0x06; 0x0a; 0x2b; 0x06; 0x01; 0x04; 0x01; 0x82; 0xc4; 0x0a; 0x0a; hybrid_suffix c])
               public_key).
End public_keys.

(** ** Certificates *)

Section certificates.
Context `{Certificates, HashCore}.

Definition decode_certificate (encoded : list Z) : option (list Z) :=
  canonical ← cert_to_der encoded;
  if bool_decide (canonical = encoded) then Some canonical else None.
Definition certificate_decode (encoded : list Z) : outcome Error (list Z) :=
  ok_or #CKR_ARGUMENTS_BAD (decode_certificate encoded).
Definition subject (encoded : list Z) : outcome Error (list Z) := ok_or #CKR_ARGUMENTS_BAD (cert_subject encoded).
Definition issuer (encoded : list Z) : outcome Error (list Z) := ok_or #CKR_ARGUMENTS_BAD (cert_issuer encoded).
Definition serial_number (encoded : list Z) : outcome Error (list Z) :=
  ok_or #CKR_ARGUMENTS_BAD (cert_serial_number encoded).
Definition certificate_public_key_info (encoded : list Z) : outcome Error (list Z) :=
  let? canonical := certificate_decode encoded in
  ok_or #CKR_ARGUMENTS_BAD (parsed_public_key_info canonical).
Definition certificate_validate (encoded : list Z) : outcome Error unit :=
  if cert_valid encoded then Ok tt else Err #CKR_ARGUMENTS_BAD.

Definition piv_certificate_attribute (value : list Z) (t : Z) : option (list Z) :=
  if t =? CKA_VALUE then Some value
  else if t =? CKA_CERTIFICATE_TYPE then Some (ulong_attribute CKC_X_509)
  else if t =? CKA_TRUSTED then Some (bool_attribute false)
  else if t =? CKA_CERTIFICATE_CATEGORY then Some (ulong_attribute CK_CERTIFICATE_CATEGORY_UNSPECIFIED)
  else if t =? CKA_CHECK_VALUE then Some (ztake 3 (hash HashSha1 value))
  else if one_of [CKA_START_DATE; CKA_END_DATE; CKA_URL; CKA_HASH_OF_SUBJECT_PUBLIC_KEY;
                  CKA_HASH_OF_ISSUER_PUBLIC_KEY] t then Some []
  else if t =? CKA_SUBJECT then ok (subject value)
  else if t =? CKA_ISSUER then ok (issuer value)
  else if t =? CKA_SERIAL_NUMBER then der_integer <$> ok (serial_number value)
  else if t =? CKA_PUBLIC_KEY_INFO then ok (certificate_public_key_info value)
  else if t =? CKA_JAVA_MIDP_SECURITY_DOMAIN then Some (ulong_attribute CK_SECURITY_DOMAIN_UNSPECIFIED)
  else if t =? CKA_NAME_HASH_ALGORITHM then Some (ulong_attribute CKM_SHA_1)
  else None.
End certificates.

Definition is_certificate_attribute (t : Z) : bool :=
  one_of [CKA_VALUE; CKA_CERTIFICATE_CATEGORY; CKA_CHECK_VALUE; CKA_SUBJECT; CKA_ISSUER; CKA_SERIAL_NUMBER;
          CKA_PUBLIC_KEY_INFO] t.

(** ** Which attributes there are *)

Definition is_common_storage_attribute (t : Z) : bool :=
  one_of [CKA_CLASS; CKA_TOKEN; CKA_PRIVATE; CKA_MODIFIABLE; CKA_LABEL; CKA_COPYABLE; CKA_DESTROYABLE;
          CKA_UNIQUE_ID] t.
Definition is_common_key_attribute (t : Z) : bool :=
  one_of [CKA_KEY_TYPE; CKA_ID; CKA_START_DATE; CKA_END_DATE; CKA_DERIVE; CKA_LOCAL; CKA_KEY_GEN_MECHANISM;
          CKA_ALLOWED_MECHANISMS; CKA_OBJECT_VALIDATION_FLAGS] t.
Definition is_common_public_key_attribute (t : Z) : bool :=
  one_of [CKA_SUBJECT; CKA_ENCRYPT; CKA_VERIFY; CKA_VERIFY_RECOVER; CKA_WRAP; CKA_ENCAPSULATE; CKA_TRUSTED;
          CKA_WRAP_TEMPLATE; CKA_PUBLIC_KEY_INFO; CKA_PUBLIC_CRC64_VALUE] t.
Definition is_common_private_key_attribute (t : Z) : bool :=
  one_of [CKA_SUBJECT; CKA_SENSITIVE; CKA_DECRYPT; CKA_SIGN; CKA_SIGN_RECOVER; CKA_UNWRAP; CKA_DECAPSULATE;
          CKA_EXTRACTABLE; CKA_ALWAYS_SENSITIVE; CKA_NEVER_EXTRACTABLE; CKA_WRAP_WITH_TRUSTED;
          CKA_UNWRAP_TEMPLATE; CKA_ALWAYS_AUTHENTICATE; CKA_PUBLIC_KEY_INFO; CKA_DERIVE_TEMPLATE;
          CKA_PUBLIC_CRC64_VALUE] t.
Definition is_common_secret_key_attribute (t : Z) : bool :=
  one_of [CKA_SENSITIVE; CKA_ENCRYPT; CKA_DECRYPT; CKA_SIGN; CKA_VERIFY; CKA_WRAP; CKA_UNWRAP;
          CKA_EXTRACTABLE; CKA_ALWAYS_SENSITIVE; CKA_NEVER_EXTRACTABLE; CKA_CHECK_VALUE;
          CKA_WRAP_WITH_TRUSTED; CKA_TRUSTED; CKA_WRAP_TEMPLATE; CKA_UNWRAP_TEMPLATE; CKA_DERIVE_TEMPLATE;
          CKA_VALUE_LEN] t.
Definition is_x509_certificate_attribute (t : Z) : bool :=
  one_of [CKA_CERTIFICATE_TYPE; CKA_TRUSTED; CKA_CERTIFICATE_CATEGORY; CKA_CHECK_VALUE; CKA_START_DATE;
          CKA_END_DATE; CKA_PUBLIC_KEY_INFO; CKA_SUBJECT; CKA_ID; CKA_ISSUER; CKA_SERIAL_NUMBER; CKA_VALUE;
          CKA_URL; CKA_HASH_OF_SUBJECT_PUBLIC_KEY; CKA_HASH_OF_ISSUER_PUBLIC_KEY;
          CKA_JAVA_MIDP_SECURITY_DOMAIN; CKA_NAME_HASH_ALGORITHM] t.
Definition is_rsa_public_attribute (t : Z) : bool :=
  one_of [CKA_MODULUS; CKA_MODULUS_BITS; CKA_PUBLIC_EXPONENT] t.
Definition is_rsa_private_attribute (t : Z) : bool :=
  one_of [CKA_MODULUS; CKA_PUBLIC_EXPONENT; CKA_PRIVATE_EXPONENT; CKA_PRIME_1; CKA_PRIME_2; CKA_EXPONENT_1;
          CKA_EXPONENT_2; CKA_COEFFICIENT] t.
Definition is_ec_public_attribute (t : Z) : bool :=
  one_of [CKA_EC_PARAMS; CKA_EC_POINT] t.
Definition is_ec_private_attribute (t : Z) : bool :=
  one_of [CKA_EC_PARAMS; CKA_VALUE] t.
Definition is_ml_dsa_public_attribute (t : Z) : bool :=
  one_of [CKA_PARAMETER_SET; CKA_VALUE] t.
Definition is_ml_dsa_private_attribute (t : Z) : bool :=
  one_of [CKA_PARAMETER_SET; CKA_SEED; CKA_VALUE] t.
Definition is_ml_kem_public_attribute (t : Z) : bool :=
  one_of [CKA_PARAMETER_SET; CKA_VALUE] t.
Definition is_ml_kem_private_attribute (t : Z) : bool :=
  one_of [CKA_PARAMETER_SET; CKA_SEED; CKA_VALUE] t.
Definition is_hybrid_kem_key_type (key_type : Z) : bool :=
  one_of [CKK_PKCS11RS_MLKEM768_P256; CKK_PKCS11RS_MLKEM768_X25519; CKK_PKCS11RS_MLKEM1024_P384] key_type.
Definition PKCS11_OBJECT_ATTRIBUTE_TYPES : list Z :=
  [CKA_OTP_FORMAT; CKA_OTP_LENGTH; CKA_OTP_TIME_INTERVAL; CKA_OTP_USER_FRIENDLY_MODE;
   CKA_OTP_CHALLENGE_REQUIREMENT; CKA_OTP_TIME_REQUIREMENT; CKA_OTP_COUNTER_REQUIREMENT;
   CKA_OTP_PIN_REQUIREMENT; CKA_CLASS; CKA_TOKEN; CKA_PRIVATE; CKA_MODIFIABLE; CKA_LABEL;
   CKA_COPYABLE; CKA_DESTROYABLE; CKA_UNIQUE_ID; CKA_APPLICATION; CKA_OBJECT_ID; CKA_VALUE;
   CKA_CERTIFICATE_TYPE; CKA_TRUSTED; CKA_CERTIFICATE_CATEGORY; CKA_CHECK_VALUE; CKA_START_DATE;
   CKA_END_DATE; CKA_PUBLIC_KEY_INFO; CKA_SUBJECT; CKA_ID; CKA_ISSUER; CKA_SERIAL_NUMBER; CKA_URL;
   CKA_HASH_OF_SUBJECT_PUBLIC_KEY; CKA_HASH_OF_ISSUER_PUBLIC_KEY; CKA_JAVA_MIDP_SECURITY_DOMAIN;
   CKA_NAME_HASH_ALGORITHM; CKA_PROFILE_ID; CKA_KEY_TYPE; CKA_DERIVE; CKA_LOCAL;
   CKA_KEY_GEN_MECHANISM; CKA_ALLOWED_MECHANISMS; CKA_OBJECT_VALIDATION_FLAGS; CKA_ENCRYPT;
   CKA_VERIFY; CKA_VERIFY_RECOVER; CKA_WRAP; CKA_ENCAPSULATE; CKA_WRAP_TEMPLATE;
   CKA_PUBLIC_CRC64_VALUE; CKA_SENSITIVE; CKA_DECRYPT; CKA_SIGN; CKA_SIGN_RECOVER; CKA_UNWRAP;
   CKA_DECAPSULATE; CKA_EXTRACTABLE; CKA_ALWAYS_SENSITIVE; CKA_NEVER_EXTRACTABLE;
   CKA_WRAP_WITH_TRUSTED; CKA_UNWRAP_TEMPLATE; CKA_ALWAYS_AUTHENTICATE; CKA_DERIVE_TEMPLATE;
   CKA_MODULUS; CKA_MODULUS_BITS; CKA_PUBLIC_EXPONENT; CKA_PRIVATE_EXPONENT; CKA_PRIME_1; CKA_PRIME_2;
   CKA_EXPONENT_1; CKA_EXPONENT_2; CKA_COEFFICIENT; CKA_EC_PARAMS; CKA_EC_POINT; CKA_PARAMETER_SET;
   CKA_SEED; CKA_VALUE_LEN].
(** [oath::supports_attribute] and [oath::attribute] *)
Definition oath_supports_attribute (t : Z) : bool :=
  one_of [CKA_CLASS; CKA_TOKEN; CKA_PRIVATE; CKA_LABEL; CKA_UNIQUE_ID; CKA_MODIFIABLE; CKA_COPYABLE;
          CKA_DESTROYABLE; CKA_KEY_TYPE; CKA_ID; CKA_SIGN; CKA_VERIFY; CKA_ENCRYPT; CKA_DECRYPT; CKA_DERIVE;
          CKA_WRAP; CKA_UNWRAP; CKA_SENSITIVE; CKA_EXTRACTABLE; CKA_ALWAYS_SENSITIVE; CKA_NEVER_EXTRACTABLE;
          CKA_LOCAL; CKA_ALLOWED_MECHANISMS; CKA_VALUE; CKA_OTP_FORMAT; CKA_OTP_LENGTH;
          CKA_OTP_TIME_INTERVAL; CKA_OTP_USER_FRIENDLY_MODE; CKA_OTP_CHALLENGE_REQUIREMENT;
          CKA_OTP_TIME_REQUIREMENT; CKA_OTP_COUNTER_REQUIREMENT; CKA_OTP_PIN_REQUIREMENT; CKA_ATTR_TYPES] t
  || (t =? CKA_PKCS11RS_OATH_HASH) || (t =? CKA_PKCS11RS_OATH_TOUCH_REQUIRED) || (t =? CKA_PKCS11RS_URI).
Definition CK_OTP_PARAM_IGNORED : Z := 0.
Definition CK_OTP_PARAM_OPTIONAL : Z := 1.
Definition oath_attribute (c : Credential) (t : Z) : option (list Z) :=
  if t =? CKA_DESTROYABLE then Some [1]
  else if t =? CKA_OTP_FORMAT then Some (ulong_attribute CK_OTP_FORMAT_DECIMAL)
  else if t =? CKA_OTP_LENGTH then Some (ulong_attribute (default CK_UNAVAILABLE_INFORMATION (cred_digits c)))
  else if t =? CKA_OTP_TIME_INTERVAL then Some (ulong_attribute (cred_period c))
  else if t =? CKA_OTP_USER_FRIENDLY_MODE then Some [1]
  else if t =? CKA_OTP_TIME_REQUIREMENT then
    Some (ulong_attribute (if cred_totp c then CK_OTP_PARAM_OPTIONAL else CK_OTP_PARAM_IGNORED))
  else if one_of [CKA_OTP_CHALLENGE_REQUIREMENT; CKA_OTP_COUNTER_REQUIREMENT; CKA_OTP_PIN_REQUIREMENT] t then
    Some (ulong_attribute CK_OTP_PARAM_IGNORED)
  else if t =? CKA_PKCS11RS_OATH_HASH then Some (ulong_attribute (Credential_hash_mechanism c))
  else if t =? CKA_PKCS11RS_OATH_TOUCH_REQUIRED then bool_attribute <$> cred_touch c
  else None.

(** *** The object's own tests *)

(** The fields that only attributes show, as fields of the object. *)
Definition o_label (o : TokenObject) := obj_label (attributes o).
Definition o_id (o : TokenObject) := obj_id (attributes o).
Definition o_sensitive (o : TokenObject) := sensitive (attributes o).
Definition o_extractable (o : TokenObject) := extractable (attributes o).

Definition is_key_object (o : TokenObject) : bool :=
  one_of [CKO_PUBLIC_KEY; CKO_OTP_KEY; CKO_PRIVATE_KEY; CKO_SECRET_KEY] (class o).
Definition has_sensitive_attributes (o : TokenObject) : bool :=
  one_of [CKO_PRIVATE_KEY; CKO_OTP_KEY; CKO_SECRET_KEY] (class o).
Definition is_certificate_object (o : TokenObject) : bool := class o =? CKO_CERTIFICATE.

(** [yubihsm_capabilities_to_attributes] of a device object. *)
Definition device_usages (m : KeyMaterial) : option YubiHsmPkcs11Attributes :=
  match m with
  | YubiHsm _ object_type algorithm _ info =>
      Some (yubihsm_capabilities_to_attributes object_type algorithm (capabilities info))
  | _ => None
  end.
Definition can_wrap (o : TokenObject) : bool :=
  wrap (attributes o) || default false (u_wrap <$> device_usages (material o)).
Definition can_unwrap (o : TokenObject) : bool :=
  unwrap (attributes o) || default false (u_unwrap <$> device_usages (material o)).

Definition is_nonextractable_key_object (o : TokenObject) : bool :=
  one_of [CKO_PRIVATE_KEY; CKO_SECRET_KEY] (class o)
  && match material o with
     | SoftwarePrivate _ | SoftwareSecret _ | YubiHsmSessionObject _ _ => false
     | YubiHsm _ _ _ _ info => negb (yubihsm_capability (capabilities info) 0x10)
     | _ => true
     end.

Definition is_yubihsm_opaque (o : TokenObject) : bool :=
  match material o with YubiHsm _ object_type _ _ _ => object_type =? YUBIHSM_OPAQUE | _ => false end.
Definition is_yubihsm_public_projection (o : TokenObject) : bool :=
  match material o with
  | YubiHsm _ object_type _ _ _ => one_of [YUBIHSM_PUBLIC_KEY; YUBIHSM_WRAP_KEY_PUBLIC] object_type
  | _ => false
  end.

Definition is_immutable_object (o : TokenObject) : bool :=
  match material o with
  | Profile _ | OathCredential _ | PlatformPrivate _ | PivPrivate _ _ _ _ | PivCertificate _ _ _
  | PivAttestation _ _ _ | PivData _ _ | OpenPgpPrivate _ _ _ _ | OpenPgpCertificate _ | OpenPgpData _ _
  | IssuerSecurityDomainData _ _ _ | IssuerSecurityDomainCertificate _ | FidoCredential _ _
  | FidoResidentPrivate _ | HsmAuthCredential _ _ _ | YubiHsmAttestation _ _ _ => true
  | _ => false
  end.

Definition policy_template (t : Z) (o : TokenObject) : option KeyAttributes :=
  let templates := policy_templates (attributes o) in
  if t =? CKA_WRAP_TEMPLATE then policy_wrap templates
  else if t =? CKA_UNWRAP_TEMPLATE then policy_unwrap templates
  else if t =? CKA_DERIVE_TEMPLATE then policy_derive templates
  else None.

(** *** Supported and sensitive attributes *)

Definition supports_compatibility_attribute (o : TokenObject) (t : Z) : bool :=
  (class o =? CKO_SECRET_KEY) && (t =? CKA_VERIFY_RECOVER).

Definition supports_vendor_attribute (o : TokenObject) (t : Z) : bool :=
  if t =? CKA_PKCS11RS_URI then true
  else if t =? CKA_PKCS11RS_FIDO_RP_ID then is_some (rp_id o)
  else match material o with
       | PivData _ _ => t =? CKA_PKCS11RS_PIV_OBJECT_TAG
       | PivPrivate _ _ _ _ => (t =? CKA_YUBICO_TOUCH_POLICY) || (t =? CKA_YUBICO_PIN_POLICY)
       | OpenPgpPrivate _ _ _ _ => t =? CKA_YUBICO_TOUCH_POLICY
       | HsmAuthCredential _ _ _ => one_of [CKA_YUBICO_HSMAUTH_RETRIES; CKA_YUBICO_HSMAUTH_TOUCH_REQUIRED] t
       | PreviewSignRegistered _ _ => t =? CKA_PKCS11RS_PREVIEW_SIGN_REGISTRATION
       | PreviewSignDerived _ _ _ =>
           one_of [CKA_PKCS11RS_PREVIEW_SIGN_REGISTRATION; CKA_PKCS11RS_PREVIEW_SIGN_DERIVED_KEY] t
       | _ => false
       end.

(** The attributes of a key by its type. *)
Definition public_key_attribute (key_type t : Z) : bool :=
  if key_type =? CKK_RSA then is_rsa_public_attribute t
  else if one_of [CKK_EC; CKK_EC_EDWARDS; CKK_EC_MONTGOMERY] key_type then is_ec_public_attribute t
  else if key_type =? CKK_ML_DSA then is_ml_dsa_public_attribute t
  else if key_type =? CKK_ML_KEM then is_ml_kem_public_attribute t
  else if is_hybrid_kem_key_type key_type then t =? CKA_VALUE
  else false.
Definition private_key_attribute (key_type t : Z) : bool :=
  if key_type =? CKK_RSA then is_rsa_private_attribute t
  else if one_of [CKK_EC; CKK_EC_EDWARDS; CKK_EC_MONTGOMERY] key_type then is_ec_private_attribute t
  else if key_type =? CKK_ML_DSA then is_ml_dsa_private_attribute t
  else if key_type =? CKK_ML_KEM then is_ml_kem_private_attribute t
  else if is_hybrid_kem_key_type key_type then (t =? CKA_VALUE) || (t =? CKA_SEED)
  else false.

Definition standard_attribute (o : TokenObject) (t : Z) : bool :=
  if class o =? CKO_DATA then one_of [CKA_APPLICATION; CKA_OBJECT_ID; CKA_VALUE] t
  else if class o =? CKO_CERTIFICATE then is_x509_certificate_attribute t
  else if class o =? CKO_PROFILE then t =? CKA_PROFILE_ID
  else if class o =? CKO_PUBLIC_KEY then
    is_common_key_attribute t || is_common_public_key_attribute t || public_key_attribute (key_type o) t
  else if class o =? CKO_PRIVATE_KEY then
    is_common_key_attribute t || is_common_private_key_attribute t || private_key_attribute (key_type o) t
  else if class o =? CKO_SECRET_KEY then
    is_common_key_attribute t || is_common_secret_key_attribute t || (t =? CKA_VALUE)
  else false.

Definition supports_attribute (o : TokenObject) (t : Z) : bool :=
  match material o with
  | OathCredential _ => oath_supports_attribute t
  | _ =>
      is_common_storage_attribute t
      || (standard_attribute o t || supports_vendor_attribute o t || supports_compatibility_attribute o t)
  end.

(** The secret components of a private key by its type. *)
Definition secret_component (key_type t : Z) : bool :=
  if key_type =? CKK_RSA then
    one_of [CKA_PRIVATE_EXPONENT; CKA_PRIME_1; CKA_PRIME_2; CKA_EXPONENT_1; CKA_EXPONENT_2; CKA_COEFFICIENT] t
  else if one_of [CKK_EC; CKK_EC_EDWARDS; CKK_EC_MONTGOMERY] key_type then t =? CKA_VALUE
  else if (key_type =? CKK_ML_DSA) || (key_type =? CKK_ML_KEM) || is_hybrid_kem_key_type key_type then
    one_of [CKA_SEED; CKA_VALUE] t
  else false.

Definition attribute_is_sensitive (o : TokenObject) (t : Z) : bool :=
  if match material o with OathCredential _ => t =? CKA_VALUE | _ => false end then true
  else if negb (supports_attribute o t) then false
  else if (class o =? CKO_SECRET_KEY) && (t =? CKA_VALUE) then
    o_sensitive o
    || match material o with
       | SoftwareSecret _ | YubiHsmSessionObject _ _ => negb (o_extractable o)
       | _ => false
       end
  else if negb (class o =? CKO_PRIVATE_KEY) || negb (o_sensitive o) then false
  else secret_component (key_type o) t.

Definition VENDOR_OBJECT_ATTRIBUTE_TYPES : list Z :=
  [CKA_PKCS11RS_OATH_HASH; CKA_PKCS11RS_OATH_TOUCH_REQUIRED; CKA_PKCS11RS_PIV_OBJECT_TAG;
   CKA_YUBICO_HSMAUTH_RETRIES; CKA_YUBICO_HSMAUTH_TOUCH_REQUIRED; CKA_YUBICO_TOUCH_POLICY;
   CKA_YUBICO_PIN_POLICY; CKA_PKCS11RS_PREVIEW_SIGN_REGISTRATION; CKA_PKCS11RS_PREVIEW_SIGN_DERIVED_KEY;
   CKA_PKCS11RS_FIDO_RP_ID; CKA_PKCS11RS_URI].
Definition attribute_types (o : TokenObject) : list Z :=
  List.filter (supports_attribute o) PKCS11_OBJECT_ATTRIBUTE_TYPES
  ++ List.filter (supports_attribute o) VENDOR_OBJECT_ATTRIBUTE_TYPES.

(** ** Values *)

Definition piv_effective_pin_policy (slot policy : Z) : Z :=
  if negb (policy =? 0) then policy
  else if slot =? SLOT_SIGNATURE then 3
  else if slot =? SLOT_CARD_AUTHENTICATION then 1
  else 2.
Definition PGP_KEY_SIGNATURE : Z := 1.
Definition PW1_ONE_SIGNATURE : Z := 0.
Definition openpgp_signature_requires_context_specific_login (key_ref pin_policy : Z) : bool :=
  (key_ref =? PGP_KEY_SIGNATURE) && (pin_policy =? PW1_ONE_SIGNATURE).

Definition local_ml_kem_parameter_set (parameter_set : MlKemParameterSet) : Z :=
  match parameter_set with
  | SetMlKem512 => CKP_ML_KEM_512
  | SetMlKem768 => CKP_ML_KEM_768
  | SetMlKem1024 => CKP_ML_KEM_1024
  end.

Definition always_authenticate (m : KeyMaterial) : bool :=
  match m with
  | PivPrivate slot _ pin_policy _ => piv_effective_pin_policy slot pin_policy =? 3
  | OpenPgpPrivate key_ref _ pin_policy _ => openpgp_signature_requires_context_specific_login key_ref pin_policy
  | FidoResidentPrivate _ | PreviewSignDerived _ _ _ => true
  | _ => false
  end.

Definition application_value (o : TokenObject) : option (list Z) :=
  match material o with
  | Data _ application _ _ => Some application
  | YubiHsm _ object_type _ _ _ =>
      Some (if is_yubihsm_opaque o then str "Opaque object"
            else if object_type =? YUBIHSM_TEMPLATE then str "Template object" else str "YubiHSM object")
  | IssuerSecurityDomainData _ application _ => Some application
  | PivData _ _ => Some (str "PIV")
  | OpenPgpData _ _ => Some (str "OpenPGP")
  | FidoCredential _ _ => Some (str "FIDO2 discoverable credential")
  | _ => None
  end.
Definition object_id_value (o : TokenObject) : option (list Z) :=
  match material o with
  | Data _ _ object_id _ => Some object_id
  | YubiHsm _ _ _ _ _ => Some []
  | IssuerSecurityDomainData _ _ object_id => Some object_id
  | PivData object_id _ => data_object_mapping object_id ≫= data_object_oid
  | OpenPgpData tag _ => Some (be16 tag)
  | FidoCredential rp_id_hash _ => Some rp_id_hash
  | _ => None
  end.
Definition value_len (o : TokenObject) : option (list Z) :=
  match material o with
  | SoftwareSecret value | Secret value => Some (ulong_attribute (len value))
  | HsmAuthCredential _ _ _ => Some (ulong_attribute 32)
  | YubiHsm _ _ _ _ info => if class o =? CKO_SECRET_KEY then Some (ulong_attribute (hsm_length info)) else None
  | YubiHsmSessionObject _ length => if class o =? CKO_SECRET_KEY then Some (ulong_attribute length) else None
  | _ => None
  end.

(** What a certificate or key without its own answer shows. *)
Definition fixed_value (t : Z) : option (list Z) :=
  if one_of [CKA_START_DATE; CKA_END_DATE; CKA_WRAP_TEMPLATE; CKA_UNWRAP_TEMPLATE; CKA_DERIVE_TEMPLATE;
             CKA_PUBLIC_CRC64_VALUE; CKA_URL; CKA_HASH_OF_SUBJECT_PUBLIC_KEY; CKA_HASH_OF_ISSUER_PUBLIC_KEY] t
  then Some []
  else if t =? CKA_OBJECT_VALIDATION_FLAGS then Some (ulong_attribute 0)
  else if t =? CKA_JAVA_MIDP_SECURITY_DOMAIN then Some (ulong_attribute CK_SECURITY_DOMAIN_UNSPECIFIED)
  else if t =? CKA_NAME_HASH_ALGORITHM then Some (ulong_attribute CKM_SHA_1)
  else None.

Section values.
Context {B : Type} `{RsaCore B, SignatureCore B, KeyCore, Certificates, PreviewSignRecords, HashCore}.

(** [SoftwarePrivateKeyMaterialExt] *)
Definition software_public_key (key : SoftwarePrivateKeyMaterial) : outcome Error PublicKeyMaterial :=
  match key with
  | Montgomery key =>
      Ok (EcPublic (montgomery_curve_parameters (montgomery_curve key)) (montgomery_public_key key))
  | MlKem key => Ok (MlKemPublic (local_ml_kem_parameter_set (ml_kem_parameter_set key)) (ml_kem_public_key key))
  | HybridKem construction key =>
      omap_ok (HybridKemPublic construction) (ok_or #CKR_DATA_INVALID (hybrid_public_key construction key))
  | _ => default (Err #CKR_KEY_TYPE_INCONSISTENT) (signing_public_key key)
  end.
Definition private_value (key : SoftwarePrivateKeyMaterial) : option (list Z) :=
  match key with
  | Montgomery key => Some (montgomery_serialized key)
  | MlKem key => Some (ml_kem_expanded_private_key key)
  | HybridKem construction key => Some (hybrid_key_seed construction key)
  | _ => signing_private_value key
  end.
Definition ml_dsa_seed (key : SoftwarePrivateKeyMaterial) : option (list Z) :=
  match key with SigningMlDsa parameter_set key => ml_dsa_key_seed parameter_set key | _ => None end.
Definition ml_kem_seed (key : SoftwarePrivateKeyMaterial) : option (list Z) :=
  match key with MlKem key => ml_kem_key_seed key | _ => None end.
Definition hybrid_kem_seed (key : SoftwarePrivateKeyMaterial) : option (list Z) :=
  match key with HybridKem construction key => Some (hybrid_key_seed construction key) | _ => None end.

(** The public key of a device object. *)
Definition hsm_public_key (algorithm : Z) (public_key : list Z) : outcome Error PublicKeyMaterial :=
  if is_yubihsm_rsa algorithm then
    omap_ok RsaPublic (ok_or #CKR_DATA_INVALID (rsa_public_new (from_bytes_be public_key) 65537))
  else
    match yubihsm_ml_dsa algorithm, yubihsm_ml_kem algorithm, yubihsm_hybrid_kem algorithm with
    | Some parameters, _, _ =>
        if validate_ml_dsa_public_key parameters public_key
        then Ok (MlDsaPublic (algorithm - YUBIHSM_ALGO_ML_DSA_44 + 1) public_key)
        else Err #CKR_DATA_INVALID
    | _, Some parameters, _ =>
        if negb (len public_key =? ml_kem_public_key_length parameters) then Err #CKR_DATA_INVALID
        else Ok (MlKemPublic (algorithm - YUBIHSM_ALGO_ML_KEM_512 + 1) public_key)
    | _, _, Some construction =>
        if negb (len public_key =? hybrid_public_key_length construction) then Err #CKR_DATA_INVALID
        else Ok (HybridKemPublic construction public_key)
    | None, None, None =>
        omap_ok (λ parameters, EcPublic parameters public_key)
          (ok_or #CKR_KEY_TYPE_INCONSISTENT (yubihsm_ec_parameters algorithm))
    end.

Definition projected_public_key (o : TokenObject) : outcome Error PublicKeyMaterial :=
  match public_key o with
  | Some key => Ok key
  | None =>
      match material o with
      | Public key => Ok key
      | SoftwarePrivate key => software_public_key key
      | YubiHsm _ _ algorithm key _ => hsm_public_key algorithm key
      | _ => Err #CKR_KEY_TYPE_INCONSISTENT
      end
  end.

Definition public_key_info (o : TokenObject) : option (list Z) :=
  if negb (one_of [CKO_PUBLIC_KEY; CKO_PRIVATE_KEY] (class o)) then None
  else
    key ← ok (projected_public_key o);
    match key with
    | RsaPublic key => rsa_public_key_info (to_bytes_be (rsa_n key)) (to_bytes_be (rsa_e key))
    | EcPublic parameters key => ec_public_key_info (key_type o) parameters key
    | MlDsaPublic parameter_set key => ml_dsa_public_key_info parameter_set key
    | MlKemPublic parameter_set key => ml_kem_public_key_info parameter_set key
    | HybridKemPublic construction key => hybrid_kem_public_key_info construction key
    end.

Definition supports_public_projection (o : TokenObject) : bool :=
  (class o =? CKO_PRIVATE_KEY) && is_some (public_key_info o).
Definition allows_derive (o : TokenObject) : bool := derive (attributes o) || supports_public_projection o.

(** *** Components of keys *)

Definition modulus_value (o : TokenObject) : option (list Z) :=
  match ok (projected_public_key o), material o with
  | Some (RsaPublic key), _ => Some (to_bytes_be (rsa_n key))
  | _, YubiHsm _ _ algorithm ((_ :: _) as key) _ => if is_yubihsm_rsa algorithm then Some key else None
  | _, _ => None
  end.
Definition modulus_bits_value (o : TokenObject) : option (list Z) :=
  match ok (projected_public_key o), material o with
  | Some (RsaPublic key), _ => Some (ulong_attribute (rsa_size key * 8))
  | _, YubiHsm _ _ algorithm ((_ :: _) as key) _ =>
      if is_yubihsm_rsa algorithm then Some (ulong_attribute (len key * 8)) else None
  | _, _ => None
  end.
Definition public_exponent_value (o : TokenObject) : option (list Z) :=
  match ok (projected_public_key o), material o with
  | Some (RsaPublic key), _ => Some (to_bytes_be (rsa_e key))
  | _, YubiHsm _ _ algorithm _ _ => if is_yubihsm_rsa algorithm then Some [0x01; 0x00; 0x01] else None
  | _, _ => None
  end.
(** The [i]th of the RSA private components. *)
Definition rsa_component (i : nat) (o : TokenObject) : option (list Z) :=
  match material o with
  | SoftwarePrivate ((SigningRsa _ | SigningEdwards _ _ | SigningMlDsa _ _ | SigningEc _ _) as key) =>
      (λ values, nth i values []) <$> rsa_private_components key
  | _ => None
  end.
Definition ec_params_value (o : TokenObject) : option (list Z) :=
  match ok (projected_public_key o), material o with
  | Some (EcPublic parameters _), _ => Some parameters
  | _, YubiHsm _ _ algorithm _ _ => yubihsm_ec_parameters algorithm
  | _, _ => None
  end.
Definition ec_point_value (o : TokenObject) : option (list Z) :=
  match ok (projected_public_key o), material o with
  | Some (EcPublic _ ((_ :: _) as key)), _ => der_octet_string (if key_type o =? CKK_EC then 0x04 :: key else key)
  | _, YubiHsm _ _ algorithm ((_ :: _) as key) _ =>
      if is_yubihsm_ec algorithm then der_octet_string (0x04 :: key)
      else if is_yubihsm_edwards algorithm then der_octet_string key
      else if is_yubihsm_montgomery algorithm then der_octet_string key
      else None
  | _, _ => None
  end.
Definition parameter_set_value (o : TokenObject) : option (list Z) :=
  match ok (projected_public_key o) with
  | Some (MlDsaPublic parameter_set _) | Some (MlKemPublic parameter_set _) => Some (ulong_attribute parameter_set)
  | _ => None
  end.
Definition seed_value (o : TokenObject) : option (list Z) :=
  match material o with
  | SoftwarePrivate key =>
      match ml_dsa_seed key, ml_kem_seed key with
      | Some seed, _ => Some seed
      | None, Some seed => Some seed
      | None, None => hybrid_kem_seed key
      end
  | _ => None
  end.

(** *** One attribute *)

(** The arms of [attribute_value] that read the object alone, in their order:
    [None] when no arm's guard holds, [Some r] with the answer of the first one
    that does. *)
Definition own_attribute (o : TokenObject) (t : Z) : option (option (list Z)) :=
  let a := attributes o in
  let key := is_key_object o in
  let secret := has_sensitive_attributes o in
  let flag b := Some (Some (bool_attribute b)) in
  if t =? CKA_CLASS then Some (Some (ulong_attribute (class o)))
  else if t =? CKA_UNIQUE_ID then Some (Some (unique_id o))
  else if t =? CKA_PROFILE_ID then
    Some (match material o with Profile profile_id => Some (ulong_attribute profile_id) | _ => None end)
  else if (t =? CKA_KEY_TYPE) && key then Some (Some (ulong_attribute (key_type o)))
  else if t =? CKA_LABEL then Some (Some (obj_label a))
  else if t =? CKA_ID then Some (Some (obj_id a))
  else if t =? CKA_TOKEN then flag (token o)
  else if t =? CKA_PRIVATE then flag (private o)
  else if (t =? CKA_ALWAYS_AUTHENTICATE) && (class o =? CKO_PRIVATE_KEY) then flag (always_authenticate (material o))
  else if (t =? CKA_ENCRYPT) && key then flag (encrypt o)
  else if (t =? CKA_DECRYPT) && key then flag (decrypt o)
  else if (t =? CKA_SIGN) && key then flag (sign o)
  else if (t =? CKA_VERIFY) && key then flag (verify o)
  else if (t =? CKA_DERIVE) && key then flag (allows_derive o)
  else if (t =? CKA_WRAP) && key then flag (can_wrap o)
  else if (t =? CKA_UNWRAP) && key then flag (can_unwrap o)
  else if (t =? CKA_ENCAPSULATE) && key then flag (encapsulate a)
  else if (t =? CKA_DECAPSULATE) && key then flag (decapsulate a)
  else if (t =? CKA_WRAP_WITH_TRUSTED) && one_of [CKO_PRIVATE_KEY; CKO_SECRET_KEY] (class o) then
    flag (wrap_with_trusted a)
  else if one_of [CKA_SIGN_RECOVER; CKA_VERIFY_RECOVER] t then flag false
  else if (t =? CKA_COPYABLE)
          && match material o with YubiHsm _ _ _ _ _ | YubiHsmSessionObject _ _ => true | _ => false end then flag false
  else if t =? CKA_MODIFIABLE then flag (negb (is_immutable_object o))
  else if t =? CKA_COPYABLE then flag (negb (is_immutable_object o))
  else if t =? CKA_DESTROYABLE then
    flag (is_yubihsm_opaque o
          || match material o with PivPrivate _ _ _ _ | PivCertificate _ _ _ | PivData _ _ => true | _ => false end
          || negb (is_immutable_object o))
  else if t =? CKA_TRUSTED then flag false
  else if t =? CKA_APPLICATION then Some (application_value o)
  else if t =? CKA_OBJECT_ID then Some (object_id_value o)
  else if t =? CKA_PKCS11RS_PIV_OBJECT_TAG then
    Some (match material o with PivData object_id _ => Some (piv_object_tag object_id) | _ => None end)
  else if t =? CKA_PKCS11RS_PREVIEW_SIGN_REGISTRATION then
    Some (match material o with
          | PreviewSignRegistered registration _ | PreviewSignDerived registration _ _ =>
              registration_to_cbor registration
          | _ => None
          end)
  else if t =? CKA_PKCS11RS_PREVIEW_SIGN_DERIVED_KEY then
    Some (match material o with PreviewSignDerived _ args rest => derived_to_cbor args rest | _ => None end)
  else if t =? CKA_PKCS11RS_FIDO_RP_ID then Some (rp_id o)
  else if (t =? CKA_CERTIFICATE_TYPE) && is_certificate_object o then Some (Some (ulong_attribute CKC_X_509))
  else if t =? CKA_VALUE_LEN then Some (value_len o)
  else if (t =? CKA_SENSITIVE) && secret then flag (sensitive a)
  else if (t =? CKA_EXTRACTABLE) && secret then flag (extractable a && negb (is_nonextractable_key_object o))
  else if (t =? CKA_ALWAYS_SENSITIVE) && secret then flag (always_sensitive a)
  else if (t =? CKA_NEVER_EXTRACTABLE) && secret then flag (never_extractable a || is_nonextractable_key_object o)
  else if (t =? CKA_LOCAL) && key then flag (local a)
  else if (t =? CKA_KEY_GEN_MECHANISM) && key then
    Some (Some (ulong_attribute (default CK_UNAVAILABLE_INFORMATION (key_gen_mechanism a))))
  else if (t =? CKA_ALLOWED_MECHANISMS) && key then
    Some ((λ ms, concat (map (ne_bytes 8) ms)) <$> allowed_mechanisms o)
  else match fixed_value t with
  | Some value => Some (Some value)
  | None =>
  if (t =? CKA_SUBJECT) && key then Some (Some [])
  else if t =? CKA_MODULUS then Some (modulus_value o)
  else if t =? CKA_PUBLIC_EXPONENT then Some (public_exponent_value o)
  else if t =? CKA_PRIVATE_EXPONENT then Some (rsa_component 0 o)
  else if t =? CKA_PRIME_1 then Some (rsa_component 1 o)
  else if t =? CKA_PRIME_2 then Some (rsa_component 2 o)
  else if t =? CKA_EXPONENT_1 then Some (rsa_component 3 o)
  else if t =? CKA_EXPONENT_2 then Some (rsa_component 4 o)
  else if t =? CKA_COEFFICIENT then Some (rsa_component 5 o)
  else if t =? CKA_MODULUS_BITS then Some (modulus_bits_value o)
  else if t =? CKA_EC_PARAMS then Some (ec_params_value o)
  else if (t =? CKA_EC_POINT) && (class o =? CKO_PUBLIC_KEY) then Some (ec_point_value o)
  else if t =? CKA_PARAMETER_SET then Some (parameter_set_value o)
  else if t =? CKA_SEED then Some (seed_value o)
  else if t =? CKA_YUBICO_HSMAUTH_RETRIES then
    Some (match material o with HsmAuthCredential _ retries _ => Some (ulong_attribute retries) | _ => None end)
  else if t =? CKA_YUBICO_HSMAUTH_TOUCH_REQUIRED then
    Some (match material o with HsmAuthCredential _ _ touch => Some (bool_attribute touch) | _ => None end)
  else if t =? CKA_YUBICO_TOUCH_POLICY then
    Some (match material o with
          | PivPrivate _ _ _ touch_policy | OpenPgpPrivate _ _ _ touch_policy => Some (ulong_attribute touch_policy)
          | _ => None
          end)
  else if t =? CKA_YUBICO_PIN_POLICY then
    Some (match material o with PivPrivate _ _ pin_policy _ => Some (ulong_attribute pin_policy) | _ => None end)
  else if (t =? CKA_PUBLIC_KEY_INFO) && key then Some (Some (default [] (public_key_info o)))
  else if (t =? CKA_CHECK_VALUE) && (class o =? CKO_SECRET_KEY) then Some (Some [])
  else None
  end.

Context `{LazyCells B}.

(** Fill an untouched cell with the answer of [c], if [good] accepts it. *)
Definition lazy_certificate (cache : Z) (c : SM B Error (list Z)) (good : list Z → bool) (b : B)
    : option (list Z) * B :=
  if negb (is_unattempted (read_cell cache b)) then (cache_value (read_cell cache b), b)
  else
    let '(r, b') := c b in
    let certificate := (v ← ok r; if good v then Some v else None) in
    (certificate, write_cell cache (match certificate with Some v => CachedValue v | None => Missing end) b').

Definition lazy_piv_attestation_certificate (slot : Z) (algorithm : PivAlgorithm) (cache : Z) :=
  lazy_certificate cache (piv_attestation slot) (piv_certificate_usable algorithm).
Definition lazy_yubihsm_attestation_certificate (id cache : Z) :=
  lazy_certificate cache (yubihsm_sign_attestation id) (λ certificate, is_ok (certificate_validate certificate)).

(** The arm for the values that the material holds or that a card is asked for. *)
Definition material_attribute (o : TokenObject) (t : Z) (b : B) : option (list Z) * B :=
  let value := t =? CKA_VALUE in
  let shown v := ((if value then Some v else None), b) in
  match material o with
  | SoftwarePrivate key => (if value then private_value key else None, b)
  | YubiHsm _ _ algorithm key _ =>
      ((if value && (class o =? CKO_PUBLIC_KEY)
           && (is_some (yubihsm_ml_dsa algorithm) || is_some (yubihsm_ml_kem algorithm)
               || is_some (yubihsm_hybrid_kem algorithm))
        then Some key else None), b)
  | Public (MlDsaPublic _ key) | Public (MlKemPublic _ key) | Public (HybridKemPublic _ key) => shown key
  | Data _ _ _ v | SoftwareSecret v | Secret v => shown v
  | Certificate _ v | PivCertificate _ v _ | OpenPgpCertificate v | IssuerSecurityDomainCertificate v =>
      (piv_certificate_attribute v t, b)
  | IssuerSecurityDomainData v _ _ | PivData _ v | FidoCredential _ v => shown v
  | OpenPgpData tag cache =>
      if value then
        let b' := if is_unattempted (read_cell cache b)
                  then let '(r, b') := openpgp_get_data tag b in
                       write_cell cache (match ok r with Some v => CachedValue v | None => Missing end) b'
                  else b in
        (Some (default [] (cache_value (read_cell cache b'))), b')
      else (None, b)
  | PivAttestation slot algorithm cache =>
      let '(v, b') := lazy_piv_attestation_certificate slot algorithm cache b in
      (v ≫= λ v, piv_certificate_attribute v t, b')
  | YubiHsmAttestation id _ cache =>
      let '(v, b') := lazy_yubihsm_attestation_certificate id cache b in
      (v ≫= λ v, piv_certificate_attribute v t, b')
  | _ => (None, b)
  end.

Definition attribute_value (o : TokenObject) (t : Z) (b : B) : option (list Z) * B :=
  match (match material o with OathCredential c => oath_attribute c t | _ => None end) with
  | Some value => (Some value, b)
  | None =>
      if negb (supports_attribute o t) then (None, b)
      else match own_attribute o t with
           | Some value => (value, b)
           | None => if is_certificate_attribute t then material_attribute o t b else (None, b)
           end
  end.

(** ** The size of an object *)

(** Attestation certificates are not asked for to tell a size. *)
Definition defer_certificate_attributes (o : TokenObject) (b : B) : bool :=
  match material o with
  | PivAttestation _ _ cache | YubiHsmAttestation _ _ cache => is_unattempted (read_cell cache b)
  | _ => false
  end.
Fixpoint sum_lengths (o : TokenObject) (types : list Z) (b : B) : Z * B :=
  match types with
  | [] => (0, b)
  | t :: rest =>
      let '(value, b') := attribute_value o t b in
      let '(n, b'') := sum_lengths o rest b' in
      (default 0 (len <$> value) + n, b'')
  end.
Definition deferred_native_value (o : TokenObject) : Z :=
  match material o with
  | YubiHsmSessionObject _ length => if attribute_is_sensitive o CKA_VALUE then 0 else length
  | _ => 0
  end.
Definition size (o : TokenObject) (b : B) : Z * B :=
  let defer := defer_certificate_attributes o b in
  let types := List.filter (λ t, negb (attribute_is_sensitive o t))
                 (List.filter (λ t, negb defer || negb (is_certificate_attribute t)) (attribute_types o)) in
  let '(attributes, b') := sum_lengths o types b in
  (Z.min U64_MAX (attributes + deferred_native_value o), b').
End values.

(** ** A concrete instance

    Keys that are their own encodings, certificates that are any bytes with a
    leading [0x30], and a device without lazily read values. *)

#[export] Instance toy_keys : KeyCore := {|
  signing_private_value key :=
    match key with
    | SigningEc _ k | SigningEdwards _ k | SigningMlDsa _ k => Some k
    | _ => None
    end;
  rsa_private_components key :=
    match key with SigningRsa k => Some (replicate 6 [rsa_d k]) | _ => None end;
  ml_dsa_key_seed _ k := Some k;
  montgomery_curve _ := MontgomeryX25519;
  montgomery_public_key _ := replicate 32 9;
  montgomery_serialized k := k;
  ml_kem_parameter_set _ := SetMlKem768;
  ml_kem_public_key _ := replicate 8 2;
  ml_kem_expanded_private_key k := k;
  ml_kem_key_seed k := Some k;
  hybrid_public_key _ _ := Some (replicate 8 3);
  hybrid_key_seed _ k := k;
  ml_kem_public_key_length _ := 8;
  hybrid_public_key_length _ := 8;
  validate_ml_dsa_public_key _ k := len k =? 8;
  shared_ml_dsa_public_key_info _ k := Some k;
  shared_ml_kem_public_key_info _ k := Some k;
|}.

#[export] Instance toy_certificates : Certificates := {|
  cert_valid c := at_ c 0 =? 0x30;
  cert_to_der c := Some c;
  cert_subject _ := Some [0x30; 0];
  cert_issuer _ := Some [0x30; 0];
  cert_serial_number _ := Some [2; 1; 1];
  parsed_public_key_info _ := Some [0x30; 0];
|}.

#[export] Instance toy_records : PreviewSignRecords := {|
  registration_to_cbor _ := Some [0xa0];
  derived_to_cbor _ rest := Some rest;
|}.

#[export] Instance toy_cells {B} : LazyCells B := {|
  read_cell _ _ := Missing;
  write_cell _ _ b := b;
  piv_attestation _ := sm_err #CKR_DEVICE_ERROR;
  yubihsm_sign_attestation _ := sm_err #CKR_DEVICE_ERROR;
  openpgp_get_data _ := sm_err #CKR_DEVICE_ERROR;
  piv_certificate_usable _ _ := false;
|}.
