(* ===== verification/MechanismTables.v ===== *)
(** * MechanismTables: the mechanisms a slot advertises

    Models the mechanism tables of [src/src/mechanism.rs] (software, YubiHSM and
    the names of mechanisms), the tables of the card backends
    ([src/src/backend/piv.rs], [openpgp.rs], [host.rs], [ctap.rs]) and
    [Slot::mechanisms] of [src/src/backend/traits.rs], which adds the host's
    software mechanisms to what a backend offers. *)
From stdpp Require Import strings.
From S2P Require Import Prelude Errors Storage Mechanisms AttributeTypes SlotState CryptApi SignatureModes HsmCapabilities.

(** ** Constants *)

Definition CKF_WRAP : Z := 131072.
Definition CKF_UNWRAP : Z := 262144.
Definition CKF_DERIVE : Z := 524288.
Definition CKF_GENERATE : Z := 32768.
Definition CKF_GENERATE_KEY_PAIR : Z := 65536.
Definition CKF_EC_F_P : Z := 1048576.
Definition CKF_EC_NAMEDCURVE : Z := 8388608.
Definition CKF_EC_UNCOMPRESS : Z := 16777216.
Definition CKF_EC_CURVENAME : Z := 67108864.
Definition CKF_ENCAPSULATE : Z := 268435456.
Definition CKF_DECAPSULATE : Z := 536870912.
Definition CKM_RSA_PKCS_KEY_PAIR_GEN : Z := 0.
Definition CKM_RSA_AES_KEY_WRAP : Z := 4180.
Definition CKM_EC_KEY_PAIR_GEN : Z := 4160.
Definition CKM_EC_EDWARDS_KEY_PAIR_GEN : Z := 4181.
Definition CKM_EC_MONTGOMERY_KEY_PAIR_GEN : Z := 4182.
Definition CKM_ECDH1_DERIVE : Z := 4176.
Definition CKM_ECDH1_COFACTOR_DERIVE : Z := 4177.
Definition CKM_ML_DSA_KEY_PAIR_GEN : Z := 28.
Definition CKM_ML_KEM_KEY_PAIR_GEN : Z := 15.
Definition CKM_ML_KEM : Z := 23.
Definition CKM_GENERIC_SECRET_KEY_GEN : Z := 848.
Definition CKM_AES_KEY_GEN : Z := 4224.
Definition CKM_DES3_KEY_GEN : Z := 305.
Definition CKM_PKCS5_PBKD2 : Z := 944.
Definition CKM_HKDF_DERIVE : Z := 16426.
Definition CKM_SP800_108_COUNTER_KDF : Z := 940.
Definition CKM_CONCATENATE_BASE_AND_KEY : Z := 864.
Definition CKM_CONCATENATE_BASE_AND_DATA : Z := 866.
Definition CKM_EXTRACT_KEY_FROM_KEY : Z := 869.
Definition CKM_SHA256_KEY_DERIVATION : Z := 915.
Definition CKM_SHA_1_KEY_GEN : Z := 16387.
Definition CKM_SHA256_KEY_GEN : Z := 16389.
Definition CKM_SHA384_KEY_GEN : Z := 16390.
Definition CKM_SHA512_KEY_GEN : Z := 16391.
Definition CKM_PKCS11RS_PREVIEW_SIGN_KEY_PAIR_GEN : Z := Z.lor CKM_VENDOR_DEFINED 0x50530001.
Definition CKM_PKCS11RS_PREVIEW_SIGN_DERIVE : Z := Z.lor CKM_VENDOR_DEFINED 0x50530002.
Definition CKM_PKCS11RS_PROJECT_PUBLIC_KEY : Z := Z.lor CKM_VENDOR_DEFINED 0x50530004.
Definition CKM_PKCS11RS_PREFIXED_ECDH_DERIVE : Z := Z.lor CKM_VENDOR_DEFINED 0x50530006.
Definition CKM_PKCS11RS_MLKEM768_P256_KEY_PAIR_GEN : Z := Z.lor CKM_VENDOR_DEFINED 0x50530010.
Definition CKM_PKCS11RS_MLKEM768_P256 : Z := Z.lor CKM_VENDOR_DEFINED 0x50530011.
Definition CKM_PKCS11RS_MLKEM768_X25519_KEY_PAIR_GEN : Z := Z.lor CKM_VENDOR_DEFINED 0x50530012.
Definition CKM_PKCS11RS_MLKEM768_X25519 : Z := Z.lor CKM_VENDOR_DEFINED 0x50530013.
Definition CKM_PKCS11RS_MLKEM1024_P384_KEY_PAIR_GEN : Z := Z.lor CKM_VENDOR_DEFINED 0x50530014.
Definition CKM_PKCS11RS_MLKEM1024_P384 : Z := Z.lor CKM_VENDOR_DEFINED 0x50530015.
Definition CKM_YUBICO_RSA_WRAP : Z :=
  Z.lor (Z.lor CKM_VENDOR_DEFINED YUBICO_BASE_VENDOR) YUBIHSM_PUBLIC_WRAP_KEY.
Definition CKK_PKCS11RS_PREVIEW_SIGN_REGISTRATION : Z := Z.lor CKK_VENDOR_DEFINED 0x50530001.
Definition YUBIHSM_ALGO_RSA_PKCS1_SHA1 : Z := 1.
Definition YUBIHSM_ALGO_RSA_PKCS1_SHA256 : Z := 2.
Definition YUBIHSM_ALGO_RSA_PKCS1_SHA384 : Z := 3.
Definition YUBIHSM_ALGO_RSA_PKCS1_SHA512 : Z := 4.
Definition YUBIHSM_ALGO_RSA_PSS_SHA1 : Z := 5.
Definition YUBIHSM_ALGO_RSA_PSS_SHA256 : Z := 6.
Definition YUBIHSM_ALGO_RSA_PSS_SHA384 : Z := 7.
Definition YUBIHSM_ALGO_RSA_PSS_SHA512 : Z := 8.
Definition YUBIHSM_ALGO_EC_ECDSA_SHA1 : Z := 23.
Definition YUBIHSM_ALGO_RSA_OAEP_SHA1 : Z := 25.
Definition YUBIHSM_ALGO_RSA_OAEP_SHA256 : Z := 26.
Definition YUBIHSM_ALGO_RSA_OAEP_SHA384 : Z := 27.
Definition YUBIHSM_ALGO_RSA_OAEP_SHA512 : Z := 28.
Definition YUBIHSM_ALGO_EC_ECDSA_SHA256 : Z := 43.
Definition YUBIHSM_ALGO_EC_ECDSA_SHA384 : Z := 44.
Definition YUBIHSM_ALGO_EC_ECDSA_SHA512 : Z := 45.
Definition YUBIHSM_ALGO_RSA_PKCS1_DECRYPT : Z := 48.
Definition YUBIHSM_ALGO_AES_ECB : Z := 53.
Definition YUBIHSM_ALGO_AES_CBC : Z := 54.
Definition YUBIHSM_ALGO_AES_KWP : Z := 55.

(** ** Names *)

Definition KNOWN_MECHANISMS : list (Z * string) :=
  [(CKM_RSA_PKCS_KEY_PAIR_GEN, "CKM_RSA_PKCS_KEY_PAIR_GEN"%string);
   (CKM_RSA_PKCS, "CKM_RSA_PKCS"%string);
   (CKM_RSA_X_509, "CKM_RSA_X_509"%string);
   (CKM_RSA_PKCS_OAEP, "CKM_RSA_PKCS_OAEP"%string);
   (CKM_RSA_PKCS_PSS, "CKM_RSA_PKCS_PSS"%string);
   (CKM_SHA1_RSA_PKCS, "CKM_SHA1_RSA_PKCS"%string);
   (CKM_SHA224_RSA_PKCS, "CKM_SHA224_RSA_PKCS"%string);
   (CKM_SHA256_RSA_PKCS, "CKM_SHA256_RSA_PKCS"%string);
   (CKM_SHA384_RSA_PKCS, "CKM_SHA384_RSA_PKCS"%string);
   (CKM_SHA512_RSA_PKCS, "CKM_SHA512_RSA_PKCS"%string);
   (CKM_SHA1_RSA_PKCS_PSS, "CKM_SHA1_RSA_PKCS_PSS"%string);
   (CKM_SHA224_RSA_PKCS_PSS, "CKM_SHA224_RSA_PKCS_PSS"%string);
   (CKM_SHA256_RSA_PKCS_PSS, "CKM_SHA256_RSA_PKCS_PSS"%string);
   (CKM_SHA384_RSA_PKCS_PSS, "CKM_SHA384_RSA_PKCS_PSS"%string);
   (CKM_SHA512_RSA_PKCS_PSS, "CKM_SHA512_RSA_PKCS_PSS"%string);
   (CKM_SHA3_224_RSA_PKCS, "CKM_SHA3_224_RSA_PKCS"%string);
   (CKM_SHA3_256_RSA_PKCS, "CKM_SHA3_256_RSA_PKCS"%string);
   (CKM_SHA3_384_RSA_PKCS, "CKM_SHA3_384_RSA_PKCS"%string);
   (CKM_SHA3_512_RSA_PKCS, "CKM_SHA3_512_RSA_PKCS"%string);
   (CKM_SHA3_224_RSA_PKCS_PSS, "CKM_SHA3_224_RSA_PKCS_PSS"%string);
   (CKM_SHA3_256_RSA_PKCS_PSS, "CKM_SHA3_256_RSA_PKCS_PSS"%string);
   (CKM_SHA3_384_RSA_PKCS_PSS, "CKM_SHA3_384_RSA_PKCS_PSS"%string);
   (CKM_SHA3_512_RSA_PKCS_PSS, "CKM_SHA3_512_RSA_PKCS_PSS"%string);
   (CKM_RSA_AES_KEY_WRAP, "CKM_RSA_AES_KEY_WRAP"%string);
   (CKM_EC_KEY_PAIR_GEN, "CKM_EC_KEY_PAIR_GEN"%string);
   (CKM_ECDSA, "CKM_ECDSA"%string);
   (CKM_ECDSA_SHA1, "CKM_ECDSA_SHA1"%string);
   (CKM_ECDSA_SHA224, "CKM_ECDSA_SHA224"%string);
   (CKM_ECDSA_SHA256, "CKM_ECDSA_SHA256"%string);
   (CKM_ECDSA_SHA384, "CKM_ECDSA_SHA384"%string);
   (CKM_ECDSA_SHA512, "CKM_ECDSA_SHA512"%string);
   (CKM_ECDSA_SHA3_224, "CKM_ECDSA_SHA3_224"%string);
   (CKM_ECDSA_SHA3_256, "CKM_ECDSA_SHA3_256"%string);
   (CKM_ECDSA_SHA3_384, "CKM_ECDSA_SHA3_384"%string);
   (CKM_ECDSA_SHA3_512, "CKM_ECDSA_SHA3_512"%string);
   (CKM_ECDH1_DERIVE, "CKM_ECDH1_DERIVE"%string);
   (CKM_ECDH1_COFACTOR_DERIVE, "CKM_ECDH1_COFACTOR_DERIVE"%string);
   (CKM_EC_EDWARDS_KEY_PAIR_GEN, "CKM_EC_EDWARDS_KEY_PAIR_GEN"%string);
   (CKM_EC_MONTGOMERY_KEY_PAIR_GEN, "CKM_EC_MONTGOMERY_KEY_PAIR_GEN"%string);
   (CKM_EDDSA, "CKM_EDDSA"%string);
   (CKM_ML_DSA_KEY_PAIR_GEN, "CKM_ML_DSA_KEY_PAIR_GEN"%string);
   (CKM_ML_DSA, "CKM_ML_DSA"%string);
   (CKM_HASH_ML_DSA, "CKM_HASH_ML_DSA"%string);
   (CKM_HASH_ML_DSA_SHA224, "CKM_HASH_ML_DSA_SHA224"%string);
   (CKM_HASH_ML_DSA_SHA256, "CKM_HASH_ML_DSA_SHA256"%string);
   (CKM_HASH_ML_DSA_SHA384, "CKM_HASH_ML_DSA_SHA384"%string);
   (CKM_HASH_ML_DSA_SHA512, "CKM_HASH_ML_DSA_SHA512"%string);
   (CKM_HASH_ML_DSA_SHA3_224, "CKM_HASH_ML_DSA_SHA3_224"%string);
   (CKM_HASH_ML_DSA_SHA3_256, "CKM_HASH_ML_DSA_SHA3_256"%string);
   (CKM_HASH_ML_DSA_SHA3_384, "CKM_HASH_ML_DSA_SHA3_384"%string);
   (CKM_HASH_ML_DSA_SHA3_512, "CKM_HASH_ML_DSA_SHA3_512"%string);
   (CKM_HASH_ML_DSA_SHAKE128, "CKM_HASH_ML_DSA_SHAKE128"%string);
   (CKM_HASH_ML_DSA_SHAKE256, "CKM_HASH_ML_DSA_SHAKE256"%string);
   (CKM_ML_KEM_KEY_PAIR_GEN, "CKM_ML_KEM_KEY_PAIR_GEN"%string);
   (CKM_ML_KEM, "CKM_ML_KEM"%string);
   (CKM_GENERIC_SECRET_KEY_GEN, "CKM_GENERIC_SECRET_KEY_GEN"%string);
   (CKM_SHA_1_KEY_GEN, "CKM_SHA_1_KEY_GEN"%string);
   (CKM_SHA256_KEY_GEN, "CKM_SHA256_KEY_GEN"%string);
   (CKM_SHA384_KEY_GEN, "CKM_SHA384_KEY_GEN"%string);
   (CKM_SHA512_KEY_GEN, "CKM_SHA512_KEY_GEN"%string);
   (CKM_AES_KEY_GEN, "CKM_AES_KEY_GEN"%string);
   (CKM_AES_ECB, "CKM_AES_ECB"%string);
   (CKM_AES_CBC, "CKM_AES_CBC"%string);
   (CKM_AES_CBC_PAD, "CKM_AES_CBC_PAD"%string);
   (CKM_AES_CTR, "CKM_AES_CTR"%string);
   (CKM_AES_CCM, "CKM_AES_CCM"%string);
   (CKM_AES_GCM, "CKM_AES_GCM"%string);
   (CKM_AES_GMAC, "CKM_AES_GMAC"%string);
   (CKM_AES_CMAC, "CKM_AES_CMAC"%string);
   (CKM_AES_CMAC_GENERAL, "CKM_AES_CMAC_GENERAL"%string);
   (CKM_AES_KEY_WRAP, "CKM_AES_KEY_WRAP"%string);
   (CKM_AES_KEY_WRAP_KWP, "CKM_AES_KEY_WRAP_KWP"%string);
   (CKM_DES3_KEY_GEN, "CKM_DES3_KEY_GEN"%string);
   (CKM_DES3_ECB, "CKM_DES3_ECB"%string);
   (CKM_DES3_CBC, "CKM_DES3_CBC"%string);
   (CKM_DES3_CBC_PAD, "CKM_DES3_CBC_PAD"%string);
   (CKM_PKCS5_PBKD2, "CKM_PKCS5_PBKD2"%string);
   (CKM_SHA_1, "CKM_SHA_1"%string);
   (CKM_SHA224, "CKM_SHA224"%string);
   (CKM_SHA256, "CKM_SHA256"%string);
   (CKM_SHA384, "CKM_SHA384"%string);
   (CKM_SHA512, "CKM_SHA512"%string);
   (CKM_SHA3_224, "CKM_SHA3_224"%string);
   (CKM_SHA3_256, "CKM_SHA3_256"%string);
   (CKM_SHA3_384, "CKM_SHA3_384"%string);
   (CKM_SHA3_512, "CKM_SHA3_512"%string);
   (CKM_SHA_1_HMAC, "CKM_SHA_1_HMAC"%string);
   (CKM_SHA_1_HMAC_GENERAL, "CKM_SHA_1_HMAC_GENERAL"%string);
   (CKM_SHA224_HMAC, "CKM_SHA224_HMAC"%string);
   (CKM_SHA224_HMAC_GENERAL, "CKM_SHA224_HMAC_GENERAL"%string);
   (CKM_SHA256_HMAC, "CKM_SHA256_HMAC"%string);
   (CKM_SHA256_HMAC_GENERAL, "CKM_SHA256_HMAC_GENERAL"%string);
   (CKM_SHA384_HMAC, "CKM_SHA384_HMAC"%string);
   (CKM_SHA384_HMAC_GENERAL, "CKM_SHA384_HMAC_GENERAL"%string);
   (CKM_SHA512_HMAC, "CKM_SHA512_HMAC"%string);
   (CKM_SHA512_HMAC_GENERAL, "CKM_SHA512_HMAC_GENERAL"%string);
   (CKM_HKDF_DERIVE, "CKM_HKDF_DERIVE"%string);
   (CKM_CONCATENATE_BASE_AND_KEY, "CKM_CONCATENATE_BASE_AND_KEY"%string);
   (CKM_CONCATENATE_BASE_AND_DATA, "CKM_CONCATENATE_BASE_AND_DATA"%string);
   (CKM_EXTRACT_KEY_FROM_KEY, "CKM_EXTRACT_KEY_FROM_KEY"%string);
   (CKM_SHA256_KEY_DERIVATION, "CKM_SHA256_KEY_DERIVATION"%string);
   (CKM_SP800_108_COUNTER_KDF, "CKM_SP800_108_COUNTER_KDF"%string);
   (CKM_YUBICO_AES_CCM_WRAP, "CKM_YUBICO_AES_CCM_WRAP"%string);
   (CKM_YUBICO_RSA_WRAP, "CKM_YUBICO_RSA_WRAP"%string);
   (CKM_PKCS11RS_PREVIEW_SIGN_KEY_PAIR_GEN, "CKM_PKCS11RS_PREVIEW_SIGN_KEY_PAIR_GEN"%string);
   (CKM_PKCS11RS_PREVIEW_SIGN_DERIVE, "CKM_PKCS11RS_PREVIEW_SIGN_DERIVE"%string);
   (CKM_PKCS11RS_PREVIEW_SIGN, "CKM_PKCS11RS_PREVIEW_SIGN"%string);
   (CKM_PKCS11RS_PROJECT_PUBLIC_KEY, "CKM_PKCS11RS_PROJECT_PUBLIC_KEY"%string);
   (CKM_HOTP, "CKM_HOTP"%string);
   (CKM_PKCS11RS_TOTP, "CKM_PKCS11RS_TOTP"%string);
   (CKM_PKCS11RS_HOTP, "CKM_PKCS11RS_HOTP"%string);
   (CKM_PKCS11RS_FIDO_ASSERTION, "CKM_PKCS11RS_FIDO_ASSERTION"%string);
   (CKM_PKCS11RS_PREFIXED_ECDH_DERIVE, "CKM_PKCS11RS_PREFIXED_ECDH_DERIVE"%string);
   (CKM_PKCS11RS_MLKEM768_P256_KEY_PAIR_GEN, "CKM_PKCS11RS_MLKEM768_P256_KEY_PAIR_GEN"%string);
   (CKM_PKCS11RS_MLKEM768_P256, "CKM_PKCS11RS_MLKEM768_P256"%string);
   (CKM_PKCS11RS_MLKEM768_X25519_KEY_PAIR_GEN, "CKM_PKCS11RS_MLKEM768_X25519_KEY_PAIR_GEN"%string);
   (CKM_PKCS11RS_MLKEM768_X25519, "CKM_PKCS11RS_MLKEM768_X25519"%string);
   (CKM_PKCS11RS_MLKEM1024_P384_KEY_PAIR_GEN, "CKM_PKCS11RS_MLKEM1024_P384_KEY_PAIR_GEN"%string);
   (CKM_PKCS11RS_MLKEM1024_P384, "CKM_PKCS11RS_MLKEM1024_P384"%string)].

Definition mechanism_name (m : Z) : option string := snd <$> List.find (λ '(t, _), t =? m) KNOWN_MECHANISMS.

(** ** Software mechanisms *)

(** [a | b | c] *)
Definition any_of (flags : list Z) : Z := foldr Z.lor 0 flags.
(** The same sizes and flags for several mechanisms. *)
Definition each (types : list Z) (min max flags : Z) : list MechanismDetails :=
  (λ t, mkDetails t min max flags) <$> types.

(** Generation mechanism, resulting key type, device algorithm and length. *)
Definition SHA_HMAC_KEY_GENERATION : list (Z * Z * Z * Z) :=
  [(CKM_SHA_1_KEY_GEN, CKK_SHA_1_HMAC, YUBIHSM_ALGO_HMAC_SHA1, 20);
   (CKM_SHA256_KEY_GEN, CKK_SHA256_HMAC, YUBIHSM_ALGO_HMAC_SHA256, 32);
   (CKM_SHA384_KEY_GEN, CKK_SHA384_HMAC, YUBIHSM_ALGO_HMAC_SHA384, 48);
   (CKM_SHA512_KEY_GEN, CKK_SHA512_HMAC, YUBIHSM_ALGO_HMAC_SHA512, 64)].
Definition sha_hmac_generation_key_type (m : Z) : option Z :=
  (λ '(_, key_type, _, _), key_type)
    <$> List.find (λ '(generation, _, _, _), generation =? m) SHA_HMAC_KEY_GENERATION.

Definition RSA_BASE_MECHANISMS : list Z := [CKM_RSA_X_509; CKM_RSA_PKCS; CKM_RSA_PKCS_OAEP; CKM_RSA_PKCS_PSS].
(** The flags of an RSA mechanism that signs with [sign] and encrypts with
    [crypt]. *)
Definition rsa_flags (sign crypt t : Z) : Z :=
  Z.lor (if t =? CKM_RSA_PKCS_OAEP then 0 else sign)
        (if one_of [CKM_RSA_X_509; CKM_RSA_PKCS; CKM_RSA_PKCS_OAEP] t then crypt else 0).
Definition rsa_details (sign crypt : Z) : list MechanismDetails :=
  (λ t, mkDetails t 1024 4096 (rsa_flags sign crypt t))
    <$> RSA_BASE_MECHANISMS ++ HASHED_RSA_PKCS_MECHANISMS ++ HASHED_RSA_PSS_MECHANISMS.

Definition software_public_mechanisms : list MechanismDetails :=
  each HASH_ML_DSA_MECHANISMS 1312 2592 CKF_VERIFY
  ++ rsa_details CKF_VERIFY CKF_ENCRYPT
  ++ each (CKM_ECDSA :: HASHED_ECDSA_MECHANISMS) 224 521 (any_of [CKF_VERIFY; CKF_EC_F_P; CKF_EC_NAMEDCURVE])
  ++ [mkDetails CKM_EDDSA 255 448 CKF_VERIFY;
      mkDetails CKM_ML_DSA 1312 2592 CKF_VERIFY;
      mkDetails CKM_HASH_ML_DSA 1312 2592 CKF_VERIFY;
      mkDetails CKM_ML_KEM 800 1568 CKF_ENCAPSULATE]
  ++ ((λ '(t, size), mkDetails t size size CKF_ENCAPSULATE)
        <$> [(CKM_PKCS11RS_MLKEM768_P256, 1249); (CKM_PKCS11RS_MLKEM768_X25519, 1216);
             (CKM_PKCS11RS_MLKEM1024_P384, 1665)])
  ++ [mkDetails CKM_PKCS11RS_PROJECT_PUBLIC_KEY 0 0 CKF_DERIVE].

Definition software_private_mechanisms : list MechanismDetails :=
  [mkDetails CKM_RSA_PKCS_KEY_PAIR_GEN 1024 4096 CKF_GENERATE_KEY_PAIR;
   mkDetails CKM_EC_KEY_PAIR_GEN 224 521 (any_of [CKF_GENERATE_KEY_PAIR; CKF_EC_F_P; CKF_EC_NAMEDCURVE]);
   mkDetails CKM_EC_EDWARDS_KEY_PAIR_GEN 255 448
     (any_of [CKF_GENERATE_KEY_PAIR; CKF_EC_NAMEDCURVE; CKF_EC_CURVENAME]);
   mkDetails CKM_EC_MONTGOMERY_KEY_PAIR_GEN 255 448
     (any_of [CKF_GENERATE_KEY_PAIR; CKF_EC_NAMEDCURVE; CKF_EC_CURVENAME]);
   mkDetails CKM_ML_DSA_KEY_PAIR_GEN 1312 2592 CKF_GENERATE_KEY_PAIR;
   mkDetails CKM_ML_DSA 1312 2592 CKF_SIGN;
   mkDetails CKM_HASH_ML_DSA 1312 2592 CKF_SIGN;
   mkDetails CKM_ML_KEM_KEY_PAIR_GEN 800 1568 CKF_GENERATE_KEY_PAIR;
   mkDetails CKM_ML_KEM 800 1568 (any_of [CKF_ENCAPSULATE; CKF_DECAPSULATE]);
   mkDetails CKM_PKCS11RS_MLKEM768_P256_KEY_PAIR_GEN 1249 1249 CKF_GENERATE_KEY_PAIR;
   mkDetails CKM_PKCS11RS_MLKEM768_P256 1249 1249 (any_of [CKF_ENCAPSULATE; CKF_DECAPSULATE]);
   mkDetails CKM_PKCS11RS_MLKEM768_X25519_KEY_PAIR_GEN 1216 1216 CKF_GENERATE_KEY_PAIR;
   mkDetails CKM_PKCS11RS_MLKEM768_X25519 1216 1216 (any_of [CKF_ENCAPSULATE; CKF_DECAPSULATE]);
   mkDetails CKM_PKCS11RS_MLKEM1024_P384_KEY_PAIR_GEN 1665 1665 CKF_GENERATE_KEY_PAIR;
   mkDetails CKM_PKCS11RS_MLKEM1024_P384 1665 1665 (any_of [CKF_ENCAPSULATE; CKF_DECAPSULATE]);
   mkDetails CKM_ECDH1_DERIVE 224 521 CKF_DERIVE;
   mkDetails CKM_PKCS11RS_PREFIXED_ECDH_DERIVE 224 521 CKF_DERIVE;
   mkDetails CKM_ECDH1_COFACTOR_DERIVE 224 521 CKF_DERIVE;
   mkDetails CKM_EDDSA 255 448 CKF_SIGN]
  ++ each HASH_ML_DSA_MECHANISMS 1312 2592 CKF_SIGN
  ++ rsa_details CKF_SIGN CKF_DECRYPT
  ++ each (CKM_ECDSA :: HASHED_ECDSA_MECHANISMS) 224 521 (any_of [CKF_SIGN; CKF_EC_F_P; CKF_EC_NAMEDCURVE]).

Definition software_secret_mechanisms : list MechanismDetails :=
  [mkDetails CKM_GENERIC_SECRET_KEY_GEN 1 1024 CKF_GENERATE;
   mkDetails CKM_AES_KEY_GEN 16 32 CKF_GENERATE;
   mkDetails CKM_DES3_KEY_GEN 24 24 CKF_GENERATE;
   mkDetails CKM_PKCS5_PBKD2 1 1024 CKF_GENERATE;
   mkDetails CKM_HKDF_DERIVE 20 64 CKF_DERIVE;
   mkDetails CKM_SP800_108_COUNTER_KDF 128 256 CKF_DERIVE;
   mkDetails CKM_CONCATENATE_BASE_AND_KEY 1 1024 CKF_DERIVE;
   mkDetails CKM_CONCATENATE_BASE_AND_DATA 1 1024 CKF_DERIVE;
   mkDetails CKM_EXTRACT_KEY_FROM_KEY 1 1024 CKF_DERIVE;
   mkDetails CKM_SHA256_KEY_DERIVATION 1 1024 CKF_DERIVE;
   mkDetails CKM_RSA_PKCS 1024 4096 (any_of [CKF_WRAP; CKF_UNWRAP]);
   mkDetails CKM_RSA_PKCS_OAEP 1024 4096 (any_of [CKF_WRAP; CKF_UNWRAP]);
   mkDetails CKM_RSA_AES_KEY_WRAP 1024 4096 (any_of [CKF_WRAP; CKF_UNWRAP])]
  ++ ((λ '(t, _, _, _), mkDetails t 1 1024 CKF_GENERATE) <$> SHA_HMAC_KEY_GENERATION)
  ++ ((λ t, mkDetails t 16 32
              (if one_of [CKM_AES_KEY_WRAP; CKM_AES_KEY_WRAP_KWP] t
               then any_of [CKF_ENCRYPT; CKF_DECRYPT; CKF_WRAP; CKF_UNWRAP]
               else any_of [CKF_ENCRYPT; CKF_DECRYPT]))
        <$> [CKM_AES_ECB; CKM_AES_CBC; CKM_AES_CBC_PAD; CKM_AES_CTR; CKM_AES_CCM; CKM_AES_GCM; CKM_AES_KEY_WRAP;
             CKM_AES_KEY_WRAP_KWP])
  ++ each [CKM_DES3_ECB; CKM_DES3_CBC; CKM_DES3_CBC_PAD] 24 24 (any_of [CKF_ENCRYPT; CKF_DECRYPT])
  ++ each [CKM_AES_CMAC; CKM_AES_CMAC_GENERAL; CKM_AES_GMAC] 16 32 (any_of [CKF_SIGN; CKF_VERIFY])
  ++ each [CKM_SHA_1_HMAC; CKM_SHA_1_HMAC_GENERAL; CKM_SHA224_HMAC; CKM_SHA224_HMAC_GENERAL; CKM_SHA256_HMAC;
           CKM_SHA256_HMAC_GENERAL; CKM_SHA384_HMAC; CKM_SHA384_HMAC_GENERAL; CKM_SHA512_HMAC;
           CKM_SHA512_HMAC_GENERAL] 1 1024 (any_of [CKF_SIGN; CKF_VERIFY]).

(** ** A slot's mechanisms *)

Definition find_mechanism (m : Z) (table : list MechanismDetails) : option MechanismDetails :=
  List.find (λ d, type_ d =? m) table.
Definition flag_set (d : MechanismDetails) (flags : Z) : bool := negb (Z.land (details_flags d) flags =? 0).
(** Merging a mechanism into a table: the entry of its type is widened, or the
    mechanism is appended. *)
Fixpoint merge_mechanism (d : MechanismDetails) (table : list MechanismDetails) : list MechanismDetails :=
  match table with
  | [] => [d]
  | e :: rest =>
      if type_ e =? type_ d then
        mkDetails (type_ e) (Z.min (min_key_size e) (min_key_size d)) (Z.max (max_key_size e) (max_key_size d))
          (Z.lor (details_flags e) (details_flags d)) :: rest
      else e :: merge_mechanism d rest
  end.
Definition merge_mechanisms (added table : list MechanismDetails) : list MechanismDetails :=
  foldl (λ table d, merge_mechanism d table) table added.

Inductive SoftwareMechanismScope : Type := ScopeNone | ScopeComposition | ScopeFull.

(** What [Slot::mechanisms] asks of a backend. *)
Record SlotMechanisms : Type := mkSlotMechanisms {
  backend_mechanisms : list MechanismDetails;
  software_mechanism_scope : SoftwareMechanismScope;
  software_mechanism_enabled : Z → bool;
  slot_supports_public_projection : bool;
}.

(** The framings a host can put around a native signature primitive. *)
Definition add_composites (native_table : list MechanismDetails) (base : Z) (candidates : list Z)
    : list MechanismDetails :=
  match find_mechanism base native_table with
  | None => []
  | Some native =>
      if negb (flag_set native CKF_SIGN) then []
      else
        let scaled (flag : Z) (detail : MechanismDetails) :=
          mkDetails (type_ detail) (min_key_size native) (max_key_size native)
            (Z.lor (Z.land (details_flags detail) flag) (Z.land (details_flags native) CKF_HW)) in
        candidates ≫= λ t,
          option_list (scaled CKF_SIGN <$> find_mechanism t software_private_mechanisms)
          ++ option_list (scaled CKF_VERIFY <$> find_mechanism t software_public_mechanisms)
  end.

(** Literal-prefix ECDH over a native ECDH, and the one-use P-256 key for it. *)
Definition prefixed_ecdh (native_table : list MechanismDetails) : list MechanismDetails :=
  match List.find (λ d, (type_ d =? CKM_ECDH1_DERIVE) && flag_set d CKF_DERIVE) native_table with
  | None => []
  | Some native =>
      option_list
        ((λ d, mkDetails (type_ d) (min_key_size native) (max_key_size native)
                 (Z.lor (details_flags d) (Z.land (details_flags native) CKF_HW)))
           <$> find_mechanism CKM_PKCS11RS_PREFIXED_ECDH_DERIVE software_private_mechanisms)
      ++ (if negb (existsb (λ d, type_ d =? CKM_EC_KEY_PAIR_GEN) native_table) && (min_key_size native <=? 256)
             && (256 <=? max_key_size native)
          then option_list ((λ d, mkDetails (type_ d) 256 256 (details_flags d))
                              <$> find_mechanism CKM_EC_KEY_PAIR_GEN software_private_mechanisms)
          else [])
  end.

Definition CRYPT_OPERATION_FLAGS : Z :=
  any_of [CKF_ENCRYPT; CKF_DECRYPT; CKF_SIGN; CKF_VERIFY; CKF_ENCAPSULATE; CKF_DECAPSULATE].
(** The public half of a private operation the backend has. *)
Definition public_complement (s : SlotMechanisms) (software : MechanismDetails) : list MechanismDetails :=
  if type_ software =? CKM_PKCS11RS_PROJECT_PUBLIC_KEY then
    if slot_supports_public_projection s then [software] else []
  else
    match find_mechanism (type_ software) (backend_mechanisms s) with
    | None => []
    | Some native =>
        let half (private_flag public_flag : Z) :=
          if flag_set native private_flag then Z.land (details_flags software) public_flag else 0 in
        let operations := any_of [half CKF_SIGN CKF_VERIFY; half CKF_DECRYPT CKF_ENCRYPT;
                                  half CKF_DECAPSULATE CKF_ENCAPSULATE] in
        if operations =? 0 then []
        else [mkDetails (type_ software) (min_key_size native) (max_key_size native)
                (Z.lor operations (Z.ldiff (details_flags software) CRYPT_OPERATION_FLAGS))]
    end.

Definition produces_session_secret (native_table : list MechanismDetails) : bool :=
  existsb (λ d, negb (type_ d =? CKM_PKCS11RS_PROJECT_PUBLIC_KEY) && negb (type_ d =? CKM_PKCS11RS_PREVIEW_SIGN_DERIVE)
                && flag_set d (any_of [CKF_DERIVE; CKF_DECAPSULATE; CKF_UNWRAP])) native_table.
Definition session_secret_mechanisms : list MechanismDetails :=
  List.filter (λ d, negb (flag_set d CKF_GENERATE)
                    && negb (one_of [CKM_RSA_PKCS; CKM_RSA_PKCS_OAEP; CKM_RSA_AES_KEY_WRAP] (type_ d)))
    software_secret_mechanisms.

Definition software_mechanisms (s : SlotMechanisms) : list MechanismDetails :=
  let native_table := backend_mechanisms s in
  match software_mechanism_scope s with
  | ScopeNone => []
  | ScopeFull =>
      software_private_mechanisms ++ software_secret_mechanisms ++ software_public_mechanisms
      ++ SOFTWARE_DIGEST_MECHANISMS
  | ScopeComposition =>
      SOFTWARE_DIGEST_MECHANISMS
      ++ add_composites native_table CKM_RSA_PKCS HASHED_RSA_PKCS_MECHANISMS
      ++ add_composites native_table CKM_RSA_PKCS_PSS HASHED_RSA_PSS_MECHANISMS
      ++ add_composites native_table CKM_ECDSA HASHED_ECDSA_MECHANISMS
      ++ prefixed_ecdh native_table
      ++ (software_public_mechanisms ≫= public_complement s)
      ++ (if produces_session_secret native_table then session_secret_mechanisms else [])
  end.

Definition slot_mechanisms (s : SlotMechanisms) : list MechanismDetails :=
  merge_mechanisms
    (List.filter (λ d, software_mechanism_enabled s (type_ d)
                       && (negb (type_ d =? CKM_PKCS11RS_PROJECT_PUBLIC_KEY) || slot_supports_public_projection s))
       (software_mechanisms s))
    (backend_mechanisms s).

(** ** The YubiHSM's mechanisms *)

Definition yubihsm_has_virtual_extensions (algorithms : list Z) : bool :=
  existsb (one_of [YUBIHSM_ALGO_X25519; YUBIHSM_ALGO_X448; YUBIHSM_ALGO_ED448; YUBIHSM_ALGO_ML_DSA_44;
                   YUBIHSM_ALGO_ML_DSA_65; YUBIHSM_ALGO_ML_DSA_87; YUBIHSM_ALGO_ML_KEM_512;
                   YUBIHSM_ALGO_ML_KEM_768; YUBIHSM_ALGO_ML_KEM_1024; YUBIHSM_ALGO_HYBRID_ML_KEM_768_P256;
                   YUBIHSM_ALGO_HYBRID_ML_KEM_768_X25519; YUBIHSM_ALGO_HYBRID_ML_KEM_1024_P384]) algorithms.

Definition HW_CIPHER : Z := any_of [CKF_HW; CKF_ENCRYPT; CKF_DECRYPT].
Definition HW_SIGNATURE : Z := any_of [CKF_HW; CKF_SIGN; CKF_VERIFY].
Definition HW_DERIVE : Z := any_of [CKF_HW; CKF_DERIVE].
Definition HW_PAIR : Z := any_of [CKF_HW; CKF_GENERATE_KEY_PAIR].
Definition HW_WRAP : Z := any_of [CKF_HW; CKF_WRAP; CKF_UNWRAP].
Definition HW_ECDSA : Z := any_of [CKF_HW; CKF_SIGN; CKF_VERIFY; CKF_EC_F_P; CKF_EC_NAMEDCURVE].
Definition HW_EC_PAIR : Z := any_of [CKF_HW; CKF_GENERATE_KEY_PAIR; CKF_EC_F_P; CKF_EC_NAMEDCURVE].
Definition HW_CURVE_PAIR : Z := any_of [CKF_HW; CKF_GENERATE_KEY_PAIR; CKF_EC_NAMEDCURVE; CKF_EC_CURVENAME].

Definition YUBIHSM_MECHANISMS : list MechanismDetails :=
  [mkDetails CKM_SP800_108_COUNTER_KDF 128 256 HW_DERIVE;
   mkDetails CKM_RSA_PKCS_KEY_PAIR_GEN 2048 4096 HW_PAIR;
   mkDetails CKM_RSA_PKCS 2048 4096 (any_of [CKF_HW; CKF_ENCRYPT; CKF_DECRYPT; CKF_SIGN; CKF_VERIFY]);
   mkDetails CKM_RSA_PKCS_PSS 2048 4096 HW_SIGNATURE;
   mkDetails CKM_RSA_PKCS_OAEP 2048 4096 HW_CIPHER;
   mkDetails CKM_RSA_AES_KEY_WRAP 2048 4096 HW_WRAP;
   mkDetails CKM_YUBICO_RSA_WRAP 2048 4096 HW_WRAP;
   mkDetails CKM_YUBICO_AES_CCM_WRAP 16 32 (any_of [CKF_HW; CKF_ENCRYPT; CKF_DECRYPT; CKF_WRAP; CKF_UNWRAP]);
   mkDetails CKM_EC_KEY_PAIR_GEN 224 521 HW_EC_PAIR;
   mkDetails CKM_ECDSA 224 521 HW_ECDSA;
   mkDetails CKM_EC_MONTGOMERY_KEY_PAIR_GEN 255 255 HW_CURVE_PAIR;
   mkDetails CKM_EC_EDWARDS_KEY_PAIR_GEN 255 255 HW_CURVE_PAIR;
   mkDetails CKM_ECDH1_DERIVE 224 521 HW_DERIVE;
   mkDetails CKM_PKCS11RS_PREFIXED_ECDH_DERIVE 224 521 HW_DERIVE;
   mkDetails CKM_EDDSA 255 255 HW_SIGNATURE;
   mkDetails CKM_AES_KEY_GEN 16 32 (any_of [CKF_HW; CKF_GENERATE]);
   mkDetails CKM_AES_ECB 16 32 HW_CIPHER;
   mkDetails CKM_AES_CBC 16 32 HW_CIPHER;
   mkDetails CKM_AES_CBC_PAD 16 32 HW_CIPHER;
   mkDetails CKM_AES_CTR 16 32 HW_CIPHER;
   mkDetails CKM_AES_CCM 16 32 HW_CIPHER;
   mkDetails CKM_AES_KEY_WRAP 16 32 HW_CIPHER;
   mkDetails CKM_AES_KEY_WRAP_KWP 16 32 HW_CIPHER;
   mkDetails CKM_AES_GCM 16 32 HW_CIPHER;
   mkDetails CKM_AES_GMAC 16 32 HW_SIGNATURE;
   mkDetails CKM_AES_CMAC 16 32 HW_SIGNATURE;
   mkDetails CKM_AES_CMAC_GENERAL 16 32 HW_SIGNATURE;
   mkDetails CKM_GENERIC_SECRET_KEY_GEN 20 64 (any_of [CKF_HW; CKF_GENERATE]);
   mkDetails CKM_SHA_1_HMAC 1 512 HW_SIGNATURE;
   mkDetails CKM_SHA256_HMAC 1 512 HW_SIGNATURE;
   mkDetails CKM_SHA384_HMAC 1 1024 HW_SIGNATURE;
   mkDetails CKM_SHA512_HMAC 1 1024 HW_SIGNATURE].

(** [algorithms.iter().filter_map(|a| match a ...)] over a table of sizes. *)
Definition sizes_of (table : list (Z * Z)) (algorithms : list Z) : list Z :=
  omap (λ a, snd <$> List.find (λ '(algorithm, _), algorithm =? a) table) algorithms.
Definition rsa_sizes : list Z → list Z :=
  sizes_of [(YUBIHSM_ALGO_RSA_2048, 2048); (YUBIHSM_ALGO_RSA_3072, 3072); (YUBIHSM_ALGO_RSA_4096, 4096)].
Definition ec_sizes : list Z → list Z :=
  sizes_of [(YUBIHSM_ALGO_EC_P224, 224); (YUBIHSM_ALGO_EC_P256, 256); (YUBIHSM_ALGO_EC_K256, 256);
            (YUBIHSM_ALGO_EC_BP256, 256); (YUBIHSM_ALGO_EC_P384, 384); (YUBIHSM_ALGO_EC_BP384, 384);
            (YUBIHSM_ALGO_EC_BP512, 512); (YUBIHSM_ALGO_EC_P521, 521)].
Definition montgomery_sizes : list Z → list Z := sizes_of [(YUBIHSM_ALGO_X25519, 255); (YUBIHSM_ALGO_X448, 448)].
Definition edwards_sizes : list Z → list Z := sizes_of [(YUBIHSM_ALGO_ED25519, 255); (YUBIHSM_ALGO_ED448, 448)].
Definition aes_sizes : list Z → list Z :=
  sizes_of [(YUBIHSM_ALGO_AES128, 16); (YUBIHSM_ALGO_AES192, 24); (YUBIHSM_ALGO_AES256, 32)].
Definition ccm_wrap_sizes : list Z → list Z :=
  sizes_of [(YUBIHSM_ALGO_AES128_CCM_WRAP, 16); (YUBIHSM_ALGO_AES192_CCM_WRAP, 24);
            (YUBIHSM_ALGO_AES256_CCM_WRAP, 32)].

(** [iter().min()] and [iter().max()] together. *)
Definition size_range (sizes : list Z) : option (Z * Z) :=
  match sizes with
  | [] => None
  | s :: rest => Some (foldr Z.min s rest, foldr Z.max s rest)
  end.

Definition yubihsm_sizes (algorithms : list Z) (m : Z) : list Z :=
  if one_of [CKM_RSA_PKCS_KEY_PAIR_GEN; CKM_RSA_PKCS; CKM_RSA_PKCS_PSS; CKM_RSA_PKCS_OAEP; CKM_RSA_AES_KEY_WRAP;
             CKM_YUBICO_RSA_WRAP] m then rsa_sizes algorithms
  else if m =? CKM_YUBICO_AES_CCM_WRAP then ccm_wrap_sizes algorithms
  else if one_of [CKM_EC_KEY_PAIR_GEN; CKM_ECDSA] m then ec_sizes algorithms
  else if m =? CKM_EC_MONTGOMERY_KEY_PAIR_GEN then montgomery_sizes algorithms
  else if one_of [CKM_EC_EDWARDS_KEY_PAIR_GEN; CKM_EDDSA] m then edwards_sizes algorithms
  else if one_of [CKM_ECDH1_DERIVE; CKM_PKCS11RS_PREFIXED_ECDH_DERIVE] m then
    ec_sizes algorithms ++ montgomery_sizes algorithms
  else if one_of [CKM_AES_KEY_GEN; CKM_AES_ECB; CKM_AES_CBC; CKM_AES_CBC_PAD; CKM_AES_CTR; CKM_AES_CCM;
                  CKM_AES_KEY_WRAP; CKM_AES_KEY_WRAP_KWP; CKM_AES_GCM; CKM_AES_GMAC; CKM_AES_CMAC;
                  CKM_AES_CMAC_GENERAL; CKM_SP800_108_COUNTER_KDF] m then aes_sizes algorithms
  else [].

(** [any(&[...])] *)
Definition has_any (candidates algorithms : list Z) : bool := existsb (λ c, one_of algorithms c) candidates.
Definition has_rsa : list Z → bool := has_any [YUBIHSM_ALGO_RSA_2048; YUBIHSM_ALGO_RSA_3072; YUBIHSM_ALGO_RSA_4096].
Definition has_ec : list Z → bool :=
  has_any [YUBIHSM_ALGO_EC_P224; YUBIHSM_ALGO_EC_P256; YUBIHSM_ALGO_EC_P384; YUBIHSM_ALGO_EC_P521;
           YUBIHSM_ALGO_EC_K256; YUBIHSM_ALGO_EC_BP256; YUBIHSM_ALGO_EC_BP384; YUBIHSM_ALGO_EC_BP512].
Definition has_montgomery : list Z → bool := has_any [YUBIHSM_ALGO_X25519; YUBIHSM_ALGO_X448].
Definition has_edwards : list Z → bool := has_any [YUBIHSM_ALGO_ED25519; YUBIHSM_ALGO_ED448].
Definition HSM_OAEP : list Z :=
  [YUBIHSM_ALGO_RSA_OAEP_SHA1; YUBIHSM_ALGO_RSA_OAEP_SHA256; YUBIHSM_ALGO_RSA_OAEP_SHA384;
   YUBIHSM_ALGO_RSA_OAEP_SHA512].
Definition has_rsa_wrap (algorithms : list Z) : bool :=
  has_rsa algorithms && one_of algorithms YUBIHSM_ALGO_AES_KWP && has_any HSM_OAEP algorithms.
Definition has_rsa_pkcs_wrap (algorithms : list Z) : bool :=
  has_rsa algorithms && yubihsm_has_virtual_extensions algorithms.
Definition can_sign_pkcs : list Z → bool :=
  has_any [YUBIHSM_ALGO_RSA_PKCS1_SHA1; YUBIHSM_ALGO_RSA_PKCS1_SHA256; YUBIHSM_ALGO_RSA_PKCS1_SHA384;
           YUBIHSM_ALGO_RSA_PKCS1_SHA512].
Definition can_decrypt_pkcs (algorithms : list Z) : bool := one_of algorithms YUBIHSM_ALGO_RSA_PKCS1_DECRYPT.

(** The flags of [CKM_RSA_PKCS] depend on the device's algorithms. *)
Definition yubihsm_rsa_pkcs_flags (algorithms : list Z) : Z :=
  any_of [CKF_HW; if can_sign_pkcs algorithms then any_of [CKF_SIGN; CKF_VERIFY] else 0;
          if can_decrypt_pkcs algorithms then any_of [CKF_DECRYPT; CKF_ENCRYPT] else 0;
          if has_rsa_pkcs_wrap algorithms then any_of [CKF_WRAP; CKF_UNWRAP] else 0].

Definition yubihsm_supported (algorithms : list Z) (m : Z) : bool :=
  let contains := one_of algorithms in
  if m =? CKM_SP800_108_COUNTER_KDF then bool_decide (aes_sizes algorithms ≠ []) && contains YUBIHSM_ALGO_AES_ECB
  else if m =? CKM_RSA_PKCS_KEY_PAIR_GEN then has_rsa algorithms
  else if m =? CKM_RSA_PKCS then
    has_rsa algorithms && (can_sign_pkcs algorithms || can_decrypt_pkcs algorithms || has_rsa_pkcs_wrap algorithms)
  else if m =? CKM_RSA_PKCS_PSS then
    has_rsa algorithms && has_any [YUBIHSM_ALGO_RSA_PSS_SHA1; YUBIHSM_ALGO_RSA_PSS_SHA256; YUBIHSM_ALGO_RSA_PSS_SHA384;
                                   YUBIHSM_ALGO_RSA_PSS_SHA512] algorithms
  else if m =? CKM_RSA_PKCS_OAEP then has_rsa algorithms && has_any HSM_OAEP algorithms
  else if one_of [CKM_RSA_AES_KEY_WRAP; CKM_YUBICO_RSA_WRAP] m then has_rsa_wrap algorithms
  else if m =? CKM_YUBICO_AES_CCM_WRAP then bool_decide (ccm_wrap_sizes algorithms ≠ [])
  else if m =? CKM_EC_KEY_PAIR_GEN then has_ec algorithms
  else if m =? CKM_ECDSA then
    has_ec algorithms && has_any [YUBIHSM_ALGO_EC_ECDSA_SHA1; YUBIHSM_ALGO_EC_ECDSA_SHA256;
                                  YUBIHSM_ALGO_EC_ECDSA_SHA384; YUBIHSM_ALGO_EC_ECDSA_SHA512] algorithms
  else if m =? CKM_EC_MONTGOMERY_KEY_PAIR_GEN then has_montgomery algorithms
  else if m =? CKM_EC_EDWARDS_KEY_PAIR_GEN then has_edwards algorithms
  else if one_of [CKM_ECDH1_DERIVE; CKM_PKCS11RS_PREFIXED_ECDH_DERIVE] m then
    has_ec algorithms || has_montgomery algorithms
  else if m =? CKM_EDDSA then has_edwards algorithms
  else if m =? CKM_AES_KEY_GEN then
    has_any [YUBIHSM_ALGO_AES128; YUBIHSM_ALGO_AES192; YUBIHSM_ALGO_AES256] algorithms
  else if m =? CKM_AES_ECB then contains YUBIHSM_ALGO_AES_ECB
  else if one_of [CKM_AES_CBC; CKM_AES_CBC_PAD] m then contains YUBIHSM_ALGO_AES_CBC
  else if m =? CKM_AES_CTR then contains YUBIHSM_ALGO_AES_ECB
  else if m =? CKM_AES_CCM then contains YUBIHSM_ALGO_AES_ECB && contains YUBIHSM_ALGO_AES_CBC
  else if one_of [CKM_AES_KEY_WRAP; CKM_AES_KEY_WRAP_KWP; CKM_AES_GCM; CKM_AES_GMAC; CKM_AES_CMAC;
                  CKM_AES_CMAC_GENERAL] m then contains YUBIHSM_ALGO_AES_ECB
  else if m =? CKM_GENERIC_SECRET_KEY_GEN then
    has_any [YUBIHSM_ALGO_HMAC_SHA1; YUBIHSM_ALGO_HMAC_SHA256; YUBIHSM_ALGO_HMAC_SHA384;
             YUBIHSM_ALGO_HMAC_SHA512] algorithms
  else if m =? CKM_SHA_1_HMAC then contains YUBIHSM_ALGO_HMAC_SHA1
  else if m =? CKM_SHA256_HMAC then contains YUBIHSM_ALGO_HMAC_SHA256
  else if m =? CKM_SHA384_HMAC then contains YUBIHSM_ALGO_HMAC_SHA384
  else if m =? CKM_SHA512_HMAC then contains YUBIHSM_ALGO_HMAC_SHA512
  else false.

(** An entry of the static table as this device has it. *)
Definition yubihsm_entry (algorithms : list Z) (d : MechanismDetails) : option MechanismDetails :=
  let scale := if type_ d =? CKM_SP800_108_COUNTER_KDF then 8 else 1 in
  let '(min, max) := match size_range (yubihsm_sizes algorithms (type_ d)) with
                     | Some (minimum, maximum) => (minimum * scale, maximum * scale)
                     | None => (min_key_size d, max_key_size d)
                     end in
  if yubihsm_supported algorithms (type_ d) then
    Some (mkDetails (type_ d) min max
            (if type_ d =? CKM_RSA_PKCS then yubihsm_rsa_pkcs_flags algorithms else details_flags d))
  else None.

Definition yubihsm_hmac_generation (algorithms : list Z) : list MechanismDetails :=
  omap (λ '(t, _, algorithm, length),
          if one_of algorithms algorithm then Some (mkDetails t length length (any_of [CKF_HW; CKF_GENERATE]))
          else None) SHA_HMAC_KEY_GENERATION.

(** The parameter sets of one post-quantum algorithm that the device has. *)
Definition yubihsm_lattice (algorithms : list Z) (base : Z) (sizes : list Z) (generation operation flags : Z)
    : list MechanismDetails :=
  let present := omap (λ '(i, size), if one_of algorithms (base + Z.of_nat i) then Some size else None)
                   (imap pair sizes) in
  match size_range present with
  | None => []
  | Some (min, max) =>
      (if operation =? CKM_ML_DSA then each (CKM_HASH_ML_DSA :: HASH_ML_DSA_MECHANISMS) min max HW_SIGNATURE else [])
      ++ [mkDetails generation min max HW_PAIR; mkDetails operation min max (Z.lor CKF_HW flags)]
  end.
Definition yubihsm_post_quantum (algorithms : list Z) : list MechanismDetails :=
  yubihsm_lattice algorithms YUBIHSM_ALGO_ML_DSA_44 [1312; 1952; 2592] CKM_ML_DSA_KEY_PAIR_GEN CKM_ML_DSA
    (any_of [CKF_SIGN; CKF_VERIFY])
  ++ yubihsm_lattice algorithms YUBIHSM_ALGO_ML_KEM_512 [800; 1184; 1568] CKM_ML_KEM_KEY_PAIR_GEN CKM_ML_KEM
       (any_of [CKF_ENCAPSULATE; CKF_DECAPSULATE]).
Definition HSM_HYBRIDS : list (Z * Z * Z * Z) :=
  [(YUBIHSM_ALGO_HYBRID_ML_KEM_768_P256, 1249, CKM_PKCS11RS_MLKEM768_P256_KEY_PAIR_GEN, CKM_PKCS11RS_MLKEM768_P256);
   (YUBIHSM_ALGO_HYBRID_ML_KEM_768_X25519, 1216, CKM_PKCS11RS_MLKEM768_X25519_KEY_PAIR_GEN,
    CKM_PKCS11RS_MLKEM768_X25519);
   (YUBIHSM_ALGO_HYBRID_ML_KEM_1024_P384, 1665, CKM_PKCS11RS_MLKEM1024_P384_KEY_PAIR_GEN,
    CKM_PKCS11RS_MLKEM1024_P384)].
Definition yubihsm_hybrid (algorithms : list Z) : list MechanismDetails :=
  HSM_HYBRIDS
  ≫= λ '(algorithm, size, generation, operation),
       if one_of algorithms algorithm then
         [mkDetails generation size size HW_PAIR;
          mkDetails operation size size (any_of [CKF_HW; CKF_ENCAPSULATE; CKF_DECAPSULATE])]
       else [].
(** A hashed signature per device algorithm, over the sizes of its keys. *)
Definition yubihsm_hashed (algorithms : list Z) (has : bool) (sizes : list Z) (flags : Z) (table : list (Z * Z))
    : list MechanismDetails :=
  omap (λ '(algorithm, t),
          match size_range sizes with
          | Some (min, max) => if has && one_of algorithms algorithm then Some (mkDetails t min max flags) else None
          | None => None
          end) table.
Definition yubihsm_hashed_rsa_pkcs (algorithms : list Z) : list MechanismDetails :=
  yubihsm_hashed algorithms (has_rsa algorithms) (rsa_sizes algorithms) HW_SIGNATURE
    [(YUBIHSM_ALGO_RSA_PKCS1_SHA1, CKM_SHA1_RSA_PKCS); (YUBIHSM_ALGO_RSA_PKCS1_SHA256, CKM_SHA256_RSA_PKCS);
     (YUBIHSM_ALGO_RSA_PKCS1_SHA384, CKM_SHA384_RSA_PKCS); (YUBIHSM_ALGO_RSA_PKCS1_SHA512, CKM_SHA512_RSA_PKCS)].
Definition yubihsm_hashed_rsa_pss (algorithms : list Z) : list MechanismDetails :=
  yubihsm_hashed algorithms (has_rsa algorithms) (rsa_sizes algorithms) HW_SIGNATURE
    [(YUBIHSM_ALGO_RSA_PSS_SHA1, CKM_SHA1_RSA_PKCS_PSS); (YUBIHSM_ALGO_RSA_PSS_SHA256, CKM_SHA256_RSA_PKCS_PSS);
     (YUBIHSM_ALGO_RSA_PSS_SHA384, CKM_SHA384_RSA_PKCS_PSS); (YUBIHSM_ALGO_RSA_PSS_SHA512, CKM_SHA512_RSA_PKCS_PSS)].
Definition yubihsm_hashed_ecdsa (algorithms : list Z) : list MechanismDetails :=
  yubihsm_hashed algorithms (has_ec algorithms) (ec_sizes algorithms) HW_ECDSA
    [(YUBIHSM_ALGO_EC_ECDSA_SHA1, CKM_ECDSA_SHA1); (YUBIHSM_ALGO_EC_ECDSA_SHA256, CKM_ECDSA_SHA256);
     (YUBIHSM_ALGO_EC_ECDSA_SHA384, CKM_ECDSA_SHA384); (YUBIHSM_ALGO_EC_ECDSA_SHA512, CKM_ECDSA_SHA512)].
Definition yubihsm_virtual_mechanisms : list MechanismDetails :=
  [mkDetails CKM_EC_KEY_PAIR_GEN 256 256 HW_EC_PAIR;
   mkDetails CKM_ECDH1_DERIVE 256 256 HW_DERIVE;
   mkDetails CKM_SP800_108_COUNTER_KDF 128 256 HW_DERIVE;
   mkDetails CKM_CONCATENATE_BASE_AND_KEY 1 1024 HW_DERIVE;
   mkDetails CKM_CONCATENATE_BASE_AND_DATA 1 1024 HW_DERIVE;
   mkDetails CKM_EXTRACT_KEY_FROM_KEY 1 1024 HW_DERIVE;
   mkDetails CKM_SHA256_KEY_DERIVATION 1 1024 HW_DERIVE;
   mkDetails CKM_AES_CMAC 16 32 (any_of [CKF_HW; CKF_VERIFY]);
   mkDetails CKM_AES_CMAC_GENERAL 16 32 (any_of [CKF_HW; CKF_VERIFY])].

Definition yubihsm_mechanisms (algorithms : list Z) : list MechanismDetails :=
  merge_mechanisms
    (if yubihsm_has_virtual_extensions algorithms then yubihsm_virtual_mechanisms else [])
    (omap (yubihsm_entry algorithms) YUBIHSM_MECHANISMS ++ yubihsm_hmac_generation algorithms
     ++ yubihsm_post_quantum algorithms ++ yubihsm_hybrid algorithms ++ yubihsm_hashed_rsa_pkcs algorithms
     ++ yubihsm_hashed_rsa_pss algorithms ++ yubihsm_hashed_ecdsa algorithms).

(** ** The cards' mechanisms *)

(** [mechanism.flags |= CKF_HW] *)
Definition with_hw (d : MechanismDetails) : MechanismDetails :=
  mkDetails (type_ d) (min_key_size d) (max_key_size d) (Z.lor (details_flags d) CKF_HW).

(** PIV, by the card's firmware. *)
Definition piv_backend_mechanisms (firmware_5_7 supports_pq : bool) : list MechanismDetails :=
  let rsa_max := if firmware_5_7 then 4096 else 2048 in
  let sign_verify := any_of [CKF_SIGN; CKF_VERIFY] in
  let kem := any_of [CKF_ENCAPSULATE; CKF_DECAPSULATE] in
  with_hw <$>
    ((λ t, mkDetails t 1024 rsa_max
             (if t =? CKM_RSA_PKCS then any_of [CKF_ENCRYPT; CKF_DECRYPT; CKF_SIGN; CKF_VERIFY]
              else if t =? CKM_RSA_PKCS_OAEP then any_of [CKF_ENCRYPT; CKF_DECRYPT]
              else if t =? CKM_RSA_X_509 then any_of [CKF_ENCRYPT; CKF_DECRYPT; CKF_SIGN; CKF_VERIFY]
              else sign_verify))
       <$> RSA_BASE_MECHANISMS ++ HASHED_RSA_PKCS_MECHANISMS ++ HASHED_RSA_PSS_MECHANISMS)
    ++ each (CKM_ECDSA :: HASHED_ECDSA_MECHANISMS) 256 384 sign_verify
    ++ [mkDetails CKM_RSA_PKCS_KEY_PAIR_GEN 1024 rsa_max CKF_GENERATE_KEY_PAIR;
        mkDetails CKM_EC_KEY_PAIR_GEN 256 384 CKF_GENERATE_KEY_PAIR]
    ++ (if firmware_5_7 then
          [mkDetails CKM_EDDSA 255 255 sign_verify;
           mkDetails CKM_EC_EDWARDS_KEY_PAIR_GEN 255 255 CKF_GENERATE_KEY_PAIR;
           mkDetails CKM_EC_MONTGOMERY_KEY_PAIR_GEN 255 255 CKF_GENERATE_KEY_PAIR]
        else [])
    ++ (if supports_pq then
          [mkDetails CKM_ML_DSA 1312 2592 sign_verify; mkDetails CKM_HASH_ML_DSA 1312 2592 sign_verify]
          ++ each HASH_ML_DSA_MECHANISMS 1312 2592 sign_verify
          ++ [mkDetails CKM_ML_DSA_KEY_PAIR_GEN 1312 2592 CKF_GENERATE_KEY_PAIR;
              mkDetails CKM_ML_KEM 800 1568 kem;
              mkDetails CKM_ML_KEM_KEY_PAIR_GEN 800 1568 CKF_GENERATE_KEY_PAIR;
              mkDetails CKM_PKCS11RS_MLKEM768_P256 1249 1249 kem;
              mkDetails CKM_PKCS11RS_MLKEM768_P256_KEY_PAIR_GEN 1249 1249 CKF_GENERATE_KEY_PAIR;
              mkDetails CKM_PKCS11RS_MLKEM768_X25519 1216 1216 kem;
              mkDetails CKM_PKCS11RS_MLKEM768_X25519_KEY_PAIR_GEN 1216 1216 CKF_GENERATE_KEY_PAIR;
              mkDetails CKM_PKCS11RS_MLKEM1024_P384 1665 1665 kem;
              mkDetails CKM_PKCS11RS_MLKEM1024_P384_KEY_PAIR_GEN 1665 1665 CKF_GENERATE_KEY_PAIR]
        else [])
    ++ [mkDetails CKM_ECDH1_DERIVE (if firmware_5_7 then 255 else 256) 384 CKF_DERIVE;
        mkDetails CKM_ECDH1_COFACTOR_DERIVE (if firmware_5_7 then 255 else 256) 384 CKF_DERIVE].

(** OpenPGP; [has_ecdh]: one of the card's keys is for ECDH. *)
Definition openpgp_backend_mechanisms (has_ecdh : bool) : list MechanismDetails :=
  let sign_verify := any_of [CKF_SIGN; CKF_VERIFY] in
  with_hw <$>
    [mkDetails CKM_RSA_PKCS 2048 4096 (any_of [CKF_ENCRYPT; CKF_DECRYPT; CKF_SIGN; CKF_VERIFY]);
     mkDetails CKM_RSA_PKCS_KEY_PAIR_GEN 2048 4096 CKF_GENERATE_KEY_PAIR;
     mkDetails CKM_EC_KEY_PAIR_GEN 256 521 CKF_GENERATE_KEY_PAIR;
     mkDetails CKM_EC_EDWARDS_KEY_PAIR_GEN 255 255 CKF_GENERATE_KEY_PAIR;
     mkDetails CKM_EC_MONTGOMERY_KEY_PAIR_GEN 255 255 CKF_GENERATE_KEY_PAIR]
    ++ each [CKM_SHA256_RSA_PKCS; CKM_SHA384_RSA_PKCS; CKM_SHA512_RSA_PKCS] 2048 4096 sign_verify
    ++ [mkDetails CKM_RSA_X_509 2048 4096 (any_of [CKF_ENCRYPT; CKF_DECRYPT]);
        mkDetails CKM_ECDSA 256 521 sign_verify]
    ++ each [CKM_ECDSA_SHA256; CKM_ECDSA_SHA384; CKM_ECDSA_SHA512] 256 521 sign_verify
    ++ [mkDetails CKM_EDDSA 255 255 sign_verify]
    ++ (if has_ecdh then [mkDetails CKM_ECDH1_DERIVE 255 521 CKF_DERIVE] else []).

(** The platform's key store. *)
Definition host_backend_mechanisms : list MechanismDetails :=
  each [CKM_ECDH1_DERIVE; CKM_ECDH1_COFACTOR_DERIVE] 256 256
    (any_of [CKF_HW; CKF_DERIVE; CKF_EC_F_P; CKF_EC_NAMEDCURVE; CKF_EC_UNCOMPRESS]).

(** A FIDO authenticator whose information is known. *)
Definition ctap_backend_mechanisms (preview_sign : bool) : list MechanismDetails :=
  mkDetails CKM_PKCS11RS_FIDO_ASSERTION 0 CK_UNAVAILABLE_INFORMATION (any_of [CKF_HW; CKF_SIGN])
  :: (if preview_sign then
        [mkDetails CKM_PKCS11RS_PREVIEW_SIGN_KEY_PAIR_GEN 256 256 HW_PAIR;
         mkDetails CKM_PKCS11RS_PREVIEW_SIGN_DERIVE 256 256 CKF_DERIVE;
         mkDetails CKM_PKCS11RS_PREVIEW_SIGN 256 256 (any_of [CKF_HW; CKF_SIGN]);
         mkDetails CKM_ECDSA 256 256 (any_of [CKF_VERIFY; CKF_EC_F_P; CKF_EC_NAMEDCURVE])]
      else []).
