(* ===== verification/KeyMechanisms.v ===== *)
(** * KeyMechanisms: the mechanisms a key can be used with

    Models [src/src/key_mechanisms.rs] (the operations a key supports with a
    mechanism and the list shown as [CKA_ALLOWED_MECHANISMS]) and the
    [key_mechanism_operations] of the backends, which narrow it for native keys. *)
From S2P Require Import Prelude Errors Storage Mechanisms AttributeTypes KeyMetadata YubiHsm SlotState SessionApi CryptApi Digests CipherModes Ciphers SignatureModes OathOtp HsmCapabilities PivTables Signatures Attributes MechanismTables.

(** Whose keys a slot holds. *)
Inductive NativeKeys : Type := CommonKeys | PivKeys | OpenPgpKeys | YubiHsmKeys.

Section key_mechanisms.
Context {B : Type} `{RsaCore B, SignatureCore B, KeyCore, Certificates, PreviewSignRecords, HashCore}.

(** The operations the usage attributes of a key permit. *)
Definition key_usage (o : TokenObject) : Z :=
  let a := attributes o in
  let private := class o =? CKO_PRIVATE_KEY in
  let public := class o =? CKO_PUBLIC_KEY in
  let secret := class o =? CKO_SECRET_KEY in
  any_of
    ((λ '(enabled, flag), if (enabled : bool) then flag else 0)
       <$> [(sign o && (private || secret), CKF_SIGN);
            (verify o && (public || secret), CKF_VERIFY);
            (encrypt o && (public || secret), CKF_ENCRYPT);
            (decrypt o && (private || secret), CKF_DECRYPT);
            (can_wrap o && (public || secret || private), CKF_WRAP);
            (can_unwrap o && (private || secret), CKF_UNWRAP);
            (derive a && (private || secret), CKF_DERIVE);
            (encapsulate a && public, CKF_ENCAPSULATE);
            (decapsulate a && private, CKF_DECAPSULATE)]).

Definition is_software_secret (o : TokenObject) : bool :=
  match material o with SoftwareSecret _ => true | _ => false end.

(** The keys a mechanism is for: by key type, or by where the key is held. *)
Inductive KeyTest : Type :=
| OfType (key_types : list Z)
| SoftwareSecretOfType (key_types : option (list Z))
| DerivedForPreviewSign
| FidoResident.
Definition passes (test : KeyTest) (o : TokenObject) : bool :=
  match test with
  | OfType key_types => one_of key_types (key_type o)
  | SoftwareSecretOfType key_types =>
      ((class o =? CKO_SECRET_KEY) && is_software_secret o)
      && match key_types with Some ts => one_of ts (key_type o) | None => true end
  | DerivedForPreviewSign => match material o with PreviewSignDerived _ _ _ => true | _ => false end
  | FidoResident => match material o with FidoResidentPrivate _ => true | _ => false end
  end.

(** The arms of the match on the mechanism but the last: the keys it is for and
    the operations it has. *)
Definition mechanism_rule (m : Z) : option (KeyTest * Z) :=
  let rule (test : KeyTest) (flags : list Z) := Some (test, any_of flags) in
  let rsa := OfType [CKK_RSA] in
  let ec := OfType [CKK_EC] in
  let aes := OfType [CKK_AES] in
  if m =? CKM_RSA_PKCS then rule rsa [CKF_SIGN; CKF_VERIFY; CKF_ENCRYPT; CKF_DECRYPT; CKF_WRAP; CKF_UNWRAP]
  else if m =? CKM_RSA_X_509 then rule rsa [CKF_SIGN; CKF_VERIFY; CKF_ENCRYPT; CKF_DECRYPT]
  else if m =? CKM_RSA_PKCS_OAEP then rule rsa [CKF_ENCRYPT; CKF_DECRYPT; CKF_WRAP; CKF_UNWRAP]
  else if (m =? CKM_RSA_AES_KEY_WRAP) || (m =? CKM_YUBICO_RSA_WRAP) then rule rsa [CKF_WRAP; CKF_UNWRAP]
  else if (m =? CKM_RSA_PKCS_PSS) || one_of HASHED_RSA_PKCS_MECHANISMS m || one_of HASHED_RSA_PSS_MECHANISMS m then
    rule rsa [CKF_SIGN; CKF_VERIFY]
  else if (m =? CKM_ECDSA) || one_of HASHED_ECDSA_MECHANISMS m then rule ec [CKF_SIGN; CKF_VERIFY]
  else if m =? CKM_EDDSA then rule (OfType [CKK_EC_EDWARDS]) [CKF_SIGN; CKF_VERIFY]
  else if is_ml_dsa_mechanism m then rule (OfType [CKK_ML_DSA]) [CKF_SIGN; CKF_VERIFY]
  else if m =? CKM_ML_KEM then rule (OfType [CKK_ML_KEM]) [CKF_ENCAPSULATE; CKF_DECAPSULATE]
  else if m =? CKM_PKCS11RS_MLKEM768_P256 then
    rule (OfType [CKK_PKCS11RS_MLKEM768_P256]) [CKF_ENCAPSULATE; CKF_DECAPSULATE]
  else if m =? CKM_PKCS11RS_MLKEM768_X25519 then
    rule (OfType [CKK_PKCS11RS_MLKEM768_X25519]) [CKF_ENCAPSULATE; CKF_DECAPSULATE]
  else if m =? CKM_PKCS11RS_MLKEM1024_P384 then
    rule (OfType [CKK_PKCS11RS_MLKEM1024_P384]) [CKF_ENCAPSULATE; CKF_DECAPSULATE]
  else if (m =? CKM_ECDH1_DERIVE) || (m =? CKM_PKCS11RS_PREFIXED_ECDH_DERIVE) then
    rule (OfType [CKK_EC; CKK_EC_MONTGOMERY]) [CKF_DERIVE]
  else if m =? CKM_ECDH1_COFACTOR_DERIVE then rule ec [CKF_DERIVE]
  else if m =? CKM_SP800_108_COUNTER_KDF then rule aes [CKF_DERIVE]
  else if m =? CKM_HKDF_DERIVE then rule (SoftwareSecretOfType (Some [CKK_GENERIC_SECRET])) [CKF_DERIVE]
  else if one_of [CKM_CONCATENATE_BASE_AND_KEY; CKM_CONCATENATE_BASE_AND_DATA; CKM_EXTRACT_KEY_FROM_KEY;
                  CKM_SHA256_KEY_DERIVATION] m then rule (SoftwareSecretOfType None) [CKF_DERIVE]
  else if (m =? CKM_AES_KEY_WRAP) || (m =? CKM_AES_KEY_WRAP_KWP) then
    rule aes [CKF_ENCRYPT; CKF_DECRYPT; CKF_WRAP; CKF_UNWRAP]
  else if one_of [CKM_AES_ECB; CKM_AES_CBC; CKM_AES_CBC_PAD; CKM_AES_CTR; CKM_AES_CCM; CKM_AES_GCM] m then
    rule aes [CKF_ENCRYPT; CKF_DECRYPT]
  else if one_of [CKM_AES_CMAC; CKM_AES_CMAC_GENERAL; CKM_AES_GMAC] m then rule aes [CKF_SIGN; CKF_VERIFY]
  else if one_of [CKM_DES3_ECB; CKM_DES3_CBC; CKM_DES3_CBC_PAD] m then
    rule (OfType [CKK_DES3]) [CKF_ENCRYPT; CKF_DECRYPT]
  else if m =? CKM_YUBICO_AES_CCM_WRAP then
    rule (OfType [CKK_YUBICO_AES128_CCM_WRAP; CKK_YUBICO_AES192_CCM_WRAP; CKK_YUBICO_AES256_CCM_WRAP])
      [CKF_ENCRYPT; CKF_DECRYPT; CKF_WRAP; CKF_UNWRAP]
  else if m =? CKM_PKCS11RS_PREVIEW_SIGN then rule DerivedForPreviewSign [CKF_SIGN]
  else if m =? CKM_PKCS11RS_PREVIEW_SIGN_DERIVE then
    rule (OfType [CKK_PKCS11RS_PREVIEW_SIGN_REGISTRATION]) [CKF_DERIVE]
  else if m =? CKM_PKCS11RS_FIDO_ASSERTION then rule FidoResident [CKF_SIGN]
  else None.

(** The match: [None] stands for the early return of the digests. *)
Definition supported_operations (o : TokenObject) (m : Z) : option Z :=
  match mechanism_rule m with
  | Some (test, flags) => Some (if passes test o then flags else 0)
  | None =>
      match hmac_key_type_and_length m with
      | Some (kind, _) =>
          Some (if (key_type o =? kind) || (key_type o =? CKK_GENERIC_SECRET) then any_of [CKF_SIGN; CKF_VERIFY] else 0)
      | None =>
          if (class o =? CKO_SECRET_KEY)
             && match material o with SoftwareSecret _ | Secret _ => true | _ => false end
             && existsb (λ d, type_ d =? m) SOFTWARE_DIGEST_MECHANISMS
          then None else Some 0
      end
  end.

(** The usual operations of a key, by class, type and usage attributes. *)
Definition operations (o : TokenObject) (m : Z) : Z :=
  match material o with
  | OathCredential c => if (Credential_mechanism c =? m) && sign o then CKF_SIGN else 0
  | _ =>
      if negb (one_of [CKO_PRIVATE_KEY; CKO_PUBLIC_KEY; CKO_SECRET_KEY] (class o)) then 0
      else if m =? CKM_PKCS11RS_PROJECT_PUBLIC_KEY then
        if supports_public_projection o then CKF_DERIVE else 0
      else if match material o with
              | FidoResidentPrivate _ => negb (m =? CKM_PKCS11RS_FIDO_ASSERTION)
              | PreviewSignDerived _ _ _ => negb (m =? CKM_PKCS11RS_PREVIEW_SIGN)
              | _ => false
              end then 0
      else
        match supported_operations o m with
        | Some supported => Z.land (key_usage o) supported
        | None => CKF_DIGEST
        end
  end.

(** *** Backends *)

(** [flags &= !CKF_SIGN] for a native key that cannot sign with the mechanism. *)
Definition without_sign (supported : bool) (flags : Z) : Z := if supported then flags else Z.ldiff flags CKF_SIGN.
Definition piv_key_mechanism_operations (o : TokenObject) (m : Z) : Z :=
  match material o with
  | PivPrivate _ algorithm _ _ => without_sign (piv_sign_mechanism_supported algorithm m) (operations o m)
  | _ => operations o m
  end.
Definition openpgp_key_mechanism_operations (o : TokenObject) (m : Z) : Z :=
  match material o with
  | OpenPgpPrivate _ algorithm _ _ => without_sign (openpgp_sign_mechanism_supported algorithm m) (operations o m)
  | _ => operations o m
  end.

(** What the capabilities of a device object permit. *)
Definition native_operations (object_type : Z) (device_capabilities : list Z) (m : Z) : Z :=
  let cap (bit : Z) (flags : Z) := if yubihsm_capability device_capabilities bit then flags else 0 in
  let unwrap_key := if object_type =? YUBIHSM_WRAP_KEY then cap 0x0d CKF_UNWRAP else 0 in
  if is_ml_dsa_mechanism m then cap 0x3a CKF_SIGN
  else if m =? CKM_ML_KEM then cap 0x3c CKF_DECAPSULATE
  else if one_of [CKM_PKCS11RS_MLKEM768_P256; CKM_PKCS11RS_MLKEM768_X25519; CKM_PKCS11RS_MLKEM1024_P384] m then
    cap 0x3e CKF_DECAPSULATE
  else if m =? CKM_RSA_PKCS then any_of [cap 0x05 CKF_SIGN; cap 0x09 CKF_DECRYPT; unwrap_key]
  else if one_of HASHED_RSA_PKCS_MECHANISMS m then cap 0x05 CKF_SIGN
  else if (m =? CKM_RSA_PKCS_PSS) || one_of HASHED_RSA_PSS_MECHANISMS m then cap 0x06 CKF_SIGN
  else if m =? CKM_RSA_PKCS_OAEP then any_of [cap 0x0a CKF_DECRYPT; unwrap_key]
  else if (m =? CKM_RSA_AES_KEY_WRAP) || (m =? CKM_YUBICO_RSA_WRAP) then
    any_of [cap 0x0c CKF_WRAP; cap 0x0d CKF_UNWRAP]
  else if (m =? CKM_ECDSA) || one_of HASHED_ECDSA_MECHANISMS m then cap 0x07 CKF_SIGN
  else if m =? CKM_EDDSA then cap 0x08 CKF_SIGN
  else if (m =? CKM_ECDH1_DERIVE) || (m =? CKM_ECDH1_COFACTOR_DERIVE) then cap 0x0b CKF_DERIVE
  else if m =? CKM_PKCS11RS_PREFIXED_ECDH_DERIVE then cap 0x38 CKF_DERIVE
  else if m =? CKM_AES_ECB then any_of [cap 0x33 CKF_ENCRYPT; cap 0x32 CKF_DECRYPT]
  else if (m =? CKM_AES_CBC) || (m =? CKM_AES_CBC_PAD) then any_of [cap 0x35 CKF_ENCRYPT; cap 0x34 CKF_DECRYPT]
  else if (m =? CKM_AES_CTR) || (m =? CKM_AES_GCM) then cap 0x33 (any_of [CKF_ENCRYPT; CKF_DECRYPT])
  else if m =? CKM_AES_CCM then
    if yubihsm_capability device_capabilities 0x33 then cap 0x35 (any_of [CKF_ENCRYPT; CKF_DECRYPT]) else 0
  else if one_of [CKM_AES_CMAC; CKM_AES_CMAC_GENERAL; CKM_AES_GMAC] m then cap 0x33 (any_of [CKF_SIGN; CKF_VERIFY])
  else if m =? CKM_SP800_108_COUNTER_KDF then cap 0x33 CKF_DERIVE
  else if m =? CKM_YUBICO_AES_CCM_WRAP then
    any_of [cap 0x0c CKF_WRAP; cap 0x0d CKF_UNWRAP; cap 0x25 CKF_ENCRYPT; cap 0x26 CKF_DECRYPT]
  else if is_some (hmac_key_type_and_length m) then any_of [cap 0x16 CKF_SIGN; cap 0x17 CKF_VERIFY]
  else 0.
Definition yubihsm_key_mechanism_operations (o : TokenObject) (m : Z) : Z :=
  match material o with
  | YubiHsm _ object_type _ _ info =>
      if m =? CKM_PKCS11RS_PROJECT_PUBLIC_KEY then operations o m
      else if (class o =? CKO_PUBLIC_KEY) && negb (m =? CKM_YUBICO_RSA_WRAP) then operations o m
      else Z.land (operations o m) (native_operations object_type (capabilities info) m)
  | _ => operations o m
  end.

(** The implementations of [Slot::key_mechanism_operations]. *)
Definition key_mechanism_operations (native : NativeKeys) : TokenObject → Z → Z :=
  match native with
  | CommonKeys => operations
  | PivKeys => piv_key_mechanism_operations
  | OpenPgpKeys => openpgp_key_mechanism_operations
  | YubiHsmKeys => yubihsm_key_mechanism_operations
  end.

(** *** The list of a key *)

(** [sort_unstable] and [dedup]. *)
Fixpoint insert_sorted (m : Z) (l : list Z) : list Z :=
  match l with
  | [] => [m]
  | x :: rest => if m <? x then m :: l else if m =? x then l else x :: insert_sorted m rest
  end.
(** [narrow] is the slot's [key_mechanism_operations]. *)
Definition allowed (table : list MechanismDetails) (narrow : TokenObject → Z → Z) (o : TokenObject) : list Z :=
  foldr insert_sorted []
    (type_ <$> List.filter (λ d, allows_mechanism (type_ d) o && flag_set d (narrow o (type_ d))) table).

End key_mechanisms.
