(* ===== verification/Templates.v ===== *)
(** * Templates: attributes an application passes in and gets back

    Models the template code of [src/src/object.rs]: reading the values of a
    [CK_ATTRIBUTE] array, the template from which an object is built, policy
    templates with the templates nested in them, and the changes to an object
    that [C_SetAttributeValue] and [C_CopyObject] make. *)
From stdpp Require Import sorting.
From coqutil Require Import Datatypes.RecordSetters.
From S2P Require Import Prelude Errors Storage Mechanisms AttributeTypes KeyMetadata YubiHsm SlotState SessionApi CryptApi Digests CipherModes Ciphers SignatureModes OathOtp HsmCapabilities PivTables Attributes.

Import DoubleBraceUpdate.

(** ** The caller's memory *)

(** A pointer is null or names memory, which the code reads as bytes or as an
    array of attributes; a buffer is used in one of the two ways. *)
Inductive CK_ATTRIBUTE : Type :=
| mkAttribute (attr_type : Z) (pValue : option AttributeMemory) (ulValueLen : Z)
with AttributeMemory : Type :=
| mkAttributeMemory (mem_bytes : list Z) (mem_items : list CK_ATTRIBUTE).

Definition attr_type (a : CK_ATTRIBUTE) : Z := match a with mkAttribute t _ _ => t end.
Definition pValue (a : CK_ATTRIBUTE) : option AttributeMemory := match a with mkAttribute _ p _ => p end.
Definition ulValueLen (a : CK_ATTRIBUTE) : Z := match a with mkAttribute _ _ n => n end.
Definition mem_bytes (m : AttributeMemory) : list Z := match m with mkAttributeMemory b _ => b end.
Definition mem_items (m : AttributeMemory) : list CK_ATTRIBUTE := match m with mkAttributeMemory _ i => i end.

Definition SIZE_OF_ATTRIBUTE : Z := 24.
Definition SIZE_OF_BBOOL : Z := 1.

(** An attribute that points at [value]. *)
Definition byte_attribute (t : Z) (value : list Z) : CK_ATTRIBUTE :=
  mkAttribute t (Some (mkAttributeMemory value [])) (len value).

(** ** Values *)

Definition read_attribute_value (a : CK_ATTRIBUTE) : outcome Z (list Z) :=
  let n := ulValueLen a in
  let? _ := bail ((n =? CK_UNAVAILABLE_INFORMATION) || (ISIZE_MAX <? n)) CKR_ATTRIBUTE_VALUE_INVALID in
  let? _ := bail ((0 <? n) && is_null (pValue a)) CKR_ARGUMENTS_BAD in
  Ok (match pValue a with Some m => ztake n (mem_bytes m) | None => [] end).

Definition read_ulong_template_attribute (a : CK_ATTRIBUTE) : outcome Z Z :=
  let? _ := bail (negb (ulValueLen a =? SIZE_OF_ULONG)) CKR_ATTRIBUTE_VALUE_INVALID in
  omap_ok from_ne_bytes (read_attribute_value a).

(** [match value[0]]: the first byte as a [CK_BBOOL]. *)
Definition bbool (value : list Z) : outcome Z bool :=
  match value with
  | 0 :: _ => Ok false
  | 1 :: _ => Ok true
  | [] => Panic
  | _ => Err CKR_ATTRIBUTE_VALUE_INVALID
  end.
Definition read_bool_template_attribute (a : CK_ATTRIBUTE) : outcome Z bool :=
  let? _ := bail (negb (ulValueLen a =? SIZE_OF_BBOOL)) CKR_ATTRIBUTE_VALUE_INVALID in
  let? value := read_attribute_value a in
  bbool value.

Definition read_text (a : CK_ATTRIBUTE) : outcome Z (list Z) :=
  let? value := read_attribute_value a in
  if utf8_valid value then Ok value else Err CKR_ATTRIBUTE_VALUE_INVALID.

(** No [windows(2)] pair with [pair[0] == pair[1]]. *)
Fixpoint repeats (l : list Z) : bool :=
  match l with
  | x :: (y :: _) as rest => (x =? y) || repeats rest
  | _ => false
  end.

(** A list of mechanisms, sorted, with none given twice. *)
Definition mechanism_list (value : list Z) : outcome Z (list Z) :=
  let? _ := bail (negb (is_multiple_of (len value) SIZE_OF_ULONG)) CKR_ATTRIBUTE_VALUE_INVALID in
  let mechanisms := merge_sort Z.le (map from_ne_bytes (chunks 8 value)) in
  let? _ := bail (repeats mechanisms) CKR_TEMPLATE_INCONSISTENT in
  Ok mechanisms.

(** ** Policy templates *)

Definition key_metadata_error (e : KeyMetadataError) : Z :=
  match e with
  | UnsupportedAttribute _ => CKR_ATTRIBUTE_TYPE_INVALID
  | _ => CKR_ATTRIBUTE_VALUE_INVALID
  end.

Definition read_policy_value (a : CK_ATTRIBUTE) : outcome Z (list Z) :=
  map_err to_ck_rv (from_raw_parts (mem_bytes <$> pValue a) (ulValueLen a)).
Definition read_policy_bool (a : CK_ATTRIBUTE) : outcome Z bool :=
  let? _ := bail (negb (ulValueLen a =? SIZE_OF_BBOOL)) CKR_ATTRIBUTE_VALUE_INVALID in
  let? value := read_policy_value a in
  bbool value.
Definition read_policy_ulong (a : CK_ATTRIBUTE) : outcome Z Z :=
  let? _ := bail (negb (ulValueLen a =? SIZE_OF_ULONG)) CKR_ATTRIBUTE_VALUE_INVALID in
  omap_ok from_ne_bytes (read_policy_value a).

(** [from_raw_parts] on attributes. *)
Definition attribute_array (p : option AttributeMemory) (count : Z) : outcome Error (list CK_ATTRIBUTE) :=
  if count =? 0 then Ok []
  else match p with
       | None => Err #CKR_ARGUMENTS_BAD
       | Some m =>
           if negb (count <=? ISIZE_MAX / SIZE_OF_ATTRIBUTE) then Err #CKR_ARGUMENTS_BAD
           else Ok (ztake count (mem_items m))
       end.

Definition MAX_POLICY_DEPTH : nat := 4.
Definition MAX_POLICY_ATTRIBUTES : Z := 256.

(** The array an attribute holds; [depth] is how deep it lies. *)
Definition policy_items (depth : nat) (a : CK_ATTRIBUTE) : outcome Z (list CK_ATTRIBUTE) :=
  let? _ := bail ((Z.of_nat MAX_POLICY_DEPTH <=? Z.of_nat depth)
                  || negb (is_multiple_of (ulValueLen a) SIZE_OF_ATTRIBUTE)) CKR_ATTRIBUTE_VALUE_INVALID in
  let count := ulValueLen a / SIZE_OF_ATTRIBUTE in
  let? _ := bail (MAX_POLICY_ATTRIBUTES <? count) CKR_ATTRIBUTE_VALUE_INVALID in
  map_err to_ck_rv (attribute_array (pValue a) count).

(** The value of one item; [nested] reads the template it may hold. *)
Definition policy_item_value (nested : CK_ATTRIBUTE → outcome Z KeyAttributes) (a : CK_ATTRIBUTE)
    : outcome Z KeyAttributeValue :=
  let? kind := map_err key_metadata_error (attribute_kind (attr_type a)) in
  match kind with
  | KindBoolean => omap_ok ValueBoolean (read_policy_bool a)
  | KindUnsigned => omap_ok ValueUnsigned (read_policy_ulong a)
  | KindBytes => omap_ok ValueBytes (read_policy_value a)
  | KindText =>
      let? value := read_policy_value a in
      if utf8_valid value then Ok (ValueText value) else Err CKR_ATTRIBUTE_VALUE_INVALID
  | KindMechanisms =>
      let? value := read_policy_value a in
      omap_ok ValueMechanisms (mechanism_list value)
  | KindTemplate => omap_ok ValueTemplate (nested a)
  end.

Fixpoint collect_items (nested : CK_ATTRIBUTE → outcome Z KeyAttributes) (result : KeyAttributes)
    (items : list CK_ATTRIBUTE) : outcome Z KeyAttributes :=
  match items with
  | [] => Ok result
  | item :: rest =>
      let? value := policy_item_value nested item in
      let? '(previous, result) := map_err key_metadata_error (insert_template (attr_type item) value result) in
      let? _ := bail (bool_decide (is_Some previous)) CKR_TEMPLATE_INCONSISTENT in
      collect_items nested result rest
  end.

(** [read_semantic_template_at_depth], [levels] levels above the depth limit. *)
Fixpoint read_semantic_levels (levels : nat) (items : list CK_ATTRIBUTE) : outcome Z KeyAttributes :=
  collect_items
    (λ item, let? nested := policy_items (S MAX_POLICY_DEPTH - levels) item in
             match levels with
             | O => Err CKR_ATTRIBUTE_VALUE_INVALID
             | S deeper => read_semantic_levels deeper nested
             end) [] items.
Definition read_semantic_template (items : list CK_ATTRIBUTE) : outcome Z KeyAttributes :=
  read_semantic_levels MAX_POLICY_DEPTH items.
Definition read_policy_template_attribute (a : CK_ATTRIBUTE) : outcome Z KeyAttributes :=
  let? items := policy_items 0 a in
  read_semantic_template items.

(** [policy_u64_to_ulong] is the identity where a [CK_ULONG] has 64 bits. *)
Definition policy_u64_to_ulong (value : Z) : option Z := Some value.

Definition semantic_native_value (t : Z) (bytes : list Z) : outcome Z KeyAttributeValue :=
  let? kind := map_err key_metadata_error (attribute_kind t) in
  match kind with
  | KindBoolean =>
      match bytes with
      | [0] => Ok (ValueBoolean false)
      | [1] => Ok (ValueBoolean true)
      | _ => Err CKR_DATA_INVALID
      end
  | KindUnsigned =>
      if len bytes =? SIZE_OF_ULONG then Ok (ValueUnsigned (from_ne_bytes bytes)) else Err CKR_DATA_INVALID
  | KindBytes => Ok (ValueBytes bytes)
  | KindText => if utf8_valid bytes then Ok (ValueText bytes) else Err CKR_DATA_INVALID
  | KindMechanisms =>
      if is_multiple_of (len bytes) SIZE_OF_ULONG
      then Ok (ValueMechanisms (map from_ne_bytes (chunks 8 bytes))) else Err CKR_DATA_INVALID
  | KindTemplate => Err CKR_DATA_INVALID
  end.

Definition key_attribute_native_value (value : KeyAttributeValue) : outcome Z (list Z) :=
  match value with
  | ValueBoolean b => Ok (bool_attribute b)
  | ValueUnsigned n => omap_ok ulong_attribute (ok_or CKR_DATA_INVALID (policy_u64_to_ulong n))
  | ValueBytes bytes | ValueText bytes => Ok bytes
  | ValueMechanisms ms => Ok (concat (map (ne_bytes 8) ms))
  | ValueTemplate _ => Err CKR_DATA_INVALID
  end.

(** ** Owned templates *)

(** A template the module owns: the arrays that its attributes point at are kept
    beside them. *)
Inductive OwnedPolicyAttribute : Type :=
| mkOwned (owned_type : Z) (owned_value : list Z) (owned_nested : option (list OwnedPolicyAttribute)).

Definition owned_attribute :=
  fix owned (t : Z) (v : KeyAttributeValue) : outcome Z OwnedPolicyAttribute :=
    let? t := ok_or CKR_ATTRIBUTE_VALUE_INVALID (policy_u64_to_ulong t) in
    match v with
    | ValueTemplate nested =>
        omap_ok (λ nested, mkOwned t [] (Some nested))
          ((fix entries (l : KeyAttributes) : outcome Z (list OwnedPolicyAttribute) :=
              match l with
              | [] => Ok []
              | (t, v) :: rest => let? a := owned t v in let? rest := entries rest in Ok (a :: rest)
              end) nested)
    | _ => omap_ok (λ value, mkOwned t value None) (key_attribute_native_value v)
    end.

Fixpoint from_semantic (template : KeyAttributes) : outcome Z (list OwnedPolicyAttribute) :=
  match template with
  | [] => Ok []
  | (t, v) :: rest => let? a := owned_attribute t v in let? rest := from_semantic rest in Ok (a :: rest)
  end.

(** [refresh]: the attributes with the pointers to what they own. *)
Fixpoint refresh_attribute (a : OwnedPolicyAttribute) : CK_ATTRIBUTE :=
  match a with
  | mkOwned t value None => byte_attribute t value
  | mkOwned t value (Some nested) =>
      let ffi := map refresh_attribute nested in
      mkAttribute t (Some (mkAttributeMemory [] ffi)) (len ffi * SIZE_OF_ATTRIBUTE)
  end.
Definition as_slice (template : list OwnedPolicyAttribute) : list CK_ATTRIBUTE := map refresh_attribute template.

Fixpoint merge_entries (policy merged : KeyAttributes) : outcome Error KeyAttributes :=
  match policy with
  | [] => Ok merged
  | (t, v) :: rest =>
      match map_get t merged with
      | Some supplied =>
          let? _ := bail (negb (bool_decide (supplied = v))) #CKR_TEMPLATE_INCONSISTENT in
          merge_entries rest merged
      | None =>
          let? '(_, merged) := map_err (λ _, #CKR_TEMPLATE_INCONSISTENT) (insert_template t v merged) in
          merge_entries rest merged
      end
  end.
Definition merge_semantic (caller : list CK_ATTRIBUTE) (policy : option KeyAttributes) : outcome Error KeyAttributes :=
  let? merged := map_err Generic (read_semantic_template caller) in
  match policy with
  | Some policy => merge_entries policy merged
  | None => Ok merged
  end.
Definition merge_policy_template (caller : list CK_ATTRIBUTE) (policy : option KeyAttributes)
    : outcome Error (list OwnedPolicyAttribute) :=
  let? merged := merge_semantic caller policy in
  map_err Generic (from_semantic merged).

(** ** The template of a new object *)

Record TokenObjectTemplate : Type := mkTemplate {
  t_class : option Z;
  t_key_type : option Z;
  t_label : list Z;
  t_id : list Z;
  t_token : bool;
  t_private : bool;
  t_encrypt : bool;
  t_decrypt : bool;
  t_sign : bool;
  t_verify : bool;
  t_derive : bool;
  t_wrap : bool;
  t_unwrap : bool;
  t_encapsulate : bool;
  t_decapsulate : bool;
  t_sensitive : option bool;
  t_extractable : option bool;
  t_allowed_mechanisms : option (list Z);
  t_wrap_with_trusted : bool;
  t_policy_templates : KeyPolicyTemplates;
}.

(** [TokenObjectTemplate::default()] *)
Definition TokenObjectTemplate_default : TokenObjectTemplate :=
  mkTemplate None None [] [] false false false false false false false false false false false None None None false
    KeyPolicyTemplates_default.

Definition apply_attribute (a : CK_ATTRIBUTE) (t : TokenObjectTemplate) : outcome Z TokenObjectTemplate :=
  let k := attr_type a in
  let flag set := omap_ok set (read_bool_template_attribute a) in
  let policy set := omap_ok set (read_policy_template_attribute a) in
  if k =? CKA_CLASS then omap_ok (λ v, t {{ t_class := Some v }}) (read_ulong_template_attribute a)
  else if k =? CKA_KEY_TYPE then omap_ok (λ v, t {{ t_key_type := Some v }}) (read_ulong_template_attribute a)
  else if k =? CKA_LABEL then omap_ok (λ v, t {{ t_label := v }}) (read_text a)
  else if k =? CKA_ID then omap_ok (λ v, t {{ t_id := v }}) (read_attribute_value a)
  else if k =? CKA_TOKEN then flag (λ v, t {{ t_token := v }})
  else if k =? CKA_PRIVATE then flag (λ v, t {{ t_private := v }})
  else if k =? CKA_ENCRYPT then flag (λ v, t {{ t_encrypt := v }})
  else if k =? CKA_DECRYPT then flag (λ v, t {{ t_decrypt := v }})
  else if k =? CKA_SIGN then flag (λ v, t {{ t_sign := v }})
  else if k =? CKA_VERIFY then flag (λ v, t {{ t_verify := v }})
  else if k =? CKA_DERIVE then flag (λ v, t {{ t_derive := v }})
  else if k =? CKA_WRAP then flag (λ v, t {{ t_wrap := v }})
  else if k =? CKA_UNWRAP then flag (λ v, t {{ t_unwrap := v }})
  else if k =? CKA_ENCAPSULATE then flag (λ v, t {{ t_encapsulate := v }})
  else if k =? CKA_DECAPSULATE then flag (λ v, t {{ t_decapsulate := v }})
  else if k =? CKA_WRAP_WITH_TRUSTED then flag (λ v, t {{ t_wrap_with_trusted := v }})
  else if k =? CKA_WRAP_TEMPLATE then policy (λ v, t {{ t_policy_templates -> policy_wrap := Some v }})
  else if k =? CKA_UNWRAP_TEMPLATE then policy (λ v, t {{ t_policy_templates -> policy_unwrap := Some v }})
  else if k =? CKA_DERIVE_TEMPLATE then policy (λ v, t {{ t_policy_templates -> policy_derive := Some v }})
  else if k =? CKA_SENSITIVE then flag (λ v, t {{ t_sensitive := Some v }})
  else if k =? CKA_EXTRACTABLE then flag (λ v, t {{ t_extractable := Some v }})
  else if k =? CKA_ALLOWED_MECHANISMS then
    let? value := read_attribute_value a in
    omap_ok (λ v, t {{ t_allowed_mechanisms := Some v }}) (mechanism_list value)
  else Err CKR_ATTRIBUTE_TYPE_INVALID.

Definition is_secret_or_private (class : Z) : bool := one_of [CKO_PRIVATE_KEY; CKO_SECRET_KEY] class.

Definition into_object_with_software_secret_policy (t : TokenObjectTemplate) (software_secret : bool)
    : outcome Z TokenObject :=
  let sensitive := default false (t_sensitive t) in
  let? class := ok_or CKR_TEMPLATE_INCOMPLETE (t_class t) in
  let nonextractable_key := class =? CKO_SECRET_KEY in
  let private_key := class =? CKO_PRIVATE_KEY in
  let templates := t_policy_templates t in
  let? _ := bail (t_wrap_with_trusted t && negb (is_secret_or_private class)) CKR_TEMPLATE_INCONSISTENT in
  let? _ := bail (is_some (policy_wrap templates) && negb (one_of [CKO_PUBLIC_KEY; CKO_SECRET_KEY] class)
                  || is_some (policy_unwrap templates) && negb (is_secret_or_private class)
                  || is_some (policy_derive templates) && negb (is_secret_or_private class))
              CKR_TEMPLATE_INCONSISTENT in
  let extractable :=
    default (negb (private_key || (nonextractable_key && negb software_secret))) (t_extractable t) in
  let? _ := bail (nonextractable_key && negb software_secret && extractable) CKR_ATTRIBUTE_VALUE_INVALID in
  let? key_type := ok_or CKR_TEMPLATE_INCOMPLETE (t_key_type t) in
  Ok (mkObject None [] class key_type (t_token t) (t_private t) (t_encrypt t) (t_decrypt t) (t_sign t) (t_verify t)
        (t_allowed_mechanisms t) None None None NoMaterial
        (mkAttributes (t_label t) (t_id t) (t_derive t) (t_wrap t) (t_unwrap t) (t_encapsulate t) (t_decapsulate t)
           sensitive extractable sensitive
           (negb extractable || (nonextractable_key && negb software_secret)) false None (t_wrap_with_trusted t)
           templates)).
Definition into_object (t : TokenObjectTemplate) : outcome Z TokenObject :=
  into_object_with_software_secret_policy t false.
Definition into_software_secret_object (t : TokenObjectTemplate) : outcome Z TokenObject :=
  into_object_with_software_secret_policy t true.

(** [validate_new_object_access] *)
Definition validate_new_object_access (o : TokenObject) (session_flags : Z) (logged_in : bool) : outcome Error unit :=
  let? _ := bail (private o && negb logged_in) #CKR_USER_NOT_LOGGED_IN in
  bail (token o && negb (has_flag session_flags CKF_RW_SESSION)) #CKR_SESSION_READ_ONLY.

(** ** Changes to an object *)

(** The attributes of a data object that replace a field of its material. *)
Definition set_data_attribute (t : Z) (value : list Z) (o : TokenObject) : option (outcome Z TokenObject) :=
  match material o with
  | Data instance application object_id v =>
      if t =? CKA_APPLICATION then Some (Ok (o {{ material := Data instance value object_id v }}))
      else if t =? CKA_OBJECT_ID then Some (Ok (o {{ material := Data instance application value v }}))
      else if t =? CKA_VALUE then Some (Ok (o {{ material := Data instance application object_id value }}))
      else if t =? CKA_ID then Some (Err CKR_ATTRIBUTE_TYPE_INVALID)
      else None
  | _ => None
  end.

Definition set_object_attribute (a : CK_ATTRIBUTE) (o : TokenObject) : outcome Z TokenObject :=
  let t := attr_type a in
  let? value := read_attribute_value a in
  match set_data_attribute t value o with
  | Some result => result
  | None =>
      if t =? CKA_LABEL then
        if utf8_valid value then Ok (o {{ attributes -> obj_label := value }}) else Err CKR_ATTRIBUTE_VALUE_INVALID
      else if t =? CKA_ID then Ok (o {{ attributes -> obj_id := value }})
      else if t =? CKA_SENSITIVE then
        let? _ := bail (negb (has_sensitive_attributes o)) CKR_ATTRIBUTE_TYPE_INVALID in
        let? requested := read_bool_template_attribute a in
        let? _ := bail (o_sensitive o && negb requested) CKR_ATTRIBUTE_READ_ONLY in
        Ok (o {{ attributes -> sensitive := requested }})
      else if t =? CKA_EXTRACTABLE then
        let? _ := bail (negb (has_sensitive_attributes o)) CKR_ATTRIBUTE_TYPE_INVALID in
        let? requested := read_bool_template_attribute a in
        let? _ := bail (is_nonextractable_key_object o && requested) CKR_ATTRIBUTE_READ_ONLY in
        let? _ := bail (negb (o_extractable o) && requested) CKR_ATTRIBUTE_READ_ONLY in
        Ok (o {{ attributes -> extractable := requested }})
      else if supports_attribute o t then Err CKR_ATTRIBUTE_READ_ONLY
      else Err CKR_ATTRIBUTE_TYPE_INVALID
  end.

Definition set_copy_attribute_value (a : CK_ATTRIBUTE) (o : TokenObject) : outcome Z TokenObject :=
  if attr_type a =? CKA_TOKEN then omap_ok (λ v, o {{ token := v }}) (read_bool_template_attribute a)
  else if attr_type a =? CKA_PRIVATE then omap_ok (λ v, o {{ private := v }}) (read_bool_template_attribute a)
  else set_object_attribute a o.

(** ** Reading back *)

Lemma from_ne_bytes_ne_bytes w n : 0 ≤ n < 2 ^ (8 * Z.of_nat w) → from_ne_bytes (ne_bytes w n) = n.
Proof.
  revert n. induction w as [|w IH]; intros n Hn; cbn [ne_bytes from_ne_bytes].
  { change (2 ^ (8 * Z.of_nat 0)) with 1 in Hn. lia. }
  rewrite IH; [pose proof (Z.div_mod n 256); lia|].
  replace (8 * Z.of_nat (S w)) with (8 + 8 * Z.of_nat w) in Hn by lia. rewrite Z.pow_add_r in Hn by lia.
  split; [apply Z.div_pos; lia|apply Z.div_lt_upper_bound; lia].
Qed.

Lemma length_ne_bytes w n : length (ne_bytes w n) = w.
Proof. revert n. induction w as [|w IH]; intros n; cbn [ne_bytes length]; [done|]. by rewrite IH. Qed.

Lemma chunks_concat_words (words : list (list Z)) :
  Forall (λ w, length w = 8%nat) words → chunks 8 (concat words) = words.
Proof.
  induction 1 as [|w words Hw Hf IH]; [done|]. cbn [concat].
  rewrite chunks_cons; [|lia|by destruct w].
  rewrite take_app_length', drop_app_length' by done. by rewrite IH.
Qed.

Lemma words_multiple ms : is_multiple_of (len (concat (map (ne_bytes 8) ms))) SIZE_OF_ULONG = true ∧
  len (concat (map (ne_bytes 8) ms)) = 8 * len ms.
Proof.
  assert (len (concat (map (ne_bytes 8) ms)) = 8 * len ms) as E.
  { induction ms as [|m ms IH]; [done|]. cbn [map concat]. simp_len. rewrite IH. unfold len.
    rewrite length_ne_bytes. lia. }
  split; [|done]. rewrite E. unfold is_multiple_of, SIZE_OF_ULONG. cbn [negb Z.eqb andb].
  rewrite Z.mul_comm, Z.mod_mul by lia. done.
Qed.

Lemma words_read_back ms : Forall in_u64 ms → map from_ne_bytes (chunks 8 (concat (map (ne_bytes 8) ms))) = ms.
Proof.
  intros Hms. rewrite chunks_concat_words.
  - rewrite map_map. rewrite <- (map_id ms) at 2. apply map_ext_in. intros m Hm.
    apply from_ne_bytes_ne_bytes. rewrite List.Forall_forall in Hms. specialize (Hms m Hm).
    unfold in_u64, U64_MAX in Hms. change (2 ^ (8 * Z.of_nat 8)) with (2 ^ 64). lia.
  - apply List.Forall_forall. intros w [m [<- _]]%in_map_iff. apply length_ne_bytes.
Qed.

Lemma increasing_sorted l : increasing l = true → StronglySorted Z.lt l.
Proof.
  intros Hi. apply Sorted_StronglySorted; [intros ???; lia|].
  induction l as [|x l IH]; [constructor|]. destruct l as [|y l]; [repeat constructor|].
  cbn [increasing] in Hi. apply andb_true_iff in Hi as [Hx Hi]. constructor; [by apply IH|]. constructor. lia.
Qed.

(** A mechanism list in order is read as it is. *)
Lemma mechanism_list_sorted ms : Forall in_u64 ms → increasing ms = true →
  mechanism_list (concat (map (ne_bytes 8) ms)) = Ok ms.
Proof.
  intros Hms Hi. unfold mechanism_list. destruct (words_multiple ms) as [-> _]. cbn [negb bail obind].
  rewrite words_read_back by done.
  assert (merge_sort Z.le ms = ms) as ->.
  { apply (StronglySorted_unique Z.le).
    - apply (StronglySorted_merge_sort Z.le).
    - apply increasing_sorted in Hi. clear Hms. induction Hi as [|x l Hl IHl Hx]; constructor; [done|].
      eapply Forall_impl; [|exact Hx]. cbn. lia.
    - apply merge_sort_Permutation. }
  assert (repeats ms = false) as ->; [|done].
  clear Hms. induction ms as [|x ms IH]; [done|]. destruct ms as [|y ms]; [done|].
  cbn [increasing repeats] in *. apply andb_true_iff in Hi as [Hx Hi]. test_false (x =? y). by apply IH.
Qed.

(** What a Rust vector can hold. *)
Definition value_fits : KeyAttributeValue → Prop :=
  fix fits v :=
    match v with
    | ValueBytes b | ValueText b => len b ≤ ISIZE_MAX
    | ValueTemplate l =>
        (fix entries (l : KeyAttributes) : Prop :=
           match l with
           | [] => True
           | (_, v) :: rest => fits v ∧ entries rest
           end) l
    | _ => True
    end.
Fixpoint template_fits (l : KeyAttributes) : Prop :=
  match l with
  | [] => True
  | (_, v) :: rest => value_fits v ∧ template_fits rest
  end.
Lemma value_fits_template l : value_fits (ValueTemplate l) = template_fits l.
Proof. done. Qed.

Lemma owned_attribute_template t l :
  owned_attribute t (ValueTemplate l) = omap_ok (λ nested, mkOwned t [] (Some nested)) (from_semantic l).
Proof. done. Qed.

(** A checked attribute has a value of its kind. *)
Lemma checked_kind a v : check_attribute false a v = Ok tt → attribute_kind a = Ok (value_kind v) ∧
  ∀ ms, v = ValueMechanisms ms → len ms ≤ MAX_ATTRIBUTES ∧ increasing ms = true.
Proof.
  intros Hc. assert (validate_attribute_type a v = Ok tt) as Ht.
  { cbn [check_attribute] in Hc. destruct v; cbn [validate_template_attribute] in Hc; o_inv Hc; by destruct a0. }
  unfold validate_attribute_type in Ht. apply bind_Ok in Ht as (k & Hk & Ht). rewrite Hk.
  apply bind_Ok in Ht as ([] & Hb & Ht). unfold bail in Hb. case_bool_decide as E; [|done]. subst.
  split; [done|]. intros ms ->. unfold bail in Ht. destruct (_ || _) eqn:Eb in Ht; [done|]. bool_to_prop.
  split; [lia|done].
Qed.

Lemma read_policy_bytes t value : len value ≤ ISIZE_MAX → read_policy_value (byte_attribute t value) = Ok value.
Proof.
  intros Hl. unfold read_policy_value, from_raw_parts. cbn [ulValueLen byte_attribute pValue fmap option_fmap option_map mem_bytes].
  destruct (len value =? 0) eqn:E; bool_to_prop.
  - cbn. apply len_zero_iff in E. by subst.
  - unfold valid_raw_slice_length. test_true (len value <=? ISIZE_MAX). cbn. by rewrite ztake_ge.
Qed.

#[local] Opaque ne_bytes.

(** One attribute reads back, given that the template it may hold does. *)
Lemma policy_item_reads_back nested t v a :
  owned_attribute t v = Ok a → in_u64 t → check_attribute false t v = Ok tt → scalar_ok v → value_fits v →
  (∀ l ow, v = ValueTemplate l → from_semantic l = Ok ow → nested (refresh_attribute a) = Ok l) →
  policy_item_value nested (refresh_attribute a) = Ok v ∧ attr_type (refresh_attribute a) = t.
Proof.
  intros Ha Ht Hc Hs Hf Hn. apply checked_kind in Hc as [Hk Hm].
  assert ((∃ l, v = ValueTemplate l) ∨ ∀ l, v ≠ ValueTemplate l) as [[l ->]|Hno] by (destruct v; eauto).
  { rewrite owned_attribute_template in Ha. destruct (from_semantic l) as [ow| |] eqn:El; cbn in Ha; try done.
    injection Ha as <-. split; [|done]. unfold policy_item_value.
    change (attr_type (refresh_attribute _)) with t. rewrite Hk. cbn [map_err obind value_kind]. by erewrite Hn. }
  assert (∃ value, key_attribute_native_value v = Ok value ∧ a = mkOwned t value None) as (value & Hv & ->).
  { destruct v; cbn [owned_attribute policy_u64_to_ulong ok_or obind key_attribute_native_value omap_ok] in *;
      try (by injection Ha as <-; eauto). by destruct (Hno attributes). }
  split; [|done]. unfold policy_item_value. cbn [refresh_attribute attr_type byte_attribute].
  rewrite Hk. cbn [map_err obind]. fold (byte_attribute t value).
  destruct v as [b|n|bytes|text|ms|l]; cbn [value_kind key_attribute_native_value policy_u64_to_ulong ok_or omap_ok] in *;
    try injection Hv as <-.
  - unfold read_policy_bool. cbn [ulValueLen byte_attribute]. by destruct b.
  - unfold read_policy_ulong, ulong_attribute. change (ulValueLen _) with (len (ne_bytes 8 n)).
    assert (len (ne_bytes 8 n) = 8) as Hl by (unfold len; by rewrite length_ne_bytes). rewrite Hl.
    cbn [negb Z.eqb SIZE_OF_ULONG Pos.eqb bail obind].
    rewrite read_policy_bytes by (rewrite Hl; done). cbn [omap_ok].
    rewrite from_ne_bytes_ne_bytes; [done|]. change (2 ^ (8 * Z.of_nat 8)) with (2 ^ 64).
    unfold scalar_ok, in_u64, U64_MAX in Hs. lia.
  - by rewrite read_policy_bytes.
  - rewrite read_policy_bytes by done. cbn [obind]. by destruct Hs as [-> _].
  - destruct (Hm ms eq_refl) as [Hlen Hi]. rewrite read_policy_bytes.
    + cbn [obind]. by rewrite mechanism_list_sorted.
    + destruct (words_multiple ms) as [_ Hw]. unfold MAX_ATTRIBUTES, ISIZE_MAX in *.
      rewrite Hw. lia.
  - done.
Qed.

Lemma refresh_array (nested : list OwnedPolicyAttribute) t depth :
  len nested ≤ MAX_POLICY_ATTRIBUTES → (depth < MAX_POLICY_DEPTH)%nat →
  policy_items depth (refresh_attribute (mkOwned t [] (Some nested))) = Ok (as_slice nested).
Proof.
  intros Hl Hd. cbn [refresh_attribute]. set (ffi := map refresh_attribute nested).
  assert (len ffi = len nested) as Hf by (unfold ffi, len; by rewrite length_map).
  unfold policy_items. cbn [ulValueLen pValue]. unfold is_multiple_of, SIZE_OF_ATTRIBUTE.
  rewrite Z.mod_mul, Z.div_mul by lia. cbn [negb Z.eqb andb orb].
  test_false (Z.of_nat MAX_POLICY_DEPTH <=? Z.of_nat depth). cbn [orb bail obind].
  test_false (MAX_POLICY_ATTRIBUTES <? len ffi). cbn [bail obind]. unfold attribute_array. rewrite Hf.
  destruct (len nested =? 0) eqn:E; bool_to_prop.
  - apply len_zero_iff in E as ->. done.
  - change (ISIZE_MAX / SIZE_OF_ATTRIBUTE) with 384307168202282325.
    unfold MAX_POLICY_ATTRIBUTES in Hl. test_true (len nested <=? 384307168202282325).
    cbn [negb mem_items map_err]. rewrite <- Hf, ztake_ge by lia. done.
Qed.

Definition levels_reads_back (levels : nat) : Prop := ∀ l,
  attributes_ok levels false l → template_fits l →
  ∃ ow, from_semantic l = Ok ow ∧ len ow = len l ∧ read_semantic_levels levels (as_slice ow) = Ok l.


(** The reader of a nested template, at [levels] levels above the limit. *)
Abbreviation read_nested levels :=
  (λ item, let? nested := policy_items (S MAX_POLICY_DEPTH - S levels) item in read_semantic_levels levels nested).

(** One entry has an owned form, and the template in it reads back. *)
Lemma owned_entry levels t v :
  (S levels ≤ MAX_POLICY_DEPTH)%nat → levels_reads_back levels → scalar_ok v → value_fits v →
  (∀ nested, v = ValueTemplate nested → attributes_ok levels false nested) →
  ∃ a, owned_attribute t v = Ok a ∧
    ∀ l ow, v = ValueTemplate l → from_semantic l = Ok ow → read_nested levels (refresh_attribute a) = Ok l.
Proof.
  intros Hd IH Hs Hf Hn. destruct v as [b|n|bytes|text|ms|nl]; try (eexists; split; [reflexivity|done]).
  pose proof (Hn nl eq_refl) as Hnl. rewrite value_fits_template in Hf.
  destruct (IH nl Hnl Hf) as (ow & How & Hlen & Hread).
  exists (mkOwned t [] (Some ow)). rewrite owned_attribute_template, How. split; [done|].
  intros l ow' [= <-] _. destruct levels as [|levels]; [done|]. destruct Hnl as (_ & Hl & _).
  rewrite refresh_array; [done| |lia]. unfold MAX_ATTRIBUTES, MAX_POLICY_ATTRIBUTES in *. lia.
Qed.

(** The entries of a template read back after those already read. *)
Lemma collect_reads_back levels l acc :
  (S levels ≤ MAX_POLICY_DEPTH)%nat → levels_reads_back levels →
  attributes_ok (S levels) false (acc ++ l) → template_fits l →
  ∃ ow, from_semantic l = Ok ow ∧ len ow = len l ∧ collect_items (read_nested levels) acc (as_slice ow) = Ok (acc ++ l).
Proof.
  intros Hd IH. revert acc. induction l as [|[t v] l IHl]; intros acc Hok Hf.
  { exists []. rewrite app_nil_r. done. }
  pose proof Hok as (Hs & Hl & Hall). destruct Hf as [Hv Hf].
  apply Forall_app in Hall as [_ Hall]. apply Forall_cons_1 in Hall as [(Ht & Hc & Hsc & Hn) _]. cbn [fst snd] in *.
  destruct (owned_entry levels t v) as (a & Ha & Hnest); [done..|].
  destruct (IHl (acc ++ [(t, v)])) as (ow & How & Hlen & Hcol); [by rewrite <- app_assoc|done|].
  exists (a :: ow). cbn [from_semantic]. rewrite Ha, How. split; [done|]. split; [simp_len; lia|].
  unfold as_slice in *. cbn [map collect_items].
  destruct (policy_item_reads_back (read_nested levels) t v a) as [-> ->]; [done..|]. cbn [obind].
  destruct (map_insert_last t v acc) as (Ei & Eg & Ek); [by eapply sorted_before|].
  unfold insert_template, insert_checked. rewrite Ei, Eg, Ek. cbn [negb].
  simp_len. pose proof (len_nonneg l). test_false (MAX_ATTRIBUTES <=? len acc). cbn [andb bail obind]. cbn [check_attribute] in Hc. rewrite Hc.
  cbn [obind map_err]. rewrite bool_decide_false by (by intros [? ?]). cbn [bail obind]. rewrite Hcol, <- app_assoc. done.
Qed.

Lemma read_back_all levels : (levels ≤ MAX_POLICY_DEPTH)%nat → levels_reads_back levels.
Proof.
  induction levels as [|levels IH]; intros Hd l Hok Hf; [done|].
  cbn [read_semantic_levels]. apply (collect_reads_back levels l []); [done| |done..]. apply IH. lia.
Qed.

(** A policy template survives the trip through the caller's memory: the
    attribute array that the module builds for a well-formed template, with the
    arrays of the templates nested in it, reads back as the same template. *)
Theorem policy_template_roundtrip l :
  attributes_ok MAX_POLICY_DEPTH false l → template_fits l →
  ∃ ow, from_semantic l = Ok ow ∧ read_semantic_template (as_slice ow) = Ok l.
Proof.
  intros Hok Hf. destruct (read_back_all MAX_POLICY_DEPTH (le_n _) l Hok Hf) as (ow & How & _ & Hr). eauto.
Qed.

(** *** What is accepted is well formed *)

(** Memory of the application: bytes are bytes, down to [levels] levels of
    arrays. *)
Fixpoint attribute_memory_ok (levels : nat) (a : CK_ATTRIBUTE) : Prop :=
  in_u64 (attr_type a) ∧ 0 ≤ ulValueLen a ∧
  ∀ m, pValue a = Some m →
    bytes_ok (mem_bytes m) = true ∧
    match levels with
    | O => True
    | S levels => Forall (attribute_memory_ok levels) (mem_items m)
    end.

Lemma from_ne_bytes_bound bytes : bytes_ok bytes = true → 0 ≤ from_ne_bytes bytes < 2 ^ (8 * len bytes).
Proof.
  induction bytes as [|b bytes IH]; [done|]. cbn [bytes_ok forallb from_ne_bytes]. unfold is_byte.
  intros [Hb Hr]%andb_true_iff. specialize (IH Hr). simp_len. pose proof (len_nonneg bytes).
  replace (8 * (1 + len bytes)) with (8 + 8 * len bytes) by lia. rewrite Z.pow_add_r by lia. bool_to_prop. lia.
Qed.

Lemma word_in_u64 bytes : bytes_ok bytes = true → len bytes ≤ 8 → in_u64 (from_ne_bytes bytes).
Proof.
  intros Hb Hl. pose proof (from_ne_bytes_bound bytes Hb). pose proof (len_nonneg bytes).
  assert (2 ^ (8 * len bytes) ≤ 2 ^ 64) by (apply Z.pow_le_mono_r; lia). unfold in_u64, U64_MAX. lia.
Qed.

Lemma bytes_ok_In l : bytes_ok l = true ↔ ∀ b, b ∈ l → is_byte b = true.
Proof. unfold bytes_ok. rewrite forallb_forall. by setoid_rewrite list_elem_of_In. Qed.

Lemma bytes_ok_ztake n l : bytes_ok l = true → bytes_ok (ztake n l) = true.
Proof. rewrite !bytes_ok_In. unfold ztake. intros Hl b Hb. by apply Hl, (subseteq_take (Z.to_nat n)). Qed.

Lemma bytes_ok_chunks n l : (0 < n)%nat → bytes_ok l = true → Forall (λ c, bytes_ok c = true ∧ len c ≤ Z.of_nat n) (chunks n l).
Proof.
  intros Hn Hl. pose proof (chunks_bound n l Hn) as Hb. pose proof (chunks_concat n l Hn) as Hc.
  apply List.Forall_forall. intros c Hin. split.
  - rewrite bytes_ok_In in *. intros b Hbc. apply Hl. rewrite <- Hc. apply list_elem_of_In.
    apply in_concat. exists c. split; [done|by apply list_elem_of_In].
  - rewrite List.Forall_forall in Hb. apply Hb in Hin. unfold len. lia.
Qed.

Lemma mechanism_list_u64 value ms : bytes_ok value = true → mechanism_list value = Ok ms → Forall in_u64 ms.
Proof.
  intros Hb Hm. unfold mechanism_list in Hm. o_inv Hm. injection Hm as <-.
  rewrite merge_sort_Permutation. apply List.Forall_forall. intros m [c [<- Hc]]%in_map_iff.
  pose proof (bytes_ok_chunks 8 value ltac:(lia) Hb) as Hf. rewrite List.Forall_forall in Hf.
  destruct (Hf c Hc). by apply word_in_u64.
Qed.

Lemma read_policy_value_ok levels a value :
  attribute_memory_ok levels a → read_policy_value a = Ok value →
  bytes_ok value = true ∧ len value ≤ ulValueLen a ∧ len value ≤ ISIZE_MAX.
Proof.
  intros Ha Hr. assert (0 ≤ ulValueLen a ∧ ∀ m, pValue a = Some m → bytes_ok (mem_bytes m) = true) as [Hn Hm].
  { destruct levels; destruct Ha as (_ & ? & Hm); split; try done; intros m E; by destruct (Hm m E). }
  unfold read_policy_value, from_raw_parts in Hr. destruct (ulValueLen a =? 0) eqn:E0; cbn in Hr.
  { injection Hr as <-. bool_to_prop. rewrite len_nil. unfold ISIZE_MAX. split; [done|lia]. }
  destruct (pValue a) as [m|]; cbn in Hr; [|done]. unfold valid_raw_slice_length in Hr.
  destruct (ulValueLen a <=? ISIZE_MAX) eqn:El; cbn in Hr; [|done]. injection Hr as <-. bool_to_prop.
  rewrite len_ztake by lia. split; [by apply bytes_ok_ztake, Hm|lia].
Qed.

Lemma policy_item_scalar levels nested a v :
  attribute_memory_ok levels a → policy_item_value nested a = Ok v → scalar_ok v.
Proof.
  intros Ha Hv. unfold policy_item_value in Hv. apply bind_Ok in Hv as (k & _ & Hv).
  assert (ISIZE_MAX ≤ U64_MAX) by done. destruct k.
  - by destruct (read_policy_bool a); [injection Hv as <-|..].
  - unfold read_policy_ulong in Hv. destruct (bail _ _) as [[]| |] eqn:Eb; cbn in Hv; try done.
    destruct (read_policy_value a) as [value| |] eqn:E; cbn in Hv; try done. injection Hv as <-.
    destruct (read_policy_value_ok levels a value) as (? & ? & ?); [done..|]. apply word_in_u64; [done|].
    unfold bail in Eb. destruct (negb _) eqn:El; [done|]. apply negb_false_iff in El. unfold SIZE_OF_ULONG in El. lia.
  - destruct (read_policy_value a) as [value| |] eqn:E; cbn in Hv; try done. injection Hv as <-.
    destruct (read_policy_value_ok levels a value) as (? & ? & ?); [done..|]. cbn. lia.
  - destruct (read_policy_value a) as [value| |] eqn:E; cbn in Hv; try done.
    destruct (read_policy_value_ok levels a value) as (? & ? & ?); [done..|].
    destruct (utf8_valid value) eqn:Eu; [|done]. injection Hv as <-. cbn. split; [done|lia].
  - destruct (read_policy_value a) as [value| |] eqn:E; cbn in Hv; try done.
    destruct (read_policy_value_ok levels a value) as (? & ? & ?); [done..|].
    destruct (mechanism_list value) eqn:Em; cbn in Hv; try done. injection Hv as <-. by eapply mechanism_list_u64.
  - by destruct (nested a); cbn in Hv; [injection Hv as <-|..].
Qed.

Lemma collect_items_ok levels nested items result l :
  (∀ item v, attribute_memory_ok (S levels) item → nested item = Ok v → attributes_ok levels false v) →
  Forall (attribute_memory_ok (S levels)) items → attributes_ok (S levels) false result →
  collect_items nested result items = Ok l → attributes_ok (S levels) false l.
Proof.
  intros Hn. revert result. induction items as [|item items IH]; intros result Hi Hr E; cbn [collect_items] in E.
  { by injection E as <-. }
  apply Forall_cons_1 in Hi as [Hitem Hi]. o_inv E. destruct a0 as [previous r]. o_inv E.
  eapply IH; [done| |exact E]. destruct (insert_template _ _ _) as [[p r']| |] eqn:Ei; cbn in E1; try done.
  injection E1 as <- <-.
  destruct (insert_checked_ok levels false (attr_type item) a result (p, r')) as [? _]; [done|done| | | |done].
  - by destruct Hitem as (? & _).
  - by eapply policy_item_scalar.
  - intros l' ->. unfold policy_item_value in E0. apply bind_Ok in E0 as (k & _ & E0).
    destruct k; cbn in E0; try (by destruct (read_policy_bool item)); try (by destruct (read_policy_ulong item));
      try (by destruct (read_policy_value item)).
    all: try (destruct (read_policy_value item) as [value| |]; cbn in E0; try done;
              first [by destruct (utf8_valid value)|by destruct (mechanism_list value)]).
    destruct (nested item) eqn:En; cbn in E0; try done. injection E0 as ->. by eapply Hn.
Qed.

Lemma policy_items_ok levels depth a items :
  attribute_memory_ok (S levels) a → policy_items depth a = Ok items → Forall (attribute_memory_ok levels) items.
Proof.
  intros (_ & _ & Hm) E. unfold policy_items in E. o_inv E.
  destruct (attribute_array _ _) as [x| |] eqn:Ea; cbn in E; try done. injection E as <-.
  unfold attribute_array in Ea. destruct (_ =? 0); [injection Ea as <-; constructor|].
  destruct (pValue a) as [m|]; [|done]. destruct (negb _) eqn:Hz in Ea; [done|]. injection Ea as <-.
  apply Forall_take, (Hm m eq_refl).
Qed.

Lemma attributes_ok_nil levels : attributes_ok (S levels) false [].
Proof. split; [constructor|]. split; [done|constructor]. Qed.

Lemma read_levels_ok k items l :
  Forall (attribute_memory_ok (S k)) items → read_semantic_levels (S k) items = Ok l → attributes_ok (S k) false l.
Proof.
  revert items l. induction k as [|k IH]; intros items l Hi E.
  - eapply (collect_items_ok 0); [|exact Hi|apply attributes_ok_nil|exact E]. intros item v _ Hv.
    apply bind_Ok in Hv as (nested & Hp & _). unfold policy_items in Hp. by o_inv Hp.
  - eapply (collect_items_ok (S k)); [|exact Hi|apply attributes_ok_nil|exact E]. intros item v Hitem Hv.
    apply bind_Ok in Hv as (nested & Hp & Hv). eapply IH; [|exact Hv]. by eapply policy_items_ok.
Qed.

(** What the module accepts as a policy template can be kept: a template read
    from the application's memory is ordered, has values of the right kinds and
    sizes, and nests within the limit that metadata records allow below their
    own attributes. *)
Theorem accepted_policy_ok a l :
  attribute_memory_ok (S MAX_POLICY_DEPTH) a → read_policy_template_attribute a = Ok l →
  attributes_ok MAX_POLICY_DEPTH false l ∧ TOP_LEVELS = S MAX_POLICY_DEPTH.
Proof.
  intros Ha E. apply bind_Ok in E as (items & Hp & E). split; [|done].
  apply (read_levels_ok 3 items); [|exact E]. by eapply policy_items_ok.
Qed.

(** ** Merging *)

Lemma insert_template_Ok t v l r : insert_template t v l = Ok r → r = (map_get t l, map_insert t v l).
Proof. unfold insert_template, insert_checked. intros E. o_inv E. by injection E as <-. Qed.

Lemma merge_entries_spec policy merged l :
  merge_entries policy merged = Ok l →
  (∀ t v, map_get t merged = Some v → map_get t l = Some v) ∧
  (∀ t v, (t, v) ∈ policy → map_get t l = Some v) ∧
  (∀ t v, map_get t l = Some v → map_get t merged = Some v ∨ (t, v) ∈ policy).
Proof.
  revert merged. induction policy as [|[t v] policy IH]; intros merged E; cbn [merge_entries] in E.
  { injection E as <-. split; [done|]. split; [by intros ???%elem_of_nil|auto]. }
  destruct (map_get t merged) as [supplied|] eqn:Eg.
  - apply bind_Ok in E as ([] & Hb & E). unfold bail in Hb. case_bool_decide; [subst|done].
    destruct (IH _ E) as (H1 & H2 & H3). split; [done|]. split.
    + intros t' v' [[= -> ->]|Hin]%elem_of_cons; auto.
    + intros t' v' Hl. destruct (H3 _ _ Hl); [by left|right; by constructor].
  - apply bind_Ok in E as ([p m] & Hi & E). destruct (insert_template t v merged) as [r| |] eqn:Er; cbn in Hi; try done.
    apply insert_template_Ok in Er. injection Hi as ->. injection Er as -> ->.
    destruct (IH _ E) as (H1 & H2 & H3). split_and!.
    + intros t' v' Hm. apply H1. rewrite map_get_insert_ne; [done|]. intros ->. congruence.
    + intros t' v' [[= -> ->]|Hin]%elem_of_cons; [apply H1, map_get_insert|auto].
    + intros t' v' Hl. destruct (H3 _ _ Hl) as [Hm|]; [|right; by constructor].
      destruct (decide (t' = t)) as [->|].
      * rewrite map_get_insert in Hm. injection Hm as ->. right. constructor.
      * rewrite map_get_insert_ne in Hm by done. by left.
Qed.

(** A policy template binds: when the module merges the caller's template
    with the template of the key in use, every attribute of the policy is in the
    result with the policy's value, every attribute of the caller is there with
    the caller's value, and nothing else is. *)
Theorem policy_binds caller policy l :
  merge_semantic caller (Some policy) = Ok l →
  ∃ supplied, read_semantic_template caller = Ok supplied ∧
    (∀ t v, (t, v) ∈ policy → map_get t l = Some v) ∧
    (∀ t v, map_get t supplied = Some v → map_get t l = Some v) ∧
    (∀ t v, map_get t l = Some v → map_get t supplied = Some v ∨ (t, v) ∈ policy).
Proof.
  intros E. apply bind_Ok in E as (supplied & Hr & E). exists supplied.
  destruct (read_semantic_template caller); cbn in Hr; try done. injection Hr as ->.
  apply merge_entries_spec in E as (? & ? & ?). done.
Qed.

(** ** Witnesses *)

(** A template that asks for a sensitive AES key, and keeps a template for the
    keys which that key unwraps. *)
Definition toy_policy : KeyAttributes :=
  [(CKA_KEY_TYPE, ValueUnsigned CKK_AES); (CKA_SENSITIVE, ValueBoolean true);
   (CKA_UNWRAP_TEMPLATE, ValueTemplate [(CKA_EXTRACTABLE, ValueBoolean false)])].

Lemma policy_template_roundtrip_witness :
  ∃ ow, from_semantic toy_policy = Ok ow ∧ read_semantic_template (as_slice ow) = Ok toy_policy.
Proof.
  apply (policy_template_roundtrip toy_policy); [|by vm_compute].
  split_and!; [repeat constructor|by vm_compute|].
  repeat (apply Forall_cons_2 || apply Forall_nil_2 || split_and! || intros nested [= <-] || done
          || (repeat constructor; fail) || constructor); unfold in_u64, U64_MAX; vm_compute; done.
Defined.

(** The caller asks for a label; the policy adds its three attributes. *)
Definition toy_request : list CK_ATTRIBUTE := [mkAttribute CKA_LABEL (Some (mkAttributeMemory [75] [])) 1].

Lemma policy_binds_witness :
  ∃ l, merge_semantic toy_request (Some toy_policy) = Ok l
    ∧ (∀ t v, (t, v) ∈ toy_policy → map_get t l = Some v) ∧ len l = 4.
Proof.
  destruct (merge_semantic toy_request (Some toy_policy)) as [l| |] eqn:E; [|by vm_compute in E..].
  exists l. split; [done|]. destruct (policy_binds toy_request toy_policy l E) as (supplied & _ & Hp & _).
  split; [exact Hp|]. vm_compute in E. by injection E as <-.
Defined.
