(* ===== verification/ObjectImport.v ===== *)
(** * ObjectImport: objects built from an application's template

    Models the parsers of [src/src/api/object.rs] behind [C_CreateObject]: data
    objects, certificates, and keys with their components. The constructors of
    [software-key-core] that check a key are the class [KeyImport]. *)
From coqutil Require Import Datatypes.RecordSetters.
From S2P Require Import Prelude Errors Storage Mechanisms AttributeTypes KeyMetadata YubiHsm SlotState SessionApi CryptApi Digests CipherModes Ciphers SignatureModes OathOtp HsmCapabilities PivTables Attributes Templates.
Import DoubleBraceUpdate.

(** ** Interfaces *)

Inductive MlKemError : Type :=
| MlKemRandomnessUnavailable | MlKemInvalidSeedLength | MlKemInvalidKey | MlKemInvalidCiphertext.

(** The checking constructors of keys; a private key is the value that the
    other files carry for it. *)
Class KeyImport : Type := {
  rsa_max_size : Z;
  rsa_import_public : Z → Z → option RsaPublicKey;
  from_rsa_components : Z → Z → Z → list Z → option RsaPrivateKey;
  ec_point_on_curve : EcCurve → list Z → bool;
  ec_from_serialized : EcCurve → list Z → option (list Z);
  edwards_from_serialized : EdwardsCurve → list Z → option (list Z);
  edwards_private_key_length : EdwardsCurve → Z;
  montgomery_from_serialized : MontgomeryCurve → list Z → option (list Z);
  ml_dsa_from_components : MlDsaParameterSet → option (list Z) → option (list Z) → outcome MlDsaError (list Z);
  ml_kem_from_components : MlKemParameterSet → option (list Z) → option (list Z) → outcome MlKemError (list Z);
  hybrid_from_seed_slice : HybridKemConstruction → list Z → option (list Z);
}.

(** ** Reading a template *)

Definition template_attribute (templ : list CK_ATTRIBUTE) (t : Z) : option CK_ATTRIBUTE :=
  List.find (λ a, attr_type a =? t) templ.
Definition required_template_value (templ : list CK_ATTRIBUTE) (t : Z) : outcome Error (list Z) :=
  let? a := ok_or #CKR_TEMPLATE_INCOMPLETE (template_attribute templ t) in
  let? value := map_err Generic (read_attribute_value a) in
  let? _ := bail (bool_decide (value = [])) #CKR_ATTRIBUTE_VALUE_INVALID in
  Ok value.
Definition validate_unique_template (templ : list CK_ATTRIBUTE) : outcome Error unit :=
  bail (negb (bool_decide (NoDup (map attr_type templ)))) #CKR_TEMPLATE_INCONSISTENT.

(** [for attribute in templ { state = f(attribute, state)? }] *)
Fixpoint for_attributes {A} (f : CK_ATTRIBUTE → A → outcome Error A) (templ : list CK_ATTRIBUTE) (s : A)
    : outcome Error A :=
  match templ with
  | [] => Ok s
  | a :: rest => let? s := f a s in for_attributes f rest s
  end.

(** An attribute that may only be given as true. *)
Definition require_true (a : CK_ATTRIBUTE) : outcome Error unit :=
  let? value := map_err Generic (read_bool_template_attribute a) in
  bail (negb value) #CKR_ATTRIBUTE_VALUE_INVALID.

Definition keyless_template (class : Z) : TokenObjectTemplate :=
  TokenObjectTemplate_default {{ t_class := Some class; t_key_type := Some CKK_GENERIC_SECRET }}.

(** *** Data objects *)

Record DataFields : Type := mkDataFields {
  f_common : TokenObjectTemplate;
  f_application : list Z;
  f_object_id : list Z;
  f_value : list Z;
}.
Definition data_attribute (a : CK_ATTRIBUTE) (f : DataFields) : outcome Error DataFields :=
  let t := attr_type a in
  let bytes set := omap_ok set (map_err Generic (read_attribute_value a)) in
  if t =? CKA_APPLICATION then bytes (λ v, f {{ f_application := v }})
  else if t =? CKA_OBJECT_ID then bytes (λ v, f {{ f_object_id := v }})
  else if t =? CKA_VALUE then bytes (λ v, f {{ f_value := v }})
  else if one_of [CKA_CLASS; CKA_TOKEN; CKA_PRIVATE; CKA_LABEL] t then
    omap_ok (λ c, f {{ f_common := c }}) (map_err Generic (apply_attribute a (f_common f)))
  else if one_of [CKA_MODIFIABLE; CKA_COPYABLE; CKA_DESTROYABLE] t then omap_ok (λ _, f) (require_true a)
  else Err #CKR_ATTRIBUTE_TYPE_INVALID.
Definition NO_INSTANCE : list Z := replicate 16 0.
Definition parse_data_object_template (templ : list CK_ATTRIBUTE) : outcome Error TokenObject :=
  let? _ := validate_unique_template templ in
  let? f := for_attributes data_attribute templ (mkDataFields (keyless_template CKO_DATA) [] [] []) in
  let? o := map_err Generic (into_object (f_common f)) in
  Ok (o {{ material := Data NO_INSTANCE (f_application f) (f_object_id f) (f_value f) }}).

(** *** Certificates *)

Section certificates.
Context `{Certificates, HashCore}.

Definition certificate_attribute (value : list Z) (a : CK_ATTRIBUTE) (common : TokenObjectTemplate)
    : outcome Error TokenObjectTemplate :=
  let t := attr_type a in
  if one_of [CKA_CLASS; CKA_TOKEN; CKA_PRIVATE; CKA_LABEL; CKA_ID] t then map_err Generic (apply_attribute a common)
  else if t =? CKA_VALUE then Ok common
  else if one_of [CKA_MODIFIABLE; CKA_COPYABLE; CKA_DESTROYABLE] t then omap_ok (λ _, common) (require_true a)
  else
    let? expected := ok_or #CKR_ATTRIBUTE_TYPE_INVALID (piv_certificate_attribute value t) in
    let? supplied := map_err Generic (read_attribute_value a) in
    let? _ := bail (negb (bool_decide (supplied = expected))
                    && negb (bool_decide (supplied = []) && one_of [CKA_SUBJECT; CKA_ISSUER; CKA_SERIAL_NUMBER] t))
                #CKR_ATTRIBUTE_VALUE_INVALID in
    Ok common.
Definition parse_certificate_object_template (templ : list CK_ATTRIBUTE) : outcome Error TokenObject :=
  let? _ := validate_unique_template templ in
  let? value := required_template_value templ CKA_VALUE in
  let? _ := map_err (λ _, #CKR_ATTRIBUTE_VALUE_INVALID) (subject value) in
  let? a := ok_or #CKR_TEMPLATE_INCOMPLETE (template_attribute templ CKA_CERTIFICATE_TYPE) in
  let? kind := map_err Generic (read_ulong_template_attribute a) in
  let? _ := bail (negb (kind =? CKC_X_509)) #CKR_ATTRIBUTE_VALUE_INVALID in
  let? common := for_attributes (certificate_attribute value) templ (keyless_template CKO_CERTIFICATE) in
  let? o := map_err Generic (into_object common) in
  Ok (o {{ material := Certificate NO_INSTANCE value }}).
End certificates.

(** ** Keys *)

Definition validate_software_secret_length (key_type length : Z) : outcome Error unit :=
  let? valid :=
    if key_type =? CKK_AES then Ok (one_of [16; 24; 32] length)
    else if key_type =? CKK_DES3 then Ok (length =? 24)
    else if (key_type =? CKK_GENERIC_SECRET) || is_hmac_key_type key_type then Ok (between 1 length 1024)
    else Err #CKR_KEY_TYPE_INCONSISTENT in
  bail (negb valid) #CKR_KEY_SIZE_RANGE.

Definition is_key_component_attribute (t : Z) : bool :=
  one_of [CKA_VALUE; CKA_EC_PARAMS; CKA_EC_POINT; CKA_MODULUS; CKA_PUBLIC_EXPONENT; CKA_PRIVATE_EXPONENT;
          CKA_PRIME_1; CKA_PRIME_2; CKA_EXPONENT_1; CKA_EXPONENT_2; CKA_COEFFICIENT; CKA_PARAMETER_SET; CKA_SEED] t.

(** The components still to be used, by attribute type. *)
Abbreviation Components := (gmap Z (list Z)).
Abbreviation C := (SM Components Error).

(** [components.remove(&t)] *)
Definition take_component (t : Z) : C (option (list Z)) := λ c, (Ok (c !! t), delete t c).
Definition required_component (t : Z) : C (list Z) :=
  let! value := take_component t in sm_lift (ok_or #CKR_TEMPLATE_INCOMPLETE value).
Definition required_big_num (t : Z) : C Z :=
  let! value := required_component t in
  let! _ := guard_err (bool_decide (value = [])) #CKR_ATTRIBUTE_VALUE_INVALID in
  sm_ret (from_bytes_be value).
Definition optional_big_num (t : Z) : C (option Z) :=
  let! value := take_component t in
  match value with
  | None => sm_ret None
  | Some [] => sm_err #CKR_ATTRIBUTE_VALUE_INVALID
  | Some value => sm_ret (Some (from_bytes_be value))
  end.
Definition required_parameter_set : C Z :=
  let! value := required_component CKA_PARAMETER_SET in
  let! _ := guard_err (negb (len value =? SIZE_OF_ULONG)) #CKR_ATTRIBUTE_VALUE_INVALID in
  sm_ret (from_ne_bytes value).

(** [BigUint::bits] *)
Definition big_num_bits (n : Z) : Z := if n =? 0 then 0 else Z.log2 n + 1.

Definition der_octet_string_value (value : list Z) : option (list Z) :=
  match value with
  | 0x04 :: 0x81 :: length :: content => if len content =? length then Some content else None
  | 0x04 :: length :: content => if (length <=? 127) && (len content =? length) then Some content else None
  | _ => None
  end.

Definition padded_private_scalar (value : list Z) (length : Z) : outcome Error (list Z) :=
  let? _ := bail (bool_decide (value = []) || (length <? len value)) #CKR_KEY_SIZE_RANGE in
  left_padded length value.

Definition hybrid_construction (key_type : Z) : HybridKemConstruction :=
  if key_type =? CKK_PKCS11RS_MLKEM768_P256 then MlKem768P256
  else if key_type =? CKK_PKCS11RS_MLKEM768_X25519 then MlKem768X25519
  else MlKem1024P384.
Definition ml_dsa_set (parameter : Z) : option MlDsaParameterSet :=
  if parameter =? CKP_ML_DSA_44 then Some SetMlDsa44
  else if parameter =? CKP_ML_DSA_65 then Some SetMlDsa65
  else if parameter =? CKP_ML_DSA_87 then Some SetMlDsa87 else None.
Definition ml_kem_set (parameter : Z) : option MlKemParameterSet :=
  if parameter =? CKP_ML_KEM_512 then Some SetMlKem512
  else if parameter =? CKP_ML_KEM_768 then Some SetMlKem768
  else if parameter =? CKP_ML_KEM_1024 then Some SetMlKem1024 else None.

Section keys.
Context `{KeyCore, KeyImport}.

Definition validate_ec_public_point (curve : EcCurve) (point : list Z) : outcome Error unit :=
  let? _ := bail (negb (len point =? 1 + coordinate_length curve * 2) || negb (at_ point 0 =? 0x04))
              #CKR_KEY_TYPE_INCONSISTENT in
  bail (negb (ec_point_on_curve curve point)) #CKR_PUBLIC_KEY_INVALID.

Definition import_secret : C KeyMaterial :=
  let! value := required_component CKA_VALUE in
  let! _ := guard_err (bool_decide (value = [])) #CKR_ATTRIBUTE_VALUE_INVALID in
  sm_ret (Secret value).

Definition import_rsa_public_key : C KeyMaterial :=
  let! modulus := required_big_num CKA_MODULUS in
  let! exponent := required_big_num CKA_PUBLIC_EXPONENT in
  let! _ := guard_err (rsa_max_size <? big_num_bits modulus) #CKR_ATTRIBUTE_VALUE_INVALID in
  let! key := sm_lift (ok_or #CKR_ATTRIBUTE_VALUE_INVALID (rsa_import_public modulus exponent)) in
  sm_ret (Public (RsaPublic key)).

Definition import_ec_public_key : C KeyMaterial :=
  let! parameters := required_component CKA_EC_PARAMS in
  let! encoded_point := required_component CKA_EC_POINT in
  let! point := sm_lift (ok_or #CKR_ATTRIBUTE_VALUE_INVALID (der_octet_string_value encoded_point)) in
  let! curve := sm_lift (map_err (λ _, #CKR_CURVE_NOT_SUPPORTED) (ec_curve_from_parameters parameters)) in
  let! _ := sm_lift (map_err (λ _, #CKR_ATTRIBUTE_VALUE_INVALID) (validate_ec_public_point curve point)) in
  sm_ret (Public (EcPublic parameters (zdrop 1 point))).

Definition import_pq_public_key (info : Z → list Z → option (list Z)) (material : Z → list Z → PublicKeyMaterial)
    : C KeyMaterial :=
  let! parameter_set := required_parameter_set in
  let! public_key := required_component CKA_VALUE in
  let! _ := guard_err (negb (is_some (info parameter_set public_key))) #CKR_ATTRIBUTE_VALUE_INVALID in
  sm_ret (Public (material parameter_set public_key)).

Definition import_hybrid_public_key (key_type : Z) : C KeyMaterial :=
  let construction := hybrid_construction key_type in
  let! public_key := required_component CKA_VALUE in
  let! _ := guard_err (negb (len public_key =? hybrid_public_key_length construction)) #CKR_ATTRIBUTE_VALUE_INVALID in
  sm_ret (Public (HybridKemPublic construction public_key)).

Definition import_rsa_private_key : C KeyMaterial :=
  let! modulus := required_big_num CKA_MODULUS in
  let! public_exponent := required_big_num CKA_PUBLIC_EXPONENT in
  let! private_exponent := required_big_num CKA_PRIVATE_EXPONENT in
  let! prime_1 := optional_big_num CKA_PRIME_1 in
  let! prime_2 := optional_big_num CKA_PRIME_2 in
  let has_factors := is_some prime_1 || is_some prime_2 in
  let! primes := match prime_1, prime_2 with
                 | Some p, Some q => sm_ret [p; q]
                 | None, None => sm_ret []
                 | _, _ => sm_err #CKR_TEMPLATE_INCONSISTENT
                 end in
  let! exponent_1 := optional_big_num CKA_EXPONENT_1 in
  let! exponent_2 := optional_big_num CKA_EXPONENT_2 in
  let! coefficient := optional_big_num CKA_COEFFICIENT in
  let! _ := match exponent_1, exponent_2, coefficient with
            | Some _, Some _, Some _ => guard_err (negb has_factors) #CKR_TEMPLATE_INCONSISTENT
            | None, None, None => sm_ret tt
            | _, _, _ => sm_err #CKR_TEMPLATE_INCONSISTENT
            end in
  let! key := sm_lift (ok_or #CKR_ATTRIBUTE_VALUE_INVALID
                         (from_rsa_components modulus public_exponent private_exponent primes)) in
  sm_ret (SoftwarePrivate (SigningRsa key)).

Definition montgomery_private_length (curve : MontgomeryCurve) : Z :=
  match curve with MontgomeryX25519 => 32 | MontgomeryX448 => 56 end.

Definition import_ec_private_key (key_type : Z) : C KeyMaterial :=
  let! parameters := required_component CKA_EC_PARAMS in
  let! value := required_component CKA_VALUE in
  let unsupported {A} : outcome Error A → outcome Error A := map_err (λ _, #CKR_CURVE_NOT_SUPPORTED) in
  let! material :=
    sm_lift
      (if key_type =? CKK_EC then
         let? curve := unsupported (ec_curve_from_parameters parameters) in
         let? scalar := padded_private_scalar value (coordinate_length curve) in
         omap_ok (SigningEc curve) (ok_or #CKR_ATTRIBUTE_VALUE_INVALID (ec_from_serialized curve scalar))
       else if key_type =? CKK_EC_EDWARDS then
         let? curve := unsupported (edwards_curve_from_parameters parameters) in
         let? _ := bail (negb (len value =? edwards_private_key_length curve)) #CKR_KEY_SIZE_RANGE in
         omap_ok (SigningEdwards curve) (ok_or #CKR_ATTRIBUTE_VALUE_INVALID (edwards_from_serialized curve value))
       else
         let? curve := unsupported (montgomery_curve_from_parameters parameters) in
         let? _ := bail (negb (len value =? montgomery_private_length curve)) #CKR_KEY_SIZE_RANGE in
         omap_ok Montgomery (ok_or #CKR_ATTRIBUTE_VALUE_INVALID (montgomery_from_serialized curve value))) in
  sm_ret (SoftwarePrivate material).

Definition import_ml_dsa_private_key : C KeyMaterial :=
  let! parameter := required_parameter_set in
  let! parameter_set := sm_lift (ok_or #CKR_ATTRIBUTE_VALUE_INVALID (ml_dsa_set parameter)) in
  let! seed := take_component CKA_SEED in
  let! expanded := take_component CKA_VALUE in
  let! _ := guard_err (negb (is_some seed) && negb (is_some expanded)) #CKR_TEMPLATE_INCOMPLETE in
  let! key := sm_lift (map_err (λ e, match e with
                                     | MlDsaInvalidSeedLength => #CKR_KEY_SIZE_RANGE
                                     | _ => #CKR_ATTRIBUTE_VALUE_INVALID
                                     end) (ml_dsa_from_components parameter_set seed expanded)) in
  sm_ret (SoftwarePrivate (SigningMlDsa parameter_set key)).

Definition import_ml_kem_private_key : C KeyMaterial :=
  let! parameter := required_parameter_set in
  let! seed := take_component CKA_SEED in
  let! expanded := take_component CKA_VALUE in
  let! parameter_set := sm_lift (ok_or #CKR_ATTRIBUTE_VALUE_INVALID (ml_kem_set parameter)) in
  let! _ := guard_err (negb (is_some seed) && negb (is_some expanded)) #CKR_TEMPLATE_INCOMPLETE in
  let! key := sm_lift (map_err (λ e, match e with
                                     | MlKemRandomnessUnavailable => #CKR_RANDOM_NO_RNG
                                     | MlKemInvalidSeedLength => #CKR_KEY_SIZE_RANGE
                                     | _ => #CKR_ATTRIBUTE_VALUE_INVALID
                                     end) (ml_kem_from_components parameter_set seed expanded)) in
  sm_ret (SoftwarePrivate (MlKem key)).

Definition import_hybrid_private_key (key_type : Z) : C KeyMaterial :=
  let! seed := take_component CKA_SEED in
  let! value := take_component CKA_VALUE in
  let! _ := guard_err (Bool.eqb (is_some seed) (is_some value)) #CKR_TEMPLATE_INCONSISTENT in
  let construction := hybrid_construction key_type in
  let! bytes := sm_lift (ok_or #CKR_TEMPLATE_INCOMPLETE (match seed with Some _ => seed | None => value end)) in
  let! key := sm_lift (ok_or #CKR_KEY_SIZE_RANGE (hybrid_from_seed_slice construction bytes)) in
  sm_ret (SoftwarePrivate (HybridKem construction key)).

Definition SECRET_KEY_TYPES : list Z :=
  [CKK_GENERIC_SECRET; CKK_AES; CKK_DES3; CKK_SHA_1_HMAC; CKK_SHA224_HMAC; CKK_SHA256_HMAC; CKK_SHA384_HMAC;
   CKK_SHA512_HMAC].

Definition import_material (class key_type : Z) : C KeyMaterial :=
  let public := class =? CKO_PUBLIC_KEY in
  let private := class =? CKO_PRIVATE_KEY in
  if (class =? CKO_SECRET_KEY) && one_of SECRET_KEY_TYPES key_type then import_secret
  else if public && (key_type =? CKK_RSA) then import_rsa_public_key
  else if public && (key_type =? CKK_EC) then import_ec_public_key
  else if public && (key_type =? CKK_ML_DSA) then import_pq_public_key ml_dsa_public_key_info MlDsaPublic
  else if public && (key_type =? CKK_ML_KEM) then import_pq_public_key ml_kem_public_key_info MlKemPublic
  else if public && is_hybrid_kem_key_type key_type then import_hybrid_public_key key_type
  else if private && (key_type =? CKK_RSA) then import_rsa_private_key
  else if private && one_of [CKK_EC; CKK_EC_EDWARDS; CKK_EC_MONTGOMERY] key_type then import_ec_private_key key_type
  else if private && (key_type =? CKK_ML_DSA) then import_ml_dsa_private_key
  else if private && (key_type =? CKK_ML_KEM) then import_ml_kem_private_key
  else if private && is_hybrid_kem_key_type key_type then import_hybrid_private_key key_type
  else sm_err #CKR_TEMPLATE_INCONSISTENT.

Definition build_imported_key_material (o : TokenObject) (components : Components) : outcome Error KeyMaterial :=
  match import_material (class o) (key_type o) components with
  | (Ok material, rest) => if bool_decide (rest = ∅) then Ok material else Err #CKR_TEMPLATE_INCONSISTENT
  | (Err e, _) => Err e
  | (Panic, _) => Panic
  end.

Definition create_attribute (a : CK_ATTRIBUTE) (s : TokenObjectTemplate * Components)
    : outcome Error (TokenObjectTemplate * Components) :=
  if is_key_component_attribute (attr_type a)
  then omap_ok (λ value, (s.1, <[attr_type a := value]> s.2)) (map_err Generic (read_attribute_value a))
  else omap_ok (λ t, (t, s.2)) (map_err Generic (apply_attribute a s.1)).

(** Imported bytes have been outside the module: the history flags are off. *)
Definition imported (material_ : KeyMaterial) (o : TokenObject) : TokenObject :=
  o {{ material := material_; attributes -> always_sensitive := false; attributes -> never_extractable := false }}.

Definition parse_create_object_template_with_policy (templ : list CK_ATTRIBUTE) (software_secret : bool)
    : outcome Error TokenObject :=
  let? _ := validate_unique_template templ in
  let? '(t, components) := for_attributes create_attribute templ (TokenObjectTemplate_default, ∅) in
  let? o := map_err Generic (into_object_with_software_secret_policy t software_secret) in
  let? material := build_imported_key_material o components in
  let o := imported material o in
  if software_secret then
    match material with
    | Secret value =>
        let? _ := validate_software_secret_length (key_type o) (len value) in
        Ok (imported (SoftwareSecret value) o)
    | _ => Err #CKR_TEMPLATE_INCONSISTENT
    end
  else Ok o.
Definition parse_create_object_template (templ : list CK_ATTRIBUTE) : outcome Error TokenObject :=
  parse_create_object_template_with_policy templ false.
Definition parse_software_secret_create_object_template (templ : list CK_ATTRIBUTE) : outcome Error TokenObject :=
  parse_create_object_template_with_policy templ true.
End keys.

(** ** A concrete instance: keys that are their own encodings *)

#[export] Instance toy_import : KeyImport := {|
  rsa_max_size := 8192;
  rsa_import_public n e := None;
  from_rsa_components _ _ _ _ := None;
  ec_point_on_curve _ p := at_ p 0 =? 4;
  ec_from_serialized _ k := Some k;
  edwards_from_serialized _ k := Some k;
  edwards_private_key_length _ := 32;
  montgomery_from_serialized _ k := Some k;
  ml_dsa_from_components _ _ k := Ok (default [] k);
  ml_kem_from_components _ _ k := Ok (default [] k);
  hybrid_from_seed_slice _ k := Some k;
|}.
