(* ===== verification/MechanismSafety.v ===== *)
(** * MechanismSafety: what slots and keys advertise

    Theorems on [MechanismTables] and [KeyMechanisms]: a slot advertises every
    mechanism once and under a known name, software mechanisms only add to what a
    backend offers, and [CKA_ALLOWED_MECHANISMS] of a key names exactly the
    mechanisms that the operations accept. *)
From Stdlib Require Import Sorted.
From stdpp Require Import strings.
From S2P Require Import Prelude Errors Storage Mechanisms AttributeTypes KeyMetadata YubiHsm SlotState SessionApi CryptApi Digests CipherModes Ciphers SignatureModes OathOtp HsmCapabilities PivTables Signatures Attributes MechanismTables KeyMechanisms Oath SignatureStreams SignatureRoundtrip Templates ObjectImport.

(** ** Slots *)

(** The implementations of [Slot] and what they answer. *)
Inductive SlotKind : Type :=
| PivSlot (firmware_5_7 supports_pq : bool)
| OpenPgpSlot (has_ecdh : bool)
| YubiHsmSlot (algorithms : list Z)
| HostSlot
| CtapSlot (preview_sign : bool)
| OathSlot
| HsmAuthSlot
| SoftwareSlot.

Definition slot_profile (k : SlotKind) : SlotMechanisms :=
  let all := λ _ : Z, true in
  match k with
  | PivSlot firmware_5_7 pq => mkSlotMechanisms (piv_backend_mechanisms firmware_5_7 pq) ScopeComposition all true
  | OpenPgpSlot ecdh => mkSlotMechanisms (openpgp_backend_mechanisms ecdh) ScopeComposition all true
  | YubiHsmSlot algorithms => mkSlotMechanisms (yubihsm_mechanisms algorithms) ScopeComposition all true
  | HostSlot => mkSlotMechanisms host_backend_mechanisms ScopeComposition all true
  | CtapSlot preview => mkSlotMechanisms (ctap_backend_mechanisms preview) ScopeComposition all true
  | OathSlot => mkSlotMechanisms oath_mechanisms ScopeNone all false
  | HsmAuthSlot => mkSlotMechanisms [] ScopeNone (λ _, false) false
  | SoftwareSlot => mkSlotMechanisms [] ScopeFull all true
  end.

(** ** Tables *)

Definition types (table : list MechanismDetails) : list Z := type_ <$> table.

Lemma merge_types d table :
  types (merge_mechanism d table) = if bool_decide (type_ d ∈ types table) then types table else types table ++ [type_ d].
Proof.
  induction table as [|e rest IH]; [done|]. cbn [merge_mechanism types fmap list_fmap] in *.
  destruct (Z.eqb_spec (type_ e) (type_ d)) as [E|E].
  - rewrite bool_decide_eq_true_2; [done|]. rewrite E. left.
  - unfold types in *. cbn. rewrite IH. repeat case_bool_decide; set_solver.
Qed.

Lemma merge_nodup added : ∀ table, NoDup (types table) → NoDup (types (merge_mechanisms added table)).
Proof.
  induction added as [|d rest IH]; intros table H; [done|]. apply IH. rewrite merge_types. case_bool_decide; [done|].
  apply list.NoDup_app; split; [done|]. split; [set_solver|apply NoDup_singleton].
Qed.

Lemma merge_types_elem added : ∀ table m,
  m ∈ types (merge_mechanisms added table) ↔ m ∈ types table ∨ m ∈ types added.
Proof.
  induction added as [|d rest IH]; intros table m; [set_solver|]. cbn [merge_mechanisms foldl].
  fold (merge_mechanisms rest (merge_mechanism d table)). rewrite IH, merge_types.
  unfold types. cbn [fmap list_fmap]. fold (types table) (types rest). case_bool_decide; set_solver.
Qed.

Lemma omap_types {A} (f : A → option MechanismDetails) (g : A → Z) l :
  (∀ x d, f x = Some d → type_ d = g x) → types (omap f l) `sublist_of` (g <$> l).
Proof.
  intros H. unfold types. induction l as [|x l IH]; [done|]. cbn.
  destruct (f x) as [d|] eqn:E; cbn; [rewrite (H _ _ E); by apply sublist_skip|by apply sublist_cons].
Qed.

Lemma bind_types {A} (f : A → list MechanismDetails) (g : A → list Z) l :
  (∀ x, types (f x) `sublist_of` g x) → types (l ≫= f) `sublist_of` (l ≫= g).
Proof.
  intros H. unfold types. induction l as [|x l IH]; [done|]. rewrite !bind_cons, fmap_app. by apply sublist_app.
Qed.

Lemma types_app l k : types (l ++ k) = types l ++ types k.
Proof. apply fmap_app. Qed.

(** ** Every mechanism once *)

(** The types of the device's tables before the virtual extensions, in order. *)
Definition HSM_TYPES : list Z :=
  types YUBIHSM_MECHANISMS
  ++ ((λ '(t, _, _, _), t) <$> SHA_HMAC_KEY_GENERATION)
  ++ (((CKM_HASH_ML_DSA :: HASH_ML_DSA_MECHANISMS) ++ [CKM_ML_DSA_KEY_PAIR_GEN; CKM_ML_DSA])
      ++ [CKM_ML_KEM_KEY_PAIR_GEN; CKM_ML_KEM])
  ++ [CKM_PKCS11RS_MLKEM768_P256_KEY_PAIR_GEN; CKM_PKCS11RS_MLKEM768_P256;
      CKM_PKCS11RS_MLKEM768_X25519_KEY_PAIR_GEN; CKM_PKCS11RS_MLKEM768_X25519;
      CKM_PKCS11RS_MLKEM1024_P384_KEY_PAIR_GEN; CKM_PKCS11RS_MLKEM1024_P384]
  ++ [CKM_SHA1_RSA_PKCS; CKM_SHA256_RSA_PKCS; CKM_SHA384_RSA_PKCS; CKM_SHA512_RSA_PKCS]
  ++ [CKM_SHA1_RSA_PKCS_PSS; CKM_SHA256_RSA_PKCS_PSS; CKM_SHA384_RSA_PKCS_PSS; CKM_SHA512_RSA_PKCS_PSS]
  ++ [CKM_ECDSA_SHA1; CKM_ECDSA_SHA256; CKM_ECDSA_SHA384; CKM_ECDSA_SHA512].

Lemma yubihsm_entry_type algorithms d e : yubihsm_entry algorithms d = Some e → type_ e = type_ d.
Proof.
  unfold yubihsm_entry. destruct (size_range _) as [[min max]|]; destruct (yubihsm_supported _ _); intros; by simplify_eq.
Qed.

Lemma yubihsm_hashed_types algorithms has sizes flags table :
  types (yubihsm_hashed algorithms has sizes flags table) `sublist_of` table.*2.
Proof.
  apply omap_types. intros [a t] d E. cbn in *.
  destruct (size_range sizes) as [[? ?]|]; [|done]. by destruct (has && _); simplify_eq.
Qed.

Lemma yubihsm_lattice_types algorithms base sizes generation operation flags :
  types (yubihsm_lattice algorithms base sizes generation operation flags)
    `sublist_of` (if operation =? CKM_ML_DSA then CKM_HASH_ML_DSA :: HASH_ML_DSA_MECHANISMS else [])
                 ++ [generation; operation].
Proof.
  unfold yubihsm_lattice. destruct (size_range _) as [[min max]|]; [|apply sublist_nil_l].
  rewrite types_app. apply sublist_app; [|done]. by destruct (operation =? CKM_ML_DSA).
Qed.

Lemma yubihsm_static_types algorithms :
  types (omap (yubihsm_entry algorithms) YUBIHSM_MECHANISMS ++ yubihsm_hmac_generation algorithms
         ++ yubihsm_post_quantum algorithms ++ yubihsm_hybrid algorithms ++ yubihsm_hashed_rsa_pkcs algorithms
         ++ yubihsm_hashed_rsa_pss algorithms ++ yubihsm_hashed_ecdsa algorithms) `sublist_of` HSM_TYPES.
Proof.
  unfold HSM_TYPES. rewrite !types_app.
  apply sublist_app; [|apply sublist_app; [|apply sublist_app; [|apply sublist_app;
    [|repeat apply sublist_app; apply yubihsm_hashed_types]]]].
  - apply omap_types, yubihsm_entry_type.
  - apply omap_types. intros [[[t ?] a] n] d E. cbn in E. by destruct (one_of _ a); simplify_eq.
  - unfold yubihsm_post_quantum. rewrite types_app. apply sublist_app; apply yubihsm_lattice_types.
  - change [CKM_PKCS11RS_MLKEM768_P256_KEY_PAIR_GEN; CKM_PKCS11RS_MLKEM768_P256;
      CKM_PKCS11RS_MLKEM768_X25519_KEY_PAIR_GEN; CKM_PKCS11RS_MLKEM768_X25519;
      CKM_PKCS11RS_MLKEM1024_P384_KEY_PAIR_GEN; CKM_PKCS11RS_MLKEM1024_P384]
      with (HSM_HYBRIDS ≫= λ '(_, _, generation, operation), [generation; operation] : list Z).
    apply bind_types. intros [[[a size] generation] operation].
    destruct (one_of algorithms a); [done|apply sublist_nil_l].
Qed.

Lemma backend_types_nodup k : NoDup (types (backend_mechanisms (slot_profile k))).
Proof.
  destruct k as [fw pq|ecdh|algorithms| |preview| | |].
  3: { apply merge_nodup. eapply sublist_NoDup; [|apply yubihsm_static_types].
       apply (bool_decide_unpack _). by vm_compute. }
  all: try destruct fw, pq; try destruct ecdh; try destruct preview; apply (bool_decide_unpack _); by vm_compute.
Qed.

(** ** Names and envelopes *)

(** The types that host software can add to a slot. *)
Definition SOFTWARE_TYPES : list Z :=
  types (software_private_mechanisms ++ software_secret_mechanisms ++ software_public_mechanisms
         ++ SOFTWARE_DIGEST_MECHANISMS).

Lemma find_mechanism_type m table d : find_mechanism m table = Some d → type_ d = m ∧ m ∈ types table.
Proof.
  intros [Hin Hm]%List.find_some. apply Z.eqb_eq in Hm. subst. split; [done|].
  apply list_elem_of_fmap. exists d. split; [done|by apply list_elem_of_In].
Qed.

Lemma option_types m table f d :
  (∀ e, type_ (f e) = type_ e) → d ∈ option_list (f <$> find_mechanism m table) → type_ d ∈ types table.
Proof.
  intros Hf Hd. destruct (find_mechanism m table) as [e|] eqn:E; cbn in Hd; [|set_solver].
  apply list_elem_of_singleton in Hd as ->. destruct (find_mechanism_type _ _ _ E) as [He Hm]. by rewrite Hf, He.
Qed.

Lemma composite_types table base candidates d :
  d ∈ add_composites table base candidates →
  type_ d ∈ types software_private_mechanisms ∨ type_ d ∈ types software_public_mechanisms.
Proof.
  unfold add_composites. destruct (find_mechanism base table) as [native|]; [|set_solver].
  destruct (negb (flag_set native CKF_SIGN)); [set_solver|].
  intros (t & [Hd|Hd]%elem_of_app & Ht)%list_elem_of_bind; [left|right]; by eapply option_types in Hd.
Qed.

Lemma prefixed_types table d : d ∈ prefixed_ecdh table → type_ d ∈ types software_private_mechanisms.
Proof.
  unfold prefixed_ecdh. destruct (List.find _ table) as [native|]; [|set_solver].
  intros [Hd|Hd]%elem_of_app; [by eapply option_types in Hd|].
  destruct (_ && _); [by eapply option_types in Hd|set_solver].
Qed.

Lemma complement_types s software d : d ∈ public_complement s software → type_ d = type_ software.
Proof.
  unfold public_complement. destruct (type_ software =? CKM_PKCS11RS_PROJECT_PUBLIC_KEY).
  - destruct (slot_supports_public_projection s); set_solver.
  - destruct (find_mechanism _ _) as [native|]; [|set_solver]. destruct (_ =? 0); [set_solver|].
    by intros ->%list_elem_of_singleton.
Qed.

Lemma Forall_elem {A} (P : A → Prop) l : Forall P l ↔ ∀ x, x ∈ l → P x.
Proof. apply list.Forall_forall. Qed.
Lemma elem_of_sublist {A} (l k : list A) x : l `sublist_of` k → x ∈ l → x ∈ k.
Proof. induction 1; set_solver. Qed.

Lemma elem_of_types d table : d ∈ table → type_ d ∈ types table.
Proof. apply list_elem_of_fmap_2. Qed.

Lemma software_types s d : d ∈ software_mechanisms s → type_ d ∈ SOFTWARE_TYPES.
Proof.
  unfold SOFTWARE_TYPES. rewrite !types_app, !elem_of_app. unfold software_mechanisms.
  destruct (software_mechanism_scope s); rewrite ?elem_of_app.
  - set_solver.
  - intros [Hd|[Hd|[Hd|[Hd|[Hd|[Hd|Hd]]]]]].
    + do 3 right. by apply elem_of_types.
    + apply composite_types in Hd. tauto.
    + apply composite_types in Hd. tauto.
    + apply composite_types in Hd. tauto.
    + left. by eapply prefixed_types.
    + apply list_elem_of_bind in Hd as (e & Hd & He). right; right; left. rewrite (complement_types _ _ _ Hd).
      by apply elem_of_types.
    + right; left. destruct (produces_session_secret _) in Hd; [|by apply elem_of_nil in Hd]. apply elem_of_types.
      apply list_elem_of_In in Hd. apply List.filter_In in Hd as [Hd _]. by apply list_elem_of_In.
  - intros [Hd|[Hd|[Hd|Hd]]]; apply elem_of_types in Hd; tauto.
Qed.

Lemma slot_types s m :
  m ∈ types (slot_mechanisms s) → m ∈ types (backend_mechanisms s) ∨ m ∈ SOFTWARE_TYPES.
Proof.
  unfold slot_mechanisms. rewrite merge_types_elem. intros [H|H]; [by left|right].
  apply list_elem_of_fmap in H as (d & -> & Hd).
  apply list_elem_of_In, List.filter_In in Hd as [Hd _]. apply software_types with (s := s). by apply list_elem_of_In.
Qed.

Definition named (m : Z) : bool := is_some (mechanism_name m).

Lemma backend_types_named k m : m ∈ types (backend_mechanisms (slot_profile k)) → named m = true.
Proof.
  intros H. cut (Forall (λ m, named m = true) (types (backend_mechanisms (slot_profile k)))).
  { rewrite Forall_elem. auto. }
  clear m H. destruct k as [fw pq|ecdh|algorithms| |preview| | |].
  3: { apply Forall_elem. intros m Hm. apply merge_types_elem in Hm as [Hm|Hm].
       - eapply elem_of_sublist in Hm; [|apply yubihsm_static_types]. revert m Hm. apply Forall_elem.
         apply (bool_decide_unpack _). by vm_compute.
       - destruct (yubihsm_has_virtual_extensions algorithms); [|set_solver].
         revert m Hm. apply Forall_elem. apply (bool_decide_unpack _). by vm_compute. }
  all: try destruct fw, pq; try destruct ecdh; try destruct preview; apply (bool_decide_unpack _); by vm_compute.
Qed.

Lemma name_entry m name : mechanism_name m = Some name → ∃ i, KNOWN_MECHANISMS !! i = Some (m, name).
Proof.
  unfold mechanism_name. destruct (List.find _ _) as [[t n]|] eqn:E; [|done]. intros [= <-].
  apply List.find_some in E as [Hin Ht]. apply Z.eqb_eq in Ht. subst. apply list_elem_of_lookup. by apply list_elem_of_In.
Qed.

(** A slot lists a mechanism at most once, and every mechanism in its list
    has a symbolic name of its own. This holds for the cards, for a YubiHSM with
    any set of algorithms, for the platform's keys and for the software token. *)
Theorem slot_mechanisms_distinct_named k :
  NoDup (types (slot_mechanisms (slot_profile k)))
  ∧ (∀ m, m ∈ types (slot_mechanisms (slot_profile k)) → is_Some (mechanism_name m))
  ∧ (∀ m m' name, mechanism_name m = Some name → mechanism_name m' = Some name → m = m').
Proof.
  split; [apply merge_nodup, backend_types_nodup|]. split.
  - intros m [H|H]%slot_types.
    + apply backend_types_named in H. unfold named in H. by destruct (mechanism_name m).
    + revert m H. apply Forall_elem. apply (bool_decide_unpack _). by vm_compute.
  - assert (NoDup (KNOWN_MECHANISMS.*2)) as Hnames by (apply (bool_decide_unpack _); by vm_compute).
    intros m m' name (i & Hi)%name_entry (j & Hj)%name_entry.
    assert (i = j) as -> by (eapply NoDup_lookup; [exact Hnames|rewrite list_lookup_fmap, Hi; done|];
      by rewrite list_lookup_fmap, Hj).
    congruence.
Qed.

(** ** Software mechanisms only add *)

Definition widen (e d : MechanismDetails) : MechanismDetails :=
  mkDetails (type_ e) (Z.min (min_key_size e) (min_key_size d)) (Z.max (max_key_size e) (max_key_size d))
    (Z.lor (details_flags e) (details_flags d)).

Lemma find_merge m d table :
  find_mechanism m (merge_mechanism d table) =
    if type_ d =? m then Some (match find_mechanism m table with Some e => widen e d | None => d end)
    else find_mechanism m table.
Proof.
  unfold find_mechanism. induction table as [|e rest IH]; cbn [merge_mechanism List.find].
  - by destruct (type_ d =? m).
  - destruct (Z.eqb_spec (type_ e) (type_ d)) as [E|E]; cbn [List.find type_].
    + unfold widen. rewrite E. destruct (type_ d =? m); [by rewrite E|done].
    + destruct (Z.eqb_spec (type_ e) m) as [Em|Em]; [|done].
      destruct (Z.eqb_spec (type_ d) m) as [Ed|Ed]; [congruence|done].
Qed.

(** A relation between an entry and what it becomes that widening keeps holds
    of the entry in the merged table. *)
Lemma merge_keeps (R : MechanismDetails → Prop) m added : ∀ table e,
  (∀ e d, R e → d ∈ added → type_ d = m → R (widen e d)) →
  find_mechanism m table = Some e → R e →
  ∃ e', find_mechanism m (merge_mechanisms added table) = Some e' ∧ R e'.
Proof.
  induction added as [|d rest IH]; intros table e Hw Hf He; [by exists e|].
  cbn [merge_mechanisms foldl]. fold (merge_mechanisms rest (merge_mechanism d table)).
  assert (∀ e d, R e → d ∈ rest → type_ d = m → R (widen e d)) as Hrest by (intros; apply Hw; [done|by right|done]).
  destruct (Z.eqb_spec (type_ d) m) as [E|E].
  - apply (IH _ (widen e d)); [done| |by apply Hw; [|left|]]. by rewrite find_merge, (proj2 (Z.eqb_eq _ _) E), Hf.
  - apply (IH _ e); [done| |done]. by rewrite find_merge, (proj2 (Z.eqb_neq _ _) E).
Qed.

Lemma find_nodup table d : NoDup (types table) → d ∈ table → find_mechanism (type_ d) table = Some d.
Proof.
  unfold find_mechanism, types. induction table as [|e rest IH]; intros Hn Hd; [by apply elem_of_nil in Hd|].
  cbn in Hn. apply list.NoDup_cons in Hn as [He Hn]. cbn [List.find].
  apply elem_of_cons in Hd as [->|Hd]; [by rewrite Z.eqb_refl|].
  destruct (Z.eqb_spec (type_ e) (type_ d)) as [E|E]; [|by apply IH].
  destruct He. rewrite E. by apply elem_of_types.
Qed.

(** The primitives of private keys, which only the public halves complement. *)
Definition PRIMITIVES : list Z :=
  RSA_BASE_MECHANISMS ++ [CKM_ECDSA; CKM_EDDSA; CKM_ML_DSA; CKM_HASH_ML_DSA] ++ HASH_ML_DSA_MECHANISMS
  ++ [CKM_ML_KEM; CKM_PKCS11RS_MLKEM768_P256; CKM_PKCS11RS_MLKEM768_X25519; CKM_PKCS11RS_MLKEM1024_P384].

Lemma outside (excluded : list Z) m :
  m ∈ PRIMITIVES → forallb (λ p, negb (one_of excluded p)) PRIMITIVES = true → m ∉ excluded.
Proof.
  rewrite forallb_forall. intros Hm%list_elem_of_In Hall Hex. specialize (Hall _ Hm).
  apply negb_true_iff in Hall. unfold one_of in Hall. rewrite <-not_true_iff_false in Hall. apply Hall.
  apply existsb_exists. exists m. split; [by apply list_elem_of_In|apply Z.eqb_refl].
Qed.

Lemma composite_candidates table base candidates d :
  d ∈ add_composites table base candidates → type_ d ∈ candidates.
Proof.
  unfold add_composites. destruct (find_mechanism base table) as [native|]; [|by intros ?%elem_of_nil].
  destruct (negb (flag_set native CKF_SIGN)); [by intros ?%elem_of_nil|].
  intros (t & Hd & Ht)%list_elem_of_bind. apply elem_of_app in Hd.
  assert (∀ f table, (∀ e, type_ (f e) = type_ e) → d ∈ option_list (f <$> find_mechanism t table) → type_ d = t) as Ho.
  { intros f tb Hf Hin. destruct (find_mechanism t tb) as [e|] eqn:E; cbn in Hin; [|by apply elem_of_nil in Hin].
    apply list_elem_of_singleton in Hin as ->. rewrite Hf. by destruct (find_mechanism_type _ _ _ E). }
  destruct Hd as [Hd|Hd]; apply Ho in Hd; [by rewrite Hd|done|by rewrite Hd|done].
Qed.

Lemma prefixed_candidates table d :
  d ∈ prefixed_ecdh table → type_ d ∈ [CKM_PKCS11RS_PREFIXED_ECDH_DERIVE; CKM_EC_KEY_PAIR_GEN].
Proof.
  unfold prefixed_ecdh. destruct (List.find _ table) as [native|]; [|by intros ?%elem_of_nil].
  intros [Hd|Hd]%elem_of_app; [|destruct (_ && _) in Hd; [|by apply elem_of_nil in Hd]];
    cbn in Hd; apply list_elem_of_singleton in Hd as ->; cbn; set_solver.
Qed.

Lemma complement_sizes s software native :
  find_mechanism (type_ software) (backend_mechanisms s) = Some native → type_ software ≠ CKM_PKCS11RS_PROJECT_PUBLIC_KEY →
  ∀ d, d ∈ public_complement s software → min_key_size d = min_key_size native ∧ max_key_size d = max_key_size native.
Proof.
  intros Hf Hp%Z.eqb_neq d. unfold public_complement. rewrite Hp, Hf.
  destruct (_ =? 0); [by intros ?%elem_of_nil|]. by intros ->%list_elem_of_singleton.
Qed.

(** Composition adds nothing to a primitive but its public half, at its sizes. *)
Lemma composition_sizes s native d :
  software_mechanism_scope s = ScopeComposition → type_ native ∈ PRIMITIVES →
  find_mechanism (type_ native) (backend_mechanisms s) = Some native →
  d ∈ software_mechanisms s → type_ d = type_ native →
  min_key_size d = min_key_size native ∧ max_key_size d = max_key_size native.
Proof.
  intros Hs Hp Hf Hd Ht. unfold software_mechanisms in Hd. rewrite Hs, !elem_of_app in Hd. rewrite <-Ht in Hp.
  destruct Hd as [Hd|[Hd|[Hd|[Hd|[Hd|[Hd|Hd]]]]]].
  - destruct (outside (types SOFTWARE_DIGEST_MECHANISMS) _ Hp); [by vm_compute|by apply elem_of_types].
  - destruct (outside HASHED_RSA_PKCS_MECHANISMS _ Hp); [by vm_compute|by eapply composite_candidates].
  - destruct (outside HASHED_RSA_PSS_MECHANISMS _ Hp); [by vm_compute|by eapply composite_candidates].
  - destruct (outside HASHED_ECDSA_MECHANISMS _ Hp); [by vm_compute|by eapply composite_candidates].
  - destruct (outside [CKM_PKCS11RS_PREFIXED_ECDH_DERIVE; CKM_EC_KEY_PAIR_GEN] _ Hp);
      [by vm_compute|by eapply prefixed_candidates].
  - apply list_elem_of_bind in Hd as (software & Hd & _). pose proof (complement_types _ _ _ Hd) as Hc.
    eapply complement_sizes; [by rewrite <-Hc, Ht| |done]. rewrite <-Hc. intros Hq.
    destruct (outside [CKM_PKCS11RS_PROJECT_PUBLIC_KEY] _ Hp); [by vm_compute|rewrite Hq; by left].
  - destruct (produces_session_secret _) in Hd; [|by apply elem_of_nil in Hd].
    destruct (outside (types session_secret_mechanisms) _ Hp); [by vm_compute|by apply elem_of_types].
Qed.

(** Software mechanisms only add to what a backend offers. Every mechanism of
    the backend stays in the slot's list with at least its key sizes and all its
    flags; and where software is there to complete the backend, the primitives of
    private keys keep exactly the backend's key sizes. *)
Theorem software_mechanisms_only_add s d :
  NoDup (types (backend_mechanisms s)) → d ∈ backend_mechanisms s →
  ∃ e, find_mechanism (type_ d) (slot_mechanisms s) = Some e
       ∧ min_key_size e <= min_key_size d ∧ max_key_size d <= max_key_size e
       ∧ Z.ldiff (details_flags d) (details_flags e) = 0
       ∧ (software_mechanism_scope s = ScopeComposition → type_ d ∈ PRIMITIVES →
          min_key_size e = min_key_size d ∧ max_key_size e = max_key_size d).
Proof.
  intros Hn Hd. pose proof (find_nodup _ _ Hn Hd) as Hf.
  eapply (merge_keeps (λ e, min_key_size e <= min_key_size d ∧ max_key_size d <= max_key_size e
    ∧ Z.ldiff (details_flags d) (details_flags e) = 0
    ∧ (software_mechanism_scope s = ScopeComposition → type_ d ∈ PRIMITIVES →
       min_key_size e = min_key_size d ∧ max_key_size e = max_key_size d)));
    [|exact Hf|by rewrite Z.ldiff_diag].
  intros e a (Hmin & Hmax & Hflags & Hsize) Ha Ht. cbn. split_and!; [lia|lia| |].
  - apply Z.bits_inj'. intros n Hnn. apply (f_equal (λ x, Z.testbit x n)) in Hflags.
    rewrite Z.ldiff_spec, Z.bits_0 in Hflags. rewrite Z.ldiff_spec, Z.lor_spec, Z.bits_0.
    by destruct (Z.testbit (details_flags d) n), (Z.testbit (details_flags e) n).
  - intros Hs Hp. specialize (Hsize Hs Hp).
    apply list_elem_of_In, List.filter_In in Ha as [Ha%list_elem_of_In _].
    pose proof (composition_sizes s d a Hs Hp Hf Ha Ht). lia.
Qed.

Lemma software_mechanisms_only_add_witness :
  let s := slot_profile (OpenPgpSlot true) in
  let d := mkDetails CKM_ECDSA 256 521 HW_SIGNATURE in
  ∃ e, find_mechanism CKM_ECDSA (slot_mechanisms s) = Some e
       ∧ min_key_size e <= 256 ∧ 521 <= max_key_size e ∧ Z.ldiff HW_SIGNATURE (details_flags e) = 0
       ∧ (software_mechanism_scope s = ScopeComposition → CKM_ECDSA ∈ PRIMITIVES →
          min_key_size e = 256 ∧ max_key_size e = 521).
Proof.
  intros s d. apply (software_mechanisms_only_add s d).
  - apply (bool_decide_unpack _). by vm_compute.
  - apply list_elem_of_In. vm_compute. tauto.
Defined.

(** ** The mechanisms of a key *)

Lemma insert_sorted_elem m l x : x ∈ insert_sorted m l ↔ x = m ∨ x ∈ l.
Proof.
  induction l as [|y l IH]; cbn; [set_solver|].
  destruct (m <? y); [set_solver|]. destruct (Z.eqb_spec m y); set_solver.
Qed.

Lemma insert_sorted_sorted m l : StronglySorted Z.lt l → StronglySorted Z.lt (insert_sorted m l).
Proof.
  induction 1 as [|y l Hs IH Hy]; cbn; [by repeat constructor|].
  destruct (Z.ltb_spec m y) as [Hlt|Hge].
  - constructor; [by constructor|]. constructor; [done|]. eapply Forall_impl; [|exact Hy]. cbn. lia.
  - destruct (Z.eqb_spec m y); [by constructor|]. constructor; [done|]. apply Forall_elem. intros x.
    rewrite insert_sorted_elem. rewrite Forall_elem in Hy. intros [->|Hx]; [lia|by apply Hy].
Qed.

(** [CKA_ALLOWED_MECHANISMS] of a key lists, in ascending order and once
    each, exactly the mechanisms of the slot that the key's own restriction
    permits and that the slot and the key have an operation in common for. *)
Theorem allowed_exact table narrow o :
  StronglySorted Z.lt (allowed table narrow o)
  ∧ ∀ m, m ∈ allowed table narrow o ↔
         ∃ d, d ∈ table ∧ type_ d = m ∧ allows_mechanism m o = true ∧ Z.land (details_flags d) (narrow o m) ≠ 0.
Proof.
  unfold allowed. set (l := List.filter _ table).
  assert (∀ d, d ∈ l ↔ d ∈ table ∧ allows_mechanism (type_ d) o = true
                       ∧ Z.land (details_flags d) (narrow o (type_ d)) ≠ 0) as Hl.
  { intros d. subst l. rewrite !list_elem_of_In, List.filter_In. unfold flag_set.
    rewrite andb_true_iff, negb_true_iff, Z.eqb_neq. done. }
  clearbody l. split.
  - clear Hl. induction l; cbn; [constructor|by apply insert_sorted_sorted].
  - intros m. trans (m ∈ types l).
    + clear Hl. unfold types. induction l as [|d l IH]; cbn; [done|]. rewrite insert_sorted_elem, IH. set_solver.
    + unfold types. rewrite list_elem_of_fmap. split.
      * intros (d & -> & (Hd & Ha & Hf)%Hl). eauto.
      * intros (d & Hd & <- & Ha & Hf). exists d. split; [done|]. by apply Hl.
Qed.

(** *** Signing *)

Lemma testbit_if (b : bool) x n : Z.testbit (if b then x else 0) n = b && Z.testbit x n.
Proof. destruct b; [done|apply Z.bits_0]. Qed.

(** Whether a key of type [kt] can sign with [m], by the rules of the types. *)
Definition rule_sign (kt m : Z) : bool :=
  match mechanism_rule m with
  | Some (OfType ts, flags) => one_of ts kt && Z.testbit flags 11
  | Some _ => false
  | None => match hmac_key_type_and_length m with
            | Some (kind, _) => (kt =? kind) || (kt =? CKK_GENERIC_SECRET)
            | None => false
            end
  end.

Definition SIGN_MECHANISMS : list Z :=
  [CKM_RSA_PKCS; CKM_RSA_X_509; CKM_RSA_PKCS_PSS] ++ HASHED_RSA_PKCS_MECHANISMS ++ HASHED_RSA_PSS_MECHANISMS
  ++ CKM_ECDSA :: HASHED_ECDSA_MECHANISMS ++ CKM_EDDSA :: CKM_ML_DSA :: CKM_HASH_ML_DSA :: HASH_ML_DSA_MECHANISMS
  ++ [CKM_AES_CMAC; CKM_AES_CMAC_GENERAL; CKM_AES_GMAC; CKM_SHA_1_HMAC; CKM_SHA_1_HMAC_GENERAL; CKM_SHA224_HMAC;
      CKM_SHA224_HMAC_GENERAL; CKM_SHA256_HMAC; CKM_SHA256_HMAC_GENERAL; CKM_SHA384_HMAC; CKM_SHA384_HMAC_GENERAL;
      CKM_SHA512_HMAC; CKM_SHA512_HMAC_GENERAL].

(** No other mechanism signs. *)
Lemma rule_sign_listed kt m : one_of SIGN_MECHANISMS m = false → rule_sign kt m = false.
Proof.
  intros H. unfold SIGN_MECHANISMS, one_of in H. cbn [existsb app HASHED_RSA_PKCS_MECHANISMS HASHED_RSA_PSS_MECHANISMS
    HASHED_ECDSA_MECHANISMS HASH_ML_DSA_MECHANISMS] in H.
  repeat match goal with H : (_ || _) = false |- _ => apply orb_false_iff in H as [? H] end.
  unfold rule_sign, mechanism_rule, is_ml_dsa_mechanism, hmac_key_type_and_length, one_of.
  cbn [existsb HASHED_RSA_PKCS_MECHANISMS HASHED_RSA_PSS_MECHANISMS HASHED_ECDSA_MECHANISMS HASH_ML_DSA_MECHANISMS].
  repeat match goal with E : (m =? ?c) = false |- _ => rewrite ?E; clear E end. cbn [orb].
  repeat case_match; try done; simplify_eq; try apply andb_false_r.
Qed.

Lemma rule_secret_sign m ts flags :
  mechanism_rule m = Some (SoftwareSecretOfType ts, flags) → Z.testbit flags 11 = false.
Proof. unfold mechanism_rule. intros Hr. repeat case_match; simplify_eq; done. Qed.

Section keys.
Context {B : Type} `{RsaCore B, SignatureCore B, KeyCore, Certificates, PreviewSignRecords, HashCore}.

Lemma key_usage_sign o :
  Z.testbit (key_usage o) 11 = sign o && ((class o =? CKO_PRIVATE_KEY) || (class o =? CKO_SECRET_KEY)).
Proof.
  unfold key_usage, any_of. cbn [fmap list_fmap foldr]. rewrite !Z.lor_spec, !testbit_if.
  change (Z.testbit CKF_SIGN 11) with true. rewrite andb_true_r. cbn [Z.testbit].
  repeat match goal with |- context [Z.testbit ?c 11] => change (Z.testbit c 11) with false end.
  by rewrite !andb_false_r, !orb_false_r.
Qed.

(** Keys whose operations depend on their type, class and usage alone. *)
Definition typed_key (o : TokenObject) : Prop :=
  match material o with
  | SoftwarePrivate _ | SoftwareSecret _ | PivPrivate _ _ _ _ | OpenPgpPrivate _ _ _ _ => True
  | _ => False
  end.

Lemma operations_sign o m :
  typed_key o → class o = CKO_PRIVATE_KEY ∨ class o = CKO_SECRET_KEY →
  Z.testbit (operations o m) 11 = sign o && rule_sign (key_type o) m.
Proof.
  intros Ht Hc. unfold operations, typed_key in *.
  assert (one_of [CKO_PRIVATE_KEY; CKO_PUBLIC_KEY; CKO_SECRET_KEY] (class o) = true) as Hclass.
  { by destruct Hc as [-> | ->]. }
  assert ((class o =? CKO_PRIVATE_KEY) || (class o =? CKO_SECRET_KEY) = true) as Hu by (by destruct Hc as [-> | ->]).
  assert (Z.testbit match supported_operations o m with
          | Some supported => Z.land (key_usage o) supported
          | None => CKF_DIGEST
          end 11 = sign o && rule_sign (key_type o) m) as Hs.
  { unfold supported_operations, rule_sign. destruct (mechanism_rule m) as [[test flags]|] eqn:Er.
    - rewrite Z.land_spec, key_usage_sign, Hu, andb_true_r, testbit_if. f_equal.
      destruct test as [ts|ts| |]; cbn [passes]; [done| | |].
      + apply rule_secret_sign in Er. by rewrite Er, andb_false_r.
      + by destruct (material o).
      + by destruct (material o).
    - destruct (hmac_key_type_and_length m) as [[kind full]|].
      + rewrite Z.land_spec, key_usage_sign, Hu, andb_true_r, testbit_if. f_equal. apply andb_true_r.
      + rewrite andb_false_r. destruct (_ && _ && _); [done|]. rewrite Z.land_0_r. apply Z.bits_0. }
  destruct (Z.eqb_spec m CKM_PKCS11RS_PROJECT_PUBLIC_KEY) as [->|_].
  - rewrite (rule_sign_listed _ CKM_PKCS11RS_PROJECT_PUBLIC_KEY), andb_false_r; [|done]. rewrite Hclass.
    destruct (material o); try done; cbn [negb]; by destruct (supports_public_projection o).
  - rewrite Hclass. by destruct (material o).
Qed.

(** The operations of a key on the slot that holds it. *)
Definition held_operations (o : TokenObject) (m : Z) : Z :=
  match material o with
  | PivPrivate _ _ _ _ => piv_key_mechanism_operations o m
  | OpenPgpPrivate _ _ _ _ => openpgp_key_mechanism_operations o m
  | _ => operations o m
  end.

Definition AES_MACS : list Z := [CKM_AES_CMAC; CKM_AES_CMAC_GENERAL; CKM_AES_GMAC].

(** Keys are of the class and type of their material. *)
Definition well_typed (o : TokenObject) : Prop :=
  match material o with
  | SoftwarePrivate key => class o = CKO_PRIVATE_KEY ∧ key_type o = software_key_type key
  | SoftwareSecret _ => class o = CKO_SECRET_KEY ∧ one_of SECRET_KEY_TYPES (key_type o) = true
  | PivPrivate _ _ _ _ | OpenPgpPrivate _ _ _ _ => class o = CKO_PRIVATE_KEY
  | _ => False
  end.

(** A check on all mechanisms, by the list of those that sign. *)
Lemma by_listing (f g : Z → bool) m :
  (one_of SIGN_MECHANISMS m = false → f m = false ∧ g m = false) →
  forallb (λ m, Bool.eqb (f m) (g m)) SIGN_MECHANISMS = true → f m = g m.
Proof.
  intros Hout Hin. destruct (one_of SIGN_MECHANISMS m) eqn:E.
  - apply (one_of_test _ _ _ Hin) in E. by apply eqb_prop.
  - destruct (Hout eq_refl) as [-> ->]. done.
Qed.

Lemma sub_listed l m : forallb (one_of SIGN_MECHANISMS) l = true → one_of SIGN_MECHANISMS m = false → one_of l m = false.
Proof.
  intros Hl Hm. apply not_true_iff_false. intros H'. apply (one_of_test _ _ _ Hl) in H'. congruence.
Qed.

(** A software private key signs with the mechanisms of its type. *)
Lemma software_rule key m :
  rule_sign (software_key_type key) m
  = (software_key_type key =? expected_sign_key_type m) && software_sign_mechanism_supported key m.
Proof.
  apply (by_listing (rule_sign (software_key_type key))
    (λ m, (software_key_type key =? expected_sign_key_type m) && software_sign_mechanism_supported key m)).
  - intros Hm. split; [by apply rule_sign_listed|].
    apply andb_false_iff; right. apply not_true_iff_false. intros Hs%supported_listed.
    erewrite sub_listed in Hs; [done| |done]. by destruct key.
  - by destruct key as [| | | | | |[]]; vm_compute.
Qed.

(** The mechanisms of PIV and OpenPGP keys are for the keys' types. *)
Lemma native_rule (l : list Z) kt m :
  forallb (λ m, match mechanism_rule m with
                | Some (OfType [t], flags) => (t =? expected_sign_key_type m) && Z.testbit flags 11
                | _ => false
                end) l = true →
  one_of l m = true → rule_sign kt m = (kt =? expected_sign_key_type m).
Proof.
  intros Hl Hm. apply (one_of_test _ _ _ Hl) in Hm. unfold rule_sign.
  destruct (mechanism_rule m) as [[[[|t []]| | |] flags]|]; try done.
  apply andb_true_iff in Hm as [->%Z.eqb_eq ->]. cbn. by rewrite orb_false_r, andb_true_r.
Qed.

(** The checks that remain for a software secret key. *)
Definition secret_accepts (kt m : Z) : bool :=
  (is_hmac_key_type (expected_sign_key_type m) || (expected_sign_key_type m =? CKK_AES))
  && ((m =? CKM_PKCS11RS_FIDO_ASSERTION) || (kt =? expected_sign_key_type m)
      || (is_hmac_key_type (expected_sign_key_type m) && (kt =? CKK_GENERIC_SECRET)))
  && ((kt =? CKK_AES) && one_of AES_MACS m
      || match hmac_key_type_and_length m with
         | Some (t, _) => (t =? kt) || (kt =? CKK_GENERIC_SECRET)
         | None => false
         end).

Lemma secret_rule kt m : one_of SECRET_KEY_TYPES kt = true → rule_sign kt m = secret_accepts kt m.
Proof.
  intros Hk. apply by_listing.
  - intros Hm. split; [by apply rule_sign_listed|]. unfold secret_accepts.
    rewrite (sub_listed AES_MACS m eq_refl Hm), andb_false_r.
    destruct (hmac_key_type_and_length m) as [[t full]|] eqn:E; [|apply andb_false_r].
    assert (one_of mac_mechanisms m = true) as Hmac by (by apply hmac_is_mac; rewrite E).
    by rewrite (sub_listed mac_mechanisms m eq_refl Hm) in Hmac.
  - by apply (one_of_test (λ kt, forallb (λ m, Bool.eqb (rule_sign kt m) (secret_accepts kt m)) SIGN_MECHANISMS)
      SECRET_KEY_TYPES).
Qed.

Lemma aes_mac_listed mech verifying aes_mac p :
  signature_parameters mech verifying = Ok (aes_mac, p) → aes_mac = one_of AES_MACS (mechanism mech).
Proof.
  unfold signature_parameters. intros Hp.
  destruct (aes_gmac_parameters mech) as [gmac| |] eqn:Eg; cbn [obind] in Hp; try done.
  destruct (match gmac with Some _ => _ | None => _ end) as [aes_length| |] eqn:Ea; cbn [obind] in Hp; try done.
  assert (aes_mac = bool_decide (is_Some aes_length)) as ->.
  { o_inv Hp. by simplify_eq. }
  clear Hp. unfold AES_MACS, one_of. cbn [existsb]. unfold aes_gmac_parameters in Eg.
  destruct (mechanism mech =? CKM_AES_GMAC); cbn [negb] in Eg.
  - destruct (parse_gcm_parameters mech); cbn [obind] in Eg; simplify_eq. by rewrite !orb_true_r.
  - simplify_eq. unfold aes_cmac_length in Ea. destruct (mechanism mech =? CKM_AES_CMAC).
    + by destruct (has_parameter mech); simplify_eq.
    + destruct (mechanism mech =? CKM_AES_CMAC_GENERAL); [|by simplify_eq].
      by destruct (length_parameter mech AES_CMAC_LENGTH); simplify_eq/=.
Qed.

Definition ASYMMETRIC_SIGN : list Z :=
  [CKM_RSA_PKCS; CKM_RSA_X_509; CKM_RSA_PKCS_PSS] ++ HASHED_RSA_PKCS_MECHANISMS ++ HASHED_RSA_PSS_MECHANISMS
  ++ CKM_ECDSA :: HASHED_ECDSA_MECHANISMS ++ CKM_EDDSA :: CKM_ML_DSA :: CKM_HASH_ML_DSA :: HASH_ML_DSA_MECHANISMS.

Lemma piv_listed a m : piv_sign_mechanism_supported a m = true → one_of ASYMMETRIC_SIGN m = true.
Proof.
  destruct a; cbn [piv_sign_mechanism_supported]; try done; try by apply (one_of_test (one_of ASYMMETRIC_SIGN)).
  1: by intros ->%Z.eqb_eq.
  all: unfold is_ml_dsa_mechanism; rewrite <-orb_assoc;
    apply (one_of_test (one_of ASYMMETRIC_SIGN) (CKM_ML_DSA :: CKM_HASH_ML_DSA :: HASH_ML_DSA_MECHANISMS));
    by vm_compute.
Qed.

Lemma openpgp_listed a m : openpgp_sign_mechanism_supported a m = true → one_of ASYMMETRIC_SIGN m = true.
Proof.
  destruct a; cbn [openpgp_sign_mechanism_supported]; try done; try by apply (one_of_test (one_of ASYMMETRIC_SIGN)).
  by intros ->%Z.eqb_eq.
Qed.

(** A key held by a card signs if the card supports the mechanism. *)
Lemma card_signs (supported : bool) o m :
  (supported = true → one_of ASYMMETRIC_SIGN m = true) → typed_key o → class o = CKO_PRIVATE_KEY →
  Z.testbit (without_sign supported (operations o m)) 11
  = sign o && (((m =? CKM_PKCS11RS_FIDO_ASSERTION) || (key_type o =? expected_sign_key_type m)) && supported).
Proof.
  intros Hl Ht Hc. unfold without_sign. destruct supported.
  - specialize (Hl eq_refl). rewrite operations_sign by auto.
    rewrite (native_rule ASYMMETRIC_SIGN _ _ eq_refl Hl), andb_true_r.
    apply (one_of_test (λ m, negb (m =? CKM_PKCS11RS_FIDO_ASSERTION))), negb_true_iff in Hl; [by rewrite Hl|done].
  - rewrite Z.ldiff_spec. change (Z.testbit CKF_SIGN 11) with true. by rewrite !andb_false_r.
Qed.

(** C15: What a key advertises is what it can sign with. For software private and
    secret keys and for the keys of PIV and OpenPGP cards, the operations shown
    for a mechanism contain signing exactly when [C_SignInit]'s checks of the key
    (the usage flag, class and type, and the mechanism with the key's material)
    all pass. *)
Theorem advertised_iff_signs o mech aes_mac p :
  well_typed o → signature_parameters mech false = Ok (aes_mac, p) →
  has_flag (held_operations o (mechanism mech)) CKF_SIGN
  = sign o && sign_key_consistent (mechanism mech) o && sign_mechanism_supported (mechanism mech) aes_mac [] o.
Proof.
  intros Hw Hp. rewrite (aes_mac_listed _ _ _ _ Hp). change CKF_SIGN with (Z.shiftl 1 11).
  rewrite has_flag_bit by done. set (m := mechanism mech). clearbody m. clear Hp. revert Hw.
  assert (typed_key o ↔ match material o with SoftwarePrivate _ | SoftwareSecret _ | PivPrivate _ _ _ _
    | OpenPgpPrivate _ _ _ _ => True | _ => False end) as Ht by done.
  unfold well_typed, held_operations, sign_key_consistent, sign_mechanism_supported,
    piv_key_mechanism_operations, openpgp_key_mechanism_operations.
  destruct (material o); try done; (assert (typed_key o) as Hk by (by apply Ht)); clear Ht.
  - intros [Hc Hkt]. rewrite operations_sign by auto. rewrite Hkt, software_rule, Hc, !andb_false_r.
    destruct (software_key_type _ =? _); [|by rewrite !andb_false_r]. cbn [andb]. by rewrite !orb_true_r, !andb_true_r.
  - intros Hc. rewrite card_signs by (auto; apply piv_listed). rewrite Hc, !andb_false_r, !orb_false_r, !andb_true_r.
    cbn [andb]. apply andb_assoc.
  - intros Hc. rewrite card_signs by (auto; apply openpgp_listed).
    rewrite Hc, !andb_false_r, !orb_false_r, !andb_true_r. cbn [andb]. apply andb_assoc.
  - intros [Hc Hkt]. rewrite operations_sign by auto. rewrite secret_rule by done. unfold secret_accepts.
    rewrite Hc, !andb_true_r.
    destruct (is_hmac_key_type _ || _); [cbn [andb]; rewrite Z.eqb_refl; cbn [andb]; apply andb_assoc|].
    change (CKO_SECRET_KEY =? CKO_PRIVATE_KEY) with false. cbn [andb]. by rewrite !andb_false_r.
Qed.

End keys.

(** An Ed25519 software key signs with EdDSA and shows it. *)
Lemma advertised_iff_signs_witness :
  has_flag (held_operations (B := ToyBackend) toy_private_object CKM_EDDSA) CKF_SIGN = true.
Proof.
  change CKM_EDDSA with (mechanism (mkMechanism CKM_EDDSA None 0)).
  rewrite (advertised_iff_signs (B := ToyBackend) toy_private_object (mkMechanism CKM_EDDSA None 0) false
             (None, None, None, None)); [by vm_compute|split; by vm_compute|by vm_compute].
Defined.
