(* ===== verification/KeyTemplates.v ===== *)
(** * KeyTemplates: the objects that key generation and derivation build

    Models the template half of [src/src/api/key.rs]: the secret key that
    [C_GenerateKey] makes, the two objects of a key pair, what a card or a YubiHSM
    is asked to generate, a projected public key and a derived secret; and from
    [src/src/api/object.rs] how an object becomes a YubiHSM command.

    The primitives of [software-key-core] and the random numbers are the classes
    [KeyDerivationCore] and [KeyGenerator]. *)
From coqutil Require Import Datatypes.RecordSetters.
From S2P Require Import Prelude Errors LoginSelectors Storage Mechanisms AttributeTypes KeyMetadata YubiHsm SlotState SessionApi CryptApi Digests CipherModes Ciphers SignatureModes OathOtp HsmCapabilities HsmCommands PivTables Attributes MechanismTables KeyMechanisms Templates ObjectImport.
Import DoubleBraceUpdate.

(** ** Interfaces *)

Inductive CounterKdfError : Type := CounterInvalidParameters | CounterInvalidKeyLength | CounterOutputTooLong.
Inductive CounterKdfOperationError (E : Type) : Type := CounterKdf (e : CounterKdfError) | CounterCmac (e : E).
Arguments CounterKdf {E}.
Arguments CounterCmac {E}.

(** The key derivation functions and key agreements of [software-key-core]. *)
Class KeyDerivationCore : Type := {
  pbkdf2_hmac : MessageDigest → list Z → list Z → Z → Z → option (list Z);
  hkdf : MessageDigest → bool → bool → list Z → option (list Z) → list Z → Z → option (list Z);
  core_x963_kdf : MessageDigest → list Z → list Z → Z → option (list Z);
  cmac_counter_kdf_with : ∀ S E, list CounterKdfField → Z → (list Z → SM S E (list Z)) →
    SM S (CounterKdfOperationError E) (list Z);
  derive_with_signing_key : SoftwarePrivateKeyMaterial → list Z → option (list Z);
  montgomery_derive : list Z → list Z → option (list Z);
}.

Inductive HybridKemError : Type := HybridRandomnessUnavailable | HybridInvalidKey.

(** Random bytes, new keys and encapsulations; a backend's state holds the
    source of randomness. *)
Class KeyGenerator (B : Type) : Type := {
  getrandom_fill : Z → SM B unit (list Z);
  generate_rsa : Z → SM B unit RsaPrivateKey;
  generate_ec : EcCurve → SM B unit (list Z);
  generate_edwards : EdwardsCurve → SM B unit (list Z);
  generate_montgomery : MontgomeryCurve → SM B unit (list Z);
  generate_ml_dsa : MlDsaParameterSet → SM B unit (list Z);
  generate_ml_kem : MlKemParameterSet → SM B unit (list Z);
  generate_hybrid : HybridKemConstruction → SM B unit (list Z);
  ml_kem_encapsulate : MlKemParameterSet → list Z → SM B MlKemError (list Z * list Z);
  hybrid_kem_encapsulate : HybridKemConstruction → list Z → SM B HybridKemError (list Z * list Z);
  ml_kem_decapsulate : list Z → list Z → option (list Z);
  hybrid_decapsulate : HybridKemConstruction → list Z → list Z → option (list Z);
  ml_kem_ciphertext_length : MlKemParameterSet → Z;
  hybrid_ciphertext_length : HybridKemConstruction → Z;
}.

(** How a software key is written for a YubiHSM. *)
Class HsmKeyEncodings : Type := {
  rsa_primes : RsaPrivateKey → list Z;
  ml_dsa_serialized : MlDsaParameterSet → list Z → list Z;
  ml_kem_serialized : list Z → list Z;
}.

(** ** Reading a template *)

Definition optional_bool_template_attribute (templ : list CK_ATTRIBUTE) (t : Z) : outcome Error (option bool) :=
  match template_attribute templ t with
  | Some a => omap_ok Some (map_err Generic (read_bool_template_attribute a))
  | None => Ok None
  end.
Definition bool_attribute_or_false (templ : list CK_ATTRIBUTE) (t : Z) : outcome Error bool :=
  omap_ok (default false) (optional_bool_template_attribute templ t).

(** [find(..).map(read_ulong_template_attribute).transpose()] *)
Definition optional_ulong_template_attribute (templ : list CK_ATTRIBUTE) (t : Z) : outcome Error (option Z) :=
  match template_attribute templ t with
  | Some a => omap_ok Some (map_err Generic (read_ulong_template_attribute a))
  | None => Ok None
  end.
Definition required_ulong_template_attribute (templ : list CK_ATTRIBUTE) (t : Z) : outcome Error Z :=
  let? a := ok_or #CKR_TEMPLATE_INCOMPLETE (template_attribute templ t) in
  map_err Generic (read_ulong_template_attribute a).

Definition apply_or_error (a : CK_ATTRIBUTE) (t : TokenObjectTemplate) : outcome Error TokenObjectTemplate :=
  map_err Generic (apply_attribute a t).

(** The loop that takes [CKA_VALUE_LEN] out of a template; [once] is the variant
    that refuses a second length. *)
Definition secret_attribute (once : bool) (a : CK_ATTRIBUTE) (s : TokenObjectTemplate * option Z)
    : outcome Error (TokenObjectTemplate * option Z) :=
  if attr_type a =? CKA_VALUE_LEN then
    let? _ := bail (once && is_some s.2) #CKR_TEMPLATE_INCONSISTENT in
    omap_ok (λ n, (s.1, Some n)) (map_err Generic (read_ulong_template_attribute a))
  else omap_ok (λ t, (t, s.2)) (apply_or_error a s.1).

(** The loop that leaves out the attributes that name the key's parameters. *)
Definition attribute_except (skipped : list Z) (a : CK_ATTRIBUTE) (t : TokenObjectTemplate)
    : outcome Error TokenObjectTemplate :=
  if one_of skipped (attr_type a) then Ok t else apply_or_error a t.

Definition without (types : list Z) (templ : list CK_ATTRIBUTE) : list CK_ATTRIBUTE :=
  List.filter (λ a, negb (one_of types (attr_type a))) templ.

(** ** Secret keys *)

(** [count_ones] of a byte. *)
Definition count_ones (b : Z) : Z := foldr (λ i n, Z.b2z (Z.testbit b i) + n) 0 [0; 1; 2; 3; 4; 5; 6; 7].

(** DES reserves the low bit of each byte for odd parity. *)
Definition generated_parity (b : Z) : Z :=
  let b := Z.land b 0xfe in Z.lor b (Z.lxor (Z.land (count_ones b) 1) 1).

Section generation.
Context {B : Type} `{KeyDerivationCore, KeyGenerator B}.

Record Pbkdf2Parameters : Type := mkPbkdf2 {
  pb_password : list Z; pb_salt : list Z; pb_iterations : Z; pb_prf : Z;
}.
Definition CKZ_SALT_SPECIFIED : Z := 1.
Definition parse_pbkdf2_parameters (m : CK_MECHANISM) : outcome Error Pbkdf2Parameters :=
  let invalid {A} : outcome Error A → outcome Error A := map_err (λ _, #CKR_MECHANISM_PARAM_INVALID) in
  let? _ := bail (negb (ulParameterLen m =? SIZE_OF_PBKD2_PARAMS2)) #CKR_MECHANISM_PARAM_INVALID in
  let? memory := ok_or #CKR_MECHANISM_PARAM_INVALID (pParameter m) in
  let p := as_pbkdf2 (as_key memory) in
  let? _ := bail (negb (saltSource p =? CKZ_SALT_SPECIFIED) || negb (is_null (pPrfData p)) || negb (ulPrfDataLen p =? 0)
                  || (iterations p =? 0) || (U32_MAX <? iterations p)) #CKR_MECHANISM_PARAM_INVALID in
  let? salt := invalid (from_raw_parts (pSaltSourceData p) (ulSaltSourceDataLen p)) in
  let? password := invalid (from_raw_parts (pPassword p) (ulPasswordLen p)) in
  Ok (mkPbkdf2 password salt (iterations p) (prf p)).

Definition CKP_PKCS5_PBKD2_HMAC_SHA1 : Z := 1.
Definition CKP_PKCS5_PBKD2_HMAC_SHA224 : Z := 3.
Definition CKP_PKCS5_PBKD2_HMAC_SHA256 : Z := 4.
Definition CKP_PKCS5_PBKD2_HMAC_SHA384 : Z := 5.
Definition CKP_PKCS5_PBKD2_HMAC_SHA512 : Z := 6.
Definition pbkdf2_digest (prf : Z) : outcome Error MessageDigest :=
  if prf =? CKP_PKCS5_PBKD2_HMAC_SHA1 then Ok HashSha1
  else if prf =? CKP_PKCS5_PBKD2_HMAC_SHA224 then Ok HashSha224
  else if prf =? CKP_PKCS5_PBKD2_HMAC_SHA256 then Ok HashSha256
  else if prf =? CKP_PKCS5_PBKD2_HMAC_SHA384 then Ok HashSha384
  else if prf =? CKP_PKCS5_PBKD2_HMAC_SHA512 then Ok HashSha512
  else Err #CKR_MECHANISM_PARAM_INVALID.

(** [copy_from_slice] panics when the lengths differ. *)
Definition derive_pbkdf2 (p : Pbkdf2Parameters) (length : Z) : outcome Error (list Z) :=
  let? digest := pbkdf2_digest (pb_prf p) in
  let? derived := ok_or #CKR_KEY_SIZE_RANGE (pbkdf2_hmac digest (pb_password p) (pb_salt p) (pb_iterations p) length) in
  if len derived =? length then Ok derived else Panic.

(** The key type a generation mechanism makes when the template names none. *)
Definition generation_default_type (m : Z) : Z :=
  if m =? CKM_AES_KEY_GEN then CKK_AES
  else if m =? CKM_DES3_KEY_GEN then CKK_DES3
  else default CKK_GENERIC_SECRET (sha_hmac_generation_key_type m).

(** A type that the mechanism does not make. *)
Definition generation_type_inconsistent (m key_type : Z) : bool :=
  let aes := m =? CKM_AES_KEY_GEN in
  let des3 := m =? CKM_DES3_KEY_GEN in
  let pbkdf2 := m =? CKM_PKCS5_PBKD2 in
  (aes && negb (key_type =? CKK_AES)) || (des3 && negb (key_type =? CKK_DES3))
  || match sha_hmac_generation_key_type m with Some t => negb (key_type =? t) | None => false end
  || (negb aes && negb des3 && negb pbkdf2 && negb (key_type =? CKK_GENERIC_SECRET) && negb (is_hmac_key_type key_type)).

(** The object and its length, before any value is made. *)
Definition generation_template (m : Z) (templ : list CK_ATTRIBUTE) : outcome Error (TokenObject * Z) :=
  let? _ := validate_unique_template templ in
  let? '(t, value_len) :=
    for_attributes (secret_attribute true) templ
      (TokenObjectTemplate_default
         {{ t_class := Some CKO_SECRET_KEY; t_key_type := Some (generation_default_type m);
            t_sensitive := Some true; t_extractable := Some false }}, None) in
  let? key := map_err Generic (into_software_secret_object t) in
  let? _ := bail (negb (class key =? CKO_SECRET_KEY) || generation_type_inconsistent m (key_type key))
              #CKR_TEMPLATE_INCONSISTENT in
  let value_len := match value_len with
                   | Some n => Some n
                   | None => if m =? CKM_DES3_KEY_GEN then Some 24 else None
                   end in
  let? value_len := ok_or #CKR_TEMPLATE_INCOMPLETE value_len in
  let? _ := validate_software_secret_length (key_type key) value_len in
  Ok (key, value_len).

Definition generate_key_object (m : CK_MECHANISM) (templ : list CK_ATTRIBUTE) : SM B Error TokenObject :=
  let k := mechanism m in
  let pbkdf2 := k =? CKM_PKCS5_PBKD2 in
  let! _ := guard_err (negb (one_of [CKM_GENERIC_SECRET_KEY_GEN; CKM_AES_KEY_GEN; CKM_DES3_KEY_GEN; CKM_PKCS5_PBKD2] k)
                       && negb (is_some (sha_hmac_generation_key_type k))) #CKR_MECHANISM_INVALID in
  let! _ := guard_err (negb pbkdf2 && has_parameter m) #CKR_MECHANISM_PARAM_INVALID in
  let! parameters := if pbkdf2 then sm_lift (omap_ok Some (parse_pbkdf2_parameters m)) else sm_ret None in
  let! '(key, value_len) := sm_lift (generation_template k templ) in
  let! value := match parameters with
                | Some p => sm_lift (derive_pbkdf2 p value_len)
                | None => sm_map_err (λ _, #CKR_RANDOM_NO_RNG) (getrandom_fill value_len)
                end in
  let value := if k =? CKM_DES3_KEY_GEN then map generated_parity value else value in
  sm_ret (key {{ material := SoftwareSecret value }} {{ attributes -> local := true }}
              {{ attributes -> key_gen_mechanism := Some k }}).
End generation.

(** A secret that another key is derived into: its object and its length. *)
Definition derived_secret_object (templ : list CK_ATTRIBUTE) (default_length maximum_length : Z)
    : outcome Error (TokenObject * Z) :=
  let? '(t, requested) :=
    for_attributes (secret_attribute false) templ
      (TokenObjectTemplate_default
         {{ t_class := Some CKO_SECRET_KEY; t_key_type := Some CKK_GENERIC_SECRET;
            t_sensitive := Some false; t_extractable := Some true }}, None) in
  let requested := default default_length requested in
  let? _ := bail ((requested =? 0) || (maximum_length <? requested)) #CKR_KEY_SIZE_RANGE in
  let? o := map_err Generic (into_software_secret_object t) in
  let? _ := bail (negb (class o =? CKO_SECRET_KEY)) #CKR_TEMPLATE_INCONSISTENT in
  let? _ := bail (negb (one_of [CKK_GENERIC_SECRET; CKK_AES; CKK_DES3] (key_type o)) && negb (is_hmac_key_type (key_type o)))
              #CKR_TEMPLATE_INCONSISTENT in
  let? _ := validate_software_secret_length (key_type o) requested in
  let? _ := bail (token o && negb (private o)) #CKR_TEMPLATE_INCONSISTENT in
  Ok (o, requested).

(** ** Key pairs *)

(** [value[first..]] from the first byte that is not zero. *)
Fixpoint strip_zeros (value : list Z) : list Z :=
  match value with
  | [] => []
  | b :: rest => if b =? 0 then strip_zeros rest else value
  end.
Definition validate_rsa_generation_exponent (templ : list CK_ATTRIBUTE) : outcome Error unit :=
  match template_attribute templ CKA_PUBLIC_EXPONENT with
  | None => Ok tt
  | Some a =>
      let? value := map_err Generic (read_attribute_value a) in
      bail (negb (bool_decide (strip_zeros value = [1; 0; 1]))) #CKR_ATTRIBUTE_VALUE_INVALID
  end.

(** One object of a pair; [on_token] and the attributes skipped are what the
    two variants of the code differ in. *)
Definition pair_object (on_token : bool) (skipped : list Z) (templ : list CK_ATTRIBUTE) (kind key_kind : Z)
    : outcome Error TokenObject :=
  let is_private := kind =? CKO_PRIVATE_KEY in
  let when_private (b : bool) := if is_private then Some b else None in
  let? _ := validate_unique_template templ in
  let? t := for_attributes (attribute_except skipped) templ
              (TokenObjectTemplate_default
                 {{ t_class := Some kind; t_key_type := Some key_kind; t_token := on_token; t_private := is_private;
                    t_sensitive := when_private true; t_extractable := when_private false }}) in
  let? o := map_err Generic (into_object t) in
  let? _ := bail (negb (class o =? kind) || negb (key_type o =? key_kind)) #CKR_TEMPLATE_INCONSISTENT in
  Ok o.
Definition key_pair_object (templ : list CK_ATTRIBUTE) (kind key_kind : Z) : outcome Error TokenObject :=
  pair_object true [CKA_MODULUS_BITS; CKA_PUBLIC_EXPONENT; CKA_EC_PARAMS; CKA_PARAMETER_SET] templ kind key_kind.
Definition software_key_pair_object (templ : list CK_ATTRIBUTE) (kind key_kind : Z) : outcome Error TokenObject :=
  pair_object false
    ([CKA_MODULUS_BITS; CKA_PUBLIC_EXPONENT; CKA_EC_PARAMS] ++ (if kind =? CKO_PUBLIC_KEY then [CKA_PARAMETER_SET] else []))
    templ kind key_kind.

(** Both objects record that the module made the key, and how. *)
Definition mark_generated (m : Z) (o : TokenObject) : TokenObject :=
  o {{ attributes -> local := true }} {{ attributes -> key_gen_mechanism := Some m }}.

Section software_pairs.
Context {B : Type} `{RsaCore B, SignatureCore B, KeyCore, KeyGenerator B}.

(** A new private key, from the parameters in the public template. *)
Definition generate_private_material (m : Z) (templ : list CK_ATTRIBUTE) : SM B Error (Z * SoftwarePrivateKeyMaterial) :=
  let made {A} (key_kind e : Z) (f : A → SoftwarePrivateKeyMaterial) (c : SM B unit A) : SM B Error (Z * SoftwarePrivateKeyMaterial) :=
    let! key := sm_map_err (λ _, #e) c in sm_ret (key_kind, f key) in
  let curve {A} (read : list Z → outcome Error A) : SM B Error A :=
    sm_lift (let? parameters := required_template_value templ CKA_EC_PARAMS in
             map_err (λ _, #CKR_CURVE_NOT_SUPPORTED) (read parameters)) in
  if m =? CKM_RSA_PKCS_KEY_PAIR_GEN then
    let! bits := sm_lift (required_ulong_template_attribute templ CKA_MODULUS_BITS) in
    let! _ := guard_err (negb (between 1024 bits 4096) || negb (bits mod 256 =? 0)) #CKR_KEY_SIZE_RANGE in
    let! _ := sm_lift (validate_rsa_generation_exponent templ) in
    made CKK_RSA CKR_FUNCTION_FAILED SigningRsa (generate_rsa bits)
  else if m =? CKM_EC_KEY_PAIR_GEN then
    let! c := curve ec_curve_from_parameters in
    made CKK_EC CKR_RANDOM_NO_RNG (SigningEc c) (generate_ec c)
  else if m =? CKM_EC_EDWARDS_KEY_PAIR_GEN then
    let! c := curve edwards_curve_from_parameters in
    made CKK_EC_EDWARDS CKR_RANDOM_NO_RNG (SigningEdwards c) (generate_edwards c)
  else if m =? CKM_EC_MONTGOMERY_KEY_PAIR_GEN then
    let! c := curve montgomery_curve_from_parameters in
    made CKK_EC_MONTGOMERY CKR_RANDOM_NO_RNG Montgomery (generate_montgomery c)
  else if m =? CKM_ML_DSA_KEY_PAIR_GEN then
    let! set := sm_lift (required_ulong_template_attribute templ CKA_PARAMETER_SET) in
    let! set := sm_lift (ok_or #CKR_ATTRIBUTE_VALUE_INVALID (ml_dsa_set set)) in
    made CKK_ML_DSA CKR_RANDOM_NO_RNG (SigningMlDsa set) (generate_ml_dsa set)
  else if m =? CKM_ML_KEM_KEY_PAIR_GEN then
    let! set := sm_lift (required_ulong_template_attribute templ CKA_PARAMETER_SET) in
    let! set := sm_lift (ok_or #CKR_ATTRIBUTE_VALUE_INVALID (ml_kem_set set)) in
    made CKK_ML_KEM CKR_RANDOM_NO_RNG MlKem (generate_ml_kem set)
  else if one_of [CKM_PKCS11RS_MLKEM768_P256_KEY_PAIR_GEN; CKM_PKCS11RS_MLKEM768_X25519_KEY_PAIR_GEN;
                  CKM_PKCS11RS_MLKEM1024_P384_KEY_PAIR_GEN] m then
    let construction := if m =? CKM_PKCS11RS_MLKEM768_P256_KEY_PAIR_GEN then MlKem768P256
                        else if m =? CKM_PKCS11RS_MLKEM768_X25519_KEY_PAIR_GEN then MlKem768X25519
                        else MlKem1024P384 in
    made (hybrid_kem_key_type construction) CKR_RANDOM_NO_RNG (HybridKem construction) (generate_hybrid construction)
  else sm_err #CKR_MECHANISM_INVALID.

Definition software_generate_key_pair (m : CK_MECHANISM) (public_template private_template : list CK_ATTRIBUTE)
    : SM B Error (TokenObject * TokenObject) :=
  let! _ := guard_err (has_parameter m) #CKR_MECHANISM_PARAM_INVALID in
  let! '(key_kind, private_material) := generate_private_material (mechanism m) public_template in
  let! public_material := sm_lift (software_public_key private_material) in
  let! public_object := sm_lift (software_key_pair_object public_template CKO_PUBLIC_KEY key_kind) in
  let! private_object := sm_lift (software_key_pair_object private_template CKO_PRIVATE_KEY key_kind) in
  sm_ret (mark_generated (mechanism m) (public_object {{ material := Public public_material }}),
          mark_generated (mechanism m) (private_object {{ material := SoftwarePrivate private_material }})).
End software_pairs.

(** *** Pairs on a PIV card *)

Record PivGeneration : Type := mkPivGeneration {
  gen_slot : Z; gen_algorithm : PivAlgorithm; gen_pin_policy : Z; gen_touch_policy : Z; gen_public : TokenObject;
  gen_private : TokenObject;
}.
Definition piv_policy_attribute (templ : list CK_ATTRIBUTE) (t maximum : Z) : outcome Error Z :=
  let? value := optional_ulong_template_attribute templ t in
  match value with
  | None => Ok 0
  | Some value => let? _ := bail (maximum <? value) #CKR_ATTRIBUTE_VALUE_INVALID in Ok value
  end.
Definition piv_key_pair_object (templ : list CK_ATTRIBUTE) (kind key_kind : Z) : outcome Error TokenObject :=
  key_pair_object (without [CKA_YUBICO_TOUCH_POLICY; CKA_YUBICO_PIN_POLICY] templ) kind key_kind.

Definition piv_ec_parameters (a : PivAlgorithm) : option (list Z) :=
  match a with
  | EccP256 => Some (ec_curve_parameters P256)
  | EccP384 => Some (ec_curve_parameters P384)
  | Ed25519 => Some PIV_ED25519_PARAMETERS
  | X25519 => Some PIV_X25519_PARAMETERS
  | _ => None
  end.
Definition read_ec_parameters (templ : list CK_ATTRIBUTE) : outcome Error (list Z) :=
  let? a := ok_or #CKR_TEMPLATE_INCOMPLETE (template_attribute templ CKA_EC_PARAMS) in
  map_err Generic (read_attribute_value a).
Definition piv_generation_25519_algorithm (templ : list CK_ATTRIBUTE) (a : PivAlgorithm) : outcome Error PivAlgorithm :=
  let? parameters := read_ec_parameters templ in
  let? _ := bail (negb (bool_decide (piv_ec_parameters a = Some parameters))) #CKR_CURVE_NOT_SUPPORTED in
  Ok a.

(** The parameter set of an ML-DSA or ML-KEM pair: both templates agree. *)
Definition pq_parameter (public_template private_template : list CK_ATTRIBUTE) : outcome Error Z :=
  let? parameter := required_ulong_template_attribute public_template CKA_PARAMETER_SET in
  let? _ := bail (negb (between 1 parameter 3)) #CKR_ATTRIBUTE_VALUE_INVALID in
  let? private_parameter := optional_ulong_template_attribute private_template CKA_PARAMETER_SET in
  let? _ := bail (match private_parameter with Some p => negb (p =? parameter) | None => false end)
              #CKR_TEMPLATE_INCONSISTENT in
  Ok parameter.

Definition piv_generation_algorithm (m : Z) (public_template private_template : list CK_ATTRIBUTE)
    : outcome Error (Z * PivAlgorithm) :=
  if m =? CKM_RSA_PKCS_KEY_PAIR_GEN then
    let? bits := required_ulong_template_attribute public_template CKA_MODULUS_BITS in
    let? _ := validate_rsa_generation_exponent public_template in
    if bits =? 1024 then Ok (CKK_RSA, Rsa1024)
    else if bits =? 2048 then Ok (CKK_RSA, Rsa2048)
    else if bits =? 3072 then Ok (CKK_RSA, Rsa3072)
    else if bits =? 4096 then Ok (CKK_RSA, Rsa4096)
    else Err #CKR_KEY_SIZE_RANGE
  else if m =? CKM_EC_KEY_PAIR_GEN then
    let? parameters := read_ec_parameters public_template in
    if bool_decide (parameters = ec_curve_parameters P256) then Ok (CKK_EC, EccP256)
    else if bool_decide (parameters = ec_curve_parameters P384) then Ok (CKK_EC, EccP384)
    else Err #CKR_CURVE_NOT_SUPPORTED
  else if m =? CKM_EC_EDWARDS_KEY_PAIR_GEN then
    omap_ok (pair CKK_EC_EDWARDS) (piv_generation_25519_algorithm public_template Ed25519)
  else if m =? CKM_EC_MONTGOMERY_KEY_PAIR_GEN then
    omap_ok (pair CKK_EC_MONTGOMERY) (piv_generation_25519_algorithm public_template X25519)
  else if (m =? CKM_ML_DSA_KEY_PAIR_GEN) || (m =? CKM_ML_KEM_KEY_PAIR_GEN) then
    let? parameter := pq_parameter public_template private_template in
    if m =? CKM_ML_DSA_KEY_PAIR_GEN then
      Ok (CKK_ML_DSA, if parameter =? 1 then MlDsa44 else if parameter =? 2 then MlDsa65 else MlDsa87)
    else Ok (CKK_ML_KEM, if parameter =? 1 then MlKem512 else if parameter =? 2 then MlKem768 else MlKem1024)
  else if m =? CKM_PKCS11RS_MLKEM768_P256_KEY_PAIR_GEN then Ok (CKK_PKCS11RS_MLKEM768_P256, HybridMlKem768P256)
  else if m =? CKM_PKCS11RS_MLKEM768_X25519_KEY_PAIR_GEN then Ok (CKK_PKCS11RS_MLKEM768_X25519, HybridMlKem768X25519)
  else if m =? CKM_PKCS11RS_MLKEM1024_P384_KEY_PAIR_GEN then Ok (CKK_PKCS11RS_MLKEM1024_P384, HybridMlKem1024P384)
  else Err #CKR_MECHANISM_INVALID.

Definition piv_generate_key_pair_parameters (m : CK_MECHANISM) (public_template private_template : list CK_ATTRIBUTE)
    : outcome Error PivGeneration :=
  let? _ := bail (has_parameter m) #CKR_MECHANISM_PARAM_INVALID in
  let? _ := validate_unique_template public_template in
  let? _ := validate_unique_template private_template in
  let? '(key_kind, algorithm) := piv_generation_algorithm (mechanism m) public_template private_template in
  let? public_object := piv_key_pair_object public_template CKO_PUBLIC_KEY key_kind in
  let? private_object := piv_key_pair_object private_template CKO_PRIVATE_KEY key_kind in
  let? _ := bail (negb (token public_object) || negb (token private_object)) #CKR_TEMPLATE_INCONSISTENT in
  let id := match o_id private_object with [] => o_id public_object | id => id end in
  let? cka := match id with [cka] => Ok cka | _ => Err #CKR_TEMPLATE_INCONSISTENT end in
  let? _ := bail (negb (bool_decide (o_id public_object = [])) && negb (bool_decide (o_id public_object = id)))
              #CKR_TEMPLATE_INCONSISTENT in
  let? slot := ok_or #CKR_ATTRIBUTE_VALUE_INVALID (from_cka_id cka) in
  let? _ := bail (slot =? SLOT_ATTESTATION) #CKR_ATTRIBUTE_VALUE_INVALID in
  let? pin_policy := piv_policy_attribute private_template CKA_YUBICO_PIN_POLICY 5 in
  let? touch_policy := piv_policy_attribute private_template CKA_YUBICO_TOUCH_POLICY 3 in
  Ok (mkPivGeneration slot algorithm pin_policy touch_policy public_object private_object).

(** *** Pairs on an OpenPGP card *)

Definition PGP_KEY_DECIPHER : Z := 2.
Definition PGP_KEY_AUTHENTICATION : Z := 3.
Definition openpgp_key_ref (id : list Z) : outcome Error Z :=
  match id with
  | [1] => Ok PGP_KEY_SIGNATURE
  | [2] => Ok PGP_KEY_DECIPHER
  | [3] => Ok PGP_KEY_AUTHENTICATION
  | _ => Err #CKR_ATTRIBUTE_VALUE_INVALID
  end.
Definition openpgp_curve (parameters : list Z) : outcome Error OpenPgpCurve :=
  ok_or #CKR_CURVE_NOT_SUPPORTED
    (List.find (λ c, bool_decide (curve_oid c = parameters))
       [PgpP256; PgpP384; PgpP521; PgpBrainpoolP256; PgpBrainpoolP384; PgpBrainpoolP512; PgpSecp256k1]).
Definition supports_rsa_bits (bits : Z) : bool := between 1024 bits 4096 && is_multiple_of bits 256.

Record OpenPgpGeneration : Type := mkPgpGeneration {
  pgp_key_ref : Z; pgp_algorithm : OpenPgpAlgorithm; pgp_public : TokenObject; pgp_private : TokenObject; pgp_touch_policy : Z;
}.
Definition openpgp_generation_algorithm (m key_ref : Z) (templ : list CK_ATTRIBUTE) : outcome Error OpenPgpAlgorithm :=
  if m =? CKM_RSA_PKCS_KEY_PAIR_GEN then
    let? bits := required_ulong_template_attribute templ CKA_MODULUS_BITS in
    let? _ := validate_rsa_generation_exponent templ in
    let? _ := bail (negb (supports_rsa_bits bits)) #CKR_KEY_SIZE_RANGE in
    Ok (PgpRsa bits)
  else
    let? parameters := required_template_value templ CKA_EC_PARAMS in
    if m =? CKM_EC_KEY_PAIR_GEN then
      let? curve := openpgp_curve parameters in
      Ok (if key_ref =? PGP_KEY_DECIPHER then PgpEcdh curve else PgpEcdsa curve)
    else if m =? CKM_EC_EDWARDS_KEY_PAIR_GEN then
      let? _ := bail (negb (bool_decide (parameters = curve_oid PgpCurveEd25519)) || (key_ref =? PGP_KEY_DECIPHER))
                  #CKR_CURVE_NOT_SUPPORTED in
      Ok PgpEd25519
    else
      let? _ := bail (negb (bool_decide (parameters = curve_oid PgpCurveX25519)) || negb (key_ref =? PGP_KEY_DECIPHER))
                  #CKR_CURVE_NOT_SUPPORTED in
      Ok (PgpEcdh PgpCurveX25519).
Definition openpgp_generate_key_pair_parameters (m : CK_MECHANISM) (public_template private_template : list CK_ATTRIBUTE)
    : outcome Error OpenPgpGeneration :=
  let k := mechanism m in
  let? _ := bail (has_parameter m) #CKR_MECHANISM_PARAM_INVALID in
  let? key_kind := if k =? CKM_RSA_PKCS_KEY_PAIR_GEN then Ok CKK_RSA
                   else if k =? CKM_EC_KEY_PAIR_GEN then Ok CKK_EC
                   else if k =? CKM_EC_EDWARDS_KEY_PAIR_GEN then Ok CKK_EC_EDWARDS
                   else if k =? CKM_EC_MONTGOMERY_KEY_PAIR_GEN then Ok CKK_EC_MONTGOMERY
                   else Err #CKR_MECHANISM_INVALID in
  let? public_object := key_pair_object public_template CKO_PUBLIC_KEY key_kind in
  let? private_object := key_pair_object (without [CKA_YUBICO_TOUCH_POLICY] private_template) CKO_PRIVATE_KEY key_kind in
  let? _ := bail (negb (token public_object) || negb (token private_object)
                  || negb (bool_decide (o_id public_object = o_id private_object))) #CKR_TEMPLATE_INCONSISTENT in
  let? key_ref := openpgp_key_ref (o_id private_object) in
  let? algorithm := openpgp_generation_algorithm k key_ref public_template in
  let? touch := optional_ulong_template_attribute private_template CKA_YUBICO_TOUCH_POLICY in
  let? touch := match touch with
                | Some value => let? _ := bail (negb (between 1 value 5)) #CKR_ATTRIBUTE_VALUE_INVALID in Ok value
                | None => Ok 0
                end in
  Ok (mkPgpGeneration key_ref algorithm public_object private_object touch).

(** ** Keys in a YubiHSM *)

Definition yubihsm_id (id : list Z) : outcome Error Z :=
  match id with
  | [] => Ok 0
  | [high; low] => Ok (of_be16 high low)
  | _ => Err #CKR_ATTRIBUTE_VALUE_INVALID
  end.

Definition HARDWARE_LABEL_LENGTH : Z := 40.
Definition METADATA_ATTRIBUTE_LENGTH : Z := 256.

(** [character.len_utf8()] from a character's first byte. *)
Definition utf8_width (b : Z) : Z := if b <? 0x80 then 1 else if b <? 0xe0 then 2 else if b <? 0xf0 then 3 else 4.

(** The end of the last character that lies within the label, by the loop over
    [char_indices]: [fuel] characters at most. *)
Fixpoint label_end (fuel : nat) (label : list Z) (offset : Z) : Z :=
  match fuel, zdrop offset label with
  | S fuel, b :: _ =>
      let next := offset + utf8_width b in
      if HARDWARE_LABEL_LENGTH <? next then offset else label_end fuel label next
  | _, _ => offset
  end.
Definition yubihsm_hardware_import_object (o : TokenObject) : outcome Error TokenObject :=
  let? _ := bail ((METADATA_ATTRIBUTE_LENGTH <? len (o_id o)) || (METADATA_ATTRIBUTE_LENGTH <? len (o_label o)))
              #CKR_ATTRIBUTE_VALUE_INVALID in
  let id := match o_id o with [] | [_; _] => o_id o | _ => [] end in
  let label := if HARDWARE_LABEL_LENGTH <? len (o_label o)
               then ztake (label_end (length (o_label o)) (o_label o) 0) (o_label o) else o_label o in
  Ok (o {{ attributes -> obj_id := id }} {{ attributes -> obj_label := label }}).

Definition yubihsm_object_parameters (o : TokenObject) (object_type algorithm : Z) : outcome Error ObjectParameters :=
  let? _ := bail (negb (token o)) #CKR_TEMPLATE_INCONSISTENT in
  let a := attributes o in
  let caps := yubihsm_attributes_to_capabilities object_type algorithm
                (mkUsages (encapsulate a) (decapsulate a) (encrypt o) (decrypt o) (sign o) (verify o) (derive a)
                   (can_wrap o) (can_unwrap o) (extractable a)) in
  let? caps :=
    if (object_type =? YUBIHSM_ASYMMETRIC_KEY) && derive a && (is_yubihsm_ec algorithm || is_yubihsm_montgomery algorithm) then
      let '(raw, protected) :=
        match allowed_mechanisms o with
        | None => (true, false)
        | Some allowed => (one_of allowed CKM_ECDH1_DERIVE, one_of allowed CKM_PKCS11RS_PREFIXED_ECDH_DERIVE)
        end in
      let? _ := bail (negb raw && negb protected) #CKR_TEMPLATE_INCONSISTENT in
      Ok (set_yubihsm_capability 0x38 protected (set_yubihsm_capability 0x0b raw caps))
    else Ok caps in
  let? id := yubihsm_id (o_id o) in
  Ok (mkObjectParameters id (o_label o) 0xffff caps algorithm).

(** [yubihsm_ec_algorithm]: the device's algorithm of an encoded curve. *)
Definition PRINTABLE_ED25519 : list Z := [0x13; 0x07; 0x65; 0x64; 0x32; 0x35; 0x35; 0x31; 0x39].
Definition yubihsm_ec_algorithm (parameters : list Z) : outcome Error Z :=
  let names (v : list Z) := bool_decide (parameters = v) in
  if names (ec_curve_parameters P224) then Ok YUBIHSM_ALGO_EC_P224
  else if names (ec_curve_parameters P256) then Ok YUBIHSM_ALGO_EC_P256
  else if names (ec_curve_parameters P384) then Ok YUBIHSM_ALGO_EC_P384
  else if names (ec_curve_parameters P521) then Ok YUBIHSM_ALGO_EC_P521
  else if names (ec_curve_parameters Secp256k1) then Ok YUBIHSM_ALGO_EC_K256
  else if names (ec_curve_parameters BrainpoolP256) then Ok YUBIHSM_ALGO_EC_BP256
  else if names (ec_curve_parameters BrainpoolP384) then Ok YUBIHSM_ALGO_EC_BP384
  else if names (ec_curve_parameters BrainpoolP512) then Ok YUBIHSM_ALGO_EC_BP512
  else if names (edwards_curve_parameters CurveEd25519) || names PRINTABLE_ED25519 then Ok YUBIHSM_ALGO_ED25519
  else if names PIV_X25519_PARAMETERS || names (montgomery_curve_parameters MontgomeryX25519) then Ok YUBIHSM_ALGO_X25519
  else if names (montgomery_curve_parameters MontgomeryX448) then Ok YUBIHSM_ALGO_X448
  else if names (edwards_curve_parameters CurveEd448) then Ok YUBIHSM_ALGO_ED448
  else Err #CKR_ATTRIBUTE_VALUE_INVALID.

(** The AES algorithm of a key length. *)
Definition yubihsm_aes_algorithm (length : Z) : outcome Error Z :=
  if length =? 16 then Ok YUBIHSM_ALGO_AES128
  else if length =? 24 then Ok YUBIHSM_ALGO_AES192
  else if length =? 32 then Ok YUBIHSM_ALGO_AES256
  else Err #CKR_KEY_SIZE_RANGE.

(** The algorithm and the key length of an HMAC key type. *)
Definition yubihsm_hmac_generation (key_kind : Z) : outcome Error (Z * Z) :=
  if key_kind =? CKK_SHA_1_HMAC then Ok (YUBIHSM_ALGO_HMAC_SHA1, 20)
  else if key_kind =? CKK_SHA384_HMAC then Ok (YUBIHSM_ALGO_HMAC_SHA384, 48)
  else if key_kind =? CKK_SHA512_HMAC then Ok (YUBIHSM_ALGO_HMAC_SHA512, 64)
  else if key_kind =? CKK_SHA256_HMAC then Ok (YUBIHSM_ALGO_HMAC_SHA256, 32)
  else Err #CKR_KEY_TYPE_INCONSISTENT.

Definition yubihsm_generate_key_command (m : CK_MECHANISM) (templ : list CK_ATTRIBUTE)
    : outcome Error (TokenObject * Command) :=
  let k := mechanism m in
  let aes := k =? CKM_AES_KEY_GEN in
  let hmac_type := sha_hmac_generation_key_type k in
  let? _ := bail (has_parameter m) #CKR_MECHANISM_PARAM_INVALID in
  let? _ := bail (negb (is_some hmac_type) && negb (one_of [CKM_AES_KEY_GEN; CKM_GENERIC_SECRET_KEY_GEN] k))
              #CKR_MECHANISM_INVALID in
  let? _ := validate_unique_template templ in
  let? '(t, value_len) :=
    for_attributes (secret_attribute false) templ
      (TokenObjectTemplate_default
         {{ t_class := Some CKO_SECRET_KEY;
            t_key_type := Some (if aes then CKK_AES else default CKK_GENERIC_SECRET hmac_type);
            t_token := true; t_private := true; t_sensitive := Some true; t_extractable := Some false }}, None) in
  let? o := map_err Generic (into_object t) in
  let? _ := bail (negb (class o =? CKO_SECRET_KEY)) #CKR_TEMPLATE_INCONSISTENT in
  let? _ := bail (match hmac_type with Some t => negb (key_type o =? t) | None => false end) #CKR_TEMPLATE_INCONSISTENT in
  let? _ := bail (is_some hmac_type && negb (is_some value_len)) #CKR_TEMPLATE_INCOMPLETE in
  let o := o {{ attributes -> key_gen_mechanism := Some k }} in
  let? '(code, object_type, algorithm, expected) :=
    if aes then
      let? n := ok_or #CKR_TEMPLATE_INCOMPLETE value_len in
      let? algorithm := yubihsm_aes_algorithm n in
      Ok (GenerateSymmetricKey, YUBIHSM_SYMMETRIC_KEY, algorithm, n)
    else
      let? '(algorithm, n) := yubihsm_hmac_generation (key_type o) in
      Ok (GenerateHmacKey, YUBIHSM_HMAC_KEY, algorithm, n) in
  let? _ := bail (match value_len with Some n => negb (n =? expected) | None => false end) #CKR_KEY_SIZE_RANGE in
  let? hardware := yubihsm_hardware_import_object o in
  let? parameters := yubihsm_object_parameters hardware object_type algorithm in
  let? command := generate_object code parameters in
  Ok (o {{ attributes -> local := true }}, command).

(** The key type and algorithm of a pair that a YubiHSM is to make. *)
Definition yubihsm_generation_algorithm (m : Z) (public_template private_template : list CK_ATTRIBUTE)
    : outcome Error (Z * Z) :=
  let curve (key_kind : Z) (allowed : Z → bool) :=
    let? parameters := read_ec_parameters public_template in
    let? algorithm := yubihsm_ec_algorithm parameters in
    let? _ := bail (negb (allowed algorithm)) #CKR_CURVE_NOT_SUPPORTED in
    Ok (key_kind, algorithm) in
  if m =? CKM_RSA_PKCS_KEY_PAIR_GEN then
    let? bits := required_ulong_template_attribute public_template CKA_MODULUS_BITS in
    let? _ := validate_rsa_generation_exponent public_template in
    if bits =? 2048 then Ok (CKK_RSA, YUBIHSM_ALGO_RSA_2048)
    else if bits =? 3072 then Ok (CKK_RSA, YUBIHSM_ALGO_RSA_3072)
    else if bits =? 4096 then Ok (CKK_RSA, YUBIHSM_ALGO_RSA_4096)
    else Err #CKR_KEY_SIZE_RANGE
  else if m =? CKM_EC_KEY_PAIR_GEN then curve CKK_EC (λ a, negb (is_yubihsm_montgomery a || is_yubihsm_edwards a))
  else if m =? CKM_EC_MONTGOMERY_KEY_PAIR_GEN then curve CKK_EC_MONTGOMERY is_yubihsm_montgomery
  else if m =? CKM_EC_EDWARDS_KEY_PAIR_GEN then curve CKK_EC_EDWARDS is_yubihsm_edwards
  else if (m =? CKM_ML_DSA_KEY_PAIR_GEN) || (m =? CKM_ML_KEM_KEY_PAIR_GEN) then
    let? parameter := pq_parameter public_template private_template in
    if m =? CKM_ML_DSA_KEY_PAIR_GEN then Ok (CKK_ML_DSA, YUBIHSM_ALGO_ML_DSA_44 + parameter - 1)
    else Ok (CKK_ML_KEM, YUBIHSM_ALGO_ML_KEM_512 + parameter - 1)
  else if m =? CKM_PKCS11RS_MLKEM768_P256_KEY_PAIR_GEN then
    Ok (CKK_PKCS11RS_MLKEM768_P256, YUBIHSM_ALGO_HYBRID_ML_KEM_768_P256)
  else if m =? CKM_PKCS11RS_MLKEM768_X25519_KEY_PAIR_GEN then
    Ok (CKK_PKCS11RS_MLKEM768_X25519, YUBIHSM_ALGO_HYBRID_ML_KEM_768_X25519)
  else if m =? CKM_PKCS11RS_MLKEM1024_P384_KEY_PAIR_GEN then
    Ok (CKK_PKCS11RS_MLKEM1024_P384, YUBIHSM_ALGO_HYBRID_ML_KEM_1024_P384)
  else Err #CKR_MECHANISM_INVALID.

(** Any use but wrapping. *)
Definition public_uses (o : TokenObject) : bool :=
  encrypt o || decrypt o || sign o || verify o || derive (attributes o).
Definition private_uses (o : TokenObject) : bool := encrypt o || decrypt o || sign o || verify o.

(** The command of a pair, and the private and the public object of it. *)
Definition yubihsm_generate_key_pair_command (m : CK_MECHANISM) (public_template private_template : list CK_ATTRIBUTE)
    : outcome Error (TokenObject * TokenObject * Command) :=
  let? _ := bail (has_parameter m) #CKR_MECHANISM_PARAM_INVALID in
  let? '(key_kind, algorithm) := yubihsm_generation_algorithm (mechanism m) public_template private_template in
  let? _ := validate_unique_template public_template in
  let? _ := validate_unique_template private_template in
  let? public_wrap := bool_attribute_or_false public_template CKA_WRAP in
  let? public_unwrap := bool_attribute_or_false public_template CKA_UNWRAP in
  let? private_wrap := bool_attribute_or_false private_template CKA_WRAP in
  let? private_unwrap := optional_bool_template_attribute private_template CKA_UNWRAP in
  let? private_extractable := bool_attribute_or_false private_template CKA_EXTRACTABLE in
  let? public_object := key_pair_object (without [CKA_UNWRAP] public_template) CKO_PUBLIC_KEY key_kind in
  let public_object := if is_some (template_attribute public_template CKA_TOKEN) then public_object
                       else public_object {{ token := false }} in
  let? private_object :=
    key_pair_object (without [CKA_WRAP; CKA_UNWRAP; CKA_EXTRACTABLE] private_template) CKO_PRIVATE_KEY key_kind in
  let wrap_key := public_wrap || default false private_unwrap in
  let private_object :=
    private_object {{ attributes -> unwrap := wrap_key }} {{ attributes -> extractable := private_extractable }}
                   {{ attributes -> never_extractable := negb private_extractable }} in
  let? _ := bail (negb (token private_object)) #CKR_TEMPLATE_INCONSISTENT in
  let? _ := bail (token public_object && negb (bool_decide (o_id public_object = o_id private_object)))
              #CKR_TEMPLATE_INCONSISTENT in
  let? _ := bail ((key_kind =? CKK_EC_MONTGOMERY) && (public_uses public_object || private_uses private_object))
              #CKR_TEMPLATE_INCONSISTENT in
  let private_object := if bool_decide (o_label private_object = [])
                        then private_object {{ attributes -> obj_label := o_label public_object }} else private_object in
  let? hardware := yubihsm_hardware_import_object private_object in
  let hardware := hardware {{ attributes -> encapsulate := encapsulate (attributes public_object) }} in
  let? _ := bail (public_unwrap || private_wrap || (wrap_key && negb (key_kind =? CKK_RSA))
                  || (public_wrap && (negb (token public_object) || bool_decide (private_unwrap = Some false)))
                  || (wrap_key && (public_uses public_object || private_uses private_object
                                   || derive (attributes private_object)))) #CKR_TEMPLATE_INCONSISTENT in
  let? command :=
    if wrap_key then
      let? id := yubihsm_id (o_id hardware) in
      let usages := mkUsages false false false false false false false false true private_extractable in
      generate_wrap_key
        (mkDelegated (mkObjectParameters id (o_label hardware) 0xffff
                        (yubihsm_attributes_to_capabilities YUBIHSM_WRAP_KEY algorithm usages) algorithm)
           (replicate 8 0xff))
    else
      let? parameters := yubihsm_object_parameters hardware YUBIHSM_ASYMMETRIC_KEY algorithm in
      generate_object GenerateAsymmetricKey parameters in
  Ok (private_object, public_object, command).

Definition YUBIHSM_ALGO_OPAQUE_DATA : Z := 30.

(** How an object is written into a YubiHSM: the command, and the class and type
    of what it makes. *)
Section hsm_import.
Context `{HsmKeyEncodings, KeyCore}.

Definition padded_big_num (value length : Z) : outcome Error (list Z) :=
  let encoded := to_bytes_be value in
  let? _ := bail (length <? len encoded) #CKR_KEY_SIZE_RANGE in
  Ok (replicate (Z.to_nat (length - len encoded)) 0 ++ encoded).

(** The device's algorithm of an RSA key, by the size of its modulus. *)
Definition yubihsm_rsa_algorithm (size : Z) : outcome Error Z :=
  if size =? 256 then Ok YUBIHSM_ALGO_RSA_2048
  else if size =? 384 then Ok YUBIHSM_ALGO_RSA_3072
  else if size =? 512 then Ok YUBIHSM_ALGO_RSA_4096
  else Err #CKR_KEY_SIZE_RANGE.

Definition yubihsm_put (code : CommandCode) (o : TokenObject) (kind object_type algorithm : Z) (value : list Z)
    : outcome Error (Command * Z * Z) :=
  let? parameters := yubihsm_object_parameters o object_type algorithm in
  let? command := put_object code parameters value in
  Ok (command, kind, object_type).

Definition yubihsm_import_private (o : TokenObject) (key : SoftwarePrivateKeyMaterial) : outcome Error (Command * Z * Z) :=
  let put := yubihsm_put PutAsymmetricKey o CKO_PRIVATE_KEY YUBIHSM_ASYMMETRIC_KEY in
  match key with
  | SigningMlDsa parameter_set key =>
      put match parameter_set with
          | SetMlDsa44 => YUBIHSM_ALGO_ML_DSA_44
          | SetMlDsa65 => YUBIHSM_ALGO_ML_DSA_65
          | SetMlDsa87 => YUBIHSM_ALGO_ML_DSA_87
          end (ml_dsa_serialized parameter_set key)
  | MlKem key =>
      put match ml_kem_parameter_set key with
          | SetMlKem512 => YUBIHSM_ALGO_ML_KEM_512
          | SetMlKem768 => YUBIHSM_ALGO_ML_KEM_768
          | SetMlKem1024 => YUBIHSM_ALGO_ML_KEM_1024
          end (ml_kem_serialized key)
  | HybridKem construction key =>
      put match construction with
          | MlKem768P256 => YUBIHSM_ALGO_HYBRID_ML_KEM_768_P256
          | MlKem768X25519 => YUBIHSM_ALGO_HYBRID_ML_KEM_768_X25519
          | MlKem1024P384 => YUBIHSM_ALGO_HYBRID_ML_KEM_1024_P384
          end (hybrid_key_seed construction key)
  | SigningRsa key =>
      let? algorithm := yubihsm_rsa_algorithm (rsa_private_size key) in
      let component_length := rsa_private_size key / 2 in
      let? p := ok_or #CKR_TEMPLATE_INCOMPLETE (rsa_primes key !! 0%nat) in
      let? p := padded_big_num p component_length in
      let? q := ok_or #CKR_TEMPLATE_INCOMPLETE (rsa_primes key !! 1%nat) in
      let? q := padded_big_num q component_length in
      put algorithm (p ++ q)
  | _ => Err #CKR_TEMPLATE_INCONSISTENT
  end.

Definition yubihsm_import_secret (o : TokenObject) (value : list Z) : outcome Error (Command * Z * Z) :=
  if key_type o =? CKK_AES then
    let? algorithm := yubihsm_aes_algorithm (len value) in
    yubihsm_put PutSymmetricKey o CKO_SECRET_KEY YUBIHSM_SYMMETRIC_KEY algorithm value
  else
    let? algorithm :=
      if key_type o =? CKK_SHA_1_HMAC then Ok YUBIHSM_ALGO_HMAC_SHA1
      else if key_type o =? CKK_SHA384_HMAC then Ok YUBIHSM_ALGO_HMAC_SHA384
      else if key_type o =? CKK_SHA512_HMAC then Ok YUBIHSM_ALGO_HMAC_SHA512
      else if one_of [CKK_GENERIC_SECRET; CKK_SHA256_HMAC] (key_type o) then Ok YUBIHSM_ALGO_HMAC_SHA256
      else Err #CKR_KEY_TYPE_INCONSISTENT in
    yubihsm_put PutHmacKey o CKO_SECRET_KEY YUBIHSM_HMAC_KEY algorithm value.

Definition yubihsm_import_public_wrap (o : TokenObject) (key : RsaPublicKey) : outcome Error (Command * Z * Z) :=
  let? _ := bail (private o || public_uses o || unwrap (attributes o) || negb (o_extractable o) || negb (rsa_e key =? 65537))
              #CKR_TEMPLATE_INCONSISTENT in
  let? algorithm := yubihsm_rsa_algorithm (rsa_size key) in
  let? parameters := yubihsm_object_parameters o YUBIHSM_PUBLIC_WRAP_KEY algorithm in
  let? modulus := padded_big_num (rsa_n key) (rsa_size key) in
  let? command := put_delegated_object PutPublicWrapKey (mkDelegated parameters (replicate 8 0xff)) modulus in
  Ok (command, CKO_PUBLIC_KEY, YUBIHSM_PUBLIC_WRAP_KEY).

Definition yubihsm_import_command (o : TokenObject) : outcome Error (Command * Z * Z) :=
  match material o with
  | Data _ _ _ value | Certificate _ value =>
      yubihsm_put PutOpaque o (class o) YUBIHSM_OPAQUE
        (if class o =? CKO_CERTIFICATE then YUBIHSM_ALGO_OPAQUE_X509_CERTIFICATE else YUBIHSM_ALGO_OPAQUE_DATA) value
  | SoftwarePrivate key =>
      if class o =? CKO_PRIVATE_KEY then yubihsm_import_private o key else Err #CKR_TEMPLATE_INCONSISTENT
  | Secret value | SoftwareSecret value =>
      if class o =? CKO_SECRET_KEY then yubihsm_import_secret o value else Err #CKR_TEMPLATE_INCONSISTENT
  | Public (RsaPublic key) =>
      if (class o =? CKO_PUBLIC_KEY) && wrap (attributes o) then yubihsm_import_public_wrap o key
      else Err #CKR_TEMPLATE_INCONSISTENT
  | _ => Err #CKR_TEMPLATE_INCONSISTENT
  end.
End hsm_import.

(** ** The public half of a private key *)

Section projection.
Context {B : Type} `{RsaCore B, SignatureCore B, KeyCore, KeyImport, Certificates, PreviewSignRecords, HashCore, LazyCells B}.

(** The attributes that the projection fixes: a template may only repeat them. *)
Definition PROJECTED_ATTRIBUTES : list Z :=
  [CKA_PUBLIC_KEY_INFO; CKA_MODULUS; CKA_MODULUS_BITS; CKA_PUBLIC_EXPONENT; CKA_EC_PARAMS; CKA_EC_POINT; CKA_PARAMETER_SET;
   CKA_VALUE; CKA_UNWRAP].

Definition is_hsm_wrap_key (m : KeyMaterial) : bool :=
  match m with YubiHsm _ object_type _ _ _ => object_type =? YUBIHSM_WRAP_KEY | _ => false end.

Definition projection_inconsistent (base o : TokenObject) : bool :=
  negb (class o =? CKO_PUBLIC_KEY) || negb (key_type o =? key_type base) || o_sensitive o || negb (o_extractable o)
  || sign o || decrypt o || derive (attributes o)
  || (wrap (attributes o) && (negb (token o) || negb (is_hsm_wrap_key (material base))))
  || (encrypt o && negb (key_type o =? CKK_RSA))
  || (verify o && negb (one_of [CKK_RSA; CKK_EC; CKK_EC_EDWARDS; CKK_ML_DSA] (key_type o))).

(** The second loop: each such attribute has the value of the projected key. *)
Fixpoint check_projected (o : TokenObject) (templ : list CK_ATTRIBUTE) : SM B Error unit :=
  match templ with
  | [] => sm_ret tt
  | a :: rest =>
      let! _ :=
        if one_of (CKA_WRAP :: PROJECTED_ATTRIBUTES) (attr_type a) then
          let! supplied := sm_lift (map_err Generic (read_attribute_value a)) in
          let! shown := λ b, let '(value, b) := attribute_value o (attr_type a) b in (Ok value, b) in
          guard_err (negb (bool_decide (shown = Some supplied))) #CKR_TEMPLATE_INCONSISTENT
        else sm_ret tt in
      check_projected o rest
  end.

Definition project_public_key_object (base : TokenObject) (templ : list CK_ATTRIBUTE) : SM B Error TokenObject :=
  let! key := sm_lift (projected_public_key base) in
  let! t := sm_lift (for_attributes (attribute_except PROJECTED_ATTRIBUTES) templ
              (TokenObjectTemplate_default {{ t_class := Some CKO_PUBLIC_KEY; t_key_type := Some (key_type base) }})) in
  let! o := sm_lift (map_err Generic (into_object t)) in
  let! _ := guard_err (projection_inconsistent base o) #CKR_TEMPLATE_INCONSISTENT in
  let o := o {{ material := Public key }} {{ rp_id := rp_id base }} {{ attributes -> local := false }}
             {{ attributes -> key_gen_mechanism := None }} in
  let! _ := check_projected o templ in
  sm_ret o.
End projection.
