(* ===== verification/SecretDerivation.v ===== *)
(** * SecretDerivation: deriving a secret from a secret

    Models [src/src/software_key_ops/composition.rs] (concatenation, extraction and
    SHA-256 of protected secrets), the counter KDF of [src/src/software_key_ops.rs]
    and [src/src/api/key/counter_kdf.rs], and the key derivation parameters of
    [src/src/api/key.rs].

    The reference for an extraction is the key as a string of bits, the most
    significant first. *)
From coqutil Require Import Datatypes.RecordSetters.
From S2P Require Import Prelude Errors LoginSelectors Storage Mechanisms AttributeTypes KeyMetadata YubiHsm SlotState SessionApi CryptApi Digests CipherModes Ciphers SignatureModes OathOtp HsmCapabilities HsmCommands PivTables Attributes MechanismTables KeyMechanisms Templates ObjectImport KeyTemplates.
Import DoubleBraceUpdate.

(** ** Composition *)

Inductive SecretDerivation : Type :=
| AppendKey (other : TokenObject) | AppendData (data : list Z) | Extract (offset : Z) | DeriveSha256.

Definition derivation_mechanism (d : SecretDerivation) : Z :=
  match d with
  | AppendKey _ => CKM_CONCATENATE_BASE_AND_KEY
  | AppendData _ => CKM_CONCATENATE_BASE_AND_DATA
  | Extract _ => CKM_EXTRACT_KEY_FROM_KEY
  | DeriveSha256 => CKM_SHA256_KEY_DERIVATION
  end.

Definition secret_length (o : TokenObject) (m : Z) : outcome Error Z :=
  let? _ := require_key_mechanism o m in
  let? _ := bail (negb (class o =? CKO_SECRET_KEY)) #CKR_KEY_TYPE_INCONSISTENT in
  let? _ := bail (negb (derive (attributes o))) #CKR_KEY_FUNCTION_NOT_PERMITTED in
  let? length := match material o with
                 | SoftwareSecret value => Ok (len value)
                 | YubiHsmSessionObject _ length => Ok length
                 | _ => Err #CKR_KEY_TYPE_INCONSISTENT
                 end in
  let? _ := bail (negb (between 1 length 1024)) #CKR_KEY_SIZE_RANGE in
  Ok length.

Definition secret (o : TokenObject) (m : Z) : outcome Error (list Z) :=
  let? _ := secret_length o m in
  let? value := match material o with SoftwareSecret value => Ok value | _ => Err #CKR_KEY_TYPE_INCONSISTENT end in
  let? _ := bail (negb (between 1 (len value) 1024)) #CKR_KEY_SIZE_RANGE in
  Ok value.

Definition other_key (d : SecretDerivation) : option TokenObject := match d with AppendKey other => Some other | _ => None end.

Definition validate_inputs (d : SecretDerivation) (base : TokenObject) : outcome Error unit :=
  let? _ := secret_length base (derivation_mechanism d) in
  match d with
  | AppendKey other => let? _ := secret_length other (derivation_mechanism d) in Ok tt
  | _ => Ok tt
  end.

Definition available (d : SecretDerivation) (base : TokenObject) : outcome Error Z :=
  let? base_length := secret_length base (derivation_mechanism d) in
  match d with
  | AppendKey other =>
      let? other_length := secret_length other (derivation_mechanism d) in
      ok_or #CKR_KEY_SIZE_RANGE (checked_add base_length other_length)
  | AppendData data => ok_or #CKR_KEY_SIZE_RANGE (checked_add base_length (len data))
  | Extract offset =>
      let? _ := bail (base_length * 8 <=? offset) #CKR_MECHANISM_PARAM_INVALID in
      Ok base_length
  | DeriveSha256 => Ok 32
  end.

(** [u8] shifts; the byte at bit [offset + 8 * i], the bits numbered from the most
    significant and wrapping at the end. *)
Definition extracted_byte (base : list Z) (offset : Z) (i : nat) : Z :=
  let bit := (offset + Z.of_nat i * 8) mod (len base * 8) in
  let index := bit / 8 in
  let shift := bit mod 8 in
  if shift =? 0 then at_ base index
  else Z.lor (as_u8 (Z.shiftl (at_ base index) shift)) (Z.shiftr (at_ base ((index + 1) mod len base)) (8 - shift)).
Definition extract_bits (base : list Z) (offset length : Z) : list Z :=
  map (extracted_byte base offset) (seq 0 (Z.to_nat length)).

(** Odd parity, as the derivations set it. *)
Definition derived_parity (b : Z) : Z :=
  let b := Z.land b 0xfe in Z.lor b (Z.b2z (is_multiple_of (count_ones b) 2)).
Definition with_parity (key_kind : Z) (value : list Z) : list Z :=
  if key_kind =? CKK_DES3 then map derived_parity value else value.

(** The history of a derived key that is not a part of its base. *)
Definition inherit_history (base o : TokenObject) : TokenObject :=
  o {{ attributes -> always_sensitive := always_sensitive (attributes base) && o_sensitive o }}
    {{ attributes -> never_extractable := never_extractable (attributes base) && negb (o_extractable o) }}.

(** The protection of a key that shows a part of its base or of another key. *)
Definition inherit_protection (base : TokenObject) (other : option TokenObject) (o : TokenObject) : TokenObject :=
  let of_other (f : ObjectAttributes → bool) (absent : bool) :=
    match other with Some key => f (attributes key) | None => absent end in
  o {{ attributes -> sensitive := o_sensitive o || (o_sensitive base || of_other sensitive false) }}
    {{ attributes -> extractable := o_extractable o && (o_extractable base && of_other extractable true) }}
    {{ attributes -> always_sensitive := always_sensitive (attributes base) && of_other always_sensitive true }}
    {{ attributes -> never_extractable := never_extractable (attributes base) && of_other never_extractable true }}.

(** [derived, local = false, key_gen_mechanism = Some(m)] *)
Definition mark_derived (m : Z) (o : TokenObject) : TokenObject :=
  o {{ attributes -> local := false }} {{ attributes -> key_gen_mechanism := Some m }}.

Section composition.
Context `{HashCore}.

Definition execute_secret_derivation (base : TokenObject) (d : SecretDerivation) (o : TokenObject) (length : Z)
    : outcome Error TokenObject :=
  let m := derivation_mechanism d in
  let? n := available d base in
  let? _ := bail ((length =? 0) || (Z.min n 1024 <? length)) #CKR_KEY_SIZE_RANGE in
  let? base_value := secret base m in
  let? other_value := match other_key d with Some key => omap_ok Some (secret key m) | None => Ok None end in
  let o := match d with
           | DeriveSha256 => inherit_history base o
           | _ => inherit_protection base (other_key d) o
           end in
  let? value :=
    match d with
    | AppendKey _ =>
        let? other_value := ok_or #CKR_KEY_HANDLE_INVALID other_value in
        Ok (ztake length (base_value ++ other_value))
    | AppendData data => Ok (ztake length (base_value ++ data))
    | DeriveSha256 =>
        let digest := hash HashSha256 base_value in
        if len digest <? length then Panic else Ok (ztake length digest)
    | Extract offset => Ok (extract_bits base_value offset length)
    end in
  Ok (mark_derived m (o {{ material := SoftwareSecret (with_parity (key_type o) value) }})).
End composition.

(** ** The counter KDF *)

Definition CK_SP800_108_ITERATION_VARIABLE : Z := 1.
Definition CK_SP800_108_DKM_LENGTH : Z := 3.
Definition CK_SP800_108_BYTE_ARRAY : Z := 4.
Definition CK_SP800_108_DKM_LENGTH_SUM_OF_KEYS : Z := 1.
Definition CK_SP800_108_DKM_LENGTH_SUM_OF_SEGMENTS : Z := 2.

Definition CK_FALSE : Z := 0.
Definition CK_TRUE : Z := 1.

(** [parameter::<T>(pointer, length)] of a structure of [size] bytes. *)
Definition sized_parameter {A} (pointer : option A) (length size : Z) : outcome Error A :=
  let? _ := bail (negb (length =? size)) #CKR_MECHANISM_PARAM_INVALID in
  ok_or #CKR_MECHANISM_PARAM_INVALID pointer.

Definition integer_format (width endian maximum : Z) : outcome Error IntegerFormat :=
  let? _ := bail ((width =? 0) || (maximum <? width) || negb (is_multiple_of width 8)
                  || negb (one_of [CK_FALSE; CK_TRUE] endian)) #CKR_MECHANISM_PARAM_INVALID in
  Ok (mkIntegerFormat width (endian =? CK_TRUE)).

(** One field, and the bytes of input it takes. *)
Definition kdf_field (data : CK_PRF_DATA_PARAM) : outcome Error (CounterKdfField * Z) :=
  let pointer := prf_pValue data in
  if prf_type data =? CK_SP800_108_ITERATION_VARIABLE then
    let? counter := sized_parameter (prf_counter <$> pointer) (prf_ulValueLen data) SIZE_OF_COUNTER_FORMAT in
    let? format := integer_format (counter_ulWidthInBits counter) (counter_bLittleEndian counter) 32 in
    Ok (FieldCounter format, width_bits format / 8)
  else if prf_type data =? CK_SP800_108_DKM_LENGTH then
    let? length := sized_parameter (prf_length <$> pointer) (prf_ulValueLen data) SIZE_OF_DKM_LENGTH_FORMAT in
    let? format := integer_format (dkm_ulWidthInBits length) (dkm_bLittleEndian length) 64 in
    let? method := if dkmLengthMethod length =? CK_SP800_108_DKM_LENGTH_SUM_OF_KEYS then Ok LengthKey
                   else if dkmLengthMethod length =? CK_SP800_108_DKM_LENGTH_SUM_OF_SEGMENTS then Ok LengthSegments
                   else Err #CKR_MECHANISM_PARAM_INVALID in
    Ok (FieldLength format method, width_bits format / 8)
  else if prf_type data =? CK_SP800_108_BYTE_ARRAY then
    let? _ := bail ((prf_ulValueLen data =? 0) || (65536 <? prf_ulValueLen data)) #CKR_MECHANISM_PARAM_INVALID in
    let? bytes := map_err (λ _, #CKR_MECHANISM_PARAM_INVALID)
                    (from_raw_parts (prf_bytes <$> pointer) (prf_ulValueLen data)) in
    Ok (FieldBytes bytes, len bytes)
  else Err #CKR_MECHANISM_PARAM_INVALID.

(** The loop, with the length of the input so far and the counters and lengths
    seen. *)
Fixpoint kdf_fields (params : list CK_PRF_DATA_PARAM) (input_length counters lengths : Z)
    : outcome Error (list CounterKdfField) :=
  match params with
  | [] =>
      let? _ := bail (negb (counters =? 1) || (1 <? lengths)) #CKR_MECHANISM_PARAM_INVALID in
      Ok []
  | data :: rest =>
      let? '(field, size) := kdf_field data in
      let? input_length := ok_or #CKR_MECHANISM_PARAM_INVALID (checked_add input_length size) in
      let? _ := bail (65536 <? input_length) #CKR_MECHANISM_PARAM_INVALID in
      let? rest := kdf_fields rest input_length
                     (counters + match field with FieldCounter _ => 1 | _ => 0 end)
                     (lengths + match field with FieldLength _ _ => 1 | _ => 0 end) in
      Ok (field :: rest)
  end.

(** [from_raw_parts] on the data parameters. *)
Definition data_params (p : CK_SP800_108_KDF_PARAMS) : outcome Error (list CK_PRF_DATA_PARAM) :=
  match pDataParams p with
  | None => Err #CKR_MECHANISM_PARAM_INVALID
  | Some params => Ok (ztake (ulNumberOfDataParams p) params)
  end.

Definition counter_kdf_fields (m : CK_MECHANISM) : outcome Error (list CounterKdfField) :=
  let? p := sized_parameter ((λ memory, as_kdf (as_key memory)) <$> pParameter m) (ulParameterLen m) SIZE_OF_KDF_PARAMS in
  let? _ := bail (negb (prfType p =? CKM_AES_CMAC) || negb (ulAdditionalDerivedKeys p =? 0) || negb (additional_keys_null p)
                  || negb (between 1 (ulNumberOfDataParams p) 64)) #CKR_MECHANISM_PARAM_INVALID in
  let? params := data_params p in
  kdf_fields params 0 0 0.

Inductive CounterCmacKey : Type := CmacSoftware (value : list Z) | CmacYubiHsm (id : Z) | CmacYubiHsmSession.

Definition counter_base_key (base : TokenObject) : outcome Error CounterCmacKey :=
  let? _ := require_key_mechanism base CKM_SP800_108_COUNTER_KDF in
  let? _ := bail (negb (class base =? CKO_SECRET_KEY) || negb (key_type base =? CKK_AES)) #CKR_KEY_TYPE_INCONSISTENT in
  let? _ := bail (negb (derive (attributes base))) #CKR_KEY_FUNCTION_NOT_PERMITTED in
  match material base with
  | SoftwareSecret value =>
      let? _ := bail (negb (one_of [16; 24; 32] (len value))) #CKR_KEY_SIZE_RANGE in
      Ok (CmacSoftware value)
  | YubiHsm id object_type algorithm _ info =>
      if (object_type =? YUBIHSM_SYMMETRIC_KEY) && is_yubihsm_aes algorithm then
        let? _ := bail (negb (yubihsm_capability (capabilities info) 0x33)) #CKR_KEY_FUNCTION_NOT_PERMITTED in
        Ok (CmacYubiHsm id)
      else Err #CKR_KEY_TYPE_INCONSISTENT
  | YubiHsmSessionObject _ length =>
      if one_of [16; 24; 32] length then Ok CmacYubiHsmSession else Err #CKR_KEY_TYPE_INCONSISTENT
  | _ => Err #CKR_KEY_TYPE_INCONSISTENT
  end.

Section counter.
Context {B S : Type} `{SignatureCore B, KeyDerivationCore}.

(** [hardware] computes the MAC in a YubiHSM. *)
Definition counter_cmac (key : CounterCmacKey) (input : list Z) (hardware : Z → SM S Error (list Z)) : SM S Error (list Z) :=
  match key with
  | CmacSoftware value => sm_lift (map_err (λ _, #CKR_KEY_SIZE_RANGE) (aes_cmac value input))
  | CmacYubiHsm id =>
      let! mac := hardware id in
      let! _ := guard_err (negb (len mac =? 16)) #CKR_DEVICE_ERROR in
      sm_ret mac
  | CmacYubiHsmSession => sm_err #CKR_FUNCTION_NOT_SUPPORTED
  end.

Definition counter_kdf_error (e : CounterKdfOperationError Error) : Error :=
  match e with
  | CounterKdf CounterInvalidParameters => #CKR_MECHANISM_PARAM_INVALID
  | CounterKdf _ => #CKR_KEY_SIZE_RANGE
  | CounterCmac e => e
  end.
Definition counter_kdf_with (fields : list CounterKdfField) (length : Z) (cmac : list Z → SM S Error (list Z))
    : SM S Error (list Z) :=
  sm_map_err counter_kdf_error (cmac_counter_kdf_with S Error fields length cmac).

Definition derive_counter_key_with (base : TokenObject) (fields : list CounterKdfField) (o : TokenObject) (length : Z)
    (cmac : list Z → SM S Error (list Z)) : SM S Error TokenObject :=
  let! derived := counter_kdf_with fields length cmac in
  sm_ret (mark_derived CKM_SP800_108_COUNTER_KDF
            (inherit_history base (o {{ material := SoftwareSecret (with_parity (key_type o) derived) }}))).
End counter.

(** ** Key agreement and its key derivation functions *)

Inductive EcdhKdf : Type := KdfNull | KdfX963 (digest : MessageDigest).

Definition CKD_NULL : Z := 1.
Definition CKD_SHA1_KDF : Z := 2.
Definition CKD_SHA224_KDF : Z := 5.
Definition CKD_SHA256_KDF : Z := 6.
Definition CKD_SHA384_KDF : Z := 7.
Definition CKD_SHA512_KDF : Z := 8.
Definition CKD_SHA3_224_KDF : Z := 10.
Definition CKD_SHA3_256_KDF : Z := 11.
Definition CKD_SHA3_384_KDF : Z := 12.
Definition CKD_SHA3_512_KDF : Z := 13.
Definition ecdh_kdf (kdf : Z) : outcome Error EcdhKdf :=
  if kdf =? CKD_NULL then Ok KdfNull
  else if kdf =? CKD_SHA1_KDF then Ok (KdfX963 HashSha1)
  else if kdf =? CKD_SHA224_KDF then Ok (KdfX963 HashSha224)
  else if kdf =? CKD_SHA256_KDF then Ok (KdfX963 HashSha256)
  else if kdf =? CKD_SHA384_KDF then Ok (KdfX963 HashSha384)
  else if kdf =? CKD_SHA512_KDF then Ok (KdfX963 HashSha512)
  else if kdf =? CKD_SHA3_224_KDF then Ok (KdfX963 HashSha3_224)
  else if kdf =? CKD_SHA3_256_KDF then Ok (KdfX963 HashSha3_256)
  else if kdf =? CKD_SHA3_384_KDF then Ok (KdfX963 HashSha3_384)
  else if kdf =? CKD_SHA3_512_KDF then Ok (KdfX963 HashSha3_512)
  else Err #CKR_MECHANISM_PARAM_INVALID.

Definition ecdh_kdf_hash_selector (kdf : EcdhKdf) : outcome Error Z :=
  match kdf with
  | KdfX963 HashSha1 => Ok 1
  | KdfX963 HashSha224 => Ok 2
  | KdfX963 HashSha256 => Ok 3
  | KdfX963 HashSha384 => Ok 4
  | KdfX963 HashSha512 => Ok 5
  | KdfX963 HashSha3_224 => Ok 6
  | KdfX963 HashSha3_256 => Ok 7
  | KdfX963 HashSha3_384 => Ok 8
  | KdfX963 HashSha3_512 => Ok 9
  | KdfNull => Err #CKR_MECHANISM_PARAM_INVALID
  end.

Section agreement.
Context `{KeyDerivationCore}.

Definition x963_kdf (digest : MessageDigest) (secret shared_data : list Z) (length : Z) : outcome Error (list Z) :=
  ok_or #CKR_KEY_SIZE_RANGE (core_x963_kdf digest secret shared_data length).

Definition hkdf_key_material (digest : MessageDigest) (extract expand : bool) (base_key : list Z) (salt : option (list Z))
    (info : list Z) (length : Z) : outcome Error (list Z) :=
  let? _ := bail (negb (bool_decide (digest ∈ [HashSha1; HashSha256; HashSha384; HashSha512]))) #CKR_MECHANISM_PARAM_INVALID in
  ok_or #CKR_KEY_SIZE_RANGE (hkdf digest extract expand base_key salt info length).

Definition software_ecdh (key : SoftwarePrivateKeyMaterial) (public_data : list Z) : outcome Error (list Z) :=
  match key with
  | SigningRsa _ | SigningEdwards _ _ | SigningMlDsa _ _ | SigningEc _ _ =>
      ok_or #CKR_ATTRIBUTE_VALUE_INVALID (derive_with_signing_key key public_data)
  | Montgomery key => ok_or #CKR_ATTRIBUTE_VALUE_INVALID (montgomery_derive key public_data)
  | _ => Err #CKR_KEY_TYPE_INCONSISTENT
  end.
End agreement.

(** The parameters of [CKM_ECDH1_DERIVE], or with a prefix. *)
Record EcdhRequest : Type := mkEcdhRequest {
  req_kdf : EcdhKdf; req_shared : list Z; req_public : list Z; req_prefix : list Z;
}.
Definition prefixed_ecdh_request (m : CK_MECHANISM) : outcome Error EcdhRequest :=
  let invalid {A} : outcome Error A → outcome Error A := map_err (λ _, #CKR_MECHANISM_PARAM_INVALID) in
  let? p := sized_parameter ((λ memory, as_prefixed_ecdh (as_key memory)) <$> pParameter m) (ulParameterLen m)
              SIZE_OF_PREFIXED_ECDH_DERIVE_PARAMS in
  let e := prefixed_base p in
  let? kdf := ecdh_kdf (ecdh_kdf_type e) in
  let? _ := bail (match kdf with KdfNull => true | _ => false end) #CKR_MECHANISM_PARAM_INVALID in
  let? shared_data := invalid (from_raw_parts (pSharedData e) (ulSharedDataLen e)) in
  let? public_data := invalid (from_raw_parts (pPublicData e) (ulPublicDataLen e)) in
  let? prefix_data := invalid (from_raw_parts (pPrefixData p) (ulPrefixDataLen p)) in
  Ok (mkEcdhRequest kdf shared_data public_data prefix_data).
Definition ecdh_request (m : CK_MECHANISM) : outcome Error EcdhRequest :=
  let? _ := bail (negb (ulParameterLen m =? SIZE_OF_ECDH1_DERIVE_PARAMS)) #CKR_MECHANISM_PARAM_INVALID in
  let? memory := ok_or #CKR_ARGUMENTS_BAD (pParameter m) in
  let e := as_ecdh (as_key memory) in
  let? kdf := ecdh_kdf (ecdh_kdf_type e) in
  let? shared_data := map_err (λ _, #CKR_MECHANISM_PARAM_INVALID) (from_raw_parts (pSharedData e) (ulSharedDataLen e)) in
  let? _ := bail (match kdf with KdfNull => true | _ => false end
                  && (negb (is_null (pSharedData e)) || negb (bool_decide (shared_data = [])))) #CKR_MECHANISM_PARAM_INVALID in
  let? public_data := from_raw_parts (pPublicData e) (ulPublicDataLen e) in
  Ok (mkEcdhRequest kdf shared_data public_data []).

(** ** Extraction is a slice of the bit string *)

(** The bit at position [j] of a key, the most significant first. *)
Definition msb_bit (l : list Z) (j : Z) : bool := Z.testbit (at_ l (j / 8)) (7 - j mod 8).

Lemma at_byte l i : bytes_ok l = true → 0 ≤ at_ l i < 256.
Proof.
  unfold bytes_ok, at_. intros Hl. destruct (decide (Z.to_nat i < length l)%nat) as [Hi|Hi].
  - rewrite forallb_forall in Hl. specialize (Hl _ (nth_In l 0 Hi)). unfold is_byte in Hl. lia.
  - rewrite nth_overflow by lia. lia.
Qed.

Lemma testbit_byte b i : 0 ≤ b < 256 → 8 ≤ i → Z.testbit b i = false.
Proof.
  intros Hb Hi. destruct (Z.eq_dec b 0) as [->|Hn]; [apply Z.testbit_0_l|].
  apply Z.bits_above_log2; [lia|]. apply Z.log2_lt_pow2; [lia|].
  apply Z.lt_le_trans with (2 ^ 8); [lia|]. apply Z.pow_le_mono_r; lia.
Qed.

Lemma testbit_as_u8 n i : 0 ≤ i < 8 → Z.testbit (as_u8 n) i = Z.testbit n i.
Proof. intros Hi. unfold as_u8. by rewrite Z.mod_pow2_bits_low by lia. Qed.

(** The position [j] bits after position [8 * q + r], in a ring of [8 * n] bits. *)
Lemma ring_position n q r j : 0 ≤ q < n → 0 ≤ r < 8 → 0 ≤ j < 8 →
  (8 * q + r + j) mod (8 * n) = if r + j <? 8 then 8 * q + (r + j) else 8 * ((q + 1) mod n) + (r + j - 8).
Proof.
  intros Hq Hr Hj. destruct (r + j <? 8) eqn:E.
  - rewrite Z.mod_small; lia.
  - destruct (Z.eq_dec (q + 1) n) as [Hn|Hn].
    + rewrite Hn, Z.mod_same by lia. replace (8 * q + r + j) with ((r + j - 8) + 1 * (8 * n)) by lia.
      rewrite Z.mod_add, Z.mod_small; lia.
    + rewrite (Z.mod_small (q + 1)), Z.mod_small; lia.
Qed.

Lemma msb_bit_split l q r : 0 ≤ r < 8 → msb_bit l (8 * q + r) = Z.testbit (at_ l q) (7 - r).
Proof.
  intros Hr. unfold msb_bit. rewrite Z.add_comm, Z.mul_comm, Z.div_add, Z.mod_add, Z.div_small, Z.mod_small by lia.
  done.
Qed.

Lemma extracted_byte_bits base offset i j :
  bytes_ok base = true → 0 < len base → 0 ≤ offset → 0 ≤ j < 8 →
  Z.testbit (extracted_byte base offset i) (7 - j) = msb_bit base ((offset + Z.of_nat i * 8 + j) mod (8 * len base)).
Proof.
  intros Hb Hn Ho Hj. unfold extracted_byte. set (n := len base) in *. replace (n * 8) with (8 * n) by lia.
  set (bit := (offset + Z.of_nat i * 8) mod (8 * n)).
  assert (0 ≤ bit < 8 * n) as Hbit by (apply Z.mod_pos_bound; lia).
  set (q := bit / 8). set (r := bit mod 8).
  assert (bit = 8 * q + r) as E by (apply Z.div_mod; lia).
  assert (0 ≤ r < 8) as Hr by (apply Z.mod_pos_bound; lia).
  assert (0 ≤ q < n) as Hq by lia.
  assert ((offset + Z.of_nat i * 8 + j) mod (8 * n) = (8 * q + r + j) mod (8 * n)) as ->.
  { rewrite <-E. unfold bit. by rewrite Zplus_mod_idemp_l. }
  rewrite ring_position by done.
  destruct (r =? 0) eqn:Er.
  { test_true (r + j <? 8). rewrite msb_bit_split by lia. f_equal. lia. }
  rewrite Z.lor_spec, testbit_as_u8, Z.shiftl_spec, Z.shiftr_spec by lia.
  destruct (r + j <? 8) eqn:Ej.
  - rewrite msb_bit_split by lia. rewrite (testbit_byte (at_ base ((q + 1) mod n))) by (try apply at_byte; done || lia).
    rewrite orb_false_r. f_equal. lia.
  - rewrite msb_bit_split by lia. rewrite Z.testbit_neg_r by lia. cbn [orb]. f_equal. lia.
Qed.

Lemma len_extract_bits base offset length : 0 ≤ length → len (extract_bits base offset length) = length.
Proof. intros Hl. unfold extract_bits, len. rewrite length_map, length_seq. lia. Qed.

Lemma at_extract_bits base offset length i :
  0 ≤ i < length → at_ (extract_bits base offset length) i = extracted_byte base offset (Z.to_nat i).
Proof.
  intros Hi. unfold at_, extract_bits.
  rewrite (nth_indep _ 0 (extracted_byte base offset 0%nat)) by (rewrite length_map, length_seq; lia).
  rewrite (map_nth (extracted_byte base offset)), seq_nth by lia. done.
Qed.

(** The bits of an extraction are the bits of the base from the offset on, and
    from the start again after the last. *)
Lemma extract_bits_spec base offset length j :
  bytes_ok base = true → 0 < len base → 0 ≤ offset → 0 ≤ j < 8 * length →
  msb_bit (extract_bits base offset length) j = msb_bit base ((offset + j) mod (8 * len base)).
Proof.
  intros Hb Hn Ho Hj. pose proof (Z.div_mod j 8). pose proof (Z.mod_pos_bound j 8).
  assert (0 ≤ j / 8 < length) as Hi by lia.
  unfold msb_bit at 1. rewrite at_extract_bits by done. rewrite extracted_byte_bits by lia || done.
  f_equal. f_equal. rewrite Z2Nat.id by lia. lia.
Qed.

(** ** Parity *)

Lemma parity_same b : generated_parity b = derived_parity b.
Proof.
  unfold generated_parity, derived_parity. f_equal. set (n := count_ones _). unfold is_multiple_of. cbn [negb Z.eqb Pos.eqb andb].
  change 1 with (Z.ones 1) at 1. rewrite Z.land_ones by lia. change (2 ^ 1) with 2.
  pose proof (Z.mod_pos_bound n 2). assert (n mod 2 = 0 ∨ n mod 2 = 1) as [->| ->] by lia; done.
Qed.

(** Every byte of a Triple-DES key has odd parity, and keeps its seven key bits. *)
Lemma derived_parity_odd b :
  is_byte b = true → is_byte (derived_parity b) = true ∧ count_ones (derived_parity b) mod 2 = 1 ∧
                     Z.land (derived_parity b) 0xfe = Z.land b 0xfe.
Proof.
  intros Hb.
  pose proof (byte_forall (λ b, is_byte (derived_parity b) && (count_ones (derived_parity b) mod 2 =? 1)
                                && (Z.land (derived_parity b) 0xfe =? Z.land b 0xfe)) ) as Hf. cbv beta in Hf.
  unfold is_byte in Hb. specialize (Hf ltac:(vm_compute; reflexivity) b ltac:(lia)). bool_to_prop. done.
Qed.

(** The parity is that of the seven key bits, whatever the low bit was. *)
Lemma derived_parity_any b : count_ones (derived_parity b) mod 2 = 1 ∧ Z.land (derived_parity b) 0xfe = Z.land b 0xfe.
Proof.
  assert (Z.land b 0xfe = Z.land (b mod 2 ^ 8) 0xfe) as E by (rewrite <-Z.land_ones, <-Z.land_assoc by lia; done).
  assert (derived_parity b = derived_parity (b mod 2 ^ 8)) as -> by (unfold derived_parity; by rewrite E).
  pose proof (Z.mod_pos_bound b (2 ^ 8)).
  destruct (derived_parity_odd (b mod 2 ^ 8)) as (_ & Hodd & Hbits); [unfold is_byte; lia|].
  split; [done|]. by rewrite Hbits.
Qed.
