(* ===== verification/ObjectApi.v ===== *)
(** * ObjectApi: reading, changing, copying, creating and destroying objects

    Models the entry points of [src/src/api/object.rs] on one session:
    [C_GetAttributeValue], [C_SetAttributeValue], [C_CopyObject],
    [C_CreateObject], [C_DestroyObject] and [C_GetObjectSize]. What only a
    backend does (deleting a key on a card, moving it to another slot, storing an
    encrypted software key) is the class [ObjectBackend]. *)
From coqutil Require Import Datatypes.RecordSetters.
From S2P Require Import Prelude Errors LoginSelectors Storage Mechanisms AttributeTypes KeyMetadata YubiHsm SlotState SessionApi CryptApi Digests CipherModes Ciphers SignatureModes OathOtp HsmCapabilities HsmCommands PivTables Attributes Templates ObjectImport MechanismTables KeyMechanisms.
Import DoubleBraceUpdate.

(** ** The backend *)

(** The [Slot] methods the object API calls. [read_value] and [write_value] are
    the cells in which the values of YubiHSM objects are kept. *)
Class ObjectBackend (B : Type) : Type := {
  slot_label : B → list Z;
  slot_serial : B → list Z;
  native_keys : B → NativeKeys;
  token_objects_copyable : B → bool;
  token_mutations_require_login : B → bool;
  stores_software_token_keys : B → bool;
  supports_software_keys : B → bool;
  read_value : Z → B → option (list Z);
  write_value : Z → option (list Z) → B → B;
  yubihsm_read_object : Z → Z → SM B Error (list Z);
  store_software_private_object : Z → TokenObject → SM B Error TokenObject;
  destroy_software_private_object : list Z → SM B Error unit;
  oath_delete : list Z → SM B Error unit;
  yubihsm_destroy_public_projection : Z → list Z → SM B Error unit;
  yubihsm_destroy_native_object : Z → list Z → SM B Error (option (list Z));
  yubihsm_set_attributes : Z → list Z → option (list Z) → option (list Z) → option TokenObject → SM B Error unit;
  fido_delete_preview_credential : PreviewSignRegistration → SM B Error unit;
  piv_delete_data : Z → SM B Error unit;
  piv_delete_key : Z → SM B Error unit;
  piv_delete_certificate : Z → SM B Error unit;
  piv_move_key : Z → Z → SM B Error unit;
  openpgp_set_touch_policy : Z → Z → SM B Error unit;
  fill_instance : SM B unit (list Z);
}.

(** The [Slot] methods that also change the slot's state: a native import, and
    the stores for token objects. *)
Class ObjectStores (B P : Type) : Type := {
  slot_create_object : Z → list CK_ATTRIBUTE → SM (SlotContext B P) Error (option Z);
  store_token_key : Z → TokenObject → SM (SlotContext B P) Error Z;
  store_data : Z → TokenObject → SM (SlotContext B P) Error Z;
}.

(** ** Writing to the caller *)

Definition set_len (n : Z) (a : CK_ATTRIBUTE) : CK_ATTRIBUTE := mkAttribute (attr_type a) (pValue a) n.

(** [copy_from_slice] to the start of the buffer. *)
Definition overwrite (value : list Z) (m : AttributeMemory) : AttributeMemory :=
  mkAttributeMemory (value ++ zdrop (len value) (mem_bytes m)) (mem_items m).

(** The answer is an error code to combine, or none, and the attribute as it is
    left. *)
Definition write_attribute_value (a : CK_ATTRIBUTE) (value : list Z) : option Z * CK_ATTRIBUTE :=
  let required := len value in
  match pValue a with
  | None => (None, set_len required a)
  | Some m =>
      if ulValueLen a <? required then (Some CKR_BUFFER_TOO_SMALL, set_len required a)
      else (None, mkAttribute (attr_type a) (Some (overwrite value m)) required)
  end.

(** [_from_raw_parts_mut] fails only for a length no Rust slice has. *)
Definition write_policy_value (a : CK_ATTRIBUTE) (value : list Z) : option Z * CK_ATTRIBUTE :=
  let required := len value in
  match pValue a with
  | None => (None, set_len required a)
  | Some m =>
      if ulValueLen a <? required then (Some CKR_BUFFER_TOO_SMALL, set_len required a)
      else match from_raw_parts (Some (mem_bytes m)) required with
           | Ok _ => (None, mkAttribute (attr_type a) (Some (overwrite value m)) required)
           | Err e => (Some (to_ck_rv e), a)
           | Panic => (Some CKR_FUNCTION_FAILED, a)
           end
  end.

Definition combine_attribute_rv (current next : Z) : Z :=
  if current =? CKR_ARGUMENTS_BAD then current
  else if next =? CKR_ARGUMENTS_BAD then next
  else if current =? CKR_ATTRIBUTE_SENSITIVE then current
  else if next =? CKR_ATTRIBUTE_SENSITIVE then next
  else if current =? CKR_ATTRIBUTE_TYPE_INVALID then current
  else if next =? CKR_ATTRIBUTE_TYPE_INVALID then next
  else if current =? CKR_ATTRIBUTE_READ_ONLY then current
  else if next =? CKR_ATTRIBUTE_READ_ONLY then next
  else if current =? CKR_BUFFER_TOO_SMALL then current
  else next.
Definition combine_opt (current : Z) (next : option Z) : Z :=
  match next with Some e => combine_attribute_rv current e | None => current end.

(** One entry of a policy template into its place in the caller's array;
    [nested] writes the template the entry may hold. A place too small is marked
    unavailable. *)
Definition write_policy_entry (nested : option Z * CK_ATTRIBUTE) (v : KeyAttributeValue) (place : CK_ATTRIBUTE)
    : outcome Z (option Z * CK_ATTRIBUTE) :=
  let mark (w : option Z * CK_ATTRIBUTE) :=
    (w.1, if bool_decide (w.1 = Some CKR_BUFFER_TOO_SMALL) then set_len CK_UNAVAILABLE_INFORMATION w.2 else w.2) in
  match v with
  | ValueTemplate _ => Ok (mark nested)
  | _ => omap_ok (λ value, mark (write_policy_value place value)) (key_attribute_native_value v)
  end.

(** [write_policy_template], by recursion on the template: the code combines the
    errors of the places it filled. *)
Fixpoint write_policy_value_or_template (v : KeyAttributeValue) (a : CK_ATTRIBUTE) : option Z * CK_ATTRIBUTE :=
  match v with
  | ValueTemplate template =>
      let count := len template in
      let required := count * SIZE_OF_ATTRIBUTE in
      match pValue a with
      | None => (None, set_len required a)
      | Some m =>
          if ulValueLen a <? required then (Some CKR_BUFFER_TOO_SMALL, set_len required a)
          else
            let fill :=
              fix fill (l : KeyAttributes) (places : list CK_ATTRIBUTE) (rv : Z) {struct l}
                  : outcome Z Z * list CK_ATTRIBUTE :=
                match l, places with
                | (t, v) :: l, place :: places =>
                    let place := mkAttribute t (pValue place) (ulValueLen place) in
                    match write_policy_entry (write_policy_value_or_template v place) v place with
                    | Ok (e, place) =>
                        let '(r, places) := fill l places (combine_opt rv e) in
                        (r, place :: places)
                    | Err e => (Err e, place :: places)
                    | Panic => (Panic, place :: places)
                    end
                | _, _ => (Ok rv, places)
                end in
            match fill template (mem_items m) CKR_OK with
            | (Ok rv, places) =>
                ((if rv =? CKR_OK then None else Some rv),
                 mkAttribute (attr_type a) (Some (mkAttributeMemory (mem_bytes m) places)) required)
            | (Err e, places) =>
                (Some e, mkAttribute (attr_type a) (Some (mkAttributeMemory (mem_bytes m) places)) (ulValueLen a))
            | (Panic, places) =>
                (Some CKR_FUNCTION_FAILED,
                 mkAttribute (attr_type a) (Some (mkAttributeMemory (mem_bytes m) places)) (ulValueLen a))
            end
      end
  | _ => (None, a)
  end.
Definition write_policy_template (a : CK_ATTRIBUTE) (template : KeyAttributes) : option Z * CK_ATTRIBUTE :=
  write_policy_value_or_template (ValueTemplate template) a.

(** ** Reading *)

Section object_api.
Context {B P : Type} `{Slot B} `{StorageProvider P} `{Sha3, MiniCbor} `{BackedObjects}
  `{Environment B P} `{CryptBackend B} `{RsaCore B, SignatureCore B, KeyCore, KeyImport, Certificates, PreviewSignRecords, HashCore}
  `{LazyCells B, ObjectBackend B, ObjectStores B P}.
Abbreviation Ctx := (SlotContext B P).
Abbreviation M := (SM Ctx Error).

Definition object_uri (b : B) (o : TokenObject) : list Z :=
  object_uri_from_prefix (slot_uri_prefix (slot_label b) (slot_serial b)) (class o) (o_label o) (o_id o).

Definition allowed_key_mechanisms (b : B) (o : TokenObject) : list Z :=
  allowed (mechanisms b) (key_mechanism_operations (native_keys b)) o.

(** The value of a YubiHSM object, read once and kept in its cell. *)
Definition yubihsm_object_value (k id object_type cell : Z) : M (list Z) :=
  let! kept := asks (read_value cell) in
  let! _ := match kept with
            | Some _ => sm_ret tt
            | None =>
                let! _ := get_session k in
                let! payload := on_slot (yubihsm_read_object id object_type) in
                modify_slot (write_value cell (Some payload))
            end in
  let! kept := asks (read_value cell) in
  sm_lift (ok_or #CKR_DEVICE_ERROR kept).

(** [object.attribute_value(t)], which may fill a cell of the backend. *)
Definition plain_attribute_value (o : TokenObject) (t : Z) : M (option (list Z)) := λ x,
  let '(value, b) := attribute_value o t (slot x) in
  (Ok value, mkContext b (state x) (handles x)).

Definition object_attribute_value (k handle : Z) (o : TokenObject) (t : Z) : M (option (list Z)) :=
  if t =? CKA_PKCS11RS_URI then let! b := asks id in sm_ret (Some (object_uri b o))
  else if (t =? CKA_ALLOWED_MECHANISMS) && is_key_object o then
    let! allowed := asks (λ b, allowed_key_mechanisms b o) in
    sm_ret (Some (concat (map (ne_bytes 8) allowed)))
  else if attribute_is_sensitive o t then sm_ret None
  else
    let! copyable := asks token_objects_copyable in
    if (t =? CKA_COPYABLE) && negb copyable && token o then sm_ret (Some (bool_attribute false))
    else
      let! native := gets (is_native_token_object_handle handle) in
      let native_public :=
        (class o =? CKO_PUBLIC_KEY) && native && match material o with Public _ => true | _ => false end
        && one_of [CKA_MODIFIABLE; CKA_COPYABLE; CKA_DESTROYABLE] t in
      match material o with
      | YubiHsm id object_type algorithm _ info =>
          if (object_type =? YUBIHSM_OPAQUE) && (algorithm =? YUBIHSM_ALGO_OPAQUE_X509_CERTIFICATE)
             && is_certificate_attribute t then
            let! payload := yubihsm_object_value k id YUBIHSM_OPAQUE (value_cell info) in
            sm_ret (piv_certificate_attribute payload t)
          else if (t =? CKA_VALUE) && one_of [YUBIHSM_OPAQUE; YUBIHSM_TEMPLATE] object_type then
            let! value := yubihsm_object_value k id object_type (value_cell info) in
            sm_ret (Some value)
          else plain_attribute_value o t
      | YubiHsmSessionObject handle length =>
          if t =? CKA_VALUE then
            let! value := on_session k (λ session, yubihsm_command session (read_session_object handle)) in
            let! _ := guard_err (negb (len value =? length)) #CKR_DEVICE_ERROR in
            sm_ret (Some value)
          else plain_attribute_value o t
      | _ =>
          if native_public then sm_ret (Some (bool_attribute false)) else plain_attribute_value o t
      end.

(** One attribute of the caller's template: the code to combine, and the
    attribute as it is left. *)
Definition read_one_attribute (k handle : Z) (o : TokenObject) (a : CK_ATTRIBUTE) : M (option Z * CK_ATTRIBUTE) :=
  let t := attr_type a in
  let unavailable e := sm_ret (Some e, set_len CK_UNAVAILABLE_INFORMATION a) in
  if negb (supports_attribute o t) then unavailable CKR_ATTRIBUTE_TYPE_INVALID
  else if attribute_is_sensitive o t then unavailable CKR_ATTRIBUTE_SENSITIVE
  else if one_of [CKA_WRAP_TEMPLATE; CKA_UNWRAP_TEMPLATE; CKA_DERIVE_TEMPLATE] t then
    sm_ret (write_policy_template a (default [] (policy_template t o)))
  else
    let! value := object_attribute_value k handle o t in
    match value with
    | Some value => sm_ret (write_attribute_value a value)
    | None => unavailable CKR_ATTRIBUTE_TYPE_INVALID
    end.

(** The loop: an error of the backend ends it, with the rest of the template
    untouched. *)
Fixpoint read_attributes (k handle : Z) (o : TokenObject) (rv : Z) (templ : list CK_ATTRIBUTE) (x : Ctx)
    : outcome Error Z * list CK_ATTRIBUTE * Ctx :=
  match templ with
  | [] => (Ok rv, [], x)
  | a :: rest =>
      match read_one_attribute k handle o a x with
      | (Ok (e, a'), x') =>
          let '(r, rest', x'') := read_attributes k handle o (combine_opt rv e) rest x' in
          (r, a' :: rest', x'')
      | (Err e, x') => (Err e, templ, x')
      | (Panic, x') => (Panic, templ, x')
      end
  end.

(** The visible object of a handle. *)
Definition visible_object (handle : Z) (logged_in : bool) : M TokenObject :=
  let! found := resolve_object handle in
  sm_lift (ok_or #CKR_OBJECT_HANDLE_INVALID
             (o ← found; if is_visible_to logged_in o then Some o else None)).

(** What [C_GetAttributeValue] returns, and the template as it is left. *)
Definition get_attribute_value_in (k handle : Z) (templ : list CK_ATTRIBUTE) (x : Ctx)
    : outcome Error unit * list CK_ATTRIBUTE * Ctx :=
  match (let! '(_, _, logged_in) := session_details k in visible_object handle logged_in) x with
  | (Ok o, x') =>
      let '(r, templ', x'') := read_attributes k handle o CKR_OK templ x' in
      (let? rv := r in if rv =? CKR_OK then Ok tt else Err (Generic rv), templ', x'')
  | (Err e, x') => (Err e, templ, x')
  | (Panic, x') => (Panic, templ, x')
  end.

Definition get_object_size_in (k handle : Z) : M Z :=
  let! '(_, _, logged_in) := session_details k in
  let! o := visible_object handle logged_in in
  λ x, let '(n, b) := size o (slot x) in (Ok n, mkContext b (state x) (handles x)).

(** ** Publishing a new object *)

(** The [KeyMaterial] variants that content-addressed storage keeps. *)
Definition supports_backed_object (o : TokenObject) : bool :=
  negb (private o) && match material o with Data _ _ _ _ | Certificate _ _ => true | _ => false end
  || (class o =? CKO_PUBLIC_KEY) && match material o with Public _ => true | _ => false end
  || (class o =? CKO_PRIVATE_KEY)
     && match material o with
        | PreviewSignRegistered _ owns_credential => negb owns_credential
        | PreviewSignDerived _ _ _ => true
        | _ => false
        end.

(** The handle of the first object that [f] accepts. *)
Definition find_handle (f : TokenObject → bool) : M (option Z) :=
  let! objs := resolved_objects in
  sm_ret (fst <$> List.find (λ entry, f entry.2) objs).

Definition persist_software_private_object (id : Z) (o : TokenObject) : M Z :=
  let! _ := get_slot id in
  let! stored := on_slot (store_software_private_object id o) in
  let stored_id := unique_id stored in
  let undo : M unit := let! _ := get_slot id in sm_ignore (on_slot (destroy_software_private_object stored_id)) in
  sm_match (refresh_slot_token_objects id)
    (λ _,
       let! handle := find_handle (λ o, bool_decide (unique_id o = stored_id)) in
       match handle with
       | Some handle => sm_ret handle
       | None =>
           let! _ := undo in
           let! _ := sm_ignore (refresh_slot_token_objects id) in
           sm_err #CKR_DEVICE_ERROR
       end)
    (λ e, let! _ := undo in sm_err e).

(** The stores that most slots use. *)
Definition store_common_data (k : Z) (o : TokenObject) : M Z :=
  let! '(id, _, _) := session_details k in
  if private o then persist_software_private_object id o else store_backed_object k o.
Definition store_common_token_key (k : Z) (o : TokenObject) : M Z :=
  let! '(id, _, _) := session_details k in
  if supports_backed_object o then store_backed_object k o else persist_software_private_object id o.

(** A data object or certificate gets a fresh instance number. *)
Definition with_instance (instance : list Z) (o : TokenObject) : option TokenObject :=
  match material o with
  | Data _ application object_id value => Some (o {{ material := Data instance application object_id value }})
  | Certificate _ value => Some (o {{ material := Certificate instance value }})
  | _ => None
  end.
Definition publish_data_object (k id : Z) (o : TokenObject) : M Z :=
  let! _ := guard_err (negb (is_some (with_instance [] o))) #CKR_TEMPLATE_INCONSISTENT in
  let! instance := on_slot (sm_map_err (λ _, #CKR_DEVICE_ERROR) fill_instance) in
  let o := default o (with_instance instance o) in
  if negb (token o) then insert_object (set_creator k id o) else store_data k o.

Definition publish_software_secret_object (k id : Z) (o : TokenObject) : M Z :=
  let! _ := guard_err (match material o with SoftwareSecret _ => false | _ => true end) #CKR_TEMPLATE_INCONSISTENT in
  if token o then
    let! _ := guard_err (negb (private o)) #CKR_TEMPLATE_INCONSISTENT in
    persist_software_private_object id o
  else insert_object (set_creator k id o).

Definition is_software_key (o : TokenObject) : bool :=
  match material o with SoftwareSecret _ | SoftwarePrivate _ => true | _ => false end.

Definition create_object_in (k : Z) (templ : list CK_ATTRIBUTE) : M Z :=
  let! '(id, flags, logged_in) := session_details k in
  let! class := match template_attribute templ CKA_CLASS with
                | None => sm_ret None
                | Some a => sm_lift (omap_ok Some (map_err Generic (read_ulong_template_attribute a)))
                end in
  let! native := slot_create_object k templ in
  match native with
  | Some handle => sm_ret handle
  | None =>
      if bool_decide (class = Some CKO_DATA) || bool_decide (class = Some CKO_CERTIFICATE) then
        let! o := sm_lift (if bool_decide (class = Some CKO_DATA) then parse_data_object_template templ
                           else parse_certificate_object_template templ) in
        let! _ := sm_lift (validate_new_object_access o flags logged_in) in
        publish_data_object k id o
      else
        let software_secret := bool_decide (class = Some CKO_SECRET_KEY) in
        let! o := sm_lift (parse_create_object_template_with_policy templ software_secret) in
        let! _ := if is_software_key o && negb (token o) then
                    let! _ := get_slot id in
                    let! supported := asks supports_software_keys in
                    guard_err (negb supported) #CKR_FUNCTION_NOT_SUPPORTED
                  else sm_ret tt in
        let! _ := sm_lift (validate_new_object_access o flags logged_in) in
        let! _ := guard_err (software_secret && token o && negb (private o)) #CKR_TEMPLATE_INCONSISTENT in
        if token o then store_token_key k o
        else if supports_backed_object o then store_backed_object k o
        else if is_software_secret o then publish_software_secret_object k id o
        else insert_object (set_creator k id o)
  end.

(** ** Copying *)

(** The loop over a template of changes: every attribute is tried, and the code
    to report is combined. *)
Fixpoint apply_changes (change : CK_ATTRIBUTE → TokenObject → outcome Z TokenObject) (templ : list CK_ATTRIBUTE)
    (rv : Z) (o : TokenObject) : outcome Error (Z * TokenObject) :=
  match templ with
  | [] => Ok (rv, o)
  | a :: rest =>
      match change a o with
      | Ok o' => apply_changes change rest rv o'
      | Err e => apply_changes change rest (combine_attribute_rv rv e) o
      | Panic => Panic
      end
  end.
Definition changed_object (change : CK_ATTRIBUTE → TokenObject → outcome Z TokenObject) (templ : list CK_ATTRIBUTE)
    (o : TokenObject) : outcome Error TokenObject :=
  let? '(rv, o') := apply_changes change templ CKR_OK o in
  if rv =? CKR_OK then Ok o' else Err (Generic rv).

Definition copy_object_in (k handle : Z) (templ : list CK_ATTRIBUTE) : M Z :=
  let! '(id, flags, logged_in) := session_details k in
  let! original := visible_object handle logged_in in
  let! copyable := object_attribute_value k handle original CKA_COPYABLE in
  let! _ := guard_err (negb (bool_decide (copyable = Some (bool_attribute true)))) #CKR_ACTION_PROHIBITED in
  let! o := sm_lift (changed_object set_copy_attribute_value templ original) in
  let! _ := guard_err (token o && match material o with SoftwarePrivate _ => true | _ => false end)
              #CKR_TEMPLATE_INCONSISTENT in
  let! _ := guard_err (token o && is_software_secret o && negb (private o)) #CKR_TEMPLATE_INCONSISTENT in
  let! _ := sm_lift (validate_new_object_access o flags logged_in) in
  let o := set_unique_id [] o in
  match material o with
  | Data _ _ _ _ | Certificate _ _ => publish_data_object k id o
  | SoftwareSecret _ => publish_software_secret_object k id o
  | _ =>
      let o := set_creator k id o in
      if supports_backed_object o then store_backed_object k o else insert_object o
  end.

(** ** Destroying *)

(** The kinds of object that no application destroys. *)
Definition indestructible (m : KeyMaterial) : bool :=
  match m with
  | Profile _ | IssuerSecurityDomainData _ _ _ | IssuerSecurityDomainCertificate _ | HsmAuthCredential _ _ _
  | OpenPgpPrivate _ _ _ _ | OpenPgpCertificate _ => true
  | _ => false
  end.

Definition require_so (id : Z) : M unit :=
  let! role := slot_login_role id in
  guard_err (negb (bool_decide (role = Some So))) #CKR_USER_NOT_LOGGED_IN.

(** Run a backend command and read the token's objects again. *)
Definition and_refresh (id : Z) (c : SM B Error unit) : M unit :=
  let! _ := get_slot id in
  let! _ := on_slot c in
  refresh_slot_token_objects id.

Definition destroy_yubihsm (id : Z) (o : TokenObject) (hsm_id object_type : Z) : M unit :=
  let! objs := resolved_objects in
  let public_handles :=
    omap (λ '(handle, candidate),
            match material candidate with
            | YubiHsm candidate_id candidate_type _ _ _ =>
                if bool_decide (obj_slot_id candidate = Some id) && (candidate_id =? hsm_id) && token candidate
                   && is_yubihsm_public_projection candidate
                   && (Z.ldiff candidate_type 0x80 =? Z.ldiff object_type 0x80)
                then Some handle else None
            | _ => None
            end) objs in
  let! _ := get_slot id in
  let! detached := on_slot (yubihsm_destroy_native_object id (unique_id o)) in
  let rebindings := match detached with
                    | Some new_id => map (λ handle, (handle, new_id)) public_handles
                    | None => []
                    end in
  refresh_slot_token_objects_with_rebindings id rebindings.

(** The cases after the backed objects, in their order. *)
Definition destroy_material (k id handle : Z) (o : TokenObject) : M unit :=
  let forget : M unit := modify_state (remove_object_handle handle) in
  let! software := asks stores_software_token_keys in
  let! native := gets (is_native_token_object_handle handle) in
  match material o with
  | PreviewSignRegistered registration true =>
      let! _ := get_slot id in
      let! _ := on_slot (fido_delete_preview_credential registration) in
      forget
  | _ =>
  if token o && software
     && match material o with
        | SoftwarePrivate _ | SoftwareSecret _ | Data _ _ _ _ | Certificate _ _ => true | _ => false
        end then
    and_refresh id (destroy_software_private_object (unique_id o))
  else if (class o =? CKO_PUBLIC_KEY) && native && match material o with Public _ => true | _ => false end then
    sm_err #CKR_ACTION_PROHIBITED
  else
  match material o with
  | PivPrivate slot _ _ _ => let! _ := require_so id in and_refresh id (piv_delete_key slot)
  | PivCertificate _ _ _ =>
      let! slot := sm_lift (ok_or #CKR_DEVICE_ERROR
                              (match o_id o with [cka] => from_cka_id cka | _ => None end)) in
      let! _ := require_so id in
      and_refresh id (piv_delete_certificate slot)
  | PivAttestation _ _ _ | YubiHsmAttestation _ _ _ => forget
  | PivData object_id _ => let! _ := require_so id in and_refresh id (piv_delete_data object_id)
  | YubiHsm hsm_id object_type _ _ _ => destroy_yubihsm id o hsm_id object_type
  | YubiHsmSessionObject device_handle _ =>
      let! _ := on_session k (λ session, delete_session_object session device_handle) in
      forget
  | _ => forget
  end
  end.

Definition destroy_object_in (k handle : Z) : M unit :=
  let! '(id, flags, logged_in) := session_details k in
  let! o := visible_object handle logged_in in
  let! _ := guard_err (token o && negb (has_flag flags CKF_RW_SESSION)) #CKR_SESSION_READ_ONLY in
  let! _ := guard_err (indestructible (material o)) #CKR_ACTION_PROHIBITED in
  let! mutations := asks token_mutations_require_login in
  let! _ := guard_err (token o && mutations && negb logged_in) #CKR_USER_NOT_LOGGED_IN in
  match material o with
  | OathCredential credential =>
      let! _ := on_slot (oath_delete (cred_name credential)) in
      let! _ := modify_state (remove_object_handle handle) in
      refresh_slot_token_objects id
  | _ =>
      if is_yubihsm_public_projection o then
        if token o then and_refresh id (yubihsm_destroy_public_projection id (unique_id o))
        else modify_state (remove_object_handle handle)
      else
        let! backed := destroy_backed_object handle o in
        if (backed : bool) then sm_ret tt else destroy_material k id handle o
  end.

(** ** Changing attributes *)

(** [openpgp_set_touch_policy], the one attribute an OpenPGP key lets change. *)
Definition set_openpgp_attribute (id key_ref : Z) (templ : list CK_ATTRIBUTE) : M unit :=
  let! a := sm_lift (match templ with [a] => Ok a | _ => Err #CKR_TEMPLATE_INCONSISTENT end) in
  let! _ := guard_err (negb (attr_type a =? CKA_YUBICO_TOUCH_POLICY)) #CKR_ATTRIBUTE_READ_ONLY in
  let! policy := sm_lift (map_err Generic (read_ulong_template_attribute a)) in
  let! _ := guard_err (negb (between 1 policy 5)) #CKR_ATTRIBUTE_VALUE_INVALID in
  and_refresh id (openpgp_set_touch_policy key_ref policy).

(** The identifier and the label asked for on a device object. *)
Definition device_attribute (a : CK_ATTRIBUTE) (s : option (list Z) * option (list Z))
    : outcome Error (option (list Z) * option (list Z)) :=
  if attr_type a =? CKA_ID then omap_ok (λ v, (Some v, s.2)) (map_err Generic (read_attribute_value a))
  else if attr_type a =? CKA_LABEL then omap_ok (λ v, (s.1, Some v)) (map_err Generic (read_text a))
  else Err #CKR_ATTRIBUTE_READ_ONLY.
Definition set_yubihsm_attributes (id : Z) (o : TokenObject) (templ : list CK_ATTRIBUTE) (logged_in : bool) : M unit :=
  match templ with
  | [] => sm_ret tt
  | _ =>
      let! '(new_id, label) := sm_lift (for_attributes device_attribute templ (None, None)) in
      let! _ := guard_err (negb logged_in) #CKR_USER_NOT_LOGGED_IN in
      let! _ := get_slot id in
      sm_match (on_slot (yubihsm_set_attributes id (unique_id o) new_id label None))
        (λ _, refresh_slot_token_objects id)
        (λ e, let! _ := sm_ignore (refresh_slot_token_objects id) in sm_err e)
  end.

(** [piv_key_object_handles]: the objects of a slot's key, with their class and
    whether they are on the token. *)
Definition piv_key_object_handles (id piv_slot : Z) : M (list (Z * Z * bool)) :=
  let! objs := resolved_objects in
  sm_ret (omap (λ '(handle, candidate),
    let here := bool_decide (obj_slot_id candidate = Some id) in
    let key_object := here && bool_decide (o_id candidate = [cka_id piv_slot])
                      && one_of [CKO_PUBLIC_KEY; CKO_PRIVATE_KEY] (class candidate) in
    let attestation := here && match material candidate with PivAttestation slot _ _ => slot =? piv_slot | _ => false end in
    if key_object || attestation then Some (handle, class candidate, token candidate) else None) objs).

(** Each handle of the moved key, and the identifier it is to name. *)
Fixpoint move_rebindings (objs : list TokenObject) (target : Z) (handles : list (Z * Z)) : outcome Error (list (Z * list Z)) :=
  match handles with
  | [] => Ok []
  | (handle, kind) :: rest =>
      let? o := ok_or #CKR_DEVICE_ERROR
                  (List.find (λ o, bool_decide (o_id o = [cka_id target]) && (class o =? kind) && token o) objs) in
      let? rest := move_rebindings objs target rest in
      Ok ((handle, unique_id o) :: rest)
  end.
Definition set_piv_attribute (id from : Z) (templ : list CK_ATTRIBUTE) : M unit :=
  let! _ := require_so id in
  let! a := sm_lift (match templ with [a] => Ok a | _ => Err #CKR_TEMPLATE_INCONSISTENT end) in
  let! _ := guard_err (negb (attr_type a =? CKA_ID)) #CKR_ATTRIBUTE_READ_ONLY in
  let! value := sm_lift (map_err Generic (read_attribute_value a)) in
  let! to := sm_lift (ok_or #CKR_ATTRIBUTE_VALUE_INVALID
                        (match value with [cka] => from_cka_id cka | _ => None end)) in
  let! _ := guard_err (to =? SLOT_ATTESTATION) #CKR_ATTRIBUTE_VALUE_INVALID in
  let! source := piv_key_object_handles id from in
  let! destination := piv_key_object_handles id to in
  let! _ := get_slot id in
  let! _ := on_slot (piv_move_key from to) in
  let session_handles := omap (λ '(handle, _, tok), if (tok : bool) then None else Some handle) (source ++ destination) in
  let! _ := modify_state (λ s, foldl (λ s handle, remove_object_handle handle s) s session_handles) in
  let! _ := get_slot id in
  let! objs := on_slot (token_objects id) in
  let! rebindings := sm_lift (move_rebindings objs to
                       (omap (λ '(handle, kind, tok), if (tok : bool) then Some (handle, kind) else None) source)) in
  reconcile_slot_token_objects_with_rebindings id objs rebindings.

(** A private data object of a software store is stored anew and the old one
    destroyed. *)
Definition replace_private_data (id handle : Z) (stored updated : TokenObject) : M unit :=
  let! _ := get_slot id in
  let! replacement := on_slot (store_software_private_object id updated) in
  let! _ := get_slot id in
  sm_match (on_slot (destroy_software_private_object (unique_id stored)))
    (λ _, refresh_slot_token_objects_with_rebindings id [(handle, unique_id replacement)])
    (λ e,
       let! _ := get_slot id in
       let! _ := sm_ignore (on_slot (destroy_software_private_object (unique_id replacement))) in
       sm_err e).

Definition store_changed_object (id handle : Z) (stored updated : TokenObject) : M unit :=
  let! replaced := replace_backed_object handle stored updated in
  if (replaced : bool) then sm_ret tt
  else
    let private_data := token stored && private stored
      && match material stored with Data _ _ _ _ | Certificate _ _ => true | _ => false end in
    let! software := if private_data then let! _ := get_slot id in asks stores_software_token_keys else sm_ret false in
    if (software : bool) then replace_private_data id handle stored updated
    else
      let! on_token := gets (λ s, bool_decide (is_Some (token_object_handles s !! handle))) in
      let! _ := guard_err on_token #CKR_ATTRIBUTE_READ_ONLY in
      modify_state (λ s, set_memory (<[handle := updated]> (memory_objects s)) s).

Definition set_attribute_value_in (k handle : Z) (templ : list CK_ATTRIBUTE) : M unit :=
  let! '(id, flags, logged_in) := session_details k in
  let! stored := visible_object handle logged_in in
  let! _ := guard_err (token stored && negb (has_flag flags CKF_RW_SESSION)) #CKR_SESSION_READ_ONLY in
  match material stored with
  | OpenPgpPrivate key_ref _ _ _ => set_openpgp_attribute id key_ref templ
  | YubiHsm _ _ _ _ _ =>
      if token stored then set_yubihsm_attributes id stored templ logged_in
      else
        let! updated := sm_lift (changed_object set_object_attribute templ stored) in
        store_changed_object id handle stored updated
  | PivPrivate from _ _ _ => set_piv_attribute id from templ
  | _ =>
      let! updated := sm_lift (changed_object set_object_attribute templ stored) in
      store_changed_object id handle stored updated
  end.

(** ** Entry points *)

Abbreviation MM := (SM (Module B P) Error).

Definition create_object (k : Z) (templ : option AttributeMemory) (count : Z) : MM Z :=
  let! templ := sm_lift (attribute_array templ count) in
  with_session_context_mut k (create_object_in k templ).
Definition copy_object (k handle : Z) (templ : option AttributeMemory) (count : Z) : MM Z :=
  let! templ := sm_lift (attribute_array templ count) in
  let! _ := sm_lift (validate_unique_template templ) in
  with_session_context_mut k (copy_object_in k handle templ).
Definition destroy_object (k handle : Z) : MM unit := with_session_context_mut k (destroy_object_in k handle).
Definition get_object_size (k handle : Z) : MM Z := with_session_context_mut k (get_object_size_in k handle).
Definition set_attribute_value (k handle : Z) (templ : option AttributeMemory) (count : Z) : MM unit :=
  let! templ := sm_lift (attribute_array templ count) in
  let! _ := sm_lift (validate_unique_template templ) in
  with_session_context_mut k (set_attribute_value_in k handle templ).
End object_api.

(** ** A concrete instance: a device whose objects live in the host's memory *)

#[export] Instance toy_object_backend : ObjectBackend ToyBackend := {|
  slot_label _ := [84];
  slot_serial _ := [49];
  native_keys _ := CommonKeys;
  token_objects_copyable _ := true;
  token_mutations_require_login _ := true;
  stores_software_token_keys _ := false;
  supports_software_keys _ := true;
  read_value _ _ := None;
  write_value _ _ b := b;
  yubihsm_read_object _ _ := sm_err #CKR_DEVICE_ERROR;
  store_software_private_object _ o := sm_ret o;
  destroy_software_private_object _ := sm_ret tt;
  oath_delete _ := sm_ret tt;
  yubihsm_destroy_public_projection _ _ := sm_ret tt;
  yubihsm_destroy_native_object _ _ := sm_ret None;
  yubihsm_set_attributes _ _ _ _ _ := sm_ret tt;
  fido_delete_preview_credential _ := sm_ret tt;
  piv_delete_data _ := sm_ret tt;
  piv_delete_key _ := sm_ret tt;
  piv_delete_certificate _ := sm_ret tt;
  piv_move_key _ _ := sm_ret tt;
  openpgp_set_touch_policy _ _ := sm_ret tt;
  fill_instance := sm_ret (replicate 16 0);
|}.
#[export] Instance toy_object_stores {P} : ObjectStores ToyBackend P := {|
  slot_create_object _ _ := sm_ret None;
  store_token_key _ _ := sm_err #CKR_FUNCTION_NOT_SUPPORTED;
  store_data _ _ := sm_err #CKR_FUNCTION_NOT_SUPPORTED;
|}.
