(* ===== verification/KeyApi.v ===== *)
(** * KeyApi: making keys

    Models the entry points of [src/src/api/key.rs] and [src/src/api/kem.rs] on one
    session: [C_GenerateKey], [C_GenerateKeyPair], [C_DeriveKey],
    [C_EncapsulateKey], [C_DecapsulateKey] and [C_GenerateRandom], with the
    functions that generate a key inside a YubiHSM, a PIV card or an OpenPGP card.
    What only a backend does is the classes [KeyBackend] and [KeyStores]; the
    operations on previewSign registrations are [PreviewSignKeys]. *)
From coqutil Require Import Datatypes.RecordSetters.
From S2P Require Import Prelude Errors LoginSelectors Storage Mechanisms AttributeTypes KeyMetadata YubiHsm SlotState SessionApi CryptApi Digests CipherModes Ciphers SignatureModes OathOtp HsmCapabilities HsmCommands PivTables Signatures Attributes MechanismTables KeyMechanisms Templates ObjectImport KeyTemplates SecretDerivation ObjectApi.
Import DoubleBraceUpdate.

(** ** Interfaces *)

(** The [Slot] and [Session] methods that the key API calls.
    [platform_ecdh] is [EcdhCredential::ecdh] of a platform credential with a
    P-256 point, its error mapped by [platform_error]. *)
Class KeyBackend (B : Type) : Type := {
  supports_native_session_objects : BackendSession → B → bool;
  slot_software_scope : B → SoftwareMechanismScope;
  platform_ecdh : Z → list Z → SM B Error (list Z);
  openpgp_derive : BackendSession → Z → OpenPgpAlgorithm → list Z → Z → SM B Error (list Z);
  piv_decapsulate : BackendSession → Z → PivAlgorithm → list Z → Z → SM B Error (list Z);
  piv_generate_key_pair : Z → PivAlgorithm → Z → Z → SM B Error unit;
  openpgp_generate_key_pair : Z → OpenPgpAlgorithm → SM B Error unit;
  fido_preview_sign_registration : SM B Error PreviewSignRegistration;
  yubihsm_persist_public_projection : Z → list Z → TokenObject → SM B Error unit;
  ensure_backend_read_session : SM B Error unit;
  generate_random : BackendSession → Z → SM B Error (list Z);
}.

(** The [Slot] methods that also change the slot's state. *)
Class KeyStores (B P : Type) : Type := {
  slot_generate_key : Z → CK_MECHANISM → list CK_ATTRIBUTE → SM (SlotContext B P) Error Z;
  slot_generate_key_pair : Z → CK_MECHANISM → list CK_ATTRIBUTE → list CK_ATTRIBUTE →
    SM (SlotContext B P) Error (Z * Z);
  import_public_wrap_key : Z → TokenObject → SM (SlotContext B P) Error Z;
}.

(** A registration's key, the COSE encoding of public keys and the ARKG
    derivation; a derived key is its verification key and the rest as one value,
    and its record is the arguments and the rest of a [PreviewSignDerived]. *)
Class PreviewSignKeys (B : Type) : Type := {
  credential_public_key_cose : PreviewSignRegistration → list Z;
  arkg_p256_public_seed : PreviewSignRegistration → option (list Z);
  project_cose_public_key : list Z → option (Z * PublicKeyMaterial);
  derive_arkg_p256 : PreviewSignRegistration → list Z → SM B unit (list Z * list Z);
  into_record : list Z * list Z → ContentReference → option (list Z) → option (option (list Z) * list Z);
}.

(** ** Keys in a device's session *)

Definition native_session_object_handle (o : TokenObject) : option Z :=
  match material o with YubiHsmSessionObject handle _ => Some handle | _ => None end.

Definition native_session_object_source (o : TokenObject) : option SessionObjectSource :=
  match material o with
  | YubiHsmSessionObject handle _ => Some (Volatile handle)
  | YubiHsm id object_type _ _ _ =>
      if object_type =? YUBIHSM_ASYMMETRIC_KEY then Some (PersistentAsymmetric id)
      else if object_type =? YUBIHSM_SYMMETRIC_KEY then Some (PersistentSymmetric id)
      else None
  | _ => None
  end.

Definition native_session_object_flags (o : TokenObject) : Z :=
  Z.lor (if negb (o_sensitive o) && o_extractable o then SESSION_OBJECT_READABLE else 0)
    (Z.lor (if derive (attributes o) then SESSION_OBJECT_DERIVE else 0)
       (if verify o then SESSION_OBJECT_VERIFY else 0)).

Definition native_session_object_supports_requested_operations (o : TokenObject) : bool :=
  negb (encrypt o) && negb (decrypt o) && negb (sign o) && negb (wrap (attributes o)) && negb (unwrap (attributes o))
  && negb (encapsulate (attributes o)) && negb (decapsulate (attributes o))
  && (negb (verify o) || (key_type o =? CKK_AES)).

Definition native_session_object_kind (o : TokenObject) : outcome Error SessionObjectKind :=
  if key_type o =? CKK_GENERIC_SECRET then Ok KindGenericSecret
  else if key_type o =? CKK_AES then Ok KindAes
  else Err #CKR_KEY_TYPE_INCONSISTENT.

Definition parse_native_session_handle (response : list Z) : outcome Error Z :=
  let? _ := bail (negb (len response =? 8)) #CKR_DEVICE_ERROR in
  Ok (from_bytes_be response).

(** ** Registrations *)

Definition preview_sign_object_template (templ : list CK_ATTRIBUTE) (derived : bool) : outcome Error TokenObject :=
  let expected_type := if derived then CKK_EC else CKK_PKCS11RS_PREVIEW_SIGN_REGISTRATION in
  let? _ := validate_unique_template templ in
  let? t := for_attributes
              (attribute_except [CKA_PKCS11RS_PREVIEW_SIGN_REGISTRATION; CKA_PKCS11RS_PREVIEW_SIGN_DERIVED_KEY]) templ
              (TokenObjectTemplate_default
                 {{ t_class := Some CKO_PRIVATE_KEY; t_key_type := Some expected_type; t_token := false; t_private := true;
                    t_sensitive := Some true; t_extractable := Some false }}) in
  let? imported := map_err Generic (into_object t) in
  let? _ := bail (negb (class imported =? CKO_PRIVATE_KEY) || negb (key_type imported =? expected_type))
              #CKR_TEMPLATE_INCONSISTENT in
  Ok (imported {{ sign := derived }} {{ attributes -> derive := negb derived }}).

Section key_api.
Context {B P : Type} `{Slot B} `{StorageProvider P} `{Sha3, MiniCbor} `{BackedObjects}
  `{Environment B P} `{CryptBackend B} `{RsaCore B, SignatureCore B, KeyCore, KeyImport, Certificates, PreviewSignRecords, HashCore, SymmetricCore}
  `{LazyCells B, ObjectBackend B, ObjectStores B P}
  `{KeyDerivationCore, KeyGenerator B, HsmKeyEncodings, KeyBackend B, KeyStores B P, PreviewSignKeys B}.
Abbreviation Ctx := (SlotContext B P).
Abbreviation M := (SM Ctx Error).

(** A registration without a derived key: [preview_sign_object(.., None)]. *)
Definition preview_sign_object (templ : list CK_ATTRIBUTE) (registration : PreviewSignRegistration)
    : outcome Error TokenObject :=
  let? _ := ok_or #CKR_ATTRIBUTE_VALUE_INVALID (arkg_p256_public_seed registration) in
  let? imported := preview_sign_object_template templ false in
  Ok (imported {{ attributes -> local := false }} {{ material := PreviewSignRegistered registration false }}).

Definition native_session_objects_enabled (k : Z) : M bool :=
  let! session := get_session k in
  asks (supports_native_session_objects session).

(** [let _ = ctx._get_session(session)?.1.yubihsm_command(..delete..)] *)
Definition discard_session_object (k handle : Z) : M unit :=
  let! session := get_session k in
  sm_ignore (on_slot (delete_session_object session handle)).

(** A key that the device made in its session becomes an object: a reference to
    it, or its value when the object is for uses the device has not. *)
Definition session_secret_material (k : Z) (o : TokenObject) (handle length : Z) : M KeyMaterial :=
  if negb (native_session_object_supports_requested_operations o) then
    if o_sensitive o || negb (o_extractable o) then
      let! _ := discard_session_object k handle in
      sm_err #CKR_KEY_FUNCTION_NOT_PERMITTED
    else
      let! session := get_session k in
      let! value := sm_match (on_slot (yubihsm_command session (read_session_object handle)))
                      (λ value, let! _ := discard_session_object k handle in sm_ret value)
                      (λ e, let! _ := discard_session_object k handle in sm_err e) in
      let! _ := guard_err (negb (len value =? length)) #CKR_DEVICE_ERROR in
      sm_ret (SoftwareSecret value)
  else sm_ret (YubiHsmSessionObject handle length).
Definition publish_native_session_secret (k id : Z) (o : TokenObject) (handle length : Z) : M Z :=
  if token o then
    let! _ := discard_session_object k handle in
    sm_err #CKR_TEMPLATE_INCONSISTENT
  else
    let! m := session_secret_material k o handle length in
    sm_match (insert_object (set_creator k id (o {{ material := m }})))
      sm_ret
      (λ e, let! _ := discard_session_object k handle in sm_err e).

(** The key a handle names, when it is visible. *)
Definition visible_key (handle : Z) (logged_in : bool) : M TokenObject :=
  let! found := resolve_object handle in
  sm_lift (ok_or #CKR_KEY_HANDLE_INVALID
             (o ← found; if is_visible_to logged_in o then Some o else None)).

(** ** Generating *)

Definition generate_key_in (k : Z) (m : CK_MECHANISM) (templ : list CK_ATTRIBUTE) : M Z :=
  let! '(id, flags, logged_in) := session_details k in
  let! _ := require_slot_mechanism id (mechanism m) CKF_GENERATE in
  let! token := sm_lift (bool_attribute_or_false templ CKA_TOKEN) in
  if (token : bool) then slot_generate_key k m templ
  else
    let! key := on_slot (generate_key_object m templ) in
    let! _ := sm_lift (validate_new_object_access key flags logged_in) in
    publish_software_secret_object k id key.

Definition P256_PARAMS : list Z := [6; 8; 42; 134; 72; 206; 61; 3; 1; 7].

(** The private object goes into the slot's memory and the public one into its
    storage; the first is taken back when the second fails. *)
Definition publish_session_pair (k id : Z) (public_object private_object : TokenObject) (undo : M unit) : M (Z * Z) :=
  let! private_handle := sm_match (insert_object (set_creator k id private_object)) sm_ret
                           (λ e, let! _ := undo in sm_err e) in
  sm_match (store_backed_object k public_object)
    (λ public_handle, sm_ret (public_handle, private_handle))
    (λ e,
       let! _ := modify_state (remove_object_handle private_handle) in
       let! _ := undo in
       sm_err e).

(** A P-256 pair whose private half lives in the device's session, when the
    private key is for derivation; [None] when it is not. *)
Definition generate_native_session_pair (k id flags : Z) (logged_in : bool) (m : CK_MECHANISM)
    (public_template private_template : list CK_ATTRIBUTE) : M (option (Z * Z)) :=
  let! _ := guard_err (has_parameter m) #CKR_MECHANISM_PARAM_INVALID in
  let! parameters := sm_lift (required_template_value public_template CKA_EC_PARAMS) in
  let! _ := guard_err (negb (bool_decide (parameters = P256_PARAMS))) #CKR_CURVE_NOT_SUPPORTED in
  let! public_object := sm_lift (software_key_pair_object public_template CKO_PUBLIC_KEY CKK_EC) in
  let! private_object := sm_lift (software_key_pair_object private_template CKO_PRIVATE_KEY CKK_EC) in
  if derive (attributes private_object) && native_session_object_supports_requested_operations private_object then
    let! _ := sm_lift (validate_new_object_access public_object flags logged_in) in
    let! _ := sm_lift (validate_new_object_access private_object flags logged_in) in
    let! session := get_session k in
    let! command := sm_lift (generate_session_p256 (native_session_object_flags private_object)) in
    let! response := on_slot (yubihsm_command session command) in
    let! _ := guard_err (negb (len response =? 8 + 65) || negb (at_ response 8 =? 0x04)) #CKR_DEVICE_ERROR in
    let native := from_bytes_be (ztake 8 response) in
    let key := EcPublic P256_PARAMS (zdrop 9 response) in
    let public_object := mark_generated (mechanism m) (public_object {{ material := Public key }}) in
    let private_object := mark_generated (mechanism m) (private_object {{ public_key := Some key }})
                            {{ material := YubiHsmSessionObject native 32 }} in
    let! handles := publish_session_pair k id public_object private_object (discard_session_object k native) in
    sm_ret (Some handles)
  else sm_ret None.

(** The private object goes into the slot's encrypted store. *)
Definition publish_token_pair (k id : Z) (public_object private_object : TokenObject) : M (Z * Z) :=
  let! _ := get_slot id in
  let! stored := on_slot (store_software_private_object id private_object) in
  let stored_id := unique_id stored in
  let undo : M unit := let! _ := get_slot id in sm_ignore (on_slot (destroy_software_private_object stored_id)) in
  sm_match (refresh_slot_token_objects id)
    (λ _,
       let! handle := find_handle (λ o, bool_decide (unique_id o = stored_id)) in
       match handle with
       | None =>
           let! _ := undo in
           let! _ := sm_ignore (refresh_slot_token_objects id) in
           sm_err #CKR_DEVICE_ERROR
       | Some private_handle =>
           sm_match (store_backed_object k public_object)
             (λ public_handle, sm_ret (public_handle, private_handle))
             (λ e,
                let! _ := undo in
                let! _ := sm_ignore (refresh_slot_token_objects id) in
                sm_err e)
       end)
    (λ e, let! _ := undo in sm_err e).

Definition SOFTWARE_PAIR_MECHANISMS : list Z :=
  [CKM_RSA_PKCS_KEY_PAIR_GEN; CKM_EC_KEY_PAIR_GEN; CKM_EC_EDWARDS_KEY_PAIR_GEN; CKM_EC_MONTGOMERY_KEY_PAIR_GEN;
   CKM_ML_DSA_KEY_PAIR_GEN; CKM_ML_KEM_KEY_PAIR_GEN; CKM_PKCS11RS_MLKEM768_P256_KEY_PAIR_GEN;
   CKM_PKCS11RS_MLKEM768_X25519_KEY_PAIR_GEN; CKM_PKCS11RS_MLKEM1024_P384_KEY_PAIR_GEN].

Definition generate_software_pair (k id flags : Z) (logged_in private_token : bool) (m : CK_MECHANISM)
    (public_template private_template : list CK_ATTRIBUTE) : M (Z * Z) :=
  let! '(public_object, private_object) := on_slot (software_generate_key_pair m public_template private_template) in
  let! _ := sm_lift (validate_new_object_access public_object flags logged_in) in
  let! _ := sm_lift (validate_new_object_access private_object flags logged_in) in
  if private_token then publish_token_pair k id public_object private_object
  else publish_session_pair k id public_object private_object (sm_ret tt).

(** A private template names the key type of a registration, or of the EC key it
    stood for earlier. *)
Definition normalized_registration_template (private_template : list CK_ATTRIBUTE) : list CK_ATTRIBUTE :=
  without [CKA_KEY_TYPE] private_template
  ++ [byte_attribute CKA_KEY_TYPE (ulong_attribute CKK_PKCS11RS_PREVIEW_SIGN_REGISTRATION)].

Definition generate_preview_sign_pair (k id flags : Z) (logged_in private_token : bool) (m : CK_MECHANISM)
    (public_template private_template : list CK_ATTRIBUTE) : M (Z * Z) :=
  let! _ := guard_err (has_parameter m) #CKR_MECHANISM_PARAM_INVALID in
  let! public_object := sm_lift (key_pair_object public_template CKO_PUBLIC_KEY CKK_EC) in
  let! _ := guard_err (negb (token public_object) || negb private_token) #CKR_TEMPLATE_INCONSISTENT in
  let public_object := public_object {{ verify := false }} in
  let! kind := sm_lift (optional_ulong_template_attribute private_template CKA_KEY_TYPE) in
  let! _ := guard_err (match kind with
                       | Some kind => negb (one_of [CKK_EC; CKK_PKCS11RS_PREVIEW_SIGN_REGISTRATION] kind)
                       | None => false
                       end) #CKR_TEMPLATE_INCONSISTENT in
  let normalized := normalized_registration_template private_template in
  let! _ := sm_lift (validate_unique_template private_template) in
  let! _ := guard_err (existsb (λ a, one_of [CKA_PKCS11RS_PREVIEW_SIGN_REGISTRATION; CKA_PKCS11RS_PREVIEW_SIGN_DERIVED_KEY]
                                       (attr_type a)) private_template) #CKR_TEMPLATE_INCONSISTENT in
  let! validated_private := sm_lift (preview_sign_object_template normalized false) in
  let! _ := sm_lift (validate_new_object_access public_object flags logged_in) in
  let! _ := sm_lift (validate_new_object_access validated_private flags logged_in) in
  let! _ := get_slot id in
  let! registration := on_slot fido_preview_sign_registration in
  let! private_object := sm_lift (preview_sign_object normalized registration) in
  let! _ := sm_lift (validate_new_object_access private_object flags logged_in) in
  let! key := sm_lift (ok_or #CKR_DEVICE_ERROR
                         ('(key_type, key) ← project_cose_public_key (credential_public_key_cose registration);
                          if key_type =? CKK_EC then Some key else None)) in
  let public_object := mark_generated (mechanism m) (public_object {{ material := Public key }}) in
  let private_object := mark_generated (mechanism m)
                          (private_object {{ material := PreviewSignRegistered registration true }}) in
  let! public_handle := insert_object (set_creator k id public_object) in
  let! private_handle := insert_object (set_creator k id private_object) in
  sm_ret (public_handle, private_handle).

Definition generate_key_pair_in (k : Z) (m : CK_MECHANISM) (public_template private_template : list CK_ATTRIBUTE)
    : M (Z * Z) :=
  let! '(id, flags, logged_in) := session_details k in
  let! _ := require_slot_mechanism id (mechanism m) CKF_GENERATE_KEY_PAIR in
  let! private_token := sm_lift (bool_attribute_or_false private_template CKA_TOKEN) in
  let! public_token := sm_lift (bool_attribute_or_false public_template CKA_TOKEN) in
  let! _ := get_slot id in
  let! scope := asks slot_software_scope in
  let session_ec_pair := negb private_token && negb public_token && (mechanism m =? CKM_EC_KEY_PAIR_GEN) in
  let! native := if session_ec_pair then native_session_objects_enabled k else sm_ret false in
  let! made := if (native : bool)
               then generate_native_session_pair k id flags logged_in m public_template private_template
               else sm_ret None in
  match made with
  | Some handles => sm_ret handles
  | None =>
      let scoped := session_ec_pair && match scope with ScopeComposition => true | _ => false end in
      let! _ := if scoped then
                  let! parameters := sm_lift (required_template_value public_template CKA_EC_PARAMS) in
                  guard_err (negb (bool_decide (parameters = P256_PARAMS))) #CKR_CURVE_NOT_SUPPORTED
                else sm_ret tt in
      let! stores := asks stores_software_token_keys in
      let software := (negb private_token && match scope with ScopeFull => true | _ => false end) || scoped
                      || (private_token && stores) in
      if software && one_of SOFTWARE_PAIR_MECHANISMS (mechanism m) then
        generate_software_pair k id flags logged_in private_token m public_template private_template
      else if mechanism m =? CKM_PKCS11RS_PREVIEW_SIGN_KEY_PAIR_GEN then
        generate_preview_sign_pair k id flags logged_in private_token m public_template private_template
      else slot_generate_key_pair k m public_template private_template
  end.
(** ** Deriving from a secret *)

Inductive SecretOperation : Type :=
| OpAppendKey (handle : Z) | OpAppendData (data : list Z) | OpExtract (offset : Z) | OpSha256.

Definition secret_derive_supports (m : Z) : bool :=
  one_of [CKM_CONCATENATE_BASE_AND_KEY; CKM_CONCATENATE_BASE_AND_DATA; CKM_EXTRACT_KEY_FROM_KEY;
          CKM_SHA256_KEY_DERIVATION] m.

Definition parse_secret_derive (m : CK_MECHANISM) : outcome Error SecretOperation :=
  let parameter {A} (f : ParameterMemory → A) (size : Z) : outcome Error A :=
    sized_parameter (f <$> pParameter m) (ulParameterLen m) size in
  if mechanism m =? CKM_CONCATENATE_BASE_AND_KEY then omap_ok OpAppendKey (parameter as_ulong SIZE_OF_ULONG)
  else if mechanism m =? CKM_CONCATENATE_BASE_AND_DATA then
    let? data := parameter (λ memory, as_string_data (as_key memory)) SIZE_OF_STRING_DATA in
    omap_ok OpAppendData (map_err (λ _, #CKR_MECHANISM_PARAM_INVALID) (from_raw_parts (string_pData data) (string_ulLen data)))
  else if mechanism m =? CKM_EXTRACT_KEY_FROM_KEY then omap_ok OpExtract (parameter as_ulong SIZE_OF_ULONG)
  else if mechanism m =? CKM_SHA256_KEY_DERIVATION then
    let? _ := bail (has_parameter m) #CKR_MECHANISM_PARAM_INVALID in
    Ok OpSha256
  else Err #CKR_MECHANISM_INVALID.

Definition secret_derivation (op : SecretOperation) (other : option TokenObject) : outcome Error SecretDerivation :=
  match op with
  | OpAppendKey _ => omap_ok AppendKey (ok_or #CKR_KEY_HANDLE_INVALID other)
  | OpAppendData data => Ok (AppendData data)
  | OpExtract offset => Ok (Extract offset)
  | OpSha256 => Ok DeriveSha256
  end.

(** Attributes that the derivation sets, never the caller. *)
Definition GENERATED_ATTRIBUTES : list Z :=
  [CKA_VALUE; CKA_LOCAL; CKA_KEY_GEN_MECHANISM; CKA_ALWAYS_SENSITIVE; CKA_NEVER_EXTRACTABLE].
Definition names_generated (templ : list CK_ATTRIBUTE) : bool :=
  existsb (λ a, one_of GENERATED_ATTRIBUTES (attr_type a)) templ.

(** The caller's template, with what the policy of the base adds. *)
Definition with_policy (templ : list CK_ATTRIBUTE) (policy : option KeyAttributes) : outcome Error (list CK_ATTRIBUTE) :=
  omap_ok as_slice (merge_policy_template templ policy).
Definition derive_policy (o : TokenObject) : option KeyAttributes := policy_derive (policy_templates (attributes o)).

(** The length of a derivation whose template names none. *)
Definition secret_default_length (d : SecretDerivation) (templ : list CK_ATTRIBUTE) (n : Z) : outcome Error Z :=
  let? kind := optional_ulong_template_attribute templ CKA_KEY_TYPE in
  if is_some (template_attribute templ CKA_VALUE_LEN) then Ok n
  else match kind, d with
       | Some kind, _ => if kind =? CKK_DES3 then Ok 24 else Err #CKR_TEMPLATE_INCOMPLETE
       | None, Extract _ => Err #CKR_TEMPLATE_INCOMPLETE
       | None, _ => Ok n
       end.

(** The protection of the derived object; a template that asks for less than its
    inputs have is refused. *)
Definition protect_derived (d : SecretDerivation) (base : TokenObject) (templ : list CK_ATTRIBUTE) (o : TokenObject)
    : outcome Error TokenObject :=
  match d with
  | DeriveSha256 => Ok (inherit_history base o)
  | _ =>
      let of_other (f : TokenObject → bool) := match other_key d with Some key => f key | None => false end in
      let sensitive := o_sensitive base || of_other o_sensitive in
      let nonextractable := negb (o_extractable base) || of_other (λ key, negb (o_extractable key)) in
      let? shown := if sensitive then omap_ok (λ v, bool_decide (v = Some false)) (optional_bool_template_attribute templ CKA_SENSITIVE)
                    else Ok false in
      let? released := if negb shown && nonextractable
                       then omap_ok (λ v, bool_decide (v = Some true)) (optional_bool_template_attribute templ CKA_EXTRACTABLE)
                       else Ok false in
      let? _ := bail (shown || released) #CKR_TEMPLATE_INCONSISTENT in
      Ok (inherit_protection base (other_key d) o)
  end.

(** The device's command, when both inputs are in its session. *)
Definition native_secret_command (d : SecretDerivation) (base_handle : Z) (o : TokenObject) (length : Z)
    : outcome Error (option Command) :=
  let flags := native_session_object_flags o in
  let with_kind (f : SessionObjectKind → outcome Error Command) : outcome Error (option Command) :=
    let? kind := native_session_object_kind o in omap_ok Some (f kind) in
  match d with
  | AppendKey other =>
      match native_session_object_handle other with
      | Some other_handle => with_kind (λ kind, derive_session_append_key flags kind length base_handle other_handle)
      | None => Ok None
      end
  | AppendData data => with_kind (λ kind, derive_session_append_data flags kind length base_handle data)
  | Extract offset => with_kind (λ kind, derive_session_extract flags kind length base_handle offset)
  | DeriveSha256 => with_kind (λ kind, derive_session_sha256 flags kind length base_handle)
  end.

(** Run a derivation in the device and publish what it made. *)
Definition publish_native (k id : Z) (command : Command) (o : TokenObject) (length : Z) : M Z :=
  let! response := on_session k (λ session, yubihsm_command session command) in
  let! handle := sm_lift (parse_native_session_handle response) in
  publish_native_session_secret k id o handle length.

(** What the derivation is to make: everything before a key is computed. *)
Definition secret_derive_object (d : SecretDerivation) (base : TokenObject) (templ : list CK_ATTRIBUTE) (flags : Z)
    (logged_in : bool) : outcome Error (TokenObject * Z) :=
  let? _ := bail (names_generated templ) #CKR_ATTRIBUTE_READ_ONLY in
  let? n := available d base in
  let? default_length := secret_default_length d templ n in
  let? '(o, length) := derived_secret_object templ default_length (Z.min n 1024) in
  let? o := protect_derived d base templ o in
  let? _ := validate_new_object_access o flags logged_in in
  Ok (o, length).

Definition secret_derive_in (k : Z) (m : Z) (op : SecretOperation) (base_handle : Z) (templ : list CK_ATTRIBUTE) : M Z :=
  let! '(id, flags, logged_in) := session_details k in
  let! _ := require_slot_mechanism id m CKF_DERIVE in
  let! base := visible_key base_handle logged_in in
  let! other := match op with
                | OpAppendKey handle => let! other := visible_key handle logged_in in sm_ret (Some other)
                | _ => sm_ret None
                end in
  let! d := sm_lift (secret_derivation op other) in
  let! _ := sm_lift (validate_inputs d base) in
  let! templ := sm_lift (with_policy templ (derive_policy base)) in
  let! templ := sm_lift (with_policy templ (other ≫= derive_policy)) in
  let! '(o, length) := sm_lift (secret_derive_object d base templ flags logged_in) in
  let! enabled := native_session_objects_enabled k in
  let! command := match native_session_object_handle base with
                  | Some base_handle => if (enabled : bool) then sm_lift (native_secret_command d base_handle o length)
                                        else sm_ret None
                  | None => sm_ret None
                  end in
  match command with
  | Some command => publish_native k id command (mark_derived (derivation_mechanism d) o) length
  | None =>
      let! o := sm_lift (execute_secret_derivation base d o length) in
      publish_software_secret_object k id o
  end.

(** ** The counter KDF *)

Definition counter_derive_object (templ : list CK_ATTRIBUTE) (flags : Z) (logged_in : bool)
    : outcome Error (TokenObject * Z) :=
  let? _ := bail (names_generated templ) #CKR_ATTRIBUTE_READ_ONLY in
  let? kind := optional_ulong_template_attribute templ CKA_KEY_TYPE in
  let? requested := optional_ulong_template_attribute templ CKA_VALUE_LEN in
  let? length := ok_or #CKR_TEMPLATE_INCOMPLETE
                   (match requested with
                    | Some n => Some n
                    | None => if bool_decide (kind = Some CKK_DES3) then Some 24 else None
                    end) in
  let? '(o, length) := derived_secret_object templ length 1024 in
  let? _ := validate_new_object_access o flags logged_in in
  Ok (o, length).

Definition counter_derive_in (k : Z) (m : Z) (fields : list CounterKdfField) (base_handle : Z) (templ : list CK_ATTRIBUTE) : M Z :=
  let! '(id, flags, logged_in) := session_details k in
  let! _ := require_slot_mechanism id m CKF_DERIVE in
  let! base := visible_key base_handle logged_in in
  let! key := sm_lift (counter_base_key base) in
  let! templ := sm_lift (with_policy templ (derive_policy base)) in
  let! '(o, length) := sm_lift (counter_derive_object templ flags logged_in) in
  let! enabled := native_session_objects_enabled k in
  match (if (enabled : bool) && negb (token o) then native_session_object_source base else None) with
  | Some source =>
      let! kind := sm_lift (native_session_object_kind o) in
      let! command := sm_lift (derive_session_counter (native_session_object_flags o) kind length source fields) in
      publish_native k id command (mark_derived CKM_SP800_108_COUNTER_KDF (inherit_history base o)) length
  | None =>
      let! o := derive_counter_key_with base fields o length
                  (λ input, counter_cmac key input (λ id, yubihsm_aes_cmac k id input)) in
      publish_software_secret_object k id o
  end.

(** ** HKDF *)

Definition CKF_HKDF_SALT_NULL : Z := 1.
Definition CKF_HKDF_SALT_DATA : Z := 2.
Definition CKF_HKDF_SALT_KEY : Z := 4.

Record HkdfRequest : Type := mkHkdfRequest {
  hk_extract : bool; hk_expand : bool; hk_digest : MessageDigest; hk_salt_data : option (list Z); hk_info : list Z;
  hk_salt_type : Z; hk_salt_key : Z;
}.
Definition hkdf_request (m : CK_MECHANISM) : outcome Error HkdfRequest :=
  let invalid {A} : outcome Error A := Err #CKR_MECHANISM_PARAM_INVALID in
  let? p := sized_parameter ((λ memory, as_hkdf (as_key memory)) <$> pParameter m) (ulParameterLen m) SIZE_OF_HKDF_PARAMS in
  let extract := negb (bExtract p =? CK_FALSE) in
  let expand := negb (bExpand p =? CK_FALSE) in
  let? _ := bail (negb extract && negb expand) #CKR_MECHANISM_PARAM_INVALID in
  let? digest := if prfHashMechanism p =? CKM_SHA_1 then Ok HashSha1
                 else if prfHashMechanism p =? CKM_SHA256 then Ok HashSha256
                 else if prfHashMechanism p =? CKM_SHA384 then Ok HashSha384
                 else if prfHashMechanism p =? CKM_SHA512 then Ok HashSha512
                 else invalid in
  let? salt_data := if extract && (ulSaltType p =? CKF_HKDF_SALT_DATA) then
                      let? _ := bail (is_null (pSalt p) || (ulSaltLen p =? 0)) #CKR_MECHANISM_PARAM_INVALID in
                      omap_ok Some (map_err (λ _, #CKR_MECHANISM_PARAM_INVALID) (from_raw_parts (pSalt p) (ulSaltLen p)))
                    else Ok None in
  let? _ := bail (extract && negb (one_of [CKF_HKDF_SALT_NULL; CKF_HKDF_SALT_DATA; CKF_HKDF_SALT_KEY] (ulSaltType p)))
              #CKR_MECHANISM_PARAM_INVALID in
  let? info := if expand then map_err (λ _, #CKR_MECHANISM_PARAM_INVALID) (from_raw_parts (pInfo p) (ulInfoLen p))
               else Ok [] in
  Ok (mkHkdfRequest extract expand digest salt_data info (ulSaltType p) (hSaltKey p)).

Definition hkdf_derive_object (r : HkdfRequest) (templ : list CK_ATTRIBUTE) (flags : Z) (logged_in : bool)
    : outcome Error (TokenObject * Z) :=
  let size := hash_size (hk_digest r) in
  let? requested := optional_ulong_template_attribute templ CKA_VALUE_LEN in
  let? output_length :=
    if hk_expand r then ok_or #CKR_TEMPLATE_INCOMPLETE requested
    else let? _ := bail (match requested with Some n => negb (n =? size) | None => false end) #CKR_TEMPLATE_INCONSISTENT in
         Ok size in
  let? _ := bail ((output_length =? 0) || (1024 <? output_length) || (size * 255 <? output_length)) #CKR_KEY_SIZE_RANGE in
  let? '(o, material_length) := derived_secret_object templ output_length output_length in
  let? _ := bail (negb (material_length =? output_length)) #CKR_DEVICE_ERROR in
  let? _ := validate_new_object_access o flags logged_in in
  Ok (o, output_length).

Definition hkdf_base_value (r : HkdfRequest) (m : Z) (base : TokenObject) : outcome Error (list Z) :=
  let? _ := require_key_mechanism base m in
  let? _ := bail (negb (class base =? CKO_SECRET_KEY) || negb (key_type base =? CKK_GENERIC_SECRET))
              #CKR_KEY_TYPE_INCONSISTENT in
  let? _ := bail (negb (derive (attributes base))) #CKR_KEY_FUNCTION_NOT_PERMITTED in
  let? value := match material base with SoftwareSecret value => Ok value | _ => Err #CKR_KEY_TYPE_INCONSISTENT end in
  let? _ := bail (negb (len value =? hash_size (hk_digest r))) #CKR_KEY_SIZE_RANGE in
  Ok value.

Definition derive_hkdf_in (k : Z) (m : Z) (r : HkdfRequest) (base_handle : Z) (templ : list CK_ATTRIBUTE) : M Z :=
  let! '(id, flags, logged_in) := session_details k in
  let! _ := require_slot_mechanism id m CKF_DERIVE in
  let! base := visible_key base_handle logged_in in
  let! templ := sm_lift (with_policy templ (derive_policy base)) in
  let! '(o, length) := sm_lift (hkdf_derive_object r templ flags logged_in) in
  let! base_value := sm_lift (hkdf_base_value r m base) in
  let! salt_key := if hk_extract r && (hk_salt_type r =? CKF_HKDF_SALT_KEY) then
                     let! salt := visible_key (hk_salt_key r) logged_in in
                     match material salt with
                     | SoftwareSecret value => sm_ret (Some value)
                     | _ => sm_err #CKR_KEY_TYPE_INCONSISTENT
                     end
                   else sm_ret None in
  let salt := match salt_key with Some value => Some value | None => hk_salt_data r end in
  let! value := sm_lift (hkdf_key_material (hk_digest r) (hk_extract r) (hk_expand r) base_value salt (hk_info r) length) in
  let! _ := guard_err (negb (length =? len value)) #CKR_DEVICE_ERROR in
  publish_software_secret_object k id (mark_derived m (inherit_history base (o {{ material := SoftwareSecret value }}))).

(** ** The public half of a private key *)

(** The projection of a key in a YubiHSM that is kept on the device. *)
Definition hsm_projection (base : TokenObject) : option (Z * Z) :=
  match material base with
  | YubiHsm id object_type _ _ _ =>
      if object_type =? YUBIHSM_ASYMMETRIC_KEY then Some (id, YUBIHSM_PUBLIC_KEY)
      else if object_type =? YUBIHSM_WRAP_KEY then Some (id, YUBIHSM_WRAP_KEY_PUBLIC)
      else None
  | _ => None
  end.

(** The first object that passes a test which may read the backend. *)
Fixpoint find_object (test : TokenObject → M bool) (objs : list (Z * TokenObject)) : M (option Z) :=
  match objs with
  | [] => sm_ret None
  | (handle, o) :: rest =>
      let! found := test o in
      if (found : bool) then sm_ret (Some handle) else find_object test rest
  end.

Definition persisted_projection (id base_id public_type : Z) (projected o : TokenObject) : M bool :=
  if bool_decide (obj_slot_id o = Some id) && (class o =? CKO_PUBLIC_KEY) && token o
     && match material o with
        | YubiHsm hsm_id object_type _ _ _ => (hsm_id =? base_id) && (object_type =? public_type)
        | _ => false
        end
     && bool_decide (o_id o = o_id projected) && bool_decide (o_label o = o_label projected) then
    let! info := plain_attribute_value o CKA_PUBLIC_KEY_INFO in
    let! expected := plain_attribute_value projected CKA_PUBLIC_KEY_INFO in
    sm_ret (bool_decide (info = expected))
  else sm_ret false.

Definition project_public_key_in (k : Z) (m : Z) (base_handle : Z) (templ : list CK_ATTRIBUTE) : M Z :=
  let! '(id, flags, logged_in) := session_details k in
  let! _ := require_slot_mechanism id m CKF_DERIVE in
  let! base := visible_key base_handle logged_in in
  let! templ := sm_lift (with_policy templ (derive_policy base)) in
  let! _ := sm_lift (require_key_mechanism base m) in
  let! _ := guard_err (negb (class base =? CKO_PRIVATE_KEY)) #CKR_KEY_TYPE_INCONSISTENT in
  let! _ := guard_err (negb (allows_derive base)) #CKR_KEY_FUNCTION_NOT_PERMITTED in
  let! projected := on_slot (project_public_key_object base templ) in
  let! _ := sm_lift (validate_new_object_access projected flags logged_in) in
  if wrap (attributes projected) then import_public_wrap_key k projected
  else
    match (if token projected then hsm_projection base else None) with
    | Some (base_id, public_type) =>
        let! _ := get_slot id in
        let! _ := on_slot (yubihsm_persist_public_projection id (unique_id base) projected) in
        let! _ := refresh_slot_token_objects id in
        let! objs := resolved_objects in
        let! handle := find_object (persisted_projection id base_id public_type projected) objs in
        sm_lift (ok_or #CKR_DEVICE_ERROR handle)
    | None => store_backed_object k projected
    end.

(** ** Keys of a previewSign registration *)

Definition preview_derived_object (templ : list CK_ATTRIBUTE) : outcome Error TokenObject :=
  let? t := for_attributes apply_or_error templ
              (TokenObjectTemplate_default
                 {{ t_class := Some CKO_PRIVATE_KEY; t_key_type := Some CKK_EC; t_token := false; t_private := true;
                    t_sensitive := Some true; t_extractable := Some false }}) in
  let? o := map_err Generic (into_object t) in
  let? _ := bail (negb (class o =? CKO_PRIVATE_KEY) || negb (key_type o =? CKK_EC)) #CKR_TEMPLATE_INCONSISTENT in
  Ok (o {{ sign := true }} {{ attributes -> derive := false }}).

Definition preview_sign_derive_in (k : Z) (m : Z) (context : list Z) (base_handle : Z) (templ : list CK_ATTRIBUTE) : M Z :=
  let! '(id, flags, logged_in) := session_details k in
  let! _ := require_slot_mechanism id m CKF_DERIVE in
  let! base := visible_key base_handle logged_in in
  let! templ := sm_lift (with_policy templ (derive_policy base)) in
  let! _ := sm_lift (require_key_mechanism base m) in
  let! _ := guard_err (negb (derive (attributes base))) #CKR_KEY_FUNCTION_NOT_PERMITTED in
  let! registration := match material base with
                       | PreviewSignRegistered registration _ => sm_ret registration
                       | _ => sm_err #CKR_KEY_TYPE_INCONSISTENT
                       end in
  let! o := sm_lift (preview_derived_object templ) in
  let! _ := sm_lift (validate_new_object_access o flags logged_in) in
  let! derived := on_slot (sm_map_err (λ _, #CKR_FUNCTION_FAILED) (derive_arkg_p256 registration context)) in
  let! key := sm_lift (ok_or #CKR_DEVICE_ERROR
                         ('(kind, key) ← project_cose_public_key derived.1; if kind =? CKK_EC then Some key else None)) in
  let! encoded := sm_lift (ok_or #CKR_FUNCTION_FAILED (registration_to_cbor registration)) in
  let label := if bool_decide (o_label o = []) then None else Some (o_label o) in
  let! '(args, rest) := sm_lift (ok_or #CKR_FUNCTION_FAILED (into_record derived (for_object encoded) label)) in
  store_backed_object k
    (mark_generated m (o {{ material := PreviewSignDerived registration args rest }} {{ public_key := Some key }})).

(** ** Key agreement *)

Inductive DeriveSource : Type :=
| SourceSoftware (key : SoftwarePrivateKeyMaterial)
| SourcePlatform (credential : Z)
| SourcePiv (slot : Z) (algorithm : PivAlgorithm) (pin_policy : Z)
| SourceOpenPgp (key_ref : Z) (algorithm : OpenPgpAlgorithm) (pin_policy : Z)
| SourceYubiHsm (id algorithm : Z) (capabilities : list Z)
| SourceYubiHsmSession (handle : Z).

Definition weierstrass_curve (key : SoftwarePrivateKeyMaterial) : option EcCurve :=
  match key with SigningEc curve _ => Some curve | _ => None end.
Definition is_montgomery_key (key : SoftwarePrivateKeyMaterial) : bool := match key with Montgomery _ => true | _ => false end.

Definition derive_source (o : TokenObject) : outcome Error DeriveSource :=
  match material o with
  | PlatformPrivate credential => Ok (SourcePlatform credential)
  | SoftwarePrivate key =>
      if is_some (weierstrass_curve key) || is_montgomery_key key then Ok (SourceSoftware key)
      else Err #CKR_FUNCTION_NOT_SUPPORTED
  | PivPrivate slot algorithm pin_policy _ => Ok (SourcePiv slot algorithm pin_policy)
  | OpenPgpPrivate key_ref (PgpEcdh curve) pin_policy _ => Ok (SourceOpenPgp key_ref (PgpEcdh curve) pin_policy)
  | YubiHsm id _ algorithm _ info =>
      if is_yubihsm_ec algorithm || is_yubihsm_montgomery algorithm then Ok (SourceYubiHsm id algorithm (capabilities info))
      else Err #CKR_FUNCTION_NOT_SUPPORTED
  | YubiHsmSessionObject handle _ =>
      if key_type o =? CKK_EC then Ok (SourceYubiHsmSession handle) else Err #CKR_FUNCTION_NOT_SUPPORTED
  | _ => Err #CKR_FUNCTION_NOT_SUPPORTED
  end.

Definition source_is_montgomery (s : DeriveSource) : bool :=
  match s with
  | SourcePlatform _ | SourceYubiHsmSession _ => false
  | SourceSoftware key => is_montgomery_key key
  | SourcePiv _ algorithm _ => bool_decide (algorithm = X25519)
  | SourceOpenPgp _ algorithm _ => bool_decide (algorithm = PgpEcdh PgpCurveX25519)
  | SourceYubiHsm _ algorithm _ => is_yubihsm_montgomery algorithm
  end.

(** Whether the device's own KDF is used. A key that allows nothing but the KDF
    is never used for a raw agreement. *)
Definition uses_native_kdf (s : DeriveSource) (prefixed : bool) : outcome Error bool :=
  match s with
  | SourceYubiHsm _ _ caps =>
      let native := prefixed && yubihsm_capability caps 0x38 in
      let? _ := bail (negb native && negb (yubihsm_capability caps 0x0b)) #CKR_KEY_FUNCTION_NOT_PERMITTED in
      Ok native
  | _ => Ok false
  end.

Definition source_requires_login (s : DeriveSource) : bool :=
  match s with
  | SourcePiv slot _ pin_policy => negb (piv_effective_pin_policy slot pin_policy =? 1)
  | SourceOpenPgp _ _ _ => true
  | _ => false
  end.

(** The length of the shared secret, of the peer's point, and whether the point
    is uncompressed. *)
Definition source_lengths (s : DeriveSource) : outcome Error (Z * Z * bool) :=
  let weierstrass (n : Z) := (n, n * 2 + 1, true) in
  match s with
  | SourcePlatform _ | SourceYubiHsmSession _ => Ok (32, 65, true)
  | SourceSoftware key =>
      match key with
      | Montgomery key =>
          match montgomery_curve key with MontgomeryX25519 => Ok (32, 32, false) | MontgomeryX448 => Ok (56, 56, false) end
      | key => let? curve := ok_or #CKR_KEY_TYPE_INCONSISTENT (weierstrass_curve key) in
               Ok (weierstrass (coordinate_length curve))
      end
  | SourcePiv _ algorithm _ =>
      match algorithm with
      | EccP256 => Ok (32, 65, true)
      | EccP384 => Ok (48, 97, true)
      | X25519 => Ok (32, 32, false)
      | _ => Err #CKR_KEY_TYPE_INCONSISTENT
      end
  | SourceOpenPgp _ algorithm _ =>
      match algorithm with
      | PgpEcdh curve => Ok match pgp_coordinate_length curve with Some n => weierstrass n | None => (32, 32, false) end
      | _ => Err #CKR_KEY_TYPE_INCONSISTENT
      end
  | SourceYubiHsm _ algorithm _ =>
      if is_yubihsm_montgomery algorithm then
        if algorithm =? YUBIHSM_ALGO_X25519 then Ok (32, 32, false)
        else if algorithm =? YUBIHSM_ALGO_X448 then Ok (56, 56, false)
        else Err #CKR_KEY_TYPE_INCONSISTENT
      else if is_yubihsm_ec algorithm then omap_ok weierstrass (yubihsm_ec_coordinate_length algorithm)
      else Err #CKR_KEY_TYPE_INCONSISTENT
  end.

(** A raw point can look like a DER octet string: its own length decides. *)
Definition peer_point (expected_length : Z) (requires_uncompressed : bool) (public_data : list Z) : outcome Error (list Z) :=
  let point := if len public_data =? expected_length then public_data
               else default public_data (der_octet_string_value public_data) in
  let? _ := bail (negb (len point =? expected_length)
                  || (requires_uncompressed && negb (bool_decide (head point = Some 0x04)))) #CKR_DATA_LEN_RANGE in
  Ok point.

(** Everything before the agreement: the base, the object and the lengths. *)
Record EcdhPlan : Type := mkEcdhPlan {
  plan_source : DeriveSource; plan_native_kdf : bool; plan_expected : Z; plan_point : list Z; plan_object : TokenObject;
  plan_length : Z; plan_selector : option Z;
}.
Definition ecdh_plan (m : Z) (r : EcdhRequest) (base : TokenObject) (operations : Z) (templ : list CK_ATTRIBUTE) (flags : Z)
    (logged_in : bool) : outcome Error EcdhPlan :=
  let prefixed := m =? CKM_PKCS11RS_PREFIXED_ECDH_DERIVE in
  let? _ := require_key_mechanism base m in
  let? _ := bail (negb (class base =? CKO_PRIVATE_KEY)) #CKR_KEY_TYPE_INCONSISTENT in
  let? _ := bail (negb (derive (attributes base))) #CKR_KEY_FUNCTION_NOT_PERMITTED in
  let? _ := bail (Z.land operations CKF_DERIVE =? 0) #CKR_MECHANISM_INVALID in
  let? source := derive_source base in
  let? _ := bail ((m =? CKM_ECDH1_COFACTOR_DERIVE) && source_is_montgomery source) #CKR_MECHANISM_INVALID in
  let? native_kdf := uses_native_kdf source prefixed in
  let? _ := bail (source_requires_login source && negb logged_in) #CKR_USER_NOT_LOGGED_IN in
  let? '(expected, public_length, uncompressed) := source_lengths source in
  let? point := peer_point public_length uncompressed (req_public r) in
  let maximum := match req_kdf r with KdfNull => expected | _ => 1024 end in
  let? '(o, length) := derived_secret_object templ expected maximum in
  let? _ := validate_new_object_access o flags logged_in in
  let? selector := if native_kdf then omap_ok Some (ecdh_kdf_hash_selector (req_kdf r)) else Ok None in
  Ok (mkEcdhPlan source native_kdf expected point o length selector).

(** The shared secret, or with [native_kdf] the derived key. *)
Definition ecdh_secret (k : Z) (r : EcdhRequest) (plan : EcdhPlan) : M (list Z) :=
  let point := plan_point plan in
  match plan_source plan with
  | SourcePlatform credential => on_slot (platform_ecdh credential point)
  | SourceSoftware key => sm_lift (software_ecdh key point)
  | SourcePiv slot algorithm pin_policy => on_session k (λ session, piv_decipher session slot algorithm point pin_policy)
  | SourceOpenPgp key_ref algorithm pin_policy =>
      on_session k (λ session, openpgp_derive session key_ref algorithm point pin_policy)
  | SourceYubiHsm id _ _ =>
      let! session := get_session k in
      let! command :=
        if plan_native_kdf plan then
          let! selector := sm_lift (ok_or #CKR_MECHANISM_PARAM_INVALID (plan_selector plan)) in
          sm_lift (derive_ecdh_kdf id selector (plan_length plan) point (req_prefix r) (req_shared r))
        else sm_lift (key_data DeriveEcdh id point) in
      on_slot (yubihsm_command session command)
  | SourceYubiHsmSession _ => sm_err #CKR_FUNCTION_NOT_SUPPORTED
  end.

(** [rotate_left] and [truncate] keep the last bytes of a raw secret. *)
Definition ecdh_key_value (r : EcdhRequest) (plan : EcdhPlan) (derived : list Z) : outcome Error (list Z) :=
  match req_kdf r with
  | KdfNull =>
      let removed := len derived - plan_length plan in
      if removed <? 0 then Panic
      else Ok (ztake (plan_length plan) (zdrop removed derived ++ ztake removed derived))
  | KdfX963 digest =>
      if plan_native_kdf plan then Ok derived
      else x963_kdf digest (req_prefix r ++ derived) (req_shared r) (plan_length plan)
  end.

(** The device's session, for a raw agreement with a session key. *)
Definition ecdh_native_source (r : EcdhRequest) (plan : EcdhPlan) : option SessionObjectSource :=
  match req_kdf r, plan_source plan with
  | KdfNull, SourceYubiHsm id _ _ => if token (plan_object plan) then None else Some (PersistentAsymmetric id)
  | KdfNull, SourceYubiHsmSession handle => if token (plan_object plan) then None else Some (Volatile handle)
  | _, _ => None
  end.

Definition ecdh_derive_in (k : Z) (m : Z) (r : EcdhRequest) (base_handle : Z) (templ : list CK_ATTRIBUTE) : M Z :=
  let! '(id, flags, logged_in) := session_details k in
  let! _ := require_slot_mechanism id m CKF_DERIVE in
  let! base := visible_key base_handle logged_in in
  let! templ := sm_lift (with_policy templ (derive_policy base)) in
  let! operations := asks (λ b, key_mechanism_operations (native_keys b) base m) in
  let! plan := sm_lift (ecdh_plan m r base operations templ flags logged_in) in
  let! enabled := match req_kdf r with
                  | KdfNull => if token (plan_object plan) then sm_ret false else native_session_objects_enabled k
                  | _ => sm_ret false
                  end in
  let finish (o : TokenObject) := mark_derived m (inherit_history base o) in
  match (if (enabled : bool) then ecdh_native_source r plan else None) with
  | Some source =>
      let o := plan_object plan in
      let! kind := sm_lift (native_session_object_kind o) in
      let! command := sm_lift (derive_session_ecdh (native_session_object_flags o) kind (plan_length plan) source (plan_point plan)) in
      publish_native k id command (finish o) (plan_length plan)
  | None =>
      let! derived := ecdh_secret k r plan in
      let! _ := guard_err (negb (len derived =? (if plan_native_kdf plan then plan_length plan else plan_expected plan)))
                  #CKR_DEVICE_ERROR in
      let! value := sm_lift (ecdh_key_value r plan derived) in
      publish_software_secret_object k id (finish ((plan_object plan) {{ material := SoftwareSecret value }}))
  end.

(** ** Encapsulation *)

Definition ML_KEM_SHARED_SECRET_LENGTH : Z := 32.

Definition require_kem_mechanism (m : CK_MECHANISM) : outcome Error unit :=
  let? _ := bail (negb (one_of [CKM_ML_KEM; CKM_PKCS11RS_MLKEM768_P256; CKM_PKCS11RS_MLKEM768_X25519;
                                CKM_PKCS11RS_MLKEM1024_P384] (mechanism m))) #CKR_MECHANISM_INVALID in
  bail (has_parameter m) #CKR_MECHANISM_PARAM_INVALID.

Definition kem_key_type (m : Z) : outcome Error Z :=
  if m =? CKM_ML_KEM then Ok CKK_ML_KEM
  else if m =? CKM_PKCS11RS_MLKEM768_P256 then Ok CKK_PKCS11RS_MLKEM768_P256
  else if m =? CKM_PKCS11RS_MLKEM768_X25519 then Ok CKK_PKCS11RS_MLKEM768_X25519
  else if m =? CKM_PKCS11RS_MLKEM1024_P384 then Ok CKK_PKCS11RS_MLKEM1024_P384
  else Err #CKR_MECHANISM_INVALID.

Definition kem_ciphertext_length (key : PublicKeyMaterial) : outcome Error Z :=
  match key with
  | MlKemPublic parameter_set _ =>
      if parameter_set =? CKP_ML_KEM_512 then Ok 768
      else if parameter_set =? CKP_ML_KEM_768 then Ok 1088
      else if parameter_set =? CKP_ML_KEM_1024 then Ok 1568
      else Err #CKR_KEY_TYPE_INCONSISTENT
  | HybridKemPublic construction _ => Ok (hybrid_ciphertext_length construction)
  | _ => Err #CKR_KEY_TYPE_INCONSISTENT
  end.

Definition kem_encapsulate (key : PublicKeyMaterial) : SM B Error (list Z * list Z) :=
  match key with
  | HybridKemPublic construction public_key =>
      sm_map_err (λ e, match e with HybridRandomnessUnavailable => #CKR_RANDOM_NO_RNG | _ => #CKR_KEY_TYPE_INCONSISTENT end)
        (hybrid_kem_encapsulate construction public_key)
  | MlKemPublic parameter_set public_key =>
      let! set := sm_lift (ok_or #CKR_KEY_TYPE_INCONSISTENT (ml_kem_set parameter_set)) in
      sm_map_err (λ e, match e with MlKemRandomnessUnavailable => #CKR_RANDOM_NO_RNG | _ => #CKR_KEY_TYPE_INCONSISTENT end)
        (ml_kem_encapsulate set public_key)
  | _ => sm_err #CKR_KEY_TYPE_INCONSISTENT
  end.

Definition kem_decapsulate (key : SoftwarePrivateKeyMaterial) (ciphertext : list Z) : outcome Error (list Z) :=
  match key with
  | MlKem key => ok_or #CKR_ENCRYPTED_DATA_LEN_RANGE (ml_kem_decapsulate key ciphertext)
  | HybridKem construction key => ok_or #CKR_ENCRYPTED_DATA_LEN_RANGE (hybrid_decapsulate construction key ciphertext)
  | _ => Err #CKR_KEY_TYPE_INCONSISTENT
  end.

(** [shared[..requested_length]] panics beyond the secret's end. *)
Definition ml_kem_secret_object (templ : list CK_ATTRIBUTE) (shared : list Z) (flags : Z) (logged_in : bool) (m : Z)
    : outcome Error TokenObject :=
  let? '(o, requested) := derived_secret_object templ ML_KEM_SHARED_SECRET_LENGTH ML_KEM_SHARED_SECRET_LENGTH in
  let? _ := if key_type o =? CKK_GENERIC_SECRET then bail (negb (requested =? ML_KEM_SHARED_SECRET_LENGTH)) #CKR_KEY_SIZE_RANGE
            else bail (negb (key_type o =? CKK_AES)) #CKR_TEMPLATE_INCONSISTENT in
  let? _ := validate_new_object_access o flags logged_in in
  if len shared <? requested then Panic
  else Ok (mark_derived m (o {{ material := SoftwareSecret (ztake requested shared) }}
                             {{ attributes -> always_sensitive := false }} {{ attributes -> never_extractable := false }})).

Abbreviation IO := (SM (Ctx * Output) Error).

Definition kem_public_key (m : Z) (o : TokenObject) : outcome Error PublicKeyMaterial :=
  let? _ := require_key_mechanism o m in
  let? expected := if negb (class o =? CKO_PUBLIC_KEY) then Err #CKR_KEY_TYPE_INCONSISTENT else kem_key_type m in
  let? _ := bail (negb (key_type o =? expected)) #CKR_KEY_TYPE_INCONSISTENT in
  let? _ := bail (negb (encapsulate (attributes o))) #CKR_KEY_FUNCTION_NOT_PERMITTED in
  projected_public_key o.

Definition kem_encapsulated (k m required : Z) (o : TokenObject) (key : PublicKeyMaterial) : M (list Z * list Z) :=
  match material o with
  | YubiHsm id _ _ _ _ =>
      let! response := on_session k (λ session, yubihsm_command session
                         (if m =? CKM_ML_KEM then encapsulate_ml_kem id else encapsulate_hybrid_kem id)) in
      let! _ := guard_err (negb (len response =? required + ML_KEM_SHARED_SECRET_LENGTH)) #CKR_DEVICE_ERROR in
      sm_ret (ztake required response, zdrop required response)
  | _ => on_slot (kem_encapsulate key)
  end.

(** The handle of the new key, or none when only the length was asked for. *)
Definition encapsulate_key_in (k : Z) (m : Z) (key_handle : Z) (templ : list CK_ATTRIBUTE) (key_null : bool)
    : IO (option Z) :=
  let! '(id, flags, logged_in) := sm_fst (session_details k) in
  let! _ := sm_fst (require_slot_mechanism id m CKF_ENCAPSULATE) in
  let! public := sm_fst (visible_key key_handle logged_in) in
  let! key := sm_lift (kem_public_key m public) in
  let! required := sm_lift (kem_ciphertext_length key) in
  let! null := output_null in
  if (null : bool) then let! _ := report_length required in sm_ret None
  else
    let! capacity := output_capacity in
    if capacity <? required then
      let! _ := report_length required in
      sm_err #CKR_BUFFER_TOO_SMALL
    else
      let! _ := guard_err key_null #CKR_ARGUMENTS_BAD in
      let! '(encapsulated, shared) := sm_fst (kem_encapsulated k m required public key) in
      let! o := sm_lift (ml_kem_secret_object templ shared flags logged_in m) in
      let! handle := sm_fst (publish_software_secret_object k id o) in
      let! _ := if len encapsulated =? required then copy_out encapsulated else sm_lift Panic in
      let! _ := report_length required in
      sm_ret (Some handle).

Definition decapsulate_key_in (k : Z) (m : Z) (key_handle : Z) (templ : list CK_ATTRIBUTE) (ciphertext : list Z) : M Z :=
  let! '(id, flags, logged_in) := session_details k in
  let! _ := require_slot_mechanism id m CKF_DECAPSULATE in
  let! private := visible_key key_handle logged_in in
  let! _ := sm_lift (require_key_mechanism private m) in
  let! expected := sm_lift (if negb (class private =? CKO_PRIVATE_KEY) then Err #CKR_KEY_TYPE_INCONSISTENT else kem_key_type m) in
  let! _ := guard_err (negb (key_type private =? expected)) #CKR_KEY_TYPE_INCONSISTENT in
  let! _ := guard_err (negb (decapsulate (attributes private))) #CKR_KEY_FUNCTION_NOT_PERMITTED in
  let! shared :=
    match material private with
    | SoftwarePrivate key => sm_lift (kem_decapsulate key ciphertext)
    | YubiHsm id _ algorithm _ _ =>
        let! required := sm_lift (ok_or #CKR_KEY_TYPE_INCONSISTENT
                           match yubihsm_ml_kem algorithm with
                           | Some set => Some (ml_kem_ciphertext_length set)
                           | None => hybrid_ciphertext_length <$> yubihsm_hybrid_kem algorithm
                           end) in
        let! _ := guard_err (negb (len ciphertext =? required)) #CKR_ENCRYPTED_DATA_LEN_RANGE in
        let! session := get_session k in
        let! command := sm_lift (if is_some (yubihsm_hybrid_kem algorithm) then decapsulate_hybrid_kem id ciphertext
                                 else decapsulate_ml_kem id ciphertext) in
        let! shared := on_slot (yubihsm_command session command) in
        let! _ := guard_err (negb (len shared =? ML_KEM_SHARED_SECRET_LENGTH)) #CKR_DEVICE_ERROR in
        sm_ret shared
    | PivPrivate slot algorithm pin_policy _ =>
        on_session k (λ session, piv_decapsulate session slot algorithm ciphertext pin_policy)
    | _ => sm_err #CKR_KEY_TYPE_INCONSISTENT
    end in
  let! o := sm_lift (ml_kem_secret_object templ shared flags logged_in m) in
  publish_software_secret_object k id o.

(** ** Generating inside a token *)

(** The attributes that the device cannot keep are stored beside it; the objects
    are read again whether that succeeds or not. *)
Definition set_hsm_attributes (id : Z) (imported requested : TokenObject) : M unit :=
  let given (v : list Z) := if bool_decide (v = []) then None else Some v in
  let! _ := get_slot id in
  sm_match (on_slot (yubihsm_set_attributes id (unique_id imported) (given (o_id requested)) (given (o_label requested))
                       (Some requested)))
    (λ _, refresh_slot_token_objects id)
    (λ e, let! _ := sm_ignore (refresh_slot_token_objects id) in sm_err e).

(** The object of the slot's device that passes a test. *)
Definition find_hsm_object (id : Z) (test : TokenObject → bool) : M (Z * TokenObject) :=
  let! objs := resolved_objects in
  sm_lift (ok_or #CKR_DEVICE_ERROR
             (List.find (λ entry, bool_decide (obj_slot_id entry.2 = Some id) && test entry.2) objs)).
Definition names_hsm_object (hsm_id : Z) (types : Z → bool) (o : TokenObject) : bool :=
  match material o with YubiHsm id object_type _ _ _ => (id =? hsm_id) && types object_type | _ => false end.

Definition generate_yubihsm_token_key_in_slot (k : Z) (m : CK_MECHANISM) (templ : list CK_ATTRIBUTE) : M Z :=
  let! '(id, flags, logged_in) := session_details k in
  let! '(o, command) := sm_lift (yubihsm_generate_key_command m templ) in
  let! _ := sm_lift (validate_new_object_access o flags logged_in) in
  let! response := on_session k (λ session, yubihsm_command session command) in
  let! hsm_id := sm_lift (parse_object_id response) in
  let! _ := refresh_slot_token_objects id in
  let! '(handle, imported) := find_hsm_object id (λ o, (class o =? CKO_SECRET_KEY) && names_hsm_object hsm_id (λ _, true) o) in
  let! _ := set_hsm_attributes id imported o in
  sm_ret handle.

Definition generate_software_token_key_in_slot (k : Z) (m : CK_MECHANISM) (templ : list CK_ATTRIBUTE) : M Z :=
  let! '(id, flags, logged_in) := session_details k in
  let! key := on_slot (generate_key_object m templ) in
  let! _ := sm_lift (validate_new_object_access key flags logged_in) in
  let! _ := guard_err (negb (private key)) #CKR_TEMPLATE_INCONSISTENT in
  persist_software_private_object id key.

(** [find_piv_key_handle_in_slot], [find_openpgp_key_handle_in_slot] *)
Definition find_card_key (id : Z) (cka : Z) (kind : Z) : M Z :=
  let! handle := find_handle (λ o, bool_decide (obj_slot_id o = Some id) && (class o =? kind) && bool_decide (o_id o = [cka])) in
  sm_lift (ok_or #CKR_DEVICE_ERROR handle).
Definition find_piv_key_handle_in_slot (id piv_slot kind : Z) : M Z := find_card_key id (cka_id piv_slot) kind.
Definition find_openpgp_key_handle_in_slot (id key_ref kind : Z) : M Z := find_card_key id key_ref kind.

Definition generate_piv_token_pair_in_slot (k : Z) (m : CK_MECHANISM) (public_template private_template : list CK_ATTRIBUTE)
    : M (Z * Z) :=
  let! '(id, flags, _) := session_details k in
  let! _ := require_so id in
  let! g := sm_lift (piv_generate_key_pair_parameters m public_template private_template) in
  let! _ := sm_lift (validate_new_object_access (gen_public g) flags true) in
  let! _ := sm_lift (validate_new_object_access (gen_private g) flags true) in
  let! replaced := piv_key_object_handles id (gen_slot g) in
  let! _ := get_slot id in
  let! _ := on_slot (piv_generate_key_pair (gen_slot g) (gen_algorithm g) (gen_pin_policy g) (gen_touch_policy g)) in
  let! _ := modify_state (λ s, foldl (λ s '(handle, _, _), remove_object_handle handle s) s replaced) in
  let! _ := refresh_slot_token_objects id in
  let! private_handle := find_piv_key_handle_in_slot id (gen_slot g) CKO_PRIVATE_KEY in
  let! public_handle := find_piv_key_handle_in_slot id (gen_slot g) CKO_PUBLIC_KEY in
  sm_ret (public_handle, private_handle).

Definition generate_openpgp_token_pair_in_slot (k : Z) (m : CK_MECHANISM) (public_template private_template : list CK_ATTRIBUTE)
    : M (Z * Z) :=
  let! '(id, flags, logged_in) := session_details k in
  let! g := sm_lift (openpgp_generate_key_pair_parameters m public_template private_template) in
  let! _ := sm_lift (validate_new_object_access (pgp_public g) flags logged_in) in
  let! _ := sm_lift (validate_new_object_access (pgp_private g) flags logged_in) in
  let! _ := get_slot id in
  let! _ := on_slot (openpgp_generate_key_pair (pgp_key_ref g) (pgp_algorithm g)) in
  let! _ := if pgp_touch_policy g =? 0 then sm_ret tt
            else let! _ := get_slot id in on_slot (openpgp_set_touch_policy (pgp_key_ref g) (pgp_touch_policy g)) in
  let! _ := refresh_slot_token_objects id in
  let! private_handle := find_openpgp_key_handle_in_slot id (pgp_key_ref g) CKO_PRIVATE_KEY in
  let! public_handle := find_openpgp_key_handle_in_slot id (pgp_key_ref g) CKO_PUBLIC_KEY in
  sm_ret (public_handle, private_handle).

(** An object is written into the YubiHSM and published; it is deleted again when
    it cannot be. *)
Definition publish_hsm_import (id hsm_id kind object_type : Z) (o : TokenObject) : M Z :=
  let test o := (class o =? kind) && names_hsm_object hsm_id (λ t, t =? object_type) o in
  let! _ := refresh_slot_token_objects id in
  let! '(_, imported) := find_hsm_object id test in
  let! _ := set_hsm_attributes id imported o in
  let! '(handle, _) := find_hsm_object id test in
  sm_ret handle.
Definition import_yubihsm_token_object_in_slot (k id : Z) (o : TokenObject) : M Z :=
  let! hardware := sm_lift (yubihsm_hardware_import_object o) in
  let! '(command, kind, object_type) := sm_lift (yubihsm_import_command hardware) in
  let! response := on_session k (λ session, yubihsm_command session command) in
  let! hsm_id := sm_lift (parse_object_id response) in
  sm_match (publish_hsm_import id hsm_id kind object_type o)
    sm_ret
    (λ e,
       let! session := get_session k in
       let! _ := sm_ignore (on_slot (yubihsm_command session (delete_object hsm_id object_type))) in
       let! _ := sm_ignore (refresh_slot_token_objects id) in
       sm_err e).
(** The stores of a YubiHSM's slot. *)
Definition store_yubihsm_token_key_in_slot (k : Z) (o : TokenObject) : M Z :=
  let! '(id, _, _) := session_details k in
  let public_wrap := (class o =? CKO_PUBLIC_KEY) && (key_type o =? CKK_RSA) && wrap (attributes o) in
  if supports_backed_object o && negb public_wrap then store_backed_object k o
  else import_yubihsm_token_object_in_slot k id o.

(** [b"Opaque object"] *)
Definition OPAQUE_OBJECT : list Z := [79; 112; 97; 113; 117; 101; 32; 111; 98; 106; 101; 99; 116].
Definition store_yubihsm_data_in_slot (k : Z) (o : TokenObject) : M Z :=
  let! '(id, _, _) := session_details k in
  let! _ := guard_err (private o) #CKR_TEMPLATE_INCONSISTENT in
  let! _ := guard_err (match material o with
                       | Data _ application object_id _ =>
                           (negb (bool_decide (application = [])) && negb (bool_decide (application = OPAQUE_OBJECT)))
                           || negb (bool_decide (object_id = []))
                       | _ => false
                       end) #CKR_ATTRIBUTE_VALUE_INVALID in
  import_yubihsm_token_object_in_slot k id o.

(** The public half of a pair that the device generated. *)
Definition publish_generated_projection (k id hsm_id : Z) (imported projected : TokenObject) : M Z :=
  if wrap (attributes projected) then import_yubihsm_token_object_in_slot k id projected
  else if token projected then
    let! _ := get_slot id in
    let! _ := on_slot (yubihsm_persist_public_projection id (unique_id imported) projected) in
    let! _ := refresh_slot_token_objects id in
    let! '(handle, _) := find_hsm_object id (λ o, (class o =? CKO_PUBLIC_KEY)
                           && names_hsm_object hsm_id (one_of [YUBIHSM_PUBLIC_KEY; YUBIHSM_WRAP_KEY_PUBLIC]) o) in
    sm_ret handle
  else store_backed_object k projected.

Definition generate_yubihsm_token_pair_in_slot (k : Z) (m : CK_MECHANISM) (public_template private_template : list CK_ATTRIBUTE)
    : M (Z * Z) :=
  let! '(id, flags, logged_in) := session_details k in
  let! '(private_object, public_object, command) :=
    sm_lift (yubihsm_generate_key_pair_command m public_template private_template) in
  let private_type := if bool_decide (cmd_code command = GenerateWrapKey) then YUBIHSM_WRAP_KEY else YUBIHSM_ASYMMETRIC_KEY in
  let! _ := sm_lift (validate_new_object_access private_object flags logged_in) in
  let! _ := sm_lift (validate_new_object_access public_object flags logged_in) in
  let! response := on_session k (λ session, yubihsm_command session command) in
  let! hsm_id := sm_lift (parse_object_id response) in
  let! _ := refresh_slot_token_objects id in
  let! '(private_handle, imported) :=
    find_hsm_object id (λ o, (class o =? CKO_PRIVATE_KEY) && names_hsm_object hsm_id (λ t, t =? private_type) o) in
  let! _ := set_hsm_attributes id imported private_object in
  let! found := resolve_object private_handle in
  let! imported := sm_lift (ok_or #CKR_DEVICE_ERROR found) in
  let! projected := on_slot (project_public_key_object imported public_template) in
  let projected :=
    if negb (wrap (attributes projected)) && negb (is_some (template_attribute public_template CKA_ID))
    then projected {{ attributes -> obj_id := o_id imported }} else projected in
  let! public_handle := publish_generated_projection k id hsm_id imported (mark_generated (mechanism m) projected) in
  sm_ret (public_handle, private_handle).

(** ** Entry points *)

Abbreviation MM := (SM (Module B P) Error).

(** A pointer the call writes a handle through. *)
Definition handle_pointer {S} (null : bool) : SM S Error unit := guard_err null #CKR_ARGUMENTS_BAD.
Definition mechanism_pointer {S} (m : option CK_MECHANISM) : SM S Error CK_MECHANISM := sm_lift (ok_or #CKR_ARGUMENTS_BAD m).

Definition generate_key (k : Z) (m : option CK_MECHANISM) (templ : option AttributeMemory) (count : Z) (key_null : bool) : MM Z :=
  let! _ := handle_pointer key_null in
  let! m := mechanism_pointer m in
  let! templ := sm_lift (attribute_array templ count) in
  with_session_context_mut k (generate_key_in k m templ).

Definition generate_key_pair (k : Z) (m : option CK_MECHANISM) (public_template : option AttributeMemory) (public_count : Z)
    (private_template : option AttributeMemory) (private_count : Z) (public_null private_null : bool) : MM (Z * Z) :=
  let! _ := with_session_context_mut k (let! _ := get_session k in sm_ret tt) in
  let! m := mechanism_pointer m in
  let! public_template := sm_lift (attribute_array public_template public_count) in
  let! private_template := sm_lift (attribute_array private_template private_count) in
  let! _ := handle_pointer public_null in
  let! _ := handle_pointer private_null in
  with_session_context_mut k (generate_key_pair_in k m public_template private_template).

(** [C_DeriveKey]: each mechanism reads its parameter before the template. *)
Definition derive_key (k : Z) (m : option CK_MECHANISM) (base : Z) (templ : option AttributeMemory) (count : Z) (key_null : bool)
    : MM Z :=
  let! _ := handle_pointer key_null in
  let! m := mechanism_pointer m in
  let with_template (f : list CK_ATTRIBUTE → M Z) : MM Z :=
    let! templ := sm_lift (attribute_array templ count) in
    let! _ := sm_lift (validate_unique_template templ) in
    with_session_context_mut k (f templ) in
  if mechanism m =? CKM_SP800_108_COUNTER_KDF then
    let! fields := sm_lift (counter_kdf_fields m) in
    with_template (counter_derive_in k (mechanism m) fields base)
  else if secret_derive_supports (mechanism m) then
    let! op := sm_lift (parse_secret_derive m) in
    with_template (secret_derive_in k (mechanism m) op base)
  else if mechanism m =? CKM_HKDF_DERIVE then
    let! r := sm_lift (hkdf_request m) in
    with_template (derive_hkdf_in k (mechanism m) r base)
  else if mechanism m =? CKM_PKCS11RS_PROJECT_PUBLIC_KEY then
    let! _ := guard_err (has_parameter m) #CKR_MECHANISM_PARAM_INVALID in
    with_template (project_public_key_in k (mechanism m) base)
  else if mechanism m =? CKM_PKCS11RS_PREVIEW_SIGN_DERIVE then
    let! context := sm_lift (from_raw_parts (as_bytes <$> pParameter m) (ulParameterLen m)) in
    with_template (preview_sign_derive_in k (mechanism m) context base)
  else if one_of [CKM_ECDH1_DERIVE; CKM_ECDH1_COFACTOR_DERIVE; CKM_PKCS11RS_PREFIXED_ECDH_DERIVE] (mechanism m) then
    let! r := sm_lift (if mechanism m =? CKM_PKCS11RS_PREFIXED_ECDH_DERIVE then prefixed_ecdh_request m else ecdh_request m) in
    with_template (ecdh_derive_in k (mechanism m) r base)
  else sm_err #CKR_MECHANISM_INVALID.

Abbreviation MO := (SM (Module B P * Output) Error).

Definition encapsulate_key (k : Z) (m : option CK_MECHANISM) (key : Z) (templ : option AttributeMemory) (count : Z)
    (key_null : bool) : MO (option Z) :=
  let! m := mechanism_pointer m in
  let! _ := sm_lift (require_kem_mechanism m) in
  let! templ := sm_lift (attribute_array templ count) in
  let! _ := sm_lift (validate_unique_template templ) in
  let! length := sm_gets (λ s, out_len s.2) in
  let! _ := sm_lift (ok_or #CKR_ARGUMENTS_BAD length) in
  with_session_output k (encapsulate_key_in k (mechanism m) key templ key_null).

Definition decapsulate_key (k : Z) (m : option CK_MECHANISM) (key : Z) (templ : option AttributeMemory) (count : Z)
    (ciphertext : option (list Z)) (ciphertext_len : Z) (key_null : bool) : MM Z :=
  let! m := mechanism_pointer m in
  let! _ := sm_lift (require_kem_mechanism m) in
  let! templ := sm_lift (attribute_array templ count) in
  let! _ := sm_lift (validate_unique_template templ) in
  let! ciphertext := sm_lift (from_raw_parts ciphertext ciphertext_len) in
  let! _ := handle_pointer key_null in
  with_session_context_mut k (decapsulate_key_in k (mechanism m) key templ ciphertext).

(** [C_SeedRandom] and [C_GenerateRandom]; the answer is what is written through
    the pointer. *)
Definition seed_random (k : Z) : MM unit :=
  with_session_context_mut k (let! _ := get_session k in sm_err #CKR_RANDOM_SEED_NOT_SUPPORTED).
Definition generate_random_bytes (k : Z) (buffer : option (list Z)) (length : Z) : MM (list Z) :=
  with_session_context_mut k
    (let! _ := sm_lift (from_raw_parts buffer length) in
     let! session := get_session k in
     let! _ := reconcile_login_state (slotID session) in
     let! _ := get_slot (slotID session) in
     let! _ := on_slot ensure_backend_read_session in
     on_session k (λ session, generate_random session length)).
End key_api.
