(* ===== verification/KeyWrap.v ===== *)
(** * KeyWrap: wrapping and unwrapping keys

    Models [src/src/api/wrap.rs]: [C_WrapKey] and [C_UnwrapKey] with a key that the
    module holds (AES key wrap, RSA and their combination) and with a key inside a
    YubiHSM. The PKCS #8 encoding of private keys is the class [Pkcs8]. *)
From coqutil Require Import Datatypes.RecordSetters.
From S2P Require Import Prelude Errors LoginSelectors Storage Mechanisms AttributeTypes KeyMetadata YubiHsm SlotState SessionApi CryptApi Digests CipherModes Ciphers SignatureModes OathOtp HsmCapabilities HsmCommands PivTables Attributes MechanismTables KeyMechanisms Templates ObjectImport KeyTemplates SecretDerivation ObjectApi KeyApi.
Import DoubleBraceUpdate.

(** [material_to_pkcs8] and [material_from_pkcs8] of [src/src/software_storage.rs],
    and [RsaPrivateKey::validate_for_import]. *)
Class Pkcs8 : Type := {
  material_to_pkcs8 : SoftwarePrivateKeyMaterial → outcome Error (list Z);
  material_from_pkcs8 : list Z → outcome Error SoftwarePrivateKeyMaterial;
  rsa_validate_for_import : RsaPrivateKey → option RsaPrivateKey;
}.

(** A key is accepted when its encoding is the one the module would write; RSA
    and post-quantum keys are normalised instead. *)
Definition material_from_bare_pkcs8 `{Pkcs8} (encoded : list Z) : outcome Error SoftwarePrivateKeyMaterial :=
  let? key := material_from_pkcs8 encoded in
  match key with
  | SigningRsa key => omap_ok SigningRsa (ok_or #CKR_DATA_INVALID (rsa_validate_for_import key))
  | SigningMlDsa _ _ | MlKem _ => Ok key
  | _ =>
      let? canonical := material_to_pkcs8 key in
      let? _ := bail (negb (bool_decide (canonical = encoded))) #CKR_DATA_INVALID in
      Ok key
  end.

(** ** Mechanisms *)

Record RsaAesWrapParameters : Type := mkRsaAesWrap { aes_key_length : Z; wrap_oaep : Z * Z * list Z }.
Inductive YubiHsmWrapMechanism : Type :=
| WrapAesCcm (format : Z) | WrapRsa (full_object : bool) (parameters : RsaAesWrapParameters) | WrapRsaPkcs.
Inductive SoftwareAesWrapMechanism : Type := Kw (iv : list Z) | Kwp (iv : list Z).
Inductive SoftwareWrapMechanism : Type :=
| SoftAes (mechanism : SoftwareAesWrapMechanism) | SoftRsaPkcs | SoftRsaOaep (oaep : Z * Z * list Z)
| SoftRsaAes (parameters : RsaAesWrapParameters).
Inductive SoftwareWrappingKey : Type := WrappingAes (key : list Z) | WrappingRsa (key : RsaPublicKey).

Definition rsa_wrap_hash_algorithm (m : Z) : outcome Error (Z * MessageDigest) :=
  if m =? CKM_SHA_1 then Ok (YUBIHSM_ALGO_RSA_OAEP_SHA1, HashSha1)
  else if m =? CKM_SHA256 then Ok (YUBIHSM_ALGO_RSA_OAEP_SHA256, HashSha256)
  else if m =? CKM_SHA384 then Ok (YUBIHSM_ALGO_RSA_OAEP_SHA384, HashSha384)
  else if m =? CKM_SHA512 then Ok (YUBIHSM_ALGO_RSA_OAEP_SHA512, HashSha512)
  else Err #CKR_MECHANISM_PARAM_INVALID.

(** The default initial values of AES key wrap and of the padded variant. *)
Definition KW_IV : list Z := replicate 8 0xa6.
Definition KWP_IV : list Z := [0xa6; 0x59; 0x59; 0xa6].

Section mechanisms.
Context `{HashCore}.

Definition parse_rsa_aes_wrap_parameters (m : CK_MECHANISM) : outcome Error RsaAesWrapParameters :=
  let? p := sized_parameter ((λ memory, as_rsa_aes (as_key memory)) <$> pParameter m) (ulParameterLen m) SIZE_OF_RSA_AES_PARAMS in
  let? aes_key_length := if ulAESKeyBits p =? 128 then Ok 16
                         else if ulAESKeyBits p =? 192 then Ok 24
                         else if ulAESKeyBits p =? 256 then Ok 32
                         else Err #CKR_MECHANISM_PARAM_INVALID in
  let oaep_memory (oaep : CK_RSA_PKCS_OAEP_PARAMS) := (byte_memory []) {{ as_oaep := oaep }} in
  let? oaep := parse_rsa_oaep_parameters
                 (mkMechanism CKM_RSA_PKCS_OAEP (oaep_memory <$> pOAEPParams p) SIZE_OF_OAEP_PARAMS) in
  Ok (mkRsaAesWrap aes_key_length oaep).

(** The device's codes: AES key, hash, mask generation, and the label's digest. *)
Definition yubihsm_rsa_aes_parameters (p : RsaAesWrapParameters) : outcome Error (Z * Z * Z * list Z) :=
  let? aes_algorithm := if aes_key_length p =? 16 then Ok YUBIHSM_ALGO_AES128
                        else if aes_key_length p =? 24 then Ok YUBIHSM_ALGO_AES192
                        else if aes_key_length p =? 32 then Ok YUBIHSM_ALGO_AES256
                        else Err #CKR_MECHANISM_PARAM_INVALID in
  let '(mgf, hash_mechanism, label_digest) := wrap_oaep p in
  let? '(hash_algorithm, _) := rsa_wrap_hash_algorithm hash_mechanism in
  let? mgf1_algorithm := if mgf =? 32 then Ok YUBIHSM_ALGO_MGF1_SHA1
                         else if mgf =? 33 then Ok YUBIHSM_ALGO_MGF1_SHA256
                         else if mgf =? 34 then Ok YUBIHSM_ALGO_MGF1_SHA384
                         else if mgf =? 35 then Ok YUBIHSM_ALGO_MGF1_SHA512
                         else Err #CKR_MECHANISM_PARAM_INVALID in
  Ok (aes_algorithm, hash_algorithm, mgf1_algorithm, label_digest).

Definition parse_yubihsm_wrap_mechanism (m : CK_MECHANISM) : outcome Error YubiHsmWrapMechanism :=
  if mechanism m =? CKM_RSA_PKCS then
    let? _ := bail (has_parameter m) #CKR_MECHANISM_PARAM_INVALID in
    Ok WrapRsaPkcs
  else if mechanism m =? CKM_YUBICO_AES_CCM_WRAP then
    match pParameter m with
    | None =>
        let? _ := bail (negb (ulParameterLen m =? 0)) #CKR_MECHANISM_PARAM_INVALID in
        Ok (WrapAesCcm 0)
    | Some memory =>
        let? _ := bail (negb (ulParameterLen m =? SIZE_OF_CCM_WRAP_PARAMS)) #CKR_MECHANISM_PARAM_INVALID in
        let? _ := bail (1 <? as_ulong memory) #CKR_MECHANISM_PARAM_INVALID in
        Ok (WrapAesCcm (as_ulong memory))
    end
  else if (mechanism m =? CKM_RSA_AES_KEY_WRAP) || (mechanism m =? CKM_YUBICO_RSA_WRAP) then
    let? parameters := parse_rsa_aes_wrap_parameters m in
    let? _ := yubihsm_rsa_aes_parameters parameters in
    Ok (WrapRsa (mechanism m =? CKM_YUBICO_RSA_WRAP) parameters)
  else Err #CKR_MECHANISM_INVALID.

Definition parse_software_aes_wrap_mechanism (m : CK_MECHANISM) : outcome Error SoftwareAesWrapMechanism :=
  if mechanism m =? CKM_AES_KEY_WRAP then omap_ok Kw (parse_key_wrap_iv m KW_IV)
  else if mechanism m =? CKM_AES_KEY_WRAP_KWP then omap_ok Kwp (parse_key_wrap_iv m KWP_IV)
  else Err #CKR_MECHANISM_INVALID.

Definition parse_software_wrap_mechanism (m : CK_MECHANISM) : outcome Error SoftwareWrapMechanism :=
  if (mechanism m =? CKM_AES_KEY_WRAP) || (mechanism m =? CKM_AES_KEY_WRAP_KWP) then
    omap_ok SoftAes (parse_software_aes_wrap_mechanism m)
  else if mechanism m =? CKM_RSA_PKCS then
    let? _ := bail (has_parameter m) #CKR_MECHANISM_PARAM_INVALID in
    Ok SoftRsaPkcs
  else if mechanism m =? CKM_RSA_PKCS_OAEP then omap_ok SoftRsaOaep (parse_rsa_oaep_parameters m)
  else if mechanism m =? CKM_RSA_AES_KEY_WRAP then omap_ok SoftRsaAes (parse_rsa_aes_wrap_parameters m)
  else Err #CKR_MECHANISM_INVALID.
End mechanisms.

(** ** Errors *)

Definition software_unwrap_error (e : Error) : Error :=
  match e with
  | Generic rv =>
      if one_of [CKR_ENCRYPTED_DATA_INVALID; CKR_DATA_INVALID] rv then #CKR_WRAPPED_KEY_INVALID
      else if one_of [CKR_ENCRYPTED_DATA_LEN_RANGE; CKR_DATA_LEN_RANGE] rv then #CKR_WRAPPED_KEY_LEN_RANGE
      else e
  | _ => e
  end.
Definition software_wrap_error (e : Error) : Error :=
  match e with
  | Generic rv => if one_of [CKR_DATA_LEN_RANGE; CKR_ENCRYPTED_DATA_LEN_RANGE] rv then #CKR_KEY_SIZE_RANGE else e
  | _ => e
  end.

(** ** Wrapping with a key of the module *)

(** [a.saturating_sub(b)] *)
Definition saturating_sub (a b : Z) : Z := Z.max 0 (a - b).

(** [n.div_ceil(8) + 1] blocks of eight bytes, as KWP makes. *)
Definition kwp_length (n : Z) : outcome Error Z :=
  ok_or #CKR_KEY_SIZE_RANGE (semiblocks ← checked_add (div_ceil n 8) 1; checked_mul semiblocks 8).

Definition software_wrapped_key_length `{HashCore} (m : SoftwareWrapMechanism) (key : SoftwareWrappingKey) (n : Z) : outcome Error Z :=
  match m, key with
  | SoftAes (Kw _), WrappingAes _ =>
      let? _ := bail ((n <? 16) || negb (is_multiple_of n 8)) #CKR_KEY_SIZE_RANGE in
      ok_or #CKR_KEY_SIZE_RANGE (checked_add n 8)
  | SoftAes (Kwp _), WrappingAes _ =>
      let? _ := bail ((n =? 0) || (U32_MAX <? n)) #CKR_KEY_SIZE_RANGE in
      kwp_length n
  | SoftRsaPkcs, WrappingRsa key =>
      let? _ := bail (saturating_sub (rsa_size key) 11 <? n) #CKR_KEY_SIZE_RANGE in
      Ok (rsa_size key)
  | SoftRsaOaep (_, _, label_digest), WrappingRsa key =>
      let? _ := bail (saturating_sub (rsa_size key) (2 * len label_digest + 2) <? n) #CKR_KEY_SIZE_RANGE in
      Ok (rsa_size key)
  | SoftRsaAes p, WrappingRsa key =>
      let? _ := bail ((n =? 0) || (U32_MAX <? n)) #CKR_KEY_SIZE_RANGE in
      let '(_, hash_mechanism, label_digest) := wrap_oaep p in
      let? digest := digest_for_hash_mechanism hash_mechanism in
      let? _ := bail ((saturating_sub (rsa_size key) (2 * hash_size digest + 2) <? aes_key_length p)
                      || negb (len label_digest =? hash_size digest)) #CKR_WRAPPING_KEY_SIZE_RANGE in
      let? wrapped_target := kwp_length n in
      ok_or #CKR_KEY_SIZE_RANGE (checked_add (rsa_size key) wrapped_target)
  | _, _ => Err #CKR_WRAPPING_KEY_TYPE_INCONSISTENT
  end.

Section software_wrap.
Context {B : Type} `{HashCore, SymmetricCore, RsaCore B, KeyGenerator B}.

Definition transform_software_wrapped_key {S} (m : SoftwareAesWrapMechanism) (key input : list Z) (encrypting : bool)
    : SM S Error (list Z) :=
  let block (b : list Z) (e : bool) : SM S Error (list Z) := sm_lift (software_crypt_ecb_blocks key b e) in
  match m with
  | Kw iv => aes_key_wrap_transform input encrypting iv block
  | Kwp iv => aes_kwp_transform input encrypting iv block
  end.

Definition software_rsa_wrap (m : SoftwareWrapMechanism) (key : RsaPublicKey) (input : list Z) : SM B Error (list Z) :=
  match m with
  | SoftRsaPkcs => rsa_pkcs1_encrypt key input
  | SoftRsaOaep (mgf, hash_mechanism, label_digest) =>
      let! encoded := rsa_oaep_pad input (rsa_size key) mgf hash_mechanism label_digest in
      sm_lift (rsa_public_operation key encoded)
  | SoftAes _ | SoftRsaAes _ => sm_err #CKR_MECHANISM_INVALID
  end.

Definition software_rsa_unwrap (m : SoftwareWrapMechanism) (key : RsaPrivateKey) (input : list Z) : outcome Error (list Z) :=
  let? _ := bail (negb (len input =? rsa_private_size key)) #CKR_WRAPPED_KEY_LEN_RANGE in
  let? decoded := map_err software_unwrap_error (rsa_private_operation key input) in
  match m with
  | SoftRsaPkcs => map_err software_unwrap_error (rsa_pkcs1_v1_5_unpad (B := B) decoded)
  | SoftRsaOaep (mgf, hash_mechanism, label_digest) =>
      map_err software_unwrap_error (rsa_oaep_unpad (B := B) decoded mgf hash_mechanism label_digest)
  | SoftAes _ | SoftRsaAes _ => Err #CKR_MECHANISM_INVALID
  end.

(** A fresh AES key wraps the target, and the RSA key wraps the AES key. *)
Definition software_rsa_aes_wrap (p : RsaAesWrapParameters) (key : RsaPublicKey) (input : list Z) : SM B Error (list Z) :=
  let! temporary_key := sm_map_err (λ _, #CKR_RANDOM_NO_RNG) (getrandom_fill (aes_key_length p)) in
  let! wrapped_temporary_key := software_rsa_wrap (SoftRsaOaep (wrap_oaep p)) key temporary_key in
  let! wrapped_target := transform_software_wrapped_key (Kwp KWP_IV) temporary_key input true in
  sm_ret (wrapped_temporary_key ++ wrapped_target).

Definition software_rsa_aes_unwrap (p : RsaAesWrapParameters) (key : RsaPrivateKey) (input : list Z) : SM B Error (list Z) :=
  let rsa_length := rsa_private_size key in
  let! _ := guard_err (len input <? rsa_length + 16) #CKR_WRAPPED_KEY_LEN_RANGE in
  let! temporary_key := sm_lift (software_rsa_unwrap (SoftRsaOaep (wrap_oaep p)) key (ztake rsa_length input)) in
  let! _ := guard_err (negb (len temporary_key =? aes_key_length p)) #CKR_WRAPPED_KEY_INVALID in
  sm_map_err software_unwrap_error
    (transform_software_wrapped_key (Kwp KWP_IV) temporary_key (zdrop rsa_length input) false).
End software_wrap.

(** ** What an unwrapped key becomes *)

Definition WRAPPED_PRIVATE_TYPES : list Z := [CKK_RSA; CKK_EC; CKK_EC_EDWARDS; CKK_EC_MONTGOMERY].

Definition software_unwrap_template (templ : list CK_ATTRIBUTE) : outcome Error TokenObject :=
  let? _ := validate_unique_template templ in
  let? requested_class := optional_ulong_template_attribute templ CKA_CLASS in
  let? requested_type := optional_ulong_template_attribute templ CKA_KEY_TYPE in
  let kind := default (if match requested_type with Some t => one_of WRAPPED_PRIVATE_TYPES t | None => false end
                       then CKO_PRIVATE_KEY else CKO_SECRET_KEY) requested_class in
  let? start :=
    if kind =? CKO_SECRET_KEY then Ok (TokenObjectTemplate_default {{ t_class := Some kind }})
    else if kind =? CKO_PRIVATE_KEY then
      Ok (TokenObjectTemplate_default {{ t_class := Some kind; t_private := true; t_extractable := Some true }})
    else Err #CKR_TEMPLATE_INCONSISTENT in
  let? t := for_attributes apply_or_error templ start in
  let? o := map_err Generic (if kind =? CKO_SECRET_KEY then into_software_secret_object t else into_object t) in
  let supported := if class o =? CKO_SECRET_KEY
                   then one_of [CKK_GENERIC_SECRET; CKK_AES] (key_type o) || is_hmac_key_type (key_type o)
                   else (class o =? CKO_PRIVATE_KEY) && one_of WRAPPED_PRIVATE_TYPES (key_type o) in
  let? _ := bail (negb supported || ((class o =? CKO_SECRET_KEY) && token o && negb (private o))) #CKR_TEMPLATE_INCONSISTENT in
  Ok (o {{ attributes -> always_sensitive := false }} {{ attributes -> never_extractable := false }}
        {{ attributes -> local := false }} {{ attributes -> key_gen_mechanism := None }}).

(** ** Wrapping inside a YubiHSM *)

Definition yubihsm_material (o : TokenObject) : outcome Error (Z * Z * Z) :=
  match material o with
  | YubiHsm id object_type algorithm _ _ => Ok (id, object_type, algorithm)
  | _ => Err #CKR_KEY_TYPE_INCONSISTENT
  end.

Definition validate_yubihsm_wrapping_key (o : TokenObject) (m : YubiHsmWrapMechanism) (unwrapping : bool)
    : outcome Error (Z * Z) :=
  let? '(id, object_type, algorithm) := yubihsm_material o in
  let compatible :=
    match m with
    | WrapAesCcm _ => (object_type =? YUBIHSM_WRAP_KEY) && is_yubihsm_ccm_wrap algorithm
    | WrapRsa _ _ =>
        (if unwrapping then object_type =? YUBIHSM_WRAP_KEY
         else one_of [YUBIHSM_WRAP_KEY; YUBIHSM_WRAP_KEY_PUBLIC; YUBIHSM_PUBLIC_WRAP_KEY] object_type)
        && is_yubihsm_rsa algorithm
    | WrapRsaPkcs =>
        (object_type =? (if unwrapping then YUBIHSM_WRAP_KEY else YUBIHSM_PUBLIC_WRAP_KEY)) && is_yubihsm_rsa algorithm
    end in
  let? _ := bail (negb compatible)
              (if unwrapping then #CKR_UNWRAPPING_KEY_TYPE_INCONSISTENT else #CKR_WRAPPING_KEY_TYPE_INCONSISTENT) in
  Ok (id, object_type).

Definition parse_yubihsm_import_response (response : list Z) : outcome Error (Z * Z) :=
  match response with
  | [object_type; high; low] => Ok (object_type, of_be16 high low)
  | _ => Err #CKR_DEVICE_ERROR
  end.

Record YubiHsmUnwrapTemplate : Type := mkUnwrapTemplate {
  unwrap_object : TokenObject; hardware_id : Z; hardware_label : list Z; unwrap_capabilities : list Z; unwrap_algorithm : Z;
}.
Definition unwrap_parameters (t : YubiHsmUnwrapTemplate) : ObjectParameters :=
  mkObjectParameters (hardware_id t) (hardware_label t) 0xffff (unwrap_capabilities t) (unwrap_algorithm t).

(** The loop keeps the key's parameters and whether it may be exported under
    wrap beside the template. *)
Record UnwrapAttributes : Type := mkUnwrapAttributes {
  ua_template : TokenObjectTemplate; ua_modulus_bits : option Z; ua_ec_parameters : option (list Z); ua_value_len : option Z;
  ua_exportable : bool;
}.
Definition unwrap_attribute (a : CK_ATTRIBUTE) (s : UnwrapAttributes) : outcome Error UnwrapAttributes :=
  if attr_type a =? CKA_MODULUS_BITS then
    omap_ok (λ v, s {{ ua_modulus_bits := Some v }}) (map_err Generic (read_ulong_template_attribute a))
  else if attr_type a =? CKA_EC_PARAMS then
    omap_ok (λ v, s {{ ua_ec_parameters := Some v }}) (map_err Generic (read_attribute_value a))
  else if attr_type a =? CKA_VALUE_LEN then
    omap_ok (λ v, s {{ ua_value_len := Some v }}) (map_err Generic (read_ulong_template_attribute a))
  else if attr_type a =? CKA_EXTRACTABLE then
    omap_ok (λ v, s {{ ua_exportable := v }}) (map_err Generic (read_bool_template_attribute a))
  else omap_ok (λ t, s {{ ua_template := t }}) (apply_or_error a (ua_template s)).

Definition unwrap_algorithm_of (o : TokenObject) (s : UnwrapAttributes) : outcome Error Z :=
  if (class o =? CKO_PRIVATE_KEY) && (key_type o =? CKK_RSA) then
    let? bits := ok_or #CKR_TEMPLATE_INCOMPLETE (ua_modulus_bits s) in
    if bits =? 2048 then Ok YUBIHSM_ALGO_RSA_2048
    else if bits =? 3072 then Ok YUBIHSM_ALGO_RSA_3072
    else if bits =? 4096 then Ok YUBIHSM_ALGO_RSA_4096
    else Err #CKR_KEY_SIZE_RANGE
  else if (class o =? CKO_PRIVATE_KEY) && one_of [CKK_EC; CKK_EC_EDWARDS; CKK_EC_MONTGOMERY] (key_type o) then
    let? parameters := ok_or #CKR_TEMPLATE_INCOMPLETE (ua_ec_parameters s) in
    let? algorithm := yubihsm_ec_algorithm parameters in
    let compatible := if key_type o =? CKK_EC then is_yubihsm_ec algorithm
                      else if key_type o =? CKK_EC_EDWARDS then is_yubihsm_edwards algorithm
                      else is_yubihsm_montgomery algorithm in
    let? _ := bail (negb compatible) #CKR_CURVE_NOT_SUPPORTED in
    Ok algorithm
  else if (class o =? CKO_SECRET_KEY) && (key_type o =? CKK_AES) then
    let? n := ok_or #CKR_TEMPLATE_INCOMPLETE (ua_value_len s) in
    yubihsm_aes_algorithm n
  else Err #CKR_TEMPLATE_INCONSISTENT.

Definition unwrap_uses_consistent (o : TokenObject) : bool :=
  (negb (sign o) || one_of [CKK_RSA; CKK_EC; CKK_EC_EDWARDS; CKK_AES] (key_type o))
  && (negb (derive (attributes o)) || one_of [CKK_EC; CKK_EC_MONTGOMERY] (key_type o))
  && (negb (decrypt o) || one_of [CKK_RSA; CKK_AES] (key_type o))
  && (negb (encrypt o) || (key_type o =? CKK_AES))
  && (negb (verify o) || (key_type o =? CKK_AES)).

Definition parse_yubihsm_unwrap_template (templ : list CK_ATTRIBUTE) : outcome Error YubiHsmUnwrapTemplate :=
  let? _ := validate_unique_template templ in
  let? s := for_attributes unwrap_attribute templ
              (mkUnwrapAttributes
                 (TokenObjectTemplate_default
                    {{ t_token := true; t_private := true; t_sensitive := Some true; t_extractable := Some false }})
                 None None None false) in
  let? o := map_err Generic (into_object (ua_template s)) in
  let? _ := bail (negb (token o) || negb (private o) || negb (o_sensitive o)) #CKR_TEMPLATE_INCONSISTENT in
  let? algorithm := unwrap_algorithm_of o s in
  let? _ := bail (negb (unwrap_uses_consistent o)) #CKR_TEMPLATE_INCONSISTENT in
  let object_type := if class o =? CKO_PRIVATE_KEY then YUBIHSM_ASYMMETRIC_KEY else YUBIHSM_SYMMETRIC_KEY in
  let usages := mkUsages false false (encrypt o) (decrypt o) (sign o) (verify o) (derive (attributes o)) false false
                  (ua_exportable s) in
  let? hardware := yubihsm_hardware_import_object o in
  let? id := yubihsm_id (o_id hardware) in
  Ok (mkUnwrapTemplate o id (o_label hardware) (yubihsm_attributes_to_capabilities object_type algorithm usages) algorithm).

(** ** The entry points *)

Section wrap_api.
Context {B P : Type} `{Slot B} `{StorageProvider P} `{Sha3, MiniCbor} `{BackedObjects}
  `{Environment B P} `{CryptBackend B} `{RsaCore B, SignatureCore B, KeyCore, KeyImport, Certificates, PreviewSignRecords, HashCore, SymmetricCore}
  `{LazyCells B, ObjectBackend B, ObjectStores B P, KeyGenerator B, Pkcs8}.
Abbreviation Ctx := (SlotContext B P).
Abbreviation M := (SM Ctx Error).
Abbreviation IO := (SM (Ctx * Output) Error).

(** Whether a key has the attributes that a policy asks for. *)
Definition matches_policy_entry (o : TokenObject) (t : Z) (expected : KeyAttributeValue) : M bool :=
  match policy_u64_to_ulong t with
  | None => sm_ret false
  | Some t =>
      match expected with
      | ValueTemplate expected =>
          sm_ret match policy_template t o with
                 | Some actual => bool_decide (actual = expected)
                 | None => bool_decide (expected = [])
                 end
      | _ =>
          if negb (supports_attribute o t) || attribute_is_sensitive o t then sm_ret false
          else
            let! bytes := plain_attribute_value o t in
            sm_ret match bytes with
                   | Some bytes => match semantic_native_value t bytes with Ok v => bool_decide (v = expected) | _ => false end
                   | None => false
                   end
      end
  end.
Fixpoint matches_policy_template (o : TokenObject) (template : KeyAttributes) : M bool :=
  match template with
  | [] => sm_ret true
  | (t, expected) :: rest =>
      let! matched := matches_policy_entry o t expected in
      if (matched : bool) then matches_policy_template o rest else sm_ret false
  end.
Definition wrap_policy_allows (wrapper target : TokenObject) : M bool :=
  match policy_wrap (policy_templates (attributes wrapper)) with
  | Some template => matches_policy_template target template
  | None => sm_ret true
  end.

(** What is wrapped of a key, and whether it is a private key. *)
Definition wrap_target_value (target : TokenObject) : outcome Error (list Z * bool) :=
  match material target with
  | SoftwareSecret value => Ok (value, false)
  | SoftwarePrivate key => omap_ok (λ encoded, (encoded, true)) (material_to_pkcs8 key)
  | _ => Err #CKR_KEY_NOT_WRAPPABLE
  end.
Definition wraps_private_keys (m : SoftwareWrapMechanism) : bool :=
  match m with SoftAes (Kwp _) | SoftRsaAes _ => true | _ => false end.

Definition software_wrapping_key (m : SoftwareWrapMechanism) (wrapper : TokenObject) : outcome Error SoftwareWrappingKey :=
  match m with
  | SoftAes _ =>
      match material wrapper with
      | SoftwareSecret value =>
          let? _ := bail (negb (key_type wrapper =? CKK_AES)) #CKR_WRAPPING_KEY_TYPE_INCONSISTENT in
          Ok (WrappingAes value)
      | _ => Err #CKR_WRAPPING_KEY_TYPE_INCONSISTENT
      end
  | SoftRsaPkcs | SoftRsaOaep _ | SoftRsaAes _ =>
      let? _ := bail (negb (class wrapper =? CKO_PUBLIC_KEY) || negb (key_type wrapper =? CKK_RSA))
                  #CKR_WRAPPING_KEY_TYPE_INCONSISTENT in
      let? key := map_err (λ _, #CKR_WRAPPING_KEY_TYPE_INCONSISTENT) (projected_public_key wrapper) in
      match key with RsaPublic key => Ok (WrappingRsa key) | _ => Err #CKR_WRAPPING_KEY_TYPE_INCONSISTENT end
  end.

Definition software_wrapped (m : SoftwareWrapMechanism) (key : SoftwareWrappingKey) (value : list Z) : SM B Error (list Z) :=
  match m, key with
  | SoftAes aes, WrappingAes key => sm_map_err software_wrap_error (transform_software_wrapped_key aes key value true)
  | SoftRsaPkcs, WrappingRsa key | SoftRsaOaep _, WrappingRsa key =>
      sm_map_err software_wrap_error (software_rsa_wrap m key value)
  | SoftRsaAes p, WrappingRsa key => sm_map_err software_wrap_error (software_rsa_aes_wrap p key value)
  | _, _ => sm_err #CKR_WRAPPING_KEY_TYPE_INCONSISTENT
  end.

Definition is_software_wrapper (m : KeyMaterial) : bool :=
  match m with SoftwareSecret _ | SoftwarePrivate _ | Public _ => true | _ => false end.

(** The checks before a key of the module wraps another: what is wrapped, and
    with what. *)
Definition software_wrap_request (id : Z) (logged_in : bool) (m : CK_MECHANISM) (wrapper : TokenObject) (key : Z)
    : M (SoftwareWrapMechanism * SoftwareWrappingKey * list Z) :=
  let! parsed := sm_lift (parse_software_wrap_mechanism m) in
  let! _ := require_slot_mechanism id (mechanism m) CKF_WRAP in
  let! target := visible_key key logged_in in
  let! _ := guard_err (negb (o_extractable target) || never_extractable (attributes target)) #CKR_KEY_UNEXTRACTABLE in
  let! '(value, private_target) := sm_lift (wrap_target_value target) in
  let! _ := guard_err (private_target && negb (wraps_private_keys parsed)) #CKR_KEY_NOT_WRAPPABLE in
  let! _ := guard_err (negb (is_visible_to logged_in wrapper)) #CKR_WRAPPING_KEY_HANDLE_INVALID in
  let! allowed := wrap_policy_allows wrapper target in
  let! _ := guard_err (negb allowed) #CKR_KEY_HANDLE_INVALID in
  let! _ := guard_err (wrap_with_trusted (attributes target)) #CKR_KEY_NOT_WRAPPABLE in
  let! _ := sm_lift (require_key_mechanism wrapper (mechanism m)) in
  let! _ := guard_err (negb (can_wrap wrapper)) #CKR_KEY_FUNCTION_NOT_PERMITTED in
  let! wrapping := sm_lift (software_wrapping_key parsed wrapper) in
  sm_ret (parsed, wrapping, value).

Definition software_wrap_key_in (id : Z) (logged_in : bool) (m : CK_MECHANISM) (wrapper : TokenObject) (key : Z) : IO unit :=
  let! '(parsed, wrapping, value) := sm_fst (software_wrap_request id logged_in m wrapper key) in
  let! required := sm_lift (software_wrapped_key_length parsed wrapping (len value)) in
  let! null := output_null in
  if (null : bool) then report_length required
  else
    let! capacity := output_capacity in
    if capacity <? required then
      let! _ := report_length required in
      sm_err #CKR_BUFFER_TOO_SMALL
    else
      let! response := sm_fst (on_slot (software_wrapped parsed wrapping value)) in
      let! _ := guard_err (negb (len response =? required)) #CKR_DEVICE_ERROR in
      let! _ := copy_out response in
      report_length (len response).

(** The command that makes a YubiHSM export a key. *)
Definition yubihsm_wrap_command (m : YubiHsmWrapMechanism) (wrapping_id target_type target_id : Z) : outcome Error Command :=
  match m with
  | WrapAesCcm format => Ok (export_wrapped wrapping_id target_type target_id (Some format))
  | WrapRsa full_object parameters =>
      let? '(aes_algorithm, hash_algorithm, mgf1_algorithm, label_digest) := yubihsm_rsa_aes_parameters parameters in
      rsa_wrap (if full_object then ExportRsaWrapped else GetRsaWrappedKey)
        (mkRsaWrap wrapping_id target_type target_id aes_algorithm hash_algorithm mgf1_algorithm label_digest)
  | WrapRsaPkcs =>
      let? _ := bail (negb (target_type =? YUBIHSM_SYMMETRIC_KEY)) #CKR_KEY_NOT_WRAPPABLE in
      rsa_pkcs_wrap_key wrapping_id target_type target_id
  end.

Definition yubihsm_wrap_request (id : Z) (logged_in : bool) (m : CK_MECHANISM) (wrapper : TokenObject) (key : Z) : M Command :=
  let! parsed := sm_lift (parse_yubihsm_wrap_mechanism m) in
  let! _ := guard_err (negb logged_in) #CKR_USER_NOT_LOGGED_IN in
  let! _ := require_slot_mechanism id (mechanism m) CKF_WRAP in
  let! target := visible_key key logged_in in
  let! '(target_id, target_type, _) := sm_lift (map_err (λ _, #CKR_KEY_HANDLE_INVALID) (yubihsm_material target)) in
  let! _ := guard_err (negb (Z.land target_type 0x80 =? 0)) #CKR_KEY_NOT_WRAPPABLE in
  let! _ := guard_err (negb (is_visible_to logged_in wrapper)) #CKR_WRAPPING_KEY_HANDLE_INVALID in
  let! allowed := wrap_policy_allows wrapper target in
  let! _ := guard_err (negb allowed) #CKR_KEY_HANDLE_INVALID in
  let! _ := guard_err (wrap_with_trusted (attributes target)) #CKR_KEY_NOT_WRAPPABLE in
  let! _ := sm_lift (require_key_mechanism wrapper (mechanism m)) in
  let! '(wrapping_id, _) := sm_lift (validate_yubihsm_wrapping_key wrapper parsed false) in
  sm_lift (yubihsm_wrap_command parsed wrapping_id target_type target_id).

(** A length query answers the longest payload a frame can carry. *)
Definition U16_MAX : Z := 65535.
Definition yubihsm_wrap_key_in (k id : Z) (logged_in : bool) (m : CK_MECHANISM) (wrapper : TokenObject) (key : Z) : IO unit :=
  let! command := sm_fst (yubihsm_wrap_request id logged_in m wrapper key) in
  let! null := output_null in
  if (null : bool) then report_length U16_MAX
  else
    let! response := sm_fst (on_session k (λ session, yubihsm_command session command)) in
    let! capacity := output_capacity in
    if capacity <? len response then
      let! _ := report_length (len response) in
      sm_err #CKR_BUFFER_TOO_SMALL
    else
      let! _ := copy_out response in
      report_length (len response).

Definition wrap_key_in (k : Z) (m : option CK_MECHANISM) (wrapping_key key : Z) : IO unit :=
  let! '(id, _, logged_in) := sm_fst (session_details k) in
  let! m := mechanism_pointer m in
  let! _ := output_capacity in
  let! found := sm_fst (resolve_object wrapping_key) in
  let! wrapper := sm_lift (ok_or #CKR_WRAPPING_KEY_HANDLE_INVALID found) in
  if is_software_wrapper (material wrapper) then software_wrap_key_in id logged_in m wrapper key
  else yubihsm_wrap_key_in k id logged_in m wrapper key.

(** *** Unwrapping *)

Definition software_unwrapped (m : SoftwareWrapMechanism) (wrapper : TokenObject) (wrapped : list Z) : SM B Error (list Z) :=
  let inconsistent {A} : SM B Error A := sm_err #CKR_UNWRAPPING_KEY_TYPE_INCONSISTENT in
  match m with
  | SoftAes aes =>
      match material wrapper with
      | SoftwareSecret value =>
          if negb (key_type wrapper =? CKK_AES) then inconsistent
          else sm_map_err software_unwrap_error (transform_software_wrapped_key aes value wrapped false)
      | _ => inconsistent
      end
  | _ =>
      if negb (class wrapper =? CKO_PRIVATE_KEY) || negb (key_type wrapper =? CKK_RSA) then inconsistent
      else match material wrapper with
           | SoftwarePrivate (SigningRsa key) =>
               match m with
               | SoftRsaAes p => software_rsa_aes_unwrap p key wrapped
               | _ => sm_lift (software_rsa_unwrap (B := B) m key wrapped)
               end
           | _ => inconsistent
           end
  end.

(** The unwrapped value becomes a private key or a secret. *)
Definition publish_unwrapped (k id : Z) (o : TokenObject) (value : list Z) : M Z :=
  if class o =? CKO_PRIVATE_KEY then
    let! key := sm_lift (map_err software_unwrap_error (material_from_bare_pkcs8 value)) in
    let! _ := guard_err (negb (software_key_type key =? key_type o)) #CKR_WRAPPED_KEY_INVALID in
    let! public := sm_lift (software_public_key key) in
    let o := o {{ public_key := Some public }} {{ material := SoftwarePrivate key }} in
    if token o then persist_software_private_object id o else insert_object (set_creator k id o)
  else
    let! _ := sm_lift (validate_software_secret_length (key_type o) (len value)) in
    publish_software_secret_object k id (o {{ material := SoftwareSecret value }}).

Definition unwrap_policy (o : TokenObject) : option KeyAttributes := policy_unwrap (policy_templates (attributes o)).

Definition software_unwrap_key_in (k id flags : Z) (logged_in : bool) (m : CK_MECHANISM) (wrapper : TokenObject)
    (wrapped : list Z) (templ : list CK_ATTRIBUTE) : M Z :=
  let! parsed := sm_lift (parse_software_wrap_mechanism m) in
  let! _ := require_slot_mechanism id (mechanism m) CKF_UNWRAP in
  let! _ := guard_err (negb (is_visible_to logged_in wrapper)) #CKR_UNWRAPPING_KEY_HANDLE_INVALID in
  let! templ := sm_lift (with_policy templ (unwrap_policy wrapper)) in
  let! o := sm_lift (software_unwrap_template templ) in
  let! _ := guard_err ((class o =? CKO_PRIVATE_KEY) && negb (wraps_private_keys parsed)) #CKR_TEMPLATE_INCONSISTENT in
  let! _ := sm_lift (validate_new_object_access o flags logged_in) in
  let! _ := sm_lift (require_key_mechanism wrapper (mechanism m)) in
  let! _ := guard_err (negb (can_unwrap wrapper)) #CKR_KEY_FUNCTION_NOT_PERMITTED in
  let! value := on_slot (software_unwrapped parsed wrapper wrapped) in
  publish_unwrapped k id o value.

(** The command that makes a YubiHSM import a key, with what the caller asked of
    it and the type it is to have. *)
Definition yubihsm_unwrap_command (m : YubiHsmWrapMechanism) (unwrapping_id flags : Z) (logged_in : bool)
    (wrapped : list Z) (templ : list CK_ATTRIBUTE) : outcome Error (Command * option (TokenObject * Z)) :=
  match m with
  | WrapAesCcm _ => omap_ok (λ c, (c, None)) (import_wrapped unwrapping_id wrapped)
  | WrapRsa true parameters =>
      let? '(_, hash_algorithm, mgf1_algorithm, label_digest) := yubihsm_rsa_aes_parameters parameters in
      omap_ok (λ c, (c, None)) (import_rsa_wrapped unwrapping_id hash_algorithm mgf1_algorithm wrapped label_digest)
  | WrapRsa false parameters =>
      let? parsed := parse_yubihsm_unwrap_template templ in
      let o := unwrap_object parsed in
      let? _ := validate_new_object_access o flags logged_in in
      let? target_type := if class o =? CKO_PRIVATE_KEY then Ok YUBIHSM_ASYMMETRIC_KEY
                          else if class o =? CKO_SECRET_KEY then Ok YUBIHSM_SYMMETRIC_KEY
                          else Err #CKR_TEMPLATE_INCONSISTENT in
      let? '(_, hash_algorithm, mgf1_algorithm, label_digest) := yubihsm_rsa_aes_parameters parameters in
      omap_ok (λ c, (c, Some (o, target_type)))
        (put_rsa_wrapped_key unwrapping_id target_type (unwrap_parameters parsed) hash_algorithm mgf1_algorithm wrapped
           label_digest)
  | WrapRsaPkcs =>
      let? parsed := parse_yubihsm_unwrap_template templ in
      let o := unwrap_object parsed in
      let? _ := validate_new_object_access o flags logged_in in
      let? _ := bail (negb (class o =? CKO_SECRET_KEY)) #CKR_TEMPLATE_INCONSISTENT in
      omap_ok (λ c, (c, Some (o, YUBIHSM_SYMMETRIC_KEY)))
        (put_rsa_pkcs_wrapped_key unwrapping_id YUBIHSM_SYMMETRIC_KEY (unwrap_parameters parsed) wrapped)
  end.

Definition yubihsm_unwrap_key_in (k id flags : Z) (logged_in : bool) (m : CK_MECHANISM) (wrapper : TokenObject)
    (wrapped : list Z) (templ : list CK_ATTRIBUTE) : M Z :=
  let! parsed := sm_lift (parse_yubihsm_wrap_mechanism m) in
  let! _ := guard_err (negb logged_in) #CKR_USER_NOT_LOGGED_IN in
  let! _ := guard_err (negb (has_flag flags CKF_RW_SESSION)) #CKR_SESSION_READ_ONLY in
  let! _ := require_slot_mechanism id (mechanism m) CKF_UNWRAP in
  let! _ := guard_err (negb (is_visible_to logged_in wrapper)) #CKR_UNWRAPPING_KEY_HANDLE_INVALID in
  let! templ := sm_lift (with_policy templ (unwrap_policy wrapper)) in
  let! _ := sm_lift (require_key_mechanism wrapper (mechanism m)) in
  let! '(unwrapping_id, _) := sm_lift (validate_yubihsm_wrapping_key wrapper parsed true) in
  let! '(command, requested) := sm_lift (yubihsm_unwrap_command parsed unwrapping_id flags logged_in wrapped templ) in
  let! response := on_session k (λ session, yubihsm_command session command) in
  let! '(target_type, target_id) := sm_lift (parse_yubihsm_import_response response) in
  if match requested with Some (_, expected) => negb (expected =? target_type) | None => false end then
    let! session := get_session k in
    let! _ := sm_ignore (on_slot (yubihsm_command session (delete_object target_id target_type))) in
    let! _ := sm_ignore (refresh_slot_token_objects id) in
    sm_err #CKR_DEVICE_ERROR
  else
    let! _ := refresh_slot_token_objects id in
    let! '(handle, imported) := find_hsm_object id (names_hsm_object target_id (λ t, t =? target_type)) in
    let! _ := match requested with
              | Some (o, _) => set_hsm_attributes id imported o
              | None => sm_ret tt
              end in
    sm_ret handle.

Definition unwrap_key_in (k : Z) (m : option CK_MECHANISM) (unwrapping_key : Z) (wrapped : option (list Z)) (wrapped_len : Z)
    (templ : option AttributeMemory) (count : Z) (key_null : bool) : M Z :=
  let! '(id, flags, logged_in) := session_details k in
  let! m := mechanism_pointer m in
  let! _ := handle_pointer key_null in
  let! _ := guard_err (is_null wrapped) #CKR_ARGUMENTS_BAD in
  let! wrapped := sm_lift (from_raw_parts wrapped wrapped_len) in
  let! templ := sm_lift (attribute_array templ count) in
  let! found := resolve_object unwrapping_key in
  let! wrapper := sm_lift (ok_or #CKR_UNWRAPPING_KEY_HANDLE_INVALID found) in
  if match material wrapper with SoftwareSecret _ | SoftwarePrivate _ => true | _ => false end
  then software_unwrap_key_in k id flags logged_in m wrapper wrapped templ
  else yubihsm_unwrap_key_in k id flags logged_in m wrapper wrapped templ.

Definition wrap_key (k : Z) (m : option CK_MECHANISM) (wrapping_key key : Z) : SM (Module B P * Output) Error unit :=
  with_session_output k (wrap_key_in k m wrapping_key key).
Definition unwrap_key (k : Z) (m : option CK_MECHANISM) (unwrapping_key : Z) (wrapped : option (list Z)) (wrapped_len : Z)
    (templ : option AttributeMemory) (count : Z) (key_null : bool) : SM (Module B P) Error Z :=
  with_session_context_mut k (unwrap_key_in k m unwrapping_key wrapped wrapped_len templ count key_null).
End wrap_api.
