(* ===== verification/KeySafety.v ===== *)
(** * KeySafety: what making and wrapping keys guarantees

    Theorems about [KeyTemplates], [SecretDerivation], [KeyApi] and [KeyWrap]. *)
From coqutil Require Import Datatypes.RecordSetters.
From S2P Require Import Prelude Errors LoginSelectors Storage Mechanisms AttributeTypes KeyMetadata YubiHsm SlotState SessionApi CryptApi Digests CipherModes Ciphers SignatureModes OathOtp HsmCapabilities HsmCommands PivTables Signatures SignatureStreams Attributes MechanismTables KeyMechanisms Templates ObjectImport KeyTemplates SecretDerivation ObjectApi KeyApi KeyWrap.
Import DoubleBraceUpdate.

(** ** Wrapping never releases a protected key *)

Section wrapping.
Context {B P : Type} `{Slot B} `{StorageProvider P} `{Sha3, MiniCbor} `{BackedObjects}
  `{Environment B P} `{CryptBackend B} `{RsaCore B, SignatureCore B, KeyCore, KeyImport, Certificates, PreviewSignRecords, HashCore, SymmetricCore}
  `{LazyCells B, ObjectBackend B, ObjectStores B P, KeyGenerator B, Pkcs8}.
Abbreviation Ctx := (SlotContext B P).
Abbreviation M := (SM Ctx Error).

Lemma slot_only_get_session k : slot_only (get_session k : M _).
Proof.
  apply slot_only_same. intros x. unfold get_session. rewrite !sm_bind_unfold. cbn.
  destruct (sessions (state x) !! k) as [s|]; [|done]. by destruct (_ =? _).
Qed.
Lemma slot_only_session_details k : slot_only (session_details k : M _).
Proof. unfold session_details. apply slot_only_bind; [apply slot_only_get_session|intros s]. by apply slot_only_same. Qed.
Lemma slot_only_resolve h : slot_only (resolve_object h : M _).
Proof.
  intros x. unfold resolve_object. rewrite sm_bind_unfold. cbn.
  destruct (memory_objects (state x) !! h); [exists (slot x); by destruct x|].
  destruct (token_object_handles (state x) !! h) as [l|]; [|exists (slot x); by destruct x].
  destruct (backed_token_objects (state x) !! locator_id l); [exists (slot x); by destruct x|].
  apply slot_only_on_slot.
Qed.
Lemma slot_only_visible_key h l : slot_only (visible_key h l : M _).
Proof. unfold visible_key. apply slot_only_bind; [apply slot_only_resolve|]. intros ?. apply slot_only_lift. Qed.
Lemma slot_only_gets {A} (f : SlotState P → A) : slot_only (gets f : M _).
Proof. by apply slot_only_same. Qed.
Lemma slot_only_asks {A} (f : B → A) : slot_only (asks f : M _).
Proof. by apply slot_only_same. Qed.
#[local] Hint Resolve slot_only_get_session slot_only_session_details slot_only_resolve slot_only_visible_key slot_only_gets
  slot_only_asks : slot_only.
Lemma slot_only_get_slot id : slot_only (get_slot id : M _).
Proof. unfold get_slot, require_slot_id. slot_only. Qed.
#[local] Hint Resolve slot_only_get_slot : slot_only.
Lemma slot_only_require_slot_mechanism id m f : slot_only (require_slot_mechanism id m f : M _).
Proof. unfold require_slot_mechanism. slot_only. Qed.
Lemma slot_only_plain_attribute o t : slot_only (plain_attribute_value o t : M _).
Proof. intros x. unfold plain_attribute_value. destruct (attribute_value o t (slot x)). by eexists. Qed.
#[local] Hint Resolve slot_only_require_slot_mechanism slot_only_plain_attribute : slot_only.
Lemma slot_only_policy_entry o t v : slot_only (matches_policy_entry o t v : M _).
Proof. unfold matches_policy_entry. slot_only. Qed.
Lemma slot_only_policy o l : slot_only (matches_policy_template o l : M _).
Proof. induction l as [|[t v] l IH]; cbn [matches_policy_template]; slot_only; apply slot_only_policy_entry. Qed.
Lemma slot_only_policy_allows w t : slot_only (wrap_policy_allows w t : M _).
Proof. unfold wrap_policy_allows. slot_only. apply slot_only_policy. Qed.
#[local] Hint Resolve slot_only_policy_allows : slot_only.

(** A handle of the slot's memory resolves the same while nothing but the
    backend changes. *)
Lemma visible_key_memory h l (x : Ctx) t :
  memory_objects (state x) !! h = Some t →
  visible_key h l x = ((if is_visible_to l t then Ok t else Err #CKR_KEY_HANDLE_INVALID), x).
Proof.
  intros Hm. unfold visible_key, resolve_object. rewrite !sm_bind_unfold. cbn. rewrite Hm. cbn.
  by destruct (is_visible_to l t).
Qed.

Lemma slot_only_memory {A} (c : M A) x r y : slot_only c → c x = (r, y) → state y = state x.
Proof. intros Hc E. destruct (Hc x) as [b Hb]. rewrite E in Hb. cbn in Hb. by subst y. Qed.

(** What a successful request says of the key it wraps and of the key it wraps
    with. *)
Lemma software_request_inv id l m wrapper key (x : Ctx) parsed wrapping value y :
  software_wrap_request id l m wrapper key x = (Ok (parsed, wrapping, value), y) →
  ∃ x1 target x2, visible_key key l x1 = (Ok target, x2) ∧ state x1 = state x ∧
    o_extractable target = true ∧ never_extractable (attributes target) = false ∧
    wrap_with_trusted (attributes target) = false ∧ can_wrap wrapper = true ∧ is_visible_to l wrapper = true ∧
    allows_mechanism (mechanism m) wrapper = true ∧ ∃ private_target, wrap_target_value target = Ok (value, private_target).
Proof.
  intros E. unfold software_wrap_request in E. sm_steps E. simplify_eq.
  apply (slot_only_memory _ _ _ _ (slot_only_require_slot_mechanism _ _ _)) in E1.
  unfold require_key_mechanism, bail in E10. destruct (allows_mechanism _ _) eqn:Ha; [|done].
  bool_to_prop. eexists _, _, _. split; [exact E2|]. split_and!; try done. by eexists.
Qed.
Lemma hsm_request_inv id l m wrapper key (x : Ctx) c y :
  yubihsm_wrap_request id l m wrapper key x = (Ok c, y) →
  ∃ x1 target x2 hsm, visible_key key l x1 = (Ok target, x2) ∧ state x1 = state x ∧ yubihsm_material target = Ok hsm ∧
    wrap_with_trusted (attributes target) = false.
Proof.
  intros E. unfold yubihsm_wrap_request in E. sm_steps E.
  apply (slot_only_memory _ _ _ _ (slot_only_require_slot_mechanism _ _ _)) in E2.
  destruct (yubihsm_material a2) as [hsm| |] eqn:Em; [|done..].
  by eexists _, _, _, _.
Qed.

(** A key the module holds that may not leave it. *)
Definition unwrappable (o : TokenObject) : Prop :=
  is_software_key o = true ∧
  (o_extractable o = false ∨ never_extractable (attributes o) = true ∨ wrap_with_trusted (attributes o) = true).

Lemma requests_refused id l m wrapper key (x : Ctx) t :
  memory_objects (state x) !! key = Some t → unwrappable t →
  is_ok (software_wrap_request id l m wrapper key x).1 = false ∧
  is_ok (yubihsm_wrap_request id l m wrapper key x).1 = false.
Proof.
  intros Hm [Hs Hu].
  assert (∀ x1 target x2, visible_key key l x1 = (Ok target, x2) → state x1 = state x → target = t) as Ht.
  { intros x1 target x2 Hv Hx. rewrite (visible_key_memory key l x1 t) in Hv by by rewrite Hx.
    destruct (is_visible_to l t); congruence. }
  split.
  - destruct (software_wrap_request id l m wrapper key x) as [[[[parsed wrapping] value]| |] y] eqn:E; [|done..].
    apply software_request_inv in E as (x1 & target & x2 & Hv & Hx & Hex & Hne & Htr & _).
    apply Ht in Hv as ->; [|done]. naive_solver congruence.
  - destruct (yubihsm_wrap_request id l m wrapper key x) as [[c| |] y] eqn:E; [|done..].
    apply hsm_request_inv in E as (x1 & target & x2 & hsm & Hv & Hx & Hh & _).
    apply Ht in Hv as ->; [|done]. unfold is_software_key, yubihsm_material in *. by destruct (material t).
Qed.

Lemma slot_only_requests id l m wrapper key :
  slot_only (software_wrap_request id l m wrapper key : M _) ∧ slot_only (yubihsm_wrap_request id l m wrapper key : M _).
Proof. split; [unfold software_wrap_request|unfold yubihsm_wrap_request]; slot_only. Qed.

End wrapping.

(** ** What a derivation from a secret computes *)

Lemma bail_Ok {E} b (e : E) u : bail b e = Ok u → b = false.
Proof. by destruct b. Qed.

Section derived_values.
Context `{HashCore}.

(** The value, before the parity of a Triple-DES key is set. *)
Definition derived_value_spec (d : SecretDerivation) (base value : list Z) : Prop :=
  match d with
  | AppendKey other => ∃ more, material other = SoftwareSecret more ∧ value `prefix_of` base ++ more
  | AppendData data => value `prefix_of` base ++ data
  | DeriveSha256 => value `prefix_of` hash HashSha256 base
  | Extract offset =>
      ∀ j, 0 ≤ j < 8 * len value → msb_bit value j = msb_bit base ((offset + j) mod (8 * len base))
  end.

Definition derivation_offset (d : SecretDerivation) : Z := match d with Extract offset => offset | _ => 0 end.

Lemma secret_value o m v : secret o m = Ok v → material o = SoftwareSecret v ∧ 1 ≤ len v ≤ 1024.
Proof.
  unfold secret. intros E. o_inv E. apply bail_Ok in E2. unfold between in E2. destruct (material o); try done. simplify_eq.
  split; [done|]. bool_to_prop. lia.
Qed.
Lemma secret_length_value o m n v : secret_length o m = Ok n → material o = SoftwareSecret v → n = len v.
Proof. unfold secret_length. intros E Hm. rewrite Hm in E. o_inv E. by simplify_eq. Qed.

Lemma prefix_take (l : list Z) n : 0 ≤ n ≤ len l → len (ztake n l) = n ∧ ztake n l `prefix_of` l.
Proof.
  intros Hn. split; [rewrite len_ztake by lia; lia|]. exists (zdrop n l). symmetry. apply take_drop.
Qed.

Lemma with_parity_spec k value :
  if k =? CKK_DES3
  then Forall2 (λ b c, Z.land c 0xfe = Z.land b 0xfe ∧ count_ones c mod 2 = 1) value (with_parity k value)
  else with_parity k value = value.
Proof.
  unfold with_parity. destruct (k =? CKK_DES3); [|done]. apply Forall2_fmap_r, Forall_Forall2_diag, Forall_true.
  intros b. destruct (derived_parity_any b). by split.
Qed.

(** C12: What [C_DeriveKey] computes when it concatenates, hashes or extracts from a
    secret. The new key has the length asked for; it is a prefix of the base
    followed by the other key or the data, or of the SHA-256 of the base, or,
    for an extraction, the bits of the base from the offset on, the most
    significant first and continuing at the first bit after the last. In a
    Triple-DES key every byte keeps its seven key bits and has odd parity. *)
Theorem derived_secret_value base d o n o' :
  0 ≤ n → 0 ≤ derivation_offset d → (∀ v, material base = SoftwareSecret v → bytes_ok v = true) →
  execute_secret_derivation base d o n = Ok o' →
  ∃ v value w, material base = SoftwareSecret v ∧ len value = n ∧ derived_value_spec d v value ∧
    material o' = SoftwareSecret w ∧
    (if key_type o =? CKK_DES3
     then Forall2 (λ b c, Z.land c 0xfe = Z.land b 0xfe ∧ count_ones c mod 2 = 1) value w else w = value).
Proof.
  intros Hn Ho Hb E. unfold execute_secret_derivation in E. o_inv E.
  apply secret_value in E2 as E2'. destruct E2' as [Hbase Hlen].
  assert (0 < n ≤ a) as Hn'. { apply bail_Ok in E1. bool_to_prop. lia. }
  exists a1. enough (len a3 = n ∧ derived_value_spec d a1 a3) as [Hl Hs].
  { exists a3, (with_parity (key_type o) a3). injection E as <-. split_and!; try done; [by destruct d|].
    apply with_parity_spec. }
  unfold available in E0. o_inv E0. pose proof (secret_length_value _ _ _ _ E5 Hbase) as ->.
  destruct d as [other|data|offset|]; cbn [other_key] in *.
  - o_inv E0. destruct (secret other _) as [v2| |] eqn:Ev; [|done..]. cbn in E3. injection E3 as <-.
    apply secret_value in Ev as [Hother Hl2]. pose proof (secret_length_value _ _ _ _ E6 Hother) as ->.
    unfold checked_add in E0. case_if; [done|]. injection E0 as <-. cbn in E4. injection E4 as <-.
    destruct (prefix_take (a1 ++ v2) n) as [? ?]; [rewrite len_app; lia|]. split; [done|]. by exists v2.
  - unfold checked_add in E0. case_if; [done|]. injection E0 as <-. injection E4 as <-.
    apply prefix_take. rewrite len_app. lia.
  - o_inv E0. injection E0 as <-. injection E4 as <-. cbn in Ho. split; [by apply len_extract_bits|].
    intros j Hj. rewrite len_extract_bits in Hj by lia. apply extract_bits_spec; [by apply Hb|lia..].
  - case_if; [done|]. injection E4 as <-. bool_to_prop. apply prefix_take. lia.
Qed.
End derived_values.

(** ** A derived key is never weaker than its base *)

Section derivation.
Context {B P : Type} `{Slot B} `{StorageProvider P} `{Sha3, MiniCbor} `{BackedObjects}
  `{Environment B P} `{CryptBackend B} `{RsaCore B, SignatureCore B, KeyCore, KeyImport, Certificates, PreviewSignRecords, HashCore, SymmetricCore}
  `{LazyCells B, ObjectBackend B, ObjectStores B P}
  `{KeyDerivationCore, KeyGenerator B, HsmKeyEncodings, KeyBackend B, KeyStores B P, PreviewSignKeys B}.
Abbreviation Ctx := (SlotContext B P).
Abbreviation M := (SM Ctx Error).

(** The history of a key is true: one that was always sensitive is sensitive, and
    one that never was extractable is not. *)
Definition history_ok (o : TokenObject) : Prop :=
  (always_sensitive (attributes o) = true → o_sensitive o = true) ∧
  (never_extractable (attributes o) = true → o_extractable o = false).

Definition derived_from (m : Z) (base o : TokenObject) : Prop :=
  class o = CKO_SECRET_KEY ∧ local (attributes o) = false ∧ key_gen_mechanism (attributes o) = Some m ∧
  (always_sensitive (attributes o) = true → always_sensitive (attributes base) = true) ∧
  (never_extractable (attributes o) = true → never_extractable (attributes base) = true) ∧
  (history_ok base → history_ok o).

(** [other] is a secret whose value the derived key shows a part of. *)
Definition protected_as (other o : TokenObject) : Prop :=
  (o_sensitive other = true → o_sensitive o = true) ∧ (o_extractable other = false → o_extractable o = false).

(** The object [h] names afterwards: in the slot's memory, or for a token object
    in the slot's encrypted store. *)
Definition published (k id : Z) (o : TokenObject) (x : Ctx) (h : Z) (x' : Ctx) : Prop :=
  if token o then private o = true ∧ persist_software_private_object id o x = (Ok h, x')
  else ∃ u, memory_objects (state x') !! h = Some (set_unique_id u (set_creator k id o)).

Lemma insert_object_published k id o (x : Ctx) h x' :
  insert_object (set_creator k id o) x = (Ok h, x') →
  ∃ u, memory_objects (state x') !! h = Some (set_unique_id u (set_creator k id o)).
Proof.
  intros E. unfold insert_object in E. sm_inv E. injection E as <- <-. unfold modify_state in E1. injection E1 as _ <-. cbn.
  rewrite lookup_insert_eq. destruct (bool_decide _); [by eexists|]. exists (unique_id (set_creator k id o)). by destruct o.
Qed.

Lemma publish_secret_published k id o (x : Ctx) h x' :
  publish_software_secret_object k id o x = (Ok h, x') → published k id o x h x'.
Proof.
  intros E. unfold publish_software_secret_object in E. sm_steps E. unfold published. destruct (token o).
  - sm_steps E. bool_to_prop. done.
  - by eapply insert_object_published.
Qed.

Lemma publish_native_published k id c o n (x : Ctx) h x' :
  publish_native k id c o n x = (Ok h, x') → token o = false ∧ ∃ mat y, published k id (o {{ material := mat }}) y h x'.
Proof.
  intros E. unfold publish_native, publish_native_session_secret in E. sm_steps E. destruct (token o) eqn:Ht; sm_steps E; [done|].
  split; [done|]. unfold sm_match in E.
  destruct (insert_object _ _) as [[h'| |] y] eqn:Ei in E; [|sm_steps E; done|done].
  injection E as <- <-. exists a1, y. unfold published. change (token (o {{ material := a1 }})) with (token o). rewrite Ht. by apply insert_object_published in Ei.
Qed.

(** The base of a derivation: visible to the session, for the mechanism, and
    allowed to derive. *)
Definition derivation_base (m base_handle : Z) (logged_in : bool) (base : TokenObject) : Prop :=
  (∃ y y' : Ctx, visible_key base_handle logged_in y = (Ok base, y')) ∧
  allows_mechanism m base = true ∧ derive (attributes base) = true.

(** The object may be made in the session. *)
Definition access_granted (flags : Z) (logged_in : bool) (o : TokenObject) : Prop :=
  (private o = true → logged_in = true) ∧ (token o = true → has_flag flags CKF_RW_SESSION = true).

Lemma validate_access_granted o flags l u : validate_new_object_access o flags l = Ok u → access_granted flags l o.
Proof.
  unfold validate_new_object_access. intros E. o_inv E. apply bail_Ok in E0, E.
  split; intros Hx; rewrite Hx in *; cbn in *; bool_to_prop; done.
Qed.
Lemma derived_secret_class templ n l o r : derived_secret_object templ n l = Ok (o, r) → class o = CKO_SECRET_KEY.
Proof.
  unfold derived_secret_object. intros E. o_inv E. destruct a. o_inv E. injection E as <- _.
  repeat match goal with Hx : bail _ _ = Ok _ |- _ => apply bail_Ok in Hx end. by bool_to_prop.
Qed.
Lemma inherit_history_derived m base o :
  class o = CKO_SECRET_KEY → derived_from m base (mark_derived m (inherit_history base o)).
Proof.
  intros Hc. unfold derived_from, history_ok. cbn. unfold constant. split_and!; try done; intros; [..|split; intros]; by bool_to_prop.
Qed.
Lemma inherit_protection_derived m base other o :
  class o = CKO_SECRET_KEY → derived_from m base (mark_derived m (inherit_protection base other o)).
Proof.
  intros Hc. unfold derived_from, history_ok. cbn. unfold constant. split_and!; try done; intros; bool_to_prop; [done..|].
  split; intros; bool_to_prop.
  - assert (o_sensitive base = true) as -> by tauto. by rewrite orb_true_r.
  - assert (o_extractable base = false) as -> by tauto. by rewrite andb_false_r.
Qed.
Lemma inherit_protection_protected m base other o k :
  k = base ∨ Some k = other → protected_as k (mark_derived m (inherit_protection base other o)).
Proof.
  intros [->|<-]; split; cbn; unfold constant; intros Hk; unfold o_sensitive, o_extractable in *; rewrite Hk;
    by rewrite ?orb_true_r, ?andb_false_r.
Qed.

(** The inputs whose bytes the derived key shows. *)
Definition shown_inputs (m : CK_MECHANISM) (base_handle : Z) : list Z :=
  match parse_secret_derive m with
  | Ok (OpAppendKey other) => [base_handle; other]
  | Ok (OpAppendData _) | Ok (OpExtract _) => [base_handle]
  | _ => []
  end.

(** A derivation made [o] from [base], and [h] names it. *)
Definition derives (k : Z) (m : CK_MECHANISM) (base_handle : Z) (x : Ctx) (h : Z) (x' : Ctx) : Prop :=
  ∃ id flags logged_in z base o y,
    session_details k x = (Ok (id, flags, logged_in), z) ∧ derivation_base (mechanism m) base_handle logged_in base ∧
    access_granted flags logged_in o ∧ derived_from (mechanism m) base o ∧ published k id o y h x' ∧
    Forall (λ input, ∃ key (u u' : Ctx), visible_key input logged_in u = (Ok key, u') ∧ protected_as key o)
      (shown_inputs m base_handle).

Lemma derived_same m base o o' :
  class o' = class o → attributes o' = attributes o → derived_from m base o → derived_from m base o'.
Proof. unfold derived_from, history_ok, o_sensitive, o_extractable. by intros -> ->. Qed.
Lemma granted_same f l o o' : token o' = token o → private o' = private o → access_granted f l o → access_granted f l o'.
Proof. unfold access_granted. by intros -> ->. Qed.

Lemma counter_base_allowed o key :
  counter_base_key o = Ok key → allows_mechanism CKM_SP800_108_COUNTER_KDF o = true ∧ derive (attributes o) = true.
Proof.
  unfold counter_base_key, require_key_mechanism. intros E. o_inv E.
  repeat match goal with Hx : bail _ _ = Ok _ |- _ => apply bail_Ok in Hx end. by bool_to_prop.
Qed.
Lemma counter_object_granted templ flags l o n :
  counter_derive_object templ flags l = Ok (o, n) → class o = CKO_SECRET_KEY ∧ access_granted flags l o.
Proof.
  unfold counter_derive_object. intros E. o_inv E. destruct a3 as [o' n']. o_inv E. injection E as <- <-.
  eauto using derived_secret_class, validate_access_granted.
Qed.

Lemma no_shown_inputs m base_handle : secret_derive_supports (mechanism m) = false → shown_inputs m base_handle = [].
Proof.
  unfold secret_derive_supports, shown_inputs, parse_secret_derive, one_of. cbn. intros E. bool_to_prop.
  by repeat case_if; bool_to_prop.
Qed.

(** The last steps of a derivation by a key derivation function. *)
Section last_steps.
Context (k : Z) (m : CK_MECHANISM) (base_handle : Z) (x : Ctx) (h : Z) (x' : Ctx) (id flags : Z) (l : bool) (z u u' : Ctx)
  (base o : TokenObject).
Context (Hm : secret_derive_supports (mechanism m) = false).
Context (Hs : session_details k x = (Ok (id, flags, l), z)).
Context (Hv : visible_key base_handle l u = (Ok base, u')).
Context (Hb : allows_mechanism (mechanism m) base = true ∧ derive (attributes base) = true).
Context (Ho : class o = CKO_SECRET_KEY ∧ access_granted flags l o).

Lemma history_derives v y :
  published k id (mark_derived (mechanism m) (inherit_history base (o {{ material := v }}))) y h x' →
  derives k m base_handle x h x'.
Proof.
  intros Hp. destruct Ho. eexists id, flags, l, z, base, _, y.
  refine (conj Hs (conj (conj (ex_intro _ u (ex_intro _ u' Hv)) Hb) (conj _ (conj _ (conj Hp _))))).
  - by eapply granted_same.
  - by apply inherit_history_derived.
  - by rewrite no_shown_inputs.
Qed.
Lemma native_history_derives c n y :
  publish_native k id c (mark_derived (mechanism m) (inherit_history base o)) n y = (Ok h, x') →
  derives k m base_handle x h x'.
Proof. intros E. apply publish_native_published in E as (_ & mat & w & E). exact (history_derives mat w E). Qed.
Lemma software_history_derives v y :
  publish_software_secret_object k id (mark_derived (mechanism m) (inherit_history base (o {{ material := v }}))) y = (Ok h, x') →
  derives k m base_handle x h x'.
Proof. intros E. apply publish_secret_published in E. exact (history_derives v y E). Qed.
End last_steps.

Lemma counter_derives k m fields base_handle templ (x : Ctx) h x' :
  mechanism m = CKM_SP800_108_COUNTER_KDF →
  counter_derive_in k (mechanism m) fields base_handle templ x = (Ok h, x') → derives k m base_handle x h x'.
Proof.
  intros Hm E. unfold counter_derive_in in E. sm_steps E.
  match goal with Hx : counter_derive_object _ _ _ = Ok _ |- _ => apply counter_object_granted in Hx end.
  match goal with Hx : counter_base_key _ = Ok _ |- _ => apply counter_base_allowed in Hx end.
  rewrite <-Hm in *. assert (secret_derive_supports (mechanism m) = false) by by rewrite Hm.
  lazymatch type of E with (match ?c with _ => _ end) _ = _ => destruct c end; unfold derive_counter_key_with in E; sm_steps E.
  - eapply native_history_derives; eauto.
  - sm_steps E7. subst a4. rewrite <-Hm in E. eapply software_history_derives; eauto.
Qed.

Lemma hkdf_base_allowed r m o v :
  hkdf_base_value r m o = Ok v → allows_mechanism m o = true ∧ derive (attributes o) = true.
Proof.
  unfold hkdf_base_value, require_key_mechanism. intros E. o_inv E.
  repeat match goal with Hx : bail _ _ = Ok _ |- _ => apply bail_Ok in Hx end. by bool_to_prop.
Qed.
Lemma hkdf_object_granted r templ flags l o n :
  hkdf_derive_object r templ flags l = Ok (o, n) → class o = CKO_SECRET_KEY ∧ access_granted flags l o.
Proof.
  unfold hkdf_derive_object. intros E. o_inv E. destruct a2 as [o' n']. o_inv E. injection E as <- <-.
  eauto using derived_secret_class, validate_access_granted.
Qed.
Lemma hkdf_derives k m r base_handle templ (x : Ctx) h x' :
  secret_derive_supports (mechanism m) = false →
  derive_hkdf_in k (mechanism m) r base_handle templ x = (Ok h, x') → derives k m base_handle x h x'.
Proof.
  intros Hm E. unfold derive_hkdf_in in E. sm_steps E.
  match goal with Hx : hkdf_derive_object _ _ _ _ = Ok _ |- _ => apply hkdf_object_granted in Hx end.
  match goal with Hx : hkdf_base_value _ _ _ = Ok _ |- _ => apply hkdf_base_allowed in Hx end.
  eapply software_history_derives; eauto.
Qed.

Lemma ecdh_plan_granted m r base ops templ flags l plan :
  ecdh_plan m r base ops templ flags l = Ok plan →
  (allows_mechanism m base = true ∧ derive (attributes base) = true) ∧
  class (plan_object plan) = CKO_SECRET_KEY ∧ access_granted flags l (plan_object plan).
Proof.
  unfold ecdh_plan, require_key_mechanism. intros E.
  repeat match type of E with
  | obind _ _ = Ok _ => let a := fresh "a" in let Hx := fresh "E" in apply bind_Ok in E as (a & Hx & E)
  | (let '(_, _) := ?p in _) = Ok _ => destruct p
  end.
  injection E as <-. cbn [plan_object].
  repeat match goal with Hx : bail _ _ = Ok _ |- _ => apply bail_Ok in Hx end. bool_to_prop.
  split_and!; eauto using derived_secret_class, validate_access_granted.
Qed.
Lemma ecdh_derives k m r base_handle templ (x : Ctx) h x' :
  secret_derive_supports (mechanism m) = false →
  ecdh_derive_in k (mechanism m) r base_handle templ x = (Ok h, x') → derives k m base_handle x h x'.
Proof.
  intros Hm E. unfold ecdh_derive_in in E. sm_steps E.
  match goal with Hx : ecdh_plan _ _ _ _ _ _ _ = Ok _ |- _ => apply ecdh_plan_granted in Hx as [? ?] end.
  lazymatch type of E with (match ?c with _ => _ end) _ = _ => destruct c end; sm_steps E.
  - eapply native_history_derives; eauto.
  - eapply software_history_derives; eauto.
Qed.

Lemma secret_derivation_op m op other d :
  parse_secret_derive m = Ok op → secret_derivation op other = Ok d → derivation_mechanism d = mechanism m.
Proof.
  unfold parse_secret_derive. intros E Ed. repeat case_if; bool_to_prop; [..|done]; o_inv E; unfold omap_ok in *;
    repeat match type of E with context [match ?c with _ => _ end] => destruct c; try done end; try injection E as <-;
    cbn in Ed; try (destruct other; [|done]); by injection Ed as <-.
Qed.

(** What a composition makes of the new object's attributes. *)
Definition inherits (d : SecretDerivation) (base o : TokenObject) : TokenObject :=
  match d with DeriveSha256 => inherit_history base o | _ => inherit_protection base (other_key d) o end.
Lemma protect_derived_inherits d base templ o o1 : protect_derived d base templ o = Ok o1 → o1 = inherits d base o.
Proof. unfold protect_derived. destruct d; intros E; o_inv E; by injection E as <-. Qed.
Lemma execute_inherits base d o n o1 :
  execute_secret_derivation base d o n = Ok o1 →
  ∃ v, o1 = mark_derived (derivation_mechanism d) ((inherits d base o) {{ material := v }}).
Proof. unfold execute_secret_derivation. intros E. o_inv E. injection E as <-. by eexists. Qed.
Lemma inherits_derived d m base o :
  class o = CKO_SECRET_KEY → derived_from m base (mark_derived m (inherits d base o)).
Proof. intros Hc. destruct d; cbn [inherits]; [by apply inherit_protection_derived..|by apply inherit_history_derived]. Qed.
Lemma inherits_granted d f l base o : access_granted f l (inherits d base o) ↔ access_granted f l o.
Proof. by destruct d. Qed.
Lemma class_inherits d base o : class (inherits d base o) = class o.
Proof. by destruct d. Qed.

(** A composition protects its result as each input it shows. *)
Lemma inherits_protected m op other d base o :
  secret_derivation op other = Ok d → op ≠ OpSha256 → protected_as base (mark_derived m (inherits d base o)).
Proof.
  intros E Hop. assert (inherits d base o = inherit_protection base (other_key d) o) as ->.
  { destruct op; cbn in E; [destruct other; [|done]|..]; [by injection E as <-..|done]. }
  apply inherit_protection_protected. by left.
Qed.
Lemma inherits_protected_other m handle other d base o :
  secret_derivation (OpAppendKey handle) (Some other) = Ok d → protected_as other (mark_derived m (inherits d base o)).
Proof. intros [= <-]. cbn [inherits]. apply inherit_protection_protected. by right. Qed.

Lemma secret_object_inherits d base templ flags l o n :
  secret_derive_object d base templ flags l = Ok (o, n) →
  ∃ o0, o = inherits d base o0 ∧ class o0 = CKO_SECRET_KEY ∧ access_granted flags l o0.
Proof.
  unfold secret_derive_object. intros E. o_inv E. destruct a2 as [o' n']. o_inv E. injection E as <- <-.
  apply protect_derived_inherits in E4. subst. exists o'.
  split_and!; eauto using derived_secret_class. by eapply inherits_granted, validate_access_granted.
Qed.

Lemma validate_inputs_allowed d base u :
  validate_inputs d base = Ok u → allows_mechanism (derivation_mechanism d) base = true ∧ derive (attributes base) = true.
Proof.
  unfold validate_inputs, secret_length, require_key_mechanism. intros E. o_inv E. clear E. o_inv E0.
  repeat match goal with Hx : bail _ _ = Ok _ |- _ => apply bail_Ok in Hx end. by bool_to_prop.
Qed.

(** The last step of a composition. *)
Lemma composition_derives k m op other base_handle (x : Ctx) h x' id flags l z (u u' : Ctx) base d o y :
  session_details k x = (Ok (id, flags, l), z) → visible_key base_handle l u = (Ok base, u') →
  parse_secret_derive m = Ok op → secret_derivation op other = Ok d →
  (∀ handle, op = OpAppendKey handle → ∃ (w w' : Ctx) key, other = Some key ∧ visible_key handle l w = (Ok key, w')) →
  validate_inputs d base = Ok tt → class o = CKO_SECRET_KEY → access_granted flags l o →
  published k id (mark_derived (mechanism m) (inherits d base o)) y h x' → derives k m base_handle x h x'.
Proof.
  intros Hs Hv Hp Hd Hother Hi Hc Ha Hpub. apply validate_inputs_allowed in Hi.
  rewrite (secret_derivation_op _ _ _ _ Hp Hd) in Hi.
  eexists id, flags, l, z, base, _, y.
  refine (conj Hs (conj (conj (ex_intro _ u (ex_intro _ u' Hv)) Hi) (conj _ (conj _ (conj Hpub _))))).
  - by eapply (proj2 (inherits_granted d flags l base o)).
  - by apply inherits_derived.
  - unfold shown_inputs. rewrite Hp.
    assert (op ≠ OpSha256 → ∃ key (w w' : Ctx), visible_key base_handle l w = (Ok key, w') ∧
              protected_as key (mark_derived (mechanism m) (inherits d base o))) as Hbase.
    { intros Hop. exists base, u, u'. split; [done|]. by eapply inherits_protected. }
    destruct op as [handle|data|offset|]; [|by repeat constructor; apply Hbase..|constructor].
    destruct (Hother handle) as (w & w' & key & -> & Hk); [done|].
    repeat constructor; [by apply Hbase|]. exists key, w, w'. split; [done|]. by eapply inherits_protected_other.
Qed.

Lemma inherits_material d m base o v :
  (mark_derived m (inherits d base o)) {{ material := v }} = mark_derived m (inherits d base (o {{ material := v }})).
Proof. by destruct d. Qed.
Lemma mark_inherits_material d m base o v :
  mark_derived m ((inherits d base o) {{ material := v }}) = mark_derived m (inherits d base (o {{ material := v }})).
Proof. by destruct d. Qed.

Lemma secret_derives k m op base_handle templ (x : Ctx) h x' :
  parse_secret_derive m = Ok op →
  secret_derive_in k (mechanism m) op base_handle templ x = (Ok h, x') → derives k m base_handle x h x'.
Proof.
  intros Hp E. unfold secret_derive_in in E. sm_steps E.
  match goal with Hx : secret_derive_object _ _ _ _ _ = Ok _ |- _ => apply secret_object_inherits in Hx as (o & -> & Hc & Ha) end.
  match goal with Hx : validate_inputs _ _ = Ok ?u |- _ => destruct u end.
  match goal with Hx : secret_derivation _ _ = Ok _ |- _ => rename Hx into Hd end.
  rewrite (secret_derivation_op _ _ _ _ Hp Hd) in E.
  match goal with Hx : match op with _ => _ end _ = (Ok ?a, _) |- _ =>
    assert (∀ handle, op = OpAppendKey handle → ∃ (w w' : Ctx) key, a = Some key ∧ visible_key handle b w = (Ok key, w'))
      by (intros handle ->; sm_steps Hx; eauto)
  end.
  lazymatch type of E with (match ?c with _ => _ end) _ = _ => destruct c end; sm_steps E.
  - apply publish_native_published in E as (_ & v & y & E). rewrite inherits_material in E.
    eapply composition_derives; try exact E; done.
  - match goal with Hx : execute_secret_derivation _ _ _ _ = Ok _ |- _ => apply execute_inherits in Hx as [v ->] end.
    rewrite mark_inherits_material, (secret_derivation_op _ _ _ _ Hp Hd) in E. apply publish_secret_published in E. 
    eapply composition_derives; try exact E; try done; by destruct a2.
Qed.

Lemma with_session_Ok {A} k (f : M A) w a w' :
  with_session_context_mut k f w = (Ok a, w') →
  ∃ id (x x' : Ctx), slots w !! id = Some (slot x, state x) ∧ f x = (Ok a, x') ∧ slots w' !! id = Some (slot x', state x').
Proof.
  unfold with_session_context_mut. intros E. apply sm_bind_Ok in E as (? & ? & E1 & E). injection E1 as <- <-.
  sm_steps E. unfold run_on_slot in E. destruct (slots _ !! _) as [[b st]|] eqn:Es; [|done].
  destruct (lock_operation b); [|done..]. destruct (f _) as [r x'] eqn:Ef. injection E as -> <-.
  exists a0, (mkContext b st (counters w)), x'. split_and!; [done..|]. cbn. by rewrite lookup_insert_eq.
Qed.

(** The mechanisms of [C_DeriveKey] that make a secret key. *)
Definition makes_secret (m : Z) : bool :=
  one_of [CKM_SP800_108_COUNTER_KDF; CKM_CONCATENATE_BASE_AND_KEY; CKM_CONCATENATE_BASE_AND_DATA; CKM_EXTRACT_KEY_FROM_KEY;
          CKM_SHA256_KEY_DERIVATION; CKM_HKDF_DERIVE; CKM_ECDH1_DERIVE; CKM_ECDH1_COFACTOR_DERIVE;
          CKM_PKCS11RS_PREFIXED_ECDH_DERIVE] m.

End derivation.

(** ** A generated key is fresh, and protected unless the caller says otherwise *)

Section generation.
Context {B : Type} `{KeyDerivationCore, KeyGenerator B}.

Lemma omap_Ok {E A C} (f : A → C) (c : outcome E A) r : omap_ok f c = Ok r → ∃ a, c = Ok a ∧ r = f a.
Proof. destruct c; [|done..]. intros [= <-]. by eexists. Qed.

(** No other attribute changes the sensitivity or the extractability. *)
Lemma apply_attribute_keeps a t t' :
  apply_attribute a t = Ok t' →
  (attr_type a ≠ CKA_SENSITIVE → t_sensitive t' = t_sensitive t) ∧
  (attr_type a ≠ CKA_EXTRACTABLE → t_extractable t' = t_extractable t).
Proof.
  unfold apply_attribute. intros E.
  repeat match type of E with (if ?c then _ else _) = Ok _ => destruct c eqn:? end; bool_to_prop;
    try done; (apply omap_Ok in E as (w & _ & ->) || (apply bind_Ok in E as (v & _ & E); apply omap_Ok in E as (w & _ & ->)));
    split; intros; done.
Qed.
Lemma secret_attribute_keeps once a s s' :
  secret_attribute once a s = Ok s' →
  (attr_type a ≠ CKA_SENSITIVE → t_sensitive s'.1 = t_sensitive s.1) ∧
  (attr_type a ≠ CKA_EXTRACTABLE → t_extractable s'.1 = t_extractable s.1).
Proof.
  unfold secret_attribute. intros E. destruct (attr_type a =? CKA_VALUE_LEN); [|].
  - o_inv E. by apply omap_Ok in E as (n & _ & ->).
  - apply omap_Ok in E as (t & E & ->). unfold apply_or_error in E. destruct (apply_attribute a s.1) eqn:Ea; [|done..].
    injection E as <-. by apply apply_attribute_keeps.
Qed.
Lemma template_attribute_cons a templ t :
  template_attribute (a :: templ) t = None → attr_type a ≠ t ∧ template_attribute templ t = None.
Proof. unfold template_attribute. cbn. by destruct (Z.eqb_spec (attr_type a) t). Qed.
Lemma secret_attributes_keep once templ s s' :
  for_attributes (secret_attribute once) templ s = Ok s' →
  (template_attribute templ CKA_SENSITIVE = None → t_sensitive s'.1 = t_sensitive s.1) ∧
  (template_attribute templ CKA_EXTRACTABLE = None → t_extractable s'.1 = t_extractable s.1).
Proof.
  revert s. induction templ as [|a templ IH]; intros s E; [by injection E as <-|].
  cbn [for_attributes] in E. apply bind_Ok in E as (s1 & E1 & E).
  apply secret_attribute_keeps in E1 as [Hs He]. apply IH in E as [IHs IHe].
  split; intros [Ha Ht]%template_attribute_cons; [rewrite IHs, Hs|rewrite IHe, He]; done.
Qed.

(** The length that a template names, once. *)
Lemma secret_attributes_length templ s s' :
  for_attributes (secret_attribute true) templ s = Ok s' →
  match s.2 with
  | Some n => s'.2 = Some n
  | None => match template_attribute templ CKA_VALUE_LEN with
            | Some a => ∃ n, read_ulong_template_attribute a = Ok n ∧ s'.2 = Some n
            | None => s'.2 = None
            end
  end.
Proof.
  revert s. induction templ as [|a templ IH]; intros s E; [injection E as <-; by destruct (s.2)|].
  cbn [for_attributes] in E. apply bind_Ok in E as (s1 & E1 & E). apply IH in E. unfold secret_attribute in E1.
  unfold template_attribute. cbn [List.find]. destruct (attr_type a =? CKA_VALUE_LEN).
  - o_inv E1. apply bail_Ok in E0. apply omap_Ok in E1 as (n & En & ->). destruct (s.2); [done|].
    destruct (read_ulong_template_attribute a) eqn:Er; [|done..]. injection En as <-. by eexists.
  - apply omap_Ok in E1 as (t & _ & ->). done.
Qed.

(** A secret key with the protection its template leaves it: sensitive and not
    extractable unless it says otherwise, and the history is that of a new key. *)
Definition protected_by (templ : list CK_ATTRIBUTE) (o : TokenObject) : Prop :=
  class o = CKO_SECRET_KEY ∧
  always_sensitive (attributes o) = o_sensitive o ∧ never_extractable (attributes o) = negb (o_extractable o) ∧
  (template_attribute templ CKA_SENSITIVE = None → o_sensitive o = true) ∧
  (template_attribute templ CKA_EXTRACTABLE = None → o_extractable o = false).

(** The length of a generated key: the one that the template names, or 24 bytes
    for a Triple-DES key. *)
Definition generated_length (m : Z) (templ : list CK_ATTRIBUTE) (n : Z) : Prop :=
  match template_attribute templ CKA_VALUE_LEN with
  | Some a => read_ulong_template_attribute a = Ok n
  | None => m = CKM_DES3_KEY_GEN ∧ n = 24
  end.

Lemma into_secret_history t o :
  into_software_secret_object t = Ok o →
  always_sensitive (attributes o) = o_sensitive o ∧ never_extractable (attributes o) = negb (o_extractable o) ∧
  o_sensitive o = default false (t_sensitive t) ∧ (∀ b, t_extractable t = Some b → o_extractable o = b).
Proof.
  unfold into_software_secret_object, into_object_with_software_secret_policy. intros E. o_inv E. injection E as <-. cbn.
  rewrite andb_false_r, orb_false_r. split_and!; try done. by intros b ->.
Qed.
Lemma generation_template_spec m templ o n :
  generation_template m templ = Ok (o, n) →
  protected_by templ o ∧ generated_length m templ n ∧ validate_software_secret_length (key_type o) n = Ok tt.
Proof.
  unfold generation_template. intros E. o_inv E. destruct a0 as [t len]. o_inv E. injection E as <- <-.
  apply secret_attributes_keep in E1 as Hk. apply secret_attributes_length in E1. cbn in Hk, E1. destruct Hk as [Hs He].
  destruct (into_software_secret_object t) eqn:Ei; [|done..]. injection E2 as ->.
  apply into_secret_history in Ei as (? & ? & Hos & Hoe). apply bail_Ok in E3. bool_to_prop. split_and!.
  - split_and!; try done.
    + intros Hn. by rewrite Hos, (Hs Hn).
    + intros Hn. by rewrite (Hoe false (He Hn)).
  - unfold generated_length. destruct (template_attribute templ CKA_VALUE_LEN).
    + destruct E1 as (n & ? & ->). by injection E4 as <-.
    + rewrite E1 in E4. destruct (Z.eqb_spec m CKM_DES3_KEY_GEN); [|done]. by injection E4 as <-.
  - match goal with Hv : validate_software_secret_length _ _ = Ok ?u |- _ => by destruct u end.
Qed.

Lemma generated_parity_same b : generated_parity b = derived_parity b.
Proof.
  unfold generated_parity, derived_parity. cbv zeta. f_equal. set (n := count_ones _).
  unfold is_multiple_of. cbn [Z.eqb negb andb]. change 1 with (Z.ones 1) at 1. rewrite Z.land_ones by lia. change (2 ^ 1) with 2.
  pose proof (Z.mod_pos_bound n 2). destruct (Z.eqb_spec (n mod 2) 0) as [->|]; [done|]. by replace (n mod 2) with 1 by lia.
Qed.

(** C13: A generated secret key is what was asked for. [C_GenerateKey] for a session
    key makes a secret key of the length that the template names (24 bytes for
    Triple-DES without one), a length its type admits; it is recorded as made
    here and by which mechanism; it is sensitive and not extractable unless the
    template says otherwise, and always was so exactly if it is. Its value is
    the bytes drawn from the random source, with odd parity for Triple-DES, or
    the bytes of PBKDF2, and has exactly that length. *)
Theorem generated_key_as_asked m templ (b b' : B) o :
  (∀ n (c c' : B) r, getrandom_fill n c = (Ok r, c') → len r = n) →
  generate_key_object m templ b = (Ok o, b') →
  protected_by templ o ∧ local (attributes o) = true ∧ key_gen_mechanism (attributes o) = Some (mechanism m) ∧
  ∃ n raw value, material o = SoftwareSecret value ∧ len value = n ∧ generated_length (mechanism m) templ n ∧
    validate_software_secret_length (key_type o) n = Ok tt ∧
    (if mechanism m =? CKM_PKCS5_PBKD2
     then ∃ p, parse_pbkdf2_parameters m = Ok p ∧ derive_pbkdf2 p n = Ok raw
     else getrandom_fill n b = (Ok raw, b')) ∧
    (if mechanism m =? CKM_DES3_KEY_GEN
     then Forall2 (λ x y, Z.land y 0xfe = Z.land x 0xfe ∧ count_ones y mod 2 = 1) raw value else value = raw).
Proof.
  intros Hfill E. unfold generate_key_object in E. sm_steps E.
  match goal with Hx : generation_template _ _ = Ok _ |- _ => apply generation_template_spec in Hx as (Hp & Hl & Hv) end.
  subst o. split; [done|]. split; [done|]. split; [done|]. exists z, a2.
  enough (len a2 = z ∧ if mechanism m =? CKM_PKCS5_PBKD2
            then ∃ p, parse_pbkdf2_parameters m = Ok p ∧ derive_pbkdf2 p z = Ok a2 else getrandom_fill z b = (Ok a2, s0)) as [Hn Hr].
  { eexists. split; [done|]. destruct (mechanism m =? CKM_DES3_KEY_GEN); split_and!; try done.
    - unfold len in *. by rewrite length_map.
    - apply Forall2_fmap_r, Forall_Forall2_diag, Forall_true. intros x.
      destruct (derived_parity_any x). rewrite <-generated_parity_same in *. by split. }
  destruct (mechanism m =? CKM_PKCS5_PBKD2).
  - apply lift_Ok in E2 as [E2 ->]. apply omap_Ok in E2 as (p & Hp2 & ->). apply lift_Ok in E4 as [E4 ->].
    split; [|by exists p]. unfold derive_pbkdf2 in E4. o_inv E4. destruct (Z.eqb_spec (len a3) z); [|done]. by injection E4 as <-.
  - injection E2 as <- <-. unfold sm_map_err in E4. destruct (getrandom_fill z b) as [r c] eqn:Ef.
    destruct r; [|done..]. injection E4 as -> ->. split; [by eapply Hfill|done].
Qed.
End generation.

(** ** Witnesses *)

#[local] Existing Instance toy_sha3_core.
#[local] Existing Instance toy_cbor.
#[local] Existing Instance toy_environment.

#[local] Instance toy_derivation : KeyDerivationCore := {|
  pbkdf2_hmac _ _ _ _ n := Some (replicate (Z.to_nat n) 0);
  hkdf _ _ _ _ _ _ n := Some (replicate (Z.to_nat n) 0);
  core_x963_kdf _ _ _ n := Some (replicate (Z.to_nat n) 0);
  cmac_counter_kdf_with _ _ _ n _ := sm_ret (replicate (Z.to_nat n) 0);
  derive_with_signing_key _ _ := None;
  montgomery_derive _ _ := None;
|}.
#[local] Instance toy_generator : KeyGenerator ToyBackend := {|
  getrandom_fill n := if n <? 0 then sm_err tt else sm_ret (replicate (Z.to_nat n) 7);
  generate_rsa _ := sm_err tt;
  generate_ec _ := sm_ret [];
  generate_edwards _ := sm_ret [];
  generate_montgomery _ := sm_ret [];
  generate_ml_dsa _ := sm_ret [];
  generate_ml_kem _ := sm_ret [];
  generate_hybrid _ := sm_ret [];
  ml_kem_encapsulate _ _ := sm_ret ([], []);
  hybrid_kem_encapsulate _ _ := sm_ret ([], []);
  ml_kem_decapsulate _ _ := None;
  hybrid_decapsulate _ _ _ := None;
  ml_kem_ciphertext_length _ := 0;
  hybrid_ciphertext_length _ := 0;
|}.
#[local] Instance toy_encodings : HsmKeyEncodings := {|
  rsa_primes _ := []; ml_dsa_serialized _ k := k; ml_kem_serialized k := k;
|}.
#[local] Instance toy_key_backend : KeyBackend ToyBackend := {|
  supports_native_session_objects _ _ := false;
  slot_software_scope _ := ScopeFull;
  platform_ecdh _ _ := sm_ret [];
  openpgp_derive _ _ _ _ _ := sm_ret [];
  piv_decapsulate _ _ _ _ _ := sm_ret [];
  piv_generate_key_pair _ _ _ _ := sm_ret tt;
  openpgp_generate_key_pair _ _ := sm_ret tt;
  fido_preview_sign_registration := sm_err #CKR_FUNCTION_NOT_SUPPORTED;
  yubihsm_persist_public_projection _ _ _ := sm_ret tt;
  ensure_backend_read_session := sm_ret tt;
  generate_random _ n := sm_ret (replicate (Z.to_nat n) 7);
|}.
#[local] Instance toy_key_stores {P} : KeyStores ToyBackend P := {|
  slot_generate_key _ _ _ := sm_err #CKR_FUNCTION_NOT_SUPPORTED;
  slot_generate_key_pair _ _ _ _ := sm_err #CKR_FUNCTION_NOT_SUPPORTED;
  import_public_wrap_key _ _ := sm_err #CKR_FUNCTION_NOT_SUPPORTED;
|}.
#[local] Instance toy_preview_keys : PreviewSignKeys ToyBackend := {|
  credential_public_key_cose _ := [];
  arkg_p256_public_seed _ := None;
  project_cose_public_key _ := None;
  derive_arkg_p256 _ _ := sm_err tt;
  into_record _ _ _ := None;
|}.
#[local] Instance toy_pkcs8 : Pkcs8 := {|
  material_to_pkcs8 _ := Err #CKR_FUNCTION_NOT_SUPPORTED;
  material_from_pkcs8 _ := Err #CKR_DATA_INVALID;
  rsa_validate_for_import _ := None;
|}.

(** The slot also wraps and derives. *)
#[local] Instance toy_key_crypt : CryptBackend ToyBackend := {|
  CryptApi.mechanisms _ := [mkDetails CKM_AES_KEY_WRAP_KWP 16 32 (Z.lor CKF_WRAP CKF_UNWRAP);
                   mkDetails CKM_EXTRACT_KEY_FROM_KEY 1 1024 CKF_DERIVE];
  yubihsm_command _ _ := sm_ret [];
  piv_decipher _ _ _ _ _ := sm_ret [];
  CryptApi.backend_mechanisms _ := [];
  openpgp_decipher _ _ _ := sm_ret [];
  piv_sign _ _ _ _ _ _ := sm_ret [];
  openpgp_sign _ _ _ _ := sm_ret [];
  fido_get_assertion _ _ _ _ := sm_ret [];
  fido_preview_sign _ _ _ _ := sm_ret [];
  oath_calculate _ _ := sm_ret [];
|}.

(** A wrapping key and two keys to wrap, the second not extractable. *)
Definition toy_wrapping_key : TokenObject := toy_key_object {{ attributes -> wrap := true }}.
Definition toy_released_key : TokenObject := toy_key_object {{ attributes -> extractable := true }}.
Definition toy_kept_key : TokenObject := toy_key_object {{ attributes -> derive := true }} {{ attributes -> sensitive := true }}.
Definition toy_wrapping : SlotContext ToyBackend MemoryStorageProvider :=
  ((let! _ := insert_object toy_wrapping_key in let! _ := insert_object toy_released_key in insert_object toy_kept_key)
     toy_start).2.
Definition toy_kwp : CK_MECHANISM := mkMechanism CKM_AES_KEY_WRAP_KWP None 0.
Definition toy_wrap_output : Output := mkOutput true (Some 0) [].


(** Two bytes of the kept key from bit 4 on, as a session key. *)
Definition toy_extract : CK_MECHANISM :=
  mkMechanism CKM_EXTRACT_KEY_FROM_KEY (Some ((byte_memory []) {{ as_ulong := 4 }})) SIZE_OF_ULONG.
Definition toy_two_bytes : AttributeMemory :=
  mkAttributeMemory [] [mkAttribute CKA_VALUE_LEN (Some (mkAttributeMemory (ulong_attribute 2) [])) SIZE_OF_ULONG].
Definition toy_deriving : Module ToyBackend MemoryStorageProvider :=
  mkModule {[0 := (slot toy_wrapping, state toy_wrapping)]} {[1 := 0]} true (handles toy_wrapping).


Lemma derived_secret_value_witness :
  ∃ o' w, execute_secret_derivation toy_kept_key (Extract 4) toy_key_object 2 = Ok o' ∧ material o' = SoftwareSecret w ∧ w = [85; 85].
Proof.
  destruct (execute_secret_derivation toy_kept_key (Extract 4) toy_key_object 2) as [o'| |] eqn:E; [|by vm_compute in E..].
  destruct (derived_secret_value toy_kept_key (Extract 4) toy_key_object 2 o') as (v & value & w & ? & ? & ? & Hm & Hw);
    [lia|cbn; lia|by intros v [= <-]|done|].
  exists o', w. split; [done|]. split; [done|]. vm_compute in E. injection E as <-. vm_compute in Hm. by injection Hm as <-.
Defined.

(** A Triple-DES key from a template that names nothing. *)
Lemma generated_key_as_asked_witness :
  ∃ o, generate_key_object (B := ToyBackend) (mkMechanism CKM_DES3_KEY_GEN None 0) [] (slot toy_start)
       = (Ok o, slot toy_start) ∧
    o_sensitive o = true ∧ o_extractable o = false ∧ ∃ v, material o = SoftwareSecret v ∧ len v = 24.
Proof.
  destruct (generate_key_object (B := ToyBackend) (mkMechanism CKM_DES3_KEY_GEN None 0) [] (slot toy_start))
    as [[o| |] b'] eqn:E; [|by vm_compute in E..].
  exists o. split; [by vm_compute in E; injection E as _ <-|].
  apply generated_key_as_asked in E as ((_ & _ & _ & Hs & He) & _ & _ & n & raw & v & Hm & Hn & [_ ->] & _).
  - split; [by apply Hs|]. split; [by apply He|]. by exists v.
  - intros n c c' r. cbn. destruct (Z.ltb_spec n 0); [done|]. intros [= <- <-]. rewrite len_replicate. lia.
Defined.
