(* ===== verification/WrapRoundtrip.v ===== *)
(** * WrapRoundtrip: what was wrapped unwraps to the same key

    The library's documented behaviour as laws, and the round trip of
    [C_WrapKey] and [C_UnwrapKey] with the keys of the module. *)
From coqutil Require Import Datatypes.RecordSetters.
From S2P Require Import Prelude Errors LoginSelectors Storage Mechanisms AttributeTypes KeyMetadata YubiHsm SlotState SessionApi CryptApi Digests CipherModes Ciphers SignatureModes OathOtp HsmCapabilities HsmCommands PivTables Signatures SignatureStreams SignatureRoundtrip Attributes MechanismTables KeyMechanisms Templates ObjectImport KeyTemplates SecretDerivation ObjectApi KeyApi KeyWrap.
Import DoubleBraceUpdate.

(** Documented behaviour of [software-key-core]: AES decryption inverts
    encryption, key unwrap (RFC 3394 and RFC 5649) inverts key wrap for a cipher
    whose decryption inverts its encryption, an encoded message of RFC 8017 has
    the size of the modulus, starts with a zero byte and decodes to what was
    encoded, [getrandom::fill] fills its buffer, and a PKCS #8 encoding decodes to
    the key it encodes. *)
Class WrapLaws (B : Type) `{SymmetricCore, RsaCore B, KeyGenerator B, Pkcs8} : Prop := {
  aes_ecb_inverse key b c : aes_ecb true key b = Ok c → aes_ecb false key c = Ok b;
  key_wrap_inverse S E (f : list Z → bool → outcome E (list Z)) iv input w (s s' : S) :
    (∀ b c, f b true = Ok c → f c false = Ok b) →
    key_wrap_with S E input true iv (λ b e, sm_lift (f b e)) s = (Ok w, s') →
    ∀ t : S, key_wrap_with S E w false iv (λ b e, sm_lift (f b e)) t = (Ok input, t);
  kwp_inverse S E (f : list Z → bool → outcome E (list Z)) iv input w (s s' : S) :
    (∀ b c, f b true = Ok c → f c false = Ok b) →
    key_wrap_with_padding_with S E input true iv (λ b e, sm_lift (f b e)) s = (Ok w, s') →
    16 ≤ len w ∧ ∀ t : S, key_wrap_with_padding_with S E w false iv (λ b e, sm_lift (f b e)) t = (Ok input, t);
  pkcs1_inverse input n (b b' : B) encoded :
    rsa_pkcs1v15_pad input n b = (Ok encoded, b') →
    bytes_ok encoded = true ∧ len encoded = n ∧ head encoded = Some 0 ∧ rsa_pkcs1v15_unpad encoded = Ok input;
  oaep_inverse input n label h (b b' : B) encoded :
    rsa_oaep_pad_digest input n label h b = (Ok encoded, b') →
    bytes_ok encoded = true ∧ len encoded = n ∧ head encoded = Some 0 ∧ rsa_oaep_unpad_digest encoded label h = Ok input;
  getrandom_length n (b b' : B) r : getrandom_fill n b = (Ok r, b') → len r = n;
  pkcs8_inverse key encoded : material_to_pkcs8 key = Ok encoded → material_from_pkcs8 encoded = Ok key;
}.

(** The two halves of an RSA key whose modulus has exactly the key's size. *)
Record rsa_pair (pub : RsaPublicKey) (priv : RsaPrivateKey) : Prop := mkRsaPair {
  pair_modulus : rsa_private_n priv = rsa_n pub;
  pair_size : rsa_private_size priv = rsa_size pub;
  pair_positive : 1 ≤ rsa_size pub;
  pair_bounds : 256 ^ (rsa_size pub - 1) ≤ rsa_n pub ≤ 256 ^ rsa_size pub ∧ 1 < rsa_n pub;
  pair_exponents : 0 ≤ rsa_e pub ∧ 0 ≤ rsa_d priv;
  pair_inverse v : 0 ≤ v < rsa_n pub → (v ^ rsa_e pub mod rsa_n pub) ^ rsa_d priv mod rsa_n pub = v;
}.

(** [unwrapper] is the key that opens what [wrapping] closes. *)
Definition opens (wrapping : SoftwareWrappingKey) (unwrapper : TokenObject) : Prop :=
  match wrapping with
  | WrappingAes key => material unwrapper = SoftwareSecret key ∧ key_type unwrapper = CKK_AES
  | WrappingRsa pub =>
      ∃ priv, material unwrapper = SoftwarePrivate (SigningRsa priv) ∧ class unwrapper = CKO_PRIVATE_KEY ∧
        key_type unwrapper = CKK_RSA ∧ rsa_pair pub priv
  end.

Section wrap_roundtrip.
Context {B : Type} `{HashCore} `{WrapLaws B}.

Lemma ecb_blocks_inverse key b c :
  software_crypt_ecb_blocks key b true = Ok c → software_crypt_ecb_blocks key c false = Ok b.
Proof.
  unfold software_crypt_ecb_blocks. intros E. destruct (aes_ecb true key b) eqn:Ea; [|done..]. injection E as ->.
  by rewrite (aes_ecb_inverse _ _ _ Ea).
Qed.

Lemma transform_inverse {S} m key input w (s s' : S) :
  transform_software_wrapped_key m key input true s = (Ok w, s') →
  ∀ t : S, transform_software_wrapped_key m key w false t = (Ok input, t).
Proof.
  intros E t. destruct m; cbn in *; unfold aes_key_wrap_transform, aes_kwp_transform in *; apply sm_map_err_Ok in E;
    unfold sm_map_err.
  - by rewrite (key_wrap_inverse _ _ _ _ _ _ _ _ (ecb_blocks_inverse key) E t).
  - by rewrite (proj2 (kwp_inverse _ _ _ _ _ _ _ _ (ecb_blocks_inverse key) E) t).
Qed.
Lemma kwp_long {S} iv key input w (s s' : S) : transform_software_wrapped_key (Kwp iv) key input true s = (Ok w, s') → 16 ≤ len w.
Proof.
  cbn. unfold aes_kwp_transform. intros E. apply sm_map_err_Ok in E.
  exact (proj1 (kwp_inverse _ _ _ _ _ _ _ _ (ecb_blocks_inverse key) E)).
Qed.

(** An encoded message is below the modulus. *)
Lemma encoded_below pub priv e :
  rsa_pair pub priv → bytes_ok e = true → len e = rsa_size pub → head e = Some 0 → from_bytes_be e < rsa_n pub.
Proof.
  intros Hp Hb Hl Hh. destruct e as [|b e]; [done|]. injection Hh as ->.
  change (0 :: e) with ([0] ++ e) in *. rewrite from_bytes_be_app. change (from_bytes_be [0]) with 0.
  rewrite len_app in Hl. change (len [0]) with 1 in Hl. cbn in Hb.
  pose proof (from_bytes_be_bound e Hb) as He. pose proof (pair_bounds _ _ Hp).
  replace (rsa_size pub - 1) with (len e) in * by lia. lia.
Qed.
Lemma rsa_pair_inverse pub priv e c :
  rsa_pair pub priv → bytes_ok e = true → len e = rsa_size pub → head e = Some 0 → rsa_public_operation pub e = Ok c →
  len c = rsa_private_size priv ∧ rsa_private_operation priv c = Ok e.
Proof.
  intros Hp Hb Hl Hh E. pose proof (encoded_below _ _ _ Hp Hb Hl Hh). destruct Hp as [? Hs ? [? ?] [? ?] ?].
  destruct (rsa_roundtrip pub priv e) as (c' & Hc & Hlc & _ & Hr); [done..|lia|lia|done|done|done|done|done|done|].
  rewrite E in Hc. injection Hc as <-. split; [congruence|done].
Qed.

(** RSA with either padding. *)
Lemma rsa_wrap_inverse m pub priv input (b b' : B) w :
  rsa_pair pub priv → software_rsa_wrap m pub input b = (Ok w, b') →
  len w = rsa_size pub ∧ software_rsa_unwrap (B := B) m priv w = Ok input.
Proof.
  intros Hp E. destruct m as [aes| |[[mgf hm] label]|p]; cbn [software_rsa_wrap] in E; [done| | |done].
  - unfold rsa_pkcs1_encrypt in E. sm_steps E. apply sm_map_err_Ok in E0 as E1.
    destruct (pkcs1_inverse _ _ _ _ _ E1) as (Hb & Hl & Hh & Hu).
    destruct (rsa_pair_inverse _ _ _ _ Hp Hb Hl Hh E) as [Hlc Hr]. split; [by rewrite Hlc; apply pair_size|].
    unfold software_rsa_unwrap. rewrite Hlc, Z.eqb_refl. cbn. rewrite Hr. cbn. unfold rsa_pkcs1_v1_5_unpad. by rewrite Hu.
  - unfold rsa_oaep_pad in E. sm_steps E. sm_steps E0. apply sm_map_err_Ok in E0 as E3.
    destruct (oaep_inverse _ _ _ _ _ _ _ E3) as (Hb & Hl & Hh & Hu).
    destruct (rsa_pair_inverse _ _ _ _ Hp Hb Hl Hh E) as [Hlc Hr]. split; [by rewrite Hlc; apply pair_size|].
    unfold software_rsa_unwrap. rewrite Hlc, Z.eqb_refl. cbn. rewrite Hr. cbn. unfold rsa_oaep_unpad. rewrite E1. cbn.
    rewrite E2. cbn. by rewrite Hu.
Qed.

Lemma rsa_aes_wrap_inverse p pub priv input (b b' : B) w :
  rsa_pair pub priv → software_rsa_aes_wrap p pub input b = (Ok w, b') →
  ∀ t : B, software_rsa_aes_unwrap p priv w t = (Ok input, t).
Proof.
  intros Hp E t. unfold software_rsa_aes_wrap in E. sm_steps E. apply sm_map_err_Ok in E0. apply getrandom_length in E0.
  destruct (rsa_wrap_inverse _ _ _ _ _ _ _ Hp E1) as [Hl Hr]. pose proof (kwp_long _ _ _ _ _ _ E2).
  pose proof (transform_inverse _ _ _ _ _ _ E2 t) as Ht. subst w. unfold software_rsa_aes_unwrap.
  pose proof (pair_size _ _ Hp) as ->. rewrite <-Hl, len_app.
  destruct (Z.ltb_spec (len a0 + len a1) (len a0 + 16)); [lia|]. rewrite !sm_bind_unfold. cbn [guard_err sm_lift].
  rewrite ztake_app_len, zdrop_app_len, Hr. rewrite sm_bind_unfold. cbn [sm_lift].
  rewrite sm_bind_unfold, E0, Z.eqb_refl. cbn [guard_err sm_ret negb sm_lift].
  unfold sm_map_err. by rewrite Ht.
Qed.

End wrap_roundtrip.

(** ** A concrete instance

    A cipher that masks, a wrap that prepends a header, and an RSA key with
    exponent one. *)
Definition toy_wrap_with {S E} (input : list Z) (encrypting : bool) (f : list Z → bool → SM S E (list Z))
    : SM S (KeyWrapError E) (list Z) :=
  if encrypting then
    let! c := sm_map_err WrapBlockOperation (f input true) in
    sm_ret (replicate 16 0 ++ c)
  else sm_map_err WrapBlockOperation (f (zdrop 16 input) false).
#[local] Instance toy_wrap_symmetric : SymmetricCore := {|
  aes_ecb _ := toy_mask;
  tdes_ecb _ := toy_mask;
  tdes_cbc _ key _ := toy_mask key;
  apply_pkcs7_padding d n := Ok (toy_pad d n);
  remove_pkcs7_padding := toy_unpad;
  gcm_with S E _ _ _ input _ f := sm_map_err GcmBlockOperation (f input);
  ctr_with S E _ _ input f := sm_map_err ModeBlockOperation (f input);
  ccm_with S E _ _ _ _ input _ f := sm_map_err CcmBlockOperation (f EncryptBlocks input);
  key_wrap_with S E input e _ f := toy_wrap_with input e f;
  key_wrap_with_padding_with S E input e _ f := toy_wrap_with input e f;
|}.
Definition toy_encode {S} (input : list Z) (n : Z) : SM S RsaConstructionError (list Z) :=
  if bytes_ok input && (len input =? n - 1) then sm_ret (0 :: input) else sm_err RsaRandomnessUnavailable.
#[local] Instance toy_wrap_rsa : RsaCore ToyBackend := {|
  rsa_public_new n e := Some (mkRsaPublic n e e);
  rsa_pkcs1v15_pad := toy_encode;
  rsa_oaep_pad_digest input n _ _ := toy_encode input n;
  rsa_pkcs1v15_unpad e := Ok (drop 1 e);
  rsa_oaep_unpad_digest e _ _ := Ok (drop 1 e);
|}.
#[local] Instance toy_wrap_generator : KeyGenerator ToyBackend := {|
  getrandom_fill n := if n <? 0 then sm_err tt else sm_ret (replicate (Z.to_nat n) 7);
  generate_rsa _ := sm_err tt;
  generate_ec _ := sm_ret [];
  generate_edwards _ := sm_ret [];
  generate_montgomery _ := sm_ret [];
  generate_ml_dsa _ := sm_ret [];
  generate_ml_kem _ := sm_ret [];
  generate_hybrid _ := sm_ret [];
  ml_kem_encapsulate _ _ := sm_ret ([], []);
  hybrid_kem_encapsulate _ _ := sm_ret ([], []);
  ml_kem_decapsulate _ _ := None;
  hybrid_decapsulate _ _ _ := None;
  ml_kem_ciphertext_length _ := 0;
  hybrid_ciphertext_length _ := 0;
|}.
#[local] Instance toy_wrap_pkcs8 : Pkcs8 := {|
  material_to_pkcs8 key := match key with Montgomery k => Ok k | _ => Err #CKR_FUNCTION_NOT_SUPPORTED end;
  material_from_pkcs8 encoded := Ok (Montgomery encoded);
  rsa_validate_for_import := Some;
|}.

Lemma toy_wrap_inverse {S E} (f : list Z → bool → outcome E (list Z)) input w (s s' : S) :
  (∀ b c, f b true = Ok c → f c false = Ok b) →
  toy_wrap_with input true (λ b e, sm_lift (f b e)) s = (Ok w, s') →
  16 ≤ len w ∧ ∀ t : S, toy_wrap_with w false (λ b e, sm_lift (f b e)) t = (Ok input, t).
Proof.
  intros Hf E1. unfold toy_wrap_with in E1. sm_steps E1. apply sm_map_err_Ok in E0. injection E0 as Ec _.
  change (replicate 16 0 ++ a = w) in H. subst w. split.
  - rewrite len_app. change (len (replicate 16 0)) with 16. pose proof (len_nonneg a). lia.
  - intros t. unfold toy_wrap_with. change (zdrop 16 (replicate 16 0 ++ a)) with a. unfold sm_map_err, sm_lift.
    by rewrite (Hf _ _ Ec).
Qed.
Lemma toy_encode_inverse {S} input n (s s' : S) e :
  toy_encode input n s = (Ok e, s') → bytes_ok e = true ∧ len e = n ∧ head e = Some 0 ∧ Ok (drop 1 e) = (Ok input : outcome unit _).
Proof.
  unfold toy_encode. destruct (bytes_ok input && _) eqn:E; [|done]. intros [= <- <-]. bool_to_prop.
  split_and!; [done| |done|done]. rewrite len_cons. lia.
Qed.
#[local] Instance toy_wrap_laws : WrapLaws ToyBackend.
Proof.
  split; cbn.
  - intros key b c. unfold toy_mask. destruct (len key =? 16); [|done]. intros [= <-]. f_equal.
    rewrite <-list_fmap_compose. rewrite <-(list_fmap_id b) at 2. apply list_fmap_ext. intros i x _. cbn.
    by rewrite Z.lxor_assoc, Z.lxor_nilpotent, Z.lxor_0_r.
  - intros S E f iv input w s s' Hf E1. by apply (toy_wrap_inverse f input w s s').
  - intros S E f iv input w s s' Hf E1. by apply (toy_wrap_inverse f input w s s').
  - intros. by eapply toy_encode_inverse.
  - intros. by eapply toy_encode_inverse.
  - intros n b b' r. destruct (Z.ltb_spec n 0); [done|]. intros [= <- <-]. rewrite len_replicate. lia.
  - intros key encoded. by destruct key; intros [= <-].
Qed.

Definition toy_wrap_public : RsaPublicKey := mkRsaPublic (256 ^ 17) 1 17.
Definition toy_wrap_private : RsaPrivateKey := mkRsaPrivate (256 ^ 17) 1 17.
Definition toy_opener : TokenObject :=
  mkObject (Some 0) [] CKO_PRIVATE_KEY CKK_RSA false true false true true false None (Some 1) None None
    (SoftwarePrivate (SigningRsa toy_wrap_private)) (toy_attributes 0).
Definition toy_rsa_aes : SoftwareWrapMechanism := SoftRsaAes (mkRsaAesWrap 16 (33, CKM_SHA256, [0; 0])).

Lemma toy_pair : rsa_pair toy_wrap_public toy_wrap_private.
Proof.
  refine (mkRsaPair toy_wrap_public toy_wrap_private eq_refl eq_refl _ _ _ _).
  - by vm_compute.
  - cbn [rsa_size rsa_n toy_wrap_public]. lia.
  - cbn [rsa_e rsa_d toy_wrap_public toy_wrap_private]. lia.
  - intros v Hv. cbn [rsa_e rsa_d rsa_n toy_wrap_public toy_wrap_private] in *.
    rewrite !Z.pow_1_r. rewrite (Z.mod_small v) by done. by apply Z.mod_small.
Qed.

