(* ===== verification/ObjectSafety.v ===== *)
(** * ObjectSafety: what the object API keeps

    Theorems on [Attributes], [Templates], [ObjectImport] and [ObjectApi]: hidden
    key bytes never reach the caller, an object's protections are never weakened,
    buffers are never overrun, and encodings are what they should be. *)
From coqutil Require Import Datatypes.RecordSetters.
From S2P Require Import Prelude Errors LoginSelectors Storage Mechanisms AttributeTypes KeyMetadata YubiHsm SlotState SessionApi CryptApi Digests CipherModes Ciphers SignatureModes OathOtp HsmCapabilities PivTables Attributes Templates ObjectImport MechanismTables KeyMechanisms ObjectApi Signatures SignatureStreams.
Import DoubleBraceUpdate.

(** ** Hidden key bytes *)

Section secrecy.
Context {B P : Type} `{Slot B} `{StorageProvider P} `{Sha3, MiniCbor} `{BackedObjects}
  `{Environment B P} `{CryptBackend B} `{RsaCore B, SignatureCore B, KeyCore, KeyImport, Certificates, PreviewSignRecords, HashCore}
  `{LazyCells B, ObjectBackend B, ObjectStores B P}.

(** [hidden_variant o m']: the object [o] must not show its key, and [m'] is
    another key that its public side does not tell from it. *)
Inductive hidden_variant (o : TokenObject) : KeyMaterial → Prop :=
| hidden_secret v v' :
    material o = SoftwareSecret v → class o = CKO_SECRET_KEY → o_sensitive o || negb (o_extractable o) = true →
    len v = len v' → hidden_variant o (SoftwareSecret v')
| hidden_native_secret v v' :
    material o = Secret v → class o = CKO_SECRET_KEY → o_sensitive o = true →
    len v = len v' → hidden_variant o (Secret v')
| hidden_private key key' :
    material o = SoftwarePrivate key → class o = CKO_PRIVATE_KEY → o_sensitive o = true →
    key_type o = software_key_type key → key_type o = software_key_type key' →
    software_public_key key = software_public_key key' → hidden_variant o (SoftwarePrivate key').

Definition with_material (o : TokenObject) (m : KeyMaterial) : TokenObject := o {{ material := m }}.

Definition SECRET_ATTRIBUTES : list Z :=
  [CKA_PRIVATE_EXPONENT; CKA_PRIME_1; CKA_PRIME_2; CKA_EXPONENT_1; CKA_EXPONENT_2; CKA_COEFFICIENT; CKA_SEED; CKA_VALUE].

Lemma hidden_supports o m' t : hidden_variant o m' → supports_attribute (with_material o m') t = supports_attribute o t.
Proof. destruct o. intros []; cbn in *; simplify_eq; done. Qed.

Lemma hidden_sensitive o m' t :
  hidden_variant o m' → attribute_is_sensitive (with_material o m') t = attribute_is_sensitive o t.
Proof.
  intros Hh. unfold attribute_is_sensitive. rewrite (hidden_supports _ _ _ Hh). destruct o.
  destruct Hh; cbn in *; simplify_eq; done.
Qed.

Lemma hidden_projection o m' : hidden_variant o m' → projected_public_key (with_material o m') = projected_public_key o.
Proof.
  destruct o as [? ? ? ? ? ? ? ? ? ? ? ? pk ? m ?]. intros Hh. unfold projected_public_key, with_material. cbn in *.
  destruct pk; [done|]. destruct Hh; cbn in *; simplify_eq; congruence.
Qed.

(** A supported attribute that is not sensitive is none of the secret ones. *)
Lemma shown_not_secret o m' t :
  hidden_variant o m' → supports_attribute o t = true → attribute_is_sensitive o t = false →
  one_of SECRET_ATTRIBUTES t = false.
Proof.
  intros Hh Hs Hn. apply not_true_iff_false. intros (t' & Hin & ->%Z.eqb_eq)%existsb_exists.
  destruct o as [? ? cl kt ? ? ? ? ? ? ? ? ? rp m a]. destruct a as [? ? ? ? ? ? ? sens ext ? ? ? ? ? ?].
  destruct Hh as [v v' Em Ec Eh _|v v' Em Ec Eh _|key key' Em Ec Eh Ek _ _]; cbn in Em, Ec, Eh; subst.
  1: destruct sens, ext; try discriminate Eh.
  5: cbn in Ek; destruct key as [| | | | | |[]]; cbn in Ek; subst kt.
  all: cbn in Hin; destruct_or! Hin; subst; vm_compute in Hs; try discriminate Hs; vm_compute in Hn; discriminate Hn.
Qed.

(** The public side of a key, with and without the hidden bytes. *)
Lemma hidden_public_side o m' :
  hidden_variant o m' →
  let o' := with_material o m' in
  public_key_info o' = public_key_info o ∧ allows_derive o' = allows_derive o
  ∧ modulus_value o' = modulus_value o ∧ modulus_bits_value o' = modulus_bits_value o
  ∧ public_exponent_value o' = public_exponent_value o ∧ ec_params_value o' = ec_params_value o
  ∧ ec_point_value o' = ec_point_value o ∧ parameter_set_value o' = parameter_set_value o.
Proof.
  intros Hh. pose proof (hidden_projection _ _ Hh) as Hp. cbn zeta.
  unfold allows_derive, supports_public_projection, public_key_info, modulus_value, modulus_bits_value,
    public_exponent_value, ec_params_value, ec_point_value, parameter_set_value.
  rewrite Hp. destruct o; destruct Hh as [v v' Em|v v' Em|key key' Em]; cbn in Em; subst; cbn -[projected_public_key];
    split_and!; done.
Qed.

Lemma hidden_own_attribute o m' t :
  hidden_variant o m' → one_of SECRET_ATTRIBUTES t = false → own_attribute (with_material o m') t = own_attribute o t.
Proof.
  intros Hh Ht. destruct (hidden_public_side _ _ Hh) as (Hpi & Had & Hm & Hmb & Hpe & Hep & Hpt & Hps).
  unfold SECRET_ATTRIBUTES, one_of in Ht. cbn [existsb] in Ht.
  repeat match goal with H : (_ || _) = false |- _ => apply orb_false_iff in H as [? H] end.
  assert (value_len (with_material o m') = value_len o) as Hv.
  { destruct o, Hh as [v v' Em Ec Eh Hl|v v' Em Ec Eh Hl|key key' Em]; cbn in Em; subst; cbn; by rewrite ?Hl. }
  unfold own_attribute. rewrite Hpi, Had, Hm, Hmb, Hpe, Hep, Hpt, Hps, Hv.
  repeat match goal with E : (t =? _) = false |- _ => rewrite ?E; clear E end.
  clear Hpi Had Hm Hmb Hpe Hep Hpt Hps Hv.
  destruct o, Hh as [v v' Em|v v' Em|key key' Em]; cbn in Em; subst; reflexivity.
Qed.

(** An attribute that may be read has the same value whatever the hidden key. *)
Lemma hidden_attribute_value o m' t b :
  hidden_variant o m' → attribute_is_sensitive o t = false →
  attribute_value (with_material o m') t b = attribute_value o t b.
Proof.
  intros Hh Hn. unfold attribute_value. rewrite (hidden_supports _ _ t Hh).
  assert (∀ k : option (list Z) → option (list Z) * B,
    k (match material (with_material o m') with OathCredential c => oath_attribute c t | _ => None end)
    = k (match material o with OathCredential c => oath_attribute c t | _ => None end)) as Ho.
  { intros k. destruct o, Hh as [v v' Em|v v' Em|key key' Em]; cbn in Em; by subst. }
  destruct (supports_attribute o t) eqn:Hs; cbn [negb].
  - pose proof (shown_not_secret _ _ _ Hh Hs Hn) as Hsec. rewrite (hidden_own_attribute _ _ _ Hh Hsec).
    assert (material_attribute (with_material o m') t b = material_attribute o t b) as Hma.
    { assert ((t =? CKA_VALUE) = false) as Hv by (apply not_true_iff_false; intros ->%Z.eqb_eq; discriminate Hsec).
      unfold material_attribute. rewrite Hv.
      destruct o, Hh as [v v' Em|v v' Em|key key' Em]; cbn in Em; by subst. }
    rewrite Hma. apply (Ho (λ r, match r with Some value => (Some value, b) | None => _ end)).
  - apply (Ho (λ r, match r with Some value => (Some value, b) | None => _ end)).
Qed.

Lemma hidden_allowed table native o m' :
  hidden_variant o m' →
  allowed table (key_mechanism_operations native) (with_material o m') = allowed table (key_mechanism_operations native) o.
Proof.
  intros Hh. assert (∀ t, operations (with_material o m') t = operations o t) as Ho.
  { intros t. destruct (hidden_public_side _ _ Hh) as (Hpi & _). unfold operations, supports_public_projection.
    rewrite Hpi. destruct o, Hh as [v v' Em|v v' Em|key key' Em]; cbn in Em; subst; reflexivity. }
  assert (∀ t, key_mechanism_operations native (with_material o m') t = key_mechanism_operations native o t) as Hk.
  { intros t. destruct native; cbn; unfold piv_key_mechanism_operations, openpgp_key_mechanism_operations,
      yubihsm_key_mechanism_operations; rewrite ?Ho; try done;
      destruct o, Hh as [v v' Em|v v' Em|key key' Em]; cbn in Em; subst; done. }
  unfold allowed. f_equal. f_equal. apply List.filter_ext. intros d. by rewrite Hk.
Qed.

Lemma hidden_read_one k handle o m' a x :
  hidden_variant o m' →
  read_one_attribute (P := P) k handle (with_material o m') a x = read_one_attribute k handle o a x.
Proof.
  intros Hh. unfold read_one_attribute. rewrite (hidden_supports _ _ _ Hh), (hidden_sensitive _ _ _ Hh).
  destruct (supports_attribute o (attr_type a)) eqn:Hs; [|done]. cbn [negb].
  destruct (attribute_is_sensitive o (attr_type a)) eqn:Hn; [done|].
  destruct (one_of _ (attr_type a)); [by destruct o|].
  assert (object_attribute_value k handle (with_material o m') (attr_type a) x
          = object_attribute_value k handle o (attr_type a) x) as He; [|unfold sbind; by rewrite He].
  assert (plain_attribute_value (P := P) (with_material o m') (attr_type a) x
          = plain_attribute_value o (attr_type a) x) as Hpl.
  { unfold plain_attribute_value. by rewrite (hidden_attribute_value _ _ _ _ Hh Hn). }
  unfold object_attribute_value, allowed_key_mechanisms. rewrite (hidden_sensitive _ _ _ Hh), Hn.
  destruct (attr_type a =? CKA_PKCS11RS_URI); [by destruct o|].
  change (is_key_object (with_material o m')) with (one_of [CKO_PUBLIC_KEY; CKO_OTP_KEY; CKO_PRIVATE_KEY; CKO_SECRET_KEY]
    (class (with_material o m'))).
  assert (class (with_material o m') = class o) as -> by (by destruct o). fold (is_key_object o).
  destruct ((attr_type a =? CKA_ALLOWED_MECHANISMS) && is_key_object o).
  { unfold sbind, asks, sm_gets. cbn. by rewrite (hidden_allowed _ _ _ _ Hh). }
  revert Hpl. destruct o as [? ? cl ? tok ? ? ? ? ? ? ? ? ? m ?].
  destruct Hh as [v v' Em|v v' Em|key key' Em]; cbn in Em; subst; unfold sbind, asks, gets, sm_gets; cbn -[plain_attribute_value is_native_token_object_handle].
  all: intros Hpl; destruct ((attr_type a =? CKA_COPYABLE) && _ && _); [done|].
  all: rewrite ?andb_false_r, ?andb_false_l; exact Hpl.
Qed.

Lemma hidden_read k handle o m' templ : ∀ rv x,
  hidden_variant o m' →
  read_attributes (P := P) k handle (with_material o m') rv templ x = read_attributes k handle o rv templ x.
Proof.
  induction templ as [|a templ IH]; intros rv x Hh; [done|]. cbn [read_attributes].
  rewrite (hidden_read_one _ _ _ _ _ _ Hh). destruct (read_one_attribute k handle o a x) as [[[e a']| |] x']; [|done..].
  by rewrite IH.
Qed.

Lemma hidden_size o m' b : hidden_variant o m' → size (with_material o m') b = size o b.
Proof.
  intros Hh. unfold size.
  assert (deferred_native_value (with_material o m') = deferred_native_value o) as ->
    by (by destruct o, Hh as [v v' Em|v v' Em|key key' Em]; cbn in Em; subst).
  assert (defer_certificate_attributes (with_material o m') b = defer_certificate_attributes o b) as ->
    by (by destruct o, Hh as [v v' Em|v v' Em|key key' Em]; cbn in Em; subst).
  assert (attribute_types (with_material o m') = attribute_types o) as ->.
  { unfold attribute_types. rewrite (List.filter_ext _ (supports_attribute o)); [|intros t; by apply hidden_supports].
    by destruct o, Hh as [v v' Em|v v' Em|key key' Em]; cbn in Em; subst. }
  rewrite (List.filter_ext _ (λ t, negb (attribute_is_sensitive o t))
    (λ t, f_equal negb (hidden_sensitive o m' t Hh))).
  set (l := List.filter _ _).
  assert (Forall (λ t, attribute_is_sensitive o t = false) l) as Hl.
  { apply List.Forall_forall. intros t [_ Ht]%List.filter_In. by apply negb_true_iff. }
  clearbody l. assert (sum_lengths (with_material o m') l b = sum_lengths o l b) as ->; [|done].
  revert b. induction Hl as [|t l Ht Hl IH]; intros b; [done|]. cbn [sum_lengths].
  rewrite (hidden_attribute_value _ _ _ _ Hh Ht). destruct (attribute_value o t b) as [v b']. by rewrite IH.
Qed.

(** C7: A hidden key never reaches the caller. Take a sensitive private key, a
    sensitive secret key, or a software secret key that is sensitive or not
    extractable, and any other key with the same public side: whatever template
    [C_GetAttributeValue] is called with, on whatever state, the answer, the
    template it leaves and the state after it are the same, and so is the object's
    size. *)
Theorem hidden_key_not_shown k handle o m' rv templ x b :
  hidden_variant o m' →
  read_attributes (P := P) k handle (with_material o m') rv templ x = read_attributes k handle o rv templ x
  ∧ size (with_material o m') b = size o b.
Proof. intros Hh. split; [by apply hidden_read|by apply hidden_size]. Qed.

End secrecy.

(** ** Protections are never weakened *)

(** The other fields of an object are kept, it stays as hidden as it was, and
    no more extractable than it was. *)
Record keeps (o o' : TokenObject) : Prop := mkKeeps {
  keeps_class : class o' = class o;
  keeps_key_type : key_type o' = key_type o;
  keeps_usage : (encrypt o', decrypt o', sign o', verify o') = (encrypt o, decrypt o, sign o, verify o);
  keeps_allowed : allowed_mechanisms o' = allowed_mechanisms o;
  keeps_public_key : public_key o' = public_key o;
  keeps_rp : rp_id o' = rp_id o;
  keeps_material : match material o with
                   | Data instance _ _ _ => ∃ application object_id value, material o' = Data instance application object_id value
                   | m => material o' = m
                   end;
  keeps_sensitive : o_sensitive o = true → o_sensitive o' = true;
  keeps_extractable : o_extractable o' = true → o_extractable o = true;
  keeps_history : let a := attributes o in let a' := attributes o' in
    (always_sensitive a', never_extractable a', local a', key_gen_mechanism a')
    = (always_sensitive a, never_extractable a, local a, key_gen_mechanism a);
  keeps_policy : let a := attributes o in let a' := attributes o' in
    (derive a', wrap a', unwrap a', encapsulate a', decapsulate a', wrap_with_trusted a', policy_templates a')
    = (derive a, wrap a, unwrap a, encapsulate a, decapsulate a, wrap_with_trusted a, policy_templates a);
}.

#[local] Instance keeps_refl : Reflexive keeps.
Proof. intros o. split; try done. destruct (material o); eauto. Qed.
#[local] Instance keeps_trans : Transitive keeps.
Proof.
  intros o1 o2 o3 [] []. split; try congruence; try tauto; try (etrans; eassumption).
  revert keeps_material0. destruct (material o1); intros E2; try (rewrite E2 in keeps_material1; exact keeps_material1).
  destruct E2 as (? & ? & ? & E2). rewrite E2 in keeps_material1. exact keeps_material1.
Qed.

Lemma change_keeps a o o' : set_object_attribute a o = Ok o' → keeps o o'.
Proof.
  intros E. unfold set_object_attribute in E. apply bind_Ok in E as (value & _ & E).
  destruct (set_data_attribute (attr_type a) value o) as [r|] eqn:Ed.
  - unfold set_data_attribute in Ed. destruct (material o) eqn:Em; try done.
    repeat case_match; simplify_eq; destruct o; cbn in *; subst; split; cbn; eauto.
  - clear Ed. assert (∀ oo : TokenObject, keeps oo oo) as Hr by reflexivity.
    repeat case_match; try done; o_inv E; simplify_eq; destruct o as [? ? ? ? ? ? ? ? ? ? ? ? ? ? m at_];
      destruct at_; (split; cbn; try done; try (destruct m; eauto; fail)).
    all: unfold o_sensitive, o_extractable in *; cbn in *; unfold bail in *.
    all: repeat case_match; try done; unfold constant; intros ->.
    all: rewrite ?andb_true_r in *; cbn [andb] in *; by apply negb_false_iff.
Qed.

Lemma copy_change_keeps a o o' : set_copy_attribute_value a o = Ok o' → keeps o o'.
Proof.
  unfold set_copy_attribute_value.
  destruct (attr_type a =? CKA_TOKEN); [|destruct (attr_type a =? CKA_PRIVATE); [|by apply change_keeps]].
  all: destruct (read_bool_template_attribute a); cbn; try done; intros [= <-]; destruct o as [? ? ? ? ? ? ? ? ? ? ? ? ? ? m ?];
    split; cbn; try done; destruct m; eauto.
Qed.

Lemma changes_keep change templ : ∀ rv o rv' o',
  (∀ a o o', change a o = Ok o' → keeps o o') → apply_changes change templ rv o = Ok (rv', o') → keeps o o'.
Proof.
  induction templ as [|a templ IH]; intros rv o rv' o' Hc E; cbn [apply_changes] in E; [by injection E as <- <-|].
  destruct (change a o) as [o1|e|] eqn:Ea; [|by eapply IH|done]. etrans; [by eapply Hc|by eapply IH].
Qed.

(** What was hidden in the original is hidden in the copy. *)
Lemma keeps_hidden o o' t : keeps o o' → attribute_is_sensitive o t = true → attribute_is_sensitive o' t = true.
Proof.
  intros [Hc Hk _ _ _ Hr Hm Hs He _ _]. unfold attribute_is_sensitive.
  assert (supports_attribute o' t = supports_attribute o t) as ->.
  { unfold supports_attribute, standard_attribute, supports_vendor_attribute, supports_compatibility_attribute.
    rewrite Hc, Hk, Hr. destruct (material o); try (by rewrite Hm). by destruct Hm as (? & ? & ? & ->). }
  rewrite Hc, Hk.
  assert (∃ oath soft, ∀ e : bool,
    (match material o with OathCredential _ => t =? CKA_VALUE | _ => false end) = oath
    ∧ (match material o' with OathCredential _ => t =? CKA_VALUE | _ => false end) = oath
    ∧ (match material o with SoftwareSecret _ | YubiHsmSessionObject _ _ => e | _ => false end) = soft && e
    ∧ (match material o' with SoftwareSecret _ | YubiHsmSessionObject _ _ => e | _ => false end) = soft && e)
    as (oath & soft & Hmat).
  { destruct (material o); try (rewrite Hm; first [by exists false, false|by exists false, true|by exists (t =? CKA_VALUE), false]).
    destruct Hm as (? & ? & ? & ->). by exists false, false. }
  destruct (Hmat true) as (-> & -> & _). destruct (Hmat (negb (o_extractable o))) as (_ & _ & -> & _).
  destruct (Hmat (negb (o_extractable o'))) as (_ & _ & _ & ->). clear Hmat Hm.
  destruct oath; [done|]. destruct (negb (supports_attribute o t)); [done|].
  destruct ((class o =? CKO_SECRET_KEY) && (t =? CKA_VALUE)).
  - destruct (o_sensitive o) eqn:Es; [by rewrite (Hs eq_refl)|]. cbn [orb].
    destruct soft; [|done]. cbn [andb]. destruct (o_extractable o'); [by rewrite (He eq_refl)|].
    intros _. apply orb_true_r.
  - destruct (o_sensitive o) eqn:Es; [by rewrite (Hs eq_refl)|]. by rewrite orb_true_r.
Qed.

(** C8: An object's protections are never weakened. A change of attributes, or a
    copy with changed attributes, keeps the class, the type, the material, the
    usages, the mechanisms and the policies of the object; a sensitive object
    stays sensitive and one that is not extractable stays so; and every attribute
    that was hidden stays hidden. *)
Theorem changes_never_weaken templ o o' :
  changed_object set_object_attribute templ o = Ok o' ∨ changed_object set_copy_attribute_value templ o = Ok o' →
  keeps o o' ∧ ∀ t, attribute_is_sensitive o t = true → attribute_is_sensitive o' t = true.
Proof.
  intros E. assert (keeps o o') as Hk.
  { destruct E as [E|E]; unfold changed_object in E; apply bind_Ok in E as ([rv o1] & E & Hrv);
      (destruct (rv =? CKR_OK); [injection Hrv as <-|done]).
    - eapply changes_keep, E. apply change_keeps.
    - eapply changes_keep, E. apply copy_change_keeps. }
  split; [done|]. intros t. by apply keeps_hidden.
Qed.


(** ** Buffers *)

(** [within a a']: what is written to the memory of [a] stays in the
    [ulValueLen a] bytes that the caller says it has, and so for the buffers of
    an array of attributes. *)
Inductive within : CK_ATTRIBUTE → CK_ATTRIBUTE → Prop :=
| within_untouched a t n : within a (mkAttribute t (pValue a) n)
| within_bytes t t' m bytes n n' :
    zdrop n bytes = zdrop n (mem_bytes m) →
    within (mkAttribute t (Some m) n) (mkAttribute t' (Some (mkAttributeMemory bytes (mem_items m))) n')
| within_items t t' m items n n' :
    Forall2 within (mem_items m) items →
    zdrop (n / SIZE_OF_ATTRIBUTE) items = zdrop (n / SIZE_OF_ATTRIBUTE) (mem_items m) →
    within (mkAttribute t (Some m) n) (mkAttribute t' (Some (mkAttributeMemory (mem_bytes m) items)) n').

Lemma within_refl a : within a a.
Proof. destruct a as [t m n]. apply (within_untouched (mkAttribute t m n)). Qed.
Lemma within_set_len a n : within a (set_len n a).
Proof. apply within_untouched. Qed.
Lemma within_retype a a' t : within (mkAttribute t (pValue a) (ulValueLen a)) a' → within a a'.
Proof.
  destruct a as [t1 m n]. cbn. intros Hw. inversion Hw; subst; cbn; [|by constructor..].
  apply (within_untouched (mkAttribute t1 m n)).
Qed.
Lemma within_relen a a' n : within a a' → within a (set_len n a').
Proof. destruct 1 as [a t| |]; [apply (within_untouched a t n)|by apply within_bytes|by apply within_items]. Qed.

Lemma overwrite_beyond (value bytes : list Z) n :
  len value ≤ n → zdrop n (value ++ zdrop (len value) bytes) = zdrop n bytes.
Proof.
  intros Hn. unfold zdrop, len in *. rewrite skipn_app, drop_ge by lia. cbn [app].
  rewrite drop_drop. f_equal. lia.
Qed.

Lemma write_value_within a value : within a (write_attribute_value a value).2.
Proof.
  destruct a as [t [m|] n]; cbn; [|apply within_untouched]. destruct (Z.ltb_spec n (len value)).
  - apply (within_untouched (mkAttribute t (Some m) n)).
  - apply within_bytes. apply overwrite_beyond. lia.
Qed.
Lemma write_policy_value_within a value : within a (write_policy_value a value).2.
Proof.
  destruct a as [t [m|] n]; unfold write_policy_value; cbn [pValue ulValueLen]; [|apply within_untouched].
  destruct (Z.ltb_spec n (len value)); [apply (within_untouched (mkAttribute t (Some m) n))|].
  destruct (from_raw_parts _ _); cbn; [|apply within_refl..]. apply within_bytes. apply overwrite_beyond. lia.
Qed.

Lemma write_entry_within nested v place e place' :
  within place nested.2 → write_policy_entry nested v place = Ok (e, place') → within place place'.
Proof.
  intros Hn. unfold write_policy_entry.
  assert (∀ w : option Z * CK_ATTRIBUTE, within place w.2 →
    within place (if bool_decide (w.1 = Some CKR_BUFFER_TOO_SMALL) then set_len CK_UNAVAILABLE_INFORMATION w.2 else w.2)) as Hm.
  { intros w Hw. case_bool_decide; [by apply within_relen|done]. }
  assert (∀ c : outcome Z (list Z), omap_ok (λ value, ((write_policy_value place value).1,
      if bool_decide ((write_policy_value place value).1 = Some CKR_BUFFER_TOO_SMALL)
      then set_len CK_UNAVAILABLE_INFORMATION (write_policy_value place value).2
      else (write_policy_value place value).2)) c = Ok (e, place') → within place place') as Hp.
  { intros [value| |]; cbn; try done. intros [= <- <-]. apply Hm, write_policy_value_within. }
  destruct v; try apply Hp. intros [= <- <-]. by apply Hm.
Qed.

Lemma write_template_within v : ∀ a, within a (write_policy_value_or_template v a).2.
Proof.
  induction v as [| | | | |l IH] using KeyAttributeValue_nested_ind; intros a; try apply within_refl.
  destruct a as [t [m|] n]; cbn [write_policy_value_or_template pValue ulValueLen attr_type];
    [|apply (within_untouched (mkAttribute t None n))].
  destruct (Z.ltb_spec n (len l * SIZE_OF_ATTRIBUTE)); [apply (within_untouched (mkAttribute t (Some m) n))|].
  match goal with |- context [?f l (mem_items m) CKR_OK] => set (fill := f) end.
  assert (∀ places rv, Forall2 within places (fill l places rv).2
            ∧ drop (length l) (fill l places rv).2 = drop (length l) places) as Hfill.
  { clear - IH. induction IH as [|[t v] l Hv IH IHl]; intros places rv; cbn.
    - split; [|done]. induction places; constructor; [apply within_refl|done].
    - destruct places as [|place places]; [by split|].
      set (place1 := mkAttribute t (pValue place) (ulValueLen place)).
      assert (∀ e place', write_policy_entry (write_policy_value_or_template v place1) v place1 = Ok (e, place') →
                within place place') as Hentry.
      { intros e place' Hw. apply within_retype with (t := t). by eapply write_entry_within. }
      destruct (write_policy_entry _ v place1) as [[e place']| |] eqn:Ew; cbn.
      + specialize (IHl places (combine_opt rv e)) as [Hf Hd].
        destruct (fill l places (combine_opt rv e)) as [r places'] eqn:Ef. cbn in *. split; [|done].
        constructor; [by eapply Hentry|done].
      + split; [|done]. constructor; [apply within_retype with (t := t), within_refl|].
        induction places; constructor; [apply within_refl|done].
      + split; [|done]. constructor; [apply within_retype with (t := t), within_refl|].
        induction places; constructor; [apply within_refl|done]. }
  destruct (Hfill (mem_items m) CKR_OK) as [H1 H2]. destruct (fill l (mem_items m) CKR_OK) as [r places]. cbn in H1, H2.
  assert (zdrop (n / SIZE_OF_ATTRIBUTE) places = zdrop (n / SIZE_OF_ATTRIBUTE) (mem_items m)) as H3.
  { assert (len l ≤ n / SIZE_OF_ATTRIBUTE) by (apply Z.div_le_lower_bound; unfold SIZE_OF_ATTRIBUTE in *; lia).
    unfold zdrop, len in *. replace (Z.to_nat (n / SIZE_OF_ATTRIBUTE))
      with (length l + (Z.to_nat (n / SIZE_OF_ATTRIBUTE) - length l))%nat by lia.
    rewrite <-!drop_drop. by rewrite H2. }
  destruct r; cbn; by apply within_items.
Qed.

Lemma write_template_type a l : attr_type (write_policy_template a l).2 = attr_type a.
Proof.
  destruct a as [t [m|] n]; unfold write_policy_template; cbn [write_policy_value_or_template pValue ulValueLen attr_type];
    [|done]. destruct (n <? _); [done|].
  match goal with |- context [match ?f with pair _ _ => _ end] => by destruct f as [[] ?] end.
Qed.
Lemma write_value_type a value : attr_type (write_attribute_value a value).2 = attr_type a.
Proof. destruct a as [t [m|] n]; cbn; [by destruct (n <? len value)|done]. Qed.

Section buffers.
Context {B P : Type} `{Slot B} `{StorageProvider P} `{Sha3, MiniCbor} `{BackedObjects}
  `{Environment B P} `{CryptBackend B} `{RsaCore B, SignatureCore B, KeyCore, KeyImport, Certificates, PreviewSignRecords, HashCore}
  `{LazyCells B, ObjectBackend B, ObjectStores B P}.

Definition read_within (o : TokenObject) (a a' : CK_ATTRIBUTE) : Prop :=
  attr_type a' = attr_type a ∧ within a a'
  ∧ (attribute_is_sensitive o (attr_type a) = true → pValue a' = pValue a).

Lemma read_one_within k handle o a x e a' x' :
  read_one_attribute (P := P) k handle o a x = (Ok (e, a'), x') → read_within o a a'.
Proof.
  unfold read_one_attribute, read_within. destruct (negb (supports_attribute o (attr_type a))).
  { intros [= _ <- _]. split; [by destruct a|]. split; [apply within_set_len|by destruct a]. }
  destruct (attribute_is_sensitive o (attr_type a)).
  { intros [= _ <- _]. split; [by destruct a|]. split; [apply within_set_len|by destruct a]. }
  destruct (one_of _ (attr_type a)).
  { set (w := write_policy_template a (default [] (policy_template (attr_type a) o))). intros [= E _].
    assert (a' = w.2) as -> by (by rewrite E). subst w. split; [apply write_template_type|]. split; [apply write_template_within|done]. }
  intros E. apply sm_bind_Ok in E as (value & s & _ & E). destruct value as [value|].
  - set (w := write_attribute_value a value) in E. injection E as E _. assert (a' = w.2) as -> by (by rewrite E). subst w.
    split; [apply write_value_type|]. split; [apply write_value_within|done].
  - injection E as _ <- _. split; [by destruct a|]. split; [apply within_set_len|done].
Qed.

(** C9: [C_GetAttributeValue] never writes beyond the buffers it is given: each
    attribute keeps its type, the bytes after its [ulValueLen] bytes are as they
    were, for the arrays of policy templates down to the buffers of their entries,
    and nothing at all is written for a sensitive attribute. This holds however
    the call ends. *)
Theorem read_never_overruns k handle o rv templ x r templ' x' :
  read_attributes (P := P) k handle o rv templ x = (r, templ', x') → Forall2 (read_within o) templ templ'.
Proof.
  assert (∀ l, Forall2 (read_within o) l l) as Hrefl.
  { intros l. induction l; constructor; [|done]. split; [done|]. split; [apply within_refl|done]. }
  revert rv x r templ' x'. induction templ as [|a templ IH]; intros rv x r templ' x' E; cbn [read_attributes] in E.
  { injection E as _ <- _. constructor. }
  destruct (read_one_attribute k handle o a x) as [[[e a']| |] x1] eqn:Ea.
  - destruct (read_attributes k handle o (combine_opt rv e) templ x1) as [[r1 rest] x2] eqn:Er.
    injection E as _ <- _. constructor; [by eapply read_one_within|by eapply IH].
  - injection E as _ <- _. apply (Hrefl (a :: templ)).
  - injection E as _ <- _. apply (Hrefl (a :: templ)).
Qed.
End buffers.

(** ** Witnesses *)

#[local] Existing Instance toy_sha3_core.
#[local] Existing Instance toy_cbor.
#[local] Existing Instance toy_environment.

(** A secret key that is sensitive, read with the template of [CKA_CLASS],
    [CKA_VALUE] and [CKA_VALUE_LEN]. *)
Definition toy_hidden_key : TokenObject :=
  mkObject (Some 0) [] CKO_SECRET_KEY CKK_AES false true true true false false None (Some 1) None None
    (SoftwareSecret toy_key) ((toy_attributes 0) {{ sensitive := true }}).
Definition toy_place (t : Z) : CK_ATTRIBUTE := mkAttribute t (Some (mkAttributeMemory (replicate 16 0) [])) 16.
Definition toy_template : list CK_ATTRIBUTE := [toy_place CKA_CLASS; toy_place CKA_VALUE; toy_place CKA_VALUE_LEN].

Lemma hidden_key_not_shown_witness :
  read_attributes (P := MemoryStorageProvider) 1 1 (with_material toy_hidden_key (SoftwareSecret (replicate 16 0))) CKR_OK
    toy_template toy_start
  = read_attributes (P := MemoryStorageProvider) 1 1 toy_hidden_key CKR_OK toy_template toy_start.
Proof.
  apply (hidden_key_not_shown (B := ToyBackend) (P := MemoryStorageProvider) 1 1 toy_hidden_key
    (SoftwareSecret (replicate 16 0)) CKR_OK toy_template toy_start (slot toy_start)).
  by eapply hidden_secret.
Defined.

(** The key is renamed and made sensitive. *)
Definition toy_changes : list CK_ATTRIBUTE :=
  [mkAttribute CKA_LABEL (Some (mkAttributeMemory [75] [])) 1; mkAttribute CKA_SENSITIVE (Some (mkAttributeMemory [1] [])) 1].

Lemma changes_never_weaken_witness :
  ∃ o', changed_object set_object_attribute toy_changes toy_key_object = Ok o' ∧ keeps toy_key_object o' ∧ o_sensitive o' = true.
Proof.
  destruct (changed_object set_object_attribute toy_changes toy_key_object) as [o'| |] eqn:E; [|by vm_compute in E..].
  exists o'. destruct (changes_never_weaken toy_changes toy_key_object o' (or_introl E)) as [Hk _].
  split; [done|]. split; [done|]. vm_compute in E. by injection E as <-.
Defined.

Lemma read_never_overruns_witness :
  ∃ r templ' x', read_attributes (P := MemoryStorageProvider) 1 1 toy_hidden_key CKR_OK toy_template toy_start = (r, templ', x')
    ∧ r = Ok CKR_ATTRIBUTE_SENSITIVE ∧ Forall2 (read_within toy_hidden_key) toy_template templ'.
Proof.
  destruct (read_attributes (P := MemoryStorageProvider) 1 1 toy_hidden_key CKR_OK toy_template toy_start)
    as [[r templ'] x'] eqn:E. exists r, templ', x'. split; [done|].
  pose proof (read_never_overruns (B := ToyBackend) (P := MemoryStorageProvider) _ _ _ _ _ _ _ _ _ E) as Hr.
  split; [|done]. vm_compute in E. by injection E.
Defined.
