(* ===== verification/DerSafety.v ===== *)
(** * DerSafety: the encodings of public keys

    A reference decoder for DER, and the theorems that the encoders of
    [Attributes] (the DER helpers of [src/src/object.rs]) write what it reads: tag,
    length and value, integers, and the public key information of RSA, EC and hybrid
    keys; with the one exception of two curve identifiers of [src/src/openpgp.rs]. *)
From S2P Require Import Prelude Errors Storage Mechanisms AttributeTypes KeyMetadata YubiHsm SlotState SessionApi CryptApi Digests CipherModes Ciphers SignatureModes OathOtp HsmCapabilities PivTables Attributes.

(** ** The reference decoder *)

Definition split_at (n : Z) (l : list Z) : option (list Z * list Z) :=
  if len l <? n then None else Some (ztake n l, zdrop n l).

(** Tag, value and the rest; lengths are minimal, as DER requires. *)
Definition der_decode (l : list Z) : option (Z * list Z * list Z) :=
  match l with
  | tag :: n :: rest =>
      if n <? 128 then '(value, rest) ← split_at n rest; Some (tag, value, rest)
      else
        '(bytes, rest) ← split_at (n - 128) rest;
        let length := from_bytes_be bytes in
        if (at_ bytes 0 =? 0) || (length <? 128) then None
        else '(value, rest) ← split_at length rest; Some (tag, value, rest)
  | _ => None
  end.

(** The value of an element that must have this tag. *)
Definition der_expect (tag : Z) (l : list Z) : option (list Z * list Z) :=
  '(t, value, rest) ← der_decode l;
  if t =? tag then Some (value, rest) else None.

(** A non-negative integer, in as few bytes as possible. *)
Definition der_natural (l : list Z) : option (Z * list Z) :=
  '(value, rest) ← der_expect 0x02 l;
  match value with
  | [] => None
  | [b] => if b <? 128 then Some (b, rest) else None
  | b :: c :: _ => if (b <? 128) && negb ((b =? 0) && (c <? 128)) then Some (from_bytes_be value, rest) else None
  end.

(** A [SubjectPublicKeyInfo]: the algorithm and the bytes of the key. *)
Definition decode_key_info (l : list Z) : option (list Z * list Z) :=
  '(info, rest) ← der_expect 0x30 l;
  match rest with
  | _ :: _ => None
  | [] =>
      '(algorithm, rest) ← der_expect 0x30 info;
      '(bits, rest) ← der_expect 0x03 rest;
      match bits, rest with
      | 0 :: key, [] => Some (algorithm, key)
      | _, _ => None
      end
  end.

(** An RSA public key inside it. *)
Definition decode_rsa_key (key : list Z) : option (Z * Z) :=
  '(numbers, rest) ← der_expect 0x30 key;
  '(n, numbers) ← der_natural numbers;
  '(e, numbers) ← der_natural numbers;
  match rest, numbers with [], [] => Some (n, e) | _, _ => None end.

(** ** Tag, length, value *)

Lemma split_at_app value rest : split_at (len value) (value ++ rest) = Some (value, rest).
Proof.
  unfold split_at. simp_len. pose proof (len_nonneg rest). test_false (len value + len rest <? len value).
  by rewrite ztake_app_len, zdrop_app_len.
Qed.

Lemma significant_value n l : from_bytes_be (significant n l) = from_bytes_be l.
Proof.
  induction l as [|b l IH]; [done|]. cbn [significant]. destruct b; try done. case_decide; [done|]. by rewrite IH.
Qed.

Lemma significant_length n l : (n ≤ length l)%nat → (n ≤ length (significant n l) ≤ length l)%nat.
Proof.
  induction l as [|b l IH]; cbn [significant length]; [lia|]. intros Hl. destruct b; try (cbn; lia).
  case_decide; [cbn; lia|]. specialize (IH ltac:(lia)). lia.
Qed.

(** What is left of a positive number starts with a byte that is not zero. *)
Lemma significant_positive l : bytes_ok l = true → 0 < from_bytes_be l → 0 < at_ (significant 1 l) 0.
Proof.
  induction l as [|b l IH]; intros Hb Hp; [done|].
  cbn in Hb. apply andb_true_iff in Hb as [Hb Hl]. unfold is_byte in Hb. cbn [significant].
  change (b :: l) with ([b] ++ l) in Hp. rewrite from_bytes_be_app in Hp. change (from_bytes_be [b]) with b in Hp.
  destruct b as [|p|p]; [|done|discriminate Hb]. rewrite Z.mul_0_l, Z.add_0_l in Hp.
  case_decide as Hd; [|by apply IH]. destruct l; [done|cbn in Hd; lia].
Qed.

(** What the module writes as an element, the decoder reads. *)
Lemma der_tlv_decodes tag value rest : len value < 2 ^ 64 → der_decode (der_tlv tag value ++ rest) = Some (tag, value, rest).
Proof.
  intros Hl. pose proof (len_nonneg value). unfold der_tlv.
  destruct (Z.ltb_spec (len value) 128) as [Hs|Hs]; cbn [app der_decode].
  - test_true (len value <? 128). by rewrite split_at_app.
  - set (length := significant 1 (be_bytes 8 (len value))).
    destruct (be_bytes_value 8 (len value)) as [Ev Hb]; [change (256 ^ Z.of_nat 8) with (2 ^ 64); lia|].
    assert (from_bytes_be length = len value) as El by (by unfold length; rewrite significant_value).
    assert (0 < at_ length 0) as Hp by (apply significant_positive; [done|lia]).
    assert (1 ≤ len length ≤ 8) as Hn.
    { pose proof (significant_length 1 (be_bytes 8 (len value))) as Hx. rewrite length_be_bytes in Hx.
      fold length in Hx. unfold len. lia. }
    assert (Z.lor 128 (len length) = 128 + len length) as ->.
    { assert (∀ k, 1 ≤ k ≤ 8 → Z.lor 128 k = 128 + k) as Hk; [|by apply Hk].
      intros k Hk. assert (k = 1 ∨ k = 2 ∨ k = 3 ∨ k = 4 ∨ k = 5 ∨ k = 6 ∨ k = 7 ∨ k = 8) by lia.
      destruct_or!; by subst. }
    test_false (128 + len length <? 128). replace (128 + len length - 128) with (len length) by lia.
    rewrite <-app_assoc, split_at_app. cbn [mbind option_bind]. rewrite El.
    test_false (at_ length 0 =? 0). test_false (len value <? 128). cbn [orb]. by rewrite split_at_app.
Qed.

Lemma der_expect_tlv tag value rest : len value < 2 ^ 64 → der_expect tag (der_tlv tag value ++ rest) = Some (value, rest).
Proof. intros Hl. unfold der_expect. rewrite der_tlv_decodes by done. cbn. by rewrite Z.eqb_refl. Qed.
Lemma der_expect_last tag value : len value < 2 ^ 64 → der_expect tag (der_tlv tag value) = Some (value, []).
Proof. intros Hl. rewrite <-(app_nil_r (der_tlv tag value)). by apply der_expect_tlv. Qed.

(** ** Integers *)

Lemma significant_0_bytes l : bytes_ok l = true →
  bytes_ok (significant 0 l) = true ∧ (significant 0 l = [] ∨ 0 < at_ (significant 0 l) 0) ∧ len (significant 0 l) ≤ len l.
Proof.
  induction l as [|b l IH]; intros Hb; [by split_and!; [|left|]|].
  pose proof Hb as Hb'. cbn in Hb. apply andb_true_iff in Hb as [Hb Hl]. cbn [significant].
  destruct b as [|p|p]; [| |discriminate Hb].
  - case_decide; [lia|]. destruct (IH Hl) as (? & ? & ?). split_and!; [done..|]. simp_len. lia.
  - split_and!; [done|right; done|done].
Qed.

Lemma byte_high b : is_byte b = true → has_flag b 0x80 = negb (b <? 128).
Proof.
  intros Hb. unfold is_byte in Hb.
  assert (forallb (λ n, Bool.eqb (has_flag (Z.of_nat n) 0x80) (negb (Z.of_nat n <? 128))) (seq 0 256) = true) as Hall by done.
  rewrite forallb_forall in Hall. specialize (Hall (Z.to_nat b)). rewrite Z2Nat.id in Hall by lia.
  apply eqb_prop, Hall, in_seq. lia.
Qed.

Lemma der_integer_decodes m rest :
  bytes_ok m = true → len m < 2 ^ 63 → der_natural (der_integer m ++ rest) = Some (from_bytes_be m, rest).
Proof.
  intros Hb Hl. unfold der_integer, der_natural. destruct (significant_0_bytes m Hb) as (Hs & Hh & Hlen).
  rewrite <-(significant_value 0 m). destruct (significant 0 m) as [|b l]; [by rewrite der_expect_tlv|].
  assert (is_byte b = true) as Hbb by (cbn in Hs; by apply andb_true_iff in Hs as [? _]).
  destruct Hh as [|Hp]; [done|]. change (at_ (b :: l) 0) with b in Hp. rewrite (byte_high b Hbb).
  destruct (Z.ltb_spec b 128) as [Hlt|Hge]; cbn [negb].
  - rewrite der_expect_tlv by lia. cbn [mbind option_bind]. destruct l as [|c l].
    + test_true (b <? 128). cbn. by rewrite Z.mul_0_l.
    + test_true (b <? 128). test_false (b =? 0). done.
  - rewrite der_expect_tlv by (simp_len; lia). cbn [mbind option_bind]. test_false (b <? 128). done.
Qed.

(** ** Public keys *)

Lemma len_der_tlv tag value : len (der_tlv tag value) ≤ len value + 10.
Proof.
  pose proof (len_nonneg value). unfold der_tlv. destruct (len value <? 128); simp_len; [lia|].
  pose proof (significant_length 1 (be_bytes 8 (len value))) as Hx. rewrite length_be_bytes in Hx. unfold len in *. lia.
Qed.

Lemma len_der_integer l : bytes_ok l = true → len (der_integer l) ≤ len l + 12.
Proof.
  intros Hb. pose proof (len_nonneg l). unfold der_integer. destruct (significant_0_bytes l Hb) as (_ & _ & Hs).
  destruct (significant 0 l) as [|b r]; [etrans; [apply len_der_tlv|simp_len; lia]|].
  pose proof (len_nonneg r). destruct (has_flag b 0x80); (etrans; [apply len_der_tlv|simp_len; lia]).
Qed.

Lemma key_info_decodes algorithm key :
  len algorithm + len key < 2 ^ 63 → decode_key_info (key_info (der_tlv 0x30 algorithm) key) = Some (algorithm, key).
Proof.
  intros Hl. pose proof (len_nonneg algorithm). pose proof (len_nonneg key).
  pose proof (len_der_tlv 0x30 algorithm). pose proof (len_der_tlv 0x03 (0 :: key)) as Hk.
  assert (len (0 :: key) = 1 + len key) as E by (by simp_len). rewrite E in Hk.
  unfold decode_key_info, key_info. rewrite der_expect_last by (simp_len; lia). cbn [mbind option_bind].
  rewrite der_expect_tlv by lia. cbn [mbind option_bind]. rewrite der_expect_last by (rewrite E; lia). done.
Qed.

Lemma rsa_key_decodes modulus exponent :
  bytes_ok modulus = true → bytes_ok exponent = true → len modulus + len exponent < 2 ^ 62 →
  decode_rsa_key (der_tlv 0x30 (der_integer modulus ++ der_integer exponent))
  = Some (from_bytes_be modulus, from_bytes_be exponent).
Proof.
  intros Hm He Hl. pose proof (len_nonneg modulus). pose proof (len_nonneg exponent). unfold decode_rsa_key.
  rewrite der_expect_last by (pose proof (len_der_integer _ Hm); pose proof (len_der_integer _ He); simp_len; lia). cbn [mbind option_bind].
  rewrite der_integer_decodes by (done || lia). cbn [mbind option_bind].
  rewrite <-(app_nil_r (der_integer exponent)), der_integer_decodes by (done || lia). done.
Qed.

(** [CKA_PUBLIC_KEY_INFO] says the key. For every RSA modulus and exponent,
    every EC point with its parameters and every hybrid key, a DER decoder reads
    from the encoded information the algorithm and exactly the key it was made of;
    for RSA the two integers. *)
Theorem public_key_info_decodes `{KeyCore} :
  (∀ modulus exponent info, bytes_ok modulus = true → bytes_ok exponent = true → len modulus + len exponent < 2 ^ 61 →
     rsa_public_key_info modulus exponent = Some info →
     ∃ key, decode_key_info info = Some (zdrop 2 RSA_ALGORITHM_IDENTIFIER, key)
            ∧ decode_rsa_key key = Some (from_bytes_be modulus, from_bytes_be exponent))
  ∧ (∀ parameters point info, len parameters + len point < 2 ^ 61 →
       ec_public_key_info CKK_EC parameters point = Some info →
       decode_key_info info = Some (EC_PUBLIC_KEY_OID ++ parameters, 4 :: point))
  ∧ (∀ c key info, len key < 2 ^ 61 → hybrid_kem_public_key_info c key = Some info →
       ∃ oid, decode_key_info info = Some (oid, key)).
Proof.
  split_and!.
  - intros modulus exponent info Hm He Hl E. unfold rsa_public_key_info in E.
    destruct modulus as [|a modulus]; [done|]. destruct exponent as [|b exponent]; [done|]. injection E as <-.
    change RSA_ALGORITHM_IDENTIFIER with (der_tlv 0x30 (zdrop 2 RSA_ALGORITHM_IDENTIFIER)) at 1.
    eexists. split; [|apply rsa_key_decodes; try done; lia].
    apply key_info_decodes. pose proof (len_der_integer _ Hm). pose proof (len_der_integer _ He).
    pose proof (len_der_tlv 0x30 (der_integer (a :: modulus) ++ der_integer (b :: exponent))) as Ht. rewrite len_app in Ht.
    change (len (zdrop 2 RSA_ALGORITHM_IDENTIFIER)) with 13. lia.
  - intros parameters point info Hl E. destruct point as [|b point]; [done|].
    change (Some (key_info (der_tlv 0x30 (EC_PUBLIC_KEY_OID ++ parameters)) (4 :: b :: point)) = Some info) in E.
    injection E as <-. apply key_info_decodes. revert Hl. simp_len. change (len EC_PUBLIC_KEY_OID) with 9. lia.
  - intros c key info Hl E. unfold hybrid_kem_public_key_info in E. destruct (negb _); [done|]. injection E as <-.
    eexists. apply key_info_decodes. simp_len. lia.
Qed.

(** The curve identifiers of OpenPGP keys. The value shown as [CKA_EC_PARAMS]
    is the DER encoding of the curve's object identifier, except for Ed25519 and
    X25519, whose encoded length is one too small. *)
Theorem curve_oid_decodes c :
  der_expect 0x06 (curve_oid c) = Some (curve_identifier c, []) ↔ c ≠ PgpCurveEd25519 ∧ c ≠ PgpCurveX25519.
Proof. destruct c; split; try done; try (by intros [? ?]); vm_compute; discriminate. Qed.

(** An RSA key with the modulus 33 and the exponent 3. *)
Lemma public_key_info_decodes_witness :
  ∃ info key, rsa_public_key_info [33] [3] = Some info
    ∧ decode_key_info info = Some (zdrop 2 RSA_ALGORITHM_IDENTIFIER, key) ∧ decode_rsa_key key = Some (33, 3).
Proof.
  destruct (rsa_public_key_info [33] [3]) as [info|] eqn:E; [|by vm_compute in E]. exists info.
  destruct (proj1 public_key_info_decodes [33] [3] info eq_refl eq_refl eq_refl E) as (key & H1 & H2).
  exists key. split; [done|]. split; [exact H1|exact H2].
Defined.
