(* ===== verification/ImportSafety.v ===== *)
(** * ImportSafety: what is created is what was asked for

    Theorems on [ObjectImport]: a data object shows every attribute of the
    template it was created from, and an imported secret key holds the bytes of its
    template and nothing else of it is lost or ignored. *)
From coqutil Require Import Datatypes.RecordSetters.
From S2P Require Import Prelude Errors Storage Mechanisms AttributeTypes KeyMetadata YubiHsm SlotState SessionApi CryptApi Digests CipherModes Ciphers SignatureModes OathOtp HsmCapabilities PivTables Attributes Templates ObjectImport Signatures SignatureStreams.
Import DoubleBraceUpdate.

(** ** Data objects *)

(** The value of a field of the template being read, as an attribute shows it. *)
Definition shown_field (f : DataFields) (t : Z) : option (list Z) :=
  let c := f_common f in
  if t =? CKA_APPLICATION then Some (f_application f)
  else if t =? CKA_OBJECT_ID then Some (f_object_id f)
  else if t =? CKA_VALUE then Some (f_value f)
  else if t =? CKA_CLASS then ulong_attribute <$> t_class c
  else if t =? CKA_TOKEN then Some (bool_attribute (t_token c))
  else if t =? CKA_PRIVATE then Some (bool_attribute (t_private c))
  else if t =? CKA_LABEL then Some (t_label c)
  else if one_of [CKA_MODIFIABLE; CKA_COPYABLE; CKA_DESTROYABLE] t then Some (bool_attribute true)
  else None.

Lemma read_bool_shown a v :
  read_bool_template_attribute a = Ok v → read_attribute_value a = Ok (bool_attribute v).
Proof.
  unfold read_bool_template_attribute. intros E. o_inv E. rename a1 into value. rewrite E1. f_equal.
  assert (ulValueLen a = 1) as Hn.
  { unfold bail in E0. destruct (negb _) eqn:Ez; [done|]. apply negb_false_iff in Ez. unfold SIZE_OF_BBOOL in Ez. lia. }
  assert (length value ≤ 1)%nat as Hl.
  { unfold read_attribute_value in E1. o_inv E1. injection E1 as <-. rewrite Hn. destruct (pValue a); cbn; [|lia].
    unfold ztake. rewrite length_take. lia. }
  destruct value as [|x [|y value]]; [done| |cbn in Hl; lia]. cbn in E. destruct x as [|[]|]; try done; by injection E as <-.
Qed.

(** The application's memory: its bytes are bytes, and there are as many as it
    says. *)
Definition memory_ok (a : CK_ATTRIBUTE) : Prop :=
  0 ≤ ulValueLen a ∧ ∀ m, pValue a = Some m → bytes_ok (mem_bytes m) = true ∧ ulValueLen a ≤ len (mem_bytes m).

Lemma ne_bytes_from_ne_bytes l : bytes_ok l = true → ne_bytes (length l) (from_ne_bytes l) = l.
Proof.
  induction l as [|b l IH]; [done|]. cbn [length ne_bytes from_ne_bytes]. intros Hb. cbn in Hb.
  apply andb_true_iff in Hb as [Hb Hl]. unfold is_byte in Hb. f_equal.
  - rewrite (Z.mul_comm 256), Z_mod_plus_full. apply Z.mod_small. lia.
  - rewrite (Z.mul_comm 256), Z_div_plus_full, (Z.div_small b) by lia. rewrite Z.add_0_l. by apply IH.
Qed.

Lemma read_value_length a value :
  memory_ok a → read_attribute_value a = Ok value → len value = ulValueLen a ∧ bytes_ok value = true.
Proof.
  intros [Hn Hm] E. unfold read_attribute_value in E. o_inv E. injection E as <-. unfold bail in E1.
  destruct (pValue a) as [m|]; cbn in *.
  - destruct (Hm m eq_refl). rewrite len_ztake by lia. split; [lia|by apply bytes_ok_ztake].
  - destruct (Z.ltb_spec 0 (ulValueLen a)); [done|]. rewrite len_nil. split; [lia|done].
Qed.

Lemma read_ulong_shown a n :
  memory_ok a → read_ulong_template_attribute a = Ok n → read_attribute_value a = Ok (ulong_attribute n).
Proof.
  intros Hm E. unfold read_ulong_template_attribute in E. o_inv E.
  destruct (read_attribute_value a) as [value| |] eqn:Ev; try done. injection E as <-.
  destruct (read_value_length a value Hm Ev) as [Hl Hb]. unfold bail in E0.
  destruct (Z.eqb_spec (ulValueLen a) SIZE_OF_ULONG) as [Hn|]; [|done]. unfold ulong_attribute.
  f_equal. replace 8%nat with (length value); [by rewrite ne_bytes_from_ne_bytes|].
  unfold SIZE_OF_ULONG, len in *. lia.
Qed.

(** Reading one attribute sets its field and no other. *)
Lemma data_attribute_step a f f' :
  memory_ok a → data_attribute a f = Ok f' →
  (∃ value, read_attribute_value a = Ok value ∧ shown_field f' (attr_type a) = Some value)
  ∧ ∀ t, t ≠ attr_type a → shown_field f' t = shown_field f t.
Proof.
  intros Hm E. unfold data_attribute in E. destruct f as [c ap oi v]. remember (attr_type a) as t0 eqn:Ht0.
  assert (∀ r (P : DataFields → Prop), omap_ok r (map_err Generic (read_attribute_value a)) = Ok f' →
    (∀ value, read_attribute_value a = Ok value → P (r value)) → P f') as Hbytes.
  { intros r P Er HP. destruct (read_attribute_value a) as [value| |]; try done. injection Er as <-. by apply HP. }
  destruct (Z.eqb_spec t0 CKA_APPLICATION) as [Ht|N1].
  { eapply Hbytes; [exact E|]. intros value Hv. split; [exists value; split; [done|by rewrite Ht]|].
    intros t Hne. unfold shown_field. test_false (t =? CKA_APPLICATION). done. }
  destruct (Z.eqb_spec t0 CKA_OBJECT_ID) as [Ht|N2].
  { eapply Hbytes; [exact E|]. intros value Hv. split; [exists value; split; [done|by rewrite Ht]|].
    intros t Hne. unfold shown_field. test_false (t =? CKA_OBJECT_ID). done. }
  destruct (Z.eqb_spec t0 CKA_VALUE) as [Ht|N3].
  { eapply Hbytes; [exact E|]. intros value Hv. split; [exists value; split; [done|by rewrite Ht]|].
    intros t Hne. unfold shown_field. test_false (t =? CKA_VALUE). done. }
  destruct (one_of [CKA_CLASS; CKA_TOKEN; CKA_PRIVATE; CKA_LABEL] t0) eqn:Eo.
  - cbn [f_common] in E. destruct (apply_attribute a c) as [c'| |] eqn:Ea; [|discriminate E..]. injection E as <-.
    unfold apply_attribute in Ea. rewrite <-Ht0 in Ea. clear Ht0.
    apply existsb_exists in Eo as (t' & Hin & ->%Z.eqb_eq). cbn in Hin. destruct_or! Hin; subst t'; try done.
    + change (omap_ok (λ v, c {{ t_class := Some v }}) (read_ulong_template_attribute a) = Ok c') in Ea.
      destruct (read_ulong_template_attribute a) as [n| |] eqn:En; [|discriminate Ea..]. injection Ea as <-.
      split; [exists (ulong_attribute n); split; [by apply read_ulong_shown|done]|].
      intros t Hne. unfold shown_field. destruct c. cbn. test_false (t =? CKA_CLASS). done.
    + change (omap_ok (λ v, c {{ t_token := v }}) (read_bool_template_attribute a) = Ok c') in Ea.
      destruct (read_bool_template_attribute a) as [n| |] eqn:En; [|discriminate Ea..]. injection Ea as <-.
      split; [exists (bool_attribute n); split; [by apply read_bool_shown|by destruct c]|].
      intros t Hne. unfold shown_field. destruct c. cbn. test_false (t =? CKA_TOKEN). done.
    + change (omap_ok (λ v, c {{ t_private := v }}) (read_bool_template_attribute a) = Ok c') in Ea.
      destruct (read_bool_template_attribute a) as [n| |] eqn:En; [|discriminate Ea..]. injection Ea as <-.
      split; [exists (bool_attribute n); split; [by apply read_bool_shown|by destruct c]|].
      intros t Hne. unfold shown_field. destruct c. cbn. test_false (t =? CKA_PRIVATE). done.
    + change (omap_ok (λ v, c {{ t_label := v }}) (read_text a) = Ok c') in Ea. unfold read_text in Ea. destruct (read_attribute_value a) as [value| |] eqn:En; [|discriminate Ea..]. cbn [obind] in Ea.
      destruct (utf8_valid value); [|discriminate Ea]. injection Ea as <-.
      split; [exists value; split; [done|by destruct c]|].
      intros t Hne. unfold shown_field. destruct c. cbn. test_false (t =? CKA_LABEL). done.
  - destruct (one_of [CKA_MODIFIABLE; CKA_COPYABLE; CKA_DESTROYABLE] t0) eqn:Em; [|done].
    destruct (require_true a) as [[]| |] eqn:Er; [|discriminate E..]. injection E as <-. split; [|done].
    unfold require_true in Er. destruct (read_bool_template_attribute a) as [[]| |] eqn:En; [|discriminate Er..].
    exists (bool_attribute true). split; [by apply read_bool_shown|]. clear Ht0.
    apply existsb_exists in Em as (t' & Hin & ->%Z.eqb_eq). cbn in Hin. by destruct_or! Hin; subst t'.
Qed.

Lemma data_attributes_shown templ : ∀ f f',
  Forall memory_ok templ → NoDup (map attr_type templ) → for_attributes data_attribute templ f = Ok f' →
  (∀ a, a ∈ templ → ∃ value, read_attribute_value a = Ok value ∧ shown_field f' (attr_type a) = Some value)
  ∧ ∀ t, t ∉ map attr_type templ → shown_field f' t = shown_field f t.
Proof.
  induction templ as [|a templ IH]; intros f f' Hm Hn E; cbn [for_attributes] in E.
  { injection E as <-. split; [by intros a ?%elem_of_nil|done]. }
  apply Forall_cons_1 in Hm as [Ha Hm]. cbn [map] in Hn. apply list.NoDup_cons in Hn as [Hni Hn]. o_inv E. rename a0 into f1.
  destruct (data_attribute_step a f f1 Ha E0) as [Hv Hrest]. destruct (IH f1 f' Hm Hn E) as [H1 H2]. split.
  - intros a' [->|Ha']%elem_of_cons; [|by apply H1]. destruct Hv as (value & Er & Hs). exists value. split; [done|].
    by rewrite H2.
  - intros t Ht. cbn [map] in Ht. apply not_elem_of_cons in Ht as [Hne Ht]. rewrite H2 by done. by apply Hrest.
Qed.

(** ** Reading them back *)

Section created.
Context {B : Type} `{RsaCore B, SignatureCore B, KeyCore, Certificates, PreviewSignRecords, HashCore, LazyCells B}.

Lemma data_object_shows c o application object_id value t v (b : B) :
  into_object c = Ok o → class o = CKO_DATA →
  shown_field (mkDataFields c application object_id value) t = Some v →
  attribute_value (o {{ material := Data NO_INSTANCE application object_id value }}) t b = (Some v, b).
Proof.
  intros Ho Hc Hs. unfold into_object, into_object_with_software_secret_policy in Ho. o_inv Ho. injection Ho as <-.
  cbn in Hc. destruct c. cbn in *. destruct t_class as [cl|]; [|done]. injection E as <-. subst cl.
  unfold shown_field in Hs. cbn in Hs.
  repeat match type of Hs with
  | (if (t =? ?c) then _ else _) = _ => destruct (Z.eqb_spec t c) as [->|]; [injection Hs as <-; reflexivity|]
  end.
  destruct (Z.eqb_spec t CKA_MODIFIABLE) as [->|]; [injection Hs as <-; reflexivity|].
  destruct (Z.eqb_spec t CKA_COPYABLE) as [->|]; [injection Hs as <-; reflexivity|].
  destruct (Z.eqb_spec t CKA_DESTROYABLE) as [->|]; [injection Hs as <-; reflexivity|done].
Qed.

(** A data object is what its template says: every attribute given to
    [C_CreateObject] reads back, from the object that was made, as the bytes that
    were given. *)
Theorem created_data_reads_back templ o a (b : B) :
  Forall memory_ok templ → parse_data_object_template templ = Ok o → class o = CKO_DATA → a ∈ templ →
  ∃ value, read_attribute_value a = Ok value ∧ attribute_value o (attr_type a) b = (Some value, b).
Proof.
  intros Hm E Hc Ha. unfold parse_data_object_template in E. o_inv E. injection E as <-.
  rename a1 into f, a2 into o1. destruct (into_object (f_common f)) as [o2| |] eqn:Eo; try done. injection E2 as ->.
  unfold validate_unique_template, bail in E0. case_bool_decide as Hn; [|done]. clear E0.
  destruct (data_attributes_shown templ _ f Hm Hn E1) as [Hs _]. destruct (Hs a Ha) as (value & Hv & Hf).
  exists value. split; [done|]. destruct f as [c ap oi v]. eapply data_object_shows; [exact Eo| |exact Hf].
  revert Hc. by destruct o1.
Qed.
End created.

(** ** Imported keys *)

(** The components kept are those of the template. *)
Lemma components_of templ : ∀ s s',
  NoDup (map attr_type templ) → for_attributes create_attribute templ s = Ok s' →
  ∀ t v, s'.2 !! t = Some v →
    (∃ a, a ∈ templ ∧ attr_type a = t ∧ read_attribute_value a = Ok v) ∨ s.2 !! t = Some v.
Proof.
  induction templ as [|a templ IH]; intros s s' Hn E t v Hv; cbn [for_attributes] in E.
  { injection E as <-. by right. }
  cbn [map] in Hn. apply list.NoDup_cons in Hn as [Hni Hn]. o_inv E. rename a0 into s1.
  destruct (IH s1 s' Hn E t v Hv) as [(a' & Ha' & Ht & Hr)|Hs]; [left; exists a'; by split; [right|]|].
  unfold create_attribute in E0. destruct (is_key_component_attribute (attr_type a)).
  - destruct (read_attribute_value a) as [value| |] eqn:Ev; try done. injection E0 as <-. cbn in Hs.
    destruct (decide (attr_type a = t)) as [<-|Hne].
    + rewrite lookup_insert_eq in Hs. injection Hs as <-. left. exists a. by split; [left|].
    + rewrite lookup_insert_ne in Hs by done. by right.
  - destruct (apply_attribute a s.1); try done. injection E0 as <-. by right.
Qed.

Lemma components_kept templ : ∀ s s',
  NoDup (map attr_type templ) → for_attributes create_attribute templ s = Ok s' →
  (∀ a, a ∈ templ → is_key_component_attribute (attr_type a) = true → is_Some (s'.2 !! attr_type a))
  ∧ ∀ t, is_Some (s.2 !! t) → is_Some (s'.2 !! t).
Proof.
  induction templ as [|a templ IH]; intros s s' Hn E; cbn [for_attributes] in E.
  { injection E as <-. split; [by intros a ?%elem_of_nil|done]. }
  cbn [map] in Hn. apply list.NoDup_cons in Hn as [Hni Hn]. o_inv E. rename a0 into s1.
  destruct (IH s1 s' Hn E) as [H1 H2]. unfold create_attribute in E0.
  destruct (is_key_component_attribute (attr_type a)) eqn:Ec.
  - destruct (read_attribute_value a) as [value| |]; try done. injection E0 as <-. cbn in H2. split.
    + intros a' [->|Ha']%elem_of_cons Hc; [|by apply H1]. apply H2. rewrite lookup_insert_eq. eauto.
    + intros t Ht. apply H2. destruct (decide (attr_type a = t)) as [<-|]; [rewrite lookup_insert_eq; eauto|].
      by rewrite lookup_insert_ne.
  - destruct (apply_attribute a s.1); try done. injection E0 as <-. split; [|done].
    intros a' [->|Ha']%elem_of_cons Hc; [congruence|by apply H1].
Qed.

Section imported.
Context {B : Type} `{RsaCore B, SignatureCore B, KeyCore, KeyImport, Certificates, PreviewSignRecords, HashCore}.

(** An imported secret key is the key of its template. The object holds the
    bytes given as [CKA_VALUE], of a length its type permits; it counts as a key
    that was once outside the module; and no other component of a key was given,
    since one that is not used makes the import fail. *)
Theorem imported_secret_is_given templ o :
  parse_create_object_template_with_policy templ true = Ok o → class o = CKO_SECRET_KEY →
  ∃ value, material o = SoftwareSecret value
    ∧ (∃ a, a ∈ templ ∧ attr_type a = CKA_VALUE ∧ read_attribute_value a = Ok value)
    ∧ validate_software_secret_length (key_type o) (len value) = Ok tt
    ∧ always_sensitive (attributes o) = false ∧ never_extractable (attributes o) = false
    ∧ ∀ a, a ∈ templ → is_key_component_attribute (attr_type a) = true → attr_type a = CKA_VALUE.
Proof.
  intros E Hc. unfold parse_create_object_template_with_policy in E.
  apply bind_Ok in E as ([] & Hu & E). apply bind_Ok in E as ([t comps] & Ef & E).
  apply bind_Ok in E as (o1 & _ & E). apply bind_Ok in E as (m & Eb & E).
  unfold validate_unique_template, bail in Hu. case_bool_decide as Hn; [|done].
  destruct m as [| | | | | | | | | | | | | | | | | | | | | | | | | |value]; try done.
  apply bind_Ok in E as ([] & Hlen & E). injection E as <-.
  assert (class o1 = CKO_SECRET_KEY) as Hc1 by (by destruct o1).
  assert (comps !! CKA_VALUE = Some value ∧ delete CKA_VALUE comps = ∅) as [Hv Hd].
  { clear - Eb Hc1. unfold build_imported_key_material, import_material in Eb. rewrite Hc1 in Eb.
    change (CKO_SECRET_KEY =? CKO_SECRET_KEY) with true in Eb. change (CKO_SECRET_KEY =? CKO_PUBLIC_KEY) with false in Eb.
    change (CKO_SECRET_KEY =? CKO_PRIVATE_KEY) with false in Eb. cbn [andb] in Eb.
    destruct (one_of SECRET_KEY_TYPES (key_type o1)); [|done].
    unfold import_secret, required_component, take_component, sbind, sm_lift, guard_err, sm_ret in Eb. cbn in Eb.
    destruct (comps !! CKA_VALUE) as [v|]; cbn in Eb; [|done].
    destruct (bool_decide (v = [])); cbn in Eb; [done|]. case_bool_decide; [|done]. by injection Eb as <-. }
  exists value. split; [by destruct o1|]. split_and!.
  - destruct (components_of templ _ _ Hn Ef CKA_VALUE value Hv) as [(a & Ha & Ht & Hr)|Hx]; [by exists a|done].
  - revert Hlen. by destruct o1.
  - by destruct o1 as [? ? ? ? ? ? ? ? ? ? ? ? ? ? ? []].
  - by destruct o1 as [? ? ? ? ? ? ? ? ? ? ? ? ? ? ? []].
  - intros a Ha Hk. destruct (components_kept templ _ _ Hn Ef) as [H1' _]. destruct (H1' a Ha Hk) as [v Hs]. cbn in Hs.
    destruct (decide (attr_type a = CKA_VALUE)) as [|Hne]; [done|].
    assert (delete CKA_VALUE comps !! attr_type a = Some v) as Hx by (by rewrite lookup_delete_ne).
    by rewrite Hd in Hx.
Qed.
End imported.

(** ** A key that is not extractable but shown *)

Section shown.
Context {B : Type} `{RsaCore B, SignatureCore B, KeyCore, Certificates, PreviewSignRecords, HashCore, LazyCells B}.

(** An EC private key made from a template without [CKA_SENSITIVE] and
    [CKA_EXTRACTABLE] is not extractable, and its private value can be read all the
    same: for private keys only [CKA_SENSITIVE] hides the value. For a software
    secret key, [CKA_EXTRACTABLE] hides it too. *)
Theorem nonextractable_private_value_shown t o curve key (b : B) :
  into_object t = Ok o → t_sensitive t = None → t_extractable t = None →
  class o = CKO_PRIVATE_KEY → key_type o = CKK_EC →
  o_extractable o = false
  ∧ attribute_value (o {{ material := SoftwarePrivate (SigningEc curve key) }}) CKA_VALUE b
    = (private_value (SigningEc curve key), b).
Proof.
  intros Ho Hs He Hc Hk. unfold into_object, into_object_with_software_secret_policy in Ho. rewrite Hs, He in Ho.
  o_inv Ho. injection Ho as <-. cbn in Hc, Hk. subst. split; reflexivity.
Qed.
End shown.

(** ** Witnesses *)

Definition toy_bytes_attribute (t : Z) (bytes : list Z) : CK_ATTRIBUTE :=
  mkAttribute t (Some (mkAttributeMemory bytes [])) (len bytes).
Definition toy_ulong (t n : Z) : CK_ATTRIBUTE := toy_bytes_attribute t (ulong_attribute n).

Definition toy_data_template : list CK_ATTRIBUTE :=
  [toy_ulong CKA_CLASS CKO_DATA; toy_bytes_attribute CKA_LABEL [75]; toy_bytes_attribute CKA_VALUE [1; 2; 3]].

Lemma created_data_reads_back_witness :
  ∃ o, parse_data_object_template toy_data_template = Ok o
    ∧ (attribute_value o CKA_VALUE (slot toy_start)).1 = Some [1; 2; 3].
Proof.
  destruct (parse_data_object_template toy_data_template) as [o| |] eqn:E; [|by vm_compute in E..].
  exists o. split; [done|].
  destruct (created_data_reads_back toy_data_template o (toy_bytes_attribute CKA_VALUE [1; 2; 3]) (slot toy_start))
    as (value & Hv & Hs).
  - repeat (apply Forall_cons_2 || apply Forall_nil_2); (split; [by vm_compute|]); intros m [= <-]; by vm_compute.
  - exact E.
  - vm_compute in E. by injection E as <-.
  - unfold toy_data_template. set_solver.
  - cbn [attr_type toy_bytes_attribute] in Hs. rewrite Hs. vm_compute in Hv. by injection Hv as <-.
Defined.

Definition toy_secret_template : list CK_ATTRIBUTE :=
  [toy_ulong CKA_CLASS CKO_SECRET_KEY; toy_ulong CKA_KEY_TYPE CKK_AES; toy_bytes_attribute CKA_VALUE toy_key].

Lemma imported_secret_is_given_witness :
  ∃ o, parse_create_object_template_with_policy toy_secret_template true = Ok o
    ∧ material o = SoftwareSecret toy_key.
Proof.
  destruct (parse_create_object_template_with_policy toy_secret_template true) as [o| |] eqn:E;
    [|by vm_compute in E..].
  exists o. split; [done|].
  destruct (imported_secret_is_given toy_secret_template o E) as (value & Hm & (a & Ha & Ht & Hr) & _).
  - vm_compute in E. by injection E as <-.
  - rewrite Hm. f_equal. unfold toy_secret_template in Ha. set_unfold in Ha.
    destruct_or! Ha; subst a; try done. vm_compute in Hr. by injection Hr as <-.
Defined.
