(* ===== verification/ConnectorService.v ===== *)
(** * ConnectorService: sharing YubiHSM devices over HTTP

    Models [src/crates/pkcs11rs-connector]: the registry of devices and the
    discovery task ([registry.rs]), the transports that reopen after a failure
    ([registry.rs], [i2c/transport.rs], [i2c/mod.rs]), the HTTP handlers
    ([api.rs]), the admission of connections ([admission.rs]) and the queue for
    an I2C bus ([i2c/fair_queue.rs]).

    Tasks run concurrently. A task's code between two [await]s that hold no lock
    is one step of the relation [service_step]; the discovery task's position in
    [attach_candidate] is the value [Attach]. An [Arc] that a request keeps is an
    entry in [serving], and an entry's transport is a cell of [transports].

    A serial is the code points of its string; messages of errors are left out,
    so that an error is its kind. *)
From stdpp Require Import sorting.
From S2P Require Import Prelude Storage.

Definition Serial : Type := list Z.

Inductive TransportErrorKind : Type := InvalidCommandFrame | CommandTooLarge | DeviceTransport | EndpointUnavailable.
#[export] Instance transport_error_eq_dec : EqDecision TransportErrorKind.
Proof. solve_decision. Defined.

(** ** The allow list *)

(** The [White_Space] property, which [str::trim] looks at. *)
Definition is_whitespace (c : Z) : bool :=
  ((9 <=? c) && (c <=? 13)) || (c =? 32) || (c =? 0x85) || (c =? 0xa0) || (c =? 0x1680)
  || ((0x2000 <=? c) && (c <=? 0x200a)) || (c =? 0x2028) || (c =? 0x2029) || (c =? 0x202f) || (c =? 0x205f) || (c =? 0x3000).
Fixpoint trim_start (s : list Z) : list Z :=
  match s with c :: rest => if is_whitespace c then trim_start rest else s | [] => [] end.
Definition trim (s : list Z) : list Z := reverse (trim_start (reverse (trim_start s))).

(** [value.split(',')] *)
Fixpoint split_commas (s : list Z) : list (list Z) :=
  match s with
  | [] => [[]]
  | c :: rest =>
      if c =? 44 then [] :: split_commas rest
      else match split_commas rest with part :: parts => (c :: part) :: parts | [] => [[c]] end
  end.

Fixpoint trimmed_entries (parts : list (list Z)) : option (list Serial) :=
  match parts with
  | [] => Some []
  | part :: rest =>
      match trim part with
      | [] => None
      | serial => (serial ::.) <$> trimmed_entries rest
      end
  end.
Definition SerialAllowlist_from_str (value : list Z) : option (gset Serial) :=
  match trim value with
  | [] => Some ∅
  | _ => list_to_set <$> trimmed_entries (split_commas value)
  end.

(** ** Transports *)

Definition single_frame (response : list Z) : bool :=
  (3 <=? len response) && (len response =? 3 + of_be16 (at_ response 1) (at_ response 2)).
Definition ensure_single_response_frame (response : list Z) : outcome TransportErrorKind unit :=
  bail (negb (single_frame response)) DeviceTransport.

(** What [pkcs11rs-local-hardware] offers for USB: a candidate of an enumeration
    or a hot-plug event, a device once opened. *)
Class UsbHost (D Candidate Device : Type) : Type := {
  candidate_id : Candidate → Z;
  candidate_strings : Candidate → list Z * list Z;
  candidate_version : Candidate → Z * Z;
  candidate_serial : Candidate → SM D unit (option Serial);
  candidate_open : Candidate → SM D TransportErrorKind Device;
  yubihsm_candidates : SM D TransportErrorKind (list Candidate);
  device_strings : Device → list Z * list Z;
  device_version : Device → Z * Z;
  device_serial : Device → Serial;
  device_connect : Device → SM D TransportErrorKind unit;
  transmit_owned : Device → list Z → SM D TransportErrorKind (list Z);
}.

(** The serial of an opened device is the one its candidate shows. *)
Class UsbHostLaws `{UsbHost D Candidate Device} : Prop := {
  opened_serial c d1 d1' s d2 d2' device :
    candidate_serial c d1 = (Ok (Some s), d1') → candidate_open c d2 = (Ok device, d2') → device_serial device = s;
}.

Section usb.
Context `{UsbHost D Candidate Device}.
Local Notation K := TransportErrorKind.

Definition usb_command (device : Device) (request : list Z) : SM D K (list Z) :=
  let! response := transmit_owned device request in
  let! _ := sm_lift (ensure_single_response_frame response) in
  sm_ret response.

(** [UsbTransportFactory::open] *)
Definition usb_factory_open (id : Z) (serial : Serial) : SM D K Device :=
  let! candidates := yubihsm_candidates in
  let! candidate := sm_lift (ok_or DeviceTransport (List.find (λ c, candidate_id c =? id) candidates)) in
  let! device := candidate_open candidate in
  let! _ := guard_err (negb (bool_decide (device_serial device = serial))) DeviceTransport in
  let! _ := device_connect device in
  sm_ret device.
End usb.

(** [RecoverableCommandTransport::command]: [open] is the factory, [command] the
    connected transport. *)
Definition recoverable_command {D C} (open : SM D TransportErrorKind C)
    (command : C → list Z → SM D TransportErrorKind (list Z)) (request : list Z)
    : SM (option C * D) TransportErrorKind (list Z) :=
  let! connected := sm_gets fst in
  let! connected :=
    match connected with
    | Some c => sm_ret c
    | None =>
        let! c := sm_snd open in
        let! _ := sm_modify (λ s, (Some c, s.2)) in
        sm_ret c
    end in
  λ s, let '(result, d) := command connected request s.2 in
       (result, (match result with Err DeviceTransport => None | _ => s.1 end, d)).

(** [reopen_verified] and [Connection::command] of the I2C transport. The state is
    the connection's device, the events it has sent and the bus. *)
Definition reopen_verified {D C} (serial : Z) (open : SM D TransportErrorKind (C * Z)) : SM D TransportErrorKind C :=
  let! '(device, discovered) := open in
  let! _ := guard_err (negb (discovered =? serial)) DeviceTransport in
  sm_ret device.

Definition i2c_command {D C} (serial generation : Z) (open : SM D TransportErrorKind (C * Z))
    (transmit : C → list Z → SM D TransportErrorKind (list Z)) (request : list Z)
    : SM (option C * list (Z * Z) * D) TransportErrorKind (list Z) :=
  let! device := sm_gets (λ s, s.1.1) in
  let! device :=
    match device with
    | Some c => sm_ret c
    | None =>
        let! c := sm_snd (reopen_verified serial open) in
        let! _ := sm_modify (λ s, (Some c, s.1.2, s.2)) in
        sm_ret c
    end in
  λ s, let '(device_events, d) := s in
       let '(result, d) := transmit device request d in
       (result,
        (match result with Err DeviceTransport | Err EndpointUnavailable => None | _ => device_events.1 end,
         match result with
         | Err EndpointUnavailable => device_events.2 ++ [(serial, generation)]
         | _ => device_events.2
         end, d)).

(** ** Devices *)

Inductive DeviceStatus : Type := StatusClaimed | StatusUnclaimed | StatusFiltered | StatusLegacyOnly.
Inductive DeviceTransportKind : Type := KindUsb | KindEmbedded | KindI2c.
#[export] Instance device_kind_eq_dec : EqDecision DeviceTransportKind.
Proof. solve_decision. Defined.

Record DeviceTransportView : Type := mkTransportView { view_kind : DeviceTransportKind; view_generation : Z }.
Record DeviceMetadata : Type := mkDeviceMetadata {
  md_serial : Serial; md_manufacturer : list Z; md_product : list Z; md_version : list Z }.
Record DeviceView : Type := mkDeviceView {
  dv_serial : Serial; dv_manufacturer : list Z; dv_product : list Z; dv_version : list Z;
  dv_status : DeviceStatus; dv_transport : DeviceTransportView }.

Definition DeviceMetadata_view (m : DeviceMetadata) (status : DeviceStatus) (transport : DeviceTransportView) : DeviceView :=
  mkDeviceView (md_serial m) (md_manufacturer m) (md_product m) (md_version m) status transport.

(** [command_transport] is the cell of the entry's transport. *)
Record DeviceEntry : Type := mkDeviceEntry {
  entry_id : option Z;
  legacy_only : bool;
  entry_metadata : DeviceMetadata;
  device_transport : DeviceTransportView;
  command_transport : Z;
}.

Definition DeviceEntry_view (e : DeviceEntry) : DeviceView :=
  DeviceMetadata_view (entry_metadata e) (if legacy_only e then StatusLegacyOnly else StatusClaimed) (device_transport e).

Inductive DeviceRecord : Type :=
| Claimed (entry : DeviceEntry)
| Unclaimed (metadata : DeviceMetadata) (transport : DeviceTransportView)
| Filtered (metadata : DeviceMetadata) (transport : DeviceTransportView).

Definition record_metadata (r : DeviceRecord) : DeviceMetadata :=
  match r with Claimed e => entry_metadata e | Unclaimed m _ | Filtered m _ => m end.
Definition record_view (r : DeviceRecord) : DeviceView :=
  match r with
  | Claimed e => DeviceEntry_view e
  | Unclaimed m t => DeviceMetadata_view m StatusUnclaimed t
  | Filtered m t => DeviceMetadata_view m StatusFiltered t
  end.
Definition record_claimed (r : DeviceRecord) : option DeviceEntry :=
  match r with Claimed e => Some e | _ => None end.
Definition record_transport (r : DeviceRecord) : DeviceTransportView := dv_transport (record_view r).

Record RegistryState : Type := mkRegistryState {
  records : gmap Serial DeviceRecord;
  serial_by_id : gmap Z Serial;
  connection_generations : gmap Serial Z;
  registry_legacy_serial : option Serial;
}.
Definition RegistryState_default : RegistryState := mkRegistryState ∅ ∅ ∅ None.

(** The parts of [DeviceRegistry] that do not change. *)
Record RegistryConfig : Type := mkRegistryConfig {
  serials : option (gset Serial);
  configured_legacy_serial : option Serial;
}.

Definition set_records (r : gmap Serial DeviceRecord) (st : RegistryState) : RegistryState :=
  mkRegistryState r (serial_by_id st) (connection_generations st) (registry_legacy_serial st).
Definition set_serial_by_id (m : gmap Z Serial) (st : RegistryState) : RegistryState :=
  mkRegistryState (records st) m (connection_generations st) (registry_legacy_serial st).
Definition set_generations (g : gmap Serial Z) (st : RegistryState) : RegistryState :=
  mkRegistryState (records st) (serial_by_id st) g (registry_legacy_serial st).
Definition set_legacy (s : option Serial) (st : RegistryState) : RegistryState :=
  mkRegistryState (records st) (serial_by_id st) (connection_generations st) s.

(** [format!("{}.{}", version.0, version.1)] *)
Definition version_string (v : Z * Z) : list Z := decimal v.1 ++ [46] ++ decimal v.2.

Section registry.
Context (cfg : RegistryConfig).

Definition allows_serial (serial : Serial) : bool :=
  match serials cfg with Some allowed => bool_decide (serial ∈ allowed) | None => true end.
Definition should_claim (serial : Serial) : bool :=
  allows_serial serial || bool_decide (configured_legacy_serial cfg = Some serial).

Definition registry_view (serial : Serial) (st : RegistryState) : option DeviceView := record_view <$> records st !! serial.
Definition registry_get (serial : Serial) (st : RegistryState) : option DeviceEntry :=
  r ← records st !! serial; e ← record_claimed r; if negb (legacy_only e) then Some e else None.
Definition select_legacy (configured : option Serial) (st : RegistryState) : option DeviceEntry :=
  serial ← match configured with Some s => Some s | None => registry_legacy_serial st end;
  r ← records st !! serial; record_claimed r.

Definition contains_id (id : Z) (st : RegistryState) : bool := bool_decide (is_Some (serial_by_id st !! id)).

(** [entry(serial).or_default()], then [saturating_add(1)] *)
Definition next_generation (serial : Serial) (st : RegistryState) : Z :=
  Z.min U64_MAX (default 0 (connection_generations st !! serial) + 1).
Definition next_connection_generation (serial : Serial) (st : RegistryState) : Z * RegistryState :=
  let g := next_generation serial st in (g, set_generations (<[serial := g]> (connection_generations st)) st).

Definition latch_legacy (serial : Serial) (st : RegistryState) : RegistryState :=
  match registry_legacy_serial st with None => set_legacy (Some serial) st | Some _ => st end.
Definition insert_record (serial : Serial) (r : DeviceRecord) (st : RegistryState) : RegistryState :=
  set_records (<[serial := r]> (records st)) st.

Definition register (id : Z) (r : DeviceRecord) (st : RegistryState) : bool * RegistryState :=
  let serial := md_serial (record_metadata r) in
  if bool_decide (is_Some (records st !! serial)) then (false, st)
  else
    let st := set_serial_by_id (<[id := serial]> (serial_by_id st)) st in
    let st := match record_claimed r with Some _ => latch_legacy serial st | None => st end in
    (true, insert_record serial r st).

Definition yubico_metadata (serial : Serial) (version : list Z) : DeviceMetadata :=
  mkDeviceMetadata serial (str "Yubico") (str "YubiHSM") version.

Definition register_filtered (serial : Serial) (version : option (Z * Z)) (kind : DeviceTransportKind) (st : RegistryState)
    : outcome TransportErrorKind unit * RegistryState :=
  if bool_decide (is_Some (records st !! serial)) then (Err DeviceTransport, st)
  else
    let '(generation, st) := next_connection_generation serial st in
    (Ok tt, insert_record serial (Filtered (yubico_metadata serial (default [] (version_string <$> version)))
                                    (mkTransportView kind generation)) st).

(** [transport] is the cell that the closure's transport is put in. *)
Definition register_configured (serial : Serial) (version : Z * Z) (kind : DeviceTransportKind) (transport : Z)
    (st : RegistryState) : outcome TransportErrorKind unit * RegistryState :=
  if negb (should_claim serial) then register_filtered serial (Some version) kind st
  else if bool_decide (is_Some (records st !! serial)) then (Err DeviceTransport, st)
  else
    let '(generation, st) := next_connection_generation serial st in
    let entry := mkDeviceEntry None (negb (allows_serial serial)) (yubico_metadata serial (version_string version))
                   (mkTransportView kind generation) transport in
    (Ok tt, insert_record serial (Claimed entry) (latch_legacy serial st)).

Definition remove_i2c (serial : Z) (generation : Z) (st : RegistryState) : bool * RegistryState :=
  let serial : Serial := decimal serial in
  let matching := match record_transport <$> records st !! serial with
                  | Some t => bool_decide (view_kind t = KindI2c) && (view_generation t =? generation)
                  | None => false
                  end in
  if negb matching then (false, st)
  else
    let st := set_records (delete serial (records st)) st in
    (true, if bool_decide (registry_legacy_serial st = Some serial) then set_legacy None st else st).

Definition detach (id : Z) (st : RegistryState) : RegistryState :=
  match serial_by_id st !! id with
  | None => st
  | Some serial => set_records (delete serial (records st)) (set_serial_by_id (delete id (serial_by_id st)) st)
  end.
End registry.

(** [str::cmp]; the order of UTF-8 bytes is the order of code points. *)
Fixpoint serial_leb (a b : Serial) : bool :=
  match a, b with
  | [], _ => true
  | _ :: _, [] => false
  | x :: a', y :: b' => (x <? y) || ((x =? y) && serial_leb a' b')
  end.
Definition view_le (a b : DeviceView) : Prop := serial_leb (dv_serial a) (dv_serial b) = true.
#[export] Instance view_le_dec a b : Decision (view_le a b).
Proof. unfold view_le. apply _. Defined.

Definition registry_list (st : RegistryState) : list DeviceView :=
  merge_sort view_le (record_view ∘ snd <$> map_to_list (records st)).

(** ** The running service *)

(** Where the discovery task is in [attach_candidate]: what it awaits next. *)
Inductive Attach (Candidate Device : Type) : Type :=
| AttachIdle
| AttachIdentify (c : Candidate)
| AttachFilter (c : Candidate) (m : DeviceMetadata)
| AttachFilterRegister (c : Candidate) (m : DeviceMetadata) (generation : Z)
| AttachOpen (c : Candidate) (m : DeviceMetadata)
| AttachConnect (c : Candidate) (m : DeviceMetadata) (d : Device)
| AttachUnclaimed (c : Candidate) (m : DeviceMetadata)
| AttachUnclaimedRegister (c : Candidate) (m : DeviceMetadata) (generation : Z)
| AttachGeneration (c : Candidate) (m : DeviceMetadata) (d : Device)
| AttachRegister (c : Candidate) (m : DeviceMetadata) (d : Device) (generation : Z).
Arguments AttachIdle {Candidate Device}.
Arguments AttachIdentify {Candidate Device} c.
Arguments AttachFilter {Candidate Device} c m.
Arguments AttachFilterRegister {Candidate Device} c m generation.
Arguments AttachOpen {Candidate Device} c m.
Arguments AttachConnect {Candidate Device} c m d.
Arguments AttachUnclaimed {Candidate Device} c m.
Arguments AttachUnclaimedRegister {Candidate Device} c m generation.
Arguments AttachGeneration {Candidate Device} c m d.
Arguments AttachRegister {Candidate Device} c m d generation.

(** A cell: a USB transport with its factory and its connection, or a transport
    that [register_configured] was given. *)
Inductive Transport (Device T : Type) : Type :=
| UsbTransport (id : Z) (serial : Serial) (connected : option Device)
| ConfiguredTransport (serial : Serial) (t : T).
Arguments UsbTransport {Device T} id serial connected.
Arguments ConfiguredTransport {Device T} serial t.

(** Which endpoint a request came by. *)
Inductive Endpoint : Type := Modern | Legacy.
#[export] Instance endpoint_eq_dec : EqDecision Endpoint.
Proof. solve_decision. Defined.

Record Service (D Candidate Device T : Type) : Type := mkService {
  registry : RegistryState;
  transports : gmap Z (Transport Device T);
  next_cell : Z;
  host : D;
  discovery : Attach Candidate Device;
  serving : list (Endpoint * DeviceEntry);
}.
Arguments mkService {D Candidate Device T} registry transports next_cell host discovery serving.
Arguments registry {D Candidate Device T} s.
Arguments transports {D Candidate Device T} s.
Arguments next_cell {D Candidate Device T} s.
Arguments host {D Candidate Device T} s.
Arguments discovery {D Candidate Device T} s.
Arguments serving {D Candidate Device T} s.

Section service.
Context `{UsbHost D Candidate Device} {T : Type}.
(** [CommandTransport::command] of the transports that are not USB. *)
Context (configured_command : T → list Z → SM D TransportErrorKind (list Z)).
Context (cfg : RegistryConfig).
Local Notation W := (Service D Candidate Device T).

Definition set_registry (st : RegistryState) (w : W) : W :=
  mkService st (transports w) (next_cell w) (host w) (discovery w) (serving w).
Definition set_discovery (p : Attach Candidate Device) (w : W) : W :=
  mkService (registry w) (transports w) (next_cell w) (host w) p (serving w).
Definition set_host (d : D) (w : W) : W :=
  mkService (registry w) (transports w) (next_cell w) d (discovery w) (serving w).
Definition set_transport (cell : Z) (t : Transport Device T) (w : W) : W :=
  mkService (registry w) (<[cell := t]> (transports w)) (next_cell w) (host w) (discovery w) (serving w).
(** A new cell. *)
Definition new_cell (t : Transport Device T) (w : W) : W :=
  mkService (registry w) (<[next_cell w := t]> (transports w)) (next_cell w + 1) (host w) (discovery w) (serving w).
Definition serve (e : Endpoint) (entry : DeviceEntry) (w : W) : W :=
  mkService (registry w) (transports w) (next_cell w) (host w) (discovery w) ((e, entry) :: serving w).

Definition candidate_metadata (c : Candidate) (serial : Serial) : DeviceMetadata :=
  mkDeviceMetadata serial (candidate_strings c).1 (candidate_strings c).2 (version_string (candidate_version c)).
Definition device_metadata (d : Device) (serial : Serial) : DeviceMetadata :=
  mkDeviceMetadata serial (device_strings d).1 (device_strings d).2 (version_string (device_version d)).

(** The event [Connected(candidate)], up to the first [await] on the device. *)
Definition attach_candidate (c : Candidate) (w : W) : W :=
  if contains_id (candidate_id c) (registry w) then w else set_discovery (AttachIdentify c) w.

(** [next_connection_generation(..).await], then on to the next step. *)
Definition with_generation (serial : Serial) (next : Z → Attach Candidate Device) (w : W) : W :=
  let '(g, st) := next_connection_generation serial (registry w) in set_discovery (next g) (set_registry st w).
Definition registered (c : Candidate) (r : DeviceRecord) (w : W) : W :=
  set_discovery AttachIdle (set_registry (register (candidate_id c) r (registry w)).2 w).

(** The code of [attach_candidate] from one [await] to the next. *)
Definition attach_step (w : W) : W :=
  match discovery w with
  | AttachIdle => w
  | AttachIdentify c =>
      let '(answer, d) := candidate_serial c (host w) in
      let w := set_host d w in
      match answer with
      | Ok (Some ((_ :: _) as serial)) =>
          let m := candidate_metadata c serial in
          set_discovery (if should_claim cfg serial then AttachOpen c m else AttachFilter c m) w
      | _ => set_discovery AttachIdle w
      end
  | AttachFilter c m => with_generation (md_serial m) (AttachFilterRegister c m) w
  | AttachFilterRegister c m g => registered c (Filtered m (mkTransportView KindUsb g)) w
  | AttachOpen c m =>
      let '(answer, d) := candidate_open c (host w) in
      set_discovery (match answer with Ok device => AttachConnect c m device | _ => AttachUnclaimed c m end) (set_host d w)
  | AttachConnect c m device =>
      let '(answer, d) := device_connect device (host w) in
      set_discovery (match answer with
                     | Ok _ => AttachGeneration c (device_metadata device (md_serial m)) device
                     | _ => AttachUnclaimed c m
                     end) (set_host d w)
  | AttachUnclaimed c m => with_generation (md_serial m) (AttachUnclaimedRegister c m) w
  | AttachUnclaimedRegister c m g => registered c (Unclaimed m (mkTransportView KindUsb g)) w
  | AttachGeneration c m device => with_generation (md_serial m) (AttachRegister c m device) w
  | AttachRegister c m device g =>
      let entry := mkDeviceEntry (Some (candidate_id c)) (negb (allows_serial cfg (md_serial m))) m
                     (mkTransportView KindUsb g) (next_cell w) in
      registered c (Claimed entry) (new_cell (UsbTransport (candidate_id c) (md_serial m) (Some device)) w)
  end.

(** [DeviceEntry::command], once the transport's lock is taken. *)
Definition entry_command (e : DeviceEntry) (request : list Z) (w : W) : outcome TransportErrorKind (list Z) * W :=
  match transports w !! command_transport e with
  | Some (UsbTransport id serial connected) =>
      let '(result, (connected, d)) :=
        recoverable_command (usb_factory_open id serial) usb_command request (connected, host w) in
      (result, set_host d (set_transport (command_transport e) (UsbTransport id serial connected) w))
  | Some (ConfiguredTransport _ t) =>
      let '(result, d) := configured_command t request (host w) in (result, set_host d w)
  | None => (Err DeviceTransport, w)
  end.

(** [register_configured] of the I2C coordinator and of the embedded devices. *)
Definition configure (serial : Serial) (version : Z * Z) (kind : DeviceTransportKind) (t : T) (w : W) : W :=
  let cell := next_cell w in
  set_registry (register_configured cfg serial version kind cell (registry w)).2
    (new_cell (ConfiguredTransport serial t) w).

(** *** The handlers *)

Inductive Problem : Type :=
| DeviceLegacyOnly | DeviceFiltered | DeviceUnclaimed | DeviceNotFound | NoDevice | TransportProblem (k : TransportErrorKind).
Definition problem_status (p : Problem) : Z :=
  match p with
  | DeviceLegacyOnly | DeviceFiltered => 403
  | DeviceUnclaimed | NoDevice => 503
  | DeviceNotFound => 404
  | TransportProblem InvalidCommandFrame => 400
  | TransportProblem CommandTooLarge => 413
  | TransportProblem DeviceTransport | TransportProblem EndpointUnavailable => 503
  end.

Definition get_device (serial : Serial) (w : W) : DeviceView + Problem :=
  match registry_view serial (registry w) with Some v => inl v | None => inr DeviceNotFound end.

(** [device_command] up to the lock of the device: the entry, or the answer. A
    second look at the registry finds the reason. *)
Definition device_command_entry (serial : Serial) (st st' : RegistryState) : DeviceEntry + Problem :=
  match registry_get serial st with
  | Some entry => inl entry
  | None =>
      match dv_status <$> registry_view serial st' with
      | Some StatusLegacyOnly => inr DeviceLegacyOnly
      | Some StatusFiltered => inr DeviceFiltered
      | Some _ => inr DeviceUnclaimed
      | None => inr DeviceNotFound
      end
  end.
Definition legacy_command_entry (st : RegistryState) : DeviceEntry + Problem :=
  match select_legacy (configured_legacy_serial cfg) st with Some e => inl e | None => inr NoDevice end.
Definition legacy_status (w : W) : bool * Serial :=
  match select_legacy (configured_legacy_serial cfg) (registry w) with
  | Some entry => (true, dv_serial (DeviceEntry_view entry))
  | None => (false, [42])
  end.
Definition command_response (result : outcome TransportErrorKind (list Z)) : list Z + Problem :=
  match result with Ok response => inl response | Err k => inr (TransportProblem k) | Panic => inr (TransportProblem DeviceTransport) end.

(** *** Steps *)

Inductive service_step : W → W → Prop :=
| step_connected w c : discovery w = AttachIdle → service_step w (attach_candidate c w)
| step_attach w : service_step w (attach_step w)
| step_disconnected w id : discovery w = AttachIdle → service_step w (set_registry (detach id (registry w)) w)
| step_configure w serial version kind t : kind ≠ KindUsb → service_step w (configure serial version kind t w)
| step_filtered w serial version kind :
    kind ≠ KindUsb → should_claim cfg serial = false →
    service_step w (set_registry (register_filtered serial version kind (registry w)).2 w)
| step_remove_i2c w serial g : service_step w (set_registry (remove_i2c serial g (registry w)).2 w)
| step_modern w serial st' e : device_command_entry serial (registry w) st' = inl e → service_step w (serve Modern e w)
| step_legacy w e : legacy_command_entry (registry w) = inl e → service_step w (serve Legacy e w)
| step_command w p e request : (p, e) ∈ serving w → service_step w (entry_command e request w).2
| step_host w d : service_step w (set_host d w).

Definition service_start (d : D) : W := mkService RegistryState_default ∅ 0 d AttachIdle [].
Definition reachable : W → W → Prop := rtc service_step.
End service.

(** ** Admission of connections *)

(** A permit of a semaphore is a number; an [Arc] of it is released when the last
    holder that names it is gone. *)
Record AdmittedService : Type := mkAdmitted { connection : Z; handshake : option Z }.
Record Admission : Type := mkAdmission {
  connections : Z;
  handshakes : option Z;
  holders : list AdmittedService;
  next_permit : Z;
}.
Definition Admission_new (max_connections : Z) (max_handshakes : option Z) : Admission :=
  mkAdmission max_connections max_handshakes [] 0.

Definition Admission_admit (a : Admission) : bool * Admission :=
  if connections a =? 0 then (false, a)
  else
    match handshakes a with
    | None => (true, mkAdmission (connections a - 1) None (holders a ++ [mkAdmitted (next_permit a) None]) (next_permit a + 1))
    | Some n =>
        if n =? 0 then (false, a)
        else (true, mkAdmission (connections a - 1) (Some (n - 1))
                      (holders a ++ [mkAdmitted (next_permit a) (Some (next_permit a))]) (next_permit a + 1))
    end.

Definition holds_connection (p : Z) (l : list AdmittedService) : bool := existsb (λ h, connection h =? p) l.
Definition holds_handshake (p : Z) (l : list AdmittedService) : bool :=
  existsb (λ h, match handshake h with Some q => q =? p | None => false end) l.

(** The holders become [rest], which no longer has [h]. *)
Definition release (h : AdmittedService) (rest : list AdmittedService) (a : Admission) : Admission :=
  mkAdmission
    (if holds_connection (connection h) rest then connections a else connections a + 1)
    (match handshake h with
     | Some p => if holds_handshake p rest then handshakes a else (λ n, n + 1) <$> handshakes a
     | None => handshakes a
     end) rest (next_permit a).

(** [Clone] of an admitted service, and the end of a holder: a dropped service, a
    cancelled or failed acceptance, a closed stream. *)
Definition clone_admitted (i : nat) (a : Admission) : Admission :=
  match holders a !! i with
  | Some h => mkAdmission (connections a) (handshakes a) (holders a ++ [h]) (next_permit a)
  | None => a
  end.
Definition drop_admitted (i : nat) (a : Admission) : Admission :=
  match holders a !! i with Some h => release h (delete i (holders a)) a | None => a end.
(** [accept] succeeds: the stream keeps the connection, the handshake is dropped. *)
Definition accept_admitted (i : nat) (a : Admission) : Admission :=
  match holders a !! i with
  | Some h => release h (<[i := mkAdmitted (connection h) None]> (holders a)) a
  | None => a
  end.

Inductive admission_step : Admission → Admission → Prop :=
| step_admit a : admission_step a (Admission_admit a).2
| step_clone a i : admission_step a (clone_admitted i a)
| step_drop a i : admission_step a (drop_admitted i a)
| step_accept a i : admission_step a (accept_admitted i a).

(** ** The queue of an I2C bus *)

Inductive TurnPhase : Type := TurnWaiting | TurnGranted.
(** [turns] is the queue; a thread owns each live turn and is waiting or has been
    granted; [grants] is the order of the grants. *)
Record FairQueue : Type := mkFairQueue {
  turns : list Z;
  turn_phases : gmap Z TurnPhase;
  next_turn : Z;
  grants : list Z;
}.
Definition FairQueue_default : FairQueue := mkFairQueue [] ∅ 0 [].

Definition enqueue (q : FairQueue) : FairQueue :=
  mkFairQueue (turns q ++ [next_turn q]) (<[next_turn q := TurnWaiting]> (turn_phases q)) (next_turn q + 1) (grants q).
(** [Drop for Turn]: the first entry that is this token is removed. *)
Fixpoint remove_first (t : Z) (l : list Z) : list Z :=
  match l with [] => [] | x :: rest => if x =? t then rest else x :: remove_first t rest end.
Definition drop_turn (t : Z) (q : FairQueue) : FairQueue :=
  mkFairQueue (remove_first t (turns q)) (delete t (turn_phases q)) (next_turn q) (grants q).
(** One turn of the loop of [wait]: expired, granted or still waiting. *)
Definition turn_poll (t : Z) (expired : bool) (q : FairQueue) : FairQueue :=
  if expired then drop_turn t q
  else if bool_decide (head (turns q) = Some t)
  then mkFairQueue (turns q) (<[t := TurnGranted]> (turn_phases q)) (next_turn q) (grants q ++ [t])
  else q.

Inductive queue_step : FairQueue → FairQueue → Prop :=
| step_enqueue q : queue_step q (enqueue q)
| step_poll q t expired : turn_phases q !! t = Some TurnWaiting → queue_step q (turn_poll t expired q)
| step_release q t : is_Some (turn_phases q !! t) → queue_step q (drop_turn t q).
