(* ===== verification/ConnectorSafety.v ===== *)
(** * ConnectorSafety: which device a request reaches

    Theorems about [ConnectorService], over all interleavings of discovery,
    configuration, removal and requests. *)
From stdpp Require Import sorting.
From S2P Require Import Prelude Storage ConnectorService.

(** ** A host that keeps a log of what it transmits *)

Section watched.
Context {D Candidate Device : Type} {U : UsbHost D Candidate Device}.

(** Each transmission: the device's serial, and the frame. *)
Definition Log : Type := list (Serial * list Z).

#[export] Instance watched_host : UsbHost (D * Log) Candidate Device := {
  candidate_id := candidate_id;
  candidate_strings := candidate_strings;
  candidate_version := candidate_version;
  candidate_serial c := sm_fst (candidate_serial c);
  candidate_open c := sm_fst (candidate_open c);
  yubihsm_candidates := sm_fst yubihsm_candidates;
  device_strings := device_strings;
  device_version := device_version;
  device_serial := device_serial;
  device_connect d := sm_fst (device_connect d);
  transmit_owned d request := λ s,
    let '(r, h) := transmit_owned d request s.1 in (r, (h, s.2 ++ [(device_serial d, request)]));
}.

#[export] Instance watched_laws (L : @UsbHostLaws D Candidate Device U) : @UsbHostLaws (D * Log) Candidate Device watched_host.
Proof.
  split. intros c d1 d1' s d2 d2' device. cbn. unfold sm_fst.
  destruct (candidate_serial c d1.1) as [r1 h1] eqn:E1, (candidate_open c d2.1) as [r2 h2] eqn:E2.
  intros [= -> _] [= -> _]. by apply (@opened_serial D Candidate Device U L c d1.1 h1 s d2.1 h2).
Qed.
End watched.

(** ** The invariant *)

Definition record_serial (r : DeviceRecord) : Serial := md_serial (record_metadata r).
Definition entry_serial (e : DeviceEntry) : Serial := md_serial (entry_metadata e).
Definition record_generation (r : DeviceRecord) : Z := view_generation (record_transport r).
Definition record_kind (r : DeviceRecord) : DeviceTransportKind := view_kind (record_transport r).
Definition generation_of (serial : Serial) (st : RegistryState) : Z := default 0 (connection_generations st !! serial).

(** A record is listed under its serial, an identifier names one USB record and
    every USB record is named. *)
Record registry_inv (st : RegistryState) : Prop := mkRegistryInv {
  inv_serial s r : records st !! s = Some r → record_serial r = s;
  inv_bound s : 0 ≤ generation_of s st ≤ U64_MAX;
  inv_generation s r : records st !! s = Some r → 1 ≤ record_generation r ≤ generation_of s st;
  inv_id id s : serial_by_id st !! id = Some s →
    ∃ r, records st !! s = Some r ∧ record_kind r = KindUsb ∧ ∀ e, r = Claimed e → entry_id e = Some id;
  inv_usb s r : records st !! s = Some r → record_kind r = KindUsb → ∃ id, serial_by_id st !! id = Some s;
  inv_one i j s : serial_by_id st !! i = Some s → serial_by_id st !! j = Some s → i = j;
}.

Section registry_steps.
Context (cfg : RegistryConfig).

Lemma registry_inv_default : registry_inv RegistryState_default.
Proof. split; intros *; cbn; rewrite ?lookup_empty; done. Qed.

Lemma generation_same s st :
  generation_of s (next_connection_generation s st).2 = Z.min U64_MAX (generation_of s st + 1).
Proof. unfold generation_of. cbn. by rewrite lookup_insert_eq. Qed.
Lemma generation_other s s' st : s' ≠ s → generation_of s' (next_connection_generation s st).2 = generation_of s' st.
Proof. intros. unfold generation_of. cbn. by rewrite lookup_insert_ne. Qed.
Lemma generation_grows s s' st :
  0 ≤ generation_of s' st ≤ U64_MAX → generation_of s' st ≤ generation_of s' (next_connection_generation s st).2 ≤ U64_MAX.
Proof.
  intros. destruct (decide (s' = s)) as [->|?]; [rewrite generation_same|rewrite generation_other by done]; lia.
Qed.

(** Taking a new generation changes no record. *)
Lemma generation_inv s st : registry_inv st → registry_inv (next_connection_generation s st).2.
Proof.
  intros [A B G I U O]. split; cbn [records serial_by_id next_connection_generation snd set_generations]; try done.
  - intros s'. pose proof (generation_grows s s' st (B s')). specialize (B s'). cbn [snd next_connection_generation] in *. lia.
  - intros s' r Hr. specialize (G s' r Hr). pose proof (generation_grows s s' st (B s')).
    cbn [snd next_connection_generation] in *. lia.
Qed.

Lemma latch_inv s st : registry_inv st → registry_inv (latch_legacy s st).
Proof. intros [A B G I U O]. unfold latch_legacy. by destruct (registry_legacy_serial st). Qed.

(** A new record without an identifier. *)
Lemma insert_configured_inv s r st :
  registry_inv st → records st !! s = None → record_serial r = s → record_kind r ≠ KindUsb →
  1 ≤ record_generation r ≤ generation_of s st → registry_inv (insert_record s r st).
Proof.
  intros [A B G I U O] Hn Hs Hk Hg. split; cbn; try done.
  - intros s' r'. rewrite lookup_insert_Some. naive_solver.
  - intros s' r'. rewrite lookup_insert_Some. intros [[<- <-]|[_ Hr]]; [done|by apply G].
  - intros id s' Hi. destruct (I id s' Hi) as (r' & Hr & ?). exists r'. split; [|done].
    rewrite lookup_insert_ne; [done|]. intros ->. by simplify_eq.
  - intros s' r'. rewrite lookup_insert_Some. intros [[<- <-]|[_ Hr]]; [done|by apply U].
Qed.

(** A new USB record with a fresh identifier. *)
Lemma insert_usb_inv id s r st :
  registry_inv st → records st !! s = None → serial_by_id st !! id = None → record_serial r = s → record_kind r = KindUsb →
  (∀ e, r = Claimed e → entry_id e = Some id) → 1 ≤ record_generation r ≤ generation_of s st →
  registry_inv (insert_record s r (set_serial_by_id (<[id := s]> (serial_by_id st)) st)).
Proof.
  intros [A B G I U O] Hn Hi Hs Hk He Hg.
  assert (∀ j, serial_by_id st !! j ≠ Some s) as Hj by (intros j Hj; destruct (I j s Hj) as (? & ? & _); by simplify_eq).
  split; cbn; try done.
  - intros s' r'. rewrite lookup_insert_Some. naive_solver.
  - intros s' r'. rewrite lookup_insert_Some. intros [[<- <-]|[_ Hr]]; [done|by apply G].
  - intros j s'. rewrite lookup_insert_Some. intros [[<- <-]|[? Hj']].
    { exists r. by rewrite lookup_insert_eq. }
    destruct (I j s' Hj') as (r' & Hr & ?). exists r'. split; [|done].
    rewrite lookup_insert_ne; [done|]. intros ->. by simplify_eq.
  - intros s' r'. rewrite lookup_insert_Some. intros [[<- <-]|[? Hr]] Hu; [exists id; by rewrite lookup_insert_eq|].
    destruct (U s' r' Hr Hu) as [j Hj']. exists j. rewrite lookup_insert_ne; [done|]. intros <-. by simplify_eq.
  - intros i j s'. rewrite !lookup_insert_Some. naive_solver.
Qed.

Lemma detach_inv id st : registry_inv st → registry_inv (detach id st).
Proof.
  intros [A B G I U O]. unfold detach. destruct (serial_by_id st !! id) as [s|] eqn:Hid; [|done].
  split; cbn; try done.
  - intros s' r'. rewrite lookup_delete_Some. naive_solver.
  - intros s' r'. rewrite lookup_delete_Some. intros [_ Hr]. by apply G.
  - intros j s'. rewrite lookup_delete_Some. intros [Hne Hj]. destruct (I j s' Hj) as (r' & Hr & ?).
    exists r'. rewrite lookup_delete_ne; [done|]. intros ->. by destruct Hne; apply (O _ _ s').
  - intros s' r'. rewrite lookup_delete_Some. intros [Hne Hr] Hu. destruct (U s' r' Hr Hu) as [j Hj]. exists j.
    rewrite lookup_delete_ne; [done|]. intros ->. by simplify_eq.
  - intros i j s'. rewrite !lookup_delete_Some. naive_solver.
Qed.

Lemma remove_i2c_inv n g st : registry_inv st → registry_inv (remove_i2c n g st).2.
Proof.
  intros [A B G I U O]. unfold remove_i2c. generalize (decimal n : Serial). intros s.
  destruct (records st !! s) as [r|] eqn:Hr; cbn; [|done]. destruct (bool_decide _ && _) eqn:Hm; cbn; [|done].
  bool_to_prop.
  assert (registry_inv (set_records (delete s (records st)) st)) as Hd.
  { split; cbn; try done.
    - intros s' r'. rewrite lookup_delete_Some. naive_solver.
    - intros s' r'. rewrite lookup_delete_Some. intros [_ Hr']. by apply G.
    - intros j s' Hj. destruct (I j s' Hj) as (r' & Hr' & Hu & ?). exists r'.
      rewrite lookup_delete_ne; [done|]. intros <-. unfold record_kind in Hu. congruence.
    - intros s' r'. rewrite lookup_delete_Some. intros [_ Hr']. by apply U. }
  case_bool_decide; [|done]. destruct Hd. by split.
Qed.

Lemma register_filtered_inv s v k st : k ≠ KindUsb → registry_inv st → registry_inv (register_filtered s v k st).2.
Proof.
  intros Hk Hi. unfold register_filtered. case_bool_decide as Hs; [done|]. cbn.
  apply (insert_configured_inv s _ (next_connection_generation s st).2); try done; [by apply generation_inv| |].
  { by apply eq_None_not_Some. }
  rewrite generation_same. pose proof (inv_bound _ Hi s). unfold record_generation, next_generation. cbn.
  fold (generation_of s st). unfold U64_MAX in *. lia.
Qed.

Lemma register_configured_inv s v k cell st :
  k ≠ KindUsb → registry_inv st → registry_inv (register_configured cfg s v k cell st).2.
Proof.
  intros Hk Hi. unfold register_configured. destruct (should_claim cfg s); cbn [negb]; [|by apply register_filtered_inv].
  case_bool_decide as Hs; [done|]. cbn.
  apply insert_configured_inv; try done; [by apply latch_inv, generation_inv| |].
  { unfold latch_legacy. destruct (registry_legacy_serial _); by apply eq_None_not_Some. }
  pose proof (inv_bound _ Hi s).
  match goal with |- context [generation_of s ?x] =>
    assert (generation_of s x = Z.min U64_MAX (generation_of s st + 1)) as ->
  end.
  { rewrite <-generation_same. unfold latch_legacy. cbn. by destruct (registry_legacy_serial _). }
  unfold record_generation, next_generation. cbn. fold (generation_of s st). unfold U64_MAX in *. lia.
Qed.

Lemma register_inv id r st :
  registry_inv st → serial_by_id st !! id = None → record_kind r = KindUsb → (∀ e, r = Claimed e → entry_id e = Some id) →
  1 ≤ record_generation r ≤ generation_of (record_serial r) st → registry_inv (register id r st).2.
Proof.
  intros Hi Hid Hk He Hg. unfold register. case_bool_decide as Hs; [done|]. cbn. apply eq_None_not_Some in Hs.
  assert (registry_inv (insert_record (record_serial r) r (set_serial_by_id (<[id := record_serial r]> (serial_by_id st)) st)))
    as Hn by by apply insert_usb_inv.
  destruct (record_claimed r); [|done]. unfold latch_legacy. cbn. destruct (registry_legacy_serial st); [done|].
  destruct Hn. by split.
Qed.
End registry_steps.

(** ** The running service *)

Definition transport_serial {Device T} (t : Transport Device T) : Serial :=
  match t with UsbTransport _ s _ | ConfiguredTransport s _ => s end.

Section service_invariant.
Context {D Candidate Device T : Type} {U : UsbHost D Candidate Device} {L : @UsbHostLaws D Candidate Device U}.
Context (configured_command : T → list Z → SM D TransportErrorKind (list Z)).
Context (cfg : RegistryConfig).
Local Notation W := (Service D Candidate Device T).

(** A connected USB transport holds the device it is named after. *)
Definition transport_ok (t : Transport Device T) : Prop :=
  match t with UsbTransport _ s (Some d) => device_serial d = s | _ => True end.

Definition entry_ok (w : W) (e : DeviceEntry) : Prop :=
  should_claim cfg (entry_serial e) = true ∧ legacy_only e = negb (allows_serial cfg (entry_serial e)) ∧
  ∃ t, transports w !! command_transport e = Some t ∧ transport_serial t = entry_serial e.

Definition fresh_candidate (w : W) (c : Candidate) : Prop := serial_by_id (registry w) !! candidate_id c = None.
Definition generation_taken (w : W) (m : DeviceMetadata) (g : Z) : Prop :=
  1 ≤ g ≤ generation_of (md_serial m) (registry w).
Definition claimable (m : DeviceMetadata) (d : Device) : Prop :=
  should_claim cfg (md_serial m) = true ∧ device_serial d = md_serial m.

Definition discovery_ok (w : W) : Prop :=
  match discovery w with
  | AttachIdle => True
  | AttachIdentify c | AttachFilter c _ | AttachUnclaimed c _ => fresh_candidate w c
  | AttachFilterRegister c m g | AttachUnclaimedRegister c m g => fresh_candidate w c ∧ generation_taken w m g
  | AttachOpen c m =>
      fresh_candidate w c ∧ should_claim cfg (md_serial m) = true ∧
      ∃ d d', candidate_serial c d = (Ok (Some (md_serial m)), d')
  | AttachConnect c m d | AttachGeneration c m d => fresh_candidate w c ∧ claimable m d
  | AttachRegister c m d g => fresh_candidate w c ∧ claimable m d ∧ generation_taken w m g
  end.

Record service_inv (w : W) : Prop := mkServiceInv {
  si_registry : registry_inv (registry w);
  si_claimed s e : records (registry w) !! s = Some (Claimed e) → entry_ok w e;
  si_serving p e : (p, e) ∈ serving w → entry_ok w e ∧ (p = Modern → allows_serial cfg (entry_serial e) = true);
  si_cell c t : transports w !! c = Some t → c < next_cell w ∧ transport_ok t;
  si_discovery : discovery_ok w;
}.

(** What a step of another task leaves alone. *)
Lemma discovery_frame (w w' : W) :
  discovery w' = discovery w → serial_by_id (registry w') = serial_by_id (registry w) →
  (∀ s, generation_of s (registry w) ≤ generation_of s (registry w')) → discovery_ok w → discovery_ok w'.
Proof.
  intros Hd Hs Hg. unfold discovery_ok, fresh_candidate, generation_taken. rewrite Hd, Hs.
  destruct (discovery w) as [|c|c m|c m g|c m|c m d|c m|c m g|c m d|c m d g]; try done;
    specialize (Hg (md_serial m)); intuition lia.
Qed.

Lemma entry_frame (w w' : W) e :
  (∀ c t, transports w !! c = Some t → ∃ t', transports w' !! c = Some t' ∧ transport_serial t' = transport_serial t) →
  entry_ok w e → entry_ok w' e.
Proof.
  intros Hk (Hc & Hl & t & Ht & Hs). destruct (Hk _ _ Ht) as (t' & Ht' & Hs').
  split_and!; [done|done|]. exists t'. by rewrite Hs'.
Qed.

(** A step that changes the registry only. *)
Lemma registry_step (w : W) st :
  service_inv w → registry_inv st →
  (∀ s e, records st !! s = Some (Claimed e) → records (registry w) !! s = Some (Claimed e) ∨ entry_ok w e) →
  discovery_ok (set_registry st w) → service_inv (set_registry st w).
Proof.
  intros [R C S T' Q] Hr Hc Hq. split; try done.
  intros s e He. destruct (Hc s e He) as [Hold|Hnew]; [by apply (C s e)|done].
Qed.

Lemma same_discovery_step (w : W) st :
  service_inv w → registry_inv st →
  (∀ s e, records st !! s = Some (Claimed e) → records (registry w) !! s = Some (Claimed e) ∨ entry_ok w e) →
  serial_by_id st = serial_by_id (registry w) → (∀ s, generation_of s (registry w) ≤ generation_of s st) →
  service_inv (set_registry st w).
Proof.
  intros Hi Hr Hc Hs Hg. apply registry_step; [done..|]. by apply (discovery_frame w); try apply Hi.
Qed.

Lemma host_step (w : W) d : service_inv w → service_inv (set_host d w).
Proof. intros [R C S T' Q]. by split. Qed.

Lemma discovery_step (w : W) p : service_inv w → discovery_ok (set_discovery p w) → service_inv (set_discovery p w).
Proof. intros [R C S T' Q] Hp. by split. Qed.

Lemma serve_step (w : W) p e :
  service_inv w → entry_ok w e → (p = Modern → allows_serial cfg (entry_serial e) = true) → service_inv (serve p e w).
Proof.
  intros [R C S T' Q] He Hp. split; try done.
  intros p' e'. cbn. rewrite elem_of_cons. intros [[= -> ->]|Hin]; [done|]. by apply (S p' e').
Qed.

Lemma new_cell_step (w : W) t : service_inv w → transport_ok t → service_inv (new_cell t w).
Proof.
  intros [R C S T' Q] Ht.
  assert (∀ c u, transports w !! c = Some u →
    ∃ u', transports (new_cell t w) !! c = Some u' ∧ transport_serial u' = transport_serial u) as Hk.
  { intros c u Hu. exists u. split; [|done]. cbn. rewrite lookup_insert_ne; [done|]. destruct (T' c u Hu). lia. }
  split; try done.
  - intros s e He. by apply (entry_frame w), (C s).
  - intros p e Hp. destruct (S p e Hp). split; [by apply (entry_frame w)|done].
  - intros c u. cbn. rewrite lookup_insert_Some. intros [[<- <-]|[? Hu]]; [split; [lia|done]|].
    destruct (T' c u Hu). split; [lia|done].
Qed.

Lemma set_transport_step (w : W) c t t' :
  service_inv w → transports w !! c = Some t → transport_serial t' = transport_serial t → transport_ok t' →
  service_inv (set_transport c t' w).
Proof.
  intros [R C S T' Q] Ht Hs Hok.
  assert (∀ c' u, transports w !! c' = Some u →
    ∃ u', transports (set_transport c t' w) !! c' = Some u' ∧ transport_serial u' = transport_serial u) as Hk.
  { intros c' u Hu. cbn. destruct (decide (c' = c)) as [->|?]; [rewrite lookup_insert_eq|rewrite lookup_insert_ne by done]; naive_solver. }
  split; try done.
  - intros s e He. by apply (entry_frame w), (C s).
  - intros p e Hp. destruct (S p e Hp). split; [by apply (entry_frame w)|done].
  - intros c' u. cbn. rewrite lookup_insert_Some. intros [[<- <-]|[? Hu]]; [|by apply T'].
    destruct (T' c t Ht). done.
Qed.
(** *** Commands *)

Lemma usb_factory_open_serial id s d device d' :
  usb_factory_open id s d = (Ok device, d') → device_serial device = s.
Proof.
  unfold usb_factory_open. intros E. sm_steps E. bool_to_prop. subst. done.
Qed.

Lemma recoverable_connected id s request connected d r connected' d' :
  transport_ok (UsbTransport id s connected) →
  recoverable_command (usb_factory_open id s) usb_command request (connected, d) = (r, (connected', d')) →
  transport_ok (UsbTransport id s connected').
Proof.
  intros Hok. unfold recoverable_command, sm_gets. cbn. destruct connected as [device|].
  - cbn. destruct (usb_command device request d) as [r1 d1].
    intros [= <- <- <-]. by destruct r1 as [?|[]|].
  - rewrite sm_bind_unfold. unfold sm_snd. cbn. rewrite sm_bind_unfold. cbn.
    destruct (usb_factory_open id s d) as [[device| |] d1] eqn:E1; [|by intros [= <- <- <-]..]. cbn.
    destruct (usb_command device request d1) as [r2 d2].
    intros [= <- <- <-]. by destruct r2 as [?|[]|]; cbn; try eapply usb_factory_open_serial.
Qed.

Lemma command_step (w : W) e request : service_inv w → service_inv (entry_command configured_command e request w).2.
Proof.
  intros Hi. unfold entry_command. destruct (transports w !! command_transport e) as [[id s connected|s t]|] eqn:Ht; [| |done].
  - destruct (recoverable_command _ _ request (connected, host w)) as [r [connected' d]] eqn:E. cbn.
    apply host_step. eapply set_transport_step; [done|done|done|].
    eapply recoverable_connected; [|done]. by apply (si_cell w Hi _ _ Ht).
  - destruct (configured_command t request (host w)) as [r d]. by apply host_step.
Qed.

(** *** The registry's own steps *)

Lemma generation_mono s st s' :
  registry_inv st → generation_of s' st ≤ generation_of s' (next_connection_generation s st).2.
Proof. intros Hi. pose proof (generation_grows s s' st (inv_bound _ Hi s')). lia. Qed.

Lemma latch_generation s s' st : generation_of s' (latch_legacy s st) = generation_of s' st.
Proof. unfold latch_legacy. by destruct (registry_legacy_serial st). Qed.

Lemma filtered_step (w : W) s v k :
  k ≠ KindUsb → service_inv w → service_inv (set_registry (register_filtered s v k (registry w)).2 w).
Proof.
  intros Hk Hi. apply same_discovery_step; [done|apply register_filtered_inv; [done|apply Hi]|..].
  all: unfold register_filtered; case_bool_decide; try done; try (intros; cbn; by left).
  - intros s' e. cbn. rewrite lookup_insert_Some. intros [[_ [=]]|[_ ?]]. by left.
  - intros s'. by apply (generation_mono s), Hi.
Qed.

Lemma remove_i2c_step (w : W) n g : service_inv w → service_inv (set_registry (remove_i2c n g (registry w)).2 w).
Proof.
  intros Hi. apply same_discovery_step; [done|apply remove_i2c_inv, Hi|..].
  all: unfold remove_i2c; case_match; try done; try (intros; by left).
  all: cbn; case_bool_decide; cbn; try done.
  all: intros s e; cbn; rewrite lookup_delete_Some; intros [_ ?]; by left.
Qed.

Lemma configure_step (w : W) s v k t : k ≠ KindUsb → service_inv w → service_inv (configure cfg s v k t w).
Proof.
  intros Hk Hi. unfold configure. set (w1 := new_cell (ConfiguredTransport s t) w).
  assert (service_inv w1) as Hi1 by by apply new_cell_step.
  apply (same_discovery_step w1); [done|apply register_configured_inv; [done|apply Hi]|..].
  all: unfold register_configured; destruct (should_claim cfg s) eqn:Hc; cbn [negb].
  all: unfold register_filtered; case_bool_decide; try done; try (intros; by left).
  - intros s' e. cbn. rewrite lookup_insert_Some. intros [[_ [= <-]]|[_ Hold]].
    + right. split_and!; [done|done|]. exists (ConfiguredTransport s t). split; [|done]. cbn. by rewrite lookup_insert_eq.
    + left. revert Hold. unfold latch_legacy. cbn. by destruct (registry_legacy_serial _).
  - intros s' e. cbn. rewrite lookup_insert_Some. intros [[_ [=]]|[_ ?]]. by left.
  - cbn. unfold latch_legacy. cbn. by destruct (registry_legacy_serial _).
  - intros s'. cbn. change (generation_of s' (registry w) ≤ generation_of s' (latch_legacy s (next_connection_generation s (registry w)).2)).
    rewrite latch_generation. by apply (generation_mono s), Hi.
  - intros s'. by apply (generation_mono s), Hi.
Qed.
Lemma register_serials id r st :
  (register id r st).2 = st ∨ serial_by_id (register id r st).2 = <[id := record_serial r]> (serial_by_id st).
Proof.
  unfold register. case_bool_decide; [by left|right]. cbn. destruct (record_claimed r); [|done].
  unfold latch_legacy. cbn. by destruct (registry_legacy_serial st).
Qed.
Lemma register_claimed id r st s e :
  records (register id r st).2 !! s = Some (Claimed e) → records st !! s = Some (Claimed e) ∨ r = Claimed e.
Proof.
  unfold register. case_bool_decide; [by left|]. cbn. rewrite lookup_insert_Some. intros [[_ <-]|[_ Hr]]; [by right|left].
  revert Hr. destruct (record_claimed r); [|done]. unfold latch_legacy. cbn. by destruct (registry_legacy_serial st).
Qed.

(** The discovery task registers what it found and is idle again. *)
Lemma registered_step (w : W) c r :
  service_inv w → fresh_candidate w c → record_kind r = KindUsb → (∀ e, r = Claimed e → entry_id e = Some (candidate_id c)) →
  1 ≤ record_generation r ≤ generation_of (record_serial r) (registry w) → (∀ e, r = Claimed e → entry_ok w e) →
  service_inv (registered c r w).
Proof.
  intros Hi Hf Hk Hid Hg He. unfold registered.
  assert (registry_inv (register (candidate_id c) r (registry w)).2) as Hr by (apply register_inv; [apply Hi|done..]).
  destruct Hi as [R C S T' Q]. split; cbn; try done.
  intros s e Hs. apply register_claimed in Hs as [Hs| ->]; [by apply (C s)|by apply He].
Qed.

(** It takes a generation. *)
Lemma with_generation_step (w : W) s next :
  service_inv w →
  (∀ w' : W, serial_by_id (registry w') = serial_by_id (registry w) → 1 ≤ next_generation s (registry w) ≤ generation_of s (registry w') →
     discovery w' = next (next_generation s (registry w)) → discovery_ok w') →
  service_inv (with_generation s next w).
Proof.
  intros Hi Hn. unfold with_generation. cbn.
  assert (registry_inv (next_connection_generation s (registry w)).2) as Hr by apply generation_inv, Hi.
  pose proof (inv_bound _ (si_registry w Hi) s) as Hb.
  assert (discovery_ok (with_generation s next w)) as Hq.
  { apply Hn; [done| |done]. cbn.
    change (1 ≤ next_generation s (registry w) ≤ generation_of s (next_connection_generation s (registry w)).2).
    rewrite generation_same. unfold next_generation. fold (generation_of s (registry w)). unfold U64_MAX in *. lia. }
  destruct Hi as [R C S T' Q]. by split.
Qed.

Lemma attach_inv (w : W) : service_inv w → service_inv (attach_step cfg w).
Proof.
  intros Hi. pose proof (si_discovery w Hi) as Hq. unfold attach_step, discovery_ok in *.
  destruct (discovery w) as [|c|c m|c m g|c m|c m d|c m|c m g|c m d|c m d g] eqn:Hd; [done|..].
  - destruct (candidate_serial c (host w)) as [r h] eqn:E.
    destruct r as [ [ [ | z l ] | ] | [] | ]; try (apply discovery_step; [by apply host_step|done]).
    apply discovery_step; [by apply host_step|]. unfold discovery_ok.
    destruct (should_claim cfg (z :: l)) eqn:Hc; cbn; [|exact Hq]. split_and!; [exact Hq|done|]. by exists (host w), h.
  - apply with_generation_step; [done|]. intros w' Hs Hg Hw. unfold discovery_ok, fresh_candidate, generation_taken.
    rewrite Hw, Hs. done.
  - destruct Hq as [Hf Hg]. by apply registered_step.
  - destruct Hq as (Hf & Hc & d1 & d1' & Hs). destruct (candidate_open c (host w)) as [r h] eqn:E.
    apply discovery_step; [by apply host_step|]. unfold discovery_ok. cbn. destruct r as [device|[]|]; [|done..].
    split; [done|]. split; [done|]. by eapply opened_serial.
  - destruct Hq as (Hf & Hc & Hs). destruct (device_connect d (host w)) as [r h] eqn:E.
    apply discovery_step; [by apply host_step|]. unfold discovery_ok. cbn. by destruct r as [[]|[]|].
  - apply with_generation_step; [done|]. intros w' Hs Hg Hw. unfold discovery_ok, fresh_candidate, generation_taken.
    rewrite Hw, Hs. done.
  - destruct Hq as [Hf Hg]. by apply registered_step.
  - destruct Hq as [Hf Hc]. apply with_generation_step; [done|]. intros w' Hs Hg Hw.
    unfold discovery_ok, fresh_candidate, generation_taken. rewrite Hw, Hs. done.
  - destruct Hq as (Hf & [Hc Hs] & Hg).
    apply registered_step; cbn; try done; [by apply new_cell_step|by intros e [= <-]|].
    intros e [= <-]. split_and!; [done|done|]. eexists. split; [apply lookup_insert_eq|done].
Qed.

Lemma service_step_inv (w w' : W) : service_step configured_command cfg w w' → service_inv w → service_inv w'.
Proof.
  intros [w0 c Hd|w0|w0 id Hd|w0 s v k t Hk|w0 s v k Hk Hc|w0 s g|w0 s st' e He|w0 e He|w0 p e request Hin|w0 d] Hi.
  - unfold attach_candidate, contains_id. case_bool_decide as Hn; [done|]. apply discovery_step; [done|].
    by apply eq_None_not_Some.
  - by apply attach_inv.
  - apply registry_step; [done|apply detach_inv, Hi| |by unfold discovery_ok; cbn; rewrite Hd].
    intros s e. unfold detach. destruct (serial_by_id _ !! id); [|by left]. cbn. rewrite lookup_delete_Some. intros [_ ?]. by left.
  - by apply configure_step.
  - by apply filtered_step.
  - by apply remove_i2c_step.
  - unfold device_command_entry, registry_get in He. destruct (records (registry w0) !! s) as [r|] eqn:Hr; cbn in He; [|by repeat case_match].
    destruct r as [e'| |]; cbn in He; [|by repeat case_match..]. destruct (legacy_only e') eqn:Hl; cbn in He; [by repeat case_match|].
    injection He as <-. pose proof (si_claimed w0 Hi s e' Hr) as Hok. apply serve_step; [done..|]. intros _.
    destruct Hok as (_ & Hlo & _). rewrite Hl in Hlo. symmetry in Hlo. by apply negb_false_iff in Hlo.
  - unfold legacy_command_entry, select_legacy in He.
    destruct (match configured_legacy_serial cfg with Some s => Some s | None => _ end) as [s|]; cbn in He; [|done].
    destruct (records (registry w0) !! s) as [r|] eqn:Hr; cbn in He; [|done]. destruct r as [e'| |]; cbn in He; [|done..].
    injection He as <-. apply serve_step; [done|by apply (si_claimed w0 Hi s)|done].
  - by apply command_step.
  - by apply host_step.
Qed.

Lemma service_start_inv d : service_inv (service_start d).
Proof.
  split; cbn; [apply registry_inv_default|..|done]; intros *; rewrite ?lookup_empty; try done. by rewrite elem_of_nil.
Qed.

Lemma reachable_inv d w : reachable configured_command cfg (service_start d) w → service_inv w.
Proof.
  intros Hr. refine (rtc_ind_r (R := service_step configured_command cfg) service_inv _ (service_start_inv d) _ w Hr).
  intros w1 w2 _ Hs. by apply service_step_inv.
Qed.
End service_invariant.

Section service_theorems.
Context {D Candidate Device T : Type} {U : UsbHost D Candidate Device} {L : @UsbHostLaws D Candidate Device U}.
Context (configured_command : T → list Z → SM (D * Log) TransportErrorKind (list Z)).
Context (cfg : RegistryConfig).
Local Notation W := (Service (D * Log) Candidate Device T).

(** Opening transmits nothing. *)
Lemma preserves_log {A} (c : SM D TransportErrorKind A) (l : Log) : preserves (λ d : D * Log, d.2 = l) (sm_fst c).
Proof. intros d Hd. unfold sm_fst. by destruct (c d.1). Qed.
Lemma usb_factory_open_log id s (d : D * Log) r d' : usb_factory_open id s d = (r, d') → d'.2 = d.2.
Proof.
  intros E. assert (preserves (λ x : D * Log, x.2 = d.2) (usb_factory_open id s)) as Hp.
  { unfold usb_factory_open. repeat (apply preserves_bind; [|intros ?]); first [exact (preserves_log _ _)|auto with rust]. }
  specialize (Hp d eq_refl). by rewrite E in Hp.
Qed.

Lemma usb_command_log device request (d : D * Log) r d' :
  usb_command device request d = (r, d') → d'.2 = d.2 ++ [(device_serial device, request)].
Proof.
  unfold usb_command, sbind, sm_lift, sm_ret. cbn. destruct (transmit_owned device request d.1) as [[x| |] h]; [|by intros [= <- <-]..].
  destruct (ensure_single_response_frame x); by intros [= <- <-].
Qed.

(** One command: at most one transmission, to the device of this serial. *)
Lemma recoverable_log id s request connected (d : D * Log) r connected' d' :
  transport_ok (T := T) (UsbTransport id s connected) →
  recoverable_command (usb_factory_open id s) usb_command request (connected, d) = (r, (connected', d')) →
  (d'.2 = d.2 ∧ is_ok r = false) ∨ d'.2 = d.2 ++ [(s, request)].
Proof.
  intros Hok. unfold recoverable_command, sm_gets. cbn [fst]. destruct connected as [device|]; cbn in Hok.
  - rewrite !sm_bind_unfold. cbn. destruct (usb_command device request d) as [r1 d1] eqn:E.
    intros [= <- <- <-]. right. apply usb_command_log in E. cbn in Hok. by subst s.
  - rewrite sm_bind_unfold. cbn. rewrite sm_bind_unfold. unfold sm_snd. cbn. rewrite sm_bind_unfold. cbn.
    destruct (usb_factory_open id s d) as [[device| |] d1] eqn:E1; cbn;
      [|intros [= <- <- <-]; left; split; [by eapply usb_factory_open_log|done]..].
    destruct (usb_command device request d1) as [r2 d2] eqn:E2. intros [= <- <- <-]. right.
    apply usb_command_log in E2. rewrite E2. apply usb_factory_open_log in E1 as E3. rewrite E3.
    apply usb_factory_open_serial in E1. cbn in E1. by subst s.
Qed.


End service_theorems.

(** ** Generations and the latched device *)

Section latch.
Context {D Candidate Device T : Type} {U : UsbHost D Candidate Device}.
Context (configured_command : T → list Z → SM D TransportErrorKind (list Z)).
Context (cfg : RegistryConfig).
Local Notation W := (Service D Candidate Device T).
Local Notation step := (service_step configured_command cfg).

(** What one step does to the registry. *)
Inductive registry_change (st : RegistryState) : RegistryState → Prop :=
| change_none : registry_change st st
| change_generation s : registry_change st (next_connection_generation s st).2
| change_register id r : record_kind r = KindUsb → registry_change st (register id r st).2
| change_filtered s v k : registry_change st (register_filtered s v k st).2
| change_configured s v k c : registry_change st (register_configured cfg s v k c st).2
| change_remove n g : registry_change st (remove_i2c n g st).2
| change_detach id : registry_change st (detach id st).

Lemma step_registry (w w' : W) : step w w' → registry_change (registry w) (registry w').
Proof.
  intros [w0 c Hd|w0|w0 id Hd|w0 s v k t Hk|w0 s v k Hk Hc|w0 s g|w0 s st' e He|w0 e He|w0 p e request Hin|w0 d];
    try (cbn; constructor).
  - unfold attach_candidate. destruct (contains_id _ _); constructor.
  - unfold attach_step. destruct (discovery w0) as [|c|c m|c m g|c m|c m d|c m|c m g|c m d|c m d g];
      repeat case_match; cbn; try constructor; done.
  - unfold entry_command. repeat case_match; cbn; constructor.
Qed.

Lemma legacy_change s st st' :
  registry_change st st' → registry_legacy_serial st = Some s →
  registry_legacy_serial st' = Some s ∨
  registry_legacy_serial st' = None ∧ records st' !! s = None ∧ ∃ r, records st !! s = Some r ∧ record_kind r = KindI2c.
Proof.
  intros [|s'|id r Hk|s' v k|s' v k c|n g|id] Hl; try (left; exact Hl).
  - left. unfold register, latch_legacy. case_bool_decide; [done|]. destruct (record_claimed r); cbn; rewrite ?Hl; cbn; by rewrite ?Hl.
  - left. unfold register_filtered. by case_bool_decide.
  - left. unfold register_configured, register_filtered, latch_legacy. cbn. rewrite Hl. by repeat case_match.
  - unfold remove_i2c. generalize (decimal n : Serial). intros s'. destruct (records st !! s') as [r|] eqn:Hr; cbn; [|by left].
    destruct (bool_decide _ && _) eqn:Hm; cbn; [|by left]. bool_to_prop. rewrite Hl. case_bool_decide as Hs; cbn; [|by left].
    injection Hs as ->. right. split_and!; [done|apply lookup_delete_eq|]. by exists r.
  - left. unfold detach. by destruct (serial_by_id st !! id).
Qed.

(** The serial that was latched for the legacy endpoint stays, whatever comes
    and goes, except when the latched device is an I2C endpoint that is lost. *)
Theorem legacy_serial_latched (w w' : W) s :
  step w w' → registry_legacy_serial (registry w) = Some s →
  registry_legacy_serial (registry w') = Some s ∨
  registry_legacy_serial (registry w') = None ∧ records (registry w') !! s = None ∧
    ∃ r, records (registry w) !! s = Some r ∧ record_kind r = KindI2c.
Proof. intros Hs. by apply legacy_change, step_registry. Qed.

(** *** Generations of I2C connections *)

(** Since the record [r0] of generation [g] was seen under [s], it is there still
    or the I2C records under [s] are newer. *)
Definition newer (s : Serial) (r0 : DeviceRecord) (st : RegistryState) : Prop :=
  record_generation r0 ≤ generation_of s st ∧
  (records st !! s = Some r0 ∨
   ∀ r, records st !! s = Some r → record_kind r = KindI2c → record_generation r0 < record_generation r).

Lemma generation_step_le s s' st : generation_of s st ≤ U64_MAX → generation_of s st ≤ generation_of s (next_connection_generation s' st).2.
Proof.
  intros. destruct (decide (s = s')) as [->|?]; [rewrite generation_same|rewrite generation_other by done]; lia.
Qed.

(** A new record of the next generation. *)
Lemma newer_insert s s' r0 r st st1 :
  records st !! s' = None → records st1 = records st →
  connection_generations st1 = connection_generations (next_connection_generation s' st).2 →
  generation_of s st ≤ U64_MAX → record_generation r = next_generation s' st → record_generation r0 < U64_MAX →
  newer s r0 st → newer s r0 (insert_record s' r st1).
Proof.
  intros Hs Hr1 Hg1 Hb Hg H0 [Hn Hr].
  assert (generation_of s (insert_record s' r st1) = generation_of s (next_connection_generation s' st).2) as Hgen
    by (unfold generation_of; cbn; by rewrite Hg1).
  split; [rewrite Hgen; pose proof (generation_step_le s s' st Hb); lia|]. cbn. rewrite Hr1.
  destruct (decide (s = s')) as [->|Hne]; [|by rewrite lookup_insert_ne].
  right. rewrite lookup_insert_eq. intros r' [= ->] _. rewrite Hg. unfold next_generation. fold (generation_of s' st). lia.
Qed.
Lemma newer_delete s s' r0 st st1 :
  records st1 = delete s' (records st) → connection_generations st1 = connection_generations st →
  newer s r0 st → newer s r0 st1.
Proof.
  intros Hr1 Hg1 [Hn Hr]. split; [unfold generation_of in *; by rewrite Hg1|]. rewrite Hr1.
  destruct (decide (s = s')) as [->|Hne]; [right; by rewrite lookup_delete_eq|by rewrite lookup_delete_ne].
Qed.
Lemma latch_records s st : records (latch_legacy s st) = records st ∧ connection_generations (latch_legacy s st) = connection_generations st.
Proof. unfold latch_legacy. by destruct (registry_legacy_serial st). Qed.

Lemma newer_change s r0 st st' :
  registry_change st st' → registry_inv st → record_generation r0 < U64_MAX → newer s r0 st → newer s r0 st'.
Proof.
  intros Hc Hi Hg Hn. pose proof (inv_bound _ Hi s) as [_ Hb].
  destruct Hc as [|s'|id r Hu|s' v k|s' v k c|n g|id].
  - done.
  - destruct Hn. split; [|done]. pose proof (generation_step_le s s' st Hb). lia.
  - unfold register. case_bool_decide as Hs; [done|]. cbn.
    set (st1 := match record_claimed r with Some _ => _ | None => _ end).
    assert (records st1 = records st ∧ connection_generations st1 = connection_generations st) as [Hr1 Hg1].
    { unfold st1. destruct (record_claimed r); [|done]. match goal with |- context [latch_legacy ?a ?b] => apply (latch_records a b) end. }
    destruct Hn as [Hn Hr]. split; [unfold generation_of in *; cbn; by rewrite Hg1|]. cbn. rewrite Hr1.
    destruct (decide (s = md_serial (record_metadata r))) as [->|Hne]; [|by rewrite lookup_insert_ne].
    right. rewrite lookup_insert_eq. intros r' [= ->]. congruence.
  - unfold register_filtered. case_bool_decide as Hs; [done|]. apply eq_None_not_Some in Hs. by apply (newer_insert _ _ _ _ st).
  - unfold register_configured. destruct (should_claim cfg s'); cbn [negb]; unfold register_filtered;
      (case_bool_decide as Hs; [done|]); apply eq_None_not_Some in Hs; apply (newer_insert _ _ _ _ st); try done;
      unfold latch_legacy; cbn; by destruct (registry_legacy_serial st).
  - unfold remove_i2c. case_match; [done|]. cbn. case_bool_decide; by eapply (newer_delete _ (decimal n)).
  - unfold detach. destruct (serial_by_id st !! id) as [s'|]; [|done]. by apply (newer_delete _ s' _ st).
Qed.
End latch.

Section stale_events.
Context {D Candidate Device T : Type} {U : UsbHost D Candidate Device} {L : @UsbHostLaws D Candidate Device U}.
Context (configured_command : T → list Z → SM D TransportErrorKind (list Z)).
Context (cfg : RegistryConfig).
Local Notation W := (Service D Candidate Device T).

(** The event of a lost I2C endpoint removes the connection it was sent for or
    nothing: an I2C record of the same serial and the same generation, at any
    later time, is that connection's record. *)
Theorem stale_event_removes_nothing d (w w' : W) s r r' :
  reachable configured_command cfg (service_start d) w → reachable configured_command cfg w w' →
  records (registry w) !! s = Some r → record_kind r = KindI2c → record_generation r < U64_MAX →
  records (registry w') !! s = Some r' → record_kind r' = KindI2c → record_generation r' = record_generation r → r' = r.
Proof.
  intros Hw Hw' Hr Hk Hg Hr' Hk' Hg'. pose proof (reachable_inv configured_command cfg d w Hw) as Hi.
  assert (service_inv cfg w' ∧ newer s r (registry w')) as [_ [_ [Hsame|Hnew]]]; [|congruence|specialize (Hnew r' Hr' Hk'); lia].
  clear Hr'. revert w' Hw'. refine (rtc_ind_r (R := service_step configured_command cfg) _ _ _ _).
  - split; [done|]. split; [|by left]. by apply (inv_generation _ (si_registry _ _ Hi) s r).
  - intros w1 w2 _ Hs [Hi1 Hn]. split; [by eapply service_step_inv|].
    eapply newer_change; [by eapply step_registry|apply Hi1|done|done].
Qed.
End stale_events.

(** ** Runs on concrete devices *)

(** A host that lists its attached devices; a frame is answered by an empty one. *)
Definition ToyHost : Type := list (Z * Serial).
#[export] Instance toy_host : UsbHost ToyHost (Z * Serial) Serial := {
  candidate_id := fst;
  candidate_strings _ := (str "Yubico", str "YubiHSM");
  candidate_version _ := (2, 4);
  candidate_serial c := sm_ret (Some c.2);
  candidate_open c := λ h, (if bool_decide (c ∈ h) then Ok c.2 else Err DeviceTransport, h);
  yubihsm_candidates := sm_gets id;
  device_strings _ := (str "Yubico", str "YubiHSM");
  device_version _ := (2, 4);
  device_serial d := d;
  device_connect _ := sm_ret tt;
  transmit_owned d request := sm_ret [0x80; 0; 0];
}.
#[export] Instance toy_host_laws : @UsbHostLaws ToyHost (Z * Serial) Serial toy_host.
Proof.
  split. intros c d1 d1' s d2 d2' device. cbn. unfold sm_ret. intros [= <- _].
  case_bool_decide; intros [=]; congruence.
Qed.

Definition no_configured : unit → list Z → SM (ToyHost * Log) TransportErrorKind (list Z) := λ _ request, sm_ret request.
(** Device 11 is allowed, 22 is reserved for the legacy endpoint. *)
Definition toy_config : RegistryConfig := mkRegistryConfig (Some {[str "11"]}) (Some (str "22")).
Definition toy_candidate : Z * Serial := (5, str "11").

Fixpoint attach_steps (n : nat) (w : Service (ToyHost * Log) (Z * Serial) Serial unit) :=
  match n with O => w | S n => attach_steps n (attach_step toy_config w) end.
Lemma attach_steps_reachable n w0 w :
  reachable no_configured toy_config w0 w → reachable no_configured toy_config w0 (attach_steps n w).
Proof. revert w. induction n as [|n IH]; intros w Hw; [done|]. apply IH. eapply rtc_r; [done|constructor]. Qed.

Definition toy_attached : Service (ToyHost * Log) (Z * Serial) Serial unit :=
  attach_steps 5 (attach_candidate toy_candidate (service_start ([toy_candidate], []))).
Lemma toy_attached_reachable : reachable no_configured toy_config (service_start ([toy_candidate], [])) toy_attached.
Proof. apply attach_steps_reachable, rtc_once, step_connected. done. Qed.


Definition toy_entry : DeviceEntry :=
  mkDeviceEntry (Some 5) false (mkDeviceMetadata (str "11") (str "Yubico") (str "YubiHSM") (str "2.4")) (mkTransportView KindUsb 1) 0.

(** The latched I2C device is lost and the legacy endpoint moves on to another
    device, which [docs/connector.md] says it does not do. *)
Example i2c_loss_fails_over :
  let cfg := mkRegistryConfig None None in
  let st := (register_configured cfg (decimal 11) (2, 4) KindI2c 0 RegistryState_default).2 in
  let st := (register_configured cfg (decimal 33) (2, 4) KindEmbedded 1 (remove_i2c 11 1 st).2).2 in
  entry_serial <$> select_legacy None st = Some (decimal 33).
Proof. vm_compute. reflexivity. Qed.

(** The discovery task has taken generation 1 when an I2C endpoint of the same
    serial registers with generation 2 and is lost: the USB device then appears
    with generation 1, smaller than the one clients have seen. *)
Example generation_goes_back :
  let cfg := mkRegistryConfig None None in
  let '(g, st) := next_connection_generation (decimal 11) RegistryState_default in
  let st := (register_configured cfg (decimal 11) (2, 4) KindI2c 0 st).2 in
  let seen := record_generation <$> records st !! decimal 11 in
  let st := (remove_i2c 11 2 st).2 in
  let st := (register 5 (Unclaimed (yubico_metadata (decimal 11) []) (mkTransportView KindUsb g)) st).2 in
  seen = Some 2 ∧ record_generation <$> records st !! decimal 11 = Some 1.
Proof. vm_compute. done. Qed.

(** ** The bus queue *)

(** The live turns are queued in the order they came; a granted turn is first. *)
Record queue_inv (q : FairQueue) : Prop := mkQueueInv {
  qi_sorted : StronglySorted Z.lt (turns q);
  qi_live t : t ∈ turns q ↔ is_Some (turn_phases q !! t);
  qi_next t : t ∈ turns q ∨ t ∈ grants q → t < next_turn q;
  qi_granted t : turn_phases q !! t = Some TurnGranted → head (turns q) = Some t;
  qi_waiting t : turn_phases q !! t = Some TurnWaiting → t ∉ grants q;
  qi_grants : StronglySorted Z.lt (grants q);
  qi_behind t g : turn_phases q !! t = Some TurnWaiting → g ∈ grants q → g < t;
}.

Lemma remove_first_sorted t l : StronglySorted Z.lt l → StronglySorted Z.lt (remove_first t l).
Proof.
  induction 1 as [|x l Hs IH Hx]; cbn; [constructor|]. destruct (x =? t); [done|].
  constructor; [done|]. rewrite list.Forall_forall in Hx |- *. intros y Hy. apply Hx. clear -Hy.
  induction l as [|z l IHl]; cbn in *; [done|]. destruct (z =? t); [by right|].
  apply elem_of_cons in Hy as [->|Hy]; [by left|right; by apply IHl].
Qed.
Lemma elem_of_remove_first t l x : StronglySorted Z.lt l → x ∈ remove_first t l ↔ x ∈ l ∧ x ≠ t.
Proof.
  induction 1 as [|y l Hs IH Hy]; cbn; [rewrite elem_of_nil; naive_solver|]. rewrite list.Forall_forall in Hy.
  destruct (Z.eqb_spec y t) as [->|Hne].
  - rewrite elem_of_cons. split; [|naive_solver]. intros Hx. specialize (Hy x Hx). split; [by right|lia].
  - rewrite !elem_of_cons, IH. naive_solver.
Qed.
Lemma sorted_app_last l x : StronglySorted Z.lt l → (∀ y, y ∈ l → y < x) → StronglySorted Z.lt (l ++ [x]).
Proof.
  induction 1 as [|y l Hs IH Hy]; intros Hl; cbn; [repeat constructor|]. constructor.
  - apply IH. intros z Hz. apply Hl. by right.
  - rewrite Forall_app. split; [done|]. constructor; [|done]. apply Hl. by left.
Qed.
Lemma head_remove_first t t' l : head l = Some t' → t' ≠ t → head (remove_first t l) = Some t'.
Proof. destruct l as [|x l]; cbn; [done|]. intros [= ->] Hne. by destruct (Z.eqb_spec t' t). Qed.

Lemma drop_turn_inv t q : queue_inv q → queue_inv (drop_turn t q).
Proof.
  intros [S L N G Wt Gs B]. split; cbn.
  - by apply remove_first_sorted.
  - intros x. rewrite elem_of_remove_first by done. rewrite L. unfold is_Some. setoid_rewrite lookup_delete_Some. naive_solver.
  - intros x. rewrite elem_of_remove_first by done. naive_solver.
  - intros x. rewrite lookup_delete_Some. intros [Hne Hx]. apply head_remove_first; [by apply G|done].
  - intros x. rewrite lookup_delete_Some. naive_solver.
  - done.
  - intros x g. rewrite lookup_delete_Some. naive_solver.
Qed.

Lemma queue_step_inv q q' : queue_step q q' → queue_inv q → queue_inv q'.
Proof.
  intros [q0|q0 t [] Ht|q0 t Ht] Hi; [| by apply drop_turn_inv| |by apply drop_turn_inv].
  - destruct Hi as [S L N G Wt Gs B].
    assert (turn_phases q0 !! next_turn q0 = None) as Hf.
    { apply eq_None_not_Some. intros Hx%L. specialize (N _ (or_introl Hx)). lia. }
    split; cbn.
    + apply sorted_app_last; [done|]. intros y Hy. apply N. by left.
    + intros x. rewrite elem_of_app, list_elem_of_singleton, L. unfold is_Some. setoid_rewrite lookup_insert_Some.
      destruct (decide (x = next_turn q0)) as [->|?]; naive_solver.
    + intros x. rewrite elem_of_app, list_elem_of_singleton. intros Hx.
      assert (x < next_turn q0 ∨ x = next_turn q0) by naive_solver. lia.
    + intros x. rewrite lookup_insert_Some. intros [[_ [=]]|[_ Hx]]. specialize (G x Hx).
      destruct (turns q0); [done|]. by cbn in *.
    + intros x. rewrite lookup_insert_Some. intros [[<- _]|[_ Hx]]; [|by apply Wt]. intros Hx. specialize (N _ (or_intror Hx)). lia.
    + done.
    + intros x g. rewrite lookup_insert_Some. intros [[<- _]|[_ Hx]] Hg; [apply N; by right|by apply B].
  - unfold turn_poll. case_bool_decide as Hh; [|done]. destruct Hi as [S L N G Wt Gs B]. split; cbn; try done.
    + intros x. rewrite L. unfold is_Some. setoid_rewrite lookup_insert_Some. destruct (decide (x = t)) as [->|?]; naive_solver.
    + intros x. rewrite elem_of_app, list_elem_of_singleton. intros [Hx|[Hx| ->]]; [apply N; by left|apply N; by right|].
      apply N. left. apply L. by eexists.
    + intros x. rewrite lookup_insert_Some. intros [[<- _]|[_ Hx]]; [done|by apply G].
    + intros x. rewrite lookup_insert_Some. intros [[_ [=]]|[Hne Hx]]. rewrite elem_of_app, list_elem_of_singleton.
      intros [?| ->]; [by apply (Wt x)|done].
    + apply sorted_app_last; [done|]. intros y Hy. by apply B.
    + intros x g. rewrite lookup_insert_Some. intros [[_ [=]]|[Hne Hx]]. rewrite elem_of_app, list_elem_of_singleton.
      intros [?| ->]; [by apply B|].
      assert (x ∈ turns q0) as Hin by (apply L; by eexists). destruct (turns q0) as [|y l]; [done|]. cbn in Hh.
      injection Hh as ->. apply elem_of_cons in Hin as [->|Hin]; [done|].
      apply StronglySorted_inv in S as [_ S]. rewrite list.Forall_forall in S. by apply S.
Qed.

(** The bus belongs to one turn at a time, turns are granted in the order they
    were asked for, and the first turn in the queue is never blocked: either it
    has been granted or its next look at the queue grants it. *)
Theorem bus_turns_fair q :
  rtc queue_step FairQueue_default q →
  (∀ t u, turn_phases q !! t = Some TurnGranted → turn_phases q !! u = Some TurnGranted → t = u) ∧
  StronglySorted Z.lt (grants q) ∧
  (∀ t, head (turns q) = Some t →
     turn_phases q !! t = Some TurnGranted ∨
     turn_phases q !! t = Some TurnWaiting ∧ turn_phases (turn_poll t false q) !! t = Some TurnGranted).
Proof.
  intros Hq. assert (queue_inv q) as Hi.
  { refine (rtc_ind_r (R := queue_step) queue_inv _ _ _ q Hq); [|intros q1 q2 _ Hs; by apply queue_step_inv].
    split; cbn; try constructor; intros *; rewrite ?lookup_empty, ?elem_of_nil; try done; by destruct 1. }
  destruct Hi as [S L N G Wt Gs B]. split_and!; [|done|].
  - intros t u Ht Hu. apply G in Ht, Hu. congruence.
  - intros t Hh. assert (is_Some (turn_phases q !! t)) as [[] Hp].
    { apply L. destruct (turns q); [done|]. injection Hh as ->. by left. }
    + right. split; [done|]. unfold turn_poll. rewrite bool_decide_true by done. cbn. by rewrite lookup_insert_eq.
    + by left.
Qed.

(** ** Admission *)

(** The connections and the handshakes that somebody still holds. *)
Definition open_connections (l : list AdmittedService) : gset Z := list_to_set (connection <$> l).
Definition open_handshakes (l : list AdmittedService) : gset Z := list_to_set (omap handshake l).

Lemma holds_connection_spec p l : holds_connection p l = bool_decide (p ∈ open_connections l).
Proof.
  unfold open_connections, holds_connection. induction l as [|h l IH]; cbn; [done|]. rewrite IH.
  destruct (Z.eqb_spec (connection h) p) as [->|Hne]; cbn; [symmetry; apply bool_decide_eq_true; set_solver|].
  apply bool_decide_ext. set_solver.
Qed.
Lemma holds_handshake_spec p l : holds_handshake p l = bool_decide (p ∈ open_handshakes l).
Proof.
  unfold open_handshakes, holds_handshake. induction l as [|h l IH]; cbn; [done|]. rewrite IH.
  destruct (handshake h) as [q|]; cbn; [|done].
  destruct (Z.eqb_spec q p) as [->|Hne]; cbn; [symmetry; apply bool_decide_eq_true; set_solver|].
  apply bool_decide_ext. set_solver.
Qed.

(** What is free and what is held make up the limits. *)
Record admission_inv (max_connections : Z) (max_handshakes : option Z) (a : Admission) : Prop := mkAdmissionInv {
  ai_connections : 0 ≤ connections a ∧ connections a + Z.of_nat (size (open_connections (holders a))) = max_connections;
  ai_handshakes :
    match max_handshakes with
    | Some m => ∃ n, handshakes a = Some n ∧ 0 ≤ n ∧ n + Z.of_nat (size (open_handshakes (holders a))) = m
    | None => handshakes a = None ∧ open_handshakes (holders a) = ∅
    end;
  ai_fresh p : p ∈ open_connections (holders a) ∨ p ∈ open_handshakes (holders a) → p < next_permit a;
}.

(** A permit is counted until its last holder is gone. *)
Lemma permit_count (free : Z) (p : Z) (held rest : gset Z) :
  held = {[p]} ∪ rest →
  (if bool_decide (p ∈ rest) then free else free + 1) + Z.of_nat (size rest) = free + Z.of_nat (size held).
Proof.
  intros ->. case_bool_decide as Hp.
  - by replace ({[p]} ∪ rest) with rest by set_solver.
  - rewrite size_union, size_singleton by set_solver. lia.
Qed.

Lemma release_inv mc mh a h rest :
  admission_inv mc mh a → open_connections (holders a) = {[connection h]} ∪ open_connections rest →
  open_handshakes (holders a) = match handshake h with Some p => {[p]} | None => ∅ end ∪ open_handshakes rest →
  admission_inv mc mh (release h rest a).
Proof.
  intros [[C0 C] Hh F] Hc Hs. split; cbn [connections handshakes holders next_permit release].
  - rewrite holds_connection_spec. split; [destruct (bool_decide _); lia|]. etrans; [exact (permit_count (connections a) _ _ _ Hc)|exact C].
  - destruct (handshake h) as [p|].
    2:{ rewrite (left_id_L ∅ (∪)) in Hs. by rewrite Hs in Hh. }
    rewrite holds_handshake_spec. destruct mh as [m|].
    + destruct Hh as (n & Hn & N0 & Nm). rewrite Hn.
      exists (if bool_decide (p ∈ open_handshakes rest) then n else n + 1).
      split; [by destruct (bool_decide _)|]. split; [destruct (bool_decide _); lia|].
      etrans; [exact (permit_count n _ _ _ Hs)|exact Nm].
    + destruct Hh as [Hn He]. exfalso. rewrite He in Hs. assert (p ∈ (∅ : gset Z)) by (rewrite Hs; set_solver). set_solver.
  - intros p Hp. apply F. rewrite Hc, Hs. set_solver.
Qed.

Lemma open_app l k :
  open_connections (l ++ k) = open_connections l ∪ open_connections k ∧ open_handshakes (l ++ k) = open_handshakes l ∪ open_handshakes k.
Proof. unfold open_connections, open_handshakes. rewrite fmap_app, omap_app. by rewrite !list_to_set_app_L. Qed.
Lemma open_cons h l :
  open_connections (h :: l) = {[connection h]} ∪ open_connections l ∧
  open_handshakes (h :: l) = match handshake h with Some p => {[p]} | None => ∅ end ∪ open_handshakes l.
Proof.
  unfold open_connections, open_handshakes. cbn. split; [done|]. destruct (handshake h); cbn; [done|by rewrite (left_id_L ∅ (∪))].
Qed.
Lemma open_nil : open_connections [] = ∅ ∧ open_handshakes [] = ∅.
Proof. done. Qed.

(** A holder and the others; a holder without its handshake. *)
Lemma open_split l i h :
  l !! i = Some h →
  open_connections l = {[connection h]} ∪ open_connections (delete i l) ∧
  open_handshakes l = match handshake h with Some p => {[p]} | None => ∅ end ∪ open_handshakes (delete i l) ∧
  open_connections (<[i := mkAdmitted (connection h) None]> l) = open_connections l ∧
  open_handshakes (<[i := mkAdmitted (connection h) None]> l) = open_handshakes (delete i l).
Proof.
  intros Hi. assert (take i l ++ h :: drop (S i) l = l) as Hl by by apply take_drop_middle.
  rewrite insert_take_drop by by apply lookup_lt_is_Some_1; eexists. rewrite delete_take_drop.
  assert (open_connections l = open_connections (take i l) ∪ ({[connection h]} ∪ open_connections (drop (S i) l)) ∧
          open_handshakes l = open_handshakes (take i l) ∪
            (match handshake h with Some p => {[p]} | None => ∅ end ∪ open_handshakes (drop (S i) l))) as [-> ->].
  { rewrite <-Hl at 1 4. split; [rewrite (proj1 (open_app _ _))|rewrite (proj2 (open_app _ _))]; f_equal; apply open_cons. }
  rewrite !(proj1 (open_app _ _)), !(proj2 (open_app _ _)), !(proj1 (open_cons _ _)), !(proj2 (open_cons _ _)). cbn.
  split_and!; [set_solver|destruct (handshake h); set_solver|done|set_solver].
Qed.

(** A holder of a fresh permit. *)
Lemma admitted_inv mc mh a h n :
  admission_inv mc mh a → connection h = next_permit a → connections a ≠ 0 →
  match handshake h with Some p => p = next_permit a ∧ ∃ m, handshakes a = Some m ∧ m ≠ 0 ∧ n = Some (m - 1) | None => n = handshakes a end →
  (handshake h = None → mh = None) →
  admission_inv mc mh (mkAdmission (connections a - 1) n (holders a ++ [h]) (next_permit a + 1)).
Proof.
  intros [[C0 C] Hh F] Hp Hc Hn Hm. destruct (open_app (holders a) [h]) as [Ec Eh], (open_cons h []) as [Ec' Eh'].
  assert (next_permit a ∉ open_connections (holders a) ∧ next_permit a ∉ open_handshakes (holders a)) as [Fc Fh].
  { split; intros Hx; [specialize (F _ (or_introl Hx))|specialize (F _ (or_intror Hx))]; lia. }
  rewrite (proj1 open_nil), (right_id_L ∅ (∪)), Hp in Ec'. rewrite (proj2 open_nil), (right_id_L ∅ (∪)) in Eh'.
  split; cbn [connections handshakes holders next_permit]; rewrite ?Ec, ?Eh, ?Ec', ?Eh'.
  - rewrite size_union, size_singleton by set_solver. lia.
  - destruct (handshake h) as [p|].
    + destruct Hn as (-> & m & Hm1 & Hm0 & ->). destruct mh as [lim|]; [|destruct Hh; congruence].
      destruct Hh as (m' & Hm' & ? & ?). assert (m' = m) as -> by congruence. exists (m - 1). split; [done|].
      rewrite size_union, size_singleton by set_solver. lia.
    + rewrite Hm in Hh |- * by done. destruct Hh as [? He]. subst n. split; [done|]. rewrite He. set_solver.
  - intros p Hx. assert (p < next_permit a ∨ p = next_permit a); [|lia].
    destruct (handshake h) as [q|]; [destruct Hn as [-> _]|]; destruct (decide (p = next_permit a)); [by right|left|by right|left];
      apply F; set_solver.
Qed.

Lemma admission_step_inv mc mh a b : admission_step a b → admission_inv mc mh a → admission_inv mc mh b.
Proof.
  intros [a0|a0 i|a0 i|a0 i] Hi.
  - unfold Admission_admit. destruct (Z.eqb_spec (connections a0) 0) as [|Hc]; [done|].
    pose proof (ai_handshakes _ _ _ Hi) as Hh. destruct (handshakes a0) as [n|] eqn:Hn.
    + destruct (Z.eqb_spec n 0) as [|Hn0]; [done|]. apply admitted_inv; cbn; [done..| |done]. split; [done|]. by exists n.
    + apply admitted_inv; cbn; [done..|]. intros _. destruct mh; [|done]. destruct Hh as (? & ? & _). congruence.
  - unfold clone_admitted. destruct (holders a0 !! i) as [h|] eqn:Hi'; [|done].
    destruct (open_app (holders a0) [h]) as [Ec Eh].
    assert (holders a0 ≡ₚ h :: delete i (holders a0)) as Hperm by by apply delete_Permutation.
    assert (open_connections (holders a0 ++ [h]) = open_connections (holders a0)) as Ec1.
    { rewrite Ec. unfold open_connections. apply set_eq. intros x. rewrite elem_of_union, !elem_of_list_to_set, !list_elem_of_fmap.
      setoid_rewrite list_elem_of_singleton. pose proof (list_elem_of_lookup_2 _ _ _ Hi'). naive_solver. }
    assert (open_handshakes (holders a0 ++ [h]) = open_handshakes (holders a0)) as Eh1.
    { rewrite Eh. unfold open_handshakes. apply set_eq. intros x. rewrite elem_of_union, !elem_of_list_to_set, !list_elem_of_omap.
      setoid_rewrite list_elem_of_singleton. pose proof (list_elem_of_lookup_2 _ _ _ Hi'). naive_solver. }
    destruct Hi as [C Hh F]. split; cbn [connections handshakes holders next_permit]; by rewrite ?Ec1, ?Eh1.
  - unfold drop_admitted. destruct (holders a0 !! i) as [h|] eqn:Hi'; [|done].
    destruct (open_split (holders a0) i h Hi') as (Ec & Eh & _). by apply release_inv.
  - unfold accept_admitted. destruct (holders a0 !! i) as [h|] eqn:Hi'; [|done].
    destruct (open_split (holders a0) i h Hi') as (Ec & Eh & Ec' & Eh'). apply release_inv; [done| |]; rewrite ?Ec', ?Eh'; [|done].
    rewrite Ec. set_solver.
Qed.

(** C39: the connector never has more than the configured number of open connections, nor more pending TLS handshakes
    than configured: what is free and what is held always add up to the limits, through admissions, clones, accepted,
    failed and cancelled handshakes and closed streams; a connection is admitted exactly when both are below their
    limits, and a refused one takes nothing. *)
Theorem admission_bounded max_connections max_handshakes a :
  0 ≤ max_connections → match max_handshakes with Some m => 0 ≤ m | None => True end →
  rtc admission_step (Admission_new max_connections max_handshakes) a →
  connections a + Z.of_nat (size (open_connections (holders a))) = max_connections ∧ 0 ≤ connections a ∧
  (∀ m, max_handshakes = Some m → Z.of_nat (size (open_handshakes (holders a))) ≤ m) ∧
  ((Admission_admit a).1 = true ↔
     Z.of_nat (size (open_connections (holders a))) < max_connections ∧
     ∀ m, max_handshakes = Some m → Z.of_nat (size (open_handshakes (holders a))) < m) ∧
  ((Admission_admit a).1 = false → (Admission_admit a).2 = a).
Proof.
  intros Hc Hm Ha. assert (admission_inv max_connections max_handshakes a) as [[C0 C] Hh _].
  { refine (rtc_ind_r (R := admission_step) (admission_inv max_connections max_handshakes) _ _ _ a Ha).
    - split; cbn [connections handshakes holders Admission_new]; rewrite ?(proj1 open_nil), ?(proj2 open_nil), ?size_empty.
      + lia.
      + destruct max_handshakes as [m|]; [|done]. exists m. split; [done|]. lia.
      + set_solver.
    - intros a1 a2 _ Hs. by apply admission_step_inv. }
  split_and!; [done|done| | |].
  - intros m ->. destruct Hh as (n & _ & ? & ?). lia.
  - unfold Admission_admit. destruct (Z.eqb_spec (connections a) 0) as [|Hn]; cbn; [split; [done|lia]|].
    destruct max_handshakes as [m|].
    + destruct Hh as (n & -> & ? & ?). destruct (Z.eqb_spec n 0); cbn.
      * split; [done|]. intros [_ Hx]. specialize (Hx m eq_refl). lia.
      * split; [|done]. intros _. split; [lia|]. intros m' [= <-]. lia.
    + destruct Hh as [-> _]. cbn. split; [|done]. intros _. split; [lia|done].
  - unfold Admission_admit. repeat case_match; done.
Qed.

Lemma admission_bounded_witness :
  (Admission_admit (Admission_admit (Admission_new 2 (Some 1))).2).1 = false ∧
  (Admission_admit (accept_admitted 0 (Admission_admit (Admission_new 2 (Some 1))).2)).1 = true.
Proof.
  destruct (admission_bounded 2 (Some 1) (Admission_admit (Admission_new 2 (Some 1))).2) as (_ & _ & _ & Hx & _);
    [lia|lia|apply rtc_once, step_admit|].
  destruct (admission_bounded 2 (Some 1) (accept_admitted 0 (Admission_admit (Admission_new 2 (Some 1))).2)) as (_ & _ & _ & Hy & _);
    [lia|lia|eapply rtc_r; [apply rtc_once, step_admit|apply step_accept]|].
  split; [vm_compute; reflexivity|]. apply Hy. split; [vm_compute; reflexivity|]. intros m [= <-]. vm_compute. reflexivity.
Defined.
